(* ===== verification/_CoqProject ===== *)
-Q . S2P
Prelude.v
Defs.v
Config.v
NatDrv.v
NatApp.v
NatAppSync.v
NatAppProps.v
Heap.v
CmdQueue.v
EvtDispatcher.v
CtListener.v
CtListenerProps.v
LanToLan.v
LanDriver.v
LanGraph.v
LanToLanProps.v
LanEvents.v
Neighbor.v
LocHeap.v
LocTimer.v
LocTimerInv.v
LocTimerProps.v
IpaDrv.v
IpaSim.v
StateM.v
ClientTable.v
ClientProps.v
ClientInv.v
ClientOps.v
LanSim.v
EthClients.v
EthProps.v
WlanClients.v
WlanProps.v
ClientNat.v
LanRules.v
LanRulesProps.v
LanCompose.v
NatTable.v
NatChain.v
NatTableInv.v
NatTableArith.v
NatTableSteps.v
NatTableOps.v
NatTableRep.v
NatTableAdd.v
NatTableDel.v
NatTableNew.v
NatTableHw.v
NatTableProps.v
LinkedList.v
Agps.v
AgpsSpec.v
AgpsRun.v
AgpsSim.v
AgpsOps.v
AgpsInv.v
AgpsProps.v
MsgQ.v
CamClients.v
CamPolicy.v
CamManager.v
CamService.v
CamServiceRun.v
CamProps.v
CamParams.v
CamParamsProps.v
CamBuffers.v
CamBuffersProps.v
CamStatus.v
