(* ===== verification/Prelude.v ===== *)
(** * The connection manager, GPS stack and camera service of the HTC One M9, verified

    [src/data-ipa-cfg-mgr/ipacm] is the daemon that drives the IPA, the packet
    accelerator of the phone, [src/data-ipa-cfg-mgr/ipanat] the library below it that
    keeps the NAT table: the daemon listens to the kernel (netlink, conntrack,
    wireless events), keeps tables of interfaces, clients and connections, and
    programs NAT, routing and filtering rules into the hardware.
    [src/gps/utils] is the library below the GPS stack; its lists, queues, heap and
    timer service are here too, and the state machines for assisted GPS of
    [src/gps/loc_api].  Of [src/camera], the camera service of the phone, the library
    has the policy by which clients get a camera, the buffer manager of the streams, the
    status tracker and the parameters of a camera.  It
    models the parts of these that carry state and decisions, function by function,
    and proves what makes them correct.

    ** How the daemon works, and which file models which part

    A kernel event becomes a message.  [PostEvt] appends it to a queue
    (CmdQueue.v: [IPACM_CmdQueue.cpp], and the posting half of
    [IPACM_EvtDispatcher.cpp]); one thread takes messages off the queue and hands
    each to [ProcessEvt], which calls every listener registered for it
    (EvtDispatcher.v: [IPACM_EvtDispatcher.cpp]).  The listeners modelled are

    - the conntrack listener (CtListener.v: [IPACM_ConntrackListener.cpp]), which
      turns connection messages and address events into operations of
    - the NAT cache (NatApp.v: [IPACM_Conntrack_NATApp.cpp]), a table of
      connections that mirrors the NAT table of the hardware;
    - the LAN-to-LAN offload (LanToLan.v: [IPACM_LanToLan.cpp]), a graph of
      tethered clients whose edges are offloaded links;
    - the neighbour cache (Neighbor.v: [IPACM_Neighbor.cpp], with
      [iface_ipa_index_query] of [IPACM_Iface.cpp]);
    - the clients of the LAN and WLAN interfaces (EthClients.v: [IPACM_Lan.cpp];
      WlanClients.v: [IPACM_Wlan.cpp]).  The two classes have their own copies of
      the same code; ClientTable.v has what the copies share: the array of
      records, headers, routing rules, addresses and the removal of a record.
      LanRules.v has the rules the two classes install for a LAN-to-LAN link: a pool
      of filter rules, headers, routing rules.

    All of them read the configuration (Config.v: [IPACM_Config.cpp],
    [IPACM_Config.h]).  Defs.v has the shared data of [IPACM_Defs.h].  The
    interfaces reach the hardware through IpaDrv.v ([IPACM_Routing.cpp],
    [IPACM_Header.cpp], [IPACM_Filtering.cpp]).

    The NAT cache calls the NAT driver library ([src/data-ipa-cfg-mgr/ipanat]), which
    keeps the NAT table in memory it shares with the hardware: two pairs of hash
    tables, of rules and of an index to them, whose collisions are chained through
    expansion tables.  NatTable.v has [ipa_nat_drvi.c] and [ipa_nat_drv.c] function by
    function; the files from NatChain.v to NatTableHw.v are its proofs.

    LocHeap.v has [gps/utils/LocHeap.cpp], a heap of linked nodes.  LocTimer.v has
    [LocTimer.cpp] with [LocSharedLock.h] and [MsgTask.cpp]: clients start and stop
    timers from any thread, a message thread keeps the heaps and a poll thread
    waits for the timerfds.  LinkedList.v has [linked_list.c], doubly linked lists
    with searches by callback; two clients are here: the message queue (MsgQ.v:
    [msg_q.c]) that threads block on, and the AGPS state machines (Agps.v:
    [loc_eng_agps.cpp], [loc_eng_agps.h]), which ask the connectivity service for a
    data connection on behalf of their subscribers.

    CamClients.v has [camera/libcameraservice/utils/ClientManager.h], which decides by
    priority, cost and conflicts whom a new client of a camera displaces; CamService.v
    has the part of [CameraService.cpp] that lets clients in and out through it.
    CamBuffers.v has [device3/Camera3BufferManager.cpp], which counts the graphic
    buffers of the output streams and decides when to allocate and to free one.
    CamStatus.v has [device3/StatusTracker.cpp], whose thread tells a device when all
    its components have become idle.
    CamParams.v has [camera/parameters] ([CameraParameters.cpp],
    [CameraParameters_EXT.cpp]): a map of strings that travels as one string.

    ** How it is modelled

    - A C++ object is a record with the fields of the class, a method a function
      on it, in the source's order of guards and early returns.  Logging is left
      out except where it reads memory (the dump of the NAT table is left out all the
      same, which reads one entry past each expansion table).
    - [option] is for undefined behaviour: dereferencing a null, freed or
      unassigned pointer, leaving an array, overflowing a signed integer.  The
      results the code returns ([IPACM_SUCCESS], [IPACM_FAILURE], -1, 0) are values.
    - Unsigned integers are [Z] with their wrap-around written out ([trunc],
      [uinc], [udec] below).  The overflow of an [int] is undefined behaviour where it
      can happen; the counters of LocHeap.v, for whose overflow the memory of the phone does
      not suffice, wrap around ([to_int]), and [heap_refines_pq] shows when none has.
    - Objects that other objects point to live in an explicit heap: queue messages
      and registrations (Heap.v has the lists they form), the clients of
      LanToLan.v, the clients, delegates and locks of LocTimer.v.  [cptr] of
      Config.v is a pointer to one block: null, live or dangling.
    - What the components call and the library does not contain is an interface:
      [NatDrv] (NatDrv.v) for the NAT driver library as its clients see it, [NatKernel]
      (NatTable.v) for the kernel below that library, [NfctLib] (NatApp.v) for
      libnetfilter_conntrack, [LanIface] (LanToLan.v) for the LAN interfaces,
      [IpaKernel] (IpaDrv.v) for the system calls below the wrappers, [LanEnv]
      (ClientTable.v) for what the interface classes call of the other components.
      Laws a group of theorems needs are classes of their own ([NatDrvLaws],
      [NatDrvReliable], [NfctLaws]; [LanIfaceOk], [LanIfaceLive] and [LanPostOk] of
      LanDriver.v; [IpaKernelOk], [IpaReliable], [IpaGrants], and for filter rules
      [IpaFltOk]; [LanEnvOk]; [NatKernelOk], [NatReliable] of
      NatTableInv.v and [NatSetup] of NatTableNew.v), each with
      a concrete instance that satisfies it (IpaSim.v and LanSim.v hold those of
      the interfaces).  ClientNat.v discharges [LanEnvOk] with the conntrack
      listener and the configuration themselves; LanCompose.v runs LanToLan.v over
      the methods of LanRules.v.
    - The memory of a list (LinkedList.v) is part of the state of its client
      ([HasList], [HasListLaws]); the callbacks of a search act on that state.  The
      surroundings of an AGPS machine (the callback of the connectivity service, the
      timer, the allocator) are [AgpsEnv], [AgpsMem] and [AgpsMemLaws]; what it says
      to them is recorded in order.
    - The client manager and the service are templates over a heap of descriptors and
      clients; what other threads do while [waitUntilRemoved] sleeps, and what the
      operating system says of processes, are arguments.  The platform's keyed vector
      is [KeyedVector] with [KeyedVectorOk]; CamBuffers.v, where only the order of its
      indices matters, has it as a map.  [BufferLimits] has the width of [size_t] and
      the number of buffer slots, with [BufferLimitsOk].  Fences are [Fences], with
      [FencesOk].  [Build] has the options of the build and
      the width of [long].  [strtol], [strchr], [strtok_r] and the printing of an
      [int] are defined in CamParams.v.
    - The methods of LanToLan.v and of the interface classes are written in a state
      monad with undefined behaviour; StateM.v has the one of the interfaces with
      its total-correctness calculus [wp].
    - The memory of the NAT table is four arrays of words; fields are read and written
      by bits as in the source, and a command to the kernel writes 16 bits at a byte
      offset.  The theorems read the arrays as functions of the entry number and the
      words by their fields.  They are about tables of 2 to 16384 entries, base and
      expansion each, at offset 0 of the mapping, and about rules whose protocol is not
      the mark of a deleted rule (0xFF).
    - Concurrency is in CmdQueue.v, where posts of any threads and the steps of the
      processing thread interleave, in LocTimer.v, where clients, message thread
      and poll thread do, in MsgQ.v, where senders and receivers do, and in CamStatus.v;
      a critical section of a mutex is one step, and a wait on a condition ends it.  The
      listeners of the daemon run on its processing thread.
    - Indeterminate memory is an argument: the raw memory of a constructor, the
      start index [cnt0] of [CacheEntry], the contents of a fresh block.
    - An interface of ClientTable.v is one object: [iface_query] and [tx_prop] agree
      on the number of tx properties, [num_client] and [header_name_count] do not
      overflow, [total_num_wifi_clients] is a field of it, and the interface is a
      number in the messages it posts.

    Fuel occurs in EvtDispatcher.v: [find_tail] and [deregistr] run with the size
    of the heap, which the theorems show to be enough for the list of
    registrations; [ProcessEvt] has a fuel argument, and its theorem asks for the
    length of the list.  In LocHeap.v [heap_drain], the loop of the test program,
    has a fuel argument, and one round more than [getTreeSize] reports is enough.
    The walks of NatTable.v to the end of a chain run with the length of the expansion
    table, which the invariant shows to be enough, and [GetNearest2Power] with 17
    rounds for 16 bits.
    The loops of LinkedList.v run with the number of elements allocated, and the
    deleting loop of [notifySubscribers] with one round more; the theorems show
    both to be enough.
    The expiry loop of LocTimer.v is a step relation; [timer_expiry] bounds the
    number of its steps.

    ** What is proved

    NatAppSync.v, NatAppProps.v.  Every operation of the NAT cache keeps the cache
    well formed, and between two changes of the table, from an [AddTable] with the
    address of before or no enabled entry on, the enabled entries are the rules in the
    hardware ([natapp_session_mirror]).  [AddEntry] and
    [DeleteEntry] refine a map of connections; the power-save, disconnect and flush
    operations are characterised on it.  Two theorems show where the code departs
    from its intent: [natapp_stale_handle] and [FlushTempEntries_truncated].

    CmdQueue.v.  Under every interleaving messages are handled in the order they
    were posted, none is lost, no freed message is touched, and the thread never
    sleeps over a message ([cmd_queue_fifo]); it can always drain the queue
    ([cmd_queue_drains]).

    EvtDispatcher.v.  The linked registrations refine a list; [ProcessEvt] calls
    exactly the registered listeners in order, even if listeners delete themselves
    on their last registration, and follows a freed node if one deletes itself
    earlier ([ProcessEvt_self_delete_uaf]).

    CtListenerProps.v.  Every sequence of listener steps keeps the tables and the
    NAT cache well formed and, while the WAN stays, in step with the hardware; a
    UDP connection leaves no trace; a client that goes leaves none either;
    [sta_client_lost] is a run in which a client is forgotten.

    LanGraph.v, LanToLanProps.v, LanEvents.v.  Under a driver that does not fail no
    sequence of events follows a dangling pointer, and peers, links and pair
    counters stay consistent ([lan2lan_safe]); [add_offload_link] is all or nothing if
    the methods of the interfaces are, which those of [IPACM_Lan] are not always;
    a disconnecting client is forgotten by all others; connections are counted;
    the events posted and the connections cached are characterised.  One failing
    driver call breaks memory safety ([failed_link_dangles]), and a client that
    sleeps gets its links twice ([power_cycle_doubles]).

    Neighbor.v.  The cache stays bounded with each client once, remembers the
    interface and address of a client and uses them for bridge events and
    reconnections; an unknown interface reads outside the table.

    Config.v.  Every configuration reached from [Init] keeps its invariant; private
    subnets and NAT interfaces are characterised.

    ClientProps.v, ClientInv.v, ClientOps.v, EthProps.v, WlanProps.v.  Under every
    sequence of client events, with a kernel that deletes what it is asked to and
    may refuse to add, no method leaves the client array, and the hardware has
    every header and routing rule that a record names ([eth_clients_mirrored],
    [wlan_clients_mirrored]; an addition that fails half-way may leave others, and the
    attributes of a wireless header are assumed to lie within it).  A client that goes takes
    exactly its own away ([eth_down_forgets], [wlan_down_forgets]) and a visit leaves
    nothing ([eth_visit_leaves_nothing]); the loss of the WAN and power saving are
    characterised ([eth_wan_down], [wlan_power_save]).  ClientNat.v composes the
    interface with the listener, the NAT cache and the configuration
    ([eth_client_gone]).  Runs show a client that inherits another's power-saving
    state, one that is recorded twice, and headers with one name; IpaDrv.v shows that
    [DeleteRoutingHdl] reports success whatever the driver answers.

    LanRulesProps.v, LanCompose.v.  The pools of LAN-to-LAN filter rules refine a map
    from handles to links ([flt_simulation]), up to rules whose change the kernel
    refused by their status alone, which the code does not look at; its capacity is exact
    ([flt_capacity]), from the installation of the dummies on; headers and routing
    rules of a link can be taken back exactly ([link_roundtrip]).  A handle that is
    given back twice fills the pool for ever ([double_delete_fills]), which happens
    to the offload when a sleeping client disconnects ([sleeping_disconnect_blocks]).

    NatChain.v to NatTableProps.v.  The NAT driver library implements a map from handles
    to rules ([nat_driver_simulation]), with room for as many rules as the expansion
    table has entries, less one: NatChain.v has the chains of a hash table with an
    expansion table, for any kind of entry; NatTableInv.v the words, the commands to the
    kernel and the memory as functions; NatTableSteps.v the invariant and the changes
    that keep it; NatTableOps.v, NatTableAdd.v and NatTableDel.v run the operations;
    NatTableRep.v has the handles and the map; NatTableNew.v the creation of a table.
    The hash walks of a reader of the memory find exactly the rules of the map
    ([nat_rule_found], NatTableHw.v); sizes and checksums are what they should be
    (NatTableArith.v).  A command the kernel refuses leaves a chain that ends in a loop
    ([nat_refused_command_loops]).

    LocHeap.v.  The heap is a priority queue: any sequence of operations returns
    what a bag does that gives out an object no other outranks and removes an object by
    its address ([heap_refines_pq], for fewer than 2^31 pushes of objects in a strict weak
    order); the check of the unit tests is equivalent to the global invariant; draining
    sorts ([heap_drain_sorts]); the tree stays balanced under pushes.

    LocTimerInv.v, LocTimerProps.v.  Under every interleaving in which timerfds can be
    created and clients outlive their callbacks, no step uses a deleted object, and every start is answered once
    ([timer_memory_safe], [timer_accounting]); when the threads are idle the
    timerfds are armed for the soonest timers; the expiry loop terminates and leaves
    no due timer.  Runs show a timer that fires early and a client used after its
    deletion.

    AgpsSpec.v to AgpsProps.v.  AgpsSpec.v is the abstract machine on the list of its
    subscribers; AgpsRun.v and AgpsSim.v relate the heap to it, AgpsOps.v composes
    the operations ([agps_refines], while memory lasts).  Its invariant (AgpsInv.v) says
    that state and subscribers fit ([agps_state_invariant]) and that requests are sent on
    the right transitions only ([agps_request_discipline]); both are about machines
    other than the emergency machine, between restarts of the modem.  The machine for one
    subscriber is memory safe ([agps_single_safe]); one for several compares
    subscribers with a deleted one ([agps_unsubscribe_uaf]).  The emergency machine
    bounds its retries ([ds_retries_bounded]) and keeps a refused subscriber for
    good ([ds_refused_call_leaks]).

    MsgQ.v.  Messages leave the queue in the order they were sent ([msg_q_fifo]), no
    wake-up is lost ([msg_q_no_lost_wakeup]), and unblocking releases every
    thread ([msg_q_unblock_releases]).

    CamPolicy.v to CamProps.v.  CamPolicy.v states the policy on the list of active
    clients; CamManager.v and CamServiceRun.v compute what the operations do.  A
    new client displaces only clients it may displace and leaves no conflict
    ([eviction_policy], [manager_conflict_free]); a client that the service lets in
    is added without another eviction ([connect_admits]).  Not so with the offset of
    an application ([offset_counted_twice]) or two offline sessions of a camera
    ([offline_twice]); and [addAndEvict] reads past a vector in most evictions
    ([add_reads_past_end]).

    CamBuffersProps.v.  Whatever is called, also while the manager has released its
    lock, the stream sets stay well formed ([buffer_sets_ok]).  Streams that keep to
    the contract ([polite], with a test [politeb]), which bounds also what is called while
    the lock is released, never make it abort or a counter wrap ([buffer_counts_safe]);
    [buffer_get_spec] is what a stream gets when nothing is called then.  Two runs leave
    the contract: [buffer_registered_twice], [buffer_detach_race].

    CamStatus.v.  The device is told active and idle in turn ([status_alternates]), and
    a round of the thread tells it the truth ([status_converges]).

    CamParamsProps.v.  Parameters, numbers, pairs and lists of sizes survive the trip
    through the string ([params_roundtrip], [params_numbers_travel],
    [params_sizes_travel]); [params_set_get] is the whole behaviour of [set];
    the parsing loops, which run with the length of the string, end
    ([params_loops_end]).

    ** What is not modelled

    Of the LAN and WLAN interfaces: the set-up of filtering rules, the ODU
    interface's own set-up, the private subnets and the bridge code under
    [FEATURE_ETH_BRIDGE_LE] ([Android.mk] does not define it, [Makefile.am] does).
    The WAN interface; the interface manager that creates the interfaces;
    netlink decoding, the conntrack client, the XML reader, the main program (input
    and output); the build of the conntrack listener with [CT_OPT] (no build file
    defines it; in LanToLan.v it is a parameter).  Of the driver wrappers the
    functions that forward one [ioctl] without more (commit, reset).  Of the NAT
    driver library the dump to the log, the functions of its test program and the build
    with [IPA_ON_R3PC].  [NatDrv] and NatTable.v are related by the simulation, not by an
    instance: the interface is total, while the library is defined only for handles of 16
    bits and valid rules.  Outside
    [ipacm] and [ipanat]: the rest of the GPS stack (of the AGPS machines their
    destructor, which nothing runs); of the camera code the devices, providers, API
    clients, permissions and HIDL glue, and the floating-point parameters; the HALs of
    lights, power and audio.

    This file itself holds what the components share: tactics, fixed-width
    integers, field assignment and array loops. *)
From stdpp Require Import base list gmap strings.
From Stdlib Require Import ZArith Lia.

Open Scope Z_scope.

(** ** Tactics shared by the whole development *)

Create HintDb ipacm.
Create Rewrite HintDb ipacm.

(** Turn boolean comparisons of hypotheses and goal into propositions. *)
Ltac bool_to_prop :=
  repeat match goal with
  | H : _ && _ = true |- _ => apply andb_prop in H as [? ?]
  | H : _ || _ = false |- _ => apply orb_false_elim in H as [? ?]
  | H : negb _ = true |- _ => apply negb_true_iff in H
  | H : negb _ = false |- _ => apply negb_false_iff in H
  | H : (_ =? _) = true |- _ => apply Z.eqb_eq in H
  | H : (_ =? _) = false |- _ => apply Z.eqb_neq in H
  | H : (_ <? _) = true |- _ => apply Z.ltb_lt in H
  | H : (_ <? _) = false |- _ => apply Z.ltb_ge in H
  | H : (_ <=? _) = true |- _ => apply Z.leb_le in H
  | H : (_ <=? _) = false |- _ => apply Z.leb_gt in H
  end.

(** Case analysis on the innermost [if]/[match] of the goal or of a
    hypothesis, keeping the equation. *)
Ltac split_match :=
  match goal with
  | |- context [match ?x with _ => _ end] =>
      lazymatch x with context [match _ with _ => _ end] => fail | _ => destruct x eqn:? end
  | H : context [match ?x with _ => _ end] |- _ =>
      lazymatch x with context [match _ with _ => _ end] => fail | _ => destruct x eqn:? end
  end.

Ltac solve_cases := repeat split_match; simplify_eq/=; try done.

(** ** Machine-width integers: an unsigned [w]-bit value is a [Z] *)

Definition fits (w x : Z) : Prop := 0 <= x < 2 ^ w.

(** C's implicit conversion to an unsigned type of [w] bits. *)
Definition trunc (w x : Z) : Z := x mod 2 ^ w.

(** [x++] and [x--] on an unsigned type of [w] bits wrap around. *)
Definition uinc (w x : Z) : Z := trunc w (x + 1).
Definition udec (w x : Z) : Z := trunc w (x - 1).

Lemma trunc_fits w x : 0 <= w -> fits w (trunc w x).
Proof. intros. apply Z.mod_pos_bound. lia. Qed.

Lemma trunc_id w x : fits w x -> trunc w x = x.
Proof. apply Z.mod_small. Qed.

Lemma uinc_small w x : 0 <= x -> x + 1 < 2 ^ w -> uinc w x = x + 1.
Proof. intros. apply trunc_id. split; lia. Qed.

Lemma udec_small w x : 0 < x -> x < 2 ^ w -> udec w x = x - 1.
Proof. intros. apply trunc_id. split; lia. Qed.

(** Conversion to [int], and [int] arithmetic.  C++ leaves the overflow of an
    [int] undefined; where it is not ruled out it is modelled as the wrap-around of
    the machine. *)
Definition to_int (x : Z) : Z := (x + 2 ^ 31) mod 2 ^ 32 - 2 ^ 31.
Arguments to_int : simpl never.

Lemma to_int_id x : - 2 ^ 31 <= x < 2 ^ 31 -> to_int x = x.
Proof. intros. unfold to_int. rewrite Z.mod_small; lia. Qed.

Lemma to_int_range x : - 2 ^ 31 <= to_int x < 2 ^ 31.
Proof. unfold to_int. pose proof (Z.mod_pos_bound (x + 2 ^ 31) (2 ^ 32)). lia. Qed.

Lemma to_int_add_l x y : to_int (to_int x + y) = to_int (x + y).
Proof.
  unfold to_int. set (a := x + 2 ^ 31).
  replace (a mod 2 ^ 32 - 2 ^ 31 + y + 2 ^ 31) with (a mod 2 ^ 32 + y) by lia.
  rewrite Z.add_mod_idemp_l by lia. subst a. do 2 f_equal. lia.
Qed.

Lemma to_int_sub_l x y : to_int (to_int x - y) = to_int (x - y).
Proof. apply (to_int_add_l x (- y)). Qed.

Lemma to_int_sub_r x y : to_int (x - to_int y) = to_int (x - y).
Proof.
  unfold to_int. set (a := y + 2 ^ 31).
  replace (x - (a mod 2 ^ 32 - 2 ^ 31) + 2 ^ 31) with (x + 2 ^ 32 - a mod 2 ^ 32) by lia.
  rewrite Zminus_mod_idemp_r. subst a. do 2 f_equal. lia.
Qed.

(** ** Field assignment

    [r <| f := v |>] is the record [r] with field [f] assigned.  A record type
    declares its fields once ([Settable]); the setter of a field is computed. *)
Class Settable (R : Type) := record_eta : R -> R.
Class Setter {R E : Type} (getter : R -> E) := field_update : (E -> E) -> R -> R.
Arguments field_update {R E} getter {_} _ _ /.

Ltac solve_setter :=
  lazymatch goal with
  | |- @Setter ?R ?E ?g =>
      let inst := constr:(_ : Settable R) in
      exact (fun (f : E -> E) (r : R) => ltac:(
        let t := eval hnf in (@record_eta R inst r) in
        lazymatch t with
        | context C [g r] => let t' := context C [f (g r)] in exact t'
        end))
  end.

#[export] Hint Extern 1 (Setter _) => solve_setter : typeclass_instances.

Declare Scope record_scope.
Open Scope record_scope.
#[warnings="-postfix-notation-not-level-1"]
Notation "r <| g := v |>" := (field_update g (fun _ => v) r)
  (at level 12, left associativity, g constr at level 9, v constr at level 99) : record_scope.

(** ** Array loops *)

(** [for(i = 0; i < n; i++) if(p(a[i])) break;]: the index the loop stops at. *)
Fixpoint find_index {A} (p : A -> bool) (l : list A) : option nat :=
  match l with
  | [] => None
  | x :: l => if p x then Some 0%nat else S <$> find_index p l
  end.

(** The same loop whose body is [{ a[i] = f(a[i]); break; }]. *)
Definition update_first {A} (p : A -> bool) (f : A -> A) (l : list A) : list A :=
  match find_index p l with Some i => alter f i l | None => l end.

(** [for(i = 0; i < n; i++) { s, a[i] = f(s, a[i]); }]: the body may change the
    state and the current slot. *)
Fixpoint loop_accum {S A} (f : S -> A -> S * A) (s : S) (l : list A) : S * list A :=
  match l with
  | [] => (s, [])
  | x :: l =>
      let '(s1, x') := f s x in
      let '(s2, l') := loop_accum f s1 l in
      (s2, x' :: l')
  end.

Section loops.
Context {A S : Type}.
Implicit Types (p : A -> bool) (l : list A) (s : S).

Lemma find_index_Some p l i :
  find_index p l = Some i ->
  exists x, l !! i = Some x /\ p x = true /\
       forall j y, (j < i)%nat -> l !! j = Some y -> p y = false.
Proof.
  revert i. induction l as [|a l IH]; intros i; simpl; [done|].
  destruct (p a) eqn:Hp; intros H.
  - injection H as <-. exists a. split_and!; auto. intros; lia.
  - destruct (find_index p l) as [k|] eqn:E; simplify_eq/=.
    destruct (IH k eq_refl) as (x & Hx & Hpx & Hlt). exists x. split_and!; auto.
    intros [|j] y Hj Hy; simplify_eq/=; [done|]. eapply Hlt; [|done]; lia.
Qed.

Lemma find_index_intro p l i x :
  l !! i = Some x -> p x = true -> (forall j y, (j < i)%nat -> l !! j = Some y -> p y = false) ->
  find_index p l = Some i.
Proof.
  revert i. induction l as [|a l IH]; intros [|i] Hx Hp Hlt; simplify_eq/=; [by rewrite Hp|].
  rewrite (Hlt 0%nat a) by (done || lia). rewrite (IH i); [done..|]. intros j y ? Hy. apply (Hlt (Datatypes.S j)); [lia|done].
Qed.

Lemma find_index_split p l i :
  find_index p l = Some i ->
  exists pre x post, l = pre ++ x :: post /\ length pre = i /\ p x = true /\
                Forall (fun y => p y = false) pre.
Proof.
  intros H. destruct (find_index_Some _ _ _ H) as (x & Hx & Hp & Hlt).
  exists (take i l), x, (drop (Datatypes.S i) l). split_and!; auto.
  - by rewrite take_drop_middle.
  - rewrite length_take_le; [done|]. apply lookup_lt_Some in Hx. lia.
  - apply Forall_lookup. intros j y Hj. apply lookup_take_Some in Hj as [Hj Hlen].
    eauto.
Qed.

Lemma find_index_None p l : find_index p l = None <-> Forall (fun x => p x = false) l.
Proof.
  induction l as [|a l IH]; simpl; [split; constructor|].
  rewrite Forall_cons, <- IH. destruct (p a); [by split; [|intros [??]]|].
  destruct (find_index p l); simpl; split; intros; destruct_and?; done.
Qed.

Lemma find_index_end p l x : find_index p l = None -> p x = true -> find_index p (l ++ [x]) = Some (length l).
Proof.
  intros Hn Hx. induction l as [|a l IH]; simpl in *; [by rewrite Hx|]. destruct (p a); [done|].
  destruct (find_index p l); [done|]. by rewrite IH.
Qed.

(** A change of one element that [p] does not see. *)
Lemma find_index_alter p (f : A -> A) i l : (forall x, p (f x) = p x) -> find_index p (alter f i l) = find_index p l.
Proof.
  intros Hf. revert i. induction l as [|a l IH]; intros i; [by destruct i|]. destruct i as [|i].
  - simpl. by rewrite Hf.
  - change (alter f (Datatypes.S i) (a :: l)) with (a :: alter f i l). simpl. by rewrite IH.
Qed.

Lemma update_first_split p f pre x post :
  Forall (fun y => p y = false) pre -> p x = true ->
  update_first p f (pre ++ x :: post) = pre ++ f x :: post.
Proof.
  intros Hpre Hx. unfold update_first.
  assert (find_index p (pre ++ x :: post) = Some (length pre)) as ->.
  { induction Hpre as [|y pre Hy _ IH]; simpl; [by rewrite Hx|]. by rewrite Hy, IH. }
  clear Hpre. induction pre as [|y pre IH]; simpl; [done|]. f_equal; apply IH.
Qed.

Lemma update_first_none p f l :
  Forall (fun y => p y = false) l -> update_first p f l = l.
Proof. intros H%find_index_None. unfold update_first. by rewrite H. Qed.

Lemma update_first_cases p f l :
  (Forall (fun y => p y = false) l /\ update_first p f l = l) \/
  (exists pre x post, l = pre ++ x :: post /\ p x = true /\
      Forall (fun y => p y = false) pre /\ update_first p f l = pre ++ f x :: post).
Proof.
  destruct (find_index p l) as [i|] eqn:E.
  - right. destruct (find_index_split _ _ _ E) as (pre & x & post & -> & _ & Hx & Hpre).
    exists pre, x, post. split_and!; auto. by apply update_first_split.
  - left. apply find_index_None in E. split; [done|]. by apply update_first_none.
Qed.

Lemma length_update_first p f l : length (update_first p f l) = length l.
Proof. unfold update_first. destruct (find_index p l); [apply length_alter|done]. Qed.

(** The invariant rule of an array loop: [P] speaks of the state and of the
    whole array, and one execution of the body on slot [x] keeps it. *)
Lemma loop_accum_inv (P : S -> list A -> Prop) f s l :
  (forall s pre x post, P s (pre ++ x :: post) ->
     P (fst (f s x)) (pre ++ snd (f s x) :: post)) ->
  P s l -> P (fst (loop_accum f s l)) (snd (loop_accum f s l)).
Proof.
  intros Hstep. enough (forall pre s, P s (pre ++ l) ->
    P (fst (loop_accum f s l)) (pre ++ snd (loop_accum f s l))) as H
    by (intros Hs; apply (H [] s Hs)).
  clear s. induction l as [|x l IH]; intros pre s Hs; simpl; [done|].
  specialize (Hstep s pre x l Hs).
  destruct (f s x) as [s1 x'] eqn:Ef. simpl in Hstep.
  specialize (IH (pre ++ [x']) s1). rewrite <- app_assoc in IH. specialize (IH Hstep).
  destruct (loop_accum f s1 l) as [s2 l']. simpl in *. by rewrite <- app_assoc in IH.
Qed.

Lemma length_loop_accum f s l : length (snd (loop_accum f s l)) = length l.
Proof.
  revert s. induction l as [|x l IH]; intros s; simpl; [done|].
  destruct (f s x) as [s1 x']. specialize (IH s1).
  destruct (loop_accum f s1 l). simpl in *. by rewrite IH.
Qed.

(** A postcondition of the body holds of every slot after the loop. *)
Lemma loop_accum_post (Q : A -> Prop) (R : S -> Prop) f s l :
  (forall s x, R s -> x ∈ l -> R (fst (f s x)) /\ Q (snd (f s x))) ->
  R s -> R (fst (loop_accum f s l)) /\ Forall Q (snd (loop_accum f s l)).
Proof.
  revert s. induction l as [|x l IH]; intros s Hstep Hs; simpl; [done|].
  destruct (Hstep s x Hs ltac:(left)) as [H1 H2].
  destruct (f s x) as [s1 x'].
  destruct (IH s1) as [H3 H4]; [intros; apply Hstep; [done|by right]|done|].
  destruct (loop_accum f s1 l) as [s2 l']. simpl in *. auto.
Qed.

(** Under an invariant of the state and the whole array, a body that turns
    every slot [x] into [g x] maps [g] over the array. *)
Lemma loop_accum_map (P : S -> list A -> Prop) (g : A -> A) f s l :
  (forall s pre x post, P s (pre ++ x :: post) ->
     snd (f s x) = g x /\ P (fst (f s x)) (pre ++ g x :: post)) ->
  P s l -> snd (loop_accum f s l) = map g l /\ P (fst (loop_accum f s l)) (map g l).
Proof.
  intros Hstep. enough (forall pre s, P s (pre ++ l) ->
    snd (loop_accum f s l) = map g l /\ P (fst (loop_accum f s l)) (pre ++ map g l)) as H
    by (intros Hs; apply (H [] s Hs)).
  clear s. induction l as [|x l IH]; intros pre s Hs; simpl; [done|].
  destruct (Hstep s pre x l Hs) as [Hx Hp].
  destruct (f s x) as [s1 x']. simpl in *. subst x'.
  specialize (IH (pre ++ [g x]) s1). rewrite <- !app_assoc in IH. specialize (IH Hp).
  destruct (loop_accum f s1 l) as [s2 l']. simpl in *. destruct IH as [-> IH]. done.
Qed.

(** A relation between the old and the new value of every slot. *)
Lemma loop_accum_Forall2 (R : A -> A -> Prop) f s l :
  (forall s x, R x (snd (f s x))) -> Forall2 R l (snd (loop_accum f s l)).
Proof.
  intros Hf. revert s. induction l as [|x l IH]; intros s; simpl; [done|].
  specialize (Hf s x). destruct (f s x) as [s1 x']. specialize (IH s1).
  destruct (loop_accum f s1 l). by constructor.
Qed.

(** A body that does nothing on every slot leaves everything as it was. *)
Lemma loop_accum_id f s l :
  (forall x, x ∈ l -> f s x = (s, x)) -> loop_accum f s l = (s, l).
Proof.
  induction l as [|x l IH]; intros Hf; simpl; [done|].
  rewrite (Hf x) by left. rewrite IH; [done|]. intros; apply Hf. by right.
Qed.

Lemma loop_accum_ext f g s l :
  (forall s x, f s x = g s x) -> loop_accum f s l = loop_accum g s l.
Proof.
  intros Hfg. revert s. induction l as [|x l IH]; intros s; simpl; [done|].
  rewrite Hfg. destruct (g s x). by rewrite IH.
Qed.
End loops.

Lemma Forall2_elem_l {A B} (R : A -> B -> Prop) l k x :
  Forall2 R l k -> x ∈ l -> exists y, y ∈ k /\ R x y.
Proof.
  intros Hf (i & Hi)%list_elem_of_lookup. destruct (Forall2_lookup_l _ _ _ _ _ Hf Hi) as (y & Hy & Hr).
  exists y. split; [by eapply list_elem_of_lookup_2|done].
Qed.

Lemma Forall2_elem_r {A B} (R : A -> B -> Prop) l k y :
  Forall2 R l k -> y ∈ k -> exists x, x ∈ l /\ R x y.
Proof. intros Hf%Forall2_flip Hy. apply (Forall2_elem_l _ _ _ _ Hf Hy). Qed.

Lemma Forall2_elem_impl {A B} (R Q : A -> B -> Prop) l k :
  Forall2 R l k -> (forall x y, x ∈ l -> R x y -> Q x y) -> Forall2 Q l k.
Proof.
  induction 1 as [|x y l k Hr _ IH]; intros Hq; constructor; [apply Hq; [left|done]|].
  apply IH. intros x' y' Hx'. apply Hq. by right.
Qed.

Lemma insert_middle {A} (pre : list A) x y post :
  <[length pre := y]> (pre ++ x :: post) = pre ++ y :: post.
Proof. induction pre as [|z pre IH]; simpl; [done|]. by rewrite IH. Qed.

#[export] Hint Rewrite @length_update_first @length_loop_accum @length_replicate : ipacm.
#[export] Hint Resolve trunc_fits : ipacm.
