(* ===== verification/Defs.v ===== *)
(** * The data shared by the IPACM components ([inc/IPACM_Defs.h])

    Event identifiers, interface categories and the payloads of the events that
    travel through the command queue.  Addresses are host-order 32-bit values in
    [Z], MAC addresses lists of six bytes, interface names strings. *)
From S2P Require Import Prelude.
From stdpp Require Import base list gmap strings.
From Stdlib Require Import ZArith.

Open Scope Z_scope.

(** [IPACM_SUCCESS] and [IPACM_FAILURE] *)
Definition IPACM_SUCCESS : Z := 0.
Definition IPACM_FAILURE : Z := -1.

(** Sizes of the static tables. *)
Definition IPA_IFACE_NAME_LEN : nat := 16.
Definition IPA_MAX_NUM_WIFI_CLIENTS : nat := 32.
Definition IPA_MAX_PRIVATE_SUBNET_ENTRIES : nat := 3.
Definition MAX_OFFLOAD_PAIR : Z := 3.

(** [ipa_cm_event_id], in declaration order. *)
Inductive ipa_cm_event_id :=
  | IPA_CFG_CHANGE_EVENT | IPA_LINK_UP_EVENT | IPA_LINK_DOWN_EVENT
  | IPA_ADDR_ADD_EVENT | IPA_ADDR_DEL_EVENT | IPA_ROUTE_ADD_EVENT
  | IPA_ROUTE_DEL_EVENT | IPA_FIREWALL_CHANGE_EVENT | IPA_WLAN_AP_LINK_UP_EVENT
  | IPA_WLAN_STA_LINK_UP_EVENT | IPA_WLAN_CLIENT_ADD_EVENT | IPA_WLAN_CLIENT_DEL_EVENT
  | IPA_WLAN_CLIENT_POWER_SAVE_EVENT | IPA_WLAN_CLIENT_RECOVER_EVENT
  | IPA_NEW_NEIGH_EVENT | IPA_DEL_NEIGH_EVENT
  | IPA_NEIGH_CLIENT_IP_ADDR_ADD_EVENT | IPA_NEIGH_CLIENT_IP_ADDR_DEL_EVENT
  | IPA_SW_ROUTING_ENABLE | IPA_SW_ROUTING_DISABLE | IPA_PROCESS_CT_MESSAGE
  | IPA_HANDLE_WAN_UP | IPA_HANDLE_WAN_DOWN | IPA_HANDLE_WLAN_UP | IPA_HANDLE_LAN_UP
  | IPA_WLAN_CLIENT_ADD_EVENT_EX | IPA_HANDLE_WAN_UP_V6 | IPA_HANDLE_WAN_DOWN_V6
  | IPA_LAN_CLIENT_ACTIVE | IPA_LAN_CLIENT_INACTIVE | IPA_LAN_CLIENT_DISCONNECT
  | IPA_LAN_CLIENT_POWER_SAVE | IPA_LAN_CLIENT_POWER_RECOVER
  | IPA_LAN_TO_LAN_NEW_CONNECTION | IPA_LAN_TO_LAN_DEL_CONNECTION
  | IPA_LAN_DELETE_SELF | IPA_WLAN_LINK_DOWN_EVENT | IPA_USB_LINK_UP_EVENT
  | IPA_PROCESS_CT_MESSAGE_V6 | IPA_PRIVATE_SUBNET_CHANGE_EVENT
  | IPA_WAN_UPSTREAM_ROUTE_ADD_EVENT | IPA_WAN_UPSTREAM_ROUTE_DEL_EVENT
  | IPA_WAN_EMBMS_LINK_UP_EVENT | IPA_ETH_BRIDGE_USB_CLIENT_ADD_EVENT
  | IPA_ETH_BRIDGE_WLAN_CLIENT_ADD_EVENT | IPA_ETH_BRIDGE_USB_CLIENT_DEL_EVENT
  | IPA_ETH_BRIDGE_WLAN_CLIENT_DEL_EVENT | IPA_ETH_BRIDGE_HDR_PROC_CTX_SET_EVENT
  | IPA_ETH_BRIDGE_HDR_PROC_CTX_UNSET_EVENT | IPA_WLAN_SWITCH_TO_SCC
  | IPA_WLAN_SWITCH_TO_MCC | IPA_CRADLE_WAN_MODE_SWITCH | IPA_WAN_XLAT_CONNECT_EVENT
  | IPA_TETHERING_STATS_UPDATE_EVENT | IPA_NETWORK_STATS_UPDATE_EVENT
  | IPA_HANDLE_WAN_UP_TETHER | IPA_HANDLE_WAN_DOWN_TETHER
  | IPA_HANDLE_WAN_UP_V6_TETHER | IPA_HANDLE_WAN_DOWN_V6_TETHER
  | IPACM_EVENT_MAX.

#[export] Instance ipa_cm_event_id_eq_dec : EqDecision ipa_cm_event_id.
Proof. solve_decision. Defined.

(** [ipacm_iface_type] *)
Inductive ipacm_iface_type :=
  | LAN_IF | WLAN_IF | WAN_IF | VIRTUAL_IF | ETH_IF | EMBMS_IF | ODU_IF | UNKNOWN_IF.

#[export] Instance ipacm_iface_type_eq_dec : EqDecision ipacm_iface_type.
Proof. solve_decision. Defined.

(** [enum ipa_ip_type] of the kernel header, as the source names its values. *)
Inductive ipa_ip_type := IPA_IP_v4 | IPA_IP_v6 | IPA_IP_MAX.

#[export] Instance ipa_ip_type_eq_dec : EqDecision ipa_ip_type.
Proof. solve_decision. Defined.

(** A [uint32_t ipv6_addr[4]]. *)
Definition v6addr : Type := Z * Z * Z * Z.

(** [ipa_ifi_dev_name_t] *)
Record ipa_ifi_dev_name_t := {
  iface_name : string;
  if_cat : ipacm_iface_type;
  netlink_interface_index : Z
}.

(** [ipa_private_subnet] *)
Record ipa_private_subnet := { subnet_addr : Z; subnet_mask : Z }.

(** [ipacm_event_data_all] *)
Record ipacm_event_data_all := {
  da_iptype : ipa_ip_type;
  da_if_index : Z;
  da_ipv4_addr : Z;
  da_ipv6_addr : v6addr;
  da_mac_addr : list Z
}.

(** [ipa_wlan_hdr_attrib_val] of the kernel header: bytes for an offset of the
    header. *)
Inductive ipa_wlan_hdr_attrib_val :=
  | WLAN_HDR_ATTRIB_MAC_ADDR (offset : Z) (mac_addr : list Z)
  | WLAN_HDR_ATTRIB_STA_ID (offset : Z) (sta_id : list Z)
  | WLAN_HDR_ATTRIB_OTHER.

(** [ipacm_event_data_wlan_ex] *)
Record ipacm_event_data_wlan_ex := { wx_if_index : Z; attribs : list ipa_wlan_hdr_attrib_val }.

(** [ipacm_event_iface_up] *)
Record ipacm_event_iface_up := {
  up_ifname : string;
  up_ipv4_addr : Z;
  up_addr_mask : Z;
  up_ipv6_prefix : Z * Z;
  up_is_sta : bool
}.

(** [ipacm_event_connection] *)
Record ipacm_event_connection := {
  cn_iptype : ipa_ip_type;
  src_ipv4_addr : Z;
  dst_ipv4_addr : Z;
  src_ipv6_addr : v6addr;
  dst_ipv6_addr : v6addr
}.

(** Layer-4 protocol numbers the source tests for. *)
Definition IPPROTO_TCP : Z := 6.
Definition IPPROTO_UDP : Z := 17.
