(* ===== verification/Config.v ===== *)
(** * The configuration singleton ([IPACM_Config.cpp], [IPACM_Config.h])

    [IPACM_Config] holds what the XML file says (interfaces, private subnets, ALG
    ports, NAT size) and what changes at run time: the NAT interfaces, the
    private subnets, the resource-manager dependencies and the extended
    properties.  A pointer is [Null], [Live] or [Dangling] (freed, or never
    initialised); using a dangling pointer or an index outside a table is
    undefined behaviour, and a definition that can do it returns [None] there. *)
From S2P Require Import Prelude Defs.
From stdpp Require Import base list gmap strings.
From Stdlib Require Import ZArith Lia.

Open Scope Z_scope.

(** A C pointer to a heap block that holds an [A]. *)
Inductive cptr (A : Type) := Null | Live (x : A) | Dangling.
Arguments Null {A}.
Arguments Live {A} x.
Arguments Dangling {A}.

(** [ipacm_alg] *)
Record ipacm_alg := { alg_protocol : Z; alg_port : Z }.

(** The resource-manager names the dependency table uses. *)
Inductive ipa_rm_resource_name :=
  | IPA_RM_RESOURCE_WLAN_PROD | IPA_RM_RESOURCE_USB_PROD | IPA_RM_RESOURCE_Q6_PROD
  | IPA_RM_RESOURCE_HSIC_PROD | IPA_RM_RESOURCE_WLAN_CONS | IPA_RM_RESOURCE_USB_CONS
  | IPA_RM_RESOURCE_Q6_CONS.

#[export] Instance ipa_rm_resource_name_eq_dec : EqDecision ipa_rm_resource_name.
Proof. solve_decision. Defined.

(** [ipa_rm_client] *)
Record ipa_rm_client := {
  producer_rm1 : ipa_rm_resource_name;
  consumer_rm1 : ipa_rm_resource_name;
  producer_rm2 : ipa_rm_resource_name;
  consumer_rm2 : ipa_rm_resource_name;
  producer1_up : bool;
  consumer1_up : bool;
  rm_set : bool;
  rx_bypass_ipa : bool
}.

#[export] Instance ipa_rm_client_eta : Settable ipa_rm_client :=
  fun r => Build_ipa_rm_client (producer_rm1 r) (consumer_rm1 r) (producer_rm2 r)
    (consumer_rm2 r) (producer1_up r) (consumer1_up r) (rm_set r) (rx_bypass_ipa r).

(** An extended property: the IP type the code dispatches on and the rest. *)
Record ipa_ioc_ext_intf_prop := { ep_ip : ipa_ip_type; ep_data : Z }.

(** [IPACM_conf_t], as [ipacm_read_cfg_xml] fills it: each counted array is the
    list of its used entries. *)
Record IPACM_conf_t := {
  iface_entries : list ipa_ifi_dev_name_t;
  private_subnet_entries : list ipa_private_subnet;
  alg_entries : list ipacm_alg;
  nat_max_entries : Z;
  odu_enable : bool;
  router_mode_enable : bool
}.

(** [class IPACM_Config]: [private_subnet_table] has its three slots,
    [ipa_num_private_subnet] says how many are in use; [iface_table],
    [alg_table] and [pNatIfaces] are heap arrays. *)
Record IPACM_Config := {
  iface_table : cptr (list ipa_ifi_dev_name_t);
  alg_table : cptr (list ipacm_alg);
  private_subnet_table : list ipa_private_subnet;
  pNatIfaces : cptr (list string);
  ipa_virtual_iface_name : string;
  ipa_num_ipa_interfaces : Z;
  ipa_num_private_subnet : Z;
  ipa_num_alg_ports : Z;
  ipa_nat_max_entries : Z;
  ipa_nat_iface_entries : Z;
  ipacm_odu_enable : bool;
  ipacm_odu_router_mode : bool;
  ipa_rm_tbl : list ipa_rm_client;
  ipa_rm_a2_check : Z;
  ext_prop_v4 : list ipa_ioc_ext_intf_prop;
  ext_prop_v6 : list ipa_ioc_ext_intf_prop;
  qmap_id : Z;
  rt_tbls : list (string * (ipa_ip_type * string));
  ipa_client_rm_map_tbl : list (string * ipa_rm_resource_name)
}.

#[export] Instance IPACM_Config_eta : Settable IPACM_Config :=
  fun r => Build_IPACM_Config (iface_table r) (alg_table r) (private_subnet_table r)
    (pNatIfaces r) (ipa_virtual_iface_name r) (ipa_num_ipa_interfaces r)
    (ipa_num_private_subnet r) (ipa_num_alg_ports r) (ipa_nat_max_entries r)
    (ipa_nat_iface_entries r) (ipacm_odu_enable r) (ipacm_odu_router_mode r) (ipa_rm_tbl r)
    (ipa_rm_a2_check r) (ext_prop_v4 r) (ext_prop_v6 r) (qmap_id r) (rt_tbls r)
    (ipa_client_rm_map_tbl r).

(** A static (zero) entry of the dependency table: the enumerators' zero value
    is the first one. *)
Definition rm_zero : ipa_rm_client :=
  {| producer_rm1 := IPA_RM_RESOURCE_WLAN_PROD; consumer_rm1 := IPA_RM_RESOURCE_WLAN_PROD;
     producer_rm2 := IPA_RM_RESOURCE_WLAN_PROD; consumer_rm2 := IPA_RM_RESOURCE_WLAN_PROD;
     producer1_up := false; consumer1_up := false; rm_set := false; rx_bypass_ipa := false |}.

Definition rm_entry (p1 c1 p2 c2 : ipa_rm_resource_name) : ipa_rm_client :=
  {| producer_rm1 := p1; consumer_rm1 := c1; producer_rm2 := p2; consumer_rm2 := c2;
     producer1_up := false; consumer1_up := false; rm_set := false; rx_bypass_ipa := false |}.

Definition subnet_zero : ipa_private_subnet := {| subnet_addr := 0; subnet_mask := 0 |}.

(** ** Construction *)

(** [IPACM_Config::IPACM_Config()] over the raw memory [mem]: what the
    constructor does not assign keeps whatever the memory held. *)
Definition IPACM_Config_ctor (mem : IPACM_Config) : IPACM_Config :=
  {| iface_table := Null; alg_table := Null;
     private_subnet_table := private_subnet_table mem; pNatIfaces := pNatIfaces mem;
     ipa_virtual_iface_name := ipa_virtual_iface_name mem;
     ipa_num_ipa_interfaces := 0; ipa_num_private_subnet := 0; ipa_num_alg_ports := 0;
     ipa_nat_max_entries := 0; ipa_nat_iface_entries := 0; ipacm_odu_enable := false;
     ipacm_odu_router_mode := false; ipa_rm_tbl := replicate 6 rm_zero; ipa_rm_a2_check := 0;
     ext_prop_v4 := []; ext_prop_v6 := []; qmap_id := 255; rt_tbls := [];
     ipa_client_rm_map_tbl := [] |}.

(** Which of [Init]'s four allocations succeed. *)
Record init_allocs := { ok_cfg : bool; ok_iface : bool; ok_alg : bool; ok_nat : bool }.

(** [if(p != NULL) free(p)] *)
Definition free_if_set {A} (p : cptr A) : option unit :=
  match p with Dangling => None | _ => Some tt end.

(** The interface table built from the XML entries; [calloc] zeroes the netlink
    index, and the last VIRTUAL_IF entry names the bridge. *)
Definition init_iface_entry (e : ipa_ifi_dev_name_t) : ipa_ifi_dev_name_t :=
  {| iface_name := iface_name e; if_cat := if_cat e; netlink_interface_index := 0 |}.

Definition init_virtual_name (old : string) (es : list ipa_ifi_dev_name_t) : string :=
  fold_left (fun n e => if decide (if_cat e = VIRTUAL_IF) then iface_name e else n) es old.

(** The private subnets: the table has three slots, one more entry is a write
    outside it. *)
Definition init_subnets (es : list ipa_private_subnet) : option (list ipa_private_subnet) :=
  if decide (length es <= IPA_MAX_PRIVATE_SUBNET_ENTRIES)%nat
  then Some (es ++ replicate (IPA_MAX_PRIVATE_SUBNET_ENTRIES - length es) subnet_zero)
  else None.

(** The routing table names, by the member that holds them. *)
Definition init_rt_tbls : list (string * (ipa_ip_type * string)) :=
  [("rt_tbl_default_v4", (IPA_IP_v4, "ipa_dflt_rt")); ("rt_tbl_lan_v4", (IPA_IP_v4, "COMRTBLLANv4"));
   ("rt_tbl_wan_v4", (IPA_IP_v4, "WANRTBLv4")); ("rt_tbl_v6", (IPA_IP_v6, "COMRTBLv6"));
   ("rt_tbl_wan_v6", (IPA_IP_v6, "WANRTBLv6")); ("rt_tbl_odu_v4", (IPA_IP_v4, "ODURTBLv4"));
   ("rt_tbl_odu_v6", (IPA_IP_v6, "ODURTBLv6")); ("rt_tbl_wan_dl", (IPA_IP_MAX, "ipa_dflt_wan_rt"));
   ("rt_tbl_lan2lan_v4", (IPA_IP_v4, "LANTOLANRTBLv4"));
   ("rt_tbl_lan2lan_v6", (IPA_IP_v6, "LANTOLANRTBLv6"));
   ("rt_tbl_eth_bridge_usb_wlan_v4", (IPA_IP_v4, "ETH_BRIDGE_USB_WLAN_RTBLv4"));
   ("rt_tbl_eth_bridge_wlan_wlan_v4", (IPA_IP_v4, "ETH_BRIDGE_WLAN_WLAN_RTBLv4"));
   ("rt_tbl_eth_bridge_usb_wlan_v6", (IPA_IP_v6, "ETH_BRIDGE_USB_WLAN_RTBLv6"));
   ("rt_tbl_eth_bridge_wlan_wlan_v6", (IPA_IP_v6, "ETH_BRIDGE_WLAN_WLAN_RTBLv6"))]%string.

(** [ipa_client] to resource-manager name. *)
Definition init_client_rm_map : list (string * ipa_rm_resource_name) :=
  [("IPA_CLIENT_WLAN1_PROD", IPA_RM_RESOURCE_WLAN_PROD);
   ("IPA_CLIENT_USB_PROD", IPA_RM_RESOURCE_USB_PROD);
   ("IPA_CLIENT_A5_WLAN_AMPDU_PROD", IPA_RM_RESOURCE_HSIC_PROD);
   ("IPA_CLIENT_A2_EMBEDDED_PROD", IPA_RM_RESOURCE_Q6_PROD);
   ("IPA_CLIENT_A2_TETHERED_PROD", IPA_RM_RESOURCE_Q6_PROD);
   ("IPA_CLIENT_APPS_LAN_WAN_PROD", IPA_RM_RESOURCE_Q6_PROD);
   ("IPA_CLIENT_WLAN1_CONS", IPA_RM_RESOURCE_WLAN_CONS);
   ("IPA_CLIENT_WLAN2_CONS", IPA_RM_RESOURCE_WLAN_CONS);
   ("IPA_CLIENT_WLAN3_CONS", IPA_RM_RESOURCE_WLAN_CONS);
   ("IPA_CLIENT_WLAN4_CONS", IPA_RM_RESOURCE_WLAN_CONS);
   ("IPA_CLIENT_USB_CONS", IPA_RM_RESOURCE_USB_CONS);
   ("IPA_CLIENT_A2_EMBEDDED_CONS", IPA_RM_RESOURCE_Q6_CONS);
   ("IPA_CLIENT_A2_TETHERED_CONS", IPA_RM_RESOURCE_Q6_CONS);
   ("IPA_CLIENT_APPS_WAN_CONS", IPA_RM_RESOURCE_Q6_CONS)]%string.

(** The first three of the six dependency entries are used. *)
Definition init_rm_tbl (old : list ipa_rm_client) : list ipa_rm_client :=
  rm_entry IPA_RM_RESOURCE_WLAN_PROD IPA_RM_RESOURCE_Q6_CONS
           IPA_RM_RESOURCE_Q6_PROD IPA_RM_RESOURCE_WLAN_CONS ::
  rm_entry IPA_RM_RESOURCE_USB_PROD IPA_RM_RESOURCE_Q6_CONS
           IPA_RM_RESOURCE_Q6_PROD IPA_RM_RESOURCE_USB_CONS ::
  rm_entry IPA_RM_RESOURCE_WLAN_PROD IPA_RM_RESOURCE_USB_CONS
           IPA_RM_RESOURCE_USB_PROD IPA_RM_RESOURCE_WLAN_CONS :: drop 3 old.

(** The last part of [Init]: the NAT interface array and the static tables. *)
Definition init_nat_and_tables (o : init_allocs) (c : IPACM_Config) : option (Z * IPACM_Config) :=
  _ ← free_if_set (pNatIfaces c);
  if negb (ok_nat o)
  then Some (IPACM_FAILURE, c <| pNatIfaces := Null |> <| iface_table := Dangling |>
                              <| alg_table := Dangling |>)
  else Some (IPACM_SUCCESS,
    c <| pNatIfaces := Live (replicate (Z.to_nat (ipa_num_ipa_interfaces c)) EmptyString) |>
      <| rt_tbls := init_rt_tbls |> <| ipa_client_rm_map_tbl := init_client_rm_map |>
      <| ipa_rm_tbl := init_rm_tbl (ipa_rm_tbl c) |>).

(** [IPACM_Config::Init]: [xml] is what [ipacm_read_cfg_xml] reads, [None] when it fails. *)
Definition Init (xml : option IPACM_conf_t) (o : init_allocs) (c : IPACM_Config) :
    option (Z * IPACM_Config) :=
  if negb (ok_cfg o) then Some (IPACM_FAILURE, c) else
  match xml with
  | None => Some (IPACM_FAILURE, c)
  | Some cfg =>
      let c := c <| ipa_num_ipa_interfaces := Z.of_nat (length (iface_entries cfg)) |> in
      _ ← free_if_set (iface_table c);
      if negb (ok_iface o) then Some (IPACM_FAILURE, c <| iface_table := Null |>) else
      let c := c <| iface_table := Live (init_iface_entry <$> iface_entries cfg) |>
                 <| ipa_virtual_iface_name :=
                      init_virtual_name (ipa_virtual_iface_name c) (iface_entries cfg) |> in
      tbl ← init_subnets (private_subnet_entries cfg);
      let c := c <| private_subnet_table := tbl |>
                 <| ipa_num_private_subnet := Z.of_nat (length (private_subnet_entries cfg)) |>
                 <| ipa_num_alg_ports := Z.of_nat (length (alg_entries cfg)) |> in
      _ ← free_if_set (alg_table c);
      if negb (ok_alg o)
      then Some (IPACM_FAILURE, c <| alg_table := Null |> <| iface_table := Dangling |>) else
      init_nat_and_tables o
        (c <| alg_table := Live (alg_entries cfg) |>
           <| ipa_nat_max_entries := nat_max_entries cfg |>
           <| ipacm_odu_enable := odu_enable cfg |>
           <| ipacm_odu_router_mode := router_mode_enable cfg |>)
  end.

(** [IPACM_Config::GetInstance]: the pointer returned and the new [pInstance]. *)
Definition GetInstance (mem : IPACM_Config) (xml : option IPACM_conf_t) (o : init_allocs)
    (pInstance : cptr IPACM_Config) : option (cptr IPACM_Config * cptr IPACM_Config) :=
  match pInstance with
  | Null =>
      '(res, c) ← Init xml o (IPACM_Config_ctor mem);
      if res =? IPACM_SUCCESS then Some (Live c, Live c) else Some (Null, Dangling)
  | _ => Some (pInstance, pInstance)
  end.

(** ** Accessors *)

(** Copy the first [n] elements of a heap array; reading past it is undefined. *)
Definition copy_out {A} (n : Z) (p : cptr (list A)) : option (list A) :=
  match p with
  | Live l => if decide (Z.to_nat n <= length l)%nat then Some (take (Z.to_nat n) l) else None
  | _ => None
  end.

Definition GetAlgPortCnt (c : IPACM_Config) : Z := ipa_num_alg_ports c.
Definition GetNatMaxEntries (c : IPACM_Config) : Z := ipa_nat_max_entries c.
Definition GetNatIfacesCnt (c : IPACM_Config) : Z := ipa_nat_iface_entries c.

(** [GetAlgPorts(nPorts, p)] with [p] a valid array of [nPorts] slots: the
    result and the array (left alone, so [None], on bad input). *)
Definition GetAlgPorts (nPorts : Z) (c : IPACM_Config) : option (Z * option (list ipacm_alg)) :=
  if nPorts <=? 0 then Some (-1, None)
  else l ← copy_out nPorts (alg_table c); Some (0, Some l).

Definition GetNatIfaces (nIfaces : Z) (c : IPACM_Config) : option (Z * option (list string)) :=
  if nIfaces <=? 0 then Some (-1, None)
  else l ← copy_out nIfaces (pNatIfaces c); Some (0, Some l).

(** The entries of [private_subnet_table] in use. *)
Definition subnets_in_use (c : IPACM_Config) : list ipa_private_subnet :=
  take (Z.to_nat (ipa_num_private_subnet c)) (private_subnet_table c).

Definition isPrivateSubnet (c : IPACM_Config) (ip_addr : Z) : bool :=
  existsb (fun s => subnet_addr s =? Z.land (subnet_mask s) ip_addr) (subnets_in_use c).

(** ** NAT interfaces *)

(** The count goes up first; the name is stored only below the array's size. *)
Definition AddNatIfaces (dev_name : string) (c : IPACM_Config) : option (Z * IPACM_Config) :=
  let n := ipa_nat_iface_entries c + 1 in
  let c := c <| ipa_nat_iface_entries := n |> in
  if n <? ipa_num_ipa_interfaces c then
    match pNatIfaces c with
    | Live l =>
        if decide (0 <= n - 1 /\ n - 1 < Z.of_nat (length l))
        then Some (0, c <| pNatIfaces := Live (<[Z.to_nat (n - 1) := dev_name]> l) |>)
        else None
    | _ => None
    end
  else Some (0, c).

(** Remove slot [i] of the first [n]: later names move down by one and the last
    of the [n] is cleared. *)
Definition shift_down (i n : nat) (l : list string) : list string :=
  take i l ++ take (n - S i) (drop (S i) l) ++ [EmptyString] ++ drop n l.

(** Reads run over the first [ipa_nat_iface_entries] slots. *)
Definition DelNatIfaces (dev_name : string) (c : IPACM_Config) : option (Z * IPACM_Config) :=
  let n := Z.to_nat (ipa_nat_iface_entries c) in
  match pNatIfaces c with
  | Live l =>
      if decide (n <= length l)%nat then
        match find_index (fun s => String.eqb dev_name s) (take n l) with
        | Some i => Some (0, c <| pNatIfaces := Live (shift_down i n l) |>
                               <| ipa_nat_iface_entries := ipa_nat_iface_entries c - 1 |>)
        | None => Some (0, c)
        end
      else None
  | _ => if decide (n = 0%nat) then Some (0, c) else None
  end.

(** ** Private subnets (FEATURE_IPA_ANDROID)

    The third component is the IPA_PRIVATE_SUBNET_CHANGE_EVENT posted, with its
    interface index.  [malloc_ok] is the outcome of allocating the event; the
    code then returns IPACM_FAILURE from a [bool] function, which is [true]. *)
Definition AddPrivateSubnet (malloc_ok : bool) (ip_addr ipa_if_index : Z) (c : IPACM_Config) :
    bool * IPACM_Config * option Z :=
  if existsb (fun s => subnet_addr s =? ip_addr) (subnets_in_use c) then (true, c, None)
  else if ipa_num_private_subnet c <? Z.of_nat IPA_MAX_PRIVATE_SUBNET_ENTRIES then
    let n := ipa_num_private_subnet c in
    let entry := {| subnet_addr := ip_addr;
                    subnet_mask := Z.shiftl (Z.shiftr 4294967295 8) 8 |} in
    let c := c <| private_subnet_table := <[Z.to_nat n := entry]> (private_subnet_table c) |>
               <| ipa_num_private_subnet := n + 1 |> in
    if malloc_ok then (true, c, Some ipa_if_index) else (true, c, None)
  else (false, c, None).

(** [for(; cnt < n - 1; cnt++) t[cnt].subnet_addr = t[cnt+1].subnet_addr;] *)
Fixpoint shift_addrs (k : nat) (l : list ipa_private_subnet) : list ipa_private_subnet :=
  match k, l with
  | S k, s :: ((s' :: _) as l') =>
      {| subnet_addr := subnet_addr s'; subnet_mask := subnet_mask s |} :: shift_addrs k l'
  | _, _ => l
  end.

Definition DelPrivateSubnet (malloc_ok : bool) (ip_addr ipa_if_index : Z) (c : IPACM_Config) :
    bool * IPACM_Config * option Z :=
  match find_index (fun s => subnet_addr s =? ip_addr) (subnets_in_use c) with
  | Some cnt =>
      let n := ipa_num_private_subnet c in
      let t := private_subnet_table c in
      let c := c <| private_subnet_table :=
                      take cnt t ++ shift_addrs (Z.to_nat n - 1 - cnt) (drop cnt t) |>
                 <| ipa_num_private_subnet := n - 1 |> in
      if malloc_ok then (true, c, Some ipa_if_index) else (true, c, None)
  | None => (false, c, None)
  end.

(** ** Resource-manager dependencies

    The [ioctl]s are logged; their result is only printed by the code. *)
Inductive rm_ioctl :=
  | RM_ADD_DEPENDENCY (producer consumer : ipa_rm_resource_name)
  | RM_DEL_DEPENDENCY (producer consumer : ipa_rm_resource_name).

(** Add or delete the two dependencies of an entry; the first one is skipped
    when the producer bypasses the IPA. *)
Definition rm_ops (op : ipa_rm_resource_name -> ipa_rm_resource_name -> rm_ioctl)
    (e : ipa_rm_client) : list rm_ioctl :=
  (if rx_bypass_ipa e then [] else [op (producer_rm1 e) (consumer_rm1 e)]) ++
  [op (producer_rm2 e) (consumer_rm2 e)].

Definition rm_add_producer (rm1 : ipa_rm_resource_name) (bypass : bool)
    (log : list rm_ioctl) (e : ipa_rm_client) : list rm_ioctl * ipa_rm_client :=
  if decide (rm1 = producer_rm1 e) then
    let e := e <| producer1_up := true |> <| rx_bypass_ipa := bypass |> in
    if consumer1_up e && negb (rm_set e)
    then (log ++ rm_ops RM_ADD_DEPENDENCY e, e <| rm_set := true |>)
    else (log, e)
  else (log, e).

Definition rm_add_consumer (rm1 : ipa_rm_resource_name)
    (log : list rm_ioctl) (e : ipa_rm_client) : list rm_ioctl * ipa_rm_client :=
  if decide (rm1 = consumer_rm1 e) then
    let e := e <| consumer1_up := true |> in
    if producer1_up e && negb (rm_set e)
    then (log ++ rm_ops RM_ADD_DEPENDENCY e, e <| rm_set := true |>)
    else (log, e)
  else (log, e).

Definition rm_add_entry rm1 bypass log e :=
  let '(log, e) := rm_add_producer rm1 bypass log e in rm_add_consumer rm1 log e.

(** Only the first IPA_MAX_PRIVATE_SUBNET_ENTRIES entries are visited. *)
Definition rm_loop (f : list rm_ioctl -> ipa_rm_client -> list rm_ioctl * ipa_rm_client)
    (t : list ipa_rm_client) : list rm_ioctl * list ipa_rm_client :=
  let '(log, t3) := loop_accum f [] (take IPA_MAX_PRIVATE_SUBNET_ENTRIES t) in
  (log, t3 ++ drop IPA_MAX_PRIVATE_SUBNET_ENTRIES t).

Definition AddRmDepend (rm1 : ipa_rm_resource_name) (bypass : bool) (c : IPACM_Config) :
    list rm_ioctl * IPACM_Config :=
  let a2 := if decide (rm1 = IPA_RM_RESOURCE_Q6_CONS)
            then ipa_rm_a2_check c + 1 else ipa_rm_a2_check c in
  let '(log, t) := rm_loop (rm_add_entry rm1 bypass) (ipa_rm_tbl c) in
  (log, c <| ipa_rm_a2_check := a2 |> <| ipa_rm_tbl := t |>).

(** Take the dependencies of an entry down if they are set. *)
Definition rm_unset (log : list rm_ioctl) (e : ipa_rm_client) : list rm_ioctl * ipa_rm_client :=
  if rm_set e then (log ++ rm_ops RM_DEL_DEPENDENCY e, e <| rm_set := false |>) else (log, e).

Definition rm_del_producer (rm1 : ipa_rm_resource_name)
    (log : list rm_ioctl) (e : ipa_rm_client) : list rm_ioctl * ipa_rm_client :=
  if decide (rm1 = producer_rm1 e) then
    let '(log, e) := rm_unset log e in
    (log, e <| producer1_up := false |> <| rx_bypass_ipa := false |>)
  else (log, e).

(** The Q6 consumer stays up while one default route is left. *)
Definition rm_del_consumer (rm1 : ipa_rm_resource_name) (a2 : Z)
    (log : list rm_ioctl) (e : ipa_rm_client) : list rm_ioctl * ipa_rm_client :=
  if decide (rm1 = consumer_rm1 e) then
    if bool_decide (consumer_rm1 e = IPA_RM_RESOURCE_Q6_CONS) && (a2 =? 1) then (log, e)
    else
      let '(log, e) := rm_unset log e in (log, e <| consumer1_up := false |>)
  else (log, e).

Definition rm_del_entry rm1 a2 log e :=
  let '(log, e) := rm_del_producer rm1 log e in rm_del_consumer rm1 a2 log e.

Definition DelRmDepend (rm1 : ipa_rm_resource_name) (c : IPACM_Config) :
    list rm_ioctl * IPACM_Config :=
  let a2 := if decide (rm1 = IPA_RM_RESOURCE_Q6_CONS)
            then ipa_rm_a2_check c - 1 else ipa_rm_a2_check c in
  let '(log, t) := rm_loop (rm_del_entry rm1 a2) (ipa_rm_tbl c) in
  (log, c <| ipa_rm_a2_check := a2 |> <| ipa_rm_tbl := t |>).

(** ** Extended properties *)
Definition MAX_NUM_EXT_PROPS : nat := 15.

Definition push_ext (p : ipa_ioc_ext_intf_prop) (l : list ipa_ioc_ext_intf_prop) :=
  if (MAX_NUM_EXT_PROPS <=? length l)%nat then l else l ++ [p].

(** An unexpected IP type stops the loop; what was stored before it stays. *)
Fixpoint set_ext_loop (ps : list ipa_ioc_ext_intf_prop) (c : IPACM_Config) : Z * IPACM_Config :=
  match ps with
  | [] => (IPACM_SUCCESS, c)
  | p :: ps =>
      match ep_ip p with
      | IPA_IP_v4 => set_ext_loop ps (c <| ext_prop_v4 := push_ext p (ext_prop_v4 c) |>)
      | IPA_IP_v6 => set_ext_loop ps (c <| ext_prop_v6 := push_ext p (ext_prop_v6 c) |>)
      | IPA_IP_MAX => (IPACM_FAILURE, c)
      end
  end.

(** [None] is the NULL argument. *)
Definition SetExtProp (prop : option (list ipa_ioc_ext_intf_prop)) (c : IPACM_Config) :
    Z * IPACM_Config :=
  match prop with
  | None | Some [] => (IPACM_FAILURE, c)
  | Some ps => set_ext_loop ps c
  end.

Definition GetExtProp (ip_type : ipa_ip_type) (c : IPACM_Config) :
    option (list ipa_ioc_ext_intf_prop) :=
  match ip_type with
  | IPA_IP_v4 => Some (ext_prop_v4 c)
  | IPA_IP_v6 => Some (ext_prop_v6 c)
  | IPA_IP_MAX => None
  end.

Definition DelExtProp (ip_type : ipa_ip_type) (c : IPACM_Config) : Z * IPACM_Config :=
  let c := if decide (ip_type = IPA_IP_v6) then c else c <| ext_prop_v4 := [] |> in
  let c := if decide (ip_type = IPA_IP_v4) then c else c <| ext_prop_v6 := [] |> in
  (IPACM_SUCCESS, c).

(** ** The invariant of a running configuration *)

Definition rm_ok (e : ipa_rm_client) : Prop := rm_set e = producer1_up e && consumer1_up e.

Record config_inv (c : IPACM_Config) : Prop := {
  ci_subnets : length (private_subnet_table c) = IPA_MAX_PRIVATE_SUBNET_ENTRIES;
  ci_num_subnets : 0 <= ipa_num_private_subnet c <= Z.of_nat IPA_MAX_PRIVATE_SUBNET_ENTRIES;
  ci_num_nat : 0 <= ipa_nat_iface_entries c;
  ci_nat : exists l, pNatIfaces c = Live l /\ Z.of_nat (length l) = ipa_num_ipa_interfaces c;
  ci_rm : Forall rm_ok (ipa_rm_tbl c);
  ci_ext4 : (length (ext_prop_v4 c) <= MAX_NUM_EXT_PROPS)%nat;
  ci_ext6 : (length (ext_prop_v6 c) <= MAX_NUM_EXT_PROPS)%nat
}.

(** The operations the other components call on the configuration. *)
Inductive config_step : IPACM_Config -> IPACM_Config -> Prop :=
  | step_add_nat d r c c' : AddNatIfaces d c = Some (r, c') -> config_step c c'
  | step_del_nat d r c c' : DelNatIfaces d c = Some (r, c') -> config_step c c'
  | step_add_subnet m ip i c : config_step c (snd (fst (AddPrivateSubnet m ip i c)))
  | step_del_subnet m ip i c : config_step c (snd (fst (DelPrivateSubnet m ip i c)))
  | step_add_rm rm b c : config_step c (snd (AddRmDepend rm b c))
  | step_del_rm rm c : config_step c (snd (DelRmDepend rm c))
  | step_set_ext ps c : config_step c (snd (SetExtProp ps c))
  | step_del_ext t c : config_step c (snd (DelExtProp t c)).

Lemma rm_loop_ok f t :
  (forall log e, rm_ok e -> rm_ok (snd (f log e))) ->
  Forall rm_ok t -> Forall rm_ok (snd (rm_loop f t)).
Proof.
  intros Hf Ht. unfold rm_loop.
  destruct (loop_accum_post rm_ok (fun _ => True) f [] (take IPA_MAX_PRIVATE_SUBNET_ENTRIES t))
    as [_ H]; [|done|].
  - intros log e _ He. split; [done|]. apply Hf.
    eapply Forall_forall in Ht; [done|]. by eapply elem_of_take in He as (? & ? & _);
    apply list_elem_of_lookup; eauto.
  - destruct (loop_accum _ _ _) as [log t3]. simpl in *. apply Forall_app. split; [done|].
    by apply Forall_drop.
Qed.

Lemma rm_add_entry_ok rm1 b log e : rm_ok e -> rm_ok (snd (rm_add_entry rm1 b log e)).
Proof.
  unfold rm_ok, rm_add_entry, rm_add_producer, rm_add_consumer.
  destruct e as [p1 c1 p2 c2 [] [] [] by0]; simpl; intros H; try done;
    repeat case_decide; simpl; repeat case_decide; simpl; done.
Qed.

Lemma rm_del_entry_ok rm1 a2 log e : rm_ok e -> rm_ok (snd (rm_del_entry rm1 a2 log e)).
Proof.
  unfold rm_ok, rm_del_entry, rm_del_producer, rm_del_consumer, rm_unset.
  destruct e as [p1 c1 p2 c2 [] [] [] by0]; simpl; intros H; try done;
    repeat case_decide; simpl; repeat case_decide; simpl; solve_cases.
Qed.

Lemma length_shift_addrs k l : length (shift_addrs k l) = length l.
Proof.
  revert l. induction k as [|k IH]; intros l; [done|].
  destruct l as [|s [|s' l]]; [done|done|]. change (S (length (shift_addrs k (s' :: l))) = S (length (s' :: l))).
  by rewrite IH.
Qed.

Lemma length_shift_down i n l :
  (i < n)%nat -> (n <= length l)%nat -> length (shift_down i n l) = length l.
Proof.
  intros. unfold shift_down. rewrite !length_app, !length_take, !length_drop. simpl. lia.
Qed.

Lemma length_push_ext p l :
  (length l <= MAX_NUM_EXT_PROPS)%nat -> (length (push_ext p l) <= MAX_NUM_EXT_PROPS)%nat.
Proof.
  intros. unfold push_ext. destruct (Nat.leb_spec MAX_NUM_EXT_PROPS (length l)); [done|].
  rewrite length_app. simpl. lia.
Qed.

Lemma set_ext_loop_inv ps c : config_inv c -> config_inv (snd (set_ext_loop ps c)).
Proof.
  revert c. induction ps as [|p ps IH]; intros c Hc; simpl; [done|].
  destruct (ep_ip p); [apply IH; destruct Hc; constructor; simpl; auto using length_push_ext..|done].
Qed.

Lemma find_index_take_lt {A} (p : A -> bool) n l i :
  find_index p (take n l) = Some i -> (i < n)%nat /\ (i < length l)%nat.
Proof.
  intros H. apply find_index_Some in H as (x & Hx & _).
  apply lookup_take_Some in Hx as [Hx ?]. apply lookup_lt_Some in Hx. lia.
Qed.

Lemma config_step_inv c c' : config_step c c' -> config_inv c -> config_inv c'.
Proof.
  intros Hs Hc. destruct Hc as [H1 H2 H3 (l & Hl & Hn) H5 H6 H7]. destruct Hs.
  - unfold AddNatIfaces in H. simpl in H. rewrite Hl in H.
    destruct (_ <? _); [case_decide; [|done]|]; simplify_eq/=;
      constructor; simpl; auto with lia; eexists; split; eauto. by rewrite length_insert.
  - unfold DelNatIfaces in H. rewrite Hl in H. case_decide as Hd; [|done].
    destruct (find_index _ _) as [i|] eqn:Ei; simplify_eq; [|by constructor; eauto].
    apply find_index_take_lt in Ei as [??].
    constructor; simpl; auto; [lia|]. eexists. split; [done|]. by rewrite length_shift_down by lia.
  - unfold AddPrivateSubnet. destruct (existsb _ _); [by constructor; eauto|].
    destruct (_ <? _) eqn:E; [|by constructor; eauto]. bool_to_prop.
    destruct m; constructor; simpl; eauto; try lia; by rewrite length_insert.
  - unfold DelPrivateSubnet. destruct (find_index _ _) as [k|] eqn:E; [|by constructor; eauto].
    apply find_index_take_lt in E as [??].
    destruct m; constructor; simpl; eauto; try lia;
      rewrite length_app, length_shift_addrs, length_take, length_drop; lia.
  - unfold AddRmDepend. pose proof (rm_loop_ok (rm_add_entry rm b) (ipa_rm_tbl c)
      (rm_add_entry_ok rm b) H5).
    destruct (rm_loop _ _) as [log t]. constructor; simpl; eauto.
  - unfold DelRmDepend. set (a2 := if decide _ then _ else _).
    pose proof (rm_loop_ok (rm_del_entry rm a2) (ipa_rm_tbl c) (rm_del_entry_ok rm a2) H5).
    destruct (rm_loop _ _) as [log t]. constructor; simpl; eauto.
  - unfold SetExtProp. destruct ps as [[|p ps]|]; simpl;
      [by constructor; eauto| |by constructor; eauto].
    apply (set_ext_loop_inv (p :: ps)). constructor; eauto.
  - unfold DelExtProp. destruct t; constructor; simpl; eauto with lia.
Qed.

Lemma Init_success mem xml o c :
  Init xml o (IPACM_Config_ctor mem) = Some (IPACM_SUCCESS, c) ->
  exists cfg, xml = Some cfg /\ config_inv c /\
    alg_table c = Live (alg_entries cfg) /\
    ipa_num_alg_ports c = Z.of_nat (length (alg_entries cfg)) /\
    ipa_num_ipa_interfaces c = Z.of_nat (length (iface_entries cfg)) /\
    subnets_in_use c = private_subnet_entries cfg /\ ipa_nat_iface_entries c = 0.
Proof.
  unfold Init. destruct (ok_cfg o); [simpl|done]. destruct xml as [cfg|]; [|done].
  simpl. destruct (ok_iface o); [simpl|done].
  unfold init_subnets. case_decide as Hlen; [|done]. simpl.
  destruct (ok_alg o); [simpl|done]. unfold init_nat_and_tables. simpl.
  destruct (pNatIfaces mem); simpl; try done; (destruct (ok_nat o); simpl; [|done]);
  intros H; simplify_eq; (eexists; split; [done|]);
  (split; [constructor; simpl; auto with lia|]).
  all: try (rewrite length_app, length_replicate; lia).
  all: try (unfold IPA_MAX_PRIVATE_SUBNET_ENTRIES in *; lia).
  all: try (eexists; split; [done|]; rewrite length_replicate; lia).
  all: try (repeat constructor).
  all: unfold subnets_in_use; simpl; rewrite Nat2Z.id, take_app_length; done.
Qed.

Lemma Init_nat_array mem xml o c :
  Init xml o (IPACM_Config_ctor mem) = Some (IPACM_SUCCESS, c) ->
  exists l, pNatIfaces c = Live l /\ Z.of_nat (length l) = ipa_num_ipa_interfaces c /\
    l = replicate (length l) EmptyString /\ ipa_nat_iface_entries c = 0.
Proof.
  unfold Init. destruct (ok_cfg o); [simpl|done]. destruct xml as [cfg|]; [|done].
  simpl. destruct (ok_iface o); [simpl|done].
  unfold init_subnets. case_decide; [|done]. simpl.
  destruct (ok_alg o); [simpl|done]. unfold init_nat_and_tables. simpl.
  destruct (pNatIfaces mem); simpl; try done; (destruct (ok_nat o); simpl; [|done]);
  intros H'; simplify_eq; eexists; (split; [done|]); rewrite length_replicate;
  (split_and!; [simpl; lia|done|done]).
Qed.

(** The slots of the subnet addresses after [DelPrivateSubnet]. *)
Lemma shift_addrs_addr k l :
  (k < length l)%nat ->
  subnet_addr <$> take k (shift_addrs k l) = subnet_addr <$> take k (drop 1 l).
Proof.
  revert l. induction k as [|k IH]; intros l Hk; [done|].
  destruct l as [|s [|s' l]]; simpl in *; [lia|lia|]. f_equal. apply (IH (s' :: l)). simpl; lia.
Qed.

Lemma shift_addrs_mask k l : subnet_mask <$> shift_addrs k l = subnet_mask <$> l.
Proof.
  revert l. induction k as [|k IH]; intros l; [done|].
  destruct l as [|s [|s' l]]; [done|done|]. simpl. f_equal. apply (IH (s' :: l)).
Qed.

(** Membership tests of the subnet loops. *)
Lemma existsb_subnet ip l :
  existsb (fun s => subnet_addr s =? ip) l = true <-> ip ∈ (subnet_addr <$> l).
Proof.
  rewrite existsb_exists. split.
  - intros (s & Hs & He). bool_to_prop. subst. apply list_elem_of_fmap. eexists. split; [done|].
    by apply list_elem_of_In.
  - intros (s & -> & Hs)%list_elem_of_fmap. exists s. split; [by apply list_elem_of_In|lia].
Qed.

Lemma AddPrivateSubnet_cases m ip i c :
  config_inv c ->
  let '(b, c', ev) := AddPrivateSubnet m ip i c in
  (ip ∈ (subnet_addr <$> subnets_in_use c) /\ b = true /\ c' = c /\ ev = None) \/
  ((ip ∉ (subnet_addr <$> subnets_in_use c)) /\ ipa_num_private_subnet c = 3 /\
     b = false /\ c' = c /\ ev = None) \/
  ((ip ∉ (subnet_addr <$> subnets_in_use c)) /\ ipa_num_private_subnet c < 3 /\ b = true /\
     subnets_in_use c' = subnets_in_use c ++ [{| subnet_addr := ip; subnet_mask := 4294967040 |}] /\
     ev = if m then Some i else None).
Proof.
  intros [H1 H2]. unfold AddPrivateSubnet.
  destruct (existsb _ _) eqn:E; [left; by apply existsb_subnet in E|].
  assert (ip ∉ (subnet_addr <$> subnets_in_use c)) as Hn
    by (intros Hin%existsb_subnet; congruence).
  unfold IPA_MAX_PRIVATE_SUBNET_ENTRIES in *. destruct (_ <? _) eqn:Elt; bool_to_prop.
  - assert (forall b, subnets_in_use (c <| private_subnet_table :=
        <[Z.to_nat (ipa_num_private_subnet c) := b]> (private_subnet_table c) |>
        <| ipa_num_private_subnet := ipa_num_private_subnet c + 1 |>) = subnets_in_use c ++ [b]) as Hb.
    { intros b. unfold subnets_in_use. simpl.
      replace (Z.to_nat (ipa_num_private_subnet c + 1))
        with (S (Z.to_nat (ipa_num_private_subnet c))) by lia.
      erewrite take_S_r; [|apply list_lookup_insert_eq; lia].
      by rewrite take_insert_ge by lia. }
    destruct m; right; right; (split_and!; [done|lia|done|apply Hb|done]).
  - right; left. split_and!; auto. lia.
Qed.

Lemma DelPrivateSubnet_cases m ip i c :
  config_inv c ->
  let '(b, c', ev) := DelPrivateSubnet m ip i c in
  let addrs := subnet_addr <$> subnets_in_use c in
  ((ip ∉ addrs) /\ b = false /\ c' = c /\ ev = None) \/
  (exists k, addrs = take k addrs ++ ip :: drop (S k) addrs /\ (ip ∉ take k addrs) /\ b = true /\
     subnet_addr <$> subnets_in_use c' = take k addrs ++ drop (S k) addrs /\
     subnet_mask <$> private_subnet_table c' = subnet_mask <$> private_subnet_table c /\
     ev = if m then Some i else None).
Proof.
  intros [H1 H2]. unfold DelPrivateSubnet.
  destruct (find_index _ _) as [k|] eqn:E.
  - pose proof (find_index_take_lt _ _ _ _ E) as [Hk1 Hk2].
    apply find_index_Some in E as (s & Hs & Hp & Hlt). bool_to_prop.
    set (n := Z.to_nat (ipa_num_private_subnet c)) in *.
    assert (Hlen : (n <= length (private_subnet_table c))%nat)
      by (unfold n, IPA_MAX_PRIVATE_SUBNET_ENTRIES in *; lia).
    destruct m; right; exists k; cbn -[take drop]; (split_and!; [| |done| | |done]).
    all: try (rewrite <- Hp; symmetry; apply take_drop_middle; by rewrite list_lookup_fmap, Hs).
    all: try (rewrite <- fmap_take; intros (s' & -> & Hs')%list_elem_of_fmap;
      apply elem_of_take in Hs' as (j & Hj & Hjk); specialize (Hlt _ _ Hjk Hj); simpl in Hlt; lia).
    all: try (rewrite fmap_app, shift_addrs_mask, <- fmap_app, take_drop; done).
    all: unfold subnets_in_use; cbn -[take drop];
      replace (Z.to_nat (ipa_num_private_subnet c - 1)) with (k + (n - 1 - k))%nat by lia;
      rewrite take_app_add' by (rewrite length_take; lia);
      rewrite fmap_app, shift_addrs_addr by (rewrite length_drop; lia);
      rewrite drop_drop, <- fmap_take, <- fmap_drop; fold n;
      rewrite take_take, Nat.min_l by lia; f_equal; f_equal;
      rewrite skipn_firstn_comm; f_equal; [lia|f_equal; lia].
  - left. apply find_index_None in E. split_and!; auto.
    intros (s & -> & Hs)%list_elem_of_fmap. eapply Forall_forall in E; [|done]. simpl in E. lia.
Qed.

(** [AddNatIfaces] for each name in turn. *)
Fixpoint add_nat_all (names : list string) (c : IPACM_Config) : option IPACM_Config :=
  match names with
  | [] => Some c
  | n :: names => '(_, c) ← AddNatIfaces n c; add_nat_all names c
  end.

Lemma add_nat_all_lookup names c c' l :
  0 <= ipa_nat_iface_entries c -> pNatIfaces c = Live l ->
  Z.of_nat (length l) = ipa_num_ipa_interfaces c -> add_nat_all names c = Some c' ->
  let n := Z.to_nat (ipa_nat_iface_entries c) in
  ipa_nat_iface_entries c' = ipa_nat_iface_entries c + Z.of_nat (length names) /\
  exists l', pNatIfaces c' = Live l' /\ length l' = length l /\
    forall k, l' !! k = if decide (n <= k < n + length names /\ S k < length l)%nat
                   then names !! (k - n)%nat else l !! k.
Proof.
  revert c l. induction names as [|d names IH]; intros c l Hn Hl Hlen Ha n.
  - simplify_eq/=. split; [lia|]. exists l. split_and!; auto.
    intros k. by rewrite decide_False by (simpl; lia).
  - simpl in Ha. destruct (AddNatIfaces d c) as [[r c1]|] eqn:E; [simpl in Ha|done].
    unfold AddNatIfaces in E. simpl in E. rewrite Hl in E. destruct (_ <? _) eqn:Elt; bool_to_prop.
    + case_decide; [|done]. simplify_eq/=.
      eapply IH in Ha as (Hc & l' & Hl' & Hlen' & Hk);
        [|simpl; lia|done|by rewrite length_insert]. simpl in *.
      split; [lia|]. exists l'. rewrite length_insert in Hlen'. split_and!; auto.
      intros k. rewrite Hk, length_insert.
      replace (Z.to_nat (ipa_nat_iface_entries c + 1)) with (S n) by lia.
      replace (Z.to_nat (ipa_nat_iface_entries c + 1 - 1)) with n by lia.
      destruct (decide (k = n)) as [->|Hkn].
      * rewrite decide_False by lia. rewrite decide_True by lia.
        rewrite list_lookup_insert_eq by lia. by rewrite Nat.sub_diag.
      * rewrite list_lookup_insert_ne by lia. destruct (decide (S n <= k < _ /\ _)%nat).
        { rewrite decide_True by lia. by replace (k - n)%nat with (S (k - S n)) by lia. }
        by rewrite decide_False by lia.
    + simplify_eq/=.
      eapply IH in Ha as (Hc & l' & Hl' & Hlen' & Hk); [|simpl; lia|done|done].
      simpl in *. split; [lia|]. exists l'. split_and!; auto.
      intros k. rewrite Hk. rewrite !decide_False by lia. done.
Qed.

Lemma add_nat_all_names names l l' :
  (forall k, l' !! k = if decide (0 <= k < 0 + length names /\ S k < length l)%nat
                  then names !! (k - 0)%nat else l !! k) ->
  length l' = length l -> l = replicate (length l) EmptyString -> names <> [] ->
  ((length names < length l)%nat -> take (length names) l' = names) /\
  (length names = length l -> l' = removelast names ++ [EmptyString]).
Proof.
  intros Hk0 Hlen Hrep Hne. assert (Hk : forall k, l' !! k =
    if decide (0 <= k < length names /\ S k < length l)%nat then names !! k else l !! k)
    by (intros k; rewrite Hk0, Nat.sub_0_r; done). clear Hk0. split; intros Hlt.
  - apply list_eq. intros k. destruct (decide (k < length names)%nat).
    + rewrite lookup_take_lt by lia. rewrite Hk. by rewrite decide_True by lia.
    + rewrite lookup_take_ge, lookup_ge_None_2 by lia. done.
  - destruct names as [|d names] using rev_ind; [done|]. clear IHnames Hne.
    rewrite removelast_last. rewrite length_app in Hlt, Hk. simpl in Hlt, Hk.
    apply list_eq. intros k. rewrite Hk. destruct (decide (k < length names)%nat).
    + rewrite decide_True by lia. by rewrite !lookup_app_l by lia.
    + rewrite decide_False by lia. rewrite lookup_app_r by lia. rewrite Hrep.
      destruct (decide (k = length names)) as [->|].
      * rewrite Nat.sub_diag. simpl. apply lookup_replicate_2. lia.
      * rewrite lookup_ge_None_2 by (rewrite length_replicate; lia).
        symmetry. apply lookup_ge_None_2. simpl. lia.
Qed.

(** ** Properties *)

(** every configuration reached from a successful [Init] by the operations
    the other components call keeps the table bounds (at most three private
    subnets and fifteen extended properties of each type), one NAT-interface
    slot per interface, and a dependency is set up exactly while its producer
    and its consumer are both up. *)
Theorem config_reachable_inv mem xml o c0 c :
  Init xml o (IPACM_Config_ctor mem) = Some (IPACM_SUCCESS, c0) ->
  rtc config_step c0 c -> config_inv c.
Proof.
  intros (cfg & _ & Hc & _)%Init_success Hsteps.
  induction Hsteps; eauto using config_step_inv.
Qed.

(** adding a private subnet appends it with a /24 mask when it is new and
    there is room, changes nothing when it is known or the table is full, and
    deleting one removes its first address but leaves the masks where they were,
    so that every later subnet takes the mask of its predecessor's slot. *)
Theorem config_private_subnets m ip i c :
  config_inv c ->
  (let '(b, c', ev) := AddPrivateSubnet m ip i c in
   (ip ∈ (subnet_addr <$> subnets_in_use c) /\ b = true /\ c' = c /\ ev = None) \/
   ((ip ∉ (subnet_addr <$> subnets_in_use c)) /\ ipa_num_private_subnet c = 3 /\
      b = false /\ c' = c /\ ev = None) \/
   ((ip ∉ (subnet_addr <$> subnets_in_use c)) /\ ipa_num_private_subnet c < 3 /\ b = true /\
      subnets_in_use c' = subnets_in_use c ++ [{| subnet_addr := ip; subnet_mask := 4294967040 |}] /\
      ev = if m then Some i else None)) /\
  (let '(b, c', ev) := DelPrivateSubnet m ip i c in
   ((ip ∉ (subnet_addr <$> subnets_in_use c)) /\ b = false /\ c' = c /\ ev = None) \/
   (exists k, subnet_addr <$> subnets_in_use c =
        take k (subnet_addr <$> subnets_in_use c) ++ ip :: drop (S k) (subnet_addr <$> subnets_in_use c) /\
      (ip ∉ take k (subnet_addr <$> subnets_in_use c)) /\ b = true /\
      subnet_addr <$> subnets_in_use c' =
        take k (subnet_addr <$> subnets_in_use c) ++ drop (S k) (subnet_addr <$> subnets_in_use c) /\
      subnet_mask <$> private_subnet_table c' = subnet_mask <$> private_subnet_table c /\
      ev = if m then Some i else None)).
Proof.
  intros Hc. split.
  - pose proof (AddPrivateSubnet_cases m ip i c Hc) as H. exact H.
  - pose proof (DelPrivateSubnet_cases m ip i c Hc) as H. exact H.
Qed.

(** the NAT interface names read back after adding them are the names added
    while they are fewer than the interfaces of the XML file; the last slot is
    never written, and one more name makes [GetNatIfaces] read outside the
    array. *)
Theorem config_nat_ifaces_roundtrip mem xml o c0 names c :
  Init xml o (IPACM_Config_ctor mem) = Some (IPACM_SUCCESS, c0) -> names <> [] ->
  add_nat_all names c0 = Some c ->
  let n := Z.of_nat (length names) in
  GetNatIfacesCnt c = n /\
  (n < ipa_num_ipa_interfaces c0 -> GetNatIfaces n c = Some (0, Some names)) /\
  (n = ipa_num_ipa_interfaces c0 ->
     GetNatIfaces n c = Some (0, Some (removelast names ++ [EmptyString]))) /\
  (ipa_num_ipa_interfaces c0 < n -> GetNatIfaces n c = None).
Proof.
  intros Hi Hne Ha n. destruct (Init_nat_array _ _ _ _ Hi) as (l & Hl & Hlen & Hrep & H0).
  destruct (add_nat_all_lookup names c0 c l ltac:(lia) Hl Hlen Ha) as (Hn & l' & Hl' & Hlen' & Hk).
  rewrite H0 in Hn, Hk. destruct (add_nat_all_names names l l' Hk Hlen' Hrep Hne) as [Hlt Heq].
  assert (0 < n) by (unfold n; destruct names; simpl; done || lia).
  unfold GetNatIfacesCnt, GetNatIfaces, copy_out. rewrite Hl'.
  destruct (Z.leb_spec n 0); [lia|]. unfold n in *. rewrite Nat2Z.id. split_and!.
  - lia.
  - intros. rewrite decide_True by lia. simpl. by rewrite Hlt by lia.
  - intros. rewrite decide_True by lia. simpl. rewrite take_ge by lia. by rewrite Heq by lia.
  - intros. by rewrite decide_False by lia.
Qed.

(** The witnesses run the operations on a configuration with two interfaces. *)
Definition example_mem : IPACM_Config :=
  {| iface_table := Dangling; alg_table := Dangling; private_subnet_table := [];
     pNatIfaces := Null; ipa_virtual_iface_name := EmptyString; ipa_num_ipa_interfaces := 0;
     ipa_num_private_subnet := 0; ipa_num_alg_ports := 0; ipa_nat_max_entries := 0;
     ipa_nat_iface_entries := 0; ipacm_odu_enable := false; ipacm_odu_router_mode := false;
     ipa_rm_tbl := []; ipa_rm_a2_check := 0; ext_prop_v4 := []; ext_prop_v6 := [];
     qmap_id := 0; rt_tbls := []; ipa_client_rm_map_tbl := [] |}.

Definition example_conf : IPACM_conf_t :=
  {| iface_entries :=
       [{| iface_name := "wlan0"; if_cat := WLAN_IF; netlink_interface_index := 0 |};
        {| iface_name := "rmnet0"; if_cat := WAN_IF; netlink_interface_index := 0 |}];
     private_subnet_entries :=
       [{| subnet_addr := 3232235520; subnet_mask := 4294901760 |};
        {| subnet_addr := 167772160; subnet_mask := 4278190080 |}];
     alg_entries := [{| alg_protocol := 6; alg_port := 21 |}];
     nat_max_entries := 4; odu_enable := false; router_mode_enable := false |}.

Definition all_ok : init_allocs :=
  {| ok_cfg := true; ok_iface := true; ok_alg := true; ok_nat := true |}.

Definition example_cfg : IPACM_Config := Eval vm_compute in
  match Init (Some example_conf) all_ok (IPACM_Config_ctor example_mem) with
  | Some (_, c) => c
  | None => example_mem
  end.

Lemma config_reachable_inv_witness :
  config_inv (snd (AddRmDepend IPA_RM_RESOURCE_WLAN_PROD false
    (snd (AddRmDepend IPA_RM_RESOURCE_Q6_CONS false example_cfg)))).
Proof.
  apply (config_reachable_inv example_mem (Some example_conf) all_ok example_cfg).
  - reflexivity.
  - eapply rtc_l; [apply (step_add_rm IPA_RM_RESOURCE_Q6_CONS false)|].
    eapply rtc_l; [apply (step_add_rm IPA_RM_RESOURCE_WLAN_PROD false)|]. apply rtc_refl.
Defined.

Lemma config_private_subnets_witness :
  let '(b, c', _) := DelPrivateSubnet true 3232235520 0 example_cfg in
  b = true /\
  subnet_mask <$> private_subnet_table c' = subnet_mask <$> private_subnet_table example_cfg /\
  subnet_addr <$> subnets_in_use c' = [167772160].
Proof.
  destruct (Init_success example_mem (Some example_conf) all_ok example_cfg eq_refl)
    as (cfg & _ & Hc & _).
  pose proof (config_private_subnets true 3232235520 0 example_cfg Hc) as [_ H].
  assert (fst (fst (DelPrivateSubnet true 3232235520 0 example_cfg)) = true) as Hb
    by (vm_compute; reflexivity).
  assert (subnet_addr <$> subnets_in_use
    (snd (fst (DelPrivateSubnet true 3232235520 0 example_cfg))) = [167772160]) as Ha
    by (vm_compute; reflexivity).
  destruct (DelPrivateSubnet _ _ _ _) as [[b c'] ev]. simpl in Hb, Ha. subst b.
  destruct H as [(_ & Hf & _)|(k & _ & _ & _ & _ & Hm & _)]; [discriminate|].
  split; [reflexivity|]. split; [exact Hm|exact Ha].
Defined.

Lemma config_nat_ifaces_roundtrip_witness :
  exists c, add_nat_all ["wlan0"; "eth0"]%string example_cfg = Some c /\
    GetNatIfaces 2 c = Some (0, Some ["wlan0"%string; EmptyString]).
Proof.
  destruct (add_nat_all ["wlan0"; "eth0"]%string example_cfg) as [c|] eqn:E;
    [|vm_compute in E; discriminate].
  exists c. split; [reflexivity|].
  apply (config_nat_ifaces_roundtrip example_mem (Some example_conf) all_ok example_cfg
    ["wlan0"; "eth0"]%string c); [reflexivity|discriminate|exact E|reflexivity].
Defined.
