(* ===== verification/NatDrv.v ===== *)
(** * The interface of the IPA NAT driver ([ipanat/inc/ipa_nat_drv.h])

    [NatApp] drives the hardware NAT table through five calls.  Here they are the
    operations of a class over the state [W] of the world outside the program; an
    out-parameter is passed in with its old value and comes back with its new one,
    so that a call may leave it alone or clobber it on failure.  [NatDrvLaws] is
    what the header documents; [SimpleDrv] is a concrete driver that satisfies it. *)
From S2P Require Import Prelude Defs.
From stdpp Require Import base list gmap.
From Stdlib Require Import ZArith Lia.

Open Scope Z_scope.

(** [ipa_nat_ipv4_rule] *)
Record ipa_nat_ipv4_rule := {
  r_target_ip : Z;
  r_private_ip : Z;
  r_target_port : Z;
  r_private_port : Z;
  r_public_port : Z;
  r_protocol : Z
}.

Class NatDrv (W : Type) := {
  (** [ipa_nat_add_ipv4_tbl(pub_ip, n, &hdl)]: result, new [hdl], new world *)
  ipa_nat_add_ipv4_tbl : Z -> Z -> Z -> W -> Z * Z * W;
  ipa_nat_del_ipv4_tbl : Z -> W -> Z * W;
  (** [ipa_nat_add_ipv4_rule(tbl, &rule, &hdl)]: result, new [hdl], new world *)
  ipa_nat_add_ipv4_rule : Z -> ipa_nat_ipv4_rule -> Z -> W -> Z * Z * W;
  ipa_nat_del_ipv4_rule : Z -> Z -> W -> Z * W;
  (** [ipa_nat_query_timestamp(tbl, hdl, &ts)]: result, new [ts], new world *)
  ipa_nat_query_timestamp : Z -> Z -> Z -> W -> Z * Z * W
}.

(** What the driver documents, over the set of rules it holds, keyed by table
    and rule handle.  A negative result is a failure that changes no rule. *)
Class NatDrvLaws (W : Type) `{NatDrv W} := {
  drv_rules : W -> gmap (Z * Z) ipa_nat_ipv4_rule;
  drv_add_tbl pub n h w :
    let '(ret, h', w') := ipa_nat_add_ipv4_tbl pub n h w in
    drv_rules w' = drv_rules w /\ (ret = 0 -> forall k, drv_rules w !! (h', k) = None);
  drv_del_tbl t w :
    let '(ret, w') := ipa_nat_del_ipv4_tbl t w in
    (ret <> 0 /\ drv_rules w' = drv_rules w) \/
    (ret = 0 /\ drv_rules w' = filter (fun kv => fst (fst kv) <> t) (drv_rules w));
  drv_add_rule t r h w :
    let '(ret, h', w') := ipa_nat_add_ipv4_rule t r h w in
    (ret < 0 /\ drv_rules w' = drv_rules w) \/
    (0 <= ret /\ drv_rules w !! (t, h') = None /\ drv_rules w' = <[(t, h') := r]> (drv_rules w));
  drv_del_rule t h w :
    let '(ret, w') := ipa_nat_del_ipv4_rule t h w in
    (ret < 0 /\ drv_rules w' = drv_rules w) \/
    (0 <= ret /\ drv_rules w' = delete (t, h) (drv_rules w));
  drv_query t h ts w :
    drv_rules (snd (ipa_nat_query_timestamp t h ts w)) = drv_rules w
}.

(** A driver that deletes every rule it is asked to delete and holds. *)
Class NatDrvReliable (W : Type) `{NatDrvLaws W} := {
  drv_del_ok t h r w :
    drv_rules w !! (t, h) = Some r -> 0 <= fst (ipa_nat_del_ipv4_rule t h w)
}.

(** ** A concrete driver

    Room for one table (handle 1, as [IPA_NAT_MAX_IP4_TBLS] says) of a fixed
    number of rules, whose handles are handed out upwards from 1. *)
Record SimpleDrv := {
  sd_table : bool;
  sd_next : Z;
  sd_room : Z;
  sd_rules : gmap Z ipa_nat_ipv4_rule
}.

Definition sd_empty (room : Z) : SimpleDrv :=
  {| sd_table := false; sd_next := 1; sd_room := room; sd_rules := ∅ |}.

Definition sd_add_tbl (pub n h : Z) (d : SimpleDrv) : Z * Z * SimpleDrv :=
  if sd_table d then (-22, h, d)
  else (0, 1, {| sd_table := true; sd_next := 1; sd_room := sd_room d; sd_rules := ∅ |}).

Definition sd_del_tbl (t : Z) (d : SimpleDrv) : Z * SimpleDrv :=
  if sd_table d && (t =? 1)
  then (0, {| sd_table := false; sd_next := 1; sd_room := sd_room d; sd_rules := ∅ |})
  else (-22, d).

Definition sd_add_rule (t : Z) (r : ipa_nat_ipv4_rule) (h : Z) (d : SimpleDrv) :
    Z * Z * SimpleDrv :=
  if negb (sd_table d && (t =? 1)) then (-22, h, d)
  else if sd_room d <=? Z.of_nat (size (sd_rules d)) then (-22, h, d)
  else match sd_rules d !! sd_next d with
       | Some _ => (-22, h, d)
       | None =>
           (0, sd_next d, {| sd_table := true; sd_next := sd_next d + 1; sd_room := sd_room d;
                             sd_rules := <[sd_next d := r]> (sd_rules d) |})
       end.

Definition sd_del_rule (t h : Z) (d : SimpleDrv) : Z * SimpleDrv :=
  if negb (sd_table d && (t =? 1)) then (-22, d)
  else match sd_rules d !! h with
  | None => (-22, d)
  | Some _ => (0, {| sd_table := true; sd_next := sd_next d; sd_room := sd_room d;
                     sd_rules := delete h (sd_rules d) |})
  end.

#[export] Instance SimpleDrv_NatDrv : NatDrv SimpleDrv := {|
  ipa_nat_add_ipv4_tbl := sd_add_tbl;
  ipa_nat_del_ipv4_tbl := sd_del_tbl;
  ipa_nat_add_ipv4_rule := sd_add_rule;
  ipa_nat_del_ipv4_rule := sd_del_rule;
  ipa_nat_query_timestamp t h ts d := (0, ts + 1, d)
|}.

(** The rules of the concrete driver, all in table 1. *)
Definition sd_view (d : SimpleDrv) : gmap (Z * Z) ipa_nat_ipv4_rule :=
  if sd_table d then kmap (pair 1) (sd_rules d) else ∅.

Lemma sd_view_lookup d t h :
  sd_view d !! (t, h) = if sd_table d && (t =? 1) then sd_rules d !! h else None.
Proof.
  unfold sd_view. destruct (sd_table d); simpl; [|apply lookup_empty].
  destruct (Z.eqb_spec t 1) as [->|Ht].
  - apply (lookup_kmap (pair 1)).
  - apply (lookup_kmap_None (pair 1)). intros k [=]; congruence.
Qed.

Lemma sd_view_insert d n h r :
  sd_table d = true ->
  sd_view {| sd_table := true; sd_next := n; sd_room := sd_room d;
             sd_rules := <[h := r]> (sd_rules d) |} = <[(1, h) := r]> (sd_view d).
Proof. intros Ht. unfold sd_view. rewrite Ht. simpl. apply (kmap_insert (pair 1)). Qed.

Lemma sd_view_delete d n h :
  sd_table d = true ->
  sd_view {| sd_table := true; sd_next := n; sd_room := sd_room d;
             sd_rules := delete h (sd_rules d) |} = delete (1, h) (sd_view d).
Proof. intros Ht. unfold sd_view. rewrite Ht. simpl. apply (kmap_delete (pair 1)). Qed.

Lemma sd_add_tbl_law pub n h w :
  let '(ret, h', w') := sd_add_tbl pub n h w in
  sd_view w' = sd_view w /\ (ret = 0 -> forall k, sd_view w !! (h', k) = None).
Proof.
  unfold sd_add_tbl. destruct (sd_table w) eqn:Ht; [done|].
  unfold sd_view. rewrite Ht. simpl. split; [by rewrite kmap_empty|].
  intros _ k. apply lookup_empty.
Qed.

Lemma sd_del_tbl_law t w :
  let '(ret, w') := sd_del_tbl t w in
  (ret <> 0 /\ sd_view w' = sd_view w) \/
  (ret = 0 /\ sd_view w' = filter (fun kv => fst (fst kv) <> t) (sd_view w)).
Proof.
  unfold sd_del_tbl. destruct (sd_table w && (t =? 1)) eqn:E; [|by left].
  right. bool_to_prop. split; [done|]. symmetry. apply map_empty. intros [t' h].
  apply map_lookup_filter_None. right. intros r Hr. rewrite sd_view_lookup in Hr.
  destruct (sd_table w && (t' =? 1)) eqn:E; [|done]. bool_to_prop. simpl. lia.
Qed.

Lemma sd_add_rule_law t r h w :
  let '(ret, h', w') := sd_add_rule t r h w in
  (ret < 0 /\ sd_view w' = sd_view w) \/
  (0 <= ret /\ sd_view w !! (t, h') = None /\ sd_view w' = <[(t, h') := r]> (sd_view w)).
Proof.
  unfold sd_add_rule. destruct (sd_table w && (t =? 1)) eqn:E; simpl; [|by left].
  destruct (sd_room w <=? _); [by left|].
  destruct (sd_rules w !! sd_next w) eqn:Hn; [by left|]. right. bool_to_prop. subst t.
  split; [done|split]; [|by apply sd_view_insert].
  rewrite sd_view_lookup. by case_match.
Qed.

Lemma sd_del_rule_law t h w :
  let '(ret, w') := sd_del_rule t h w in
  (ret < 0 /\ sd_view w' = sd_view w) \/
  (0 <= ret /\ sd_view w' = delete (t, h) (sd_view w)).
Proof.
  unfold sd_del_rule. destruct (sd_table w && (t =? 1)) eqn:E; simpl; [|by left].
  destruct (sd_rules w !! h) eqn:Hn; [|by left]. right. bool_to_prop. subst t.
  split; [done|by apply sd_view_delete].
Qed.

#[export] Instance SimpleDrv_NatDrvLaws : NatDrvLaws SimpleDrv := {|
  drv_rules := sd_view;
  drv_add_tbl := sd_add_tbl_law;
  drv_del_tbl := sd_del_tbl_law;
  drv_add_rule := sd_add_rule_law;
  drv_del_rule := sd_del_rule_law;
  drv_query t h ts w := eq_refl
|}.

#[export] Instance SimpleDrv_NatDrvReliable : NatDrvReliable SimpleDrv.
Proof.
  constructor. intros t h r w Hr. simpl in *. rewrite sd_view_lookup in Hr.
  unfold sd_del_rule. destruct (sd_table w && (t =? 1)); [|done]. simpl. by rewrite Hr.
Qed.
