(* ===== verification/NatApp.v ===== *)
(** * The NAT cache ([IPACM_Conntrack_NATApp.cpp], [IPACM_Conntrack_NATApp.h])

    [NatApp] keeps the connections that go through the hardware NAT: [cache] has
    one slot per rule the driver's table can hold, [temp] parks connections whose
    client is not known yet, [PwrSaveIfs] lists the clients in power save, whose
    rules stay in the cache but not in the hardware.  Every operation takes the
    object and the world behind the driver and the conntrack library. *)
From S2P Require Import Prelude Defs Config NatDrv.
From stdpp Require Import base list gmap.
From Stdlib Require Import ZArith Lia.

Open Scope Z_scope.

(** [nat_table_entry]; [public_ip] is a [uint16_t] in the source. *)
Record nat_table_entry := {
  private_ip : Z;
  private_port : Z;
  target_ip : Z;
  target_port : Z;
  public_ip : Z;
  public_port : Z;
  protocol : Z;
  timestamp : Z;
  dst_nat : bool;
  enabled : bool;
  rule_hdl : Z
}.

#[export] Instance nat_table_entry_eta : Settable nat_table_entry :=
  fun r => Build_nat_table_entry (private_ip r) (private_port r) (target_ip r) (target_port r)
    (public_ip r) (public_port r) (protocol r) (timestamp r) (dst_nat r) (enabled r)
    (rule_hdl r).

(** [memset(&e, 0, sizeof(e))] *)
Definition entry_zero : nat_table_entry :=
  {| private_ip := 0; private_port := 0; target_ip := 0; target_port := 0; public_ip := 0;
     public_port := 0; protocol := 0; timestamp := 0; dst_nat := false; enabled := false;
     rule_hdl := 0 |}.

Definition MAX_TEMP_ENTRIES : nat := 25.
Definition INVALID_IP_ADDR : Z := 0.

(** [class NatApp]; [pALGPorts] is the array with its count, [ct] and [ct_hdl]
    say whether the conntrack object and handle exist. *)
Record NatApp := {
  cache : list nat_table_entry;
  temp : list nat_table_entry;
  pub_ip_addr : Z;
  pub_ip_addr_pre : Z;
  nat_table_hdl : Z;
  curCnt : Z;
  max_entries : Z;
  pALGPorts : list ipacm_alg;
  tcp_timeout : Z;
  udp_timeout : Z;
  PwrSaveIfs : list Z;
  ct : bool;
  ct_hdl : bool
}.

#[export] Instance NatApp_eta : Settable NatApp :=
  fun r => Build_NatApp (cache r) (temp r) (pub_ip_addr r) (pub_ip_addr_pre r) (nat_table_hdl r)
    (curCnt r) (max_entries r) (pALGPorts r) (tcp_timeout r) (udp_timeout r) (PwrSaveIfs r)
    (ct r) (ct_hdl r).

(** The attributes [UpdateCTUdpTs] sets before it queries the kernel. *)
Record ct_update := {
  cu_l4proto : Z;
  cu_timeout : Z;
  cu_ipv4_src : Z;
  cu_port_src : Z;
  cu_ipv4_dst : Z;
  cu_port_dst : Z
}.

(** The part of libnetfilter_conntrack the NAT cache calls. *)
Class NfctLib (W : Type) := {
  nfct_open : W -> bool * W;
  nfct_new : W -> bool * W;
  nfct_query_update : ct_update -> W -> Z * W
}.

(** [htonl] and [htons] on the little-endian target. *)
Definition htons (x : Z) : Z := Z.lor (Z.shiftl (Z.land x 255) 8) (Z.land (Z.shiftr x 8) 255).
Definition htonl (x : Z) : Z :=
  Z.lor (Z.lor (Z.shiftl (Z.land x 255) 24) (Z.shiftl (Z.land (Z.shiftr x 8) 255) 16))
        (Z.lor (Z.shiftl (Z.land (Z.shiftr x 16) 255) 8) (Z.land (Z.shiftr x 24) 255)).

(** ** Construction *)

(** [NatApp::NatApp()] over the raw memory [mem]: the power-save list, the
    timeouts and the previous public address keep what the memory held. *)
Definition NatApp_ctor (mem : NatApp) : NatApp :=
  {| cache := []; temp := replicate MAX_TEMP_ENTRIES entry_zero; pub_ip_addr := 0;
     pub_ip_addr_pre := pub_ip_addr_pre mem; nat_table_hdl := 0; curCnt := 0; max_entries := 0;
     pALGPorts := []; tcp_timeout := tcp_timeout mem; udp_timeout := udp_timeout mem;
     PwrSaveIfs := PwrSaveIfs mem; ct := false; ct_hdl := false |}.

(** [NatApp::Init]: [pConfig] is the configuration instance, [ok1] and [ok2] the
    outcome of the two allocations.  On failure the object is deleted by the
    caller, so only the result matters. *)
Definition NatApp_Init (pConfig : cptr IPACM_Config) (ok1 ok2 : bool) (st : NatApp) :
    option (Z * NatApp) :=
  match pConfig with
  | Null => Some (-1, st)
  | Dangling => None
  | Live cfg =>
      let n := GetNatMaxEntries cfg in
      if negb ok1 then Some (-1, st <| max_entries := n |>) else
      let st := st <| max_entries := n |> <| cache := replicate (Z.to_nat n) entry_zero |> in
      if negb ok2 then Some (-1, st) else
      '(ret, ports) ← GetAlgPorts (trunc 16 (GetAlgPortCnt cfg)) cfg;
      match ports with
      | Some l => if ret =? 0 then Some (0, st <| pALGPorts := l |>) else Some (-1, st)
      | None => Some (-1, st)
      end
  end.

(** [NatApp::GetInstance]: the pointer returned and the new [pInstance]. *)
Definition NatApp_GetInstance (mem : NatApp) (pConfig : cptr IPACM_Config) (ok1 ok2 : bool)
    (pInstance : cptr NatApp) : option (cptr NatApp * cptr NatApp) :=
  match pInstance with
  | Null =>
      '(ret, st) ← NatApp_Init pConfig ok1 ok2 (NatApp_ctor mem);
      if ret =? 0 then Some (Live st, Live st) else Some (Null, Dangling)
  | _ => Some (pInstance, pInstance)
  end.

Section operations.
  Context {W : Type} `{NatDrv W} `{NfctLib W}.

(** The driver rule of a cache entry. *)
Definition nat_rule_of (e : nat_table_entry) : ipa_nat_ipv4_rule :=
  {| r_target_ip := target_ip e; r_private_ip := private_ip e;
     r_target_port := target_port e; r_private_port := private_port e;
     r_public_port := public_port e; r_protocol := protocol e |}.

(** The five-field comparison that the loops over [cache] and [temp] share. *)
Definition same_conn (rule e : nat_table_entry) : bool :=
  (private_ip e =? private_ip rule) && (target_ip e =? target_ip rule) &&
  (private_port e =? private_port rule) && (target_port e =? target_port rule) &&
  (protocol e =? protocol rule).

(** The test for a free slot. *)
Definition slot_free (e : nat_table_entry) : bool :=
  (private_ip e =? 0) && (target_ip e =? 0) && (private_port e =? 0) &&
  (target_port e =? 0) && (protocol e =? 0).

(** The body shared by [AddTable] and [ResetPwrSaveIf]: put a cached entry back
    into the hardware, or drop it from the cache when the driver refuses. *)
Definition restore_slot (hdl : Z) (s : Z * W) (e : nat_table_entry) :
    (Z * W) * nat_table_entry :=
  let '(cnt, w) := s in
  let '(ret, h, w) := ipa_nat_add_ipv4_rule hdl (nat_rule_of e) (rule_hdl e) w in
  if ret <? 0 then ((cnt - 1, w), entry_zero)
  else ((cnt, w), e <| rule_hdl := h |> <| enabled := true |>).

(** [int NatApp::AddTable(uint32_t pub_ip)]; the driver takes the number of
    entries as a [uint16_t]. *)
Definition AddTable (pub_ip : Z) (st : NatApp) (w : W) : Z * NatApp * W :=
  let '(ret, h, w) := ipa_nat_add_ipv4_tbl pub_ip (trunc 16 (max_entries st)) (nat_table_hdl st) w in
  let st := st <| nat_table_hdl := h |> in
  if negb (ret =? 0) then (ret, st, w)
  else
    let '(cnt, w, cache') :=
      if pub_ip =? pub_ip_addr_pre st
      then loop_accum (fun s e => if negb (private_ip e =? 0)
                                  then restore_slot (nat_table_hdl st) s e else (s, e))
             (curCnt st, w) (cache st)
      else (curCnt st, w, cache st) in
    (0, st <| cache := cache' |> <| curCnt := cnt |> <| pub_ip_addr := pub_ip |>, w).

(** [void NatApp::Reset()]: the loop body is [cache[cnt].enabled ==false;], an
    expression that assigns nothing. *)
Definition Reset (st : NatApp) : NatApp :=
  st <| nat_table_hdl := 0 |> <| pub_ip_addr := 0 |>.

Definition DeleteTable (pub_ip : Z) (st : NatApp) (w : W) : Z * NatApp * W :=
  if nat_table_hdl st =? 0 then (-1, st, w)
  else if negb (pub_ip_addr st =? pub_ip) then (-1, st, w)
  else
    let '(ret, w) := ipa_nat_del_ipv4_tbl (nat_table_hdl st) w in
    if negb (ret =? 0) then (ret, st, w)
    else (0, Reset (st <| pub_ip_addr_pre := pub_ip_addr st |>), w).

Definition ChkForDup (rule : nat_table_entry) (st : NatApp) : bool :=
  existsb (same_conn rule) (cache st).

(** [int NatApp::DeleteEntry(const nat_table_entry *rule)]: a failing driver is
    only reported, the slot is cleared all the same. *)
Definition DeleteEntry (rule : nat_table_entry) (st : NatApp) (w : W) : Z * NatApp * W :=
  match find_index (same_conn rule) (cache st) with
  | None => (0, st, w)
  | Some cnt =>
      let e := nth cnt (cache st) entry_zero in
      let w := if enabled e
               then snd (ipa_nat_del_ipv4_rule (nat_table_hdl st) (rule_hdl e) w) else w in
      (0, st <| cache := <[cnt := entry_zero]> (cache st) |> <| curCnt := curCnt st - 1 |>, w)
  end.

Definition isAlgPort (proto port : Z) (st : NatApp) : bool :=
  existsb (fun a => (proto =? alg_protocol a) && (port =? alg_port a)) (pALGPorts st).

Definition isPwrSaveIf (ip_addr : Z) (st : NatApp) : bool :=
  existsb (fun p => negb (p =? 0) && (ip_addr =? p)) (PwrSaveIfs st).

(** The assignments [AddEntry] and [CacheEntry] make to a slot. *)
Definition fill_slot (rule e : nat_table_entry) : nat_table_entry :=
  {| private_ip := private_ip rule; private_port := private_port rule;
     target_ip := target_ip rule; target_port := target_port rule;
     public_ip := public_ip e; public_port := public_port rule;
     protocol := protocol rule; timestamp := 0; dst_nat := dst_nat rule;
     enabled := enabled e; rule_hdl := rule_hdl e |}.

Definition invalid_conn (rule : nat_table_entry) : bool :=
  (private_ip rule =? 0) || (target_ip rule =? 0) || (private_port rule =? 0) ||
  (target_port rule =? 0) || (protocol rule =? 0).

(** [int NatApp::AddEntry(const nat_table_entry *rule)].  When the driver fails,
    the slot keeps whatever the driver left in its handle. *)
Definition AddEntry (rule : nat_table_entry) (st : NatApp) (w : W) : Z * NatApp * W :=
  if nat_table_hdl st =? 0 then (-1, st, w)
  else if isAlgPort (protocol rule) (private_port rule) st ||
          isAlgPort (protocol rule) (target_port rule) st then (-1, st, w)
  else if invalid_conn rule then (0, st, w)
  else if ChkForDup rule st then (-1, st, w)
  else
    match find_index slot_free (cache st) with
    | None => (-1, st, w)
    | Some cnt =>
        let e := nth cnt (cache st) entry_zero in
        if isPwrSaveIf (private_ip rule) st || isPwrSaveIf (target_ip rule) st then
          let e := e <| enabled := false |> <| rule_hdl := 0 |> in
          (0, st <| cache := <[cnt := fill_slot rule e]> (cache st) |>
                 <| curCnt := curCnt st + 1 |>, w)
        else
          let '(ret, h, w) :=
            ipa_nat_add_ipv4_rule (nat_table_hdl st) (nat_rule_of rule) (rule_hdl e) w in
          let e := e <| rule_hdl := h |> in
          if ret <? 0 then (-1, st <| cache := <[cnt := e]> (cache st) |>, w)
          else
            (0, st <| cache := <[cnt := fill_slot rule (e <| enabled := true |>)]> (cache st) |>
                   <| curCnt := curCnt st + 1 |>, w)
    end.

(** The conntrack update for an entry: timeout by protocol, addresses by the
    direction of the translation, in network order. *)
Definition ct_update_of (rule : nat_table_entry) (st : NatApp) : ct_update :=
  let timeout := if protocol rule =? IPPROTO_UDP then udp_timeout st else tcp_timeout st in
  if negb (dst_nat rule) then
    {| cu_l4proto := protocol rule; cu_timeout := timeout;
       cu_ipv4_src := htonl (private_ip rule); cu_port_src := htons (private_port rule);
       cu_ipv4_dst := htonl (target_ip rule); cu_port_dst := htons (target_port rule) |}
  else
    {| cu_l4proto := protocol rule; cu_timeout := timeout;
       cu_ipv4_src := htonl (target_ip rule); cu_port_src := htons (target_port rule);
       cu_ipv4_dst := htonl (pub_ip_addr st); cu_port_dst := htons (public_port rule) |}.

(** [void NatApp::UpdateCTUdpTs(nat_table_entry *rule, uint32_t new_ts)]: the
    object (whose library handles may be opened), the entry and the world. *)
Definition UpdateCTUdpTs (rule : nat_table_entry) (new_ts : Z) (st : NatApp) (w : W) :
    nat_table_entry * NatApp * W :=
  let '(opened, w) := if ct_hdl st then (true, w) else nfct_open w in
  let st := st <| ct_hdl := opened |> in
  if negb opened then (rule, st, w)
  else
    let '(made, w) := if ct st then (true, w) else nfct_new w in
    let st := st <| ct := made |> in
    if negb made then (rule, st, w)
    else
      let '(ret, w) := nfct_query_update (ct_update_of rule st) w in
      if ret =? -1 then (rule, st, w) else (rule <| timestamp := new_ts |>, st, w).

(** [void NatApp::UpdateUDPTimeStamp()]; the loop body works on slot [e]. *)
Definition update_ts_slot (s : NatApp * W) (e : nat_table_entry) :
    (NatApp * W) * nat_table_entry :=
  let '(st, w) := s in
  if enabled e then
    let '(ret, ts, w) := ipa_nat_query_timestamp (nat_table_hdl st) (rule_hdl e) 0 w in
    if ret <? 0 then ((st, w), e)
    else if timestamp e =? ts then ((st, w), e)
    else let '(e, st, w) := UpdateCTUdpTs e ts st w in ((st, w), e)
  else ((st, w), e).

Definition UpdateUDPTimeStamp (st : NatApp) (w : W) : NatApp * W :=
  let '((st, w), cache') := loop_accum update_ts_slot (st, w) (cache st) in
  (st <| cache := cache' |>, w).

(** ** Power save *)

(** Take the client's rules out of the hardware; they stay in the cache. *)
Definition pwr_save_slot (client_lan_ip hdl : Z) (w : W) (e : nat_table_entry) :
    W * nat_table_entry :=
  if (private_ip e =? client_lan_ip) && enabled e then
    let '(ret, w) := ipa_nat_del_ipv4_rule hdl (rule_hdl e) w in
    if ret <? 0 then (w, e) else (w, e <| enabled := false |> <| rule_hdl := 0 |>)
  else (w, e).

Definition UpdatePwrSaveIf (client_lan_ip : Z) (st : NatApp) (w : W) : Z * NatApp * W :=
  if client_lan_ip =? INVALID_IP_ADDR then (-1, st, w)
  else if existsb (fun p => p =? client_lan_ip) (PwrSaveIfs st) then (0, st, w)
  else
    let st := st <| PwrSaveIfs :=
      update_first (fun p => p =? 0) (fun _ => client_lan_ip) (PwrSaveIfs st) |> in
    let '(w, cache') :=
      loop_accum (pwr_save_slot client_lan_ip (nat_table_hdl st)) w (cache st) in
    (0, st <| cache := cache' |>, w).

(** The slots of a client that is back are put into the hardware again.  The
    function ends in [return -1] whatever happened. *)
Definition ResetPwrSaveIf (client_lan_ip : Z) (st : NatApp) (w : W) : Z * NatApp * W :=
  if client_lan_ip =? INVALID_IP_ADDR then (-1, st, w)
  else
    let st := st <| PwrSaveIfs :=
      update_first (fun p => p =? client_lan_ip) (fun _ => 0) (PwrSaveIfs st) |> in
    let '((cnt, w), cache') :=
      loop_accum (fun s e => if (private_ip e =? client_lan_ip) && negb (enabled e)
                             then restore_slot (nat_table_hdl st) s e else (s, e))
        (curCnt st, w) (cache st) in
    (-1, st <| cache := cache' |> <| curCnt := cnt |>, w).

Definition UpdateTcpUdpTo (new_value proto : Z) (st : NatApp) : NatApp :=
  if proto =? IPPROTO_TCP then st <| tcp_timeout := new_value |>
  else if proto =? IPPROTO_UDP then st <| udp_timeout := new_value |>
  else st.

(** [return -1] from a [uint32_t] function. *)
Definition GetTableHdl (in_ip_addr : Z) (st : NatApp) : Z :=
  if in_ip_addr =? pub_ip_addr st then nat_table_hdl st else trunc 32 (-1).

(** ** Temporary entries *)

Definition AddTempEntry (new_entry : nat_table_entry) (st : NatApp) : NatApp :=
  st <| temp := update_first (fun e => (private_ip e =? 0) && (target_ip e =? 0))
                  (fun _ => new_entry) (temp st) |>.

Definition DeleteTempEntry (entry : nat_table_entry) (st : NatApp) : NatApp :=
  st <| temp := update_first (same_conn entry) (fun _ => entry_zero) (temp st) |>.

(** The body of [FlushTempEntries]' loop on slot [e] of [temp]; [AddEntry]
    works on [cache] only. *)
Definition flush_slot (ip_addr : Z) (isAdd : bool) (s : NatApp * W) (e : nat_table_entry) :
    (NatApp * W) * nat_table_entry :=
  let '(st, w) := s in
  if (private_ip e =? ip_addr) || (target_ip e =? ip_addr) then
    if isAdd && (public_ip e =? pub_ip_addr st) then
      let '(ret, st, w) := AddEntry e st w in
      if negb (ret =? 0) then ((st, w), e) else ((st, w), entry_zero)
    else ((st, w), entry_zero)
  else ((st, w), e).

Definition FlushTempEntries (ip_addr : Z) (isAdd : bool) (st : NatApp) (w : W) : NatApp * W :=
  let '((st, w), temp') := loop_accum (flush_slot ip_addr isAdd) (st, w) (temp st) in
  (st <| temp := temp' |>, w).

(** ** Disconnected clients *)

(** A local client: its rules leave the hardware, its entries stay cached. *)
Definition discon_slot (ip_addr hdl : Z) (w : W) (e : nat_table_entry) : W * nat_table_entry :=
  if private_ip e =? ip_addr then
    if enabled e then
      let '(ret, w) := ipa_nat_del_ipv4_rule hdl (rule_hdl e) w in
      if ret <? 0 then (w, e) else (w, e <| enabled := false |>)
    else (w, e)
  else (w, e).

Definition DelEntriesOnClntDiscon (ip_addr : Z) (st : NatApp) (w : W) : Z * NatApp * W :=
  if ip_addr =? INVALID_IP_ADDR then (-1, st, w)
  else
    let st := st <| PwrSaveIfs :=
      update_first (fun p => p =? ip_addr) (fun _ => 0) (PwrSaveIfs st) |> in
    let '(w, cache') := loop_accum (discon_slot ip_addr (nat_table_hdl st)) w (cache st) in
    (0, st <| cache := cache' |>, w).

(** A client on the STA side: its entries are removed. *)
Definition sta_discon_slot (ip_addr hdl : Z) (s : Z * W) (e : nat_table_entry) :
    (Z * W) * nat_table_entry :=
  let '(cnt, w) := s in
  if target_ip e =? ip_addr then
    if enabled e then
      let '(ret, w) := ipa_nat_del_ipv4_rule hdl (rule_hdl e) w in
      if ret <? 0 then ((cnt, w), e) else ((cnt - 1, w), entry_zero)
    else ((cnt - 1, w), entry_zero)
  else ((cnt, w), e).

Definition DelEntriesOnSTAClntDiscon (ip_addr : Z) (st : NatApp) (w : W) : Z * NatApp * W :=
  if ip_addr =? INVALID_IP_ADDR then (-1, st, w)
  else
    let '((cnt, w), cache') :=
      loop_accum (sta_discon_slot ip_addr (nat_table_hdl st)) (curCnt st, w) (cache st) in
    (0, st <| cache := cache' |> <| curCnt := cnt |>, w).

(** [void NatApp::CacheEntry(const nat_table_entry *rule)]: the loop counter is
    declared without a value, so it starts from whatever [cnt0] the stack holds;
    [None] is the access outside [cache] that follows from a bad one. *)
Definition CacheEntry (cnt0 : Z) (rule : nat_table_entry) (st : NatApp) : option NatApp :=
  if invalid_conn rule then Some st
  else if ChkForDup rule st then Some st
  else if cnt0 <? 0 then None
  else
    let n := Z.to_nat cnt0 in
    let found :=
      if cnt0 <? max_entries st
      then match find_index slot_free (drop n (cache st)) with
           | Some k => cnt0 + Z.of_nat k
           | None => max_entries st
           end
      else cnt0 in
    if max_entries st =? found then Some st
    else if max_entries st <? found then None
    else
      let cnt := Z.to_nat found in
      let e := nth cnt (cache st) entry_zero <| enabled := false |> <| rule_hdl := 0 |> in
      Some (st <| cache := <[cnt := fill_slot rule e]> (cache st) |> <| curCnt := curCnt st + 1 |>).
End operations.

(** ** Connections and slots *)

(** The five fields that identify a connection. *)
Definition conn_key (e : nat_table_entry) : Z * Z * Z * Z * Z :=
  (private_ip e, target_ip e, private_port e, target_port e, protocol e).

(** The occupied slots with their keys, in slot order. *)
Definition occ_pair (e : nat_table_entry) : option ((Z * Z * Z * Z * Z) * nat_table_entry) :=
  if slot_free e then None else Some (conn_key e, e).
Definition occ_pairs (l : list nat_table_entry) := omap occ_pair l.
Definition occ_keys (l : list nat_table_entry) := fst <$> occ_pairs l.

(** What the cache stands for: a finite map from connections to entries. *)
Definition cache_map (l : list nat_table_entry) : gmap (Z * Z * Z * Z * Z) nat_table_entry :=
  list_to_map (occ_pairs l).

(** A free slot is not enabled, an occupied one holds a valid connection. *)
Definition entry_ok (e : nat_table_entry) : Prop :=
  if slot_free e then enabled e = false else invalid_conn e = false.

Record cache_wf (l : list nat_table_entry) (cnt : Z) : Prop := {
  cw_ok : Forall entry_ok l;
  cw_nodup : NoDup (occ_keys l);
  cw_cnt : cnt = Z.of_nat (length (occ_keys l))
}.

Record natapp_wf (st : NatApp) : Prop := {
  nw_cache : cache_wf (cache st) (curCnt st);
  nw_len : Z.of_nat (length (cache st)) = max_entries st;
  nw_temp : length (temp st) = MAX_TEMP_ENTRIES;
  nw_pwr : length (PwrSaveIfs st) = IPA_MAX_NUM_WIFI_CLIENTS
}.

Lemma same_conn_key rule e : same_conn rule e = true <-> conn_key e = conn_key rule.
Proof.
  unfold same_conn, conn_key. split; [intros; bool_to_prop; congruence|].
  intros [=]. by rewrite !andb_true_iff, !Z.eqb_eq.
Qed.

Lemma slot_free_key e : slot_free e = true <-> conn_key e = (0, 0, 0, 0, 0).
Proof.
  unfold slot_free, conn_key. split; [intros; bool_to_prop; congruence|].
  intros [=]. by rewrite !andb_true_iff, !Z.eqb_eq.
Qed.

Lemma slot_free_ext e e' : conn_key e' = conn_key e -> slot_free e' = slot_free e.
Proof. intros He. apply Bool.eq_iff_eq_true. by rewrite !slot_free_key, He. Qed.

Lemma invalid_conn_ext e e' : conn_key e' = conn_key e -> invalid_conn e' = invalid_conn e.
Proof. unfold invalid_conn. by intros [= -> -> -> -> ->]. Qed.

Lemma valid_not_free e : invalid_conn e = false -> slot_free e = false.
Proof. unfold invalid_conn, slot_free. intros. bool_to_prop. by destruct (Z.eqb_spec (private_ip e) 0). Qed.

Lemma conn_key_fill rule e : conn_key (fill_slot rule e) = conn_key rule.
Proof. done. Qed.

Lemma nat_rule_of_fill rule e : nat_rule_of (fill_slot rule e) = nat_rule_of rule.
Proof. done. Qed.

Lemma nat_rule_of_key e e' : nat_rule_of e = nat_rule_of e' -> conn_key e = conn_key e'.
Proof. unfold nat_rule_of, conn_key. congruence. Qed.

Lemma occ_keys_app l1 l2 : occ_keys (l1 ++ l2) = occ_keys l1 ++ occ_keys l2.
Proof. unfold occ_keys, occ_pairs. by rewrite omap_app, fmap_app. Qed.

Lemma occ_keys_cons e l :
  occ_keys (e :: l) = (if slot_free e then [] else [conn_key e]) ++ occ_keys l.
Proof. unfold occ_keys, occ_pairs, occ_pair. simpl. by destruct (slot_free e). Qed.

Lemma elem_of_occ_keys k l :
  k ∈ occ_keys l <-> exists e, e ∈ l /\ slot_free e = false /\ conn_key e = k.
Proof.
  unfold occ_keys, occ_pairs. rewrite list_elem_of_fmap. split.
  - intros ([k' e] & -> & (e' & He & Hp)%list_elem_of_omap).
    unfold occ_pair in Hp. destruct (slot_free e') eqn:?; simplify_eq. eauto.
  - intros (e & He & Hf & <-). exists (conn_key e, e). split; [done|].
    apply list_elem_of_omap. exists e. split; [done|]. unfold occ_pair. by rewrite Hf.
Qed.

(** Three ways in which the code changes one slot. *)
Lemma cache_wf_replace pre x x' post c :
  conn_key x' = conn_key x -> (slot_free x = true -> enabled x' = false) ->
  cache_wf (pre ++ x :: post) c -> cache_wf (pre ++ x' :: post) c.
Proof.
  intros Hk He [Hok Hnd Hc].
  assert (occ_keys (pre ++ x' :: post) = occ_keys (pre ++ x :: post)) as Hocc
    by by rewrite !occ_keys_app, !occ_keys_cons, Hk, (slot_free_ext _ _ Hk).
  constructor; [|by rewrite Hocc..].
  apply Forall_app in Hok as [H1 H2]. apply Forall_cons in H2 as [H2 H3].
  apply Forall_app. split; [done|]. constructor; [|done]. unfold entry_ok in *.
  rewrite (slot_free_ext _ _ Hk), (invalid_conn_ext _ _ Hk). destruct (slot_free x); auto.
Qed.

Lemma cache_wf_clear pre x post c :
  slot_free x = false -> cache_wf (pre ++ x :: post) c ->
  cache_wf (pre ++ entry_zero :: post) (c - 1).
Proof.
  intros Hf [Hok Hnd Hc]. rewrite occ_keys_app, occ_keys_cons, Hf in Hnd, Hc.
  constructor; rewrite ?occ_keys_app, ?occ_keys_cons; simpl.
  - apply Forall_app in Hok as [H1 H2]. apply Forall_cons in H2 as [H2 H3].
    apply Forall_app. by repeat constructor.
  - by apply NoDup_app in Hnd as (H1 & H2 & (_ & H3)%NoDup_cons);
      apply NoDup_app; set_solver.
  - rewrite !length_app in *. simpl in Hc. lia.
Qed.

Lemma cache_wf_fill pre x x' post c :
  slot_free x = true -> invalid_conn x' = false ->
  (conn_key x' ∉ occ_keys (pre ++ x :: post)) ->
  cache_wf (pre ++ x :: post) c -> cache_wf (pre ++ x' :: post) (c + 1).
Proof.
  intros Hf Hv Hn [Hok Hnd Hc]. pose proof (valid_not_free _ Hv) as Hf'.
  rewrite occ_keys_app, occ_keys_cons, Hf in Hn, Hnd, Hc. simpl in *.
  constructor; rewrite ?occ_keys_app, ?occ_keys_cons, ?Hf'; simpl.
  - apply Forall_app in Hok as [H1 H2]. apply Forall_cons in H2 as [H2 H3].
    apply Forall_app. split; [done|]. constructor; [|done]. unfold entry_ok. by rewrite Hf'.
  - rewrite NoDup_app, NoDup_cons. apply NoDup_app in Hnd. set_solver.
  - rewrite !length_app in *. simpl. lia.
Qed.

(** Keys are unique, so two occupied entries with one key are the same slot. *)
Lemma cache_wf_other_key pre x post c e :
  cache_wf (pre ++ x :: post) c -> slot_free x = false -> e ∈ pre ++ post ->
  conn_key e <> conn_key x.
Proof.
  intros [Hok Hnd _] Hf He Hk. rewrite occ_keys_app, occ_keys_cons, Hf in Hnd.
  assert (conn_key x ∈ occ_keys (pre ++ post)) as Hin.
  { apply elem_of_occ_keys. exists e. split_and!; auto. by rewrite (slot_free_ext _ _ Hk). }
  rewrite occ_keys_app in Hin. apply NoDup_app in Hnd as (_ & H1 & H2).
  apply NoDup_cons in H2 as [H2 _]. set_solver.
Qed.

Lemma elem_of_middle (e x : nat_table_entry) (pre post : list nat_table_entry) :
  e ∈ pre ++ x :: post <-> e = x \/ e ∈ pre ++ post.
Proof. set_solver. Qed.

(** ** The cache and the hardware

    [drv_sync]: the rule of every enabled entry is in the hardware, under the
    handle the entry holds.  [drv_exact]: the table holds no other rule. *)
Section mirror.
Context {W : Type} `{NatDrvLaws W} `{NfctLib W}.
Implicit Types (w : W) (l pre post : list nat_table_entry) (e x : nat_table_entry).

Definition drv_sync (hdl : Z) w l : Prop :=
  forall e, e ∈ l -> enabled e = true -> drv_rules w !! (hdl, rule_hdl e) = Some (nat_rule_of e).

Definition drv_exact (hdl : Z) w l : Prop :=
  forall h r, drv_rules w !! (hdl, h) = Some r ->
    exists e, e ∈ l /\ enabled e = true /\ rule_hdl e = h /\ nat_rule_of e = r.

(** With [strict] the driver deletes what it holds when asked to, and then the
    cache and the table agree in both directions. *)
Context (strict : bool).
Hypothesis strict_ok : strict = true -> forall t h r w,
  drv_rules w !! (t, h) = Some r -> 0 <= fst (ipa_nat_del_ipv4_rule t h w).

Record cache_inv (hdl : Z) w l (c : Z) : Prop := {
  ci_wf : cache_wf l c;
  ci_sync : drv_sync hdl w l;
  ci_exact : strict = true -> drv_exact hdl w l
}.

Lemma enabled_not_free l c e :
  cache_wf l c -> e ∈ l -> enabled e = true -> slot_free e = false.
Proof.
  intros [Hok _ _] He Hen. eapply Forall_forall in Hok; [|done]. unfold entry_ok in Hok.
  destruct (slot_free e); [congruence|done].
Qed.

(** A change of the world that touches no rule, and a slot change that keeps
    the rule, its handle and its state. *)
Lemma cache_inv_keep hdl w w' pre x x' post c :
  drv_rules w' = drv_rules w -> conn_key x' = conn_key x ->
  nat_rule_of x' = nat_rule_of x -> enabled x' = enabled x ->
  (enabled x = true -> rule_hdl x' = rule_hdl x) ->
  cache_inv hdl w (pre ++ x :: post) c -> cache_inv hdl w' (pre ++ x' :: post) c.
Proof.
  intros Hw Hk Hr He Hh [Hwf Hs Hx].
  assert (x ∈ pre ++ x :: post) as Hin by (apply elem_of_middle; auto).
  constructor.
  - eapply cache_wf_replace; eauto. intros Hf.
    destruct (enabled x) eqn:E; [|congruence]. by rewrite (enabled_not_free _ _ _ Hwf Hin E) in Hf.
  - intros e [->|He']%elem_of_middle Hen; rewrite Hw.
    + rewrite He in Hen. rewrite Hh, Hr by done. by apply Hs.
    + apply Hs; [apply elem_of_middle; auto|done].
  - intros Hst h r Hl. rewrite Hw in Hl.
    destruct (Hx Hst h r Hl) as (e & [->|He']%elem_of_middle & Hen & Hh' & Hr').
    + exists x'. rewrite elem_of_middle. split_and!; [auto|congruence| |congruence].
      rewrite Hh; congruence.
    + exists e. rewrite elem_of_middle. auto.
Qed.

(** A disabled slot goes (or stays) out of the hardware and is cleared. *)
Lemma cache_inv_clear_disabled hdl w pre x post c :
  slot_free x = false -> enabled x = false ->
  cache_inv hdl w (pre ++ x :: post) c -> cache_inv hdl w (pre ++ entry_zero :: post) (c - 1).
Proof.
  intros Hf He [Hwf Hs Hx]. constructor; [by eapply cache_wf_clear| |].
  - intros e [->|He']%elem_of_middle Hen; [done|]. apply Hs; [apply elem_of_middle; auto|done].
  - intros Hst h r Hl. destruct (Hx Hst h r Hl) as (e & [->|He']%elem_of_middle & Hen & ?);
      [congruence|]. exists e. rewrite elem_of_middle. auto.
Qed.

Lemma sync_unique hdl w pre x post c e :
  cache_inv hdl w (pre ++ x :: post) c -> enabled x = true -> e ∈ pre ++ post ->
  enabled e = true -> rule_hdl e <> rule_hdl x.
Proof.
  intros [Hwf Hs _] Hx He Hen Heq.
  assert (slot_free x = false) as Hf
    by (eapply enabled_not_free; [done|by apply elem_of_middle; left|done]).
  apply (cache_wf_other_key _ _ _ _ e Hwf Hf He). apply nat_rule_of_key.
  pose proof (Hs e ltac:(apply elem_of_middle; auto) Hen) as Hse.
  pose proof (Hs x ltac:(apply elem_of_middle; auto) Hx) as Hsx. congruence.
Qed.

(** The driver deletes the rule of an enabled slot, which is then disabled. *)
Lemma cache_inv_disable hdl w w' pre x x' post c :
  drv_rules w' = delete (hdl, rule_hdl x) (drv_rules w) ->
  conn_key x' = conn_key x -> enabled x = true -> enabled x' = false ->
  cache_inv hdl w (pre ++ x :: post) c -> cache_inv hdl w' (pre ++ x' :: post) c.
Proof.
  intros Hw Hk He He' Hinv. pose proof Hinv as [Hwf Hs Hx]. constructor.
  - by eapply cache_wf_replace.
  - intros e [->|Hin]%elem_of_middle Hen; [congruence|]. rewrite Hw, lookup_delete_ne.
    + apply Hs; [apply elem_of_middle; auto|done].
    + intros [=]. by eapply sync_unique.
  - intros Hst h r Hl. rewrite Hw in Hl. apply lookup_delete_Some in Hl as [Hne Hl].
    destruct (Hx Hst h r Hl) as (e & [->|Hin]%elem_of_middle & Hen & Hh & Hr); [congruence|].
    exists e. rewrite elem_of_middle. auto.
Qed.

(** The driver adds the rule of a disabled slot, which is then enabled. *)
Lemma cache_inv_enable hdl w w' pre x x' post c c0 :
  drv_rules w !! (hdl, rule_hdl x') = None ->
  drv_rules w' = <[(hdl, rule_hdl x') := nat_rule_of x']> (drv_rules w) ->
  enabled x = false -> enabled x' = true -> cache_wf (pre ++ x' :: post) c ->
  cache_inv hdl w (pre ++ x :: post) c0 -> cache_inv hdl w' (pre ++ x' :: post) c.
Proof.
  intros Hn Hw He He' Hwf' [Hwf Hs Hx]. constructor; [done| |].
  - intros e [->|Hin]%elem_of_middle Hen; rewrite Hw; [apply lookup_insert_eq|].
    pose proof (Hs e ltac:(apply elem_of_middle; auto) Hen) as Hl.
    rewrite lookup_insert_ne; [done|]. intros [=]. congruence.
  - intros Hst h r Hl. rewrite Hw in Hl.
    apply lookup_insert_Some in Hl as [[Heq <-]|[Hne Hl]].
    + injection Heq as <-. exists x'. rewrite elem_of_middle. auto.
    + destruct (Hx Hst h r Hl) as (e & [->|Hin]%elem_of_middle & Hen & ?); [congruence|].
      exists e. rewrite elem_of_middle. auto.
Qed.

(** A slot whose rule could not be deleted is cleared: the rule leaks. *)
Lemma cache_inv_leak hdl w w' pre x post c :
  strict = false -> drv_rules w' = drv_rules w -> slot_free x = false ->
  cache_inv hdl w (pre ++ x :: post) c -> cache_inv hdl w' (pre ++ entry_zero :: post) (c - 1).
Proof.
  intros Hst Hw Hf [Hwf Hs _]. constructor; [by eapply cache_wf_clear| |congruence].
  intros e [->|Hin]%elem_of_middle Hen; [done|]. rewrite Hw.
  apply Hs; [apply elem_of_middle; auto|done].
Qed.

Lemma del_rule_cases hdl w l c x :
  cache_inv hdl w l c -> x ∈ l -> enabled x = true ->
  let '(ret, w') := ipa_nat_del_ipv4_rule hdl (rule_hdl x) w in
  (ret < 0 /\ drv_rules w' = drv_rules w /\ strict = false) \/
  (0 <= ret /\ drv_rules w' = delete (hdl, rule_hdl x) (drv_rules w)).
Proof.
  intros [_ Hs _] Hx He. pose proof (drv_del_rule hdl (rule_hdl x) w) as Hd1.
  pose proof (fun Hst => strict_ok Hst _ _ _ _ (Hs x Hx He)) as Hd2.
  destruct (ipa_nat_del_ipv4_rule _ _ _) as [ret w']. simpl in Hd2.
  destruct Hd1 as [[? ?]|[? ?]]; [left|by right]. split_and!; auto.
  destruct strict; [specialize (Hd2 eq_refl); lia|done].
Qed.

(** [restore_slot] on a disabled, occupied slot. *)
Lemma restore_slot_inv hdl c w pre x post :
  slot_free x = false -> enabled x = false -> cache_inv hdl w (pre ++ x :: post) c ->
  let '((c', w'), x') := restore_slot hdl (c, w) x in
  cache_inv hdl w' (pre ++ x' :: post) c'.
Proof.
  intros Hf He Hinv. unfold restore_slot.
  pose proof (drv_add_rule hdl (nat_rule_of x) (rule_hdl x) w) as Ha.
  destruct (ipa_nat_add_ipv4_rule _ _ _ _) as [[ret h] w']. destruct Ha as [[Hr Hw]|(Hr & Hn & Hw)].
  - rewrite (proj2 (Z.ltb_lt _ _)) by done. apply (cache_inv_clear_disabled _ _ _ x); auto.
    by eapply (cache_inv_keep hdl w).
  - rewrite (proj2 (Z.ltb_ge _ _)) by done. eapply cache_inv_enable; eauto; simpl; auto.
    eapply (cache_wf_replace _ x); [done|congruence|]. apply Hinv.
Qed.

Lemma pwr_save_slot_inv ip hdl c w pre x post :
  cache_inv hdl w (pre ++ x :: post) c ->
  let '(w', x') := pwr_save_slot ip hdl w x in cache_inv hdl w' (pre ++ x' :: post) c.
Proof.
  intros Hinv. unfold pwr_save_slot. destruct (_ && enabled x) eqn:E; [|done]. bool_to_prop.
  pose proof (del_rule_cases hdl w _ c x Hinv ltac:(apply elem_of_middle; auto) ltac:(done)) as Hd.
  destruct (ipa_nat_del_ipv4_rule _ _ _) as [ret w']. destruct Hd as [(Hr & Hw & _)|(Hr & Hw)].
  - rewrite (proj2 (Z.ltb_lt _ _)) by done. by eapply (cache_inv_keep hdl w).
  - rewrite (proj2 (Z.ltb_ge _ _)) by done. by eapply cache_inv_disable.
Qed.

Lemma discon_slot_inv ip hdl c w pre x post :
  cache_inv hdl w (pre ++ x :: post) c ->
  let '(w', x') := discon_slot ip hdl w x in cache_inv hdl w' (pre ++ x' :: post) c.
Proof.
  intros Hinv. unfold discon_slot. destruct (_ =? ip); [|done].
  destruct (enabled x) eqn:E; [|done].
  pose proof (del_rule_cases hdl w _ c x Hinv ltac:(apply elem_of_middle; auto) E) as Hd.
  destruct (ipa_nat_del_ipv4_rule _ _ _) as [ret w']. destruct Hd as [(Hr & Hw & _)|(Hr & Hw)].
  - rewrite (proj2 (Z.ltb_lt _ _)) by done. by eapply (cache_inv_keep hdl w).
  - rewrite (proj2 (Z.ltb_ge _ _)) by done. by eapply cache_inv_disable.
Qed.

Lemma clear_enabled_inv hdl w w' pre x post c :
  drv_rules w' = delete (hdl, rule_hdl x) (drv_rules w) -> enabled x = true ->
  cache_inv hdl w (pre ++ x :: post) c -> cache_inv hdl w' (pre ++ entry_zero :: post) (c - 1).
Proof.
  intros Hw He Hinv. assert (slot_free x = false) as Hf
    by (eapply enabled_not_free; [apply Hinv|by apply elem_of_middle; left|done]).
  apply (cache_inv_clear_disabled _ _ _ (x <| enabled := false |>)); auto.
  by eapply (cache_inv_disable hdl w).
Qed.

Lemma sta_discon_slot_inv ip hdl c w pre x post :
  ip <> 0 -> cache_inv hdl w (pre ++ x :: post) c ->
  let '((c', w'), x') := sta_discon_slot ip hdl (c, w) x in
  cache_inv hdl w' (pre ++ x' :: post) c'.
Proof.
  intros Hip Hinv. unfold sta_discon_slot. destruct (_ =? ip) eqn:Eip; [|done]. bool_to_prop.
  assert (slot_free x = false) as Hf.
  { destruct (slot_free x) eqn:Hf; [|done]. apply slot_free_key in Hf.
    unfold conn_key in Hf. congruence. }
  destruct (enabled x) eqn:E; [|by eapply cache_inv_clear_disabled].
  pose proof (del_rule_cases hdl w _ c x Hinv ltac:(apply elem_of_middle; auto) E) as Hd.
  destruct (ipa_nat_del_ipv4_rule _ _ _) as [ret w']. destruct Hd as [(Hr & Hw & _)|(Hr & Hw)].
  - rewrite (proj2 (Z.ltb_lt _ _)) by done. by eapply (cache_inv_keep hdl w).
  - rewrite (proj2 (Z.ltb_ge _ _)) by done. by eapply clear_enabled_inv.
Qed.
End mirror.

(** ** Sequences of operations *)

Inductive natapp_op :=
  | OpAddTable (pub_ip : Z)
  | OpDeleteTable (pub_ip : Z)
  | OpAddEntry (rule : nat_table_entry)
  | OpDeleteEntry (rule : nat_table_entry)
  | OpCacheEntry (cnt0 : Z) (rule : nat_table_entry)
  | OpAddTempEntry (rule : nat_table_entry)
  | OpDeleteTempEntry (rule : nat_table_entry)
  | OpFlushTempEntries (ip_addr : Z) (isAdd : bool)
  | OpUpdateUDPTimeStamp
  | OpUpdateTcpUdpTo (new_value proto : Z)
  | OpUpdatePwrSaveIf (ip : Z)
  | OpResetPwrSaveIf (ip : Z)
  | OpDelEntriesOnClntDiscon (ip : Z)
  | OpDelEntriesOnSTAClntDiscon (ip : Z).

Section sequences.
Context {W : Type} `{NatDrvLaws W} `{NfctLib W}.
Implicit Types (w : W) (st : NatApp).

Definition drop_result (r : Z * NatApp * W) : option (NatApp * W) :=
  let '(_, st, w) := r in Some (st, w).

Definition run_op (op : natapp_op) st w : option (NatApp * W) :=
  match op with
  | OpAddTable ip => drop_result (AddTable ip st w)
  | OpDeleteTable ip => drop_result (DeleteTable ip st w)
  | OpAddEntry r => drop_result (AddEntry r st w)
  | OpDeleteEntry r => drop_result (DeleteEntry r st w)
  | OpCacheEntry cnt0 r => st ← CacheEntry cnt0 r st; Some (st, w)
  | OpAddTempEntry r => Some (AddTempEntry r st, w)
  | OpDeleteTempEntry r => Some (DeleteTempEntry r st, w)
  | OpFlushTempEntries ip b => Some (FlushTempEntries ip b st w)
  | OpUpdateUDPTimeStamp => Some (UpdateUDPTimeStamp st w)
  | OpUpdateTcpUdpTo v p => Some (UpdateTcpUdpTo v p st, w)
  | OpUpdatePwrSaveIf ip => drop_result (UpdatePwrSaveIf ip st w)
  | OpResetPwrSaveIf ip => drop_result (ResetPwrSaveIf ip st w)
  | OpDelEntriesOnClntDiscon ip => drop_result (DelEntriesOnClntDiscon ip st w)
  | OpDelEntriesOnSTAClntDiscon ip => drop_result (DelEntriesOnSTAClntDiscon ip st w)
  end.

Fixpoint run_ops (ops : list natapp_op) st w : option (NatApp * W) :=
  match ops with
  | [] => Some (st, w)
  | op :: ops => '(st, w) ← run_op op st w; run_ops ops st w
  end.

(** *** Well-formedness *)

(** What one slot of [cache] goes through in a loop: its connection stays, or
    the slot is cleared and the count goes down. *)
Definition slot_step (c : Z) (x : nat_table_entry) (c' : Z) (x' : nat_table_entry) : Prop :=
  (c' = c /\ conn_key x' = conn_key x /\
     (slot_free x = true -> enabled x = false -> enabled x' = false)) \/
  (c' = c - 1 /\ x' = entry_zero /\ slot_free x = false).

Lemma cache_wf_step pre x x' post c c' :
  slot_step c x c' x' -> cache_wf (pre ++ x :: post) c -> cache_wf (pre ++ x' :: post) c'.
Proof.
  intros [(-> & Hk & He)|(-> & -> & Hf)] Hwf; [|by eapply cache_wf_clear].
  eapply cache_wf_replace; eauto. intros Hf. apply He; [done|].
  destruct Hwf as [Hok _ _]. apply Forall_app in Hok as [_ [Hx _]%Forall_cons].
  unfold entry_ok in Hx. by rewrite Hf in Hx.
Qed.

(** A loop over the cache whose body is a slot step keeps it well-formed. *)
Lemma loop_wf {S} (cnt : S -> Z) (f : S -> nat_table_entry -> S * nat_table_entry) s l :
  (forall s x, slot_step (cnt s) x (cnt (fst (f s x))) (snd (f s x))) ->
  cache_wf l (cnt s) ->
  cache_wf (snd (loop_accum f s l)) (cnt (fst (loop_accum f s l))).
Proof.
  intros Hf Hwf. apply (loop_accum_inv (fun s l => cache_wf l (cnt s)) f s l); [|done].
  intros s' pre x post. apply cache_wf_step, Hf.
Qed.

Lemma restore_slot_step hdl c w x :
  slot_free x = false ->
  slot_step c x (fst (fst (restore_slot hdl (c, w) x))) (snd (restore_slot hdl (c, w) x)).
Proof.
  intros Hf. unfold restore_slot. destruct (ipa_nat_add_ipv4_rule _ _ _ _) as [[ret h] w'].
  destruct (ret <? 0); [by right|]. left. split_and!; [done|done|congruence].
Qed.

Lemma private_ip_not_free x : private_ip x <> 0 -> slot_free x = false.
Proof. intros Hn. unfold slot_free. by destruct (Z.eqb_spec (private_ip x) 0). Qed.

Ltac drv_cases :=
  match goal with
  | |- context [ipa_nat_add_ipv4_rule ?t ?r ?h ?w] =>
      destruct (ipa_nat_add_ipv4_rule t r h w) as [[? ?] ?]
  | |- context [ipa_nat_del_ipv4_rule ?t ?h ?w] =>
      destruct (ipa_nat_del_ipv4_rule t h w) as [? ?]
  | |- context [ipa_nat_query_timestamp ?t ?h ?ts ?w] =>
      destruct (ipa_nat_query_timestamp t h ts w) as [[? ?] ?]
  end.

Lemma sta_discon_slot_step ip hdl c w x :
  ip <> 0 ->
  slot_step c x (fst (fst (sta_discon_slot ip hdl (c, w) x))) (snd (sta_discon_slot ip hdl (c, w) x)).
Proof.
  intros Hip. unfold sta_discon_slot, slot_step.
  destruct (target_ip x =? ip) eqn:E; [|by left; split_and!]. bool_to_prop.
  assert (slot_free x = false) as Hf.
  { unfold slot_free. destruct (Z.eqb_spec (target_ip x) 0); [congruence|]. by rewrite andb_false_r. }
  destruct (enabled x); [|by right]. drv_cases.
  destruct (_ <? 0); [by left; split_and!|by right].
Qed.

Lemma UpdateCTUdpTs_frame e ts st w :
  let '(e', st', w') := UpdateCTUdpTs e ts st w in
  conn_key e' = conn_key e /\ enabled e' = enabled e /\ rule_hdl e' = rule_hdl e /\
  nat_rule_of e' = nat_rule_of e /\
  cache st' = cache st /\ curCnt st' = curCnt st /\ max_entries st' = max_entries st /\
  temp st' = temp st /\ PwrSaveIfs st' = PwrSaveIfs st /\ nat_table_hdl st' = nat_table_hdl st /\
  pub_ip_addr st' = pub_ip_addr st.
Proof.
  unfold UpdateCTUdpTs. destruct (if ct_hdl st then _ else _) as [[] w1]; simpl; [|by split_and!].
  destruct (if ct st then _ else _) as [[] w2]; simpl; [|by split_and!].
  destruct (nfct_query_update _ _) as [ret w3]. by destruct (ret =? -1); split_and!.
Qed.

Lemma update_ts_slot_frame st w x :
  let '((st', w'), x') := update_ts_slot (st, w) x in
  conn_key x' = conn_key x /\ enabled x' = enabled x /\ rule_hdl x' = rule_hdl x /\
  nat_rule_of x' = nat_rule_of x /\
  cache st' = cache st /\ curCnt st' = curCnt st /\ max_entries st' = max_entries st /\
  temp st' = temp st /\ PwrSaveIfs st' = PwrSaveIfs st /\ nat_table_hdl st' = nat_table_hdl st /\
  pub_ip_addr st' = pub_ip_addr st.
Proof.
  unfold update_ts_slot. destruct (enabled x) eqn:Hen; [|by split_and!]. drv_cases.
  destruct (_ <? 0); [by split_and!|]. destruct (_ =? _); [by split_and!|].
  pose proof (UpdateCTUdpTs_frame x z0 st w0) as Hf. rewrite Hen in Hf.
  by destruct (UpdateCTUdpTs x z0 st w0) as [[e' st'] w'].
Qed.

(** The slot that [AddEntry] and [CacheEntry] fill. *)
Lemma fill_slot_wf rule e pre x post c :
  slot_free x = true -> invalid_conn rule = false ->
  existsb (same_conn rule) (pre ++ x :: post) = false ->
  cache_wf (pre ++ x :: post) c -> cache_wf (pre ++ fill_slot rule e :: post) (c + 1).
Proof.
  intros Hf Hv Hdup Hwf. eapply cache_wf_fill; eauto.
  intros (e' & He' & _ & Hk)%elem_of_occ_keys.
  assert (existsb (same_conn rule) (pre ++ x :: post) = true) as Ht; [|congruence].
  apply existsb_exists. exists e'. split; [by apply list_elem_of_In|]. by apply same_conn_key.
Qed.

Lemma AddEntry_wf rule st w :
  natapp_wf st -> let '(_, st', _) := AddEntry rule st w in natapp_wf st'.
Proof.
  intros [Hc Hl Ht Hp]. unfold AddEntry. destruct (nat_table_hdl st =? 0); [done|].
  destruct (isAlgPort _ _ _ || _); [done|]. destruct (invalid_conn rule) eqn:Hv; [done|].
  unfold ChkForDup. destruct (existsb _ _) eqn:Hd; [done|].
  destruct (find_index slot_free (cache st)) as [i|] eqn:Ei; [|done].
  destruct (find_index_split _ _ _ Ei) as (pre & x & post & Hsplit & Hi & Hf & _).
  rewrite Hsplit in *. subst i. rewrite nth_middle, !insert_middle.
  destruct (isPwrSaveIf _ _ || _).
  - constructor; simpl; auto; [by apply (fill_slot_wf rule _ pre x)|].
    by rewrite <- Hl, !length_app.
  - drv_cases. rewrite !insert_middle. destruct (_ <? 0).
    + constructor; simpl; auto; [|by rewrite <- Hl, !length_app].
      eapply (cache_wf_replace _ x); eauto. simpl. intros _.
      destruct Hc as [Hok _ _]. apply Forall_app in Hok as [_ [Hx _]%Forall_cons].
      unfold entry_ok in Hx. by rewrite Hf in Hx.
    + constructor; simpl; auto; [by apply (fill_slot_wf rule _ pre x)|].
      by rewrite <- Hl, !length_app.
Qed.

Lemma AddEntry_frame rule st w :
  let '(_, st', _) := AddEntry rule st w in
  temp st' = temp st /\ PwrSaveIfs st' = PwrSaveIfs st /\ nat_table_hdl st' = nat_table_hdl st /\
  pub_ip_addr st' = pub_ip_addr st /\ pub_ip_addr_pre st' = pub_ip_addr_pre st /\
  max_entries st' = max_entries st /\ pALGPorts st' = pALGPorts st.
Proof.
  unfold AddEntry. destruct (nat_table_hdl st =? 0); [done|].
  destruct (isAlgPort _ _ _ || _); [done|]. destruct (invalid_conn rule); [done|].
  destruct (ChkForDup _ _); [done|]. destruct (find_index _ _); [|done].
  destruct (isPwrSaveIf _ _ || _); [by split_and!|]. drv_cases.
  destruct (_ <? 0); by split_and!.
Qed.

Lemma DeleteEntry_wf rule st w :
  slot_free rule = false -> natapp_wf st ->
  let '(_, st', _) := DeleteEntry rule st w in natapp_wf st'.
Proof.
  intros Hv [Hc Hl Ht Hp]. unfold DeleteEntry.
  destruct (find_index _ (cache st)) as [i|] eqn:Ei; [|done].
  destruct (find_index_split _ _ _ Ei) as (pre & x & post & Hsplit & Hi & Hs & _).
  apply same_conn_key in Hs. rewrite Hsplit in *. subst i. rewrite insert_middle.
  constructor; simpl; auto; [|by rewrite <- Hl, !length_app].
  eapply cache_wf_clear; [|done]. by rewrite (slot_free_ext _ _ Hs).
Qed.

Lemma slot_step_refl c x : slot_step c x c x.
Proof. by left. Qed.

Lemma restore_loop_wf hdl (p : nat_table_entry -> bool) c w l :
  (forall x, p x = true -> slot_free x = false) -> cache_wf l c ->
  let '((c', _), l') :=
    loop_accum (fun s e => if p e then restore_slot hdl s e else (s, e)) (c, w) l in
  cache_wf l' c' /\ length l' = length l.
Proof.
  intros Hp Hwf.
  set (f := fun (s : Z * W) (e : nat_table_entry) => if p e then restore_slot hdl s e else (s, e)).
  pose proof (loop_wf fst f (c, w) l) as H'. pose proof (length_loop_accum f (c, w) l) as Hlen.
  destruct (loop_accum f (c, w) l) as [[c' w'] l']. split; [|done]. apply H'; [|done].
  intros [c1 w1] x. unfold f. destruct (p x) eqn:E; [|apply slot_step_refl].
  apply restore_slot_step; auto.
Qed.

(** Loops that keep the count: the state is the world alone. *)
Lemma keep_loop_wf (f : W -> nat_table_entry -> W * nat_table_entry) c w l :
  (forall w x, slot_step c x c (snd (f w x))) -> cache_wf l c ->
  let '(_, l') := loop_accum f w l in cache_wf l' c /\ length l' = length l.
Proof.
  intros Hf Hwf. pose proof (loop_wf (fun _ => c) f w l Hf Hwf) as H'.
  pose proof (length_loop_accum f w l). by destruct (loop_accum f w l).
Qed.

Lemma pwr_save_slot_step ip hdl c w x : slot_step c x c (snd (pwr_save_slot ip hdl w x)).
Proof.
  unfold pwr_save_slot. destruct (_ && _); [|apply slot_step_refl]. drv_cases.
  destruct (_ <? 0); [apply slot_step_refl|]. by left.
Qed.

Lemma discon_slot_step ip hdl c w x : slot_step c x c (snd (discon_slot ip hdl w x)).
Proof.
  unfold discon_slot. destruct (_ =? ip); [|apply slot_step_refl].
  destruct (enabled x); [|apply slot_step_refl]. drv_cases.
  destruct (_ <? 0); [apply slot_step_refl|]. by left.
Qed.

Lemma flush_slot_frame ip b st w x :
  natapp_wf st ->
  let '((st', _), _) := flush_slot ip b (st, w) x in
  natapp_wf st' /\ temp st' = temp st /\ nat_table_hdl st' = nat_table_hdl st /\
  pub_ip_addr st' = pub_ip_addr st.
Proof.
  intros Hwf. unfold flush_slot. destruct (_ || _); [|by split_and!].
  destruct (b && _); [|by split_and!]. pose proof (AddEntry_wf x st w Hwf).
  pose proof (AddEntry_frame x st w). destruct (AddEntry x st w) as [[ret st'] w'].
  destruct (negb _); naive_solver.
Qed.

Lemma update_ts_slot_wf st w x :
  slot_step (curCnt st) x (curCnt st) (snd (update_ts_slot (st, w) x)).
Proof.
  pose proof (update_ts_slot_frame st w x) as Hf.
  destruct (update_ts_slot (st, w) x) as [[st' w'] x']. simpl. left.
  destruct Hf as (Hk & He & _). split_and!; [done|done|congruence].
Qed.

(** The object in the state of [UpdateUDPTimeStamp]'s loop changes only its
    library handles. *)
Lemma update_ts_loop_frame st w l :
  let '((st', _), _) := loop_accum update_ts_slot (st, w) l in
  curCnt st' = curCnt st /\ max_entries st' = max_entries st /\ temp st' = temp st /\
  PwrSaveIfs st' = PwrSaveIfs st /\ nat_table_hdl st' = nat_table_hdl st.
Proof.
  pose proof (loop_accum_inv (fun (s : NatApp * W) _ =>
    curCnt (fst s) = curCnt st /\ max_entries (fst s) = max_entries st /\ temp (fst s) = temp st /\
    PwrSaveIfs (fst s) = PwrSaveIfs st /\ nat_table_hdl (fst s) = nat_table_hdl st)
    update_ts_slot (st, w) l) as H'.
  destruct (loop_accum _ _ _) as [[st' w'] l']. apply H'; [|by split_and!].
  intros [st1 w1] pre x post Hs. pose proof (update_ts_slot_frame st1 w1 x) as Hf.
  destruct (update_ts_slot (st1, w1) x) as [[st2 w2] x2]. simpl in *. destruct_and!. split_and!; congruence.
Qed.

Lemma CacheEntry_wf cnt0 rule st st' :
  natapp_wf st -> CacheEntry cnt0 rule st = Some st' -> natapp_wf st'.
Proof.
  intros Hwf. pose proof Hwf as [Hc Hl Ht Hp]. unfold CacheEntry. destruct (invalid_conn rule) eqn:Hv; [by intros [= <-]|].
  destruct (ChkForDup rule st) eqn:Hd; [by intros [= <-]|].
  destruct (cnt0 <? 0) eqn:E0; [done|]. destruct (cnt0 <? max_entries st) eqn:E1; bool_to_prop.
  - destruct (find_index slot_free (drop (Z.to_nat cnt0) (cache st))) as [k|] eqn:Ek.
    + destruct (find_index_split _ _ _ Ek) as (pre & x & post & Hsplit & Hi & Hf & _).
      replace (Z.to_nat (cnt0 + Z.of_nat k)) with (length (take (Z.to_nat cnt0) (cache st) ++ pre))
        by (rewrite length_app, length_take; lia).
      assert (cache st = (take (Z.to_nat cnt0) (cache st) ++ pre) ++ x :: post) as Hs2
        by (rewrite <- app_assoc, <- Hsplit; by rewrite take_drop).
      revert Hs2. generalize (take (Z.to_nat cnt0) (cache st) ++ pre). intros pre' Hs2.
      unfold ChkForDup in Hd. rewrite Hs2 in *. rewrite nth_middle, insert_middle.
      destruct (_ =? _); [by intros [= <-]|]. destruct (_ <? _); [done|]. intros [= <-].
      constructor; simpl; auto; [by eapply (fill_slot_wf rule _ pre' x)|].
      by rewrite <- Hl, !length_app.
    + rewrite Z.eqb_refl. by intros [= <-].
  - destruct (max_entries st =? cnt0) eqn:E2; [by intros [= <-]|].
    destruct (max_entries st <? cnt0) eqn:E3; [done|]. bool_to_prop. lia.
Qed.

Lemma pwr_update_length (p : Z -> bool) f st :
  natapp_wf st -> length (update_first p f (PwrSaveIfs st)) = IPA_MAX_NUM_WIFI_CLIENTS.
Proof. intros [_ _ _ Hp]. by rewrite length_update_first. Qed.

(** The operations a caller may make on a well-formed object. *)
Definition op_ok (op : natapp_op) : Prop :=
  match op with
  | OpDeleteEntry r => slot_free r = false
  | _ => True
  end.

Lemma AddTable_wf pub_ip st w :
  natapp_wf st -> let '(_, st', _) := AddTable pub_ip st w in natapp_wf st'.
Proof.
  intros [Hc Hl Ht Hp]. unfold AddTable.
  destruct (ipa_nat_add_ipv4_tbl _ _ _ _) as [[ret h] w1].
  destruct (negb (ret =? 0)); [done|]. destruct (pub_ip =? _); [|done].
  pose proof (restore_loop_wf h (fun e => negb (private_ip e =? 0)) (curCnt st) w1 (cache st)) as Hr.
  simpl. destruct (loop_accum _ _ _) as [[c' w2] l'].
  destruct Hr as [Hr1 Hr2]; [|done|constructor; simpl; congruence].
  intros x Hx. apply private_ip_not_free. bool_to_prop. done.
Qed.

Lemma DeleteTable_wf pub_ip st w :
  natapp_wf st -> let '(_, st', _) := DeleteTable pub_ip st w in natapp_wf st'.
Proof.
  intros [Hc Hl Ht Hp]. unfold DeleteTable. destruct (_ =? 0); [done|].
  destruct (negb _); [done|]. destruct (ipa_nat_del_ipv4_tbl _ _) as [ret w1].
  by destruct (negb _).
Qed.

Lemma FlushTempEntries_wf ip_addr isAdd st w :
  natapp_wf st -> natapp_wf (fst (FlushTempEntries ip_addr isAdd st w)).
Proof.
  intros Hwf. unfold FlushTempEntries.
  pose proof (loop_accum_inv (fun (s : NatApp * W) l => natapp_wf (fst s) /\ length l = MAX_TEMP_ENTRIES)
    (flush_slot ip_addr isAdd) (st, w) (temp st)) as Hi.
  destruct (loop_accum _ _ _) as [[st1 w1] l'].
  destruct Hi as [[H1' H2' H3' H4'] H5']; [|split; [done|apply Hwf]|by constructor].
  intros [st2 w2] pre x post [Hw2 Hlen]. pose proof (flush_slot_frame ip_addr isAdd st2 w2 x Hw2).
  destruct (flush_slot _ _ _ _) as [[st3 w3] x']. simpl in *.
  rewrite length_app in *. naive_solver.
Qed.

Lemma UpdateUDPTimeStamp_wf st w : natapp_wf st -> natapp_wf (fst (UpdateUDPTimeStamp st w)).
Proof.
  intros [Hc Hl Ht Hp]. unfold UpdateUDPTimeStamp.
  pose proof (update_ts_loop_frame st w (cache st)) as Hfr.
  pose proof (loop_accum_inv (fun (s : NatApp * W) l =>
    curCnt (fst s) = curCnt st /\ cache_wf l (curCnt st)) update_ts_slot (st, w) (cache st)) as Hi.
  pose proof (length_loop_accum update_ts_slot (st, w) (cache st)) as Hlen.
  destruct (loop_accum _ _ _) as [[st1 w1] l']. simpl in *.
  destruct Hi as [Hc1 Hc2]; [|done|constructor; simpl; naive_solver congruence].
  intros [st2 w2] pre x post [Hc2 Hw2]. pose proof (update_ts_slot_wf st2 w2 x) as Hs.
  pose proof (update_ts_slot_frame st2 w2 x) as Hf.
  destruct (update_ts_slot _ x) as [[st3 w3] x']. simpl in *. split; [naive_solver congruence|].
  rewrite Hc2 in Hs. by eapply cache_wf_step.
Qed.

Lemma UpdatePwrSaveIf_wf ip st w :
  natapp_wf st -> let '(_, st', _) := UpdatePwrSaveIf ip st w in natapp_wf st'.
Proof.
  intros Hwf. pose proof Hwf as [Hc Hl Ht Hp]. unfold UpdatePwrSaveIf.
  destruct (_ =? _); [done|]. destruct (existsb _ _); [done|]. simpl.
  pose proof (keep_loop_wf (pwr_save_slot ip (nat_table_hdl st)) (curCnt st) w (cache st)
    (fun w x => pwr_save_slot_step ip _ _ w x) Hc) as Hi.
  destruct (loop_accum _ _ _) as [w1 l']. destruct Hi as [Hi1 Hi2].
  constructor; simpl; [done|congruence|done|by apply pwr_update_length].
Qed.

Lemma ResetPwrSaveIf_wf ip st w :
  natapp_wf st -> let '(_, st', _) := ResetPwrSaveIf ip st w in natapp_wf st'.
Proof.
  intros Hwf. pose proof Hwf as [Hc Hl Ht Hp]. unfold ResetPwrSaveIf.
  destruct (_ =? _) eqn:Eip; [done|]. simpl.
  pose proof (restore_loop_wf (nat_table_hdl st)
    (fun e => (private_ip e =? ip) && negb (enabled e)) (curCnt st) w (cache st)) as Hr.
  destruct (loop_accum _ _ _) as [[c' w2] l']. destruct Hr as [Hr1 Hr2]; [|done|].
  - intros x Hx. apply private_ip_not_free. unfold INVALID_IP_ADDR in *. bool_to_prop. congruence.
  - constructor; simpl; [done|congruence|done|by apply pwr_update_length].
Qed.

Lemma DelEntriesOnClntDiscon_wf ip st w :
  natapp_wf st -> let '(_, st', _) := DelEntriesOnClntDiscon ip st w in natapp_wf st'.
Proof.
  intros Hwf. pose proof Hwf as [Hc Hl Ht Hp]. unfold DelEntriesOnClntDiscon.
  destruct (_ =? _); [done|]. simpl.
  pose proof (keep_loop_wf (discon_slot ip (nat_table_hdl st)) (curCnt st) w (cache st)
    (fun w x => discon_slot_step ip _ _ w x) Hc) as Hi.
  destruct (loop_accum _ _ _) as [w1 l']. destruct Hi as [Hi1 Hi2].
  constructor; simpl; [done|congruence|done|by apply pwr_update_length].
Qed.

Lemma DelEntriesOnSTAClntDiscon_wf ip st w :
  natapp_wf st -> let '(_, st', _) := DelEntriesOnSTAClntDiscon ip st w in natapp_wf st'.
Proof.
  intros Hwf. pose proof Hwf as [Hc Hl Ht Hp]. unfold DelEntriesOnSTAClntDiscon.
  destruct (_ =? _) eqn:Eip; [done|]. unfold INVALID_IP_ADDR in Eip. bool_to_prop.
  pose proof (loop_wf (fst : Z * W -> Z) (sta_discon_slot ip (nat_table_hdl st)) (curCnt st, w) (cache st)) as Hi.
  pose proof (length_loop_accum (sta_discon_slot ip (nat_table_hdl st)) (curCnt st, w) (cache st)).
  destruct (loop_accum _ _ _) as [[c' w1] l'].
  constructor; simpl in *; [apply Hi; [|done]|congruence|done|done].
  intros [c1 w2] x. by apply sta_discon_slot_step.
Qed.

(** Use the lemma [H] of an operation that returns result, object and world. *)
Ltac op_wf H :=
  let Hn := fresh in
  pose proof H as Hn; revert Hn;
  match goal with |- match ?o with _ => _ end -> _ => destruct o as [[? ?] ?] end;
  intros ? ?; by simplify_eq.

Lemma run_op_wf op st w st' w' :
  op_ok op -> natapp_wf st -> run_op op st w = Some (st', w') -> natapp_wf st'.
Proof.
  intros Hop Hwf. destruct op; simpl in *; unfold drop_result.
  - op_wf (AddTable_wf pub_ip st w Hwf).
  - op_wf (DeleteTable_wf pub_ip st w Hwf).
  - op_wf (AddEntry_wf rule st w Hwf).
  - op_wf (DeleteEntry_wf rule st w Hop Hwf).
  - destruct (CacheEntry _ _ _) as [st1|] eqn:E; [|done]. intros [= <- <-].
    by eapply CacheEntry_wf.
  - destruct Hwf. intros [= <- <-]. constructor; simpl; auto. by rewrite length_update_first.
  - destruct Hwf. intros [= <- <-]. constructor; simpl; auto. by rewrite length_update_first.
  - intros Hr. pose proof (FlushTempEntries_wf ip_addr isAdd st w Hwf) as Hf.
    injection Hr as Hr. by rewrite Hr in Hf.
  - intros Hr. pose proof (UpdateUDPTimeStamp_wf st w Hwf) as Hf.
    injection Hr as Hr. by rewrite Hr in Hf.
  - destruct Hwf. unfold UpdateTcpUdpTo. destruct (_ =? _); [by intros [= <- <-]|].
    destruct (_ =? _); by intros [= <- <-].
  - op_wf (UpdatePwrSaveIf_wf ip st w Hwf).
  - op_wf (ResetPwrSaveIf_wf ip st w Hwf).
  - op_wf (DelEntriesOnClntDiscon_wf ip st w Hwf).
  - op_wf (DelEntriesOnSTAClntDiscon_wf ip st w Hwf).
Qed.

Lemma run_ops_wf ops st w st' w' :
  Forall op_ok ops -> natapp_wf st -> run_ops ops st w = Some (st', w') -> natapp_wf st'.
Proof.
  revert st w. induction ops as [|op ops IH]; intros st w Hops Hwf Hr; simplify_eq/=; [done|].
  apply Forall_cons in Hops as [Hop Hops].
  destruct (run_op op st w) as [[st1 w1]|] eqn:E; [|done]. simpl in Hr.
  eapply IH; [done| |done]. by eapply run_op_wf.
Qed.
End sequences.
