(* ===== verification/NatAppSync.v ===== *)
(** * The NAT cache mirrors the hardware table

    The invariant [natapp_inv] relates a [NatApp] object to the driver: every
    enabled entry's rule is in the hardware under the entry's handle and, when the
    driver deletes what it is asked to delete, the table holds nothing else.
    Every operation between two table changes preserves it, and [AddTable]
    establishes it. *)
From S2P Require Import Prelude Defs Config NatDrv NatApp.
From stdpp Require Import base list gmap.
From Stdlib Require Import ZArith Lia.

Open Scope Z_scope.

(** The operations that leave the table itself alone. *)
Definition session_op (op : natapp_op) : Prop :=
  match op with
  | OpAddTable _ | OpDeleteTable _ => False
  | OpDeleteEntry r => slot_free r = false
  | _ => True
  end.

(** The conntrack library talks to the kernel's connection table, never to the
    IPA driver. *)
Class NfctLaws (W : Type) `{NatDrvLaws W} `{NfctLib W} := {
  nfct_rules (w : W) :
    drv_rules (snd (nfct_open w)) = drv_rules w /\
    drv_rules (snd (nfct_new w)) = drv_rules w /\
    forall u, drv_rules (snd (nfct_query_update u w)) = drv_rules w
}.

Section session.
Context {W : Type} `{NfctLaws W}.
Context (strict : bool).
Hypothesis strict_ok : strict = true -> forall t h r w,
  drv_rules w !! (t, h) = Some r -> 0 <= fst (ipa_nat_del_ipv4_rule t h w).
Implicit Types (w : W) (st : NatApp).

Definition natapp_inv st w : Prop :=
  cache_inv strict (nat_table_hdl st) w (cache st) (curCnt st).

(** A disabled slot becomes another disabled slot. *)
Lemma cache_inv_disabled hdl w pre x x' post c c' :
  enabled x = false -> enabled x' = false -> cache_wf (pre ++ x' :: post) c' ->
  cache_inv strict hdl w (pre ++ x :: post) c -> cache_inv strict hdl w (pre ++ x' :: post) c'.
Proof.
  intros He He' Hwf' [Hwf Hs Hx]. constructor; [done| |].
  - intros e [->|He2]%elem_of_middle Hen; [congruence|].
    apply Hs; [apply elem_of_middle; auto|done].
  - intros Hst h r Hl. destruct (Hx Hst h r Hl) as (e & [->|He2]%elem_of_middle & Hen & ?);
      [congruence|]. exists e. rewrite elem_of_middle. auto.
Qed.

Lemma free_not_enabled pre x post c :
  cache_wf (pre ++ x :: post) c -> slot_free x = true -> enabled x = false.
Proof.
  intros [Hok _ _] Hf. apply Forall_app in Hok as [_ [Hx _]%Forall_cons].
  unfold entry_ok in Hx. by rewrite Hf in Hx.
Qed.

Lemma AddEntry_mirror rule st w :
  natapp_inv st w -> let '(_, st', w') := AddEntry rule st w in natapp_inv st' w'.
Proof.
  intros Hinv. unfold AddEntry. destruct (nat_table_hdl st =? 0); [done|].
  destruct (isAlgPort _ _ _ || _); [done|]. destruct (invalid_conn rule) eqn:Hv; [done|].
  unfold ChkForDup. destruct (existsb _ _) eqn:Hd; [done|].
  destruct (find_index slot_free (cache st)) as [i|] eqn:Ei; [|done].
  destruct (find_index_split _ _ _ Ei) as (pre & x & post & Hsplit & Hi & Hf & _).
  unfold natapp_inv in *. rewrite Hsplit in *. subst i. rewrite nth_middle.
  pose proof (ci_wf _ _ _ _ _ Hinv) as Hwf. pose proof (free_not_enabled _ _ _ _ Hwf Hf) as Hen.
  pose proof (fun e => fill_slot_wf rule e _ _ _ _ Hf Hv Hd Hwf) as Hfill.
  destruct (isPwrSaveIf _ _ || _); simpl; rewrite ?insert_middle.
  - by apply (cache_inv_disabled _ _ _ x _ _ (curCnt st)).
  - pose proof (drv_add_rule (nat_table_hdl st) (nat_rule_of rule) (rule_hdl x) w) as Ha.
    destruct (ipa_nat_add_ipv4_rule _ _ _ _) as [[ret h] w'].
    destruct Ha as [[Hr Hw]|(Hr & Hn & Hw)].
    + rewrite (proj2 (Z.ltb_lt _ _)) by done. simpl. rewrite insert_middle.
      apply (cache_inv_keep strict _ w _ pre x); simpl; try done. congruence.
    + rewrite (proj2 (Z.ltb_ge _ _)) by done. simpl. rewrite insert_middle.
      eapply cache_inv_enable; eauto.
Qed.

Lemma DeleteEntry_mirror rule st w :
  slot_free rule = false -> natapp_inv st w ->
  let '(_, st', w') := DeleteEntry rule st w in natapp_inv st' w'.
Proof.
  intros Hv Hinv. unfold DeleteEntry. destruct (find_index _ (cache st)) as [i|] eqn:Ei; [|done].
  destruct (find_index_split _ _ _ Ei) as (pre & x & post & Hsplit & Hi & Hs & _).
  apply same_conn_key in Hs. unfold natapp_inv in *. rewrite Hsplit in *. subst i.
  rewrite nth_middle, insert_middle. simpl. rewrite <- (slot_free_ext _ _ Hs) in Hv.
  destruct (enabled x) eqn:Hen; [|by eapply cache_inv_clear_disabled].
  pose proof (del_rule_cases strict strict_ok _ w _ _ x Hinv
    ltac:(apply elem_of_middle; auto) Hen) as Hd.
  destruct (ipa_nat_del_ipv4_rule _ _ _) as [ret w']. simpl.
  destruct Hd as [(Hr & Hw & Hst)|(Hr & Hw)]; [by eapply cache_inv_leak|].
  by eapply clear_enabled_inv.
Qed.

Lemma CacheEntry_mirror cnt0 rule st w st' :
  natapp_wf st -> natapp_inv st w -> CacheEntry cnt0 rule st = Some st' -> natapp_inv st' w.
Proof.
  intros Hst Hinv. unfold CacheEntry. destruct (invalid_conn rule) eqn:Hv; [by intros [= <-]|].
  destruct (ChkForDup rule st) eqn:Hd; [by intros [= <-]|].
  destruct (cnt0 <? 0) eqn:E0; [done|]. destruct Hst as [Hc Hl _ _].
  destruct (cnt0 <? max_entries st) eqn:E1; bool_to_prop.
  - destruct (find_index slot_free (drop (Z.to_nat cnt0) (cache st))) as [k|] eqn:Ek.
    + destruct (find_index_split _ _ _ Ek) as (pre & x & post & Hsplit & Hi & Hf & _).
      replace (Z.to_nat (cnt0 + Z.of_nat k)) with (length (take (Z.to_nat cnt0) (cache st) ++ pre))
        by (rewrite length_app, length_take; lia).
      assert (cache st = (take (Z.to_nat cnt0) (cache st) ++ pre) ++ x :: post) as Hs2
        by (rewrite <- app_assoc, <- Hsplit; by rewrite take_drop).
      revert Hs2. generalize (take (Z.to_nat cnt0) (cache st) ++ pre). intros pre' Hs2.
      unfold ChkForDup, natapp_inv in *. rewrite Hs2 in *. rewrite nth_middle, insert_middle.
      destruct (_ =? _); [intros [= <-]; by rewrite Hs2|].
      destruct (_ <? _); [done|]. intros [= <-]. simpl.
      pose proof (free_not_enabled _ _ _ _ Hc Hf) as Hen.
      eapply (cache_inv_disabled _ _ _ x); [done|done| |done].
      by eapply (fill_slot_wf rule _ pre' x).
    + rewrite Z.eqb_refl. by intros [= <-].
  - destruct (max_entries st =? cnt0) eqn:E2; [by intros [= <-]|].
    destruct (max_entries st <? cnt0) eqn:E3; [done|]. bool_to_prop. lia.
Qed.

Lemma flush_slot_mirror ip b st w x :
  natapp_inv st w -> let '((st', w'), _) := flush_slot ip b (st, w) x in natapp_inv st' w'.
Proof.
  intros Hinv. unfold flush_slot. destruct (_ || _); [|done]. destruct (b && _); [|done].
  pose proof (AddEntry_mirror x st w Hinv). destruct (AddEntry x st w) as [[ret st'] w'].
  by destruct (negb _).
Qed.

Lemma FlushTempEntries_mirror ip b st w :
  natapp_inv st w -> let '(st', w') := FlushTempEntries ip b st w in natapp_inv st' w'.
Proof.
  intros Hinv. unfold FlushTempEntries.
  pose proof (loop_accum_inv (fun (s : NatApp * W) (_ : list nat_table_entry) =>
    natapp_inv (fst s) (snd s)) (flush_slot ip b) (st, w) (temp st)) as Hi.
  destruct (loop_accum _ _ _) as [[st1 w1] l']. apply Hi; [|done].
  intros [st2 w2] pre x post Hs. pose proof (flush_slot_mirror ip b st2 w2 x Hs).
  by destruct (flush_slot _ _ _ _) as [[? ?] ?].
Qed.

Lemma UpdateCTUdpTs_rules e ts st w :
  drv_rules (snd (UpdateCTUdpTs e ts st w)) = drv_rules w.
Proof.
  unfold UpdateCTUdpTs. destruct (if ct_hdl st then _ else _) as [b1 w1] eqn:E1.
  assert (drv_rules w1 = drv_rules w) as Hw1.
  { destruct (ct_hdl st); simplify_eq; [done|]. pose proof (nfct_rules w). rewrite E1 in *. naive_solver. }
  destruct b1; simpl; [|done]. destruct (if ct st then _ else _) as [b2 w2] eqn:E2.
  assert (drv_rules w2 = drv_rules w1) as Hw2.
  { destruct (ct st); simplify_eq; [done|]. pose proof (nfct_rules w1). rewrite E2 in *. naive_solver. }
  destruct b2; simpl; [|congruence].
  destruct (nfct_rules w2) as (_ & _ & Hq). specialize (Hq (ct_update_of e (st <| ct_hdl := true |> <| ct := true |>))).
  simpl in Hq. destruct (nfct_query_update _ _) as [ret w3]. simpl in Hq.
  destruct (ret =? -1); simpl; congruence.
Qed.

Lemma update_ts_slot_mirror hdl st w pre x post c :
  cache_inv strict hdl w (pre ++ x :: post) c ->
  let '((st', w'), x') := update_ts_slot (st, w) x in cache_inv strict hdl w' (pre ++ x' :: post) c.
Proof.
  intros Hinv. pose proof (update_ts_slot_frame st w x) as Hf.
  assert (drv_rules (snd (fst (update_ts_slot (st, w) x))) = drv_rules w) as Hw.
  { unfold update_ts_slot. destruct (enabled x); [|done].
    pose proof (drv_query (nat_table_hdl st) (rule_hdl x) 0 w) as Hq.
    destruct (ipa_nat_query_timestamp _ _ _ _) as [[ret ts] w1]. simpl in Hq.
    destruct (ret <? 0); [done|]. destruct (_ =? _); [done|].
    pose proof (UpdateCTUdpTs_rules x ts st w1). destruct (UpdateCTUdpTs _ _ _ _) as [[? ?] ?].
    simpl in *. congruence. }
  destruct (update_ts_slot (st, w) x) as [[st' w'] x']. simpl in Hw.
  destruct Hf as (? & ? & ? & ? & _). by eapply (cache_inv_keep strict hdl w).
Qed.

Lemma UpdateUDPTimeStamp_mirror st w :
  natapp_inv st w -> let '(st', w') := UpdateUDPTimeStamp st w in natapp_inv st' w'.
Proof.
  intros Hinv. unfold UpdateUDPTimeStamp.
  pose proof (update_ts_loop_frame st w (cache st)) as Hfr.
  pose proof (loop_accum_inv (fun (s : NatApp * W) l =>
    cache_inv strict (nat_table_hdl st) (snd s) l (curCnt st)) update_ts_slot (st, w) (cache st)) as Hi.
  destruct (loop_accum _ _ _) as [[st1 w1] l'].
  destruct Hfr as (Hc & _ & _ & _ & Hh). unfold natapp_inv. simpl. rewrite Hc, Hh. apply Hi; [|done].
  intros [st2 w2] pre x post Hs.
  pose proof (update_ts_slot_mirror _ st2 w2 pre x post _ Hs).
  by destruct (update_ts_slot _ _) as [[? ?] ?].
Qed.

(** Loops whose state is the world alone, or the count and the world. *)
Lemma world_loop_mirror (f : W -> nat_table_entry -> W * nat_table_entry) hdl c w l :
  (forall w pre x post, cache_inv strict hdl w (pre ++ x :: post) c ->
     let '(w', x') := f w x in cache_inv strict hdl w' (pre ++ x' :: post) c) ->
  cache_inv strict hdl w l c ->
  let '(w', l') := loop_accum f w l in cache_inv strict hdl w' l' c.
Proof.
  intros Hf Hinv. pose proof (loop_accum_inv (fun w l => cache_inv strict hdl w l c) f w l) as Hi.
  destruct (loop_accum f w l). apply Hi; [|done]. intros w1 pre x post Hs.
  specialize (Hf _ _ _ _ Hs). by destruct (f w1 x).
Qed.

Lemma count_loop_mirror (f : Z * W -> nat_table_entry -> (Z * W) * nat_table_entry) hdl c w l :
  (forall c w pre x post, cache_inv strict hdl w (pre ++ x :: post) c ->
     let '((c', w'), x') := f (c, w) x in cache_inv strict hdl w' (pre ++ x' :: post) c') ->
  cache_inv strict hdl w l c ->
  let '((c', w'), l') := loop_accum f (c, w) l in cache_inv strict hdl w' l' c'.
Proof.
  intros Hf Hinv.
  pose proof (loop_accum_inv (fun s l => cache_inv strict hdl (snd s) l (fst s)) f (c, w) l) as Hi.
  destruct (loop_accum f (c, w) l) as [[c1 w1] l1]. apply Hi; [|done].
  intros [c2 w2] pre x post Hs. specialize (Hf c2 w2 _ _ _ Hs). by destruct (f (c2, w2) x) as [[? ?] ?].
Qed.

Lemma restore_loop_mirror hdl (p : nat_table_entry -> bool) c w l :
  (forall x, p x = true -> slot_free x = false /\ enabled x = false) ->
  cache_inv strict hdl w l c ->
  let '((c', w'), l') :=
    loop_accum (fun s e => if p e then restore_slot hdl s e else (s, e)) (c, w) l in
  cache_inv strict hdl w' l' c'.
Proof.
  intros Hp. apply count_loop_mirror. intros c1 w1 pre x post Hs.
  destruct (p x) eqn:E; [|done]. destruct (Hp x E). by apply restore_slot_inv.
Qed.

Lemma UpdatePwrSaveIf_mirror ip st w :
  natapp_inv st w -> let '(_, st', w') := UpdatePwrSaveIf ip st w in natapp_inv st' w'.
Proof.
  intros Hinv. unfold UpdatePwrSaveIf. destruct (_ =? _); [done|]. destruct (existsb _ _); [done|].
  pose proof (world_loop_mirror (pwr_save_slot ip (nat_table_hdl st)) _ _ w (cache st)
    (fun w pre x post => pwr_save_slot_inv strict strict_ok ip _ _ w pre x post) Hinv) as Hi.
  simpl. by destruct (loop_accum _ _ _).
Qed.

Lemma ResetPwrSaveIf_mirror ip st w :
  natapp_inv st w -> let '(_, st', w') := ResetPwrSaveIf ip st w in natapp_inv st' w'.
Proof.
  intros Hinv. unfold ResetPwrSaveIf. destruct (_ =? _) eqn:Eip; [done|]. simpl.
  pose proof (restore_loop_mirror (nat_table_hdl st)
    (fun e => (private_ip e =? ip) && negb (enabled e)) (curCnt st) w (cache st)) as Hr.
  destruct (loop_accum _ _ _) as [[c' w2] l']. apply Hr; [|done].
  intros x Hx. unfold INVALID_IP_ADDR in *. bool_to_prop. split; [|done].
  apply private_ip_not_free. congruence.
Qed.

Lemma DelEntriesOnClntDiscon_mirror ip st w :
  natapp_inv st w -> let '(_, st', w') := DelEntriesOnClntDiscon ip st w in natapp_inv st' w'.
Proof.
  intros Hinv. unfold DelEntriesOnClntDiscon. destruct (_ =? _); [done|].
  pose proof (world_loop_mirror (discon_slot ip (nat_table_hdl st)) _ _ w (cache st)
    (fun w pre x post => discon_slot_inv strict strict_ok ip _ _ w pre x post) Hinv) as Hi.
  simpl. by destruct (loop_accum _ _ _).
Qed.

Lemma DelEntriesOnSTAClntDiscon_mirror ip st w :
  natapp_inv st w -> let '(_, st', w') := DelEntriesOnSTAClntDiscon ip st w in natapp_inv st' w'.
Proof.
  intros Hinv. unfold DelEntriesOnSTAClntDiscon. destruct (_ =? _) eqn:Eip; [done|].
  unfold INVALID_IP_ADDR in Eip. bool_to_prop.
  pose proof (count_loop_mirror (sta_discon_slot ip (nat_table_hdl st)) _ _ w (cache st)
    (fun c w pre x post => sta_discon_slot_inv strict strict_ok ip _ c w pre x post Eip) Hinv) as Hi.
  by destruct (loop_accum _ _ _) as [[? ?] ?].
Qed.

Ltac op_mirror H :=
  let Hn := fresh in
  pose proof H as Hn; revert Hn;
  match goal with |- match ?o with _ => _ end -> _ => destruct o as [[? ?] ?] end;
  intros ? ?; by simplify_eq.

Lemma run_op_mirror op st w st' w' :
  session_op op -> natapp_wf st -> natapp_inv st w -> run_op op st w = Some (st', w') ->
  natapp_inv st' w'.
Proof.
  intros Hop Hwf Hinv. destruct op; simpl in *; unfold drop_result; try done.
  - op_mirror (AddEntry_mirror rule st w Hinv).
  - op_mirror (DeleteEntry_mirror rule st w Hop Hinv).
  - destruct (CacheEntry _ _ _) as [st1|] eqn:E; [|done]. intros [= <- <-].
    by eapply CacheEntry_mirror.
  - by intros [= <- <-].
  - by intros [= <- <-].
  - pose proof (FlushTempEntries_mirror ip_addr isAdd st w Hinv) as Hf.
    destruct (FlushTempEntries _ _ _ _). by intros [= <- <-].
  - pose proof (UpdateUDPTimeStamp_mirror st w Hinv) as Hf.
    destruct (UpdateUDPTimeStamp _ _). by intros [= <- <-].
  - unfold UpdateTcpUdpTo. destruct (_ =? _); [by intros [= <- <-]|].
    destruct (_ =? _); by intros [= <- <-].
  - op_mirror (UpdatePwrSaveIf_mirror ip st w Hinv).
  - op_mirror (ResetPwrSaveIf_mirror ip st w Hinv).
  - op_mirror (DelEntriesOnClntDiscon_mirror ip st w Hinv).
  - op_mirror (DelEntriesOnSTAClntDiscon_mirror ip st w Hinv).
Qed.

Lemma run_ops_mirror ops st w st' w' :
  Forall session_op ops -> natapp_wf st -> natapp_inv st w ->
  run_ops ops st w = Some (st', w') -> natapp_inv st' w'.
Proof.
  revert st w. induction ops as [|op ops IH]; intros st w Hops Hwf Hinv Hr; simplify_eq/=; [done|].
  apply Forall_cons in Hops as [Hop Hops].
  destruct (run_op op st w) as [[st1 w1]|] eqn:E; [|done]. simpl in Hr.
  eapply IH; [done| | |done].
  - eapply run_op_wf; [|done|done]. by destruct op.
  - by eapply run_op_mirror.
Qed.

(** *** The table comes up *)

(** Part of a cache that [AddTable] has already been through: the slots of
    [done] mirror the table, those of [rest] are not in it. *)
Record restore_inv (hdl : Z) w (pre rest : list nat_table_entry) (c : Z) : Prop := {
  ri_wf : cache_wf (pre ++ rest) c;
  ri_sync : drv_sync hdl w pre;
  ri_exact : drv_exact hdl w pre
}.

Lemma restore_inv_step hdl w pre x rest c :
  restore_inv hdl w pre (x :: rest) c ->
  let '((c', w'), x') :=
    if negb (private_ip x =? 0) then restore_slot hdl (c, w) x else ((c, w), x) in
  restore_inv hdl w' (pre ++ [x']) rest c'.
Proof.
  intros [Hwf Hs Hx]. assert (x ∈ pre ++ x :: rest) as Hin by (apply elem_of_middle; auto).
  assert (entry_ok x) as Hok by (destruct Hwf as [Hok _ _]; by eapply Forall_forall in Hok).
  destruct (private_ip x =? 0) eqn:E; simpl.
  - assert (slot_free x = true) as Hf.
    { unfold entry_ok in Hok. destruct (slot_free x); [done|]. unfold invalid_conn in Hok.
      by rewrite E in Hok. }
    unfold entry_ok in Hok. rewrite Hf in Hok. constructor; [by rewrite <- app_assoc| |].
    + intros e [He|He%list_elem_of_singleton]%elem_of_app Hen; [by apply Hs|congruence].
    + intros h r Hl. destruct (Hx h r Hl) as (e & He & Hrest). exists e. split; [set_solver+He|done].
  - bool_to_prop. pose proof (private_ip_not_free x E) as Hf. unfold restore_slot.
    pose proof (drv_add_rule hdl (nat_rule_of x) (rule_hdl x) w) as Ha.
    destruct (ipa_nat_add_ipv4_rule _ _ _ _) as [[ret h] w'].
    destruct Ha as [[Hr Hw]|(Hr & Hn & Hw)].
    + rewrite (proj2 (Z.ltb_lt _ _)) by done. constructor.
      * rewrite <- app_assoc. by eapply cache_wf_clear.
      * intros e [He|He%list_elem_of_singleton]%elem_of_app Hen; [|by subst].
        rewrite Hw. by apply Hs.
      * intros h' r Hl. rewrite Hw in Hl. destruct (Hx h' r Hl) as (e & He & Hrest).
        exists e. split; [set_solver+He|done].
    + rewrite (proj2 (Z.ltb_ge _ _)) by done. constructor.
      * rewrite <- app_assoc. eapply (cache_wf_replace _ x); [done|congruence|done].
      * intros e [He| ->%list_elem_of_singleton]%elem_of_app Hen; rewrite Hw;
          [|by apply lookup_insert_eq].
        pose proof (Hs e He Hen). rewrite lookup_insert_ne; [done|]. intros [=]; congruence.
      * intros h' r Hl. rewrite Hw in Hl. apply lookup_insert_Some in Hl as [[Heq <-]|[Hne Hl]].
        { injection Heq as <-. eexists. split; [by apply elem_of_app; right; apply list_elem_of_singleton|done]. }
        destruct (Hx h' r Hl) as (e & He & Hrest). exists e. split; [set_solver+He|done].
Qed.

Lemma restore_inv_loop hdl w pre rest c :
  restore_inv hdl w pre rest c ->
  let '((c', w'), rest') :=
    loop_accum (fun s e => if negb (private_ip e =? 0) then restore_slot hdl s e else (s, e))
      (c, w) rest in
  restore_inv hdl w' (pre ++ rest') [] c'.
Proof.
  revert pre c w. induction rest as [|x rest IH]; intros pre c w Hi; simpl; [by rewrite app_nil_r|].
  pose proof (restore_inv_step _ _ _ _ _ _ Hi) as Hs.
  destruct (if negb (private_ip x =? 0) then _ else _) as [[c1 w1] x'].
  specialize (IH _ _ _ Hs). destruct (loop_accum _ _ _) as [[c2 w2] rest'].
  by rewrite <- app_assoc in IH.
Qed.

Lemma AddTable_mirror pub_ip st w :
  natapp_wf st ->
  (pub_ip = pub_ip_addr_pre st \/ Forall (fun e => enabled e = false) (cache st)) ->
  let '(ret, st', w') := AddTable pub_ip st w in
  ret = 0 -> natapp_inv st' w' /\ pub_ip_addr st' = pub_ip.
Proof.
  intros [Hc _ _ _] Hip. unfold AddTable.
  pose proof (drv_add_tbl pub_ip (trunc 16 (max_entries st)) (nat_table_hdl st) w) as Ht.
  destruct (ipa_nat_add_ipv4_tbl _ _ _ _) as [[ret h] w1]. destruct Ht as [Hw Hfresh].
  destruct (ret =? 0) eqn:Er; simpl; [|bool_to_prop; by intros]. bool_to_prop. subst ret.
  assert (forall k, drv_rules w1 !! (h, k) = None) as Hnone by (intros; rewrite Hw; auto).
  assert (drv_exact h w1 []) as Hex by (intros k r Hk; by rewrite Hnone in Hk).
  assert (drv_sync h w1 []) as Hsn by (intros e He; by apply not_elem_of_nil in He).
  destruct (pub_ip =? pub_ip_addr_pre st) eqn:E.
  - pose proof (restore_inv_loop h w1 [] (cache st) (curCnt st)) as Hr.
    destruct (loop_accum _ _ _) as [[c' w2] l']. intros _. split; [|done].
    destruct Hr as [H1' H2' H3']; [by constructor|]. rewrite app_nil_r in *.
    by constructor.
  - bool_to_prop. destruct Hip as [?|Hip]; [done|]. intros _. split; [|done].
    constructor; simpl; [done| |].
    + intros e He Hen. eapply Forall_forall in Hip; [|done]. simpl in Hip. congruence.
    + intros _ k r Hk. by rewrite Hnone in Hk.
Qed.
End session.
