(* ===== verification/NatAppProps.v ===== *)
(** * What the NAT cache promises

    The abstract view of a [NatApp] object is a finite map from connections to
    what is remembered of them ([conn_map]) next to the driver's rules.  The
    theorems state each operation on that view, on every branch. *)
From S2P Require Import Prelude Defs Config NatDrv NatApp NatAppSync.
From stdpp Require Import base list gmap.
From Stdlib Require Import ZArith Lia.

Open Scope Z_scope.

(** ** The abstract view *)

Record conn_state := { cs_public_port : Z; cs_dst_nat : bool; cs_enabled : bool }.

Definition conn_of (e : nat_table_entry) : conn_state :=
  {| cs_public_port := public_port e; cs_dst_nat := dst_nat e; cs_enabled := enabled e |}.

Abbreviation connection := (Z * Z * Z * Z * Z)%type.
Abbreviation hw_rules := (gmap (Z * Z) ipa_nat_ipv4_rule).

Definition conn_map (l : list nat_table_entry) : gmap connection conn_state :=
  conn_of <$> cache_map l.

(** The connection a hardware rule serves. *)
Definition rule_key (r : ipa_nat_ipv4_rule) : connection :=
  (r_private_ip r, r_target_ip r, r_private_port r, r_target_port r, r_protocol r).

(** One of the ports of the connection belongs to an application-layer gateway. *)
Definition alg_conn (st : NatApp) (rule : nat_table_entry) : Prop :=
  exists a, a ∈ pALGPorts st /\ alg_protocol a = protocol rule /\
    (alg_port a = private_port rule \/ alg_port a = target_port rule).

(** One of the ends of the connection is a client in power save. *)
Definition saving_conn (st : NatApp) (rule : nat_table_entry) : Prop :=
  exists ip, ip ∈ PwrSaveIfs st /\ ip <> 0 /\ (ip = private_ip rule \/ ip = target_ip rule).

(** The specification of [AddEntry]: result, connections and hardware rules
    after the call, from those before it. *)
Inductive AddEntrySpec (st : NatApp) (rule : nat_table_entry)
    (m : gmap connection conn_state) (R : hw_rules) :
    Z -> gmap connection conn_state -> hw_rules -> Prop :=
  | add_no_table : nat_table_hdl st = 0 -> AddEntrySpec st rule m R (-1) m R
  | add_alg : nat_table_hdl st <> 0 -> alg_conn st rule -> AddEntrySpec st rule m R (-1) m R
  | add_invalid : nat_table_hdl st <> 0 -> ~ alg_conn st rule -> invalid_conn rule = true ->
      AddEntrySpec st rule m R 0 m R
  | add_dup : nat_table_hdl st <> 0 -> ~ alg_conn st rule -> invalid_conn rule = false ->
      is_Some (m !! conn_key rule) -> AddEntrySpec st rule m R (-1) m R
  | add_full : nat_table_hdl st <> 0 -> ~ alg_conn st rule -> invalid_conn rule = false ->
      m !! conn_key rule = None -> Z.of_nat (size m) = max_entries st ->
      AddEntrySpec st rule m R (-1) m R
  | add_saving : nat_table_hdl st <> 0 -> ~ alg_conn st rule -> invalid_conn rule = false ->
      m !! conn_key rule = None -> Z.of_nat (size m) < max_entries st -> saving_conn st rule ->
      AddEntrySpec st rule m R 0
        (<[conn_key rule := {| cs_public_port := public_port rule; cs_dst_nat := dst_nat rule;
                               cs_enabled := false |}]> m) R
  | add_refused ret : nat_table_hdl st <> 0 -> ~ alg_conn st rule -> invalid_conn rule = false ->
      m !! conn_key rule = None -> Z.of_nat (size m) < max_entries st -> ~ saving_conn st rule ->
      ret = -1 -> AddEntrySpec st rule m R ret m R
  | add_done h : nat_table_hdl st <> 0 -> ~ alg_conn st rule -> invalid_conn rule = false ->
      m !! conn_key rule = None -> Z.of_nat (size m) < max_entries st -> ~ saving_conn st rule ->
      R !! (nat_table_hdl st, h) = None ->
      AddEntrySpec st rule m R 0
        (<[conn_key rule := {| cs_public_port := public_port rule; cs_dst_nat := dst_nat rule;
                               cs_enabled := true |}]> m)
        (<[(nat_table_hdl st, h) := nat_rule_of rule]> R).

(** ** Lemmas on the view *)

Lemma cache_map_lookup l c k e :
  cache_wf l c -> cache_map l !! k = Some e <-> e ∈ l /\ slot_free e = false /\ conn_key e = k.
Proof.
  intros [_ Hnd _]. unfold cache_map. rewrite <- elem_of_list_to_map by done.
  unfold occ_pairs. rewrite list_elem_of_omap. unfold occ_pair. split.
  - intros (e' & He & Hp). destruct (slot_free e') eqn:Hf; simplify_eq. auto.
  - intros (He & Hf & <-). exists e. by rewrite Hf.
Qed.

Lemma cache_map_size l c : cache_wf l c -> Z.of_nat (size (cache_map l)) = c.
Proof.
  intros [_ Hnd ->]. f_equal. unfold cache_map, occ_keys in *. rewrite length_fmap.
  generalize dependent (occ_pairs l). intros ps Hnd. induction ps as [|[k e] ps IH]; simpl; [done|].
  apply NoDup_cons in Hnd as [Hk Hnd]. rewrite map_size_insert_None; [by rewrite IH|].
  by apply not_elem_of_list_to_map_1.
Qed.

Lemma cache_map_fill pre x x' post c :
  slot_free x = true -> slot_free x' = false ->
  cache_wf (pre ++ x :: post) c -> cache_wf (pre ++ x' :: post) (c + 1) ->
  cache_map (pre ++ x' :: post) = <[conn_key x' := x']> (cache_map (pre ++ x :: post)).
Proof.
  intros Hf Hf' Hwf Hwf'. apply map_eq. intros k. apply option_eq. intros e.
  rewrite (cache_map_lookup _ _ _ _ Hwf'), lookup_insert_Some, (cache_map_lookup _ _ _ _ Hwf).
  rewrite !elem_of_middle. split.
  - intros ([->|He] & Hfe & <-); [by left|]. right. split; [|by auto].
    intros Heq. by eapply (cache_wf_other_key pre x' post _ e).
  - intros [[<- <-]|(Hne & [->|He] & Hfe & <-)]; [by auto|congruence|by auto].
Qed.

Lemma cache_map_clear pre x post c :
  slot_free x = false -> cache_wf (pre ++ x :: post) c ->
  cache_map (pre ++ entry_zero :: post) = delete (conn_key x) (cache_map (pre ++ x :: post)).
Proof.
  intros Hf Hwf. pose proof (cache_wf_clear _ _ _ _ Hf Hwf) as Hwf'.
  apply map_eq. intros k. apply option_eq. intros e.
  rewrite (cache_map_lookup _ _ _ _ Hwf'), lookup_delete_Some, (cache_map_lookup _ _ _ _ Hwf).
  rewrite !elem_of_middle. split.
  - intros ([->|He] & Hfe & <-); [done|]. split; [|by auto].
    intros Heq. by eapply (cache_wf_other_key pre x post _ e).
  - intros (Hne & [->|He] & Hfe & <-); [congruence|by auto].
Qed.

(** A slot change that keeps the connection keeps the connections known. *)
Lemma cache_map_free pre x x' post :
  slot_free x = true -> slot_free x' = true ->
  cache_map (pre ++ x' :: post) = cache_map (pre ++ x :: post).
Proof.
  intros Hf Hf'. unfold cache_map, occ_pairs. f_equal.
  rewrite !omap_app. simpl. assert (occ_pair x = None) as -> by (unfold occ_pair; by rewrite Hf).
  assert (occ_pair x' = None) as -> by (unfold occ_pair; by rewrite Hf'). done.
Qed.

Lemma ChkForDup_map rule st c :
  cache_wf (cache st) c -> slot_free rule = false ->
  ChkForDup rule st = true <-> is_Some (conn_map (cache st) !! conn_key rule).
Proof.
  intros Hwf Hf. unfold conn_map. rewrite lookup_fmap, fmap_is_Some.
  unfold ChkForDup. rewrite existsb_exists. split.
  - intros (e & He%list_elem_of_In & Hk%same_conn_key). exists e.
    apply (cache_map_lookup _ _ _ _ Hwf). split_and!; [done| |done]. by rewrite (slot_free_ext _ _ Hk).
  - intros (e & (He & _ & Hk)%(cache_map_lookup _ _ _ _ Hwf)). exists e.
    split; [by apply list_elem_of_In|by apply same_conn_key].
Qed.

Lemma isAlgPort_conn rule st :
  isAlgPort (protocol rule) (private_port rule) st ||
  isAlgPort (protocol rule) (target_port rule) st = true <-> alg_conn st rule.
Proof.
  unfold isAlgPort, alg_conn. rewrite orb_true_iff, !existsb_exists.
  setoid_rewrite andb_true_iff. setoid_rewrite Z.eqb_eq. setoid_rewrite <- list_elem_of_In.
  naive_solver.
Qed.

Lemma isPwrSaveIf_conn rule st :
  isPwrSaveIf (private_ip rule) st || isPwrSaveIf (target_ip rule) st = true <->
  saving_conn st rule.
Proof.
  unfold isPwrSaveIf, saving_conn. rewrite orb_true_iff, !existsb_exists.
  setoid_rewrite andb_true_iff. setoid_rewrite negb_true_iff. setoid_rewrite Z.eqb_eq.
  setoid_rewrite Z.eqb_neq. setoid_rewrite <- list_elem_of_In. naive_solver.
Qed.

(** No slot is free exactly when there are as many connections as slots. *)
Lemma find_free_room st :
  natapp_wf st ->
  match find_index slot_free (cache st) with
  | None => Z.of_nat (size (conn_map (cache st))) = max_entries st
  | Some _ => Z.of_nat (size (conn_map (cache st))) < max_entries st
  end.
Proof.
  intros [Hc Hl _ _]. unfold conn_map. rewrite map_size_fmap, (cache_map_size _ _ Hc), (cw_cnt _ _ Hc), <- Hl.
  destruct (find_index slot_free (cache st)) as [i|] eqn:E.
  - destruct (find_index_split _ _ _ E) as (pre & x & post & -> & _ & Hf & _).
    enough (forall l, (length (occ_keys l) <= length l)%nat) as Hle.
    { rewrite occ_keys_app, occ_keys_cons, Hf, !length_app. simpl.
      pose proof (Hle pre). pose proof (Hle post). lia. }
    intros l. induction l as [|y l IH]; [done|]. rewrite occ_keys_cons, length_app. simpl.
    destruct (slot_free y); simpl; lia.
  - apply find_index_None in E. f_equal. clear -E. induction E as [|y l Hy _ IH]; [done|].
    rewrite occ_keys_cons, length_app, Hy. simpl. by rewrite IH.
Qed.

(** ** The operations against the view *)

Section view.
Context {W : Type} `{NfctLaws W}.
Implicit Types (w : W) (st : NatApp).

(** The part of [AddEntry] behind the guards, on a split cache. *)
Lemma AddEntry_place rule st w pre x post ret st' w' :
  natapp_wf st -> cache st = pre ++ x :: post -> Forall (fun y => slot_free y = false) pre ->
  slot_free x = true -> nat_table_hdl st <> 0 -> ~ alg_conn st rule -> invalid_conn rule = false ->
  ChkForDup rule st = false -> AddEntry rule st w = (ret, st', w') ->
  (saving_conn st rule /\ ret = 0 /\ w' = w /\
     cache st' = pre ++ fill_slot rule (x <| enabled := false |> <| rule_hdl := 0 |>) :: post) \/
  (~ saving_conn st rule /\ ret = -1 /\ drv_rules w' = drv_rules w /\
     exists h, cache st' = pre ++ x <| rule_hdl := h |> :: post) \/
  (~ saving_conn st rule /\ ret = 0 /\ exists h,
     drv_rules w !! (nat_table_hdl st, h) = None /\
     drv_rules w' = <[(nat_table_hdl st, h) := nat_rule_of rule]> (drv_rules w) /\
     cache st' = pre ++ fill_slot rule (x <| rule_hdl := h |> <| enabled := true |>) :: post).
Proof.
  intros _ Hc Hpre Hf Hh Ha Hv Hd. unfold AddEntry.
  rewrite (proj2 (Z.eqb_neq _ _) Hh).
  destruct (_ || _) eqn:Ea; [by apply isAlgPort_conn in Ea|]. rewrite Hv, Hd.
  assert (find_index slot_free (cache st) = Some (length pre)) as ->.
  { rewrite Hc. clear -Hpre Hf. induction Hpre as [|y pre Hy _ IH]; simpl; [by rewrite Hf|].
    by rewrite Hy, IH. }
  rewrite Hc, nth_middle. pose proof (isPwrSaveIf_conn rule st) as Hs.
  destruct (isPwrSaveIf _ _ || _); intros Heq.
  - rewrite insert_middle in Heq. injection Heq as <- <- <-. left.
    split_and!; [by apply Hs|done..].
  - right. assert (~ saving_conn st rule) as Hn by (intros ?%Hs; done).
    pose proof (drv_add_rule (nat_table_hdl st) (nat_rule_of rule) (rule_hdl x) w) as Hadd.
    destruct (ipa_nat_add_ipv4_rule _ _ _ _) as [[r h] w1].
    rewrite !insert_middle in Heq. destruct Hadd as [[Hr Hw]|(Hr & Hnone & Hw)].
    + rewrite (proj2 (Z.ltb_lt _ _)) in Heq by done. injection Heq as <- <- <-.
      left. split_and!; [done..|]. by exists h.
    + rewrite (proj2 (Z.ltb_ge _ _)) in Heq by done. injection Heq as <- <- <-.
      right. split_and!; [done..|]. by exists h.
Qed.

(** What the slots hold, from the three outcomes of [AddEntry_place]. *)
Lemma conn_map_fill rule e pre x post c :
  slot_free x = true -> invalid_conn rule = false ->
  existsb (same_conn rule) (pre ++ x :: post) = false -> cache_wf (pre ++ x :: post) c ->
  conn_map (pre ++ fill_slot rule e :: post) =
    <[conn_key rule := {| cs_public_port := public_port rule; cs_dst_nat := dst_nat rule;
                          cs_enabled := enabled e |}]> (conn_map (pre ++ x :: post)).
Proof.
  intros Hf Hv Hd Hwf. unfold conn_map.
  rewrite (cache_map_fill pre x (fill_slot rule e) post c), fmap_insert; [done|done| |done|].
  - by apply valid_not_free in Hv.
  - by eapply fill_slot_wf.
Qed.

Lemma AddEntry_view rule st w ret st' w' :
  natapp_wf st -> AddEntry rule st w = (ret, st', w') ->
  AddEntrySpec st rule (conn_map (cache st)) (drv_rules w)
    ret (conn_map (cache st')) (drv_rules w').
Proof.
  intros Hwf Hadd. pose proof (find_free_room st Hwf) as Hroom. pose proof Hwf as [Hc _ _ _].
  destruct (decide (nat_table_hdl st = 0)) as [Hh|Hh].
  { unfold AddEntry in Hadd. rewrite Hh in Hadd. simplify_eq/=. by constructor. }
  pose proof (isAlgPort_conn rule st) as Ha. destruct (_ || _) eqn:Ea.
  { unfold AddEntry in Hadd. rewrite (proj2 (Z.eqb_neq _ _) Hh), Ea in Hadd. simplify_eq.
    apply add_alg; [done|by apply Ha]. }
  assert (~ alg_conn st rule) as Hna by (intros ?%Ha; done). clear Ha.
  destruct (invalid_conn rule) eqn:Hv.
  { unfold AddEntry in Hadd. rewrite (proj2 (Z.eqb_neq _ _) Hh), Ea, Hv in Hadd. simplify_eq.
    by apply add_invalid. }
  pose proof (ChkForDup_map rule st _ Hc (valid_not_free _ Hv)) as Hdup.
  destruct (ChkForDup rule st) eqn:Hd.
  { unfold AddEntry in Hadd. rewrite (proj2 (Z.eqb_neq _ _) Hh), Ea, Hv, Hd in Hadd. simplify_eq.
    apply add_dup; try done. by apply Hdup. }
  assert (conn_map (cache st) !! conn_key rule = None) as Hnew.
  { apply eq_None_not_Some. intros ?%Hdup. done. }
  destruct (find_index slot_free (cache st)) as [i|] eqn:Ei.
  2: { unfold AddEntry in Hadd. rewrite (proj2 (Z.eqb_neq _ _) Hh), Ea, Hv, Hd, Ei in Hadd.
       simplify_eq. by apply add_full. }
  destruct (find_index_split _ _ _ Ei) as (pre & x & post & Hsplit & Hi & Hf & Hpre).
  destruct (AddEntry_place _ _ _ _ _ _ _ _ _ Hwf Hsplit Hpre Hf Hh Hna Hv Hd Hadd)
    as [(Hs & -> & -> & ->)|[(Hs & -> & -> & h & ->)|(Hs & -> & h & Hn & -> & ->)]];
    unfold ChkForDup in Hd; rewrite Hsplit in *.
  - erewrite conn_map_fill by done. by apply add_saving.
  - unfold conn_map. rewrite (cache_map_free pre x (x <| rule_hdl := h |>)) by done. by apply add_refused.
  - erewrite conn_map_fill by done. by apply add_done.
Qed.

(** C2. [NatApp::AddEntry] implements its specification on every branch: the
  connection is recorded once, only while a table exists and no port belongs
  to a gateway; a connection of a client in power save is recorded without a
  hardware rule; a refusal by the driver leaves connections and rules as they
  were. *)
Theorem AddEntry_refines rule st w ret st' w' :
  natapp_wf st -> AddEntry rule st w = (ret, st', w') ->
  AddEntrySpec st rule (conn_map (cache st)) (drv_rules w)
    ret (conn_map (cache st')) (drv_rules w').
Proof. apply AddEntry_view. Qed.

(** The rules the table would hold after the removal of those that satisfy [P]. *)
Definition without (hdl : Z) (P : ipa_nat_ipv4_rule -> Prop) `{forall r, Decision (P r)}
    (R : hw_rules) : hw_rules :=
  filter (fun kv => ~ (fst (fst kv) = hdl /\ P (snd kv))) R.

Lemma without_id hdl (P : ipa_nat_ipv4_rule -> Prop) `{forall r, Decision (P r)} R :
  (forall h r, R !! (hdl, h) = Some r -> ~ P r) -> without hdl P R = R.
Proof.
  intros Hn. apply map_filter_id. intros [t h] r Hr [Ht Hp]. simpl in *. subst t. by eapply Hn.
Qed.

Lemma without_delete hdl (P : ipa_nat_ipv4_rule -> Prop) `{forall r, Decision (P r)} R h0 r0 :
  R !! (hdl, h0) = Some r0 -> P r0 ->
  (forall h r, R !! (hdl, h) = Some r -> P r -> h = h0) ->
  without hdl P R = delete (hdl, h0) R.
Proof.
  intros H0' Hp Hu. apply map_eq. intros [t h]. apply option_eq. intros r.
  unfold without. rewrite map_lookup_filter_Some, lookup_delete_Some. simpl. split.
  - intros [Hr Hn]. split; [|done]. intros [= <- <-]. simplify_eq. tauto.
  - intros [Hne Hr]. split; [done|]. intros [-> Hpr]. apply Hne. f_equal. symmetry. by eapply Hu.
Qed.

Lemma rule_key_of e : rule_key (nat_rule_of e) = conn_key e.
Proof. done. Qed.

(** Under the mirror invariant a rule of the table serves a known connection,
    and a connection has at most one rule. *)
Lemma mirror_rule_entry st w h r :
  natapp_inv true st w -> drv_rules w !! (nat_table_hdl st, h) = Some r ->
  exists e, cache_map (cache st) !! rule_key r = Some e /\ enabled e = true /\
    rule_hdl e = h /\ nat_rule_of e = r.
Proof.
  intros [Hwf _ Hx] Hr. destruct (Hx eq_refl h r Hr) as (e & He & Hen & Hh & Hre).
  exists e. split_and!; auto. apply (cache_map_lookup _ _ _ _ Hwf). split_and!; [done| |by subst r].
  by eapply enabled_not_free.
Qed.

Lemma mirror_rule_unique st w h h' r r' :
  natapp_inv true st w -> drv_rules w !! (nat_table_hdl st, h) = Some r ->
  drv_rules w !! (nat_table_hdl st, h') = Some r' -> rule_key r = rule_key r' -> h = h'.
Proof.
  intros Hinv H1' H2' Hk. destruct (mirror_rule_entry _ _ _ _ Hinv H1') as (e & He & _ & <- & _).
  destruct (mirror_rule_entry _ _ _ _ Hinv H2') as (e' & He' & _ & <- & _). congruence.
Qed.
End view.

Section reliable.
Context {W : Type} `{NfctLaws W} `{!NatDrvReliable W}.
Implicit Types (w : W) (st : NatApp).

Lemma reliable_strict : true = true -> forall t h r w,
  drv_rules w !! (t, h) = Some r -> 0 <= fst (ipa_nat_del_ipv4_rule t h w).
Proof. intros _. apply drv_del_ok. Qed.

Lemma DeleteEntry_view rule st w ret st' w' :
  natapp_inv true st w -> slot_free rule = false -> DeleteEntry rule st w = (ret, st', w') ->
  ret = 0 /\ conn_map (cache st') = delete (conn_key rule) (conn_map (cache st)) /\
  drv_rules w' = without (nat_table_hdl st) (fun r => rule_key r = conn_key rule) (drv_rules w).
Proof.
  intros Hinv Hf. pose proof Hinv as [Hwf Hs Hx]. unfold DeleteEntry.
  destruct (find_index _ (cache st)) as [i|] eqn:Ei; intros Heq.
  - destruct (find_index_split _ _ _ Ei) as (pre & x & post & Hsplit & Hi & Hk & _).
    apply same_conn_key in Hk. rewrite <- (slot_free_ext _ _ Hk) in Hf. subst i.
    assert (x ∈ cache st) as Hin by (rewrite Hsplit; by apply elem_of_middle; left).
    pose proof (del_rule_cases true reliable_strict _ w _ _ x Hinv Hin) as Hd.
    rewrite Hsplit, nth_middle, insert_middle in Heq. injection Heq as <- <- <-. simpl.
    split_and!; [done| |].
    + unfold conn_map. rewrite Hsplit in *. by rewrite (cache_map_clear _ _ _ _ Hf Hwf), fmap_delete, Hk.
    + destruct (enabled x) eqn:Hen.
      * specialize (Hd eq_refl). destruct (ipa_nat_del_ipv4_rule _ _ _) as [r w1]. simpl.
        destruct Hd as [(_ & _ & ?)|(_ & ->)]; [done|]. symmetry.
        apply (without_delete _ _ _ _ (nat_rule_of x)); [by apply Hs|done|].
        intros h r' Hr' Hk'. eapply (mirror_rule_unique st w); eauto.
        by rewrite rule_key_of, Hk.
      * rewrite without_id; [done|]. intros h r Hr Hkr.
        destruct (mirror_rule_entry _ _ _ _ Hinv Hr) as (e & He & Hee & _).
        apply (cache_map_lookup _ _ _ _ Hwf) in He as (He & _ & Hke).
        rewrite Hsplit in *. apply elem_of_middle in He as [->|He]; [congruence|].
        eapply (cache_wf_other_key pre x post _ e); [done|done|done|congruence].
  - simplify_eq. assert (conn_map (cache st') !! conn_key rule = None) as Hn.
    { apply eq_None_not_Some. intros Hd%(ChkForDup_map _ _ _ Hwf Hf).
      unfold ChkForDup in Hd. apply existsb_exists in Hd as (e & He%list_elem_of_In & Hk).
      apply find_index_None in Ei. rewrite Forall_forall in Ei. by rewrite (Ei e He) in Hk. }
    split_and!; [done|by rewrite delete_id|].
    rewrite without_id; [done|]. intros h r Hr Hkr.
    destruct (mirror_rule_entry _ _ _ _ Hinv Hr) as (e & He & _).
    unfold conn_map in Hn. rewrite lookup_fmap, <- Hkr, He in Hn. done.
Qed.

(** [NatApp::DeleteEntry] forgets exactly the connection it is given and
  takes exactly that connection's rule out of the hardware table. *)
Theorem DeleteEntry_refines rule st w ret st' w' :
  natapp_inv true st w -> slot_free rule = false -> DeleteEntry rule st w = (ret, st', w') ->
  ret = 0 /\ conn_map (cache st') = delete (conn_key rule) (conn_map (cache st)) /\
  drv_rules w' = without (nat_table_hdl st) (fun r => rule_key r = conn_key rule) (drv_rules w) /\
  natapp_inv true st' w'.
Proof.
  intros Hinv Hf Hd. pose proof (DeleteEntry_mirror true reliable_strict _ _ _ Hf Hinv) as Hm.
  destruct (DeleteEntry_view _ _ _ _ _ _ Hinv Hf Hd) as (? & ? & ?). by rewrite Hd in Hm.
Qed.

(** Adding a connection that is not known and deleting it again, whatever
    became of the addition. *)
Lemma add_delete_view rule st w r1 st1 w1 ret st2 w2 :
  natapp_wf st -> natapp_inv true st w -> slot_free rule = false ->
  conn_map (cache st) !! conn_key rule = None ->
  AddEntry rule st w = (r1, st1, w1) -> DeleteEntry rule st1 w1 = (ret, st2, w2) ->
  ret = 0 /\ conn_map (cache st2) = conn_map (cache st) /\ drv_rules w2 = drv_rules w.
Proof.
  intros Hwf Hinv Hv Hnew Hadd Hdel. pose proof (AddEntry_view _ _ _ _ _ _ Hwf Hadd) as Hspec.
  pose proof (AddEntry_frame rule st w) as Hfr. pose proof (AddEntry_mirror true rule st w Hinv) as Hm.
  rewrite Hadd in Hfr, Hm. destruct Hfr as (_ & _ & Hh & _).
  destruct (DeleteEntry_view _ _ _ _ _ _ Hm Hv Hdel) as (-> & -> & ->).
  rewrite Hh. assert (forall h r, drv_rules w !! (nat_table_hdl st, h) = Some r ->
    rule_key r <> conn_key rule) as Hno.
  { intros h r Hr Hk. destruct (mirror_rule_entry _ _ _ _ Hinv Hr) as (e & He & _).
    unfold conn_map in Hnew. rewrite lookup_fmap, <- Hk, He in Hnew. done. }
  pose proof (without_id (nat_table_hdl st) (fun r => rule_key r = conn_key rule) _ Hno) as Hid.
  inversion Hspec; subst;
    try (split_and!; [done|by first [apply delete_id|apply delete_insert_id]|done]).
  split_and!; [done|by apply delete_insert_id|].
  rewrite (without_delete _ _ _ h (nat_rule_of rule)); [|apply lookup_insert_eq|done|].
  - by rewrite delete_insert_id.
  - intros h' r Hr Hk. apply lookup_insert_Some in Hr as [[Heq _]|[_ Hr]]; [congruence|]. by destruct (Hno h' r).
Qed.

(** A new connection that [AddEntry] accepts and [DeleteEntry] then removes
  leaves the connections and the hardware rules as they were. *)
Theorem AddEntry_DeleteEntry_roundtrip rule st w st1 w1 ret st2 w2 :
  natapp_wf st -> natapp_inv true st w -> invalid_conn rule = false ->
  conn_map (cache st) !! conn_key rule = None ->
  AddEntry rule st w = (0, st1, w1) -> DeleteEntry rule st1 w1 = (ret, st2, w2) ->
  ret = 0 /\ conn_map (cache st2) = conn_map (cache st) /\ drv_rules w2 = drv_rules w.
Proof. intros ?? Hv. apply add_delete_view; [done..|]. by apply valid_not_free. Qed.

(** *** Power save *)

Definition pwr_saved (ip : Z) (e : nat_table_entry) : nat_table_entry :=
  if (private_ip e =? ip) && enabled e then e <| enabled := false |> <| rule_hdl := 0 |> else e.

Lemma pwr_save_loop ip hdl c w l :
  cache_inv true hdl w l c ->
  let '(w', l') := loop_accum (pwr_save_slot ip hdl) w l in
  l' = map (pwr_saved ip) l /\ cache_inv true hdl w' l' c.
Proof.
  intros Hinv. pose proof (loop_accum_map (fun w l => cache_inv true hdl w l c) (pwr_saved ip)
    (pwr_save_slot ip hdl) w l) as Hm.
  destruct (loop_accum _ _ _) as [w' l']. simpl in Hm. destruct Hm as [-> Hm]; [|done|done].
  intros w1 pre x post Hs. pose proof (pwr_save_slot_inv true reliable_strict ip _ _ _ _ _ _ Hs) as Hp.
  pose proof (del_rule_cases true reliable_strict _ w1 _ _ x Hs ltac:(apply elem_of_middle; auto)) as Hd.
  unfold pwr_save_slot, pwr_saved in *. destruct (_ && _) eqn:E; [|done]. bool_to_prop.
  specialize (Hd ltac:(done)). destruct (ipa_nat_del_ipv4_rule _ _ _) as [r w2].
  destruct Hd as [(_ & _ & ?)|(Hr & _)]; [done|].
  rewrite (proj2 (Z.ltb_ge _ _)) in * by done. done.
Qed.

Lemma conn_map_lookup l c k cs :
  cache_wf l c -> conn_map l !! k = Some cs <->
  exists e, e ∈ l /\ slot_free e = false /\ conn_key e = k /\ conn_of e = cs.
Proof.
  intros Hwf. unfold conn_map. rewrite lookup_fmap, fmap_Some. setoid_rewrite (cache_map_lookup _ _ _ _ Hwf).
  naive_solver.
Qed.

(** Slot updates that keep the connection act pointwise on the map. *)
Lemma conn_map_map (g : nat_table_entry -> nat_table_entry) (f : connection -> conn_state -> conn_state)
    l c :
  (forall e, conn_key (g e) = conn_key e) ->
  (forall e, slot_free e = false -> conn_of (g e) = f (conn_key e) (conn_of e)) ->
  cache_wf l c -> cache_wf (map g l) c -> conn_map (map g l) = map_imap (fun k cs => Some (f k cs)) (conn_map l).
Proof.
  intros Hk Hf Hwf Hwf'. apply map_eq. intros k. apply option_eq. intros cs.
  rewrite map_lookup_imap, bind_Some. rewrite (conn_map_lookup _ _ _ _ Hwf'). split.
  - intros (e' & (e & -> & He)%list_elem_of_fmap & Hfr & <- & <-).
    rewrite Hk. rewrite (slot_free_ext _ _ (Hk e)) in Hfr. exists (conn_of e).
    rewrite (conn_map_lookup _ _ _ _ Hwf), Hf by done. split; [by exists e|done].
  - intros (cs0 & (e & He & Hfr & <- & <-)%(conn_map_lookup _ _ _ _ Hwf) & [= <-]).
    exists (g e). rewrite (slot_free_ext _ _ (Hk e)), Hk, Hf by done.
    split_and!; [by apply list_elem_of_fmap; exists e|done..].
Qed.

Definition key_private (k : connection) : Z := let '(p, _, _, _, _) := k in p.
Definition key_target (k : connection) : Z := let '(_, t, _, _, _) := k in t.

(** The hardware side of a step after which exactly the rules of entries that
    satisfy [P] are gone. *)
Lemma mirror_filtered (P : ipa_nat_ipv4_rule -> Prop) hdl w w' l l' c c' h r :
  cache_inv true hdl w l c -> cache_inv true hdl w' l' c' ->
  (forall e, e ∈ l' -> enabled e = true -> e ∈ l /\ ~ P (nat_rule_of e)) ->
  (forall e, e ∈ l -> enabled e = true -> ~ P (nat_rule_of e) -> e ∈ l') ->
  drv_rules w' !! (hdl, h) = Some r <-> drv_rules w !! (hdl, h) = Some r /\ ~ P r.
Proof.
  intros [_ Hs Hx] [_ Hs' Hx'] Hl Hr. split.
  - intros H'. destruct (Hx' eq_refl h r H') as (e & He & Hen & <- & <-).
    destruct (Hl e He Hen). split; [by apply Hs|done].
  - intros [H' Hp]. destruct (Hx eq_refl h r H') as (e & He & Hen & <- & <-).
    apply Hs'; [by apply Hr|done].
Qed.

(** [NatApp::UpdatePwrSaveIf] of a client that was not in power save keeps
  every connection known, disables exactly those of that client, takes
  exactly their rules out of the hardware table and records the client when
  the power-save list has room. *)
Theorem UpdatePwrSaveIf_view ip st w ret st' w' :
  natapp_inv true st w -> ip <> 0 -> (ip ∉ PwrSaveIfs st) ->
  UpdatePwrSaveIf ip st w = (ret, st', w') ->
  ret = 0 /\ natapp_inv true st' w' /\ (0 ∈ PwrSaveIfs st -> ip ∈ PwrSaveIfs st') /\
  conn_map (cache st') = map_imap (fun k cs => Some
    (if key_private k =? ip
     then {| cs_public_port := cs_public_port cs; cs_dst_nat := cs_dst_nat cs; cs_enabled := false |}
     else cs)) (conn_map (cache st)) /\
  forall h r, drv_rules w' !! (nat_table_hdl st, h) = Some r <->
    drv_rules w !! (nat_table_hdl st, h) = Some r /\ ~ r_private_ip r = ip.
Proof.
  intros Hinv Hip Hnew Heq. pose proof (pwr_save_loop ip _ _ _ _ Hinv) as Hl.
  unfold UpdatePwrSaveIf, INVALID_IP_ADDR in Heq. rewrite (proj2 (Z.eqb_neq _ _) Hip) in Heq.
  destruct (existsb _ _) eqn:Ee.
  { apply existsb_exists in Ee as (p & Hp%list_elem_of_In & E). bool_to_prop. by subst. }
  simpl in Heq. destruct (loop_accum _ _ _) as [w1 l']. injection Heq as <- <- <-. simpl.
  destruct Hl as [-> Hm]. split_and!; [done|done| | |].
  - intros H0'. destruct (update_first_cases (fun p => p =? 0) (fun _ => ip) (PwrSaveIfs st))
      as [[Hall ->]|(pre & x & post & _ & _ & _ & ->)]; [|set_solver+].
    rewrite Forall_forall in Hall. by specialize (Hall 0 H0').
  - eapply (conn_map_map _ (fun k cs => if key_private k =? ip then _ else cs));
      [| |apply Hinv|apply Hm]; intros e.
    + unfold pwr_saved. by destruct (_ && _).
    + intros _. unfold pwr_saved, conn_of, key_private, conn_key. simpl.
      destruct (private_ip e =? ip); simpl; [|done]. destruct (enabled e) eqn:E; simpl; [done|by rewrite E].
  - intros h r. eapply (mirror_filtered (fun r => r_private_ip r = ip)); [done|done| |].
    + intros e' (e & -> & He)%list_elem_of_fmap Hen. unfold pwr_saved in *.
      destruct (_ && _) eqn:E; [done|]. split; [done|]. simpl. intros <-.
      by rewrite Z.eqb_refl, Hen in E.
    + intros e He Hen Hn. apply list_elem_of_fmap. exists e. split; [|done]. simpl in Hn.
      unfold pwr_saved. by rewrite (proj2 (Z.eqb_neq _ _) Hn).
Qed.

(** What [ResetPwrSaveIf] does to a slot. *)
Definition slot_reset (ip : Z) (e e' : nat_table_entry) : Prop :=
  if private_ip e =? ip
  then e' = entry_zero \/ (enabled e' = true /\ conn_key e' = conn_key e)
  else e' = e.

Lemma reset_loop_slots ip hdl c w l :
  Forall2 (slot_reset ip) l
    (snd (loop_accum (fun s e => if (private_ip e =? ip) && negb (enabled e)
                                 then restore_slot hdl s e else (s, e)) (c, w) l)).
Proof.
  apply loop_accum_Forall2. intros [c1 w1] e. unfold slot_reset.
  destruct (private_ip e =? ip); simpl; [|done].
  destruct (enabled e) eqn:E; simpl; [by right|].
  destruct (ipa_nat_add_ipv4_rule _ _ _ _) as [[ret h] w2]. destruct (ret <? 0); auto.
Qed.

(** [NatApp::ResetPwrSaveIf] puts every connection of the client that it
  keeps back into the hardware and leaves the connections of other clients
  alone, yet it reports failure whatever happens. *)
Theorem ResetPwrSaveIf_view ip st w ret st' w' :
  natapp_inv true st w -> ip <> 0 -> ResetPwrSaveIf ip st w = (ret, st', w') ->
  ret = -1 /\ natapp_inv true st' w' /\
  (forall k cs, conn_map (cache st') !! k = Some cs -> key_private k = ip -> cs_enabled cs = true) /\
  (forall k, key_private k <> ip -> conn_map (cache st') !! k = conn_map (cache st) !! k).
Proof.
  intros Hinv Hip Heq. pose proof (ResetPwrSaveIf_mirror true ip st w Hinv) as Hm.
  rewrite Heq in Hm. pose proof (ci_wf _ _ _ _ _ Hm) as Hwf'. pose proof (ci_wf _ _ _ _ _ Hinv) as Hwf.
  assert (ret = -1 /\ Forall2 (slot_reset ip) (cache st) (cache st')) as [-> Hall].
  { unfold ResetPwrSaveIf, INVALID_IP_ADDR in Heq. rewrite (proj2 (Z.eqb_neq _ _) Hip) in Heq.
    simpl in Heq. pose proof (reset_loop_slots ip (nat_table_hdl st) (curCnt st) w (cache st)) as Hs.
    destruct (loop_accum _ _ _) as [[c1 w1] l']. by injection Heq as <- <- <-. }
  split_and!; [done|done| |].
  - intros k cs (e' & He' & Hf & <- & <-)%(conn_map_lookup _ _ _ _ Hwf') Hk. simpl in *.
    destruct (Forall2_elem_r _ _ _ _ Hall He') as (e & He & Hr). unfold slot_reset in Hr.
    destruct (Z.eqb_spec (private_ip e) ip); [|by subst]. by destruct Hr as [->|[? _]].
  - intros k Hk. apply option_eq. intros cs.
    rewrite (conn_map_lookup _ _ _ _ Hwf), (conn_map_lookup _ _ _ _ Hwf').
    split; intros (e & He & Hf & <- & <-); simpl in Hk; exists e.
    + destruct (Forall2_elem_r _ _ _ _ Hall He) as (e0 & He0 & Hr). unfold slot_reset in Hr.
      destruct (Z.eqb_spec (private_ip e0) ip); [|by subst].
      destruct Hr as [->|[_ [= Hp]]]; [done|congruence].
    + destruct (Forall2_elem_l _ _ _ _ Hall He) as (e0 & He0 & Hr). unfold slot_reset in Hr.
      rewrite (proj2 (Z.eqb_neq _ _) Hk) in Hr. by subst.
Qed.

(** *** A client of the STA interface goes away *)

Definition sta_cleared (ip : Z) (e : nat_table_entry) : nat_table_entry :=
  if target_ip e =? ip then entry_zero else e.

Lemma sta_discon_loop ip hdl c w l :
  ip <> 0 -> cache_inv true hdl w l c ->
  let '((c', w'), l') := loop_accum (sta_discon_slot ip hdl) (c, w) l in
  l' = map (sta_cleared ip) l /\ cache_inv true hdl w' l' c'.
Proof.
  intros Hip Hinv. pose proof (loop_accum_map (fun s l => cache_inv true hdl (snd s) l (fst s))
    (sta_cleared ip) (sta_discon_slot ip hdl) (c, w) l) as Hm.
  destruct (loop_accum _ _ _) as [[c' w'] l']. simpl in Hm. destruct Hm as [-> Hm]; [|done|done].
  intros [c1 w1] pre x post Hs. simpl in Hs.
  pose proof (sta_discon_slot_inv true reliable_strict ip _ _ _ _ _ _ Hip Hs) as Hp.
  pose proof (del_rule_cases true reliable_strict _ w1 _ _ x Hs ltac:(apply elem_of_middle; auto)) as Hd.
  unfold sta_discon_slot, sta_cleared in *. destruct (_ =? _) eqn:E; [|done].
  destruct (enabled x); [|done]. specialize (Hd eq_refl).
  destruct (ipa_nat_del_ipv4_rule _ _ _) as [r w2]. destruct Hd as [(_ & _ & ?)|(Hr & _)]; [done|].
  rewrite (proj2 (Z.ltb_ge _ _)) in * by done. done.
Qed.

(** [NatApp::DelEntriesOnSTAClntDiscon] forgets exactly the connections to
  the client that left and takes exactly their rules out of the hardware. *)
Theorem DelEntriesOnSTAClntDiscon_view ip st w ret st' w' :
  natapp_inv true st w -> ip <> 0 -> DelEntriesOnSTAClntDiscon ip st w = (ret, st', w') ->
  ret = 0 /\ natapp_inv true st' w' /\
  conn_map (cache st') = filter (fun kcs => key_target (fst kcs) <> ip) (conn_map (cache st)) /\
  forall h r, drv_rules w' !! (nat_table_hdl st, h) = Some r <->
    drv_rules w !! (nat_table_hdl st, h) = Some r /\ ~ r_target_ip r = ip.
Proof.
  intros Hinv Hip Heq. pose proof (sta_discon_loop ip _ _ _ _ Hip Hinv) as Hl.
  unfold DelEntriesOnSTAClntDiscon, INVALID_IP_ADDR in Heq. rewrite (proj2 (Z.eqb_neq _ _) Hip) in Heq.
  destruct (loop_accum _ _ _) as [[c1 w1] l']. injection Heq as <- <- <-. simpl.
  destruct Hl as [-> Hm]. pose proof (ci_wf _ _ _ _ _ Hm) as Hwf'.
  pose proof (ci_wf _ _ _ _ _ Hinv) as Hwf. split_and!; [done|done| |].
  - apply map_eq. intros k. apply option_eq. intros cs.
    rewrite map_lookup_filter_Some, (conn_map_lookup _ _ _ _ Hwf), (conn_map_lookup _ _ _ _ Hwf').
    split.
    + intros (e' & (e & -> & He)%list_elem_of_fmap & Hf & <- & <-). unfold sta_cleared in *.
      destruct (Z.eqb_spec (target_ip e) ip); [done|]. split; [by exists e|done].
    + intros [(e & He & Hf & <- & <-) Hk]. simpl in Hk. exists e. split_and!; [|done..].
      apply list_elem_of_fmap. exists e. split; [|done]. unfold sta_cleared.
      by rewrite (proj2 (Z.eqb_neq _ _) Hk).
  - intros h r. eapply (mirror_filtered (fun r => r_target_ip r = ip)); [done|done| |].
    + intros e' (e & -> & He)%list_elem_of_fmap Hen. unfold sta_cleared in *.
      destruct (Z.eqb_spec (target_ip e) ip); [done|]. by split.
    + intros e He Hen Hn. apply list_elem_of_fmap. exists e. split; [|done]. simpl in Hn.
      unfold sta_cleared. by rewrite (proj2 (Z.eqb_neq _ _) Hn).
Qed.
End reliable.

(** ** The object over its lifetime *)

Lemma NatApp_Init_wf mem cfg st0 :
  length (PwrSaveIfs mem) = IPA_MAX_NUM_WIFI_CLIENTS -> 0 <= GetNatMaxEntries cfg ->
  NatApp_Init (Live cfg) true true (NatApp_ctor mem) = Some (0, st0) -> natapp_wf st0.
Proof.
  intros Hp Hmax. unfold NatApp_Init. simpl.
  destruct (GetAlgPorts _ _) as [[ret [l|]]|]; simpl; [|done..].
  destruct (ret =? 0); [|done]. intros [= <-].
  assert (forall n, occ_keys (replicate n entry_zero) = []) as Hocc.
  { intros n. induction n as [|n IH]; [done|]. simpl. by rewrite occ_keys_cons, IH. }
  constructor; simpl; [|rewrite length_replicate; lia|done|done].
  constructor; rewrite ?Hocc; [by apply Forall_replicate|constructor|done].
Qed.

Section lifetime.
Context {W : Type} `{NfctLaws W}.
Implicit Types (w : W) (st : NatApp).

(** C7. Whatever operations are run on an initialised NAT cache, no connection is
  ever in two slots, no free slot counts as enabled, and the counter of the
  cache is the number of its connections and never exceeds its size. *)
Theorem natapp_reachable_wf mem cfg st0 ops w st' w' :
  length (PwrSaveIfs mem) = IPA_MAX_NUM_WIFI_CLIENTS -> 0 <= GetNatMaxEntries cfg ->
  NatApp_Init (Live cfg) true true (NatApp_ctor mem) = Some (0, st0) ->
  Forall op_ok ops -> run_ops ops st0 w = Some (st', w') ->
  NoDup (occ_keys (cache st')) /\ Forall entry_ok (cache st') /\
  curCnt st' = Z.of_nat (size (conn_map (cache st'))) /\ 0 <= curCnt st' <= max_entries st'.
Proof.
  intros Hp Hmax Hi Hops Hr. pose proof (NatApp_Init_wf _ _ _ Hp Hmax Hi) as Hwf0.
  pose proof (run_ops_wf _ _ _ _ _ Hops Hwf0 Hr) as Hwf.
  pose proof (find_free_room st' Hwf) as Hroom. destruct Hwf as [Hc Hl _ _].
  assert (curCnt st' = Z.of_nat (size (conn_map (cache st')))) as Hcnt.
  { unfold conn_map. by rewrite map_size_fmap, (cache_map_size _ _ Hc). }
  destruct Hc as [Hok Hnd _]. split_and!; [done|done|done|lia|].
  destruct (find_index _ _); lia.
Qed.

(** The cache mirrors the table: the rule of every enabled connection is in it
    and, with [strict], nothing else is. *)
Definition hw_mirror (strict : bool) st w : Prop :=
  drv_sync (nat_table_hdl st) w (cache st) /\
  (strict = true -> drv_exact (nat_table_hdl st) w (cache st)).

(** C1. After [AddTable] brought the table up, with the address it had before or
  with no rule cached as enabled, the NAT cache mirrors the hardware through
  every sequence of operations: each enabled connection's rule is in the table
  under its handle and, when the driver deletes what it is asked to delete
  ([strict]), the table holds no other rule. *)
Theorem natapp_session_mirror (strict : bool) pub_ip st w st1 w1 ops st2 w2 :
  (strict = true -> forall t h r w,
    drv_rules w !! (t, h) = Some r -> 0 <= fst (ipa_nat_del_ipv4_rule t h w)) ->
  natapp_wf st ->
  (pub_ip = pub_ip_addr_pre st \/ Forall (fun e => enabled e = false) (cache st)) ->
  AddTable pub_ip st w = (0, st1, w1) -> Forall session_op ops ->
  run_ops ops st1 w1 = Some (st2, w2) ->
  hw_mirror strict st2 w2.
Proof.
  intros Hst Hwf Hip Hadd Hops Hr. pose proof (AddTable_mirror strict pub_ip st w Hwf Hip) as Hm.
  pose proof (AddTable_wf pub_ip st w Hwf) as Hwf1. rewrite Hadd in *.
  destruct (Hm eq_refl) as [Hinv _].
  destruct (run_ops_mirror strict Hst _ _ _ _ _ Hops Hwf1 Hinv Hr). done.
Qed.

(** *** Temporary entries *)

Lemma flush_slot_discard ip isAdd st w e :
  public_ip e < 2 ^ 16 <= pub_ip_addr st ->
  flush_slot ip isAdd (st, w) e =
    ((st, w), if (private_ip e =? ip) || (target_ip e =? ip) then entry_zero else e).
Proof.
  intros Hp. unfold flush_slot. rewrite (proj2 (Z.eqb_neq (public_ip e) _)) by lia.
  rewrite andb_false_r. by destruct (_ || _).
Qed.

(** The temporary entries without those of a client. *)
Definition flushed (ip : Z) (l : list nat_table_entry) : list nat_table_entry :=
  map (fun e => if (private_ip e =? ip) || (target_ip e =? ip) then entry_zero else e) l.

Lemma FlushTempEntries_discards ip isAdd st w :
  Forall (fun e => public_ip e < 2 ^ 16) (temp st) -> 2 ^ 16 <= pub_ip_addr st ->
  FlushTempEntries ip isAdd st w =
    (st <| temp := flushed ip (temp st) |>, w).
Proof.
  intros Hall Hpub. unfold FlushTempEntries.
  assert (forall l, Forall (fun e => public_ip e < 2 ^ 16) l ->
    loop_accum (flush_slot ip isAdd) (st, w) l =
      ((st, w), flushed ip l)) as ->; [|done|done].
  induction 1 as [|e l He _ IH]; [done|]. cbn [loop_accum flushed map].
  rewrite flush_slot_discard by done. by rewrite IH.
Qed.

(** A temporary entry holds the public address in sixteen bits.  Once the
  table's public address does not fit there, [FlushTempEntries] throws the
  matching entries away even when it is told to add them. *)
Theorem FlushTempEntries_truncated ip isAdd st w :
  Forall (fun e => public_ip e < 2 ^ 16) (temp st) -> 2 ^ 16 <= pub_ip_addr st ->
  FlushTempEntries ip isAdd st w =
    (st <| temp := flushed ip (temp st) |>, w).
Proof. apply FlushTempEntries_discards. Qed.
End lifetime.

(** ** A concrete run *)

#[export] Instance SimpleDrv_NfctLib : NfctLib SimpleDrv := {|
  nfct_open d := (true, d);
  nfct_new d := (true, d);
  nfct_query_update _ d := (0, d)
|}.

#[export] Instance SimpleDrv_NfctLaws : NfctLaws SimpleDrv.
Proof. by constructor. Qed.

Definition example_nat_mem : NatApp :=
  {| cache := []; temp := []; pub_ip_addr := 0; pub_ip_addr_pre := 0; nat_table_hdl := 0;
     curCnt := 0; max_entries := 0; pALGPorts := []; tcp_timeout := 0; udp_timeout := 0;
     PwrSaveIfs := replicate IPA_MAX_NUM_WIFI_CLIENTS 0; ct := false; ct_hdl := false |}.

Definition example_entry (ip port : Z) : nat_table_entry :=
  {| private_ip := ip; private_port := port; target_ip := 9; target_port := 80; public_ip := 7;
     public_port := port; protocol := IPPROTO_TCP; timestamp := 0; dst_nat := false;
     enabled := false; rule_hdl := 0 |}.

Definition example_nat : NatApp := Eval vm_compute in
  match NatApp_Init (Live example_cfg) true true (NatApp_ctor example_nat_mem) with
  | Some (_, st) => st
  | None => example_nat_mem
  end.

Definition example_ops : list natapp_op :=
  [OpAddEntry (example_entry 5 1000); OpUpdatePwrSaveIf 5; OpAddEntry (example_entry 6 1001);
   OpResetPwrSaveIf 5; OpUpdateUDPTimeStamp; OpDelEntriesOnClntDiscon 6;
   OpCacheEntry 0 (example_entry 8 1002); OpDeleteEntry (example_entry 5 1000)].

(** [Reset] does not disable the cached entries, so the handles of the old table
    survive it. *)
Definition stale_ops : list natapp_op :=
  [OpAddTable 100; OpAddEntry (example_entry 5 1000); OpDeleteTable 100; OpAddTable 200;
   OpAddEntry (example_entry 6 1001); OpDeleteEntry (example_entry 5 1000)].

(** When the table comes back with another public address, the entries of
    the old table are still marked enabled under their old handles; deleting one
    of them takes the rule of a live connection out of the hardware. *)
Theorem natapp_stale_handle :
  exists st w e, Forall op_ok stale_ops /\ run_ops stale_ops example_nat (sd_empty 8) = Some (st, w) /\
    e ∈ cache st /\ enabled e = true /\ conn_key e = conn_key (example_entry 6 1001) /\
    drv_rules w !! (nat_table_hdl st, rule_hdl e) = None.
Proof.
  destruct (run_ops stale_ops example_nat (sd_empty 8)) as [[st w]|] eqn:E; vm_compute in E; [|done].
  injection E as <- <-. eexists _, _, _. split_and!; [by repeat constructor|done| |..].
  - right. left.
  - done.
  - done.
  - vm_compute. done.
Qed.

Lemma natapp_reachable_wf_witness :
  exists st w, run_ops (OpAddTable 100 :: example_ops) example_nat (sd_empty 8) = Some (st, w) /\
    NoDup (occ_keys (cache st)) /\ curCnt st = 2.
Proof.
  destruct (run_ops (OpAddTable 100 :: example_ops) example_nat (sd_empty 8)) as [[st w]|] eqn:E;
    [|vm_compute in E; done].
  exists st, w. split; [done|].
  destruct (natapp_reachable_wf example_nat_mem example_cfg example_nat (OpAddTable 100 :: example_ops)
    (sd_empty 8) st w) as (Hnd & _); [done|vm_compute; done|vm_compute; done|by repeat constructor|done|].
  split; [done|]. vm_compute in E. by injection E as <- <-.
Defined.

(** The cache after a table came up and a connection was added. *)
Definition example_up : NatApp * SimpleDrv := Eval vm_compute in
  match run_ops [OpAddTable 100; OpAddEntry (example_entry 5 1000)] example_nat (sd_empty 8) with
  | Some s => s
  | None => (example_nat, sd_empty 8)
  end.

Lemma example_nat_wf : natapp_wf example_nat.
Proof. by apply (NatApp_Init_wf example_nat_mem example_cfg). Qed.

Lemma example_up_inv : natapp_wf (fst example_up) /\ natapp_inv true (fst example_up) (snd example_up).
Proof.
  pose proof example_nat_wf as Hwf. pose proof (AddTable_wf 100 example_nat (sd_empty 8) Hwf) as Hwf1.
  pose proof (AddTable_mirror true 100 example_nat (sd_empty 8) Hwf
    ltac:(right; by repeat constructor)) as Hm.
  destruct (AddTable 100 example_nat (sd_empty 8)) as [[ret st1] w1] eqn:E.
  assert (ret = 0) as -> by (vm_compute in E; congruence). destruct (Hm eq_refl) as [Hinv _].
  destruct (run_op (OpAddEntry (example_entry 5 1000)) st1 w1) as [[st w]|] eqn:E2.
  2: { vm_compute in E. injection E as <- <-. vm_compute in E2. done. }
  pose proof (run_op_wf (OpAddEntry _) _ _ _ _ I Hwf1 E2) as Hwf2.
  pose proof (run_op_mirror true reliable_strict (OpAddEntry _) _ _ _ _ I Hwf1 Hinv E2) as Hinv2.
  assert (example_up = (st, w)) as ->; [|done].
  vm_compute in E. injection E as <- <-. vm_compute in E2. injection E2 as <- <-. done.
Qed.

Lemma natapp_session_mirror_witness :
  exists st w, run_ops (OpAddTable 100 :: example_ops) example_nat (sd_empty 8) = Some (st, w) /\
    drv_sync (nat_table_hdl st) w (cache st) /\ drv_exact (nat_table_hdl st) w (cache st).
Proof.
  destruct (AddTable 100 example_nat (sd_empty 8)) as [[ret st1] w1] eqn:Ea.
  assert (ret = 0) as -> by (vm_compute in Ea; congruence).
  destruct (run_ops example_ops st1 w1) as [[st w]|] eqn:E.
  2: { vm_compute in Ea. injection Ea as <- <-. vm_compute in E. done. }
  exists st, w. split; [cbn [run_ops run_op drop_result]; rewrite Ea; exact E|].
  destruct (natapp_session_mirror true 100 example_nat (sd_empty 8) st1 w1 example_ops st w)
    as [H1' H2'].
  - apply reliable_strict.
  - apply example_nat_wf.
  - right. by repeat constructor.
  - exact Ea.
  - by repeat constructor.
  - exact E.
  - split; [exact H1'|exact (H2' eq_refl)].
Defined.

Lemma AddEntry_refines_witness :
  exists ret st w, AddEntry (example_entry 6 1001) (fst example_up) (snd example_up) = (ret, st, w) /\
    ret = 0 /\ AddEntrySpec (fst example_up) (example_entry 6 1001)
      (conn_map (cache (fst example_up))) (drv_rules (snd example_up)) ret
      (conn_map (cache st)) (drv_rules w).
Proof.
  destruct (AddEntry (example_entry 6 1001) (fst example_up) (snd example_up)) as [[ret st] w] eqn:E.
  exists ret, st, w. split; [done|]. split; [vm_compute in E; congruence|].
  apply (AddEntry_refines (example_entry 6 1001) (fst example_up) (snd example_up) ret st w); [apply example_up_inv|exact E].
Defined.

Lemma DeleteEntry_refines_witness :
  exists st w, DeleteEntry (example_entry 5 1000) (fst example_up) (snd example_up) = (0, st, w) /\
    conn_map (cache st) = delete (conn_key (example_entry 5 1000)) (conn_map (cache (fst example_up))).
Proof.
  destruct (DeleteEntry (example_entry 5 1000) (fst example_up) (snd example_up)) as [[ret st] w] eqn:E.
  destruct (DeleteEntry_refines (example_entry 5 1000) (fst example_up) (snd example_up) ret st w) as (-> & Hm & _);
    [apply example_up_inv|done|exact E|].
  exists st, w. by split.
Defined.

Lemma AddEntry_DeleteEntry_roundtrip_witness :
  exists st1 w1 st2 w2, AddEntry (example_entry 6 1001) (fst example_up) (snd example_up) = (0, st1, w1) /\
    DeleteEntry (example_entry 6 1001) st1 w1 = (0, st2, w2) /\
    conn_map (cache st2) = conn_map (cache (fst example_up)).
Proof.
  destruct (AddEntry (example_entry 6 1001) (fst example_up) (snd example_up)) as [[r1 st1] w1] eqn:E1.
  assert (r1 = 0) as -> by (vm_compute in E1; congruence).
  destruct (DeleteEntry (example_entry 6 1001) st1 w1) as [[r2 st2] w2] eqn:E2.
  destruct (AddEntry_DeleteEntry_roundtrip (example_entry 6 1001) (fst example_up) (snd example_up)
    st1 w1 r2 st2 w2) as (-> & Hm & _); [apply example_up_inv|apply example_up_inv|done|done|exact E1|exact E2|].
  exists st1, w1, st2, w2. by split_and!.
Defined.

Lemma UpdatePwrSaveIf_view_witness :
  exists st w, UpdatePwrSaveIf 5 (fst example_up) (snd example_up) = (0, st, w) /\ (5 ∈ PwrSaveIfs st).
Proof.
  destruct (UpdatePwrSaveIf 5 (fst example_up) (snd example_up)) as [[ret st] w] eqn:E.
  destruct (UpdatePwrSaveIf_view 5 (fst example_up) (snd example_up) ret st w) as (-> & _ & Hin & _);
    [apply example_up_inv|done|by apply (bool_decide_unpack _); vm_compute|exact E|].
  exists st, w. split; [done|]. apply Hin. left.
Defined.

Lemma ResetPwrSaveIf_view_witness :
  exists st w, ResetPwrSaveIf 5 (fst example_up) (snd example_up) = (-1, st, w) /\
    natapp_inv true st w.
Proof.
  destruct (ResetPwrSaveIf 5 (fst example_up) (snd example_up)) as [[ret st] w] eqn:E.
  destruct (ResetPwrSaveIf_view 5 (fst example_up) (snd example_up) ret st w) as (-> & Hi & _);
    [apply example_up_inv|done|exact E|]. by exists st, w.
Defined.

Lemma DelEntriesOnSTAClntDiscon_view_witness :
  exists st w, DelEntriesOnSTAClntDiscon 9 (fst example_up) (snd example_up) = (0, st, w) /\
    natapp_inv true st w.
Proof.
  destruct (DelEntriesOnSTAClntDiscon 9 (fst example_up) (snd example_up)) as [[ret st] w] eqn:E.
  destruct (DelEntriesOnSTAClntDiscon_view 9 (fst example_up) (snd example_up) ret st w) as (-> & Hi & _);
    [apply example_up_inv|done|exact E|]. by exists st, w.
Defined.

Definition example_wide : NatApp :=
  example_nat <| pub_ip_addr := 3232235777 |> <| nat_table_hdl := 1 |>
              <| temp := [example_entry 5 1000; entry_zero] |>.

Lemma FlushTempEntries_truncated_witness :
  temp (fst (FlushTempEntries 5 true example_wide (sd_empty 8))) = [entry_zero; entry_zero].
Proof.
  rewrite (FlushTempEntries_truncated 5 true example_wide (sd_empty 8));
    [done|by repeat constructor|done].
Defined.
