(* ===== verification/Heap.v ===== *)
(** * Linked lists in an explicit heap

    The command queue and the event dispatcher keep their elements in singly
    linked nodes that are allocated, relinked and freed one by one.  A heap is a
    finite map from locations to nodes, [NULL] is [None], and reading or writing
    a location the heap does not hold is undefined behaviour. *)
From S2P Require Import Prelude.
From stdpp Require Import base list gmap.
From Stdlib Require Import ZArith.

Definition loc := positive.

Section chain.
Context {N A : Type} (next : N -> option loc) (val : N -> A).
Implicit Types (h : gmap loc N) (ls : list (loc * A)).

(** From pointer [p], following [next] visits the locations and values of [ls]
    and ends at pointer [q]. *)
Fixpoint chain h (p : option loc) ls (q : option loc) : Prop :=
  match ls with
  | [] => p = q
  | (l, a) :: ls => p = Some l /\ exists n, h !! l = Some n /\ val n = a /\ chain h (next n) ls q
  end.

Lemma chain_app h p ls1 ls2 q :
  chain h p (ls1 ++ ls2) q <-> exists r, chain h p ls1 r /\ chain h r ls2 q.
Proof.
  revert p. induction ls1 as [|[l a] ls1 IH]; intros p; simpl; [naive_solver|].
  split.
  - intros [-> (n & Hn & Hv & (r & ? & ?)%IH)]. eauto 10.
  - intros (r & [-> (n & Hn & Hv & Hc)] & Hr). split; [done|]. exists n. rewrite IH. eauto.
Qed.

Lemma chain_frame h h' p ls q :
  (forall l, l ∈ ls.*1 -> h' !! l = h !! l) -> chain h p ls q -> chain h' p ls q.
Proof.
  revert p. induction ls as [|[l a] ls IH]; intros p Hf; simpl; [done|].
  intros [-> (n & Hn & Hv & Hc)]. split; [done|]. exists n.
  rewrite (Hf l) by (simpl; left). split_and!; [done..|]. apply IH; [|done].
  intros l' Hl'. apply Hf. simpl. by right.
Qed.

Lemma chain_insert h p ls q l n : (l ∉ ls.*1) -> chain h p ls q -> chain (<[l := n]> h) p ls q.
Proof. intros Hl. apply chain_frame. intros l' Hl'. apply lookup_insert_ne. congruence. Qed.

Lemma chain_delete h p ls q l : (l ∉ ls.*1) -> chain h p ls q -> chain (delete l h) p ls q.
Proof. intros Hl. apply chain_frame. intros l' Hl'. apply lookup_delete_ne. congruence. Qed.

Lemma chain_dom h p ls q l : chain h p ls q -> l ∈ ls.*1 -> is_Some (h !! l).
Proof.
  revert p. induction ls as [|[l' a] ls IH]; intros p; simpl; [by rewrite elem_of_nil|].
  intros [_ (n & Hn & _ & Hc)] [->|Hl]%elem_of_cons; [by exists n|by eapply IH].
Qed.

Lemma chain_null h ls : chain h None ls None -> ls = [].
Proof. destruct ls as [|[l a] ls]; [done|]. by intros [? _]. Qed.
End chain.
