(* ===== verification/CmdQueue.v ===== *)
(** * The command queue ([IPACM_CmdQueue.cpp], [IPACM_CmdQueue.h])

    [MessageQueue] links [Message] nodes between [Head] and [Tail]; any thread
    posts, one thread runs [Process].  The first part translates the queue, the
    second the threads: every critical section is one step, the callback runs
    outside the lock. *)
From S2P Require Import Prelude Defs Heap.
From stdpp Require Import base list gmap.
From Stdlib Require Import ZArith Lia.

Section queue.
(** [D]: the event payloads. *)
Context {D : Type}.

Record ipacm_cmd_q_data := { event : ipa_cm_event_id; evt_data : option D }.

(** [class Message]; its callback is the one [PostEvt] stores, so [evt] keeps
    the data. *)
Record Message := { m_next : option loc; evt : ipacm_cmd_q_data }.

Record MessageQueue := { Head : option loc; Tail : option loc }.

Abbreviation heap := (gmap loc Message).
Implicit Types (h : heap) (q : MessageQueue) (l item : loc).

Definition MessageQueue_ctor : MessageQueue := {| Head := None; Tail := None |}.

(** [new Message()] filled by [PostEvt], at the fresh location [item]. *)
Definition new_Message (d : ipacm_cmd_q_data) : Message := {| m_next := None; evt := d |}.

Definition setnext l (item : option loc) h : option heap :=
  m ← h !! l; Some (<[l := {| m_next := item; evt := evt m |}]> h).

Definition getnext l h : option (option loc) := m_next <$> h !! l.

Definition enqueue item q h : option (MessageQueue * heap) :=
  match Head q with
  | None => Some ({| Head := Some item; Tail := Some item |}, h)
  | Some hd =>
      h ← match Tail q with
          | None => setnext hd (Some item) h
          | Some tl => setnext tl (Some item) h
          end;
      Some ({| Head := Some hd; Tail := Some item |}, h)
  end.

(** [Tail] keeps its value when the last message leaves. *)
Definition dequeue q h : option (option loc * MessageQueue) :=
  match Head q with
  | None => Some (None, q)
  | Some tmp => nx ← getnext tmp h; Some (Some tmp, {| Head := nx; Tail := Tail q |})
  end.

(** ** The queue is a FIFO list *)

Record queue_inv q h (ls : list (loc * ipacm_cmd_q_data)) : Prop := {
  qi_chain : chain m_next evt h (Head q) ls None;
  qi_nodup : NoDup ls.*1;
  qi_tail : ls <> [] -> Tail q = last ls.*1
}.

Lemma queue_inv_ctor h : queue_inv MessageQueue_ctor h [].
Proof. by constructor; [|constructor|]. Qed.

(** The last node of a chain, relinked to a new node, extends it. *)
Lemma chain_snoc h p ls l a item d :
  chain m_next evt h p (ls ++ [(l, a)]) None -> NoDup (ls ++ [(l, a)]).*1 ->
  h !! item = Some (new_Message d) -> (item ∉ (ls ++ [(l, a)]).*1) ->
  exists h', setnext l (Some item) h = Some h' /\
    chain m_next evt h' p ((ls ++ [(l, a)]) ++ [(item, d)]) None /\
    forall l', l' <> l -> h' !! l' = h !! l'.
Proof.
  rewrite fmap_app. intros Hc Hnd Hi Hfr. apply chain_app in Hc as (r & Hc1 & [-> (n & Hn & Hv & _)]).
  unfold setnext. rewrite Hn. simpl. eexists. split_and!; [done| |].
  - rewrite <- app_assoc. apply chain_app. exists (Some l). split.
    + apply chain_insert; [|done]. apply NoDup_app in Hnd as (_ & Hd & _).
      intros Hl. apply (Hd l Hl). left.
    + simpl. split; [done|]. eexists. rewrite lookup_insert_eq. split_and!; [done|done|done|].
      exists (new_Message d). rewrite lookup_insert_ne by (intros ->; set_solver). done.
  - intros l' Hl'. by apply lookup_insert_ne.
Qed.

Lemma enqueue_inv item d q h ls :
  queue_inv q h ls -> h !! item = Some (new_Message d) -> (item ∉ ls.*1) ->
  exists q' h', enqueue item q h = Some (q', h') /\ queue_inv q' h' (ls ++ [(item, d)]) /\
    (forall l, (l ∉ ls.*1) -> h' !! l = h !! l) /\ dom h' = dom h.
Proof.
  intros [Hc Hnd Ht] Hi Hfr. unfold enqueue. destruct ls as [|la ls0 _] using rev_ind.
  - simpl in Hc. rewrite Hc. eexists _, _. split_and!; [done| |done|done].
    constructor; simpl; [|by apply NoDup_singleton|done]. split; [done|]. by exists (new_Message d).
  - destruct la as [l a]. destruct (chain_snoc _ _ _ _ _ _ d Hc Hnd Hi Hfr) as (h' & Hs & Hc' & Hf).
    assert (exists hd, Head q = Some hd) as [hd Hhd].
    { destruct (Head q) eqn:E; [by eexists|]. by apply chain_null in Hc; destruct ls0. }
    rewrite Hhd in *. rewrite Ht by (by destruct ls0).
    assert (last (ls0 ++ [(l, a)]).*1 = Some l) as -> by (rewrite fmap_app; apply last_snoc).
    rewrite Hs. simpl. eexists _, _. split_and!; [done| | |].
    + constructor; simpl; [done| |].
      * rewrite fmap_app. apply NoDup_app. split_and!; [done| |apply NoDup_singleton].
        intros l' Hl' ->%list_elem_of_singleton. done.
      * intros _. rewrite fmap_app. symmetry. apply last_snoc.
    + intros l' Hl'. apply Hf. intros ->. apply Hl'. rewrite fmap_app. set_solver.
    + unfold setnext in Hs. destruct (h !! l) as [m|] eqn:El; [|done]. simpl in Hs. simplify_eq.
      rewrite dom_insert_L. apply elem_of_dom_2 in El. set_solver.
Qed.

Lemma dequeue_inv q h ls :
  queue_inv q h ls ->
  match ls with
  | [] => dequeue q h = Some (None, q)
  | (l, d) :: ls => exists q', dequeue q h = Some (Some l, q') /\ queue_inv q' h ls /\
                      exists m, h !! l = Some m /\ evt m = d
  end.
Proof.
  intros [Hc Hnd Ht]. unfold dequeue, getnext. destruct ls as [|[l d] ls]; simpl in Hc; [by rewrite Hc|].
  destruct Hc as [-> (n & Hn & Hv & Hc)]. rewrite Hn. simpl. eexists. split; [done|]. split.
  - constructor; simpl; [done|by apply NoDup_cons in Hnd as [_ ?]|].
    intros Hne. rewrite Ht by done. by destruct ls.
  - eauto.
Qed.

(** ** The threads *)

(** The thread that runs [Process]: before taking the lock, asleep in
    [pthread_cond_wait], or outside the lock with a message. *)
Inductive consumer := Running | Waiting | Handling (item : loc).

Record sys := { s_queue : MessageQueue; s_heap : heap; s_consumer : consumer }.

(** [IPACM_EvtDispatcher::PostEvt]: the outcomes of [new], [pthread_mutex_lock],
    [pthread_cond_signal] and [pthread_mutex_unlock] come as arguments; the
    signal wakes the consumer. *)
Definition PostEvt (alloc : option loc) (lock_ok signal_ok unlock_ok : bool)
    (data : ipacm_cmd_q_data) (s : sys) : option (Z * sys) :=
  match alloc with
  | None => Some (IPACM_FAILURE, s)
  | Some item =>
      let h := <[item := new_Message data]> (s_heap s) in
      if negb lock_ok
      then Some (IPACM_FAILURE, {| s_queue := s_queue s; s_heap := h; s_consumer := s_consumer s |})
      else
        '(q, h) ← enqueue item (s_queue s) h;
        if negb signal_ok
        then Some (IPACM_FAILURE, {| s_queue := q; s_heap := h; s_consumer := s_consumer s |})
        else
          let c := match s_consumer s with Waiting => Running | c => c end in
          Some (if unlock_ok then IPACM_SUCCESS else IPACM_FAILURE,
                {| s_queue := q; s_heap := h; s_consumer := c |})
  end.

(** The first critical section of [Process]' loop. *)
Definition Process_take (s : sys) : option sys :=
  '(item, q) ← dequeue (s_queue s) (s_heap s);
  Some {| s_queue := q; s_heap := s_heap s;
          s_consumer := match item with None => Waiting | Some l => Handling l end |}.

(** Outside the lock: the data handed to the callback, and [delete item]. *)
Definition Process_handle (item : loc) (s : sys) : option (ipacm_cmd_q_data * sys) :=
  m ← s_heap s !! item;
  Some (evt m, {| s_queue := s_queue s; s_heap := delete item (s_heap s); s_consumer := Running |}).

Inductive label := LPosted (d : ipacm_cmd_q_data) | LHandled (d : ipacm_cmd_q_data) | LTau.

(** One step of the system; [sig] says that every signal is delivered. *)
Inductive sys_step (sig : bool) : sys -> label -> sys -> Prop :=
  | step_post s item d signal_ok ret s' :
      s_heap s !! item = None -> (sig = true -> signal_ok = true) ->
      PostEvt (Some item) true signal_ok true d s = Some (ret, s') ->
      sys_step sig s (LPosted d) s'
  | step_take s s' :
      s_consumer s = Running -> Process_take s = Some s' -> sys_step sig s LTau s'
  | step_wake s :
      s_consumer s = Waiting ->
      sys_step sig s LTau {| s_queue := s_queue s; s_heap := s_heap s; s_consumer := Running |}
  | step_handle s item d s' :
      s_consumer s = Handling item -> Process_handle item s = Some (d, s') ->
      sys_step sig s (LHandled d) s'.

Inductive steps (sig : bool) : sys -> list label -> sys -> Prop :=
  | steps_nil s : steps sig s [] s
  | steps_cons s a s1 tr s2 : sys_step sig s a s1 -> steps sig s1 tr s2 -> steps sig s (a :: tr) s2.

Definition sys_init : sys :=
  {| s_queue := MessageQueue_ctor; s_heap := ∅; s_consumer := Running |}.

Definition posted (tr : list label) : list ipacm_cmd_q_data :=
  omap (fun a => match a with LPosted d => Some d | _ => None end) tr.
Definition handled (tr : list label) : list ipacm_cmd_q_data :=
  omap (fun a => match a with LHandled d => Some d | _ => None end) tr.

(** The messages on their way, oldest first: the one the consumer holds, then
    those of the queue. *)
Record sys_inv (sig : bool) (s : sys) (pending : list (loc * ipacm_cmd_q_data)) : Prop := {
  si_nodup : NoDup pending.*1;
  si_queue : match s_consumer s with
             | Handling l => exists d ls m, pending = (l, d) :: ls /\ s_heap s !! l = Some m /\
                 evt m = d /\ queue_inv (s_queue s) (s_heap s) ls
             | Running => queue_inv (s_queue s) (s_heap s) pending
             | Waiting => queue_inv (s_queue s) (s_heap s) pending /\ (sig = true -> pending = [])
             end
}.

Lemma sys_inv_init sig : sys_inv sig sys_init [].
Proof. constructor; [constructor|apply queue_inv_ctor]. Qed.

Lemma queue_inv_fresh q h ls item d :
  h !! item = None -> queue_inv q h ls ->
  (item ∉ ls.*1) /\ queue_inv q (<[item := new_Message d]> h) ls.
Proof.
  intros Hn [Hc Hnd Ht]. assert (item ∉ ls.*1) as Hni.
  { intros Hi. apply (chain_dom _ _ _ _ _ _ _ Hc) in Hi as [? ?]. congruence. }
  split; [done|]. constructor; [by apply chain_insert|done|done].
Qed.

Lemma post_inv sig s pending item d signal_ok :
  sys_inv sig s pending -> s_heap s !! item = None -> (sig = true -> signal_ok = true) ->
  exists ret s', PostEvt (Some item) true signal_ok true d s = Some (ret, s') /\
    sys_inv sig s' (pending ++ [(item, d)]).
Proof.
  intros [Hnd Hq] Hn Hsig.
  assert (exists ls, queue_inv (s_queue s) (s_heap s) ls /\ (item ∉ pending.*1) /\
    match s_consumer s with
    | Handling l => exists d ls', pending = (l, d) :: ls /\ ls' = ls /\ exists m, s_heap s !! l = Some m /\ evt m = d
    | _ => pending = ls
    end) as (ls & Hls & Hni & Hc).
  { destruct (s_consumer s) eqn:E.
    - exists pending. by destruct (queue_inv_fresh _ _ _ _ d Hn Hq).
    - destruct Hq as [Hq _]. exists pending. by destruct (queue_inv_fresh _ _ _ _ d Hn Hq).
    - destruct Hq as (d0 & ls & m & -> & Hm & Hd & Hq). exists ls.
      destruct (queue_inv_fresh _ _ _ _ d Hn Hq) as [Hni _]. split_and!; [done| |by eauto 10].
      simpl. intros [->|?]%elem_of_cons; [congruence|done]. }
  destruct (queue_inv_fresh _ _ _ _ d Hn Hls) as [Hni' Hls'].
  destruct (enqueue_inv item d _ _ _ Hls' (lookup_insert_eq _ _ _) Hni') as (q' & h' & He & Hi & Hf & _).
  unfold PostEvt. simpl. rewrite He. simpl.
  assert (NoDup (pending ++ [(item, d)]).*1) as Hnd'.
  { rewrite fmap_app. apply NoDup_app. split_and!; [done| |apply NoDup_singleton].
    intros l Hl ->%list_elem_of_singleton. done. }
  assert (forall l m, s_consumer s = Handling l -> s_heap s !! l = Some m -> h' !! l = Some m) as Hkeep.
  { intros l m Hl Hm. rewrite Hl in Hc. destruct Hc as (d0 & ls' & -> & _). simpl in *.
    apply NoDup_cons in Hnd as [Hl' _]. rewrite Hf by done.
    rewrite lookup_insert_ne; [done|]. congruence. }
  destruct signal_ok; simpl; eexists _, _; (split; [done|]); constructor; simpl; try done;
    destruct (s_consumer s) as [| |l] eqn:E; simpl; try (by subst pending).
  - destruct Hc as (d0 & ls' & -> & _ & m & Hm & Hd). exists d0, (ls ++ [(item, d)]), m. eauto.
  - subst pending. split; [done|]. intros ?. by specialize (Hsig ltac:(done)).
  - destruct Hc as (d0 & ls' & -> & _ & m & Hm & Hd). exists d0, (ls ++ [(item, d)]), m. eauto.
Qed.

Lemma take_inv sig s pending :
  sys_inv sig s pending -> s_consumer s = Running ->
  exists s', Process_take s = Some s' /\ sys_inv sig s' pending /\
    s_consumer s' = match pending with [] => Waiting | (l, _) :: _ => Handling l end.
Proof.
  intros [Hnd Hq] Hc. rewrite Hc in Hq. pose proof (dequeue_inv _ _ _ Hq) as Hd.
  unfold Process_take. destruct pending as [|[l d] ls].
  - rewrite Hd. simpl. eexists. split_and!; [done| |done]. by constructor.
  - destruct Hd as (q' & -> & Hq' & m & Hm & He). simpl. eexists. split_and!; [done| |done].
    constructor; [done|]. simpl. eauto 10.
Qed.

Lemma handle_inv sig s pending item :
  sys_inv sig s pending -> s_consumer s = Handling item ->
  exists d ls s', pending = (item, d) :: ls /\ Process_handle item s = Some (d, s') /\
    sys_inv sig s' ls /\ s_consumer s' = Running.
Proof.
  intros [Hnd Hq] Hc. rewrite Hc in Hq. destruct Hq as (d & ls & m & -> & Hm & Hd & [Hch Hnd' Ht]).
  unfold Process_handle. rewrite Hm. simpl. eexists d, ls, _. rewrite Hd. split_and!; [done|done| |done].
  simpl in Hnd. apply NoDup_cons in Hnd as [Hni Hnd]. constructor; simpl; [done|].
  constructor; simpl; [by apply chain_delete|done|done].
Qed.

Lemma step_inv sig s a s' pending :
  sys_step sig s a s' -> sys_inv sig s pending ->
  exists pending', sys_inv sig s' pending' /\
    pending.*2 ++ posted [a] = handled [a] ++ pending'.*2.
Proof.
  intros Hs Hi. destruct Hs as [s item d signal_ok ret s' Hn Hsig Hp|s s' Hc Ht|s Hc|s item d s' Hc Hh].
  - destruct (post_inv _ _ _ _ d _ Hi Hn Hsig) as (ret' & s2 & Hp' & Hi'). simplify_eq.
    exists (pending ++ [(item, d)]). split; [done|]. by rewrite fmap_app.
  - destruct (take_inv _ _ _ Hi Hc) as (s2 & Ht' & Hi' & _). simplify_eq.
    exists pending. by rewrite app_nil_r.
  - exists pending. rewrite app_nil_r. split; [|done]. destruct Hi as [Hnd Hq]. rewrite Hc in Hq.
    constructor; [done|]. by destruct Hq.
  - destruct (handle_inv _ _ _ _ Hi Hc) as (d' & ls & s2 & -> & Hh' & Hi' & _). simplify_eq.
    exists ls. by rewrite app_nil_r.
Qed.

Lemma steps_inv sig s tr s' pending :
  steps sig s tr s' -> sys_inv sig s pending ->
  exists pending', sys_inv sig s' pending' /\ pending.*2 ++ posted tr = handled tr ++ pending'.*2.
Proof.
  intros Hs. revert pending. induction Hs as [s|s a s1 tr s2 Ha Hs IH]; intros pending Hi.
  - exists pending. by rewrite app_nil_r.
  - destruct (step_inv _ _ _ _ _ Ha Hi) as (p1 & Hi1 & He1).
    destruct (IH _ Hi1) as (p2 & Hi2 & He2). exists p2. split; [done|].
    change (a :: tr) with ([a] ++ tr). unfold posted, handled in *. rewrite !omap_app.
    rewrite app_assoc, He1, <- app_assoc, He2. by rewrite app_assoc.
Qed.

(** C5. Whatever the interleaving of posting threads with the processing
  thread, events are handled in the order in which they were posted, none lost
  and none twice; no step of either side touches a freed message; and when
  every signal is delivered the consumer never sleeps over a waiting event. *)
Theorem cmd_queue_fifo sig tr s :
  steps sig sys_init tr s ->
  exists pending : list (loc * ipacm_cmd_q_data), posted tr = handled tr ++ pending.*2 /\
    (s_consumer s = Running -> Process_take s <> None) /\
    (forall item, s_consumer s = Handling item -> Process_handle item s <> None) /\
    (forall item d, s_heap s !! item = None -> PostEvt (Some item) true true true d s <> None) /\
    (s_consumer s = Waiting -> sig = true -> pending = []).
Proof.
  intros Hs. destruct (steps_inv _ _ _ _ _ Hs (sys_inv_init sig)) as (pending & Hi & He).
  exists pending. split_and!; [done|..].
  - intros Hc. by destruct (take_inv _ _ _ Hi Hc) as (s' & -> & _).
  - intros item Hc. by destruct (handle_inv _ _ _ _ Hi Hc) as (? & ? & ? & _ & -> & _).
  - intros item d Hn. by destruct (post_inv _ _ _ _ d true Hi Hn ltac:(done)) as (? & ? & -> & _).
  - intros Hc Hsig. destruct Hi as [_ Hq]. rewrite Hc in Hq. destruct Hq as [_ Hq]. auto.
Qed.

Lemma steps_app sig s1 tr1 s2 tr2 s3 :
  steps sig s1 tr1 s2 -> steps sig s2 tr2 s3 -> steps sig s1 (tr1 ++ tr2) s3.
Proof. induction 1; [done|]. intros. econstructor; eauto. Qed.

Lemma handled_app tr1 tr2 : handled (tr1 ++ tr2) = handled tr1 ++ handled tr2.
Proof. apply omap_app. Qed.

(** The consumer alone empties the queue. *)
Lemma drain_running sig s pending :
  sys_inv sig s pending -> s_consumer s = Running ->
  exists tr s', steps sig s tr s' /\ posted tr = [] /\ handled tr = pending.*2 /\
    s_consumer s' = Waiting.
Proof.
  revert s. induction pending as [|[l d] ls IH]; intros s Hi Hc;
    destruct (take_inv _ _ _ Hi Hc) as (s1 & Ht & Hi1 & Hc1).
  - exists [LTau], s1. split_and!; [|done..]. econstructor; [by apply step_take|constructor].
  - destruct (handle_inv _ _ _ _ Hi1 Hc1) as (d' & ls' & s2 & Hl & Hh & Hi2 & Hc2).
    injection Hl as <- <-.
    destruct (IH s2 Hi2 Hc2) as (tr & s' & Hs & Hp & Hhd & Hw).
    exists (LTau :: LHandled d :: tr), s'. split_and!; [|done|simpl; by f_equal|done].
    econstructor; [by apply step_take|]. econstructor; [by eapply step_handle|done].
Qed.

(** From every reachable state the processing thread alone can finish: a
  finite run without any further post handles every posted event. *)
Theorem cmd_queue_drains sig tr s :
  steps sig sys_init tr s ->
  exists tr' s', steps sig s tr' s' /\ posted tr' = [] /\
    handled (tr ++ tr') = posted tr /\ s_consumer s' = Waiting.
Proof.
  intros Hs. destruct (steps_inv _ _ _ _ _ Hs (sys_inv_init sig)) as (pending & Hi & He).
  simpl in He. rewrite He. setoid_rewrite handled_app.
  destruct (s_consumer s) as [| |l] eqn:Hc.
  - destruct (drain_running _ _ _ Hi Hc) as (tr' & s' & ? & ? & Hh & ?).
    exists tr', s'. by rewrite Hh.
  - pose proof (step_wake sig s Hc) as Hw. destruct (step_inv _ _ _ _ _ Hw Hi) as (p & Hi' & Hp).
    rewrite app_nil_r in Hp. simpl in Hp.
    destruct (drain_running _ _ _ Hi' eq_refl) as (tr' & s' & Hs' & ? & Hh & ?).
    exists (LTau :: tr'), s'. change (handled (LTau :: tr')) with (handled tr').
    rewrite Hh, Hp. split_and!; try done.
    by econstructor.
  - destruct (handle_inv _ _ _ _ Hi Hc) as (d & ls & s2 & -> & Hh & Hi2 & Hc2).
    destruct (drain_running _ _ _ Hi2 Hc2) as (tr' & s' & Hs' & ? & Hh' & ?).
    exists (LHandled d :: tr'), s'. change (handled (LHandled d :: tr')) with (d :: handled tr').
    rewrite Hh'. split_and!; try done.
    econstructor; [by eapply step_handle|done].
Qed.
End queue.

(** ** A concrete run: two posts, the first one handled *)

Definition example_data (e : ipa_cm_event_id) : ipacm_cmd_q_data (D := Z) :=
  {| event := e; evt_data := None |}.

Lemma example_steps :
  exists s, steps true sys_init
    [LPosted (example_data IPA_LINK_UP_EVENT); LPosted (example_data IPA_LINK_DOWN_EVENT); LTau;
     LHandled (example_data IPA_LINK_UP_EVENT)] s.
Proof.
  eexists.
  eapply steps_cons; [by eapply (step_post _ _ 1%positive _ true)|].
  eapply steps_cons; [by eapply (step_post _ _ 2%positive _ true)|].
  eapply steps_cons; [by eapply step_take|].
  eapply steps_cons; [by eapply (step_handle _ _ 1%positive)|]. apply steps_nil.
Qed.

Lemma cmd_queue_fifo_witness :
  exists (s : sys (D := Z)) pending, steps true sys_init
    [LPosted (example_data IPA_LINK_UP_EVENT); LPosted (example_data IPA_LINK_DOWN_EVENT); LTau;
     LHandled (example_data IPA_LINK_UP_EVENT)] s /\
    snd <$> (pending : list (loc * _)) = [example_data IPA_LINK_DOWN_EVENT].
Proof.
  destruct example_steps as [s Hs]. destruct (cmd_queue_fifo true _ s Hs) as (pending & He & _).
  exists s, pending. split; [exact Hs|]. simpl in He. by injection He as <-.
Defined.

Lemma cmd_queue_drains_witness :
  exists (s : sys (D := Z)) tr' s', steps true s tr' s' /\
    handled tr' = [example_data IPA_LINK_DOWN_EVENT].
Proof.
  destruct example_steps as [s Hs]. destruct (cmd_queue_drains true _ s Hs) as (tr' & s' & H1 & _ & H2 & _).
  exists s, tr', s'. split; [exact H1|]. simpl in H2. by injection H2 as ->.
Defined.
