(* ===== verification/EvtDispatcher.v ===== *)
(** * The event dispatcher ([IPACM_EvtDispatcher.cpp], [IPACM_EvtDispatcher.h])

    Listeners register for events in a linked list; [ProcessEvt] walks the list
    and calls back those registered for the event.  A callback runs while the
    list is walked and may itself register and deregister listeners. *)
From S2P Require Import Prelude Defs Heap.
From stdpp Require Import base list gmap.
From Stdlib Require Import ZArith Lia.

Section dispatcher.
(** [Obj]: the listener objects, known by their address; [D]: event payloads;
    [W]: the rest of the program. *)
Context {Obj D W : Type} `{EqDecision Obj}.

(** [cmd_evts] *)
Record cmd_evts := { ce_event : ipa_cm_event_id; ce_obj : Obj; ce_next : option loc }.

(** The static [head], the nodes, and the counters [ipacm_event_stats]. *)
Record disp := {
  head : option loc;
  nodes : gmap loc cmd_evts;
  ipacm_event_stats : ipa_cm_event_id -> Z
}.

Implicit Types (d : disp) (w : W) (h : gmap loc cmd_evts).

(** [while(tmp->next) tmp = tmp->next;] *)
Fixpoint find_tail (fuel : nat) (tmp : loc) h : option loc :=
  match fuel with
  | O => None
  | S fuel =>
      n ← h !! tmp;
      match ce_next n with None => Some tmp | Some nx => find_tail fuel nx h end
  end.

Definition set_next (p : loc) (nx : option loc) h : option (gmap loc cmd_evts) :=
  n ← h !! p; Some (<[p := {| ce_event := ce_event n; ce_obj := ce_obj n; ce_next := nx |}]> h).

(** [registr]: [nw] is what [malloc] returns. *)
Definition registr (nw : option loc) (event : ipa_cm_event_id) (obj : Obj) d : option (Z * disp) :=
  match nw with
  | None => Some (IPACM_FAILURE, d)
  | Some nw =>
      let h := <[nw := {| ce_event := event; ce_obj := obj; ce_next := None |}]> (nodes d) in
      match head d with
      | None =>
          Some (IPACM_SUCCESS, {| head := Some nw; nodes := h; ipacm_event_stats := ipacm_event_stats d |})
      | Some hd =>
          tmp ← find_tail (size h) hd h;
          h ← set_next tmp (Some nw) h;
          Some (IPACM_SUCCESS, {| head := Some hd; nodes := h; ipacm_event_stats := ipacm_event_stats d |})
      end
  end.

(** The unlinking branches of [deregistr] for node [t] with successor [nx]. *)
Definition unlink (t : loc) (nx prev : option loc) d : option disp :=
  if decide (head d = Some t) then
    Some {| head := nx; nodes := nodes d; ipacm_event_stats := ipacm_event_stats d |}
  else
    p ← prev;
    h ← match nx with None => set_next p None (nodes d) | Some _ => set_next p nx (nodes d) end;
    Some {| head := head d; nodes := h; ipacm_event_stats := ipacm_event_stats d |}.

Fixpoint deregistr_loop (fuel : nat) (param : Obj) (tmp prev : option loc) d : option disp :=
  match tmp with
  | None => Some d
  | Some t =>
      match fuel with
      | O => None
      | S fuel =>
          n ← nodes d !! t;
          if decide (ce_obj n = param) then
            d ← unlink t (ce_next n) prev d;
            n ← nodes d !! t;
            deregistr_loop fuel param (ce_next n) prev
              {| head := head d; nodes := delete t (nodes d); ipacm_event_stats := ipacm_event_stats d |}
          else deregistr_loop fuel param (ce_next n) (Some t) d
      end
  end.

Definition deregistr (param : Obj) d : option (Z * disp) :=
  d ← deregistr_loop (size (nodes d)) param (head d) (head d) d; Some (IPACM_SUCCESS, d).

(** [ProcessEvt] over the callback [call]; the node is copied before the
    callback runs, its [next] is followed afterwards. *)
Definition bump (e : ipa_cm_event_id) d : disp :=
  {| head := head d; nodes := nodes d;
     ipacm_event_stats := fun e' => if decide (e' = e) then uinc 32 (ipacm_event_stats d e')
                                    else ipacm_event_stats d e' |}.

Fixpoint process_loop (call : Obj -> ipa_cm_event_id -> option D -> disp -> W -> option (disp * W))
    (fuel : nat) (event : ipa_cm_event_id) (evt_data : option D) (tmp : option loc) d w :
    option (disp * W) :=
  match tmp with
  | None => Some (d, w)
  | Some t =>
      match fuel with
      | O => None
      | S fuel =>
          tmp1 ← nodes d !! t;
          '(d, w) ← (if decide (event = ce_event tmp1)
                     then call (ce_obj tmp1) event evt_data (bump event d) w
                     else Some (d, w));
          process_loop call fuel event evt_data (ce_next tmp1) d w
      end
  end.

Definition ProcessEvt call (fuel : nat) (event : ipa_cm_event_id) (evt_data : option D) d w :=
  process_loop call fuel event evt_data (head d) d w.

(** ** Registrations as a list *)

Definition reg_of (n : cmd_evts) : ipa_cm_event_id * Obj := (ce_event n, ce_obj n).

Record disp_inv d (ls : list (loc * (ipa_cm_event_id * Obj))) : Prop := {
  di_chain : chain ce_next reg_of (nodes d) (head d) ls None;
  di_nodup : NoDup ls.*1
}.

Lemma chain_size h p ls q : chain ce_next reg_of h p ls q -> NoDup ls.*1 -> (length ls <= size h)%nat.
Proof.
  intros Hc Hnd. rewrite <- (length_fmap fst ls), <- (size_list_to_set (C := gset loc)), <- (size_dom h) by done.
  apply subseteq_size. intros l Hl%elem_of_list_to_set. apply elem_of_dom. by eapply chain_dom.
Qed.

Lemma find_tail_chain h ls l a fuel p :
  chain ce_next reg_of h (Some p) (ls ++ [(l, a)]) None -> (length ls < fuel)%nat ->
  find_tail fuel p h = Some l.
Proof.
  revert p fuel. induction ls as [|[l0 a0] ls IH]; intros p fuel Hc Hf; (destruct fuel as [|fuel]; [lia|]);
    simpl in *; destruct Hc as [[= <-] (n & -> & _ & Hc)]; simpl.
  - by rewrite Hc.
  - destruct (ce_next n) as [nx|] eqn:E.
    + apply IH; [done|lia].
    + apply chain_null in Hc. by destruct ls.
Qed.

Lemma registr_spec d ls nw event obj :
  disp_inv d ls -> nodes d !! nw = None ->
  exists d', registr (Some nw) event obj d = Some (IPACM_SUCCESS, d') /\
    disp_inv d' (ls ++ [(nw, (event, obj))]) /\ ipacm_event_stats d' = ipacm_event_stats d.
Proof.
  intros [Hc Hnd] Hn. assert (nw ∉ ls.*1) as Hni.
  { intros Hi. apply (chain_dom _ _ _ _ _ _ _ Hc) in Hi as [? ?]. congruence. }
  assert (NoDup (ls ++ [(nw, (event, obj))]).*1) as Hnd'.
  { rewrite fmap_app. apply NoDup_app. split_and!; [done| |apply NoDup_singleton].
    intros l Hl ->%list_elem_of_singleton. done. }
  set (new := {| ce_event := event; ce_obj := obj; ce_next := None |}).
  pose proof (chain_insert _ _ _ _ _ _ nw new Hni Hc) as Hc'.
  unfold registr. destruct (head d) as [hd|] eqn:Hhd.
  - destruct ls as [|[l a] ls0 _] using rev_ind; [done|].
    fold new. rewrite (find_tail_chain _ ls0 l a) by
      (try done; pose proof (chain_size _ _ _ _ Hc' Hnd); rewrite length_app in *; simpl in *; lia).
    simpl. apply chain_app in Hc' as (r & Hc1 & [-> (n & Hl & Hv & _)]).
    unfold set_next. rewrite Hl. simpl. eexists. split_and!; [done| |done]. constructor; simpl; [|done].
    rewrite <- app_assoc. apply chain_app. exists (Some l). split.
    + apply chain_insert; [|done]. rewrite fmap_app in Hnd. apply NoDup_app in Hnd as (_ & Hd & _).
      intros Hl'. apply (Hd l Hl'). left.
    + simpl. split; [done|]. eexists. rewrite lookup_insert_eq. split_and!; [done|done|done|].
      exists new. rewrite lookup_insert_ne, lookup_insert_eq; [done|].
      intros ->. apply Hni. rewrite fmap_app. set_solver.
  - apply chain_null in Hc. subst ls. eexists. split_and!; [done| |done].
    constructor; simpl; [|done]. split; [done|]. exists new. by rewrite lookup_insert_eq.
Qed.

Definition others (param : Obj) (ls : list (loc * (ipa_cm_event_id * Obj))) :=
  filter (fun x => snd (snd x) <> param) ls.

(** The loop of [deregistr] between the kept prefix and the rest of the list. *)
Record dereg_inv d (pre rest : list (loc * (ipa_cm_event_id * Obj))) (tmp prev : option loc) : Prop := {
  dr_pre : chain ce_next reg_of (nodes d) (head d) pre tmp;
  dr_rest : chain ce_next reg_of (nodes d) tmp rest None;
  dr_nodup : NoDup (pre ++ rest).*1;
  dr_prev : pre <> [] -> prev = last pre.*1
}.

Lemma chain_relink h p pre l a q nx n :
  chain ce_next reg_of h p (pre ++ [(l, a)]) q -> NoDup (pre ++ [(l, a)]).*1 -> h !! l = Some n ->
  chain ce_next reg_of
    (<[l := {| ce_event := ce_event n; ce_obj := ce_obj n; ce_next := nx |}]> h) p (pre ++ [(l, a)]) nx.
Proof.
  intros (r & Hc & [-> (n' & Hn' & Hv & _)])%chain_app Hnd Hn. simplify_eq. apply chain_app.
  exists (Some l). split.
  - apply chain_insert; [|done]. rewrite fmap_app in Hnd. apply NoDup_app in Hnd as (_ & Hd & _).
    intros Hl. apply (Hd l Hl). left.
  - split; [done|]. eexists. by rewrite lookup_insert_eq.
Qed.

(** One removal: the list without node [t]. *)
Lemma unlink_inv d pre t a rest n prev :
  dereg_inv d pre ((t, a) :: rest) (Some t) prev -> nodes d !! t = Some n ->
  exists d', unlink t (ce_next n) prev d = Some d' /\ nodes d' !! t = Some n /\
    (forall l, (l ∉ pre.*1) -> nodes d' !! l = nodes d !! l) /\
    ipacm_event_stats d' = ipacm_event_stats d /\
    dereg_inv {| head := head d'; nodes := delete t (nodes d'); ipacm_event_stats := ipacm_event_stats d' |}
      pre rest (ce_next n) prev.
Proof.
  intros [Hp [_ (n' & Hn' & Hv & Hr)] Hnd Hpr] Hn. simplify_eq.
  assert (NoDup (pre ++ rest).*1 /\ (t ∉ pre.*1) /\ (t ∉ rest.*1)) as (Hnd' & Ht1 & Ht2).
  { rewrite fmap_app in *. simpl in Hnd. apply NoDup_app in Hnd as (H1 & H2 & H3).
    apply NoDup_cons in H3 as [H3 H4]. rewrite NoDup_app. set_solver. }
  unfold unlink. destruct (decide (head d = Some t)) as [Hh|Hh].
  - assert (pre = []) as ->.
    { destruct pre as [|[l0 a0] pre]; [done|]. destruct Hp as [Hp _]. rewrite Hh in Hp. simplify_eq.
      exfalso. apply Ht1. simpl. left. }
    eexists. split_and!; [done|done|done|done|]. constructor; simpl; try done. by apply chain_delete.
  - destruct pre as [|[p b] pre _] using rev_ind; [simpl in Hp; congruence|].
    rewrite Hpr by (by destruct pre). assert (last (pre ++ [(p, b)]).*1 = Some p) as ->
      by (rewrite fmap_app; apply last_snoc). simpl.
    pose proof Hp as (r & _ & [-> (np & Hnp & _)])%chain_app.
    assert (match ce_next n' with None => set_next p None (nodes d) | Some _ => set_next p (ce_next n') (nodes d) end
      = set_next p (ce_next n') (nodes d)) as -> by (by destruct (ce_next n')).
    unfold set_next. rewrite Hnp. simpl. assert (t <> p) as Htp.
    { intros ->. apply Ht1. rewrite fmap_app. set_solver. }
    rewrite fmap_app in Hnd'. apply NoDup_app in Hnd' as (Hnd1 & Hnd2 & Hnd3).
    eexists. split_and!; [done|simpl; by rewrite lookup_insert_ne by done| |done|].
    + intros l Hl. apply lookup_insert_ne. intros ->. apply Hl. rewrite fmap_app. set_solver.
    + constructor; simpl.
      * apply chain_delete; [done|]. by eapply chain_relink.
      * apply chain_delete; [done|]. apply chain_insert; [|done]. apply Hnd2. rewrite fmap_app. set_solver.
      * rewrite fmap_app. by apply NoDup_app.
      * intros _. rewrite fmap_app. symmetry. apply last_snoc.
Qed.

Lemma deregistr_loop_spec fuel param pre rest tmp prev d :
  dereg_inv d pre rest tmp prev -> (length rest <= fuel)%nat ->
  exists d', deregistr_loop fuel param tmp prev d = Some d' /\
    disp_inv d' (pre ++ others param rest) /\ ipacm_event_stats d' = ipacm_event_stats d /\
    (forall l, (l ∉ (pre ++ rest).*1) -> nodes d' !! l = nodes d !! l) /\
    (forall l e, (l, (e, param)) ∈ rest -> nodes d' !! l = None).
Proof.
  revert fuel pre tmp prev d. induction rest as [|[t [e o]] rest IH]; intros fuel pre tmp prev d Hi Hf.
  - destruct Hi as [Hp Hr Hnd _]. simpl in Hr. subst tmp. exists d. destruct fuel; simpl;
      (split_and!; [done| |done|done|by intros ? ? ?%not_elem_of_nil]);
      rewrite app_nil_r in *; by constructor.
  - destruct fuel as [|fuel]; simpl in Hf; [lia|]. pose proof Hi as [Hp [-> (n & Hn & Hv & Hr)] Hnd Hpr].
    simpl. rewrite Hn. simpl. unfold reg_of in Hv. injection Hv as <- <-.
    unfold others. rewrite filter_cons. simpl. destruct (decide (ce_obj n = param)) as [Ho|Ho].
    + destruct (unlink_inv _ _ _ _ _ _ _ Hi Hn) as (d1 & -> & Hn' & Hk & Hst & Hi'). simpl.
      rewrite Hn'. simpl. rewrite decide_False by (intros ?; done). rewrite <- Hst.
      destruct (IH fuel pre _ _ _ Hi') as (d' & Hd & Hinv & Hs & Hfr & Hgone); [lia|].
      exists d'. split_and!; [done|done|done| |].
      * intros l Hl. rewrite fmap_app in Hl. simpl in Hl.
        rewrite Hfr by (rewrite fmap_app; set_solver+Hl). simpl.
        rewrite lookup_delete_ne by set_solver+Hl. apply Hk. set_solver+Hl.
      * intros l e' [Heq|Hl]%elem_of_cons; [|by eapply Hgone]. injection Heq as -> _ _.
        rewrite fmap_app in Hnd. simpl in Hnd. apply NoDup_app in Hnd as (_ & H2' & H3').
        apply NoDup_cons in H3' as [H3' _]. rewrite Hfr; simpl; [apply lookup_delete_eq|].
        rewrite fmap_app. intros [?|?]%elem_of_app; [|done]. eapply H2'; [done|left].
    + rewrite decide_True by done.
      assert (dereg_inv d (pre ++ [(t, reg_of n)]) rest (ce_next n) (Some t)) as Hi'.
      { constructor; [|done| |].
        - apply chain_app. exists (Some t). split; [done|]. simpl. split; [done|]. by exists n.
        - by rewrite <- app_assoc.
        - intros _. rewrite fmap_app. symmetry. apply last_snoc. }
      destruct (IH fuel _ _ _ _ Hi') as (d' & Hd & Hinv & Hs & Hfr & Hgone); [lia|].
      exists d'. rewrite <- app_assoc in *. split_and!; [done|done|done|exact Hfr|].
      intros l e' [Heq|Hl]%elem_of_cons; [|by eapply Hgone]. congruence.
Qed.

Lemma deregistr_spec param d ls :
  disp_inv d ls ->
  exists d', deregistr param d = Some (IPACM_SUCCESS, d') /\ disp_inv d' (others param ls) /\
    ipacm_event_stats d' = ipacm_event_stats d /\
    (forall l e, (l, (e, param)) ∈ ls -> nodes d' !! l = None).
Proof.
  intros [Hc Hnd]. unfold deregistr.
  destruct (deregistr_loop_spec (size (nodes d)) param [] ls (head d) (head d) d)
    as (d' & -> & Hi & Hs & _ & Hg); [by constructor|by eapply chain_size|].
  simpl. eauto.
Qed.

(** ** Delivery *)

(** A listener acts on the world; one that deletes itself ([delete this], whose
    destructor deregisters) also leaves the list. *)
Definition listener_cb (leaves : Obj -> ipa_cm_event_id -> bool)
    (act : Obj -> ipa_cm_event_id -> option D -> W -> W)
    (o : Obj) (e : ipa_cm_event_id) (x : option D) d w : option (disp * W) :=
  if leaves o e then '(_, d) ← deregistr o d; Some (d, act o e x w)
  else Some (d, act o e x w).

Lemma listener_cb_leaves leaves act o e x d w d' :
  leaves o e = true -> deregistr o d = Some (IPACM_SUCCESS, d') ->
  listener_cb leaves act o e x d w = Some (d', act o e x w).
Proof. intros Hl Hd. unfold listener_cb. by rewrite Hl, Hd. Qed.

Lemma listener_cb_stays leaves act o e x d w :
  leaves o e = false -> listener_cb leaves act o e x d w = Some (d, act o e x w).
Proof. intros Hl. unfold listener_cb. by rewrite Hl. Qed.

(** The listeners registered for an event, in registration order. *)
Definition registered (e : ipa_cm_event_id) (ls : list (loc * (ipa_cm_event_id * Obj))) : list Obj :=
  omap (fun x => if decide (e = fst (snd x)) then Some (snd (snd x)) else None) ls.

Lemma bump_inv e d ls : disp_inv d ls -> disp_inv (bump e d) ls.
Proof. by intros [? ?]. Qed.

Lemma others_app param ls1 ls2 : others param (ls1 ++ ls2) = others param ls1 ++ others param ls2.
Proof. apply filter_app. Qed.

Lemma others_id param ls : Forall (fun x => snd (snd x) <> param) ls -> others param ls = ls.
Proof.
  unfold others. induction 1 as [|x ls Hx _ IH]; [done|].
  rewrite filter_cons, decide_True by done. by rewrite IH.
Qed.

(** The suffix of a list starts at the same node in both heaps. *)
Lemma chain_suffix h h' p pre rest tmp :
  chain ce_next reg_of h' p (pre ++ rest) None -> chain ce_next reg_of h tmp rest None ->
  chain ce_next reg_of h' tmp rest None.
Proof.
  intros (r & _ & Hr)%chain_app Hc. destruct rest as [|[l a] rest]; simpl in *; [done|].
  destruct Hc as [-> _]. by destruct Hr as [-> ?].
Qed.

Lemma process_loop_spec leaves act ev x fuel pre rest tmp d w :
  disp_inv d (pre ++ rest) -> chain ce_next reg_of (nodes d) tmp rest None -> (length rest <= fuel)%nat ->
  (forall r1 l o r2, rest = r1 ++ (l, (ev, o)) :: r2 -> leaves o ev = true ->
     Forall (fun x => snd (snd x) <> o) r2) ->
  exists d', process_loop (listener_cb leaves act) fuel ev x tmp d w =
      Some (d', fold_left (fun w o => act o ev x w) (registered ev rest) w) /\
    disp_inv d' (fold_left (fun ls o => if leaves o ev then others o ls else ls)
                   (registered ev rest) (pre ++ rest)) /\
    ipacm_event_stats d' ev = Nat.iter (length (registered ev rest)) (uinc 32) (ipacm_event_stats d ev).
Proof.
  revert fuel pre tmp d w. induction rest as [|[t [e o]] rest IH]; intros fuel pre tmp d w Hi Hc Hf Hl.
  - simpl in Hc. subst tmp. exists d. by destruct fuel.
  - destruct fuel as [|fuel]; simpl in Hf; [lia|]. destruct Hc as [-> (n & Hn & Hv & Hc)].
    assert (forall r1 l o r2, rest = r1 ++ (l, (ev, o)) :: r2 -> leaves o ev = true ->
      Forall (fun x => snd (snd x) <> o) r2) as Hl'.
    { intros r1 l o' r2 ->. apply (Hl ((t, (e, o)) :: r1) l). done. }
    unfold registered. simpl. rewrite Hn. simpl. unfold reg_of in Hv. injection Hv as <- <-.
    destruct (decide (ev = ce_event n)) as [He|He]; simpl; fold (registered ev rest).
    + destruct (leaves (ce_obj n) ev) eqn:Elv.
      * destruct (deregistr_spec (ce_obj n) _ _ (bump_inv ev _ _ Hi)) as (d1 & Hd1 & Hi1 & Hs1 & _).
        rewrite (listener_cb_leaves _ _ _ _ _ _ _ _ Elv Hd1). simpl.
        assert (others (ce_obj n) (pre ++ (t, (ce_event n, ce_obj n)) :: rest) = others (ce_obj n) pre ++ rest) as Ho.
        { rewrite others_app. f_equal. unfold others. rewrite filter_cons. simpl.
          rewrite decide_False by (intros ?; done). apply others_id.
          apply (Hl [] t); [by rewrite He|done]. }
        rewrite Ho in *. pose proof (chain_suffix _ _ _ _ _ _ (di_chain _ _ Hi1) Hc) as Hc1.
        destruct (IH fuel _ _ _ (act (ce_obj n) ev x w) Hi1 Hc1 ltac:(lia) Hl') as (d' & -> & Hi' & Hs').
        exists d'. split_and!; [done|done|]. rewrite Hs', Hs1. simpl. rewrite decide_True by done.
        apply Nat.iter_swap.
      * rewrite listener_cb_stays by done. rewrite cons_middle, app_assoc in *. simpl.
        destruct (IH fuel _ _ _ (act (ce_obj n) ev x w) (bump_inv ev _ _ Hi) Hc ltac:(lia) Hl') as (d' & -> & Hi' & Hs').
        exists d'. split_and!; [done|done|]. rewrite Hs'. simpl. rewrite decide_True by done.
        apply Nat.iter_swap.
    + rewrite cons_middle, app_assoc in *. apply IH; [done|done|lia|done].
Qed.

(** C11. [ProcessEvt] calls back exactly the listeners registered for the event,
  in registration order, counts each call, and lets a listener delete itself
  while the list is walked, provided the event it deletes itself on is the
  last one it registered for. *)
Theorem ProcessEvt_delivers leaves act ev x d ls w :
  disp_inv d ls ->
  (forall r1 l o r2, ls = r1 ++ (l, (ev, o)) :: r2 -> leaves o ev = true ->
     Forall (fun x => snd (snd x) <> o) r2) ->
  exists d', ProcessEvt (listener_cb leaves act) (length ls) ev x d w =
      Some (d', fold_left (fun w o => act o ev x w) (registered ev ls) w) /\
    disp_inv d' (fold_left (fun ls o => if leaves o ev then others o ls else ls) (registered ev ls) ls) /\
    ipacm_event_stats d' ev = Nat.iter (length (registered ev ls)) (uinc 32) (ipacm_event_stats d ev).
Proof.
  intros Hi Hl. unfold ProcessEvt.
  apply (process_loop_spec leaves act ev x (length ls) []); [done|apply Hi|done|done].
Qed.

Lemma process_loop_uaf leaves act ev x fuel pre r1 t o l2 e2 r2 tmp d w :
  disp_inv d (pre ++ r1 ++ (t, (ev, o)) :: (l2, (e2, o)) :: r2) ->
  chain ce_next reg_of (nodes d) tmp (r1 ++ (t, (ev, o)) :: (l2, (e2, o)) :: r2) None ->
  Forall (fun x => fst (snd x) = ev -> leaves (snd (snd x)) ev = false) r1 -> leaves o ev = true ->
  process_loop (listener_cb leaves act) fuel ev x tmp d w = None.
Proof.
  revert fuel pre tmp d w. induction r1 as [|[t1 [e1 o1]] r1 IH]; intros fuel pre tmp d w Hi Hc Hr1 Hlv;
    simpl in Hc; destruct Hc as [-> (n & Hn & Hv & Hc)]; (destruct fuel as [|fuel]; [done|]);
    simpl; rewrite Hn; simpl; unfold reg_of in Hv; injection Hv as <- <-.
  - rewrite decide_True by done. destruct Hc as [Hnx (n2 & Hn2 & Hv2 & _)].
    destruct (deregistr_spec (ce_obj n) _ _ (bump_inv (ce_event n) _ _ Hi)) as (d1 & Hd1 & _ & _ & Hg).
    rewrite (listener_cb_leaves _ _ _ _ _ _ _ _ Hlv Hd1). simpl. rewrite Hnx.
    destruct fuel as [|fuel]; [done|]. simpl. rewrite (Hg l2 e2); [done|]. set_solver.
  - apply Forall_cons in Hr1 as [Ho1 Hr1]. simpl in Ho1.
    assert (disp_inv d ((pre ++ [(t1, reg_of n)]) ++ r1 ++ (t, (ev, o)) :: (l2, (e2, o)) :: r2)) as Hi'
      by (by rewrite <- app_assoc). clear Hi. rename Hi' into Hi.
    destruct (decide (ev = ce_event n)); [|simpl; eapply IH; [exact Hi|exact Hc|exact Hr1|exact Hlv]].
    rewrite listener_cb_stays by (by apply Ho1). simpl. eapply IH; [by apply bump_inv|exact Hc|exact Hr1|exact Hlv].
Qed.

(** A listener that deletes itself on an event and whose next registration
  directly follows breaks the walk: the node [ProcessEvt] goes on to is already
  freed.  [IPACM_IfaceManager] registers the WLAN interface for
  [IPA_LAN_DELETE_SELF] and then for [IPA_TETHERING_STATS_UPDATE_EVENT]. *)
Theorem ProcessEvt_self_delete_uaf leaves act ev x fuel r1 t o l2 e2 r2 d w :
  disp_inv d (r1 ++ (t, (ev, o)) :: (l2, (e2, o)) :: r2) ->
  Forall (fun x => fst (snd x) = ev -> leaves (snd (snd x)) ev = false) r1 -> leaves o ev = true ->
  ProcessEvt (listener_cb leaves act) fuel ev x d w = None.
Proof. intros Hi Hr1 Hlv. eapply (process_loop_uaf _ _ _ _ _ []); try done. apply Hi. Qed.
(** *** Registrations over time *)

Inductive reg_op := Registr (event : ipa_cm_event_id) (obj : Obj) | Deregistr (param : Obj).

(** [malloc] as a function from the heap; it returns a free location. *)
Context (malloc : gmap loc cmd_evts -> loc) (malloc_fresh : forall h, h !! malloc h = None).

Definition run_reg (op : reg_op) d : option (Z * disp) :=
  match op with
  | Registr e o => registr (Some (malloc (nodes d))) e o d
  | Deregistr o => deregistr o d
  end.

Fixpoint run_regs (ops : list reg_op) d : option disp :=
  match ops with
  | [] => Some d
  | op :: ops => '(_, d) ← run_reg op d; run_regs ops d
  end.

(** The reference: a list of registrations. *)
Definition reg_spec (rs : list (ipa_cm_event_id * Obj)) (op : reg_op) : list (ipa_cm_event_id * Obj) :=
  match op with
  | Registr e o => rs ++ [(e, o)]
  | Deregistr o => filter (fun r => snd r <> o) rs
  end.

Lemma others_values o ls : (others o ls).*2 = filter (fun r => snd r <> o) ls.*2.
Proof.
  unfold others. induction ls as [|x ls IH]; [done|]. rewrite fmap_cons, !filter_cons.
  destruct (decide (snd (snd x) <> o)); by rewrite ?fmap_cons, IH.
Qed.

(** C12. The linked list of registrations behaves as a plain list: every sequence
  of [registr] and [deregistr] runs without touching a freed node and leaves
  the registrations, in order, that the reference computes. *)
Theorem dispatcher_refines_list ops d ls :
  disp_inv d ls ->
  exists d' ls', run_regs ops d = Some d' /\ disp_inv d' ls' /\ ls'.*2 = fold_left reg_spec ops ls.*2.
Proof.
  revert d ls. induction ops as [|op ops IH]; intros d ls Hi; simpl; [by exists d, ls|].
  assert (exists ret d1 ls1, run_reg op d = Some (ret, d1) /\ disp_inv d1 ls1 /\
    ls1.*2 = reg_spec ls.*2 op) as (ret & d1 & ls1 & -> & Hi1 & <-).
  { destruct op as [e o|o]; cbn [run_reg reg_spec].
    - destruct (registr_spec d ls _ e o Hi (malloc_fresh (nodes d))) as (d' & -> & Hi' & _).
      eexists _, _, _. split_and!; [done|done|]. by rewrite fmap_app.
    - destruct (deregistr_spec o d ls Hi) as (d' & -> & Hi' & _).
      eexists _, _, _. split_and!; [done|done|]. apply others_values. }
  simpl. by apply IH.
Qed.
End dispatcher.

(** ** A concrete dispatcher

    Listener 1 is the interface manager, listener 2 a WLAN interface with the end
    of its registrations on Android. *)

Definition disp_empty : disp (Obj := nat) :=
  {| head := None; nodes := ∅; ipacm_event_stats := fun _ => 0%Z |}.

Definition fresh_loc (h : gmap loc (cmd_evts (Obj := nat))) : loc := infinite_fresh (map_to_list h).*1.

Lemma fresh_loc_ok h : h !! fresh_loc h = None.
Proof.
  apply eq_None_not_Some. intros [n Hn%elem_of_map_to_list]. apply (infinite_is_fresh (map_to_list h).*1).
  apply list_elem_of_fmap. by exists (fresh_loc h, n).
Qed.

Definition example_regs : list reg_op :=
  [Registr IPA_LINK_UP_EVENT 1%nat; Registr IPA_WLAN_LINK_DOWN_EVENT 2%nat;
   Registr IPA_LAN_DELETE_SELF 2%nat; Registr IPA_TETHERING_STATS_UPDATE_EVENT 2%nat].

Definition self_delete (o : nat) (e : ipa_cm_event_id) : bool :=
  bool_decide (e = IPA_LAN_DELETE_SELF).

Definition log_call (o : nat) (e : ipa_cm_event_id) (x : option unit) (w : list nat) : list nat := w ++ [o].

Lemma disp_empty_inv : disp_inv disp_empty [].
Proof. by constructor; [|constructor]. Qed.

Lemma dispatcher_refines_list_witness :
  exists d ls, run_regs fresh_loc (example_regs ++ [Deregistr 2%nat]) disp_empty = Some d /\
    disp_inv d ls /\ ls.*2 = [(IPA_LINK_UP_EVENT, 1%nat)].
Proof.
  destruct (dispatcher_refines_list fresh_loc fresh_loc_ok (example_regs ++ [Deregistr 2%nat])
    disp_empty [] disp_empty_inv) as (d & ls & Hr & Hi & Hl).
  exists d, ls. by split_and!.
Defined.

Lemma example_disp :
  exists d ls, run_regs fresh_loc example_regs disp_empty = Some d /\ disp_inv d ls /\
    ls.*2 = [(IPA_LINK_UP_EVENT, 1%nat); (IPA_WLAN_LINK_DOWN_EVENT, 2%nat); (IPA_LAN_DELETE_SELF, 2%nat);
             (IPA_TETHERING_STATS_UPDATE_EVENT, 2%nat)].
Proof.
  destruct (run_regs fresh_loc example_regs disp_empty) as [d|] eqn:E; vm_compute in E; [|done].
  injection E as <-. eexists _, [(1, _); (2, _); (3, _); (4, _)]%positive. split_and!; [done| |].
  - constructor; [|by apply (bool_decide_unpack _); vm_compute].
    simpl. repeat (split; [reflexivity|]; eexists; split; [reflexivity|]; split; [reflexivity|]).
    reflexivity.
  - reflexivity.
Qed.

Lemma ProcessEvt_self_delete_uaf_witness :
  exists d, run_regs fresh_loc example_regs disp_empty = Some d /\
    ProcessEvt (listener_cb self_delete log_call) 10 IPA_LAN_DELETE_SELF None d [] = None.
Proof.
  destruct example_disp as (d & ls & Hr & Hi & Hv). exists d. split; [exact Hr|].
  destruct ls as [|[l1 a1] [|[l2 a2] [|[l3 a3] [|[l4 a4] [|? ?]]]]]; try discriminate Hv.
  injection Hv as -> -> -> ->.
  eapply (ProcessEvt_self_delete_uaf self_delete log_call IPA_LAN_DELETE_SELF None 10
    [(l1, (IPA_LINK_UP_EVENT, 1%nat)); (l2, (IPA_WLAN_LINK_DOWN_EVENT, 2%nat))] l3 2%nat l4
    IPA_TETHERING_STATS_UPDATE_EVENT []); [exact Hi| |reflexivity].
  by repeat constructor.
Defined.

Definition example_regs2 : list reg_op :=
  [Registr IPA_LAN_DELETE_SELF 3%nat; Registr IPA_LINK_DOWN_EVENT 2%nat; Registr IPA_LAN_DELETE_SELF 2%nat;
   Registr IPA_LAN_DELETE_SELF 1%nat].

Lemma ProcessEvt_delivers_witness :
  exists d d', run_regs fresh_loc example_regs2 disp_empty = Some d /\
    ProcessEvt (listener_cb self_delete log_call) 4 IPA_LAN_DELETE_SELF None d [] = Some (d', [3; 2; 1]%nat).
Proof.
  destruct (dispatcher_refines_list fresh_loc fresh_loc_ok example_regs2 disp_empty [] disp_empty_inv)
    as (d & ls & Hr & Hi & Hv). simpl in Hv.
  destruct ls as [|[l1 a1] [|[l2 a2] [|[l3 a3] [|[l4 a4] [|? ?]]]]]; try discriminate Hv.
  injection Hv as -> -> -> ->.
  destruct (ProcessEvt_delivers self_delete log_call IPA_LAN_DELETE_SELF None d
    [(l1, (IPA_LAN_DELETE_SELF, 3%nat)); (l2, (IPA_LINK_DOWN_EVENT, 2%nat));
     (l3, (IPA_LAN_DELETE_SELF, 2%nat)); (l4, (IPA_LAN_DELETE_SELF, 1%nat))] [] Hi) as (d' & Hp & _).
  - intros r1 l o r2 Hs _.
    clear Hr Hi. destruct r1 as [|? [|? [|? [|? r1]]]]; simplify_eq/=; repeat constructor; simpl; try lia.
    by destruct r1.
  - exists d, d'. split; [exact Hr|exact Hp].
Defined.
