(* ===== verification/CtListener.v ===== *)
(** * The conntrack listener ([IPACM_ConntrackListener.cpp])

    The listener turns conntrack messages and interface events into operations
    of the NAT cache.  The build leaves CT_OPT undefined, so there is no
    lan-to-lan branch.  A handler takes the listener, the world behind driver and
    libraries, and returns [None] where the source dereferences a null or freed
    pointer, reads an array out of bounds or a payload of the wrong type. *)
From S2P Require Import Prelude Defs Config NatDrv NatApp NatAppSync NatAppProps.
From stdpp Require Import base list gmap strings.
From Stdlib Require Import ZArith Lia.

Open Scope Z_scope.

Definition MAX_NAT_IFACES : nat := 50.
Definition MAX_STA_CLNT_IFACES : nat := 10.

(** Values of libnetfilter_conntrack and the kernel. *)
Definition NFCT_T_NEW : Z := 1.
Definition NFCT_T_DESTROY : Z := 4.
Definition IPS_SRC_NAT : Z := 16.
Definition IPS_DST_NAT : Z := 32.
Definition TCP_CONNTRACK_ESTABLISHED : Z := 3.
Definition TCP_CONNTRACK_FIN_WAIT : Z := 4.

(** What [nfct_get_attr_*] reads from a [struct nf_conntrack]; addresses and
    ports are in network order. *)
Record nf_conntrack := {
  ATTR_STATUS : Z;
  ATTR_ORIG_L4PROTO : Z;
  ATTR_REPL_L4PROTO : Z;
  ATTR_TCP_STATE : Z;
  ATTR_ORIG_IPV4_SRC : Z;
  ATTR_ORIG_IPV4_DST : Z;
  ATTR_ORIG_PORT_SRC : Z;
  ATTR_ORIG_PORT_DST : Z;
  ATTR_REPL_IPV4_SRC : Z;
  ATTR_REPL_PORT_SRC : Z;
  ATTR_REPL_PORT_DST : Z
}.

(** [ntohl] and [ntohs] swap like their inverses. *)
Definition ntohl : Z -> Z := htonl.
Definition ntohs : Z -> Z := htons.

(** [class IPACM_ConntrackListener]; [has_config] says that [pConfig] is set,
    [pNatIfaces] is the listener's copy of the interface names. *)
Record IPACM_ConntrackListener := {
  isCTReg : bool;
  isNatThreadStart : bool;
  WanUp : bool;
  nat_inst : cptr NatApp;
  NatIfaceCnt : Z;
  StaClntCnt : Z;
  ct_pNatIfaces : option (list string);
  nat_iface_ipv4_addr : list Z;
  nonnat_iface_ipv4_addr : list Z;
  sta_clnt_ipv4_addr : list Z;
  has_config : bool;
  wan_ifname : string;
  wan_ipaddr : Z;
  isStaMode : bool
}.

#[export] Instance IPACM_ConntrackListener_eta : Settable IPACM_ConntrackListener :=
  fun r => Build_IPACM_ConntrackListener (isCTReg r) (isNatThreadStart r) (WanUp r) (nat_inst r)
    (NatIfaceCnt r) (StaClntCnt r) (ct_pNatIfaces r) (nat_iface_ipv4_addr r)
    (nonnat_iface_ipv4_addr r) (sta_clnt_ipv4_addr r) (has_config r) (wan_ifname r)
    (wan_ipaddr r) (isStaMode r).

(** The constructor over raw memory [mem], which keeps the WAN fields, with the
    NAT instance [NatApp::GetInstance] returned. *)
Definition IPACM_ConntrackListener_ctor (mem : IPACM_ConntrackListener) (nat : cptr NatApp) :
    IPACM_ConntrackListener :=
  {| isCTReg := false; isNatThreadStart := false; WanUp := false; nat_inst := nat;
     NatIfaceCnt := 0; StaClntCnt := 0; ct_pNatIfaces := None;
     nat_iface_ipv4_addr := replicate MAX_NAT_IFACES 0;
     nonnat_iface_ipv4_addr := replicate MAX_NAT_IFACES 0;
     sta_clnt_ipv4_addr := replicate MAX_STA_CLNT_IFACES 0; has_config := false;
     wan_ifname := wan_ifname mem; wan_ipaddr := wan_ipaddr mem; isStaMode := isStaMode mem |}.

(** The events the constructor registers for, in order. *)
Definition listener_events : list ipa_cm_event_id :=
  [IPA_HANDLE_WAN_UP; IPA_HANDLE_WAN_DOWN; IPA_PROCESS_CT_MESSAGE; IPA_PROCESS_CT_MESSAGE_V6;
   IPA_HANDLE_WLAN_UP; IPA_HANDLE_LAN_UP].

(** [IPACM_ConntrackClient]'s filter updates, as the listener calls them. *)
Class CtFilters (W : Type) := {
  UpdateUDPFilters : ipacm_event_iface_up -> bool -> W -> W;
  UpdateTCPFilters : ipacm_event_iface_up -> bool -> W -> W
}.

(** ** Threads *)

(** [ok_tcp] and [ok_udp]: the outcomes of [pthread_create]. *)
Definition CreateConnTrackThreads (ok_tcp ok_udp : bool) (st : IPACM_ConntrackListener) :
    Z * IPACM_ConntrackListener :=
  if isCTReg st then (0, st)
  else if negb ok_tcp then (-1, st)
  else if negb ok_udp then (-1, st)
  else (0, st <| isCTReg := true |>).

Definition CreateNatThreads (ok_cto ok_mon : bool) (st : IPACM_ConntrackListener) :
    Z * IPACM_ConntrackListener :=
  if isNatThreadStart st then (0, st)
  else if negb ok_cto then (-1, st)
  else if negb ok_mon then (-1, st)
  else (0, st <| isNatThreadStart := true |>).

(** ** From a conntrack message to a rule

    [ProcessTCPorUDPMsg] works in stages; a stage that leaves the function
    yields [None]. *)

(** Which way the connection is translated: the status bits decide, and without
    them the WAN address.  [true] is IPS_DST_NAT; the second component is the
    [public_ip] stored, a [uint16_t]. *)
Definition ct_direction (wan : Z) (ct : nf_conntrack) : option (bool * Z) :=
  if negb (Z.land IPS_DST_NAT (ATTR_STATUS ct) =? 0) then Some (true, 0)
  else if negb (Z.land IPS_SRC_NAT (ATTR_STATUS ct) =? 0) then Some (false, 0)
  else
    let orig_src_ip := ntohl (ATTR_ORIG_IPV4_SRC ct) in
    if orig_src_ip =? 0 then None else
    let orig_dst_ip := ntohl (ATTR_ORIG_IPV4_DST ct) in
    if orig_dst_ip =? 0 then None else
    if orig_src_ip =? wan then Some (false, trunc 16 wan)
    else if orig_dst_ip =? wan then Some (true, trunc 16 wan)
    else None.

(** The tuple of a destination-NAT connection. *)
Definition dst_nat_rule (ct : nf_conntrack) (pub : Z) : nat_table_entry :=
  {| private_ip := ntohl (ATTR_REPL_IPV4_SRC ct); private_port := ntohs (ATTR_REPL_PORT_SRC ct);
     target_ip := ntohl (ATTR_ORIG_IPV4_SRC ct); target_port := ntohs (ATTR_ORIG_PORT_SRC ct);
     public_ip := pub; public_port := ntohs (ATTR_ORIG_PORT_DST ct);
     protocol := ATTR_REPL_L4PROTO ct; timestamp := 0; dst_nat := true; enabled := false;
     rule_hdl := 0 |}.

(** The tuple of a source-NAT connection. *)
Definition src_nat_rule (ct : nf_conntrack) (pub : Z) : nat_table_entry :=
  {| private_ip := ntohl (ATTR_ORIG_IPV4_SRC ct); private_port := ntohs (ATTR_ORIG_PORT_SRC ct);
     target_ip := ntohl (ATTR_ORIG_IPV4_DST ct); target_port := ntohs (ATTR_ORIG_PORT_DST ct);
     public_ip := pub; public_port := ntohs (ATTR_REPL_PORT_DST ct);
     protocol := ATTR_REPL_L4PROTO ct; timestamp := 0; dst_nat := false; enabled := false;
     rule_hdl := 0 |}.

Definition ct_rule (ct : nf_conntrack) (dir : bool * Z) : nat_table_entry :=
  let '(is_dst, pub) := dir in if is_dst then dst_nat_rule ct pub else src_nat_rule ct pub.

(** What becomes of a rule: left alone, parked as temporary, or handled. *)
Inductive verdict := Ignore | Handle (isTempEntry : bool) (rule : nat_table_entry).

Definition nat_iface_match (rule : nat_table_entry) (st : IPACM_ConntrackListener) : bool :=
  existsb (fun a => negb (a =? 0) && ((private_ip rule =? a) || (target_ip rule =? a)))
    (nat_iface_ipv4_addr st).

(** The interface check; [cfg] is the configuration instance. *)
Definition ct_ifaces (cfg : cptr IPACM_Config) (rule : nat_table_entry) (st : IPACM_ConntrackListener) :
    option verdict :=
  if negb (private_ip rule =? wan_ipaddr st) then
    if nat_iface_match rule st then Some (Handle false rule)
    else match cfg with
         | Null => Some Ignore
         | Dangling => None
         | Live c => Some (if isPrivateSubnet c (private_ip rule) || isPrivateSubnet c (target_ip rule)
                           then Handle true rule else Ignore)
         end
  else if isStaMode st then Some Ignore
  else Some (Handle false (rule <| private_port := public_port rule |>)).

(** In STA mode only known clients of the STA network are offloaded. *)
Definition sta_clnt_ok (rule : nat_table_entry) (st : IPACM_ConntrackListener) : bool :=
  negb (isStaMode st) || (StaClntCnt st =? 0) ||
  negb (Z.land (nth 0 (sta_clnt_ipv4_addr st) 0) 0xFFFFFF00 =? Z.land (target_ip rule) 0xFFFFFF00) ||
  existsb (fun a => target_ip rule =? a) (take (Z.to_nat (StaClntCnt st)) (sta_clnt_ipv4_addr st)).

Section handlers.
Context {W : Type} `{NatDrv W} `{NfctLib W} `{CtFilters W}.
Implicit Types (st : IPACM_ConntrackListener) (w : W).

(** A call on [nat_inst]; a null or freed instance is undefined. *)
Definition on_nat (f : NatApp -> W -> option (NatApp * W)) st w : option (IPACM_ConntrackListener * W) :=
  match nat_inst st with
  | Live n => '(n, w) ← f n w; Some (st <| nat_inst := Live n |>, w)
  | _ => None
  end.

(** The operation chosen at label ADD for the protocol, the TCP state, the
    message type and the state of the WAN; [cnt0] is the value of
    [CacheEntry]'s uninitialised counter. *)
Definition ct_add (cnt0 : Z) (isTempEntry : bool) (rule : nat_table_entry) st : natapp_op :=
  if negb (WanUp st) then OpCacheEntry cnt0 rule
  else if isTempEntry then OpAddTempEntry rule else OpAddEntry rule.

Definition ct_del (isTempEntry : bool) (rule : nat_table_entry) : natapp_op :=
  if isTempEntry then OpDeleteTempEntry rule else OpDeleteEntry rule.

Definition ct_operation (cnt0 : Z) (ct : nf_conntrack) (type : Z) (isTempEntry : bool)
    (rule : nat_table_entry) st : option natapp_op :=
  if IPPROTO_TCP =? protocol rule then
    if TCP_CONNTRACK_ESTABLISHED =? ATTR_TCP_STATE ct then Some (ct_add cnt0 isTempEntry rule st)
    else if (TCP_CONNTRACK_FIN_WAIT =? ATTR_TCP_STATE ct) || (type =? NFCT_T_DESTROY)
    then Some (ct_del isTempEntry rule)
    else None
  else if IPPROTO_UDP =? protocol rule then
    if NFCT_T_NEW =? type then Some (ct_add cnt0 isTempEntry rule st)
    else if NFCT_T_DESTROY =? type then Some (ct_del isTempEntry rule)
    else None
  else None.

Definition ct_dispatch (cnt0 : Z) (ct : nf_conntrack) (type : Z) (isTempEntry : bool)
    (rule : nat_table_entry) st w : option (IPACM_ConntrackListener * W) :=
  match ct_operation cnt0 ct type isTempEntry rule st, nat_inst st with
  | None, _ | _, Null => Some (st, w)
  | Some op, _ => on_nat (run_op op) st w
  end.

Definition ProcessTCPorUDPMsg (cfg : cptr IPACM_Config) (cnt0 : Z) (ct : nf_conntrack) (type : Z)
    st w : option (IPACM_ConntrackListener * W) :=
  match ct_direction (wan_ipaddr st) ct with
  | None => Some (st, w)
  | Some dir =>
      v ← ct_ifaces cfg (ct_rule ct dir) st;
      match v with
      | Ignore => Some (st, w)
      | Handle isTempEntry rule =>
          if sta_clnt_ok rule st then ct_dispatch cnt0 ct type isTempEntry rule st w
          else Some (st, w)
      end
  end.

Definition ProcessCTMessage (cfg : cptr IPACM_Config) (cnt0 : Z) (ct : nf_conntrack) (type : Z)
    st w : option (IPACM_ConntrackListener * W) :=
  let l4proto := ATTR_ORIG_L4PROTO ct in
  if negb (IPPROTO_UDP =? l4proto) && negb (IPPROTO_TCP =? l4proto) then Some (st, w)
  else ProcessTCPorUDPMsg cfg cnt0 ct type st w.

(** ** Interfaces and clients *)

Definition TriggerWANUp (ok_cto ok_mon : bool) (up : ipacm_event_iface_up) st w :
    option (IPACM_ConntrackListener * W) :=
  if up_ipv4_addr up =? 0 then Some (st, w)
  else
    let st := st <| WanUp := true |> <| isStaMode := up_is_sta up |>
                 <| wan_ipaddr := up_ipv4_addr up |> <| wan_ifname := up_ifname up |> in
    '(st, w) ← match nat_inst st with
               | Null => Some (st, w)
               | _ => on_nat (run_op (OpAddTable (up_ipv4_addr up))) st w
               end;
    Some (snd (CreateNatThreads ok_cto ok_mon st), w).

Definition TriggerWANDown (wan_addr : Z) st w : option (IPACM_ConntrackListener * W) :=
  let st := st <| WanUp := false |> in
  match nat_inst st with
  | Null => Some (st, w)
  | _ => on_nat (run_op (OpDeleteTable wan_addr)) st w
  end.

(** The refresh of the interface names at the head of
    [HandleNeighIpAddrAddEvt]: [false] when the handler returns early;
    [alloc_ok] is the outcome of [malloc]. *)
Definition refresh_nat_ifaces (cfg : cptr IPACM_Config) (alloc_ok : bool) st :
    option (bool * IPACM_ConntrackListener) :=
  match cfg with
  | Null => Some (false, st)
  | Dangling => None
  | Live c =>
      let cnt := GetNatIfacesCnt c in
      let st := st <| has_config := true |> <| NatIfaceCnt := cnt |> <| ct_pNatIfaces := None |> in
      if negb alloc_ok then Some (false, st)
      else
        let blank := replicate (Z.to_nat cnt) EmptyString in
        '(ret, names) ← GetNatIfaces cnt c;
        let st := st <| ct_pNatIfaces := Some (match names with Some l => l | None => blank end) |> in
        Some (ret =? 0, st)
  end.

(** The loop that stores a NAT address: the slot that already holds it, or the
    first free one. *)
Definition nat_slot (ip : Z) st : option nat :=
  find_index (fun a => (a =? ip) || (a =? 0)) (nat_iface_ipv4_addr st).

Definition store_nat_addr (ip : Z) (j : nat) st w : option (IPACM_ConntrackListener * W) :=
  if nth j (nat_iface_ipv4_addr st) 0 =? ip then Some (st, w)
  else
    let st := st <| nat_iface_ipv4_addr := <[j := ip]> (nat_iface_ipv4_addr st) |> in
    '(st, w) ← on_nat (run_op (OpResetPwrSaveIf ip)) st w;
    on_nat (run_op (OpFlushTempEntries ip true)) st w.

(** An address that is not on a NAT interface, or found no NAT slot. *)
Definition store_nonnat_addr (ip : Z) st w : option (IPACM_ConntrackListener * W) :=
  match find_index (fun a => a =? 0) (nonnat_iface_ipv4_addr st) with
  | None => Some (st, w)
  | Some i =>
      on_nat (run_op (OpFlushTempEntries ip false))
        (st <| nonnat_iface_ipv4_addr := <[i := ip]> (nonnat_iface_ipv4_addr st) |>) w
  end.

(** [HandleNeighIpAddrAddEvt]; [ifr_name] is the name the kernel gives for the
    interface index, [None] when the socket or the ioctl fails. *)
Definition HandleNeighIpAddrAddEvt (cfg : cptr IPACM_Config) (alloc_ok : bool)
    (ifr_name : Z -> option string) (data : ipacm_event_data_all) st w :
    option (IPACM_ConntrackListener * W) :=
  let ip := da_ipv4_addr data in
  if (ip =? 0) || negb (bool_decide (da_iptype data = IPA_IP_v4)) then Some (st, w)
  else
    '(go, st) ← refresh_nat_ifaces cfg alloc_ok st;
    if negb go then Some (st, w)
    else
      match ifr_name (da_if_index data), ct_pNatIfaces st with
      | Some name, Some names =>
          if existsb (String.eqb name) names then
            match nat_slot ip st with
            | Some j => store_nat_addr ip j st w
            | None => store_nonnat_addr ip st w
            end
          else store_nonnat_addr ip st w
      | _, _ => Some (st, w)
      end.

Definition forget_addr (ip : Z) (l : list Z) : list Z := map (fun a => if a =? ip then 0 else a) l.

Definition HandleNeighIpAddrDelEvt (ipv4_addr : Z) st w : option (IPACM_ConntrackListener * W) :=
  if ipv4_addr =? 0 then Some (st, w)
  else
    let st := st <| nat_iface_ipv4_addr := forget_addr ipv4_addr (nat_iface_ipv4_addr st) |>
                 <| nonnat_iface_ipv4_addr := forget_addr ipv4_addr (nonnat_iface_ipv4_addr st) |> in
    '(st, w) ← on_nat (run_op (OpFlushTempEntries ipv4_addr false)) st w;
    on_nat (run_op (OpDelEntriesOnClntDiscon ipv4_addr)) st w.

(** The first slot that holds the address or is free. *)
Definition HandleSTAClientAddEvt (clnt_ip_addr : Z) st : IPACM_ConntrackListener :=
  if Z.of_nat MAX_STA_CLNT_IFACES <=? StaClntCnt st then st
  else
    match find_index (fun a => (negb (a =? 0) && (a =? clnt_ip_addr)) || (a =? 0)) (sta_clnt_ipv4_addr st) with
    | None => st
    | Some cnt =>
        if nth cnt (sta_clnt_ipv4_addr st) 0 =? 0
        then st <| sta_clnt_ipv4_addr := <[cnt := clnt_ip_addr]> (sta_clnt_ipv4_addr st) |>
                <| StaClntCnt := StaClntCnt st + 1 |>
        else st
    end.

Definition HandleSTAClientDelEvt (clnt_ip_addr : Z) st w : option (IPACM_ConntrackListener * W) :=
  match find_index (fun a => negb (a =? 0) && (a =? clnt_ip_addr)) (sta_clnt_ipv4_addr st) with
  | None => Some (st, w)
  | Some cnt =>
      '(st, w) ← on_nat (run_op (OpDelEntriesOnSTAClntDiscon clnt_ip_addr))
        (st <| sta_clnt_ipv4_addr := <[cnt := 0]> (sta_clnt_ipv4_addr st) |>) w;
      Some (st <| StaClntCnt := StaClntCnt st - 1 |>, w)
  end.

(** ** Events *)

Inductive ct_payload := PConn (ct : nf_conntrack) (type : Z) | PIface (up : ipacm_event_iface_up).

(** What the outside decides while an event is handled. *)
Record ct_env := {
  env_cfg : cptr IPACM_Config;
  env_cnt0 : Z;
  ok_tcp : bool;
  ok_udp : bool;
  ok_cto : bool;
  ok_mon : bool
}.

Definition event_callback (env : ct_env) (evt : ipa_cm_event_id) (data : option ct_payload) st w :
    option (IPACM_ConntrackListener * W) :=
  match data with
  | None => Some (st, w)
  | Some data =>
      match evt, data with
      | IPA_PROCESS_CT_MESSAGE, PConn ct type => ProcessCTMessage (env_cfg env) (env_cnt0 env) ct type st w
      | IPA_HANDLE_WAN_UP, PIface up =>
          let st := snd (CreateConnTrackThreads (ok_tcp env) (ok_udp env) st) in
          if negb (WanUp st) then TriggerWANUp (ok_cto env) (ok_mon env) up st w else Some (st, w)
      | IPA_HANDLE_WAN_DOWN, PIface up =>
          if WanUp st then TriggerWANDown (up_ipv4_addr up) st w else Some (st, w)
      | (IPA_HANDLE_WLAN_UP | IPA_HANDLE_LAN_UP), PIface up =>
          let st := snd (CreateConnTrackThreads (ok_tcp env) (ok_udp env) st) in
          Some (st, UpdateTCPFilters up false (UpdateUDPFilters up false w))
      | (IPA_PROCESS_CT_MESSAGE | IPA_HANDLE_WAN_UP | IPA_HANDLE_WAN_DOWN | IPA_HANDLE_WLAN_UP
         | IPA_HANDLE_LAN_UP), _ => None
      | _, _ => Some (st, w)
      end
  end.
End handlers.
