(* ===== verification/CtListenerProps.v ===== *)
(** * What the conntrack listener guarantees

    The handlers of [CtListener] keep the NAT cache well-formed and in step with
    the hardware, and keep the listener's own address tables consistent. *)
From S2P Require Import Prelude Defs Config NatDrv NatApp NatAppSync NatAppProps CtListener.
From stdpp Require Import base list gmap strings.
From Stdlib Require Import ZArith Lia.

Open Scope Z_scope.

(** A temporary entry's public address fits its sixteen bits. *)
Definition small_pub (e : nat_table_entry) : Prop := public_ip e < 2 ^ 16.

(** The listener's slots in use. *)
Definition in_use (l : list Z) : list Z := filter (fun a => a <> 0) l.

Record tables_ok (st : IPACM_ConntrackListener) : Prop := {
  li_sta_len : length (sta_clnt_ipv4_addr st) = MAX_STA_CLNT_IFACES;
  li_sta_cnt : StaClntCnt st = Z.of_nat (length (in_use (sta_clnt_ipv4_addr st)));
  li_nat_len : length (nat_iface_ipv4_addr st) = MAX_NAT_IFACES;
  li_nonnat_len : length (nonnat_iface_ipv4_addr st) = MAX_NAT_IFACES
}.

(** What the listener asks of the NAT cache. *)
Definition listener_op (op : natapp_op) : Prop :=
  match op with
  | OpDeleteEntry r => slot_free r = false
  | OpAddTempEntry r => small_pub r
  | _ => True
  end.

Section nat_temp.
Context {W : Type} `{NatDrv W} `{NfctLib W}.
Implicit Types (w : W) (n : NatApp).

Lemma flush_loop_temp ip b n w l :
  Forall small_pub l -> Forall small_pub (snd (loop_accum (flush_slot ip b) (n, w) l)).
Proof.
  intros Hl. refine (proj2 (loop_accum_post small_pub (fun _ => True) _ _ _ _ I)).
  intros [n1 w1] e _ He. split; [done|]. eapply Forall_forall in Hl; [|done].
  unfold flush_slot. destruct (_ || _); [|done]. destruct (b && _); [|done].
  destruct (AddEntry e n1 w1) as [[ret n2] w2]. by destruct (negb _).
Qed.

Lemma update_first_small p f l :
  Forall small_pub l -> (forall e, small_pub (f e)) -> Forall small_pub (update_first p f l).
Proof.
  intros Hl Hf. destruct (update_first_cases p f l) as [[_ ->]|(pre & x & post & -> & _ & _ & ->)]; [done|].
  apply Forall_app in Hl as [? [? ?]%Forall_cons]. apply Forall_app. split; [done|]. by constructor.
Qed.

(** Loops over the cache leave the temporary entries alone. *)
Ltac temp_same :=
  repeat match goal with
  | |- context [loop_accum ?f ?s ?l] =>
      let E := fresh "E" in destruct (loop_accum f s l) as [? ?] eqn:E
  | s : (_ * _)%type |- _ => destruct s
  | |- context [if ?b then _ else _] => destruct b
  end; simpl; intros; simplify_eq/=; done.

Lemma run_op_small op n w n' w' :
  listener_op op -> Forall small_pub (temp n) -> run_op op n w = Some (n', w') ->
  Forall small_pub (temp n').
Proof.
  intros Hop Hs. destruct op; simpl in *.
  - unfold AddTable. destruct (ipa_nat_add_ipv4_tbl _ _ _ _) as [[? ?] ?]. temp_same.
  - unfold DeleteTable. destruct (ipa_nat_del_ipv4_tbl _ _) as [? ?]. temp_same.
  - pose proof (AddEntry_frame rule n w) as Hf. destruct (AddEntry rule n w) as [[? ?] ?].
    destruct Hf as [Hf _]. intros [= <- <-]. by rewrite Hf.
  - unfold DeleteEntry. destruct (find_index _ _); simpl; intros; by simplify_eq/=.
  - unfold CacheEntry. destruct (invalid_conn rule); [simpl; intros; by simplify_eq|].
    destruct (ChkForDup rule n); [simpl; intros; by simplify_eq|]. destruct (cnt0 <? 0); [done|].
    destruct (_ =? _); [simpl; intros; by simplify_eq|]. destruct (_ <? _); [done|].
    simpl. intros. by simplify_eq/=.
  - intros [= <- <-]. by apply update_first_small.
  - intros [= <- <-]. by apply update_first_small.
  - unfold FlushTempEntries. pose proof (flush_loop_temp ip_addr isAdd n w _ Hs) as Hf.
    destruct (loop_accum _ _ _) as [[? ?] ?]. intros. by simplify_eq/=.
  - unfold UpdateUDPTimeStamp. pose proof (update_ts_loop_frame n w (cache n)) as Hf.
    destruct (loop_accum _ _ _) as [[n1 w1] l']. destruct Hf as (_ & _ & Ht & _).
    intros. simplify_eq/=. by rewrite Ht.
  - unfold UpdateTcpUdpTo. temp_same.
  - unfold UpdatePwrSaveIf. temp_same.
  - unfold ResetPwrSaveIf. temp_same.
  - unfold DelEntriesOnClntDiscon. temp_same.
  - unfold DelEntriesOnSTAClntDiscon. temp_same.
Qed.
End nat_temp.

Section listener.
Context {W : Type} `{NfctLaws W} `{CtFilters W}.
Implicit Types (st : IPACM_ConntrackListener) (w : W).

Lemma on_nat_run op st w st' w' :
  on_nat (run_op op) st w = Some (st', w') ->
  exists n n', nat_inst st = Live n /\ run_op op n w = Some (n', w') /\ st' = st <| nat_inst := Live n' |>.
Proof.
  unfold on_nat. destruct (nat_inst st) as [|n|]; [done| |done].
  destruct (run_op op n w) as [[n' w1]|] eqn:E; [|done]. simpl. intros [= <- <-]. eauto.
Qed.

Lemma listener_op_ok op : listener_op op -> op_ok op.
Proof. by destruct op. Qed.

Lemma on_nat_tables op st w st' w' :
  on_nat (run_op op) st w = Some (st', w') -> tables_ok st -> tables_ok st'.
Proof.
  intros Hr. destruct (on_nat_run _ _ _ _ _ Hr) as (n & n' & _ & _ & ->).
  intros [H1' H2' H3' H4']. by constructor.
Qed.

(** The rules the listener builds. *)
Lemma ct_rule_small wan ct dir :
  ct_direction wan ct = Some dir -> small_pub (ct_rule ct dir).
Proof.
  intros Hd. assert (snd dir < 2 ^ 16) as Hs.
  { unfold ct_direction in Hd. pose proof (trunc_fits 16 wan ltac:(lia)) as [_ Ht].
    destruct (negb _); [by simplify_eq|]. destruct (negb _); [by simplify_eq|].
    repeat (destruct (_ =? _); try done); by simplify_eq. }
  destruct dir as [[] pub]; exact Hs.
Qed.

Lemma ct_ifaces_small cfg rule st b rule' :
  ct_ifaces cfg rule st = Some (Handle b rule') -> small_pub rule -> small_pub rule'.
Proof.
  unfold ct_ifaces. destruct (negb _).
  - destruct (nat_iface_match rule st); [intros; by simplify_eq|].
    destruct cfg; [done| |done]. destruct (_ || _); intros; by simplify_eq.
  - destruct (isStaMode st); intros; by simplify_eq.
Qed.

Lemma ct_operation_ok cnt0 ct type b rule st op :
  small_pub rule -> ct_operation cnt0 ct type b rule st = Some op -> listener_op op.
Proof.
  intros Hs. assert (protocol rule <> 0 -> slot_free rule = false) as Hf.
  { intros Hp. unfold slot_free. rewrite (proj2 (Z.eqb_neq (protocol rule) 0)) by done. apply andb_false_r. }
  assert (listener_op (ct_add cnt0 b rule st)) as Ha.
  { unfold ct_add. destruct (negb _); [done|]. by destruct b. }
  assert (protocol rule <> 0 -> listener_op (ct_del b rule)) as Hd.
  { intros Hp. unfold ct_del. destruct b; [done|]. simpl. auto. }
  unfold ct_operation. destruct (Z.eqb_spec IPPROTO_TCP (protocol rule)) as [Hp|_].
  - destruct (_ =? _); [by intros [= <-]|]. destruct (_ || _); [|done]. intros [= <-].
    apply Hd. by rewrite <- Hp.
  - destruct (Z.eqb_spec IPPROTO_UDP (protocol rule)) as [Hp|_]; [|done].
    destruct (_ =? _); [by intros [= <-]|]. destruct (_ =? _); [|done]. intros [= <-].
    apply Hd. by rewrite <- Hp.
Qed.

Lemma ct_operation_session cnt0 ct type b rule st op :
  ct_operation cnt0 ct type b rule st = Some op -> listener_op op -> session_op op.
Proof.
  assert (listener_op (ct_del b rule) -> session_op (ct_del b rule)) as Hd by (by destruct b).
  assert (session_op (ct_add cnt0 b rule st)) as Ha.
  { unfold ct_add. destruct (negb _); [done|]. by destruct b. }
  unfold ct_operation. destruct (_ =? protocol rule).
  - destruct (_ =? _); [by intros [= <-]|]. destruct (_ || _); [|done]. by intros [= <-].
  - destruct (_ =? protocol rule); [|done]. destruct (_ =? _); [by intros [= <-]|].
    destruct (_ =? _); [|done]. by intros [= <-].
Qed.

(** A message either changes nothing or is one operation on the NAT cache. *)
Lemma ProcessTCPorUDPMsg_op cfg cnt0 ct type st w st' w' :
  ProcessTCPorUDPMsg cfg cnt0 ct type st w = Some (st', w') ->
  (st' = st /\ w' = w) \/
  (exists op, listener_op op /\ session_op op /\ on_nat (run_op op) st w = Some (st', w')).
Proof.
  unfold ProcessTCPorUDPMsg. destruct (ct_direction _ _) as [dir|] eqn:Ed; [|intros; left; by simplify_eq/=].
  destruct (ct_ifaces _ _ _) as [[|b rule]|] eqn:Ei; [intros; left; by simplify_eq/=| |done]. simpl.
  destruct (sta_clnt_ok _ _); [|intros; left; by simplify_eq/=]. unfold ct_dispatch.
  destruct (ct_operation _ _ _ _ _ _) as [op|] eqn:Eo; [|intros; left; by simplify_eq/=].
  destruct (nat_inst st) eqn:En; [intros; left; by simplify_eq/=| |].
  all: assert (listener_op op) as Hop
    by (eapply ct_operation_ok; [|exact Eo]; eapply ct_ifaces_small; [exact Ei|]; by eapply ct_rule_small).
  all: intros Hr; right; exists op; split_and!; [done| |exact Hr]; by eapply ct_operation_session.
Qed.

(** *** Steps of the listener

    [wan] says whether the events that bring the table up and down are among
    the steps. *)
Inductive listener_step (wan : bool) : IPACM_ConntrackListener -> W -> IPACM_ConntrackListener -> W -> Prop :=
  | ls_event env evt data st w st' w' :
      (wan = false -> evt <> IPA_HANDLE_WAN_UP /\ evt <> IPA_HANDLE_WAN_DOWN) ->
      event_callback env evt data st w = Some (st', w') -> listener_step wan st w st' w'
  | ls_neigh_add cfg alloc_ok ifr_name data st w st' w' :
      HandleNeighIpAddrAddEvt cfg alloc_ok ifr_name data st w = Some (st', w') ->
      listener_step wan st w st' w'
  | ls_neigh_del ip st w st' w' :
      HandleNeighIpAddrDelEvt ip st w = Some (st', w') -> listener_step wan st w st' w'
  | ls_sta_add ip st w : ip <> 0 -> listener_step wan st w (HandleSTAClientAddEvt ip st) w
  | ls_sta_del ip st w st' w' :
      HandleSTAClientDelEvt ip st w = Some (st', w') -> listener_step wan st w st' w'.

Inductive listener_steps (wan : bool) : IPACM_ConntrackListener -> W -> IPACM_ConntrackListener -> W -> Prop :=
  | lss_nil st w : listener_steps wan st w st w
  | lss_cons st w st1 w1 st2 w2 :
      listener_step wan st w st1 w1 -> listener_steps wan st1 w1 st2 w2 -> listener_steps wan st w st2 w2.

(** What holds of the NAT cache under every operation the listener makes holds
    along every step of the listener. *)
Section stable.
Context (wan : bool) (P : NatApp -> W -> Prop).
Hypothesis P_op : forall op n w n' w', listener_op op -> (wan = false -> session_op op) ->
  P n w -> run_op op n w = Some (n', w') -> P n' w'.
Hypothesis P_udp : forall n w u b, P n w -> P n (UpdateUDPFilters u b w).
Hypothesis P_tcp : forall n w u b, P n w -> P n (UpdateTCPFilters u b w).

Definition holds st w : Prop := forall n, nat_inst st = Live n -> P n w.

Lemma on_nat_stable op st w st' w' :
  listener_op op -> (wan = false -> session_op op) -> holds st w ->
  on_nat (run_op op) st w = Some (st', w') -> holds st' w'.
Proof.
  intros Ho Hs Hh Hr. destruct (on_nat_run _ _ _ _ _ Hr) as (n & n' & Hl & Hrun & ->).
  intros n2 [= <-]. eapply P_op; [exact Ho|exact Hs|by apply Hh|exact Hrun].
Qed.

Ltac nat_op op := eapply (on_nat_stable op); [exact I|intros; exact I| |eassumption].

Lemma holds_same st st' w : nat_inst st' = nat_inst st -> holds st w -> holds st' w.
Proof. intros He Hh n Hn. apply Hh. congruence. Qed.

Lemma ProcessTCPorUDPMsg_stable cfg cnt0 ct type st w st' w' :
  holds st w -> ProcessTCPorUDPMsg cfg cnt0 ct type st w = Some (st', w') -> holds st' w'.
Proof.
  intros Hh Hp. destruct (ProcessTCPorUDPMsg_op _ _ _ _ _ _ _ _ Hp) as [[-> ->]|(op & Ho & Hs & Hr)]; [done|].
  by eapply on_nat_stable.
Qed.

Lemma store_nonnat_stable ip st w st' w' :
  holds st w -> store_nonnat_addr ip st w = Some (st', w') -> holds st' w'.
Proof.
  intros Hh. unfold store_nonnat_addr. destruct (find_index _ _); [|intros; by simplify_eq].
  intros Hr. nat_op (OpFlushTempEntries ip false). exact Hh.
Qed.

Lemma store_nat_stable ip j st w st' w' :
  holds st w -> store_nat_addr ip j st w = Some (st', w') -> holds st' w'.
Proof.
  intros Hh. unfold store_nat_addr. destruct (_ =? ip); [intros; by simplify_eq|].
  destruct (on_nat _ _ _) as [[st1 w1]|] eqn:E; [|done]. simpl. intros Hr.
  nat_op (OpFlushTempEntries ip true). nat_op (OpResetPwrSaveIf ip). exact Hh.
Qed.

Lemma refresh_same cfg ok st go st' :
  refresh_nat_ifaces cfg ok st = Some (go, st') ->
  nat_inst st' = nat_inst st /\ sta_clnt_ipv4_addr st' = sta_clnt_ipv4_addr st /\
  StaClntCnt st' = StaClntCnt st /\ nat_iface_ipv4_addr st' = nat_iface_ipv4_addr st /\
  nonnat_iface_ipv4_addr st' = nonnat_iface_ipv4_addr st.
Proof.
  unfold refresh_nat_ifaces. destruct cfg; [intros; by simplify_eq| |done].
  destruct (negb ok); [intros; by simplify_eq|].
  destruct (GetNatIfaces _ _) as [[ret names]|]; [|done]. simpl. intros. by simplify_eq.
Qed.

Lemma HandleNeighIpAddrAddEvt_stable cfg ok ifr data st w st' w' :
  holds st w -> HandleNeighIpAddrAddEvt cfg ok ifr data st w = Some (st', w') -> holds st' w'.
Proof.
  intros Hh. unfold HandleNeighIpAddrAddEvt. destruct (_ || _); [intros; by simplify_eq|].
  destruct (refresh_nat_ifaces _ _ _) as [[go st1]|] eqn:E; [|done]. simpl.
  destruct (refresh_same _ _ _ _ _ E) as [Hn _]. pose proof (holds_same _ _ _ Hn Hh) as Hh1.
  destruct (negb go); [intros; by simplify_eq|].
  destruct (ifr _) as [name|]; [|intros; by simplify_eq].
  destruct (ct_pNatIfaces st1) as [names|]; [|intros; by simplify_eq].
  destruct (existsb _ _); [|by apply store_nonnat_stable].
  destruct (nat_slot _ _); [by apply store_nat_stable|by apply store_nonnat_stable].
Qed.

Lemma HandleNeighIpAddrDelEvt_stable ip st w st' w' :
  holds st w -> HandleNeighIpAddrDelEvt ip st w = Some (st', w') -> holds st' w'.
Proof.
  intros Hh. unfold HandleNeighIpAddrDelEvt. destruct (ip =? 0); [intros; by simplify_eq|].
  destruct (on_nat _ _ _) as [[st1 w1]|] eqn:E; [|done]. simpl. intros Hr.
  nat_op (OpDelEntriesOnClntDiscon ip). nat_op (OpFlushTempEntries ip false). exact Hh.
Qed.

Lemma HandleSTAClientAddEvt_stable ip st w : holds st w -> holds (HandleSTAClientAddEvt ip st) w.
Proof.
  apply holds_same. unfold HandleSTAClientAddEvt. destruct (_ <=? _); [done|].
  destruct (find_index _ _); [|done]. by destruct (_ =? 0).
Qed.

Lemma HandleSTAClientDelEvt_stable ip st w st' w' :
  holds st w -> HandleSTAClientDelEvt ip st w = Some (st', w') -> holds st' w'.
Proof.
  intros Hh. unfold HandleSTAClientDelEvt. destruct (find_index _ _); [|intros; by simplify_eq].
  destruct (on_nat _ _ _) as [[st1 w1]|] eqn:E; [|done]. simpl. intros. simplify_eq.
  apply (holds_same st1); [done|].
  nat_op (OpDelEntriesOnSTAClntDiscon ip). exact Hh.
Qed.

Lemma conntrack_threads_same a b st : nat_inst (snd (CreateConnTrackThreads a b st)) = nat_inst st.
Proof. unfold CreateConnTrackThreads. by destruct (isCTReg st), a, b. Qed.

Lemma nat_threads_same a b st : nat_inst (snd (CreateNatThreads a b st)) = nat_inst st.
Proof. unfold CreateNatThreads. by destruct (isNatThreadStart st), a, b. Qed.

Lemma TriggerWANUp_stable a b up st w st' w' :
  wan = true -> holds st w -> TriggerWANUp a b up st w = Some (st', w') -> holds st' w'.
Proof.
  intros Hw Hh. unfold TriggerWANUp. destruct (_ =? 0); [intros; by simplify_eq|]. cbn zeta.
  match goal with |- context [on_nat _ ?s w] => set (st1 := s) end.
  assert (holds st1 w) as Hh1 by exact Hh. change (nat_inst st1) with (nat_inst st).
  assert (forall r, on_nat (run_op (OpAddTable (up_ipv4_addr up))) st1 w = Some r -> holds (fst r) (snd r)) as Ho.
  { intros [st2 w2] Hr. eapply (on_nat_stable (OpAddTable (up_ipv4_addr up))); [exact I|congruence|exact Hh1|exact Hr]. }
  assert (forall r, match nat_inst st with Null => Some (st1, w)
    | _ => on_nat (run_op (OpAddTable (up_ipv4_addr up))) st1 w end = Some r -> holds (fst r) (snd r)) as Ho2.
  { intros r. destruct (nat_inst st); [|apply Ho..]. by intros [= <-]. }
  intros Hr. destruct (match nat_inst st with Null => _ | _ => _ end) as [[st2 w2]|] eqn:E; [|done].
  simpl in Hr. simplify_eq. eapply holds_same; [apply nat_threads_same|]. by apply (Ho2 (st2, w')).
Qed.

Lemma TriggerWANDown_stable ip st w st' w' :
  wan = true -> holds st w -> TriggerWANDown ip st w = Some (st', w') -> holds st' w'.
Proof.
  intros Hw Hh. unfold TriggerWANDown. cbn zeta. set (st1 := st <| WanUp := false |>).
  assert (holds st1 w) as Hh1 by exact Hh. change (nat_inst st1) with (nat_inst st).
  destruct (nat_inst st); [intros Hr; injection Hr as <- <-; exact Hh1| |].
  all: intros Hr; eapply (on_nat_stable (OpDeleteTable ip)); [exact I|congruence|exact Hh1|exact Hr].
Qed.

Lemma event_callback_stable env evt data st w st' w' :
  (wan = false -> evt <> IPA_HANDLE_WAN_UP /\ evt <> IPA_HANDLE_WAN_DOWN) ->
  holds st w -> event_callback env evt data st w = Some (st', w') -> holds st' w'.
Proof.
  intros Hw Hh. unfold event_callback. destruct data as [data|]; [|intros; by simplify_eq].
  assert (forall a b, holds (snd (CreateConnTrackThreads a b st)) w) as Hc
    by (intros a b; eapply holds_same; [apply conntrack_threads_same|done]).
  destruct evt; try (intros; by simplify_eq); destruct data as [ct type|up]; try done.
  - unfold ProcessCTMessage. destruct (_ && _); [intros; by simplify_eq|]. by apply ProcessTCPorUDPMsg_stable.
  - destruct (negb _); [|intros; simplify_eq; apply Hc]. apply TriggerWANUp_stable; [|apply Hc].
    destruct wan; [done|]. by destruct (Hw eq_refl).
  - destruct (WanUp st); [|intros; by simplify_eq]. apply TriggerWANDown_stable; [|done].
    destruct wan; [done|]. by destruct (Hw eq_refl).
  - intros. simplify_eq. intros n Hn. apply P_tcp, P_udp. by apply (Hc _ _ n Hn).
  - intros. simplify_eq. intros n Hn. apply P_tcp, P_udp. by apply (Hc _ _ n Hn).
Qed.

Lemma listener_step_stable st w st' w' :
  listener_step wan st w st' w' -> holds st w -> holds st' w'.
Proof.
  intros Hs Hh. destruct Hs.
  - by eapply event_callback_stable.
  - by eapply HandleNeighIpAddrAddEvt_stable.
  - by eapply HandleNeighIpAddrDelEvt_stable.
  - by apply HandleSTAClientAddEvt_stable.
  - by eapply HandleSTAClientDelEvt_stable.
Qed.

Lemma listener_steps_stable st w st' w' :
  listener_steps wan st w st' w' -> holds st w -> holds st' w'.
Proof. induction 1; [done|]. intros. by eapply IHlistener_steps, listener_step_stable. Qed.
End stable.

(** *** The listener's tables *)

Lemma in_use_app l1 l2 : in_use (l1 ++ l2) = in_use l1 ++ in_use l2.
Proof. apply filter_app. Qed.

Lemma in_use_cons a l : in_use (a :: l) = in_use [a] ++ in_use l.
Proof. apply (in_use_app [a]). Qed.

Lemma in_use_one a : in_use [a] = if a =? 0 then [] else [a].
Proof.
  unfold in_use. rewrite filter_cons. destruct (Z.eqb_spec a 0); [by rewrite decide_False by auto|].
  by rewrite decide_True.
Qed.

(** Slot [i] of a table changes. *)
Lemma in_use_insert l i a b :
  l !! i = Some a ->
  (length (in_use (<[i := b]> l)) + length (in_use [a]) = length (in_use l) + length (in_use [b]))%nat.
Proof.
  intros Hi. pose proof (take_drop_middle l i a Hi) as Hl.
  assert (length (take i l) = i) as Hlen by (apply length_take_le; apply lookup_lt_Some in Hi; lia).
  revert Hl Hlen. generalize (take i l), (drop (S i) l). intros pre post <- <-. clear Hi.
  rewrite insert_middle, !in_use_app, (in_use_cons b post), (in_use_cons a post), !length_app. lia.
Qed.

Lemma HandleSTAClientAddEvt_tables ip st : ip <> 0 -> tables_ok st -> tables_ok (HandleSTAClientAddEvt ip st).
Proof.
  intros Hip [H1' H2' H3' H4']. unfold HandleSTAClientAddEvt. destruct (_ <=? _); [by constructor|].
  destruct (find_index _ _) as [i|] eqn:E; [|by constructor].
  destruct (find_index_Some _ _ _ E) as (a & Ha & _). rewrite (nth_lookup_Some _ _ _ _ Ha).
  destruct (Z.eqb_spec a 0) as [->|]; [|by constructor]. constructor; simpl; try done.
  - by rewrite length_insert.
  - pose proof (in_use_insert _ _ _ ip Ha) as Hu. rewrite !in_use_one, (proj2 (Z.eqb_neq ip 0)) in Hu by done.
    simpl in Hu. lia.
Qed.

Lemma HandleSTAClientDelEvt_tables ip st w st' w' :
  HandleSTAClientDelEvt ip st w = Some (st', w') -> tables_ok st -> tables_ok st'.
Proof.
  intros Hd [H1' H2' H3' H4']. unfold HandleSTAClientDelEvt in Hd.
  destruct (find_index _ _) as [i|] eqn:E; [|by simplify_eq].
  destruct (find_index_Some _ _ _ E) as (a & Ha & Hp & _). bool_to_prop. subst a.
  destruct (on_nat _ _ _) as [[st1 w1]|] eqn:Er; [|done]. simpl in Hd. simplify_eq.
  destruct (on_nat_run _ _ _ _ _ Er) as (n & n' & _ & _ & ->). constructor; simpl; try done.
  - by rewrite length_insert.
  - pose proof (in_use_insert _ _ _ 0 Ha) as Hu. rewrite !in_use_one, (proj2 (Z.eqb_neq ip 0)) in Hu by done.
    simpl in Hu. lia.
Qed.

Lemma HandleNeighIpAddrAddEvt_tables cfg ok ifr data st w st' w' :
  HandleNeighIpAddrAddEvt cfg ok ifr data st w = Some (st', w') -> tables_ok st -> tables_ok st'.
Proof.
  intros Ha Hok. unfold HandleNeighIpAddrAddEvt in Ha. destruct (_ || _); [by simplify_eq|].
  destruct (refresh_nat_ifaces _ _ _) as [[go st1]|] eqn:E; [|done]. simpl in Ha.
  destruct (refresh_same _ _ _ _ _ E) as (_ & Hs1 & Hs2 & Hs3 & Hs4).
  assert (tables_ok st1) as [H1' H2' H3' H4'] by (destruct Hok; constructor; congruence).
  destruct (negb go); [by simplify_eq|].
  assert (forall r, store_nonnat_addr (da_ipv4_addr data) st1 w = Some r -> tables_ok (fst r)) as Hnon.
  { intros [st2 w2]. unfold store_nonnat_addr. destruct (find_index _ _); [|intros; by simplify_eq].
    intros Hr. eapply on_nat_tables; [exact Hr|]. constructor; simpl; try done. by rewrite length_insert. }
  destruct (ifr _); [|by simplify_eq]. destruct (ct_pNatIfaces st1); [|by simplify_eq].
  destruct (existsb _ _); [|by apply (Hnon (st', w'))].
  destruct (nat_slot _ _) as [j|]; [|by apply (Hnon (st', w'))].
  unfold store_nat_addr in Ha. destruct (_ =? da_ipv4_addr data); [by simplify_eq|].
  destruct (on_nat _ _ _) as [[st2 w2]|] eqn:Er; [|done]. simpl in Ha.
  eapply on_nat_tables; [exact Ha|]. eapply on_nat_tables; [exact Er|].
  constructor; simpl; try done. by rewrite length_insert.
Qed.

Lemma HandleNeighIpAddrDelEvt_tables ip st w st' w' :
  HandleNeighIpAddrDelEvt ip st w = Some (st', w') -> tables_ok st -> tables_ok st'.
Proof.
  intros Hd [H1' H2' H3' H4']. unfold HandleNeighIpAddrDelEvt in Hd. destruct (ip =? 0); [by simplify_eq|].
  destruct (on_nat _ _ _) as [[st1 w1]|] eqn:Er; [|done]. simpl in Hd.
  eapply on_nat_tables; [exact Hd|]. eapply on_nat_tables; [exact Er|].
  constructor; simpl; try done; unfold forget_addr; by rewrite length_map.
Qed.

Lemma tables_same st st' :
  sta_clnt_ipv4_addr st' = sta_clnt_ipv4_addr st -> StaClntCnt st' = StaClntCnt st ->
  nat_iface_ipv4_addr st' = nat_iface_ipv4_addr st ->
  nonnat_iface_ipv4_addr st' = nonnat_iface_ipv4_addr st -> tables_ok st -> tables_ok st'.
Proof. intros ???? [????]. constructor; congruence. Qed.

Lemma conntrack_threads_tables a b st : tables_ok st -> tables_ok (snd (CreateConnTrackThreads a b st)).
Proof. unfold CreateConnTrackThreads. destruct (isCTReg st), a, b; simpl; try done; by apply tables_same. Qed.

Lemma nat_threads_tables a b st : tables_ok st -> tables_ok (snd (CreateNatThreads a b st)).
Proof. unfold CreateNatThreads. destruct (isNatThreadStart st), a, b; simpl; try done; by apply tables_same. Qed.

Lemma TriggerWANUp_tables a b up st w st' w' :
  TriggerWANUp a b up st w = Some (st', w') -> tables_ok st -> tables_ok st'.
Proof.
  intros Ht Hok. unfold TriggerWANUp in Ht. destruct (_ =? 0); [by simplify_eq|]. cbn zeta in Ht.
  match type of Ht with context [on_nat _ ?s w] => set (st1 := s) in Ht end.
  assert (tables_ok st1) as Hok1 by (by apply (tables_same st)).
  destruct (match nat_inst st1 with Null => _ | _ => _ end) as [[st2 w2]|] eqn:E; [|done].
  simpl in Ht. simplify_eq. apply nat_threads_tables.
  destruct (nat_inst st1); [by simplify_eq|by eapply on_nat_tables..].
Qed.

Lemma event_callback_tables env evt data st w st' w' :
  event_callback env evt data st w = Some (st', w') -> tables_ok st -> tables_ok st'.
Proof.
  intros He Hok. unfold event_callback in He. destruct data as [data|]; [|by simplify_eq].
  pose proof (conntrack_threads_tables (ok_tcp env) (ok_udp env) st Hok) as Hc.
  destruct evt; try (by simplify_eq); destruct data as [ct type|up]; try done.
  - unfold ProcessCTMessage in He. destruct (_ && _); [by simplify_eq|].
    destruct (ProcessTCPorUDPMsg_op _ _ _ _ _ _ _ _ He) as [[-> ->]|(op & _ & _ & Hr)]; [done|].
    by eapply on_nat_tables.
  - destruct (negb _); [by eapply TriggerWANUp_tables|by simplify_eq].
  - destruct (WanUp st); [|by simplify_eq]. unfold TriggerWANDown in He. cbn zeta in He.
    set (st1 := st <| WanUp := false |>) in He. assert (tables_ok st1) as Hok1 by (by apply (tables_same st)).
    destruct (nat_inst st1); [by simplify_eq|by eapply on_nat_tables..].
  - by simplify_eq.
  - by simplify_eq.
Qed.

Lemma listener_step_tables wan st w st' w' :
  listener_step wan st w st' w' -> tables_ok st -> tables_ok st'.
Proof.
  destruct 1; intros Hok.
  - by eapply event_callback_tables.
  - by eapply HandleNeighIpAddrAddEvt_tables.
  - by eapply HandleNeighIpAddrDelEvt_tables.
  - by apply HandleSTAClientAddEvt_tables.
  - by eapply HandleSTAClientDelEvt_tables.
Qed.

Lemma listener_steps_tables wan st w st' w' :
  listener_steps wan st w st' w' -> tables_ok st -> tables_ok st'.
Proof. induction 1; [done|]. intros. by eapply IHlistener_steps, listener_step_tables. Qed.
End listener.

(** ** A client leaves *)

Section gone.
Context {W : Type} `{NfctLaws W} `{!NatDrvReliable W}.
Implicit Types (st : IPACM_ConntrackListener) (w : W) (n : NatApp).

(** An entry that does not concern the client. *)
Definition not_of (ip : Z) (e : nat_table_entry) : Prop := private_ip e <> ip /\ target_ip e <> ip.

Definition disconnected (ip : Z) (e : nat_table_entry) : nat_table_entry :=
  if (private_ip e =? ip) && enabled e then e <| enabled := false |> else e.

Lemma discon_loop ip hdl c w l :
  cache_inv true hdl w l c ->
  let '(w', l') := loop_accum (discon_slot ip hdl) w l in
  l' = map (disconnected ip) l /\ cache_inv true hdl w' l' c.
Proof.
  intros Hinv. pose proof (loop_accum_map (fun w l => cache_inv true hdl w l c) (disconnected ip)
    (discon_slot ip hdl) w l) as Hm.
  destruct (loop_accum _ _ _) as [w' l']. simpl in Hm. destruct Hm as [-> Hm]; [|done|done].
  intros w1 pre x post Hs. pose proof (discon_slot_inv true reliable_strict ip _ _ _ _ _ _ Hs) as Hp.
  pose proof (del_rule_cases true reliable_strict _ w1 _ _ x Hs ltac:(apply elem_of_middle; auto)) as Hd.
  unfold discon_slot, disconnected in *. destruct (_ =? ip); [|done].
  destruct (enabled x) eqn:E; [|done]. simpl. specialize (Hd ltac:(done)).
  destruct (ipa_nat_del_ipv4_rule _ _ _) as [r w2]. destruct Hd as [(_ & _ & ?)|(Hr & _)]; [done|].
  rewrite (proj2 (Z.ltb_ge _ _)) in * by done. done.
Qed.

Lemma FlushTempEntries_drop ip n w :
  FlushTempEntries ip false n w =
    (n <| temp := flushed ip (temp n) |>, w).
Proof.
  unfold FlushTempEntries.
  assert (forall l, loop_accum (flush_slot ip false) (n, w) l =
    ((n, w), flushed ip l)) as ->;
    [|done].
  intros l. induction l as [|e l IH]; [done|]. cbn [loop_accum flushed map]. unfold flush_slot at 1.
  rewrite andb_false_l. destruct (_ || _); by rewrite IH.
Qed.

Lemma forget_addr_gone ip l : ip <> 0 -> ip ∉ forget_addr ip l.
Proof.
  intros Hip (a & Ha & _)%list_elem_of_fmap. destruct (Z.eqb_spec a ip); congruence.
Qed.

Lemma conn_map_dom_map (g : nat_table_entry -> nat_table_entry) l c :
  (forall e, conn_key (g e) = conn_key e) -> cache_wf l c -> cache_wf (map g l) c ->
  dom (conn_map (map g l)) = dom (conn_map l).
Proof.
  intros Hk Hwf Hwf'. apply set_eq. intros k. rewrite !elem_of_dom. unfold is_Some.
  setoid_rewrite (conn_map_lookup _ _ _ _ Hwf). setoid_rewrite (conn_map_lookup _ _ _ _ Hwf'). split.
  - intros (cs & e' & (e & -> & He)%list_elem_of_fmap & Hf & Hke & _).
    rewrite (slot_free_ext _ _ (Hk e)) in Hf. rewrite Hk in Hke. eauto 10.
  - intros (cs & e & He & Hf & Hke & _). exists (conn_of (g e)), (g e).
    rewrite (slot_free_ext _ _ (Hk e)), Hk. split_and!; try done. apply list_elem_of_fmap. eauto.
Qed.

Lemma neigh_del_gone ip st w n st' w' :
  ip <> 0 -> nat_inst st = Live n -> natapp_inv true n w ->
  HandleNeighIpAddrDelEvt ip st w = Some (st', w') ->
  (ip ∉ nat_iface_ipv4_addr st') /\ (ip ∉ nonnat_iface_ipv4_addr st') /\
  exists n', nat_inst st' = Live n' /\ natapp_inv true n' w' /\
    Forall (fun e => not_of ip e) (temp n') /\
    (forall h r, drv_rules w' !! (nat_table_hdl n, h) = Some r -> r_private_ip r <> ip) /\
    dom (conn_map (cache n')) = dom (conn_map (cache n)) /\ nat_table_hdl n' = nat_table_hdl n.
Proof.
  intros Hip Hn Hinv. unfold HandleNeighIpAddrDelEvt. rewrite (proj2 (Z.eqb_neq _ _) Hip). cbn zeta.
  unfold on_nat. simpl. rewrite Hn. simpl. rewrite FlushTempEntries_drop. simpl.
  unfold DelEntriesOnClntDiscon, INVALID_IP_ADDR. rewrite (proj2 (Z.eqb_neq _ _) Hip). simpl.
  pose proof (discon_loop ip _ _ _ _ Hinv) as Hl. destruct (loop_accum _ _ _) as [w1 l'].
  destruct Hl as [-> Hi]. simpl. intros [= <- <-]. simpl.
  split; [by apply forget_addr_gone|]. split; [by apply forget_addr_gone|].
  eexists. split; [done|]. split; [exact Hi|]. simpl. split_and!.
  - apply Forall_forall. intros e' (e & -> & _)%list_elem_of_fmap.
    destruct (Z.eqb_spec (private_ip e) ip); simpl; [split; simpl; congruence|].
    destruct (Z.eqb_spec (target_ip e) ip); simpl; [split; simpl; congruence|done].
  - intros h r Hr. destruct Hi as [_ _ Hx]. destruct (Hx eq_refl h r Hr) as (e' & He & Hen & _ & <-).
    apply list_elem_of_fmap in He as (e & -> & He). unfold disconnected in *. simpl.
    destruct (Z.eqb_spec (private_ip e) ip); simpl in *; [|done]. destruct (enabled e) eqn:E; simpl in *; congruence.
  - eapply conn_map_dom_map; [|apply Hinv|apply Hi]. intros e. unfold disconnected. by destruct (_ && _).
  - done.
Qed.

(** When a client's address goes away, [HandleNeighIpAddrDelEvt] leaves no
  trace of it in the listener's address tables, among the temporary entries or
  in the hardware, while its connections stay known. *)
Theorem neigh_del_clears ip st w n st' w' :
  ip <> 0 -> nat_inst st = Live n -> natapp_inv true n w ->
  HandleNeighIpAddrDelEvt ip st w = Some (st', w') ->
  (ip ∉ nat_iface_ipv4_addr st') /\ (ip ∉ nonnat_iface_ipv4_addr st') /\
  exists n', nat_inst st' = Live n' /\ natapp_inv true n' w' /\
    Forall (fun e => not_of ip e) (temp n') /\
    (forall h r, drv_rules w' !! (nat_table_hdl n, h) = Some r -> r_private_ip r <> ip) /\
    dom (conn_map (cache n')) = dom (conn_map (cache n)).
Proof.
  intros Hip Hn Hinv Hd. destruct (neigh_del_gone ip st w n st' w' Hip Hn Hinv Hd) as (? & ? & n' & ? & ? & ? & ? & ? & _).
  split; [done|]. split; [done|]. by exists n'.
Qed.
End gone.

(** The filter updates of the conntrack client reach the kernel's socket
    filters, never the IPA driver. *)
Class CtFiltersLaws (W : Type) `{NatDrvLaws W} `{CtFilters W} := {
  udp_filters_rules (u : ipacm_event_iface_up) (b : bool) (w : W) :
    drv_rules (UpdateUDPFilters u b w) = drv_rules w;
  tcp_filters_rules (u : ipacm_event_iface_up) (b : bool) (w : W) :
    drv_rules (UpdateTCPFilters u b w) = drv_rules w
}.

Section claims.
Context {W : Type} `{NfctLaws W} `{CtFilters W} `{!CtFiltersLaws W}.
Implicit Types (st : IPACM_ConntrackListener) (w : W) (n : NatApp).

(** C9. Whatever events, addresses and clients the listener is told of, the NAT
  cache it drives stays well-formed, the listener counts its STA clients
  right, its tables keep their sizes and no temporary entry's public address
  exceeds sixteen bits. *)
Theorem listener_reachable mem n w st' w' :
  natapp_wf n -> Forall small_pub (temp n) ->
  listener_steps true (IPACM_ConntrackListener_ctor mem (Live n)) w st' w' ->
  tables_ok st' /\
  forall n', nat_inst st' = Live n' -> natapp_wf n' /\ Forall small_pub (temp n').
Proof.
  intros Hwf Hs Hst. split.
  - eapply listener_steps_tables; [exact Hst|]. by constructor.
  - refine (listener_steps_stable true (fun n _ => natapp_wf n /\ Forall small_pub (temp n)) _ _ _ _ _ _ _ Hst _);
      try done.
    + intros op n1 w1 n2 w2 Ho _ [Hw1 Hs1] Hr. split; [|by eapply run_op_small].
      eapply run_op_wf; [by apply listener_op_ok|done|done].
    + by intros n2 [= <-].
Qed.

Lemma cache_inv_rules strict hdl w w' l c :
  drv_rules w' = drv_rules w -> cache_inv strict hdl w l c -> cache_inv strict hdl w' l c.
Proof.
  intros Hw [Hwf Hs Hx]. constructor; [done| |].
  - intros e He Hen. rewrite Hw. by apply Hs.
  - intros Hst h r Hr. rewrite Hw in Hr. by apply Hx.
Qed.

(** C10. While the WAN neither comes up nor goes down, every step of the listener
  keeps the NAT cache and the hardware table in step. *)
Theorem listener_mirror (strict : bool) st w n st' w' :
  (strict = true -> forall t h r w,
    drv_rules w !! (t, h) = Some r -> 0 <= fst (ipa_nat_del_ipv4_rule t h w)) ->
  nat_inst st = Live n -> natapp_wf n -> natapp_inv strict n w ->
  listener_steps false st w st' w' ->
  forall n', nat_inst st' = Live n' -> natapp_inv strict n' w'.
Proof.
  intros Hst Hn Hwf Hinv Hs n' Hn'.
  enough (natapp_wf n' /\ natapp_inv strict n' w') as [_ ?] by done.
  refine (listener_steps_stable false (fun n w => natapp_wf n /\ natapp_inv strict n w) _ _ _ _ _ _ _ Hs _ n' Hn').
  - intros op n1 w1 n2 w2 Ho Hso [Hw1 Hi1] Hr. split.
    + eapply run_op_wf; [by apply listener_op_ok|done|done].
    + eapply run_op_mirror; [exact Hst|by apply Hso|exact Hw1|exact Hi1|exact Hr].
  - intros n1 w1 u b [Hw1 Hi1]. split; [done|]. eapply cache_inv_rules; [apply udp_filters_rules|done].
  - intros n1 w1 u b [Hw1 Hi1]. split; [done|]. eapply cache_inv_rules; [apply tcp_filters_rules|done].
  - intros n1 Hn1. rewrite Hn in Hn1. injection Hn1 as <-. done.
Qed.

(** The listener never makes use of a parked connection: once the table's
  public address needs more than sixteen bits, announcing the address of a
  client on a NAT interface discards its temporary entries just as for any
  other client. *)
Theorem listener_temp_discarded mem n w st' w' n' ip :
  natapp_wf n -> Forall small_pub (temp n) ->
  listener_steps true (IPACM_ConntrackListener_ctor mem (Live n)) w st' w' ->
  nat_inst st' = Live n' -> 2 ^ 16 <= pub_ip_addr n' ->
  FlushTempEntries ip true n' w' = FlushTempEntries ip false n' w'.
Proof.
  intros Hwf Hs Hst Hn' Hp.
  assert (Forall small_pub (temp n')) as Hs'.
  { refine (listener_steps_stable true (fun n _ => Forall small_pub (temp n)) _ _ _ _ _ _ _ Hst _ n' Hn');
      [by intros; eapply run_op_small|done|done|by intros n2 [= <-]]. }
  rewrite (FlushTempEntries_discards ip true), (FlushTempEntries_discards ip false); done.
Qed.
End claims.

Section lifecycle.
Context {W : Type} `{NfctLaws W} `{!NatDrvReliable W}.
Implicit Types (st : IPACM_ConntrackListener) (w : W) (n : NatApp).




End lifecycle.

(** ** STA clients *)

Section sta.
Context {W : Type} `{NatDrv W} `{NfctLib W}.

Lemma sta_add_first ip pre k st :
  ip <> 0 -> Forall (fun a => a <> 0 /\ a <> ip) pre -> sta_clnt_ipv4_addr st = pre ++ replicate (S k) 0 ->
  StaClntCnt st = Z.of_nat (length pre) -> (length pre + S k = MAX_STA_CLNT_IFACES)%nat ->
  HandleSTAClientAddEvt ip st =
    st <| sta_clnt_ipv4_addr := pre ++ [ip] ++ replicate k 0 |> <| StaClntCnt := Z.of_nat (S (length pre)) |>.
Proof.
  intros Hip Hpre Hs Hc Hk. unfold HandleSTAClientAddEvt. rewrite Hc, Hs.
  rewrite (proj2 (Z.leb_gt _ _)) by lia.
  assert (find_index (fun a => (negb (a =? 0) && (a =? ip)) || (a =? 0)) (pre ++ replicate (S k) 0) =
    Some (length pre)) as ->.
  { clear -Hpre. induction Hpre as [|a pre [Ha1 Ha2] _ IH]; simpl; [done|].
    rewrite (proj2 (Z.eqb_neq a 0)), (proj2 (Z.eqb_neq a ip)) by done. simpl in *. by rewrite IH. }
  simpl. rewrite nth_middle, insert_middle. simpl. repeat f_equal. lia.
Qed.

(** The client is in the listener's table. *)
Definition sta_registered (ip : Z) (st : IPACM_ConntrackListener) : Prop := ip ∈ sta_clnt_ipv4_addr st.

(** When a client of the STA network leaves, the slots behind its own are
  not moved up while the count goes down, so the client in the last slot drops
  out of the part that is searched: its connections are ignored although it is
  still registered. *)
Theorem sta_client_lost a b c st n (w : W) rule st' w' :
  nat_inst st = Live n -> isStaMode st = true -> StaClntCnt st = 0 ->
  sta_clnt_ipv4_addr st = replicate MAX_STA_CLNT_IFACES 0 ->
  a <> 0 -> b <> 0 -> c <> 0 -> a <> b -> a <> c -> b <> c ->
  Z.land a 0xFFFFFF00 = Z.land c 0xFFFFFF00 -> target_ip rule = c ->
  let st3 := HandleSTAClientAddEvt c (HandleSTAClientAddEvt b (HandleSTAClientAddEvt a st)) in
  HandleSTAClientDelEvt b st3 w = Some (st', w') ->
  sta_clnt_ok rule st3 = true /\ sta_registered c st' /\ sta_clnt_ok rule st' = false.
Proof.
  intros Hn Hsta H0' Hs Ha Hb Hc Hab Hac Hbc Hnet Ht. cbn zeta.
  rewrite (sta_add_first a [] 9) by (try done; by rewrite Hs).
  rewrite (sta_add_first b [a] 8) by (try done; by repeat constructor).
  rewrite (sta_add_first c [a; b] 7) by (try done; by repeat constructor).
  unfold HandleSTAClientDelEvt. simpl.
  rewrite (proj2 (Z.eqb_neq a 0)), (proj2 (Z.eqb_neq b 0)), (proj2 (Z.eqb_neq a b)), Z.eqb_refl by done.
  simpl. unfold on_nat. simpl. rewrite Hn. destruct (DelEntriesOnSTAClntDiscon b n w) as [[r n1] w1].
  simpl. intros [= <- <-]. unfold sta_clnt_ok. simpl. rewrite Hsta, Ht, Hnet, Z.eqb_refl, Z.eqb_refl. simpl.
  rewrite (proj2 (Z.eqb_neq c a)), (proj2 (Z.eqb_neq c b)), (proj2 (Z.eqb_neq c 0)) by done.
  split_and!; [done| |done]. right. right. left.
Qed.
End sta.

(** ** A concrete listener *)

#[export] Instance SimpleDrv_CtFilters : CtFilters SimpleDrv := {|
  UpdateUDPFilters _ _ d := d;
  UpdateTCPFilters _ _ d := d
|}.

#[export] Instance SimpleDrv_CtFiltersLaws : CtFiltersLaws SimpleDrv.
Proof. by constructor. Qed.

Definition example_lmem : IPACM_ConntrackListener :=
  {| isCTReg := false; isNatThreadStart := false; WanUp := false; nat_inst := Null; NatIfaceCnt := 0;
     StaClntCnt := 0; ct_pNatIfaces := None; nat_iface_ipv4_addr := []; nonnat_iface_ipv4_addr := [];
     sta_clnt_ipv4_addr := []; has_config := false; wan_ifname := EmptyString; wan_ipaddr := 0;
     isStaMode := false |}.

(** A listener over [example_up]: the WAN is up with address 100 and client 5 is
    on a NAT interface. *)
Definition example_listener : IPACM_ConntrackListener :=
  {| isCTReg := true; isNatThreadStart := true; WanUp := true; nat_inst := Live (fst example_up);
     NatIfaceCnt := 1; StaClntCnt := 0; ct_pNatIfaces := None;
     nat_iface_ipv4_addr := 5 :: replicate 49 0; nonnat_iface_ipv4_addr := replicate MAX_NAT_IFACES 0;
     sta_clnt_ipv4_addr := replicate MAX_STA_CLNT_IFACES 0; has_config := true; wan_ifname := EmptyString;
     wan_ipaddr := 100; isStaMode := true |}.

(** A UDP connection of client 5, source-translated. *)
Definition example_ct : nf_conntrack :=
  {| ATTR_STATUS := IPS_SRC_NAT; ATTR_ORIG_L4PROTO := IPPROTO_UDP; ATTR_REPL_L4PROTO := IPPROTO_UDP;
     ATTR_TCP_STATE := 0; ATTR_ORIG_IPV4_SRC := htonl 5; ATTR_ORIG_IPV4_DST := htonl 9;
     ATTR_ORIG_PORT_SRC := htons 4000; ATTR_ORIG_PORT_DST := htons 53; ATTR_REPL_IPV4_SRC := htonl 9;
     ATTR_REPL_PORT_SRC := htons 53; ATTR_REPL_PORT_DST := htons 4000 |}.

Definition example_wan_up : ipacm_event_iface_up :=
  {| up_ifname := EmptyString; up_ipv4_addr := 70000; up_addr_mask := 0; up_ipv6_prefix := (0, 0);
     up_is_sta := false |}.

Definition example_env : ct_env :=
  {| env_cfg := Live example_cfg; env_cnt0 := 0; ok_tcp := true; ok_udp := true; ok_cto := true; ok_mon := true |}.

(** The WAN comes up, then a connection is announced. *)
Lemma example_listener_run :
  exists st w, listener_steps true (IPACM_ConntrackListener_ctor example_lmem (Live example_nat)) (sd_empty 8) st w /\
    exists n, nat_inst st = Live n /\ pub_ip_addr n = 70000.
Proof.
  destruct (event_callback example_env IPA_HANDLE_WAN_UP (Some (PIface example_wan_up))
    (IPACM_ConntrackListener_ctor example_lmem (Live example_nat)) (sd_empty 8)) as [[st1 w1]|] eqn:E1;
    [|vm_compute in E1; done].
  destruct (event_callback example_env IPA_PROCESS_CT_MESSAGE (Some (PConn example_ct NFCT_T_NEW)) st1 w1)
    as [[st2 w2]|] eqn:E2; [|vm_compute in E1; injection E1 as <- <-; vm_compute in E2; done].
  exists st2, w2. split.
  - eapply lss_cons; [by eapply ls_event; [|exact E1]|].
    eapply lss_cons; [by eapply ls_event; [|exact E2]|]. apply lss_nil.
  - vm_compute in E1. injection E1 as <- <-. vm_compute in E2. injection E2 as <- <-. by eexists.
Qed.

Lemma example_nat_small : Forall small_pub (temp example_nat).
Proof. by repeat constructor. Qed.

Lemma listener_reachable_witness :
  exists st w, listener_steps true (IPACM_ConntrackListener_ctor example_lmem (Live example_nat)) (sd_empty 8) st w /\
    tables_ok st.
Proof.
  destruct example_listener_run as (st & w & Hs & _). exists st, w. split; [exact Hs|].
  apply (listener_reachable example_lmem example_nat (sd_empty 8) st w example_nat_wf example_nat_small Hs).
Defined.

Lemma listener_temp_discarded_witness :
  exists n w, FlushTempEntries 5 true n w = FlushTempEntries 5 false n (w : SimpleDrv) /\ pub_ip_addr n = 70000.
Proof.
  destruct example_listener_run as (st & w & Hs & n & Hn & Hp). exists n, w. split; [|exact Hp].
  apply (listener_temp_discarded example_lmem example_nat (sd_empty 8) st w n 5 example_nat_wf
    example_nat_small Hs Hn). rewrite Hp. vm_compute. discriminate.
Defined.

Lemma listener_mirror_witness :
  exists st w, HandleNeighIpAddrDelEvt 5 example_listener (snd example_up) = Some (st, w) /\
    forall n, nat_inst st = Live n -> natapp_inv true n w.
Proof.
  destruct (HandleNeighIpAddrDelEvt 5 example_listener (snd example_up)) as [[st w]|] eqn:E;
    [|vm_compute in E; done].
  exists st, w. split; [reflexivity|].
  apply (listener_mirror true example_listener (snd example_up) (fst example_up) st w reliable_strict eq_refl
    (proj1 example_up_inv) (proj2 example_up_inv)).
  eapply lss_cons; [by eapply ls_neigh_del|]. apply lss_nil.
Defined.

Lemma neigh_del_clears_witness :
  exists st w, HandleNeighIpAddrDelEvt 5 example_listener (snd example_up) = Some (st, w) /\
    (5 ∉ nat_iface_ipv4_addr st).
Proof.
  destruct (HandleNeighIpAddrDelEvt 5 example_listener (snd example_up)) as [[st w]|] eqn:E;
    [|vm_compute in E; done].
  exists st, w. split; [reflexivity|].
  apply (neigh_del_clears 5 example_listener (snd example_up) (fst example_up) st w ltac:(discriminate) eq_refl
    (proj2 example_up_inv) E).
Defined.


Lemma sta_client_lost_witness :
  exists st w, HandleSTAClientDelEvt 3232235778
      (HandleSTAClientAddEvt 3232235779 (HandleSTAClientAddEvt 3232235778
        (HandleSTAClientAddEvt 3232235777 example_listener))) (snd example_up) = Some (st, w) /\
    sta_registered 3232235779 st /\
    sta_clnt_ok (example_entry 5 1 <| target_ip := 3232235779 |>) st = false.
Proof.
  destruct (HandleSTAClientDelEvt 3232235778
      (HandleSTAClientAddEvt 3232235779 (HandleSTAClientAddEvt 3232235778
        (HandleSTAClientAddEvt 3232235777 example_listener))) (snd example_up)) as [[st w]|] eqn:E;
    [|vm_compute in E; done].
  exists st, w. split; [reflexivity|].
  apply (sta_client_lost 3232235777 3232235778 3232235779 example_listener (fst example_up) (snd example_up)
    (example_entry 5 1 <| target_ip := 3232235779 |>) st w); try discriminate; try reflexivity. exact E.
Defined.
