(* ===== verification/LanToLan.v ===== *)
(** * LAN-to-LAN offload ([IPACM_LanToLan.cpp], [IPACM_LanToLan.h])

    Clients of the tethered interfaces, the connections between them and the
    offload links the hardware forwards them with.  The clients live in hash
    tables whose entries point at each other; every client is a node of an
    explicit heap, so that following the pointer of an erased entry is undefined
    behaviour ([None]).  The source keeps one table, cache and counter for IPv4
    and one for IPv6 and repeats its code for the two: [family] is one such set. *)
From S2P Require Import Prelude Defs Heap Config.
From stdpp Require Import base list gmap strings.
From Stdlib Require Import ZArith.

Open Scope Z_scope.

(** [ipv6_multicast_addr], [ipv6_multicast_mask], [max_cache_connection] *)
Definition ipv6_multicast_addr : Z := 4278190080.
Definition ipv6_multicast_mask : Z := 4278190080.
Definition max_cache_connection : nat := 20.

(** [lan_to_lan_rt_rule_hdl] *)
Record lan_to_lan_rt_rule_hdl := { num_rule : Z; rule_hdl : list Z }.

(** What the LAN interfaces ([IPACM_Lan]) and the event queue offer: each call
    returns the C result, the handle it stores and the new state.  [Iface] are
    the [IPACM_Lan] objects. *)
Class LanIface (Iface W : Type) := {
  if_category : Iface -> W -> ipacm_iface_type;
  add_lan2lan_hdr : Iface -> ipa_ip_type -> list Z -> list Z -> W -> Z * Z * W;
  add_lan2lan_rt_rule : Iface -> ipa_ip_type -> Z -> Z -> v6addr -> v6addr -> Z -> W -> Z * lan_to_lan_rt_rule_hdl * W;
  add_lan2lan_flt_rule : Iface -> ipa_ip_type -> Z -> Z -> v6addr -> v6addr -> W -> Z * Z * W;
  del_lan2lan_hdr : Iface -> ipa_ip_type -> Z -> W -> Z * W;
  del_lan2lan_rt_rule : Iface -> ipa_ip_type -> lan_to_lan_rt_rule_hdl -> W -> Z * W;
  del_lan2lan_flt_rule : Iface -> ipa_ip_type -> Z -> W -> Z * W;
  (** [malloc] of the payload and [IPACM_EvtDispatcher::PostEvt]: [false] when
      [malloc] returns [NULL] and nothing is posted. *)
  post_conn : ipa_cm_event_id -> ipacm_event_connection -> W -> bool * W
}.

(** [peer_info] *)
Record peer_info := { peer_pointer : loc; num_connection : Z }.

Section lantolan.
Context {Iface W : Type} `{HI : LanIface Iface W}.
(** The build option [CT_OPT], which no file of the repository sets. *)
Variable CT_OPT : bool.
(** The unspecified iteration order of [unordered_map]. *)
Variable hash_order : gmap Z loc -> list (Z * loc).

(** [offload_link_info] *)
Record offload_link_info := {
  link_peer : loc;
  flt_rule_hdl : Z;
  rt_rule_hdl : lan_to_lan_rt_rule_hdl;
  hdr_hdl : Z
}.

(** [client_info]; the union [ip] is its four words, [ip.ipv4_addr] the first. *)
Record client_info := {
  ip : v6addr;
  mac_addr : list Z;
  is_active : bool;
  is_powersave : bool;
  p_iface : option Iface;
  peer : list peer_info;
  link : list offload_link_info
}.

#[export] Instance offload_link_info_eta : Settable offload_link_info :=
  fun r => Build_offload_link_info (link_peer r) (flt_rule_hdl r) (rt_rule_hdl r) (hdr_hdl r).
#[export] Instance client_info_eta : Settable client_info :=
  fun r => Build_client_info (ip r) (mac_addr r) (is_active r) (is_powersave r) (p_iface r)
    (peer r) (link r).

(** [client_info_v4_]/[client_info_v6_] with their nodes, [num_offload_pair_*_]
    and [connection_*_]. *)
Record family := {
  client_info_ : gmap Z loc;
  clients : gmap loc client_info;
  num_offload_pair_ : Z;
  connection_ : list ipacm_event_connection
}.

#[export] Instance family_eta : Settable family :=
  fun r => Build_family (client_info_ r) (clients r) (num_offload_pair_ r) (connection_ r).

(** [class IPACM_LanToLan] *)
Record IPACM_LanToLan := { fam_v4 : family; fam_v6 : family }.

(** [ipacm_event_lan_client] *)
Record ipacm_event_lan_client := {
  lc_iptype : ipa_ip_type;
  lc_ipv4_addr : Z;
  lc_ipv6_addr : v6addr;
  lc_mac_addr : list Z;
  lc_p_iface : option Iface
}.

(** The payloads of the events [event_callback] handles. *)
Inductive lan_payload :=
  | LanClient (d : option ipacm_event_lan_client)
  | LanConn (d : ipacm_event_connection).

(** ** Stateful code on one family *)

Definition M (A : Type) : Type := family * W -> option (A * (family * W)).

Definition ret {A} (x : A) : M A := fun s => Some (x, s).
Definition bind {A B} (m : M A) (k : A -> M B) : M B :=
  fun s => match m s with Some (x, s) => k x s | None => None end.
(** Undefined behaviour. *)
Definition ub {A} : M A := fun _ => None.

Local Notation "'let*' x := m 'in' k" := (bind m (fun x => k))
  (at level 10, x binder, m at level 100, k at level 200).
Local Notation "m >> k" := (bind m (fun _ => k)) (at level 60, right associativity).

Definition deref {A} (p : option A) : M A := match p with Some x => ret x | None => ub end.
Definition get (l : loc) : M client_info :=
  fun s => match clients (fst s) !! l with Some c => Some (c, s) | None => None end.
Definition upd (l : loc) (g : client_info -> client_info) : M unit :=
  fun s => match clients (fst s) !! l with
           | Some c => Some (tt, (fst s <| clients := <[l := g c]> (clients (fst s)) |>, snd s))
           | None => None
           end.
Definition hw {A} (f : W -> A * W) : M A := fun s => let '(x, w) := f (snd s) in Some (x, (fst s, w)).
Definition get_fam : M family := fun s => Some (fst s, s).
Definition upd_fam (g : family -> family) : M unit := fun s => Some (tt, (g (fst s), snd s)).
Definition get_cat (p : option Iface) : M ipacm_iface_type :=
  let* i := deref p in hw (fun w => (if_category i w, w)).

(** [for(it = l.begin(); it != l.end(); it++) body( *it);]: [Some r] is an early
    [return r]. *)
Fixpoint for_each {X R} (body : X -> M (option R)) (l : list X) : M (option R) :=
  match l with
  | [] => ret None
  | x :: l => let* r := body x in match r with Some r => ret (Some r) | None => for_each body l end
  end.

(** [list.erase] at the first element that satisfies [p]. *)
Fixpoint erase_first {X} (p : X -> bool) (l : list X) : list X :=
  match l with [] => [] | x :: l => if p x then l else x :: erase_first p l end.

Definition inc_pairs : M unit := upd_fam (fun f => f <| num_offload_pair_ := uinc 8 (num_offload_pair_ f) |>).
Definition dec_pairs : M unit := upd_fam (fun f => f <| num_offload_pair_ := udec 8 (num_offload_pair_ f) |>).

Definition ipv4_addr (c : client_info) : Z := let '(a, _, _, _) := ip c in a.
Definition points_to (l : loc) (k : offload_link_info) : bool := bool_decide (link_peer k = l).
Definition peers_with (l : loc) (p : peer_info) : bool := bool_decide (peer_pointer p = l).

(** ** Offload links *)

(** [add_offload_link]: one direction; on failure what was added is taken back. *)
Definition add_offload_link (iptype : ipa_ip_type) (client pr : loc) : M Z :=
  let* f := get_fam in
  if bool_decide (iptype <> IPA_IP_MAX) && (MAX_OFFLOAD_PAIR <=? num_offload_pair_ f) then ret IPACM_FAILURE
  else if bool_decide (iptype = IPA_IP_MAX) then ret IPACM_FAILURE
  else
    let* c := get client in
    let* p := get pr in
    let* pif := deref (p_iface p) in
    let* h := hw (add_lan2lan_hdr pif iptype (mac_addr c) (mac_addr p)) in
    if fst h =? IPACM_FAILURE then ret IPACM_FAILURE
    else
      let* r := hw (add_lan2lan_rt_rule pif iptype (ipv4_addr c) (ipv4_addr p) (ip c) (ip p) (snd h)) in
      if fst r =? IPACM_FAILURE then
        hw (del_lan2lan_hdr pif iptype (snd h)) >> ret IPACM_FAILURE
      else
        let* cif := deref (p_iface c) in
        let* t := hw (add_lan2lan_flt_rule cif iptype (ipv4_addr c) (ipv4_addr p) (ip c) (ip p)) in
        if fst t =? IPACM_FAILURE then
          hw (del_lan2lan_rt_rule pif iptype (snd r)) >>
          hw (del_lan2lan_hdr pif iptype (snd h)) >> ret IPACM_FAILURE
        else
          upd client (fun c => c <| link := link c ++
            [{| link_peer := pr; flt_rule_hdl := snd t; rt_rule_hdl := snd r; hdr_hdl := snd h |}] |>) >>
          ret IPACM_SUCCESS.

(** [del_offload_link]: every part is attempted, any failure is reported. *)
Definition del_offload_link (iptype : ipa_ip_type) (client pr : option Iface)
    (lnk : offload_link_info) : M Z :=
  match client, pr with
  | Some client, Some pr =>
      let* r1 := hw (del_lan2lan_flt_rule client iptype (flt_rule_hdl lnk)) in
      let* r2 := hw (del_lan2lan_rt_rule pr iptype (rt_rule_hdl lnk)) in
      let* r3 := hw (del_lan2lan_hdr pr iptype (hdr_hdl lnk)) in
      ret (if (r1 =? IPACM_FAILURE) || (r2 =? IPACM_FAILURE) || (r3 =? IPACM_FAILURE)
           then IPACM_FAILURE else IPACM_SUCCESS)
  | _, _ => ret IPACM_FAILURE
  end.

(** [check_potential_link]: the result of the first direction is overwritten. *)
Definition check_peer (iptype : ipa_ip_type) (client : loc) (q : peer_info) : M (option Empty_set) :=
  let* p := get (peer_pointer q) in
  if is_active p && (0 <? num_connection q) then
    add_offload_link iptype client (peer_pointer q) >>
    let* res := add_offload_link iptype (peer_pointer q) client in
    (if res =? IPACM_SUCCESS then inc_pairs else ret tt) >> ret None
  else ret None.

Definition check_potential_link (iptype : ipa_ip_type) (client : loc) : M unit :=
  let* c := get client in for_each (check_peer iptype client) (peer c) >> ret tt.

(** The body of the loop of [turnoff_offload_links] for the client's link [k].
    Erasing an element of the list the loop walks invalidates its iterator. *)
Definition turnoff_link (iptype : ipa_ip_type) (client : loc) (k : offload_link_info) : M (option Z) :=
  let* c := get client in
  let* p := get (link_peer k) in
  let* r := del_offload_link iptype (p_iface c) (p_iface p) k in
  if r =? IPACM_FAILURE then ret (Some IPACM_FAILURE)
  else
    match find_index (points_to client) (link p) ≫= fun i => link p !! i with
    | Some k' =>
        let* r := del_offload_link iptype (p_iface p) (p_iface c) k' in
        if r =? IPACM_FAILURE then ret (Some IPACM_FAILURE)
        else if bool_decide (link_peer k = client) then ub
        else
          upd (link_peer k) (fun p => p <| link := erase_first (points_to client) (link p) |>) >>
          dec_pairs >> ret None
    | None => ret (Some IPACM_FAILURE)
    end.

Definition turnoff_offload_links (iptype : ipa_ip_type) (client : loc) : M Z :=
  let* c := get client in
  let* r := for_each (turnoff_link iptype client) (link c) in
  match r with
  | Some r => ret r
  | None => upd client (fun c => c <| link := [] |>) >> ret IPACM_SUCCESS
  end.

(** [clear_peer_list] *)
Definition clear_peer (client : loc) (q : peer_info) : M (option Z) :=
  let* p := get (peer_pointer q) in
  match find_index (peers_with client) (peer p) with
  | Some _ =>
      if bool_decide (peer_pointer q = client) then ub
      else
        upd (peer_pointer q) (fun p => p <| peer := erase_first (peers_with client) (peer p) |>) >> ret None
  | None => ret (Some IPACM_FAILURE)
  end.

Definition clear_peer_list (client : loc) : M Z :=
  let* c := get client in
  let* r := for_each (clear_peer client) (peer c) in
  match r with
  | Some r => ret r
  | None => upd client (fun c => c <| peer := [] |>) >> ret IPACM_SUCCESS
  end.

(** [erase_offload_link] *)
Definition erase_one (iptype : ipa_ip_type) (src dst : loc) : M Z :=
  let* s := get src in
  match find_index (points_to dst) (link s) ≫= fun i => link s !! i with
  | Some k =>
      let* d := get dst in
      let* r := del_offload_link iptype (p_iface s) (p_iface d) k in
      upd src (fun s => s <| link := erase_first (points_to dst) (link s) |>) >> ret r
  | None => ret IPACM_FAILURE
  end.

Definition erase_offload_link (iptype : ipa_ip_type) (src dst : loc) : M unit :=
  let* res_src := erase_one iptype src dst in
  let* res_dst := erase_one iptype dst src in
  if (res_src =? IPACM_SUCCESS) && (res_dst =? IPACM_SUCCESS) then dec_pairs else ret tt.

(** [remove_flt_rules]: failures of the driver are only logged. *)
Definition remove_flt (iptype : ipa_ip_type) (client : loc) (k : offload_link_info) : M (option Z) :=
  let* c := get client in
  let* cif := deref (p_iface c) in
  let* _r := hw (del_lan2lan_flt_rule cif iptype (flt_rule_hdl k)) in
  let* p := get (link_peer k) in
  match find_index (points_to client) (link p) ≫= fun i => link p !! i with
  | Some k' =>
      let* pif := deref (p_iface p) in
      let* _r := hw (del_lan2lan_flt_rule pif iptype (flt_rule_hdl k')) in
      ret None
  | None => ret (Some IPACM_FAILURE)
  end.

Definition remove_flt_rules (iptype : ipa_ip_type) (client : loc) : M Z :=
  let* c := get client in
  let* r := for_each (remove_flt iptype client) (link c) in
  match r with Some r => ret r | None => ret IPACM_SUCCESS end.

(** [add_flt_rules]: the new handles go into the client's link [i] and the
    first link of its peer that points back; a handle is only stored on
    success ([IPACM_Lan::add_lan2lan_flt_rule] writes it there alone). *)
Definition set_flt (l : loc) (i : nat) (hdl : Z) : M unit :=
  upd l (fun c => c <| link := alter (fun k => k <| flt_rule_hdl := hdl |>) i (link c) |>).

Definition add_flt (iptype : ipa_ip_type) (client : loc) (i : nat) : M (option Z) :=
  let* c := get client in
  let* k := deref (link c !! i) in
  let* p := get (link_peer k) in
  let* cif := deref (p_iface c) in
  let* t := hw (add_lan2lan_flt_rule cif iptype (ipv4_addr c) (ipv4_addr p) (ip c) (ip p)) in
  if fst t =? IPACM_FAILURE then ret (Some IPACM_FAILURE)
  else
    set_flt client i (snd t) >>
    let* p := get (link_peer k) in
    match find_index (points_to client) (link p) with
    | Some j =>
        let* pif := deref (p_iface p) in
        let* t := hw (add_lan2lan_flt_rule pif iptype (ipv4_addr p) (ipv4_addr c) (ip p) (ip c)) in
        if fst t =? IPACM_FAILURE then ret (Some IPACM_FAILURE)
        else set_flt (link_peer k) j (snd t) >> ret None
    | None => ret (Some IPACM_FAILURE)
    end.

Definition add_flt_rules (iptype : ipa_ip_type) (client : loc) : M Z :=
  let* c := get client in
  let* r := for_each (add_flt iptype client) (seq 0 (length (link c))) in
  match r with Some r => ret r | None => ret IPACM_SUCCESS end.

(** ** Connections *)

(** Signed [int] arithmetic: overflow is undefined. *)
Definition int_add (n d : Z) : M Z :=
  if (- 2 ^ 31 <=? n + d) && (n + d <? 2 ^ 31) then ret (n + d) else ub.

Definition set_conn (src dst : loc) (n : Z) : M unit :=
  upd src (fun s => s <| peer := update_first (peers_with dst)
    (fun q => {| peer_pointer := peer_pointer q; num_connection := n |}) (peer s) |>).

(** One half of [add_connection]: [true] when an entry is inserted. *)
Definition add_peer (src dst : loc) : M bool :=
  let* s := get src in
  match find_index (peers_with dst) (peer s) ≫= fun i => peer s !! i with
  | Some q => let* n := int_add (num_connection q) 1 in set_conn src dst n >> ret false
  | None =>
      upd src (fun s => s <| peer := peer s ++ [{| peer_pointer := dst; num_connection := 1 |}] |>) >>
      ret true
  end.

Definition add_connection (src dst : loc) : M bool :=
  let* r1 := add_peer src dst in let* r2 := add_peer dst src in ret (r1 || r2).

(** One half of [remove_connection]: [true] when the entry goes. *)
Definition remove_peer (src dst : loc) : M bool :=
  let* s := get src in
  match find_index (peers_with dst) (peer s) ≫= fun i => peer s !! i with
  | Some q =>
      let* n := int_add (num_connection q) (-1) in
      set_conn src dst n >>
      if n =? 0 then upd src (fun s => s <| peer := erase_first (peers_with dst) (peer s) |>) >> ret true
      else ret false
  | None => ret false
  end.

Definition remove_connection (src dst : loc) : M bool :=
  let* _r := remove_peer src dst in remove_peer dst src.

(** The key of a client: its IPv4 address or the low half of its IPv6 address
    ([memcpy] of eight bytes on a little-endian machine). *)
Definition v6_key (a : v6addr) : Z := let '(_, _, w2, w3) := a in w2 + Z.shiftl w3 32.
Definition client_key (iptype : ipa_ip_type) (a4 : Z) (a6 : v6addr) : Z :=
  match iptype with IPA_IP_v4 => a4 | _ => v6_key a6 end.

(** The event [generate_new_connection] posts for [c] and [p]. *)
Definition conn_between (iptype : ipa_ip_type) (c p : client_info) : ipacm_event_connection :=
  match iptype with
  | IPA_IP_v4 => {| cn_iptype := IPA_IP_v4; src_ipv4_addr := ipv4_addr c; dst_ipv4_addr := ipv4_addr p;
                    src_ipv6_addr := (0, 0, 0, 0); dst_ipv6_addr := (0, 0, 0, 0) |}
  | _ => {| cn_iptype := IPA_IP_v6; src_ipv4_addr := 0; dst_ipv4_addr := 0;
            src_ipv6_addr := ip c; dst_ipv6_addr := ip p |}
  end.

Definition generate_one (iptype : ipa_ip_type) (client : loc) (client_type : ipacm_iface_type)
    (e : Z * loc) : M (option unit) :=
  let* p := get (snd e) in
  let* peer_type := get_cat (p_iface p) in
  if negb (bool_decide (peer_type = client_type)) && is_active p then
    let* c := get client in
    let* ok := hw (post_conn IPA_LAN_TO_LAN_NEW_CONNECTION (conn_between iptype c p)) in
    ret (if ok then None else Some tt)
  else ret None.

Definition generate_new_connection (iptype : ipa_ip_type) (client : loc) : M unit :=
  if CT_OPT then ret tt
  else
    let* c := get client in
    let* client_type := get_cat (p_iface c) in
    match iptype with
    | IPA_IP_MAX => ret tt
    | _ =>
        let* f := get_fam in
        for_each (generate_one iptype client client_type) (hash_order (client_info_ f)) >> ret tt
    end.

(** ** The cache of connections whose ends are not known yet *)

Definition known (f : family) (k : Z) : bool := bool_decide (is_Some (client_info_ f !! k)).

(** The condition of [check_cache_connection]. *)
Definition cache_hit (iptype : ipa_ip_type) (f : family) (c : client_info)
    (it : ipacm_event_connection) : bool :=
  match iptype with
  | IPA_IP_v4 =>
      ((src_ipv4_addr it =? ipv4_addr c) && known f (dst_ipv4_addr it))
      || ((dst_ipv4_addr it =? ipv4_addr c) && known f (src_ipv4_addr it))
  | _ =>
      (bool_decide (src_ipv6_addr it = ip c) && known f (v6_key (dst_ipv6_addr it)))
      || (bool_decide (dst_ipv6_addr it = ip c) && known f (v6_key (src_ipv6_addr it)))
  end.

(** The loop of [check_cache_connection]: what stays in the list.  When
    [malloc] fails the function returns and the rest stays. *)
Fixpoint check_cache_loop (iptype : ipa_ip_type) (client : loc) (l : list ipacm_event_connection) :
    M (list ipacm_event_connection) :=
  match l with
  | [] => ret []
  | it :: l' =>
      let* f := get_fam in
      let* c := get client in
      if cache_hit iptype f c it then
        let* ok := hw (post_conn IPA_LAN_TO_LAN_NEW_CONNECTION it) in
        if (ok : bool) then check_cache_loop iptype client l' else ret l
      else
        let* k := check_cache_loop iptype client l' in ret (it :: k)
  end.

Definition check_cache_connection (iptype : ipa_ip_type) (client : loc) : M unit :=
  if CT_OPT then
    let* f := get_fam in
    let* k := check_cache_loop iptype client (connection_ f) in
    upd_fam (fun f => f <| connection_ := k |>)
  else ret tt.

Definition in_subnet (a : Z) (s : ipa_private_subnet) : bool :=
  Z.land a (subnet_mask s) =? Z.land (subnet_addr s) (subnet_mask s).
Definition not_multicast (a : v6addr) : bool :=
  let '(w0, _, _, _) := a in
  negb (Z.land w0 ipv6_multicast_mask =? Z.land ipv6_multicast_addr ipv6_multicast_mask).

Definition is_potential_lan2lan_connection (cfg : IPACM_Config) (cn : ipacm_event_connection) : bool :=
  match cn_iptype cn with
  | IPA_IP_v4 => existsb (in_subnet (src_ipv4_addr cn)) (subnets_in_use cfg)
                 && existsb (in_subnet (dst_ipv4_addr cn)) (subnets_in_use cfg)
  | _ => not_multicast (src_ipv6_addr cn) && not_multicast (dst_ipv6_addr cn)
  end.

Definition cache_new_connection (cfg : IPACM_Config) (cn : ipacm_event_connection) (f : family) : family :=
  if is_potential_lan2lan_connection cfg cn then
    let l := if bool_decide (length (connection_ f) = max_cache_connection) then [] else connection_ f in
    f <| connection_ := l ++ [cn] |>
  else f.

(** The comparison of [remove_cache_connection]. *)
Definition same_ends (cn it : ipacm_event_connection) : bool :=
  match cn_iptype cn with
  | IPA_IP_v4 => (src_ipv4_addr it =? src_ipv4_addr cn) && (dst_ipv4_addr it =? dst_ipv4_addr cn)
  | _ => bool_decide (src_ipv6_addr it = src_ipv6_addr cn)
         && bool_decide (dst_ipv6_addr it = dst_ipv6_addr cn)
  end.

Definition remove_cache_connection (cfg : IPACM_Config) (cn : ipacm_event_connection) (f : family) : family :=
  if is_potential_lan2lan_connection cfg cn
  then f <| connection_ := erase_first (same_ends cn) (connection_ f) |>
  else f.

(** ** The handlers *)

(** A handler of one family as a handler of the whole object. *)
Definition fam_of (iptype : ipa_ip_type) (s : IPACM_LanToLan) : family :=
  match iptype with IPA_IP_v4 => fam_v4 s | _ => fam_v6 s end.
Definition set_fam (iptype : ipa_ip_type) (f : family) (s : IPACM_LanToLan) : IPACM_LanToLan :=
  match iptype with
  | IPA_IP_v4 => {| fam_v4 := f; fam_v6 := fam_v6 s |}
  | _ => {| fam_v4 := fam_v4 s; fam_v6 := f |}
  end.
Definition on {A} (iptype : ipa_ip_type) (m : M A) (s : IPACM_LanToLan * W) :
    option (A * (IPACM_LanToLan * W)) :=
  match m (fam_of iptype (fst s), snd s) with
  | Some (x, (f, w)) => Some (x, (set_fam iptype f (fst s), w))
  | None => None
  end.

(** The checks every client handler starts with. *)
Definition lan_client (data : option ipacm_event_lan_client)
    (body : ipacm_event_lan_client -> Iface -> M unit) (s : IPACM_LanToLan * W) :
    option (unit * (IPACM_LanToLan * W)) :=
  match data with
  | None => Some (tt, s)
  | Some d =>
      match lc_p_iface d with
      | None => Some (tt, s)
      | Some i =>
          if bool_decide (lc_iptype d = IPA_IP_MAX) then Some (tt, s)
          else on (lc_iptype d) (body d i) s
      end
  end.

Definition data_key (d : ipacm_event_lan_client) : Z :=
  client_key (lc_iptype d) (lc_ipv4_addr d) (lc_ipv6_addr d).

(** The look-up of the client of an event: nothing is done for an unknown one. *)
Definition found (k : Z) (body : loc -> M unit) : M unit :=
  let* f := get_fam in
  match client_info_ f !! k with Some l => body l | None => ret tt end.

(** [client_info_*_.erase(key)] *)
Definition erase_client (k : Z) : M unit :=
  upd_fam (fun f =>
    match client_info_ f !! k with
    | Some l => f <| client_info_ := delete k (client_info_ f) |> <| clients := delete l (clients f) |>
    | None => f
    end).

Definition set_client (d : ipacm_event_lan_client) (i : Iface) (c : client_info) : client_info :=
  c <| ip := match lc_iptype d with
             | IPA_IP_v4 => let '(_, w1, w2, w3) := ip c in (lc_ipv4_addr d, w1, w2, w3)
             | _ => lc_ipv6_addr d
             end |>
    <| mac_addr := lc_mac_addr d |> <| is_active := true |> <| is_powersave := false |>
    <| p_iface := Some i |>.

(** The element [operator[]] inserts. *)
Definition zero_client : client_info :=
  {| ip := (0, 0, 0, 0); mac_addr := replicate 6 0; is_active := false; is_powersave := false;
     p_iface := None; peer := []; link := [] |}.

Definition new_connections (iptype : ipa_ip_type) (l : loc) : M unit :=
  generate_new_connection iptype l >> check_cache_connection iptype l.

(** [handle_client_active]; [nw] is the node the table allocates for a new
    client. *)
Definition active_body (nw : loc) (d : ipacm_event_lan_client) (i : Iface) : M unit :=
  let* f := get_fam in
  match client_info_ f !! data_key d with
  | None =>
      upd_fam (fun f => f <| client_info_ := <[data_key d := nw]> (client_info_ f) |>
                          <| clients := <[nw := zero_client]> (clients f) |>) >>
      upd nw (set_client d i) >>
      new_connections (lc_iptype d) nw
  | Some l =>
      let* c := get l in
      if is_active c then
        if bool_decide (mac_addr c = lc_mac_addr d) then ret tt
        else
          turnoff_offload_links (lc_iptype d) l >>
          clear_peer_list l >>
          upd l (set_client d i) >>
          new_connections (lc_iptype d) l
      else
        upd l (set_client d i) >>
        check_potential_link (lc_iptype d) l >>
        new_connections (lc_iptype d) l
  end.
Definition handle_client_active (nw : loc) (data : option ipacm_event_lan_client) :=
  lan_client data (active_body nw).

(** [handle_client_inactive] *)
Definition inactive_body (iptype : ipa_ip_type) (k : Z) (l : loc) : M unit :=
  turnoff_offload_links iptype l >>
  upd l (fun c => c <| is_active := false |>) >>
  let* c := get l in
  if bool_decide (length (peer c) = 0%nat) then erase_client k else ret tt.
Definition handle_client_inactive (data : option ipacm_event_lan_client) :=
  lan_client data (fun d _ => found (data_key d) (inactive_body (lc_iptype d) (data_key d))).

(** [handle_client_disconnect] *)
Definition disconnect_body (iptype : ipa_ip_type) (k : Z) (l : loc) : M unit :=
  turnoff_offload_links iptype l >> clear_peer_list l >> erase_client k.
Definition handle_client_disconnect (data : option ipacm_event_lan_client) :=
  lan_client data (fun d _ => found (data_key d) (disconnect_body (lc_iptype d) (data_key d))).

(** [handle_client_power_save] *)
Definition power_save_body (iptype : ipa_ip_type) (l : loc) : M unit :=
  let* r := remove_flt_rules iptype l in
  if r =? IPACM_FAILURE then ret tt
  else upd l (fun c => c <| is_active := false |> <| is_powersave := true |>).
Definition handle_client_power_save (data : option ipacm_event_lan_client) :=
  lan_client data (fun d _ => found (data_key d) (power_save_body (lc_iptype d))).

(** [handle_client_power_recover] *)
Definition power_recover_body (iptype : ipa_ip_type) (l : loc) : M unit :=
  let* c := get l in
  if is_active c || negb (is_powersave c) then ret tt
  else
    let* r := add_flt_rules iptype l in
    if r =? IPACM_FAILURE then ret tt
    else
      upd l (fun c => c <| is_active := true |> <| is_powersave := false |>) >>
      check_potential_link iptype l >>
      generate_new_connection iptype l.
Definition handle_client_power_recover (data : option ipacm_event_lan_client) :=
  lan_client data (fun d _ => found (data_key d) (power_recover_body (lc_iptype d))).

Definition src_key (cn : ipacm_event_connection) : Z :=
  client_key (cn_iptype cn) (src_ipv4_addr cn) (src_ipv6_addr cn).
Definition dst_key (cn : ipacm_event_connection) : Z :=
  client_key (cn_iptype cn) (dst_ipv4_addr cn) (dst_ipv6_addr cn).

(** The links a first connection brings up. *)
Definition new_links (iptype : ipa_ip_type) (src dst : loc) : M unit :=
  let* r1 := add_offload_link iptype src dst in
  if r1 =? IPACM_FAILURE then ret tt
  else
    let* r2 := add_offload_link iptype dst src in
    if r2 =? IPACM_FAILURE then ret tt else inc_pairs.

(** [handle_new_lan2lan_connection] *)
Definition new_connection_body (iptype : ipa_ip_type) (src dst : loc) : M unit :=
  let* first := add_connection src dst in
  let* s := get src in
  let* d := get dst in
  if first && is_active s && is_active d then new_links iptype src dst else ret tt.
Definition handle_new_lan2lan_connection (cn : ipacm_event_connection) :=
  on (cn_iptype cn) (found (src_key cn) (fun src => found (dst_key cn)
    (new_connection_body (cn_iptype cn) src))).

(** The links the last connection takes down. *)
Definition drop_links (iptype : ipa_ip_type) (src dst : loc) : M unit :=
  let* s := get src in
  let* d := get dst in
  if is_active s && is_active d then erase_offload_link iptype src dst
  else
    (if is_powersave s && (is_active d || is_powersave d)
     then erase_offload_link iptype src dst else ret tt) >>
    (if is_powersave d && (is_active s || is_powersave s)
     then erase_offload_link iptype dst src else ret tt).

(** An inactive client goes with its last connection. *)
Definition reap (k : Z) (l : loc) : M unit :=
  let* c := get l in
  if negb (is_active c) && negb (is_powersave c) && bool_decide (length (peer c) = 0%nat)
  then erase_client k else ret tt.

(** [handle_del_lan2lan_connection] *)
Definition del_connection_body (iptype : ipa_ip_type) (ks kd : Z) (src dst : loc) : M unit :=
  let* res := remove_connection src dst in
  if (res : bool) then drop_links iptype src dst >> reap ks src >> reap kd dst else ret tt.
Definition handle_del_lan2lan_connection (cn : ipacm_event_connection) :=
  on (cn_iptype cn) (found (src_key cn) (fun src => found (dst_key cn)
    (del_connection_body (cn_iptype cn) (src_key cn) (dst_key cn) src))).

(** [event_callback]; an event with the wrong kind of payload is undefined. *)
Definition event_callback (nw : loc) (event : ipa_cm_event_id) (param : lan_payload)
    (s : IPACM_LanToLan * W) : option (unit * (IPACM_LanToLan * W)) :=
  match event, param with
  | IPA_LAN_CLIENT_ACTIVE, LanClient d => handle_client_active nw d s
  | IPA_LAN_CLIENT_INACTIVE, LanClient d => handle_client_inactive d s
  | IPA_LAN_CLIENT_DISCONNECT, LanClient d => handle_client_disconnect d s
  | IPA_LAN_CLIENT_POWER_SAVE, LanClient d => handle_client_power_save d s
  | IPA_LAN_CLIENT_POWER_RECOVER, LanClient d => handle_client_power_recover d s
  | IPA_LAN_TO_LAN_NEW_CONNECTION, LanConn cn => handle_new_lan2lan_connection cn s
  | IPA_LAN_TO_LAN_DEL_CONNECTION, LanConn cn => handle_del_lan2lan_connection cn s
  | IPA_LAN_CLIENT_ACTIVE, _ | IPA_LAN_CLIENT_INACTIVE, _ | IPA_LAN_CLIENT_DISCONNECT, _
  | IPA_LAN_CLIENT_POWER_SAVE, _ | IPA_LAN_CLIENT_POWER_RECOVER, _
  | IPA_LAN_TO_LAN_NEW_CONNECTION, _ | IPA_LAN_TO_LAN_DEL_CONNECTION, _ => None
  | _, _ => Some (tt, s)
  end.

(** ** Construction, destruction and the entry points of the conntrack listener *)

Definition empty_family : family :=
  {| client_info_ := ∅; clients := ∅; num_offload_pair_ := 0; connection_ := [] |}.
(** The events the constructor registers for, in order. *)
Definition lan2lan_events : list ipa_cm_event_id :=
  [IPA_LAN_CLIENT_ACTIVE; IPA_LAN_CLIENT_INACTIVE; IPA_LAN_CLIENT_DISCONNECT; IPA_LAN_CLIENT_POWER_SAVE;
   IPA_LAN_CLIENT_POWER_RECOVER; IPA_LAN_TO_LAN_NEW_CONNECTION; IPA_LAN_TO_LAN_DEL_CONNECTION].
Definition IPACM_LanToLan_ctor : IPACM_LanToLan :=
  {| fam_v4 := empty_family; fam_v6 := empty_family |}.

Definition clear_family (iptype : ipa_ip_type) : M unit :=
  let* f := get_fam in
  for_each (R := Empty_set) (fun e =>
    turnoff_offload_links iptype (snd e) >> clear_peer_list (snd e) >> ret None)
    (hash_order (client_info_ f)) >>
  upd_fam (fun f => f <| client_info_ := ∅ |> <| clients := ∅ |>).

Definition IPACM_LanToLan_dtor (s : IPACM_LanToLan * W) : option (unit * (IPACM_LanToLan * W)) :=
  match on IPA_IP_v4 (clear_family IPA_IP_v4) s with
  | Some (_, s) => on IPA_IP_v6 (clear_family IPA_IP_v6) s
  | None => None
  end.

Definition is_lan2lan_connection (cn : ipacm_event_connection) : M bool :=
  let* f := get_fam in
  match client_info_ f !! src_key cn, client_info_ f !! dst_key cn with
  | Some src, Some dst =>
      let* s := get src in
      let* src_type := get_cat (p_iface s) in
      let* d := get dst in
      let* dst_type := get_cat (p_iface d) in
      ret (negb (bool_decide (src_type = dst_type)))
  | _, _ => ret false
  end.

(** [handle_new_connection] and [handle_del_connection]: [event] and [other] are
    where they differ. *)
Definition handle_connection (event : ipa_cm_event_id) (other : ipacm_event_connection -> family -> family)
    (cn : option ipacm_event_connection) (s : IPACM_LanToLan * W) :
    option (unit * (IPACM_LanToLan * W)) :=
  match cn with
  | Some cn =>
      if CT_OPT && negb (bool_decide (cn_iptype cn = IPA_IP_MAX)) then
        on (cn_iptype cn) (
          let* b := is_lan2lan_connection cn in
          if (b : bool) then let* _ok := hw (post_conn event cn) in ret tt
          else upd_fam (other cn)) s
      else Some (tt, s)
  | None => Some (tt, s)
  end.

Definition handle_new_connection (cfg : IPACM_Config) :=
  handle_connection IPA_LAN_TO_LAN_NEW_CONNECTION (cache_new_connection cfg).
Definition handle_del_connection (cfg : IPACM_Config) :=
  handle_connection IPA_LAN_TO_LAN_DEL_CONNECTION (remove_cache_connection cfg).
End lantolan.
