(* ===== verification/LanDriver.v ===== *)
(** * What the LAN-to-LAN offload relies on

    Laws of the interface [LanIface] that groups of theorems assume, and a small
    driver that satisfies them: it keeps the list of what is installed, hands out
    unused handles, records the events posted and fails on chosen calls. *)
From S2P Require Import Prelude Defs Heap LanToLan.
From stdpp Require Import base list gmap strings.
From Stdlib Require Import ZArith Lia.

Open Scope Z_scope.

(** A driver none of whose calls fails. *)
Class LanIfaceOk (Iface W : Type) `{LanIface Iface W} : Prop := {
  ok_add_hdr : forall i ip a b w, (add_lan2lan_hdr i ip a b w).1.1 = IPACM_SUCCESS;
  ok_add_rt : forall i ip a b c d h w, (add_lan2lan_rt_rule i ip a b c d h w).1.1 = IPACM_SUCCESS;
  ok_add_flt : forall i ip a b c d w, (add_lan2lan_flt_rule i ip a b c d w).1.1 = IPACM_SUCCESS;
  ok_del_hdr : forall i ip h w, (del_lan2lan_hdr i ip h w).1 = IPACM_SUCCESS;
  ok_del_rt : forall i ip h w, (del_lan2lan_rt_rule i ip h w).1 = IPACM_SUCCESS;
  ok_del_flt : forall i ip h w, (del_lan2lan_flt_rule i ip h w).1 = IPACM_SUCCESS
}.

(** What can be installed on an interface: a header, the routing rules of a
    link, a filter rule. *)
Inductive hw_item (Iface : Type) :=
  | Hdr (i : Iface) (ip : ipa_ip_type) (h : Z)
  | Rt (i : Iface) (ip : ipa_ip_type) (h : lan_to_lan_rt_rule_hdl)
  | Flt (i : Iface) (ip : ipa_ip_type) (h : Z).
Arguments Hdr {Iface} i ip h.
Arguments Rt {Iface} i ip h.
Arguments Flt {Iface} i ip h.

(** Laws over the set [live w] of installed items. *)
Section item_laws.
Context {Iface W : Type} (live : W -> hw_item Iface -> Prop).

(** A call that adds the item [x]: all or nothing, and the handle is new. *)
Definition adds (r : Z) (x : hw_item Iface) (w w' : W) : Prop :=
  if r =? IPACM_FAILURE then forall y, live w' y <-> live w y
  else ~ live w x /\ forall y, live w' y <-> y = x \/ live w y.

(** Deleting an installed item succeeds and removes that item alone. *)
Definition removes (r : Z) (x : hw_item Iface) (w w' : W) : Prop :=
  live w x -> r <> IPACM_FAILURE /\ forall y, live w' y <-> y <> x /\ live w y.
End item_laws.

Class LanIfaceLive (Iface W : Type) `{LanIface Iface W} := {
  live : W -> hw_item Iface -> Prop;
  live_add_hdr : forall i ip a b w, let '(r, h, w') := add_lan2lan_hdr i ip a b w in
    adds live r (Hdr i ip h) w w';
  live_add_rt : forall i ip a b c d k w, let '(r, h, w') := add_lan2lan_rt_rule i ip a b c d k w in
    adds live r (Rt i ip h) w w';
  live_add_flt : forall i ip a b c d w, let '(r, h, w') := add_lan2lan_flt_rule i ip a b c d w in
    adds live r (Flt i ip h) w w';
  live_del_hdr : forall i ip h w, let '(r, w') := del_lan2lan_hdr i ip h w in
    removes live r (Hdr i ip h) w w';
  live_del_rt : forall i ip h w, let '(r, w') := del_lan2lan_rt_rule i ip h w in
    removes live r (Rt i ip h) w w';
  live_del_flt : forall i ip h w, let '(r, w') := del_lan2lan_flt_rule i ip h w in
    removes live r (Flt i ip h) w w'
}.

(** An event queue that takes every event, and posting changes no category. *)
Class LanPostOk (Iface W : Type) `{LanIface Iface W} := {
  posted : W -> list (ipa_cm_event_id * ipacm_event_connection);
  post_ok : forall e c w,
    (post_conn e c w).1 = true /\ posted (post_conn e c w).2 = posted w ++ [(e, c)];
  post_cat : forall i e c w, if_category i (post_conn e c w).2 = if_category i w
}.

(** ** A simple driver *)

#[export] Instance rt_hdl_eq_dec : EqDecision lan_to_lan_rt_rule_hdl.
Proof. solve_decision. Defined.
#[export] Instance hw_item_eq_dec : EqDecision (hw_item nat).
Proof. solve_decision. Defined.

Record simple_world := {
  sw_calls : nat;
  sw_items : list (hw_item nat);
  sw_posted : list (ipa_cm_event_id * ipacm_event_connection)
}.

Definition item_hdl (x : hw_item nat) : Z :=
  match x with Hdr _ _ h | Flt _ _ h => h | Rt _ _ h => default 0 (head (rule_hdl h)) end.
Definition next_hdl (l : list (hw_item nat)) : Z := 1 + foldr Z.max 0 (item_hdl <$> l).

(** Interfaces are numbers, the even ones wireless; [fail n]: the [n]th call
    that adds something fails. *)
Section simple.
Variable fail : nat -> bool.

Definition simple_add {A} (mk : Z -> A) (x : A -> hw_item nat) (w : simple_world) : Z * A * simple_world :=
  let h := mk (next_hdl (sw_items w)) in
  if fail (sw_calls w)
  then (IPACM_FAILURE, h, {| sw_calls := S (sw_calls w); sw_items := sw_items w; sw_posted := sw_posted w |})
  else (IPACM_SUCCESS, h,
        {| sw_calls := S (sw_calls w); sw_items := x h :: sw_items w; sw_posted := sw_posted w |}).

Definition simple_del (x : hw_item nat) (w : simple_world) : Z * simple_world :=
  (IPACM_SUCCESS, {| sw_calls := sw_calls w; sw_items := filter (fun y => y <> x) (sw_items w);
                     sw_posted := sw_posted w |}).

Definition simple_iface : LanIface nat simple_world := {|
  if_category := fun i _ => if Nat.even i then WLAN_IF else LAN_IF;
  add_lan2lan_hdr := fun i ip _ _ => simple_add id (Hdr i ip);
  add_lan2lan_rt_rule := fun i ip _ _ _ _ _ =>
    simple_add (fun h => {| num_rule := 1; rule_hdl := [h] |}) (Rt i ip);
  add_lan2lan_flt_rule := fun i ip _ _ _ _ => simple_add id (Flt i ip);
  del_lan2lan_hdr := fun i ip h => simple_del (Hdr i ip h);
  del_lan2lan_rt_rule := fun i ip h => simple_del (Rt i ip h);
  del_lan2lan_flt_rule := fun i ip h => simple_del (Flt i ip h);
  post_conn := fun e c w => (true, {| sw_calls := sw_calls w; sw_items := sw_items w;
                                      sw_posted := sw_posted w ++ [(e, c)] |})
|}.

Lemma next_hdl_fresh x l : item_hdl x = next_hdl l -> x ∉ l.
Proof.
  intros Hx Hin. assert (item_hdl x < next_hdl l) as H; [|lia]. unfold next_hdl. clear Hx.
  induction Hin as [x l|x y l _ IH]; csimpl in *; simpl; lia.
Qed.

Lemma simple_add_adds {A} (mk : Z -> A) (x : A -> hw_item nat) w :
  (forall h, item_hdl (x (mk h)) = h) ->
  let '(r, h, w') := simple_add mk x w in adds (fun w y => y ∈ sw_items w) r (x h) w w'.
Proof.
  intros Hx. unfold simple_add. destruct (fail (sw_calls w)); [done|]. split; simpl.
  - apply next_hdl_fresh. apply Hx.
  - intros y. by rewrite elem_of_cons.
Qed.

Lemma simple_del_removes x w :
  let '(r, w') := simple_del x w in removes (fun w y => y ∈ sw_items w) r x w w'.
Proof. intros _. split; [done|]. intros y. simpl. by rewrite list_elem_of_filter. Qed.

Definition simple_live : @LanIfaceLive nat simple_world simple_iface.
Proof.
  refine (@Build_LanIfaceLive nat simple_world simple_iface (fun w y => y ∈ sw_items w) _ _ _ _ _ _);
    intros; try apply simple_del_removes; by apply simple_add_adds.
Defined.

Definition simple_post : @LanPostOk nat simple_world simple_iface.
Proof. by refine (@Build_LanPostOk nat simple_world simple_iface sw_posted _ _). Defined.
End simple.

Lemma simple_ok : @LanIfaceOk nat simple_world (simple_iface (fun _ => false)).
Proof. by split. Qed.

Definition simple_init : simple_world := {| sw_calls := 0; sw_items := []; sw_posted := [] |}.
