(* ===== verification/LanGraph.v ===== *)
(** * The graph of LAN-to-LAN clients

    The tables of [LanToLan.v] are graphs: clients point at each other through
    peer lists and offload links.  This file has the graphs as finite maps, the
    invariant of a family ([fam_inv]: both relations are symmetric and stay inside
    the table, the pair counter counts the links, an idle client has none) and
    what the loops that take links and peers down do to them. *)
From S2P Require Import Prelude Defs Heap Config LanToLan LanDriver.
From stdpp Require Import base list gmap strings.
From Stdlib Require Import ZArith Lia.

Open Scope Z_scope.

(** ** Erasing the first match *)

Section erase.
Context {X : Type}.
Implicit Types (p : X -> bool) (l : list X).

Lemma find_index_lookup p l :
  Exists (fun x => p x = true) l ->
  exists i x, find_index p l = Some i /\ l !! i = Some x /\ p x = true.
Proof.
  intros He. destruct (find_index p l) as [i|] eqn:E.
  - destruct (find_index_Some _ _ _ E) as (x & ? & ? & _). eauto.
  - apply find_index_None in E. exfalso. induction E; inversion He; congruence.
Qed.

Lemma erase_first_none p l : Forall (fun x => p x = false) l -> erase_first p l = l.
Proof. induction 1 as [|x l Hx _ IH]; simpl; [done|]. by rewrite Hx, IH. Qed.

Lemma erase_first_sublist p l : erase_first p l `sublist_of` l.
Proof.
  induction l as [|x l IH]; simpl; [done|]. destruct (p x); [by apply sublist_cons|by apply sublist_skip].
Qed.

Lemma length_erase_first p l :
  Exists (fun x => p x = true) l -> length l = S (length (erase_first p l)).
Proof.
  induction l as [|x l IH]; intros He; [by apply Exists_nil in He|]. simpl.
  destruct (p x) eqn:E; [done|]. simpl. f_equal. apply IH.
  by apply Exists_cons in He as [?|?]; [congruence|].
Qed.

Lemma filter_erase_first p l (P : X -> Prop) `{!forall x, Decision (P x)} :
  (forall x, p x = true -> ~ P x) -> filter P (erase_first p l) = filter P l.
Proof.
  intros Hp. induction l as [|x l IH]; [done|]. simpl erase_first. destruct (p x) eqn:E.
  - rewrite filter_cons_False by auto. done.
  - rewrite !filter_cons, IH. done.
Qed.

Lemma filter_all l (P : X -> Prop) `{!forall x, Decision (P x)} : Forall P l -> filter P l = l.
Proof. induction 1 as [|x l Hx _ IH]; [done|]. by rewrite filter_cons_True, IH. Qed.

Lemma NoDup_fmap_sublist {Y} (g : X -> Y) l k :
  l `sublist_of` k -> NoDup (g <$> k) -> NoDup (g <$> l).
Proof.
  intros Hs Hnd. eapply sublist_NoDup; [done|]. clear Hnd. induction Hs; csimpl.
  - done.
  - by apply sublist_skip.
  - by apply sublist_cons.
Qed.

Lemma erase_first_app p l x : p x = true -> Forall (fun y => p y = false) l ->
  erase_first p (l ++ [x]) = l.
Proof. intros Hx. induction 1 as [|y l Hy _ IH]; simpl; [by rewrite Hx|]. by rewrite Hy, IH. Qed.
End erase.

(** ** The offload links as a graph *)

Definition links_to (b : loc) (ks : list offload_link_info) : nat :=
  length (filter (fun k => link_peer k = b) ks).

(** The number of links from [a] to [b]. *)
Definition nlinks (lm : gmap loc (list offload_link_info)) (a b : loc) : nat :=
  match lm !! a with Some ks => links_to b ks | None => 0%nat end.

Definition total_links (lm : gmap loc (list offload_link_info)) : Z :=
  map_fold (fun _ ks n => Z.of_nat (length ks) + n) 0 lm.

(** Links come in pairs of opposite directions, and the counter counts pairs. *)
Record links_ok (lm : gmap loc (list offload_link_info)) (num : Z) : Prop := {
  lk_sym : forall a b, nlinks lm a b = nlinks lm b a;
  lk_irr : forall a, nlinks lm a a = 0%nat;
  lk_total : total_links lm = 2 * num;
  lk_max : num <= MAX_OFFLOAD_PAIR
}.

Section links.
Implicit Types (lm : gmap loc (list offload_link_info)) (ks : list offload_link_info) (a b x y : loc).

Lemma links_to_app b ks ks' : links_to b (ks ++ ks') = (links_to b ks + links_to b ks')%nat.
Proof. unfold links_to. by rewrite filter_app, length_app. Qed.

Lemma links_to_one b k : links_to b [k] = if decide (link_peer k = b) then 1%nat else 0%nat.
Proof. unfold links_to. rewrite filter_cons. by destruct (decide _). Qed.

Lemma links_to_cons b k ks :
  links_to b (k :: ks) = ((if decide (link_peer k = b) then 1 else 0) + links_to b ks)%nat.
Proof. change (k :: ks) with ([k] ++ ks). by rewrite links_to_app, links_to_one. Qed.

Lemma links_to_exists b ks : (0 < links_to b ks)%nat -> Exists (fun k => points_to b k = true) ks.
Proof.
  induction ks as [|k ks IH]; [cbn; lia|]. rewrite links_to_cons. unfold points_to at 1.
  destruct (decide (link_peer k = b)); [by constructor; apply bool_decide_eq_true|].
  intros H. right. by apply IH.
Qed.

Lemma links_to_none b ks : links_to b ks = 0%nat -> Forall (fun k => link_peer k <> b) ks.
Proof.
  induction ks as [|k ks IH]; [constructor|]. rewrite links_to_cons.
  destruct (decide _); [done|]. intros H. constructor; [done|]. by apply IH.
Qed.

Lemma links_to_zero b ks : Forall (fun k => link_peer k <> b) ks -> links_to b ks = 0%nat.
Proof.
  induction 1 as [|k ks Hk _ IH]; [done|]. rewrite links_to_cons, IH. by destruct (decide _).
Qed.

Lemma links_to_find b ks :
  (0 < links_to b ks)%nat -> exists i k, find_index (points_to b) ks = Some i /\ ks !! i = Some k.
Proof.
  intros H%links_to_exists. destruct (find_index_lookup _ _ H) as (i & k & ? & ? & _). eauto.
Qed.

Lemma links_to_erase b x ks :
  links_to x (erase_first (points_to b) ks)
  = if decide (x = b) then Nat.pred (links_to x ks) else links_to x ks.
Proof.
  induction ks as [|k ks IH]; [by destruct (decide _)|].
  simpl. rewrite links_to_cons. unfold points_to at 1. case_bool_decide as Hk.
  - subst b. destruct (decide (x = _)) as [->|]; destruct (decide (link_peer k = _)); try done; congruence.
  - rewrite links_to_cons, IH. destruct (decide (x = b)) as [->|]; [|done].
    by destruct (decide (link_peer k = b)).
Qed.

Lemma links_to_prune a x ks :
  links_to x (filter (fun k => link_peer k <> a) ks) = if decide (x = a) then 0%nat else links_to x ks.
Proof.
  induction ks as [|k ks IH]; [by destruct (decide _)|].
  rewrite filter_cons, links_to_cons. destruct (decide (link_peer k <> a)) as [Hk|Hk].
  - rewrite links_to_cons, IH. destruct (decide (x = a)) as [->|]; [|done].
    destruct (decide (link_peer k = a)); [done|done].
  - rewrite IH. destruct (decide (x = a)); [done|]. destruct (decide (link_peer k = x)); [|done].
    destruct Hk. congruence.
Qed.

Lemma nlinks_insert lm a ks x y :
  nlinks (<[a := ks]> lm) x y = if decide (x = a) then links_to y ks else nlinks lm x y.
Proof.
  unfold nlinks. destruct (decide (x = a)) as [->|]; [by rewrite lookup_insert_eq|].
  by rewrite lookup_insert_ne.
Qed.

Lemma total_links_insert_new lm a ks :
  lm !! a = None -> total_links (<[a := ks]> lm) = Z.of_nat (length ks) + total_links lm.
Proof. intros Ha. unfold total_links. rewrite map_fold_insert_L; [done| |done]. intros; lia. Qed.

Lemma total_links_insert lm a ks ks' :
  lm !! a = Some ks ->
  total_links (<[a := ks']> lm) = total_links lm - Z.of_nat (length ks) + Z.of_nat (length ks').
Proof.
  intros Ha. rewrite <- (insert_delete_id lm a ks Ha) at 2. rewrite <- insert_delete_eq.
  rewrite !total_links_insert_new by apply lookup_delete_eq. lia.
Qed.

Lemma total_links_nonneg lm : 0 <= total_links lm.
Proof.
  induction lm as [|a ks lm Ha IH] using map_ind; [done|].
  rewrite total_links_insert_new by done. lia.
Qed.

Lemma total_links_ge lm a ks : lm !! a = Some ks -> Z.of_nat (length ks) <= total_links lm.
Proof.
  intros Ha. rewrite <- (insert_delete_id lm a ks Ha).
  rewrite total_links_insert_new by apply lookup_delete_eq.
  pose proof (total_links_nonneg (delete a lm)). lia.
Qed.
End links.

(** Adding a pair of opposite links. *)
Lemma links_ok_pair (lm : gmap loc (list offload_link_info)) num a b ka kb k1 k2 :
  links_ok lm num -> num < MAX_OFFLOAD_PAIR -> a <> b ->
  lm !! a = Some ka -> lm !! b = Some kb -> link_peer k1 = b -> link_peer k2 = a ->
  links_ok (<[b := kb ++ [k2]]> (<[a := ka ++ [k1]]> lm)) (num + 1).
Proof.
  intros [Hsym Hirr Htot Hmax] Hlt Hab Ha Hb H1 H2.
  assert (forall x y, nlinks (<[b := kb ++ [k2]]> (<[a := ka ++ [k1]]> lm)) x y =
    (nlinks lm x y + (if decide (x = a) then if decide (y = b) then 1 else 0 else 0)
      + (if decide (x = b) then if decide (y = a) then 1 else 0 else 0))%nat) as Hn.
  { intros x y. rewrite !nlinks_insert.
    destruct (decide (x = b)) as [->|].
    - rewrite decide_False by done. unfold nlinks. rewrite Hb, links_to_app, links_to_one, H2.
      destruct (decide (a = y)), (decide (y = a)); try congruence; lia.
    - destruct (decide (x = a)) as [->|]; [|lia].
      unfold nlinks. rewrite Ha, links_to_app, links_to_one, H1.
      destruct (decide (b = y)), (decide (y = b)); try congruence; lia. }
  constructor.
  - intros x y. rewrite !Hn, (Hsym x y).
    destruct (decide (x = a)), (decide (y = b)), (decide (x = b)), (decide (y = a)); lia.
  - intros x. rewrite Hn, Hirr.
    destruct (decide (x = a)), (decide (x = b)); try lia; congruence.
  - rewrite (total_links_insert _ b kb) by by rewrite lookup_insert_ne.
    rewrite (total_links_insert _ a ka) by done. rewrite !length_app. simpl. lia.
  - lia.
Qed.

(** Erasing the first of the links between two clients, in both directions. *)
Lemma links_ok_unpair (lm : gmap loc (list offload_link_info)) num a b ka kb :
  links_ok lm num -> a <> b -> lm !! a = Some ka -> lm !! b = Some kb ->
  (0 < links_to b ka)%nat ->
  links_ok (<[b := erase_first (points_to a) kb]> (<[a := erase_first (points_to b) ka]> lm)) (num - 1).
Proof.
  intros [Hsym Hirr Htot Hmax] Hab Ha Hb Hpos.
  assert (0 < links_to a kb)%nat as Hpos'.
  { specialize (Hsym a b). unfold nlinks in Hsym. rewrite Ha, Hb in Hsym. lia. }
  assert (forall x y, nlinks (<[b := erase_first (points_to a) kb]> (<[a := erase_first (points_to b) ka]> lm)) x y =
    if decide ((x = a /\ y = b) \/ (x = b /\ y = a)) then Nat.pred (nlinks lm x y) else nlinks lm x y) as Hn.
  { intros x y. rewrite !nlinks_insert.
    destruct (decide (x = b)) as [->|Hxb]; [|destruct (decide (x = a)) as [->|Hxa]].
    - unfold nlinks. rewrite Hb, links_to_erase.
      destruct (decide (y = a)), (decide _); try done; naive_solver.
    - unfold nlinks. rewrite Ha, links_to_erase.
      destruct (decide (y = b)), (decide _); try done; naive_solver.
    - rewrite decide_False; [done|naive_solver]. }
  constructor.
  - intros x y. rewrite !Hn, (Hsym x y). repeat destruct (decide _); naive_solver.
  - intros x. rewrite Hn, Hirr. by destruct (decide _).
  - rewrite (total_links_insert _ b kb) by by rewrite lookup_insert_ne.
    rewrite (total_links_insert _ a ka) by done.
    pose proof (length_erase_first _ _ (links_to_exists _ _ Hpos)).
    pose proof (length_erase_first _ _ (links_to_exists _ _ Hpos')). lia.
  - lia.
Qed.

(** ** The peer lists as a graph *)

(** The number of connections the list records with [b]. *)
Fixpoint conns_with (b : loc) (ps : list peer_info) : option Z :=
  match ps with
  | [] => None
  | p :: ps => if decide (peer_pointer p = b) then Some (num_connection p) else conns_with b ps
  end.

Definition npeer (pm : gmap loc (list peer_info)) (a b : loc) : option Z :=
  pm !! a ≫= conns_with b.

(** The two ends of a connection agree on the number of connections, which is
    positive and at most [N]. *)
Record peers_ok (N : Z) (pm : gmap loc (list peer_info)) : Prop := {
  pr_sym : forall a b, npeer pm a b = npeer pm b a;
  pr_irr : forall a, npeer pm a a = None;
  pr_pos : forall a b n, npeer pm a b = Some n -> 0 < n <= N;
  pr_nodup : forall a ps, pm !! a = Some ps -> NoDup (peer_pointer <$> ps)
}.

Definition set_peer (b : loc) (n : Z) (ps : list peer_info) : list peer_info :=
  update_first (peers_with b) (fun q => {| peer_pointer := peer_pointer q; num_connection := n |}) ps.

Section peers.
Implicit Types (ps : list peer_info) (pm : gmap loc (list peer_info)) (a b x y : loc).

Lemma conns_with_find b ps n :
  conns_with b ps = Some n ->
  exists i q, find_index (peers_with b) ps = Some i /\ ps !! i = Some q /\ num_connection q = n.
Proof.
  induction ps as [|p ps IH]; [done|]. simpl. unfold peers_with at 1.
  destruct (decide (peer_pointer p = b)) as [Hp|Hp].
  - intros [= <-]. rewrite bool_decide_eq_true_2 by done. by exists 0%nat, p.
  - intros H. rewrite bool_decide_eq_false_2 by done.
    destruct (IH H) as (i & q & -> & ? & ?). by exists (S i), q.
Qed.

Lemma conns_with_none b ps : conns_with b ps = None -> Forall (fun p => peers_with b p = false) ps.
Proof.
  induction ps as [|p ps IH]; [constructor|]. simpl. destruct (decide _) as [|Hp]; [done|].
  intros H. constructor; [by apply bool_decide_eq_false|auto].
Qed.

Lemma conns_with_elem b ps : b ∈ peer_pointer <$> ps <-> is_Some (conns_with b ps).
Proof.
  induction ps as [|p ps IH]; simpl; [by split; [intros ?%elem_of_nil|intros [??]]|].
  rewrite elem_of_cons, IH. destruct (decide (peer_pointer p = b)); naive_solver.
Qed.

Lemma conns_with_app b ps ps' :
  conns_with b (ps ++ ps') = match conns_with b ps with Some n => Some n | None => conns_with b ps' end.
Proof. induction ps as [|p ps IH]; simpl; [done|]. by destruct (decide _). Qed.

Lemma set_peer_cons b n p ps :
  set_peer b n (p :: ps) =
  if decide (peer_pointer p = b) then {| peer_pointer := peer_pointer p; num_connection := n |} :: ps
  else p :: set_peer b n ps.
Proof.
  unfold set_peer, update_first. simpl. unfold peers_with at 1.
  destruct (decide (peer_pointer p = b)).
  - by rewrite bool_decide_eq_true_2.
  - rewrite bool_decide_eq_false_2 by done. by destruct (find_index (peers_with b) ps).
Qed.

Lemma set_peer_pointers b n ps : peer_pointer <$> set_peer b n ps = peer_pointer <$> ps.
Proof.
  induction ps as [|p ps IH]; [done|]. rewrite set_peer_cons.
  destruct (decide _); csimpl; [done|]. by rewrite IH.
Qed.

Lemma conns_with_set x b n ps :
  is_Some (conns_with b ps) ->
  conns_with x (set_peer b n ps) = if decide (x = b) then Some n else conns_with x ps.
Proof.
  induction ps as [|p ps IH]; [by intros [??]|]. rewrite set_peer_cons. simpl.
  destruct (decide (peer_pointer p = b)) as [<-|Hp]; simpl; intros H.
  - destruct (decide (peer_pointer p = x)), (decide (x = peer_pointer p)); congruence.
  - rewrite (IH H). destruct (decide (peer_pointer p = x)), (decide (x = b)); congruence.
Qed.

Lemma conns_with_erase x b ps :
  NoDup (peer_pointer <$> ps) ->
  conns_with x (erase_first (peers_with b) ps) = if decide (x = b) then None else conns_with x ps.
Proof.
  induction ps as [|p ps IH]; simpl; intros Hnd; [by destruct (decide _)|].
  apply NoDup_cons in Hnd as [Hp Hnd]. unfold peers_with at 1. case_bool_decide as Hb.
  - subst b. destruct (decide (x = _)) as [->|].
    + destruct (conns_with _ ps) eqn:E; [|done]. destruct Hp. apply conns_with_elem. by rewrite E.
    + by rewrite decide_False.
  - simpl. rewrite (IH Hnd).
    destruct (decide (peer_pointer p = x)), (decide (x = b)); congruence.
Qed.

Lemma conns_with_prune x a ps :
  conns_with x (filter (fun p => peer_pointer p <> a) ps) = if decide (x = a) then None else conns_with x ps.
Proof.
  induction ps as [|p ps IH]; [by destruct (decide _)|].
  rewrite filter_cons. destruct (decide (peer_pointer p <> a)); simpl; rewrite IH;
    destruct (decide (x = a)), (decide (peer_pointer p = x)); try done; try congruence.
  destruct n. congruence.
Qed.

Lemma npeer_insert pm a ps x y :
  npeer (<[a := ps]> pm) x y = if decide (x = a) then conns_with y ps else npeer pm x y.
Proof.
  unfold npeer. destruct (decide (x = a)) as [->|]; [by rewrite lookup_insert_eq|].
  by rewrite lookup_insert_ne.
Qed.
End peers.

(** A change of what [a] and [b] record about each other. *)
Lemma peers_ok_update N N' (pm : gmap loc (list peer_info)) a b ps qs ps' qs' o :
  peers_ok N pm -> N <= N' -> a <> b -> pm !! a = Some ps -> pm !! b = Some qs ->
  (forall x, conns_with x ps' = if decide (x = b) then o else conns_with x ps) ->
  (forall x, conns_with x qs' = if decide (x = a) then o else conns_with x qs) ->
  (forall n, o = Some n -> 0 < n <= N') ->
  NoDup (peer_pointer <$> ps') -> NoDup (peer_pointer <$> qs') ->
  peers_ok N' (<[b := qs']> (<[a := ps']> pm)).
Proof.
  intros [Hsym Hirr Hpos Hnd] HN Hab Ha Hb Hps Hqs Ho Hn1 Hn2.
  assert (forall x y, npeer (<[b := qs']> (<[a := ps']> pm)) x y =
    if decide ((x = a /\ y = b) \/ (x = b /\ y = a)) then o else npeer pm x y) as Hn.
  { intros x y. rewrite !npeer_insert.
    destruct (decide (x = b)) as [->|]; [|destruct (decide (x = a)) as [->|]].
    - rewrite Hqs. unfold npeer. rewrite Hb. simpl.
      destruct (decide (y = a)), (decide _); try done; naive_solver.
    - rewrite Hps. unfold npeer. rewrite Ha. simpl.
      destruct (decide (y = b)), (decide _); try done; naive_solver.
    - rewrite decide_False; [done|naive_solver]. }
  constructor.
  - intros x y. rewrite !Hn, (Hsym x y). repeat destruct (decide _); naive_solver.
  - intros x. rewrite Hn, Hirr. rewrite decide_False; [done|naive_solver].
  - intros x y n. rewrite Hn. destruct (decide _); [auto|]. intros H%Hpos. lia.
  - intros x l. destruct (decide (x = b)) as [->|]; [by rewrite lookup_insert_eq; intros [= <-]|].
    rewrite lookup_insert_ne by done.
    destruct (decide (x = a)) as [->|]; [by rewrite lookup_insert_eq; intros [= <-]|].
    rewrite lookup_insert_ne by done. eauto.
Qed.

Lemma peers_ok_mono N N' pm : peers_ok N pm -> N <= N' -> peers_ok N' pm.
Proof. intros [Hsym Hirr Hpos Hnd] HN. split; [done..| |done]. intros a b n H%Hpos. lia. Qed.

(** Forgetting a client: its list empties and every other list drops it. *)
Definition prune_peers (a : loc) (ps : list peer_info) : list peer_info :=
  filter (fun p => peer_pointer p <> a) ps.
Definition prune_links (a : loc) (ks : list offload_link_info) : list offload_link_info :=
  filter (fun k => link_peer k <> a) ks.

Lemma peers_ok_forget N (pm : gmap loc (list peer_info)) a :
  peers_ok N pm -> peers_ok N (<[a := []]> (prune_peers a <$> pm)).
Proof.
  intros [Hsym Hirr Hpos Hnd].
  assert (forall x y, npeer (<[a := []]> (prune_peers a <$> pm)) x y =
    if decide (x = a \/ y = a) then None else npeer pm x y) as Hn.
  { intros x y. rewrite npeer_insert. destruct (decide (x = a)) as [->|].
    - by rewrite decide_True by auto.
    - unfold npeer. rewrite lookup_fmap. destruct (pm !! x) as [ps|]; simpl; [|by destruct (decide _)].
      unfold prune_peers. rewrite conns_with_prune.
      destruct (decide (y = a)), (decide _); try done; naive_solver. }
  constructor.
  - intros x y. rewrite !Hn, (Hsym x y). repeat destruct (decide _); naive_solver.
  - intros x. rewrite Hn. destruct (decide _); [done|apply Hirr].
  - intros x y n. rewrite Hn. destruct (decide _); [done|eauto].
  - intros x l. destruct (decide (x = a)) as [->|].
    + rewrite lookup_insert_eq. intros [= <-]. constructor.
    + rewrite lookup_insert_ne, lookup_fmap by done. intros (ps & Hps & ->)%fmap_Some_1.
      by eapply NoDup_fmap_sublist, Hnd; [apply sublist_filter|].
Qed.

Lemma prune_links_none a ks : links_to a ks = 0%nat -> prune_links a ks = ks.
Proof. intros H%links_to_none. by apply filter_all. Qed.

Lemma total_prune a rest (lm : gmap loc (list offload_link_info)) :
  (forall b, nlinks lm b a = links_to b rest) ->
  total_links (prune_links a <$> lm) = total_links lm - Z.of_nat (length rest).
Proof.
  revert lm. induction rest as [|k rest IH]; intros lm Hn.
  - assert (prune_links a <$> lm = lm) as ->; [|simpl; lia].
    apply map_eq. intros l. rewrite lookup_fmap. specialize (Hn l). unfold nlinks in Hn.
    destruct (lm !! l) as [ks|]; [|done]. simpl. f_equal. by apply prune_links_none.
  - pose proof (Hn (link_peer k)) as Hk. rewrite links_to_cons, decide_True in Hk by done.
    unfold nlinks in Hk. destruct (lm !! link_peer k) as [ks|] eqn:Hks; [|done].
    pose (lm1 := <[link_peer k := erase_first (points_to a) ks]> lm).
    assert (prune_links a <$> lm1 = prune_links a <$> lm) as E.
    { unfold lm1. rewrite fmap_insert. apply insert_id. rewrite lookup_fmap, Hks. simpl. f_equal.
      symmetry. apply filter_erase_first. intros x Hx. apply bool_decide_eq_true in Hx. auto. }
    rewrite <- E, IH.
    + unfold lm1. rewrite (total_links_insert _ _ ks) by done.
      assert (0 < links_to a ks)%nat as Hpos by lia.
      pose proof (length_erase_first _ _ (links_to_exists _ _ Hpos)). simpl length. lia.
    + intros b. unfold lm1. rewrite nlinks_insert. specialize (Hn b). rewrite links_to_cons in Hn.
      destruct (decide (b = link_peer k)) as [->|].
      * rewrite links_to_erase, decide_True by done. lia.
      * rewrite Hn. rewrite decide_False by congruence. done.
Qed.

(** A client has at most half of all links. *)
Lemma links_ok_own (lm : gmap loc (list offload_link_info)) num a ks :
  links_ok lm num -> lm !! a = Some ks ->
  links_to a ks = 0%nat /\ (forall b, nlinks lm b a = links_to b ks) /\
  Z.of_nat (length ks) <= num.
Proof.
  intros [Hsym Hirr Htot _] Ha.
  assert (links_to a ks = 0%nat) as Hself.
  { specialize (Hirr a). unfold nlinks in Hirr. by rewrite Ha in Hirr. }
  assert (forall b, nlinks lm b a = links_to b ks) as Hn
    by (intros b; rewrite (Hsym b a); unfold nlinks; by rewrite Ha).
  split_and!; [done..|]. pose proof (total_prune a ks lm Hn) as Ht.
  pose proof (total_links_ge (prune_links a <$> lm) a ks) as Hge.
  rewrite lookup_fmap, Ha in Hge. simpl in Hge. rewrite prune_links_none in Hge by done.
  specialize (Hge eq_refl). lia.
Qed.

Lemma links_ok_forget (lm : gmap loc (list offload_link_info)) num a ks :
  links_ok lm num -> lm !! a = Some ks ->
  links_ok (<[a := []]> (prune_links a <$> lm)) (num - Z.of_nat (length ks)).
Proof.
  intros Hlk Ha. destruct (links_ok_own _ _ _ _ Hlk Ha) as (Hself & Hown & _).
  destruct Hlk as [Hsym Hirr Htot Hmax]. pose proof (total_prune a ks lm Hown) as Ht.
  assert (forall x y, nlinks (<[a := []]> (prune_links a <$> lm)) x y =
    if decide (x = a \/ y = a) then 0%nat else nlinks lm x y) as Hn.
  { intros x y. rewrite nlinks_insert. destruct (decide (x = a)) as [->|].
    - by rewrite decide_True by auto.
    - unfold nlinks. rewrite lookup_fmap. destruct (lm !! x) as [l|]; simpl; [|by destruct (decide _)].
      unfold prune_links. rewrite links_to_prune.
      destruct (decide (y = a)), (decide _); try done; naive_solver. }
  constructor.
  - intros x y. rewrite !Hn, (Hsym x y). repeat destruct (decide _); naive_solver.
  - intros x. rewrite Hn. destruct (decide _); [done|apply Hirr].
  - rewrite (total_links_insert _ a (prune_links a ks)) by by rewrite lookup_fmap, Ha.
    rewrite Ht, prune_links_none by done.
    simpl. lia.
  - lia.
Qed.

(** A node without links or peers can come and go. *)
Lemma links_ok_ext (lm lm' : gmap loc (list offload_link_info)) num :
  links_ok lm num -> (forall a b, nlinks lm' a b = nlinks lm a b) -> total_links lm' = total_links lm ->
  links_ok lm' num.
Proof. intros [H1 H2 H3 H4] Hn Ht. split; [|intros a; by rewrite Hn|by rewrite Ht|done]. intros a b. by rewrite !Hn. Qed.

Lemma peers_ok_ext N (pm pm' : gmap loc (list peer_info)) :
  peers_ok N pm -> (forall a b, npeer pm' a b = npeer pm a b) ->
  (forall a ps, pm' !! a = Some ps -> NoDup (peer_pointer <$> ps)) -> peers_ok N pm'.
Proof.
  intros [H1 H2 H3 H4] Hn Hnd. split; [|intros a; by rewrite Hn| |done].
  - intros a b. by rewrite !Hn.
  - intros a b n. rewrite Hn. apply H3.
Qed.

Lemma links_ok_fresh (lm : gmap loc (list offload_link_info)) num a :
  links_ok lm num -> lm !! a = None -> links_ok (<[a := []]> lm) num.
Proof.
  intros Hl Ha. apply (links_ok_ext lm); [done| |by rewrite total_links_insert_new].
  intros x y. rewrite nlinks_insert. destruct (decide (x = a)) as [->|]; [|done]. unfold nlinks. by rewrite Ha.
Qed.

Lemma peers_ok_fresh N (pm : gmap loc (list peer_info)) a :
  peers_ok N pm -> pm !! a = None -> peers_ok N (<[a := []]> pm).
Proof.
  intros Hp Ha. apply (peers_ok_ext N pm); [done| |].
  - intros x y. rewrite npeer_insert. destruct (decide (x = a)) as [->|]; [|done]. unfold npeer. by rewrite Ha.
  - intros x ps. destruct (decide (x = a)) as [->|].
    + rewrite lookup_insert_eq. intros [= <-]. constructor.
    + rewrite lookup_insert_ne by done. by apply (pr_nodup _ _ Hp).
Qed.

Lemma links_ok_delete (lm : gmap loc (list offload_link_info)) num a :
  links_ok lm num -> lm !! a = Some [] -> links_ok (delete a lm) num.
Proof.
  intros Hl Ha. apply (links_ok_ext lm); [done| |].
  - intros x y. unfold nlinks. destruct (decide (x = a)) as [->|].
    + by rewrite lookup_delete_eq, Ha.
    + by rewrite lookup_delete_ne.
  - rewrite <- (insert_delete_id lm a [] Ha) at 2. rewrite total_links_insert_new; [done|apply lookup_delete_eq].
Qed.

Lemma peers_ok_delete N (pm : gmap loc (list peer_info)) a :
  peers_ok N pm -> pm !! a = Some [] -> peers_ok N (delete a pm).
Proof.
  intros Hp Ha. apply (peers_ok_ext N pm); [done| |].
  - intros x y. unfold npeer. destruct (decide (x = a)) as [->|].
    + by rewrite lookup_delete_eq, Ha.
    + by rewrite lookup_delete_ne.
  - intros x ps [_ Hx]%lookup_delete_Some. by apply (pr_nodup _ _ Hp x).
Qed.

(** ** The invariant of a family *)

Section invariant.
Context {Iface W : Type} `{HI : LanIface Iface W}.
Implicit Types (f : family (Iface := Iface)) (c p : client_info (Iface := Iface)) (w : W).
Implicit Types (m : gmap loc (client_info (Iface := Iface))).

Definition ckey (iptype : ipa_ip_type) c : Z := client_key iptype (ipv4_addr c) (ip c).

(** The table maps a key to the node of the client with that key. *)
Record table_ok (iptype : ipa_ip_type) (t : gmap Z loc) m : Prop := {
  tb_lookup : forall k l, t !! k = Some l <-> exists c, m !! l = Some c /\ ckey iptype c = k;
  tb_iface : forall l c, m !! l = Some c -> is_Some (p_iface c)
}.

(** A client that is neither active nor asleep has no links. *)
Definition idle_ok m : Prop :=
  forall l c, m !! l = Some c -> is_active c = false -> is_powersave c = false -> link c = [].

Record fam_inv (iptype : ipa_ip_type) (N : Z) f : Prop := {
  fi_table : table_ok iptype (client_info_ f) (clients f);
  fi_idle : idle_ok (clients f);
  fi_peers : peers_ok N (peer <$> clients f);
  fi_links : links_ok (link <$> clients f) (num_offload_pair_ f)
}.

(** ** Frames: what a change of one client leaves alone *)

Lemma fmap_insert_same {B} (g : client_info -> B) m l c c' :
  m !! l = Some c -> g c' = g c -> g <$> <[l := c']> m = g <$> m.
Proof. intros Hl Hg. rewrite fmap_insert, Hg. apply insert_id. by rewrite lookup_fmap, Hl. Qed.

Lemma table_ok_upd iptype t m l c c' :
  table_ok iptype t m -> m !! l = Some c -> ckey iptype c' = ckey iptype c -> is_Some (p_iface c') ->
  table_ok iptype t (<[l := c']> m).
Proof.
  intros [Ht Hi] Hl Hk Hs. split.
  - intros k l'. rewrite Ht. destruct (decide (l' = l)) as [->|Hne].
    + rewrite lookup_insert_eq, Hl. split; intros (x & [= <-] & <-); eauto.
    + by rewrite lookup_insert_ne.
  - intros l' x. destruct (decide (l' = l)) as [->|Hne].
    + by rewrite lookup_insert_eq; intros [= <-].
    + rewrite lookup_insert_ne by done. apply Hi.
Qed.

(** A pointwise change that keeps addresses and interfaces. *)
Lemma table_ok_fmap iptype t m (g : client_info -> client_info) :
  (forall c, ip (g c) = ip c /\ p_iface (g c) = p_iface c) ->
  table_ok iptype t m -> table_ok iptype t (g <$> m).
Proof.
  intros Hg [Ht Hi].
  assert (forall c, ckey iptype (g c) = ckey iptype c) as Hk
    by (intros c; unfold ckey, ipv4_addr; by rewrite (proj1 (Hg c))).
  split.
  - intros k l. rewrite Ht, lookup_fmap. split.
    + intros (c & -> & <-). exists (g c). simpl. by rewrite Hk.
    + intros (c & (c0 & Hc & ->)%fmap_Some_1 & <-). exists c0. by rewrite Hk.
  - intros l c. rewrite lookup_fmap. intros (c0 & Hc & ->)%fmap_Some_1.
    rewrite (proj2 (Hg c0)). eauto.
Qed.

Lemma idle_ok_upd m l c' :
  idle_ok m -> (is_active c' = false -> is_powersave c' = false -> link c' = []) ->
  idle_ok (<[l := c']> m).
Proof.
  intros Hi Hc l' x. destruct (decide (l' = l)) as [->|Hne].
  - by rewrite lookup_insert_eq; intros [= <-].
  - rewrite lookup_insert_ne by done. apply Hi.
Qed.

Lemma idle_ok_fmap m (g : client_info -> client_info) :
  (forall c, is_active (g c) = is_active c /\ is_powersave (g c) = is_powersave c /\
        (link c = [] -> link (g c) = [])) ->
  idle_ok m -> idle_ok (g <$> m).
Proof.
  intros Hg Hi l x. rewrite lookup_fmap. intros (c & Hc & ->)%fmap_Some_1.
  destruct (Hg c) as (-> & -> & Hl). eauto.
Qed.

(** Two keys of the table name two nodes. *)
Lemma table_inj iptype t m k1 k2 l1 l2 :
  table_ok iptype t m -> t !! k1 = Some l1 -> t !! k2 = Some l2 -> k1 <> k2 -> l1 <> l2.
Proof.
  intros [Ht _] H1 H2 Hk ->. apply Ht in H1 as (c1 & Hc1 & <-). apply Ht in H2 as (c2 & Hc2 & <-).
  congruence.
Qed.

Lemma table_node iptype t m k l :
  table_ok iptype t m -> t !! k = Some l -> exists c, m !! l = Some c /\ ckey iptype c = k.
Proof. intros [Ht _]. apply Ht. Qed.

(** ** Running monadic code *)

Lemma bind_eq {A B} (mm : M (Iface := Iface) (W := W) A) (k : A -> M B) s x s' :
  mm s = Some (x, s') -> bind mm k s = k x s'.
Proof. unfold bind. by intros ->. Qed.

Lemma get_fam_eq f w : get_fam (f, w) = Some (f, (f, w)).
Proof. done. Qed.

Lemma get_eq f w l c : clients f !! l = Some c -> get l (f, w) = Some (c, (f, w)).
Proof. unfold get. simpl. by intros ->. Qed.

Lemma upd_eq f w l c g :
  clients f !! l = Some c -> upd l g (f, w) = Some (tt, (f <| clients := <[l := g c]> (clients f) |>, w)).
Proof. unfold upd. simpl. by intros ->. Qed.

Lemma hw_eq {A} (h : W -> A * W) f w :
  hw h (f, w) = Some ((h w).1, (f, (h w).2)).
Proof. unfold hw. simpl. by destruct (h w). Qed.

Context `{Hok : !LanIfaceOk Iface W}.

Lemma del_offload_link_ok iptype i j k f w :
  exists w', del_offload_link iptype (Some i) (Some j) k (f, w) = Some (IPACM_SUCCESS, (f, w')).
Proof.
  unfold del_offload_link. eexists.
  erewrite bind_eq by apply hw_eq. erewrite bind_eq by apply hw_eq. erewrite bind_eq by apply hw_eq.
  rewrite ok_del_hdr, ok_del_rt, ok_del_flt. reflexivity.
Qed.

Lemma add_offload_link_ok iptype a b ca cb f w :
  iptype <> IPA_IP_MAX -> num_offload_pair_ f < MAX_OFFLOAD_PAIR ->
  clients f !! a = Some ca -> clients f !! b = Some cb ->
  is_Some (p_iface ca) -> is_Some (p_iface cb) ->
  exists w' k, link_peer k = b /\
    add_offload_link iptype a b (f, w) =
    Some (IPACM_SUCCESS, (f <| clients := <[a := ca <| link := link ca ++ [k] |>]> (clients f) |>, w')).
Proof.
  intros Hip Hnum Ha Hb [ia Hia] [ib Hib]. unfold add_offload_link.
  erewrite bind_eq by apply get_fam_eq. rewrite (bool_decide_eq_true_2 _ Hip), (bool_decide_eq_false_2 (iptype = _)) by done.
  rewrite (proj2 (Z.leb_gt _ _) Hnum). cbn [andb].
  erewrite bind_eq by by apply get_eq. erewrite bind_eq by by apply get_eq.
  rewrite Hib. erewrite bind_eq by reflexivity.
  erewrite bind_eq by apply hw_eq. rewrite ok_add_hdr. cbn [Z.eqb IPACM_SUCCESS IPACM_FAILURE].
  erewrite bind_eq by apply hw_eq. rewrite ok_add_rt. cbn [Z.eqb IPACM_SUCCESS IPACM_FAILURE].
  rewrite Hia. erewrite bind_eq by reflexivity.
  erewrite bind_eq by apply hw_eq. rewrite ok_add_flt. cbn [Z.eqb IPACM_SUCCESS IPACM_FAILURE].
  erewrite bind_eq by by apply upd_eq.
  eexists _, _. split; [|reflexivity]. done.
Qed.

Lemma add_offload_link_full iptype a b f w :
  MAX_OFFLOAD_PAIR <= num_offload_pair_ f ->
  add_offload_link iptype a b (f, w) = Some (IPACM_FAILURE, (f, w)).
Proof.
  intros Hnum. unfold add_offload_link. erewrite bind_eq by apply get_fam_eq.
  rewrite (proj2 (Z.leb_le _ _) Hnum), andb_true_r.
  destruct iptype; reflexivity.
Qed.

(** ** Taking a client's links and peers down *)

Definition cut_links (a : loc) c : client_info := c <| link := prune_links a (link c) |>.
Definition cut_peers (a : loc) c : client_info := c <| peer := prune_peers a (peer c) |>.

Lemma for_each_next {X R} (body : X -> M (Iface := Iface) (W := W) (option R)) x l s s' :
  body x s = Some (None, s') -> for_each body (x :: l) s = for_each body l s'.
Proof. intros H. simpl. by erewrite bind_eq by done. Qed.

Lemma turnoff_link_ok iptype a k c p f w :
  clients f !! a = Some c -> clients f !! link_peer k = Some p -> link_peer k <> a ->
  is_Some (p_iface c) -> is_Some (p_iface p) -> (0 < links_to a (link p))%nat ->
  exists w', turnoff_link iptype a k (f, w) = Some (None,
    (f <| clients := <[link_peer k := p <| link := erase_first (points_to a) (link p) |>]> (clients f) |>
       <| num_offload_pair_ := udec 8 (num_offload_pair_ f) |>, w')).
Proof.
  intros Hc Hp Hne [i Hi] [j Hj] Hl. unfold turnoff_link.
  erewrite bind_eq by by apply get_eq. erewrite bind_eq by by apply get_eq.
  rewrite Hi, Hj. destruct (del_offload_link_ok iptype i j k f w) as [w1 H1].
  erewrite bind_eq by exact H1. cbn [Z.eqb IPACM_SUCCESS IPACM_FAILURE].
  destruct (links_to_find _ _ Hl) as (n & k' & -> & Hk'). cbn [mbind option_bind]. rewrite Hk'.
  destruct (del_offload_link_ok iptype j i k' f w1) as [w2 H2].
  erewrite bind_eq by exact H2. cbn [Z.eqb IPACM_SUCCESS IPACM_FAILURE].
  rewrite bool_decide_eq_false_2 by done.
  erewrite bind_eq by by apply upd_eq. by eexists.
Qed.

Lemma nlinks_pos m b a :
  (0 < nlinks (link <$> m) b a)%nat -> exists p, m !! b = Some p /\ (0 < links_to a (link p))%nat.
Proof.
  unfold nlinks. rewrite lookup_fmap. destruct (m !! b) as [p|]; simpl; [eauto|lia].
Qed.

Lemma turnoff_loop iptype a c rest f w :
  clients f !! a = Some c -> (forall l p, clients f !! l = Some p -> is_Some (p_iface p)) ->
  links_to a rest = 0%nat -> (forall b, nlinks (link <$> clients f) b a = links_to b rest) ->
  Z.of_nat (length rest) <= num_offload_pair_ f < 256 ->
  exists w', for_each (turnoff_link iptype a) rest (f, w) = Some (None,
    (f <| clients := cut_links a <$> clients f |>
       <| num_offload_pair_ := num_offload_pair_ f - Z.of_nat (length rest) |>, w')).
Proof.
  revert f w c. induction rest as [|k rest IH]; intros f w c Hc Hi Hself Hn Hnum.
  - assert (cut_links a <$> clients f = clients f) as E.
    { apply map_eq. intros l. rewrite lookup_fmap. destruct (clients f !! l) as [p|] eqn:Hp; [|done].
      simpl. f_equal. unfold cut_links, prune_links. specialize (Hn l).
      unfold nlinks in Hn. rewrite lookup_fmap, Hp in Hn. apply links_to_none in Hn.
      rewrite filter_all by done. by destruct p. }
    rewrite E. exists w. simpl. unfold ret. destruct f. cbn in *.
    by rewrite Z.sub_0_r.
  - rewrite links_to_cons in Hself. destruct (decide (link_peer k = a)) as [|Hne]; [done|].
    simpl in Hself. pose proof (Hn (link_peer k)) as Hk. rewrite links_to_cons, decide_True in Hk by done.
    destruct (nlinks_pos (clients f) (link_peer k) a) as (p & Hp & Hpos); [lia|].
    destruct (turnoff_link_ok iptype a k c p f w) as [w1 H1]; eauto.
    erewrite for_each_next by exact H1. clear H1.
    set (m1 := <[_ := _]> (clients f)). rewrite udec_small by (simpl in Hnum; lia).
    assert (link <$> m1 = <[link_peer k := erase_first (points_to a) (link p)]> (link <$> clients f)) as Hm1
      by (unfold m1; rewrite fmap_insert; done).
    assert (cut_links a <$> m1 = cut_links a <$> clients f) as Ecut.
    { apply (fmap_insert_same _ _ _ p); [done|]. unfold cut_links, prune_links. cbn.
      rewrite filter_erase_first; [done|]. intros x Hx. apply bool_decide_eq_true in Hx. auto. }
    destruct (IH (f <| clients := m1 |> <| num_offload_pair_ := num_offload_pair_ f - 1 |>) w1 c)
      as (w' & ->); cbn.
    + unfold m1. by rewrite lookup_insert_ne.
    + intros l q. unfold m1. destruct (decide (l = link_peer k)) as [->|].
      * rewrite lookup_insert_eq. intros [= <-]. cbn. eauto.
      * rewrite lookup_insert_ne by done. apply Hi.
    + done.
    + intros b. rewrite Hm1, nlinks_insert. specialize (Hn b). rewrite links_to_cons in Hn.
      destruct (decide (b = link_peer k)) as [->|].
      * rewrite links_to_erase, decide_True by done. unfold nlinks in Hk. rewrite lookup_fmap, Hp in Hk.
        simpl in Hk. lia.
      * rewrite Hn. rewrite decide_False by congruence. done.
    + simpl in Hnum. lia.
    + exists w'. rewrite Ecut. do 3 f_equal. destruct f; cbn. f_equal. lia.
Qed.

Lemma links_field m l c : m !! l = Some c -> (link <$> m) !! l = Some (link c).
Proof. intros H. by rewrite lookup_fmap, H. Qed.
Lemma peers_field m l c : m !! l = Some c -> (peer <$> m) !! l = Some (peer c).
Proof. intros H. by rewrite lookup_fmap, H. Qed.

(** The family after [turnoff_offload_links] for the client [c] at [a]. *)
Definition unlinked (a : loc) c f : family :=
  f <| clients := <[a := c <| link := [] |>]> (cut_links a <$> clients f) |>
    <| num_offload_pair_ := num_offload_pair_ f - Z.of_nat (length (link c)) |>.

Lemma turnoff_ok iptype ip N a c f w :
  fam_inv iptype N f -> clients f !! a = Some c ->
  exists w', turnoff_offload_links ip a (f, w) = Some (IPACM_SUCCESS, (unlinked a c f, w')).
Proof.
  intros [[Ht Hi] _ _ Hlk] Hc. unfold turnoff_offload_links.
  erewrite bind_eq by by apply get_eq.
  destruct (links_ok_own _ _ _ _ Hlk (links_field _ _ _ Hc)) as (Hself & Hn & Hlen).
  pose proof (lk_max _ _ Hlk) as Hmax. change MAX_OFFLOAD_PAIR with 3 in Hmax.
  destruct (turnoff_loop ip a c (link c) f w) as [w' Hw]; eauto; [lia|].
  erewrite bind_eq by exact Hw. cbv beta iota.
  erewrite bind_eq; [|apply (upd_eq _ _ _ (cut_links a c)); cbn; by rewrite lookup_fmap, Hc].
  exists w'. done.
Qed.

Lemma unlinked_inv iptype N a c f :
  fam_inv iptype N f -> clients f !! a = Some c -> fam_inv iptype N (unlinked a c f).
Proof.
  intros [Ht Hid Hp Hlk] Hc.
  assert ((cut_links a <$> clients f) !! a = Some (cut_links a c)) as Ha by by rewrite lookup_fmap, Hc.
  split; cbn.
  - apply (table_ok_upd _ _ _ _ (cut_links a c)); [by apply table_ok_fmap|done|done|]. exact (tb_iface _ _ _ Ht _ _ Hc).
  - apply idle_ok_upd; [|done]. apply idle_ok_fmap; [|done]. intros x. split_and!; [done..|].
    cbn. by intros ->.
  - rewrite (fmap_insert_same _ _ _ (cut_links a c)) by done. by rewrite <- map_fmap_compose.
  - rewrite fmap_insert. cbn.
    assert (link <$> (cut_links a <$> clients f) = prune_links a <$> (link <$> clients f)) as ->
      by (rewrite <- !map_fmap_compose; done).
    apply links_ok_forget; [done|by apply links_field].
Qed.

Lemma clear_peer_ok a q p f w :
  clients f !! peer_pointer q = Some p -> peer_pointer q <> a -> is_Some (conns_with a (peer p)) ->
  clear_peer a q (f, w) = Some (None,
    (f <| clients := <[peer_pointer q := p <| peer := erase_first (peers_with a) (peer p) |>]> (clients f) |>, w)).
Proof.
  intros Hp Hne [n Hn]. unfold clear_peer. erewrite bind_eq by by apply get_eq.
  destruct (conns_with_find _ _ _ Hn) as (i & x & -> & _ & _).
  rewrite bool_decide_eq_false_2 by done. by erewrite bind_eq by by apply upd_eq.
Qed.

Lemma clear_loop a rest f w :
  (forall l p, clients f !! l = Some p -> NoDup (peer_pointer <$> peer p)) ->
  NoDup (peer_pointer <$> rest) -> (a ∉ (peer_pointer <$> rest)) ->
  (forall b, is_Some (npeer (peer <$> clients f) b a) <-> b ∈ peer_pointer <$> rest) ->
  for_each (clear_peer a) rest (f, w) = Some (None, (f <| clients := cut_peers a <$> clients f |>, w)).
Proof.
  revert f. induction rest as [|q rest IH]; intros f Hnds Hnd Ha Hn.
  - assert (cut_peers a <$> clients f = clients f) as ->; [|by destruct f].
    apply map_eq. intros l. rewrite lookup_fmap. destruct (clients f !! l) as [p|] eqn:Hp; [|done].
    simpl. f_equal. unfold cut_peers, prune_peers. specialize (Hn l). unfold npeer in Hn.
    rewrite lookup_fmap, Hp in Hn. simpl in Hn. rewrite filter_all; [by destruct p|].
    apply Forall_forall. intros x Hx Hxa. apply (not_elem_of_nil l), Hn, conns_with_elem.
    rewrite <- Hxa. by apply list_elem_of_fmap_2.
  - csimpl in Hnd. apply NoDup_cons in Hnd as [Hq Hnd]. csimpl in Ha. apply not_elem_of_cons in Ha as [Hqa Ha].
    assert (is_Some (npeer (peer <$> clients f) (peer_pointer q) a)) as Hqn by (apply Hn; csimpl; left).
    unfold npeer in Hqn. rewrite lookup_fmap in Hqn.
    destruct (clients f !! peer_pointer q) as [p|] eqn:Hp; [|by destruct Hqn]. simpl in Hqn.
    erewrite for_each_next by (apply (clear_peer_ok a q p); [done|by apply not_eq_sym|done]).
    set (m1 := <[_ := _]> (clients f)).
    assert (cut_peers a <$> m1 = cut_peers a <$> clients f) as Ecut.
    { apply (fmap_insert_same _ _ _ p); [done|]. unfold cut_peers, prune_peers. cbn.
      rewrite filter_erase_first; [done|]. intros x Hx. apply bool_decide_eq_true in Hx. auto. }
    rewrite IH; cbn; [by rewrite Ecut| |done|done|].
    + intros l x. unfold m1. destruct (decide (l = peer_pointer q)) as [->|].
      * rewrite lookup_insert_eq. intros [= <-]. cbn.
        eapply NoDup_fmap_sublist, Hnds; [apply erase_first_sublist|done].
      * rewrite lookup_insert_ne by done. apply Hnds.
    + intros b. assert (peer <$> m1 = <[peer_pointer q := erase_first (peers_with a) (peer p)]> (peer <$> clients f)) as ->
        by (unfold m1; rewrite fmap_insert; done).
      rewrite npeer_insert. destruct (decide (b = peer_pointer q)) as [->|Hb].
      * rewrite conns_with_erase, decide_True by eauto. split; [by intros [??]|done].
      * rewrite Hn. csimpl. rewrite elem_of_cons. naive_solver.
Qed.

(** The family after [clear_peer_list]. *)
Definition unpeered (a : loc) c f : family :=
  f <| clients := <[a := c <| peer := [] |>]> (cut_peers a <$> clients f) |>.

Lemma clear_peer_list_ok iptype N a c f w :
  fam_inv iptype N f -> clients f !! a = Some c ->
  clear_peer_list a (f, w) = Some (IPACM_SUCCESS, (unpeered a c f, w)).
Proof.
  intros [_ _ [Hsym Hirr Hpos Hnd] _] Hc. unfold clear_peer_list.
  pose proof (peers_field _ _ _ Hc) as Hf.
  erewrite bind_eq by by apply get_eq. erewrite bind_eq; [|apply clear_loop].
  - cbv beta iota. erewrite bind_eq; [|apply (upd_eq _ _ _ (cut_peers a c)); cbn; by rewrite lookup_fmap, Hc]. done.
  - intros l p Hp. eapply Hnd. by apply peers_field.
  - by eapply Hnd.
  - intros Hin%conns_with_elem. specialize (Hirr a). unfold npeer in Hirr. rewrite Hf in Hirr.
    simpl in Hirr. rewrite Hirr in Hin. by destruct Hin.
  - intros b. rewrite Hsym, conns_with_elem. unfold npeer. by rewrite Hf.
Qed.

Lemma unpeered_inv iptype N a c f :
  fam_inv iptype N f -> clients f !! a = Some c -> fam_inv iptype N (unpeered a c f).
Proof.
  intros [Ht Hid Hp Hlk] Hc.
  assert ((cut_peers a <$> clients f) !! a = Some (cut_peers a c)) as Ha by by rewrite lookup_fmap, Hc.
  split; cbn.
  - apply (table_ok_upd _ _ _ _ (cut_peers a c)); [by apply table_ok_fmap|done|done|]. exact (tb_iface _ _ _ Ht _ _ Hc).
  - apply idle_ok_upd; [|cbn; by eapply Hid]. by apply idle_ok_fmap.
  - rewrite fmap_insert. cbn.
    assert (peer <$> (cut_peers a <$> clients f) = prune_peers a <$> (peer <$> clients f)) as ->
      by (rewrite <- !map_fmap_compose; done).
    by apply peers_ok_forget.
  - rewrite (fmap_insert_same _ _ _ (cut_peers a c)) by done. by rewrite <- map_fmap_compose.
Qed.

(** ** Connections *)

Definition inc_peer (b : loc) (ps : list peer_info) : list peer_info :=
  match conns_with b ps with
  | Some n => set_peer b (n + 1) ps
  | None => ps ++ [{| peer_pointer := b; num_connection := 1 |}]
  end.
Definition dec_peer (b : loc) (ps : list peer_info) : list peer_info :=
  match conns_with b ps with
  | Some n => if n - 1 =? 0 then erase_first (peers_with b) (set_peer b (n - 1) ps)
              else set_peer b (n - 1) ps
  | None => ps
  end.

Definition inc_count (o : option Z) : option Z := Some (default 0 o + 1).
Definition dec_count (o : option Z) : option Z :=
  n ← o; if n - 1 =? 0 then None else Some (n - 1).

Lemma conns_with_inc x b ps :
  conns_with x (inc_peer b ps) = if decide (x = b) then inc_count (conns_with b ps) else conns_with x ps.
Proof.
  unfold inc_peer. destruct (conns_with b ps) as [n|] eqn:E.
  - rewrite conns_with_set by by rewrite E. done.
  - rewrite conns_with_app. simpl. destruct (decide (x = b)) as [->|].
    + rewrite E. by rewrite decide_True.
    + rewrite decide_False by done. by destruct (conns_with x ps).
Qed.

Lemma conns_with_dec x b ps :
  NoDup (peer_pointer <$> ps) ->
  conns_with x (dec_peer b ps) = if decide (x = b) then dec_count (conns_with b ps) else conns_with x ps.
Proof.
  intros Hnd. unfold dec_peer. destruct (conns_with b ps) as [n|] eqn:E; simpl.
  - destruct (n - 1 =? 0).
    + rewrite conns_with_erase by by rewrite set_peer_pointers.
      destruct (decide (x = b)); [done|]. rewrite conns_with_set by by rewrite E. by rewrite decide_False.
    + rewrite conns_with_set by by rewrite E. done.
  - destruct (decide (x = b)) as [->|]; done.
Qed.

Lemma inc_peer_nodup b ps : NoDup (peer_pointer <$> ps) -> NoDup (peer_pointer <$> inc_peer b ps).
Proof.
  intros Hnd. unfold inc_peer. destruct (conns_with b ps) as [n|] eqn:E.
  - by rewrite set_peer_pointers.
  - rewrite fmap_app. apply NoDup_app. split_and!; [done| |apply NoDup_singleton].
    intros x Hx%conns_with_elem Hb. csimpl in Hb. apply list_elem_of_singleton in Hb as ->.
    rewrite E in Hx. by destruct Hx.
Qed.

Lemma dec_peer_nodup b ps : NoDup (peer_pointer <$> ps) -> NoDup (peer_pointer <$> dec_peer b ps).
Proof.
  intros Hnd. unfold dec_peer. destruct (conns_with b ps) as [n|]; [|done].
  destruct (n - 1 =? 0); [|by rewrite set_peer_pointers].
  eapply NoDup_fmap_sublist; [apply erase_first_sublist|]. by rewrite set_peer_pointers.
Qed.

Lemma add_peer_ok a b c f w :
  clients f !! a = Some c -> (forall n, conns_with b (peer c) = Some n -> 0 < n < 2 ^ 31 - 1) ->
  add_peer a b (f, w) = Some (bool_decide (conns_with b (peer c) = None),
    (f <| clients := <[a := c <| peer := inc_peer b (peer c) |>]> (clients f) |>, w)).
Proof.
  intros Hc Hn. unfold add_peer, inc_peer. erewrite bind_eq by by apply get_eq.
  destruct (conns_with b (peer c)) as [n|] eqn:E.
  - destruct (conns_with_find _ _ _ E) as (i & q & -> & Hq & Hqn). simpl. rewrite Hq, Hqn.
    specialize (Hn n eq_refl).
    erewrite bind_eq; [|unfold int_add; rewrite (proj2 (Z.leb_le _ _)), (proj2 (Z.ltb_lt _ _)) by lia; done].
    unfold set_conn. erewrite bind_eq by by apply upd_eq. done.
  - assert (find_index (peers_with b) (peer c) = None) as -> by by apply find_index_None, conns_with_none.
    simpl. by erewrite bind_eq by by apply upd_eq.
Qed.

Lemma remove_peer_ok a b c f w :
  clients f !! a = Some c -> (forall n, conns_with b (peer c) = Some n -> 0 < n < 2 ^ 31) ->
  remove_peer a b (f, w) = Some (bool_decide (conns_with b (peer c) = Some 1),
    (f <| clients := <[a := c <| peer := dec_peer b (peer c) |>]> (clients f) |>, w)).
Proof.
  intros Hc Hn. unfold remove_peer, dec_peer. erewrite bind_eq by by apply get_eq.
  destruct (conns_with b (peer c)) as [n|] eqn:E.
  - destruct (conns_with_find _ _ _ E) as (i & q & -> & Hq & Hqn). simpl. rewrite Hq, Hqn.
    specialize (Hn n eq_refl).
    erewrite bind_eq; [|unfold int_add; rewrite (proj2 (Z.leb_le _ _)), (proj2 (Z.ltb_lt _ _)) by lia; done].
    change (n + -1) with (n - 1).
    unfold set_conn. erewrite bind_eq by by apply upd_eq. destruct (Z.eqb_spec (n - 1) 0) as [Hz|Hz].
    + erewrite bind_eq by (apply upd_eq; cbn; apply lookup_insert_eq). cbn.
      rewrite insert_insert_eq, bool_decide_eq_true_2 by (f_equal; lia). done.
    + rewrite bool_decide_eq_false_2 by (intros [=]; lia). done.
  - assert (find_index (peers_with b) (peer c) = None) as -> by by apply find_index_None, conns_with_none.
    simpl. unfold ret. rewrite insert_id; [by destruct f|]. rewrite Hc. by destruct c.
Qed.

(** The invariant after a change of two clients. *)
Lemma pair_inv iptype N N' f a b ca cb ca' cb' num' :
  fam_inv iptype N f -> a <> b -> clients f !! a = Some ca -> clients f !! b = Some cb ->
  (ip ca', p_iface ca', is_active ca', is_powersave ca') = (ip ca, p_iface ca, is_active ca, is_powersave ca) ->
  (ip cb', p_iface cb', is_active cb', is_powersave cb') = (ip cb, p_iface cb, is_active cb, is_powersave cb) ->
  (is_active ca = false -> is_powersave ca = false -> link ca' = []) ->
  (is_active cb = false -> is_powersave cb = false -> link cb' = []) ->
  peers_ok N' (<[b := peer cb']> (<[a := peer ca']> (peer <$> clients f))) ->
  links_ok (<[b := link cb']> (<[a := link ca']> (link <$> clients f))) num' ->
  fam_inv iptype N' (f <| clients := <[b := cb']> (<[a := ca']> (clients f)) |> <| num_offload_pair_ := num' |>).
Proof.
  intros [Ht Hid _ _] Hab Ha Hb [= Ea1 Ea2 Ea3 Ea4] [= Eb1 Eb2 Eb3 Eb4] Hia Hib Hp Hl.
  assert (forall x y, ip x = ip y -> ckey iptype x = ckey iptype y) as Hk
    by (unfold ckey, ipv4_addr; by intros x y ->).
  split; cbn.
  - apply (table_ok_upd _ _ _ _ cb); [|by rewrite lookup_insert_ne|by apply Hk|].
    + apply (table_ok_upd _ _ _ _ ca); [done..|by apply Hk|]. rewrite Ea2. exact (tb_iface _ _ _ Ht _ _ Ha).
    + rewrite Eb2. exact (tb_iface _ _ _ Ht _ _ Hb).
  - apply idle_ok_upd; [apply idle_ok_upd; [done|]|].
    + by rewrite Ea3, Ea4.
    + by rewrite Eb3, Eb4.
  - by rewrite !fmap_insert.
  - by rewrite !fmap_insert.
Qed.

Lemma insert_id2 {B} (mm : gmap loc B) a b x y :
  mm !! a = Some x -> mm !! b = Some y -> <[b := y]> (<[a := x]> mm) = mm.
Proof. intros Ha Hb. rewrite (insert_id mm a x Ha). by apply insert_id. Qed.

(** Both ends of a pair hold the same count. *)
Lemma conns_sym N f a b ca cb :
  peers_ok N (peer <$> clients f) -> clients f !! a = Some ca -> clients f !! b = Some cb ->
  conns_with a (peer cb) = conns_with b (peer ca).
Proof.
  intros [Hsym _ _ _] Ha Hb. specialize (Hsym b a). unfold npeer in Hsym.
  by rewrite (peers_field _ _ _ Ha), (peers_field _ _ _ Hb) in Hsym.
Qed.

Lemma conns_pos N f a b ca n :
  peers_ok N (peer <$> clients f) -> clients f !! a = Some ca -> conns_with b (peer ca) = Some n ->
  0 < n <= N.
Proof.
  intros [_ _ Hpos _] Ha Hn. apply (Hpos a b). unfold npeer. by rewrite (peers_field _ _ _ Ha).
Qed.
End invariant.
