(* ===== verification/LanToLanProps.v ===== *)
(** * Properties of the LAN-to-LAN offload

    Memory safety of every event sequence under a driver that does not fail, the
    counting of connections, the events posted and cached, the all-or-nothing
    behaviour of [add_offload_link], and how the invariant breaks when the driver
    fails or a client sleeps. *)
From S2P Require Import Prelude Defs Heap Config LanToLan LanDriver LanGraph.
From stdpp Require Import base list gmap strings.
From Stdlib Require Import ZArith Lia.

Open Scope Z_scope.

Section handlers.
Context {Iface W : Type} `{HI : LanIface Iface W} `{Hok : !LanIfaceOk Iface W}.
Context (CT_OPT : bool) (hash_order : gmap Z loc -> list (Z * loc)).
Hypothesis hash_order_ok : forall m, hash_order m ≡ₚ map_to_list m.
Implicit Types (f : family (Iface := Iface)) (c : client_info (Iface := Iface)) (w : W).

(** Everything but the links and their counter. *)
Definition skel c : client_info := c <| link := [] |>.
Definition same_skel f f' : Prop :=
  skel <$> clients f = skel <$> clients f' /\ client_info_ f = client_info_ f' /\
  connection_ f = connection_ f'.

#[local] Instance same_skel_equiv : Equivalence same_skel.
Proof.
  split.
  - by intros f.
  - by intros f f' (? & ? & ?).
  - intros f1 f2 f3 (? & ? & ?) (? & ? & ?). by split_and!; etrans.
Qed.

Lemma same_skel_client f f' l c :
  same_skel f f' -> clients f !! l = Some c ->
  exists c', clients f' !! l = Some c' /\ skel c = skel c'.
Proof.
  intros (Hs & _ & _) Hl.
  assert ((skel <$> clients f) !! l = Some (skel c)) as H by by rewrite lookup_fmap, Hl.
  rewrite Hs, lookup_fmap in H. apply fmap_Some_1 in H as (c' & Hc' & E). eauto.
Qed.

Lemma same_skel_pair f a b ca cb ca' cb' n :
  a <> b -> clients f !! a = Some ca -> clients f !! b = Some cb ->
  skel ca = skel ca' -> skel cb = skel cb' ->
  same_skel f (f <| clients := <[b := cb']> (<[a := ca']> (clients f)) |> <| num_offload_pair_ := n |>).
Proof.
  intros Hab Ha Hb Hca Hcb. split_and!; [|done..]. cbn.
  rewrite !fmap_insert, <- Hca, <- Hcb. symmetry. apply insert_id2; by rewrite lookup_fmap, ?Ha, ?Hb.
Qed.

(** ** Operations that keep the invariant *)

Definition connected (a b : loc) ca cb f : family :=
  f <| clients := <[b := cb <| peer := inc_peer a (peer cb) |>]>
                    (<[a := ca <| peer := inc_peer b (peer ca) |>]> (clients f)) |>
    <| num_offload_pair_ := num_offload_pair_ f |>.
Definition disconnected (a b : loc) ca cb f : family :=
  f <| clients := <[b := cb <| peer := dec_peer a (peer cb) |>]>
                    (<[a := ca <| peer := dec_peer b (peer ca) |>]> (clients f)) |>
    <| num_offload_pair_ := num_offload_pair_ f |>.

Lemma add_connection_ok iptype N f a b ca cb w :
  fam_inv iptype N f -> 0 <= N < 2 ^ 31 - 1 -> a <> b ->
  clients f !! a = Some ca -> clients f !! b = Some cb ->
  add_connection a b (f, w) =
    Some (bool_decide (conns_with b (peer ca) = None), (connected a b ca cb f, w)) /\
  fam_inv iptype (N + 1) (connected a b ca cb f).
Proof.
  intros Hinv HN Hab Ha Hb. pose proof (fi_peers _ _ _ Hinv) as Hp.
  pose proof (conns_sym _ _ _ _ _ _ Hp Ha Hb) as Hs. split.
  - unfold add_connection. erewrite bind_eq; [|apply (add_peer_ok _ _ ca); [done|]].
    2: { intros n Hn. pose proof (conns_pos _ _ _ _ _ _ Hp Ha Hn). lia. }
    erewrite bind_eq; [|apply (add_peer_ok _ _ cb); [cbn; by rewrite lookup_insert_ne|]].
    2: { intros n Hn. pose proof (conns_pos _ _ _ _ _ _ Hp Hb Hn). lia. }
    unfold ret. rewrite Hs, orb_diag. done.
  - apply (pair_inv _ N (N + 1) _ _ _ ca cb); try done.
    + exact (fi_idle _ _ _ Hinv _ _ Ha).
    + exact (fi_idle _ _ _ Hinv _ _ Hb).
    + pose proof (peers_field _ _ _ Ha) as Hfa. pose proof (peers_field _ _ _ Hb) as Hfb.
      apply (peers_ok_update N (N + 1) _ _ _ (peer ca) (peer cb) _ _ (inc_count (conns_with b (peer ca))));
        try done; [lia|..]; cbn.
      * intros x. apply conns_with_inc.
      * intros x. by rewrite conns_with_inc, Hs.
      * intros n [= <-]. destruct (conns_with b (peer ca)) eqn:E; simpl; [|lia].
        pose proof (conns_pos _ _ _ _ _ _ Hp Ha E). lia.
      * apply inc_peer_nodup. by eapply (pr_nodup _ _ Hp).
      * apply inc_peer_nodup. by eapply (pr_nodup _ _ Hp).
    + cbn. rewrite insert_id2 by by apply links_field. apply (fi_links _ _ _ Hinv).
Qed.

Lemma remove_connection_ok iptype N f a b ca cb w :
  fam_inv iptype N f -> N < 2 ^ 31 -> a <> b ->
  clients f !! a = Some ca -> clients f !! b = Some cb ->
  remove_connection a b (f, w) =
    Some (bool_decide (conns_with b (peer ca) = Some 1), (disconnected a b ca cb f, w)) /\
  fam_inv iptype N (disconnected a b ca cb f).
Proof.
  intros Hinv HN Hab Ha Hb. pose proof (fi_peers _ _ _ Hinv) as Hp.
  pose proof (conns_sym _ _ _ _ _ _ Hp Ha Hb) as Hs. split.
  - unfold remove_connection. erewrite bind_eq; [|apply (remove_peer_ok _ _ ca); [done|]].
    2: { intros n Hn. pose proof (conns_pos _ _ _ _ _ _ Hp Ha Hn). lia. }
    rewrite (remove_peer_ok _ _ cb); [|cbn; by rewrite lookup_insert_ne|].
    2: { intros n Hn. pose proof (conns_pos _ _ _ _ _ _ Hp Hb Hn). lia. }
    by rewrite Hs.
  - apply (pair_inv _ N N _ _ _ ca cb); try done.
    + exact (fi_idle _ _ _ Hinv _ _ Ha).
    + exact (fi_idle _ _ _ Hinv _ _ Hb).
    + pose proof (peers_field _ _ _ Ha) as Hfa. pose proof (peers_field _ _ _ Hb) as Hfb.
      pose proof (pr_nodup _ _ Hp _ _ Hfa). pose proof (pr_nodup _ _ Hp _ _ Hfb).
      apply (peers_ok_update N N _ _ _ (peer ca) (peer cb) _ _ (dec_count (conns_with b (peer ca))));
        try done; cbn.
      * intros x. by apply conns_with_dec.
      * intros x. by rewrite conns_with_dec, Hs.
      * intros n. destruct (conns_with b (peer ca)) as [n0|] eqn:E; simpl; [|done].
        pose proof (conns_pos _ _ _ _ _ _ Hp Ha E).
        destruct (Z.eqb_spec (n0 - 1) 0); [done|]. intros [= <-]. lia.
      * by apply dec_peer_nodup.
      * by apply dec_peer_nodup.
    + cbn. rewrite insert_id2 by by apply links_field. apply (fi_links _ _ _ Hinv).
Qed.

Definition awake c : Prop := is_active c = true \/ is_powersave c = true.

(** Both directions of a new pair, before it is counted. *)
Lemma add_pair_ok iptype ip N f a b ca cb w :
  fam_inv iptype N f -> ip <> IPA_IP_MAX -> num_offload_pair_ f < MAX_OFFLOAD_PAIR -> a <> b ->
  clients f !! a = Some ca -> clients f !! b = Some cb -> awake ca -> awake cb ->
  exists f1 w1 f2 w2,
    add_offload_link ip a b (f, w) = Some (IPACM_SUCCESS, (f1, w1)) /\
    add_offload_link ip b a (f1, w1) = Some (IPACM_SUCCESS, (f2, w2)) /\
    num_offload_pair_ f2 = num_offload_pair_ f /\
    fam_inv iptype N (f2 <| num_offload_pair_ := num_offload_pair_ f2 + 1 |>) /\
    same_skel f (f2 <| num_offload_pair_ := num_offload_pair_ f2 + 1 |>).
Proof.
  intros Hinv Hip Hnum Hab Ha Hb Hwa Hwb.
  pose proof (tb_iface _ _ _ (fi_table _ _ _ Hinv) _ _ Ha) as Hia.
  pose proof (tb_iface _ _ _ (fi_table _ _ _ Hinv) _ _ Hb) as Hib.
  destruct (add_offload_link_ok ip a b ca cb f w) as (w1 & k1 & Hk1 & H1); try done.
  set (f1 := f <| clients := _ |>) in H1.
  destruct (add_offload_link_ok ip b a cb (ca <| link := link ca ++ [k1] |>) f1 w1)
    as (w2 & k2 & Hk2 & H2); try done.
  { cbn. by rewrite lookup_insert_ne. }
  { cbn. by rewrite lookup_insert_eq. }
  set (f2 := f1 <| clients := _ |>) in H2.
  exists f1, w1, f2, w2. split_and!; [done..| |].
  - apply (pair_inv _ N N f a b ca cb (ca <| link := link ca ++ [k1] |>) (cb <| link := link cb ++ [k2] |>)
             (num_offload_pair_ f + 1)); try done.
    + by destruct Hwa as [-> | ->].
    + by destruct Hwb as [-> | ->].
    + cbn. rewrite insert_id2 by by apply peers_field. apply (fi_peers _ _ _ Hinv).
    + cbn. apply links_ok_pair; try done; try by apply links_field. apply (fi_links _ _ _ Hinv).
  - by apply (same_skel_pair f a b ca cb (ca <| link := link ca ++ [k1] |>) (cb <| link := link cb ++ [k2] |>)).
Qed.

Lemma inc_pairs_ok f w :
  0 <= num_offload_pair_ f < MAX_OFFLOAD_PAIR ->
  inc_pairs (f, w) = Some (tt, (f <| num_offload_pair_ := num_offload_pair_ f + 1 |>, w)).
Proof.
  intros H. change MAX_OFFLOAD_PAIR with 3 in H. unfold inc_pairs, upd_fam. cbn.
  rewrite uinc_small by lia. done.
Qed.

Lemma num_nonneg iptype N f : fam_inv iptype N f -> 0 <= num_offload_pair_ f <= MAX_OFFLOAD_PAIR.
Proof.
  intros [_ _ _ [_ _ Ht Hm]]. pose proof (total_links_nonneg (link <$> clients f)). lia.
Qed.

Lemma num_set_id f n : num_offload_pair_ f = n -> f <| num_offload_pair_ := n |> = f.
Proof. destruct f. by intros <-. Qed.

Lemma new_links_ok iptype ip N f a b ca cb w :
  fam_inv iptype N f -> ip <> IPA_IP_MAX -> a <> b ->
  clients f !! a = Some ca -> clients f !! b = Some cb -> awake ca -> awake cb ->
  exists f' w', new_links ip a b (f, w) = Some (tt, (f', w')) /\ fam_inv iptype N f' /\ same_skel f f'.
Proof.
  intros Hinv Hip Hab Ha Hb Hwa Hwb. unfold new_links.
  destruct (decide (num_offload_pair_ f < MAX_OFFLOAD_PAIR)) as [Hlt|Hge].
  - destruct (add_pair_ok iptype ip N f a b ca cb w) as (f1 & w1 & f2 & w2 & H1 & H2 & Hn & Hi & Hs); try done.
    erewrite bind_eq by exact H1. cbn [Z.eqb IPACM_SUCCESS IPACM_FAILURE].
    erewrite bind_eq by exact H2. cbn [Z.eqb IPACM_SUCCESS IPACM_FAILURE].
    pose proof (num_nonneg _ _ _ Hinv). rewrite inc_pairs_ok by lia. eauto.
  - erewrite bind_eq by (apply add_offload_link_full; lia). cbn [Z.eqb IPACM_FAILURE].
    exists f, w. done.
Qed.

Lemma check_peer_ok iptype ip N f a q c p w :
  fam_inv iptype N f -> ip <> IPA_IP_MAX -> clients f !! a = Some c -> awake c ->
  clients f !! peer_pointer q = Some p -> peer_pointer q <> a ->
  exists f' w', check_peer ip a q (f, w) = Some (None, (f', w')) /\ fam_inv iptype N f' /\ same_skel f f'.
Proof.
  intros Hinv Hip Ha Hw Hp Hne. unfold check_peer. erewrite bind_eq by by apply get_eq.
  destruct (is_active p) eqn:Eact; [|by exists f, w].
  destruct (0 <? num_connection q); [|by exists f, w]. cbn [andb].
  destruct (decide (num_offload_pair_ f < MAX_OFFLOAD_PAIR)) as [Hlt|Hge].
  - destruct (add_pair_ok iptype ip N f a (peer_pointer q) c p w)
      as (f1 & w1 & f2 & w2 & H1 & H2 & Hn & Hi & Hs); try done; [by left|].
    erewrite bind_eq by exact H1. erewrite bind_eq by exact H2. cbn [Z.eqb IPACM_SUCCESS].
    pose proof (num_nonneg _ _ _ Hinv).
    erewrite bind_eq by (apply inc_pairs_ok; lia). eauto.
  - erewrite bind_eq by (apply add_offload_link_full; lia).
    erewrite bind_eq by (apply add_offload_link_full; lia). cbn [Z.eqb IPACM_SUCCESS IPACM_FAILURE].
    by exists f, w.
Qed.

Lemma awake_skel c c' : skel c = skel c' -> awake c -> awake c'.
Proof. destruct c, c'. intros [=]. by subst. Qed.

Lemma check_peers_ok iptype ip N a l f c w :
  fam_inv iptype N f -> ip <> IPA_IP_MAX -> clients f !! a = Some c -> awake c ->
  (forall q, q ∈ l -> peer_pointer q <> a /\ is_Some (clients f !! peer_pointer q)) ->
  exists f' w', for_each (check_peer ip a) l (f, w) = Some (None, (f', w')) /\
    fam_inv iptype N f' /\ same_skel f f'.
Proof.
  revert f c w. induction l as [|q l IH]; intros f c w Hinv Hip Ha Hw Hq; [by exists f, w|].
  destruct (Hq q) as (Hne & p & Hp); [left|].
  destruct (check_peer_ok iptype ip N f a q c p w) as (f1 & w1 & H1 & Hi1 & Hs1); try done.
  erewrite for_each_next by exact H1.
  destruct (same_skel_client _ _ _ _ Hs1 Ha) as (c1 & Hc1 & Ec).
  destruct (IH f1 c1 w1) as (f' & w' & H' & Hi' & Hs'); try done.
  - by eapply awake_skel.
  - intros x Hx. destruct (Hq x) as (Hxa & y & Hy); [by right|]. split; [done|].
    destruct (same_skel_client _ _ _ _ Hs1 Hy) as (y1 & -> & _). done.
  - exists f', w'. split_and!; [done..|]. by etrans.
Qed.

(** A peer is another client of the table. *)
Lemma peer_alive iptype N f a c q :
  fam_inv iptype N f -> clients f !! a = Some c -> q ∈ peer c ->
  peer_pointer q <> a /\ is_Some (clients f !! peer_pointer q).
Proof.
  intros Hinv Ha Hin. pose proof (fi_peers _ _ _ Hinv) as Hp.
  assert (is_Some (conns_with (peer_pointer q) (peer c))) as [n Hn]
    by (apply conns_with_elem; by apply list_elem_of_fmap_2).
  assert (npeer (peer <$> clients f) a (peer_pointer q) = Some n) as Hnp
    by (unfold npeer; by rewrite (peers_field _ _ _ Ha)).
  split.
  - intros E. rewrite E in Hnp. by rewrite (pr_irr _ _ Hp) in Hnp.
  - rewrite (pr_sym _ _ Hp) in Hnp. unfold npeer in Hnp. rewrite lookup_fmap in Hnp.
    by destruct (clients f !! peer_pointer q).
Qed.

Lemma check_potential_ok iptype ip N f a c w :
  fam_inv iptype N f -> ip <> IPA_IP_MAX -> clients f !! a = Some c -> awake c ->
  exists f' w', check_potential_link ip a (f, w) = Some (tt, (f', w')) /\ fam_inv iptype N f' /\ same_skel f f'.
Proof.
  intros Hinv Hip Ha Hw. unfold check_potential_link. erewrite bind_eq by by apply get_eq.
  destruct (check_peers_ok iptype ip N a (peer c) f c w) as (f' & w' & Hl & ? & ?); try done.
  { intros q. by eapply peer_alive. }
  exists f', w'. by erewrite bind_eq by exact Hl.
Qed.

Lemma for_each_stay {X R} (body : X -> M (Iface := Iface) (W := W) (option R)) l f w :
  (forall x w, x ∈ l -> exists r w', body x (f, w) = Some (r, (f, w'))) ->
  exists r w', for_each body l (f, w) = Some (r, (f, w')).
Proof.
  revert w. induction l as [|x l IH]; intros w Hb; simpl; [by eexists _, _|].
  destruct (Hb x w) as (r & w' & H); [left|]. erewrite bind_eq by exact H.
  destruct r; [by eexists _, _|]. apply IH. intros; apply Hb. by right.
Qed.

Lemma get_cat_ok i f w : exists ty, get_cat (Some i) (f, w) = Some (ty, (f, w)).
Proof. eexists. unfold get_cat. erewrite bind_eq by done. by rewrite hw_eq. Qed.

Lemma generate_ok iptype ip N f a c w :
  fam_inv iptype N f -> clients f !! a = Some c ->
  exists w', generate_new_connection CT_OPT hash_order ip a (f, w) = Some (tt, (f, w')).
Proof.
  intros Hinv Ha. unfold generate_new_connection. destruct CT_OPT; [by exists w|].
  pose proof (fi_table _ _ _ Hinv) as [Ht Hi].
  erewrite bind_eq by by apply get_eq. destruct (Hi _ _ Ha) as [i ->].
  destruct (get_cat_ok i f w) as [ty Hty]. erewrite bind_eq by exact Hty.
  assert (exists r w', for_each (generate_one ip a ty) (hash_order (client_info_ f)) (f, w) = Some (r, (f, w')))
    as (r & w' & Hl).
  { apply for_each_stay. intros [k l] w0. rewrite hash_order_ok, elem_of_map_to_list. intros Hk.
    apply Ht in Hk as (p & Hp & _). unfold generate_one.
    erewrite bind_eq by by apply get_eq. destruct (Hi _ _ Hp) as [j ->].
    destruct (get_cat_ok j f w0) as [tj Htj]. erewrite bind_eq by exact Htj.
    destruct (_ && _); [|by eexists _, _]. erewrite bind_eq by by apply get_eq.
    erewrite bind_eq by apply hw_eq. by eexists _, _. }
  destruct ip; [| |by exists w]; erewrite bind_eq by apply get_fam_eq;
    erewrite bind_eq by exact Hl; by exists w'.
Qed.

Lemma check_cache_loop_ok ip a c l f w :
  clients f !! a = Some c ->
  exists k w', check_cache_loop ip a l (f, w) = Some (k, (f, w')).
Proof.
  intros Ha. revert w. induction l as [|it l IH]; intros w; simpl; [by eexists _, _|].
  erewrite bind_eq by apply get_fam_eq. erewrite bind_eq by by apply get_eq.
  destruct (cache_hit _ _ _ _).
  - erewrite bind_eq by apply hw_eq. destruct (_.1); [apply IH|by eexists _, _].
  - destruct (IH w) as (k & w' & H). erewrite bind_eq by exact H. by eexists _, _.
Qed.

(** The two functions that only post events. *)
Lemma new_connections_ok iptype ip N f a c w :
  fam_inv iptype N f -> clients f !! a = Some c ->
  exists f' w', new_connections CT_OPT hash_order ip a (f, w) = Some (tt, (f', w')) /\ fam_inv iptype N f'.
Proof.
  intros Hinv Ha. unfold new_connections. destruct (generate_ok iptype ip N f a c w) as [w1 H1]; try done.
  erewrite bind_eq by exact H1. unfold check_cache_connection.
  destruct CT_OPT; [|by exists f, w1].
  erewrite bind_eq by apply get_fam_eq.
  destruct (check_cache_loop_ok ip a c (connection_ f) f w1 Ha) as (k & w2 & H2).
  erewrite bind_eq by exact H2. eexists _, w2. split; [reflexivity|].
  destruct Hinv. by split.
Qed.

(** ** Clients that come and go *)

Lemma upd_client_inv iptype N f a c c' :
  fam_inv iptype N f -> clients f !! a = Some c -> ckey iptype c' = ckey iptype c ->
  is_Some (p_iface c') -> peer c' = peer c -> link c' = link c ->
  (is_active c' = false -> is_powersave c' = false -> link c = []) ->
  fam_inv iptype N (f <| clients := <[a := c']> (clients f) |>).
Proof.
  intros [Ht Hid Hp Hl] Ha Hk Hi Ep El Hidle. split; cbn.
  - by eapply table_ok_upd.
  - apply idle_ok_upd; [done|]. by rewrite El.
  - by rewrite (fmap_insert_same _ _ _ c).
  - by rewrite (fmap_insert_same _ _ _ c).
Qed.

Lemma new_client_inv iptype N f k a c :
  fam_inv iptype N f -> client_info_ f !! k = None -> clients f !! a = None -> ckey iptype c = k ->
  is_Some (p_iface c) -> peer c = [] -> link c = [] ->
  fam_inv iptype N (f <| client_info_ := <[k := a]> (client_info_ f) |> <| clients := <[a := c]> (clients f) |>).
Proof.
  intros [[Ht Hi] Hid Hp Hl] Hk Ha Hck Hic Ep El. split; cbn.
  - split.
    + intros k' l. destruct (decide (k' = k)) as [->|Hne]; [rewrite lookup_insert_eq|rewrite lookup_insert_ne by done].
      * split; [intros [= <-]; rewrite lookup_insert_eq; eauto|].
        intros (x & Hx & E). destruct (decide (l = a)) as [->|]; [done|].
        rewrite lookup_insert_ne in Hx by done. assert (client_info_ f !! k = Some l) by (apply Ht; eauto).
        congruence.
      * rewrite Ht. destruct (decide (l = a)) as [->|]; [|by rewrite lookup_insert_ne].
        rewrite lookup_insert_eq, Ha. split; [by intros (? & ? & _)|]. intros (x & [= <-] & E). congruence.
    + intros l x. destruct (decide (l = a)) as [->|]; [rewrite lookup_insert_eq; by intros [= <-]|].
      rewrite lookup_insert_ne by done. apply Hi.
  - by apply idle_ok_upd.
  - rewrite fmap_insert, Ep. apply peers_ok_fresh; [done|]. by rewrite lookup_fmap, Ha.
  - rewrite fmap_insert, El. apply links_ok_fresh; [done|]. by rewrite lookup_fmap, Ha.
Qed.

Definition erased (k : Z) (a : loc) f : family :=
  f <| client_info_ := delete k (client_info_ f) |> <| clients := delete a (clients f) |>.

Lemma erase_client_ok f k a w :
  client_info_ f !! k = Some a -> erase_client k (f, w) = Some (tt, (erased k a f, w)).
Proof. intros Hk. unfold erase_client, upd_fam. cbn. by rewrite Hk. Qed.

Lemma erased_inv iptype N f k a c :
  fam_inv iptype N f -> client_info_ f !! k = Some a -> clients f !! a = Some c ->
  peer c = [] -> link c = [] -> fam_inv iptype N (erased k a f).
Proof.
  intros [[Ht Hi] Hid Hp Hl] Hk Ha Ep El. split; cbn.
  - pose proof (proj1 (Ht k a) Hk) as (x & Hx & Ek).
    split.
    + intros k' l. destruct (decide (k' = k)) as [->|Hne]; [rewrite lookup_delete_eq|rewrite lookup_delete_ne by done].
      * split; [done|]. intros (y & Hy & E). destruct (decide (l = a)) as [->|]; [by rewrite lookup_delete_eq in Hy|].
        rewrite lookup_delete_ne in Hy by done. assert (client_info_ f !! k = Some l) by (apply Ht; eauto).
        congruence.
      * rewrite Ht. destruct (decide (l = a)) as [->|]; [|by rewrite lookup_delete_ne].
        rewrite lookup_delete_eq, Hx. split; [|by intros (? & ? & _)]. intros (y & [= <-] & E). congruence.
    + intros l y. intros [_ Hy]%lookup_delete_Some. eauto.
  - intros l y [_ Hy]%lookup_delete_Some. eauto.
  - rewrite fmap_delete. apply peers_ok_delete; [done|]. by rewrite lookup_fmap, Ha; simpl; rewrite Ep.
  - rewrite fmap_delete. apply links_ok_delete; [done|]. by rewrite lookup_fmap, Ha; simpl; rewrite El.
Qed.

Lemma ckey_set_client d i c :
  lc_iptype d <> IPA_IP_MAX -> ckey (lc_iptype d) (set_client d i c) = data_key d.
Proof.
  intros Hip. unfold ckey, data_key, client_key, set_client, ipv4_addr. cbn.
  destruct (lc_iptype d); [|done|done]. by destruct (ip c) as [[[? ?] ?] ?].
Qed.

(** ** Erasing the links of a pair *)

Lemma erase_one_ok ip a b ca cb f w :
  clients f !! a = Some ca -> clients f !! b = Some cb -> is_Some (p_iface ca) -> is_Some (p_iface cb) ->
  (0 < links_to b (link ca))%nat ->
  exists w', erase_one ip a b (f, w) = Some (IPACM_SUCCESS,
    (f <| clients := <[a := ca <| link := erase_first (points_to b) (link ca) |>]> (clients f) |>, w')).
Proof.
  intros Ha Hb [i Hi] [j Hj] Hl. unfold erase_one. erewrite bind_eq by by apply get_eq.
  destruct (links_to_find _ _ Hl) as (n & k & -> & Hk). cbn [mbind option_bind]. rewrite Hk.
  erewrite bind_eq by by apply get_eq. rewrite Hi, Hj.
  destruct (del_offload_link_ok ip i j k f w) as [w1 H1]. erewrite bind_eq by exact H1.
  erewrite bind_eq by by apply upd_eq. by exists w1.
Qed.

Lemma erase_one_none ip a b ca f w :
  clients f !! a = Some ca -> links_to b (link ca) = 0%nat ->
  erase_one ip a b (f, w) = Some (IPACM_FAILURE, (f, w)).
Proof.
  intros Ha Hl. unfold erase_one. erewrite bind_eq by by apply get_eq.
  assert (find_index (points_to b) (link ca) = None) as ->; [|done].
  apply find_index_None. eapply Forall_impl; [by apply links_to_none|].
  intros x Hx. by apply bool_decide_eq_false.
Qed.

Lemma erase_offload_link_ok iptype ip N f a b ca cb w :
  fam_inv iptype N f -> a <> b -> clients f !! a = Some ca -> clients f !! b = Some cb ->
  exists f' w', erase_offload_link ip a b (f, w) = Some (tt, (f', w')) /\ fam_inv iptype N f' /\ same_skel f f'.
Proof.
  intros Hinv Hab Ha Hb. pose proof (fi_links _ _ _ Hinv) as Hlk.
  pose proof (tb_iface _ _ _ (fi_table _ _ _ Hinv) _ _ Ha) as Hia.
  pose proof (tb_iface _ _ _ (fi_table _ _ _ Hinv) _ _ Hb) as Hib.
  pose proof (lk_sym _ _ Hlk a b) as Hsym. unfold nlinks in Hsym.
  rewrite (links_field _ _ _ Ha), (links_field _ _ _ Hb) in Hsym. unfold erase_offload_link.
  destruct (decide (links_to b (link ca) = 0%nat)) as [Hz|Hpos].
  - erewrite bind_eq by by apply (erase_one_none ip a b ca).
    erewrite bind_eq by (apply (erase_one_none ip b a cb); [done|congruence]). by exists f, w.
  - set (ca' := ca <| link := erase_first (points_to b) (link ca) |>).
    set (cb' := cb <| link := erase_first (points_to a) (link cb) |>).
    destruct (erase_one_ok ip a b ca cb f w) as [w1 H1]; try done; [lia|].
    erewrite bind_eq by exact H1. fold ca'.
    destruct (erase_one_ok ip b a cb ca' (f <| clients := <[a := ca']> (clients f) |>) w1) as [w2 H2];
      try done; [cbn; by rewrite lookup_insert_ne|cbn; by rewrite lookup_insert_eq|lia|].
    erewrite bind_eq by exact H2. fold cb'. cbn [andb Z.eqb IPACM_SUCCESS].
    destruct (num_nonneg _ _ _ Hinv) as [H0 H3]. change MAX_OFFLOAD_PAIR with 3 in H3.
    destruct (links_ok_own _ _ _ _ Hlk (links_field _ _ _ Ha)) as (_ & _ & Hlen).
    assert (links_to b (link ca) <= length (link ca))%nat by apply length_filter.
    unfold dec_pairs, upd_fam. cbn. rewrite udec_small by lia.
    eexists (f <| clients := <[b := cb']> (<[a := ca']> (clients f)) |> <| num_offload_pair_ := num_offload_pair_ f - 1 |>), w2.
    split; [reflexivity|]. split; [|by apply (same_skel_pair f a b ca cb)].
    apply (pair_inv _ N N f a b ca cb); try done.
    + intros H4 H5. unfold ca'. cbn. by rewrite (fi_idle _ _ _ Hinv _ _ Ha H4 H5).
    + intros H4 H5. unfold cb'. cbn. by rewrite (fi_idle _ _ _ Hinv _ _ Hb H4 H5).
    + change (peer ca') with (peer ca). change (peer cb') with (peer cb).
      rewrite insert_id2 by by apply peers_field. apply (fi_peers _ _ _ Hinv).
    + apply links_ok_unpair; try done; try by apply links_field. lia.
Qed.

(** ** Filter rules of a sleeping client *)

(** A link is answered by one of its peer, another client of the table. *)
Lemma link_alive iptype N f a c k :
  fam_inv iptype N f -> clients f !! a = Some c -> k ∈ link c ->
  link_peer k <> a /\
  exists p, clients f !! link_peer k = Some p /\ is_Some (p_iface p) /\ (0 < links_to a (link p))%nat.
Proof.
  intros Hinv Ha Hk. pose proof (fi_links _ _ _ Hinv) as Hlk.
  destruct (links_ok_own _ _ _ _ Hlk (links_field _ _ _ Ha)) as (Hself & Hn & _).
  split.
  - intros E. apply links_to_none in Hself. rewrite Forall_forall in Hself. by apply (Hself k).
  - assert (0 < links_to (link_peer k) (link c))%nat as Hpos.
    { apply list_elem_of_split in Hk as (l1 & l2 & ->).
      rewrite links_to_app, links_to_cons, decide_True by done. lia. }
    rewrite <- Hn in Hpos. apply nlinks_pos in Hpos as (p & Hp & Hpos). exists p. split_and!; [done| |done].
    exact (tb_iface _ _ _ (fi_table _ _ _ Hinv) _ _ Hp).
Qed.

Lemma for_each_none {X R} (body : X -> M (Iface := Iface) (W := W) (option R)) l f w :
  (forall x w, x ∈ l -> exists w', body x (f, w) = Some (None, (f, w'))) ->
  exists w', for_each body l (f, w) = Some (None, (f, w')).
Proof.
  revert w. induction l as [|x l IH]; intros w Hb; [by eexists|].
  destruct (Hb x w) as (w' & H); [left|]. erewrite for_each_next by exact H.
  apply IH. intros; apply Hb. by right.
Qed.

Lemma remove_flt_rules_ok iptype ip N f a c w :
  fam_inv iptype N f -> clients f !! a = Some c ->
  exists w', remove_flt_rules ip a (f, w) = Some (IPACM_SUCCESS, (f, w')).
Proof.
  intros Hinv Ha. unfold remove_flt_rules. erewrite bind_eq by by apply get_eq.
  destruct (for_each_none (remove_flt ip a) (link c) f w) as [w' Hl].
  { intros k w0 Hk. destruct (link_alive _ _ _ _ _ _ Hinv Ha Hk) as (_ & p & Hp & [j Hj] & Hpos).
    destruct (tb_iface _ _ _ (fi_table _ _ _ Hinv) _ _ Ha) as [i Hi]. unfold remove_flt.
    erewrite bind_eq by by apply get_eq. rewrite Hi. erewrite bind_eq by reflexivity.
    erewrite bind_eq by apply hw_eq. erewrite bind_eq by by apply get_eq.
    destruct (links_to_find _ _ Hpos) as (n & k' & -> & Hk'). cbn [mbind option_bind]. rewrite Hk', Hj.
    erewrite bind_eq by reflexivity. erewrite bind_eq by apply hw_eq. by eexists. }
  erewrite bind_eq by exact Hl. by exists w'.
Qed.

Definition store_hdl (i : nat) (h : Z) c : client_info :=
  c <| link := alter (fun k => k <| flt_rule_hdl := h |>) i (link c) |>.

Lemma links_to_store b i h (ks : list offload_link_info) :
  links_to b (alter (fun k => k <| flt_rule_hdl := h |>) i ks) = links_to b ks.
Proof.
  revert i. induction ks as [|k ks IH]; intros [|i]; [done..| |].
  - change (alter ?g 0%nat (k :: ks)) with (g k :: ks). by rewrite !links_to_cons.
  - change (alter ?g (S i) (k :: ks)) with (k :: alter g i ks). by rewrite !links_to_cons, IH.
Qed.

Lemma store_hdl_inv iptype N f a c i h :
  fam_inv iptype N f -> clients f !! a = Some c ->
  let f' := f <| clients := <[a := store_hdl i h c]> (clients f) |> in
  fam_inv iptype N f' /\ same_skel f f'.
Proof.
  intros [Ht Hid Hp Hl] Ha f'. split; [split; cbn|].
  - eapply table_ok_upd; [done|exact Ha|done|]. exact (tb_iface _ _ _ Ht _ _ Ha).
  - apply idle_ok_upd; [done|]. cbn. intros H1 H2. by rewrite (Hid _ _ Ha H1 H2).
  - by rewrite (fmap_insert_same _ _ _ c).
  - rewrite fmap_insert. apply (links_ok_ext (link <$> clients f)); [done| |].
    + intros x y. rewrite nlinks_insert. destruct (decide (x = a)) as [->|]; [|done].
      unfold nlinks. rewrite (links_field _ _ _ Ha). apply links_to_store.
    + rewrite (total_links_insert _ _ (link c)) by by apply links_field. cbn. rewrite length_alter. lia.
  - split_and!; [|done..]. cbn. symmetry. by apply (fmap_insert_same _ _ _ c).
Qed.

Lemma set_flt_ok a c i h f w :
  clients f !! a = Some c ->
  set_flt a i h (f, w) = Some (tt, (f <| clients := <[a := store_hdl i h c]> (clients f) |>, w)).
Proof. apply upd_eq. Qed.

Lemma add_flt_ok iptype ip N f a c i w :
  fam_inv iptype N f -> clients f !! a = Some c -> (i < length (link c))%nat ->
  exists f' w' c', add_flt ip a i (f, w) = Some (None, (f', w')) /\ fam_inv iptype N f' /\
    same_skel f f' /\ clients f' !! a = Some c' /\ length (link c') = length (link c).
Proof.
  intros Hinv Ha Hlt. destruct (lookup_lt_is_Some_2 _ _ Hlt) as [k Hk].
  destruct (link_alive _ _ _ _ _ _ Hinv Ha (list_elem_of_lookup_2 _ _ _ Hk)) as (Hne & p & Hp & [jf Hj] & Hpos).
  destruct (tb_iface _ _ _ (fi_table _ _ _ Hinv) _ _ Ha) as [if_ Hi]. unfold add_flt.
  erewrite bind_eq by by apply get_eq. rewrite Hk. erewrite bind_eq by reflexivity.
  erewrite bind_eq by by apply get_eq. rewrite Hi. erewrite bind_eq by reflexivity.
  erewrite bind_eq by apply hw_eq. rewrite ok_add_flt. cbn [Z.eqb IPACM_SUCCESS IPACM_FAILURE].
  erewrite bind_eq by by apply set_flt_ok. set (h := snd (fst _)).
  destruct (store_hdl_inv _ _ _ _ _ i h Hinv Ha) as [Hinv1 Hs1].
  set (f1 := f <| clients := _ |>) in *.
  assert (clients f1 !! link_peer k = Some p) as Hp1 by (cbn; by rewrite lookup_insert_ne).
  erewrite bind_eq by by apply get_eq.
  destruct (links_to_find _ _ Hpos) as (n & k' & -> & Hk'). rewrite Hj. erewrite bind_eq by reflexivity.
  erewrite bind_eq by apply hw_eq. rewrite ok_add_flt. cbn [Z.eqb IPACM_SUCCESS IPACM_FAILURE].
  erewrite bind_eq by by apply set_flt_ok. set (h' := snd (fst _)).
  destruct (store_hdl_inv _ _ _ _ _ n h' Hinv1 Hp1) as [Hinv2 Hs2].
  eexists _, _, (store_hdl i h c). split; [reflexivity|]. split; [exact Hinv2|]. split; [by etrans|].
  split; [|apply length_alter]. cbn. rewrite lookup_insert_ne by done. apply lookup_insert_eq.
Qed.

Lemma add_flt_rules_ok iptype ip N f a c w :
  fam_inv iptype N f -> clients f !! a = Some c ->
  exists f' w', add_flt_rules ip a (f, w) = Some (IPACM_SUCCESS, (f', w')) /\ fam_inv iptype N f' /\ same_skel f f'.
Proof.
  intros Hinv Ha. unfold add_flt_rules. erewrite bind_eq by by apply get_eq.
  assert (forall l f c w, fam_inv iptype N f -> clients f !! a = Some c ->
    (forall i, i ∈ l -> (i < length (link c))%nat) ->
    exists f' w', for_each (add_flt ip a) l (f, w) = Some (None, (f', w')) /\ fam_inv iptype N f' /\ same_skel f f')
    as Hloop.
  { clear f c w Hinv Ha. intros l. induction l as [|i l IH]; intros f c w Hinv Ha Hlt; [by exists f, w|].
    destruct (add_flt_ok iptype ip N f a c i w) as (f1 & w1 & c1 & H1 & Hi1 & Hs1 & Hc1 & Hlen); try done.
    { apply Hlt. left. }
    erewrite for_each_next by exact H1. destruct (IH f1 c1 w1) as (f' & w' & H' & Hi' & Hs'); try done.
    { intros j Hj. rewrite Hlen. apply Hlt. by right. }
    exists f', w'. split_and!; [done..|]. by etrans. }
  destruct (Hloop (seq 0 (length (link c))) f c w) as (f' & w' & Hl & ? & ?); try done.
  { intros i [_ Hi]%elem_of_seq. lia. }
  exists f', w'. by erewrite bind_eq by exact Hl.
Qed.

(** ** The handlers *)

(** From [f] the code [m] is defined and ends in a family that keeps the
    invariant with at most [N'] connections per pair. *)
Definition safe (iptype : ipa_ip_type) (N' : Z) (m : M (Iface := Iface) (W := W) unit) f : Prop :=
  forall w, exists f' w', m (f, w) = Some (tt, (f', w')) /\ fam_inv iptype N' f'.

Lemma safe_ret iptype N f : fam_inv iptype N f -> safe iptype N (ret tt) f.
Proof. intros Hi w. by exists f, w. Qed.

Lemma fam_inv_mono iptype N N' f : fam_inv iptype N f -> N <= N' -> fam_inv iptype N' f.
Proof. intros [? ? ? ?] ?. split; [done..| |done]. by eapply peers_ok_mono. Qed.

Lemma found_safe iptype N N' f k body :
  fam_inv iptype N f -> N <= N' ->
  (forall l c, client_info_ f !! k = Some l -> clients f !! l = Some c -> ckey iptype c = k ->
     safe iptype N' (body l) f) ->
  safe iptype N' (found k body) f.
Proof.
  intros Hinv HN Hb w. unfold found. erewrite bind_eq by apply get_fam_eq.
  destruct (client_info_ f !! k) as [l|] eqn:Hk.
  - destruct (table_node _ _ _ _ _ (fi_table _ _ _ Hinv) Hk) as (c & Hc & Hck). by eapply Hb.
  - exists f, w. split; [done|]. by eapply fam_inv_mono.
Qed.

Lemma new_connections_safe iptype ip N f a c :
  fam_inv iptype N f -> clients f !! a = Some c ->
  safe iptype N (new_connections CT_OPT hash_order ip a) f.
Proof. intros Hi Ha w. by eapply new_connections_ok. Qed.

Lemma unlinked_client a c f : clients (unlinked a c f) !! a = Some (c <| link := [] |>).
Proof. cbn. apply lookup_insert_eq. Qed.
Lemma unpeered_client a c f : clients (unpeered a c f) !! a = Some (c <| peer := [] |>).
Proof. cbn. apply lookup_insert_eq. Qed.

(** Assigning the event's data to the client of its key. *)
Lemma set_client_inv N f l c d i :
  fam_inv (lc_iptype d) N f -> lc_iptype d <> IPA_IP_MAX ->
  clients f !! l = Some c -> ckey (lc_iptype d) c = data_key d ->
  fam_inv (lc_iptype d) N (f <| clients := <[l := set_client d i c]> (clients f) |>).
Proof.
  intros Hi Hip Hl Hk. eapply upd_client_inv; try done. by rewrite ckey_set_client, Hk.
Qed.

Lemma active_safe N f nw d i :
  fam_inv (lc_iptype d) N f -> lc_iptype d <> IPA_IP_MAX -> clients f !! nw = None ->
  safe (lc_iptype d) N (active_body CT_OPT hash_order nw d i) f.
Proof.
  intros Hinv Hip Hnw w. unfold active_body. erewrite bind_eq by apply get_fam_eq.
  destruct (client_info_ f !! data_key d) as [l|] eqn:Hk.
  - destruct (table_node _ _ _ _ _ (fi_table _ _ _ Hinv) Hk) as (c & Hc & Hck).
    erewrite bind_eq by by apply get_eq. destruct (is_active c) eqn:Eact.
    + case_bool_decide; [by apply safe_ret|].
      destruct (turnoff_ok _ (lc_iptype d) _ _ _ _ w Hinv Hc) as [w1 H1]. erewrite bind_eq by exact H1.
      pose proof (unlinked_inv _ _ _ _ _ Hinv Hc) as Hinv1. pose proof (unlinked_client l c f) as Hc1.
      erewrite bind_eq by by eapply clear_peer_list_ok.
      pose proof (unpeered_inv _ _ _ _ _ Hinv1 Hc1) as Hinv2.
      erewrite bind_eq by apply upd_eq, unpeered_client.
      eapply (new_connections_safe _ _ _ _ l); [|cbn; apply lookup_insert_eq].
      by eapply set_client_inv; [| |apply unpeered_client|].
    + erewrite bind_eq by by apply upd_eq. pose proof (set_client_inv _ _ _ _ _ i Hinv Hip Hc Hck) as Hinv1.
      destruct (check_potential_ok (lc_iptype d) (lc_iptype d) _ _ l (set_client d i c) w Hinv1 Hip)
        as (f2 & w2 & H2 & Hinv2 & Hs2); [cbn; apply lookup_insert_eq|by left|].
      erewrite bind_eq by exact H2.
      destruct (same_skel_client _ _ l (set_client d i c) Hs2) as (c2 & Hc2 & _); [cbn; apply lookup_insert_eq|].
      by eapply (new_connections_safe _ _ _ _ l).
  - erewrite bind_eq by reflexivity. erewrite bind_eq by (apply upd_eq; cbn; apply lookup_insert_eq).
    eapply (new_connections_safe _ _ _ _ nw); [|cbn; apply lookup_insert_eq]. cbn.
    rewrite insert_insert_eq. eapply (new_client_inv _ _ f); try done. by apply ckey_set_client.
Qed.

Lemma inactive_safe iptype ip N f k l c :
  fam_inv iptype N f -> client_info_ f !! k = Some l -> clients f !! l = Some c ->
  safe iptype N (inactive_body ip k l) f.
Proof.
  intros Hinv Hk Hc w. unfold inactive_body.
  destruct (turnoff_ok _ ip _ _ _ _ w Hinv Hc) as [w1 H1]. erewrite bind_eq by exact H1.
  pose proof (unlinked_inv _ _ _ _ _ Hinv Hc) as Hinv1. pose proof (unlinked_client l c f) as Hc1.
  erewrite bind_eq by by apply upd_eq. erewrite bind_eq by (apply get_eq; cbn; apply lookup_insert_eq).
  set (c2 := c <| link := [] |> <| is_active := false |>).
  assert (fam_inv iptype N (unlinked l c f <| clients := <[l := c2]> (clients (unlinked l c f)) |>)) as Hinv2.
  { eapply upd_client_inv; try done. exact (tb_iface _ _ _ (fi_table _ _ _ Hinv) _ _ Hc). }
  case_bool_decide as He; [|by apply safe_ret].
  erewrite erase_client_ok by exact Hk. eexists _, _. split; [reflexivity|].
  eapply erased_inv; [done|exact Hk|cbn; apply lookup_insert_eq| |done]. by apply length_zero_iff_nil in He.
Qed.

Lemma disconnect_safe iptype ip N f k l c :
  fam_inv iptype N f -> client_info_ f !! k = Some l -> clients f !! l = Some c ->
  safe iptype N (disconnect_body ip k l) f.
Proof.
  intros Hinv Hk Hc w. unfold disconnect_body.
  destruct (turnoff_ok _ ip _ _ _ _ w Hinv Hc) as [w1 H1]. erewrite bind_eq by exact H1.
  pose proof (unlinked_inv _ _ _ _ _ Hinv Hc) as Hinv1. pose proof (unlinked_client l c f) as Hc1.
  erewrite bind_eq by by eapply clear_peer_list_ok.
  pose proof (unpeered_inv _ _ _ _ _ Hinv1 Hc1) as Hinv2.
  erewrite erase_client_ok by exact Hk. eexists _, _. split; [reflexivity|].
  by eapply erased_inv; [done|exact Hk|apply unpeered_client| |].
Qed.

Lemma power_save_safe iptype ip N f l c :
  fam_inv iptype N f -> clients f !! l = Some c -> safe iptype N (power_save_body ip l) f.
Proof.
  intros Hinv Hc w. unfold power_save_body.
  destruct (remove_flt_rules_ok _ ip _ _ _ _ w Hinv Hc) as [w1 H1]. erewrite bind_eq by exact H1.
  cbn [Z.eqb IPACM_SUCCESS IPACM_FAILURE]. erewrite upd_eq by done. eexists _, _. split; [reflexivity|].
  eapply upd_client_inv; try done. exact (tb_iface _ _ _ (fi_table _ _ _ Hinv) _ _ Hc).
Qed.

Lemma power_recover_safe iptype ip N f l c :
  fam_inv iptype N f -> ip <> IPA_IP_MAX -> clients f !! l = Some c ->
  safe iptype N (power_recover_body CT_OPT hash_order ip l) f.
Proof.
  intros Hinv Hip Hc w. unfold power_recover_body. erewrite bind_eq by by apply get_eq.
  destruct (is_active c || negb (is_powersave c)); [by apply safe_ret|].
  destruct (add_flt_rules_ok _ ip _ _ _ _ w Hinv Hc) as (f1 & w1 & H1 & Hinv1 & Hs1).
  erewrite bind_eq by exact H1. cbn [Z.eqb IPACM_SUCCESS IPACM_FAILURE].
  destruct (same_skel_client _ _ _ _ Hs1 Hc) as (c1 & Hc1 & _). erewrite bind_eq by by apply upd_eq.
  set (c2 := c1 <| is_active := true |> <| is_powersave := false |>).
  assert (fam_inv iptype N (f1 <| clients := <[l := c2]> (clients f1) |>)) as Hinv2.
  { eapply upd_client_inv; try done. exact (tb_iface _ _ _ (fi_table _ _ _ Hinv1) _ _ Hc1). }
  destruct (check_potential_ok iptype ip _ _ l c2 w1 Hinv2 Hip) as (f3 & w3 & H3 & Hinv3 & Hs3);
    [cbn; apply lookup_insert_eq|by left|]. erewrite bind_eq by exact H3.
  destruct (same_skel_client _ _ l c2 Hs3) as (c3 & Hc3 & _); [cbn; apply lookup_insert_eq|].
  destruct (generate_ok iptype ip N f3 l c3 w3 Hinv3 Hc3) as [w4 H4]. eauto.
Qed.

Lemma new_connection_safe iptype ip N f a b ca cb :
  fam_inv iptype N f -> 0 <= N < 2 ^ 31 - 1 -> ip <> IPA_IP_MAX -> a <> b ->
  clients f !! a = Some ca -> clients f !! b = Some cb ->
  safe iptype (N + 1) (new_connection_body ip a b) f.
Proof.
  intros Hinv HN Hip Hab Ha Hb w. unfold new_connection_body.
  destruct (add_connection_ok _ _ _ _ _ _ _ w Hinv HN Hab Ha Hb) as [H1 Hinv1].
  erewrite bind_eq by exact H1. clear H1.
  assert (clients (connected a b ca cb f) !! a = Some (ca <| peer := inc_peer b (peer ca) |>)) as Ha1
    by (cbn; rewrite lookup_insert_ne by done; apply lookup_insert_eq).
  assert (clients (connected a b ca cb f) !! b = Some (cb <| peer := inc_peer a (peer cb) |>)) as Hb1
    by (cbn; apply lookup_insert_eq).
  erewrite bind_eq by by apply get_eq. erewrite bind_eq by by apply get_eq.
  destruct (_ && _) eqn:E; [|by apply safe_ret]. bool_to_prop.
  destruct (new_links_ok iptype ip _ _ a b _ _ w Hinv1 Hip Hab Ha1 Hb1) as (f2 & w2 & H2 & Hinv2 & _);
    [by left..|]. eauto.
Qed.

Lemma drop_links_ok iptype ip N f a b ca cb w :
  fam_inv iptype N f -> a <> b -> clients f !! a = Some ca -> clients f !! b = Some cb ->
  exists f' w', drop_links ip a b (f, w) = Some (tt, (f', w')) /\ fam_inv iptype N f' /\ same_skel f f'.
Proof.
  intros Hinv Hab Ha Hb. unfold drop_links.
  erewrite bind_eq by by apply get_eq. erewrite bind_eq by by apply get_eq.
  destruct (is_active ca && is_active cb); [by eapply erase_offload_link_ok|].
  assert (exists f1 w1, (if is_powersave ca && (is_active cb || is_powersave cb)
    then erase_offload_link ip a b else ret tt) (f, w) = Some (tt, (f1, w1)) /\
    fam_inv iptype N f1 /\ same_skel f f1) as (f1 & w1 & H1 & Hinv1 & Hs1).
  { destruct (_ && _); [by eapply erase_offload_link_ok|by exists f, w]. }
  erewrite bind_eq by exact H1.
  destruct (is_powersave cb && _); [|exists f1, w1; auto].
  destruct (same_skel_client _ _ _ _ Hs1 Ha) as (ca1 & Ha1 & _).
  destruct (same_skel_client _ _ _ _ Hs1 Hb) as (cb1 & Hb1 & _).
  destruct (erase_offload_link_ok iptype ip N f1 b a cb1 ca1 w1) as (f2 & w2 & ? & ? & ?);
    [done|by apply not_eq_sym|done..|].
  exists f2, w2. split; [done|]. split; [done|]. by etrans.
Qed.

Lemma reap_ok iptype N f k l c w :
  fam_inv iptype N f -> client_info_ f !! k = Some l -> clients f !! l = Some c ->
  exists f', reap k l (f, w) = Some (tt, (f', w)) /\ fam_inv iptype N f' /\ (f' = f \/ f' = erased k l f).
Proof.
  intros Hinv Hk Hc. unfold reap. erewrite bind_eq by by apply get_eq.
  destruct (_ && _) eqn:E; [|exists f; split_and!; [done..|by left]]. bool_to_prop.
  match goal with H : bool_decide _ = true |- _ => apply bool_decide_eq_true, length_zero_iff_nil in H end.
  rewrite (erase_client_ok f k l) by done. eexists. split; [reflexivity|]. split; [|by right].
  eapply erased_inv; [done..|]. by eapply (fi_idle _ _ _ Hinv).
Qed.

Lemma del_connection_safe iptype ip N f k1 k2 a b ca cb :
  fam_inv iptype N f -> N < 2 ^ 31 -> k1 <> k2 ->
  client_info_ f !! k1 = Some a -> client_info_ f !! k2 = Some b ->
  clients f !! a = Some ca -> clients f !! b = Some cb ->
  safe iptype N (del_connection_body ip k1 k2 a b) f.
Proof.
  intros Hinv HN Hk Hk1 Hk2 Ha Hb w. unfold del_connection_body.
  pose proof (table_inj _ _ _ _ _ _ _ (fi_table _ _ _ Hinv) Hk1 Hk2 Hk) as Hab.
  destruct (remove_connection_ok _ _ _ _ _ _ _ w Hinv HN Hab Ha Hb) as [H1 Hinv1].
  erewrite bind_eq by exact H1. clear H1. case_bool_decide; [|by apply safe_ret].
  assert (clients (disconnected a b ca cb f) !! a = Some (ca <| peer := dec_peer b (peer ca) |>)) as Ha1
    by (cbn; rewrite lookup_insert_ne by done; apply lookup_insert_eq).
  assert (clients (disconnected a b ca cb f) !! b = Some (cb <| peer := dec_peer a (peer cb) |>)) as Hb1
    by (cbn; apply lookup_insert_eq).
  destruct (drop_links_ok iptype ip _ _ a b _ _ w Hinv1 Hab Ha1 Hb1) as (f2 & w2 & H2 & Hinv2 & Hs2).
  erewrite bind_eq by exact H2.
  destruct (same_skel_client _ _ _ _ Hs2 Ha1) as (ca2 & Ha2 & _).
  destruct (same_skel_client _ _ _ _ Hs2 Hb1) as (cb2 & Hb2 & _).
  destruct Hs2 as (_ & Ht2 & _). change (client_info_ (disconnected a b ca cb f)) with (client_info_ f) in Ht2.
  rewrite Ht2 in Hk1, Hk2.
  destruct (reap_ok iptype N f2 k1 a ca2 w2 Hinv2 Hk1 Ha2) as (f3 & H3 & Hinv3 & Hf3).
  erewrite bind_eq by exact H3.
  assert (client_info_ f3 !! k2 = Some b /\ clients f3 !! b = Some cb2) as [Hk3 Hb3].
  { destruct Hf3 as [-> | ->]; [done|]. cbn. by rewrite !lookup_delete_ne. }
  destruct (reap_ok iptype N f3 k2 b cb2 w2 Hinv3 Hk3 Hb3) as (f4 & H4 & Hinv4 & _). eauto.
Qed.

(** ** Event sequences *)

Definition lan_inv (N : Z) (o : IPACM_LanToLan (Iface := Iface)) : Prop :=
  fam_inv IPA_IP_v4 N (fam_v4 o) /\ fam_inv IPA_IP_v6 N (fam_v6 o).

Lemma lan_inv_fam N o ip : lan_inv N o -> ip <> IPA_IP_MAX -> fam_inv ip N (fam_of ip o).
Proof. intros [? ?]. by destruct ip. Qed.

Lemma on_safe N N' ip m o w :
  lan_inv N o -> N <= N' -> ip <> IPA_IP_MAX -> safe ip N' m (fam_of ip o) ->
  exists o' w', on ip m (o, w) = Some (tt, (o', w')) /\ lan_inv N' o'.
Proof.
  intros [H4 H6] HN Hip Hs. destruct (Hs w) as (f' & w' & Hm & Hi). unfold on. cbn [fst snd]. rewrite Hm.
  eexists _, _. split; [reflexivity|].
  destruct ip; [| |done]; split; cbn; eauto using fam_inv_mono.
Qed.

Lemma lan_client_safe N N' o w data body :
  lan_inv N o -> N <= N' ->
  (forall d i, data = Some d -> lc_iptype d <> IPA_IP_MAX -> fam_inv (lc_iptype d) N (fam_of (lc_iptype d) o) ->
     safe (lc_iptype d) N' (body d i) (fam_of (lc_iptype d) o)) ->
  exists o' w', lan_client data body (o, w) = Some (tt, (o', w')) /\ lan_inv N' o'.
Proof.
  intros Hinv HN Hb. assert (lan_inv N' o) as Hinv'
    by (destruct Hinv; split; by eapply fam_inv_mono).
  unfold lan_client. destruct data as [d|]; [|by exists o, w].
  destruct (lc_p_iface d) as [i|]; [|by exists o, w]. case_bool_decide; [by exists o, w|].
  eapply on_safe; try done. apply Hb; [done..|]. by apply lan_inv_fam.
Qed.

(** An event with the node a new client would get.  [ev_ok]: the payload fits
    the event, the allocator returns a node that is not in use, and a connection
    has two different ends, as those the program posts have. *)
Definition lan_event : Type := loc * ipa_cm_event_id * lan_payload (Iface := Iface).

Definition ev_ok (o : IPACM_LanToLan (Iface := Iface)) (e : lan_event) : Prop :=
  let '(nw, ev, p) := e in
  match p with
  | LanClient d =>
      ev <> IPA_LAN_TO_LAN_NEW_CONNECTION /\ ev <> IPA_LAN_TO_LAN_DEL_CONNECTION /\
      clients (fam_v4 o) !! nw = None /\ clients (fam_v6 o) !! nw = None
  | LanConn cn =>
      (ev = IPA_LAN_TO_LAN_NEW_CONNECTION \/ ev = IPA_LAN_TO_LAN_DEL_CONNECTION) /\
      cn_iptype cn <> IPA_IP_MAX /\ src_key cn <> dst_key cn
  end.

Definition lan_step (e : lan_event) (s : IPACM_LanToLan (Iface := Iface) * W) : option (IPACM_LanToLan (Iface := Iface) * W) :=
  snd <$> event_callback CT_OPT hash_order e.1.1 e.1.2 e.2 s.

Fixpoint lan_run (es : list lan_event) (s : IPACM_LanToLan (Iface := Iface) * W) : option (IPACM_LanToLan (Iface := Iface) * W) :=
  match es with [] => Some s | e :: es => s ← lan_step e s; lan_run es s end.

(** Every event of the sequence is possible in the state it arrives in. *)
Fixpoint run_ok (es : list lan_event) (s : IPACM_LanToLan (Iface := Iface) * W) : Prop :=
  match es with
  | [] => True
  | e :: es => ev_ok s.1 e /\ forall s', lan_step e s = Some s' -> run_ok es s'
  end.

Lemma handler_step N (h : IPACM_LanToLan (Iface := Iface) * W -> option (unit * (IPACM_LanToLan (Iface := Iface) * W))) o w :
  (exists o' w', h (o, w) = Some (tt, (o', w')) /\ lan_inv N o') ->
  exists o' w', snd <$> h (o, w) = Some (o', w') /\ lan_inv N o'.
Proof. intros (o' & w' & -> & ?). by exists o', w'. Qed.

Lemma safe_mono ip N N' m f : safe ip N m f -> N <= N' -> safe ip N' m f.
Proof. intros Hs HN w. destruct (Hs w) as (f' & w' & ? & ?). eauto using fam_inv_mono. Qed.

(** The client events, whose bodies run on the client of the event's key. *)
Lemma found_client_safe N o w data (body : ipa_ip_type -> Z -> loc -> M (Iface := Iface) (W := W) unit) :
  lan_inv N o ->
  (forall ip k f l c, fam_inv ip N f -> ip <> IPA_IP_MAX -> client_info_ f !! k = Some l ->
     clients f !! l = Some c -> safe ip N (body ip k l) f) ->
  exists o' w', lan_client data (fun d _ => found (data_key d) (body (lc_iptype d) (data_key d))) (o, w)
    = Some (tt, (o', w')) /\ lan_inv N o'.
Proof.
  intros Hinv Hb. eapply (lan_client_safe N); [done|lia|]. intros d i _ Hip Hf.
  eapply (found_safe _ N N); [done|lia|]. intros l c Hl Hc _. by eapply Hb.
Qed.

Lemma client_event_safe N o w nw ev d :
  lan_inv N o -> clients (fam_v4 o) !! nw = None -> clients (fam_v6 o) !! nw = None ->
  ev <> IPA_LAN_TO_LAN_NEW_CONNECTION -> ev <> IPA_LAN_TO_LAN_DEL_CONNECTION ->
  exists o' w', event_callback CT_OPT hash_order nw ev (LanClient d) (o, w) = Some (tt, (o', w')) /\ lan_inv N o'.
Proof.
  intros Hinv H4 H6 Hn1 Hn2.
  destruct ev; try done; try (by exists o, w); unfold event_callback.
  - eapply (lan_client_safe N); [done|lia|]. intros d' i _ Hip Hf. apply active_safe; [done..|].
    by destruct (lc_iptype d').
  - apply found_client_safe; [done|]. intros. by eapply inactive_safe.
  - apply found_client_safe; [done|]. intros. by eapply disconnect_safe.
  - apply (found_client_safe _ _ _ _ (fun ip _ => power_save_body ip)); [done|].
    intros. by eapply power_save_safe.
  - apply (found_client_safe _ _ _ _ (fun ip _ => power_recover_body CT_OPT hash_order ip)); [done|].
    intros. by eapply power_recover_safe.
Qed.

Lemma new_conn_event_safe N o w cn :
  lan_inv N o -> 0 <= N < 2 ^ 31 - 1 -> cn_iptype cn <> IPA_IP_MAX -> src_key cn <> dst_key cn ->
  exists o' w', handle_new_lan2lan_connection cn (o, w) = Some (tt, (o', w')) /\ lan_inv (N + 1) o'.
Proof.
  intros Hinv HN Hip Hk. pose proof (lan_inv_fam _ _ _ Hinv Hip) as Hf.
  eapply (on_safe N); [done|lia|done|].
  eapply (found_safe _ N); [done|lia|]. intros a ca Ha Hca _.
  eapply (found_safe _ N); [done|lia|]. intros b cb Hb Hcb _.
  pose proof (table_inj _ _ _ _ _ _ _ (fi_table _ _ _ Hf) Ha Hb Hk). by eapply new_connection_safe.
Qed.

Lemma del_conn_event_safe N o w cn :
  lan_inv N o -> 0 <= N < 2 ^ 31 - 1 -> cn_iptype cn <> IPA_IP_MAX -> src_key cn <> dst_key cn ->
  exists o' w', handle_del_lan2lan_connection cn (o, w) = Some (tt, (o', w')) /\ lan_inv N o'.
Proof.
  intros Hinv HN Hip Hk. pose proof (lan_inv_fam _ _ _ Hinv Hip) as Hf.
  eapply (on_safe N); [done|lia|done|].
  eapply (found_safe _ N); [done|lia|]. intros a ca Ha Hca _.
  eapply (found_safe _ N); [done|lia|]. intros b cb Hb Hcb _.
  eapply del_connection_safe; try done. lia.
Qed.

Lemma lan_step_safe N o w e :
  lan_inv N o -> 0 <= N < 2 ^ 31 - 1 -> ev_ok o e ->
  exists o' w', lan_step e (o, w) = Some (o', w') /\ lan_inv (N + 1) o'.
Proof.
  intros Hinv HN He. destruct e as [[nw ev] p]. unfold lan_step. cbn [fst snd]. apply handler_step.
  assert (forall h, (exists o' w', h (o, w) = Some (tt, (o', w')) /\ lan_inv N o') ->
    exists o' w', h (o, w) = Some (tt, (o', w')) /\ lan_inv (N + 1) o') as Hmono.
  { intros h (o' & w' & Hh & [? ?]). exists o', w'. split; [done|]. split; (eapply fam_inv_mono; [done|lia]). }
  destruct p as [d|cn]; cbn in He.
  - destruct He as (? & ? & ? & ?). apply Hmono. by apply client_event_safe.
  - destruct He as ([-> | ->] & Hip & Hk).
    + by apply new_conn_event_safe.
    + apply Hmono. by apply del_conn_event_safe.
Qed.

Lemma lan_run_safe N o w es :
  lan_inv N o -> 0 <= N -> N + Z.of_nat (length es) < 2 ^ 31 -> run_ok es (o, w) ->
  exists o' w', lan_run es (o, w) = Some (o', w') /\ lan_inv (N + Z.of_nat (length es)) o'.
Proof.
  revert N o w. induction es as [|e es IH]; intros N o w Hinv HN Hlen Hok'.
  - exists o, w. simpl. by rewrite Z.add_0_r.
  - simpl in Hlen. destruct Hok' as [He Hrest].
    destruct (lan_step_safe N o w e Hinv) as (o1 & w1 & H1 & Hinv1); [lia|done|].
    simpl. rewrite H1. simpl. destruct (IH (N + 1) o1 w1) as (o2 & w2 & H2 & Hinv2); [done|lia|lia|by apply Hrest|].
    exists o2, w2. split; [done|]. replace (N + Z.of_nat (S (length es))) with (N + 1 + Z.of_nat (length es)) by lia.
    done.
Qed.

Lemma ctor_inv : lan_inv 0 (IPACM_LanToLan_ctor (Iface := Iface)).
Proof.
  assert (forall ip, fam_inv ip 0 (empty_family (Iface := Iface))) as H; [|by split].
  intros ip. split; cbn.
  - split; [|done]. intros k l. rewrite !lookup_empty. split; [done|]. by intros (c & ? & _).
  - done.
  - rewrite fmap_empty. by split.
  - rewrite fmap_empty. by split.
Qed.

(** C6. Under a driver none of whose calls fails, no sequence of fewer than
    [2^31] LAN-to-LAN events from construction ever follows the pointer of an
    erased client: every run is defined and ends in a state in which peers and
    offload links are symmetric and stay inside the tables, connection counts are
    positive, the pair counters count the links and are at most
    [MAX_OFFLOAD_PAIR], and a client neither active nor asleep has no link. *)
Theorem lan2lan_safe es w :
  Z.of_nat (length es) < 2 ^ 31 -> run_ok es (IPACM_LanToLan_ctor, w) ->
  exists o' w', lan_run es (IPACM_LanToLan_ctor, w) = Some (o', w') /\ lan_inv (Z.of_nat (length es)) o'.
Proof. intros Hlen Hr. by apply (lan_run_safe 0); [apply ctor_inv| | |]. Qed.

Lemma disconnect_eq iptype ip N f k l c w :
  fam_inv iptype N f -> client_info_ f !! k = Some l -> clients f !! l = Some c ->
  exists w', disconnect_body ip k l (f, w) =
    Some (tt, (erased k l (unpeered l (c <| link := [] |>) (unlinked l c f)), w')).
Proof.
  intros Hinv Hk Hc. unfold disconnect_body.
  destruct (turnoff_ok _ ip _ _ _ _ w Hinv Hc) as [w1 H1]. erewrite bind_eq by exact H1.
  pose proof (unlinked_inv _ _ _ _ _ Hinv Hc) as Hinv1. pose proof (unlinked_client l c f) as Hc1.
  erewrite bind_eq by by eapply clear_peer_list_ok.
  erewrite erase_client_ok by exact Hk. by exists w1.
Qed.

(** What another client keeps when the client at [l] goes. *)
Definition forget_client (l : loc) c : client_info := cut_peers l (cut_links l c).

(** A client that disconnects is forgotten: its entry and node are gone,
    every other client loses exactly its links to and its record of it, and the
    pair counter goes down by the number of its links. *)
Theorem disconnect_forgets N o w d l c :
  lan_inv N o -> is_Some (lc_p_iface d) -> lc_iptype d <> IPA_IP_MAX ->
  client_info_ (fam_of (lc_iptype d) o) !! data_key d = Some l ->
  clients (fam_of (lc_iptype d) o) !! l = Some c ->
  exists f' w', handle_client_disconnect (Some d) (o, w) = Some (tt, (set_fam (lc_iptype d) f' o, w')) /\
    let f := fam_of (lc_iptype d) o in
    client_info_ f' = delete (data_key d) (client_info_ f) /\ clients f' !! l = None /\
    (forall x, x <> l -> clients f' !! x = forget_client l <$> clients f !! x) /\
    num_offload_pair_ f' = num_offload_pair_ f - Z.of_nat (length (link c)) /\
    connection_ f' = connection_ f.
Proof.
  intros Hinv [i Hi] Hip Hk Hc. pose proof (lan_inv_fam _ _ _ Hinv Hip) as Hf.
  destruct (disconnect_eq _ (lc_iptype d) _ _ _ _ _ w Hf Hk Hc) as [w' H].
  eexists _, w'. split.
  - unfold handle_client_disconnect, lan_client. rewrite Hi, bool_decide_eq_false_2 by done.
    unfold on, found. cbn [fst snd]. erewrite bind_eq by apply get_fam_eq. rewrite Hk, H. reflexivity.
  - cbn. split_and!; [done|apply lookup_delete_eq| |done|done].
    intros x Hx. rewrite lookup_delete_ne, lookup_insert_ne, lookup_fmap, lookup_insert_ne, lookup_fmap by done.
    by destruct (clients (fam_of (lc_iptype d) o) !! x).
Qed.

(** The number of connections the clients at [a] and [b] have. *)
Definition conn_count f (a b : loc) : option Z := npeer (peer <$> clients f) a b.

Lemma dec_inc_count o : (forall n, o = Some n -> 0 < n) -> dec_count (inc_count o) = o.
Proof.
  intros Hn. unfold dec_count, inc_count. simpl. destruct o as [n|]; simpl; [|done].
  specialize (Hn n eq_refl). replace (n + 1 - 1) with n by lia. by rewrite (proj2 (Z.eqb_neq n 0)) by lia.
Qed.

(** C30. A connection that comes and goes leaves the connection counts of all
    pairs of clients and all offload links as they were, and the last removal
    reports [true] exactly when the addition reported the first connection. *)
Theorem connection_roundtrip iptype N f a b ca cb w :
  fam_inv iptype N f -> 0 <= N < 2 ^ 31 - 1 -> a <> b ->
  clients f !! a = Some ca -> clients f !! b = Some cb ->
  exists r f1 f2, add_connection a b (f, w) = Some (r, (f1, w)) /\
    remove_connection a b (f1, w) = Some (r, (f2, w)) /\
    r = bool_decide (conn_count f a b = None) /\
    (forall x y, conn_count f2 x y = conn_count f x y) /\
    link <$> clients f2 = link <$> clients f.
Proof.
  intros Hinv HN Hab Ha Hb. pose proof (fi_peers _ _ _ Hinv) as Hp.
  destruct (add_connection_ok _ _ _ _ _ _ _ w Hinv HN Hab Ha Hb) as [H1 Hinv1].
  set (ca1 := ca <| peer := inc_peer b (peer ca) |>). set (cb1 := cb <| peer := inc_peer a (peer cb) |>).
  destruct (remove_connection_ok _ _ (connected a b ca cb f) a b ca1 cb1 w Hinv1) as [H2 _];
    [lia|done|cbn; rewrite lookup_insert_ne by done; apply lookup_insert_eq|cbn; apply lookup_insert_eq|].
  pose proof (conns_sym _ _ _ _ _ _ Hp Ha Hb) as Hs.
  pose proof (peers_field _ _ _ Ha) as Hfa. pose proof (peers_field _ _ _ Hb) as Hfb.
  assert (forall n, conns_with b (peer ca) = Some n -> 0 < n) as Hpos
    by (intros n Hn; pose proof (conns_pos _ _ _ _ _ _ Hp Ha Hn); lia).
  exists (bool_decide (conns_with b (peer ca) = None)). eexists _, _. split; [exact H1|]. split; [|split; [|split]].
  - rewrite H2. repeat f_equal. apply bool_decide_ext. cbn. rewrite conns_with_inc, decide_True by done.
    unfold inc_count. destruct (conns_with b (peer ca)) as [n|]; simpl; [|done].
    specialize (Hpos n eq_refl). split; [|done]. intros [= ?]. lia.
  - unfold conn_count, npeer. by rewrite Hfa.
  - intros x y. unfold conn_count, disconnected, connected. cbn. rewrite !fmap_insert, !npeer_insert. cbn.
    pose proof (pr_nodup _ _ Hp _ _ Hfa). pose proof (pr_nodup _ _ Hp _ _ Hfb).
    rewrite !conns_with_dec, !conns_with_inc by by apply inc_peer_nodup.
    rewrite !(decide_True _ _ (eq_refl)), Hs, dec_inc_count by done. unfold npeer.
    destruct (decide (x = b)) as [->|]; [|destruct (decide (x = a)) as [->|]; [|done]].
    + rewrite Hfb. simpl. destruct (decide (y = a)) as [->|]; done.
    + rewrite Hfa. simpl. destruct (decide (y = b)) as [->|]; done.
  - unfold disconnected, connected. cbn. rewrite !fmap_insert. cbn.
    pose proof (insert_id2 _ a b _ _ (links_field _ _ _ Ha) (links_field _ _ _ Hb)) as E. by rewrite !E.
Qed.
End handlers.

(** ** A concrete run: a wireless and a wired client connect, one of them leaves *)

#[export] Instance ev_ok_dec {Iface} (o : IPACM_LanToLan (Iface := Iface)) e : Decision (ev_ok o e).
Proof. destruct e as [[nw ev] [d|cn]]; cbn; apply _. Defined.

Fixpoint run_okb {Iface W} `{LanIface Iface W} (ct : bool) ho (es : list (lan_event (Iface := Iface)))
    (s : IPACM_LanToLan * W) : bool :=
  match es with
  | [] => true
  | e :: es => bool_decide (ev_ok s.1 e) &&
               match lan_step ct ho e s with Some s => run_okb ct ho es s | None => true end
  end.

Lemma run_okb_sound {Iface W} `{LanIface Iface W} ct ho es s :
  run_okb ct ho es s = true -> run_ok ct ho es s.
Proof.
  revert s. induction es as [|e es IH]; intros s; simpl; [done|].
  intros [He Hr]%andb_prop. split; [by apply bool_decide_eq_true in He|].
  intros s' Hs. rewrite Hs in Hr. auto.
Qed.

Definition ex_client (a : Z) (i : nat) : ipacm_event_lan_client :=
  {| lc_iptype := IPA_IP_v4; lc_ipv4_addr := a; lc_ipv6_addr := (0, 0, 0, 0);
     lc_mac_addr := replicate 6 a; lc_p_iface := Some i |}.
Definition ex_conn (a b : Z) : ipacm_event_connection :=
  {| cn_iptype := IPA_IP_v4; src_ipv4_addr := a; dst_ipv4_addr := b;
     src_ipv6_addr := (0, 0, 0, 0); dst_ipv6_addr := (0, 0, 0, 0) |}.

Definition ev_active (nw : loc) (a : Z) (i : nat) : lan_event :=
  (nw, IPA_LAN_CLIENT_ACTIVE, LanClient (Some (ex_client a i))).
Definition ev_client (ev : ipa_cm_event_id) (a : Z) (i : nat) : lan_event :=
  (99%positive, ev, LanClient (Some (ex_client a i))).
Definition ev_new (a b : Z) : lan_event (Iface := nat) :=
  (99%positive, IPA_LAN_TO_LAN_NEW_CONNECTION, LanConn (ex_conn a b)).

Definition ex_pair : list lan_event := [ev_active 1%positive 100 0; ev_active 2%positive 200 1; ev_new 100 200].
Definition never : nat -> bool := fun _ => false.

(** The state after [ex_pair]. *)
Definition ex_state : IPACM_LanToLan * simple_world :=
  default (IPACM_LanToLan_ctor, simple_init)
    (lan_run (HI := simple_iface never) false map_to_list ex_pair (IPACM_LanToLan_ctor, simple_init)).

Lemma ex_state_inv : lan_inv 3 ex_state.1.
Proof.
  destruct (lan_run_safe (HI := simple_iface never) (Hok := simple_ok) false map_to_list
    (fun m => reflexivity _) 0 IPACM_LanToLan_ctor simple_init ex_pair) as (o & w & Hr & Hi);
    [apply ctor_inv|done|done|by apply run_okb_sound; vm_compute|].
  unfold ex_state. rewrite Hr. exact Hi.
Qed.

Lemma lan2lan_safe_witness :
  exists o w, lan_run (HI := simple_iface never) false map_to_list
    (ex_pair ++ [ev_client IPA_LAN_CLIENT_POWER_SAVE 100 0; ev_client IPA_LAN_CLIENT_DISCONNECT 200 1])
    (IPACM_LanToLan_ctor, simple_init) = Some (o, w) /\ lan_inv 5 o.
Proof.
  apply (lan2lan_safe (HI := simple_iface never) (Hok := simple_ok) false map_to_list
    (fun m => reflexivity _)); [reflexivity|].
  apply run_okb_sound. vm_compute. reflexivity.
Defined.

Lemma ex_table : client_info_ (fam_v4 ex_state.1) !! 100 = Some 1%positive /\
  client_info_ (fam_v4 ex_state.1) !! 200 = Some 2%positive.
Proof. by vm_compute. Qed.

Lemma ex_client_1 : exists c, clients (fam_v4 ex_state.1) !! 1%positive = Some c.
Proof. eexists. vm_compute. reflexivity. Qed.
Lemma ex_client_2 : exists c, clients (fam_v4 ex_state.1) !! 2%positive = Some c.
Proof. eexists. vm_compute. reflexivity. Qed.

Lemma disconnect_forgets_witness :
  exists f' w', handle_client_disconnect (HI := simple_iface never) (Some (ex_client 200 1)) (ex_state.1, ex_state.2) =
    Some (tt, (set_fam IPA_IP_v4 f' ex_state.1, w')) /\
    clients f' !! 2%positive = None.
Proof.
  destruct ex_client_2 as [c Hc].
  destruct (disconnect_forgets (HI := simple_iface never) (Hok := simple_ok) 3 ex_state.1 ex_state.2
    (ex_client 200 1) 2%positive c ex_state_inv) as (f' & w' & H & _ & Hn & _);
    [by exists 1%nat|done|exact (proj2 ex_table)|exact Hc|].
  exists f', w'. split; [exact H|exact Hn].
Defined.

Lemma connection_roundtrip_witness :
  exists r f1 f2, add_connection 1%positive 2%positive (fam_v4 ex_state.1, simple_init) = Some (r, (f1, simple_init)) /\
    remove_connection 1%positive 2%positive (f1, simple_init) = Some (r, (f2, simple_init)) /\ r = false.
Proof.
  destruct ex_client_1 as [c1 Hc1], ex_client_2 as [c2 Hc2].
  destruct (connection_roundtrip IPA_IP_v4 3 (fam_v4 ex_state.1) 1%positive 2%positive c1 c2 simple_init)
    as (r & f1 & f2 & H1 & H2 & Hr & _); [exact (proj1 ex_state_inv)|lia|lia|exact Hc1|exact Hc2|].
  exists r, f1, f2. split; [exact H1|]. split; [exact H2|]. rewrite Hr. by vm_compute.
Defined.
