(* ===== verification/LanEvents.v ===== *)
(** * LAN-to-LAN offload: links, events and the connection cache, one by one

    The all-or-nothing behaviour of [add_offload_link], the events
    [generate_new_connection] and [check_cache_connection] post, the bounds of the
    connection cache, and two runs in which the offload goes wrong. *)
From S2P Require Import Prelude Defs Heap Config LanToLan LanDriver LanGraph LanToLanProps.
From stdpp Require Import base list gmap strings.
From Stdlib Require Import ZArith Lia.

Open Scope Z_scope.

Section events.
Context {Iface W : Type} `{HI : LanIface Iface W}.
Implicit Types (f : family (Iface := Iface)) (c : client_info (Iface := Iface)) (w : W).

(** ** One link *)

(** The three items of the link [k] from a client on [i] to a peer on [j]. *)
Definition link_items (ip : ipa_ip_type) (i j : Iface) (k : offload_link_info) : list (hw_item Iface) :=
  [Flt i ip (flt_rule_hdl k); Rt j ip (rt_rule_hdl k); Hdr j ip (hdr_hdl k)].

Lemma adds_ok live_ r x w w' :
  adds (Iface := Iface) live_ r x w w' -> r <> IPACM_FAILURE ->
  ~ live_ w x /\ forall y, live_ w' y <-> y = x \/ live_ w y.
Proof. unfold adds. intros H Hr. by rewrite (proj2 (Z.eqb_neq _ _) Hr) in H. Qed.

Lemma adds_fail live_ x w w' :
  adds (Iface := Iface) live_ IPACM_FAILURE x w w' -> forall y, live_ w' y <-> live_ w y.
Proof. done. Qed.

(** Removing what was just added restores the set of installed items. *)
Lemma removes_added (live_ : W -> hw_item Iface -> Prop) r r' x w0 w w' w'' :
  (forall y, live_ w y <-> live_ w0 y) -> adds live_ r x w w' -> r <> IPACM_FAILURE ->
  forall w1, (forall y, live_ w1 y <-> live_ w' y) -> removes live_ r' x w1 w'' ->
  forall y, live_ w'' y <-> live_ w0 y.
Proof.
  intros H0 Ha Hr w1 H1 Hrm y. destruct (adds_ok _ _ _ _ _ Ha Hr) as [Hn Hy].
  assert (live_ w1 x) as Hx by (apply H1, Hy; by left).
  destruct (Hrm Hx) as [_ Hy'].
  rewrite Hy', H1, Hy, H0. split; [tauto|]. intros H. split; [|by right].
  intros ->. by apply Hn, H0.
Qed.

Context `{HL : !LanIfaceLive Iface W}.

(** [add_offload_link] is all or nothing: it either appends one link to the
    client and installs exactly the header, the routing rules and the filter rule
    whose handles the link records, or, on whichever of the three calls fails,
    reports failure with the clients, the pair counter and the set of installed
    items as they were.  This is relative to the contract [LanIfaceLive], which the
    methods of [IPACM_Lan] keep only if no routing rule of a link fails
    (IPACM_Lan.cpp:3913) and there is a tx property of the IP type (:3609). *)
Theorem add_offload_link_atomic ip a b f w r f' w' :
  add_offload_link ip a b (f, w) = Some (r, (f', w')) ->
  (r = IPACM_FAILURE /\ f' = f /\ forall y, live w' y <-> live w y) \/
  (r = IPACM_SUCCESS /\ exists ca cb i j k,
     clients f !! a = Some ca /\ clients f !! b = Some cb /\ p_iface ca = Some i /\ p_iface cb = Some j /\
     link_peer k = b /\ f' = f <| clients := <[a := ca <| link := link ca ++ [k] |>]> (clients f) |> /\
     forall y, live w' y <-> y ∈ link_items ip i j k \/ live w y).
Proof.
  unfold add_offload_link. erewrite bind_eq by apply get_fam_eq.
  destruct (_ && _); [intros [= <- <- <-]; by left|].
  destruct (bool_decide _); [intros [= <- <- <-]; by left|].
  unfold bind at 1, get at 1. cbn [fst]. destruct (clients f !! a) as [ca|] eqn:Ha; [|done].
  unfold bind at 1, get at 1. cbn [fst]. destruct (clients f !! b) as [cb|] eqn:Hb; [|done].
  destruct (p_iface cb) as [j|] eqn:Hj; [|done]. erewrite bind_eq by reflexivity.
  pose proof (live_add_hdr j ip (mac_addr ca) (mac_addr cb) w) as Lh.
  erewrite bind_eq by apply hw_eq. destruct (add_lan2lan_hdr _ _ _ _ w) as [[rh h] wh]. cbn [fst snd].
  destruct (Z.eqb_spec rh IPACM_FAILURE) as [-> |Hrh]; [intros [= <- <- <-]; by left|].
  match goal with |- context [add_lan2lan_rt_rule j ip ?x1 ?x2 ?x3 ?x4 h] =>
    pose proof (live_add_rt j ip x1 x2 x3 x4 h wh) as Lr end.
  erewrite bind_eq by apply hw_eq. destruct (add_lan2lan_rt_rule _ _ _ _ _ _ _ wh) as [[rr k] wr]. cbn [fst snd].
  destruct (Z.eqb_spec rr IPACM_FAILURE) as [-> |Hrr].
  { pose proof (live_del_hdr j ip h wr) as Ld.
    erewrite bind_eq by apply hw_eq. destruct (del_lan2lan_hdr _ _ _ wr) as [rd wd]. cbn [fst snd].
    intros [= <- <- <-]. left. split; [done|]. split; [done|].
    by apply (removes_added live rh rd (Hdr j ip h) w w wh wd (fun _ => reflexivity _) Lh Hrh wr Lr). }
  destruct (p_iface ca) as [i|] eqn:Hi; [|done]. erewrite bind_eq by reflexivity.
  match goal with |- context [add_lan2lan_flt_rule i ip ?x1 ?x2 ?x3 ?x4] =>
    pose proof (live_add_flt i ip x1 x2 x3 x4 wr) as Lf end.
  erewrite bind_eq by apply hw_eq. destruct (add_lan2lan_flt_rule _ _ _ _ _ _ wr) as [[rf t] wf]. cbn [fst snd].
  destruct (Z.eqb_spec rf IPACM_FAILURE) as [-> |Hrf].
  - pose proof (live_del_rt j ip k wf) as Ldr.
    erewrite bind_eq by apply hw_eq. destruct (del_lan2lan_rt_rule _ _ _ wf) as [rd1 wd1]. cbn [fst snd].
    pose proof (live_del_hdr j ip h wd1) as Ldh.
    erewrite bind_eq by apply hw_eq. destruct (del_lan2lan_hdr _ _ _ wd1) as [rd2 wd2]. cbn [fst snd].
    intros [= <- <- <-]. left. split; [done|]. split; [done|].
    pose proof (removes_added live rr rd1 (Rt j ip k) wh wh wr wd1 (fun _ => reflexivity _) Lr Hrr wf Lf Ldr) as H1.
    by apply (removes_added live rh rd2 (Hdr j ip h) w w wh wd2 (fun _ => reflexivity _) Lh Hrh wd1 H1).
  - erewrite bind_eq by by apply upd_eq. intros [= <- <- <-]. right. split; [done|].
    exists ca, cb, i, j, {| link_peer := b; flt_rule_hdl := t; rt_rule_hdl := k; hdr_hdl := h |}.
    split_and!; try done. intros y.
    rewrite (proj2 (adds_ok _ _ _ _ _ Lf Hrf)), (proj2 (adds_ok _ _ _ _ _ Lr Hrr)),
      (proj2 (adds_ok _ _ _ _ _ Lh Hrh)).
    unfold link_items. rewrite !elem_of_cons, elem_of_nil. cbn. tauto.
Qed.

(** ** Events *)

Context `{HP : !LanPostOk Iface W}.
Context (hash_order : gmap Z loc -> list (Z * loc)).
Hypothesis hash_order_ok : forall m, hash_order m ≡ₚ map_to_list m.

(** The peers [generate_new_connection] picks: active and of another category. *)
Definition qualified (w : W) (ty : ipacm_iface_type) c : bool :=
  match p_iface c with
  | Some j => negb (bool_decide (if_category j w = ty)) && is_active c
  | None => false
  end.

Definition peers_of f (l : list (Z * loc)) : list client_info := omap (fun e => clients f !! e.2) l.

(** The event for the peer [p]. *)
Definition new_conn_event (ip : ipa_ip_type) c p : ipa_cm_event_id * ipacm_event_connection :=
  (IPA_LAN_TO_LAN_NEW_CONNECTION, conn_between ip c p).

Definition same_cats (w w' : W) : Prop := forall i, if_category i w' = if_category i w.

Lemma generate_one_ok ip a c ty e p f w :
  clients f !! a = Some c -> clients f !! e.2 = Some p -> is_Some (p_iface p) ->
  exists w', generate_one ip a ty e (f, w) = Some (None, (f, w')) /\ same_cats w w' /\
    posted w' = posted w ++ (if qualified w ty p then [new_conn_event ip c p] else []).
Proof.
  intros Ha Hp [j Hj]. unfold generate_one, qualified. erewrite bind_eq by by apply get_eq.
  rewrite Hj. unfold get_cat. erewrite bind_eq; [|by erewrite bind_eq by reflexivity].
  cbn [snd]. destruct (negb _ && _).
  - erewrite bind_eq by by apply get_eq. erewrite bind_eq by apply hw_eq.
    destruct (post_ok IPA_LAN_TO_LAN_NEW_CONNECTION (conn_between ip c p) w) as [E1 E2]. rewrite E1.
    eexists. split; [reflexivity|]. split; [|exact E2]. intros i. apply post_cat.
  - exists w. split; [done|]. split; [by intros i|]. by rewrite app_nil_r.
Qed.

Lemma qualified_cats w w' ty p : same_cats w w' -> qualified w' ty p = qualified w ty p.
Proof. intros Hc. unfold qualified. destruct (p_iface p); [|done]. by rewrite Hc. Qed.

Lemma generate_loop_ok ip a c ty l f w :
  clients f !! a = Some c ->
  (forall e, e ∈ l -> exists p, clients f !! e.2 = Some p /\ is_Some (p_iface p)) ->
  exists w', for_each (generate_one ip a ty) l (f, w) = Some (None, (f, w')) /\
    posted w' = posted w ++ (new_conn_event ip c <$> filter (fun p => qualified w ty p = true) (peers_of f l)).
Proof.
  intros Ha. revert w. induction l as [|e l IH]; intros w Hl.
  - exists w. split; [done|]. by rewrite app_nil_r.
  - destruct (Hl e) as (p & Hp & Hi); [left|].
    destruct (generate_one_ok ip a c ty e p f w Ha Hp Hi) as (w1 & H1 & Hc & P1).
    erewrite for_each_next by exact H1.
    destruct (IH w1) as (w2 & H2 & P2); [intros; apply Hl; by right|].
    exists w2. split; [exact H2|]. rewrite P2, P1, <- app_assoc. f_equal.
    change (peers_of f (e :: l)) with (omap (fun e => clients f !! e.2) (e :: l)). csimpl. rewrite Hp, filter_cons.
    rewrite (list_filter_iff _ (fun p => qualified w ty p = true)) by (intros x; by rewrite (qualified_cats w w1)).
    destruct (qualified w ty p), (decide _); done.
Qed.

(** Without [CT_OPT], [generate_new_connection] posts one new-connection
    event for each active client of the table whose interface is of another
    category, in the order of the table, and changes nothing else. *)
Theorem generate_posts ip N f a c i w :
  fam_inv ip N f -> ip <> IPA_IP_MAX -> clients f !! a = Some c -> p_iface c = Some i ->
  exists w', generate_new_connection false hash_order ip a (f, w) = Some (tt, (f, w')) /\
    posted w' = posted w ++ (new_conn_event ip c <$>
      filter (fun p => qualified w (if_category i w) p = true) (peers_of f (hash_order (client_info_ f)))).
Proof.
  intros Hinv Hip Ha Hi. unfold generate_new_connection. erewrite bind_eq by by apply get_eq.
  rewrite Hi. unfold get_cat. erewrite bind_eq; [|by erewrite bind_eq by reflexivity].
  destruct (generate_loop_ok ip a c (if_category i w) (hash_order (client_info_ f)) f w Ha) as (w' & H & P).
  { intros [k l]. rewrite hash_order_ok, elem_of_map_to_list. intros Hk.
    destruct (table_node _ _ _ _ _ (fi_table _ _ _ Hinv) Hk) as (p & Hp & _). exists p. split; [done|].
    exact (tb_iface _ _ _ (fi_table _ _ _ Hinv) _ _ Hp). }
  exists w'. split; [|exact P].
  destruct ip; [| |done]; erewrite bind_eq by apply get_fam_eq; by erewrite bind_eq by exact H.
Qed.

(** The cached connections that concern the client [c] and the others. *)
Definition cache_hits (ip : ipa_ip_type) f c : list ipacm_event_connection :=
  filter (fun it => cache_hit ip f c it = true) (connection_ f).
Definition cache_misses (ip : ipa_ip_type) f c : list ipacm_event_connection :=
  filter (fun it => cache_hit ip f c it = false) (connection_ f).

Lemma check_cache_loop_posts ip a c l f w :
  clients f !! a = Some c ->
  exists w', check_cache_loop ip a l (f, w) =
      Some (filter (fun it => cache_hit ip f c it = false) l, (f, w')) /\
    posted w' = posted w ++ (pair IPA_LAN_TO_LAN_NEW_CONNECTION <$>
      filter (fun it => cache_hit ip f c it = true) l).
Proof.
  intros Ha. revert w. induction l as [|it l IH]; intros w.
  - exists w. split; [done|]. by rewrite app_nil_r.
  - cbn [check_cache_loop]. erewrite bind_eq by apply get_fam_eq. erewrite bind_eq by by apply get_eq.
    rewrite !filter_cons. destruct (cache_hit ip f c it) eqn:E.
    + rewrite decide_False, decide_True by done.
      destruct (post_ok IPA_LAN_TO_LAN_NEW_CONNECTION it w) as [E1 E2].
      erewrite bind_eq by apply hw_eq. rewrite E1.
      destruct (IH (post_conn IPA_LAN_TO_LAN_NEW_CONNECTION it w).2) as (w' & H & P).
      exists w'. split; [exact H|]. rewrite P, E2, <- app_assoc. done.
    + rewrite decide_True, decide_False by done. destruct (IH w) as (w' & H & P).
      erewrite bind_eq by exact H. by exists w'.
Qed.

(** With [CT_OPT], [check_cache_connection] posts every cached connection
    whose one end is the client and whose other end is known, in order, and
    leaves exactly the others in the cache. *)
Theorem check_cache_posts ip f a c w :
  clients f !! a = Some c ->
  exists w', check_cache_connection true ip a (f, w) =
      Some (tt, (f <| connection_ := cache_misses ip f c |>, w')) /\
    posted w' = posted w ++ (pair IPA_LAN_TO_LAN_NEW_CONNECTION <$> cache_hits ip f c).
Proof.
  intros Ha. unfold check_cache_connection. erewrite bind_eq by apply get_fam_eq.
  destruct (check_cache_loop_posts ip a c (connection_ f) f w Ha) as (w' & H & P).
  erewrite bind_eq by exact H. by exists w'.
Qed.
End events.

(** ** The connection cache *)

Definition cache_ok {Iface} (f : family (Iface := Iface)) : Prop :=
  (length (connection_ f) <= max_cache_connection)%nat.

(** Caching and forgetting a connection keeps the cache within
    [max_cache_connection] entries; a cached connection is its last entry, and
    forgetting it restores a cache that was not full and did not hold it. *)
Theorem cache_bounded {Iface} (f : family (Iface := Iface)) cfg cn :
  cache_ok f ->
  let f1 := cache_new_connection cfg cn f in
  cache_ok f1 /\ cache_ok (remove_cache_connection cfg cn f) /\
  (is_potential_lan2lan_connection cfg cn = true -> last (connection_ f1) = Some cn) /\
  ((length (connection_ f) < max_cache_connection)%nat ->
   Forall (fun it => same_ends cn it = false) (connection_ f) -> remove_cache_connection cfg cn f1 = f).
Proof.
  intros Hok f1. unfold cache_ok in *. split_and!.
  - unfold f1, cache_new_connection. destruct (is_potential_lan2lan_connection _ _); [|done]. cbn.
    rewrite length_app. case_bool_decide; cbn; unfold max_cache_connection in *; lia.
  - unfold remove_cache_connection. destruct (is_potential_lan2lan_connection _ _); [|done]. cbn.
    pose proof (sublist_length _ _ (erase_first_sublist (same_ends cn) (connection_ f))). lia.
  - intros Hp. unfold f1, cache_new_connection. rewrite Hp. cbn. apply last_snoc.
  - intros Hlt Hn. unfold f1, cache_new_connection, remove_cache_connection.
    destruct (is_potential_lan2lan_connection _ _); [|done].
    rewrite bool_decide_eq_false_2 by lia. cbn. rewrite erase_first_app; [by destruct f| |done].
    unfold same_ends. destruct (cn_iptype cn); by rewrite ?Z.eqb_refl, ?bool_decide_eq_true_2.
Qed.

(** ** Two runs in which the offload goes wrong *)

(** A driver whose fourth call, the header of the second direction, fails. *)
Definition failing_driver : LanIface nat simple_world := simple_iface (fun n => Nat.eqb n 3).

Definition failing_run : list lan_event := ex_pair ++ [ev_client IPA_LAN_CLIENT_DISCONNECT 200 1].

(** One failing driver call breaks memory safety: [handle_new_lan2lan_connection]
    leaves the link of the first direction behind, the disconnect of the peer does
    not find it and erases the peer, and the disconnect of the other client then
    follows the dangling pointer. *)
Theorem failed_link_dangles :
  run_ok (HI := failing_driver) false map_to_list
    (failing_run ++ [ev_client IPA_LAN_CLIENT_DISCONNECT 100 0]) (IPACM_LanToLan_ctor, simple_init) /\
  (exists s, lan_run (HI := failing_driver) false map_to_list failing_run (IPACM_LanToLan_ctor, simple_init) = Some s) /\
  lan_run (HI := failing_driver) false map_to_list
    (failing_run ++ [ev_client IPA_LAN_CLIENT_DISCONNECT 100 0]) (IPACM_LanToLan_ctor, simple_init) = None.
Proof.
  split; [|split].
  - apply run_okb_sound. vm_compute. reflexivity.
  - eexists. vm_compute. reflexivity.
  - vm_compute. reflexivity.
Qed.

Definition sleep_run : list lan_event :=
  ex_pair ++ [ev_client IPA_LAN_CLIENT_POWER_SAVE 100 0; ev_client IPA_LAN_CLIENT_POWER_RECOVER 100 0].

(** A client that goes to sleep and recovers has every link twice:
    [handle_client_power_recover] restores the filter rules of the links it kept
    and then adds the links to its active peers again, so one pair of clients
    with one connection takes two of the three offload pairs. *)
Theorem power_cycle_doubles :
  exists s, lan_run (HI := simple_iface never) false map_to_list sleep_run
      (IPACM_LanToLan_ctor, simple_init) = Some s /\
    npeer (peer <$> clients (fam_v4 s.1)) 1%positive 2%positive = Some 1 /\
    nlinks (link <$> clients (fam_v4 s.1)) 1%positive 2%positive = 2%nat /\
    num_offload_pair_ (fam_v4 s.1) = 2 /\
    num_offload_pair_ (fam_v4 ex_state.1) = 1.
Proof. eexists. split; [vm_compute; reflexivity|]. by vm_compute. Qed.

(** ** Concrete inputs *)

(** A client of [ex_state] links to the other one; the third call fails. *)
Lemma add_offload_link_atomic_witness :
  exists r f' w', add_offload_link (HI := simple_iface (fun n => Nat.eqb n 2)) IPA_IP_v4 1%positive 2%positive
      (fam_v4 ex_state.1, simple_init) = Some (r, (f', w')) /\
    r = IPACM_FAILURE /\ forall y, y ∈ sw_items w' <-> y ∈ sw_items simple_init.
Proof.
  destruct (add_offload_link (HI := simple_iface (fun n => Nat.eqb n 2)) IPA_IP_v4 1%positive 2%positive
    (fam_v4 ex_state.1, simple_init)) as [[r [f' w']]|] eqn:E; [|vm_compute in E; discriminate].
  exists r, f', w'. split; [reflexivity|].
  destruct (add_offload_link_atomic (HL := simple_live (fun n => Nat.eqb n 2)) _ _ _ _ _ _ _ _ E)
    as [(Hr & _ & Hl)|(Hr & _)]; [split; [exact Hr|exact Hl]|].
  vm_compute in E. injection E as <- _ _. discriminate.
Defined.

Lemma generate_posts_witness :
  exists w', generate_new_connection (HI := simple_iface never) false map_to_list IPA_IP_v4 1%positive
      (fam_v4 ex_state.1, simple_init) = Some (tt, (fam_v4 ex_state.1, w')) /\
    length (sw_posted w') = 1%nat.
Proof.
  assert (exists c, clients (fam_v4 ex_state.1) !! 1%positive = Some c /\ p_iface c = Some 0%nat) as (c & Hc & Hi)
    by (eexists; split; vm_compute; reflexivity).
  destruct (generate_posts (HP := simple_post never) map_to_list (fun m => reflexivity _) IPA_IP_v4 3
    (fam_v4 ex_state.1) 1%positive c 0%nat simple_init) as (w' & H & P);
    [exact (proj1 ex_state_inv)|discriminate|exact Hc|exact Hi|].
  exists w'. split; [exact H|]. cbn [posted simple_post] in P. rewrite P. rewrite length_app, length_fmap.
  vm_compute. reflexivity.
Defined.

Definition ex_cached : family :=
  fam_v4 ex_state.1 <| connection_ := [ex_conn 100 200; ex_conn 100 250] |>.

Lemma check_cache_posts_witness :
  exists s, check_cache_connection (HI := simple_iface never) true IPA_IP_v4 1%positive
    (ex_cached, simple_init) = Some (tt, s) /\ connection_ s.1 = [ex_conn 100 250].
Proof.
  assert (exists c, clients ex_cached !! 1%positive = Some c) as (c & Hc) by (eexists; vm_compute; reflexivity).
  destruct (check_cache_posts (HP := simple_post never) IPA_IP_v4 ex_cached 1%positive c simple_init Hc)
    as (w' & H & _).
  eexists. split; [exact H|]. vm_compute in Hc. injection Hc as <-. vm_compute. reflexivity.
Defined.

Lemma cache_bounded_witness :
  let f := fam_v4 ex_state.1 in
  connection_ (remove_cache_connection example_cfg (ex_conn 100 200)
    (cache_new_connection example_cfg (ex_conn 100 200) f)) = [].
Proof.
  destruct (cache_bounded (fam_v4 ex_state.1) example_cfg (ex_conn 100 200)) as (_ & _ & _ & H).
  { apply Nat.leb_le. vm_compute. reflexivity. }
  cbv zeta. rewrite H.
  - vm_compute. reflexivity.
  - apply Nat.ltb_lt. vm_compute. reflexivity.
  - apply Forall_forall. intros it Hit. vm_compute in Hit. inversion Hit.
Defined.
