(* ===== verification/Neighbor.v ===== *)
(** * The neighbour cache ([IPACM_Neighbor.cpp], [IPACM_Neighbor.h], and
    [iface_ipa_index_query] of [IPACM_Iface.cpp])

    The cache remembers the interface and the last IPv4 address of each wireless
    client by its MAC address.  It replaces the bridge in neighbour events by the
    client's own interface, and announces a remembered address again when the
    client reconnects. *)
From S2P Require Import Prelude Defs Config.
From stdpp Require Import base list gmap strings.
From Stdlib Require Import ZArith Lia.

Open Scope Z_scope.

Definition IPA_MAX_NUM_NEIGHBOR_CLIENTS : nat := 17.
Definition INVALID_IFACE : Z := -1.

(** [ipa_neighbor_client] *)
Record ipa_neighbor_client := {
  nb_mac_addr : list Z;
  iface_index : Z;
  v4_addr : Z;
  ipa_if_num : Z
}.

(** [class IPACM_Neighbor]: the array has its 17 slots. *)
Record IPACM_Neighbor := {
  num_neighbor_client : Z;
  neighbor_client : list ipa_neighbor_client
}.

#[export] Instance ipa_neighbor_client_eta : Settable ipa_neighbor_client :=
  fun r => Build_ipa_neighbor_client (nb_mac_addr r) (iface_index r) (v4_addr r) (ipa_if_num r).
#[export] Instance IPACM_Neighbor_eta : Settable IPACM_Neighbor :=
  fun r => Build_IPACM_Neighbor (num_neighbor_client r) (neighbor_client r).
#[export] Instance ipa_ifi_dev_name_t_eta : Settable ipa_ifi_dev_name_t :=
  fun r => Build_ipa_ifi_dev_name_t (iface_name r) (if_cat r) (netlink_interface_index r).

Inductive nb_payload := NbWlanEx (d : ipacm_event_data_wlan_ex) | NbData (d : ipacm_event_data_all).

(** What one callback takes from outside: the kernel's interface names
    ([SIOCGIFNAME]; [None] when the socket or the call fails), whether [malloc]
    succeeds, and the indeterminate contents of a fresh local or heap object. *)
Record nb_env := {
  if_name_of : Z -> option string;
  malloc_ok : bool;
  junk_mac : list Z;
  junk_v6 : v6addr
}.

(** [IPACM_Neighbor()] over the raw memory [mem]; it also registers for these
    events. *)
Definition IPACM_Neighbor_ctor (mem : list ipa_neighbor_client) : IPACM_Neighbor :=
  {| num_neighbor_client := 0; neighbor_client := mem |}.
Definition neighbor_events : list ipa_cm_event_id :=
  [IPA_WLAN_CLIENT_ADD_EVENT_EX; IPA_NEW_NEIGH_EVENT; IPA_DEL_NEIGH_EVENT].

(** [iface_ipa_index_query]: first by netlink index, then by the kernel's name
    of the interface, whose netlink index is then stored. *)
Definition iface_ipa_index_query (os : Z -> option string) (index : Z) (c : IPACM_Config) :
    option (Z * IPACM_Config) :=
  match iface_table c with
  | Dangling => None
  | Null => Some (INVALID_IFACE, c)
  | Live t =>
      let t' := take (Z.to_nat (ipa_num_ipa_interfaces c)) t in
      match find_index (fun e => index =? netlink_interface_index e) t' with
      | Some i => Some (Z.of_nat i, c)
      | None =>
          match os index with
          | None => Some (IPACM_FAILURE, c)
          | Some name =>
              match find_index (fun e => bool_decide (name = iface_name e)) t' with
              | Some i =>
                  Some (Z.of_nat i,
                    c <| iface_table := Live (alter (fun e => e <| netlink_interface_index := index |>) i t) |>)
              | None => Some (INVALID_IFACE, c)
              end
          end
      end
  end.

(** [iface_table[i].iface_name]; an index outside the table is undefined. *)
Definition iface_name_at (c : IPACM_Config) (i : Z) : option string :=
  match iface_table c with
  | Live t => if decide (0 <= i) then iface_name <$> t !! Z.to_nat i else None
  | _ => None
  end.

(** [strcmp(ipa_virtual_iface_name, iface_table[i].iface_name) == 0] *)
Definition is_bridge (c : IPACM_Config) (i : Z) : option bool :=
  n ← iface_name_at c i; Some (bool_decide (ipa_virtual_iface_name c = n)).

Definition find_client (mac : list Z) (st : IPACM_Neighbor) : option nat :=
  find_index (fun e => bool_decide (nb_mac_addr e = mac))
    (take (Z.to_nat (num_neighbor_client st)) (neighbor_client st)).

(** The outcome of a callback: the cache, the configuration and the event
    posted, if any. *)
Definition nb_out : Type := IPACM_Neighbor * IPACM_Config * option (ipa_cm_event_id * ipacm_event_data_all).

Definition neigh_event (event : ipa_cm_event_id) : ipa_cm_event_id :=
  if decide (event = IPA_NEW_NEIGH_EVENT) then IPA_NEIGH_CLIENT_IP_ADDR_ADD_EVENT
  else IPA_NEIGH_CLIENT_IP_ADDR_DEL_EVENT.

(** After a post the code looks up the interface of the event to log its name. *)
Definition log_iface (env : nb_env) (index : Z) (c : IPACM_Config) : option IPACM_Config :=
  '(i, c) ← iface_ipa_index_query (if_name_of env) index c; _n ← iface_name_at c i; Some c.

Definition set_client (i : nat) (g : ipa_neighbor_client -> ipa_neighbor_client) (st : IPACM_Neighbor) : IPACM_Neighbor :=
  st <| neighbor_client := alter g i (neighbor_client st) |>.

(** A known client on interface [if_num] (kernel index [if_index]) shows up
    again: its remembered IPv4 address is announced. *)
Definition reconnect (env : nb_env) (if_index if_num : Z) (i : nat) (st : IPACM_Neighbor) (c : IPACM_Config) :
    option nb_out :=
  b ← is_bridge c if_num;
  if (b : bool) then Some (st, c, None)
  else
    let st := set_client i (fun e => e <| iface_index := if_index |>) st in
    e ← neighbor_client st !! i;
    if negb (if_num =? ipa_if_num e) then Some (st, c, None)
    else if v4_addr e =? 0 then Some (st, c, None)
    else if negb (malloc_ok env) then Some (st, c, None)
    else
      let ev := {| da_iptype := IPA_IP_v4; da_if_index := iface_index e; da_ipv4_addr := v4_addr e;
                   da_ipv6_addr := junk_v6 env; da_mac_addr := nb_mac_addr e |} in
      c ← log_iface env (iface_index e) c;
      Some (st, c, Some (IPA_NEIGH_CLIENT_IP_ADDR_ADD_EVENT, ev)).

(** A new entry at the end of the cache, if there is room. *)
Definition append_client (e : ipa_neighbor_client) (st : IPACM_Neighbor) : IPACM_Neighbor :=
  if num_neighbor_client st <? Z.of_nat IPA_MAX_NUM_NEIGHBOR_CLIENTS then
    {| num_neighbor_client := num_neighbor_client st + 1;
       neighbor_client := <[Z.to_nat (num_neighbor_client st) := e]> (neighbor_client st) |}
  else st.

(** The MAC address of the last MAC attribute. *)
Definition client_mac (junk : list Z) (l : list ipa_wlan_hdr_attrib_val) : list Z :=
  fold_left (fun m a => match a with WLAN_HDR_ATTRIB_MAC_ADDR _ mac => mac | _ => m end) l junk.

Definition handle_wlan_ex (env : nb_env) (d : ipacm_event_data_wlan_ex) (st : IPACM_Neighbor) (c : IPACM_Config) :
    option nb_out :=
  '(if_num, c) ← iface_ipa_index_query (if_name_of env) (wx_if_index d) c;
  match find_client (client_mac (junk_mac env) (attribs d)) st with
  | Some i => reconnect env (wx_if_index d) if_num i st c
  | None => Some (st, c, None)
  end.

(** A neighbour on the bridge: the event goes out with the interface the client
    is known to be on; [cache] is the entry's new IPv4 address. *)
Definition bridge_event (env : nb_env) (event : ipa_cm_event_id) (d : ipacm_event_data_all) (cache : option Z)
    (st : IPACM_Neighbor) (c : IPACM_Config) : option nb_out :=
  match find_client (da_mac_addr d) st with
  | Some i =>
      e ← neighbor_client st !! i;
      let st := match cache with Some a => set_client i (fun e => e <| v4_addr := a |>) st | None => st end in
      if negb (malloc_ok env) then Some (st, c, None)
      else
        let ev := {| da_iptype := da_iptype d; da_if_index := iface_index e; da_ipv4_addr := da_ipv4_addr d;
                     da_ipv6_addr := da_ipv6_addr d; da_mac_addr := da_mac_addr d |} in
        c ← log_iface env (iface_index e) c;
        Some (st, c, Some (neigh_event event, ev))
  | None => Some (st, c, None)
  end.

(** An IPv4 neighbour on another interface: forwarded and cached. *)
Definition client_event (env : nb_env) (event : ipa_cm_event_id) (d : ipacm_event_data_all) (if_num : Z)
    (st : IPACM_Neighbor) (c : IPACM_Config) : option nb_out :=
  if negb (malloc_ok env) then Some (st, c, None)
  else
    let e := {| nb_mac_addr := da_mac_addr d; iface_index := da_if_index d; v4_addr := da_ipv4_addr d;
                ipa_if_num := if_num |} in
    let st := match find_client (da_mac_addr d) st with
              | Some i => set_client i (fun _ => e) st
              | None => append_client e st
              end in
    Some (st, c, Some (neigh_event event, d)).

Definition no_v6 (a : v6addr) : bool := bool_decide (a = (0, 0, 0, 0)).

Definition handle_neigh (env : nb_env) (event : ipa_cm_event_id) (d : ipacm_event_data_all)
    (st : IPACM_Neighbor) (c : IPACM_Config) : option nb_out :=
  '(if_num, c) ← iface_ipa_index_query (if_name_of env) (da_if_index d) c;
  if decide (da_iptype d = IPA_IP_v4) then
    if da_ipv4_addr d =? 0 then Some (st, c, None)
    else
      b ← is_bridge c if_num;
      if (b : bool) then bridge_event env event d (Some (da_ipv4_addr d)) st c
      else client_event env event d if_num st c
  else if negb (no_v6 (da_ipv6_addr d)) then
    b ← is_bridge c if_num;
    if (b : bool) then bridge_event env event d None st c
    else if malloc_ok env then Some (st, c, Some (neigh_event event, d)) else Some (st, c, None)
  else
    match find_client (da_mac_addr d) st with
    | Some i => reconnect env (da_if_index d) if_num i st c
    | None =>
        b ← is_bridge c if_num;
        if (b : bool) then Some (st, c, None)
        else Some (append_client {| nb_mac_addr := da_mac_addr d; iface_index := da_if_index d; v4_addr := 0;
                                    ipa_if_num := if_num |} st, c, None)
    end.

(** [event_callback]; a payload of the wrong kind is undefined. *)
Definition event_callback (env : nb_env) (event : ipa_cm_event_id) (p : nb_payload)
    (st : IPACM_Neighbor) (c : IPACM_Config) : option nb_out :=
  match p with
  | NbWlanEx d => if decide (event = IPA_WLAN_CLIENT_ADD_EVENT_EX) then handle_wlan_ex env d st c else None
  | NbData d => if decide (event = IPA_WLAN_CLIENT_ADD_EVENT_EX) then None else handle_neigh env event d st c
  end.

(** ** The cache invariant *)

Definition cached (st : IPACM_Neighbor) : list ipa_neighbor_client :=
  take (Z.to_nat (num_neighbor_client st)) (neighbor_client st).

Record nb_inv (st : IPACM_Neighbor) : Prop := {
  nb_len : length (neighbor_client st) = IPA_MAX_NUM_NEIGHBOR_CLIENTS;
  nb_num : 0 <= num_neighbor_client st <= Z.of_nat IPA_MAX_NUM_NEIGHBOR_CLIENTS;
  nb_nodup : NoDup (nb_mac_addr <$> cached st)
}.

(** The entry of a MAC address. *)
Definition entry_of (mac : list Z) (st : IPACM_Neighbor) : option ipa_neighbor_client :=
  i ← find_client mac st; neighbor_client st !! i.

Lemma find_client_spec mac st i :
  find_client mac st = Some i ->
  (i < Z.to_nat (num_neighbor_client st))%nat /\
  exists e, neighbor_client st !! i = Some e /\ nb_mac_addr e = mac.
Proof.
  intros H. destruct (find_index_Some _ _ _ H) as (e & He & Hm & _).
  apply lookup_take_Some in He as [He Hi]. apply bool_decide_eq_true in Hm. eauto.
Qed.

Lemma find_client_none mac st : find_client mac st = None -> mac ∉ nb_mac_addr <$> cached st.
Proof.
  intros H%find_index_None Hin. apply list_elem_of_fmap in Hin as (e & -> & He).
  rewrite Forall_forall in H. specialize (H e He). by apply bool_decide_eq_false in H.
Qed.

Lemma find_index_alter_same {A} (p : A -> bool) (g : A -> A) i l :
  (forall x, l !! i = Some x -> p (g x) = p x) -> find_index p (alter g i l) = find_index p l.
Proof.
  revert i. induction l as [|x l IH]; intros i Hp; [done|]. destruct i as [|i].
  - change (alter g 0%nat (x :: l)) with (g x :: l). simpl. by rewrite Hp.
  - change (alter g (S i) (x :: l)) with (x :: alter g i l). simpl. by rewrite IH.
Qed.

Lemma fmap_alter_same {A B} (f : A -> B) (g : A -> A) i (l : list A) :
  (forall x, l !! i = Some x -> f (g x) = f x) -> f <$> alter g i l = f <$> l.
Proof.
  revert i. induction l as [|x l IH]; intros i Hp; [done|]. destruct i as [|i].
  - change (alter g 0%nat (x :: l)) with (g x :: l). csimpl. by rewrite Hp.
  - change (alter g (S i) (x :: l)) with (x :: alter g i l). csimpl. by rewrite IH.
Qed.

Lemma find_index_snoc {A} (p : A -> bool) l x :
  find_index p l = None -> p x = true -> find_index p (l ++ [x]) = Some (length l).
Proof.
  intros H%find_index_None Hx. induction H as [|y l Hy _ IH]; simpl; [by rewrite Hx|]. by rewrite Hy, IH.
Qed.

Lemma find_index_snoc_ne {A} (p : A -> bool) l x : p x = false -> find_index p (l ++ [x]) = find_index p l.
Proof.
  intros Hx. induction l as [|y l IH]; simpl; [by rewrite Hx|]. destruct (p y); [done|]. by rewrite IH.
Qed.

Lemma find_index_hit {A} (p : A -> bool) pre x post :
  Forall (fun y => p y = false) pre -> p x = true -> find_index p (pre ++ x :: post) = Some (length pre).
Proof. intros H Hx. induction H as [|y pre Hy _ IH]; simpl; [by rewrite Hx|]. by rewrite Hy, IH. Qed.

Section cache.
Implicit Types (st : IPACM_Neighbor) (e : ipa_neighbor_client) (mac : list Z).

(** An entry that keeps its MAC address. *)
Lemma nb_set_client_inv st i g mac :
  nb_inv st -> find_client mac st = Some i -> (forall e, nb_mac_addr e = mac -> nb_mac_addr (g e) = mac) ->
  nb_inv (set_client i g st) /\ find_client mac (set_client i g st) = Some i /\
  (forall mac', mac' <> mac -> entry_of mac' (set_client i g st) = entry_of mac' st) /\
  entry_of mac (set_client i g st) = g <$> entry_of mac st.
Proof.
  intros [Hlen Hnum Hnd] Hf Hg. destruct (find_client_spec _ _ _ Hf) as (Hi & e & He & Hmac).
  assert (cached (set_client i g st) = alter g i (cached st)) as Hc by by apply take_alter_lt.
  assert (cached st !! i = Some e) as Hce by by apply lookup_take_Some.
  assert (forall mac', find_client mac' (set_client i g st) = find_client mac' st) as Hfind.
  { intros mac'. unfold find_client. change (take _ (neighbor_client (set_client i g st))) with (cached (set_client i g st)).
    rewrite Hc. apply find_index_alter_same. intros x Hx.
    assert (x = e) as -> by (change (take _ _) with (cached st) in Hx; congruence).
    by rewrite (Hg e Hmac), Hmac. }
  split; [split|split; [|split]].
  - cbn. by rewrite length_alter.
  - done.
  - rewrite Hc, fmap_alter_same; [done|]. intros x Hx.
    assert (x = e) as -> by congruence. by rewrite (Hg e Hmac), Hmac.
  - by rewrite Hfind.
  - intros mac' Hne. unfold entry_of. rewrite Hfind. destruct (find_client mac' st) as [j|] eqn:Hj; [|done]. simpl.
    destruct (find_client_spec _ _ _ Hj) as (_ & e' & He' & Hm'). rewrite list_lookup_alter_ne; [done|]. intros ->. congruence.
  - unfold entry_of. rewrite Hfind, Hf. simpl. by rewrite list_lookup_alter_eq.
Qed.

(** A new entry: it is remembered while there is room. *)
Lemma append_client_inv st e :
  nb_inv st -> find_client (nb_mac_addr e) st = None ->
  nb_inv (append_client e st) /\
  (forall mac, mac <> nb_mac_addr e -> entry_of mac (append_client e st) = entry_of mac st) /\
  (num_neighbor_client st < Z.of_nat IPA_MAX_NUM_NEIGHBOR_CLIENTS ->
     entry_of (nb_mac_addr e) (append_client e st) = Some e).
Proof.
  intros Hinv Hf. pose proof Hinv as [Hlen Hnum Hnd]. unfold append_client.
  destruct (Z.ltb_spec (num_neighbor_client st) (Z.of_nat IPA_MAX_NUM_NEIGHBOR_CLIENTS)) as [Hlt|Hge];
    [|split_and!; [done..|lia]].
  set (st' := {| num_neighbor_client := _ |}). set (n := Z.to_nat (num_neighbor_client st)) in *.
  assert (neighbor_client st' !! n = Some e) as Hn by (apply list_lookup_insert_eq; rewrite Hlen; lia).
  assert (cached st' = cached st ++ [e]) as Hc.
  { unfold cached. cbn [num_neighbor_client st']. replace (Z.to_nat (num_neighbor_client st + 1)) with (S n) by lia.
    rewrite (take_S_r _ _ e) by done. f_equal. by apply take_insert_ge. }
  assert (length (cached st) = n) as Hcl by (unfold cached; rewrite length_take; lia).
  assert (forall mac, find_client mac st' = find_index (fun x => bool_decide (nb_mac_addr x = mac)) (cached st ++ [e])) as Hfind
    by (intros mac; unfold find_client; change (take _ (neighbor_client st')) with (cached st'); by rewrite Hc).
  split; [split|split].
  - cbn. by rewrite length_insert.
  - cbn. lia.
  - rewrite Hc, fmap_app. apply NoDup_app. split_and!; [done| |apply NoDup_singleton].
    intros x Hx Hx'. csimpl in Hx'. apply list_elem_of_singleton in Hx' as ->.
    by apply (find_client_none _ _ Hf).
  - intros mac Hne. unfold entry_of. rewrite Hfind, find_index_snoc_ne by by apply bool_decide_eq_false.
    change (find_index _ (cached st)) with (find_client mac st).
    destruct (find_client mac st) as [j|] eqn:Hj; [|done]. simpl.
    destruct (find_client_spec _ _ _ Hj) as (Hj' & _). rewrite list_lookup_insert_ne; [done|lia].
  - intros _. unfold entry_of. rewrite Hfind, find_index_snoc; [by rewrite Hcl|done|by apply bool_decide_eq_true].
Qed.
End cache.

(** ** The handlers *)

(** The MAC address an event is about. *)
Definition payload_mac (env : nb_env) (p : nb_payload) : list Z :=
  match p with NbWlanEx d => client_mac (junk_mac env) (attribs d) | NbData d => da_mac_addr d end.

(** A handler keeps the invariant and every entry but that of [mac]. *)
Definition nb_keeps (mac : list Z) (st st' : IPACM_Neighbor) : Prop :=
  nb_inv st' /\ forall mac', mac' <> mac -> entry_of mac' st' = entry_of mac' st.

Section handlers.
Implicit Types (st : IPACM_Neighbor) (c : IPACM_Config) (env : nb_env).

Lemma nb_keeps_refl mac st : nb_inv st -> nb_keeps mac st st.
Proof. by split. Qed.

Lemma set_client_keeps mac st i g :
  nb_inv st -> find_client mac st = Some i -> (forall e, nb_mac_addr e = mac -> nb_mac_addr (g e) = mac) ->
  nb_keeps mac st (set_client i g st).
Proof. intros Hi Hf Hg. destruct (nb_set_client_inv _ _ _ _ Hi Hf Hg) as (? & _ & ? & _). by split. Qed.

Lemma append_client_keeps st e :
  nb_inv st -> find_client (nb_mac_addr e) st = None -> nb_keeps (nb_mac_addr e) st (append_client e st).
Proof. intros Hi Hf. destruct (append_client_inv _ _ Hi Hf) as (? & ? & _). by split. Qed.

Lemma reconnect_keeps env x n i mac st c st' c' o :
  nb_inv st -> find_client mac st = Some i -> reconnect env x n i st c = Some (st', c', o) -> nb_keeps mac st st'.
Proof.
  intros Hi Hf. unfold reconnect. destruct (is_bridge c n) as [[|]|]; cbn [mbind option_bind]; [|..|done].
  { intros [= <- <- <-]. by apply nb_keeps_refl. }
  set (st1 := set_client i _ st).
  assert (nb_keeps mac st st1) as Hk by (by apply set_client_keeps).
  destruct (neighbor_client st1 !! i) as [e|]; cbn [mbind option_bind]; [|done].
  destruct (negb (n =? _)); [by intros [= <- <- <-]|]. destruct (v4_addr e =? 0); [by intros [= <- <- <-]|].
  destruct (negb (malloc_ok env)); [by intros [= <- <- <-]|]. destruct (log_iface _ _ _); cbn [mbind option_bind]; [|done]. by intros [= <- <- <-].
Qed.

Lemma bridge_event_keeps env ev d a st c st' c' o :
  nb_inv st -> bridge_event env ev d a st c = Some (st', c', o) -> nb_keeps (da_mac_addr d) st st'.
Proof.
  intros Hi. unfold bridge_event. destruct (find_client _ st) as [i|] eqn:Hf; simpl;
    [|intros [= <- <- <-]; by apply nb_keeps_refl].
  destruct (neighbor_client st !! i) as [e|]; cbn [mbind option_bind]; [|done].
  assert (nb_keeps (da_mac_addr d) st match a with Some a => set_client i (fun e => e <| v4_addr := a |>) st | None => st end)
    as Hk by (destruct a; [by apply set_client_keeps|by apply nb_keeps_refl]).
  set (st1 := match a with Some _ => _ | None => _ end) in *.
  case_match; [by intros [= <- <- <-]|]. destruct (log_iface _ _ _); cbn [mbind option_bind]; [|done]. by intros [= <- <- <-].
Qed.

Lemma client_event_keeps env ev d n st c st' c' o :
  nb_inv st -> client_event env ev d n st c = Some (st', c', o) -> nb_keeps (da_mac_addr d) st st'.
Proof.
  intros Hi. unfold client_event. case_match; [intros [= <- <- <-]; by apply nb_keeps_refl|].
  destruct (find_client _ st) as [i|] eqn:Hf; intros [= <- <- <-].
  - by apply set_client_keeps.
  - by apply append_client_keeps.
Qed.

Lemma event_keeps env ev p st c st' c' o :
  nb_inv st -> event_callback env ev p st c = Some (st', c', o) -> nb_keeps (payload_mac env p) st st'.
Proof.
  intros Hi. pose proof (nb_keeps_refl (payload_mac env p) st Hi) as Hr.
  destruct p as [d|d]; cbn [event_callback payload_mac] in *; case_decide; try done.
  - unfold handle_wlan_ex. destruct (iface_ipa_index_query _ _ _) as [[n c1]|]; simpl; [|done].
    destruct (find_client _ st) as [i|] eqn:Hf; [by apply reconnect_keeps|]. by intros [= <- <- <-].
  - unfold handle_neigh. destruct (iface_ipa_index_query _ _ _) as [[n c1]|]; simpl; [|done].
    case_decide.
    + case_match; [by intros [= <- <- <-]|]. destruct (is_bridge c1 n) as [[|]|]; simpl; [|..|done].
      * by apply bridge_event_keeps.
      * by apply client_event_keeps.
    + case_match.
      * destruct (is_bridge c1 n) as [[|]|]; simpl; [|..|done].
        -- by apply bridge_event_keeps.
        -- case_match; by intros [= <- <- <-].
      * destruct (find_client _ st) as [i|] eqn:Hf; [by apply reconnect_keeps|].
        destruct (is_bridge c1 n) as [[|]|]; simpl; [|..|done]; intros [= <- <- <-]; [done|].
        by apply append_client_keeps.
Qed.

(** Every neighbour event keeps the cache well-formed (at most
    [IPA_MAX_NUM_NEIGHBOR_CLIENTS] entries, each MAC address once) and leaves
    the entries of all other MAC addresses as they were. *)
Theorem neighbor_cache_kept env ev p st c st' c' o :
  nb_inv st -> event_callback env ev p st c = Some (st', c', o) ->
  nb_inv st' /\ forall mac, mac <> payload_mac env p -> entry_of mac st' = entry_of mac st.
Proof. apply event_keeps. Qed.

(** Once found, an interface is found again at the same place. *)
Lemma query_again os x c n c1 b :
  iface_ipa_index_query os x c = Some (n, c1) -> is_bridge c1 n = Some b ->
  iface_ipa_index_query os x c1 = Some (n, c1).
Proof.
  unfold iface_ipa_index_query, is_bridge, iface_name_at, INVALID_IFACE, IPACM_FAILURE.
  destruct (iface_table c) as [|t|] eqn:Et; [intros [= <- <-]; by rewrite Et| |done].
  destruct (find_index _ (take _ t)) as [i|] eqn:Ei.
  { intros [= <- <-] _. by rewrite Et, Ei. }
  destruct (os x) as [name|]; [|intros [= <- <-]; by rewrite Et, Ei].
  destruct (find_index (fun e => bool_decide _) (take _ t)) as [j|] eqn:Ej; [|intros [= <- <-]; by rewrite Et, Ei, Ej].
  intros [= <- <-] _. cbn.
  destruct (find_index_split _ _ _ Ej) as (pre & e & post & Hs & <- & _ & _).
  assert (length pre < Z.to_nat (ipa_num_ipa_interfaces c))%nat as Hlt.
  { apply (f_equal length) in Hs. rewrite length_take, length_app in Hs. simpl in Hs. lia. }
  rewrite take_alter_lt by done. rewrite Hs in Ei |- *.
  apply find_index_None, Forall_app in Ei as [Epre _].
  rewrite alter_app_r_alt, Nat.sub_diag by lia. cbn [alter list_alter].
  rewrite find_index_hit; [done|done|apply Z.eqb_refl].
Qed.

Lemma log_iface_ok env x c n b :
  iface_ipa_index_query (if_name_of env) x c = Some (n, c) -> is_bridge c n = Some b -> log_iface env x c = Some c.
Proof.
  intros Hq Hb. unfold log_iface. rewrite Hq. simpl. unfold is_bridge in Hb.
  by destruct (iface_name_at c n).
Qed.

(** What the cache holds after an IPv4 neighbour event on a client's own
    interface. *)
Lemma client_event_entry env ev d n st c :
  nb_inv st -> malloc_ok env = true ->
  is_Some (find_client (da_mac_addr d) st) \/ num_neighbor_client st < Z.of_nat IPA_MAX_NUM_NEIGHBOR_CLIENTS ->
  let e := {| nb_mac_addr := da_mac_addr d; iface_index := da_if_index d; v4_addr := da_ipv4_addr d; ipa_if_num := n |} in
  exists st1, client_event env ev d n st c = Some (st1, c, Some (neigh_event ev, d)) /\ nb_inv st1 /\
    entry_of (da_mac_addr d) st1 = Some e.
Proof.
  intros Hi Hm Hroom e. unfold client_event. rewrite Hm. simpl. fold e.
  destruct (find_client (da_mac_addr d) st) as [i|] eqn:Hf.
  - destruct (nb_set_client_inv st i (fun _ => e) (da_mac_addr d) Hi Hf ltac:(done)) as (Hi1 & _ & _ & He).
    eexists. split; [reflexivity|]. split; [done|]. rewrite He. unfold entry_of. rewrite Hf. simpl.
    destruct (find_client_spec _ _ _ Hf) as (_ & x & -> & _). done.
  - destruct (append_client_inv st e Hi Hf) as (Hi1 & _ & He). destruct Hroom as [[? ?]|Hlt]; [done|].
    eexists. split; [reflexivity|]. split; [done|]. by apply He.
Qed.
End handlers.

Section events.
Implicit Types (st : IPACM_Neighbor) (c : IPACM_Config) (env : nb_env).

Lemma entry_of_Some mac st e :
  entry_of mac st = Some e -> exists i, find_client mac st = Some i /\ neighbor_client st !! i = Some e.
Proof. unfold entry_of. destruct (find_client mac st) as [i|]; [|done]. simpl. eauto. Qed.

(** A client known on its interface reconnects there. *)
Lemma reconnect_announces env e st c n i :
  find_client (nb_mac_addr e) st = Some i -> neighbor_client st !! i = Some e -> ipa_if_num e = n ->
  v4_addr e <> 0 -> malloc_ok env = true ->
  iface_ipa_index_query (if_name_of env) (iface_index e) c = Some (n, c) -> is_bridge c n = Some false ->
  exists st2, reconnect env (iface_index e) n i st c = Some (st2, c, Some (IPA_NEIGH_CLIENT_IP_ADDR_ADD_EVENT,
    {| da_iptype := IPA_IP_v4; da_if_index := iface_index e; da_ipv4_addr := v4_addr e;
       da_ipv6_addr := junk_v6 env; da_mac_addr := nb_mac_addr e |})).
Proof.
  intros Hf He Hn Hv Hm Hq Hb. unfold reconnect. rewrite Hb. cbn [mbind option_bind].
  set (st1 := set_client i _ st).
  assert (neighbor_client st1 !! i = Some e) as ->.
  { unfold st1. cbn. rewrite list_lookup_alter_eq, He. by destruct e. }
  cbn [mbind option_bind]. rewrite Hn, Z.eqb_refl, (proj2 (Z.eqb_neq _ _) Hv), Hm. cbn [negb].
  rewrite (log_iface_ok _ _ _ _ _ Hq Hb). simpl. eauto.
Qed.

(** The event of a neighbour on the bridge goes out with the client's own
    interface. *)
Lemma bridge_event_rewrites env ev d a st c n e b :
  entry_of (da_mac_addr d) st = Some e -> malloc_ok env = true ->
  iface_ipa_index_query (if_name_of env) (iface_index e) c = Some (n, c) -> is_bridge c n = Some b ->
  exists st2, bridge_event env ev d a st c = Some (st2, c, Some (neigh_event ev,
    {| da_iptype := da_iptype d; da_if_index := iface_index e; da_ipv4_addr := da_ipv4_addr d;
       da_ipv6_addr := da_ipv6_addr d; da_mac_addr := da_mac_addr d |})).
Proof.
  intros (i & Hf & He)%entry_of_Some Hm Hq Hb. unfold bridge_event. rewrite Hf, He. cbn [mbind option_bind].
  rewrite Hm. cbn [negb]. rewrite (log_iface_ok _ _ _ _ _ Hq Hb). simpl. eauto.
Qed.

(** The cache remembers: after a new-neighbour event with an IPv4 address on
    a client's own interface (which is forwarded), the client's reconnection on
    that interface announces that address again, and an event for the client that
    arrives on the bridge goes out with the client's own interface instead. *)
Theorem neighbor_remembers env d st c n c1 :
  nb_inv st -> iface_ipa_index_query (if_name_of env) (da_if_index d) c = Some (n, c1) ->
  is_bridge c1 n = Some false -> da_iptype d = IPA_IP_v4 -> da_ipv4_addr d <> 0 -> malloc_ok env = true ->
  is_Some (find_client (da_mac_addr d) st) \/ num_neighbor_client st < Z.of_nat IPA_MAX_NUM_NEIGHBOR_CLIENTS ->
  exists st1, event_callback env IPA_NEW_NEIGH_EVENT (NbData d) st c =
      Some (st1, c1, Some (IPA_NEIGH_CLIENT_IP_ADDR_ADD_EVENT, d)) /\
    (exists st2, event_callback env IPA_WLAN_CLIENT_ADD_EVENT_EX
        (NbWlanEx {| wx_if_index := da_if_index d; attribs := [WLAN_HDR_ATTRIB_MAC_ADDR 0 (da_mac_addr d)] |}) st1 c1 =
      Some (st2, c1, Some (IPA_NEIGH_CLIENT_IP_ADDR_ADD_EVENT,
        {| da_iptype := IPA_IP_v4; da_if_index := da_if_index d; da_ipv4_addr := da_ipv4_addr d;
           da_ipv6_addr := junk_v6 env; da_mac_addr := da_mac_addr d |}))) /\
    (forall ev d2 nb, ev <> IPA_WLAN_CLIENT_ADD_EVENT_EX -> da_mac_addr d2 = da_mac_addr d ->
      da_iptype d2 = IPA_IP_v4 -> da_ipv4_addr d2 <> 0 ->
      iface_ipa_index_query (if_name_of env) (da_if_index d2) c1 = Some (nb, c1) -> is_bridge c1 nb = Some true ->
      exists st2, event_callback env ev (NbData d2) st1 c1 = Some (st2, c1, Some (neigh_event ev,
        {| da_iptype := IPA_IP_v4; da_if_index := da_if_index d; da_ipv4_addr := da_ipv4_addr d2;
           da_ipv6_addr := da_ipv6_addr d2; da_mac_addr := da_mac_addr d |}))).
Proof.
  intros Hi Hq Hb Ht Hv Hm Hroom. pose proof (query_again _ _ _ _ _ _ Hq Hb) as Hq1.
  destruct (client_event_entry env IPA_NEW_NEIGH_EVENT d n st c1 Hi Hm Hroom) as (st1 & Hev & Hi1 & He).
  exists st1. split; [|split].
  - cbn. unfold handle_neigh. rewrite Hq. simpl. rewrite decide_True, (proj2 (Z.eqb_neq _ _) Hv), Hb by done.
    exact Hev.
  - cbn. unfold handle_wlan_ex. cbn [wx_if_index attribs client_mac fold_left]. rewrite Hq1. simpl.
    destruct (entry_of_Some _ _ _ He) as (i & Hf & Hc). rewrite Hf.
    by eapply (reconnect_announces env {| nb_mac_addr := da_mac_addr d; iface_index := da_if_index d;
      v4_addr := da_ipv4_addr d; ipa_if_num := n |}).
  - intros ev d2 nb Hne Hmac Ht2 Hv2 Hq2 Hb2. cbn. rewrite decide_False by done. unfold handle_neigh.
    rewrite Hq2. simpl. rewrite decide_True, (proj2 (Z.eqb_neq _ _) Hv2), Hb2 by done. simpl.
    rewrite <- Hmac in He. rewrite <- Ht2, <- Hmac.
    by eapply (bridge_event_rewrites env ev d2 _ st1 c1 n _ false He).
Qed.

(** A neighbour event with an address on an interface that is not in the
    IPACM table reads the table at index [INVALID_IFACE]: the query's failure is
    never tested. *)
Theorem neighbor_unknown_iface env ev d st c t :
  ev <> IPA_WLAN_CLIENT_ADD_EVENT_EX -> iface_table c = Live t ->
  Forall (fun e => netlink_interface_index e <> da_if_index d) t ->
  (forall name, if_name_of env (da_if_index d) = Some name -> Forall (fun e => iface_name e <> name) t) ->
  da_iptype d = IPA_IP_v4 -> da_ipv4_addr d <> 0 ->
  event_callback env ev (NbData d) st c = None.
Proof.
  intros Hne Ht Hidx Hname Hip Hv. cbn. rewrite decide_False by done. unfold handle_neigh, iface_ipa_index_query.
  rewrite Ht.
  assert (forall m, find_index (fun e => da_if_index d =? netlink_interface_index e) (take m t) = None) as ->.
  { intros m. apply find_index_None, Forall_take. eapply Forall_impl; [exact Hidx|].
    intros e He. by apply Z.eqb_neq, not_eq_sym. }
  assert (forall x, x = -1 -> is_bridge c x = None) as Hb
    by (intros x ->; unfold is_bridge, iface_name_at; by rewrite Ht).
  destruct (if_name_of env (da_if_index d)) as [name|].
  - assert (forall m, find_index (fun e => bool_decide (name = iface_name e)) (take m t) = None) as ->.
    { intros m. apply find_index_None, Forall_take. eapply Forall_impl; [by apply Hname|].
      intros e He. by apply bool_decide_eq_false, not_eq_sym. }
    simpl. rewrite decide_True, (proj2 (Z.eqb_neq _ _) Hv), Hb by done. done.
  - simpl. rewrite decide_True, (proj2 (Z.eqb_neq _ _) Hv), Hb by done. done.
Qed.
End events.

(** ** Concrete inputs *)

Definition ex_env : nb_env :=
  {| if_name_of := fun i => if i =? 5 then Some "wlan0"%string else None; malloc_ok := true;
     junk_mac := []; junk_v6 := (0, 0, 0, 0) |}.
Definition ex_cache : IPACM_Neighbor :=
  IPACM_Neighbor_ctor (replicate 17 {| nb_mac_addr := []; iface_index := 0; v4_addr := 0; ipa_if_num := 0 |}).
Definition ex_neigh (i : Z) : ipacm_event_data_all :=
  {| da_iptype := IPA_IP_v4; da_if_index := i; da_ipv4_addr := 3232235777; da_ipv6_addr := (0, 0, 0, 0);
     da_mac_addr := [2; 0; 0; 0; 0; 1] |}.

Lemma ex_cache_inv : nb_inv ex_cache.
Proof. split; [done|cbn; lia|constructor]. Qed.

(** The interface table of the example after the look-up of index 5. *)
Definition ex_cfg5 : IPACM_Config := Eval vm_compute in
  match iface_ipa_index_query (if_name_of ex_env) 5 example_cfg with Some (_, c) => c | None => example_cfg end.

Lemma neighbor_remembers_witness :
  exists st1 st2, event_callback ex_env IPA_NEW_NEIGH_EVENT (NbData (ex_neigh 5)) ex_cache example_cfg =
      Some (st1, ex_cfg5, Some (IPA_NEIGH_CLIENT_IP_ADDR_ADD_EVENT, ex_neigh 5)) /\
    event_callback ex_env IPA_WLAN_CLIENT_ADD_EVENT_EX
      (NbWlanEx {| wx_if_index := 5; attribs := [WLAN_HDR_ATTRIB_MAC_ADDR 0 [2; 0; 0; 0; 0; 1]] |}) st1 ex_cfg5 =
      Some (st2, ex_cfg5, Some (IPA_NEIGH_CLIENT_IP_ADDR_ADD_EVENT, ex_neigh 5)).
Proof.
  destruct (neighbor_remembers ex_env (ex_neigh 5) ex_cache example_cfg 0 ex_cfg5) as (st1 & H1 & (st2 & H2) & _);
    [exact ex_cache_inv|vm_compute; reflexivity|vm_compute; reflexivity|reflexivity|discriminate|reflexivity
    |right; reflexivity|].
  exists st1, st2. split; [exact H1|exact H2].
Defined.

Lemma neighbor_cache_kept_witness :
  exists st1 c1 o, event_callback ex_env IPA_NEW_NEIGH_EVENT (NbData (ex_neigh 5)) ex_cache example_cfg =
    Some (st1, c1, o) /\ nb_inv st1.
Proof.
  destruct (event_callback ex_env IPA_NEW_NEIGH_EVENT (NbData (ex_neigh 5)) ex_cache example_cfg)
    as [[[st1 c1] o]|] eqn:E; [|vm_compute in E; discriminate].
  exists st1, c1, o. split; [reflexivity|].
  exact (proj1 (neighbor_cache_kept _ _ _ _ _ _ _ _ ex_cache_inv E)).
Defined.

Lemma neighbor_unknown_iface_witness :
  event_callback ex_env IPA_NEW_NEIGH_EVENT (NbData (ex_neigh 7)) ex_cache example_cfg = None.
Proof.
  apply (neighbor_unknown_iface ex_env IPA_NEW_NEIGH_EVENT (ex_neigh 7) ex_cache example_cfg
    [{| iface_name := "wlan0"; if_cat := WLAN_IF; netlink_interface_index := 0 |};
     {| iface_name := "rmnet0"; if_cat := WAN_IF; netlink_interface_index := 0 |}]);
    [discriminate|vm_compute; reflexivity|repeat constructor; discriminate|discriminate|reflexivity|discriminate].
Defined.
