(* ===== verification/LocHeap.v ===== *)
(** * The heap of the GPS utilities ([gps/utils/LocHeap.cpp], [LocHeap.h])

    A binary heap of pointers to rankable objects, in linked nodes that know the
    size of their subtree.  The nodes form a tree, so a node is an inductive
    value with its children in it; the objects are the client's, known by their
    address and compared by their virtual method [ranks].  The last section
    shows that the heap is a priority queue. *)
From S2P Require Import Prelude.
From stdpp Require Import base list sorting sets.
From Stdlib Require Import ZArith Lia.

Open Scope Z_scope.

(** ** Rankable objects *)

(** [LocRankable]: [ranks a b] is [a.ranks(b)], positive if [a] ranks higher;
    [address] is the value of a pointer to the object. *)
Class LocRankable (A : Type) := { ranks : A -> A -> Z; address : A -> Z }.

Definition outRanks `{LocRankable A} (a b : A) : bool := 0 <? ranks a b.

(** What the heap needs of a ranking: on the objects in question, those in [D],
    it is a strict weak order. *)
Class RankOk {A} `{LocRankable A} (D : A -> Prop) := {
  outRanks_asym a b : D a -> D b -> outRanks a b = true -> outRanks b a = false;
  outRanks_negtrans a b c : D a -> D b -> D c ->
    outRanks a b = false -> outRanks b c = false -> outRanks a c = false
}.

(** ** The nodes *)

#[warnings="-register-all"]
Inductive LocHeapNode (A : Type) :=
  Node (mSize : Z) (mLeft mRight : option (LocHeapNode A)) (mData : A).
Arguments Node {A} mSize mLeft mRight mData.

Section node.
Context {A : Type} `{LocRankable A}.
Implicit Types (n l r self top : LocHeapNode A) (d node data : A).

Definition mSize n : Z := let 'Node s _ _ _ := n in s.
Definition mLeft n : option (LocHeapNode A) := let 'Node _ l _ _ := n in l.
Definition mRight n : option (LocHeapNode A) := let 'Node _ _ r _ := n in r.
Definition mData n : A := let 'Node _ _ _ d := n in d.

(** The constructor [LocHeapNode(LocRankable& data)]. *)
Definition new_node (data : A) : LocHeapNode A := Node 1 None None data.

(** [self.push(node)], where [node] is a fresh node with the given data; the
    two may swap their data before [node] is linked further down. *)
Fixpoint push self node : LocHeapNode A :=
  match self with
  | Node s l r d =>
      let '(d, node) := if outRanks node d then (node, d) else (d, node) in
      match l, r with
      | None, _ => Node (to_int (s + 1)) (Some (new_node node)) r d
      | Some _, None => Node (to_int (s + 1)) l (Some (new_node node)) d
      | Some ln, Some rn =>
          if mSize ln <=? mSize rn
          then Node (to_int (s + 1)) (Some (push ln node)) r d
          else Node (to_int (s + 1)) l (Some (push rn node)) d
      end
  end.

(** [pop(top)] where the data of [top] has been replaced by [data]; the result
    is the new value of the reference [top] and the data of the popped node.
    [top] takes the data of the chosen child and the child that of [top]. *)
Fixpoint pop_swapped top data : option (LocHeapNode A) * A :=
  match top with
  | Node s l r _ =>
      match l, r with
      | None, None => (None, data)
      | None, Some rn =>
          let '(r', popped) := pop_swapped rn data in (Some (Node (to_int (s - 1)) l r' (mData rn)), popped)
      | Some ln, None =>
          let '(l', popped) := pop_swapped ln data in (Some (Node (to_int (s - 1)) l' r (mData ln)), popped)
      | Some ln, Some rn =>
          if outRanks (mData ln) (mData rn)
          then let '(l', popped) := pop_swapped ln data in (Some (Node (to_int (s - 1)) l' r (mData ln)), popped)
          else let '(r', popped) := pop_swapped rn data in (Some (Node (to_int (s - 1)) l r' (mData rn)), popped)
      end
  end.

Definition pop top : option (LocHeapNode A) * A := pop_swapped top (mData top).

(** [remove(top, data)]: the new value of [top] and the data of the node that
    was removed, if one was. *)
Fixpoint remove top data : option (LocHeapNode A) * option A :=
  match top with
  | Node s l r d =>
      if address data =? address d then
        let '(top', popped) := pop top in (top', Some popped)
      else if negb (outRanks data d) then
        let '(l', removed) :=
          match l with Some ln => remove ln data | None => (None, None) end in
        let '(r', removed) :=
          match removed, r with None, Some rn => remove rn data | _, _ => (r, removed) end in
        (Some (Node (if removed is Some _ then to_int (s - 1) else s) l' r' d), removed)
      else (Some top, None)
  end.

Fixpoint checkNodes n : bool :=
  match n with
  | Node s l r d =>
      match l with Some ln => negb (outRanks (mData ln) d || negb (checkNodes ln)) | None => true end &&
      match r with Some rn => negb (outRanks (mData rn) d || negb (checkNodes rn)) | None => true end &&
      (to_int (to_int (s - from_option mSize 0 l) - from_option mSize 0 r) =? 1)
  end.

(** ** The heap: its root [mTree] *)

Definition LocHeap := option (LocHeapNode A).
Implicit Types h : LocHeap.

Definition heap_push h node : LocHeap :=
  match h with None => Some (new_node node) | Some n => Some (push n node) end.

Definition heap_peek h : option A := mData <$> h.

Definition heap_pop h : option A * LocHeap :=
  match h with
  | None => (None, None)
  | Some n => let '(h', d) := pop n in (Some d, h')
  end.

Definition heap_remove h data : option A * LocHeap :=
  match h with
  | None => (None, None)
  | Some n => let '(h', d) := remove n data in (d, h')
  end.

Definition checkTree h : bool := match h with None => true | Some n => checkNodes n end.
Definition getTreeSize h : Z := match h with None => 0 | Some n => trunc 32 (mSize n) end.

(** ** Reference definitions: the objects, their order and number *)

Fixpoint objects n : list A :=
  match n with
  | Node _ l r d => d :: from_option objects [] l ++ from_option objects [] r
  end.

(** No element of a subtree ranks above the root of the subtree. *)
Fixpoint ordered n : Prop :=
  match n with
  | Node _ l r d =>
      Forall (fun x => outRanks x d = false) (from_option objects [] l ++ from_option objects [] r) /\
      from_option ordered True l /\ from_option ordered True r
  end.

(** [mSize] is the number of nodes of the subtree, wrapped around if it is not
    an [int]. *)
Fixpoint sized n : Prop :=
  match n with
  | Node s l r d =>
      s = to_int (Z.of_nat (length (objects n))) /\ from_option sized True l /\ from_option sized True r
  end.

(** No counter has wrapped around. *)
Fixpoint counted n : Prop :=
  match n with
  | Node s l r d =>
      s = Z.of_nat (length (objects n)) /\ from_option counted True l /\ from_option counted True r
  end.

(** Every [mSize] is an [int]. *)
Fixpoint int_fields n : Prop :=
  match n with
  | Node s l r d =>
      - 2 ^ 31 <= s < 2 ^ 31 /\ from_option int_fields True l /\ from_option int_fields True r
  end.

Fixpoint height n : nat :=
  match n with
  | Node _ l r _ => S (Nat.max (from_option height O l) (from_option height O r))
  end.

Definition node_ok n : Prop := ordered n /\ sized n.

End node.
Arguments LocHeap A : clear implicits.

(** The same of a reference to a node, which may be null. *)
#[warnings="-notation-for-abbreviation"]
Notation heap_elements := (from_option objects []).
#[warnings="-notation-for-abbreviation"]
Notation heap_height := (from_option height O).
#[warnings="-notation-for-abbreviation"]
Notation heap_ok := (from_option node_ok True).

(** ** Induction over the tree *)

Section node_induction.
Context {A : Type} (P : LocHeapNode A -> Prop).
Hypothesis node_case : forall s l r d,
  from_option P True l -> from_option P True r -> P (Node s l r d).

Fixpoint node_induction (n : LocHeapNode A) : P n :=
  match n with
  | Node s l r d =>
      node_case s l r d
        match l return from_option P True l with Some l => node_induction l | None => I end
        match r return from_option P True r with Some r => node_induction r | None => I end
  end.
End node_induction.

(** ** The operations on nodes *)

(** Closes an equation between counters. *)
Ltac solve_size :=
  subst; rewrite ?to_int_add_l, ?to_int_sub_l; solve [auto | f_equal; lia].

(** Closes a goal on permutations with one from the context. *)
Ltac find_perm :=
  match goal with Hp : _ ≡ₚ _ |- _ => rewrite Hp; solve_Permutation end.

Section node_facts.
Context {A : Type} `{LocRankable A}.
Implicit Types (n top : LocHeapNode A) (l r h : LocHeap A) (d node data : A).

(** The objects strictly below the root. *)
Definition below n : list A := heap_elements (mLeft n) ++ heap_elements (mRight n).

Lemma elements_below n : objects n = mData n :: below n.
Proof. by destruct n as [s l r d]. Qed.

Lemma sized_mSize n : sized n -> mSize n = to_int (Z.of_nat (length (objects n))).
Proof. destruct n. by intros [??]. Qed.

Lemma counted_mSize n : counted n -> mSize n = Z.of_nat (length (objects n)).
Proof. destruct n. by intros [??]. Qed.

(** Below 2^31 objects no counter wraps around. *)
Lemma sized_counted n : sized n -> Z.of_nat (length (objects n)) < 2 ^ 31 -> counted n.
Proof.
  induction n as [s l r d IHl IHr] using node_induction. intros (Hs & Hl & Hr) Hlt. simpl in *.
  rewrite length_app in *. rewrite to_int_id in Hs by lia.
  split_and!; [done|destruct l|destruct r]; simpl in *; try done; (apply IHl || apply IHr); (done || lia).
Qed.

Lemma sized_int_fields n : sized n -> int_fields n.
Proof.
  induction n as [s l r d IHl IHr] using node_induction. intros (Hs & Hl & Hr). simpl in *.
  split_and!; [subst; apply to_int_range..|destruct l|destruct r]; simpl in *; auto.
Qed.

Lemma length_elements_pos n : (0 < length (objects n))%nat.
Proof. rewrite elements_below. simpl. lia. Qed.

Lemma push_elements n node : objects (push n node) ≡ₚ node :: objects n.
Proof.
  revert node. induction n as [s l r d IHl IHr] using node_induction. intros node. simpl.
  destruct (outRanks node d), l as [ln|], r as [rn|]; simpl in *;
    try destruct (_ <=? _); simpl; rewrite ?IHl, ?IHr; simpl; solve_Permutation.
Qed.

(** The popped node carries the data that was swapped down; the others remain. *)
Lemma pop_swapped_spec top data :
  snd (pop_swapped top data) = data /\ heap_elements (fst (pop_swapped top data)) ≡ₚ below top.
Proof.
  induction top as [s l r d IHl IHr] using node_induction. simpl.
  destruct l as [ln|], r as [rn|]; simpl in *; [destruct (outRanks _ _)| | |done];
    match goal with |- context [pop_swapped ?n data] => destruct (pop_swapped n data) end;
    unfold below in *; simpl in *; destruct_and?; split; try done;
    rewrite ?elements_below; unfold below; simpl.
  all: find_perm.
Qed.

Lemma push_sized n node : sized n -> sized (push n node).
Proof.
  revert node. induction n as [s l r d IHl IHr] using node_induction. intros node (Hs & Hl & Hr).
  assert (Hp := push_elements (Node s l r d) node). apply Permutation_length in Hp.
  simpl in *.
  destruct (outRanks node d), l as [ln|], r as [rn|]; simpl in *; try destruct (_ <=? _);
    simpl in *; split_and!; try done; auto; solve_size.
Qed.

Lemma pop_swapped_sized top data :
  sized top -> from_option sized True (fst (pop_swapped top data)).
Proof.
  induction top as [s l r d IHl IHr] using node_induction. intros (Hs & Hl & Hr).
  assert (Hp := proj2 (pop_swapped_spec (Node s l r d) data)). apply Permutation_length in Hp.
  unfold below in Hp. simpl in *.
  destruct l as [ln|], r as [rn|]; simpl in *; [destruct (outRanks _ _)| | |done];
    match goal with |- context [pop_swapped ?n data] => destruct (pop_swapped n data) end;
    simpl in *; split_and!; try done; auto; solve_size.
Qed.

(** ** The order *)

Context (D : A -> Prop) `{!RankOk D}.

Lemma outRanks_irrefl a : D a -> outRanks a a = false.
Proof.
  intros Ha. destruct (outRanks a a) eqn:E; [|done]. by rewrite (outRanks_asym a a Ha Ha E) in E.
Qed.

(** Nothing of the list ranks above [d]. *)
Definition dominates d : list A -> Prop := Forall (fun x => outRanks x d = false).

Lemma dominates_trans d d' xs :
  D d -> D d' -> Forall D xs -> dominates d xs -> outRanks d d' = false -> dominates d' xs.
Proof.
  intros Hd Hd' Hxs Hdom Hdd. unfold dominates in *. rewrite Forall_forall in *.
  eauto using outRanks_negtrans.
Qed.

Lemma dominates_perm d xs ys : xs ≡ₚ ys -> dominates d xs <-> dominates d ys.
Proof. intros Hp. unfold dominates. by rewrite Hp. Qed.

(** All objects of a subtree are ranked by the order. *)
Definition ranked n : Prop := Forall D (objects n).

Lemma ranked_Node s l r d :
  ranked (Node s l r d) <-> D d /\ from_option ranked True l /\ from_option ranked True r.
Proof.
  unfold ranked. simpl. rewrite Forall_cons, Forall_app.
  destruct l, r; simpl; intuition.
Qed.

Lemma ranked_mData n : ranked n -> D (mData n).
Proof. destruct n. rewrite ranked_Node. by intros [? _]. Qed.

Lemma ordered_dominates n : ranked n -> ordered n -> dominates (mData n) (objects n).
Proof. destruct n. intros Hr [Hd _]. constructor; [by apply outRanks_irrefl, (ranked_mData _ Hr)|done]. Qed.

Lemma push_ordered n node : D node -> ranked n -> ordered n -> ordered (push n node).
Proof.
  revert node. induction n as [s l r d IHl IHr] using node_induction.
  intros node Hn Hrk (Hd & Hl & Hr). assert (Hrk' := Hrk).
  apply ranked_Node in Hrk as (HDd & Hrl & Hrr). inversion_clear Hrk' as [|? ? _ HD].
  fold (dominates d (heap_elements l ++ heap_elements r)) in Hd.
  assert (exists d' x, (if outRanks node d then (node, d) else (d, node)) = (d', x) /\ D x /\
    dominates d' (x :: heap_elements l ++ heap_elements r)) as (d' & x & Hx & HDx & Hd').
  { destruct (outRanks node d) eqn:E; eexists _, _; split_and!; try done; constructor; try done.
    - by apply outRanks_asym.
    - apply (dominates_trans d); try done. by apply outRanks_asym. }
  cbn [push]. rewrite Hx. clear Hx.
  destruct l as [ln|], r as [rn|]; simpl in *; try destruct (_ <=? _); simpl; split_and!; auto;
    eapply (dominates_perm d'); try exact Hd'; rewrite ?push_elements; solve_Permutation.
Qed.

(** A child that may take the place of the root: the other one does not rank
    above it. *)
Lemma promote_ordered c o (xs ys : list A) :
  ranked c -> from_option ranked True o ->
  ordered c -> xs ≡ₚ below c -> from_option ordered True o -> ys = heap_elements o ->
  from_option (fun o => outRanks (mData o) (mData c)) false o = false ->
  dominates (mData c) (xs ++ ys).
Proof.
  intros HDc HDo Hc Hxs Ho -> Hoc. apply Forall_app. split.
  - apply (dominates_perm _ _ _ Hxs). apply ordered_dominates in Hc; [|done].
    rewrite elements_below in Hc. by apply Forall_cons_1 in Hc as [_ Hc].
  - destruct o as [o|]; simpl in *; [|constructor].
    apply (dominates_trans (mData o)); auto using ranked_mData, ordered_dominates.
Qed.

Lemma pop_swapped_ordered top data :
  ranked top -> ordered top -> from_option ordered True (fst (pop_swapped top data)).
Proof.
  induction top as [s l r d IHl IHr] using node_induction.
  intros (_ & Hrl & Hrr)%ranked_Node (Hd & Hl & Hr). simpl in *.
  destruct l as [ln|], r as [rn|]; simpl in *; [destruct (outRanks _ _) eqn:E| | |done];
    match goal with |- context [pop_swapped ?n data] =>
      pose proof (proj2 (pop_swapped_spec n data)); destruct (pop_swapped n data) as [t p] end;
    simpl in *; split_and!; auto.
  - apply (promote_ordered ln (Some rn)); auto. by apply outRanks_asym; [apply ranked_mData..|].
  - rewrite Permutation_app_comm. by apply (promote_ordered rn (Some ln)).
  - by apply (promote_ordered ln None).
  - rewrite <- (app_nil_r (heap_elements t)). by apply (promote_ordered rn None).
Qed.

Lemma push_ok n node : D node -> ranked n -> node_ok n -> node_ok (push n node).
Proof. intros ?? [??]. split; [by apply push_ordered|by apply push_sized]. Qed.

Lemma node_ok_option h :
  from_option ordered True h -> from_option sized True h -> heap_ok h.
Proof. by destruct h. Qed.

Lemma pop_ok n : ranked n -> node_ok n -> heap_ok (fst (pop n)).
Proof.
  intros ? [??]. apply node_ok_option; [by apply pop_swapped_ordered|by apply pop_swapped_sized].
Qed.

Lemma pop_spec n :
  snd (pop n) = mData n /\ objects n ≡ₚ mData n :: heap_elements (fst (pop n)).
Proof.
  destruct (pop_swapped_spec n (mData n)) as [H1 H2].
  split; [done|]. by rewrite elements_below, H2.
Qed.

(** ** Removal by address *)

(** In the heap an object is known by its address. *)
Definition identified data (xs : list A) : Prop :=
  forall x, x ∈ xs -> address x = address data -> x = data.

Lemma identified_app data xs ys :
  identified data (xs ++ ys) -> identified data xs /\ identified data ys.
Proof. intros Hid. split; intros x Hx; apply Hid, elem_of_app; auto. Qed.

Definition remove_post n data (res : option (LocHeapNode A) * option A) : Prop :=
  match snd res with
  | Some x => x = data /\ objects n ≡ₚ data :: heap_elements (fst res)
  | None => (data ∉ objects n) /\ fst res = Some n
  end.

Lemma remove_spec n data :
  D data -> ranked n -> ordered n -> identified data (objects n) ->
  remove_post n data (remove n data).
Proof.
  induction n as [s l r d IHl IHr] using node_induction. intros HDd Hrk Hord Hid.
  cbn [remove]. destruct (address data =? address d) eqn:Ea; bool_to_prop.
  { destruct (pop_spec (Node s l r d)) as [H1 H2]. destruct (pop _) as [t p].
    unfold remove_post. simpl in *. subst p.
    assert (d = data) as -> by (apply Hid; [left|done]). done. }
  assert (Hne : data <> d) by congruence.
  pose proof (ordered_dominates _ Hrk Hord) as Hdom. apply ranked_Node in Hrk as (_ & Hrl & Hrr).
  destruct Hord as (_ & Hl & Hr). simpl in Hid, Hdom, Hl, Hr.
  destruct (outRanks data d) eqn:Eo; simpl.
  { split; [|done]. simpl. intros Hin. unfold dominates in Hdom.
    rewrite Forall_forall in Hdom. rewrite (Hdom data Hin) in Eo. done. }
  rewrite app_comm_cons in Hid. apply identified_app in Hid as [Hidl Hidr].
  apply (identified_app data [d]) in Hidl as [_ Hidl].
  assert (Hlp : from_option (fun ln => remove_post ln data (remove ln data)) True l)
    by (destruct l; simpl in *; auto).
  assert (Hrp : from_option (fun rn => remove_post rn data (remove rn data)) True r)
    by (destruct r; simpl in *; auto).
  clear - Hlp Hrp Hne. unfold remove_post in *.
  destruct l as [ln|]; simpl in *; [destruct (remove ln data) as [l' [x|]]|]; simpl in *;
    destruct_and?; subst; [split; [done|]; simpl; find_perm|..];
    (destruct r as [rn|]; simpl in *; [destruct (remove rn data) as [r' [x|]]|]; simpl in *;
      destruct_and?; subst; [split; [done|]; simpl; find_perm|..]; (split; [set_solver|done])).
Qed.

(** A node whose subtrees lost the element [x]. *)
Lemma replace_ok s l r d x l' r' :
  node_ok (Node s l r d) -> heap_ok l' -> heap_ok r' ->
  heap_elements l ++ heap_elements r ≡ₚ x :: heap_elements l' ++ heap_elements r' ->
  node_ok (Node (to_int (s - 1)) l' r' d).
Proof.
  intros [(Hd & _) (Hs & _)] Hl Hr Hp. simpl in *. fold (dominates d) in Hd.
  assert (Hd' : dominates d (heap_elements l' ++ heap_elements r')).
  { rewrite (dominates_perm _ _ _ Hp) in Hd. by apply Forall_cons_1 in Hd as [_ Hd]. }
  apply Permutation_length in Hp. simpl in Hp.
  destruct l' as [l'|], r' as [r'|]; simpl in *; unfold node_ok in *; simpl; destruct_and?;
    split_and!; auto; solve_size.
Qed.

Lemma remove_ok n data :
  D data -> ranked n -> identified data (objects n) -> node_ok n ->
  heap_ok (fst (remove n data)).
Proof.
  induction n as [s l r d IHl IHr] using node_induction. intros HDd Hrk Hid Hok.
  cbn [remove]. destruct (address data =? address d).
  { pose proof (pop_ok _ Hrk Hok). by destruct (pop _). }
  apply ranked_Node in Hrk as (_ & Hrl & Hrr).
  destruct (outRanks data d); simpl; [done|].
  simpl in Hid. rewrite app_comm_cons in Hid. apply identified_app in Hid as [Hidl Hidr].
  apply (identified_app data [d]) in Hidl as [_ Hidl].
  assert (Hok' := Hok). destruct Hok' as [(_ & Hol & Hor) (_ & Hsl & Hsr)]. simpl in *.
  assert (from_option (fun ln => heap_ok (fst (remove ln data)) /\
    remove_post ln data (remove ln data)) True l)
    by (destruct l; simpl in *; [split; [by apply IHl|by apply remove_spec]|done]).
  assert (from_option (fun rn => heap_ok (fst (remove rn data)) /\
    remove_post rn data (remove rn data)) True r)
    by (destruct r; simpl in *; [split; [by apply IHr|by apply remove_spec]|done]).
  assert (heap_ok l /\ heap_ok r) by (split; by apply node_ok_option).
  clear IHl IHr. unfold remove_post in *.
  destruct l as [ln|]; simpl in *; [destruct (remove ln data) as [l' [x|]]|]; simpl in *;
    destruct_and?; subst; [eapply replace_ok; try done; simpl; find_perm|..];
    (destruct r as [rn|]; simpl in *; [destruct (remove rn data) as [r' [x|]]|]; simpl in *;
     destruct_and?; subst; [eapply replace_ok; try done; simpl; find_perm|..]; done).
Qed.

(** ** [checkNodes] *)

Lemma checkNodes_child o d :
  D d -> from_option ranked True o ->
  from_option (fun n => ranked n -> checkNodes n = true <-> node_ok n) True o ->
  match o with Some n => negb (outRanks (mData n) d || negb (checkNodes n)) | None => true end = true <->
  heap_ok o /\ dominates d (heap_elements o).
Proof.
  intros HDd Hrk IH. destruct o as [n|]; simpl in *; [|by split; [split; [done|constructor]|]].
  rewrite negb_true_iff, orb_false_iff, negb_false_iff, IH by done. split.
  - intros [Ho Hok]. split; [done|].
    apply (dominates_trans (mData n)); try done; [by apply ranked_mData|].
    by apply ordered_dominates, Hok.
  - intros [Hok Hd]. split; [|done]. rewrite elements_below in Hd.
    by apply Forall_cons_1 in Hd as [Hd _].
Qed.

Lemma heap_ok_sized h :
  heap_ok h -> from_option mSize 0 h = to_int (Z.of_nat (length (heap_elements h))).
Proof. destruct h as [n|]; [|done]. intros [_ Hs]. by apply sized_mSize. Qed.

Lemma node_ok_Node s l r d :
  node_ok (Node s l r d) <->
  (heap_ok l /\ dominates d (heap_elements l)) /\ (heap_ok r /\ dominates d (heap_elements r)) /\
  s = to_int (Z.of_nat (length (objects (Node s l r d)))).
Proof.
  unfold node_ok at 1. simpl. rewrite Forall_app. unfold dominates.
  destruct l as [ln|], r as [rn|]; simpl; unfold node_ok; tauto.
Qed.

(** The test of [checkNodes], in [int] arithmetic. *)
Lemma size_test s a b :
  - 2 ^ 31 <= s < 2 ^ 31 ->
  to_int (to_int (s - to_int a) - to_int b) = 1 <-> s = to_int (1 + (a + b)).
Proof.
  intros Hs. rewrite to_int_sub_r, to_int_sub_r, to_int_sub_l. split.
  - intros H1. rewrite <- (to_int_id s Hs). replace s with (s - a - b + (a + b)) by lia.
    by rewrite <- to_int_add_l, H1.
  - intros ->. rewrite <- Z.sub_add_distr, to_int_sub_l. by replace (_ - _) with 1 by lia.
Qed.

Lemma checkNodes_ok n : ranked n -> int_fields n -> checkNodes n = true <-> node_ok n.
Proof.
  induction n as [s l r d IHl IHr] using node_induction.
  intros (HDd & Hrl & Hrr)%ranked_Node (Hs & Hil & Hir). rewrite node_ok_Node. cbn [checkNodes].
  assert (from_option (fun n => ranked n -> checkNodes n = true <-> node_ok n) True l) as Hcl
    by (destruct l; simpl in *; auto).
  assert (from_option (fun n => ranked n -> checkNodes n = true <-> node_ok n) True r) as Hcr
    by (destruct r; simpl in *; auto).
  pose proof (checkNodes_child l d HDd Hrl Hcl) as El. pose proof (checkNodes_child r d HDd Hrr Hcr) as Er.
  assert (heap_ok l -> heap_ok r ->
    (to_int (to_int (s - from_option mSize 0 l) - from_option mSize 0 r) =? 1) = true <->
    s = to_int (Z.of_nat (length (objects (Node s l r d))))) as Es.
  { intros Hl Hr. rewrite (heap_ok_sized l Hl), (heap_ok_sized r Hr), Z.eqb_eq, (size_test s _ _ Hs).
    cbn [objects length]. by rewrite length_app, Nat2Z.inj_succ, Nat2Z.inj_add, <- Z.add_1_l. }
  rewrite !andb_true_iff. tauto.
Qed.

(** ** Balance under pushes *)

(** The left subtree has as many objects as the right one, or one more. *)
Fixpoint balanced n : Prop :=
  match n with
  | Node _ l r _ =>
      (length (heap_elements r) <= length (heap_elements l) <= S (length (heap_elements r)))%nat /\
      from_option balanced True l /\ from_option balanced True r
  end.

Lemma push_balanced n node : counted n -> balanced n -> balanced (push n node).
Proof.
  revert node. induction n as [s l r d IHl IHr] using node_induction.
  intros node (Hs & Hl & Hr) (Hb & Hbl & Hbr). cbn [push].
  destruct (if outRanks node d then _ else _) as [d' x].
  destruct l as [ln|], r as [rn|]; simpl in *.
  - rewrite (counted_mSize ln), (counted_mSize rn) by done.
    destruct (_ <=? _) eqn:E; bool_to_prop; simpl;
      rewrite (Permutation_length (push_elements _ _)); simpl; split_and!; auto; lia.
  - pose proof (length_elements_pos ln). split_and!; auto; lia.
  - pose proof (length_elements_pos rn). lia.
  - split_and!; auto; lia.
Qed.

Lemma balanced_height n : balanced n -> height n = S (Nat.log2 (length (objects n))).
Proof.
  induction n as [s l r d IHl IHr] using node_induction. intros (Hb & Hbl & Hbr). simpl.
  rewrite length_app. f_equal.
  destruct l as [ln|]; simpl in *.
  2: { destruct r as [rn|]; simpl in *; [|done]. pose proof (length_elements_pos rn). lia. }
  specialize (IHl Hbl). pose proof (length_elements_pos ln) as Hpos.
  assert (Hr : (heap_height r <= S (Nat.log2 (length (objects ln))))%nat).
  { destruct r as [rn|]; simpl in *; [|lia]. rewrite IHr by done.
    apply le_n_S, Nat.log2_le_mono. lia. }
  rewrite IHl, Nat.max_l by done.
  set (a := length (objects ln)) in *. set (b := length (heap_elements r)) in *.
  assert (S (a + b) = 2 * a \/ S (a + b) = 2 * a + 1)%nat as [-> | ->] by lia.
  - by rewrite Nat.log2_double.
  - by rewrite Nat.log2_succ_double.
Qed.
End node_facts.

(** ** Sequences of operations *)

Inductive heap_op (A : Type) := OpPush (a : A) | OpPeek | OpPop | OpRemove (a : A).
Arguments OpPush {A} a.
Arguments OpPeek {A}.
Arguments OpPop {A}.
Arguments OpRemove {A} a.

Section runs.
Context {A : Type} `{LocRankable A}.
Implicit Types (h : LocHeap A) (a : A) (q : list A) (op : heap_op A).

Definition heap_step h op : option A * LocHeap A :=
  match op with
  | OpPush a => (None, heap_push h a)
  | OpPeek => (heap_peek h, h)
  | OpPop => heap_pop h
  | OpRemove a => heap_remove h a
  end.

Fixpoint heap_run h (ops : list (heap_op A)) : list (option A) * LocHeap A :=
  match ops with
  | [] => ([], h)
  | op :: ops =>
      let '(out, h) := heap_step h op in
      let '(outs, h) := heap_run h ops in (out :: outs, h)
  end.

(** The loop [for(data = heap.pop(); NULL != data; data = heap.pop())]. *)
Fixpoint heap_drain (fuel : nat) h : option (list A * LocHeap A) :=
  match fuel with
  | O => None
  | S fuel =>
      match heap_pop h with
      | (None, h) => Some ([], h)
      | (Some d, h) => '(ds, h) ← heap_drain fuel h; Some (d :: ds, h)
      end
  end.

(** The abstract priority queue: a bag of objects, of which a highest one is
    seen and taken.  Equal rank leaves the choice open. *)
Inductive pq_step : list A -> heap_op A -> option A -> list A -> Prop :=
| pq_push q a : pq_step q (OpPush a) None (a :: q)
| pq_peek_empty : pq_step [] OpPeek None []
| pq_peek q a : a ∈ q -> dominates a q -> pq_step q OpPeek (Some a) q
| pq_pop_empty : pq_step [] OpPop None []
| pq_pop q a q' : q ≡ₚ a :: q' -> dominates a q' -> pq_step q OpPop (Some a) q'
| pq_remove q a q' : q ≡ₚ a :: q' -> pq_step q (OpRemove a) (Some a) q'
| pq_remove_none q a : (a ∉ q) -> pq_step q (OpRemove a) None q.

Inductive pq_run : list A -> list (heap_op A) -> list (option A) -> list A -> Prop :=
| pq_done q : pq_run q [] [] q
| pq_more q op out q1 ops outs q2 :
    pq_step q op out q1 -> pq_run q1 ops outs q2 -> pq_run q (op :: ops) (out :: outs) q2.

(** The number of pushes. *)
Fixpoint push_count (ops : list (heap_op A)) : nat :=
  match ops with
  | [] => O
  | op :: ops => (if op is OpPush _ then 1 else 0) + push_count ops
  end.

(** The objects a sequence pushes or asks for. *)
Definition op_objects op : list A :=
  match op with OpPush a | OpRemove a => [a] | _ => [] end.

(** Two different objects have different addresses. *)
Definition distinct_objects (D : A -> Prop) : Prop :=
  forall a b, D a -> D b -> address a = address b -> a = b.

Lemma pq_run_length q ops outs q' :
  pq_run q ops outs q' -> (length q' <= length q + push_count ops)%nat.
Proof.
  induction 1 as [|q op out q1 ops outs q2 Hs _ IH]; simpl; [lia|].
  destruct Hs as [q a| |q a|  |q a q' Hp|q a q' Hp|q a]; simpl in *; try lia;
    apply Permutation_length in Hp; simpl in Hp; lia.
Qed.

Context (D : A -> Prop) `{!RankOk D}.

Lemma new_node_ok a : node_ok (new_node a).
Proof. split; simpl; [split; [constructor|done]|done]. Qed.

Lemma heap_push_ok h a :
  D a -> Forall D (heap_elements h) -> heap_ok h ->
  heap_ok (heap_push h a) /\ heap_elements (heap_push h a) ≡ₚ a :: heap_elements h.
Proof.
  destruct h as [n|]; simpl; intros; [|split; [apply new_node_ok|done]].
  split; [by apply (push_ok D)|apply push_elements].
Qed.

Lemma heap_pop_ok h :
  Forall D (heap_elements h) -> heap_ok h ->
  match heap_pop h with
  | (Some d, h') => heap_peek h = Some d /\ heap_ok h' /\
      heap_elements h ≡ₚ d :: heap_elements h' /\ dominates d (heap_elements h')
  | (None, h') => h = None /\ h' = None
  end.
Proof.
  destruct h as [n|]; simpl; intros HD Hok; [|done].
  destruct (pop_spec n) as [H1 H2]. assert (H3 := pop_ok D _ HD Hok).
  assert (Hd := ordered_dominates D _ HD (proj1 Hok)).
  destruct (pop n) as [t p]. simpl in *. subst p.
  rewrite (dominates_perm _ _ _ H2) in Hd. apply Forall_cons_1 in Hd as [_ Hd]. done.
Qed.

Lemma heap_remove_ok h a :
  D a -> Forall D (heap_elements h) -> distinct_objects D -> heap_ok h ->
  match heap_remove h a with
  | (Some d, h') => d = a /\ heap_ok h' /\ heap_elements h ≡ₚ a :: heap_elements h'
  | (None, h') => (a ∉ heap_elements h) /\ h' = h
  end.
Proof.
  destruct h as [n|]; simpl; intros Ha HD Hinj Hok; [|split; [set_solver|done]].
  assert (Hid : identified a (objects n)).
  { intros x Hx. apply Hinj; [|done]. by eapply Forall_forall in HD. }
  assert (Hsp := remove_spec D _ _ Ha HD (proj1 Hok) Hid).
  assert (Hok' := remove_ok D _ _ Ha HD Hid Hok).
  unfold remove_post in Hsp. by destruct (remove n a) as [t [x|]]; simpl in *; destruct_and?.
Qed.

Lemma heap_peek_dominates h a :
  Forall D (heap_elements h) -> heap_ok h -> heap_peek h = Some a ->
  a ∈ heap_elements h /\ dominates a (heap_elements h).
Proof.
  destruct h as [n|]; simpl; intros HD Hok Ha; simplify_eq/=.
  split; [rewrite elements_below; left|]. by apply (ordered_dominates D), Hok.
Qed.

Lemma heap_step_pq h op q :
  heap_ok h -> q ≡ₚ heap_elements h -> Forall D q -> Forall D (op_objects op) ->
  distinct_objects D ->
  exists q', pq_step q op (fst (heap_step h op)) q' /\
    heap_ok (snd (heap_step h op)) /\ q' ≡ₚ heap_elements (snd (heap_step h op)) /\ Forall D q'.
Proof.
  intros Hok Hq HD Hop Hinj. assert (HD' := HD). rewrite Hq in HD'.
  destruct op as [a| | |a]; simpl in *.
  - apply Forall_cons_1 in Hop as [Ha _]. destruct (heap_push_ok h a Ha HD' Hok) as [H1 H2].
    exists (a :: q). split_and!; try done; [constructor|by rewrite H2, Hq|by constructor].
  - exists q. split_and!; try done. destruct h as [n|].
    + destruct (heap_peek_dominates _ (mData n) HD' Hok eq_refl) as [Hin Hd].
      constructor; [by rewrite Hq|by apply (dominates_perm _ _ _ Hq)].
    + apply Permutation_nil_r in Hq as ->. constructor.
  - assert (Hpop := heap_pop_ok h HD' Hok). destruct (heap_pop h) as [[d|] h']; simpl.
    + destruct Hpop as (_ & Hok' & Hp & Hd). exists (heap_elements h').
      split_and!; try done; [constructor; [by rewrite Hq|done]|].
      rewrite Hp in HD'. by apply Forall_cons_1 in HD' as [_ HD'].
    + destruct Hpop as [-> ->]. apply Permutation_nil_r in Hq as ->.
      exists []. split_and!; try done. constructor.
  - apply Forall_cons_1 in Hop as [Ha _].
    assert (Hrm := heap_remove_ok h a Ha HD' Hinj Hok). destruct (heap_remove h a) as [[d|] h']; simpl.
    + destruct Hrm as (-> & Hok' & Hp). exists (heap_elements h').
      split_and!; try done; [constructor; by rewrite Hq|].
      rewrite Hp in HD'. by apply Forall_cons_1 in HD' as [_ HD'].
    + destruct Hrm as [Hn ->]. exists q. split_and!; try done. constructor. by rewrite Hq.
Qed.

Lemma heap_run_pq h ops q :
  heap_ok h -> q ≡ₚ heap_elements h -> Forall D q -> Forall D (ops ≫= op_objects) ->
  distinct_objects D ->
  exists q', pq_run q ops (fst (heap_run h ops)) q' /\
    heap_ok (snd (heap_run h ops)) /\ q' ≡ₚ heap_elements (snd (heap_run h ops)) /\ Forall D q'.
Proof.
  revert h q. induction ops as [|op ops IH]; intros h q Hok Hq HD Hops Hinj; simpl.
  { exists q. split_and!; try done. constructor. }
  cbn in Hops. apply Forall_app in Hops as [Hop Hops].
  destruct (heap_step_pq h op q) as (q1 & Hs & Hok1 & Hq1 & HD1); try done.
  destruct (heap_step h op) as [out h1]. simpl in *.
  destruct (IH h1 q1) as (q2 & Hr & Hok2 & Hq2 & HD2); try done.
  destruct (heap_run h1 ops) as [outs h2]. simpl in *.
  exists q2. split_and!; try done. by econstructor.
Qed.

Lemma heap_drain_spec fuel h :
  Forall D (heap_elements h) -> heap_ok h -> (length (heap_elements h) < fuel)%nat ->
  exists ds, heap_drain fuel h = Some (ds, None) /\ ds ≡ₚ heap_elements h /\
    StronglySorted (fun a b => outRanks b a = false) ds.
Proof.
  revert h. induction fuel as [|fuel IH]; intros h HD Hok Hf; [lia|].
  simpl. assert (Hpop := heap_pop_ok h HD Hok). destruct (heap_pop h) as [[d|] t].
  - destruct Hpop as (_ & Hok' & Hp & Hd). rewrite Hp in HD, Hf. simpl in Hf.
    apply Forall_cons_1 in HD as [_ HD]. destruct (IH t HD Hok') as (ds & -> & Hds & Hs); [lia|].
    exists (d :: ds). split_and!; [done|by rewrite Hp, Hds|]. constructor; [done|].
    by rewrite Hds.
  - destruct Hpop as [-> ->]. exists []. split_and!; try done. constructor.
Qed.

Lemma push_all_balanced (xs : list A) h :
  from_option sized True h -> from_option balanced True h ->
  Z.of_nat (length (xs ++ heap_elements h)) < 2 ^ 31 ->
  from_option balanced True (foldl heap_push h xs) /\
  heap_elements (foldl heap_push h xs) ≡ₚ xs ++ heap_elements h.
Proof.
  revert h. induction xs as [|x xs IH]; intros h Hs Hb Hlt; simpl; [done|].
  assert (Hp : heap_elements (heap_push h x) ≡ₚ x :: heap_elements h)
    by (destruct h; simpl; [apply push_elements|done]).
  destruct (IH (heap_push h x)) as (H2 & H3).
  - destruct h; simpl in *; [by apply push_sized|done].
  - destruct h; simpl in *; [apply push_balanced; [apply sized_counted; [done|]|done]|simpl; lia].
    rewrite length_app in Hlt. lia.
  - rewrite Hp. revert Hlt. simpl. rewrite !length_app. simpl. lia.
  - split; [done|]. rewrite H3, Hp. solve_Permutation.
Qed.
End runs.

(** ** The test client in [LocHeap.cpp]: objects ranked by their ids *)

(** [LocHeapDebugData]; the smaller id ranks higher. *)
Record LocHeapDebugData := { mID : Z; debug_address : Z }.

#[export] Instance debug_rankable : LocRankable LocHeapDebugData := {|
  ranks a b := mID b - mID a;
  address := debug_address
|}.

#[export] Instance debug_rank_ok D : RankOk (A := LocHeapDebugData) D.
Proof.
  split; unfold outRanks; simpl; intros *; rewrite ?Z.ltb_lt, ?Z.ltb_ge; lia.
Qed.

Definition debug_data (i : Z) : LocHeapDebugData := {| mID := i; debug_address := 100 + i |}.

(** ** Properties *)

Section properties.
Context {A : Type} `{LocRankable A}.
Implicit Types (h : LocHeap A).

(** [checkNodes], which looks at each node and its children only, holds
    exactly of the trees in which no element ranks above the root of any
    subtree it lies in and every [mSize] is the number of nodes of the subtree:
    the check of the unit tests is equivalent to the heap invariant. *)
Theorem checkNodes_iff (n : LocHeapNode A) :
  RankOk (fun x => x ∈ objects n) -> int_fields n ->
  checkNodes n = true <-> ordered n /\ sized n.
Proof. intros Hr Hi. apply (checkNodes_ok (fun x => x ∈ objects n)); [by apply Forall_forall|done]. Qed.

(** C36.  The heap refines a priority queue.  Let the objects be ranked by a
    strict weak order and have different addresses, and let there be fewer than
    2^31 pushes.  Then what any sequence of pushes, peeks, pops and removals on an
    empty heap returns is what a bag of objects returns that gives out an object no
    other one outranks and, asked to remove an object, takes out this very object
    (by address, which is what the code does; [LocHeap.h] says by rank).  The heap
    then holds the bag, no [mSize] has overflowed, [checkTree] passes and
    [getTreeSize] is the number of objects. *)
Theorem heap_refines_pq (ops : list (heap_op A)) :
  RankOk (fun x => x ∈ ops ≫= op_objects) -> distinct_objects (fun x => x ∈ ops ≫= op_objects) ->
  Z.of_nat (push_count ops) < 2 ^ 31 ->
  exists q, pq_run [] ops (fst (heap_run None ops)) q /\
    q ≡ₚ heap_elements (snd (heap_run None ops)) /\
    from_option counted True (snd (heap_run None ops)) /\
    checkTree (snd (heap_run None ops)) = true /\
    getTreeSize (snd (heap_run None ops)) = Z.of_nat (length q).
Proof.
  intros Hrk Hinj Hlt. destruct (heap_run_pq _ None ops []) as (q & Hr & Hok & Hq & HD);
    try done; [by apply Forall_forall|].
  pose proof (pq_run_length _ _ _ _ Hr) as Hlen. simpl in Hlen.
  exists q. rewrite Hq in HD. assert (Hl : length q = length (heap_elements (snd (heap_run None ops)))) by (by rewrite Hq).
  rewrite Hl in *. destruct (snd (heap_run None ops)) as [n|]; [|done]. simpl in *.
  assert (Hc : counted n) by (apply sized_counted; [apply Hok|lia]).
  split_and!; [done..| |].
  - by apply (checkNodes_ok (fun x => x ∈ ops ≫= op_objects)); [|apply sized_int_fields, Hok|].
  - rewrite counted_mSize by done. apply trunc_id. split; lia.
Qed.

(** C37. Popping until the heap is empty terminates after as many rounds as
    [getTreeSize] reports, plus the one that finds it empty, and yields every
    object once, in the order of rank: the heap sorts.  The heap has passed its
    check and has fewer than 2^31 objects. *)
Theorem heap_drain_sorts h :
  RankOk (fun x => x ∈ heap_elements h) -> from_option int_fields True h ->
  Z.of_nat (length (heap_elements h)) < 2 ^ 31 -> checkTree h = true ->
  exists ds, heap_drain (S (Z.to_nat (getTreeSize h))) h = Some (ds, None) /\
    ds ≡ₚ heap_elements h /\ StronglySorted (fun a b => outRanks b a = false) ds.
Proof.
  intros Hr Hi Hlt Hc. assert (HD : Forall (fun x => x ∈ heap_elements h) (heap_elements h))
    by (by apply Forall_forall).
  assert (Hok : heap_ok h) by (destruct h; [by eapply checkNodes_ok|done]).
  eapply heap_drain_spec; try done. destruct h as [n|]; simpl in *; [|lia].
  rewrite counted_mSize by (apply sized_counted; [apply Hok|done]). rewrite trunc_id by (split; lia). lia.
Qed.

(** Dropping each new node into the smaller subtree balances the heap:
    after [n] pushes and nothing else its height is that of a perfectly
    balanced tree, one more than the binary logarithm of [n]. *)
Theorem push_all_height (xs : list A) :
  Z.of_nat (length xs) < 2 ^ 31 ->
  heap_height (foldl heap_push None xs) =
  match xs with [] => O | _ => S (Nat.log2 (length xs)) end.
Proof.
  intros Hlt. destruct (push_all_balanced xs None) as [Hb Hp]; [done|done|by rewrite app_nil_r|].
  apply Permutation_length in Hp. rewrite length_app in Hp. simpl in Hp.
  destruct (foldl heap_push None xs) as [n|]; simpl in *.
  - rewrite (balanced_height n Hb), Hp. pose proof (length_elements_pos n).
    destruct xs; simpl in *; [lia|]. by rewrite Nat.add_0_r.
  - by destruct xs.
Qed.
End properties.

Lemma heap_refines_pq_witness :
  let ops := OpPush (debug_data 5) :: OpPush (debug_data 2) :: OpPush (debug_data 9) ::
    OpPeek :: OpRemove (debug_data 5) :: OpPop :: OpRemove (debug_data 5) :: [] in
  fst (heap_run None ops) =
    [None; None; None; Some (debug_data 2); Some (debug_data 5); Some (debug_data 2); None] /\
  exists q, pq_run [] ops (fst (heap_run None ops)) q /\
    q ≡ₚ heap_elements (snd (heap_run None ops)) /\
    from_option counted True (snd (heap_run None ops)) /\
    checkTree (snd (heap_run None ops)) = true /\
    getTreeSize (snd (heap_run None ops)) = Z.of_nat (length q).
Proof.
  intros ops. split; [reflexivity|]. apply heap_refines_pq; [apply debug_rank_ok| |reflexivity].
  intros a b Ha Hb. cbn in Ha, Hb.
  repeat (apply elem_of_cons in Ha as [->|Ha]); try (by apply not_elem_of_nil in Ha);
    repeat (apply elem_of_cons in Hb as [->|Hb]); try (by apply not_elem_of_nil in Hb);
    simpl; intros; try done; lia.
Defined.

Lemma checkNodes_iff_witness :
  let n := push (push (new_node (debug_data 5)) (debug_data 2)) (debug_data 9) in
  checkNodes n = true /\ ordered n /\ sized n.
Proof.
  intros n. assert (checkNodes n = true) as Hc by reflexivity. split; [exact Hc|].
  apply (checkNodes_iff n (debug_rank_ok _)); [vm_compute; intuition discriminate|exact Hc].
Defined.

Lemma heap_drain_sorts_witness :
  let h := foldl heap_push None (debug_data <$> [4; 8; 1; 6; 2]) in
  checkTree h = true /\
  exists ds, heap_drain (S (Z.to_nat (getTreeSize h))) h = Some (ds, None) /\
    ds ≡ₚ heap_elements h /\ StronglySorted (fun a b => outRanks b a = false) ds.
Proof. intros h. split; [reflexivity|]. apply heap_drain_sorts; [apply debug_rank_ok|vm_compute; intuition discriminate|reflexivity..].
Defined.

Example drain_example :
  heap_drain 6 (foldl heap_push None (debug_data <$> [4; 8; 1; 6; 2])) =
  Some (debug_data <$> [1; 2; 4; 6; 8], None).
Proof. reflexivity. Qed.
