(* ===== verification/LocTimer.v ===== *)
(** * The timer service of the GPS utilities ([gps/utils/LocTimer.cpp], [LocTimer.h])

    Clients start and stop timers from any thread.  A started timer is a
    [LocTimerDelegate] in one of two containers (timers and alarms), each a
    [LocHeap] with a timerfd that is set to the deadline of the soonest timer.
    One thread, of [MsgTask], does all heap work in the order of its message
    queue; another, of [LocTimerPollTask], waits for the timerfds.  The lock of a
    client is shared with its delegates and counted ([LocSharedLock.h]).

    The state holds every object the threads share, the kernel's part of the
    timerfds, the message queue and where each thread is.  An action is one
    atomic step of a thread: a critical section of a client's lock, one system
    call, one operation on the heap.  [None] is undefined behaviour: the use of
    an object that has been deleted, or of a null container. *)
From S2P Require Import Prelude LocHeap.
From stdpp Require Import base list gmap sets sorting.
From Stdlib Require Import ZArith Lia.

Open Scope Z_scope.

(** ** Time *)

Record timespec := { tv_sec : Z; tv_nsec : Z }.

#[export] Instance timespec_eq_dec : EqDecision timespec.
Proof. solve_decision. Defined.

Definition timespec_ns (t : timespec) : Z := tv_sec t * 1000000000 + tv_nsec t.

(** The deadline that [LocTimer::start] computes from the clock; the argument is
    an unsigned integer of 32 bits. *)
Definition futureTime (now : timespec) (timeOutInMs : Z) : timespec :=
  let sec := tv_sec now + timeOutInMs / 1000 in
  let nsec := tv_nsec now + timeOutInMs mod 1000 * 1000000 in
  if 1000000000 <=? nsec
  then {| tv_sec := sec + nsec / 1000000000; tv_nsec := nsec mod 1000000000 |}
  else {| tv_sec := sec; tv_nsec := nsec |}.

(** ** The objects *)

(** A pointer to a delegate as the heap sees it: [mFutureTime] is set by the
    constructor and not assigned again. *)
Record timer_ptr := { ptr : Z; ptr_time : timespec }.

(** [LocTimerDelegate::ranks] *)
Definition delegate_ranks (self timer : timer_ptr) : Z :=
  let rank := to_int (tv_sec (ptr_time timer) - tv_sec (ptr_time self)) in
  if 0 =? rank then to_int (tv_nsec (ptr_time timer) - tv_nsec (ptr_time self)) else rank.

#[export] Instance delegate_rankable : LocRankable timer_ptr :=
  {| ranks := delegate_ranks; address := ptr |}.

(** [LocTimerDelegate]; [mContainer] is null or one of the two containers. *)
Record LocTimerDelegate := {
  mClient : option Z;
  mLock : Z;
  mFutureTime : timespec;
  mContainer : option bool
}.

(** [LocTimer] *)
Record LocTimer := { mTimer : option Z; timer_mLock : Z }.

(** [LocTimerContainer]: its heap; the time its timerfd is set to, if it is
    armed; whether the timerfd is in the epoll set. *)
Record LocTimerContainer := {
  mTree : LocHeap timer_ptr;
  armed : option timespec;
  polled : bool
}.

(** The messages of [add], [remove] and [expire]. *)
Inductive LocMsg :=
| MsgTimerPush (w : bool) (timer : Z)
| MsgTimerRemove (w : bool) (timer : Z)
| MsgTimerExpire (w : bool).

(** System calls on the timerfd of a container, and the message of [expire]. *)
Inductive syscall :=
| AddPoll (w : bool)
| RemovePoll (w : bool)
| SetTime (w : bool) (t : option timespec)
| SendExpire (w : bool).

(** Where the thread of [MsgTask] is: waiting for a message; before the given
    system calls, and then the deletion of a delegate; in the loop of
    [MsgTimerExpire::proc], before [timer->expire()], before [client->stop()],
    before [client->timeOutCallback()] and before [popIfOutRanks]. *)
Inductive task :=
| TIdle
| TCalls (cs : list syscall) (del : option Z)
| TFire (w : bool) (now : timespec) (timer : Z)
| TStop (w : bool) (now : timespec) (client : Z)
| TCallback (w : bool) (now : timespec) (client : Z)
| TNext (w : bool) (now : timespec).

(** What clients see: a timer started with its deadline, stopped by its client
    while it ran, called back at the given time. *)
Inductive event :=
| EStart (client : Z) (deadline : timespec)
| EStop (client : Z)
| EFired (client : Z) (time : timespec).

#[export] Instance event_eq_dec : EqDecision event.
Proof. solve_decision. Defined.

Record state := {
  clock : timespec;
  containers : gmap bool LocTimerContainer;
  clients : gmap Z LocTimer;
  delegates : gmap Z LocTimerDelegate;
  locks : gmap Z Z;
  mQ : list LocMsg;
  msg_task : task;
  poll_task : list syscall;
  log : list event
}.

#[export] Instance settable_container : Settable LocTimerContainer := fun c =>
  {| mTree := mTree c; armed := armed c; polled := polled c |}.
#[export] Instance settable_state : Settable state := fun s =>
  {| clock := clock s; containers := containers s; clients := clients s;
     delegates := delegates s; locks := locks s; mQ := mQ s; msg_task := msg_task s;
     poll_task := poll_task s; log := log s |}.

Implicit Types (s : state) (w : bool) (c d l : Z) (t now : timespec) (con : LocTimerContainer).

Definition init_state (now : timespec) : state :=
  {| clock := now; containers := ∅; clients := ∅; delegates := ∅; locks := ∅; mQ := [];
     msg_task := TIdle; poll_task := []; log := [] |}.

(** ** Shared locks *)

(** [LocSharedLock::share] *)
Definition lock_share l s : option state :=
  mRef ← locks s !! l; Some (s <| locks := <[l := mRef + 1]> (locks s) |>).

(** [LocSharedLock::drop] *)
Definition lock_drop l s : option state :=
  mRef ← locks s !! l;
  Some (s <| locks := if mRef =? 1 then delete l (locks s) else <[l := mRef - 1]> (locks s) |>).

(** [lock] needs the lock to exist. *)
Definition lock_lock l s : option unit := _ ← locks s !! l; Some ().

(** ** Containers *)

(** [LocTimerContainer::get]; [fd] tells whether [timerfd_create] succeeds if
    the container is to be created.  The result is null if it fails. *)
Definition get_container (fd : bool) w s : bool * state :=
  match containers s !! w with
  | Some _ => (true, s)
  | None =>
      if fd then (true, s <| containers := <[w := {| mTree := None; armed := None; polled := false |}]> (containers s) |>)
      else (false, s)
  end.

Definition sendMsg (m : LocMsg) s : state := s <| mQ := mQ s ++ [m] |>.

Definition getSoonestTimer con : option timer_ptr := heap_peek (mTree con).

(** [LocTimerContainer::updateSoonestTime]: the system calls it makes. *)
Definition updateSoonestTime w (priorTop : option timer_ptr) con : list syscall :=
  let curTop := getSoonestTimer con in
  if decide (ptr <$> curTop = ptr <$> priorTop) then []
  else
    match curTop with
    | None => [RemovePoll w; SetTime w None]
    | Some cur =>
        if (match priorTop with None => true | Some prior => outRanks cur prior end)
        then [AddPoll w; SetTime w (Some (ptr_time cur))]
        else []
    end.

(** [LocTimerContainer::popIfOutRanks], with the time of the delegate
    [timerOfNow]. *)
Definition popIfOutRanks now con : option timer_ptr * LocTimerContainer :=
  match heap_peek (mTree con) with
  | Some top =>
      if negb (outRanks {| ptr := 0; ptr_time := now |} top)
      then let '(popped, h) := heap_pop (mTree con) in (popped, con <| mTree := h |>)
      else (None, con)
  | None => (None, con)
  end.

(** The effect of a system call on its container; [timerfd_settime] with the
    time zero disarms. *)
Definition do_call (call : syscall) s : option state :=
  let on w (f : LocTimerContainer -> LocTimerContainer) :=
    con ← containers s !! w; Some (s <| containers := <[w := f con]> (containers s) |>) in
  match call with
  | AddPoll w => on w (fun con => con <| polled := true |>)
  | RemovePoll w => on w (fun con => con <| polled := false |>)
  | SetTime w t =>
      on w (fun con => con <| armed :=
        match t with Some t => if timespec_ns t =? 0 then None else Some t | None => None end |>)
  | SendExpire w => Some (sendMsg (MsgTimerExpire w) s)
  end.

(** ** Clients *)

(** [LocTimer::LocTimer] *)
Definition timer_new c l s : state :=
  s <| locks := <[l := 1]> (locks s) |>
    <| clients := <[c := {| mTimer := None; timer_mLock := l |}]> (clients s) |>.

(** [LocTimerDelegate::LocTimerDelegate]: [d] is the address of the delegate. *)
Definition delegate_new (fd : bool) c l t w d s : option state :=
  s ← lock_share l s;
  let '(ok, s) := get_container fd w s in
  let s := s <| delegates := <[d := {| mClient := Some c; mLock := l; mFutureTime := t;
                                       mContainer := Some w |}]> (delegates s) |> in
  if ok then Some (sendMsg (MsgTimerPush w d) s) else None.

(** [LocTimer::start] *)
Definition timer_start (fd : bool) c timeOutInMs w d s : option (bool * state) :=
  tm ← clients s !! c;
  _ ← lock_lock (timer_mLock tm) s;
  match mTimer tm with
  | Some _ => Some (false, s)
  | None =>
      let t := futureTime (clock s) timeOutInMs in
      s ← delegate_new fd c (timer_mLock tm) t w d s;
      Some (true, s <| clients := <[c := {| mTimer := Some d; timer_mLock := timer_mLock tm |}]> (clients s) |>
                    <| log := log s ++ [EStart c t] |>)
  end.

(** [LocTimerDelegate::destroyLocked] *)
Definition destroyLocked d s : option state :=
  r ← delegates s !! d;
  let s := s <| delegates := <[d := {| mClient := None; mLock := mLock r; mFutureTime := mFutureTime r;
                                       mContainer := None |}]> (delegates s) |> in
  match mContainer r with
  | Some w => Some (sendMsg (MsgTimerRemove w d) s)
  | None => Some s
  end.

(** [LocTimer::stop] *)
Definition timer_stop c s : option (bool * state) :=
  tm ← clients s !! c;
  _ ← lock_lock (timer_mLock tm) s;
  match mTimer tm with
  | None => Some (false, s)
  | Some d =>
      s ← destroyLocked d (s <| clients := <[c := {| mTimer := None; timer_mLock := timer_mLock tm |}]> (clients s) |>);
      Some (true, s)
  end.

(** A stop of the client's, which it sees succeed or fail. *)
Definition client_stop c s : option state :=
  '(ok, s) ← timer_stop c s;
  Some (if (ok : bool) then s <| log := log s ++ [EStop c] |> else s).

(** [LocTimer::~LocTimer] *)
Definition timer_delete c s : option state :=
  tm ← clients s !! c;
  s ← client_stop c s;
  s ← lock_drop (timer_mLock tm) s;
  Some (s <| clients := delete c (clients s) |>).

(** [delete mTimer]: the destructor of the delegate drops its lock. *)
Definition delegate_delete d s : option state :=
  r ← delegates s !! d;
  s ← lock_drop (mLock r) s;
  Some (s <| delegates := delete d (delegates s) |>).

(** ** The thread of [MsgTask] *)

(** An operation on the heap of [con] may compare any object in it, so each has
    to be a delegate that exists. *)
Definition alive s (p : timer_ptr) : bool :=
  match delegates s !! ptr p with
  | Some r => bool_decide (mFutureTime r = ptr_time p)
  | None => false
  end.

Definition heap_objects con s : option unit :=
  if forallb (alive s) (from_option objects [] (mTree con)) then Some () else None.

Definition set_tree w con (h : LocHeap timer_ptr) s : state :=
  s <| containers := <[w := con <| mTree := h |>]> (containers s) |>.

(** [proc] of the three messages, up to its first system call or, for
    [MsgTimerExpire], up to the first [timer->expire()]. *)
Definition proc (m : LocMsg) s : option state :=
  match m with
  | MsgTimerPush w d =>
      con ← containers s !! w; _ ← heap_objects con s; r ← delegates s !! d;
      let priorTop := getSoonestTimer con in
      let h := heap_push (mTree con) {| ptr := d; ptr_time := mFutureTime r |} in
      let s := set_tree w con h s in
      Some (s <| msg_task := TCalls (updateSoonestTime w priorTop (con <| mTree := h |>)) None |>)
  | MsgTimerRemove w d =>
      con ← containers s !! w; _ ← heap_objects con s; r ← delegates s !! d;
      let priorTop := getSoonestTimer con in
      let '(removed, h) := heap_remove (mTree con) {| ptr := d; ptr_time := mFutureTime r |} in
      let s := set_tree w con h s in
      let calls :=
        if decide (ptr <$> priorTop = ptr <$> removed)
        then updateSoonestTime w None (con <| mTree := h |>) else [] in
      Some (s <| msg_task := TCalls calls (Some d) |>)
  | MsgTimerExpire w =>
      con ← containers s !! w; _ ← heap_objects con s;
      let now := clock s in
      let '(timer, h) := heap_pop (mTree con) in
      let s := set_tree w con h s in
      Some (s <| msg_task :=
        match timer with
        | Some p => TFire w now (ptr p)
        | None => TCalls (updateSoonestTime w None (con <| mTree := h |>)) None
        end |>)
  end.

(** One step of the thread; [MsgTask::run] takes the oldest message. *)
Definition msg_step s : option state :=
  match msg_task s with
  | TIdle =>
      match mQ s with
      | [] => Some s
      | m :: q => proc m (s <| mQ := q |>)
      end
  | TCalls (call :: cs) del => s ← do_call call s; Some (s <| msg_task := TCalls cs del |>)
  | TCalls [] None => Some (s <| msg_task := TIdle |>)
  | TCalls [] (Some d) => s ← delegate_delete d s; Some (s <| msg_task := TIdle |>)
  | TFire w now d =>
      r ← delegates s !! d;
      Some (s <| msg_task := match mClient r with Some c => TStop w now c | None => TNext w now end |>)
  | TStop w now c =>
      '(ok, s) ← timer_stop c s;
      Some (s <| msg_task := if (ok : bool) then TCallback w now c else TNext w now |>)
  | TCallback w now c =>
      _ ← clients s !! c;
      Some (s <| log := log s ++ [EFired c (clock s)] |> <| msg_task := TNext w now |>)
  | TNext w now =>
      con ← containers s !! w; _ ← heap_objects con s;
      let '(timer, con) := popIfOutRanks now con in
      let s := s <| containers := <[w := con]> (containers s) |> in
      Some (s <| msg_task :=
        match timer with
        | Some p => TFire w now (ptr p)
        | None => TCalls (updateSoonestTime w None con) None
        end |>)
  end.

(** ** The thread of [LocTimerPollTask] *)

(** [LocTimerContainer::expire] *)
Definition expire_calls w : list syscall := [SetTime w None; RemovePoll w; SendExpire w].

(** The timerfd of [w] is readable and polled. *)
Definition ready s w : bool :=
  match containers s !! w with
  | Some con =>
      polled con &&
      match armed con with Some t => timespec_ns t <=? timespec_ns (clock s) | None => false end
  | None => false
  end.

(** ** The steps *)

Inductive action :=
| ATick (t : timespec)
| ANew (c l : Z)
| AStart (fd : bool) (c timeOutInMs : Z) (w : bool) (d : Z)
| AStop (c : Z)
| ADelete (c : Z)
| AWake (ws : list bool)
| APoll
| AMsg.

(** When an action can happen.  A client only uses timers that exist, and [new]
    returns an address that is not in use.  The clock moves on, and stays within
    [2^31] seconds with the longest timeout added; [epoll_wait] returns timerfds
    that are ready. *)
Definition time_ok t : bool :=
  (0 <=? tv_sec t) && (tv_sec t <? 2 ^ 31 - 4294969) && (0 <=? tv_nsec t) && (tv_nsec t <? 1000000000) &&
  (0 <? timespec_ns t).

Definition enabled (a : action) s : bool :=
  match a with
  | ATick t => time_ok t && (timespec_ns (clock s) <=? timespec_ns t)
  | ANew c l => bool_decide (clients s !! c = None) && bool_decide (locks s !! l = None)
  | AStart _ c ms _ d =>
      bool_decide (is_Some (clients s !! c)) && bool_decide (delegates s !! d = None) &&
      (0 <=? ms) && (ms <? 2 ^ 32)
  | AStop c | ADelete c => bool_decide (is_Some (clients s !! c))
  | AWake ws =>
      bool_decide (poll_task s = []) && bool_decide (ws <> []) && bool_decide (NoDup ws) &&
      forallb (ready s) ws
  | APoll => negb (bool_decide (poll_task s = []))
  | AMsg => match msg_task s, mQ s with TIdle, [] => false | _, _ => true end
  end.

Definition exec (a : action) s : option state :=
  match a with
  | ATick t => Some (s <| clock := t |>)
  | ANew c l => Some (timer_new c l s)
  | AStart fd c ms w d => snd <$> timer_start fd c ms w d s
  | AStop c => client_stop c s
  | ADelete c => timer_delete c s
  | AWake ws => Some (s <| poll_task := ws ≫= expire_calls |>)
  | APoll =>
      match poll_task s with
      | [] => Some s
      | call :: cs => s ← do_call call s; Some (s <| poll_task := cs |>)
      end
  | AMsg => msg_step s
  end.

(** What the service asks of its environment: [timerfd_create] succeeds, and a
    client is not deleted while the thread of [MsgTask] is about to call it. *)
Definition disciplined (a : action) s : bool :=
  match a with
  | AStart fd _ _ _ _ => fd
  | ADelete c =>
      match msg_task s with
      | TStop _ _ c' | TCallback _ _ c' => negb (c =? c')
      | _ => true
      end
  | _ => true
  end.

Inductive reachable : state -> Prop :=
| reach_init now : time_ok now = true -> reachable (init_state now)
| reach_step s a s' :
    reachable s -> enabled a s = true -> disciplined a s = true -> exec a s = Some s' -> reachable s'.

(** Runs, for examples: [None] if an action is not enabled or undefined. *)
Fixpoint run (acts : list action) s : option state :=
  match acts with
  | [] => Some s
  | a :: acts => if enabled a s && disciplined a s then s ← exec a s; run acts s else None
  end.

Lemma run_reachable acts s s' : reachable s -> run acts s = Some s' -> reachable s'.
Proof.
  revert s. induction acts as [|a acts IH]; simpl; intros s Hr Hs; [by simplify_eq|].
  destruct (enabled a s) eqn:He; [|done]. destruct (disciplined a s) eqn:Hd; [|done].
  simpl in Hs. apply bind_Some in Hs as (s1 & Hx & Hs). eapply IH; [|done].
  by eapply reach_step.
Qed.

(** ** The C interface *)

(** [loc_timer_start]: a [LocTimerWrapper] at the address [c] is created and
    started if there is a callback, and its address is the handle.  The timeout
    has 64 bits and the parameter of [start] 32. *)
Definition loc_timer_start (fd : bool) (msec : Z) (cb_func : bool) (wake_on_expire : bool) c l d s :
    option (option Z * state) :=
  if cb_func then
    '(_, s) ← timer_start fd c (trunc 32 msec) wake_on_expire d (timer_new c l s);
    Some (Some c, s)
  else Some (None, s).
