(* ===== verification/LocTimerInv.v ===== *)
(** * The invariant of the timer service

    Where each delegate may be: its push message is queued, or it is in one heap,
    or the expiry loop has popped it; once stopped it has one removal message, in
    the queue after any push, and is deleted when that has been handled.  Every
    step of [LocTimer.v] keeps the invariant and needs no object that has been
    deleted. *)
From S2P Require Import Prelude LocHeap LocTimer.
From stdpp Require Import base list gmap sets sorting.
From Stdlib Require Import ZArith Lia.

Open Scope Z_scope.

Implicit Types (s : state) (w : bool) (c d l : Z) (t now : timespec) (con : LocTimerContainer)
  (r : LocTimerDelegate) (tm : LocTimer) (q : list LocMsg).

(** ** Values of a map up to permutation *)

Section values.
Context {B : Type} (f : B -> Z).
Implicit Types (m : gmap Z B).

Definition values m : list Z := (fun kv => f (snd kv)) <$> map_to_list m.

Lemma values_insert m i x : m !! i = None -> values (<[i := x]> m) ≡ₚ f x :: values m.
Proof. intros Hi. unfold values. by rewrite (map_to_list_insert m i x Hi). Qed.

Lemma values_delete m i x : m !! i = Some x -> values m ≡ₚ f x :: values (delete i m).
Proof. intros Hi. unfold values. by rewrite <- (map_to_list_delete m i x Hi). Qed.

Lemma values_update m i x y :
  m !! i = Some x -> f y = f x -> values (<[i := y]> m) ≡ₚ values m.
Proof.
  intros Hi Hf. rewrite (values_delete m i x Hi), <- Hf, <- insert_delete_eq.
  apply values_insert, lookup_delete_eq.
Qed.
End values.

(** ** Where things are *)

Definition pushes q : list (bool * Z) :=
  omap (fun m => if m is MsgTimerPush w d then Some (w, d) else None) q.
Definition removals q : list (bool * Z) :=
  omap (fun m => if m is MsgTimerRemove w d then Some (w, d) else None) q.

Definition heap_of s w : list timer_ptr :=
  match containers s !! w with Some con => from_option objects [] (mTree con) | None => [] end.

(** The delegate the expiry loop has popped, and the one about to be deleted. *)
Definition firing (tk : task) : list Z := if tk is TFire _ _ d then [d] else [].
Definition deleting (tk : task) : list Z := if tk is TCalls _ (Some d) then [d] else [].

(** The delegates that wait for their deadline, with their container. *)
Definition places s : list (bool * Z) :=
  pushes (mQ s) ++ (pair false ∘ ptr <$> heap_of s false) ++ (pair true ∘ ptr <$> heap_of s true).

Definition held s : list Z := (snd <$> places s) ++ firing (msg_task s).
Definition pend s : list Z := (snd <$> removals (mQ s)) ++ deleting (msg_task s).

(** [w] is the container [d] was created for. *)
Definition at_home s w d : Prop :=
  exists r, delegates s !! d = Some r /\
    (mContainer r = Some w \/ mContainer r = None /\ (w, d) ∈ removals (mQ s)).

(** No push of a delegate is queued behind its removal. *)
Definition ordered_q q : Prop :=
  forall q1 q2 w d, q = q1 ++ MsgTimerRemove w d :: q2 -> forall w', (w', d) ∉ pushes q2.

(** A pointer in a heap is to a delegate that exists. *)
Definition stored s (p : timer_ptr) : Prop :=
  exists r, delegates s !! ptr p = Some r /\ mFutureTime r = ptr_time p.

(** A proper deadline: it ranks as its value in nanoseconds does, and a timerfd
    set to it is armed. *)
Definition valid t : Prop :=
  0 <= tv_sec t < 2 ^ 31 /\ 0 <= tv_nsec t < 1000000000 /\ 0 < timespec_ns t.

Definition msg_container (m : LocMsg) : bool :=
  match m with MsgTimerPush w _ | MsgTimerRemove w _ | MsgTimerExpire w => w end.
Definition call_container (call : syscall) : bool :=
  match call with AddPoll w | RemovePoll w | SetTime w _ | SendExpire w => w end.
Definition task_containers (tk : task) : list bool :=
  match tk with
  | TIdle => []
  | TCalls cs _ => call_container <$> cs
  | TFire w _ _ | TStop w _ _ | TCallback w _ _ | TNext w _ => [w]
  end.

(** The containers the threads are about to use. *)
Definition used s : list bool :=
  (msg_container <$> mQ s) ++ task_containers (msg_task s) ++ (call_container <$> poll_task s).

Definition holders s : list Z := values mLock (delegates s) ++ values timer_mLock (clients s).

Definition count (l : Z) (ls : list Z) : nat := length (filter (l =.) ls).

(** Every lock counts the clients and delegates that hold it. *)
Definition locks_ok s : Prop :=
  forall l, locks s !! l = match count l (holders s) with O => None | n => Some (Z.of_nat n) end.

Record inv s : Prop := {
  inv_clock : time_ok (clock s) = true;
  inv_locks : locks_ok s;
  inv_running : forall c tm d, clients s !! c = Some tm -> mTimer tm = Some d ->
    exists r, delegates s !! d = Some r /\ mClient r = Some c;
  inv_active : forall d r c, delegates s !! d = Some r -> mClient r = Some c ->
    exists tm w, clients s !! c = Some tm /\ mTimer tm = Some d /\ mContainer r = Some w /\
      is_Some (containers s !! w);
  inv_inactive : forall d r, delegates s !! d = Some r -> mClient r = None ->
    mContainer r = None /\ d ∈ pend s;
  inv_pend : forall d, d ∈ pend s -> exists r, delegates s !! d = Some r /\ mClient r = None;
  inv_pend_once : NoDup (pend s);
  inv_held : forall d, d ∈ held s -> is_Some (delegates s !! d);
  inv_held_once : NoDup (held s);
  inv_deleting : forall d, d ∈ deleting (msg_task s) -> d ∉ held s;
  inv_home : forall w d, (w, d) ∈ places s -> at_home s w d;
  inv_order : ordered_q (mQ s);
  inv_heaps : forall w con, containers s !! w = Some con ->
    from_option node_ok True (mTree con) /\ Forall (stored s) (from_option objects [] (mTree con));
  inv_times : forall d r, delegates s !! d = Some r -> valid (mFutureTime r);
  inv_used : forall w, w ∈ used s -> is_Some (containers s !! w);
  inv_target : forall w now c, msg_task s = TStop w now c \/ msg_task s = TCallback w now c ->
    is_Some (clients s !! c)
}.

(** ** Time and rank *)

Lemma ranks_valid (p q : timer_ptr) :
  valid (ptr_time p) -> valid (ptr_time q) ->
  outRanks p q = (timespec_ns (ptr_time p) <? timespec_ns (ptr_time q)).
Proof.
  intros (Hs & Hn & _) (Hs' & Hn' & _). unfold outRanks, timespec_ns. simpl. unfold delegate_ranks.
  rewrite !to_int_id by lia. destruct (0 =? _) eqn:E; bool_to_prop;
    apply eq_true_iff_eq; rewrite !Z.ltb_lt; lia.
Qed.

#[export] Instance valid_rank_ok (D : timer_ptr -> Prop) :
  (forall p, D p -> valid (ptr_time p)) -> RankOk D.
Proof.
  intros HD. split; intros *; intros.
  - rewrite ranks_valid in * by auto. bool_to_prop. apply Z.ltb_ge. lia.
  - rewrite ranks_valid in * by auto. bool_to_prop. apply Z.ltb_ge. lia.
Qed.

Lemma futureTime_ns now ms :
  0 <= tv_nsec now -> 0 <= ms ->
  timespec_ns (futureTime now ms) = timespec_ns now + ms * 1000000.
Proof.
  intros Hn Hms. unfold futureTime, timespec_ns.
  pose proof (Z.div_mod ms 1000 ltac:(lia)) as Hd.
  destruct (_ <=? _); simpl; [|lia].
  pose proof (Z.div_mod (tv_nsec now + ms mod 1000 * 1000000) 1000000000 ltac:(lia)). lia.
Qed.

Lemma futureTime_valid now ms :
  time_ok now = true -> 0 <= ms < 2 ^ 32 -> valid (futureTime now ms).
Proof.
  unfold time_ok. intros Ht Hms. bool_to_prop.
  assert (Hpos : 0 < timespec_ns (futureTime now ms)) by (rewrite futureTime_ns; lia).
  cut (0 <= tv_sec (futureTime now ms) < 2 ^ 31 /\ 0 <= tv_nsec (futureTime now ms) < 1000000000).
  { by intros [??]. }
  clear Hpos. unfold futureTime.
  pose proof (Z.mod_pos_bound ms 1000 ltac:(lia)).
  assert (ms / 1000 < 4294968) by (apply Z.div_lt_upper_bound; lia).
  assert (0 <= ms / 1000) by (apply Z.div_pos; lia).
  destruct (_ <=? _) eqn:E; bool_to_prop; simpl; [|lia].
  set (n := tv_nsec now + _) in *.
  assert (n / 1000000000 < 2) by (apply Z.div_lt_upper_bound; lia).
  assert (0 <= n / 1000000000) by (apply Z.div_pos; lia).
  pose proof (Z.mod_pos_bound n 1000000000 ltac:(lia)). lia.
Qed.

(** ** Lists of messages *)

Lemma pushes_app q q' : pushes (q ++ q') = pushes q ++ pushes q'.
Proof. apply omap_app. Qed.

Lemma removes_app q q' : removals (q ++ q') = removals q ++ removals q'.
Proof. apply omap_app. Qed.

Lemma ordered_q_tail m q : ordered_q (m :: q) -> ordered_q q.
Proof. intros Ho q1 q2 w d ->. by apply (Ho (m :: q1) q2 w d). Qed.

Lemma ordered_q_snoc m q :
  (forall w d w', m = MsgTimerPush w d -> (w', d) ∉ removals q) ->
  ordered_q q -> ordered_q (q ++ [m]).
Proof.
  intros Hm Ho q1 q2 w d Hq w'.
  destruct q2 as [|x q2 _] using rev_ind; [by apply not_elem_of_nil|].
  rewrite app_comm_cons, app_assoc in Hq. apply app_inj_tail in Hq as [Hq <-].
  rewrite pushes_app. specialize (Ho q1 q2 w d Hq w'). rewrite not_elem_of_app. split; [done|].
  destruct m as [w1 d1| |]; simpl; try apply not_elem_of_nil.
  intros [= <- <-]%list_elem_of_singleton. apply (Hm w' d w eq_refl).
  rewrite Hq, removes_app. apply elem_of_app. right. left.
Qed.

(** ** Steps that leave the objects alone *)

Lemma heap_of_Some s w con :
  containers s !! w = Some con -> heap_of s w = from_option objects [] (mTree con).
Proof. intros Hw. unfold heap_of. by rewrite Hw. Qed.

Lemma elem_of_places s w d :
  (w, d) ∈ places s <-> (w, d) ∈ pushes (mQ s) \/ exists p, p ∈ heap_of s w /\ ptr p = d.
Proof.
  unfold places. rewrite !elem_of_app, !list_elem_of_fmap. split.
  - intros [Hp|[(p & [= -> ->] & Hp)|(p & [= -> ->] & Hp)]]; eauto.
  - intros [Hp|(p & Hp & <-)]; [by left|]. right. destruct w; [right|left]; by exists p.
Qed.

Lemma places_held s w d : (w, d) ∈ places s -> d ∈ held s.
Proof. intros Hp. apply elem_of_app. left. apply list_elem_of_fmap. by exists (w, d). Qed.

Lemma places_ext s s' :
  pushes (mQ s') = pushes (mQ s) ->
  (forall w, mTree <$> containers s' !! w = mTree <$> containers s !! w) -> places s' = places s.
Proof.
  intros Hpu Htree. assert (Hheap : forall w, heap_of s' w = heap_of s w).
  { intros w. specialize (Htree w). unfold heap_of.
    by destruct (containers s' !! w), (containers s !! w); simplify_eq/=; try congruence. }
  unfold places. by rewrite Hpu, !Hheap.
Qed.

(** The state [s'] has the objects of [s]; only the kernel's part, the expiry
    messages and the position of the threads differ. *)
Lemma inv_ext s s' :
  inv s -> time_ok (clock s') = true ->
  locks s' = locks s -> clients s' = clients s -> delegates s' = delegates s ->
  pushes (mQ s') = pushes (mQ s) -> removals (mQ s') = removals (mQ s) -> ordered_q (mQ s') ->
  (forall w, mTree <$> containers s' !! w = mTree <$> containers s !! w) ->
  (firing (msg_task s') = firing (msg_task s) \/ firing (msg_task s') = []) ->
  deleting (msg_task s') = deleting (msg_task s) ->
  (forall w, w ∈ used s' -> w ∈ used s \/ is_Some (containers s !! w)) ->
  (forall w now c, msg_task s' = TStop w now c \/ msg_task s' = TCallback w now c ->
    is_Some (clients s !! c)) ->
  inv s'.
Proof.
  intros Hi Hclock Hl Hc Hd Hpu Hre Hord Htree Hfire Hdel Hused Htarget.
  assert (Hcon : forall w, is_Some (containers s' !! w) <-> is_Some (containers s !! w)).
  { intros w. specialize (Htree w). by destruct (containers s' !! w), (containers s !! w). }
  assert (Hpl : places s' = places s) by (by apply places_ext).
  assert (Hpe : pend s' = pend s) by (unfold pend; by rewrite Hre, Hdel).
  assert (Hheld : held s' = held s \/ held s' = snd <$> places s).
  { unfold held. rewrite Hpl. destruct Hfire as [-> | ->]; [by left|right; apply app_nil_r]. }
  assert (Hheld' : forall d, d ∈ held s' -> d ∈ held s).
  { intros d. destruct Hheld as [-> | ->]; [done|]. intros. apply elem_of_app. by left. }
  destruct Hi. split; try done; rewrite ?Hl, ?Hc, ?Hd, ?Hpe, ?Hdel; try done.
  - intros l. unfold holders. rewrite Hl, Hc, Hd. apply inv_locks0.
  - intros d r c Hr Hcl. destruct (inv_active0 d r c Hr Hcl) as (tm & w & H1 & H2 & H3 & H4).
    exists tm, w. by rewrite Hcon.
  - intros d Hdh. by apply inv_held0, Hheld'.
  - destruct Hheld as [-> | ->]; [done|]. by apply NoDup_app in inv_held_once0 as [? _].
  - intros d Hdd Hh. by apply (inv_deleting0 d Hdd), Hheld'.
  - intros w d. rewrite Hpl. intros Hp%inv_home0. unfold at_home. by rewrite Hd, Hre.
  - intros w con Hw. specialize (Htree w). rewrite Hw in Htree.
    destruct (containers s !! w) as [con0|] eqn:Hw0; simplify_eq/=. rewrite Htree.
    destruct (inv_heaps0 w con0 Hw0) as [H1 H2]. split; [done|].
    eapply Forall_impl; [done|]. intros p (r & Hr & Ht). exists r. by rewrite Hd.
  - intros w Hw. apply Hcon. destruct (Hused w Hw); auto.
Qed.

(** The messages of a list without a push or a removal. *)
Lemma snoc_expire q w :
  ordered_q q ->
  pushes (q ++ [MsgTimerExpire w]) = pushes q /\ removals (q ++ [MsgTimerExpire w]) = removals q /\
  ordered_q (q ++ [MsgTimerExpire w]).
Proof.
  intros. rewrite pushes_app, removes_app, !app_nil_r. split_and!; try done.
  by apply ordered_q_snoc.
Qed.

(** The tree of every container is as it was, and nothing else of the objects
    changes, in a system call. *)
Lemma do_call_spec call s :
  is_Some (containers s !! call_container call) -> ordered_q (mQ s) ->
  exists s', do_call call s = Some s' /\ clock s' = clock s /\
    locks s' = locks s /\ clients s' = clients s /\ delegates s' = delegates s /\
    pushes (mQ s') = pushes (mQ s) /\ removals (mQ s') = removals (mQ s) /\ ordered_q (mQ s') /\
    (forall w, mTree <$> containers s' !! w = mTree <$> containers s !! w) /\
    msg_task s' = msg_task s /\ poll_task s' = poll_task s /\ log s' = log s /\
    (forall w, w ∈ msg_container <$> mQ s' -> w ∈ msg_container <$> mQ s \/ w = call_container call).
Proof.
  intros [con Hw] Ho. destruct call as [w|w|w t|w]; simpl in *;
    try (rewrite Hw; eexists; split; [done|]; simpl; split_and!; try done; [|auto];
      intros w'; destruct (decide (w' = w)) as [->|];
      [by rewrite lookup_insert_eq, Hw|by rewrite lookup_insert_ne]).
  eexists. split; [done|]. simpl. destruct (snoc_expire (mQ s) w Ho) as (H1 & H2 & H3).
  split_and!; try done. intros w'. rewrite fmap_app, elem_of_app. simpl.
  by rewrite list_elem_of_singleton.
Qed.

Lemma inv_call s call :
  inv s -> is_Some (containers s !! call_container call) ->
  exists s', do_call call s = Some s' /\ inv s' /\
    clients s' = clients s /\ delegates s' = delegates s /\
    (forall w, mTree <$> containers s' !! w = mTree <$> containers s !! w) /\
    msg_task s' = msg_task s /\ poll_task s' = poll_task s /\ log s' = log s /\
    places s' = places s /\ clock s' = clock s.
Proof.
  intros Hi Hw. destruct (do_call_spec call s Hw (inv_order _ Hi))
    as (s' & Hs & Hk & Hl & Hc & Hd & Hp & Hr & Ho & Ht & Hm & Hpt & Hlog & Hq).
  exists s'. split_and!; try done; [|by apply places_ext]. apply (inv_ext s); try done.
  - rewrite Hk. apply Hi.
  - rewrite Hm. by left.
  - by rewrite Hm.
  - unfold used. rewrite Hm, Hpt. intros w. rewrite !elem_of_app.
    intros [[Hin | ->]%Hq|Hin]; auto.
  - rewrite Hm. apply Hi.
Qed.

(** ** Locks *)

Lemma count_cons l l' ls : count l (l' :: ls) = ((if decide (l = l') then 1 else 0) + count l ls)%nat.
Proof. unfold count. rewrite filter_cons. by destruct (decide _). Qed.

#[export] Instance count_proper l : Proper (Permutation ==> eq) (count l).
Proof. intros ls ls' Hp. unfold count. by rewrite Hp. Qed.

Lemma count_elem l ls : l ∈ ls -> (0 < count l ls)%nat.
Proof.
  intros Hin. destruct (count l ls) eqn:E; [|lia].
  apply length_zero_iff_nil in E. assert (l ∈ filter (l =.) ls) as Hf
    by (by apply list_elem_of_filter). rewrite E in Hf. by apply not_elem_of_nil in Hf.
Qed.

Lemma locks_ok_perm s s' :
  locks s' = locks s -> holders s' ≡ₚ holders s -> locks_ok s -> locks_ok s'.
Proof. intros Hl Hh Hok l. rewrite Hl, Hh. apply Hok. Qed.

Lemma locks_ok_held s l : locks_ok s -> l ∈ holders s -> exists n, locks s !! l = Some n.
Proof.
  intros Hok Hin. specialize (Hok l). apply count_elem in Hin.
  destruct (count l (holders s)); [lia|eauto].
Qed.

Lemma values_elem {B} (f : B -> Z) (m : gmap Z B) i x : m !! i = Some x -> f x ∈ values f m.
Proof. intros Hi. rewrite (values_delete f m i x Hi). left. Qed.

Lemma client_lock s c tm :
  locks_ok s -> clients s !! c = Some tm -> exists n, locks s !! timer_mLock tm = Some n.
Proof.
  intros Hok Hc. apply locks_ok_held; [done|]. apply elem_of_app. right. by eapply values_elem.
Qed.

(** One more holder, and one less. *)
Lemma lock_share_ok l n s s' :
  locks_ok s -> locks s !! l = Some n ->
  locks s' = <[l := n + 1]> (locks s) -> holders s' ≡ₚ l :: holders s -> locks_ok s'.
Proof.
  intros Hok Hn Hl Hh l'. rewrite Hl, Hh, count_cons.
  destruct (decide (l' = l)) as [->|Hne].
  - rewrite lookup_insert_eq. specialize (Hok l). rewrite Hn in Hok. simpl.
    destruct (count l (holders s)); simplify_eq. f_equal. lia.
  - rewrite lookup_insert_ne by done. apply Hok.
Qed.

Lemma lock_drop_ok l s :
  locks_ok s -> l ∈ holders s ->
  exists lk, lock_drop l s = Some (s <| locks := lk |>) /\
    forall s', locks s' = lk -> holders s ≡ₚ l :: holders s' -> locks_ok s'.
Proof.
  intros Hok Hin. destruct (locks_ok_held s l Hok Hin) as [n Hn]. unfold lock_drop. rewrite Hn.
  eexists. split; [done|]. intros s' Hl Hh l'. rewrite Hl. specialize (Hok l').
  rewrite Hh, count_cons in Hok.
  destruct (decide (l' = l)) as [->|Hne].
  - rewrite Hn in Hok. simpl in Hok. destruct (n =? 1) eqn:E; bool_to_prop.
    + rewrite lookup_delete_eq. destruct (count l (holders s')); [done|]. simplify_eq. lia.
    + rewrite lookup_insert_eq. destruct (count l (holders s')); simplify_eq. f_equal. lia.
  - destruct (n =? 1); rewrite ?lookup_delete_ne, ?lookup_insert_ne by done; apply Hok.
Qed.

(** ** [stop] *)

(** The state after [stop] on client [c] whose timer [d] runs in [w]. *)
Definition stopped c tm d r w s : state :=
  s <| clients := <[c := {| mTimer := None; timer_mLock := timer_mLock tm |}]> (clients s) |>
    <| delegates := <[d := {| mClient := None; mLock := mLock r; mFutureTime := mFutureTime r;
                              mContainer := None |}]> (delegates s) |>
    <| mQ := mQ s ++ [MsgTimerRemove w d] |>.

Lemma inv_stopped s c tm d r w :
  inv s -> clients s !! c = Some tm -> mTimer tm = Some d ->
  delegates s !! d = Some r -> mClient r = Some c -> mContainer r = Some w ->
  is_Some (containers s !! w) -> inv (stopped c tm d r w s).
Proof.
  intros Hi Hc Ht Hd Hcl Hw Hcw. set (s' := stopped c tm d r w s).
  assert (Hpu : pushes (mQ s') = pushes (mQ s)) by (cbn; by rewrite pushes_app, app_nil_r).
  assert (Hre : removals (mQ s') = removals (mQ s) ++ [(w, d)]) by (cbn; by rewrite removes_app).
  assert (Hdel : delegates s' = <[d := {| mClient := None; mLock := mLock r;
    mFutureTime := mFutureTime r; mContainer := None |}]> (delegates s)) by done.
  assert (Hheld : held s' = held s) by (unfold held, places; by rewrite Hpu).
  assert (Hpend : pend s' ≡ₚ d :: pend s).
  { unfold pend. rewrite Hre, fmap_app. cbn. solve_Permutation. }
  assert (Hnp : d ∉ pend s).
  { intros Hin. destruct (inv_pend _ Hi d Hin) as (r' & Hr' & Hn). congruence. }
  split; try apply Hi.
  - apply (locks_ok_perm s); [done| |apply Hi]. unfold holders. cbn.
    by rewrite (values_update _ _ _ _ _ Hd), (values_update _ _ _ _ _ Hc).
  - intros c' tm' d' Hc' Ht'. cbn in Hc'. apply lookup_insert_Some in Hc' as [[<- <-]|[Hne Hc']]; [done|].
    destruct (inv_running _ Hi c' tm' d' Hc' Ht') as (r' & Hr' & Hcl').
    exists r'. cbn. rewrite lookup_insert_ne; [done|]. intros <-. congruence.
  - intros d' r' c' Hr' Hcl'. cbn in Hr'. apply lookup_insert_Some in Hr' as [[<- <-]|[Hne Hr']]; [done|].
    destruct (inv_active _ Hi d' r' c' Hr' Hcl') as (tm' & w' & H1 & H2 & H3).
    exists tm', w'. cbn. rewrite lookup_insert_ne; [done|]. intros <-. congruence.
  - intros d' r' Hr' Hcl'. rewrite Hpend, elem_of_cons. cbn in Hr'.
    apply lookup_insert_Some in Hr' as [[<- <-]|[Hne Hr']]; [by split; [|left]|].
    destruct (inv_inactive _ Hi d' r' Hr' Hcl'). split; [done|by right].
  - intros d'. rewrite Hpend, elem_of_cons. cbn. intros Hin.
    destruct (decide (d = d')) as [<-|Hne]; [rewrite lookup_insert_eq; by eexists|].
    rewrite lookup_insert_ne by done. destruct Hin as [->|Hin]; [done|]. by apply Hi.
  - rewrite Hpend. constructor; [done|apply Hi].
  - intros d'. rewrite Hheld. cbn. intros Hin%(inv_held _ Hi). apply lookup_insert_is_Some'. by right.
  - rewrite Hheld. apply Hi.
  - intros d' Hdd. rewrite Hheld. by apply Hi.
  - intros w' d' Hp. assert (Hp' : (w', d') ∈ places s) by (revert Hp; unfold places; by rewrite Hpu).
    destruct (inv_home _ Hi w' d' Hp') as (r' & Hr' & Hor). unfold at_home. rewrite Hre, Hdel.
    setoid_rewrite elem_of_app. destruct (decide (d = d')) as [<-|Hne].
    + rewrite lookup_insert_eq. eexists. split; [done|]. right. split; [done|]. right.
      apply list_elem_of_singleton. destruct Hor as [Hor|[Hor _]]; congruence.
    + rewrite lookup_insert_ne by done. exists r'. split; [done|].
      destruct Hor as [Hor|[Hor Hin]]; [by left|right]. auto.
  - apply ordered_q_snoc; [done|apply Hi].
  - intros w' con Hcon. destruct (inv_heaps _ Hi w' con Hcon) as [H1 H2]. split; [done|].
    eapply Forall_impl; [done|]. intros p (r' & Hr' & Htm). unfold stored. cbn.
    destruct (decide (d = ptr p)) as [->|Hne]; [rewrite lookup_insert_eq|rewrite lookup_insert_ne by done]; 
      eexists; split; try done. simpl. congruence.
  - intros d' r' Hr'. cbn in Hr'. apply lookup_insert_Some in Hr' as [[<- <-]|[Hne Hr']].
    + apply (inv_times _ Hi d r Hd).
    + apply (inv_times _ Hi d' r' Hr').
  - intros w'. unfold used. cbn. rewrite fmap_app, !elem_of_app. cbn.
    rewrite list_elem_of_singleton. intros [[Hin| ->]|Hin]; [apply Hi, elem_of_app; auto|done|].
    apply Hi, elem_of_app. right. by apply elem_of_app.
  - intros w' now c' Hts. cbn. apply lookup_insert_is_Some'. right. by eapply (inv_target _ Hi).
Qed.

(** [stop] never fails; it succeeds on a timer that runs. *)
Lemma timer_stop_spec s c tm :
  inv s -> clients s !! c = Some tm ->
  exists ok s', timer_stop c s = Some (ok, s') /\ inv s' /\
    is_Some (clients s' !! c) /\ msg_task s' = msg_task s /\ poll_task s' = poll_task s /\
    containers s' = containers s /\ log s' = log s /\ clock s' = clock s /\
    ok = (if mTimer tm is Some _ then true else false) /\
    clients s' = <[c := {| mTimer := None; timer_mLock := timer_mLock tm |}]> (clients s) /\
    places s' = places s /\
    (forall d r c', delegates s' !! d = Some r -> mClient r = Some c' ->
      delegates s !! d = Some r /\ c' <> c) /\
    (exists ms, mQ s' = mQ s ++ ms).
Proof.
  intros Hi Hc. unfold timer_stop, lock_lock. rewrite Hc. cbn [mbind option_bind].
  destruct (client_lock s c tm (inv_locks _ Hi) Hc) as [n ->]. cbn [mbind option_bind].
  destruct tm as [[d|] l]; simpl.
  - destruct (inv_running _ Hi c _ d Hc eq_refl) as (r & Hr & Hcl).
    destruct (inv_active _ Hi d r c Hr Hcl) as (tm' & w & Hc' & _ & Hw & Hcw). simplify_eq.
    unfold destroyLocked. cbn. rewrite Hr. cbn. rewrite Hw. cbn.
    eexists true, _. split; [done|]. cbn. rewrite lookup_insert_eq. split_and!; try done; eauto.
    2: { unfold places. cbn. by rewrite pushes_app, app_nil_r. }
    2: { intros d' r' c' [[<- <-]|[Hne Hr']]%lookup_insert_Some Hcl'; [done|]. split; [done|].
      intros ->. destruct (inv_active _ Hi d' r' c Hr' Hcl') as (tm' & ? & Hc' & ? & _). by simplify_eq/=. }
    by apply (inv_stopped s c {| mTimer := Some d; timer_mLock := l |} d r w).
  - exists false, s. split_and!; try done; [by rewrite insert_id| |exists []; by rewrite app_nil_r].
    intros d r c' Hr Hcl. split; [done|]. intros ->.
    destruct (inv_active _ Hi d r c Hr Hcl) as (tm' & ? & Hc' & ? & _). by simplify_eq.
Qed.

(** ** Clients come and go *)

Lemma fresh_client s c tm d : inv s -> clients s !! c = None ->
  (exists r, delegates s !! d = Some r /\ mClient r = Some c) -> False.
Proof.
  intros Hi Hc (r & Hr & Hcl). destruct (inv_active _ Hi d r c Hr Hcl) as (? & ? & ? & _). congruence.
Qed.

Lemma inv_new s c l :
  inv s -> clients s !! c = None -> locks s !! l = None -> inv (timer_new c l s).
Proof.
  intros Hi Hc Hl. split; try apply Hi.
  - intros l'. cbn. unfold holders. cbn. rewrite (values_insert _ _ _ _ Hc). cbn.
    rewrite <- Permutation_middle, count_cons. fold (holders s). pose proof (inv_locks _ Hi l') as Hl'.
    destruct (decide (l' = l)) as [->|Hne].
    + rewrite lookup_insert_eq. rewrite Hl in Hl'. by destruct (count l (holders s)).
    + by rewrite lookup_insert_ne.
  - intros c' tm d Hc' Ht. cbn in Hc'. apply lookup_insert_Some in Hc' as [[<- <-]|[Hne Hc']]; [done|].
    by apply (inv_running _ Hi c' tm).
  - intros d r c' Hr Hcl. destruct (inv_active _ Hi d r c' Hr Hcl) as (tm & w & H1 & H2).
    exists tm, w. cbn. rewrite lookup_insert_ne; [done|]. congruence.
  - intros w now c' Hts. cbn. apply lookup_insert_is_Some'. right. by eapply (inv_target _ Hi).
Qed.

(** The destructor of a client whose timer does not run. *)
Lemma inv_delete_client s c tm :
  inv s -> clients s !! c = Some tm -> mTimer tm = None ->
  (forall w now, msg_task s <> TStop w now c /\ msg_task s <> TCallback w now c) ->
  exists lk, lock_drop (timer_mLock tm) s = Some (s <| locks := lk |>) /\
    inv (s <| locks := lk |> <| clients := delete c (clients s) |>).
Proof.
  intros Hi Hc Ht Hdisc.
  destruct (lock_drop_ok (timer_mLock tm) s (inv_locks _ Hi)) as (lk & -> & Hlk).
  { apply elem_of_app. right. by eapply values_elem. }
  exists lk. split; [done|]. split; try apply Hi.
  - apply Hlk; [done|]. unfold holders. cbn. rewrite (values_delete _ _ _ _ Hc). solve_Permutation.
  - intros c' tm' d Hc' Ht'. cbn in Hc'. apply lookup_delete_Some in Hc' as [Hne Hc'].
    by apply (inv_running _ Hi c' tm').
  - intros d r c' Hr Hcl. destruct (inv_active _ Hi d r c' Hr Hcl) as (tm' & w & H1 & H2 & H3).
    exists tm', w. cbn. rewrite lookup_delete_ne; [done|]. intros <-. congruence.
  - intros w now c' Hts. cbn. rewrite lookup_delete_ne; [by eapply (inv_target _ Hi)|].
    intros <-. destruct (Hdisc w now). by destruct Hts.
Qed.

(** ** [start] *)

(** The state after [start] has created the delegate [d]. *)
Definition started c l n t w d s : state :=
  let '(_, s) := get_container true w (s <| locks := <[l := n + 1]> (locks s) |>) in
  sendMsg (MsgTimerPush w d)
    (s <| delegates := <[d := {| mClient := Some c; mLock := l; mFutureTime := t;
                                mContainer := Some w |}]> (delegates s) |>)
    <| clients := <[c := {| mTimer := Some d; timer_mLock := l |}]> (clients s) |>
    <| log := log s ++ [EStart c t] |>.

Lemma heap_of_get fd w s w' : heap_of (snd (get_container fd w s)) w' = heap_of s w'.
Proof.
  unfold get_container. destruct (containers s !! w) eqn:Hw; [done|].
  destruct fd; [|done]. unfold heap_of. cbn. destruct (decide (w' = w)) as [->|Hne].
  - by rewrite lookup_insert_eq, Hw.
  - by rewrite lookup_insert_ne.
Qed.

Lemma get_container_spec w s w' con :
  containers (snd (get_container true w s)) !! w' = Some con ->
  containers s !! w' = Some con \/ mTree con = None.
Proof.
  unfold get_container. destruct (containers s !! w) eqn:Hw; [by left|]. cbn.
  intros [[<- <-]|[_ H]]%lookup_insert_Some; auto.
Qed.

Lemma get_container_mono w s w' :
  is_Some (containers s !! w') \/ w' = w -> is_Some (containers (snd (get_container true w s)) !! w').
Proof.
  unfold get_container. destruct (containers s !! w) eqn:Hw; cbn.
  - intros [?| ->]; [done|by eexists].
  - intros [?| ->]; apply lookup_insert_is_Some'; auto.
Qed.

Lemma get_container_frame w s :
  let s' := snd (get_container true w s) in
  clock s' = clock s /\ clients s' = clients s /\ delegates s' = delegates s /\ locks s' = locks s /\
  mQ s' = mQ s /\ msg_task s' = msg_task s /\ poll_task s' = poll_task s /\ log s' = log s.
Proof. unfold get_container. by destruct (containers s !! w). Qed.

Lemma get_container_ok w s : fst (get_container true w s) = true.
Proof. unfold get_container. by destruct (containers s !! w). Qed.

Lemma started_spec s c l n t w d :
  let s' := started c l n t w d s in
  delegates s' = <[d := {| mClient := Some c; mLock := l; mFutureTime := t;
                           mContainer := Some w |}]> (delegates s) /\
  places s' ≡ₚ (w, d) :: places s /\
  clients s' = <[c := {| mTimer := Some d; timer_mLock := l |}]> (clients s) /\
  log s' = log s ++ [EStart c t] /\
  mQ s' = mQ s ++ [MsgTimerPush w d] /\ poll_task s' = poll_task s /\
  (forall w' con, containers s' !! w' = Some con -> containers s !! w' = Some con \/ mTree con = None).
Proof.
  unfold started. set (s0 := s <| locks := <[l := n + 1]> (locks s) |>).
  pose proof (get_container_spec w s0) as Hsp. pose proof (fun w' => heap_of_get true w s0 w') as Hheap.
  destruct (get_container_frame w s0) as (Ek & Ec & Ed & El & Eq & Em & Ep & Eg).
  destruct (get_container true w s0) as [ok s1]. cbn [snd] in *. cbv zeta.
  split; [cbn; by rewrite Ed|]. split.
  - set (s' := _ <| log := _ |>).
    assert (Hh : forall w', heap_of s' w' = heap_of s w') by (intros w'; exact (Hheap w')).
    unfold places. rewrite !Hh. change (mQ s') with (mQ s1 ++ [MsgTimerPush w d]).
    rewrite Eq, pushes_app. change (mQ s0) with (mQ s). solve_Permutation.
  - cbn. rewrite Ec, Eg, Eq, Ep. done.
Qed.

Lemma inv_started s c l n t w d :
  inv s -> clients s !! c = Some {| mTimer := None; timer_mLock := l |} ->
  delegates s !! d = None -> locks s !! l = Some n -> valid t ->
  inv (started c l n t w d s).
Proof.
  intros Hi Hc Hd Hn Ht. unfold started.
  set (s0 := s <| locks := <[l := n + 1]> (locks s) |>).
  pose proof (get_container_spec w s0) as Hsp. pose proof (get_container_mono w s0) as Hmono.
  pose proof (fun w' => heap_of_get true w s0 w') as Hheap.
  destruct (get_container_frame w s0) as (Ek & Ec & Ed & El & Eq & Em & Ep & Eg).
  destruct (get_container true w s0) as [ok s1]. cbn [snd] in *. clear ok.
  set (s' := _ <| log := _ |>).
  assert (Hpu : pushes (mQ s') = pushes (mQ s) ++ [(w, d)])
    by (cbn; rewrite Eq; by rewrite pushes_app).
  assert (Hre : removals (mQ s') = removals (mQ s))
    by (cbn; rewrite Eq; rewrite removes_app; apply app_nil_r).
  assert (Hdel : delegates s' = <[d := {| mClient := Some c; mLock := l; mFutureTime := t;
    mContainer := Some w |}]> (delegates s)) by (cbn; by rewrite Ed).
  assert (Hcl : clients s' = <[c := {| mTimer := Some d; timer_mLock := l |}]> (clients s))
    by (cbn; by rewrite Ec).
  assert (Htask : msg_task s' = msg_task s) by done.
  assert (Hpl : places s' ≡ₚ (w, d) :: places s).
  { unfold places. rewrite Hpu. change (heap_of s') with (heap_of s1). rewrite !Hheap.
    change (heap_of s0) with (heap_of s). solve_Permutation. }
  assert (Hheld : held s' ≡ₚ d :: held s) by (unfold held; rewrite Hpl, Htask; done).
  assert (Hpend : pend s' = pend s) by (unfold pend; by rewrite Hre, Htask).
  assert (Hnh : d ∉ held s).
  { intros [r Hr]%(inv_held _ Hi). congruence. }
  assert (Hmono' : forall w', is_Some (containers s !! w') \/ w' = w -> is_Some (containers s' !! w'))
    by (intros w'; apply Hmono).
  split; rewrite ?Htask.
  - cbn. rewrite Ek. apply Hi.
  - apply (lock_share_ok l n s); [apply Hi|done|cbn; by rewrite El|].
    unfold holders. rewrite Hdel, Hcl.
    rewrite (values_insert _ _ _ _ Hd), (values_update _ _ _ _ _ Hc) by done. done.
  - rewrite Hcl, Hdel. intros c' tm' d' Hc' Ht'.
    apply lookup_insert_Some in Hc' as [[<- <-]|[Hne Hc']]; simplify_eq/=.
    + rewrite lookup_insert_eq. by eexists.
    + destruct (inv_running _ Hi c' tm' d' Hc' Ht') as (r' & Hr' & Hcl').
      exists r'. rewrite lookup_insert_ne; [done|]. intros <-. congruence.
  - rewrite Hdel, Hcl. intros d' r' c' Hr' Hcl'.
    apply lookup_insert_Some in Hr' as [[<- <-]|[Hne Hr']]; simplify_eq/=.
    + exists {| mTimer := Some d; timer_mLock := l |}, w. rewrite lookup_insert_eq.
      split_and!; try done. apply Hmono'. by right.
    + destruct (inv_active _ Hi d' r' c' Hr' Hcl') as (tm' & w' & H1 & H2 & H3 & H4).
      exists tm', w'. rewrite lookup_insert_ne; [|intros <-; by simplify_eq/=].
      split_and!; try done. apply Hmono'. by left.
  - rewrite Hdel, Hpend. intros d' r' Hr' Hn'.
    apply lookup_insert_Some in Hr' as [[<- <-]|[Hne Hr']]; [done|]. by apply Hi.
  - rewrite Hpend, Hdel. intros d' (r' & Hr' & Hn')%(inv_pend _ Hi).
    exists r'. rewrite lookup_insert_ne; [done|]. intros <-. congruence.
  - rewrite Hpend. apply Hi.
  - intros d'. rewrite Hheld, Hdel, elem_of_cons. intros [->|Hin%(inv_held _ Hi)];
      apply lookup_insert_is_Some'; auto.
  - rewrite Hheld. constructor; [done|apply Hi].
  - intros d' Hdd. rewrite Hheld, not_elem_of_cons. split; [|by apply Hi].
    intros ->. destruct (inv_pend _ Hi d) as (r & Hr & _); [apply elem_of_app; by right|congruence].
  - intros w' d'. rewrite Hpl, elem_of_cons. unfold at_home. rewrite Hdel, Hre.
    intros [[= -> ->]|Hin]; [rewrite lookup_insert_eq; eauto|].
    destruct (inv_home _ Hi w' d' Hin) as (r' & Hr' & Hor). exists r'.
    rewrite lookup_insert_ne; [done|]. intros <-. congruence.
  - cbn. rewrite Eq. apply ordered_q_snoc; [|apply Hi]. intros w1 d1 w2 [= <- <-] Hin.
    destruct (inv_pend _ Hi d) as (r & Hr & _); [|congruence].
    apply elem_of_app. left. apply list_elem_of_fmap. by exists (w2, d).
  - intros w' con' Hcon. destruct (Hsp w' con' Hcon) as [Hold|Hnew].
    + destruct (inv_heaps _ Hi w' con' Hold) as [H1 H2]. split; [done|].
      eapply Forall_impl; [done|]. intros p (r' & Hr' & Htm). exists r'. rewrite Hdel.
      rewrite lookup_insert_ne; [done|]. intros ->. congruence.
    + rewrite Hnew. split; [done|constructor].
  - rewrite Hdel. intros d' r' Hr'. apply lookup_insert_Some in Hr' as [[<- <-]|[Hne Hr']]; [done|].
    by apply (inv_times _ Hi d').
  - intros w'. unfold used. cbn. rewrite Eq, Em, Ep, fmap_app, !elem_of_app. cbn.
    rewrite list_elem_of_singleton. intros Hin. apply Hmono'.
    destruct Hin as [[Hin| ->]|Hin]; [left|by right|left]; apply (inv_used _ Hi);
      unfold used; rewrite !elem_of_app; auto.
  - intros w' now c' Hts. rewrite Hcl. apply lookup_insert_is_Some'. right. by eapply (inv_target _ Hi).
Qed.

(** [start] never fails when timerfds can be created. *)
Lemma timer_start_spec s c tm ms w d :
  inv s -> clients s !! c = Some tm -> delegates s !! d = None -> 0 <= ms < 2 ^ 32 ->
  exists s', timer_start true c ms w d s = Some (if mTimer tm is Some _ then false else true, s') /\
    inv s' /\ msg_task s' = msg_task s /\ poll_task s' = poll_task s /\ clock s' = clock s /\
    match mTimer tm with
    | Some _ => s' = s
    | None => exists n, s' = started c (timer_mLock tm) n (futureTime (clock s) ms) w d s
    end.
Proof.
  intros Hi Hc Hd Hms. unfold timer_start, lock_lock. rewrite Hc. cbn [mbind option_bind].
  destruct (client_lock s c tm (inv_locks _ Hi) Hc) as [n Hn]. rewrite Hn. cbn [mbind option_bind].
  destruct tm as [[d0|] l]; cbn [mTimer timer_mLock] in *.
  { exists s. done. }
  unfold delegate_new, lock_share. rewrite Hn. cbn [mbind option_bind].
  pose proof (inv_started s c l n (futureTime (clock s) ms) w d Hi Hc Hd Hn
    (futureTime_valid _ _ (inv_clock _ Hi) Hms)) as Hi'.
  exists (started c l n (futureTime (clock s) ms) w d s). unfold started in *.
  set (s0 := s <| locks := <[l := n + 1]> (locks s) |>) in *.
  pose proof (get_container_ok w s0) as Hok.
  destruct (get_container_frame w s0) as (Ek & Ec & Ed & El & Eq & Em & Ep & Eg).
  destruct (get_container true w s0) as [ok s1] eqn:Hget. cbn [fst snd] in *. subst ok. cbn [mbind option_bind].
  split_and!; try done. exists n. fold s0. by rewrite Hget.
Qed.

(** ** The heaps *)

(** The pointers to existing delegates: they are told apart by address and
    ranked by time. *)
Definition live_ptr s (p : timer_ptr) : Prop := stored s p /\ valid (ptr_time p).

#[export] Instance known_rank_ok s : RankOk (live_ptr s).
Proof. apply valid_rank_ok. by intros p [_ ?]. Qed.

Lemma known_distinct s : distinct_objects (live_ptr s).
Proof.
  intros [pa ta] [pb tb] [(ra & Ha & Hta) _] [(rb & Hb & Htb) _] Heq. simpl in *. subst pb.
  rewrite Ha in Hb. congruence.
Qed.

Lemma stored_known s p : inv s -> stored s p -> live_ptr s p.
Proof.
  intros Hi (r & Hr & Ht). split; [by exists r|]. rewrite <- Ht. by apply (inv_times _ Hi (ptr p)).
Qed.

Lemma heap_known s w con : inv s -> containers s !! w = Some con ->
  Forall (live_ptr s) (from_option objects [] (mTree con)).
Proof.
  intros Hi Hw. destruct (inv_heaps _ Hi w con Hw) as [_ H]. eapply Forall_impl; [done|].
  intros p. by apply stored_known.
Qed.

Lemma heap_objects_ok s w con :
  inv s -> containers s !! w = Some con -> heap_objects con s = Some ().
Proof.
  intros Hi Hw. destruct (inv_heaps _ Hi w con Hw) as [_ H]. unfold heap_objects.
  assert (forallb (alive s) (from_option objects [] (mTree con)) = true) as ->; [|done].
  apply forallb_forall. intros p Hp%list_elem_of_In. rewrite Forall_forall in H.
  destruct (H p Hp) as (r & Hr & Ht). unfold alive. rewrite Hr. by apply bool_decide_eq_true.
Qed.

(** The state after a step on the heap of [w]. *)
Definition stepped w con (h : LocHeap timer_ptr) q (tk : task) s : state :=
  set_tree w con h (s <| mQ := q |>) <| msg_task := tk |>.

Lemma heap_of_stepped w con h q tk s w' :
  heap_of (stepped w con h q tk s) w' =
  if decide (w' = w) then from_option objects [] h else heap_of s w'.
Proof.
  unfold heap_of. cbn. destruct (decide (w' = w)) as [->|Hne].
  - by rewrite lookup_insert_eq.
  - by rewrite lookup_insert_ne.
Qed.

(** The heap of [w] among the places. *)
Lemma places_stepped w con h q tk s (extra extra' : list timer_ptr) (ps : list (bool * Z)) :
  containers s !! w = Some con ->
  extra ++ from_option objects [] (mTree con) ≡ₚ extra' ++ from_option objects [] h ->
  pushes (mQ s) = ps ++ pushes q ->
  (pair w ∘ ptr <$> extra) ++ places s ≡ₚ
  ps ++ (pair w ∘ ptr <$> extra') ++ places (stepped w con h q tk s).
Proof.
  intros Hw Hh Hq. unfold places. rewrite !heap_of_stepped, Hq. change (mQ (stepped _ _ _ _ _ _)) with q.
  pose proof (heap_of_Some s w con Hw) as Hs.
  apply (fmap_Permutation (pair w ∘ ptr)) in Hh. rewrite !fmap_app in Hh.
  set (A := _ <$> extra) in *. set (B := _ <$> extra') in *.
  set (C := _ <$> from_option objects [] (mTree con)) in *.
  set (C' := _ <$> from_option objects [] h) in *.
  destruct w; rewrite Hs; repeat destruct (decide _); try done; fold C C'.
  - trans ((A ++ C) ++ ps ++ pushes q ++ (pair false ∘ ptr <$> heap_of s false)); [solve_Permutation|].
    rewrite Hh. solve_Permutation.
  - trans ((A ++ C) ++ ps ++ pushes q ++ (pair true ∘ ptr <$> heap_of s true)); [solve_Permutation|].
    rewrite Hh. solve_Permutation.
Qed.

(** A step on a heap keeps the invariant if the delegates stay where they may be. *)
Lemma inv_stepped s w con h q tk :
  inv s -> containers s !! w = Some con ->
  (exists q0, mQ s = q0 ++ q) ->
  from_option node_ok True h -> Forall (stored s) (from_option objects [] h) ->
  (exists extra, held s ≡ₚ extra ++ held (stepped w con h q tk s)) ->
  (forall w' d, (w', d) ∈ places (stepped w con h q tk s) ->
    (w', d) ∈ places s /\ forall w0, (w0, d) ∈ removals (mQ s) -> (w0, d) ∈ removals q) ->
  pend (stepped w con h q tk s) ≡ₚ pend s ->
  (forall d, d ∈ deleting tk -> d ∉ held (stepped w con h q tk s)) ->
  (forall w', w' ∈ task_containers tk -> w' = w) ->
  (forall w' now c, tk <> TStop w' now c /\ tk <> TCallback w' now c) ->
  inv (stepped w con h q tk s).
Proof.
  intros Hi Hw [q0 Hq] Hh Hst [extra Hheld] Hplaces Hpend Hdel Htc Htk.
  set (s' := stepped w con h q tk s) in *.
  assert (Hsub : forall d, d ∈ held s' -> d ∈ held s)
    by (intros d Hd; rewrite Hheld; apply elem_of_app; by right).
  assert (Hcs : forall w', is_Some (containers s !! w') -> is_Some (containers s' !! w'))
    by (intros w' ?; cbn; apply lookup_insert_is_Some'; by right).
  split; try apply Hi; try done.
  - intros d r c Hr Hc. destruct (inv_active _ Hi d r c Hr Hc) as (tm & w' & H1 & H2 & H3 & H4).
    exists tm, w'. split_and!; auto.
  - intros d r Hr Hc. rewrite Hpend. by apply Hi.
  - intros d. rewrite Hpend. by apply Hi.
  - rewrite Hpend. apply Hi.
  - intros d Hd. by apply Hi, Hsub.
  - pose proof (inv_held_once _ Hi) as Hn. rewrite Hheld in Hn. by apply NoDup_app in Hn as (_ & _ & ?).
  - intros w' d Hp. destruct (Hplaces w' d Hp) as [Hp' Hr].
    destruct (inv_home _ Hi w' d Hp') as (r & Hr' & Hor). exists r. split; [done|].
    destruct Hor as [?|[? ?]]; [by left|]. right. split; [done|]. by apply Hr.
  - change (mQ s') with q. pose proof (inv_order _ Hi) as Ho. rewrite Hq in Ho.
    clear -Ho. induction q0 as [|m q0 IH]; [done|]. by apply IH, (ordered_q_tail m).
  - intros w' con' Hw'. cbn in Hw'. apply lookup_insert_Some in Hw' as [[<- <-]|[Hne Hw']]; [done|].
    by apply (inv_heaps _ Hi w').
  - intros w' Hu. apply Hcs. unfold used in Hu. change (mQ s') with q in Hu.
    change (msg_task s') with tk in Hu. change (poll_task s') with (poll_task s) in Hu.
    rewrite !elem_of_app in Hu. destruct Hu as [Hu|[->%Htc|Hu]]; [|by eexists|].
    + apply (inv_used _ Hi). unfold used. rewrite Hq, fmap_app, !elem_of_app. auto.
    + apply (inv_used _ Hi). unfold used. rewrite !elem_of_app. auto.
  - intros w' now c. change (msg_task s') with tk. intros [E|E]; by destruct (Htk w' now c).
Qed.

Lemma updateSoonestTime_container w prior con w' :
  w' ∈ call_container <$> updateSoonestTime w prior con -> w' = w.
Proof.
  unfold updateSoonestTime.
  destruct (decide _); [|destruct (getSoonestTimer con) as [cur|];
    [destruct (match prior with None => true | _ => _ end)|]]; simpl; intros Hin;
    repeat (apply elem_of_cons in Hin as [->|Hin]; [done|]); by apply not_elem_of_nil in Hin.
Qed.

(** [MsgTimerPush::proc] *)
Definition pushed w d r con q s : state :=
  let h := heap_push (mTree con) {| ptr := d; ptr_time := mFutureTime r |} in
  stepped w con h q (TCalls (updateSoonestTime w (getSoonestTimer con) (con <| mTree := h |>)) None) s.

Lemma proc_push s w d q :
  inv s -> msg_task s = TIdle -> mQ s = MsgTimerPush w d :: q ->
  exists con r, containers s !! w = Some con /\ delegates s !! d = Some r /\
    msg_step s = Some (pushed w d r con q s) /\ inv (pushed w d r con q s) /\
    places s ≡ₚ places (pushed w d r con q s).
Proof.
  intros Hi Hm Hq. unfold msg_step. rewrite Hm, Hq. cbn [proc].
  destruct (inv_used _ Hi w) as [con Hw]; [unfold used; rewrite Hq; left|].
  assert (Hd : (w, d) ∈ places s) by (apply elem_of_places; left; rewrite Hq; left).
  destruct (inv_held _ Hi d (places_held _ _ _ Hd)) as [r Hr].
  exists con, r. split; [done|]. split; [done|]. split.
  { change (containers (s <| mQ := q |>)) with (containers s). rewrite Hw. cbn [mbind option_bind].
    change (heap_objects con (s <| mQ := q |>)) with (heap_objects con s).
    rewrite (heap_objects_ok s w con Hi Hw). cbn [mbind option_bind].
    change (delegates (s <| mQ := q |>)) with (delegates s). by rewrite Hr. }
  set (p := {| ptr := d; ptr_time := mFutureTime r |}).
  assert (Hp : stored s p) by (by exists r).
  destruct (inv_heaps _ Hi w con Hw) as [Hok Hst].
  destruct (heap_push_ok (live_ptr s) (mTree con) p (stored_known s p Hi Hp)
    (heap_known s w con Hi Hw) Hok) as [Hok' Hel].
  unfold pushed. fold p. set (h := heap_push (mTree con) p) in *. set (tk := TCalls _ None).
  assert (Hpl : places s ≡ₚ places (stepped w con h q tk s)).
  { pose proof (places_stepped w con h q tk s [p] [] [(w, d)] Hw) as Hp'. cbn in Hp'.
    eapply (Permutation_cons_inv (a := (w, d))). apply Hp'; [by rewrite Hel|by rewrite Hq]. }
  assert (Hre : removals (mQ s) = removals q) by (by rewrite Hq).
  split; [|done]. apply inv_stepped; try done.
  - by exists [MsgTimerPush w d].
  - rewrite Hel. by constructor.
  - exists []. unfold held. by rewrite Hpl, Hm.
  - intros w' d' Hin. rewrite Hpl, Hre. done.
  - unfold pend. rewrite Hre. by rewrite Hm.
  - intros d' Hin. by apply not_elem_of_nil in Hin.
  - intros w' Hin. by apply updateSoonestTime_container in Hin.
Qed.

(** [MsgTimerExpire::proc] up to the first timer, and [popIfOutRanks] with what
    follows it: a timer is taken off the heap and the loop goes on, or the timerfd
    is set and the loop ends. *)
Definition popped w now con (timer : option timer_ptr) (h : LocHeap timer_ptr) q s : state :=
  stepped w con h q
    match timer with
    | Some p => TFire w now (ptr p)
    | None => TCalls (updateSoonestTime w None (con <| mTree := h |>)) None
    end s.

Lemma places_popped s w now con timer h q :
  containers s !! w = Some con -> pushes (mQ s) = pushes q ->
  from_option objects [] (mTree con) ≡ₚ option_list timer ++ from_option objects [] h ->
  places s ≡ₚ (pair w ∘ ptr <$> option_list timer) ++ places (popped w now con timer h q s).
Proof.
  intros Hw Hpu Hel. unfold popped. set (tk := match timer with Some _ => _ | _ => _ end).
  pose proof (places_stepped w con h q tk s [] (option_list timer) [] Hw) as Hp'. cbn in Hp'.
  apply Hp'; [by rewrite Hel|done].
Qed.

Lemma inv_popped s w now con timer h q :
  inv s -> containers s !! w = Some con ->
  firing (msg_task s) = [] -> deleting (msg_task s) = [] ->
  pushes (mQ s) = pushes q -> removals (mQ s) = removals q -> (exists q0, mQ s = q0 ++ q) ->
  from_option node_ok True h ->
  from_option objects [] (mTree con) ≡ₚ option_list timer ++ from_option objects [] h ->
  inv (popped w now con timer h q s).
Proof.
  intros Hi Hw Hf Hd Hpu Hre Hq Hok Hel.
  pose proof (places_popped s w now con timer h q Hw Hpu Hel) as Hpl. unfold popped in *. set (tk := match timer with Some _ => _ | _ => _ end).
  destruct (inv_heaps _ Hi w con Hw) as [_ Hst]. rewrite Hel, Forall_app in Hst. destruct Hst as [_ Hst].
  fold tk in Hpl. assert (Hfire : firing tk = ptr <$> option_list timer) by (by destruct timer).
  apply inv_stepped; try done.
  - exists []. unfold held. rewrite Hpl, Hf. change (msg_task (stepped _ _ _ _ _ _)) with tk.
    rewrite Hfire, fmap_app. destruct timer; simpl; solve_Permutation.
  - intros w' d' Hin. rewrite Hpl, Hre. split; [apply elem_of_app; by right|done].
  - unfold pend. rewrite Hre, Hd. change (msg_task (stepped _ _ _ _ _ _)) with tk. by destruct timer.
  - intros d' Hin. destruct timer; by apply not_elem_of_nil in Hin.
  - intros w' Hin. unfold tk in Hin. destruct timer; [by apply list_elem_of_singleton in Hin|].
    by apply updateSoonestTime_container in Hin.
  - intros w' now' c'. unfold tk. by destruct timer.
Qed.

Lemma proc_expire s w q :
  inv s -> msg_task s = TIdle -> mQ s = MsgTimerExpire w :: q ->
  exists con, containers s !! w = Some con /\
    let '(timer, h) := heap_pop (mTree con) in
    msg_step s = Some (popped w (clock s) con timer h q s) /\
    inv (popped w (clock s) con timer h q s).
Proof.
  intros Hi Hm Hq. unfold msg_step. rewrite Hm, Hq. cbn [proc].
  destruct (inv_used _ Hi w) as [con Hw]; [unfold used; rewrite Hq; left|].
  exists con. split; [done|].
  destruct (inv_heaps _ Hi w con Hw) as [Hok Hst].
  pose proof (heap_pop_ok (live_ptr s) (mTree con) (heap_known s w con Hi Hw) Hok) as Hpop.
  change (containers (s <| mQ := q |>)) with (containers s). rewrite Hw. cbn [mbind option_bind].
  change (heap_objects con (s <| mQ := q |>)) with (heap_objects con s).
  rewrite (heap_objects_ok s w con Hi Hw). cbn [mbind option_bind].
  destruct (heap_pop (mTree con)) as [timer h]. split; [done|].
  apply inv_popped; try done; rewrite ?Hm, ?Hq; try done.
  - by exists [MsgTimerExpire w].
  - by destruct timer as [p|]; destruct_and?; subst.
  - destruct timer as [p|]; [by destruct Hpop as (_ & _ & ? & _)|by destruct Hpop as [-> ->]].
Qed.

(** [popIfOutRanks] takes the soonest timer if it is due, and leaves the heap
    alone if none is. *)
Lemma popIfOutRanks_spec s w now con :
  inv s -> containers s !! w = Some con ->
  match popIfOutRanks now con with
  | (timer, con') =>
      from_option node_ok True (mTree con') /\
      from_option objects [] (mTree con) ≡ₚ option_list timer ++ from_option objects [] (mTree con') /\
      armed con' = armed con /\ polled con' = polled con /\
      (valid now ->
        match timer with
        | Some p => timespec_ns (ptr_time p) <= timespec_ns now
        | None => con' = con /\
            Forall (fun p => timespec_ns now < timespec_ns (ptr_time p)) (from_option objects [] (mTree con))
        end)
  end.
Proof.
  intros Hi Hw. unfold popIfOutRanks. destruct (inv_heaps _ Hi w con Hw) as [Hok Hst].
  pose proof (heap_known s w con Hi Hw) as HD.
  pose proof (heap_pop_ok (live_ptr s) (mTree con) HD Hok) as Hpop.
  destruct (heap_peek (mTree con)) as [top|] eqn:Hpeek.
  - destruct (heap_peek_dominates (live_ptr s) _ _ HD Hok Hpeek) as [Hin Hdom].
    rewrite Forall_forall in HD. destruct (HD top Hin) as [_ Hvt].
    destruct (outRanks _ top) eqn:Hout; simpl.
    + split_and!; try done. intros Hv. split; [done|].
      rewrite ranks_valid in Hout by done. simpl in Hout. bool_to_prop.
      unfold dominates in Hdom. rewrite Forall_forall in *. intros p Hp.
      specialize (Hdom p Hp). rewrite ranks_valid in Hdom by (try apply HD; done). bool_to_prop. lia.
    + destruct (heap_pop (mTree con)) as [[p|] h]; [|by destruct Hpop as [E _]; rewrite E in Hpeek].
      destruct Hpop as (Hp & Hokh & Hel & _). simplify_eq. cbn. split_and!; try done.
      intros Hv. rewrite ranks_valid in Hout by done. simpl in Hout. by bool_to_prop.
  - split_and!; try done. intros Hv. split; [done|].
    destruct (mTree con); [done|]. constructor.
Qed.

Lemma step_next s w now :
  inv s -> msg_task s = TNext w now ->
  exists con, containers s !! w = Some con /\
    let '(timer, con') := popIfOutRanks now con in
    msg_step s = Some (popped w now con timer (mTree con') (mQ s) s) /\
    inv (popped w now con timer (mTree con') (mQ s) s).
Proof.
  intros Hi Hm. unfold msg_step. rewrite Hm.
  destruct (inv_used _ Hi w) as [con Hw];
    [unfold used; rewrite Hm; apply elem_of_app; right; left|].
  exists con. split; [done|]. rewrite Hw. cbn [mbind option_bind].
  rewrite (heap_objects_ok s w con Hi Hw). cbn [mbind option_bind].
  pose proof (popIfOutRanks_spec s w now con Hi Hw) as Hsp.
  destruct (popIfOutRanks now con) as [timer con']. destruct Hsp as (Hok & Hel & Ha & Hp & _).
  assert (Hid : con <| mTree := mTree con' |> = con') by (destruct con, con'; simpl in *; congruence).
  split.
  - unfold popped, stepped, set_tree. cbn. cbn in Hid. rewrite Hid. by destruct s.
  - apply inv_popped; rewrite ?Hm; try done. by exists [].
Qed.

(** [MsgTimerRemove::proc]: [removed] and [h] are the result of the heap. *)
Definition unheaped w d con (removed : option timer_ptr) h q s : state :=
  stepped w con h q
    (TCalls (if decide (ptr <$> getSoonestTimer con = ptr <$> removed)
             then updateSoonestTime w None (con <| mTree := h |>) else []) (Some d)) s.

Lemma proc_remove s w d q :
  inv s -> msg_task s = TIdle -> mQ s = MsgTimerRemove w d :: q ->
  exists con r, containers s !! w = Some con /\ delegates s !! d = Some r /\
    let p := {| ptr := d; ptr_time := mFutureTime r |} in
    let '(removed, h) := heap_remove (mTree con) p in
    msg_step s = Some (unheaped w d con removed h q s) /\ inv (unheaped w d con removed h q s) /\
    from_option objects [] (mTree con) ≡ₚ option_list removed ++ from_option objects [] h /\
    (removed = Some p \/ removed = None /\ h = mTree con /\ p ∉ from_option objects [] h) /\
    places s ≡ₚ (pair w ∘ ptr <$> option_list removed) ++ places (unheaped w d con removed h q s) /\
    mClient r = None.
Proof.
  intros Hi Hm Hq. unfold msg_step. rewrite Hm, Hq. cbn [proc].
  destruct (inv_used _ Hi w) as [con Hw]; [unfold used; rewrite Hq; left|].
  assert (Hdp : d ∈ pend s) by (unfold pend; rewrite Hq; left).
  destruct (inv_pend _ Hi d Hdp) as (r & Hr & Hcl). destruct (inv_inactive _ Hi d r Hr Hcl) as [Hnc _].
  exists con, r. split; [done|]. split; [done|]. set (p := {| ptr := d; ptr_time := mFutureTime r |}).
  assert (Hp : stored s p) by (by exists r).
  change (containers (s <| mQ := q |>)) with (containers s). rewrite Hw. cbn [mbind option_bind].
  change (heap_objects con (s <| mQ := q |>)) with (heap_objects con s).
  rewrite (heap_objects_ok s w con Hi Hw). cbn [mbind option_bind].
  change (delegates (s <| mQ := q |>)) with (delegates s). rewrite Hr. cbn [mbind option_bind]. fold p.
  destruct (inv_heaps _ Hi w con Hw) as [Hok Hst].
  pose proof (heap_remove_ok (live_ptr s) (mTree con) p (stored_known s p Hi Hp)
    (heap_known s w con Hi Hw) (known_distinct s) Hok) as Hrm.
  destruct (heap_remove (mTree con) p) as [removed h]. split; [done|].
  assert (Hel : from_option objects [] (mTree con) ≡ₚ option_list removed ++ from_option objects [] h
    /\ from_option node_ok True h /\
    (removed = Some p \/ removed = None /\ h = mTree con /\ (p ∉ from_option objects [] h))).
  { destruct removed as [x|]; [destruct Hrm as (-> & ? & ?)|destruct Hrm as [? ->]];
      split_and!; try done; [by left|by right]. }
  clear Hrm. destruct Hel as (Hel & Hokh & Hrem).
  rewrite Hel, Forall_app in Hst. destruct Hst as [_ Hst].
  unfold unheaped. set (tk := TCalls _ (Some d)).
  assert (Hpl : places s ≡ₚ (pair w ∘ ptr <$> option_list removed) ++ places (stepped w con h q tk s)).
  { pose proof (places_stepped w con h q tk s [] (option_list removed) [] Hw) as Hp'. cbn in Hp'.
    apply Hp'; [by rewrite Hel|by rewrite Hq]. }
  split; [|done].
  assert (Hheld : held s ≡ₚ (ptr <$> option_list removed) ++ held (stepped w con h q tk s)).
  { unfold held. rewrite Hpl, Hm, fmap_app. destruct removed; simpl; solve_Permutation. }
  assert (Hre : removals (mQ s) = (w, d) :: removals q) by (by rewrite Hq).
  assert (Hgone : d ∉ held (stepped w con h q tk s)).
  { unfold held. rewrite elem_of_app. intros [Hin|Hin]; [|by apply not_elem_of_nil in Hin].
    apply list_elem_of_fmap in Hin as ([w' d'] & Heq & Hin). simpl in Heq. subst d'.
    assert (w' = w) as ->.
    { destruct (inv_home _ Hi w' d) as (r' & Hr' & [Hor|[_ Hor]]); [rewrite Hpl; apply elem_of_app; by right| |].
      - congruence.
      - pose proof (inv_pend_once _ Hi) as Hn. unfold pend in Hn. rewrite Hre in Hn, Hor.
        apply elem_of_cons in Hor as [[= ->]|Hor]; [done|]. simpl in Hn. apply NoDup_cons in Hn as [Hn _].
        destruct Hn. apply elem_of_app. left. apply list_elem_of_fmap. by exists (w', d). }
    apply elem_of_places in Hin as [Hin|(p' & Hin & Hp')].
    - by apply (inv_order _ Hi [] q w d Hq w).
    - rewrite heap_of_stepped in Hin. destruct (decide (w = w)); [|done].
      assert (p' = p) as ->.
      { rewrite Forall_forall in Hst. destruct (Hst p' Hin) as (r' & Hr' & Ht).
        destruct p' as [pd pt]. simpl in *. subst pd. rewrite Hr in Hr'. simplify_eq. done. }
      destruct Hrem as [->|(-> & -> & Hnin)]; [|done].
      pose proof (inv_held_once _ Hi) as Hn. rewrite Hheld in Hn. simpl in Hn.
      apply NoDup_cons in Hn as [Hn _]. destruct Hn. apply (places_held _ w).
      apply elem_of_places. right. exists p. split; [|done].
      rewrite heap_of_stepped. by destruct (decide (w = w)). }
  apply inv_stepped; try done.
  - by exists [MsgTimerRemove w d].
  - by exists (ptr <$> option_list removed).
  - intros w' d' Hin. split; [rewrite Hpl; apply elem_of_app; by right|]. intros w0.
    rewrite Hre, elem_of_cons. intros [[= -> ->]|?]; [|done]. destruct Hgone. by apply places_held in Hin.
  - unfold pend. rewrite Hre, Hm. simpl. rewrite app_nil_r. by rewrite Permutation_app_comm.
  - intros d' Hin%list_elem_of_singleton. by subst d'.
  - intros w' Hin. simpl in Hin. destruct (decide _); [|by apply not_elem_of_nil in Hin].
    by apply updateSoonestTime_container in Hin.
Qed.

(** The deletion of a delegate whose removal has been handled. *)
Lemma step_delete s d :
  inv s -> msg_task s = TCalls [] (Some d) ->
  exists s', msg_step s = Some s' /\ inv s' /\ msg_task s' = TIdle /\ mQ s' = mQ s /\
    clients s' = clients s /\ containers s' = containers s /\ poll_task s' = poll_task s /\
    log s' = log s /\ clock s' = clock s.
Proof.
  intros Hi Hm. unfold msg_step. rewrite Hm. unfold delegate_delete.
  assert (Hdp : d ∈ pend s) by (unfold pend; rewrite Hm; apply elem_of_app; right; left).
  destruct (inv_pend _ Hi d Hdp) as (r & Hr & Hcl). rewrite Hr. cbn [mbind option_bind].
  destruct (lock_drop_ok (mLock r) s (inv_locks _ Hi)) as (lk & -> & Hlk).
  { apply elem_of_app. left. by eapply values_elem. }
  cbn [mbind option_bind]. eexists. split; [done|]. split; [|done].
  set (s' := _ <| msg_task := TIdle |>).
  assert (Hnh : d ∉ held s) by (apply Hi; rewrite Hm; left).
  assert (Hheld : held s' = held s) by (unfold held; by rewrite Hm).
  assert (Hpend : pend s ≡ₚ d :: pend s').
  { unfold pend. rewrite Hm. cbn. rewrite app_nil_r. symmetry. apply Permutation_cons_append. }
  assert (Hnp : d ∉ pend s').
  { pose proof (inv_pend_once _ Hi) as Hn. rewrite Hpend in Hn. by apply NoDup_cons in Hn as [? _]. }
  assert (Hdel : delegates s' = delete d (delegates s)) by done.
  split; try apply Hi; try done; rewrite ?Hdel, ?Hheld.
  - apply Hlk; [done|]. unfold holders. rewrite Hdel. by rewrite (values_delete _ _ _ _ Hr).
  - intros c tm d' Hc Ht. destruct (inv_running _ Hi c tm d' Hc Ht) as (r' & Hr' & Hcl').
    exists r'. rewrite lookup_delete_ne; [done|]. intros <-. congruence.
  - intros d' r' c [Hne Hr']%lookup_delete_Some Hc. by apply Hi.
  - intros d' r' [Hne Hr']%lookup_delete_Some Hc. destruct (inv_inactive _ Hi d' r' Hr' Hc) as [? Hin].
    split; [done|]. rewrite Hpend in Hin. by apply elem_of_cons in Hin as [->|?].
  - intros d' Hin. destruct (inv_pend _ Hi d') as (r' & Hr' & Hcl'); [rewrite Hpend; by right|].
    exists r'. rewrite lookup_delete_ne; [done|]. by intros <-.
  - pose proof (inv_pend_once _ Hi) as Hn. rewrite Hpend in Hn. by apply NoDup_cons in Hn as [_ ?].
  - intros d' Hin. rewrite lookup_delete_ne; [by apply Hi|]. by intros <-.
  - apply Hi.
  - intros d' Hin. by apply not_elem_of_nil in Hin.
  - intros w d' Hin. assert (Hne : d <> d') by (intros <-; by apply Hnh, (places_held _ w)).
    destruct (inv_home _ Hi w d' Hin) as (r' & Hr' & Hor). exists r'.
    by rewrite Hdel, lookup_delete_ne.
  - intros w con Hw. destruct (inv_heaps _ Hi w con Hw) as [H1 H2]. split; [done|].
    rewrite Forall_forall in *. intros p Hp. destruct (H2 p Hp) as (r' & Hr' & Ht). exists r'.
    rewrite Hdel, lookup_delete_ne; [done|]. intros ->. apply Hnh, (places_held _ w), elem_of_places.
    right. exists p. by rewrite (heap_of_Some s w con Hw).
  - intros d' r' [Hne Hr']%lookup_delete_Some. by apply (inv_times _ Hi d').
  - intros w. unfold used. rewrite !elem_of_app. intros [Hin|[Hin|Hin]];
      [|by apply not_elem_of_nil in Hin|]; apply (inv_used _ Hi); unfold used; rewrite !elem_of_app; auto.
  - intros w now c [E|E]; done.
Qed.

(** ** Every step *)

Lemma inv_log s lg : inv s -> inv (s <| log := lg |>).
Proof. intros Hi. apply (inv_ext s); try done; try apply Hi; auto. Qed.

(** The thread of [MsgTask] moves on. *)
Lemma inv_task s tk :
  inv s -> (firing tk = firing (msg_task s) \/ firing tk = []) -> deleting tk = deleting (msg_task s) ->
  (forall w, w ∈ task_containers tk -> is_Some (containers s !! w)) ->
  (forall w now c, tk = TStop w now c \/ tk = TCallback w now c -> is_Some (clients s !! c)) ->
  inv (s <| msg_task := tk |>).
Proof.
  intros Hi Hf Hd Hu Ht. apply (inv_ext s); try done; try apply Hi.
  intros w. unfold used. rewrite !elem_of_app. cbn. intros [?|[?|?]]; auto.
Qed.

Lemma task_container s w :
  inv s -> w ∈ task_containers (msg_task s) -> is_Some (containers s !! w).
Proof. intros Hi Hw. apply (inv_used _ Hi). unfold used. rewrite !elem_of_app. auto. Qed.

Lemma step_call s call cs del :
  inv s -> msg_task s = TCalls (call :: cs) del ->
  exists s1, do_call call s = Some s1 /\
    let s' := s1 <| msg_task := TCalls cs del |> in
    msg_step s = Some s' /\ inv s' /\ clients s1 = clients s /\ delegates s1 = delegates s /\
    (forall w, mTree <$> containers s1 !! w = mTree <$> containers s !! w) /\
    poll_task s1 = poll_task s /\ log s1 = log s /\ places s1 = places s /\ clock s1 = clock s.
Proof.
  intros Hi Hm. destruct (inv_call s call Hi) as (s1 & Hs & Hi' & Hc & Hd & Ht & Hm' & Hp & Hl & Hpl & Hk).
  { apply task_container; [done|]. rewrite Hm. left. }
  exists s1. unfold msg_step. rewrite Hm, Hs. cbv zeta. split_and!; try done.
  apply inv_task; rewrite ?Hm', ?Hm; try done; auto.
  - intros w Hw. apply (task_container s1); [done|]. rewrite Hm', Hm. by right.
  - intros w now c [E|E]; done.
Qed.

Lemma msg_step_inv s :
  inv s -> enabled AMsg s = true -> exists s', msg_step s = Some s' /\ inv s'.
Proof.
  intros Hi Hen. destruct (msg_task s) as [|[|call cs] del|w now d|w now c|w now c|w now] eqn:Hm.
  - destruct (mQ s) as [|[w d|w d|w] q] eqn:Hq.
    + simpl in Hen. by rewrite Hm, Hq in Hen.
    + destruct (proc_push s w d q Hi Hm Hq) as (con & r & _ & _ & H1 & H2 & _); eauto.
    + destruct (proc_remove s w d q Hi Hm Hq) as (con & r & _ & _ & H).
      cbv zeta in H. destruct (heap_remove _ _) as [rm h]. destruct H as (H1 & H2 & _). eauto.
    + destruct (proc_expire s w q Hi Hm Hq) as (con & _ & H).
      destruct (heap_pop _) as [timer h]. destruct H as [H1 H2]. eauto.
  - destruct del as [d|]; [destruct (step_delete s d Hi Hm) as (s' & H1 & H2 & _); eauto|].
    unfold msg_step. rewrite Hm. eexists. split; [done|]. apply inv_task; rewrite ?Hm; try done; auto.
    + intros w Hw. by apply not_elem_of_nil in Hw.
    + intros w now c [E|E]; done.
  - destruct (step_call s call cs del Hi Hm) as (s1 & _ & H1 & H2 & _). eauto.
  - destruct (inv_held _ Hi d) as [r Hr]; [unfold held; rewrite Hm; apply elem_of_app; right; left|].
    unfold msg_step. rewrite Hm, Hr. eexists. split; [done|].
    apply inv_task; rewrite ?Hm; try done; auto.
    + right. by destruct (mClient r).
    + by destruct (mClient r).
    + intros w' Hw. apply task_container; [done|]. rewrite Hm. by destruct (mClient r).
    + intros w' now' c. destruct (mClient r) as [c'|] eqn:Hcl; intros [E|E]; simplify_eq.
      destruct (inv_active _ Hi d r c Hr Hcl) as (tm & ? & ? & _). eauto.
  - destruct (inv_target _ Hi w now c) as [tm Hc]; [by left|].
    destruct (timer_stop_spec s c tm Hi Hc) as (ok & s' & Hs & Hi' & Hc' & Hm' & _).
    unfold msg_step. rewrite Hm, Hs. eexists. split; [done|].
    apply inv_task; rewrite ?Hm', ?Hm; try done; auto.
    + left. by destruct ok.
    + by destruct ok.
    + intros w' Hw. apply (task_container s'); [done|]. rewrite Hm', Hm. by destruct ok.
    + intros w' now' c0 [E|E]; destruct ok; by simplify_eq.
  - destruct (inv_target _ Hi w now c) as [tm Hc]; [by right|].
    unfold msg_step. rewrite Hm, Hc. eexists. split; [done|].
    apply (inv_task (s <| log := _ |>)); [by apply inv_log|..]; cbn; rewrite ?Hm; try done; auto.
    + intros w' Hw. apply task_container; [done|]. by rewrite Hm.
    + intros w' now' c0 [E|E]; done.
  - destruct (step_next s w now Hi Hm) as (con & _ & H).
    destruct (popIfOutRanks _ _) as [timer con']. destruct H as [H1 H2]. eauto.
Qed.

Lemma client_stop_inv s c tm :
  inv s -> clients s !! c = Some tm ->
  exists s', client_stop c s = Some s' /\ inv s' /\ msg_task s' = msg_task s /\
    clients s' !! c = Some {| mTimer := None; timer_mLock := timer_mLock tm |} /\
    log s' = log s ++ (if mTimer tm is Some _ then [EStop c] else []) /\
    clients s' = <[c := {| mTimer := None; timer_mLock := timer_mLock tm |}]> (clients s).
Proof.
  intros Hi Hc. unfold client_stop.
  destruct (timer_stop_spec s c tm Hi Hc) as (ok & s' & -> & Hi' & _ & Hm & _ & _ & Hl & _ & -> & Hcl & _).
  cbn. eexists. split; [done|]. destruct (mTimer tm).
  - split_and!; try done; [by apply inv_log|by cbn; rewrite Hcl, lookup_insert_eq|by cbn; rewrite Hl].
  - split_and!; try done; [by rewrite Hcl, lookup_insert_eq|by rewrite Hl, app_nil_r].
Qed.

Lemma exec_inv a s :
  inv s -> enabled a s = true -> disciplined a s = true -> exists s', exec a s = Some s' /\ inv s'.
Proof.
  intros Hi Hen Hdi. destruct a as [t|c l|fd c ms w d|c|c|ws| |]; simpl in Hen, Hdi; bool_to_prop.
  - eexists. split; [done|]. apply (inv_ext s); try done; try apply Hi; auto.
  - eexists. split; [done|]. repeat match goal with H : bool_decide _ = true |- _ =>
      apply bool_decide_eq_true in H end. by apply inv_new.
  - repeat match goal with H : bool_decide _ = true |- _ => apply bool_decide_eq_true in H end.
    subst fd. match goal with H : is_Some _ |- _ => destruct H as [tm Hc] end. simpl.
    destruct (timer_start_spec s c tm ms w d) as (s' & Hs & Hi' & _); try done.
    rewrite Hs. by exists s'.
  - apply bool_decide_eq_true in Hen as [tm Hc].
    destruct (client_stop_inv s c tm Hi Hc) as (s' & Hs & Hi' & _). by exists s'.
  - apply bool_decide_eq_true in Hen as [tm Hc]. simpl. unfold timer_delete. rewrite Hc. cbn [mbind option_bind].
    destruct (client_stop_inv s c tm Hi Hc) as (s' & -> & Hi' & Hm & Hc' & _). cbn [mbind option_bind].
    destruct (inv_delete_client s' c _ Hi' Hc' eq_refl) as (lk & Hd & Hi'').
    { intros w now. rewrite Hm. split; intros E; rewrite E in Hdi; rewrite Z.eqb_refl in Hdi; done. }
    simpl in Hd. rewrite Hd. by eexists.
  - eexists. split; [done|]. apply (inv_ext s); try done; try apply Hi; auto.
    intros w. unfold used. rewrite !elem_of_app. intros [?|[?|Hin]]; [auto..|]. right.
    cbn in Hin. apply list_elem_of_fmap in Hin as (call & -> & Hin).
    apply list_elem_of_bind in Hin as (w & Hin & Hw).
    match goal with H : forallb _ _ = true |- _ => rewrite forallb_forall in H;
      assert (ready s w = true) as Hrd by (by apply H, list_elem_of_In) end.
    unfold ready in Hrd. destruct (containers s !! w) eqn:Ew; [|done].
    assert (call_container call = w) as ->; [|by eexists]. simpl in Hin.
    repeat (apply elem_of_cons in Hin as [->|Hin]; [done|]). by apply not_elem_of_nil in Hin.
  - simpl. destruct (poll_task s) as [|call cs] eqn:Hp; [by exists s|].
    destruct (inv_call s call Hi) as (s' & Hs & Hi' & Hc & Hd & Ht & Hm' & Hp' & Hl & _).
    { apply (inv_used _ Hi). unfold used. rewrite Hp, !elem_of_app. right. right. left. }
    rewrite Hs. eexists. split; [done|]. apply (inv_ext s'); try done; try apply Hi'; auto.
    intros w. unfold used. rewrite !elem_of_app. cbn. rewrite Hp', Hp. cbn. rewrite elem_of_cons. tauto.
  - by apply msg_step_inv.
Qed.

Lemma inv_init now : time_ok now = true -> inv (init_state now).
Proof.
  intros Ht. assert (Hn : forall (d : Z), d ∉ @nil Z) by apply not_elem_of_nil.
  split; try done; try apply NoDup_nil_2.
  - intros d Hd. by apply Hn in Hd.
  - intros d Hd. by apply Hn in Hd.
  - intros w d Hd. by apply not_elem_of_nil in Hd.
  - intros [|? ?]; done.
  - intros w Hw. by apply not_elem_of_nil in Hw.
  - intros w t c [E|E]; done.
Qed.

Lemma reachable_inv s : reachable s -> inv s.
Proof.
  induction 1 as [now Ht|s a s' _ IH Hen Hdi Hex]; [by apply inv_init|].
  destruct (exec_inv a s IH Hen Hdi) as (s'' & Hex' & Hi). by simplify_eq.
Qed.
