(* ===== verification/LocTimerProps.v ===== *)
(** * What the timer service guarantees

    Memory safety, the account of starts, stops and callbacks, the timerfds, and
    the expiry loop; and a run in which a timer fires long before its time. *)
From S2P Require Import Prelude LocHeap LocTimer LocTimerInv.
From stdpp Require Import base list gmap sets sorting.
From Stdlib Require Import ZArith Lia.

Open Scope Z_scope.

Implicit Types (s : state) (w : bool) (c d l : Z) (t now : timespec) (con : LocTimerContainer)
  (r : LocTimerDelegate) (tm : LocTimer) (q : list LocMsg) (lg : list event).

(** ** The account of a client *)

Definition is_start c (e : event) : bool := if e is EStart c' _ then c =? c' else false.
Definition is_stop c (e : event) : bool := if e is EStop c' then c =? c' else false.
Definition is_fired c (e : event) : bool := if e is EFired c' _ then c =? c' else false.

Definition occurs (p : event -> bool) lg : Z := Z.of_nat (length (List.filter p lg)).

Definition running s c : Z :=
  match clients s !! c with Some tm => if mTimer tm is Some _ then 1 else 0 | None => 0 end.
Definition calling (tk : task) c : Z := if tk is TCallback _ _ c' then Z.b2z (c =? c') else 0.

Definition ledger_ok s : Prop := forall c,
  occurs (is_start c) (log s) =
  occurs (is_stop c) (log s) + occurs (is_fired c) (log s) + running s c + calling (msg_task s) c.

Lemma occurs_snoc p lg e : occurs p (lg ++ [e]) = occurs p lg + Z.b2z (p e).
Proof.
  unfold occurs. rewrite List.filter_app, length_app. simpl. destruct (p e); simpl; lia.
Qed.

Lemma ledger_same s s' :
  ledger_ok s -> clients s' = clients s -> log s' = log s ->
  (forall c, calling (msg_task s') c = calling (msg_task s) c) -> ledger_ok s'.
Proof. intros Hl Hc Hg Ht c. unfold running. rewrite Hc, Hg, Ht. apply Hl. Qed.

Lemma running_insert s s' c tm c' :
  clients s' = <[c := tm]> (clients s) ->
  running s' c' = if c' =? c then if mTimer tm is Some _ then 1 else 0 else running s c'.
Proof.
  intros Hc. unfold running. rewrite Hc. destruct (c' =? c) eqn:E; bool_to_prop.
  - subst. by rewrite lookup_insert_eq.
  - by rewrite lookup_insert_ne.
Qed.

Lemma msg_step_ledger s s' :
  inv s -> enabled AMsg s = true -> msg_step s = Some s' -> ledger_ok s -> ledger_ok s'.
Proof.
  intros Hi Hen Hs Hl.
  destruct (msg_task s) as [|[|call cs] del|w now d|w now c|w now c|w now] eqn:Hm.
  - destruct (mQ s) as [|[w d|w d|w] q] eqn:Hq; [simpl in Hen; by rewrite Hm, Hq in Hen|..].
    + destruct (proc_push s w d q Hi Hm Hq) as (con & r & _ & _ & H1 & _). simplify_eq.
      apply (ledger_same s); try done. by rewrite Hm.
    + destruct (proc_remove s w d q Hi Hm Hq) as (con & r & _ & _ & H). cbv zeta in H.
      destruct (heap_remove _ _) as [rm h]. destruct H as (H1 & _). simplify_eq.
      apply (ledger_same s); try done. by rewrite Hm.
    + destruct (proc_expire s w q Hi Hm Hq) as (con & _ & H).
      destruct (heap_pop _) as [timer h]. destruct H as [H1 _]. simplify_eq.
      apply (ledger_same s); try done. rewrite Hm. by destruct timer.
  - destruct del as [d|].
    { destruct (step_delete s d Hi Hm) as (s1 & H1 & _ & Hm' & _ & Hc & _ & _ & Hg & _). simplify_eq.
      apply (ledger_same s); try done. by rewrite Hm, Hm'. }
    unfold msg_step in Hs. rewrite Hm in Hs. simplify_eq. apply (ledger_same s); try done. by rewrite Hm.
  - destruct (step_call s call cs del Hi Hm) as (s1 & _ & H1 & _ & Hc & _ & _ & _ & Hg & _).
    simplify_eq. apply (ledger_same s); try done. by rewrite Hm.
  - unfold msg_step in Hs. rewrite Hm in Hs. apply bind_Some in Hs as (r & _ & Hs). simplify_eq/=.
    apply (ledger_same s); try done. rewrite Hm. by destruct (mClient r).
  - destruct (inv_target _ Hi w now c) as [tm Hc]; [by left|].
    destruct (timer_stop_spec s c tm Hi Hc) as (ok & s1 & H1 & _ & _ & _ & _ & _ & Hg & _ & Hok & Hcl & _).
    unfold msg_step in Hs. rewrite Hm, H1 in Hs. simplify_eq/=. intros c'. specialize (Hl c').
    rewrite Hm in Hl. simpl in Hl. rewrite Hg. cbn [running]. unfold running at 1. cbn [clients].
    fold (running s1 c'). rewrite (running_insert s s1 c _ c' Hcl). cbn [mTimer].
    assert (Hr : running s c = if mTimer tm is Some _ then 1 else 0) by (unfold running; by rewrite Hc).
    destruct (c' =? c) eqn:E; bool_to_prop; subst; destruct (mTimer tm); simpl;
      rewrite ?Z.eqb_refl; simpl; try lia. by rewrite (proj2 (Z.eqb_neq c' c) E).
  - unfold msg_step in Hs. rewrite Hm in Hs. apply bind_Some in Hs as (tm & _ & Hs). simplify_eq/=.
    intros c'. specialize (Hl c'). rewrite Hm in Hl. simpl in Hl. cbn [log msg_task calling].
    rewrite !occurs_snoc. cbn [is_start is_stop is_fired Z.b2z]. unfold running in *. cbn [clients]. lia.
  - destruct (step_next s w now Hi Hm) as (con & _ & H).
    destruct (popIfOutRanks _ _) as [timer con']. destruct H as [H1 _]. simplify_eq.
    apply (ledger_same s); try done. rewrite Hm. by destruct timer.
Qed.

Lemma client_stop_ledger s s' c tm :
  clients s !! c = Some tm -> ledger_ok s -> msg_task s' = msg_task s ->
  log s' = log s ++ (if mTimer tm is Some _ then [EStop c] else []) ->
  clients s' = <[c := {| mTimer := None; timer_mLock := timer_mLock tm |}]> (clients s) ->
  ledger_ok s'.
Proof.
  intros Hc Hl Hm Hg Hcl c'. specialize (Hl c'). rewrite Hg, Hm, (running_insert s s' c _ c' Hcl).
  assert (Hr : running s c = if mTimer tm is Some _ then 1 else 0) by (unfold running; by rewrite Hc).
  destruct (mTimer tm); rewrite ?occurs_snoc, ?app_nil_r; simpl;
    destruct (c' =? c) eqn:E; bool_to_prop; subst; simpl; lia.
Qed.

Lemma exec_ledger a s s' :
  inv s -> enabled a s = true -> disciplined a s = true -> exec a s = Some s' ->
  ledger_ok s -> ledger_ok s'.
Proof.
  intros Hi Hen Hdi Hex Hl.
  destruct a as [t|c l|fd c ms w d|c|c|ws| |]; simpl in Hen, Hdi, Hex; bool_to_prop; simplify_eq;
    repeat match goal with H : bool_decide _ = true |- _ => apply bool_decide_eq_true in H end.
  - by apply (ledger_same s).
  - intros c'. specialize (Hl c'). cbn. rewrite (running_insert s _ c {| mTimer := None; timer_mLock := l |}) by done.
    destruct (c' =? c) eqn:E; bool_to_prop; subst; [|done]. cbn. unfold running in Hl.
    match goal with H : clients s !! c = None |- _ => by rewrite H in Hl end.
  - match goal with H : is_Some _ |- _ => destruct H as [tm Hc] end.
    destruct (timer_start_spec s c tm ms w d) as (s1 & Hs & _ & Hm & _ & _ & Heq); try done.
    rewrite Hs in Hex. simplify_eq/=.
    destruct (mTimer tm) as [d0|] eqn:Ht; [by subst|]. destruct Heq as [n ->].
    intros c'. specialize (Hl c'). rewrite Hm.
    assert (Hcl : clients (started c (timer_mLock tm) n (futureTime (clock s) ms) w d s) =
      <[c := {| mTimer := Some d; timer_mLock := timer_mLock tm |}]> (clients s)).
    { unfold started, get_container. by destruct (containers _ !! w). }
    assert (Hg : log (started c (timer_mLock tm) n (futureTime (clock s) ms) w d s) =
      log s ++ [EStart c (futureTime (clock s) ms)]).
    { unfold started, get_container. by destruct (containers _ !! w). }
    rewrite Hg, (running_insert s _ c _ c' Hcl), !occurs_snoc. simpl.
    assert (Hr : running s c = 0) by (unfold running; by rewrite Hc, Ht).
    destruct (c' =? c) eqn:E; bool_to_prop; subst; simpl; lia.
  - destruct Hen as [tm Hc]. destruct (client_stop_inv s c tm Hi Hc) as (s1 & Hs & _ & Hm & _ & Hg & Hcl).
    simplify_eq. by apply (client_stop_ledger s s' c tm).
  - destruct Hen as [tm Hc]. destruct (client_stop_inv s c tm Hi Hc) as (s1 & Hs & _ & Hm & Hc' & Hg & Hcl).
    unfold timer_delete in Hex. rewrite Hc, Hs in Hex. cbn [mbind option_bind] in Hex.
    apply bind_Some in Hex as (s2 & Hd & Hex). simplify_eq.
    unfold lock_drop in Hd. apply bind_Some in Hd as (n & _ & Hd). simplify_eq.
    pose proof (client_stop_ledger s s1 c tm Hc Hl Hm Hg Hcl) as Hl1.
    intros c'. specialize (Hl1 c'). cbn. unfold running in *. cbn.
    destruct (decide (c' = c)) as [->|Hne]; [rewrite lookup_delete_eq|by rewrite lookup_delete_ne].
    by rewrite Hc' in Hl1.
  - by apply (ledger_same s).
  - destruct (poll_task s) as [|call cs] eqn:Hp; [by simplify_eq|].
    destruct (inv_call s call Hi) as (s1 & Hs & _ & Hc & Hd & Ht & Hm' & Hp' & Hlg & _).
    { apply (inv_used _ Hi). unfold used. rewrite Hp, !elem_of_app. right. right. left. }
    rewrite Hs in Hex. simplify_eq/=. apply (ledger_same s); try done. cbn. by rewrite Hm'.
  - by apply (msg_step_ledger s).
Qed.

(** ** A timer that runs is waiting *)

(** Its delegate waits for its deadline, or the expiry loop is about to call it. *)
Definition waiting s : Prop := forall d r c,
  delegates s !! d = Some r -> mClient r = Some c ->
  (exists w, (w, d) ∈ places s) \/ d ∈ firing (msg_task s) \/
  exists w now, msg_task s = TStop w now c.

Lemma waiting_same s s' :
  waiting s -> (forall d r c, delegates s' !! d = Some r -> mClient r = Some c -> delegates s !! d = Some r) ->
  (forall w d, (w, d) ∈ places s -> (w, d) ∈ places s') ->
  msg_task s' = msg_task s -> waiting s'.
Proof.
  intros Hw Hd Hp Hm d r c Hr Hc. rewrite Hm.
  destruct (Hw d r c (Hd d r c Hr Hc) Hc) as [[w H]|H]; [left; exists w; auto|by right].
Qed.

(** The same when the thread of [MsgTask] was not about to call anyone. *)
Lemma waiting_moves s s' :
  waiting s -> firing (msg_task s) = [] -> (forall w now c, msg_task s <> TStop w now c) ->
  (forall d r c, delegates s' !! d = Some r -> mClient r = Some c ->
    delegates s !! d = Some r /\
    forall w, (w, d) ∈ places s -> (w, d) ∈ places s' \/ d ∈ firing (msg_task s')) ->
  waiting s'.
Proof.
  intros Hw Hf Ht Hd d r c Hr Hc. destruct (Hd d r c Hr Hc) as [Hr' Hp].
  destruct (Hw d r c Hr' Hc) as [[w H]|[H|(w & now & H)]].
  - destruct (Hp w H); [left; by exists w|auto].
  - rewrite Hf in H. by apply not_elem_of_nil in H.
  - by destruct (Ht w now c).
Qed.

Lemma waiting_popped s w now con timer h q :
  waiting s -> containers s !! w = Some con -> pushes (mQ s) = pushes q ->
  from_option objects [] (mTree con) ≡ₚ option_list timer ++ from_option objects [] h ->
  firing (msg_task s) = [] -> (forall w now c, msg_task s <> TStop w now c) ->
  waiting (popped w now con timer h q s).
Proof.
  intros Hw Hc Hpu Hel Hf Ht. pose proof (places_popped s w now con timer h q Hc Hpu Hel) as Hpl.
  apply (waiting_moves s); try done. intros d r c Hr Hcl. split; [done|]. intros w'.
  rewrite Hpl, elem_of_app. intros [Hin|Hin]; [|by left]. right.
  destruct timer as [p|]; [|by apply not_elem_of_nil in Hin].
  apply list_elem_of_singleton in Hin as [= -> ->]. left.
Qed.

Lemma msg_step_waiting s s' :
  inv s -> enabled AMsg s = true -> msg_step s = Some s' -> waiting s -> waiting s'.
Proof.
  intros Hi Hen Hs Hl.
  destruct (msg_task s) as [|[|call cs] del|w now d|w now c|w now c|w now] eqn:Hm.
  - destruct (mQ s) as [|[w d|w d|w] q] eqn:Hq; [simpl in Hen; by rewrite Hm, Hq in Hen|..].
    + destruct (proc_push s w d q Hi Hm Hq) as (con & r & _ & _ & H1 & _ & Hpl). simplify_eq.
      apply (waiting_moves s); rewrite ?Hm; try done. intros d' r' c' Hr Hc. split; [done|].
      intros w'. rewrite Hpl. by left.
    + destruct (proc_remove s w d q Hi Hm Hq) as (con & r & _ & Hr & H). cbv zeta in H.
      destruct (heap_remove _ _) as [rm h]. destruct H as (H1 & _ & _ & Hrm & Hpl & Hcl). simplify_eq.
      apply (waiting_moves s); rewrite ?Hm; try done. intros d' r' c' Hr' Hc. split; [done|].
      intros w'. rewrite Hpl, elem_of_app. intros [Hin|Hin]; [|by left].
      destruct Hrm as [->|[-> _]]; [|by apply not_elem_of_nil in Hin].
      apply list_elem_of_singleton in Hin as [= -> ->]. cbn in Hr'. congruence.
    + destruct (proc_expire s w q Hi Hm Hq) as (con & Hw & H).
      pose proof (heap_pop_ok (live_ptr s) (mTree con) (heap_known s w con Hi Hw)
        (proj1 (inv_heaps _ Hi w con Hw))) as Hpop.
      destruct (heap_pop _) as [timer h]. destruct H as [H1 _]. simplify_eq.
      apply waiting_popped; rewrite ?Hm, ?Hq; try done.
      destruct timer; [by destruct Hpop as (_ & _ & ? & _)|by destruct Hpop as [-> ->]].
  - destruct del as [d|].
    + pose proof Hs as Hs'. unfold msg_step in Hs'. rewrite Hm in Hs'. unfold delegate_delete in Hs'.
      apply bind_Some in Hs' as (s1 & Hs1 & ?). apply bind_Some in Hs1 as (r & Hr & Hs1).
      apply bind_Some in Hs1 as (s2 & Hs2 & ?). unfold lock_drop in Hs2.
      apply bind_Some in Hs2 as (n & _ & ?). simplify_eq/=.
      apply (waiting_moves s); rewrite ?Hm; try done.
      intros d' r' c' Hr' Hc. cbn in Hr'. apply lookup_delete_Some in Hr' as [Hne Hr'].
      split; [done|]. by left.
    + unfold msg_step in Hs. rewrite Hm in Hs. simplify_eq.
      apply (waiting_moves s); rewrite ?Hm; try done. intros d r c Hr Hc. split; [done|]. by left.
  - destruct (step_call s call cs del Hi Hm) as (s1 & _ & H1 & _ & _ & Hd & Ht & _ & _ & Hpl & _).
    simplify_eq. apply (waiting_moves s); rewrite ?Hm; try done.
    intros d r c Hr Hc. cbn in Hr. rewrite Hd in Hr. split; [done|]. intros w Hin. left.
    rewrite <- Hpl in Hin. exact Hin.
  - unfold msg_step in Hs. rewrite Hm in Hs. apply bind_Some in Hs as (r & Hr & Hs). simplify_eq/=.
    intros d' r' c' Hr' Hc. cbn in Hr'. destruct (Hl d' r' c' Hr' Hc) as [H|[H|(? & ? & H)]]; [by left| |congruence].
    rewrite Hm in H. apply list_elem_of_singleton in H as ->. right. right. simplify_eq.
    exists w, now. by rewrite Hc.
  - destruct (inv_target _ Hi w now c) as [tm Hc]; [by left|].
    destruct (timer_stop_spec s c tm Hi Hc) as (ok & s1 & H1 & _ & _ & Hm1 & _ & _ & _ & _ & Hok & _ & Hpl & Hst & _).
    unfold msg_step in Hs. rewrite Hm, H1 in Hs. simplify_eq/=.
    intros d' r' c' Hr' Hc'. cbn in Hr'. destruct (Hst d' r' c' Hr' Hc') as [Hr0 Hne].
    destruct (Hl d' r' c' Hr0 Hc') as [[w' H]|[H|(? & ? & H)]].
    + left. exists w'. rewrite <- Hpl in H. exact H.
    + rewrite Hm in H. by apply not_elem_of_nil in H.
    + rewrite Hm in H. congruence.
  - unfold msg_step in Hs. rewrite Hm in Hs. apply bind_Some in Hs as (tm & _ & Hs). simplify_eq/=.
    apply (waiting_moves s); rewrite ?Hm; try done. intros d r c' Hr Hc. split; [done|]. by left.
  - destruct (step_next s w now Hi Hm) as (con & Hw & H).
    pose proof (popIfOutRanks_spec s w now con Hi Hw) as Hsp.
    destruct (popIfOutRanks _ _) as [timer con']. destruct H as [H1 _]. simplify_eq.
    apply waiting_popped; rewrite ?Hm; try done. apply Hsp.
Qed.

Lemma exec_waiting a s s' :
  inv s -> enabled a s = true -> disciplined a s = true -> exec a s = Some s' ->
  waiting s -> waiting s'.
Proof.
  intros Hi Hen Hdi Hex Hl.
  destruct a as [t|c l|fd c ms w d|c|c|ws| |]; simpl in Hen, Hdi, Hex; bool_to_prop; simplify_eq;
    repeat match goal with H : bool_decide _ = true |- _ => apply bool_decide_eq_true in H end.
  - by apply (waiting_same s).
  - by apply (waiting_same s).
  - match goal with H : is_Some _ |- _ => destruct H as [tm Hc] end.
    destruct (timer_start_spec s c tm ms w d) as (s1 & Hs & _ & Hm & _ & _ & Heq); try done.
    rewrite Hs in Hex. simplify_eq/=.
    destruct (mTimer tm) as [d0|] eqn:Ht; [by subst|]. destruct Heq as [n ->].
    destruct (started_spec s c (timer_mLock tm) n (futureTime (clock s) ms) w d) as (Hd' & Hpl & _).
    intros d' r' c' Hr' Hc'. rewrite Hd' in Hr'. rewrite Hm.
    apply lookup_insert_Some in Hr' as [[<- <-]|[Hne Hr']].
    + left. exists w. rewrite Hpl. left.
    + destruct (Hl d' r' c' Hr' Hc') as [[w' Hp]|H]; [left|by right].
      exists w'. rewrite Hpl. by right.
  - destruct Hen as [tm Hc]. unfold client_stop in Hex.
    destruct (timer_stop_spec s c tm Hi Hc) as (ok & s1 & H1 & _ & _ & Hm1 & _ & _ & _ & _ & _ & _ & Hpl & Hst & _).
    rewrite H1 in Hex. simplify_eq/=. apply (waiting_same s); try done.
    + intros d r c' Hr Hcl. destruct ok; by apply (Hst d r c').
    + intros w d Hp. rewrite <- Hpl in Hp. by destruct ok.
    + by destruct ok.
  - destruct Hen as [tm Hc]. unfold timer_delete, client_stop in Hex.
    destruct (timer_stop_spec s c tm Hi Hc) as (ok & s1 & H1 & _ & _ & Hm1 & _ & _ & _ & _ & _ & _ & Hpl & Hst & _).
    rewrite Hc, H1 in Hex. cbn [mbind option_bind] in Hex.
    apply bind_Some in Hex as (s2 & Hd & Hex). unfold lock_drop in Hd.
    apply bind_Some in Hd as (n & _ & Hd). simplify_eq. apply (waiting_same s); try done.
    + intros d r c' Hr Hcl. destruct ok; by apply (Hst d r c').
    + intros w d Hp. rewrite <- Hpl in Hp. by destruct ok.
    + by destruct ok.
  - by apply (waiting_same s).
  - destruct (poll_task s) as [|call cs] eqn:Hp; [by simplify_eq|].
    destruct (inv_call s call Hi) as (s1 & Hs & _ & Hc & Hd & Ht & Hm' & Hp' & Hlg & Hpl & _).
    { apply (inv_used _ Hi). unfold used. rewrite Hp, !elem_of_app. right. right. left. }
    rewrite Hs in Hex. simplify_eq/=. apply (waiting_same s); try done.
    + intros d r c Hr _. cbn in Hr. by rewrite Hd in Hr.
    + intros w d Hin. rewrite <- Hpl in Hin. exact Hin.
  - by apply (msg_step_waiting s).
Qed.

(** ** The timerfds *)

(** An expiry of container [w] has been noticed and is not yet over. *)
Definition expiring w (tk : task) : Prop :=
  match tk with
  | TFire w' _ _ | TStop w' _ _ | TCallback w' _ _ | TNext w' _ => w' = w
  | _ => False
  end.
Definition expecting s w : Prop :=
  MsgTimerExpire w ∈ mQ s \/ SendExpire w ∈ poll_task s \/ expiring w (msg_task s).

(** The kernel's part of a container, and what a system call makes of it. *)
Definition kernel_of con : option timespec * bool := (armed con, polled con).
Definition kernel_call w (k : option timespec * bool) (call : syscall) : option timespec * bool :=
  if bool_decide (call_container call = w) then
    match call with
    | AddPoll _ => (fst k, true)
    | RemovePoll _ => (fst k, false)
    | SetTime _ (Some t) => (if timespec_ns t =? 0 then None else Some t, snd k)
    | SetTime _ None => (None, snd k)
    | SendExpire _ => k
    end
  else k.

Definition pending_calls (tk : task) : list syscall := if tk is TCalls cs _ then cs else [].

(** The timerfd is polled and set to the deadline of the soonest timer. *)
Definition armed_for (h : LocHeap timer_ptr) (k : option timespec * bool) : Prop :=
  forall p, heap_peek h = Some p -> k = (Some (ptr_time p), true).

(** A call of [expire] on a container is followed by its message. *)
Fixpoint poll_ok (cs : list syscall) : Prop :=
  match cs with
  | [] => True
  | call :: cs => SendExpire (call_container call) ∈ call :: cs /\ poll_ok cs
  end.

Definition armed_inv s : Prop :=
  poll_ok (poll_task s) /\
  forall w con, containers s !! w = Some con ->
    expecting s w \/
    armed_for (mTree con) (foldl (kernel_call w) (kernel_of con) (pending_calls (msg_task s))).

Lemma kernel_other w w' k cs :
  (forall x, x ∈ call_container <$> cs -> x = w') -> w' <> w -> foldl (kernel_call w) k cs = k.
Proof.
  intros Hcs Hne. revert k. induction cs as [|call cs IH]; intros k; [done|]. simpl.
  assert (kernel_call w k call = k) as ->; [|apply IH; intros; apply Hcs; by right].
  unfold kernel_call. rewrite bool_decide_eq_false_2; [done|].
  rewrite (Hcs (call_container call)) by left. done.
Qed.

(** The calls of [updateSoonestTime(NULL)] set the timerfd. *)
Lemma update_arms w con k :
  Forall (fun p => valid (ptr_time p)) (from_option objects [] (mTree con)) ->
  armed_for (mTree con) (foldl (kernel_call w) k (updateSoonestTime w None con)).
Proof.
  intros Hv p Hp. unfold updateSoonestTime, getSoonestTimer. rewrite Hp.
  destruct (decide _) as [?|_]; [done|]. unfold kernel_call. cbn.
  rewrite bool_decide_eq_true_2 by done.
  destruct (mTree con) as [n|]; [|done]. simpl in *. simplify_eq.
  rewrite elements_below in Hv. apply Forall_cons_1 in Hv as [(_ & _ & Hv) _].
  destruct (_ =? 0) eqn:E; bool_to_prop; [lia|done].
Qed.

Lemma heap_peek_push {A} `{LocRankable A} (h : LocHeap A) a :
  heap_peek (heap_push h a) =
  Some (match heap_peek h with Some top => if outRanks a top then a else top | None => a end).
Proof.
  destruct h as [[s l r top]|]; [|done]. simpl. destruct (outRanks a top), l, r; simpl; try done;
    by destruct (_ <=? _).
Qed.

Lemma heap_peek_remove {A} `{LocRankable A} (h : LocHeap A) a top :
  heap_peek h = Some top -> address a <> address top -> heap_peek (snd (heap_remove h a)) = Some top.
Proof.
  destruct h as [[s l r d]|]; [|done]. simpl. intros [= ->] Hne.
  rewrite (proj2 (Z.eqb_neq _ _) Hne). destruct (outRanks a top); [done|]. simpl.
  destruct (match l with Some ln => LocHeap.remove ln a | None => (None, None) end) as [l' [x|]]; [done|].
  simpl. by destruct (match r with Some rn => LocHeap.remove rn a | None => (r, None) end) as [r' [x|]].
Qed.

(** The timerfd after a push: it is set if the new timer is the soonest. *)
Lemma push_arms w con p k :
  Forall (fun p => valid (ptr_time p)) (from_option objects [] (mTree con)) -> valid (ptr_time p) ->
  (forall top, heap_peek (mTree con) = Some top -> ptr top <> ptr p) ->
  armed_for (mTree con) k ->
  armed_for (heap_push (mTree con) p)
    (foldl (kernel_call w) k
       (updateSoonestTime w (getSoonestTimer con) (con <| mTree := heap_push (mTree con) p |>))).
Proof.
  intros Hv Hvp Hne Hk. destruct (heap_peek (mTree con)) as [top|] eqn:Htop.
  - intros p' Hp'. rewrite heap_peek_push, Htop in Hp'.
    unfold updateSoonestTime, getSoonestTimer. cbn [mTree field_update]. rewrite heap_peek_push, Htop.
    specialize (Hne top eq_refl). destruct (outRanks p top) eqn:Ho; simplify_eq; simpl.
    + destruct (decide _) as [E|_]; [by injection E as E|]. rewrite Ho. unfold kernel_call. cbn.
      rewrite bool_decide_eq_true_2 by done. destruct Hvp as (_ & _ & Hpos).
      destruct (_ =? 0) eqn:E; bool_to_prop; [lia|done].
    + destruct (decide _) as [_|?]; [|done]. by apply Hk.
  - unfold getSoonestTimer. rewrite Htop.
    refine (update_arms w (con <| mTree := heap_push (mTree con) p |>) k _). cbn.
    destruct (mTree con) as [n|]; [done|]. simpl. by constructor.
Qed.

Lemma armed_same s s' :
  armed_inv s -> poll_task s' = poll_task s -> msg_task s' = msg_task s ->
  (forall w con, containers s' !! w = Some con -> containers s !! w = Some con \/ mTree con = None) ->
  (forall w, MsgTimerExpire w ∈ mQ s -> MsgTimerExpire w ∈ mQ s') -> armed_inv s'.
Proof.
  intros [Hp Ha] Ep Em Hc Hq. split; [by rewrite Ep|]. intros w con Hw. unfold expecting. rewrite Ep, Em.
  destruct (Hc w con Hw) as [Hw'|Hnone].
  - destruct (Ha w con Hw') as [[H|H]|H]; auto.
  - right. intros p. by rewrite Hnone.
Qed.

(** A step of the thread of [MsgTask] on the heap of [w]. *)
Lemma armed_stepped s w con h q tk :
  armed_inv s -> containers s !! w = Some con -> pending_calls (msg_task s) = [] ->
  (forall w', expiring w' (msg_task s) -> w' = w) ->
  (forall w', w' <> w -> MsgTimerExpire w' ∈ mQ s -> MsgTimerExpire w' ∈ q) ->
  (forall x, x ∈ call_container <$> pending_calls tk -> x = w) ->
  (expecting (stepped w con h q tk s) w \/
   armed_for h (foldl (kernel_call w) (kernel_of con) (pending_calls tk))) ->
  armed_inv (stepped w con h q tk s).
Proof.
  intros [Hp Ha] Hw Hpe He Hq Htk Hwok. split; [done|]. intros w' con' Hw'. cbn in Hw'.
  apply lookup_insert_Some in Hw' as [[<- <-]|[Hne Hw']]; [done|].
  destruct (Ha w' con' Hw') as [[H|[H|H]]|H].
  - left. left. by apply Hq.
  - left. right. by left.
  - by destruct Hne; rewrite (He w' H).
  - right. change (msg_task (stepped _ _ _ _ _ _)) with tk. rewrite (kernel_other w' w); auto.
    by rewrite Hpe in H.
Qed.

Lemma do_call_kernel call s s1 w con1 :
  do_call call s = Some s1 -> containers s1 !! w = Some con1 ->
  exists con, containers s !! w = Some con /\ mTree con1 = mTree con /\
    kernel_of con1 = kernel_call w (kernel_of con) call.
Proof.
  unfold kernel_call. destruct call as [w0|w0|w0 t|w0]; cbn; intros Hs Hw.
  4: { simplify_eq. exists con1. split_and!; try done. by destruct (bool_decide _). }
  all: apply bind_Some in Hs as (con & Hc & Hs); simplify_eq; cbn in Hw;
    apply lookup_insert_Some in Hw as [[-> <-]|[Hne Hw]];
    [exists con; rewrite bool_decide_eq_true_2 by done|
     exists con1; rewrite bool_decide_eq_false_2 by done]; try done.
  by destruct t.
Qed.

Lemma do_call_queue call s s1 :
  do_call call s = Some s1 ->
  (forall m, m ∈ mQ s -> m ∈ mQ s1) /\ (forall w, call = SendExpire w -> MsgTimerExpire w ∈ mQ s1).
Proof.
  destruct call as [w0|w0|w0 t|w0]; cbn; intros Hs;
    try (apply bind_Some in Hs as (con & _ & Hs)); simplify_eq; cbn;
    try done.
  split; [intros m Hm|intros w [= ->]]; apply elem_of_app; [by left|right; left].
Qed.

Lemma heap_apart s w d w' p q :
  inv s -> mQ s = MsgTimerPush w d :: q -> p ∈ heap_of s w' -> ptr p <> d.
Proof.
  intros Hi Hq Hin <-. pose proof (inv_held_once _ Hi) as Hn. unfold held in Hn.
  apply NoDup_app in Hn as [Hn _]. unfold places in Hn. rewrite Hq in Hn. simpl in Hn.
  apply NoDup_cons in Hn as [Hn _]. destruct Hn. apply list_elem_of_fmap. exists (w', ptr p).
  split; [done|]. apply elem_of_app. right. apply elem_of_app.
  destruct w'; [right|left]; apply list_elem_of_fmap; by exists p.
Qed.

Lemma known_valid s w con : inv s -> containers s !! w = Some con ->
  Forall (fun p => valid (ptr_time p)) (from_option objects [] (mTree con)).
Proof. intros Hi Hw. eapply Forall_impl; [by eapply heap_known|]. by intros p [_ ?]. Qed.

Lemma msg_step_armed s s' :
  inv s -> enabled AMsg s = true -> msg_step s = Some s' -> armed_inv s -> armed_inv s'.
Proof.
  intros Hi Hen Hs Ha.
  destruct (msg_task s) as [|[|call cs] del|w now d|w now c|w now c|w now] eqn:Hm.
  - destruct (mQ s) as [|[w d|w d|w] q] eqn:Hq; [simpl in Hen; by rewrite Hm, Hq in Hen|..].
    + destruct (proc_push s w d q Hi Hm Hq) as (con & r & Hw & Hr & H1 & _). simplify_eq.
      apply armed_stepped; rewrite ?Hm, ?Hq; try done.
      * intros w' _ Hin. by apply elem_of_cons in Hin as [[=]|?].
      * intros x Hx. by apply updateSoonestTime_container in Hx.
      * destruct (proj2 Ha w con Hw) as [[H|[H|H]]|H].
        -- left. left. rewrite Hq in H. by apply elem_of_cons in H as [[=]|?].
        -- left. right. by left.
        -- by rewrite Hm in H.
        -- right. rewrite Hm in H. apply push_arms; [by eapply known_valid|by apply (inv_times _ Hi d)| |done].
           intros top Htop. cbn. apply (heap_apart s w d w top q Hi Hq).
           rewrite (heap_of_Some s w con Hw). destruct (mTree con) as [n|]; [|done].
           simpl in *. simplify_eq. rewrite elements_below. left.
    + destruct (proc_remove s w d q Hi Hm Hq) as (con & r & Hw & Hr & H). cbv zeta in H.
      pose proof (heap_peek_remove (mTree con) {| ptr := d; ptr_time := mFutureTime r |}) as Hpk.
      destruct (heap_remove _ _) as [rm h] eqn:Hrm. destruct H as (H1 & _ & Hel & Hcase & _). simplify_eq.
      apply armed_stepped; rewrite ?Hm, ?Hq; try done.
      * intros w' _ Hin. by apply elem_of_cons in Hin as [[=]|?].
      * intros x Hx. cbn in Hx. destruct (decide _); [|by apply not_elem_of_nil in Hx].
        by apply updateSoonestTime_container in Hx.
      * destruct (proj2 Ha w con Hw) as [[H|[H|H]]|H].
        -- left. left. rewrite Hq in H. by apply elem_of_cons in H as [[=]|?].
        -- left. right. by left.
        -- by rewrite Hm in H.
        -- right. rewrite Hm in H. cbn. pose proof (known_valid s w con Hi Hw) as Hv.
           rewrite Hel, Forall_app in Hv. destruct Hv as [_ Hv].
           destruct (decide _) as [E|E]; [exact (update_arms w (con <| mTree := h |>) _ Hv)|].
           unfold getSoonestTimer in E. destruct Hcase as [->|(-> & -> & _)]; [|done].
           destruct (heap_peek (mTree con)) as [top|] eqn:Htop.
           ++ intros p Hp. specialize (Hpk top eq_refl). simpl in Hpk. rewrite Hpk in Hp.
              ** simplify_eq. by apply H.
              ** intros E'. apply E. simpl. by rewrite E'.
           ++ destruct (mTree con); [done|]. simpl in Hrm. by simplify_eq.
    + destruct (proc_expire s w q Hi Hm Hq) as (con & Hw & H).
      pose proof (heap_pop_ok (live_ptr s) (mTree con) (heap_known s w con Hi Hw)
        (proj1 (inv_heaps _ Hi w con Hw))) as Hpop.
      destruct (heap_pop _) as [timer h]. destruct H as [H1 _]. simplify_eq.
      apply armed_stepped; rewrite ?Hm, ?Hq; try done.
      * intros w' Hne Hin. by apply elem_of_cons in Hin as [[= ->]|?].
      * intros x Hx. destruct timer; [by apply not_elem_of_nil in Hx|].
        by apply updateSoonestTime_container in Hx.
      * destruct timer as [p|]; [left; right; right; done|right]. by destruct Hpop as [_ ->].
  - assert (Hsame : containers s' = containers s /\ mQ s' = mQ s /\ poll_task s' = poll_task s /\ msg_task s' = TIdle).
    { destruct del as [d|].
      - destruct (step_delete s d Hi Hm) as (s1 & H1 & _ & H2 & H3 & _ & H4 & H5 & _). by simplify_eq.
      - unfold msg_step in Hs. rewrite Hm in Hs. by simplify_eq. }
    destruct Hsame as (Ec & Eq & Ep & Em). destruct Ha as [Hp Ha]. split; [by rewrite Ep|].
    intros w con. unfold expecting. rewrite Ec, Eq, Ep, Em. intros Hw.
    specialize (Ha w con Hw). unfold expecting in Ha. by rewrite Hm in Ha.
  - destruct (step_call s call cs del Hi Hm) as (s1 & Hc & H1 & _ & _ & _ & _ & Ep & _). simplify_eq.
    destruct Ha as [Hp Ha]. split; [cbn; by rewrite Ep|]. intros w con1 Hw1. cbn in Hw1.
    destruct (do_call_kernel _ _ _ _ _ Hc Hw1) as (con & Hw & Ht & Hk).
    destruct (do_call_queue _ _ _ Hc) as [Hq _].
    destruct (Ha w con Hw) as [[H|[H|H]]|H].
    + left. left. by apply Hq.
    + left. right. left. cbn. by rewrite Ep.
    + by rewrite Hm in H.
    + right. cbn. rewrite Ht, Hk. rewrite Hm in H. exact H.
  - unfold msg_step in Hs. rewrite Hm in Hs. apply bind_Some in Hs as (r & _ & Hs). simplify_eq.
    destruct Ha as [Hp Ha]. split; [done|]. intros w' con Hw. cbn in Hw.
    specialize (Ha w' con Hw). unfold expecting in *. rewrite Hm in Ha. by destruct (mClient r).
  - destruct (inv_target _ Hi w now c) as [tm Hc]; [by left|].
    destruct (timer_stop_spec s c tm Hi Hc) as (ok & s1 & H1 & _ & _ & Hm1 & Ep & Ec & _ & _ & _ & _ & _ & _ & ms & Eq).
    unfold msg_step in Hs. rewrite Hm, H1 in Hs. simplify_eq/=.
    destruct Ha as [Hp Ha]. split; [cbn; by rewrite Ep|]. intros w' con Hw. cbn in Hw.
    rewrite Ec in Hw. specialize (Ha w' con Hw). unfold expecting in *. rewrite Hm in Ha.
    cbn. rewrite Ep, Eq, elem_of_app. destruct Ha as [[?|[?|?]]|?]; destruct ok; cbn; auto.
  - unfold msg_step in Hs. rewrite Hm in Hs. apply bind_Some in Hs as (r & _ & Hs). simplify_eq.
    destruct Ha as [Hp Ha]. split; [done|]. intros w' con Hw. cbn in Hw.
    specialize (Ha w' con Hw). unfold expecting in *. by rewrite Hm in Ha.
  - destruct (step_next s w now Hi Hm) as (con & Hw & H).
    pose proof (popIfOutRanks_spec s w now con Hi Hw) as Hsp.
    destruct (popIfOutRanks _ _) as [timer con']. destruct H as [H1 _]. simplify_eq.
    destruct Hsp as (_ & Hel & _). pose proof (known_valid s w con Hi Hw) as Hv.
    rewrite Hel, Forall_app in Hv. destruct Hv as [_ Hv].
    apply armed_stepped; rewrite ?Hm; try done.
    + intros x Hx. destruct timer; [by apply not_elem_of_nil in Hx|].
      by apply updateSoonestTime_container in Hx.
    + destruct timer as [p|]; [left; right; right; done|right].
      destruct con' as [h' ? ?]. cbn [mTree] in *. exact (update_arms w (con <| mTree := h' |>) _ Hv).
Qed.

Lemma poll_ok_expire ws : poll_ok (ws ≫= expire_calls).
Proof.
  induction ws as [|w ws IH]; [done|]. cbn. set (rest := ws ≫= expire_calls) in *.
  split_and!; try exact IH; repeat (left || right).
Qed.

Lemma exec_armed a s s' :
  inv s -> enabled a s = true -> disciplined a s = true -> exec a s = Some s' ->
  armed_inv s -> armed_inv s'.
Proof.
  intros Hi Hen Hdi Hex Ha.
  destruct a as [t|c l|fd c ms w d|c|c|ws| |]; simpl in Hen, Hdi, Hex; bool_to_prop; simplify_eq;
    repeat match goal with H : bool_decide _ = true |- _ => apply bool_decide_eq_true in H end.
  - apply (armed_same s); try done. by left.
  - apply (armed_same s); try done. by left.
  - match goal with H : is_Some _ |- _ => destruct H as [tm Hc] end.
    destruct (timer_start_spec s c tm ms w d) as (s1 & Hs & _ & Hm & Hp & _ & Heq); try done.
    rewrite Hs in Hex. simplify_eq/=.
    destruct (mTimer tm) as [d0|] eqn:Ht; [by subst|]. destruct Heq as [n ->].
    destruct (started_spec s c (timer_mLock tm) n (futureTime (clock s) ms) w d)
      as (_ & _ & _ & _ & Eq & Ep & Ec).
    apply (armed_same s); try done. intros w'. rewrite Eq, elem_of_app. by left.
  - destruct Hen as [tm Hc]. unfold client_stop in Hex.
    destruct (timer_stop_spec s c tm Hi Hc) as (ok & s1 & H1 & _ & _ & Hm1 & Ep & Ec & _ & _ & _ & _ & _ & _ & m & Eq).
    rewrite H1 in Hex. simplify_eq/=. apply (armed_same s); destruct ok; cbn; try done; rewrite ?Ec, ?Eq; auto;
      intros w; rewrite elem_of_app; by left.
  - destruct Hen as [tm Hc]. unfold timer_delete, client_stop in Hex.
    destruct (timer_stop_spec s c tm Hi Hc) as (ok & s1 & H1 & _ & _ & Hm1 & Ep & Ec & _ & _ & _ & _ & _ & _ & m & Eq).
    rewrite Hc, H1 in Hex. cbn [mbind option_bind] in Hex.
    apply bind_Some in Hex as (s2 & Hd & Hex). unfold lock_drop in Hd.
    apply bind_Some in Hd as (n & _ & Hd). simplify_eq.
    apply (armed_same s); destruct ok; cbn; try done; rewrite ?Ec, ?Eq; auto;
      intros w; rewrite elem_of_app; by left.
  - destruct Ha as [Hp Ha]. split; [apply poll_ok_expire|]. intros w con Hw. cbn in Hw.
    destruct (Ha w con Hw) as [[Hx|[Hx|Hx]]|Hx]; [left; by left| |left; right; by right|by right].
    match goal with E : poll_task s = [] |- _ => rewrite E in Hx end. by apply not_elem_of_nil in Hx.
  - destruct (poll_task s) as [|call cs] eqn:Hp; [by simplify_eq|].
    destruct (inv_call s call Hi) as (s1 & Hs & _ & _ & _ & Ht & Hm' & Hp' & _).
    { apply (inv_used _ Hi). unfold used. rewrite Hp, !elem_of_app. right. right. left. }
    rewrite Hs in Hex. simplify_eq/=. destruct Ha as [Hpo Ha]. rewrite Hp in Hpo.
    destruct Hpo as [Hpc Hpo]. split; [done|]. intros w con1 Hw1. cbn in Hw1.
    destruct (do_call_kernel _ _ _ _ _ Hs Hw1) as (con & Hw & Htr & Hk).
    destruct (do_call_queue _ _ _ Hs) as [Hq Hq'].
    assert (Hsend : SendExpire w ∈ call :: cs -> expecting (s1 <| poll_task := cs |>) w).
    { intros [Hc|Hc]%elem_of_cons; [left; by apply Hq'|right; by left]. }
    destruct (Ha w con Hw) as [[H|[H|H]]|H].
    + left. left. by apply Hq.
    + left. apply Hsend. by rewrite <- Hp.
    + left. right. right. cbn. by rewrite Hm'.
    + destruct (decide (call_container call = w)) as [<-|Hne]; [left; by apply Hsend|right].
      assert (Hsame : kernel_call w (kernel_of con) call = kernel_of con)
        by (unfold kernel_call; by rewrite bool_decide_eq_false_2).
      cbn. by rewrite Htr, Hk, Hm', Hsame.
  - by apply (msg_step_armed s).
Qed.

Lemma reachable_all s : reachable s -> inv s /\ ledger_ok s /\ waiting s /\ armed_inv s.
Proof.
  induction 1 as [now Ht|s a s' Hr (Hi & Hl & Hw & Ha) Hen Hdi Hex].
  - split; [by apply inv_init|]. split; [done|]. split; [done|]. split; [done|].
    intros w con Hw. cbn in Hw. done.
  - destruct (exec_inv a s Hi Hen Hdi) as (s'' & Hex' & Hi'). simplify_eq.
    split; [done|]. split; [by apply (exec_ledger a s)|].
    split; [by apply (exec_waiting a s)|by apply (exec_armed a s)].
Qed.

(** ** The expiry loop, undisturbed *)

Fixpoint msg_steps (n : nat) s : option state :=
  match n with
  | O => Some s
  | S n => s ← msg_step s; msg_steps n s
  end.

Lemma msg_steps_add n m s s1 s2 :
  msg_steps n s = Some s1 -> msg_steps m s1 = Some s2 -> msg_steps (n + m) s = Some s2.
Proof.
  revert s. induction n as [|n IH]; simpl; intros s H1 H2; [by simplify_eq|].
  apply bind_Some in H1 as (s' & -> & H1). simpl. by apply IH.
Qed.

Lemma inv_deadline s d r : inv s -> delegates s !! d = Some r -> valid (mFutureTime r).
Proof. intros Hi. apply (inv_times _ Hi). Qed.

Lemma inv_clock_valid s : inv s -> valid (clock s).
Proof.
  intros Hi. pose proof (inv_clock _ Hi) as H. unfold time_ok in H. bool_to_prop. unfold valid. lia.
Qed.

(** The timers of [w] that are due. *)
Definition due s w (p : timer_ptr) : Prop :=
  p ∈ heap_of s w /\ timespec_ns (ptr_time p) <= timespec_ns (clock s).

(** The calls that end the loop. *)
Lemma calls_end cs s :
  inv s -> msg_task s = TCalls cs None ->
  exists s', msg_steps (S (length cs)) s = Some s' /\ inv s' /\ msg_task s' = TIdle /\
    (forall w, heap_of s' w = heap_of s w) /\ log s' = log s /\ clock s' = clock s.
Proof.
  revert s. induction cs as [|call cs IH]; intros s Hi Hm.
  - destruct (msg_step_inv s Hi) as (s' & Hs & Hi'); [simpl; by rewrite Hm|].
    exists s'. simpl. rewrite Hs. simpl. unfold msg_step in Hs. rewrite Hm in Hs. by simplify_eq.
  - destruct (step_call s call cs None Hi Hm) as (s1 & _ & Hs & Hi' & _ & _ & Ht & _ & Hl & _ & Hk).
    destruct (IH _ Hi' eq_refl) as (s' & Hs' & Hi'' & Hm' & Hh & Hl' & Hk').
    exists s'. split; [simpl; rewrite Hs; exact Hs'|]. split_and!; try done.
    + intros w. rewrite Hh. specialize (Ht w). unfold heap_of. cbn.
      destruct (containers s1 !! w), (containers s !! w); simplify_eq/=; congruence.
    + by rewrite Hl', <- Hl.
    + by rewrite Hk', <- Hk.
Qed.

(** [timer->expire()] on a timer that its client has not stopped calls the
    client back. *)
Lemma fire_client s w now d r c :
  inv s -> msg_task s = TFire w now d -> delegates s !! d = Some r -> mClient r = Some c ->
  exists s', msg_steps 3 s = Some s' /\ inv s' /\ msg_task s' = TNext w now /\
    (forall w, heap_of s' w = heap_of s w) /\ log s' = log s ++ [EFired c (clock s)] /\
    clock s' = clock s /\
    (forall d' r' c', d' <> d -> delegates s !! d' = Some r' -> mClient r' = Some c' ->
      delegates s' !! d' = Some r').
Proof.
  intros Hi Hm Hr Hc. destruct (inv_active _ Hi d r c Hr Hc) as (tm & w0 & Hcl & Ht & Hcon & Hcw).
  destruct (msg_step_inv s Hi) as (s1 & Hs1 & Hi1); [simpl; by rewrite Hm|].
  assert (E1 : s1 = s <| msg_task := TStop w now c |>).
  { unfold msg_step in Hs1. rewrite Hm, Hr in Hs1. cbn in Hs1. rewrite Hc in Hs1. by simplify_eq. }
  destruct (msg_step_inv s1 Hi1) as (s2 & Hs2 & Hi2); [by rewrite E1|].
  assert (E2 : s2 = stopped c tm d r w0 s <| msg_task := TCallback w now c |>).
  { subst s1. unfold msg_step, timer_stop, lock_lock in Hs2. cbn in Hs2. rewrite Hcl in Hs2. cbn in Hs2.
    destruct (client_lock s c tm (inv_locks _ Hi) Hcl) as [n Hn]. rewrite Hn in Hs2. cbn in Hs2.
    rewrite Ht in Hs2. unfold destroyLocked in Hs2. cbn in Hs2. rewrite Hr in Hs2. cbn in Hs2.
    rewrite Hcon in Hs2. cbn in Hs2. by simplify_eq. }
  destruct (msg_step_inv s2 Hi2) as (s3 & Hs3 & Hi3); [by rewrite E2|].
  assert (E3 : s3 = s2 <| log := log s ++ [EFired c (clock s)] |> <| msg_task := TNext w now |>).
  { subst s2. unfold msg_step in Hs3. cbn in Hs3. rewrite lookup_insert_eq in Hs3. cbn in Hs3. by simplify_eq. }
  exists s3. simpl. rewrite Hs1. cbn. rewrite Hs2. cbn. rewrite Hs3. cbn.
  subst s3 s2 s1. split_and!; try done. intros d' r' c' Hne Hr' Hc'. cbn. by rewrite lookup_insert_ne.
Qed.

(** ... and does nothing on one that has been stopped. *)
Lemma fire_stopped s w now d r :
  inv s -> msg_task s = TFire w now d -> delegates s !! d = Some r -> mClient r = None ->
  msg_step s = Some (s <| msg_task := TNext w now |>) /\ inv (s <| msg_task := TNext w now |>).
Proof.
  intros Hi Hm Hr Hc. destruct (msg_step_inv s Hi) as (s1 & Hs1 & Hi1); [simpl; by rewrite Hm|].
  unfold msg_step in *. rewrite Hm, Hr in *. cbn in *. rewrite Hc in *. by simplify_eq.
Qed.

(** What the loop leaves: no timer of [w] that is due, and every one that was
    due and not stopped has called its client. *)
Definition expired s w (s' : state) : Prop :=
  inv s' /\ msg_task s' = TIdle /\ clock s' = clock s /\ (exists lg, log s' = log s ++ lg) /\
  (forall p, p ∈ heap_of s' w -> timespec_ns (clock s) < timespec_ns (ptr_time p)) /\
  (forall p r c, due s w p -> delegates s !! ptr p = Some r -> mClient r = Some c ->
    EFired c (clock s) ∈ log s').

Lemma popped_fire s w now con p h q :
  heap_of (popped w now con (Some p) h q s) w = from_option objects [] h.
Proof. unfold popped. rewrite heap_of_stepped. by destruct (decide (w = w)). Qed.

Lemma popped_idle s w now con h q :
  heap_of (popped w now con None h q s) w = from_option objects [] h.
Proof. unfold popped. rewrite heap_of_stepped. by destruct (decide (w = w)). Qed.

Lemma fire_any s w now d :
  inv s -> msg_task s = TFire w now d ->
  exists k s', (k <= 3)%nat /\ msg_steps k s = Some s' /\ inv s' /\ msg_task s' = TNext w now /\
    (forall w, heap_of s' w = heap_of s w) /\ clock s' = clock s /\
    (exists lg, log s' = log s ++ lg) /\
    (forall r c, delegates s !! d = Some r -> mClient r = Some c -> EFired c (clock s) ∈ log s') /\
    (forall d' r' c', d' <> d -> delegates s !! d' = Some r' -> mClient r' = Some c' ->
      delegates s' !! d' = Some r').
Proof.
  intros Hi Hm. destruct (inv_held _ Hi d) as [r Hr];
    [unfold held; rewrite Hm; apply elem_of_app; right; left|].
  destruct (mClient r) as [c|] eqn:Hc.
  - destruct (fire_client s w now d r c Hi Hm Hr Hc) as (s' & Hs & Hi' & Hm' & Hh & Hl & Hk & Hd).
    exists 3%nat, s'. split_and!; try done; [by eexists|].
    intros r' c' Hr' Hc'. simplify_eq. rewrite Hl. apply elem_of_app. right. left.
  - destruct (fire_stopped s w now d r Hi Hm Hr Hc) as [Hs Hi'].
    exists 1%nat, (s <| msg_task := TNext w now |>). simpl. rewrite Hs.
    split_and!; try done; [lia|exists []; by rewrite app_nil_r|]. intros; simplify_eq.
Qed.

Lemma expired_fired s w s' c t : expired s w s' -> EFired c t ∈ log s -> EFired c t ∈ log s'.
Proof. intros (_ & _ & _ & (lg & ->) & _) Hin. apply elem_of_app. by left. Qed.

(** One timer has been popped, and the loop takes the rest. *)
Lemma expire_popped n s w con p h q :
  inv s -> containers s !! w = Some con -> inv (popped w (clock s) con (Some p) h q s) ->
  from_option objects [] (mTree con) ≡ₚ p :: from_option objects [] h ->
  (length (from_option objects [] h) <= n)%nat ->
  (forall s2, inv s2 -> msg_task s2 = TNext w (clock s2) -> (length (heap_of s2 w) <= n)%nat ->
    exists k s', (k <= 4 * n + 4)%nat /\ msg_steps k s2 = Some s' /\ expired s2 w s') ->
  exists k s', (k <= 4 * n + 7)%nat /\ msg_steps k (popped w (clock s) con (Some p) h q s) = Some s' /\
    expired s w s'.
Proof.
  intros Hi Hw Hi1 Hel Hlen Hloop. set (s1 := popped w (clock s) con (Some p) h q s) in *.
  destruct (fire_any s1 w (clock s) (ptr p) Hi1 eq_refl)
    as (k & s2 & Hk & Hs & Hi2 & Hm & Hh & Hck & (lg & Hl) & Hf & Hd).
  assert (Hc2 : clock s2 = clock s) by (by rewrite Hck).
  destruct (Hloop s2 Hi2) as (k' & s' & Hk' & Hs' & Hex).
  { by rewrite Hc2. }
  { rewrite Hh. unfold s1. by rewrite popped_fire. }
  exists (k + k')%nat, s'. split; [lia|]. split; [by eapply msg_steps_add|].
  pose proof Hex as (Hi' & Hm' & Hc' & (lg' & Hl') & Hlate & Hfired).
  split_and!; try done; [by rewrite Hc', Hc2| | |].
  - exists (lg ++ lg'). rewrite Hl', Hl, app_assoc. done.
  - intros p' Hp'. rewrite <- Hc2. by apply Hlate.
  - intros p' r c [Hin Hdue] Hr Hc. rewrite (heap_of_Some s w con Hw), Hel, elem_of_cons in Hin.
    assert (Hhead : ptr p' = ptr p -> EFired c (clock s) ∈ log s').
    { intros E. rewrite E in Hr. rewrite <- Hc2. apply (expired_fired s2 w); [done|].
      rewrite Hc2. apply (Hf r c); [exact Hr|done]. }
    destruct (decide (ptr p' = ptr p)) as [E|Hne]; [by apply Hhead|].
    destruct Hin as [->|Hin]; [done|]. rewrite <- Hc2. apply (Hfired p' r c); [|by eapply Hd|done].
    split; [|by rewrite Hc2]. rewrite Hh. unfold s1. by rewrite popped_fire.
Qed.

(** No timer has been popped, and the loop ends. *)
Lemma expire_end s w con h q :
  inv s -> inv (popped w (clock s) con None h q s) ->
  (forall p, p ∈ from_option objects [] h -> timespec_ns (clock s) < timespec_ns (ptr_time p)) ->
  (forall p, p ∈ heap_of s w -> timespec_ns (clock s) < timespec_ns (ptr_time p)) ->
  exists k s', (k <= 3)%nat /\ msg_steps k (popped w (clock s) con None h q s) = Some s' /\
    expired s w s'.
Proof.
  intros Hi Hi1 Hh Hs. set (cs := updateSoonestTime w None (con <| mTree := h |>)).
  destruct (calls_end cs _ Hi1 eq_refl) as (s' & Hs' & Hi' & Hm' & Hheap & Hl & Hk).
  exists (S (length cs)), s'. split.
  { unfold cs, updateSoonestTime. destruct (decide _); [simpl; lia|].
    destruct (getSoonestTimer _); simpl; lia. }
  split; [exact Hs'|]. split_and!; try done.
  - exists []. by rewrite Hl, app_nil_r.
  - intros p. rewrite Hheap, popped_idle. apply Hh.
  - intros p r c [Hin Hle] _ _. specialize (Hs p Hin). lia.
Qed.

Lemma expire_loop n s w :
  inv s -> msg_task s = TNext w (clock s) -> (length (heap_of s w) <= n)%nat ->
  exists k s', (k <= 4 * n + 4)%nat /\ msg_steps k s = Some s' /\ expired s w s'.
Proof.
  revert s. induction n as [|n IH]; intros s Hi Hm Hlen;
    destruct (step_next s w (clock s) Hi Hm) as (con & Hw & Hstep);
    pose proof (popIfOutRanks_spec s w (clock s) con Hi Hw) as Hsp;
    destruct (popIfOutRanks (clock s) con) as [timer con'];
    destruct Hsp as (_ & Hel & _ & _ & Hdue); specialize (Hdue (inv_clock_valid s Hi));
    destruct Hstep as [Hs Hi'];
    (destruct timer as [p|];
     [|destruct Hdue as [-> Hlate]; rewrite Forall_forall in Hlate;
       destruct (expire_end s w con (mTree con) (mQ s) Hi Hi' Hlate) as (k & s' & Hk & Hs' & Hex);
         [by rewrite (heap_of_Some s w con Hw)|];
       exists (S k), s'; split; [lia|]; split; [simpl; by rewrite Hs|done]]);
    rewrite (heap_of_Some s w con Hw), Hel in Hlen; simpl in Hlen; [lia|].
  destruct (expire_popped n s w con p (mTree con') (mQ s) Hi Hw Hi' Hel ltac:(lia))
    as (k & s' & Hk & Hs' & Hex); [intros s2 H1 H2 H3; by apply IH|].
  exists (S k), s'. split; [lia|]. split; [simpl; by rewrite Hs|done].
Qed.

Lemma expire_message s w q :
  inv s -> msg_task s = TIdle -> mQ s = MsgTimerExpire w :: q ->
  exists k s', (k <= 4 * length (heap_of s w) + 4)%nat /\ msg_steps k s = Some s' /\ expired s w s'.
Proof.
  intros Hi Hm Hq. destruct (proc_expire s w q Hi Hm Hq) as (con & Hw & Hstep).
  pose proof (heap_pop_ok (live_ptr s) (mTree con) (heap_known s w con Hi Hw)
    (proj1 (inv_heaps _ Hi w con Hw))) as Hpop.
  rewrite (heap_of_Some s w con Hw).
  destruct (heap_pop (mTree con)) as [[p|] h]; destruct Hstep as [Hs Hi'].
  - destruct Hpop as (_ & _ & Hel & _).
    destruct (expire_popped (length (from_option objects [] h)) s w con p h q Hi Hw Hi' Hel ltac:(lia))
      as (k & s' & Hk & Hs' & Hex); [intros; by apply expire_loop|].
    exists (S k), s'. split; [rewrite Hel; simpl; lia|]. split; [simpl; by rewrite Hs|done].
  - destruct Hpop as [Hcon ->]. assert (Hnil : forall (p : timer_ptr), p ∉ @nil timer_ptr) by (intros; apply not_elem_of_nil).
    destruct (expire_end s w con None q Hi Hi') as (k & s' & Hk & Hs' & Hex).
    { intros p Hp. by apply Hnil in Hp. }
    { rewrite (heap_of_Some s w con Hw), Hcon. intros p Hp. by apply Hnil in Hp. }
    exists (S k), s'. split; [lia|]. split; [simpl; by rewrite Hs|done].
Qed.

(** ** Properties *)

(** C38.  Under every interleaving of clients, the message thread and the poll
    thread in which [timerfd_create] succeeds and no client is deleted while the message
    thread is about to call it ([disciplined]; [timer_client_uaf] shows that the latter
    is needed), no step uses an object that has been deleted or dereferences null, and
    every shared lock counts exactly the clients and delegates that
    hold it, so that it is deleted with the last of them. *)
Theorem timer_memory_safe s :
  reachable s ->
  (forall a, enabled a s = true -> disciplined a s = true -> exists s', exec a s = Some s') /\
  (forall l, locks s !! l =
     match count l (holders s) with O => None | n => Some (Z.of_nat n) end).
Proof.
  intros Hr. pose proof (reachable_inv s Hr) as Hi. split; [|apply Hi].
  intros a Hen Hdi. destruct (exec_inv a s Hi Hen Hdi) as (s' & Hex & _). by exists s'.
Qed.

(** C39.  Every start of a timer is answered once: the starts of a client are as
    many as its successful stops and its callbacks together, and one more while
    the timer runs or its callback is about to be made. *)
Theorem timer_accounting s c :
  reachable s ->
  occurs (is_start c) (log s) =
  occurs (is_stop c) (log s) + occurs (is_fired c) (log s) + running s c + calling (msg_task s) c.
Proof. intros Hr. apply (reachable_all s Hr). Qed.

(** When both threads are idle no delegate is left over, and no timer is
    forgotten: the delegate of every timer that runs is in the heap of its
    container, whose timerfd is polled and armed for the deadline or earlier. *)
Theorem timer_quiescent s :
  reachable s -> msg_task s = TIdle -> mQ s = [] -> poll_task s = [] ->
  (forall d r, delegates s !! d = Some r ->
    exists c tm, mClient r = Some c /\ clients s !! c = Some tm /\ mTimer tm = Some d) /\
  (forall c tm d, clients s !! c = Some tm -> mTimer tm = Some d ->
    exists r w con t, delegates s !! d = Some r /\ mContainer r = Some w /\
      containers s !! w = Some con /\
      {| ptr := d; ptr_time := mFutureTime r |} ∈ from_option objects [] (mTree con) /\
      polled con = true /\ armed con = Some t /\ timespec_ns t <= timespec_ns (mFutureTime r)).
Proof.
  intros Hr Hm Hq Hp. destruct (reachable_all s Hr) as (Hi & _ & Hwait & _ & Harm). split.
  - intros d r Hd. destruct (mClient r) as [c|] eqn:Hc.
    + destruct (inv_active _ Hi d r c Hd Hc) as (tm & w & H1 & H2 & _). by exists c, tm.
    + destruct (inv_inactive _ Hi d r Hd Hc) as [_ Hin]. unfold pend in Hin. rewrite Hm, Hq in Hin.
      by apply not_elem_of_nil in Hin.
  - intros c tm d Hc Ht. destruct (inv_running _ Hi c tm d Hc Ht) as (r & Hd & Hcl).
    destruct (Hwait d r c Hd Hcl) as [[w Hpl]|[H|(w & now & H)]]; [|rewrite Hm in H; by apply not_elem_of_nil in H|congruence].
    destruct (inv_active _ Hi d r c Hd Hcl) as (_ & w' & _ & _ & Hw' & _).
    destruct (inv_home _ Hi w d Hpl) as (r' & Hr' & Hhome). simplify_eq.
    assert (w' = w) as -> by (destruct Hhome as [?|[? _]]; congruence).
    apply elem_of_places in Hpl as [Hin|(p & Hin & Hpd)]; [rewrite Hq in Hin; by apply not_elem_of_nil in Hin|].
    unfold heap_of in Hin. destruct (containers s !! w) as [con|] eqn:Hcon; [|by apply not_elem_of_nil in Hin].
    destruct (inv_heaps _ Hi w con Hcon) as [Hok Hst]. pose proof (heap_known s w con Hi Hcon) as HD.
    rewrite Forall_forall in Hst. destruct (Hst p Hin) as (r' & Hr2 & Hpt). rewrite Hpd in Hr2. simplify_eq.
    destruct p as [pd pt]. simpl in *. subst.
    destruct (heap_peek (mTree con)) as [top|] eqn:Htop.
    2: { destruct (mTree con); [done|by apply not_elem_of_nil in Hin]. }
    destruct (heap_peek_dominates (live_ptr s) _ _ HD Hok Htop) as [Htin Hdom].
    destruct (Harm w con Hcon) as [[H|[H|H]]|H].
    { rewrite Hq in H. by apply not_elem_of_nil in H. }
    { rewrite Hp in H. by apply not_elem_of_nil in H. }
    { by rewrite Hm in H. }
    rewrite Hm in H. specialize (H top Htop). cbn in H. injection H as Ha Hpo.
    exists r, w, con, (ptr_time top). split_and!; try done.
    unfold dominates in Hdom. rewrite Forall_forall in Hdom, HD. specialize (Hdom _ Hin).
    rewrite ranks_valid in Hdom by (apply HD; done). simpl in Hdom. by bool_to_prop.
Qed.

(** C40.  The expiry loop terminates and does its work: from the message of an
    expiry the thread is idle again after at most four steps a timer and four
    more; no timer of the container is due any more, and every timer that was due
    and not stopped has called its client, at the time of the expiry. *)
Theorem timer_expiry s w q :
  reachable s -> msg_task s = TIdle -> mQ s = MsgTimerExpire w :: q ->
  exists k s', (k <= 4 * length (heap_of s w) + 4)%nat /\ msg_steps k s = Some s' /\
    msg_task s' = TIdle /\
    (forall p, p ∈ heap_of s' w -> timespec_ns (clock s) < timespec_ns (ptr_time p)) /\
    (forall p r c, p ∈ heap_of s w -> timespec_ns (ptr_time p) <= timespec_ns (clock s) ->
      delegates s !! ptr p = Some r -> mClient r = Some c -> EFired c (clock s) ∈ log s').
Proof.
  intros Hr Hm Hq. destruct (expire_message s w q (reachable_inv s Hr) Hm Hq)
    as (k & s' & Hk & Hs & _ & Hm' & _ & _ & Hlate & Hf).
  exists k, s'. split_and!; try done. intros p r c Hin Hle. by apply Hf.
Qed.

(** Every deadline is a proper [timespec], the time of the start plus the
    timeout to the nanosecond, and the ranking of the heap, computed in [int]s,
    orders the delegates of every reachable state by their deadlines. *)
Theorem timer_deadlines s :
  reachable s ->
  (forall ms, 0 <= ms < 2 ^ 32 ->
    timespec_ns (futureTime (clock s) ms) = timespec_ns (clock s) + ms * 1000000 /\
    0 <= tv_nsec (futureTime (clock s) ms) < 1000000000) /\
  (forall d r d' r', delegates s !! d = Some r -> delegates s !! d' = Some r' ->
    outRanks {| ptr := d; ptr_time := mFutureTime r |} {| ptr := d'; ptr_time := mFutureTime r' |}
    = (timespec_ns (mFutureTime r) <? timespec_ns (mFutureTime r'))).
Proof.
  intros Hr. pose proof (reachable_inv s Hr) as Hi. split.
  - intros ms Hms. destruct (inv_clock_valid s Hi) as (_ & Hn & _).
    split; [apply futureTime_ns; lia|]. apply futureTime_valid; [apply Hi|done].
  - intros d r d' r' Hd Hd'. apply ranks_valid; by eapply (inv_times _ Hi).
Qed.

(** ** Runs *)

Definition sec (x : Z) : timespec := {| tv_sec := x; tv_nsec := 0 |}.

(** Client 1 starts a timer of one second.  It expires, and just before the poll
    thread posts the expiry client 1 stops it and client 2 starts a timer of fifty
    seconds. *)
Definition early_run : list action :=
  [ANew 1 11; ANew 2 12; AStart true 1 1000 false 21; AMsg; AMsg; AMsg; AMsg;
   ATick (sec 101); AWake [false]; APoll; APoll;
   AStop 1; AStart true 2 50000 false 22; APoll].

(** The state after some more steps of the message thread. *)
Definition after (acts : list action) (k : nat) : option state := run (acts ++ repeat AMsg k) (init_state (sec 100)).

Lemma after_reachable acts k s : after acts k = Some s -> reachable s.
Proof. apply run_reachable, reach_init. reflexivity. Qed.

(** A timer can fire long before its time: the expiry loop pops the first
    timer of the heap without looking at its deadline, and the timer whose expiry
    was noticed may have been stopped in the meantime.  In this run client 2 is
    called at once though its timer is set for fifty seconds. *)
Theorem timer_fires_early :
  exists s, reachable s /\
    log s = [EStart 1 (sec 101); EStop 1; EStart 2 (sec 151); EFired 2 (sec 101)].
Proof.
  destruct (after early_run 10) as [s|] eqn:E; [|vm_compute in E; discriminate].
  exists s. split; [by apply (after_reachable _ _ _ E)|]. vm_compute in E. injection E as <-. reflexivity.
Qed.

(** The lock does not protect the callback: [LocTimerDelegate::expire]
    reads its client without the lock.  A client that is deleted right after, by
    its owner, is then used by the message thread. *)
Theorem timer_client_uaf :
  exists s s' c, reachable s /\ clients s !! c <> None /\
    enabled (ADelete c) s = true /\ exec (ADelete c) s = Some s' /\ msg_step s' = None.
Proof.
  destruct (after [ANew 1 11; AStart true 1 1000 false 21; AMsg; AMsg; AMsg; AMsg;
    ATick (sec 101); AWake [false]; APoll; APoll; APoll] 2) as [s|] eqn:E; [|vm_compute in E; discriminate].
  assert (Hr : reachable s) by (by apply (after_reachable _ _ _ E)).
  destruct (exec (ADelete 1) s) as [s'|] eqn:E'; [|vm_compute in E; injection E as <-; vm_compute in E'; discriminate].
  exists s, s', 1. split; [exact Hr|]. vm_compute in E. injection E as <-. vm_compute in E'. injection E' as <-.
  split; [done|]. split; [vm_compute; reflexivity|]. split; vm_compute; reflexivity.
Qed.

(** [loc_timer_start] takes 64 bits of milliseconds and keeps 32: the
    deadline of the timer is that of the timeout modulo [2^32], about seven weeks. *)
Theorem loc_timer_start_wraps s msec w c l d :
  inv s -> clients s !! c = None -> locks s !! l = None -> delegates s !! d = None -> 0 <= msec < 2 ^ 64 ->
  exists s' t, loc_timer_start true msec true w c l d s = Some (Some c, s') /\
    log s' = log s ++ [EStart c t] /\
    timespec_ns t = timespec_ns (clock s) + msec mod 2 ^ 32 * 1000000.
Proof.
  intros Hi Hc Hl Hd Hms. unfold loc_timer_start.
  pose proof (inv_new s c l Hi Hc Hl) as Hi'. pose proof (trunc_fits 32 msec ltac:(lia)) as Hf.
  destruct (timer_start_spec (timer_new c l s) c {| mTimer := None; timer_mLock := l |} (trunc 32 msec) w d)
    as (s' & Hs & _ & _ & _ & _ & n & Heq); try done; [cbn; by rewrite lookup_insert_eq|].
  rewrite Hs. exists s', (futureTime (clock s) (trunc 32 msec)). split; [done|].
  rewrite Heq. split; [apply (started_spec (timer_new c l s) c l n _ w d)|].
  destruct (inv_clock_valid s Hi) as (_ & Hn & _). unfold fits in Hf. rewrite futureTime_ns by lia. done.
Qed.

(** ** Witnesses *)

(** One timer of one second, started and in the heap; and the same at its
    expiry, whose message is queued. *)
Definition started_run : list action :=
  [ANew 1 11; AStart true 1 1000 false 21; AMsg; AMsg; AMsg; AMsg].
Definition expiry_run : list action :=
  started_run ++ [ATick (sec 101); AWake [false]; APoll; APoll; APoll].

Lemma timer_memory_safe_witness :
  exists s, after early_run 4 = Some s /\
  (forall a, enabled a s = true -> disciplined a s = true -> exists s', exec a s = Some s') /\
  (forall l, locks s !! l =
     match count l (holders s) with O => None | n => Some (Z.of_nat n) end).
Proof.
  destruct (after early_run 4) as [s|] eqn:E; [|vm_compute in E; discriminate].
  exists s. split; [reflexivity|]. exact (timer_memory_safe s (after_reachable _ _ _ E)).
Defined.

Lemma timer_accounting_witness :
  exists s, after early_run 10 = Some s /\
  occurs (is_start 2) (log s) =
  occurs (is_stop 2) (log s) + occurs (is_fired 2) (log s) + running s 2 + calling (msg_task s) 2.
Proof.
  destruct (after early_run 10) as [s|] eqn:E; [|vm_compute in E; discriminate].
  exists s. split; [reflexivity|]. exact (timer_accounting s 2 (after_reachable _ _ _ E)).
Defined.

Lemma timer_quiescent_witness :
  exists s, after started_run 0 = Some s /\
  exists r w con t, delegates s !! 21 = Some r /\ mContainer r = Some w /\
      containers s !! w = Some con /\
      {| ptr := 21; ptr_time := mFutureTime r |} ∈ from_option objects [] (mTree con) /\
      polled con = true /\ armed con = Some t /\ timespec_ns t <= timespec_ns (mFutureTime r).
Proof.
  destruct (after started_run 0) as [s|] eqn:E; [|vm_compute in E; discriminate].
  exists s. split; [reflexivity|]. pose proof (after_reachable _ _ _ E) as Hr.
  vm_compute in E. injection E as E.
  apply (proj2 (timer_quiescent s Hr ltac:(by subst s) ltac:(by subst s) ltac:(by subst s))
    1 {| mTimer := Some 21; timer_mLock := 11 |} 21); by subst s.
Defined.

Lemma timer_expiry_witness :
  exists s, after expiry_run 0 = Some s /\
  exists k s', (k <= 4 * length (heap_of s false) + 4)%nat /\ msg_steps k s = Some s' /\
    msg_task s' = TIdle /\
    (forall p, p ∈ heap_of s' false -> timespec_ns (clock s) < timespec_ns (ptr_time p)) /\
    (forall p r c, p ∈ heap_of s false -> timespec_ns (ptr_time p) <= timespec_ns (clock s) ->
      delegates s !! ptr p = Some r -> mClient r = Some c -> EFired c (clock s) ∈ log s').
Proof.
  destruct (after expiry_run 0) as [s|] eqn:E; [|vm_compute in E; discriminate].
  exists s. split; [reflexivity|]. pose proof (after_reachable _ _ _ E) as Hr.
  vm_compute in E. injection E as E.
  exact (timer_expiry s false [] Hr ltac:(by subst s) ltac:(by subst s)).
Defined.

Lemma timer_deadlines_witness :
  exists s, after early_run 3 = Some s /\
  (forall ms, 0 <= ms < 2 ^ 32 ->
    timespec_ns (futureTime (clock s) ms) = timespec_ns (clock s) + ms * 1000000 /\
    0 <= tv_nsec (futureTime (clock s) ms) < 1000000000) /\
  (forall d r d' r', delegates s !! d = Some r -> delegates s !! d' = Some r' ->
    outRanks {| ptr := d; ptr_time := mFutureTime r |} {| ptr := d'; ptr_time := mFutureTime r' |}
    = (timespec_ns (mFutureTime r) <? timespec_ns (mFutureTime r'))).
Proof.
  destruct (after early_run 3) as [s|] eqn:E; [|vm_compute in E; discriminate].
  exists s. split; [reflexivity|]. exact (timer_deadlines s (after_reachable _ _ _ E)).
Defined.

Lemma loc_timer_start_wraps_witness :
  let s := init_state (sec 100) in
  exists s' t, loc_timer_start true (2 ^ 32 + 5) true false 1 11 21 s = Some (Some 1, s') /\
    log s' = log s ++ [EStart 1 t] /\
    timespec_ns t = timespec_ns (clock s) + (2 ^ 32 + 5) mod 2 ^ 32 * 1000000.
Proof.
  intros s. apply (loc_timer_start_wraps s (2 ^ 32 + 5) false 1 11 21); try reflexivity; [|lia].
  apply inv_init. reflexivity.
Defined.

(** The undisturbed life of a timer: it is called back at its time. *)
Example timer_fires :
  option_map log (after expiry_run 4) = Some [EStart 1 (sec 101); EFired 1 (sec 101)].
Proof. reflexivity. Qed.
