(* ===== verification/IpaDrv.v ===== *)
(** * The driver wrappers ([IPACM_Routing.cpp], [IPACM_Header.cpp], [IPACM_Filtering.cpp])

    The interface classes program the hardware through three objects, each a file
    descriptor of [/dev/ipa] on which every method makes one [ioctl] and turns its
    result into a [bool].  The kernel's side of the calls is the class [IpaKernel];
    [IpaKernelOk] is what its header documents, over the headers, routing rules
    and filter rules that are installed. *)
From S2P Require Import Prelude Defs.
From stdpp Require Import base list gmap strings.
From Stdlib Require Import ZArith Lia.

Open Scope Z_scope.

(** ** Data of the kernel header, as far as the source uses it *)

(** The members [u.v4] and [u.v6] of a rule's attributes: source and destination
    with their masks. *)
Record ipa_addr_attrib (A : Type) := {
  u_src_addr : A;
  u_src_addr_mask : A;
  u_dst_addr : A;
  u_dst_addr_mask : A
}.
Arguments u_src_addr {A}. Arguments u_src_addr_mask {A}.
Arguments u_dst_addr {A}. Arguments u_dst_addr_mask {A}.
Arguments Build_ipa_addr_attrib {A}.

(** [ipa_rule_attrib]; [attrib_rest] stands for the fields that are only copied
    from a property into a rule. *)
Record ipa_rule_attrib := {
  attrib_mask : Z;
  u_v4 : ipa_addr_attrib Z;
  u_v6 : ipa_addr_attrib v6addr;
  dst_mac_addr : list Z;
  dst_mac_addr_mask : list Z;
  attrib_rest : list Z
}.

#[export] Instance ipa_addr_attrib_eta A : Settable (ipa_addr_attrib A) :=
  fun r => Build_ipa_addr_attrib (u_src_addr r) (u_src_addr_mask r) (u_dst_addr r) (u_dst_addr_mask r).
#[export] Instance ipa_rule_attrib_eta : Settable ipa_rule_attrib :=
  fun r => Build_ipa_rule_attrib (attrib_mask r) (u_v4 r) (u_v6 r) (dst_mac_addr r)
    (dst_mac_addr_mask r) (attrib_rest r).

(** [memset(&attrib, 0, sizeof(attrib))] *)
Definition attrib_zero : ipa_rule_attrib :=
  {| attrib_mask := 0; u_v4 := Build_ipa_addr_attrib 0 0 0 0;
     u_v6 := Build_ipa_addr_attrib (0, 0, 0, 0) (0, 0, 0, 0) (0, 0, 0, 0) (0, 0, 0, 0);
     dst_mac_addr := replicate 6 0; dst_mac_addr_mask := replicate 6 0; attrib_rest := [] |}.

(** [ipa_ioc_tx_intf_prop], [ipa_ioc_rx_intf_prop] *)
Record ipa_ioc_tx_intf_prop := { tx_ip : ipa_ip_type; tx_attrib : ipa_rule_attrib; dst_pipe : Z; hdr_name : string }.
Record ipa_ioc_rx_intf_prop := { rx_ip : ipa_ip_type; rx_attrib : ipa_rule_attrib; src_pipe : Z }.

(** [ipa_rt_rule] *)
Record ipa_rt_rule := { rt_dst : Z; rt_hdr_hdl : Z; rt_hdr_proc_ctx_hdl : Z; rt_attrib : ipa_rule_attrib }.

(** [ipa_ioc_add_rt_rule]; every call of the source sets [commit]. *)
Record ipa_ioc_add_rt_rule := { rt_tbl_name : string; rt_ip : ipa_ip_type; rt_rules : list ipa_rt_rule }.

(** What an [ioctl] writes back for one rule or header: its handle, its status. *)
Record ipa_out := { out_hdl : Z; out_status : Z }.

(** [ipa_ioc_copy_hdr] after the call; [ipa_hdr_add]. *)
Record ipa_ioc_copy_hdr := { ch_hdr : list Z; ch_hdr_len : Z; is_eth2_ofst_valid : bool; eth2_ofst : Z }.
Record ipa_hdr_add := { ha_name : string; ha_hdr : list Z; ha_hdr_len : Z }.

(** [ipa_flt_action], the rules of [ipa_ioc_mdfy_flt_rule] and [ipa_ioc_add_flt_rule]. *)
Inductive ipa_flt_action := IPA_PASS_TO_ROUTING | IPA_PASS_TO_SRC_NAT | IPA_PASS_TO_DST_NAT | IPA_PASS_TO_EXCEPTION.
Record ipa_flt_rule := { flt_action : ipa_flt_action; flt_rt_tbl_hdl : Z; flt_attrib : ipa_rule_attrib }.

#[export] Instance ipa_addr_attrib_eq_dec A `{EqDecision A} : EqDecision (ipa_addr_attrib A).
Proof. solve_decision. Defined.
#[export] Instance ipa_rule_attrib_eq_dec : EqDecision ipa_rule_attrib.
Proof. solve_decision. Defined.
#[export] Instance ipa_rt_rule_eq_dec : EqDecision ipa_rt_rule.
Proof. solve_decision. Defined.

#[export] Instance ipa_ip_type_countable : Countable ipa_ip_type.
Proof.
  refine (inj_countable' (fun t => match t with IPA_IP_v4 => 0%nat | IPA_IP_v6 => 1%nat | IPA_IP_MAX => 2%nat end)
    (fun n => match n with 0%nat => IPA_IP_v4 | 1%nat => IPA_IP_v6 | _ => IPA_IP_MAX end) _).
  by intros [].
Defined.

(** ** The kernel

    A call takes the file descriptor and returns the result of [ioctl], what it
    writes back and the new world. *)
Class IpaKernel (W : Type) := {
  IPA_HDR_MAX_SIZE : Z;
  IPA_RESOURCE_NAME_MAX : nat;
  IPA_FLT_SRC_ADDR : Z;
  IPA_FLT_DST_ADDR : Z;
  IPA_CLIENT_APPS_LAN_CONS : Z;
  (** whether [malloc] or [calloc] of a command buffer succeeds *)
  malloc : W -> bool * W;
  fcntl_getfl : Z -> W -> Z;
  ioctl_add_rt_rule : Z -> ipa_ioc_add_rt_rule -> W -> Z * list ipa_out * W;
  ioctl_del_rt_rule : Z -> ipa_ip_type -> Z -> W -> Z * Z * W;
  ioctl_get_rt_tbl : Z -> string -> W -> Z * Z * W;
  ioctl_copy_hdr : Z -> string -> W -> Z * ipa_ioc_copy_hdr * W;
  ioctl_add_hdr : Z -> ipa_hdr_add -> W -> Z * ipa_out * W;
  ioctl_del_hdr : Z -> Z -> W -> Z * Z * W;
  ioctl_add_flt_rule : Z -> ipa_ip_type -> Z -> list ipa_flt_rule -> W -> Z * list ipa_out * W;
  ioctl_mdfy_flt_rule : Z -> ipa_ip_type -> Z -> ipa_flt_rule -> W -> Z * Z * W;
  ioctl_del_flt_rule : Z -> ipa_ip_type -> Z -> W -> Z * Z * W
}.

(** The descriptors of [m_routing], [m_header] and [m_filtering]. *)
Record ipa_fds := { routing_fd : Z; header_fd : Z; filtering_fd : Z }.

Section wrappers.
Context {W : Type} `{IpaKernel W} (fds : ipa_fds).
Implicit Types (w : W).

(** [IPACM_Routing::DeviceNodeIsOpened] *)
Definition routing_opened w : bool := (0 <? routing_fd fds) && (0 <=? fcntl_getfl (routing_fd fds) w).

(** [IPACM_Routing::AddRoutingRule]; the rules' outputs come back in the table. *)
Definition AddRoutingRule (t : ipa_ioc_add_rt_rule) w : bool * list ipa_out * W :=
  if negb (routing_opened w) then (false, [], w)
  else
    let '(retval, out, w) := ioctl_add_rt_rule (routing_fd fds) t w in
    (retval =? 0, out, w).

(** [IPACM_Routing::DeleteRoutingRule] with one handle: result, status. *)
Definition DeleteRoutingRule (ip : ipa_ip_type) (hdl : Z) w : bool * Z * W :=
  if negb (routing_opened w) then (false, -1, w)
  else
    let '(retval, status, w) := ioctl_del_rt_rule (routing_fd fds) ip hdl w in
    (retval =? 0, status, w).

(** [IPACM_Routing::GetRoutingTable]: result, the handle stored on success. *)
Definition GetRoutingTable (name : string) w : bool * Z * W :=
  if negb (routing_opened w) then (false, 0, w)
  else
    let '(retval, hdl, w) := ioctl_get_rt_tbl (routing_fd fds) name w in
    (retval =? 0, hdl, w).

(** [IPACM_Routing::DeleteRoutingHdl]: the jump to [fail] comes before the
    assignment of [res]. *)
Definition DeleteRoutingHdl (rt_rule_hdl : Z) (ip : ipa_ip_type) w : bool * W :=
  let res := true in
  if rt_rule_hdl =? 0 then (res, w)
  else
    let '(ok, w) := malloc w in
    if negb ok then (false, w)
    else
      let '(deleted, status, w) := DeleteRoutingRule ip rt_rule_hdl w in
      if negb deleted || negb (status =? 0) then (res, w) else (res, w).

(** [IPACM_Header::DeviceNodeIsOpened], [CopyHeader], [AddHeader], [DeleteHeader] *)
Definition header_opened : bool := negb (header_fd fds =? -1).

Definition CopyHeader (name : string) w : bool * ipa_ioc_copy_hdr * W :=
  if negb header_opened
  then (false, {| ch_hdr := []; ch_hdr_len := 0; is_eth2_ofst_valid := false; eth2_ofst := 0 |}, w)
  else
    let '(retval, c, w) := ioctl_copy_hdr (header_fd fds) name w in
    (retval =? 0, c, w).

Definition AddHeader (h : ipa_hdr_add) w : bool * ipa_out * W :=
  let '(nRetVal, out, w) := ioctl_add_hdr (header_fd fds) h w in
  (negb (nRetVal =? -1), out, w).

Definition DeleteHeader (hdl : Z) w : bool * Z * W :=
  let '(nRetVal, status, w) := ioctl_del_hdr (header_fd fds) hdl w in
  (negb (nRetVal =? -1), status, w).

(** [IPACM_Header::DeleteHeaderHdl] *)
Definition DeleteHeaderHdl (hdr_hdl : Z) w : bool * W :=
  if hdr_hdl =? 0 then (false, w)
  else
    let '(ok, w) := malloc w in
    if negb ok then (false, w)
    else
      let '(deleted, status, w) := DeleteHeader hdr_hdl w in
      (deleted && (status =? 0), w).

(** [IPACM_Filtering::AddFilteringRule] on the endpoint [ep], [ModifyFilteringRule]
    of one rule, [DeleteFilteringRule] of one handle. *)
Definition AddFilteringRule (ip : ipa_ip_type) (ep : Z) (rules : list ipa_flt_rule) w : bool * list ipa_out * W :=
  let '(retval, out, w) := ioctl_add_flt_rule (filtering_fd fds) ip ep rules w in
  (retval =? 0, out, w).

Definition ModifyFilteringRule (ip : ipa_ip_type) (hdl : Z) (rule : ipa_flt_rule) w : bool * W :=
  let '(ret, _, w) := ioctl_mdfy_flt_rule (filtering_fd fds) ip hdl rule w in
  (ret =? 0, w).

Definition DeleteFilteringRule (ip : ipa_ip_type) (hdl : Z) w : bool * Z * W :=
  let '(retval, status, w) := ioctl_del_flt_rule (filtering_fd fds) ip hdl w in
  (retval =? 0, status, w).

(** [IPACM_Filtering::DeleteFilteringHdls]: handles of value zero are skipped and
    the first failure stops the loop. *)
Fixpoint del_flt_loop (flt_rule_hdls : list Z) (ip : ipa_ip_type) w : bool * W :=
  match flt_rule_hdls with
  | [] => (true, w)
  | hdl :: hdls =>
      if hdl =? 0 then del_flt_loop hdls ip w
      else
        let '(deleted, status, w) := DeleteFilteringRule ip hdl w in
        if negb deleted || negb (status =? 0) then (false, w) else del_flt_loop hdls ip w
  end.

Definition DeleteFilteringHdls (flt_rule_hdls : list Z) (ip : ipa_ip_type) w : bool * W :=
  let '(ok, w) := malloc w in
  if negb ok then (false, w) else del_flt_loop flt_rule_hdls ip w.
End wrappers.

(** ** What is installed in the hardware *)

Record ipa_hw := {
  hw_hdrs : gmap Z ipa_hdr_add;
  hw_rts : gmap (ipa_ip_type * Z) (string * ipa_rt_rule);
  hw_flts : gmap (ipa_ip_type * Z) ipa_flt_rule
}.

#[export] Instance ipa_hw_eta : Settable ipa_hw := fun r => Build_ipa_hw (hw_hdrs r) (hw_rts r) (hw_flts r).

(** The entries a table of routing rules makes under the handles [hs]. *)
Definition rt_entries (t : ipa_ioc_add_rt_rule) (hs : list Z) :
    list ((ipa_ip_type * Z) * (string * ipa_rt_rule)) :=
  zip_with (fun h r => ((rt_ip t, h), (rt_tbl_name t, r))) hs (rt_rules t).

(** What the kernel documents: a call that succeeds adds under unused handles
    other than zero, or deletes; a call that fails changes nothing.  The header
    templates it hands out are buffers of [IPA_HDR_MAX_SIZE] bytes with room for
    two MAC addresses at their Ethernet offset. *)
Class IpaKernelOk (W : Type) `{IpaKernel W} := {
  hw_of : W -> ipa_hw;
  ok_hdr_max : 0 <= IPA_HDR_MAX_SIZE;
  ok_malloc w : hw_of (malloc w).2 = hw_of w;
  ok_add_rt fd t w :
    let '(r, out, w') := ioctl_add_rt_rule fd t w in
    (r <> 0 /\ hw_of w' = hw_of w) \/
    (r = 0 /\ exists hs, out = (fun h => {| out_hdl := h; out_status := 0 |}) <$> hs /\
      length hs = length (rt_rules t) /\ NoDup hs /\
      (forall h, h ∈ hs -> h <> 0 /\ hw_rts (hw_of w) !! (rt_ip t, h) = None) /\
      hw_of w' = hw_of w <| hw_rts := list_to_map (rt_entries t hs) ∪ hw_rts (hw_of w) |>);
  ok_del_rt fd ip h w :
    let '(r, status, w') := ioctl_del_rt_rule fd ip h w in
    (hw_of w' = hw_of w /\ (r <> 0 \/ status <> 0)) \/
    (r = 0 /\ status = 0 /\ hw_of w' = hw_of w <| hw_rts := delete (ip, h) (hw_rts (hw_of w)) |>);
  ok_get_rt_tbl fd name w : hw_of (ioctl_get_rt_tbl fd name w).2 = hw_of w;
  ok_copy_hdr fd name w :
    let '(r, c, w') := ioctl_copy_hdr fd name w in
    hw_of w' = hw_of w /\
    (r = 0 -> 0 <= ch_hdr_len c /\ Z.of_nat (length (ch_hdr c)) = IPA_HDR_MAX_SIZE /\
      (is_eth2_ofst_valid c = true -> 0 <= eth2_ofst c /\ eth2_ofst c + 12 <= IPA_HDR_MAX_SIZE));
  ok_add_hdr fd a w :
    let '(r, out, w') := ioctl_add_hdr fd a w in
    (hw_of w' = hw_of w /\ (r = -1 \/ out_status out <> 0)) \/
    (r <> -1 /\ out_status out = 0 /\ out_hdl out <> 0 /\ hw_hdrs (hw_of w) !! out_hdl out = None /\
      hw_of w' = hw_of w <| hw_hdrs := <[out_hdl out := a]> (hw_hdrs (hw_of w)) |>);
  ok_del_hdr fd h w :
    let '(r, status, w') := ioctl_del_hdr fd h w in
    (hw_of w' = hw_of w /\ (r = -1 \/ status <> 0)) \/
    (r <> -1 /\ status = 0 /\ hw_of w' = hw_of w <| hw_hdrs := delete h (hw_hdrs (hw_of w)) |>)
}.

(** A kernel on whose descriptors deleting what is installed succeeds, and with
    memory for the commands; additions may fail. *)
Class IpaReliable (W : Type) `{IpaKernelOk W} (fds : ipa_fds) : Prop := {
  rel_malloc w : (malloc w).1 = true;
  rel_opened w : routing_opened fds w = true;
  rel_header : header_opened fds = true;
  rel_del_rt ip h r w :
    hw_rts (hw_of w) !! (ip, h) = Some r -> (ioctl_del_rt_rule (routing_fd fds) ip h w).1 = (0, 0);
  rel_del_hdr h a w :
    hw_hdrs (hw_of w) !! h = Some a ->
    (ioctl_del_hdr (header_fd fds) h w).1.1 <> -1 /\ (ioctl_del_hdr (header_fd fds) h w).1.2 = 0
}.

(** A kernel that grants every request: additions succeed, templates exist. *)
Class IpaGrants (W : Type) `{IpaReliable W} : Prop := {
  grant_add_rt t w : (ioctl_add_rt_rule (routing_fd fds) t w).1.1 = 0;
  grant_copy_hdr name w :
    (ioctl_copy_hdr (header_fd fds) name w).1.1 = 0 /\
    ch_hdr_len (ioctl_copy_hdr (header_fd fds) name w).1.2 <= IPA_HDR_MAX_SIZE;
  grant_add_hdr a w :
    (ioctl_add_hdr (header_fd fds) a w).1.1 <> -1 /\ out_status (ioctl_add_hdr (header_fd fds) a w).1.2 = 0
}.

(** The filter rules of an [ipa_ioc_add_flt_rule] that were added, by their status. *)
Definition flt_entries (ip : ipa_ip_type) (out : list ipa_out) (rules : list ipa_flt_rule) :
    list ((ipa_ip_type * Z) * ipa_flt_rule) :=
  omap (fun '(x, r) => if out_status x =? 0 then Some ((ip, out_hdl x), r) else None) (zip out rules).

(** The same for filter rules: a rule is added if its status says so, and changed
    only if it is installed. *)
Class IpaFltOk (W : Type) `{IpaKernelOk W} : Prop := {
  ok_add_flt fd ip ep rules w :
    let '(r, out, w') := ioctl_add_flt_rule fd ip ep rules w in
    (r <> 0 /\ hw_of w' = hw_of w) \/
    (r = 0 /\ length out = length rules /\
      NoDup (flt_entries ip out rules).*1 /\
      (forall k, k ∈ (flt_entries ip out rules).*1 -> hw_flts (hw_of w) !! k = None) /\
      hw_of w' = hw_of w <| hw_flts := list_to_map (flt_entries ip out rules) ∪ hw_flts (hw_of w) |>);
  ok_mdfy_flt fd ip h rule w :
    let '(r, status, w') := ioctl_mdfy_flt_rule fd ip h rule w in
    (hw_of w' = hw_of w /\ (r <> 0 \/ status <> 0)) \/
    (r = 0 /\ status = 0 /\ is_Some (hw_flts (hw_of w) !! (ip, h)) /\
      hw_of w' = hw_of w <| hw_flts := <[(ip, h) := rule]> (hw_flts (hw_of w)) |>)
}.

(** ** The wrappers under the laws *)

(** The step from [w] to [w'] installs the routing rules [rs], under keys that
    were free, and nothing else. *)
Definition adds_rts (rs : list ((ipa_ip_type * Z) * (string * ipa_rt_rule))) (h h' : ipa_hw) : Prop :=
  NoDup rs.*1 /\ (forall k, k ∈ rs.*1 -> hw_rts h !! k = None /\ k.2 <> 0) /\
  h' = h <| hw_rts := list_to_map rs ∪ hw_rts h |>.

(** The step takes exactly the keys [ks] out. *)
Definition dels_rts (ks : list (ipa_ip_type * Z)) (h h' : ipa_hw) : Prop :=
  h' = h <| hw_rts := filter (fun kv => kv.1 ∉ ks) (hw_rts h) |>.

Lemma adds_rts_nil h : adds_rts [] h h.
Proof.
  split_and!; [constructor|intros k Hk; by apply not_elem_of_nil in Hk|].
  simpl. rewrite (left_id_L ∅ (∪)). by destruct h.
Qed.

Lemma adds_rts_app rs1 rs2 h h1 h2 :
  adds_rts rs1 h h1 -> adds_rts rs2 h1 h2 -> adds_rts (rs1 ++ rs2) h h2.
Proof.
  intros (Hn1 & Hf1 & ->) (Hn2 & Hf2 & ->). unfold adds_rts. rewrite fmap_app.
  assert (forall k, k ∈ rs2.*1 -> hw_rts h !! k = None /\ k ∉ rs1.*1) as Hk.
  { intros k Hin. destruct (Hf2 k Hin) as [Hl _]. simpl in Hl. apply lookup_union_None in Hl as [Hl ?].
    split; [done|]. by apply not_elem_of_list_to_map. }
  split_and!.
  - apply NoDup_app. split_and!; [done| |done]. intros k H1 H2. by destruct (Hk k H2).
  - intros k [Hin|Hin]%elem_of_app; [auto|]. split; [by apply Hk|by apply Hf2].
  - destruct h as [a b c]. simpl. f_equal. rewrite list_to_map_app, (assoc_L (∪)). f_equal.
    apply map_union_comm. apply map_disjoint_list_to_map_l, Forall_forall. intros [k v] Hin. simpl.
    apply not_elem_of_list_to_map. apply Hk. by apply (list_elem_of_fmap_2 fst) in Hin.
Qed.

Lemma adds_rts_lookup rs h h' k r : adds_rts rs h h' -> (k, r) ∈ rs -> hw_rts h' !! k = Some r.
Proof.
  intros (Hn & _ & ->) Hin. simpl. apply lookup_union_Some_l. by apply elem_of_list_to_map.
Qed.

Lemma adds_rts_old rs h h' k r : adds_rts rs h h' -> hw_rts h !! k = Some r -> hw_rts h' !! k = Some r.
Proof.
  intros (Hn & Hf & ->) Hk. simpl. apply lookup_union_Some_raw. right. split; [|done].
  apply not_elem_of_list_to_map. intros Hin. apply Hf in Hin as [? _]. congruence.
Qed.

Lemma dels_rts_app ks1 ks2 h h1 h2 : dels_rts ks1 h h1 -> dels_rts ks2 h1 h2 -> dels_rts (ks1 ++ ks2) h h2.
Proof.
  intros -> ->. unfold dels_rts. destruct h as [a b c]. simpl. f_equal.
  rewrite map_filter_filter. apply map_filter_ext. intros k x _. simpl. rewrite elem_of_app. tauto.
Qed.

Lemma dels_rts_nil h : dels_rts [] h h.
Proof.
  unfold dels_rts. destruct h as [a b c]. simpl. f_equal. symmetry. apply map_filter_id.
  intros k x _. simpl. apply not_elem_of_nil.
Qed.

Lemma dels_rts_lookup ks h h' k :
  dels_rts ks h h' -> hw_rts h' !! k = if decide (k ∈ ks) then None else hw_rts h !! k.
Proof.
  intros ->. simpl. rewrite map_lookup_filter. destruct (hw_rts h !! k) as [x|]; simpl; [|by case_decide].
  case_decide; case_guard; done.
Qed.

(** Deleting what was added leaves the hardware as it was. *)
Lemma adds_dels_rts rs h h1 h2 : adds_rts rs h h1 -> dels_rts rs.*1 h1 h2 -> h2 = h.
Proof.
  intros (Hn & Hf & ->) Hd. assert (hw_rts h2 = hw_rts h) as Hr.
  { apply map_eq. intros k. rewrite (dels_rts_lookup _ _ _ k Hd). simpl. case_decide as Hk.
    - symmetry. by apply Hf.
    - rewrite lookup_union_r; [done|]. by apply not_elem_of_list_to_map. }
  rewrite Hd in Hr |- *. destruct h as [a b c]. simpl in *. by rewrite Hr.
Qed.

Section wrapper_laws.
Context {W : Type} `{HO : IpaKernelOk W} (fds : ipa_fds).
Implicit Types (w : W).

(** [AddRoutingRule] of a table of one rule. *)
Lemma AddRoutingRule_one name ip r w :
  let t := {| rt_tbl_name := name; rt_ip := ip; rt_rules := [r] |} in
  let '(ok, out, w') := AddRoutingRule fds t w in
  if ok : bool
  then exists h, out = [{| out_hdl := h; out_status := 0 |}] /\
         adds_rts [((ip, h), (name, r))] (hw_of w) (hw_of w')
  else hw_of w' = hw_of w.
Proof.
  intros t. unfold AddRoutingRule. destruct (routing_opened fds w); simpl; [|done].
  pose proof (ok_add_rt (routing_fd fds) t w) as Ht.
  destruct (ioctl_add_rt_rule (routing_fd fds) t w) as [[x out] w'].
  destruct Ht as [[Hx Hw]|(-> & hs & -> & Hl & Hn & Hf & Hw)].
  - destruct (Z.eqb_spec x 0); [lia|done].
  - destruct hs as [|h [|]]; simplify_eq/=. exists h. split; [done|].
    destruct (Hf h) as [H0 Hfr]; [left|]. split_and!; [apply NoDup_singleton| |done].
    intros k Hk%list_elem_of_singleton. by subst k.
Qed.

Lemma GetRoutingTable_hw name w : hw_of (GetRoutingTable fds name w).2 = hw_of w.
Proof.
  unfold GetRoutingTable. destruct (routing_opened fds w); simpl; [|done].
  pose proof (ok_get_rt_tbl (routing_fd fds) name w). by destruct (ioctl_get_rt_tbl _ _ _) as [[??]?].
Qed.

(** Filter rules are added as the statuses say, or not at all. *)
Lemma AddFilteringRule_ok `{!IpaFltOk W} ip ep rules w :
  let '(ok, out, w') := AddFilteringRule fds ip ep rules w in
  if ok : bool
  then length out = length rules /\ NoDup (flt_entries ip out rules).*1 /\
       hw_of w' = hw_of w <| hw_flts := list_to_map (flt_entries ip out rules) ∪ hw_flts (hw_of w) |>
  else hw_of w' = hw_of w.
Proof.
  unfold AddFilteringRule. pose proof (ok_add_flt (filtering_fd fds) ip ep rules w) as Ha.
  destruct (ioctl_add_flt_rule _ _ _ _ w) as [[r out] w']. destruct Ha as [[Hr ?]|(-> & ? & ? & _ & ?)].
  - by apply Z.eqb_neq in Hr as ->.
  - done.
Qed.

(** A change of an installed filter rule: made, refused by the rule's status alone,
    which the wrapper takes for success, or reported as failed. *)
Lemma ModifyFilteringRule_ok `{!IpaFltOk W} ip h rule w :
  let '(ok, w') := ModifyFilteringRule fds ip h rule w in
  if ok : bool then
    hw_of w' = hw_of w <| hw_flts := <[(ip, h) := rule]> (hw_flts (hw_of w)) |> \/
    hw_of w' = hw_of w /\ (ioctl_mdfy_flt_rule (filtering_fd fds) ip h rule w).1.1 = 0 /\
      (ioctl_mdfy_flt_rule (filtering_fd fds) ip h rule w).1.2 <> 0
  else hw_of w' = hw_of w.
Proof.
  unfold ModifyFilteringRule. pose proof (ok_mdfy_flt (filtering_fd fds) ip h rule w) as Hm.
  destruct (ioctl_mdfy_flt_rule _ _ _ _ _) as [[x st] w']. simpl in *.
  destruct (Z.eqb_spec x 0) as [->|Hx].
  - destruct Hm as [[? [?|?]]|(_ & _ & _ & ?)]; [done|by right|by left].
  - by destruct Hm as [[? _]|[? _]].
Qed.

Section reliable.
Context `{!IpaReliable W fds}.

Lemma DeleteRoutingHdl_ok ip h w :
  h <> 0 ->
  exists w', DeleteRoutingHdl fds h ip w = (true, w') /\ dels_rts [(ip, h)] (hw_of w) (hw_of w').
Proof.
  intros H0. unfold DeleteRoutingHdl, DeleteRoutingRule. destruct (Z.eqb_spec h 0); [lia|].
  pose proof (ok_malloc w) as Hm. pose proof (rel_malloc w) as Hr.
  destruct (malloc w) as [ok w1]. simpl in *. subst ok. simpl. rewrite rel_opened. simpl.
  pose proof (ok_del_rt (routing_fd fds) ip h w1) as Hd. pose proof (fun r => rel_del_rt ip h r w1) as Hp.
  destruct (ioctl_del_rt_rule (routing_fd fds) ip h w1) as [[x st] w2]. simpl in *.
  assert (dels_rts [(ip, h)] (hw_of w) (hw_of w2)) as Hdel.
  { assert (forall m : gmap (ipa_ip_type * Z) (string * ipa_rt_rule),
        filter (fun kv => kv.1 ∉ [(ip, h)]) m = delete (ip, h) m) as Hfd.
    { intros m. apply map_eq. intros k. rewrite map_lookup_filter.
      destruct (decide (k = (ip, h))) as [->|Hne].
      - rewrite lookup_delete_eq. destruct (m !! (ip, h)); [|done]. simpl.
        rewrite option_guard_False; [done|]. intros Hk. apply Hk. left.
      - rewrite lookup_delete_ne by done. destruct (m !! k); [|done]. simpl.
        rewrite option_guard_True; [done|]. by intros ?%list_elem_of_singleton. }
    unfold dels_rts. rewrite <- Hm. destruct Hd as [[Hw Hf]|(_ & _ & ->)].
    - rewrite Hfd. destruct (hw_rts (hw_of w1) !! (ip, h)) as [r|] eqn:Hl.
      + specialize (Hp r eq_refl). destruct Hf; congruence.
      + rewrite delete_id by done. rewrite Hw. by destruct (hw_of w1).
    - by rewrite Hfd. }
  destruct (_ || _); eauto.
Qed.

Lemma DeleteHeaderHdl_ok h a w :
  h <> 0 -> hw_hdrs (hw_of w) !! h = Some a ->
  exists w', DeleteHeaderHdl fds h w = (true, w') /\
    hw_of w' = hw_of w <| hw_hdrs := delete h (hw_hdrs (hw_of w)) |>.
Proof.
  intros H0 Ha. unfold DeleteHeaderHdl, DeleteHeader. destruct (Z.eqb_spec h 0); [lia|].
  pose proof (ok_malloc w) as Hm. pose proof (rel_malloc w) as Hr.
  destruct (malloc w) as [ok w1]. simpl in *. subst ok. simpl. rewrite <- Hm in Ha |- *.
  pose proof (ok_del_hdr (header_fd fds) h w1) as Hd. destruct (rel_del_hdr h a w1 Ha) as [Hx Hst].
  destruct (ioctl_del_hdr (header_fd fds) h w1) as [[x st] w2]. simpl in *. subst st.
  destruct Hd as [[_ [?|?]]|(_ & _ & Hw)]; [done|done|].
  exists w2. split; [|done]. by destruct (Z.eqb_spec x (-1)).
Qed.
End reliable.
End wrapper_laws.

(** [DeleteRoutingHdl] says [true] whenever the command could be allocated: that
    the driver refused the deletion never shows in its result. *)
Theorem DeleteRoutingHdl_reports `{IpaKernel W} fds (h : Z) (ip : ipa_ip_type) (w : W) :
  fst (DeleteRoutingHdl fds h ip w) = (h =? 0) || fst (malloc w).
Proof.
  unfold DeleteRoutingHdl. destruct (h =? 0); [done|]. destruct (malloc w) as [[] w1]; simpl; [|done].
  destruct (DeleteRoutingRule fds ip h w1) as [[deleted status] w2]. by destruct (_ || _).
Qed.

