(* ===== verification/IpaSim.v ===== *)
(** * A concrete kernel for the driver wrappers

    It keeps what is installed, hands out handles above all those in use and counts the
    calls that can fail; [fail n] says that the [n]-th one does.  It satisfies the
    laws of IpaDrv.v, so that the theorems stated under them can be applied. *)
From S2P Require Import Prelude Defs IpaDrv.
From stdpp Require Import base list gmap strings.
From Stdlib Require Import ZArith Lia.

Open Scope Z_scope.

Record SimpleIpa := { si_calls : nat; si_hw : ipa_hw }.

#[export] Instance SimpleIpa_eta : Settable SimpleIpa := fun r => Build_SimpleIpa (si_calls r) (si_hw r).

Definition si_init : SimpleIpa :=
  {| si_calls := 0; si_hw := {| hw_hdrs := ∅; hw_rts := ∅; hw_flts := ∅ |} |}.

(** The handles in use, and the first one above them. *)
Definition si_hdls (h : ipa_hw) : list Z :=
  (map_to_list (hw_hdrs h)).*1 ++ (map_to_list (hw_rts h)).*1.*2 ++ (map_to_list (hw_flts h)).*1.*2.

Definition si_next (h : ipa_hw) : Z := 1 + foldr Z.max 0 (si_hdls h).

Section simple.
Variable fail : nat -> bool.

(** Count a call: does it succeed? *)
Definition si_tick (w : SimpleIpa) : bool * SimpleIpa :=
  (negb (fail (si_calls w)), w <| si_calls := S (si_calls w) |>).

Definition si_out (h : Z) : ipa_out := {| out_hdl := h; out_status := 0 |}.

Definition si_add_rt (t : ipa_ioc_add_rt_rule) (w : SimpleIpa) : Z * list ipa_out * SimpleIpa :=
  let n := length (rt_rules t) in
  let '(ok, w) := si_tick w in
  if negb ok then (-1, [], w)
  else
    let hs := seqZ (si_next (si_hw w)) (Z.of_nat n) in
    (0, si_out <$> hs,
     w <| si_hw := si_hw w <| hw_rts := list_to_map (rt_entries t hs) ∪ hw_rts (si_hw w) |> |>).

Definition si_del_rt (ip : ipa_ip_type) (h : Z) (w : SimpleIpa) : Z * Z * SimpleIpa :=
  match hw_rts (si_hw w) !! (ip, h) with
  | Some _ => (0, 0, w <| si_hw := si_hw w <| hw_rts := delete (ip, h) (hw_rts (si_hw w)) |> |>)
  | None => (-1, -1, w)
  end.

(** A template of 64 bytes with the MAC addresses in front. *)
Definition si_template : ipa_ioc_copy_hdr :=
  {| ch_hdr := replicate 64 0; ch_hdr_len := 14; is_eth2_ofst_valid := true; eth2_ofst := 0 |}.

Definition si_copy_hdr (w : SimpleIpa) : Z * ipa_ioc_copy_hdr * SimpleIpa :=
  let '(ok, w) := si_tick w in (if ok : bool then 0 else -1, si_template, w).

Definition si_add_hdr (a : ipa_hdr_add) (w : SimpleIpa) : Z * ipa_out * SimpleIpa :=
  let '(ok, w) := si_tick w in
  if negb ok then (-1, {| out_hdl := -1; out_status := -1 |}, w)
  else
    (0, si_out (si_next (si_hw w)),
     w <| si_hw := si_hw w <| hw_hdrs := <[si_next (si_hw w) := a]> (hw_hdrs (si_hw w)) |> |>).

Definition si_del_hdr (h : Z) (w : SimpleIpa) : Z * Z * SimpleIpa :=
  match hw_hdrs (si_hw w) !! h with
  | Some _ => (0, 0, w <| si_hw := si_hw w <| hw_hdrs := delete h (hw_hdrs (si_hw w)) |> |>)
  | None => (-1, -1, w)
  end.

Definition si_add_flt (ip : ipa_ip_type) (rules : list ipa_flt_rule) (w : SimpleIpa) :
    Z * list ipa_out * SimpleIpa :=
  let n := length rules in
  let '(ok, w) := si_tick w in
  if negb ok then (-1, [], w)
  else
    let hs := seqZ (si_next (si_hw w)) (Z.of_nat n) in
    (0, si_out <$> hs,
     w <| si_hw := si_hw w <| hw_flts := list_to_map (zip ((ip,.) <$> hs) rules) ∪ hw_flts (si_hw w) |> |>).

Definition si_mdfy_flt (ip : ipa_ip_type) (h : Z) (rule : ipa_flt_rule) (w : SimpleIpa) : Z * Z * SimpleIpa :=
  let '(ok, w) := si_tick w in
  match hw_flts (si_hw w) !! (ip, h) with
  | Some _ =>
      if ok : bool then (0, 0, w <| si_hw := si_hw w <| hw_flts := <[(ip, h) := rule]> (hw_flts (si_hw w)) |> |>)
      else (-1, -1, w)
  | None => (-1, -1, w)
  end.

Definition si_del_flt (ip : ipa_ip_type) (h : Z) (w : SimpleIpa) : Z * Z * SimpleIpa :=
  match hw_flts (si_hw w) !! (ip, h) with
  | Some _ => (0, 0, w <| si_hw := si_hw w <| hw_flts := delete (ip, h) (hw_flts (si_hw w)) |> |>)
  | None => (-1, -1, w)
  end.

Definition simple_kernel : IpaKernel SimpleIpa := {|
  IPA_HDR_MAX_SIZE := 64;
  IPA_RESOURCE_NAME_MAX := 20;
  IPA_FLT_SRC_ADDR := 4;
  IPA_FLT_DST_ADDR := 8;
  IPA_CLIENT_APPS_LAN_CONS := 33;
  malloc := fun w => (true, w);
  fcntl_getfl := fun _ _ => 0;
  ioctl_add_rt_rule := fun _ => si_add_rt;
  ioctl_del_rt_rule := fun _ => si_del_rt;
  ioctl_get_rt_tbl := fun _ _ w => (0, 1, w);
  ioctl_copy_hdr := fun _ _ => si_copy_hdr;
  ioctl_add_hdr := fun _ => si_add_hdr;
  ioctl_del_hdr := fun _ => si_del_hdr;
  ioctl_add_flt_rule := fun _ ip _ => si_add_flt ip;
  ioctl_mdfy_flt_rule := fun _ => si_mdfy_flt;
  ioctl_del_flt_rule := fun _ => si_del_flt
|}.
End simple.

(** ** It satisfies the laws *)

Lemma si_next_above h x : x ∈ si_hdls h -> x < si_next h.
Proof.
  unfold si_next. generalize (si_hdls h). intros l Hin.
  induction Hin as [x l|x y l _ IH]; simpl; lia.
Qed.

Lemma si_next_pos h : 0 < si_next h.
Proof. unfold si_next. induction (si_hdls h); simpl; lia. Qed.

Lemma si_fresh_hdr h x : si_next h <= x -> hw_hdrs h !! x = None.
Proof.
  intros Hx. destruct (hw_hdrs h !! x) as [a|] eqn:E; [|done].
  assert (x < si_next h); [|lia]. apply si_next_above, elem_of_app. left.
  apply list_elem_of_fmap. exists (x, a). split; [done|by apply elem_of_map_to_list].
Qed.

Lemma si_fresh_rt h ip x : si_next h <= x -> hw_rts h !! (ip, x) = None.
Proof.
  intros Hx. destruct (hw_rts h !! (ip, x)) as [a|] eqn:E; [|done].
  assert (x < si_next h); [|lia]. apply si_next_above. unfold si_hdls. rewrite !elem_of_app. right. left.
  apply list_elem_of_fmap. exists (ip, x). split; [done|].
  apply list_elem_of_fmap. exists ((ip, x), a). split; [done|by apply elem_of_map_to_list].
Qed.

Lemma si_fresh_flt h ip x : si_next h <= x -> hw_flts h !! (ip, x) = None.
Proof.
  intros Hx. destruct (hw_flts h !! (ip, x)) as [a|] eqn:E; [|done].
  assert (x < si_next h); [|lia]. apply si_next_above. unfold si_hdls. rewrite !elem_of_app. right. right.
  apply list_elem_of_fmap. exists (ip, x). split; [done|].
  apply list_elem_of_fmap. exists ((ip, x), a). split; [done|by apply elem_of_map_to_list].
Qed.

(** All rules of a command are added. *)
Lemma si_flt_entries ip hs rules : flt_entries ip (si_out <$> hs) rules = zip ((ip,.) <$> hs) rules.
Proof.
  unfold flt_entries. revert rules. induction hs as [|h hs IH]; intros [|r rules]; simpl; [done..|]. by rewrite IH.
Qed.

Section simple_laws.
Variable fail : nat -> bool.

Lemma si_add_rt_law t w :
  let '(r, out, w') := si_add_rt fail t w in
  (r <> 0 /\ si_hw w' = si_hw w) \/
  (r = 0 /\ exists hs, out = (fun h => {| out_hdl := h; out_status := 0 |}) <$> hs /\
    length hs = length (rt_rules t) /\ NoDup hs /\
    (forall h, h ∈ hs -> h <> 0 /\ hw_rts (si_hw w) !! (rt_ip t, h) = None) /\
    si_hw w' = si_hw w <| hw_rts := list_to_map (rt_entries t hs) ∪ hw_rts (si_hw w) |>).
Proof.
  unfold si_add_rt, si_tick. destruct (fail (si_calls w)); simpl; [by left|].
  right. split; [done|]. eexists. split_and!; [done| | | |done].
  - rewrite length_seqZ. lia.
  - apply NoDup_seqZ.
  - intros h Hh%elem_of_seqZ. pose proof (si_next_pos (si_hw w)). split; [lia|]. apply si_fresh_rt. lia.
Qed.

Definition simple_kernel_ok : @IpaKernelOk SimpleIpa (simple_kernel fail).
Proof.
  refine (@Build_IpaKernelOk SimpleIpa (simple_kernel fail) si_hw _ _ _ _ _ _ _ _); try done.
  - intros fd. apply si_add_rt_law.
  - intros fd ip h w. simpl. unfold si_del_rt. destruct (_ !! _); [by right|left]. split; [done|by left].
  - intros fd a w. simpl. unfold si_add_hdr, si_tick. destruct (fail (si_calls w)); simpl.
    + left. split; [done|by left].
    + right. pose proof (si_next_pos (si_hw w)). split_and!; try done; [lia|]. apply si_fresh_hdr. lia.
  - intros fd h w. simpl. unfold si_del_hdr. destruct (_ !! _); [by right|left]. split; [done|by left].
Defined.

#[local] Instance simple_flt_kernel : IpaKernel SimpleIpa := simple_kernel fail.
#[local] Instance simple_flt_laws : IpaKernelOk SimpleIpa := simple_kernel_ok.

Lemma simple_flt_ok : IpaFltOk SimpleIpa.
Proof.
  split.
  - intros fd ip ep rules w. simpl. unfold si_add_flt, si_tick. destruct (fail (si_calls w)); simpl; [by left|right].
    set (hs := seqZ (si_next (si_hw w)) (Z.of_nat (length rules))).
    assert (length hs = length rules) as Hl by (unfold hs; rewrite length_seqZ; lia).
    rewrite si_flt_entries, fst_zip by (rewrite length_fmap; lia).
    split_and!; [done|by rewrite length_fmap| | |done].
    + apply NoDup_fmap_2; [by intros ?? [=]|apply NoDup_seqZ].
    + intros k (h & -> & Hh%elem_of_seqZ)%list_elem_of_fmap. apply si_fresh_flt. lia.
  - intros fd ip h rule w. simpl. unfold si_mdfy_flt, si_tick. simpl.
    destruct (hw_flts (si_hw w) !! (ip, h)) eqn:E; [|by left; split; [|left]].
    destruct (fail (si_calls w)); simpl; [by left; split; [|left]|]. right. by split_and!.
Qed.

Definition simple_fds : ipa_fds := {| routing_fd := 3; header_fd := 4; filtering_fd := 5 |}.

Lemma simple_reliable : @IpaReliable SimpleIpa (simple_kernel fail) simple_kernel_ok simple_fds.
Proof.
  split; simpl; try done.
  - intros ip h r w Hr. unfold si_del_rt. by rewrite Hr.
  - intros h a w Ha. unfold si_del_hdr. by rewrite Ha.
Qed.
End simple_laws.

Lemma simple_grants :
  @IpaGrants SimpleIpa (simple_kernel (fun _ => false)) (simple_kernel_ok _) simple_fds (simple_reliable _).
Proof. by split. Qed.
