(* ===== verification/StateM.v ===== *)
(** * Stateful code with undefined behaviour

    Methods of the interface classes thread their object and the world behind the
    driver.  A method is a function from the state to a result and a new state,
    or [None] where the source has undefined behaviour.  [wp] is its total
    correctness: the method is defined and its result and final state satisfy a
    postcondition; the rules below take a method apart along its structure. *)
From S2P Require Import Prelude.
From stdpp Require Import base list.
From Stdlib Require Import Lia.

Declare Scope method_scope.
Delimit Scope method_scope with method.

(** ** The monad *)

Definition M (S A : Type) : Type := S -> option (A * S).

Section monad.
Context {S : Type}.

Definition ret {A} (x : A) : M S A := fun s => Some (x, s).
Definition bind {A B} (m : M S A) (k : A -> M S B) : M S B :=
  fun s => match m s with Some (x, s) => k x s | None => None end.
(** Undefined behaviour. *)
Definition ub {A} : M S A := fun _ => None.
Definition get : M S S := fun s => Some (s, s).
Definition modify (f : S -> S) : M S unit := fun s => Some (tt, f s).
(** The use of a pointer or array element that may not be there. *)
Definition deref {A} (p : option A) : M S A := match p with Some x => ret x | None => ub end.

(** [for(x : l) body(x)] whose body may return from the method: [Some r] is an
    early [return r], [None] the end of the loop. *)
Fixpoint for_each {X R} (body : X -> M S (option R)) (l : list X) : M S (option R) :=
  match l with
  | [] => ret None
  | x :: l => bind (body x) (fun r => match r with Some r => ret (Some r) | None => for_each body l end)
  end.
End monad.

Notation "'let*' x := m 'in' k" := (bind m (fun x => k))
  (at level 10, x binder, m at level 100, k at level 200) : method_scope.
Notation "m >> k" := (bind m (fun _ => k)) (at level 60, right associativity) : method_scope.

(** Methods of an object of type [O], over a kernel of type [K] and the other
    components of the program, of type [E]. *)
Section object.
Context {O K E : Type}.

Definition get_obj : M (O * (K * E)) O := fun s => Some (fst s, s).
Definition upd_obj (f : O -> O) : M (O * (K * E)) unit := fun s => Some (tt, (f (fst s), snd s)).
(** A call of the kernel, and of another component. *)
Definition hw {A} (f : K -> A * K) : M (O * (K * E)) A :=
  fun s => let '(o, (k, e)) := s in let '(x, k) := f k in Some (x, (o, (k, e))).
Definition call (f : E -> option E) : M (O * (K * E)) unit :=
  fun s => let '(o, (k, e)) := s in match f e with Some e => Some (tt, (o, (k, e))) | None => None end.
End object.

(** ** Total correctness *)

Definition wp {S A} (m : M S A) (Q : A -> S -> Prop) (s : S) : Prop :=
  match m s with Some (x, s') => Q x s' | None => False end.

Section rules.
Context {S : Type}.
Implicit Types (s : S).

Lemma wp_ret {A} (x : A) (Q : A -> S -> Prop) s : Q x s -> wp (ret x) Q s.
Proof. done. Qed.

Lemma wp_bind {A B} (m : M S A) (k : A -> M S B) (Q : B -> S -> Prop) s :
  wp m (fun x => wp (k x) Q) s -> wp (bind m k) Q s.
Proof. unfold wp, bind. by destruct (m s) as [[x s']|]. Qed.

Lemma run_bind {A B} (m : M S A) (k : A -> M S B) s x s' : m s = Some (x, s') -> bind m k s = k x s'.
Proof. unfold bind. by intros ->. Qed.

Lemma run_bind_ub {A B} (m : M S A) (k : A -> M S B) s : m s = None -> bind m k s = None.
Proof. unfold bind. by intros ->. Qed.

Lemma wp_mono {A} (m : M S A) (P Q : A -> S -> Prop) s :
  wp m P s -> (forall x s', P x s' -> Q x s') -> wp m Q s.
Proof. unfold wp. destruct (m s) as [[x s']|]; auto. Qed.

Lemma wp_and {A} (m : M S A) (P Q : A -> S -> Prop) s : wp m P s -> wp m Q s -> wp m (fun x s' => P x s' /\ Q x s') s.
Proof. unfold wp. by destruct (m s) as [[x s']|]. Qed.

Lemma wp_deref {A} (p : option A) x (Q : A -> S -> Prop) s : p = Some x -> Q x s -> wp (deref p) Q s.
Proof. by intros ->. Qed.

Lemma wp_modify f (Q : unit -> S -> Prop) s : Q tt (f s) -> wp (modify f) Q s.
Proof. done. Qed.

Lemma wp_run {A} (m : M S A) (Q : A -> S -> Prop) s :
  wp m Q s -> exists x s', m s = Some (x, s') /\ Q x s'.
Proof. unfold wp. destruct (m s) as [[x s']|]; [eauto|done]. Qed.

(** A loop whose body keeps an invariant of the elements done so far, and either
    goes on or leaves with a result that [Q] allows. *)
Lemma wp_for_each {X R} (body : X -> M S (option R)) l
    (I : list X -> S -> Prop) (Q : option R -> S -> Prop) s :
  I [] s ->
  (forall pre x post s, l = pre ++ x :: post -> I pre s ->
     wp (body x) (fun r s' => match r with None => I (pre ++ [x]) s' | Some _ => Q r s' end) s) ->
  (forall s, I l s -> Q None s) ->
  wp (for_each body l) Q s.
Proof.
  intros H0 Hstep Hend.
  enough (forall pre post s, l = pre ++ post -> I pre s -> wp (for_each body post) Q s) as H
    by (by apply (H [] l)).
  clear s H0. intros pre post. revert pre. induction post as [|x post IH]; intros pre s Hl HI; simpl.
  - apply wp_ret, Hend. by rewrite Hl, app_nil_r.
  - apply wp_bind. eapply wp_mono; [by apply (Hstep pre x post s Hl)|].
    intros [r|] s' Hr; [by apply wp_ret|]. apply (IH (pre ++ [x])); [|done].
    by rewrite <- app_assoc.
Qed.

(** A loop over the indices from [a] on, with an invariant of the next index. *)
Lemma wp_for_seq {R} (body : nat -> M S (option R)) a n
    (I : nat -> S -> Prop) (Q : option R -> S -> Prop) s :
  I a s ->
  (forall k s, a <= k < a + n -> I k s ->
     wp (body k) (fun r s' => match r with None => I (1 + k) s' | Some _ => Q r s' end) s) ->
  (forall s, I (a + n) s -> Q None s) ->
  wp (for_each body (seq a n)) Q s.
Proof.
  intros H0 Hstep Hend. apply (wp_for_each body _ (fun pre => I (a + length pre))).
  - by rewrite Nat.add_0_r.
  - intros pre k post s' Hl HI.
    assert (k = a + length pre /\ length pre < n) as [-> Hk].
    { assert (seq a n !! length pre = Some k) as Hk by (rewrite Hl; by apply list_lookup_middle).
      apply lookup_seq in Hk as [-> ?]. split; [done|lia]. }
    eapply wp_mono; [apply Hstep; [lia|done]|]. intros [r|] s2; [done|].
    by rewrite length_app, Nat.add_1_r, Nat.add_succ_r.
  - rewrite length_seq. apply Hend.
Qed.
End rules.

Section object_rules.
Context {O K E : Type}.
Implicit Types (o : O) (k : K) (e : E).

Lemma wp_get_obj (Q : O -> O * (K * E) -> Prop) s : Q (fst s) s -> wp get_obj Q s.
Proof. done. Qed.

Lemma wp_upd_obj f (Q : unit -> O * (K * E) -> Prop) s : Q tt (f (fst s), snd s) -> wp (upd_obj f) Q s.
Proof. done. Qed.

Lemma wp_hw {A} (f : K -> A * K) (Q : A -> O * (K * E) -> Prop) o k e x k' :
  f k = (x, k') -> Q x (o, (k', e)) -> wp (hw f) Q (o, (k, e)).
Proof. unfold wp, hw. by intros ->. Qed.

Lemma wp_call f e' (Q : unit -> O * (K * E) -> Prop) o k e :
  f e = Some e' -> Q tt (o, (k, e')) -> wp (call f) Q (o, (k, e)).
Proof. unfold wp, call. by intros ->. Qed.
End object_rules.

#[global] Opaque wp.
