(* ===== verification/ClientTable.v ===== *)
(** * The client table of an interface

    [IPACM_Lan] keeps its Ethernet clients and [IPACM_Wlan] its wireless ones in
    an array of records, in the order of arrival, and both classes have their own
    copy of the code that works on it.  What the two copies have in common is
    here, over a record with a field [extra] for what only one class has: the
    search by MAC address, the addresses of a client, its headers and routing
    rules in the hardware, and the removal of a record by moving the ones behind
    it.  [None] is the use of a slot outside the array or of a null array. *)
From S2P Require Import Prelude Defs Heap Config LanToLan IpaDrv StateM.
From stdpp Require Import base list gmap strings pretty.
From Stdlib Require Import ZArith Lia.

Open Scope Z_scope.
Open Scope method_scope.

(** [IPV6_NUM_ADDR], [IPA_MAC_ADDR_SIZE] and names of routing tables. *)
Definition IPV6_NUM_ADDR : nat := 3.
Definition IPA_MAC_ADDR_SIZE : nat := 6.
Definition V4_LAN_ROUTE_TABLE_NAME : string := "COMRTBLLANv4".
Definition V6_COMMON_ROUTE_TABLE_NAME : string := "COMRTBLv6".
Definition V6_WAN_ROUTE_TABLE_NAME : string := "WANRTBLv6".

(** ** What the classes call: other components of the program

    The conntrack listener, the NAT cache, the resource-manager dependencies of
    the configuration (by the pipe, whose resource it looks up) and the event
    queue. *)
Class LanEnv (E : Type) := {
  ct_neigh_add : ipacm_event_data_all -> E -> option E;
  ct_neigh_del : Z -> E -> option E;
  nat_update_pwr_save : Z -> E -> option E;
  nat_reset_pwr_save : Z -> E -> option E;
  add_rm_depend : Z -> bool -> E -> E;
  del_rm_depend : Z -> E -> E;
  post_lan_client : ipa_cm_event_id -> @ipacm_event_lan_client Z -> E -> E
}.

(** ** Strings in arrays ([IPACM_Iface::strlcpy], [strlcat]) *)

(** [snprintf(index, 2, "%d", n)]: an array of two bytes holds one digit. *)
Definition snprintf_index (n : nat) : string := String.substring 0 1 (pretty n).

(** [strlcpy(dest, src, n)]: the new contents of [dest]. *)
Definition strlcpy (src : string) (n : nat) : string :=
  if (n <=? String.length src)%nat then String.substring 0 (n - 1) src else src.

(** [strlcat(dest, src, n)]: the result and the new contents of [dest]. *)
Definition strlcat (dest src : string) (n : nat) : nat * string :=
  let dsize := String.length dest in
  let len := String.length src in
  (dsize + len,
   if dsize <? n
   then String.append dest (if n - dsize <=? len then String.substring 0 (n - dsize - 1) src else src)
   else dest)%nat.

(** [memcpy(&buf[ofs], bytes, sizeof(bytes))] *)
Definition write_bytes (ofs : Z) (bytes buf : list Z) : option (list Z) :=
  if (0 <=? ofs) && (ofs + Z.of_nat (length bytes) <=? Z.of_nat (length buf))
  then Some (take (Z.to_nat ofs) buf ++ bytes ++ drop (Z.to_nat ofs + length bytes) buf)
  else None.

(** ** Data *)

(** [eth_client_rt_hdl], [wlan_client_rt_hdl] *)
Record client_rt_hdl := { rt_rule_hdl_v4 : Z; rt_rule_hdl_v6 : list Z; rt_rule_hdl_v6_wan : list Z }.

(** [ipa_eth_client], [ipa_wlan_client] *)
Record ipa_client (X : Type) := {
  mac : list Z;
  v4_addr : Z;
  v6_addr : list v6addr;
  hdr_hdl_v4 : Z;
  hdr_hdl_v6 : Z;
  route_rule_set_v4 : bool;
  route_rule_set_v6 : nat;
  ipv4_set : bool;
  ipv6_set : nat;
  ipv4_header_set : bool;
  ipv6_header_set : bool;
  rt_hdl : list client_rt_hdl;
  extra : X
}.
Arguments Build_ipa_client {X}.
Arguments mac {X}. Arguments v4_addr {X}. Arguments v6_addr {X}.
Arguments hdr_hdl_v4 {X}. Arguments hdr_hdl_v6 {X}.
Arguments route_rule_set_v4 {X}. Arguments route_rule_set_v6 {X}.
Arguments ipv4_set {X}. Arguments ipv6_set {X}.
Arguments ipv4_header_set {X}. Arguments ipv6_header_set {X}.
Arguments rt_hdl {X}. Arguments extra {X}.

(** The object: fields of [IPACM_Iface] ([None] for a null [tx_prop]), the array
    and the number of clients; [own] has what only one class keeps. *)
Record client_iface (X Y : Type) := {
  ipa_if_num : nat;
  ip_type : option ipa_ip_type;
  tx_prop : option (list ipa_ioc_tx_intf_prop);
  client : option (list (ipa_client X));
  num_client : nat;
  header_name_count : nat;
  own : Y
}.
Arguments Build_client_iface {X Y}.
Arguments ipa_if_num {X Y}. Arguments ip_type {X Y}. Arguments tx_prop {X Y}. Arguments client {X Y}.
Arguments num_client {X Y}. Arguments header_name_count {X Y}. Arguments own {X Y}.

#[export] Instance client_rt_hdl_eta : Settable client_rt_hdl :=
  fun r => Build_client_rt_hdl (rt_rule_hdl_v4 r) (rt_rule_hdl_v6 r) (rt_rule_hdl_v6_wan r).
#[export] Instance ipa_client_eta X : Settable (ipa_client X) :=
  fun r => Build_ipa_client (mac r) (v4_addr r) (v6_addr r) (hdr_hdl_v4 r) (hdr_hdl_v6 r)
    (route_rule_set_v4 r) (route_rule_set_v6 r) (ipv4_set r) (ipv6_set r) (ipv4_header_set r)
    (ipv6_header_set r) (rt_hdl r) (extra r).
#[export] Instance client_iface_eta X Y : Settable (client_iface X Y) :=
  fun r => Build_client_iface (ipa_if_num r) (ip_type r) (tx_prop r) (client r) (num_client r)
    (header_name_count r) (own r).

(** A slot of an array from [calloc], for [n] tx properties. *)
Definition client_zero {X} (n : nat) (x : X) : ipa_client X :=
  {| mac := replicate IPA_MAC_ADDR_SIZE 0; v4_addr := 0; v6_addr := replicate IPV6_NUM_ADDR (0, 0, 0, 0);
     hdr_hdl_v4 := 0; hdr_hdl_v6 := 0; route_rule_set_v4 := false; route_rule_set_v6 := 0;
     ipv4_set := false; ipv6_set := 0; ipv4_header_set := false; ipv6_header_set := false;
     rt_hdl := replicate n {| rt_rule_hdl_v4 := 0; rt_rule_hdl_v6 := replicate IPV6_NUM_ADDR 0;
                              rt_rule_hdl_v6_wan := replicate IPV6_NUM_ADDR 0 |};
     extra := x |}.

(** An array assignment that fails outside the array. *)
Definition store {A} (i : nat) (x : A) (l : list A) : option (list A) :=
  if (i <? length l)%nat then Some (<[i := x]> l) else None.

Section table.
Context {X Y K E : Type} `{IpaKernel K, LanEnv E} (fds : ipa_fds).
Implicit Types (o : client_iface X Y) (c : ipa_client X).

Abbreviation method := (M (client_iface X Y * (K * E))).

(** [get_eth_client_index], [get_wlan_client_index]: [None] is
    [IPACM_INVALID_INDEX]. *)
Definition clients_of o : list (ipa_client X) := take (num_client o) (default [] (client o)).
Definition get_client_index (mac_addr : list Z) o : option nat :=
  find_index (fun c => bool_decide (mac c = mac_addr)) (clients_of o).

(** Reading and assigning through [get_client_memptr(client, i)]. *)
Definition get_client (i : nat) : method (ipa_client X) :=
  let* o := get_obj in deref (client o ≫= (.!! i)).
Definition set_client (i : nat) (f : ipa_client X -> ipa_client X) : method unit :=
  let* c := get_client i in
  upd_obj (fun o => o <| client := alter f i <$> client o |>).

(** The number of tx properties of [iface_query] and [tx_prop]. *)
Definition num_tx_props o : nat := length (default [] (tx_prop o)).
Definition get_tx (k : nat) : method ipa_ioc_tx_intf_prop :=
  let* o := get_obj in deref (tx_prop o ≫= (.!! k)).

(** ** Headers *)

(** The name of a header: the index of the interface, a fixed part and the
    running number; [None] when it does not fit. *)
Definition header_name (base : string) o : option string :=
  let name := strlcpy (snprintf_index (ipa_if_num o)) IPA_RESOURCE_NAME_MAX in
  let '(r, name) := strlcat name base IPA_RESOURCE_NAME_MAX in
  if (IPA_RESOURCE_NAME_MAX <? r)%nat then None
  else
    let '(r, name) := strlcat name (snprintf_index (header_name_count o)) IPA_RESOURCE_NAME_MAX in
    if (IPA_RESOURCE_NAME_MAX <? r)%nat then None else Some name.

(** Copy the template of [t] into the buffer [buf] of the command, let [fill]
    complete it, and add it: [None] is the jump to [fail]. *)
Definition add_full_header (base : string) (fill : ipa_ioc_copy_hdr -> list Z -> method (list Z))
    (buf : list Z) (t : ipa_ioc_tx_intf_prop) : method (option (Z * list Z)) :=
  let* r := hw (CopyHeader fds (hdr_name t)) in
  let '(ok, c) := r in
  if negb ok then ret None
  else if IPA_HDR_MAX_SIZE <? ch_hdr_len c then ret None
  else
    let* buf := deref (write_bytes 0 (take (Z.to_nat (ch_hdr_len c)) (ch_hdr c)) buf) in
    let* buf := fill c buf in
    let* o := get_obj in
    match header_name base o with
    | None => ret None
    | Some name =>
        let* r := hw (AddHeader fds {| ha_name := name; ha_hdr := buf; ha_hdr_len := ch_hdr_len c |}) in
        let '(ok, out) := r in
        if negb ok || negb (out_status out =? 0) then ret None else ret (Some (out_hdl out, buf))
    end.

(** One of the two loops over the tx properties of the header set-up: the first
    property of the IP type gets its header, stored by [set]. *)
Definition init_header (ip : ipa_ip_type) (base : string) (fill : ipa_ioc_copy_hdr -> list Z -> method (list Z))
    (set : Z -> ipa_client X -> ipa_client X) (i : nat) (buf : list Z) : method (option (list Z)) :=
  let* o := get_obj in
  match List.find (fun t => bool_decide (tx_ip t = ip)) (default [] (tx_prop o)) with
  | None => ret (Some buf)
  | Some t =>
      let* r := add_full_header base fill buf t in
      match r with
      | None => ret None
      | Some (hdl, buf) => set_client i (set hdl) >> ret (Some buf)
      end
  end.

Definition set_hdr_v4 (h : Z) c : ipa_client X := c <| hdr_hdl_v4 := h |> <| ipv4_header_set := true |>.
Definition set_hdr_v6 (h : Z) c : ipa_client X := c <| hdr_hdl_v6 := h |> <| ipv6_header_set := true |>.

(** The two loops of [handle_eth_hdr_init] and [handle_wlan_client_init_ex], which
    work in one buffer from [calloc]: [false] is the jump to [fail]. *)
Definition init_headers (base_v4 base_v6 : string) (fill : ipa_ioc_copy_hdr -> list Z -> method (list Z))
    (i : nat) : method bool :=
  let* r := init_header IPA_IP_v4 base_v4 fill set_hdr_v4 i (replicate (Z.to_nat IPA_HDR_MAX_SIZE) 0) in
  match r with
  | None => ret false
  | Some buf =>
      let* r := init_header IPA_IP_v6 base_v6 fill set_hdr_v6 i buf in
      ret (match r with Some _ => true | None => false end)
  end.

(** The record of a new client, which is then counted. *)
Definition init_flags c : ipa_client X :=
  c <| route_rule_set_v4 := false |> <| route_rule_set_v6 := 0%nat |> <| ipv4_set := false |> <| ipv6_set := 0%nat |>.

Definition count_client : method unit :=
  upd_obj (fun o => o <| num_client := S (num_client o) |> <| header_name_count := S (header_name_count o) |>).

(** ** Routing rules *)

(** [delete_eth_rtrules], [delete_default_qos_rtrules] *)
Definition delete_rt_v4 (i k : nat) : method (option Z) :=
  let* t := get_tx k in
  let* c := get_client i in
  if bool_decide (tx_ip t = IPA_IP_v4) && route_rule_set_v4 c then
    let* h := deref (rt_hdl c !! k) in
    let* ok := hw (DeleteRoutingHdl fds (rt_rule_hdl_v4 h) IPA_IP_v4) in
    ret (if (ok : bool) then None else Some IPACM_FAILURE)
  else ret None.

Definition delete_rt_v6_one (i k num_v6 : nat) : method (option Z) :=
  let* c := get_client i in
  let* h := deref (rt_hdl c !! k) in
  let* r := deref (rt_rule_hdl_v6 h !! num_v6) in
  let* ok := hw (DeleteRoutingHdl fds r IPA_IP_v6) in
  if negb ok then ret (Some IPACM_FAILURE)
  else
    let* r := deref (rt_rule_hdl_v6_wan h !! num_v6) in
    let* ok := hw (DeleteRoutingHdl fds r IPA_IP_v6) in
    ret (if (ok : bool) then None else Some IPACM_FAILURE).

Definition delete_rt_v6 (i k : nat) : method (option Z) :=
  let* t := get_tx k in
  let* c := get_client i in
  if bool_decide (tx_ip t = IPA_IP_v6) && negb (route_rule_set_v6 c =? 0)%nat
  then for_each (delete_rt_v6_one i k) (seq 0 (route_rule_set_v6 c))
  else ret None.

Definition delete_rtrules (i : nat) (iptype : ipa_ip_type) : method Z :=
  let* o := get_obj in
  let ks := seq 0 (num_tx_props o) in
  match iptype with
  | IPA_IP_v4 =>
      let* r := for_each (delete_rt_v4 i) ks in
      match r with
      | Some r => ret r
      | None => set_client i (fun c => c <| route_rule_set_v4 := false |>) >> ret IPACM_SUCCESS
      end
  | IPA_IP_v6 =>
      let* r := for_each (delete_rt_v6 i) ks in
      match r with
      | Some r => ret r
      | None => set_client i (fun c => c <| route_rule_set_v6 := 0%nat |>) >> ret IPACM_SUCCESS
      end
  | IPA_IP_MAX => ret IPACM_SUCCESS
  end.
(** [handle_eth_client_route_rule], [handle_wlan_client_route_rule]: the rules of
    a client.  [odu] is the header that replaces the client's in the IPv4 rule of
    an ODU interface; the IPv6 rules send local
    traffic to the processor and traffic from the WAN to the client. *)
Definition ones32 : Z := 4294967295.

Definition v4_rule (hdr : Z) (t : ipa_ioc_tx_intf_prop) c : ipa_rt_rule :=
  let a := tx_attrib t in
  {| rt_dst := dst_pipe t; rt_hdr_hdl := hdr; rt_hdr_proc_ctx_hdl := 0;
     rt_attrib := a <| attrib_mask := Z.lor (attrib_mask a) IPA_FLT_DST_ADDR |>
                    <| u_v4 := u_v4 a <| u_dst_addr := v4_addr c |> <| u_dst_addr_mask := ones32 |> |> |}.

Definition dst_v6 (addr : v6addr) (a : ipa_rule_attrib) : ipa_rule_attrib :=
  a <| attrib_mask := Z.lor (attrib_mask a) IPA_FLT_DST_ADDR |>
    <| u_v6 := u_v6 a <| u_dst_addr := addr |> <| u_dst_addr_mask := (ones32, ones32, ones32, ones32) |> |>.

Definition v6_lan_rule (addr : v6addr) : ipa_rt_rule :=
  {| rt_dst := IPA_CLIENT_APPS_LAN_CONS; rt_hdr_hdl := 0; rt_hdr_proc_ctx_hdl := 0;
     rt_attrib := dst_v6 addr attrib_zero |}.

Definition v6_wan_rule (t : ipa_ioc_tx_intf_prop) c (addr : v6addr) : ipa_rt_rule :=
  {| rt_dst := dst_pipe t; rt_hdr_hdl := hdr_hdl_v6 c; rt_hdr_proc_ctx_hdl := 0;
     rt_attrib := dst_v6 addr (tx_attrib t) |}.

(** Add one rule: its handle, or [None] if the call fails. *)
Definition add_rt (name : string) (ip : ipa_ip_type) (r : ipa_rt_rule) : method (option Z) :=
  let* x := hw (AddRoutingRule fds {| rt_tbl_name := name; rt_ip := ip; rt_rules := [r] |}) in
  let '(ok, out) := x in
  if negb ok then ret None else let* out := deref (out !! 0%nat) in ret (Some (out_hdl out)).

(** [client->rt_hdl[k]] changed by [f], which fails outside its arrays. *)
Definition set_rt_hdl (i k : nat) (f : client_rt_hdl -> option client_rt_hdl) : method unit :=
  let* c := get_client i in
  let* h := deref (rt_hdl c !! k) in
  let* h := deref (f h) in
  set_client i (fun c => c <| rt_hdl := <[k := h]> (rt_hdl c) |>).

Definition put_v4 (x : Z) (h : client_rt_hdl) : option client_rt_hdl := Some (h <| rt_rule_hdl_v4 := x |>).
Definition put_v6 (j : nat) (x : Z) (h : client_rt_hdl) : option client_rt_hdl :=
  l ← store j x (rt_rule_hdl_v6 h); Some (h <| rt_rule_hdl_v6 := l |>).
Definition put_v6_wan (j : nat) (x : Z) (h : client_rt_hdl) : option client_rt_hdl :=
  l ← store j x (rt_rule_hdl_v6_wan h); Some (h <| rt_rule_hdl_v6_wan := l |>).

Definition v4_hdr (odu : option Z) c : Z := default (hdr_hdl_v4 c) odu.

Definition route_v4 (odu : option Z) (i k : nat) (t : ipa_ioc_tx_intf_prop) : method (option Z) :=
  let* c := get_client i in
  let* r := add_rt V4_LAN_ROUTE_TABLE_NAME IPA_IP_v4 (v4_rule (v4_hdr odu c) t c) in
  match r with
  | None => ret (Some IPACM_FAILURE)
  | Some h => set_rt_hdl i k (put_v4 h) >> ret None
  end.

Definition route_v6 (i k : nat) (t : ipa_ioc_tx_intf_prop) (v6_num : nat) : method (option Z) :=
  let* c := get_client i in
  let* addr := deref (v6_addr c !! v6_num) in
  let* r := add_rt V6_COMMON_ROUTE_TABLE_NAME IPA_IP_v6 (v6_lan_rule addr) in
  match r with
  | None => ret (Some IPACM_FAILURE)
  | Some h =>
      set_rt_hdl i k (put_v6 v6_num h) >>
      let* r := add_rt V6_WAN_ROUTE_TABLE_NAME IPA_IP_v6 (v6_wan_rule t c addr) in
      match r with
      | None => ret (Some IPACM_FAILURE)
      | Some h => set_rt_hdl i k (put_v6_wan v6_num h) >> ret None
      end
  end.

(** The loop over the tx properties: only those of the IP type get rules. *)
Definition route_tx (odu : option Z) (i : nat) (iptype : ipa_ip_type) (k : nat) : method (option Z) :=
  let* t := get_tx k in
  if negb (bool_decide (iptype = tx_ip t)) then ret None
  else if bool_decide (iptype = IPA_IP_v4) then route_v4 odu i k t
  else
    let* c := get_client i in
    for_each (route_v6 i k t) (seq (route_rule_set_v6 c) (ipv6_set c - route_rule_set_v6 c)).

(** Rules are to be added: those of the IP type are not set yet. *)
Definition needs_routes (iptype : ipa_ip_type) c : bool :=
  match iptype with
  | IPA_IP_v4 => negb (route_rule_set_v4 c) && ipv4_set c
  | IPA_IP_v6 => (route_rule_set_v6 c <? ipv6_set c)%nat
  | IPA_IP_MAX => false
  end.

Definition mark_routes (iptype : ipa_ip_type) c : ipa_client X :=
  if bool_decide (iptype = IPA_IP_v4) then c <| route_rule_set_v4 := true |>
  else c <| route_rule_set_v6 := ipv6_set c |>.

Definition add_routes (odu : option Z) (i : nat) (iptype : ipa_ip_type) : method Z :=
  let* ok := hw malloc in
  if negb ok then ret IPACM_FAILURE
  else
    let* o := get_obj in
    let* r := for_each (route_tx odu i iptype) (seq 0 (num_tx_props o)) in
    match r with
    | Some r => ret r
    | None => set_client i (mark_routes iptype) >> ret IPACM_SUCCESS
    end.

(** ** Addresses *)

Definition v6_zero (a : v6addr) : bool :=
  let '(a0, a1, a2, a3) := a in (a0 =? 0) && (a1 =? 0) && (a2 =? 0) && (a3 =? 0).

(** [handle_eth_client_ipaddr], [handle_wlan_client_ipaddr] *)
Definition client_ipaddr (data : ipacm_event_data_all) : method Z :=
  let* o := get_obj in
  match get_client_index (da_mac_addr data) o with
  | None => ret IPACM_FAILURE
  | Some i =>
      let* c := get_client i in
      if bool_decide (da_iptype data = IPA_IP_v4) then
        let addr := da_ipv4_addr data in
        if addr =? 0 then ret IPACM_FAILURE
        else if negb (ipv4_set c) then
          set_client i (fun c => c <| v4_addr := addr |> <| ipv4_set := true |>) >> ret IPACM_SUCCESS
        else if addr =? v4_addr c then ret IPACM_FAILURE
        else
          call (ct_neigh_del (v4_addr c)) >>
          delete_rtrules i IPA_IP_v4 >>
          set_client i (fun c => c <| route_rule_set_v4 := false |> <| v4_addr := addr |>) >>
          ret IPACM_SUCCESS
      else
        let addr := da_ipv6_addr data in
        if v6_zero addr then ret IPACM_SUCCESS
        else if (ipv6_set c <? IPV6_NUM_ADDR)%nat then
          if existsb (fun a => bool_decide (a = addr)) (take (ipv6_set c) (v6_addr c)) then ret IPACM_FAILURE
          else
            let* l := deref (store (ipv6_set c) addr (v6_addr c)) in
            set_client i (fun c => c <| v6_addr := l |> <| ipv6_set := S (ipv6_set c) |>) >> ret IPACM_SUCCESS
        else ret IPACM_FAILURE
  end.

(** ** Removal of a record *)

(** The body of the loop that moves the records down: [c] is overwritten by its
    neighbour [next], the IPv6 arrays as far as they are in use; [mv] gives what
    becomes of the class's own fields. *)
Definition copy_first {A} (n : nat) (next old : list A) : list A := take n next ++ drop n old.

Definition move_rt (n : nat) (next old : client_rt_hdl) : client_rt_hdl :=
  {| rt_rule_hdl_v4 := rt_rule_hdl_v4 next;
     rt_rule_hdl_v6 := copy_first n (rt_rule_hdl_v6 next) (rt_rule_hdl_v6 old);
     rt_rule_hdl_v6_wan := copy_first n (rt_rule_hdl_v6_wan next) (rt_rule_hdl_v6_wan old) |}.

Definition move_client (mv : X -> X -> X) (next c : ipa_client X) : ipa_client X :=
  {| mac := mac next; v4_addr := v4_addr next;
     v6_addr := copy_first (ipv6_set next) (v6_addr next) (v6_addr c);
     hdr_hdl_v4 := hdr_hdl_v4 next; hdr_hdl_v6 := hdr_hdl_v6 next;
     route_rule_set_v4 := route_rule_set_v4 next; route_rule_set_v6 := route_rule_set_v6 next;
     ipv4_set := ipv4_set next; ipv6_set := ipv6_set next;
     ipv4_header_set := ipv4_header_set next; ipv6_header_set := ipv6_header_set next;
     rt_hdl := zip_with (move_rt (route_rule_set_v6 next)) (rt_hdl next) (rt_hdl c);
     extra := mv (extra next) (extra c) |}.

Definition move_down (mv : X -> X -> X) (i : nat) : method (option Empty_set) :=
  let* next := get_client (i + 1) in set_client i (move_client mv next) >> ret None.

(** The reset of the record that goes, [release] for the class's own fields, and
    the loop over the records behind it. *)
Definition reset_client c : ipa_client X :=
  c <| ipv4_set := false |> <| ipv6_set := 0%nat |> <| ipv4_header_set := false |>
    <| ipv6_header_set := false |> <| route_rule_set_v4 := false |> <| route_rule_set_v6 := 0%nat |>.

Definition release_extra (release : X -> option X) (i : nat) : method unit :=
  let* c := get_client i in
  let* x := deref (release (extra c)) in
  set_client i (fun c => c <| extra := x |>).

Definition remove_client (release : X -> option X) (mv : X -> X -> X) (i : nat) : method unit :=
  let* o := get_obj in
  set_client i reset_client >>
  release_extra release i >>
  for_each (move_down mv) (seq i (num_client o - 1 - i)) >>
  upd_obj (fun o => o <| num_client := (num_client o - 1)%nat |>).

(** Take a client's headers out of the hardware: [true] if all went well. *)
Definition delete_headers (i : nat) : method bool :=
  let* c := get_client i in
  let* ok := if ipv4_header_set c then hw (DeleteHeaderHdl fds (hdr_hdl_v4 c)) else ret true in
  if negb ok then ret false
  else
    (if ipv4_header_set c then set_client i (fun c => c <| ipv4_header_set := false |>) else ret tt) >>
    let* ok := if ipv6_header_set c then hw (DeleteHeaderHdl fds (hdr_hdl_v6 c)) else ret true in
    if negb ok then ret false
    else
      (if ipv6_header_set c then set_client i (fun c => c <| ipv6_header_set := false |>) else ret tt) >>
      ret true.

(** The part of the two down handlers that deals with the hardware: [None] when
    the routing rules and headers are gone, a result when a step fails. *)
Definition withdraw_client (i : nat) : method (option Z) :=
  let* c := get_client i in
  (if ipv4_set c then call (ct_neigh_del (v4_addr c)) else ret tt) >>
  let* r := delete_rtrules i IPA_IP_v4 in
  if negb (r =? 0) then ret (Some IPACM_FAILURE)
  else
    let* r := delete_rtrules i IPA_IP_v6 in
    if negb (r =? 0) then ret (Some IPACM_FAILURE)
    else
      let* ok := delete_headers i in
      ret (if (ok : bool) then None else Some IPACM_FAILURE).

(** ** Messages to the LAN-to-LAN offload

    [this] is the interface as the messages give it; the fields that are not set
    are zero. *)
Definition lan_client_v4 (this addr : Z) : @ipacm_event_lan_client Z :=
  {| lc_iptype := IPA_IP_v4; lc_ipv4_addr := addr; lc_ipv6_addr := (0, 0, 0, 0);
     lc_mac_addr := replicate IPA_MAC_ADDR_SIZE 0; lc_p_iface := Some this |}.
Definition lan_client_v6 (this : Z) (addr : v6addr) : @ipacm_event_lan_client Z :=
  {| lc_iptype := IPA_IP_v6; lc_ipv4_addr := 0; lc_ipv6_addr := addr;
     lc_mac_addr := replicate IPA_MAC_ADDR_SIZE 0; lc_p_iface := Some this |}.

(** The interface has addresses of the type. *)
Definition iface_has (ip : ipa_ip_type) (t : option ipa_ip_type) : bool :=
  bool_decide (t = Some ip) || bool_decide (t = Some IPA_IP_MAX).

(** [handle_lan2lan_client_active], which both classes use. *)
Definition handle_lan2lan_client_active (this : Z) (data : ipacm_event_data_all) (event : ipa_cm_event_id) : method Z :=
  let* o := get_obj in
  if bool_decide (da_iptype data = IPA_IP_v4) && negb (iface_has IPA_IP_v4 (ip_type o)) then ret IPACM_FAILURE
  else if bool_decide (da_iptype data = IPA_IP_v6) && negb (iface_has IPA_IP_v6 (ip_type o)) then ret IPACM_FAILURE
  else
    let* ok := hw malloc in
    if negb ok then ret IPACM_FAILURE
    else
      call (fun e => Some (post_lan_client event
        {| lc_iptype := da_iptype data; lc_ipv4_addr := da_ipv4_addr data; lc_ipv6_addr := da_ipv6_addr data;
           lc_mac_addr := da_mac_addr data; lc_p_iface := Some this |} e)) >>
      ret IPACM_SUCCESS.

(** Allocate and post one message. *)
Definition post_one (event : ipa_cm_event_id) (d : @ipacm_event_lan_client Z) : method (option Z) :=
  let* ok := hw malloc in
  if negb ok then ret (Some IPACM_FAILURE)
  else call (fun e => Some (post_lan_client event d e)) >> ret None.

(** A client without addresses of the type. *)
Definition reset_addr (iptype : ipa_ip_type) c : ipa_client X :=
  if bool_decide (iptype = IPA_IP_v4) then c <| ipv4_set := false |> else c <| ipv6_set := 0%nat |>.

End table.
