(* ===== verification/ClientProps.v ===== *)
(** * The client table and the hardware

    What a record says is installed, and that the methods of ClientTable.v keep
    it so: every routing rule and header a record names is in the hardware, with
    the contents the record gives, and no two records name the same one.  The
    lemmas are stated over [wp], under a kernel that deletes what it is asked to
    and may fail to add. *)
From S2P Require Import Prelude Defs Heap Config LanToLan IpaDrv StateM ClientTable.
From stdpp Require Import base list gmap strings.
From Stdlib Require Import ZArith Lia.

Open Scope Z_scope.
Open Scope method_scope.

#[export] Instance client_rt_hdl_inhabited : Inhabited client_rt_hdl := populate (Build_client_rt_hdl 0 [] []).

(** ** Lists of what is installed *)

Definition rt_entry : Type := (ipa_ip_type * Z) * (string * ipa_rt_rule).

(** The rules [rs] are in the hardware, each under a handle of its own. *)
Definition installed (rs : list rt_entry) (h : ipa_hw) : Prop :=
  NoDup rs.*1 /\ forall k r, (k, r) ∈ rs -> hw_rts h !! k = Some r /\ k.2 <> 0.

Definition installed_hdrs (l : list Z) (h : ipa_hw) : Prop :=
  NoDup l /\ forall x, x ∈ l -> x <> 0 /\ is_Some (hw_hdrs h !! x).

#[export] Instance installed_perm : Proper ((≡ₚ) ==> (=) ==> iff) installed.
Proof.
  intros rs rs' Hp h ? <-. unfold installed. rewrite Hp. split; intros [Hn Hi]; (split; [done|]);
    intros k r Hin; apply Hi; by rewrite Hp in *.
Qed.

#[export] Instance installed_hdrs_perm : Proper ((≡ₚ) ==> (=) ==> iff) installed_hdrs.
Proof.
  intros l l' Hp h ? <-. unfold installed_hdrs. rewrite Hp. split; intros [Hn Hi]; (split; [done|]);
    intros x Hin; apply Hi; by rewrite Hp in *.
Qed.

Lemma installed_nil h : installed [] h.
Proof. split; [constructor|]. intros k r []%not_elem_of_nil. Qed.

Lemma installed_app rs1 rs2 h : installed (rs1 ++ rs2) h -> installed rs1 h /\ installed rs2 h.
Proof.
  unfold installed. rewrite fmap_app. intros [(H1 & _ & H2)%NoDup_app Hi].
  split; (split; [done|]); intros k r Hin; apply Hi, elem_of_app; auto.
Qed.

(** New rules next to those there are. *)
Lemma installed_adds rs new h h' : installed rs h -> adds_rts new h h' -> installed (new ++ rs) h'.
Proof.
  intros [Hn Hi] Ha. destruct Ha as (Hn' & Hf & Hh). assert (adds_rts new h h') as Ha by done. split.
  - rewrite fmap_app. apply NoDup_app. split_and!; [done| |done]. intros k Hk Hk'.
    apply Hf in Hk as [Hk _]. apply list_elem_of_fmap in Hk' as ([k' r] & -> & Hin).
    apply Hi in Hin as [? _]. simpl in *. congruence.
  - intros k r [Hin|Hin]%elem_of_app.
    + split; [by eapply adds_rts_lookup|]. apply (Hf k). by apply (list_elem_of_fmap_2 fst) in Hin.
    + destruct (Hi k r Hin). split; [by eapply adds_rts_old|done].
Qed.

(** Deleting some of the rules leaves the others. *)
Lemma installed_dels rs old h h' : installed (old ++ rs) h -> dels_rts old.*1 h h' -> installed rs h'.
Proof.
  intros [Hn Hi] Hd. rewrite fmap_app in Hn. apply NoDup_app in Hn as (_ & Hdis & Hn). split; [done|].
  intros k r Hin. destruct (Hi k r) as [Hk H0]; [apply elem_of_app; by right|]. split; [|done].
  rewrite (dels_rts_lookup _ _ _ _ Hd). rewrite decide_False; [done|]. intros Hold.
  apply (Hdis k Hold). by apply (list_elem_of_fmap_2 fst) in Hin.
Qed.

Lemma installed_ext rs h h' : hw_rts h' = hw_rts h -> installed rs h -> installed rs h'.
Proof. intros Hh [Hn Hi]. split; [done|]. by rewrite Hh. Qed.

Lemma installed_hdrs_ext l h h' : hw_hdrs h' = hw_hdrs h -> installed_hdrs l h -> installed_hdrs l h'.
Proof. intros Hh [Hn Hi]. split; [done|]. by rewrite Hh. Qed.

Lemma installed_hdrs_add l x a h h' :
  installed_hdrs l h -> x <> 0 -> hw_hdrs h !! x = None -> hw_hdrs h' = <[x := a]> (hw_hdrs h) ->
  installed_hdrs (x :: l) h'.
Proof.
  intros [Hn Hi] H0 Hx Hh. split.
  - constructor; [|done]. intros Hin%Hi. destruct Hin as [_ [? ?]]. congruence.
  - intros y [->|Hy]%elem_of_cons; rewrite Hh.
    + split; [done|]. rewrite lookup_insert_eq. eauto.
    + destruct (Hi y Hy) as [? ?]. split; [done|]. rewrite lookup_insert_ne; [done|].
      intros ->. by destruct (Hi y Hy) as [_ [? ?]]; congruence.
Qed.

Lemma installed_hdrs_del l x h h' :
  installed_hdrs (x :: l) h -> hw_hdrs h' = delete x (hw_hdrs h) -> installed_hdrs l h'.
Proof.
  intros [Hn Hi] Hh. apply NoDup_cons in Hn as [Hx Hn]. split; [done|]. intros y Hy.
  destruct (Hi y) as [? ?]; [by right|]. split; [done|]. rewrite Hh, lookup_delete_ne; [done|].
  by intros ->.
Qed.

(** The lists [f a], ..., [f (a + n - 1)], joined. *)
Definition range {A} (f : nat -> list A) (a n : nat) : list A := concat (f <$> seq a n).
Arguments range : simpl never.

Lemma range_S {A} (f : nat -> list A) a n : range f a (S n) = range f a n ++ f (a + n)%nat.
Proof. unfold range. rewrite seq_S, fmap_app, concat_app. simpl. by rewrite app_nil_r. Qed.

Lemma range_split {A} (f : nat -> list A) a n m : range f a (n + m) = range f a n ++ range f (a + n) m.
Proof. unfold range. by rewrite seq_app, fmap_app, concat_app. Qed.

Lemma elem_of_range {A} (f : nat -> list A) a n j x : (a <= j < a + n)%nat -> x ∈ f j -> x ∈ range f a n.
Proof.
  intros Hj Hx. apply list_elem_of_In, in_concat. exists (f j). split; [|by apply list_elem_of_In].
  apply in_map, in_seq. lia.
Qed.

(** ** What a record names *)

Section table.
Context {X Y K E : Type} `{HK : IpaKernelOk K} `{HE : LanEnv E}.
Implicit Types (o : client_iface X Y) (c : ipa_client X) (h : client_rt_hdl) (t : ipa_ioc_tx_intf_prop)
  (tx : list ipa_ioc_tx_intf_prop) (odu : option Z).

(** A tx property of the IP type, which gets a header. *)
Definition has_tx (ip : ipa_ip_type) tx : bool := existsb (fun t => bool_decide (tx_ip t = ip)) tx.

Record client_wf tx c : Prop := {
  wf_v6_addr : length (v6_addr c) = IPV6_NUM_ADDR;
  wf_rt_hdl : length (rt_hdl c) = length tx;
  wf_v6_hdl : Forall (fun h => length (rt_rule_hdl_v6 h) = IPV6_NUM_ADDR /\
                               length (rt_rule_hdl_v6_wan h) = IPV6_NUM_ADDR) (rt_hdl c);
  wf_v6_set : (ipv6_set c <= IPV6_NUM_ADDR)%nat;
  wf_v6_routes : (route_rule_set_v6 c <= ipv6_set c)%nat;
  wf_v4_routes : route_rule_set_v4 c = true -> ipv4_set c = true;
  wf_v4_header : ipv4_header_set c = true -> has_tx IPA_IP_v4 tx = true;
  wf_v6_header : ipv6_header_set c = true -> has_tx IPA_IP_v6 tx = true
}.

Definition v4_entry odu c t h : list rt_entry :=
  if bool_decide (tx_ip t = IPA_IP_v4)
  then [((IPA_IP_v4, rt_rule_hdl_v4 h), (V4_LAN_ROUTE_TABLE_NAME, v4_rule (v4_hdr odu c) t c))] else [].

Definition v6_entry c t h (j : nat) : list rt_entry :=
  [((IPA_IP_v6, rt_rule_hdl_v6 h !!! j), (V6_COMMON_ROUTE_TABLE_NAME, v6_lan_rule (v6_addr c !!! j)));
   ((IPA_IP_v6, rt_rule_hdl_v6_wan h !!! j), (V6_WAN_ROUTE_TABLE_NAME, v6_wan_rule t c (v6_addr c !!! j)))].

Definition v6_entries c (a n : nat) t h : list rt_entry :=
  if bool_decide (tx_ip t = IPA_IP_v6) then range (v6_entry c t h) a n else [].

Definition v4_rules odu tx c : list rt_entry := concat (zip_with (v4_entry odu c) tx (rt_hdl c)).
Definition v6_rules (a n : nat) tx c : list rt_entry := concat (zip_with (v6_entries c a n) tx (rt_hdl c)).

(** The routing rules and the headers of a client. *)
Definition client_rules odu tx c : list rt_entry :=
  (if route_rule_set_v4 c then v4_rules odu tx c else []) ++ v6_rules 0 (route_rule_set_v6 c) tx c.

Definition client_hdrs c : list Z :=
  (if ipv4_header_set c then [hdr_hdl_v4 c] else []) ++ (if ipv6_header_set c then [hdr_hdl_v6 c] else []).

Definition all_rules odu o : list rt_entry :=
  concat (client_rules odu (default [] (tx_prop o)) <$> clients_of o).
Definition all_hdrs o : list Z := concat (client_hdrs <$> clients_of o).

Record table_inv odu (cap : nat) o (h : ipa_hw) : Prop := {
  ti_array : exists cs, client o = Some cs /\ length cs = cap /\ Forall (client_wf (default [] (tx_prop o))) cs;
  ti_num : (num_client o <= cap)%nat;
  ti_rules : installed (all_rules odu o) h;
  ti_hdrs : installed_hdrs (all_hdrs o) h
}.

(** What a client is to the rest of the program. *)
Definition client_view odu tx c : list Z * option Z * list v6addr * list rt_entry * list Z :=
  (mac c, (if ipv4_set c then Some (v4_addr c) else None), take (ipv6_set c) (v6_addr c),
   client_rules odu tx c, client_hdrs c).

(** ** Slots *)

Definition slot o (i : nat) : option (ipa_client X) := client o ≫= (.!! i).

Lemma slot_some o i c : slot o i = Some c -> exists cs, client o = Some cs /\ cs !! i = Some c.
Proof. unfold slot. destruct (client o) as [cs|]; [eauto|done]. Qed.

Definition with_slot (f : ipa_client X -> ipa_client X) i o : client_iface X Y :=
  o <| client := alter f i <$> client o |>.

Lemma slot_with f i o : slot (with_slot f i o) i = f <$> slot o i.
Proof. unfold slot, with_slot. destruct (client o) as [cs|]; simpl; [apply list_lookup_alter_eq|done]. Qed.

Lemma with_slot_ext f g i o :
  (forall c, slot o i = Some c -> f c = g c) -> with_slot f i o = with_slot g i o.
Proof.
  intros Hfg. unfold with_slot, slot in *. destruct o as [a b tx cl n m y]. simpl in *. f_equal.
  destruct cl as [cs|]; [|done]. simpl in *. f_equal. apply list_eq. intros j.
  destruct (decide (i = j)) as [<-|Hne].
  - rewrite !list_lookup_alter_eq. destruct (cs !! i) as [c|]; [|done]. simpl. f_equal. by apply Hfg.
  - by rewrite !list_lookup_alter_ne.
Qed.

Lemma with_slot_with f g i o : with_slot g i (with_slot f i o) = with_slot (fun c => g (f c)) i o.
Proof.
  unfold with_slot. destruct o as [a b tx cl n m y]. simpl. f_equal. destruct cl as [cs|]; [|done].
  simpl. f_equal. apply list_alter_alter_eq.
Qed.

Lemma with_slot_id i o : with_slot (fun c => c) i o = o.
Proof.
  unfold with_slot. destruct o as [a b tx cl n m y]. simpl. f_equal. destruct cl as [cs|]; [|done].
  simpl. f_equal. apply list_alter_id. done.
Qed.

Lemma clients_of_with f i o :
  (i < num_client o)%nat -> clients_of (with_slot f i o) = alter f i (clients_of o).
Proof.
  intros Hi. unfold clients_of, with_slot. simpl. destruct (client o) as [cs|]; simpl; [|by rewrite take_nil].
  apply list_eq. intros j. destruct (decide (j < num_client o)%nat) as [Hj|Hj].
  - rewrite lookup_take_lt by done. destruct (decide (i = j)) as [<-|Hne].
    + rewrite !list_lookup_alter_eq, lookup_take_lt; done.
    + rewrite !list_lookup_alter_ne by done. by rewrite lookup_take_lt.
  - rewrite lookup_take_ge by lia. rewrite list_lookup_alter_ne by lia. by rewrite lookup_take_ge by lia.
Qed.

Lemma clients_of_slot o i c : slot o i = Some c -> (i < num_client o)%nat -> clients_of o !! i = Some c.
Proof.
  intros (cs & Hcs & Hi)%slot_some Hn. unfold clients_of. rewrite Hcs. simpl. by rewrite lookup_take_lt.
Qed.

Lemma concat_split {A} (g : ipa_client X -> list A) l i c :
  l !! i = Some c -> concat (g <$> l) ≡ₚ g c ++ concat (g <$> delete i l).
Proof. intros Hi. rewrite (delete_Permutation l i c Hi) at 1. done. Qed.

Lemma delete_alter_slot f i (l : list (ipa_client X)) : delete i (alter f i l) = delete i l.
Proof.
  revert i. induction l as [|x l IH]; intros [|i]; simpl; try done.
  change (x :: delete i (alter f i l) = x :: delete i l). by rewrite IH.
Qed.

Lemma all_rules_with odu f i o c :
  slot o i = Some c -> (i < num_client o)%nat ->
  exists rest, all_rules odu o ≡ₚ client_rules odu (default [] (tx_prop o)) c ++ rest /\
    all_rules odu (with_slot f i o) ≡ₚ client_rules odu (default [] (tx_prop o)) (f c) ++ rest.
Proof.
  intros Hs Hi. pose proof (clients_of_slot _ _ _ Hs Hi) as Hc. unfold all_rules.
  rewrite clients_of_with by done. simpl. eexists. split; [by apply concat_split|].
  rewrite (concat_split _ _ i (f c)); [by rewrite delete_alter_slot|]. rewrite list_lookup_alter_eq. by rewrite Hc.
Qed.

Lemma all_hdrs_with f i o c :
  slot o i = Some c -> (i < num_client o)%nat ->
  exists rest, all_hdrs o ≡ₚ client_hdrs c ++ rest /\ all_hdrs (with_slot f i o) ≡ₚ client_hdrs (f c) ++ rest.
Proof.
  intros Hs Hi. pose proof (clients_of_slot _ _ _ Hs Hi) as Hc. unfold all_hdrs.
  rewrite clients_of_with by done. eexists. split; [by apply concat_split|].
  rewrite (concat_split _ _ i (f c)); [by rewrite delete_alter_slot|]. rewrite list_lookup_alter_eq. by rewrite Hc.
Qed.
End table.

(** ** Steps *)

(** One step of a method: a bind, the current object, a return. *)
Ltac wstep :=
  lazymatch goal with
  | |- wp (bind _ _) _ _ => apply wp_bind
  | |- wp get_obj _ _ => apply wp_get_obj
  | |- wp (ret _) _ _ => apply wp_ret
  | |- wp (upd_obj _) _ _ => apply wp_upd_obj
  end; cbn beta iota.
Ltac wsteps := repeat wstep.

Section steps.
Context {X Y K E : Type} `{HK : IpaKernelOk K} `{HE : LanEnv E} (fds : ipa_fds).
Implicit Types (o : client_iface X Y) (c : ipa_client X) (k : K) (e : E) (t : ipa_ioc_tx_intf_prop).

Lemma wp_get_client i c (Q : ipa_client X -> client_iface X Y * (K * E) -> Prop) s :
  slot (fst s) i = Some c -> Q c s -> wp (get_client i) Q s.
Proof. intros Hs HQ. unfold get_client. wsteps. by apply (wp_deref _ c). Qed.

Lemma wp_set_client i c f (Q : unit -> client_iface X Y * (K * E) -> Prop) s :
  slot (fst s) i = Some c -> Q tt (with_slot f i (fst s), snd s) -> wp (set_client i f) Q s.
Proof. intros Hs HQ. unfold set_client. wsteps. apply (wp_get_client _ c); [done|]. by wsteps. Qed.

Lemma wp_get_tx n t (Q : ipa_ioc_tx_intf_prop -> client_iface X Y * (K * E) -> Prop) s :
  default [] (tx_prop (fst s)) !! n = Some t -> Q t s -> wp (get_tx n) Q s.
Proof.
  intros Ht HQ. unfold get_tx. wsteps. apply (wp_deref _ t); [|done].
  by destruct (tx_prop (fst s)).
Qed.

Lemma wp_add_rt name ip r (Q : option Z -> client_iface X Y * (K * E) -> Prop) o k e :
  (forall k', hw_of k' = hw_of k -> Q None (o, (k', e))) ->
  (forall h k', adds_rts [((ip, h), (name, r))] (hw_of k) (hw_of k') -> Q (Some h) (o, (k', e))) ->
  wp (add_rt fds name ip r) Q (o, (k, e)).
Proof.
  intros Hno Hyes. unfold add_rt. wstep. pose proof (AddRoutingRule_one fds name ip r k) as Ha. simpl in Ha.
  destruct (AddRoutingRule fds _ k) as [[ok out] k'] eqn:Er. eapply wp_hw; [done|].
  destruct ok; simpl.
  - destruct Ha as (h & -> & Ha). wstep. by eapply wp_deref; [done|]; wsteps; apply Hyes.
  - wsteps. by apply Hno.
Qed.

Section reliable.
Context `{!IpaReliable K fds}.

Lemma wp_del_rt ip h (Q : bool -> client_iface X Y * (K * E) -> Prop) o k e :
  h <> 0 ->
  (forall k', dels_rts [(ip, h)] (hw_of k) (hw_of k') -> Q true (o, (k', e))) ->
  wp (hw (DeleteRoutingHdl fds h ip)) Q (o, (k, e)).
Proof.
  intros H0 HQ. destruct (DeleteRoutingHdl_ok fds ip h k H0) as (k' & Hd & Hh).
  eapply wp_hw; [exact Hd|]. by apply HQ.
Qed.

Lemma wp_malloc (Q : bool -> client_iface X Y * (K * E) -> Prop) o k e :
  (forall k', hw_of k' = hw_of k -> Q true (o, (k', e))) -> wp (hw malloc) Q (o, (k, e)).
Proof.
  intros HQ. pose proof (ok_malloc k) as Hm. pose proof (rel_malloc k) as Hr.
  destruct (malloc k) as [ok k'] eqn:Em. simpl in *. subst ok. eapply wp_hw; [done|]. by apply HQ.
Qed.

(** ** Deleting a client's rules *)

Lemma concat_take_S {A} (l : list (list A)) n x :
  l !! n = Some x -> concat (take (S n) l) = concat (take n l) ++ x.
Proof. intros Hx. rewrite (take_S_r _ _ _ Hx), concat_app. simpl. by rewrite app_nil_r. Qed.

Lemma elem_concat_lookup {A} (l : list (list A)) n x y : l !! n = Some x -> y ∈ x -> y ∈ concat l.
Proof.
  intros Hn Hy. apply list_elem_of_In, in_concat. exists x.
  split; apply list_elem_of_In; [by eapply list_elem_of_lookup_2|done].
Qed.

Lemma delete_v4_ok odu o k e i c :
  slot o i = Some c -> client_wf (default [] (tx_prop o)) c ->
  (route_rule_set_v4 c = true -> forall kr, kr ∈ v4_rules odu (default [] (tx_prop o)) c -> kr.1.2 <> 0) ->
  wp (delete_rtrules fds i IPA_IP_v4) (fun r s' =>
    r = IPACM_SUCCESS /\
    (s').1 = with_slot (fun c => c <| route_rule_set_v4 := false |>) i o /\ (s').2.2 = e /\
    dels_rts (if route_rule_set_v4 c then v4_rules odu (default [] (tx_prop o)) c else []).*1
      (hw_of k) (hw_of (s').2.1)) (o, (k, e)).
Proof.
  intros Hs Hwf H0. set (tx := default [] (tx_prop o)) in *. unfold delete_rtrules. wsteps.
  set (parts := zip_with (v4_entry odu c) tx (rt_hdl c)).
  assert (length parts = num_tx_props o) as Hlen.
  { unfold parts. rewrite length_zip_with, (wf_rt_hdl _ _ Hwf). unfold num_tx_props. fold tx. lia. }
  apply (wp_for_seq _ _ _ (fun n s => fst s = o /\ (snd s).2 = e /\
    dels_rts (if route_rule_set_v4 c then concat (take n parts) else []).*1 (hw_of k) (hw_of (snd s).1))).
  - split_and!; [done|done|]. destruct (route_rule_set_v4 c); apply dels_rts_nil.
  - intros n [o1 [k1 e1]] Hn (Ho & He & Hd). simpl in *. subst o1 e1.
    destruct (lookup_lt_is_Some_2 parts n) as [part Hpart]; [lia|]. pose proof Hpart as Hpt.
    unfold parts in Hpt. apply lookup_zip_with_Some in Hpt as (t & h & Hpe & Ht & Hh).
    unfold delete_rt_v4. wstep. apply (wp_get_tx _ t); [done|]. wstep. apply (wp_get_client _ c); [done|].
    destruct (bool_decide (tx_ip t = IPA_IP_v4)) eqn:Hip, (route_rule_set_v4 c) eqn:Hset; simpl;
      try (wsteps; rewrite (concat_take_S _ _ _ Hpart), Hpe; unfold v4_entry; rewrite Hip; rewrite ?app_nil_r; done).
    1: { wstep. apply (wp_deref _ h); [done|]. wstep.
      assert ((IPA_IP_v4, rt_rule_hdl_v4 h, (V4_LAN_ROUTE_TABLE_NAME, v4_rule (v4_hdr odu c) t c)) ∈ part) as Hin
        by (rewrite Hpe; unfold v4_entry; rewrite Hip; left).
      apply wp_del_rt; [by apply (H0 eq_refl _ (elem_concat_lookup _ _ _ _ Hpart Hin))|]. intros k' Hk'. wsteps.
      split_and!; [done|done|]. rewrite (concat_take_S _ _ _ Hpart), fmap_app.
      eapply dels_rts_app; [done|]. rewrite Hpe. unfold v4_entry. by rewrite Hip. }
    all: by wsteps.
  - intros [o1 [k1 e1]] (Ho & He & Hd). simpl in *. subst o1. wstep. apply (wp_set_client _ c); [done|]. wsteps.
    split_and!; [done|done|done|]. rewrite take_ge in Hd by lia. done.
Qed.
(** A rule of the [j]-th address, as far as the arrays go. *)
Lemma v6_hdl_lookup tx c m h j :
  client_wf tx c -> rt_hdl c !! m = Some h -> (j < IPV6_NUM_ADDR)%nat ->
  rt_rule_hdl_v6 h !! j = Some (rt_rule_hdl_v6 h !!! j) /\
  rt_rule_hdl_v6_wan h !! j = Some (rt_rule_hdl_v6_wan h !!! j).
Proof.
  intros Hwf Hm Hj. destruct (Forall_lookup_1 _ _ _ _ (wf_v6_hdl _ _ Hwf) Hm) as [H1 H2].
  split; apply list_lookup_lookup_total_lt; lia.
Qed.

Lemma delete_v6_ok o k e i c :
  slot o i = Some c -> client_wf (default [] (tx_prop o)) c ->
  (forall kr, kr ∈ v6_rules 0 (route_rule_set_v6 c) (default [] (tx_prop o)) c -> kr.1.2 <> 0) ->
  wp (delete_rtrules fds i IPA_IP_v6) (fun r s' =>
    r = IPACM_SUCCESS /\
    (s').1 = with_slot (fun c => c <| route_rule_set_v6 := 0%nat |>) i o /\ (s').2.2 = e /\
    dels_rts (v6_rules 0 (route_rule_set_v6 c) (default [] (tx_prop o)) c).*1
      (hw_of k) (hw_of (s').2.1)) (o, (k, e)).
Proof.
  intros Hs Hwf H0. set (tx := default [] (tx_prop o)) in *. unfold delete_rtrules. wsteps.
  set (n6 := route_rule_set_v6 c) in *. set (parts := zip_with (v6_entries c 0 n6) tx (rt_hdl c)).
  assert (length parts = num_tx_props o) as Hlen.
  { unfold parts. rewrite length_zip_with, (wf_rt_hdl _ _ Hwf). unfold num_tx_props. fold tx. lia. }
  apply (wp_for_seq _ _ _ (fun n s => fst s = o /\ (snd s).2 = e /\
    dels_rts (concat (take n parts)).*1 (hw_of k) (hw_of (snd s).1))).
  - split_and!; [done|done|]. apply dels_rts_nil.
  - intros n [o1 [k1 e1]] Hn (Ho & He & Hd). simpl in *. subst o1 e1.
    destruct (lookup_lt_is_Some_2 parts n) as [part Hpart]; [lia|]. pose proof Hpart as Hpt.
    unfold parts in Hpt. apply lookup_zip_with_Some in Hpt as (t & h & Hpe & Ht & Hh).
    rewrite (concat_take_S _ _ _ Hpart), fmap_app.
    unfold delete_rt_v6. wstep. apply (wp_get_tx _ t); [done|]. wstep. apply (wp_get_client _ c); [done|].
    fold n6. unfold v6_entries in Hpe. destruct (bool_decide (tx_ip t = IPA_IP_v6)) eqn:Hip; simpl;
      [|wsteps; rewrite Hpe; simpl; by rewrite app_nil_r].
    destruct (Nat.eqb_spec n6 0) as [Hz|Hz]; simpl.
    { wsteps. rewrite Hpe, Hz. simpl. by rewrite app_nil_r. }
    apply (wp_for_seq _ _ _ (fun j s => fst s = o /\ (snd s).2 = e /\
      dels_rts ((concat (take n parts)).*1 ++ (range (v6_entry c t h) 0 j).*1) (hw_of k) (hw_of (snd s).1))).
    + split_and!; [done|done|]. simpl. by rewrite app_nil_r.
    + intros j [o1 [k2 e2]] Hj (Ho & He2 & Hd2). simpl in Ho, He2, Hd2. subst o1 e2.
      pose proof (wf_v6_routes _ _ Hwf) as Hr. pose proof (wf_v6_set _ _ Hwf) as Hr2. fold n6 in Hr.
      destruct (v6_hdl_lookup _ _ _ _ j Hwf Hh) as [Hv6 Hwan]; [lia|].
      assert (Forall (fun x => x.1.2 <> 0) (v6_entry c t h j)) as [Hne1 [Hne2 _]%Forall_cons]%Forall_cons.
      { apply Forall_forall. intros x Hx. apply H0. eapply elem_concat_lookup; [exact Hpart|]. rewrite Hpe.
        apply (elem_of_range _ _ _ j); [lia|done]. }
      unfold delete_rt_v6_one. wstep. apply (wp_get_client _ c); [done|]. wstep.
      apply (wp_deref _ h); [done|]. wstep. eapply wp_deref; [exact Hv6|]. wstep.
      apply wp_del_rt; [exact Hne1|].
      intros k3 Hk3. cbn [negb]. wstep. eapply wp_deref; [exact Hwan|]. wstep.
      apply wp_del_rt; [exact Hne2|].
      intros k4 Hk4. wsteps. refine (conj eq_refl (conj eq_refl _)).
      change (1 + j)%nat with (S j). rewrite range_S, fmap_app, app_assoc. simpl.
      eapply dels_rts_app; [done|]. eapply (dels_rts_app [_] [_]); done.
    + intros [o1 [k2 e2]] (Ho & He2 & Hd2). simpl in *. rewrite Hpe. done.
  - intros [o1 [k1 e1]] (Ho & He & Hd). simpl in *. subst o1. wstep. apply (wp_set_client _ c); [done|]. wsteps.
    split_and!; [done|done|done|]. rewrite take_ge in Hd by lia. done.
Qed.
End reliable.

(** ** Adding a client's rules *)

Lemma wp_malloc_any (Q : bool -> client_iface X Y * (K * E) -> Prop) o k e :
  (forall ok k', hw_of k' = hw_of k -> Q ok (o, (k', e))) -> wp (hw malloc) Q (o, (k, e)).
Proof.
  intros HQ. pose proof (ok_malloc k) as Hm. destruct (malloc k) as [ok k'] eqn:Em. simpl in Hm.
  eapply wp_hw; [done|]. by apply HQ.
Qed.

(** The object with the handles [hl] in slot [i]. *)
Definition with_hdls i (hl : list client_rt_hdl) o : client_iface X Y := with_slot (fun c => c <| rt_hdl := hl |>) i o.

Lemma slot_with_hdls i hl o c : slot o i = Some c -> slot (with_hdls i hl o) i = Some (c <| rt_hdl := hl |>).
Proof. intros Hs. unfold with_hdls. by rewrite slot_with, Hs. Qed.

Lemma with_hdls_id i o c : slot o i = Some c -> with_hdls i (rt_hdl c) o = o.
Proof.
  intros Hs. rewrite <- (with_slot_id i o) at 2. apply with_slot_ext. intros c' Hc'.
  replace c' with c by congruence. by destruct c.
Qed.

Lemma wp_set_rt_hdl i n f hl h h' c o k e (Q : unit -> client_iface X Y * (K * E) -> Prop) :
  slot o i = Some c -> hl !! n = Some h -> f h = Some h' ->
  Q tt (with_hdls i (<[n := h']> hl) o, (k, e)) -> wp (set_rt_hdl i n f) Q (with_hdls i hl o, (k, e)).
Proof.
  intros Hs Hh Hf HQ. unfold set_rt_hdl. wstep. apply (wp_get_client _ (c <| rt_hdl := hl |>)); [by apply slot_with_hdls|].
  wstep. apply (wp_deref _ h); [done|]. wstep. apply (wp_deref _ h'); [done|].
  apply (wp_set_client _ (c <| rt_hdl := hl |>)); [by apply slot_with_hdls|].
  unfold with_hdls at 1. cbn [fst snd]. rewrite with_slot_with. exact HQ.
Qed.

(** What the two kinds of rules leave alone in the handles of a client. *)
Definition keeps (ip : ipa_ip_type) (a : nat) (h h' : client_rt_hdl) : Prop :=
  match ip with
  | IPA_IP_v4 => rt_rule_hdl_v6 h' = rt_rule_hdl_v6 h /\ rt_rule_hdl_v6_wan h' = rt_rule_hdl_v6_wan h
  | _ =>
      rt_rule_hdl_v4 h' = rt_rule_hdl_v4 h /\
      length (rt_rule_hdl_v6 h') = length (rt_rule_hdl_v6 h) /\
      length (rt_rule_hdl_v6_wan h') = length (rt_rule_hdl_v6_wan h) /\
      (forall j, (j < a)%nat -> rt_rule_hdl_v6 h' !! j = rt_rule_hdl_v6 h !! j /\
                                rt_rule_hdl_v6_wan h' !! j = rt_rule_hdl_v6_wan h !! j)
  end.

#[export] Instance keeps_refl ip a : Reflexive (keeps ip a).
Proof. intros h. destruct ip; simpl; auto. Qed.

#[export] Instance keeps_trans ip a : Transitive (keeps ip a).
Proof.
  intros x y z. destruct ip; simpl.
  1: intros [-> ->] [-> ->]; done.
  all: intros (? & ? & ? & Hxy) (? & ? & ? & Hyz); split_and!; try congruence; intros j Hj;
    destruct (Hxy j Hj), (Hyz j Hj); split; congruence.
Qed.

Lemma keeps_insert ip a l hl n h h' :
  Forall2 (keeps ip a) l hl -> hl !! n = Some h -> keeps ip a h h' -> Forall2 (keeps ip a) l (<[n := h']> hl).
Proof.
  intros Hf Hn Hk. destruct (Forall2_lookup_r _ _ _ _ _ Hf Hn) as (h0 & H0 & Hk0).
  rewrite <- (list_insert_id l n h0 H0). apply Forall2_insert; [done|]. by etrans.
Qed.

Lemma parts_insert {A B C} (f : A -> B -> list C) l1 l2 n x y y' :
  l1 !! n = Some x -> l2 !! n = Some y ->
  concat (take (S n) (zip_with f l1 (<[n := y']> l2))) = concat (take n (zip_with f l1 l2)) ++ f x y'.
Proof.
  intros Hx Hy. rewrite (concat_take_S _ n (f x y')).
  - f_equal. f_equal. rewrite !zip_with_take. by rewrite take_insert_ge.
  - apply lookup_zip_with_Some. exists x, y'. split_and!; [done|done|].
    apply list_lookup_insert_eq. by eapply lookup_lt_Some.
Qed.

Lemma parts_skip {A B C} (f : A -> B -> list C) l1 l2 n x y :
  l1 !! n = Some x -> l2 !! n = Some y -> f x y = [] ->
  concat (take (S n) (zip_with f l1 l2)) = concat (take n (zip_with f l1 l2)).
Proof.
  intros Hx Hy Hf. rewrite (concat_take_S _ n []); [by rewrite app_nil_r|].
  apply lookup_zip_with_Some. exists x, y. by rewrite Hf.
Qed.

Lemma keeps_mono a b h h' : (a <= b)%nat -> keeps IPA_IP_v6 b h h' -> keeps IPA_IP_v6 a h h'.
Proof. intros Hab (? & ? & ? & Hj). split_and!; try done. intros j Hlt. apply Hj. lia. Qed.

Lemma v6_entry_keeps c t b h h' j :
  keeps IPA_IP_v6 b h h' -> (j < b)%nat -> v6_entry c t h' j = v6_entry c t h j.
Proof.
  intros (_ & _ & _ & Hk) Hj. destruct (Hk j Hj) as [H1 H2]. unfold v6_entry.
  by rewrite !list_lookup_total_alt, H1, H2.
Qed.

Lemma range_ext {A} (f g : nat -> list A) a n :
  (forall j, (a <= j < a + n)%nat -> f j = g j) -> range f a n = range g a n.
Proof. intros Hfg. unfold range. f_equal. apply list_fmap_ext. intros i j Hj%lookup_seq. apply Hfg. lia. Qed.

(** A method that has installed [rs] and left the handles [hl] in slot [i]. *)
Definition routed i hl o k e (rs : list rt_entry) (s : client_iface X Y * (K * E)) : Prop :=
  fst s = with_hdls i hl o /\ (snd s).2 = e /\ adds_rts rs (hw_of k) (hw_of (snd s).1).

Lemma routed_app i hl' o k e rs rs' k' s :
  adds_rts rs (hw_of k) (hw_of k') -> routed i hl' o k' e rs' s -> routed i hl' o k e (rs ++ rs') s.
Proof. intros Ha (Ho & He & Ha'). split_and!; [done|done|]. by eapply adds_rts_app. Qed.

(** What the routing of tx property [n] does to its handles [h]: the rules
    [rs h'] are there, or the call fails with some rules and handles left behind. *)
Definition routes_one ip a i n h hl o k e (rs : client_rt_hdl -> list rt_entry) (r : option Z)
    (s : client_iface X Y * (K * E)) : Prop :=
  exists h', keeps ip a h h' /\
    match r with
    | None => routed i (<[n := h']> hl) o k e (rs h') s
    | Some r => r = IPACM_FAILURE /\ exists rs, routed i (<[n := h']> hl) o k e rs s
    end.

Lemma routes_one_fail ip a i n h hl o k e rs k' :
  hl !! n = Some h -> hw_of k' = hw_of k ->
  routes_one ip a i n h hl o k e rs (Some IPACM_FAILURE) (with_hdls i hl o, (k', e)).
Proof.
  intros Hn Hk. exists h. split; [done|]. split; [done|]. exists []. rewrite list_insert_id by done.
  split_and!; [done|done|]. simpl. rewrite Hk. apply adds_rts_nil.
Qed.

Lemma route_v4_ok odu o k e i c n hl h t a :
  slot o i = Some c -> hl !! n = Some h -> tx_ip t = IPA_IP_v4 ->
  wp (route_v4 fds odu i n t) (routes_one IPA_IP_v4 a i n h hl o k e (v4_entry odu c t))
    (with_hdls i hl o, (k, e)).
Proof.
  intros Hs Hn Ht. unfold route_v4. wstep.
  apply (wp_get_client _ (c <| rt_hdl := hl |>)); [by apply slot_with_hdls|]. wstep. apply wp_add_rt.
  - intros k' Hk. wsteps. by apply routes_one_fail.
  - intros x k' Ha. wstep. eapply wp_set_rt_hdl; [done|done|done|]. wsteps.
    exists (h <| rt_rule_hdl_v4 := x |>). split; [by split|]. split_and!; [done|done|]. unfold v4_entry. rewrite Ht. exact Ha.
Qed.

Lemma route_v6_ok o k e i c n hl h t j :
  slot o i = Some c -> hl !! n = Some h -> (j < length (v6_addr c))%nat ->
  (j < length (rt_rule_hdl_v6 h))%nat -> (j < length (rt_rule_hdl_v6_wan h))%nat ->
  wp (route_v6 fds i n t j) (routes_one IPA_IP_v6 j i n h hl o k e (fun h => v6_entry c t h j))
    (with_hdls i hl o, (k, e)).
Proof.
  intros Hs Hn Hj H6 Hw. unfold route_v6. wstep.
  apply (wp_get_client _ (c <| rt_hdl := hl |>)); [by apply slot_with_hdls|]. wstep.
  eapply wp_deref; [by apply list_lookup_lookup_total_lt|]. wstep. apply wp_add_rt.
  { intros k' Hk. wsteps. by apply routes_one_fail. }
  intros x k1 Ha1. wstep. eapply wp_set_rt_hdl; [done|done| |].
  { unfold put_v6, store. destruct (Nat.ltb_spec j (length (rt_rule_hdl_v6 h))); [done|lia]. }
  set (h1 := h <| rt_rule_hdl_v6 := <[j := x]> (rt_rule_hdl_v6 h) |>).
  assert (keeps IPA_IP_v6 j h h1) as Hk1.
  { split_and!; [done| |done|]; simpl; [apply length_insert|]. intros m Hm. split; [|done].
    apply list_lookup_insert_ne. lia. }
  assert (<[n := h1]> hl !! n = Some h1) as Hn1.
  { apply list_lookup_insert_eq. by eapply lookup_lt_Some. }
  wstep. apply wp_add_rt.
  - intros k' Hk. wsteps. exists h1. split; [done|]. split; [done|]. eexists. split_and!; [done|done|].
    cbn [snd fst]. rewrite Hk. exact Ha1.
  - intros y k' Ha2. wstep. eapply wp_set_rt_hdl; [done|done| |].
    { unfold put_v6_wan, store. simpl. destruct (Nat.ltb_spec j (length (rt_rule_hdl_v6_wan h))); [done|lia]. }
    wsteps. rewrite list_insert_insert_eq.
    exists (h1 <| rt_rule_hdl_v6_wan := <[j := y]> (rt_rule_hdl_v6_wan h) |>). split; [etrans; [exact Hk1|]|].
    { split_and!; [done|done| |]; simpl; [apply length_insert|]. intros m Hm. split; [done|].
      apply list_lookup_insert_ne. lia. }
    split_and!; [done|done|]. unfold v6_entry. simpl.
    rewrite !list_lookup_total_insert_eq by (simpl; lia). by eapply (adds_rts_app [_] [_]).
Qed.

Lemma route_v6_all o k e i c n hl h t a m :
  slot o i = Some c -> hl !! n = Some h -> (a + m <= length (v6_addr c))%nat ->
  (a + m <= length (rt_rule_hdl_v6 h))%nat -> (a + m <= length (rt_rule_hdl_v6_wan h))%nat ->
  wp (for_each (route_v6 fds i n t) (seq a m))
    (routes_one IPA_IP_v6 a i n h hl o k e (fun h => range (v6_entry c t h) a m)) (with_hdls i hl o, (k, e)).
Proof.
  intros Hs Hn Ha H6 Hw.
  apply (wp_for_seq _ _ _ (fun j => routes_one IPA_IP_v6 a i n h hl o k e
    (fun h => range (v6_entry c t h) a (j - a)) None)).
  - exists h. split; [done|]. rewrite Nat.sub_diag, list_insert_id by done.
    split_and!; [done|done|apply adds_rts_nil].
  - intros j [o1 [k1 e1]] Hj (h1 & Hk1 & Ho & He & Hr1). cbn [fst snd] in Ho, He, Hr1. subst o1 e1.
    assert (<[n := h1]> hl !! n = Some h1) as Hn1 by (apply list_lookup_insert_eq; by eapply lookup_lt_Some).
    pose proof Hk1 as (_ & Hl6 & Hlw & _).
    eapply wp_mono; [by eapply (route_v6_ok o k1 e i c n (<[n := h1]> hl) h1 t j); [| |lia..]|].
    intros r s' Hr. destruct Hr as (h2 & Hk2 & Hr2). rewrite list_insert_insert_eq in Hr2.
    assert (keeps IPA_IP_v6 a h h2) as Hk by (etrans; [exact Hk1|apply (keeps_mono a j); [lia|done]]).
    destruct r as [r|]; exists h2.
    + destruct Hr2 as (-> & rs & Hr2). split; [done|]. split; [done|]. eexists. by eapply routed_app.
    + split; [done|]. replace (1 + j - a)%nat with (S (j - a)) by lia.
      rewrite range_S. replace (a + (j - a))%nat with j by lia.
      eapply routed_app; [|exact Hr2].
      erewrite (range_ext (v6_entry c t h2)); [exact Hr1|]. intros j' Hj'.
      by apply (v6_entry_keeps _ _ j); [|lia].
  - intros s Hr. by replace (a + m - a)%nat with m in Hr by lia.
Qed.

(** The rules of one tx property, and of all of them. *)
Definition tx_entries odu ip (a n : nat) c t h : list rt_entry :=
  match ip with
  | IPA_IP_v4 => v4_entry odu c t h
  | _ => v6_entries c a (n - a) t h
  end.

Definition new_rules odu ip tx c : list rt_entry :=
  match ip with
  | IPA_IP_v4 => v4_rules odu tx c
  | _ => v6_rules (route_rule_set_v6 c) (ipv6_set c - route_rule_set_v6 c) tx c
  end.

Lemma route_tx_ok odu ip o k e i c n hl h t :
  slot o i = Some c -> client_wf (default [] (tx_prop o)) c -> default [] (tx_prop o) !! n = Some t ->
  hl !! n = Some h -> keeps ip (route_rule_set_v6 c) (rt_hdl c !!! n) h -> ip <> IPA_IP_MAX ->
  wp (route_tx fds odu i ip n)
    (routes_one ip (route_rule_set_v6 c) i n h hl o k e
       (tx_entries odu ip (route_rule_set_v6 c) (ipv6_set c) c t)) (with_hdls i hl o, (k, e)).
Proof.
  intros Hs Hwf Ht Hn Hkeep Hip. unfold route_tx. wstep. apply (wp_get_tx _ t); [done|].
  destruct (bool_decide_reflect (ip = tx_ip t)) as [Heq|Hne]; cbn [negb].
  - destruct ip; [| |done]; cbn [bool_decide decide_rel].
    + rewrite bool_decide_true by done. by apply route_v4_ok.
    + rewrite bool_decide_false by done. wstep.
      apply (wp_get_client _ (c <| rt_hdl := hl |>)); [by apply slot_with_hdls|].
      change (route_rule_set_v6 (c <| rt_hdl := hl |>)) with (route_rule_set_v6 c).
      change (ipv6_set (c <| rt_hdl := hl |>)) with (ipv6_set c).
      pose proof (wf_v6_addr _ _ Hwf). pose proof (wf_v6_set _ _ Hwf). pose proof (wf_v6_routes _ _ Hwf).
      assert (exists h0, rt_hdl c !! n = Some h0) as [h0 Hh0].
      { apply lookup_lt_is_Some. rewrite (wf_rt_hdl _ _ Hwf). by eapply lookup_lt_Some. }
      destruct (Forall_lookup_1 _ _ _ _ (wf_v6_hdl _ _ Hwf) Hh0).
      rewrite (list_lookup_total_correct _ _ _ Hh0) in Hkeep. destruct Hkeep as (_ & H6 & Hw & _).
      eapply wp_mono; [by apply (route_v6_all o k e i c n hl h t); [| |lia..]|].
      intros r s' (h' & Hk' & Hr). exists h'. split; [done|]. destruct r as [r|]; [done|].
      simpl. unfold v6_entries. rewrite bool_decide_true by done. done.
  - wsteps. exists h. split; [done|]. rewrite list_insert_id by done. split_and!; [done|done|].
    assert (tx_entries odu ip (route_rule_set_v6 c) (ipv6_set c) c t h = []) as ->; [|apply adds_rts_nil].
    destruct ip; [| |done]; simpl; unfold v4_entry, v6_entries; rewrite bool_decide_false; congruence.
Qed.

Lemma route_txs_ok odu ip o k e i c :
  slot o i = Some c -> client_wf (default [] (tx_prop o)) c -> ip <> IPA_IP_MAX ->
  let part hl := zip_with (tx_entries odu ip (route_rule_set_v6 c) (ipv6_set c) c) (default [] (tx_prop o)) hl in
  wp (for_each (route_tx fds odu i ip) (seq 0 (num_tx_props o))) (fun r s' =>
    exists hl, Forall2 (keeps ip (route_rule_set_v6 c)) (rt_hdl c) hl /\
      match r with
      | None => routed i hl o k e (concat (part hl)) s'
      | Some r => r = IPACM_FAILURE /\ exists rs, routed i hl o k e rs s'
      end) (o, (k, e)).
Proof.
  intros Hs Hwf Hip part. set (a := route_rule_set_v6 c) in *.
  apply (wp_for_seq _ _ _ (fun n s => exists hl, Forall2 (keeps ip a) (rt_hdl c) hl /\
    routed i hl o k e (concat (take n (part hl))) s)).
  - exists (rt_hdl c). split; [done|].
    split_and!; [by rewrite with_hdls_id|done|apply adds_rts_nil].
  - intros n [o1 [k1 e1]] Hn (hl & Hf & Ho & He & Hr). cbn [fst snd] in Ho, He, Hr. subst o1 e1.
    destruct (lookup_lt_is_Some_2 (rt_hdl c) n) as [h0 Hh0];
      [rewrite (wf_rt_hdl _ _ Hwf); unfold num_tx_props in Hn; lia|].
    destruct (Forall2_lookup_l _ _ _ _ _ Hf Hh0) as (h & Hh & Hk).
    destruct (lookup_lt_is_Some_2 (default [] (tx_prop o)) n) as [t Ht]; [unfold num_tx_props in Hn; lia|].
    eapply wp_mono; [apply (route_tx_ok odu ip o k1 e i c n hl h t); try done;
      by rewrite (list_lookup_total_correct _ _ _ Hh0)|].
    intros r s' (h' & Hk' & Hr'). pose proof (keeps_insert _ _ _ _ _ _ _ Hf Hh Hk') as Hf'.
    destruct r as [r|]; exists (<[n := h']> hl); (split; [done|]).
    + destruct Hr' as (-> & rs & Hr'). split; [done|]. eexists. by eapply routed_app.
    + change (1 + n)%nat with (S n). unfold part. rewrite (parts_insert _ _ _ _ _ _ _ Ht Hh).
      by eapply routed_app.
  - intros s (hl & Hf & Hr). exists hl. split; [done|].
    rewrite take_ge in Hr; [done|]. unfold part. rewrite length_zip_with. unfold num_tx_props. lia.
Qed.

(** The rules are all there and the record says so, or the call fails, leaving
    rules that no record names. *)
Lemma add_routes_ok odu ip o k e i c :
  slot o i = Some c -> client_wf (default [] (tx_prop o)) c -> ip <> IPA_IP_MAX ->
  wp (add_routes fds odu i ip) (fun r s' =>
    exists hl, Forall2 (keeps ip (route_rule_set_v6 c)) (rt_hdl c) hl /\
      (r = IPACM_FAILURE /\ (exists rs, routed i hl o k e rs s') \/
       r = IPACM_SUCCESS /\ (s').1 = with_slot (fun c => mark_routes ip (c <| rt_hdl := hl |>)) i o /\
         (s').2.2 = e /\
         adds_rts (new_rules odu ip (default [] (tx_prop o)) (c <| rt_hdl := hl |>)) (hw_of k) (hw_of (s').2.1)))
    (o, (k, e)).
Proof.
  intros Hs Hwf Hip. unfold add_routes. wstep. apply wp_malloc_any. intros ok k1 Hk1.
  destruct ok; cbn [negb].
  - wsteps. eapply wp_mono; [by apply route_txs_ok|]. intros r [o1 [k2 e2]] (hl & Hf & Hr). destruct r as [r|].
    + wsteps. exists hl. split; [done|]. left. destruct Hr as (-> & rs & Ho & He & Hr). split; [done|].
      exists rs. split_and!; [done|done|]. by rewrite <- Hk1.
    + destruct Hr as (Ho & He & Hr). cbn [fst snd] in Ho, He, Hr. subst o1 e2. wstep.
      apply (wp_set_client _ (c <| rt_hdl := hl |>)); [by apply slot_with_hdls|]. wsteps.
      exists hl. split; [done|]. right. unfold with_hdls. cbn [fst snd]. rewrite with_slot_with.
      split_and!; [done|done|done|]. rewrite <- Hk1. by destruct ip.
  - wsteps. exists (rt_hdl c). split; [done|]. left. split; [done|]. exists [].
    split_and!; [by rewrite with_hdls_id|done|]. cbn [fst snd]. rewrite Hk1. apply adds_rts_nil.
Qed.
End steps.
