(* ===== verification/ClientInv.v ===== *)
(** * The invariant of the client table

    What the clients need of the components they call, the withdrawal of a client
    and the removal of its record, and how [table_inv] follows a change of one
    record: a removal takes exactly one client and its entries away. *)
From S2P Require Import Prelude Defs Heap Config LanToLan IpaDrv StateM ClientTable ClientProps.
From stdpp Require Import base list gmap strings.
From Stdlib Require Import ZArith Lia.

Open Scope Z_scope.
Open Scope method_scope.

(** ** The environment

    What the clients rely on of the components they call: an invariant, kept by
    calls that are all defined. *)
Class LanEnvOk (E : Type) `{LanEnv E} := {
  env_ok : E -> Prop;
  env_neigh_add d e : env_ok e -> exists e', ct_neigh_add d e = Some e' /\ env_ok e';
  env_neigh_del a e : env_ok e -> exists e', ct_neigh_del a e = Some e' /\ env_ok e';
  env_update_pwr a e : env_ok e -> exists e', nat_update_pwr_save a e = Some e' /\ env_ok e';
  env_reset_pwr a e : env_ok e -> exists e', nat_reset_pwr_save a e = Some e' /\ env_ok e';
  env_add_rm p rx e : env_ok e -> env_ok (add_rm_depend p rx e);
  env_del_rm p e : env_ok e -> env_ok (del_rm_depend p e);
  env_post ev d e : env_ok e -> env_ok (post_lan_client ev d e)
}.

(** ** Deleting headers *)

Definition dels_hdrs (l : list Z) (h h' : ipa_hw) : Prop :=
  h' = h <| hw_hdrs := fold_left (fun m x => delete x m) l (hw_hdrs h) |>.

Lemma dels_hdrs_rts l h h' : dels_hdrs l h h' -> hw_rts h' = hw_rts h.
Proof. by intros ->. Qed.

Lemma installed_hdrs_dels l rest h h' :
  installed_hdrs (l ++ rest) h -> dels_hdrs l h h' -> installed_hdrs rest h'.
Proof.
  intros Hi ->. revert h Hi. induction l as [|x l IH]; intros h Hi; simpl.
  - by eapply installed_hdrs_ext; [|exact Hi].
  - eapply installed_hdrs_ext; [|apply (IH (h <| hw_hdrs := delete x (hw_hdrs h) |>));
      by eapply installed_hdrs_del; [exact Hi|]]. done.
Qed.

Lemma installed_hdrs_app l1 l2 h : installed_hdrs (l1 ++ l2) h -> installed_hdrs l1 h /\ installed_hdrs l2 h.
Proof.
  unfold installed_hdrs. intros [(H1 & _ & H2)%NoDup_app Hi].
  split; (split; [done|]); intros x Hx; apply Hi, elem_of_app; auto.
Qed.

Section table.
Context {X Y K E : Type} `{HK : IpaKernelOk K} `{HE : LanEnv E} (fds : ipa_fds) `{!IpaReliable K fds}.
Implicit Types (o : client_iface X Y) (c : ipa_client X) (k : K) (e : E) (t : ipa_ioc_tx_intf_prop).

Lemma wp_del_hdr x (Q : bool -> client_iface X Y * (K * E) -> Prop) o k e :
  installed_hdrs [x] (hw_of k) ->
  (forall k', dels_hdrs [x] (hw_of k) (hw_of k') -> Q true (o, (k', e))) ->
  wp (hw (DeleteHeaderHdl fds x)) Q (o, (k, e)).
Proof.
  intros [_ Hi] HQ. destruct (Hi x) as [H0 [a Ha]]; [left|].
  destruct (DeleteHeaderHdl_ok fds x a k H0 Ha) as (k' & Hd & Hh). eapply wp_hw; [exact Hd|]. by apply HQ.
Qed.

Definition no_headers c : ipa_client X := c <| ipv4_header_set := false |> <| ipv6_header_set := false |>.

(** One of the two halves of [delete_headers]. *)
Lemma wp_del_half {A} (set : bool) x (clear : ipa_client X -> ipa_client X) (no : A) m Q o k e i c :
  slot o i = Some c -> installed_hdrs (if set then [x] else []) (hw_of k) -> (set = false -> clear c = c) ->
  (forall k', dels_hdrs (if set then [x] else []) (hw_of k) (hw_of k') ->
     wp m Q (with_slot clear i o, (k', e))) ->
  wp (let* ok := if set then hw (DeleteHeaderHdl fds x) else ret true in
      if negb ok then ret no else (if set then set_client i clear else ret tt) >> m) Q (o, (k, e)).
Proof.
  intros Hs Hi Hc HQ. wstep. destruct set.
  - apply wp_del_hdr; [done|]. intros k' Hk'. cbn [negb]. wstep. apply (wp_set_client _ c); [done|].
    by apply HQ.
  - wsteps. cbn [negb]. wsteps. rewrite <- (with_slot_id i o).
    rewrite (with_slot_ext (fun c => c) clear); [apply HQ; simpl; by destruct (hw_of k)|].
    intros c' Hc'. replace c' with c by congruence. by rewrite Hc.
Qed.

Lemma delete_headers_ok o k e i c :
  slot o i = Some c -> installed_hdrs (client_hdrs c) (hw_of k) ->
  wp (delete_headers fds i) (fun ok s' =>
    ok = true /\ (s').1 = with_slot no_headers i o /\ (s').2.2 = e /\
    dels_hdrs (client_hdrs c) (hw_of k) (hw_of (s').2.1)) (o, (k, e)).
Proof.
  intros Hs Hi. unfold delete_headers, client_hdrs in *. wstep. apply (wp_get_client _ c); [done|].
  pose proof (installed_hdrs_app _ _ _ Hi) as [H4 _].
  apply (wp_del_half _ _ _ _ _ _ _ _ _ _ c); [done|done| |].
  { destruct c; simpl. by intros ->. }
  intros k1 Hk1. pose proof (installed_hdrs_dels _ _ _ _ Hi Hk1) as H6.
  apply (wp_del_half _ _ _ _ _ _ _ _ _ _ (c <| ipv4_header_set := false |>)).
  { by rewrite slot_with, Hs. } { done. } { destruct c; simpl. by intros ->. }
  intros k2 Hk2. wsteps. refine (conj eq_refl _). cbn [fst snd]. rewrite with_slot_with.
  refine (conj eq_refl (conj eq_refl _)). rewrite Hk2, Hk1. unfold dels_hdrs. by rewrite fold_left_app.
Qed.

(** ** Withdrawing a client *)

Lemma dels_rts_perm ks ks' h h' : ks ≡ₚ ks' -> dels_rts ks h h' -> dels_rts ks' h h'.
Proof.
  intros Hp ->. unfold dels_rts. destruct h as [a b d]. unfold field_update. simpl. f_equal.
  apply map_filter_ext. intros kk x _. simpl. by rewrite Hp.
Qed.

(** A step that takes the rules [ks] and the headers [l] out. *)
Definition dels_all (ks : list (ipa_ip_type * Z)) (l : list Z) (h h' : ipa_hw) : Prop :=
  exists h1, dels_rts ks h h1 /\ dels_hdrs l h1 h'.

Lemma installed_dels_all old rest l lrest h h' :
  installed (old ++ rest) h -> installed_hdrs (l ++ lrest) h -> dels_all old.*1 l h h' ->
  installed rest h' /\ installed_hdrs lrest h'.
Proof.
  intros Hr Hl (h1 & Hd & Hdl). split.
  - eapply installed_ext; [by eapply dels_hdrs_rts|]. by eapply installed_dels.
  - eapply installed_hdrs_dels; [|done]. eapply installed_hdrs_ext; [|done]. by rewrite Hd.
Qed.

Definition withdrawn c : ipa_client X :=
  no_headers (c <| route_rule_set_v4 := false |> <| route_rule_set_v6 := 0%nat |>).

Lemma installed_nonzero rs h kr : installed rs h -> kr ∈ rs -> kr.1.2 <> 0.
Proof. destruct kr as [kk r]. intros [_ Hi] Hin. by destruct (Hi kk r Hin). Qed.

Lemma withdraw_client_ok odu o k e e' i c :
  slot o i = Some c -> client_wf (default [] (tx_prop o)) c ->
  installed (client_rules odu (default [] (tx_prop o)) c) (hw_of k) ->
  installed_hdrs (client_hdrs c) (hw_of k) ->
  (if ipv4_set c then ct_neigh_del (v4_addr c) e else Some e) = Some e' ->
  wp (withdraw_client fds i) (fun r s' =>
    r = None /\ (s').1 = with_slot withdrawn i o /\ (s').2.2 = e' /\
    dels_all (client_rules odu (default [] (tx_prop o)) c).*1 (client_hdrs c) (hw_of k) (hw_of (s').2.1))
    (o, (k, e)).
Proof.
  intros Hs Hwf Hr Hh He. unfold withdraw_client. wstep. apply (wp_get_client _ c); [done|]. wstep.
  assert (wp (if ipv4_set c then call (ct_neigh_del (v4_addr c)) else ret tt)
    (fun _ (s : client_iface X Y * (K * E)) => s = (o, (k, e'))) (o, (k, e))) as Hcall.
  { destruct (ipv4_set c); [by eapply wp_call|]. apply wp_ret. congruence. }
  eapply wp_mono; [exact Hcall|]. intros _ s ->. clear Hcall He.
  set (tx := default [] (tx_prop o)) in *. unfold client_rules in *.
  pose proof (installed_app _ _ _ Hr) as [Hr4 _].
  wstep. eapply wp_mono; [apply (delete_v4_ok fds odu o k e' i c); [done|done|]|].
  { intros Hset kr Hin. rewrite ->Hset in Hr4. by eapply installed_nonzero. }
  intros r [o1 [k1 e1]] (-> & Ho & He & Hd4). cbn [fst snd] in Ho, He, Hd4. subst o1 e1. cbn [negb Z.eqb IPACM_SUCCESS].
  pose proof (installed_dels _ _ _ _ Hr Hd4) as Hr6. fold tx in Hd4.
  set (c1 := c <| route_rule_set_v4 := false |>).
  wstep. eapply wp_mono; [apply (delete_v6_ok fds _ k1 e' i c1)|].
  { by rewrite slot_with, Hs. } { by destruct Hwf; split. }
  { intros kr Hin. by eapply installed_nonzero; [exact Hr6|]. }
  intros r [o1 [k2 e1]] (-> & Ho & He & Hd6). cbn [fst snd] in Ho, He, Hd6. subst o1 e1. cbn [negb Z.eqb IPACM_SUCCESS].
  set (c2 := c1 <| route_rule_set_v6 := 0%nat |>).
  wstep. eapply wp_mono; [apply (delete_headers_ok _ k2 e' i c2)|].
  { by rewrite !slot_with, Hs. }
  { eapply installed_hdrs_ext; [|exact Hh]. by rewrite Hd6, Hd4. }
  intros ok [o1 [k3 e1]] (-> & Ho & He & Hdh). cbn [fst snd] in Ho, He, Hdh. subst o1 e1. wsteps.
  refine (conj eq_refl _). cbn [fst snd]. rewrite !with_slot_with. refine (conj eq_refl (conj eq_refl _)).
  eexists. split; [|exact Hdh]. rewrite fmap_app. eapply dels_rts_app; [exact Hd4|]. exact Hd6.
Qed.

(** ** Removing a record *)

(** The same client, in another slot: everything in use is equal. *)
Record same_hdls (n : nat) (h h' : client_rt_hdl) : Prop := {
  same_v4 : rt_rule_hdl_v4 h' = rt_rule_hdl_v4 h;
  same_v6 : forall j, (j < n)%nat -> rt_rule_hdl_v6 h' !! j = rt_rule_hdl_v6 h !! j;
  same_wan : forall j, (j < n)%nat -> rt_rule_hdl_v6_wan h' !! j = rt_rule_hdl_v6_wan h !! j
}.

Record same_client c c' : Prop := {
  same_mac : mac c' = mac c;
  same_addr4 : v4_addr c' = v4_addr c;
  same_addr6 : forall j, (j < ipv6_set c)%nat -> v6_addr c' !! j = v6_addr c !! j;
  same_hdr4 : hdr_hdl_v4 c' = hdr_hdl_v4 c;
  same_hdr6 : hdr_hdl_v6 c' = hdr_hdl_v6 c;
  same_r4 : route_rule_set_v4 c' = route_rule_set_v4 c;
  same_r6 : route_rule_set_v6 c' = route_rule_set_v6 c;
  same_set4 : ipv4_set c' = ipv4_set c;
  same_set6 : ipv6_set c' = ipv6_set c;
  same_hs4 : ipv4_header_set c' = ipv4_header_set c;
  same_hs6 : ipv6_header_set c' = ipv6_header_set c;
  same_hdl : Forall2 (same_hdls (route_rule_set_v6 c)) (rt_hdl c) (rt_hdl c')
}.

Lemma same_client_refl c : same_client c c.
Proof. split; try done. apply Forall2_same_length_lookup_2; [done|]. intros j h h' H1 H2. by simplify_eq; split. Qed.

Lemma zip_entries_ext {A B C} (f g : A -> B -> list C) (R : B -> B -> Prop) l1 l2 l2' :
  Forall2 R l2 l2' -> (forall x y y', R y y' -> f x y = g x y') -> zip_with f l1 l2 = zip_with g l1 l2'.
Proof.
  intros Hf Hfg. revert l1. induction Hf as [|y y' l2 l2' HR _ IH]; intros [|x l1]; simpl; try done.
  f_equal; eauto.
Qed.

Lemma same_v4_rules odu tx c c' : same_client c c' -> v4_rules odu tx c' = v4_rules odu tx c.
Proof.
  intros Hs. unfold v4_rules. f_equal. symmetry. eapply zip_entries_ext; [apply (same_hdl _ _ Hs)|].
  intros t h h' Hh. unfold v4_entry, v4_hdr, v4_rule.
  by rewrite (same_v4 _ _ _ Hh), (same_addr4 _ _ Hs), (same_hdr4 _ _ Hs).
Qed.

Lemma same_v6_rules tx c c' :
  same_client c c' -> (route_rule_set_v6 c <= ipv6_set c)%nat ->
  v6_rules 0 (route_rule_set_v6 c) tx c' = v6_rules 0 (route_rule_set_v6 c) tx c.
Proof.
  intros Hs Hle. unfold v6_rules. f_equal. symmetry. eapply zip_entries_ext; [apply (same_hdl _ _ Hs)|].
  intros t h h' Hh. unfold v6_entries. destruct (bool_decide _); [|done]. apply range_ext. intros j Hj.
  unfold v6_entry, v6_wan_rule. rewrite !list_lookup_total_alt.
  by rewrite (same_v6 _ _ _ Hh), (same_wan _ _ _ Hh), (same_addr6 _ _ Hs), (same_hdr6 _ _ Hs) by lia.
Qed.

Lemma same_client_rules odu tx c c' :
  same_client c c' -> (route_rule_set_v6 c <= ipv6_set c)%nat -> client_rules odu tx c' = client_rules odu tx c.
Proof.
  intros Hs Hle. unfold client_rules.
  by rewrite (same_r4 _ _ Hs), (same_r6 _ _ Hs), (same_v4_rules odu tx _ _ Hs), (same_v6_rules tx _ _ Hs Hle).
Qed.

Lemma same_client_hdrs c c' : same_client c c' -> client_hdrs c' = client_hdrs c.
Proof.
  intros Hs. unfold client_hdrs.
  by rewrite (same_hs4 _ _ Hs), (same_hs6 _ _ Hs), (same_hdr4 _ _ Hs), (same_hdr6 _ _ Hs).
Qed.

Lemma same_client_view odu tx c c' :
  same_client c c' -> (route_rule_set_v6 c <= ipv6_set c)%nat ->
  client_view odu tx c' = client_view odu tx c.
Proof.
  intros Hs Hle. unfold client_view.
  rewrite (same_client_rules odu tx _ _ Hs Hle), (same_client_hdrs _ _ Hs), (same_mac _ _ Hs),
    (same_set4 _ _ Hs), (same_set6 _ _ Hs), (same_addr4 _ _ Hs). do 3 f_equal.
  apply list_eq. intros j. destruct (decide (j < ipv6_set c)%nat).
  - rewrite !lookup_take_lt by done. by apply (same_addr6 _ _ Hs).
  - by rewrite !lookup_take_ge by lia.
Qed.

Lemma copy_first_length {A} n (l l' : list A) : length l = length l' -> length (copy_first n l l') = length l.
Proof. intros Hl. unfold copy_first. rewrite length_app, length_take, length_drop. lia. Qed.

Lemma copy_first_lookup {A} n (l l' : list A) j :
  length l = length l' -> (j < n)%nat -> copy_first n l l' !! j = l !! j.
Proof.
  intros Hl Hj. unfold copy_first. destruct (decide (j < length l)%nat).
  - rewrite lookup_app_l by (rewrite length_take; lia). by apply lookup_take_lt.
  - rewrite !lookup_ge_None_2; [done|lia|]. rewrite length_app, length_take, length_drop. lia.
Qed.

Lemma move_client_same mv tx next c :
  client_wf tx next -> client_wf tx c -> same_client next (move_client mv next c).
Proof.
  intros Hn Hc. split; try done; simpl.
  - intros j Hj. apply copy_first_lookup; [|done]. by rewrite (wf_v6_addr _ _ Hn), (wf_v6_addr _ _ Hc).
  - pose proof (wf_v6_hdl _ _ Hn) as Fn. pose proof (wf_v6_hdl _ _ Hc) as Fc.
    apply Forall2_same_length_lookup_2.
    { rewrite length_zip_with, (wf_rt_hdl _ _ Hn), (wf_rt_hdl _ _ Hc). lia. }
    intros j h h' Hj (h1 & h2 & -> & H1 & H2)%lookup_zip_with_Some. simplify_eq.
    destruct (Forall_lookup_1 _ _ _ _ Fn Hj), (Forall_lookup_1 _ _ _ _ Fc H2).
    split; [done| |]; intros m Hm; simpl; apply copy_first_lookup; try lia.
Qed.

Lemma move_client_wf mv tx next c :
  client_wf tx next -> client_wf tx c -> client_wf tx (move_client mv next c).
Proof.
  intros Hn Hc. pose proof (wf_v6_hdl _ _ Hn) as Fn. pose proof (wf_v6_hdl _ _ Hc) as Fc.
  split; simpl; try apply Hn.
  - rewrite copy_first_length; [apply Hn|]. by rewrite (wf_v6_addr _ _ Hn), (wf_v6_addr _ _ Hc).
  - rewrite length_zip_with, (wf_rt_hdl _ _ Hn), (wf_rt_hdl _ _ Hc). lia.
  - apply Forall_lookup. intros j h (h1 & h2 & -> & H1 & H2)%lookup_zip_with_Some.
    destruct (Forall_lookup_1 _ _ _ _ Fn H1), (Forall_lookup_1 _ _ _ _ Fc H2).
    split; simpl; rewrite copy_first_length; lia.
Qed.

Lemma reset_client_wf tx c : client_wf tx c -> client_wf tx (reset_client c).
Proof. intros []. split; simpl; try done; lia. Qed.

(** The object with another array. *)
Definition with_array cs o : client_iface X Y := o <| client := Some cs |>.

Lemma with_slot_array f i cs o : with_slot f i (with_array cs o) = with_array (alter f i cs) o.
Proof. done. Qed.

Lemma slot_array i cs o : slot (with_array cs o) i = cs !! i.
Proof. done. Qed.

Lemma alter_as_insert {A} (f : A -> A) (i : nat) (l : list A) x : l !! i = Some x -> alter f i l = <[i := f x]> l.
Proof.
  intros Hx. apply list_eq. intros j. destruct (decide (i = j)) as [<-|Hne].
  - rewrite list_lookup_alter_eq, Hx, list_lookup_insert_eq; [done|by eapply lookup_lt_Some].
  - by rewrite list_lookup_alter_ne, list_lookup_insert_ne.
Qed.

(** A record in its new slot: the class's own fields have moved with it as [mv] says. *)
Definition carried (mv : X -> X -> X) c c' : Prop :=
  same_client c c' /\ (extra c' = extra c \/ exists x, extra c' = mv (extra c) x).

Lemma carried_same mv cs cs' : Forall2 (carried mv) cs cs' -> Forall2 same_client cs cs'.
Proof. intros Hf. eapply Forall2_impl; [exact Hf|]. by intros c c' [? _]. Qed.

(** The array after the records up to [j] have moved. *)
Definition moved mv tx i j cs cs' : Prop :=
  length cs' = length cs /\ Forall (client_wf tx) cs' /\
  (forall m c, cs !! m = Some c -> (m < i \/ j < m)%nat -> cs' !! m = Some c) /\
  (forall m c, cs !! S m = Some c -> (i <= m < j)%nat -> exists c', cs' !! m = Some c' /\ carried mv c c').

Lemma moved_step mv tx i j cs cs' c next :
  moved mv tx i j cs cs' -> (i <= j)%nat -> cs' !! j = Some c -> cs !! S j = Some next ->
  moved mv tx i (S j) cs (<[j := move_client mv next c]> cs').
Proof.
  intros (Hl & Hwf & Ho & Hs) Hij Hc Hn. assert (j < length cs')%nat by by eapply lookup_lt_Some.
  assert (client_wf tx next).
  { apply (Forall_lookup_1 _ _ _ _ Hwf (Ho (S j) next Hn ltac:(lia))). }
  pose proof (Forall_lookup_1 _ _ _ _ Hwf Hc). split_and!.
  - by rewrite length_insert.
  - by apply Forall_insert; [|apply move_client_wf].
  - intros m c' Hm Hlt. rewrite list_lookup_insert_ne by lia. apply Ho; [done|lia].
  - intros m c' Hm Hlt. destruct (decide (m = j)) as [->|Hne].
    + rewrite list_lookup_insert_eq by done. eexists. split; [done|].
      replace c' with next by congruence. split; [by apply (move_client_same _ tx)|]. right. by eexists.
    + rewrite list_lookup_insert_ne by done. apply Hs; [done|lia].
Qed.

Lemma moved_done mv tx i n cs cs' :
  (i <= n)%nat -> (S n <= length cs)%nat -> moved mv tx i n cs cs' ->
  Forall2 (carried mv) (delete i (take (S n) cs)) (take n cs').
Proof.
  intros Hi Hn (Hl & _ & Ho & Hs). apply Forall2_same_length_lookup_2.
  { rewrite length_delete, !length_take; [lia|]. apply lookup_lt_is_Some. rewrite length_take. lia. }
  intros j c c' Hc [Hc' Hj]%lookup_take_Some. destruct (decide (j < i)%nat).
  - rewrite list_lookup_delete_lt in Hc by done. apply lookup_take_Some in Hc as [Hc _].
    rewrite (Ho j c Hc) in Hc' by lia. simplify_eq. split; [apply same_client_refl|by left].
  - rewrite list_lookup_delete_ge in Hc by lia. apply lookup_take_Some in Hc as [Hc _].
    destruct (Hs j c Hc) as (c2 & H2 & ?); [lia|]. by simplify_eq.
Qed.

Lemma remove_client_ok release mv tx o k e i cs c x :
  client o = Some cs -> Forall (client_wf tx) cs -> (num_client o <= length cs)%nat -> (i < num_client o)%nat ->
  cs !! i = Some c -> release (extra c) = Some x ->
  wp (remove_client release mv i) (fun _ s' => exists cs',
    s' = (with_array cs' o <| num_client := (num_client o - 1)%nat |>, (k, e)) /\ length cs' = length cs /\
    Forall (client_wf tx) cs' /\
    Forall2 (carried mv) (delete i (take (num_client o) cs)) (take (num_client o - 1) cs')) (o, (k, e)).
Proof.
  intros Hcs Hwf Hle Hi Hc Hx. assert (o = with_array cs o) as Ho by (destruct o; simpl in *; by subst).
  unfold remove_client, release_extra. wsteps.
  apply (wp_set_client _ c); [by rewrite Ho|]. cbn [fst snd]. wstep.
  assert (slot (with_slot reset_client i o) i = Some (reset_client c)) as Hsr by (by rewrite slot_with, Ho, slot_array, Hc).
  wstep. apply (wp_get_client _ (reset_client c)); [done|]. wstep. apply (wp_deref _ x); [done|].
  apply (wp_set_client _ (reset_client c)); [done|]. cbn [fst snd]. rewrite with_slot_with. wstep.
  set (gone := fun c => reset_client c <| extra := x |>).
  replace (with_slot gone i o) with (with_array (alter gone i cs) o)
    by (rewrite <- with_slot_array; by rewrite <- Ho).
  cbn [fst].
  apply (wp_for_seq _ _ _ (fun j s => exists cs', s = (with_array cs' o, (k, e)) /\ moved mv tx i j cs cs')).
  - eexists. split; [done|]. rewrite (alter_as_insert _ _ _ _ Hc). split_and!.
    + by rewrite length_insert.
    + apply Forall_insert; [done|]. pose proof (reset_client_wf _ _ (Forall_lookup_1 _ _ _ _ Hwf Hc)) as Hr.
      destruct Hr; by split.
    + intros m c' Hm Hlt. by rewrite list_lookup_insert_ne by lia.
    + lia.
  - intros j s Hj (cs' & -> & Hm). pose proof Hm as (Hl & _ & Hold & _).
    destruct (lookup_lt_is_Some_2 cs (S j)) as [next Hn]; [lia|].
    destruct (lookup_lt_is_Some_2 cs' j) as [cj Hcj]; [lia|].
    unfold move_down. wstep. apply (wp_get_client _ next).
    { rewrite Nat.add_1_r. cbn [fst]. rewrite slot_array. apply Hold; [done|lia]. }
    wstep. apply (wp_set_client _ cj); [done|]. wsteps. cbn [fst snd].
    rewrite with_slot_array, (alter_as_insert _ _ _ _ Hcj). eexists. split; [done|].
    apply moved_step; [done|lia|done|done].
  - intros s (cs' & -> & Hm). wsteps. exists cs'. refine (conj eq_refl _).
    replace (i + (num_client o - 1 - i))%nat with (num_client o - 1)%nat in Hm by lia.
    pose proof (moved_done _ _ i (num_client o - 1) cs cs' ltac:(lia) ltac:(lia) Hm) as Hd.
    replace (S (num_client o - 1)) with (num_client o) in Hd by lia. destruct Hm as (? & ? & _). by split_and!.
Qed.

(** ** The invariant *)

Lemma table_slot odu cap o h i c :
  table_inv odu cap o h -> slot o i = Some c -> client_wf (default [] (tx_prop o)) c.
Proof.
  intros [(cs & Hcs & _ & Hwf) _ _ _] (cs' & Hcs' & Hc)%slot_some. simplify_eq.
  by apply (Forall_lookup_1 _ _ _ _ Hwf Hc).
Qed.

Lemma table_slot_lt odu cap o h i : table_inv odu cap o h -> (i < cap)%nat -> exists c, slot o i = Some c.
Proof.
  intros [(cs & Hcs & <- & _) _ _ _] Hi. destruct (lookup_lt_is_Some_2 cs i Hi) as [c Hc].
  exists c. unfold slot. by rewrite Hcs.
Qed.

Lemma get_client_index_Some m o i :
  get_client_index m o = Some i -> (i < num_client o)%nat /\ exists c, slot o i = Some c /\ mac c = m.
Proof.
  unfold get_client_index, clients_of. intros (c & [Hc Hi]%lookup_take_Some & Hm%bool_decide_eq_true_1 & _)%find_index_Some.
  split; [done|]. exists c. split; [|done]. unfold slot. by destruct (client o).
Qed.

Lemma clients_of_lookup o n c : clients_of o !! n = Some c -> slot o n = Some c /\ (n < num_client o)%nat.
Proof.
  unfold clients_of, slot. intros [Hc Hn]%lookup_take_Some. split; [|done]. by destruct (client o).
Qed.

Lemma clients_of_length odu cap o h : table_inv odu cap o h -> length (clients_of o) = num_client o.
Proof.
  intros [(cs & Hcs & Hlen & _) Hn _ _]. unfold clients_of. rewrite Hcs, length_take. simpl. lia.
Qed.

Lemma with_slot_wf tx f i o c cs :
  client o = Some cs -> Forall (client_wf tx) cs -> slot o i = Some c -> client_wf tx (f c) ->
  exists cs', client (with_slot f i o) = Some cs' /\ length cs' = length cs /\ Forall (client_wf tx) cs'.
Proof.
  intros Hcs Hwf Hs Hf. exists (alter f i cs). unfold with_slot. simpl. rewrite Hcs. split_and!; [done| |].
  - apply length_alter.
  - unfold slot in Hs. rewrite Hcs in Hs. simpl in Hs. rewrite (alter_as_insert _ _ _ _ Hs).
    by apply Forall_insert.
Qed.

(** A change of one record in use, and of what it has installed. *)
Lemma table_inv_slot odu cap o h f i c h' :
  table_inv odu cap o h -> slot o i = Some c -> (i < num_client o)%nat ->
  client_wf (default [] (tx_prop o)) (f c) ->
  (forall rest, installed (client_rules odu (default [] (tx_prop o)) c ++ rest) h ->
     installed (client_rules odu (default [] (tx_prop o)) (f c) ++ rest) h') ->
  (forall rest, installed_hdrs (client_hdrs c ++ rest) h -> installed_hdrs (client_hdrs (f c) ++ rest) h') ->
  table_inv odu cap (with_slot f i o) h'.
Proof.
  intros [(cs & Hcs & Hlen & Hwf) Hnum Hr Hh] Hs Hi Hf HR HH. split.
  - destruct (with_slot_wf _ f i o c cs Hcs Hwf Hs Hf) as (cs' & ? & ? & ?). exists cs'. by rewrite <- Hlen.
  - done.
  - destruct (all_rules_with odu f i o c Hs Hi) as (rest & H1 & H2). rewrite H2. apply HR. by rewrite <- H1.
  - destruct (all_hdrs_with f i o c Hs Hi) as (rest & H1 & H2). rewrite H2. apply HH. by rewrite <- H1.
Qed.

(** A change of a record that is not in use. *)
Lemma clients_of_free f i o : (num_client o <= i)%nat -> clients_of (with_slot f i o) = clients_of o.
Proof.
  intros Hi. unfold clients_of, with_slot. simpl. destruct (client o) as [cs|]; [|done]. simpl.
  apply list_eq. intros j. destruct (decide (j < num_client o)%nat).
  - rewrite !lookup_take_lt by done. rewrite list_lookup_alter_ne by lia. done.
  - by rewrite !lookup_take_ge by lia.
Qed.

Lemma table_inv_free odu cap o h f i c h' :
  table_inv odu cap o h -> slot o i = Some c -> (num_client o <= i)%nat ->
  client_wf (default [] (tx_prop o)) (f c) ->
  (forall rs, installed rs h -> installed rs h') -> (forall l, installed_hdrs l h -> installed_hdrs l h') ->
  table_inv odu cap (with_slot f i o) h'.
Proof.
  intros [(cs & Hcs & Hlen & Hwf) Hnum Hr Hh] Hs Hi Hf HR HH. split.
  - destruct (with_slot_wf _ f i o c cs Hcs Hwf Hs Hf) as (cs' & ? & ? & ?). exists cs'. by rewrite <- Hlen.
  - done.
  - unfold all_rules. rewrite clients_of_free by done. by apply HR.
  - unfold all_hdrs. rewrite clients_of_free by done. by apply HH.
Qed.

Lemma table_clients_wf odu cap o h :
  table_inv odu cap o h -> Forall (client_wf (default [] (tx_prop o))) (clients_of o).
Proof. intros [(cs & Hcs & _ & Hwf) _ _ _]. unfold clients_of. rewrite Hcs. by apply Forall_take. Qed.

Lemma same_clients_rules odu tx cs cs' :
  Forall2 same_client cs cs' -> Forall (client_wf tx) cs ->
  client_rules odu tx <$> cs' = client_rules odu tx <$> cs.
Proof.
  induction 1 as [|c c' cs cs' Hc _ IH]; intros Hwf; [done|]. inversion Hwf; subst. rewrite !fmap_cons.
  rewrite IH by done. rewrite (same_client_rules odu tx _ _ Hc); [done|]. by eapply wf_v6_routes.
Qed.

Lemma same_clients_hdrs cs cs' : Forall2 same_client cs cs' -> client_hdrs <$> cs' = client_hdrs <$> cs.
Proof.
  induction 1 as [|c c' cs cs' Hc _ IH]; [done|]. rewrite !fmap_cons. by rewrite IH, (same_client_hdrs _ _ Hc).
Qed.

Lemma same_clients_view odu tx cs cs' :
  Forall2 same_client cs cs' -> Forall (client_wf tx) cs ->
  client_view odu tx <$> cs' = client_view odu tx <$> cs.
Proof.
  induction 1 as [|c c' cs cs' Hc _ IH]; intros Hwf; [done|]. inversion Hwf; subst. rewrite !fmap_cons.
  rewrite IH by done. rewrite (same_client_view odu tx _ _ Hc); [done|]. by eapply wf_v6_routes.
Qed.

(** The table after a client was withdrawn and its record removed. *)
Lemma table_inv_remove odu cap o h h' i c cs' o' :
  table_inv odu cap o h -> slot o i = Some c -> (i < num_client o)%nat ->
  dels_all (client_rules odu (default [] (tx_prop o)) c).*1 (client_hdrs c) h h' ->
  tx_prop o' = tx_prop o -> client o' = Some cs' -> num_client o' = (num_client o - 1)%nat ->
  length cs' = cap -> Forall (client_wf (default [] (tx_prop o))) cs' ->
  Forall2 same_client (delete i (clients_of o)) (clients_of o') ->
  table_inv odu cap o' h'.
Proof.
  intros Hinv Hs Hi Hd Htx Hcs Hn Hlen Hwf Hsame. pose proof (table_clients_wf _ _ _ _ Hinv) as Hwfs.
  pose proof Hinv as [_ Hnum Hr Hh]. pose proof (clients_of_slot _ _ _ Hs Hi) as Hc.
  unfold all_rules in Hr. rewrite (concat_split _ _ _ _ Hc) in Hr.
  unfold all_hdrs in Hh. rewrite (concat_split _ _ _ _ Hc) in Hh.
  destruct (installed_dels_all _ _ _ _ _ _ Hr Hh Hd) as [Hr' Hh']. split.
  - exists cs'. by rewrite Htx.
  - lia.
  - unfold all_rules. rewrite Htx, (same_clients_rules _ _ _ _ Hsame); [done|]. by apply Forall_delete.
  - unfold all_hdrs. by rewrite (same_clients_hdrs _ _ Hsame).
Qed.

(** The state of a method, with the invariant of the table and of the rest. *)
Definition table_ok `{!LanEnvOk E} odu cap (s : client_iface X Y * (K * E)) : Prop :=
  table_inv odu cap (fst s) (hw_of (snd s).1) /\ env_ok (snd s).2.

(** Only the array and the counts change. *)
Definition same_frame o o' : Prop :=
  o' = o <| client := client o' |> <| num_client := num_client o' |> <| header_name_count := header_name_count o' |>.

(** The number of clients and the class's own fields stay as well. *)
Definition same_iface o o' : Prop :=
  same_frame o o' /\ num_client o' = num_client o /\ extra <$> clients_of o' = extra <$> clients_of o.

Lemma same_iface_refl o : same_iface o o.
Proof. split; [|done]. by destruct o. Qed.

Lemma same_iface_slot f i o : (forall c, extra (f c) = extra c) -> same_iface o (with_slot f i o).
Proof.
  intros Hf. split; [by destruct o|]. split; [done|]. destruct (decide (i < num_client o)%nat).
  - rewrite clients_of_with by done. apply list_eq. intros j. rewrite !list_lookup_fmap.
    destruct (decide (i = j)) as [<-|Hne].
    + rewrite list_lookup_alter_eq. destruct (clients_of o !! i); simpl; [|done]. by rewrite Hf.
    + by rewrite list_lookup_alter_ne.
  - f_equal. unfold clients_of, with_slot. simpl. destruct (client o) as [cs|]; [|done]. simpl.
    apply list_eq. intros j. destruct (decide (j < num_client o)%nat).
    + rewrite !lookup_take_lt by done. by rewrite list_lookup_alter_ne by lia.
    + by rewrite !lookup_take_ge by lia.
Qed.

(** The part of a down handler up to the new count: exactly that client is gone. *)
Lemma forget_client_ok `{!LanEnvOk E} odu cap release mv (m : M (client_iface X Y * (K * E)) Z) Q o k e i c :
  table_ok odu cap (o, (k, e)) -> slot o i = Some c -> (i < num_client o)%nat ->
  is_Some (release (extra c)) ->
  (forall o' k' e', table_ok odu cap (o', (k', e')) -> num_client o' = (num_client o - 1)%nat ->
     same_frame o o' -> Forall2 (carried mv) (delete i (clients_of o)) (clients_of o') ->
     (if ipv4_set c then ct_neigh_del (v4_addr c) e else Some e) = Some e' ->
     dels_all (client_rules odu (default [] (tx_prop o)) c).*1 (client_hdrs c) (hw_of k) (hw_of k') ->
     wp m Q (o', (k', e'))) ->
  wp (let* r := withdraw_client fds i in
      match r with Some r => ret r | None => remove_client release mv i >> m end) Q (o, (k, e)).
Proof.
  intros [Hinv He] Hs Hi [x Hx] HQ. cbn [fst snd] in Hinv, He. pose proof (table_slot _ _ _ _ _ _ Hinv Hs) as Hwf.
  destruct (all_rules_with odu (fun c => c) i o c Hs Hi) as (rest & HR & _).
  destruct (all_hdrs_with (fun c => c) i o c Hs Hi) as (resth & HH & _).
  pose proof (ti_rules _ _ _ _ Hinv) as Hr. rewrite HR in Hr.
  pose proof (ti_hdrs _ _ _ _ Hinv) as Hh. rewrite HH in Hh.
  assert (exists e', (if ipv4_set c then ct_neigh_del (v4_addr c) e else Some e) = Some e' /\ env_ok e')
    as (e' & He' & Hok).
  { destruct (ipv4_set c); [by apply env_neigh_del|eauto]. }
  wstep. eapply wp_mono; [apply (withdraw_client_ok odu o k e e' i c); try done;
    [exact (proj1 (installed_app _ _ _ Hr))|exact (proj1 (installed_hdrs_app _ _ _ Hh))]|].
  intros r [o1 [k1 e1]] (-> & Ho1 & He1 & Hd). cbn [fst snd] in Ho1, He1, Hd. subst o1 e1.
  pose proof (ti_array _ _ _ _ Hinv) as (cs & Hcs & Hlen & Hwfs). pose proof (ti_num _ _ _ _ Hinv) as Hnum.
  destruct (with_slot_wf _ withdrawn i o c cs Hcs Hwfs Hs) as (cs1 & Hcs1 & Hlen1 & Hwf1).
  { destruct Hwf. split; simpl; try done. lia. }
  wstep. eapply wp_mono; [apply (remove_client_ok release mv (default [] (tx_prop o)) _ k1 e' i cs1 (withdrawn c) x); try done;
    simpl; try lia|].
  { assert (slot (with_slot withdrawn i o) i = Some (withdrawn c)) as Hsw by by rewrite slot_with, Hs.
    unfold slot in Hsw. by rewrite Hcs1 in Hsw. }
  intros _ s' (cs' & -> & Hlen' & Hwf' & Hsame). change (num_client (with_slot withdrawn i o)) with (num_client o) in *.
  assert (delete i (take (num_client o) cs1) = delete i (clients_of o)) as Hdel.
  { rewrite <- (delete_alter_slot withdrawn i (clients_of o)), <- clients_of_with by done.
    unfold clients_of. by rewrite Hcs1. }
  rewrite Hdel in Hsame.
  apply HQ; try done.
  split; [|done]. cbn [fst snd]. apply carried_same in Hsame.
  eapply (table_inv_remove odu cap o _ _ i c cs'); try done. lia.
Qed.
End table.
