(* ===== verification/ClientOps.v ===== *)
(** * The operations on the client table

    [table_inv] through the routing rules, addresses, headers and records of the
    clients, whether the kernel grants what it is asked for or not, and [kept],
    by which the two classes put these steps together. *)
From S2P Require Import Prelude Defs Heap Config LanToLan IpaDrv StateM ClientTable ClientProps ClientInv.
From stdpp Require Import base list gmap strings.
From Stdlib Require Import ZArith Lia.

Open Scope Z_scope.
Open Scope method_scope.

(** ** Adding headers *)

(** The header [x] is the only thing that is new. *)
Definition adds_hdr x (h h' : ipa_hw) : Prop :=
  x <> 0 /\ hw_hdrs h !! x = None /\ exists a, h' = h <| hw_hdrs := <[x := a]> (hw_hdrs h) |>.

Fixpoint adds_hdrs (l : list Z) (h h' : ipa_hw) : Prop :=
  match l with
  | [] => h' = h
  | x :: l => exists h1, adds_hdr x h h1 /\ adds_hdrs l h1 h'
  end.

Lemma installed_hdrs_adds l rest h h' :
  installed_hdrs rest h -> adds_hdrs l h h' -> installed_hdrs (l ++ rest) h'.
Proof.
  revert rest h. induction l as [|x l IH]; intros rest h Hi; simpl; [by intros ->|].
  intros (h1 & (H0 & Hx & a & Ha) & Hl).
  eapply installed_hdrs_perm; [|done|apply (IH (x :: rest) h1); [|done]].
  - by rewrite Permutation_middle.
  - by eapply installed_hdrs_add; [done|done|done|by rewrite Ha].
Qed.

Lemma adds_hdrs_rts l h h' : adds_hdrs l h h' -> hw_rts h' = hw_rts h.
Proof.
  revert h. induction l as [|x l IH]; intros h; simpl; [by intros ->|].
  intros (h1 & (_ & _ & a & ->) & Hl). by rewrite (IH _ Hl).
Qed.

(** Headers added elsewhere do not get in the way of deleting [x]. *)
Lemma adds_hdrs_delete l x h h' :
  is_Some (hw_hdrs h !! x) -> adds_hdrs l h h' ->
  adds_hdrs l (h <| hw_hdrs := delete x (hw_hdrs h) |>) (h' <| hw_hdrs := delete x (hw_hdrs h') |>).
Proof.
  revert h. induction l as [|y l IH]; intros h Hx; simpl; [by intros ->|].
  intros (h1 & (H0 & Hy & a & ->) & Hl).
  assert (x <> y) as Hxy by (intros ->; destruct Hx; congruence).
  eexists. split; [|apply IH; [|exact Hl]].
  - split; [done|]. split; [simpl; by rewrite lookup_delete_ne|]. exists a. simpl.
    by rewrite delete_insert_ne.
  - simpl. by rewrite lookup_insert_ne.
Qed.

Lemma adds_dels_hdrs l h h1 h2 : adds_hdrs l h h1 -> dels_hdrs l h1 h2 -> h2 = h.
Proof.
  revert h h1. induction l as [|x l IH]; intros h h1; simpl.
  - intros -> ->. by destruct h.
  - intros (h' & (H0 & Hx & a & ->) & Hl) Hd.
    apply (adds_hdrs_delete _ x) in Hl; [|simpl; rewrite lookup_insert_eq; eauto].
    rewrite (IH _ _ Hl); [|by rewrite Hd]. destruct h as [hs rs fs]. unfold field_update. simpl. f_equal.
    by rewrite delete_insert_id.
Qed.

Section table.
Context {X Y K E : Type} `{HK : IpaKernelOk K} `{HE : LanEnv E} (fds : ipa_fds) `{!IpaReliable K fds}.
Implicit Types (o : client_iface X Y) (c : ipa_client X) (k : K) (e : E) (t : ipa_ioc_tx_intf_prop).

(** ** Routing rules *)

Lemma keeps_v4_same a l hl :
  Forall2 (keeps IPA_IP_v4 a) l hl ->
  Forall2 (fun h h' => rt_rule_hdl_v6 h' = rt_rule_hdl_v6 h /\ rt_rule_hdl_v6_wan h' = rt_rule_hdl_v6_wan h) l hl.
Proof. done. Qed.

Lemma set_hdls_wf tx ip c hl :
  client_wf tx c -> Forall2 (keeps ip (route_rule_set_v6 c)) (rt_hdl c) hl -> client_wf tx (c <| rt_hdl := hl |>).
Proof.
  intros Hwf Hf. split; simpl; try apply Hwf.
  - rewrite <- (Forall2_length _ _ _ Hf). apply Hwf.
  - apply Forall_lookup. intros j h' Hj. destruct (Forall2_lookup_r _ _ _ _ _ Hf Hj) as (h & Hh & Hk).
    destruct (Forall_lookup_1 _ _ _ _ (wf_v6_hdl _ _ Hwf) Hh). destruct ip; simpl in Hk.
    + by destruct Hk as [-> ->].
    + destruct Hk as (_ & -> & -> & _). done.
    + destruct Hk as (_ & -> & -> & _). done.
Qed.

Lemma set_hdls_v4_rules odu tx ip c hl :
  ip <> IPA_IP_v4 -> Forall2 (keeps ip (route_rule_set_v6 c)) (rt_hdl c) hl ->
  v4_rules odu tx (c <| rt_hdl := hl |>) = v4_rules odu tx c.
Proof.
  intros Hip Hf. unfold v4_rules. f_equal. symmetry. eapply zip_entries_ext; [exact Hf|].
  intros t h h' Hk. unfold v4_entry. destruct ip; [done| |]; destruct Hk as [-> _]; done.
Qed.

Lemma set_hdls_v6_rules tx ip c hl :
  Forall2 (keeps ip (route_rule_set_v6 c)) (rt_hdl c) hl ->
  v6_rules 0 (route_rule_set_v6 c) tx (c <| rt_hdl := hl |>) = v6_rules 0 (route_rule_set_v6 c) tx c.
Proof.
  intros Hf. unfold v6_rules. f_equal. symmetry. eapply zip_entries_ext; [exact Hf|].
  intros t h h' Hk. unfold v6_entries. destruct (bool_decide _); [|done]. apply range_ext. intros j Hj.
  unfold v6_entry. simpl. rewrite !list_lookup_total_alt. destruct ip; simpl in Hk.
  - by destruct Hk as [-> ->].
  - destruct Hk as (_ & _ & _ & Hk). destruct (Hk j) as [-> ->]; [lia|done].
  - destruct Hk as (_ & _ & _ & Hk). destruct (Hk j) as [-> ->]; [lia|done].
Qed.

Lemma set_hdls_rules odu tx ip c hl :
  Forall2 (keeps ip (route_rule_set_v6 c)) (rt_hdl c) hl -> (ip = IPA_IP_v4 -> route_rule_set_v4 c = false) ->
  client_rules odu tx (c <| rt_hdl := hl |>) = client_rules odu tx c.
Proof.
  intros Hf Hip. unfold client_rules.
  change (route_rule_set_v6 (c <| rt_hdl := hl |>)) with (route_rule_set_v6 c).
  change (route_rule_set_v4 (c <| rt_hdl := hl |>)) with (route_rule_set_v4 c).
  rewrite (set_hdls_v6_rules tx ip c hl Hf).
  destruct (route_rule_set_v4 c) eqn:Hr4; [|done]. rewrite (set_hdls_v4_rules odu tx ip c hl); [done| |done].
  intros ->. by specialize (Hip eq_refl).
Qed.

Lemma v6_rules_split a b tx c :
  (a <= b)%nat -> v6_rules 0 b tx c ≡ₚ v6_rules a (b - a) tx c ++ v6_rules 0 a tx c.
Proof.
  intros Hab. unfold v6_rules. generalize (rt_hdl c). induction tx as [|t tx IH]; intros [|h l]; simpl; try done.
  rewrite IH. assert (v6_entries c 0 b t h = v6_entries c 0 a t h ++ v6_entries c a (b - a) t h) as ->.
  { unfold v6_entries. destruct (bool_decide _); [|done]. replace b with (a + (b - a))%nat at 1 by lia.
    by rewrite range_split. }
  solve_Permutation.
Qed.

(** Marking the rules as set gives the new rules on top of the old. *)
Lemma mark_routes_rules odu tx ip c :
  needs_routes ip c = true ->
  client_rules odu tx (mark_routes ip c) ≡ₚ new_rules odu ip tx c ++ client_rules odu tx c.
Proof.
  unfold needs_routes, client_rules. destruct ip; [intros [Hr _]%andb_prop|intros Hlt%Nat.ltb_lt|done]; simpl.
  - apply negb_true_iff in Hr. rewrite Hr. simpl. done.
  - change (v6_rules 0 (ipv6_set c) tx (mark_routes IPA_IP_v6 c)) with (v6_rules 0 (ipv6_set c) tx c).
    rewrite (v6_rules_split (route_rule_set_v6 c) (ipv6_set c) tx c) by lia.
    change (v4_rules odu tx (mark_routes IPA_IP_v6 c)) with (v4_rules odu tx c). solve_Permutation.
Qed.

Lemma mark_routes_wf tx ip c : client_wf tx c -> needs_routes ip c = true -> client_wf tx (mark_routes ip c).
Proof.
  intros Hwf Hn. unfold needs_routes in Hn. destruct ip; [| |done]; split; simpl; try apply Hwf.
  - intros _. by apply andb_prop in Hn as [_ ?].
  - done.
Qed.

Lemma add_routes_kept `{!LanEnvOk E} odu cap ip o k e i c :
  table_ok odu cap (o, (k, e)) -> slot o i = Some c -> (i < num_client o)%nat ->
  ip <> IPA_IP_MAX -> needs_routes ip c = true ->
  wp (add_routes fds odu i ip) (fun r s' =>
    table_ok odu cap s' /\ num_client (s').1 = num_client o /\ same_iface o (s').1 /\ (s').2.2 = e /\
    (r = IPACM_FAILURE \/ r = IPACM_SUCCESS)) (o, (k, e)).
Proof.
  intros [Hinv He] Hs Hi Hip Hneed. cbn [fst snd] in Hinv, He. pose proof (table_slot _ _ _ _ _ _ Hinv Hs) as Hwf.
  eapply wp_mono; [by apply (add_routes_ok fds odu ip o k e i c)|].
  intros r [o' [k' e']] (hl & Hf & Hr). pose proof (set_hdls_wf _ ip c hl Hwf Hf) as Hwf'.
  assert (client_rules odu (default [] (tx_prop o)) (c <| rt_hdl := hl |>) =
          client_rules odu (default [] (tx_prop o)) c) as Hold.
  { apply (set_hdls_rules odu _ ip); [done|]. intros ->. simpl in Hneed. by destruct (route_rule_set_v4 c). }
  destruct Hr as [(-> & rs & Ho & He' & Ha)|(-> & Ho & He' & Ha)]; cbn [fst snd] in *; subst o' e'.
  - split_and!; [|done|by apply same_iface_slot; destruct ip|done|by left]. split; [|done].
    apply (table_inv_slot _ _ _ _ _ _ c _ Hinv); try done.
    + intros rest. rewrite Hold. intros Hin. eapply installed_app. by eapply installed_adds.
    + intros rest. apply installed_hdrs_ext. cbn [fst snd]. by destruct Ha as (_ & _ & ->).
  - split_and!; [|done|by apply same_iface_slot; destruct ip|done|by right]. split; [|done].
    apply (table_inv_slot _ _ _ _ _ _ c _ Hinv); try done.
    + by apply mark_routes_wf.
    + intros rest Hin. rewrite mark_routes_rules by done. rewrite Hold, <- app_assoc.
      by eapply installed_adds.
    + intros rest Hin. apply (installed_hdrs_ext _ (hw_of k)); [cbn [fst snd]; by destruct Ha as (_ & _ & ->)|]. by destruct ip.
Qed.

(** ** Addresses *)

Lemma v6_rules_addr_ext tx c c' n :
  rt_hdl c' = rt_hdl c -> hdr_hdl_v6 c' = hdr_hdl_v6 c ->
  (forall j, (j < n)%nat -> v6_addr c' !! j = v6_addr c !! j) ->
  v6_rules 0 n tx c' = v6_rules 0 n tx c.
Proof.
  intros Hh Hd Hj. unfold v6_rules. rewrite Hh. f_equal.
  apply (zip_entries_ext _ _ eq); [by apply Forall2_same_length_lookup_2; [|intros; congruence]|].
  intros t h ? <-. unfold v6_entries. destruct (bool_decide _); [|done]. apply range_ext. intros j Hlt.
  unfold v6_entry, v6_wan_rule. rewrite !list_lookup_total_alt, Hd. by rewrite Hj by lia.
Qed.

(** The rules of one type. *)
Definition rules_of (ip : ipa_ip_type) odu tx c : list rt_entry :=
  match ip with
  | IPA_IP_v4 => if route_rule_set_v4 c then v4_rules odu tx c else []
  | IPA_IP_v6 => v6_rules 0 (route_rule_set_v6 c) tx c
  | IPA_IP_MAX => []
  end.

(** Deleting the rules of a client in use keeps the invariant. *)
Lemma delete_v4_kept `{!LanEnvOk E} odu cap o k e i c :
  table_ok odu cap (o, (k, e)) -> slot o i = Some c -> (i < num_client o)%nat ->
  wp (delete_rtrules fds i IPA_IP_v4) (fun r s' =>
    r = IPACM_SUCCESS /\ table_ok odu cap s' /\ (s').2.2 = e /\
    (s').1 = with_slot (fun c => c <| route_rule_set_v4 := false |>) i o /\
    dels_rts (rules_of IPA_IP_v4 odu (default [] (tx_prop o)) c).*1 (hw_of k) (hw_of (s').2.1)) (o, (k, e)).
Proof.
  intros [Hinv He] Hs Hi. cbn [fst snd] in Hinv, He. pose proof (table_slot _ _ _ _ _ _ Hinv Hs) as Hwf.
  destruct (all_rules_with odu (fun c => c) i o c Hs Hi) as (rest & HR & _).
  pose proof (ti_rules _ _ _ _ Hinv) as Hr. rewrite HR in Hr. apply installed_app in Hr as [Hr _].
  eapply wp_mono; [apply (delete_v4_ok fds odu o k e i c Hs Hwf)|].
  { intros Hset kr Hin. eapply installed_nonzero; [exact Hr|]. unfold client_rules. rewrite Hset.
    apply elem_of_app. by left. }
  intros r [o' [k' e']] (-> & Ho & He' & Hd). cbn [fst snd] in Ho, He', Hd. subst o' e'.
  refine (conj eq_refl (conj (conj _ He) (conj eq_refl (conj eq_refl Hd)))).
  apply (table_inv_slot _ _ _ _ _ _ c _ Hinv Hs Hi).
  - destruct Hwf; by split.
  - intros rest'. unfold client_rules. rewrite <- app_assoc. intros Hin. by eapply installed_dels.
  - intros rest'. apply installed_hdrs_ext. cbn [fst snd]. by rewrite Hd.
Qed.

Lemma v6_rules_none tx c a : v6_rules a 0 tx c = [].
Proof.
  unfold v6_rules. assert (forall t h, v6_entries c a 0 t h = []) as He.
  { intros t h. unfold v6_entries. by destruct (bool_decide _). }
  generalize (rt_hdl c). induction tx as [|t tx IH]; intros [|h l]; simpl; try done. by rewrite He, IH.
Qed.

Lemma delete_v6_kept `{!LanEnvOk E} odu cap o k e i c :
  table_ok odu cap (o, (k, e)) -> slot o i = Some c -> (i < num_client o)%nat ->
  wp (delete_rtrules fds i IPA_IP_v6) (fun r s' =>
    r = IPACM_SUCCESS /\ table_ok odu cap s' /\ (s').2.2 = e /\
    (s').1 = with_slot (fun c => c <| route_rule_set_v6 := 0%nat |>) i o /\
    dels_rts (rules_of IPA_IP_v6 odu (default [] (tx_prop o)) c).*1 (hw_of k) (hw_of (s').2.1)) (o, (k, e)).
Proof.
  intros [Hinv He] Hs Hi. cbn [fst snd] in Hinv, He. pose proof (table_slot _ _ _ _ _ _ Hinv Hs) as Hwf.
  destruct (all_rules_with odu (fun c => c) i o c Hs Hi) as (rest & HR & _).
  pose proof (ti_rules _ _ _ _ Hinv) as Hr. rewrite HR in Hr. apply installed_app in Hr as [Hr _].
  eapply wp_mono; [apply (delete_v6_ok fds o k e i c Hs Hwf)|].
  { intros kr Hin. eapply installed_nonzero; [exact Hr|]. unfold client_rules. apply elem_of_app. by right. }
  intros r [o' [k' e']] (-> & Ho & He' & Hd). cbn [fst snd] in Ho, He', Hd. subst o' e'.
  refine (conj eq_refl (conj (conj _ He) (conj eq_refl (conj eq_refl Hd)))).
  apply (table_inv_slot _ _ _ _ _ _ c _ Hinv Hs Hi).
  - destruct Hwf; split; simpl; try done. lia.
  - intros rest'. unfold client_rules.
    change (route_rule_set_v6 (c <| route_rule_set_v6 := 0%nat |>)) with 0%nat.
    rewrite v6_rules_none, app_nil_r. intros Hin.
    eapply (installed_dels _ (v6_rules 0 (route_rule_set_v6 c) (default [] (tx_prop o)) c)); [|exact Hd].
    eapply installed_perm; [|done|exact Hin]. solve_Permutation.
  - intros rest'. apply installed_hdrs_ext. cbn [fst snd]. by rewrite Hd.
Qed.

(** A change of a record in use that leaves what it has installed. *)
Lemma table_inv_same odu cap o h f i c :
  table_inv odu cap o h -> slot o i = Some c -> (i < num_client o)%nat ->
  client_wf (default [] (tx_prop o)) (f c) ->
  client_rules odu (default [] (tx_prop o)) (f c) = client_rules odu (default [] (tx_prop o)) c ->
  client_hdrs (f c) = client_hdrs c -> table_inv odu cap (with_slot f i o) h.
Proof.
  intros Hinv Hs Hi Hwf Hr Hh. apply (table_inv_slot _ _ _ _ _ _ c _ Hinv Hs Hi Hwf); by rewrite ?Hr, ?Hh.
Qed.

Lemma set_addr4_inv odu cap o h i c addr :
  table_inv odu cap o h -> slot o i = Some c -> (i < num_client o)%nat -> route_rule_set_v4 c = false ->
  table_inv odu cap (with_slot (fun c => c <| v4_addr := addr |> <| ipv4_set := true |>) i o) h.
Proof.
  intros Hinv Hs Hi Hr. pose proof (table_slot _ _ _ _ _ _ Hinv Hs) as Hwf.
  apply (table_inv_same _ _ _ _ _ _ c Hinv Hs Hi); [by destruct Hwf; split| |done].
  unfold client_rules. cbn. rewrite Hr. done.
Qed.

Lemma set_addr6_inv odu cap o h i c l :
  table_inv odu cap o h -> slot o i = Some c -> (i < num_client o)%nat -> (ipv6_set c < IPV6_NUM_ADDR)%nat ->
  length l = length (v6_addr c) -> (forall j, (j < ipv6_set c)%nat -> l !! j = v6_addr c !! j) ->
  table_inv odu cap (with_slot (fun c => c <| v6_addr := l |> <| ipv6_set := S (ipv6_set c) |>) i o) h.
Proof.
  intros Hinv Hs Hi Hn Hl Hj. pose proof (table_slot _ _ _ _ _ _ Hinv Hs) as Hwf.
  pose proof (wf_v6_routes _ _ Hwf). apply (table_inv_same _ _ _ _ _ _ c Hinv Hs Hi); [| |done].
  - split; simpl; try apply Hwf; [|lia|lia]. rewrite Hl. apply Hwf.
  - unfold client_rules. f_equal. apply v6_rules_addr_ext; [done|done|]. intros j Hlt. apply Hj.
    change (j < route_rule_set_v6 c)%nat in Hlt. lia.
Qed.

Lemma client_ipaddr_kept `{!LanEnvOk E} odu cap data (s : client_iface X Y * (K * E)) :
  table_ok odu cap s ->
  wp (client_ipaddr fds data) (fun r s' =>
    table_ok odu cap s' /\ num_client (s').1 = num_client (fst s) /\ same_iface (fst s) (s').1 /\
    (r = IPACM_FAILURE \/ r = IPACM_SUCCESS)) s.
Proof.
  destruct s as [o [k e]]. intros Hok. pose proof Hok as [Hinv He]. cbn [fst snd] in *.
  assert (same_iface o o) as Hrefl by apply same_iface_refl.
  unfold client_ipaddr. wsteps. destruct (get_client_index _ _) as [i|] eqn:Hi; [|wsteps; by auto].
  apply get_client_index_Some in Hi as (Hi & c & Hs & _).
  wstep. apply (wp_get_client _ c); [done|].
  destruct (bool_decide (da_iptype data = IPA_IP_v4)).
  - destruct (da_ipv4_addr data =? 0); [wsteps; by auto|]. destruct (ipv4_set c) eqn:Hset; cbn [negb].
    + destruct (da_ipv4_addr data =? v4_addr c); [wsteps; by auto|].
      destruct (env_neigh_del (v4_addr c) e He) as (e' & Hdel & He').
      wstep. eapply wp_call; [exact Hdel|]. wstep.
      eapply wp_mono; [by apply (delete_v4_kept odu cap o k e' i c)|].
      intros r [o1 [k1 e1]] (-> & [Hinv1 He1] & _ & Ho1 & _). cbn [fst snd] in *. subst o1.
      wstep. apply (wp_set_client _ (c <| route_rule_set_v4 := false |>)); [cbn [fst]; by rewrite slot_with, Hs|].
      wsteps. cbn [fst snd]. rewrite with_slot_with.
      refine (conj (conj _ He1) (conj eq_refl (conj (same_iface_slot _ _ _ _) (or_intror eq_refl)))); [|done].
      cbn [fst snd].
      rewrite (with_slot_ext _ (fun c => (c <| route_rule_set_v4 := false |>) <| v4_addr := da_ipv4_addr data |>
        <| ipv4_set := true |>)); [|intros c' Hc'; replace c' with c by congruence; destruct c; simpl in *; by subst].
      rewrite <- (with_slot_with (fun c => c <| route_rule_set_v4 := false |>)
        (fun c => c <| v4_addr := da_ipv4_addr data |> <| ipv4_set := true |>)).
      apply (set_addr4_inv _ _ _ _ _ (c <| route_rule_set_v4 := false |>)); try done. by rewrite slot_with, Hs.
    + wstep. apply (wp_set_client _ c); [done|]. wsteps.
      refine (conj (conj _ He) (conj eq_refl (conj (same_iface_slot _ _ _ _) (or_intror eq_refl)))); [|done].
      apply (set_addr4_inv _ _ _ _ _ c); try done. destruct (route_rule_set_v4 c) eqn:Hr; [|done].
      apply (wf_v4_routes _ _ (table_slot _ _ _ _ _ _ Hinv Hs)) in Hr. congruence.
  - destruct (v6_zero _); [wsteps; by auto|].
    destruct (Nat.ltb_spec (ipv6_set c) IPV6_NUM_ADDR); [|wsteps; by auto].
    destruct (existsb _ _); [wsteps; by auto|].
    pose proof (wf_v6_addr _ _ (table_slot _ _ _ _ _ _ Hinv Hs)) as Hlen.
    wstep. eapply wp_deref.
    { unfold store. rewrite Hlen. by destruct (Nat.ltb_spec (ipv6_set c) IPV6_NUM_ADDR); [|lia]. }
    wstep. apply (wp_set_client _ c); [done|]. wsteps.
    refine (conj (conj _ He) (conj eq_refl (conj (same_iface_slot _ _ _ _) (or_intror eq_refl)))); [|done].
    apply (set_addr6_inv _ _ _ _ _ c); try done; [apply length_insert|].
    intros j Hj. apply list_lookup_insert_ne. lia.
Qed.

(** ** Headers *)

(** Completing a template keeps the buffer's size and turns the MAC address of
    record [i] into [g] of it. *)
Definition fill_ok (g : list Z -> list Z) (i : nat)
    (fill : ipa_ioc_copy_hdr -> list Z -> M (client_iface X Y * (K * E)) (list Z)) : Prop :=
  forall (ch : ipa_ioc_copy_hdr) buf o ke c (Q : list Z -> _ -> Prop),
    slot o i = Some c -> Z.of_nat (length buf) = IPA_HDR_MAX_SIZE ->
    (is_eth2_ofst_valid ch = true -> 0 <= eth2_ofst ch /\ eth2_ofst ch + 12 <= IPA_HDR_MAX_SIZE) ->
    (forall buf', Z.of_nat (length buf') = IPA_HDR_MAX_SIZE ->
       Q buf' (with_slot (fun c => c <| mac := g (mac c) |>) i o, ke)) ->
    wp (fill ch buf) Q (o, ke).

Lemma with_mac_id i o c : slot o i = Some c -> with_slot (fun c' => c' <| mac := mac c |>) i o = o.
Proof.
  intros Hs. rewrite <- (with_slot_id i o) at 2. apply with_slot_ext. intros c' Hc'.
  replace c' with c by congruence. by destruct c.
Qed.

Lemma write_bytes_ok ofst bytes (buf : list Z) :
  0 <= ofst -> ofst + Z.of_nat (length bytes) <= Z.of_nat (length buf) ->
  exists buf', write_bytes ofst bytes buf = Some buf' /\ length buf' = length buf.
Proof.
  intros H0 Hle. unfold write_bytes. rewrite (proj2 (Z.leb_le _ _) H0), (proj2 (Z.leb_le _ _) Hle). simpl.
  eexists. split; [done|]. rewrite !length_app, length_take, length_drop. lia.
Qed.

Lemma CopyHeader_ok name k :
  let '(ok, c, k') := CopyHeader fds name k in
  hw_of k' = hw_of k /\ (ok = true -> 0 <= ch_hdr_len c /\
    Z.of_nat (length (ch_hdr c)) = IPA_HDR_MAX_SIZE /\
    (is_eth2_ofst_valid c = true -> 0 <= eth2_ofst c /\ eth2_ofst c + 12 <= IPA_HDR_MAX_SIZE)).
Proof.
  unfold CopyHeader. rewrite (rel_header (fds := fds)). simpl.
  pose proof (ok_copy_hdr (header_fd fds) name k) as Hc.
  destruct (ioctl_copy_hdr _ _ _) as [[r c'] k']. destruct Hc as [? Hc]. split; [done|].
  intros Hr. bool_to_prop. by apply Hc.
Qed.

Lemma AddHeader_ok a k :
  let '(ok, out, k') := AddHeader fds a k in
  if negb ok || negb (out_status out =? 0) then hw_of k' = hw_of k
  else adds_hdr (out_hdl out) (hw_of k) (hw_of k').
Proof.
  unfold AddHeader. pose proof (ok_add_hdr (header_fd fds) a k) as Ha.
  destruct (ioctl_add_hdr (header_fd fds) a k) as [[r out] k'].
  destruct Ha as [[Hk' Hr]|(Hr & Hst & Hx & Hfree & Hk')].
  - assert (negb (negb (r =? -1)) || negb (out_status out =? 0) = true) as ->; [|done].
    destruct Hr as [->|Hr]; [done|]. apply orb_true_iff. right. by apply negb_true_iff, Z.eqb_neq.
  - assert (negb (negb (r =? -1)) || negb (out_status out =? 0) = false) as ->.
    { rewrite negb_involutive, Hst. simpl. rewrite orb_false_r. by apply Z.eqb_neq. }
    split; [done|]. split; [done|]. eauto.
Qed.

Lemma add_full_header_ok g i base fill buf t o k e c :
  fill_ok g i fill -> slot o i = Some c -> Z.of_nat (length buf) = IPA_HDR_MAX_SIZE ->
  wp (add_full_header fds base fill buf t) (fun r s' => (s').2.2 = e /\ exists m,
    (s').1 = with_slot (fun c => c <| mac := m |>) i o /\
    match r with
    | None => hw_of (s').2.1 = hw_of k
    | Some (x, buf') =>
        m = g (mac c) /\ Z.of_nat (length buf') = IPA_HDR_MAX_SIZE /\ adds_hdr x (hw_of k) (hw_of (s').2.1)
    end) (o, (k, e)).
Proof.
  intros Hfill Hs Hbuf. unfold add_full_header. wstep.
  pose proof (CopyHeader_ok (hdr_name t) k) as Hc.
  destruct (CopyHeader fds (hdr_name t) k) as [[ok ch] k1] eqn:Hcopy. destruct Hc as [Hk1 Hc].
  assert (exists m, o = with_slot (fun c => c <| mac := m |>) i o) as [m0 Hm0].
  { exists (mac c). by rewrite (with_mac_id i o c Hs). }
  eapply wp_hw; [done|]. destruct ok; cbn [negb]; [|wsteps; by eauto]. specialize (Hc eq_refl) as (H0 & Hl & Hofst).
  destruct (Z.ltb_spec IPA_HDR_MAX_SIZE (ch_hdr_len ch)); [wsteps; by eauto|].
  destruct (write_bytes_ok 0 (take (Z.to_nat (ch_hdr_len ch)) (ch_hdr ch)) buf) as (buf1 & Hw & Hb1);
    [lia|rewrite length_take; lia|].
  wstep. eapply wp_deref; [exact Hw|]. wstep. eapply Hfill; [done|lia|done|]. intros buf2 Hb2. wsteps.
  rewrite (with_slot_ext _ (fun c' => c' <| mac := g (mac c) |>)); [|intros c' Hc'; by replace c' with c by congruence].
  cbn [fst]. destruct (header_name base _) as [name|]; [|wsteps; by eauto]. wstep.
  pose proof (AddHeader_ok {| ha_name := name; ha_hdr := buf2; ha_hdr_len := ch_hdr_len ch |} k1) as Ha.
  destruct (AddHeader fds _ k1) as [[r out] k2] eqn:Hadd. eapply wp_hw; [done|].
  cbn beta iota. destruct (_ || _); wsteps; cbn [fst snd]; rewrite <- Hk1; (split; [done|]); by exists (g (mac c)).
Qed.

Lemma find_tx ip tx : has_tx ip tx = match List.find (fun t => bool_decide (tx_ip t = ip)) tx with Some _ => true | None => false end.
Proof. unfold has_tx. induction tx as [|t tx IH]; simpl; [done|]. by destruct (bool_decide _). Qed.

(** One of the loops: the header of the IP type is new, if there is to be one. *)
Lemma init_header_ok g ip base fill set i buf o k e c :
  fill_ok g i fill -> slot o i = Some c -> Z.of_nat (length buf) = IPA_HDR_MAX_SIZE ->
  wp (init_header fds ip base fill set i buf) (fun r s' => (s').2.2 = e /\
    match r with
    | None => hw_of (s').2.1 = hw_of k /\ exists m, (s').1 = with_slot (fun c => c <| mac := m |>) i o
    | Some buf' => Z.of_nat (length buf') = IPA_HDR_MAX_SIZE /\
        if has_tx ip (default [] (tx_prop o))
        then exists x, adds_hdr x (hw_of k) (hw_of (s').2.1) /\
               (s').1 = with_slot (fun c => set x (c <| mac := g (mac c) |>)) i o
        else hw_of (s').2.1 = hw_of k /\ (s').1 = o
    end) (o, (k, e)).
Proof.
  intros Hfill Hs Hbuf. unfold init_header. wsteps. cbn [fst]. rewrite find_tx.
  destruct (List.find _ _) as [t|]; [|by wsteps].
  wstep. eapply wp_mono; [by apply (add_full_header_ok g i base fill buf t o k e c)|].
  intros r [o1 [k1 e1]] (He & m & Ho & Hr). cbn [fst snd] in *. subst o1 e1.
  destruct r as [[x buf']|]; [|wsteps; by eauto].
  destruct Hr as (-> & Hb & Ha). wstep.
  apply (wp_set_client _ (c <| mac := g (mac c) |>)); [cbn [fst]; by rewrite slot_with, Hs|]. wsteps. cbn [fst snd].
  rewrite with_slot_with. split_and!; try done. exists x. split; [done|]. apply with_slot_ext.
  intros c' Hc'. by replace c' with c by congruence.
Qed.

(** The change of a record by one of the loops. *)
Definition hdr_step (ip : ipa_ip_type) (tx : list ipa_ioc_tx_intf_prop) (g : list Z -> list Z)
    (set : Z -> ipa_client X -> ipa_client X) (x : Z) c : ipa_client X :=
  if has_tx ip tx then set x (c <| mac := g (mac c) |>) else c.

Definition new_hdrs (tx : list ipa_ioc_tx_intf_prop) (x4 x6 : Z) : list Z :=
  (if has_tx IPA_IP_v4 tx then [x4] else []) ++ (if has_tx IPA_IP_v6 tx then [x6] else []).

Definition hdr_client tx g x4 x6 c : ipa_client X :=
  hdr_step IPA_IP_v6 tx g set_hdr_v6 x6 (hdr_step IPA_IP_v4 tx g set_hdr_v4 x4 c).

Lemma hdr_client_wf tx g x4 x6 c : client_wf tx c -> client_wf tx (hdr_client tx g x4 x6 c).
Proof.
  intros Hwf. unfold hdr_client, hdr_step. destruct (has_tx IPA_IP_v4 tx) eqn:H4, (has_tx IPA_IP_v6 tx) eqn:H6;
    try done; split; simpl; try apply Hwf; done.
Qed.

Lemma hdr_client_hdrs tx g x4 x6 c : client_wf tx c -> client_hdrs (hdr_client tx g x4 x6 c) = new_hdrs tx x4 x6.
Proof.
  intros Hwf. unfold hdr_client, hdr_step, new_hdrs, client_hdrs.
  pose proof (wf_v4_header _ _ Hwf). pose proof (wf_v6_header _ _ Hwf).
  destruct (has_tx IPA_IP_v4 tx) eqn:H4, (has_tx IPA_IP_v6 tx) eqn:H6; simpl; try done;
    destruct (ipv4_header_set c), (ipv6_header_set c); naive_solver.
Qed.

(** Both loops: the headers are there, or at most the first one is left behind. *)
Lemma init_headers_ok g base4 base6 fill i o k e c :
  fill_ok g i fill -> slot o i = Some c -> client_wf (default [] (tx_prop o)) c ->
  wp (init_headers fds base4 base6 fill i) (fun ok s' => (s').2.2 = e /\
    if ok : bool
    then exists x4 x6, adds_hdrs (new_hdrs (default [] (tx_prop o)) x4 x6) (hw_of k) (hw_of (s').2.1) /\
           (s').1 = with_slot (hdr_client (default [] (tx_prop o)) g x4 x6) i o
    else (exists l, adds_hdrs l (hw_of k) (hw_of (s').2.1)) /\
         exists f, client_wf (default [] (tx_prop o)) (f c) /\ (s').1 = with_slot f i o) (o, (k, e)).
Proof.
  intros Hfill Hs Hwf. unfold init_headers. set (tx := default [] (tx_prop o)) in *. wstep.
  eapply wp_mono; [apply (init_header_ok g IPA_IP_v4 base4 fill set_hdr_v4 i _ o k e c); [done|done|]|].
  { rewrite length_replicate. pose proof ok_hdr_max. lia. }
  intros r [o1 [k1 e1]] (He & Hr). cbn [fst snd] in *. subst e1. fold tx in Hr.
  destruct r as [buf|].
  2:{ destruct Hr as (Hk & m & ->). wsteps. split; [done|]. split; [exists []; by rewrite <- Hk|].
      exists (fun c => c <| mac := m |>). split; [|done]. destruct Hwf; by split. }
  destruct Hr as (Hb & Hr).
  assert (exists x4, adds_hdrs (if has_tx IPA_IP_v4 tx then [x4] else []) (hw_of k) (hw_of k1) /\
    o1 = with_slot (hdr_step IPA_IP_v4 tx g set_hdr_v4 x4) i o) as (x4 & Ha4 & ->).
  { unfold hdr_step. destruct (has_tx IPA_IP_v4 tx).
    - destruct Hr as (x & Ha & ->). exists x. split; [|done]. by exists (hw_of k1).
    - destruct Hr as (Hk & ->). exists 0. split; [done|]. by rewrite with_slot_id. }
  set (c4 := hdr_step IPA_IP_v4 tx g set_hdr_v4 x4 c).
  assert (slot (with_slot (hdr_step IPA_IP_v4 tx g set_hdr_v4 x4) i o) i = Some c4) as Hs4
    by by rewrite slot_with, Hs.
  assert (client_wf tx c4) as Hwf4.
  { unfold c4, hdr_step. destruct (has_tx IPA_IP_v4 tx) eqn:H4; [|done]. split; simpl; try apply Hwf. done. }
  wstep. eapply wp_mono; [by apply (init_header_ok g IPA_IP_v6 base6 fill set_hdr_v6 i buf _ k1 e c4)|].
  intros r [o2 [k2 e2]] (He & Hr6). cbn [fst snd] in *. subst e2. wsteps. cbn [fst snd]. fold tx in Hr6.
  change (tx_prop (with_slot (hdr_step IPA_IP_v4 tx g set_hdr_v4 x4) i o)) with (tx_prop o) in Hr6.
  split; [done|]. destruct r as [buf'|].
  - destruct Hr6 as (_ & Hr6). fold tx in Hr6. unfold new_hdrs, hdr_client.
    destruct (has_tx IPA_IP_v6 tx) eqn:H6.
    + destruct Hr6 as (x6 & Ha6 & ->). exists x4, x6. split.
      * destruct (has_tx IPA_IP_v4 tx); simpl in *.
        -- destruct Ha4 as (h1 & Ha4 & Hk1). exists h1. split; [done|]. subst h1. by exists (hw_of k2).
        -- rewrite <- Ha4. by exists (hw_of k2).
      * rewrite with_slot_with. apply with_slot_ext. intros c' _. unfold hdr_step. by rewrite H6.
    + destruct Hr6 as (Hk & ->). exists x4, 0. rewrite app_nil_r, Hk. split; [done|].
      apply with_slot_ext. intros c' _. unfold hdr_step. by rewrite H6.
  - destruct Hr6 as (Hk & m & ->). split; [rewrite Hk; by eexists|].
    exists (fun c => hdr_step IPA_IP_v4 tx g set_hdr_v4 x4 c <| mac := m |>). rewrite with_slot_with.
    split; [|done]. fold c4. destruct Hwf4; by split.
Qed.

(** ** A new client *)

Lemma clients_of_count (f : ipa_client X -> ipa_client X) o c :
  slot o (num_client o) = Some c ->
  clients_of (with_slot f (num_client o) o <| num_client := S (num_client o) |>
    <| header_name_count := S (header_name_count o) |>) = clients_of o ++ [f c].
Proof.
  intros (cs & Hcs & Hc)%slot_some. unfold clients_of, with_slot. simpl. rewrite Hcs. simpl.
  rewrite (take_S_r _ _ (f c)); [|rewrite list_lookup_alter_eq, Hc; done]. f_equal.
  apply list_eq. intros j. destruct (decide (j < num_client o)%nat).
  - rewrite !lookup_take_lt by done. by rewrite list_lookup_alter_ne by lia.
  - by rewrite !lookup_take_ge by lia.
Qed.

Lemma table_inv_attach odu cap o h h' f c l :
  table_inv odu cap o h -> slot o (num_client o) = Some c -> (num_client o < cap)%nat ->
  client_wf (default [] (tx_prop o)) (f c) -> client_rules odu (default [] (tx_prop o)) (f c) = [] ->
  client_hdrs (f c) = l -> adds_hdrs l h h' ->
  table_inv odu cap (with_slot f (num_client o) o <| num_client := S (num_client o) |>
    <| header_name_count := S (header_name_count o) |>) h'.
Proof.
  intros [(cs & Hcs & Hlen & Hwf) Hnum Hr Hh] Hs Hi Hf HR <- Ha. split.
  - destruct (with_slot_wf _ f _ o c cs Hcs Hwf Hs Hf) as (cs' & ? & ? & ?). exists cs'. by rewrite <- Hlen.
  - simpl. lia.
  - unfold all_rules. rewrite (clients_of_count f o c Hs), fmap_app, concat_app. simpl. rewrite HR, app_nil_r.
    by eapply installed_ext; [eapply adds_hdrs_rts|].
  - unfold all_hdrs. rewrite (clients_of_count f o c Hs), fmap_app, concat_app. simpl. rewrite app_nil_r.
    rewrite (Permutation_app_comm _ (client_hdrs (f c))). by eapply installed_hdrs_adds.
Qed.

(** ** Methods that keep an invariant *)

Definition kept {A} (I : client_iface X Y * (K * E) -> Prop) (m : M (client_iface X Y * (K * E)) A) : Prop :=
  forall s, I s -> wp m (fun _ s' => I s') s.

Lemma kept_ret {A} I (x : A) : kept I (ret x).
Proof. intros s Hs. by wsteps. Qed.

Lemma kept_seq {A B} I (m : M (client_iface X Y * (K * E)) A) (m' : A -> M (client_iface X Y * (K * E)) B) :
  kept I m -> (forall x, kept I (m' x)) -> kept I (bind m m').
Proof. intros Hm Hm' s Hs. wstep. eapply wp_mono; [by apply Hm|]. intros x s' Hs'. by apply Hm'. Qed.

Lemma kept_for {Z' R} I (body : Z' -> M (client_iface X Y * (K * E)) (option R)) l :
  (forall x, x ∈ l -> kept I (body x)) -> kept I (for_each body l).
Proof.
  intros Hb s Hs. apply (wp_for_each body l (fun _ => I)); [done| |done].
  intros pre x post s' Hl Hs'. eapply wp_mono; [apply (Hb x); [|done]|by intros [r|]].
  rewrite Hl. apply elem_of_app. right. left.
Qed.

(** The invariant of a class: the table, and a property of what the operations on
    the table leave alone. *)
Section invariant.
Context `{!LanEnvOk E} (odu : option Z) (cap : nat) (P : client_iface X Y -> Prop).
Hypothesis P_same : forall o o', same_iface o o' -> P o -> P o'.

Definition iface_inv (s : client_iface X Y * (K * E)) : Prop := table_ok odu cap s /\ P (fst s).

(** Calls of the kernel that install nothing and calls of other components. *)
Lemma kept_malloc : kept iface_inv (hw malloc).
Proof.
  intros [o [k e]] [[Hi He] HP]. apply wp_malloc_any. intros ok k' Hk.
  split; [|done]. split; [|done]. cbn. by rewrite Hk.
Qed.

Lemma kept_call (f : E -> option E) :
  (forall e, env_ok e -> exists e', f e = Some e' /\ env_ok e') -> kept iface_inv (call f).
Proof. intros Hf [o [k e]] [[Hi He] HP]. destruct (Hf e He) as (e' & ? & ?). by eapply wp_call. Qed.

Lemma kept_post ev d : kept iface_inv (call (fun e => Some (post_lan_client ev d e))).
Proof. apply kept_call. intros e He. eexists. split; [done|]. by apply env_post. Qed.

Lemma client_active_kept this data ev : kept iface_inv (handle_lan2lan_client_active this data ev).
Proof.
  intros s Hs. unfold handle_lan2lan_client_active. wsteps.
  do 2 (destruct (_ && _); [by wsteps|]). revert s Hs. apply kept_seq; [apply kept_malloc|].
  intros [|]; [|apply kept_ret]. apply kept_seq; [apply kept_post|]. intros; apply kept_ret.
Qed.

Lemma post_one_kept ev d : kept iface_inv (post_one ev d).
Proof.
  apply kept_seq; [apply kept_malloc|]. intros [|]; [|apply kept_ret].
  apply kept_seq; [apply kept_post|]. intros; apply kept_ret.
Qed.

Lemma ipaddr_kept data : kept iface_inv (client_ipaddr fds data).
Proof.
  intros s [Ht HP]. eapply wp_mono; [by apply (client_ipaddr_kept odu cap data s)|].
  intros r s' (Ht' & _ & Hs & _). split; [done|]. by eapply P_same.
Qed.

Lemma routes_kept ip s i c :
  iface_inv s -> slot (fst s) i = Some c -> (i < num_client (fst s))%nat -> needs_routes ip c = true ->
  wp (add_routes fds odu i ip) (fun _ s' => iface_inv s') s.
Proof.
  destruct s as [o [k e]]. intros [Ht HP] Hs Hi Hn.
  eapply wp_mono; [apply (add_routes_kept odu cap ip o k e i c); [done|done|done|by destruct ip|done]|].
  intros r s' (Ht' & _ & Hsame & _). split; [done|]. by eapply P_same.
Qed.

(** Deleting the rules of one type. *)
Definition no_routes (ip : ipa_ip_type) c : ipa_client X :=
  match ip with
  | IPA_IP_v4 => c <| route_rule_set_v4 := false |>
  | IPA_IP_v6 => c <| route_rule_set_v6 := 0%nat |>
  | IPA_IP_MAX => c
  end.

Lemma delete_rt_kept ip s i c :
  iface_inv s -> slot (fst s) i = Some c -> (i < num_client (fst s))%nat ->
  wp (delete_rtrules fds i ip) (fun r s' => r = IPACM_SUCCESS /\ iface_inv s' /\
    (s').1 = with_slot (no_routes ip) i (fst s) /\ (s').2.2 = (snd s).2 /\
    dels_rts (rules_of ip odu (default [] (tx_prop (fst s))) c).*1 (hw_of (snd s).1) (hw_of (s').2.1)) s.
Proof.
  destruct s as [o [k e]]. intros [Ht HP] Hs Hi.
  assert (forall s' : client_iface X Y * (K * E), (s').1 = with_slot (no_routes ip) i o -> P (s').1) as HP'.
  { intros s' ->. eapply P_same; [|done]. apply same_iface_slot. by destruct ip. }
  destruct ip.
  - eapply wp_mono; [by apply (delete_v4_kept odu cap o k e i c)|].
    intros r s' (-> & Ht' & He & Ho & Hd). exact (conj eq_refl (conj (conj Ht' (HP' s' Ho)) (conj Ho (conj He Hd)))).
  - eapply wp_mono; [by apply (delete_v6_kept odu cap o k e i c)|].
    intros r s' (-> & Ht' & He & Ho & Hd). exact (conj eq_refl (conj (conj Ht' (HP' s' Ho)) (conj Ho (conj He Hd)))).
  - unfold delete_rtrules. wsteps. refine (conj eq_refl (conj (conj Ht HP) (conj _ (conj eq_refl (dels_rts_nil _))))).
    cbn [fst]. by rewrite with_slot_id.
Qed.
End invariant.

Lemma post_one_ok ev d o k e :
  wp (post_one ev d) (fun r s' => r = None /\ (s').1 = o /\ hw_of (s').2.1 = hw_of k /\
    (s').2.2 = post_lan_client ev d e) (o, (k, e)).
Proof.
  unfold post_one. wstep. apply (wp_malloc fds). intros k' Hk. cbn [negb]. wstep. eapply wp_call; [done|]. by wsteps.
Qed.

(** A loop that applies [f] to the records one after the other. *)
Lemma alter_prefix (f : ipa_client X -> ipa_client X) n l c :
  l !! n = Some c -> alter f n ((f <$> take n l) ++ drop n l) = (f <$> take (S n) l) ++ drop (S n) l.
Proof.
  intros Hc. rewrite (take_S_r _ _ _ Hc), fmap_app, <- app_assoc. simpl.
  rewrite (drop_S _ _ _ Hc). pose proof (lookup_lt_Some _ _ _ Hc).
  rewrite (alter_as_insert _ _ _ c).
  - rewrite insert_app_r_alt by (rewrite length_fmap, length_take; lia).
    by rewrite length_fmap, length_take, Nat.min_l, Nat.sub_diag by lia.
  - rewrite lookup_app_r by (rewrite length_fmap, length_take; lia).
    by rewrite length_fmap, length_take, Nat.min_l, Nat.sub_diag by lia.
Qed.
End table.
