(* ===== verification/LanSim.v ===== *)
(** * A concrete environment for the client tables

    Every call of another component is logged.  With the kernel of IpaSim.v it
    lets the methods of the interfaces run on concrete inputs. *)
From S2P Require Import Prelude Defs Heap Config LanToLan IpaDrv IpaSim StateM ClientTable ClientProps ClientInv.
From stdpp Require Import base list gmap strings.
From Stdlib Require Import ZArith.

Open Scope Z_scope.

Inductive lan_call :=
  | CallNeighAdd (data : ipacm_event_data_all)
  | CallNeighDel (addr : Z)
  | CallUpdatePwr (addr : Z)
  | CallResetPwr (addr : Z)
  | CallAddRm (pipe : Z) (rx_bypass : bool)
  | CallDelRm (pipe : Z)
  | CallPost (event : ipa_cm_event_id) (d : @ipacm_event_lan_client Z).

#[export] Instance log_env : LanEnv (list lan_call) := {|
  ct_neigh_add d l := Some (l ++ [CallNeighAdd d]);
  ct_neigh_del a l := Some (l ++ [CallNeighDel a]);
  nat_update_pwr_save a l := Some (l ++ [CallUpdatePwr a]);
  nat_reset_pwr_save a l := Some (l ++ [CallResetPwr a]);
  add_rm_depend p b l := l ++ [CallAddRm p b];
  del_rm_depend p l := l ++ [CallDelRm p];
  post_lan_client ev d l := l ++ [CallPost ev d]
|}.

#[export] Instance log_env_ok : LanEnvOk (list lan_call).
Proof. refine (@Build_LanEnvOk _ _ (fun _ => True) _ _ _ _ _ _ _); eauto. Defined.

(** Two tx properties, one of each IP type. *)
Definition example_tx : list ipa_ioc_tx_intf_prop :=
  [{| tx_ip := IPA_IP_v4; tx_attrib := attrib_zero; dst_pipe := 7; hdr_name := "v4_template" |};
   {| tx_ip := IPA_IP_v6; tx_attrib := attrib_zero; dst_pipe := 7; hdr_name := "v6_template" |}].

Definition example_mac (n : Z) : list Z := [2; 0; 0; 0; 0; n].

Definition example_addr4 (m : list Z) (a : Z) : ipacm_event_data_all :=
  {| da_iptype := IPA_IP_v4; da_if_index := 1; da_ipv4_addr := a; da_ipv6_addr := (0, 0, 0, 0); da_mac_addr := m |}.
Definition example_addr6 (m : list Z) (a : v6addr) : ipacm_event_data_all :=
  {| da_iptype := IPA_IP_v6; da_if_index := 1; da_ipv4_addr := 0; da_ipv6_addr := a; da_mac_addr := m |}.

(** The object as the constructors leave it, with an array of [cap] blank records. *)
Definition new_iface {X Y} (n cap : nat) (t : ipa_ip_type) (tx : list ipa_ioc_tx_intf_prop) (x : X) (y : Y) : client_iface X Y :=
  {| ipa_if_num := n; ip_type := Some t; tx_prop := Some tx; client := Some (replicate cap (client_zero (length tx) x));
     num_client := 0; header_name_count := 0; own := y |}.

Lemma new_iface_inv {X Y} `{IpaKernelOk K} odu n cap t tx (x : X) (y : Y) (h : ipa_hw) :
  table_inv odu cap (new_iface n cap t tx x y) h.
Proof.
  split.
  - eexists. split; [done|]. split; [apply length_replicate|]. apply Forall_replicate. split; simpl; try done.
    + apply length_replicate.
    + apply Forall_replicate. by split.
    + unfold IPV6_NUM_ADDR. lia.
  - simpl. lia.
  - apply installed_nil.
  - split; [constructor|]. by intros z Hz%elem_of_nil.
Qed.
