(* ===== verification/EthClients.v ===== *)
(** * The Ethernet clients of [IPACM_Lan] ([IPACM_Lan.cpp], [IPACM_Lan.h])

    A client appears with the first neighbour event that has its MAC address: it
    gets a record, its full headers, its address and its routing rules, and the
    LAN-to-LAN offload and the conntrack listener are told.  It goes with the
    neighbour's deletion; the loss of the WAN takes the routing rules of all. *)
From S2P Require Import Prelude Defs Heap Config LanToLan IpaDrv StateM ClientTable ClientProps ClientInv ClientOps.
From stdpp Require Import base list gmap strings.
From Stdlib Require Import ZArith Lia.

Open Scope Z_scope.
Open Scope method_scope.

Definition IPA_MAX_NUM_ETH_CLIENTS : nat := 15.
Definition IPA_ETH_HDR_NAME_v4 : string := "IPACM_ETH_v4".
Definition IPA_ETH_HDR_NAME_v6 : string := "IPACM_ETH_v6".

(** The interface's category in the configuration and the header of an ODU. *)
Record eth_own := { is_odu : bool; ODU_hdr_hdl_v4 : Z }.

Abbreviation eth_iface := (client_iface unit eth_own).

Definition eth_odu (o : eth_iface) : option Z :=
  if is_odu (own o) then Some (ODU_hdr_hdl_v4 (own o)) else None.

(** The events of the module's callers, with their arguments. *)
Inductive eth_op :=
  | EthHdrInit (mac_addr : list Z)
  | EthIpaddr (data : ipacm_event_data_all)
  | EthRoute (mac_addr : list Z) (iptype : ipa_ip_type)
  | EthDown (mac_addr : list Z)
  | EthResetRt (iptype : ipa_ip_type)
  | EthNeighAdd (data : ipacm_event_data_all)
  | EthNeighDel (data : ipacm_event_data_all).

Section eth.
Context {K E : Type} `{IpaKernel K, LanEnv E} (fds : ipa_fds) (this : Z).

Abbreviation method := (M (eth_iface * (K * E))).

Definition eth_fill (mac_addr : list Z) (c : ipa_ioc_copy_hdr) (buf : list Z) : method (list Z) :=
  if is_eth2_ofst_valid c then deref (write_bytes (eth2_ofst c) mac_addr buf) else ret buf.

Definition handle_eth_hdr_init (mac_addr : list Z) : method Z :=
  let* o := get_obj in
  match get_client_index mac_addr o with
  | Some _ => ret IPACM_FAILURE
  | None =>
      if (IPA_MAX_NUM_ETH_CLIENTS <=? num_client o)%nat then ret IPACM_FAILURE
      else
        let i := num_client o in
        set_client i (fun c => c <| mac := mac_addr |>) >>
        match tx_prop o with
        | None => ret IPACM_SUCCESS
        | Some _ =>
            let* ok := hw malloc in
            if negb ok then ret IPACM_FAILURE
            else
              let* ok := init_headers fds IPA_ETH_HDR_NAME_v4 IPA_ETH_HDR_NAME_v6 (eth_fill mac_addr) i in
              if negb ok then ret IPACM_FAILURE
              else set_client i init_flags >> count_client >> ret IPACM_SUCCESS
        end
  end.

Definition handle_eth_client_ipaddr (data : ipacm_event_data_all) : method Z := client_ipaddr fds data.

Definition handle_eth_client_route_rule (mac_addr : list Z) (iptype : ipa_ip_type) : method Z :=
  let* o := get_obj in
  match tx_prop o with
  | None => ret IPACM_SUCCESS
  | Some txs =>
      match get_client_index mac_addr o with
      | None => ret IPACM_SUCCESS
      | Some i =>
          let* c := get_client i in
          if needs_routes iptype c then
            let* t := deref (txs !! 0%nat) in
            call (fun e => Some (add_rm_depend (dst_pipe t) false e)) >>
            add_routes fds (eth_odu o) i iptype
          else ret IPACM_SUCCESS
      end
  end.

(** The end of [handle_eth_client_down_evt]: the last client takes the
    dependency on the pipe with it. *)
Definition eth_release : method Z :=
  let* o := get_obj in
  if (num_client o =? 0)%nat then
    match tx_prop o with
    | None => ret IPACM_SUCCESS
    | Some txs =>
        let* t := deref (txs !! 0%nat) in
        call (fun e => Some (del_rm_depend (dst_pipe t) e)) >> ret IPACM_SUCCESS
    end
  else ret IPACM_SUCCESS.

Definition handle_eth_client_down_evt (mac_addr : list Z) : method Z :=
  let* o := get_obj in
  match get_client_index mac_addr o with
  | None => ret IPACM_SUCCESS
  | Some i =>
      let* r := withdraw_client fds i in
      match r with Some r => ret r | None => remove_client Some (fun _ x => x) i >> eth_release end
  end.

(** [post_lan2lan_client_disconnect_msg]: the four words of an IPv6 address all go
    to the first word of the message. *)
Definition first_word (a : v6addr) : v6addr := let '(a0, _, _, _) := a in (a0, 0, 0, 0).

Definition post_disconnect_one (iptype : ipa_ip_type) (i : nat) : method (option Z) :=
  let* c := get_client i in
  let* r := if ipv4_set c && bool_decide (iptype = IPA_IP_v4)
            then post_one IPA_LAN_CLIENT_DISCONNECT (lan_client_v4 this (v4_addr c)) else ret None in
  match r with
  | Some r => ret (Some r)
  | None =>
      if (0 <? ipv6_set c)%nat && bool_decide (iptype = IPA_IP_v6)
      then for_each (fun j =>
             let* addr := deref (v6_addr c !! j) in
             post_one IPA_LAN_CLIENT_DISCONNECT (lan_client_v6 this (first_word addr))) (seq 0 (ipv6_set c))
      else ret None
  end.

Definition post_lan2lan_client_disconnect_msg (iptype : ipa_ip_type) : method Z :=
  let* o := get_obj in
  let* r := for_each (post_disconnect_one iptype) (seq 0 (num_client o)) in
  ret (default IPACM_SUCCESS r).

(** The two loops of [handle_lan_client_reset_rt]. *)
Definition reset_rt_one (iptype : ipa_ip_type) (i : nat) : method (option Z) :=
  let* res := delete_rtrules fds i iptype in
  ret (if res =? IPACM_SUCCESS then None else Some res).

Definition handle_lan_client_reset_rt (iptype : ipa_ip_type) : method Z :=
  let* o := get_obj in
  let* r := for_each (reset_rt_one iptype) (seq 0 (num_client o)) in
  match r with
  | Some res => ret res
  | None =>
      let* res := post_lan2lan_client_disconnect_msg iptype in
      if negb (res =? IPACM_SUCCESS) then ret res
      else
        for_each (R := Empty_set) (fun i => set_client i (reset_addr iptype) >> ret None) (seq 0 (num_client o)) >>
        ret res
  end.

(** The cases of [event_callback] for the neighbour events of the interface;
    when it is an ODU, after its own set-up. *)
Definition neigh_client_ip_addr_add (data : ipacm_event_data_all) : method unit :=
  handle_eth_hdr_init (da_mac_addr data) >>
  handle_lan2lan_client_active this data IPA_LAN_CLIENT_ACTIVE >>
  let* r := handle_eth_client_ipaddr data in
  if r =? IPACM_FAILURE then ret tt
  else
    handle_eth_client_route_rule (da_mac_addr data) (da_iptype data) >>
    if bool_decide (da_iptype data = IPA_IP_v4) then call (ct_neigh_add data) else ret tt.

Definition neigh_client_ip_addr_del (data : ipacm_event_data_all) : method unit :=
  handle_eth_client_down_evt (da_mac_addr data) >>
  handle_lan2lan_client_active this data IPA_LAN_CLIENT_INACTIVE >> ret tt.

Definition run_eth_op (op : eth_op) : method unit :=
  match op with
  | EthHdrInit m => handle_eth_hdr_init m >> ret tt
  | EthIpaddr d => handle_eth_client_ipaddr d >> ret tt
  | EthRoute m ip => handle_eth_client_route_rule m ip >> ret tt
  | EthDown m => handle_eth_client_down_evt m >> ret tt
  | EthResetRt ip => handle_lan_client_reset_rt ip >> ret tt
  | EthNeighAdd d => neigh_client_ip_addr_add d
  | EthNeighDel d => neigh_client_ip_addr_del d
  end.

Fixpoint run_eth (ops : list eth_op) : method unit :=
  match ops with
  | [] => ret tt
  | op :: ops => run_eth_op op >> run_eth ops
  end.

(** A client that comes, gets an address and routing rules, and goes: the
    results of the first, third and last call. *)
Definition eth_visit (mac_addr : list Z) (data : ipacm_event_data_all) (iptype : ipa_ip_type) : method (Z * Z * Z) :=
  let* r1 := handle_eth_hdr_init mac_addr in
  handle_eth_client_ipaddr data >>
  let* r3 := handle_eth_client_route_rule mac_addr iptype in
  let* r4 := handle_eth_client_down_evt mac_addr in
  ret (r1, r3, r4).
End eth.
