(* ===== verification/EthProps.v ===== *)
(** * The Ethernet clients: invariant, removal, round trip *)
From S2P Require Import Prelude Defs Heap Config LanToLan IpaDrv IpaSim StateM.
From S2P Require Import ClientTable ClientProps ClientInv ClientOps LanSim EthClients.
From stdpp Require Import base list gmap strings.
From Stdlib Require Import ZArith Lia.

Open Scope Z_scope.
Open Scope method_scope.

Section eth.
Context {K E : Type} `{HK : IpaKernelOk K} `{HE : LanEnv E} (fds : ipa_fds) `{!IpaReliable K fds} `{!LanEnvOk E}.
Implicit Types (o : eth_iface) (c : ipa_client unit) (k : K) (e : E).
Variable this : Z.

Abbreviation state := (eth_iface * (K * E))%type.

(** A header of a client has its MAC address at the Ethernet offset. *)
Lemma eth_fill_ok m i : length m = IPA_MAC_ADDR_SIZE -> fill_ok (E := E) (fun m => m) i (eth_fill (K := K) m).
Proof.
  intros Hm ch buf o ke c Q Hs Hb Hofst HQ. unfold eth_fill.
  assert (with_slot (fun c => c <| mac := mac c |>) i o = o) as Hid.
  { rewrite <- (with_slot_id i o) at 2. apply with_slot_ext. by intros [] _. }
  rewrite Hid in HQ. destruct (is_eth2_ofst_valid ch); [|wsteps; by apply HQ].
  destruct (Hofst eq_refl). destruct (write_bytes_ok (eth2_ofst ch) m buf) as (buf' & Hw & Hl); [lia|unfold IPA_MAC_ADDR_SIZE in Hm; lia|].
  eapply wp_deref; [exact Hw|]. apply HQ. lia.
Qed.

(** What the operations leave alone. *)
Variables (w : eth_own) (tx : option (list ipa_ioc_tx_intf_prop)).
Hypothesis tx_nonempty : tx <> Some [].

Definition eth_frame o : Prop := own o = w /\ tx_prop o = tx.

Lemma eth_frame_frame o o' : same_frame o o' -> eth_frame o -> eth_frame o'.
Proof. intros -> [<- <-]. done. Qed.

Lemma eth_frame_same o o' : same_iface o o' -> eth_frame o -> eth_frame o'.
Proof. intros [Hs _]. by apply eth_frame_frame. Qed.

Definition eth_inv : state -> Prop :=
  iface_inv (if is_odu w then Some (ODU_hdr_hdl_v4 w) else None) IPA_MAX_NUM_ETH_CLIENTS eth_frame.

(** *** A new client *)

Definition eth_new m x4 x6 c : ipa_client unit :=
  init_flags (hdr_client (default [] tx) (fun m => m) x4 x6 (c <| mac := m |>)).

Lemma eth_new_wf m x4 x6 c : client_wf (default [] tx) c -> client_wf (default [] tx) (eth_new m x4 x6 c).
Proof.
  intros Hwf. assert (client_wf (default [] tx) (c <| mac := m |>)) as Hm by (destruct Hwf; by split).
  destruct (hdr_client_wf (default [] tx) (fun m => m) x4 x6 _ Hm). split; simpl; try done; lia.
Qed.

Lemma eth_new_rules odu m x4 x6 c : client_rules odu (default [] tx) (eth_new m x4 x6 c) = [].
Proof. unfold client_rules. apply v6_rules_none. Qed.

Lemma eth_new_hdrs m x4 x6 c :
  client_wf (default [] tx) c -> client_hdrs (eth_new m x4 x6 c) = new_hdrs (default [] tx) x4 x6.
Proof.
  intros Hwf. apply (hdr_client_hdrs (default [] tx) (fun m => m) x4 x6 (c <| mac := m |>)).
  destruct Hwf; by split.
Qed.

Lemma hdr_init_ok m o k e :
  eth_inv (o, (k, e)) -> length m = IPA_MAC_ADDR_SIZE ->
  wp (handle_eth_hdr_init fds m) (fun r s' => eth_inv s' /\ (s').2.2 = e /\
    (r = IPACM_FAILURE \/ r = IPACM_SUCCESS /\ get_client_index m o = None /\
      (tx = None \/ exists x4 x6 c, slot o (num_client o) = Some c /\
         adds_hdrs (new_hdrs (default [] tx) x4 x6) (hw_of k) (hw_of (s').2.1) /\
         (s').1 = with_slot (eth_new m x4 x6) (num_client o) o <| num_client := S (num_client o) |>
           <| header_name_count := S (header_name_count o) |>))) (o, (k, e)).
Proof.
  intros Hinv Hm. pose proof Hinv as [[Ht He] [Hw Htx]]. cbn [fst snd] in *. unfold handle_eth_hdr_init. wsteps. cbn [fst].
  destruct (get_client_index m o) eqn:Hidx; [wsteps; by auto|].
  destruct (Nat.leb_spec IPA_MAX_NUM_ETH_CLIENTS (num_client o)) as [|Hn]; [wsteps; by auto|].
  destruct (table_slot_lt _ _ _ _ _ Ht Hn) as [c Hs]. pose proof (table_slot _ _ _ _ _ _ Ht Hs) as Hwf.
  set (om := with_slot (fun c => c <| mac := m |>) (num_client o) o).
  assert (table_inv (if is_odu w then Some (ODU_hdr_hdl_v4 w) else None) IPA_MAX_NUM_ETH_CLIENTS om (hw_of k)) as Htm.
  { apply (table_inv_free _ _ _ _ _ _ c _ Ht Hs); try done. destruct Hwf; by split. }
  assert (slot om (num_client o) = Some (c <| mac := m |>)) as Hsm by (unfold om; by rewrite slot_with, Hs).
  wstep. apply (wp_set_client _ c); [done|]. cbn [fst snd]. fold om.
  assert (eth_frame om) as Hfm by done.
  assert (forall k', hw_of k' = hw_of k -> eth_inv (om, (k', e))) as Hkeep.
  { intros k' Hk'. split; [|done]. split; [|done]. cbn. by rewrite Hk'. }
  destruct (tx_prop o) as [txs|] eqn:Etx; [|wsteps; split; [by apply Hkeep|]; by eauto 10].
  wstep. apply wp_malloc_any. intros ok k1 Hk1. destruct ok; cbn [negb]; [|wsteps; split; [by apply Hkeep|]; by auto].
  wstep. eapply wp_mono; [apply (init_headers_ok fds (fun m => m) _ _ _ _ om k1 e _ (eth_fill_ok m _ Hm) Hsm)|].
  { change (tx_prop om) with (tx_prop o). rewrite Etx. destruct Hwf; by split. }
  change (tx_prop om) with (tx_prop o). rewrite Etx, Htx, Hk1. rewrite Htx in Hwf.
  intros ok [o2 [k2 e2]] [He2 Hok]. cbn [fst snd] in He2, Hok. subst e2. destruct ok; cbn [negb].
  - destruct Hok as (x4 & x6 & Ha & Ho2). subst o2. wstep.
    apply (wp_set_client _ (hdr_client (default [] tx) (fun m => m) x4 x6 (c <| mac := m |>))).
    { cbn [fst]. by rewrite slot_with, Hsm. }
    wsteps. cbn [fst snd]. unfold om. rewrite !with_slot_with.
    change (fun c0 => init_flags (hdr_client (default [] tx) (fun m => m) x4 x6 (c0 <| mac := m |>)))
      with (eth_new m x4 x6).
    split; [|split; [done|]; right; split; [done|]; split; [done|]; right; by exists x4, x6, c].
    split; [|done]. split; [|done]. cbn [fst snd].
    apply (table_inv_attach _ _ o (hw_of k) _ _ c (new_hdrs (default [] tx) x4 x6)); rewrite ?Etx, ?Htx; try done.
    + by apply eth_new_wf.
    + apply eth_new_rules.
    + by apply eth_new_hdrs.
  - destruct Hok as [[l Ha] (f & Hf & Ho2)]. subst o2. wsteps. split; [|by auto].
    split; [|done]. split; [|done]. cbn [fst snd].
    apply (table_inv_free _ _ om (hw_of k) _ _ _ _ Htm Hsm); [done| | |].
    + change (tx_prop om) with (tx_prop o). by rewrite Etx, Htx.
    + intros rs. apply installed_ext. by eapply adds_hdrs_rts.
    + intros l' Hl'. eapply installed_hdrs_app. by eapply installed_hdrs_adds.
Qed.

(** *** The operations keep the invariant *)

Lemma eth_odu_frame o : eth_frame o -> eth_odu o = if is_odu w then Some (ODU_hdr_hdl_v4 w) else None.
Proof. intros [<- _]. done. Qed.

Lemma hdr_init_kept m : length m = IPA_MAC_ADDR_SIZE -> kept eth_inv (handle_eth_hdr_init fds m).
Proof.
  intros Hm [o [k e]] Hs. eapply wp_mono; [by apply hdr_init_ok|]. by intros r s' [? _].
Qed.

Lemma eth_ipaddr_kept data : kept eth_inv (handle_eth_client_ipaddr fds data).
Proof. apply (ipaddr_kept fds _ _ _ eth_frame_same). Qed.

Lemma deref_tx (txs : list ipa_ioc_tx_intf_prop) : tx = Some txs -> exists t, txs !! 0%nat = Some t.
Proof. destruct txs as [|t txs]; [by intros ->|eauto]. Qed.

Lemma eth_route_kept m ip : kept eth_inv (handle_eth_client_route_rule fds m ip).
Proof.
  intros s Hs. pose proof Hs as [[Ht _] Hf]. unfold handle_eth_client_route_rule. wsteps.
  destruct (tx_prop (fst s)) as [txs|] eqn:Etx; [|by wsteps].
  destruct (get_client_index m (fst s)) as [i|] eqn:Hidx; [|by wsteps].
  apply get_client_index_Some in Hidx as (Hi & c & Hc & _). wstep. apply (wp_get_client _ c); [done|].
  destruct (needs_routes ip c) eqn:Hn; [|by wsteps].
  destruct (deref_tx txs) as [t Ht0]; [destruct Hf; congruence|].
  wstep. apply (wp_deref _ t); [done|]. wstep. destruct s as [o [k e]]. eapply wp_call; [done|].
  rewrite (eth_odu_frame _ Hf). apply (routes_kept fds _ _ eth_frame eth_frame_same ip _ i c); try done.
  destruct Hs as [[? ?] ?]. split; [|done]. split; [done|]. by apply env_add_rm.
Qed.

Lemma eth_release_kept : kept eth_inv eth_release.
Proof.
  intros s Hs. pose proof Hs as [_ Hf]. unfold eth_release. wsteps. destruct (_ =? 0)%nat; [|by wsteps].
  destruct (tx_prop (fst s)) as [txs|] eqn:Etx; [|by wsteps].
  destruct (deref_tx txs) as [t Ht0]; [destruct Hf; congruence|].
  wstep. apply (wp_deref _ t); [done|]. revert s Hs Hf Etx. intros s Hs _ _. revert s Hs.
  apply kept_seq; [|intros; apply kept_ret]. apply kept_call. intros e He. eexists. split; [done|]. by apply env_del_rm.
Qed.

(** A client that goes takes its rules and headers with it, and nothing else. *)
Lemma eth_down_ok m i o k e c :
  eth_inv (o, (k, e)) -> get_client_index m o = Some i -> slot o i = Some c ->
  wp (handle_eth_client_down_evt fds m) (fun r s' => r = IPACM_SUCCESS /\ eth_inv s' /\
    num_client (s').1 = (num_client o - 1)%nat /\
    Forall2 same_client (delete i (clients_of o)) (clients_of (s').1) /\
    dels_all (client_rules (eth_odu o) (default [] tx) c).*1 (client_hdrs c) (hw_of k) (hw_of (s').2.1) /\
    exists e1, (if ipv4_set c then ct_neigh_del (v4_addr c) e else Some e) = Some e1 /\
      ((s').2.2 = e1 \/ exists p, (s').2.2 = del_rm_depend p e1)) (o, (k, e)).
Proof.
  intros Hs Hidx Hc. unfold handle_eth_client_down_evt. wsteps. cbn [fst]. rewrite Hidx.
  apply get_client_index_Some in Hidx as (Hi & _). pose proof Hs as [Ht Hf]. pose proof Hf as [_ Htx]. cbn [fst] in *.
  apply (forget_client_ok fds _ IPA_MAX_NUM_ETH_CLIENTS Some (fun _ x => x) _ _ o k e i c Ht Hc Hi); [by eexists|].
  intros o' k' e' Ht' Hn' Hsame Hfor He1 Hd. rewrite Htx in Hd. rewrite (eth_odu_frame _ Hf).
  pose proof (eth_frame_frame _ _ Hsame Hf) as Hf'. apply carried_same in Hfor.
  assert (eth_inv (o', (k', e'))) as Hs' by done.
  unfold eth_release. wsteps. cbn [fst]. destruct (num_client o' =? 0)%nat.
  - pose proof Hf' as Hf2. destruct Hf' as [Hw' Htx']. destruct (tx_prop o') as [txs|] eqn:Etx.
    + destruct (deref_tx txs) as [t Ht0]; [congruence|]. wstep. apply (wp_deref _ t); [done|]. wstep.
      eapply wp_call; [done|]. wsteps. split; [done|]. split; [|split_and!; eauto].
      destruct Ht'. refine (conj (conj _ _) Hf2); [done|]. by apply env_del_rm.
    + wsteps. split_and!; try done. eauto.
  - wsteps. split; [done|]. split; [done|]. split_and!; eauto.
Qed.

Lemma eth_down_kept m : kept eth_inv (handle_eth_client_down_evt fds m).
Proof.
  intros [o [k e]] Hs. destruct (get_client_index m o) as [i|] eqn:Hidx.
  - pose proof (get_client_index_Some _ _ _ Hidx) as (_ & c & Hc & _).
    eapply wp_mono; [by apply (eth_down_ok m i o k e c)|]. by intros r s' (_ & ? & _).
  - unfold handle_eth_client_down_evt. wsteps. cbn [fst]. rewrite Hidx. by wsteps.
Qed.

(** *** The loss of the WAN *)

(** The messages for the addresses of one type. *)
Definition disconnect_msgs (ip : ipa_ip_type) c : list (@ipacm_event_lan_client Z) :=
  match ip with
  | IPA_IP_v4 => if ipv4_set c then [lan_client_v4 this (v4_addr c)] else []
  | IPA_IP_v6 => (fun a => lan_client_v6 this (first_word a)) <$> take (ipv6_set c) (v6_addr c)
  | IPA_IP_MAX => []
  end.

Definition posted (msgs : list (@ipacm_event_lan_client Z)) (e : E) : E :=
  fold_left (fun e d => post_lan_client IPA_LAN_CLIENT_DISCONNECT d e) msgs e.

Lemma posted_env msgs e : env_ok e -> env_ok (posted msgs e).
Proof. unfold posted. revert e. induction msgs as [|d msgs IH]; intros e He; [done|]. by apply IH, env_post. Qed.

(** The object is [o] and the messages [msgs] are out. *)
Definition posts o k e msgs (s : state) : Prop :=
  (fst s) = o /\ hw_of (snd s).1 = hw_of k /\ (snd s).2 = posted msgs e.

Lemma posts_one msgs d o k e s :
  posts o k e msgs s ->
  wp (post_one IPA_LAN_CLIENT_DISCONNECT d) (fun r s' => r = None /\ posts o k e (msgs ++ [d]) s') s.
Proof.
  destruct s as [o' [k' e']]. intros (Ho & Hk & He). cbn [fst snd] in *. subst o' e'.
  eapply wp_mono; [apply (post_one_ok fds)|]. intros r s' (-> & Ho' & Hk' & He'). split; [done|].
  split; [done|]. split; [congruence|]. rewrite He'. unfold posted. by rewrite fold_left_app.
Qed.

Lemma disconnect_one_ok ip i c msgs o k e s :
  slot o i = Some c -> (ipv6_set c <= length (v6_addr c))%nat -> posts o k e msgs s ->
  wp (post_disconnect_one this ip i) (fun r s' => r = None /\ posts o k e (msgs ++ disconnect_msgs ip c) s') s.
Proof.
  intros Hc Hlen Hs. unfold post_disconnect_one. pose proof Hs as (Ho & _). wstep.
  apply (wp_get_client _ c); [by rewrite Ho|].
  destruct ip; cbn [bool_decide]; rewrite ?bool_decide_true, ?bool_decide_false, ?andb_true_r, ?andb_false_r by done.
  - wstep. destruct (ipv4_set c) eqn:H4; simpl.
    + eapply wp_mono; [by apply posts_one|]. intros r s' [-> Hs']. wsteps. split; [done|]. by rewrite H4.
    + wsteps. split; [done|]. by rewrite H4, app_nil_r.
  - wsteps. destruct (Nat.ltb_spec 0 (ipv6_set c)) as [H6|H6].
    + apply (wp_for_seq _ _ _ (fun n => posts o k e (msgs ++ ((fun a => lan_client_v6 this (first_word a)) <$>
        take n (v6_addr c))))).
      * by rewrite app_nil_r.
      * intros n s' Hn Hs'. destruct (lookup_lt_is_Some_2 (v6_addr c) n) as [a Ha]; [lia|].
        wstep. apply (wp_deref _ a); [done|]. eapply wp_mono; [by apply posts_one|].
        intros r s2 [-> Hs2]. change (1 + n)%nat with (S n).
        rewrite (take_S_r _ _ _ Ha), fmap_app, app_assoc. exact Hs2.
      * done.
    + wsteps. split; [done|]. simpl. replace (ipv6_set c) with 0%nat by lia. by rewrite app_nil_r.
  - wsteps. split; [done|]. by rewrite app_nil_r.
Qed.

Lemma post_disconnect_ok ip o k e :
  eth_inv (o, (k, e)) ->
  wp (post_lan2lan_client_disconnect_msg this ip) (fun r s' => r = IPACM_SUCCESS /\
    posts o k e (concat (disconnect_msgs ip <$> clients_of o)) s') (o, (k, e)).
Proof.
  intros [[Ht _] _]. cbn [fst snd] in Ht. unfold post_lan2lan_client_disconnect_msg. wsteps. cbn [fst].
  pose proof (table_clients_wf _ _ _ _ Ht) as Hwf.
  apply (wp_for_seq _ _ _ (fun n => posts o k e (concat (disconnect_msgs ip <$> take n (clients_of o))))).
  - done.
  - intros n s Hn Hs. destruct (table_slot_lt _ _ _ _ n Ht) as [c Hc]; [pose proof (ti_num _ _ _ _ Ht); lia|].
    pose proof (clients_of_slot _ _ _ Hc ltac:(lia)) as Hcl. pose proof (Forall_lookup_1 _ _ _ _ Hwf Hcl) as Hcwf.
    eapply wp_mono; [eapply (disconnect_one_ok ip n c _ o k e s Hc); [|exact Hs]|].
    { rewrite (wf_v6_addr _ _ Hcwf). apply (wf_v6_set _ _ Hcwf). }
    intros r s' [-> Hs']. change (1 + n)%nat with (S n).
    rewrite (take_S_r _ _ _ Hcl), fmap_app, concat_app. simpl. by rewrite app_nil_r.
  - intros s Hs. wsteps. split; [done|]. rewrite take_ge in Hs; [done|]. unfold clients_of. rewrite length_take. lia.
Qed.

Lemma reset_rt_loop ip o k e :
  eth_inv (o, (k, e)) ->
  wp (for_each (reset_rt_one fds ip) (seq 0 (num_client o))) (fun r s' => r = None /\ eth_inv s' /\
    num_client (s').1 = num_client o /\ clients_of (s').1 = no_routes ip <$> clients_of o /\ (s').2.2 = e /\
    dels_rts (concat (rules_of ip (eth_odu o) (default [] tx) <$> clients_of o)).*1 (hw_of k) (hw_of (s').2.1)) (o, (k, e)).
Proof.
  intros Hs0. pose proof (eth_odu_frame _ (proj2 Hs0)) as Hodu. cbn [fst] in Hodu. rewrite Hodu. set (cs := clients_of o).
  assert (length cs = num_client o) as Hlen by (apply (clients_of_length _ _ _ _ (proj1 (proj1 Hs0)))).
  apply (wp_for_seq _ _ _ (fun n s => eth_inv s /\ num_client (fst s) = num_client o /\
    clients_of (fst s) = (no_routes ip <$> take n cs) ++ drop n cs /\ (snd s).2 = e /\
    dels_rts (concat (rules_of ip (if is_odu w then Some (ODU_hdr_hdl_v4 w) else None) (default [] tx) <$> take n cs)).*1
      (hw_of k) (hw_of (snd s).1))).
  - split; [done|]. split; [done|]. split; [done|]. split; [done|]. apply dels_rts_nil.
  - intros n s Hn (Hs & Hnum & Hcs & He & Hd).
    destruct (lookup_lt_is_Some_2 cs n) as [c Hc]; [lia|].
    assert (clients_of (fst s) !! n = Some c) as Hcl.
    { rewrite Hcs, lookup_app_r by (rewrite length_fmap, length_take; lia).
      rewrite length_fmap, length_take, Nat.min_l by lia. rewrite lookup_drop. by rewrite Nat.sub_diag, Nat.add_0_r. }
    destruct (clients_of_lookup _ _ _ Hcl) as [Hslot Hlt].
    unfold reset_rt_one. wstep. eapply wp_mono; [by apply (delete_rt_kept fds _ _ _ eth_frame_same ip s n c Hs)|].
    intros r s' (-> & Hs' & Ho' & He' & Hd'). wsteps. cbn [Z.eqb IPACM_SUCCESS].
    change (1 + n)%nat with (S n). split; [done|]. split; [by rewrite Ho'|]. split; [|split; [congruence|]].
    + rewrite Ho', clients_of_with by done. rewrite Hcs. by eapply alter_prefix.
    + rewrite (take_S_r _ _ _ Hc), fmap_app, concat_app, fmap_app. eapply dels_rts_app; [exact Hd|].
      simpl. rewrite app_nil_r. destruct (proj2 Hs) as [_ Htx]. by rewrite <- Htx.
  - intros s (Hs & Hnum & Hcs & He & Hd). rewrite take_ge in Hcs, Hd by lia. rewrite drop_ge in Hcs by lia.
    rewrite app_nil_r in Hcs. by split_and!.
Qed.

Lemma reset_addr_inv odu ip o h i c :
  table_inv odu IPA_MAX_NUM_ETH_CLIENTS o h -> slot o i = Some (no_routes ip c) -> (i < num_client o)%nat ->
  ip <> IPA_IP_MAX ->
  table_inv odu IPA_MAX_NUM_ETH_CLIENTS (with_slot (reset_addr ip) i o) h.
Proof.
  intros Hinv Hs Hi Hip. pose proof (table_slot _ _ _ _ _ _ Hinv Hs) as Hwf.
  apply (table_inv_same _ _ _ _ _ _ _ Hinv Hs Hi); destruct ip; try done.
  - destruct Hwf; by split.
  - destruct Hwf; split; simpl; try done. lia.
Qed.

Lemma reset_addr_loop ip cs0 o k e :
  eth_inv (o, (k, e)) -> clients_of o = no_routes ip <$> cs0 -> ip <> IPA_IP_MAX ->
  wp (for_each (R := Empty_set) (fun i => set_client i (reset_addr ip) >> ret None) (seq 0 (num_client o)))
    (fun _ s' => eth_inv s' /\ clients_of (s').1 = reset_addr ip <$> clients_of o /\ (s').2 = (k, e)) (o, (k, e)).
Proof.
  intros Hs0 Hcs0 Hip. set (cs := clients_of o).
  assert (length cs = num_client o) as Hlen by (apply (clients_of_length _ _ _ _ (proj1 (proj1 Hs0)))).
  apply (wp_for_seq _ _ _ (fun n s => eth_inv s /\ num_client (fst s) = num_client o /\
    clients_of (fst s) = (reset_addr ip <$> take n cs) ++ drop n cs /\ snd s = (k, e))).
  - done.
  - intros n [o1 ke] Hn (Hs & Hnum & Hcs & Hke). cbn [fst snd] in *. subst ke.
    destruct (lookup_lt_is_Some_2 cs n) as [c Hc]; [lia|].
    assert (clients_of o1 !! n = Some c) as Hcl.
    { rewrite Hcs, lookup_app_r by (rewrite length_fmap, length_take; lia).
      rewrite length_fmap, length_take, Nat.min_l by lia. rewrite lookup_drop. by rewrite Nat.sub_diag, Nat.add_0_r. }
    destruct (clients_of_lookup _ _ _ Hcl) as [Hslot Hlt].
    wstep. apply (wp_set_client _ c); [done|]. wsteps. cbn [fst snd]. change (1 + n)%nat with (S n).
    destruct Hs as [[Ht He] Hf]. split_and!; [split; [|done]; split; [|done]|done| |done].
    + unfold cs in Hc. rewrite Hcs0 in Hc. apply list_lookup_fmap_Some in Hc as (c0 & -> & _).
      by eapply reset_addr_inv.
    + rewrite clients_of_with by done. rewrite Hcs. by eapply alter_prefix.
  - intros s (Hs & Hnum & Hcs & He). rewrite take_ge in Hcs by lia. rewrite drop_ge in Hcs by lia.
    rewrite app_nil_r in Hcs. done.
Qed.

Lemma reset_rt_ok ip o k e :
  eth_inv (o, (k, e)) -> ip <> IPA_IP_MAX ->
  wp (handle_lan_client_reset_rt fds this ip) (fun r s' => r = IPACM_SUCCESS /\ eth_inv s' /\
    clients_of (s').1 = (fun c => reset_addr ip (no_routes ip c)) <$> clients_of o /\
    (s').2.2 = posted (concat (disconnect_msgs ip <$> clients_of o)) e /\
    dels_rts (concat (rules_of ip (eth_odu o) (default [] tx) <$> clients_of o)).*1 (hw_of k) (hw_of (s').2.1)) (o, (k, e)).
Proof.
  intros Hs Hip. unfold handle_lan_client_reset_rt. wsteps. cbn [fst].
  eapply wp_mono; [by apply reset_rt_loop|].
  intros r [o1 [k1 e1]] (-> & Hs1 & Hn1 & Hcs1 & He1 & Hd1). cbn [fst snd] in *. subst e1.
  wstep. eapply wp_mono; [by apply post_disconnect_ok|]. intros r [o2 [k2 e2]] (-> & Ho2 & Hk2 & He2).
  cbn [fst snd] in *. subst o2 e2. cbn [negb Z.eqb IPACM_SUCCESS]. wstep. rewrite <- Hn1.
  assert (eth_inv (o1, (k2, posted (concat (disconnect_msgs ip <$> clients_of o1)) e))) as Hs2.
  { destruct Hs1 as [[Ht He] Hf]. split; [|done]. split; cbn [fst snd]; [by rewrite Hk2|].
    apply (posted_env _ e He). }
  eapply wp_mono; [by apply (reset_addr_loop ip (clients_of o))|]. intros _ [o3 [k3 e3]] (Hs3 & Hcs3 & Hke).
  cbn [fst snd] in *. simplify_eq. wsteps. split; [done|]. split; [done|]. split; [|split].
  - cbn [fst]. rewrite Hcs3, Hcs1. by rewrite <- list_fmap_compose.
  - cbn [snd]. f_equal. f_equal. rewrite Hcs1, <- list_fmap_compose. apply list_fmap_ext. intros j c _.
    by destruct ip.
  - cbn [fst snd]. by rewrite Hk2.
Qed.

(** *** The events *)

Definition eth_op_ok (op : eth_op) : Prop :=
  match op with
  | EthHdrInit m => length m = IPA_MAC_ADDR_SIZE
  | EthNeighAdd d => length (da_mac_addr d) = IPA_MAC_ADDR_SIZE
  | EthResetRt ip => ip <> IPA_IP_MAX
  | _ => True
  end.

Lemma neigh_add_kept d :
  length (da_mac_addr d) = IPA_MAC_ADDR_SIZE -> kept eth_inv (neigh_client_ip_addr_add fds this d).
Proof.
  intros Hm. apply kept_seq; [by apply hdr_init_kept|]. intros _.
  apply kept_seq; [by apply client_active_kept|]. intros _. apply kept_seq; [apply eth_ipaddr_kept|]. intros r.
  destruct (r =? IPACM_FAILURE); [apply kept_ret|]. apply kept_seq; [apply eth_route_kept|]. intros _.
  destruct (bool_decide _); [|apply kept_ret]. apply kept_call, env_neigh_add.
Qed.

Lemma neigh_del_kept d : kept eth_inv (neigh_client_ip_addr_del fds this d).
Proof.
  apply kept_seq; [apply eth_down_kept|]. intros _. apply kept_seq; [by apply client_active_kept|].
  intros; apply kept_ret.
Qed.

Lemma reset_rt_kept ip : ip <> IPA_IP_MAX -> kept eth_inv (handle_lan_client_reset_rt fds this ip).
Proof. intros Hip [o [k e]] Hs. eapply wp_mono; [by apply reset_rt_ok|]. by intros r s' (_ & ? & _). Qed.

Lemma run_eth_kept ops : Forall eth_op_ok ops -> kept eth_inv (run_eth fds this ops).
Proof.
  induction 1 as [|op ops Hop _ IH]; [apply kept_ret|]. apply kept_seq; [|by intros].
  destruct op; simpl in *; try (apply kept_seq; [|intros; apply kept_ret]);
    auto using hdr_init_kept, eth_ipaddr_kept, eth_route_kept, eth_down_kept, reset_rt_kept, neigh_add_kept, neigh_del_kept.
Qed.

(** *** A client from arrival to departure *)

(** The client [c] has come behind those of [o]. *)
Definition attached o c o' : Prop :=
  clients_of o' = clients_of o ++ [c] /\ num_client o' = S (num_client o) /\ slot o' (num_client o) = Some c.

Lemma attached_with f o c o' : attached o c o' -> length (clients_of o) = num_client o ->
  attached o (f c) (with_slot f (num_client o) o').
Proof.
  intros (Hcs & Hn & Hs) Hl. split; [|split; [done|by rewrite slot_with, Hs]].
  rewrite clients_of_with by lia. rewrite Hcs. rewrite (alter_as_insert _ _ _ c).
  - rewrite insert_app_r_alt by lia. by rewrite Hl, Nat.sub_diag.
  - rewrite lookup_app_r by lia. by rewrite Hl, Nat.sub_diag.
Qed.

Lemma attached_index o c o' :
  attached o c o' -> length (clients_of o) = num_client o -> get_client_index (mac c) o = None ->
  get_client_index (mac c) o' = Some (num_client o).
Proof.
  intros (Hcs & _ & _) Hl Hn. unfold get_client_index in *. rewrite Hcs, <- Hl.
  apply find_index_end; [done|]. by apply bool_decide_true.
Qed.

(** Addresses of a client that has none and no rules. *)
Lemma ipaddr_new d o k e i c :
  slot o i = Some c -> length (v6_addr c) = IPV6_NUM_ADDR -> ipv4_set c = false -> ipv6_set c = 0%nat ->
  get_client_index (da_mac_addr d) o = Some i ->
  wp (handle_eth_client_ipaddr fds d) (fun r s' => (s').2 = (k, e) /\
    exists a4 s4 a6 s6, (s').1 = with_slot (fun c => c <| v4_addr := a4 |> <| ipv4_set := s4 |>
      <| v6_addr := a6 |> <| ipv6_set := s6 |>) i o) (o, (k, e)).
Proof.
  intros Hs H6 Hset4 Hset6 Hidx. unfold handle_eth_client_ipaddr, client_ipaddr. wsteps. cbn [fst]. rewrite Hidx. wstep.
  assert (exists a4 s4 a6 s6, o = with_slot (fun c => c <| v4_addr := a4 |> <| ipv4_set := s4 |>
      <| v6_addr := a6 |> <| ipv6_set := s6 |>) i o) as Hid.
  { exists (v4_addr c), (ipv4_set c), (v6_addr c), (ipv6_set c). rewrite <- (with_slot_id i o) at 1.
    apply with_slot_ext. intros c' Hc'. replace c' with c by congruence. by destruct c. }
  apply (wp_get_client _ c); [done|]. rewrite Hset4, Hset6.
  change (0 <? IPV6_NUM_ADDR)%nat with true. cbn [negb take existsb].
  destruct (bool_decide _).
  - destruct (_ =? 0); [by wsteps|]. wstep. apply (wp_set_client _ c); [done|]. wsteps. split; [done|].
    exists (da_ipv4_addr d), true, (v6_addr c), (ipv6_set c). apply with_slot_ext. intros c' Hc'.
    replace c' with c by congruence. by destruct c.
  - destruct (v6_zero _); [by wsteps|]. rewrite take_0. cbn [existsb]. wstep. eapply wp_deref; [unfold store; by rewrite H6|].
    wstep. apply (wp_set_client _ c); [done|]. wsteps. split; [done|].
    exists (v4_addr c), (ipv4_set c). eexists _, (S (ipv6_set c)). apply with_slot_ext. intros c' Hc'.
    replace c' with c by congruence. by destruct c.
Qed.

(** The routing rules of a client that has none yet. *)
Lemma eth_route_new m ip o k e i c :
  eth_inv (o, (k, e)) -> get_client_index m o = Some i -> slot o i = Some c ->
  client_rules (eth_odu o) (default [] tx) c = [] ->
  wp (handle_eth_client_route_rule fds m ip) (fun r s' => eth_inv s' /\
    (r = IPACM_SUCCESS -> exists f, (s').1 = with_slot f i o /\ mac (f c) = mac c /\ client_hdrs (f c) = client_hdrs c /\
       exists rs, rs ≡ₚ client_rules (eth_odu o) (default [] tx) (f c) /\ adds_rts rs (hw_of k) (hw_of (s').2.1))) (o, (k, e)).
Proof.
  intros Hinv Hidx Hs Hr0.
  assert (exists f, o = with_slot f i o /\ mac (f c) = mac c /\ client_hdrs (f c) = client_hdrs c /\
    exists rs, rs ≡ₚ client_rules (eth_odu o) (default [] tx) (f c) /\ adds_rts rs (hw_of k) (hw_of k)) as Hsame.
  { exists (fun c => c). rewrite with_slot_id. split_and!; try done. exists []. rewrite Hr0. split; [done|apply adds_rts_nil]. }
  apply wp_and; [by apply eth_route_kept|].
  unfold handle_eth_client_route_rule. wsteps. cbn [fst].
  destruct (tx_prop o) as [txs|] eqn:Etx; [|by wsteps]. rewrite Hidx. wstep. apply (wp_get_client _ c); [done|].
  destruct (needs_routes ip c) eqn:Hn; [|by wsteps]. pose proof Hinv as [[Ht _] [_ Htx]]. cbn [fst] in Ht, Htx.
  destruct (deref_tx txs) as [t Ht0]; [congruence|]. wstep. apply (wp_deref _ t); [done|]. wstep.
  eapply wp_call; [done|]. pose proof (table_slot _ _ _ _ _ _ Ht Hs) as Hwf.
  eapply wp_mono; [apply (add_routes_ok fds (eth_odu o) ip o k _ i c Hs Hwf)|]; [by intros ->|].
  intros r s' (hl & Hf & [(-> & _)|(-> & Ho & _ & Ha)]) Hr; [done|].
  exists (fun c => mark_routes ip (c <| rt_hdl := hl |>)). split; [done|]. split; [by destruct ip|].
  split; [by destruct ip|]. eexists. split; [|exact Ha]. rewrite Etx in Htx. rewrite Etx, Htx.
  rewrite mark_routes_rules by by destruct ip. rewrite (set_hdls_rules _ _ ip c hl Hf).
  - by rewrite Hr0, app_nil_r.
  - intros ->. simpl in Hn. by destruct (route_rule_set_v4 c).
Qed.

Lemma delete_end {A} n (l : list A) x : length l = n -> delete n (l ++ [x]) = l.
Proof. intros <-. rewrite delete_take_drop, take_app_length. rewrite drop_ge; [by rewrite app_nil_r|]. rewrite length_app. simpl. lia. Qed.

Lemma eth_leave m i o k e c l hk :
  eth_inv (o, (k, e)) -> get_client_index m o = Some i -> slot o i = Some c ->
  adds_hdrs (client_hdrs c) l hk -> 
  (exists rs, rs ≡ₚ client_rules (eth_odu o) (default [] tx) c /\ adds_rts rs hk (hw_of k)) ->
  wp (handle_eth_client_down_evt fds m) (fun r s' => r = IPACM_SUCCESS /\ hw_of (s').2.1 = l /\
    Forall2 same_client (delete i (clients_of o)) (clients_of (s').1)) (o, (k, e)).
Proof.
  intros Hinv Hidx Hs Hh (rs & Hp & Hr). eapply wp_mono; [by apply (eth_down_ok m i o k e c)|].
  intros r s' (-> & _ & _ & Hf & (h1 & Hd & Hdh) & _). split; [done|]. split; [|done].
  assert (h1 = hk) as ->.
  { eapply adds_dels_rts; [exact Hr|]. eapply dels_rts_perm; [|exact Hd]. by rewrite Hp. }
  by eapply adds_dels_hdrs.
Qed.

(** A client without addresses and rules that has come behind those of [o]. *)
Lemma hdr_init_attached m o k e :
  eth_inv (o, (k, e)) -> length m = IPA_MAC_ADDR_SIZE -> tx <> None ->
  wp (handle_eth_hdr_init fds m) (fun r s' => eth_inv s' /\
    (r = IPACM_FAILURE \/ get_client_index m o = None /\ exists c, attached o c (s').1 /\ mac c = m /\
      length (v6_addr c) = IPV6_NUM_ADDR /\ ipv4_set c = false /\ ipv6_set c = 0%nat /\
      route_rule_set_v4 c = false /\ route_rule_set_v6 c = 0%nat /\
      adds_hdrs (client_hdrs c) (hw_of k) (hw_of (s').2.1))) (o, (k, e)).
Proof.
  intros Hinv Hm Htx. eapply wp_mono; [by apply hdr_init_ok|].
  intros r [o1 [k1 e1]] (Hinv1 & _ & Hr). cbn [fst snd] in *. split; [done|].
  destruct Hr as [->|(-> & Hidx & [?|(x4 & x6 & c & Hs & Ha & Ho1)])]; [by left|done|]. right. split; [done|].
  pose proof Hinv as [[Ht _] [_ Hotx]]. cbn [fst] in Ht, Hotx.
  pose proof (table_slot _ _ _ _ _ _ Ht Hs) as Hwf. rewrite Hotx in Hwf.
  exists (eth_new m x4 x6 c). rewrite (eth_new_hdrs m x4 x6 c Hwf).
  assert (mac (eth_new m x4 x6 c) = m /\ v6_addr (eth_new m x4 x6 c) = v6_addr c) as [-> ->]
    by (unfold eth_new, hdr_client, hdr_step; simpl; by destruct (has_tx IPA_IP_v4 _), (has_tx IPA_IP_v6 _)).
  split; [|by rewrite (wf_v6_addr _ _ Hwf)]. subst o1. split; [by apply clients_of_count|]. split; [done|].
  change (slot (with_slot (eth_new m x4 x6) (num_client o) o) (num_client o) = Some (eth_new m x4 x6 c)).
  by rewrite slot_with, Hs.
Qed.

(** The rest of a visit is defined, whatever the calls return. *)
Lemma eth_visit_rest m d ip r1 s :
  eth_inv s ->
  wp (handle_eth_client_ipaddr fds d >>
      let* r3 := handle_eth_client_route_rule fds m ip in
      let* r4 := handle_eth_client_down_evt fds m in ret (r1 : Z, r3, r4)) (fun '(r, _, _) _ => r = r1) s.
Proof.
  intros Hs. wstep. eapply wp_mono; [by apply eth_ipaddr_kept|]. intros r2 s2 Hs2.
  wstep. eapply wp_mono; [by apply eth_route_kept|]. intros r3 s3 Hs3.
  wstep. eapply wp_mono; [by apply eth_down_kept|]. intros r4 s4 _. by wsteps.
Qed.

Lemma eth_visit_ok m d ip o k e :
  eth_inv (o, (k, e)) -> length m = IPA_MAC_ADDR_SIZE -> da_mac_addr d = m -> tx <> None ->
  wp (eth_visit fds m d ip) (fun '(r1, r3, r4) s' =>
    r1 = IPACM_SUCCESS -> r3 = IPACM_SUCCESS ->
    r4 = IPACM_SUCCESS /\ hw_of (s').2.1 = hw_of k /\ Forall2 same_client (clients_of o) (clients_of (s').1)) (o, (k, e)).
Proof.
  intros Hinv Hm Hd Htx. unfold eth_visit. wstep. eapply wp_mono; [by apply hdr_init_attached|].
  intros r1 [o1 [k1 e1]] (Hinv1 & [->|(Hidx & c1 & Hat1 & Hmac & Hl6 & Hs4 & Hs6 & Hr4 & Hr6 & Ha)]); cbn [fst snd] in *.
  { eapply wp_mono; [by apply eth_visit_rest|]. by intros [[r ?] ?] s' -> ?. }
  pose proof (clients_of_length _ _ _ _ (proj1 (proj1 Hinv))) as Hlen. cbn [fst] in Hlen.
  assert (forall c', mac c' = mac c1 -> forall o', attached o c' o' -> get_client_index m o' = Some (num_client o)) as Hix.
  { intros c' Hc' o' Hat. rewrite <- Hmac, <- Hc'. eapply attached_index; [done|done|]. by rewrite Hc', Hmac. }
  pose proof (ipaddr_new d o1 k1 e1 (num_client o) c1 (proj2 (proj2 Hat1)) Hl6 Hs4 Hs6
    ltac:(rewrite Hd; by eapply Hix)) as Haddr.
  wstep. eapply wp_mono; [exact (wp_and _ _ _ _ (eth_ipaddr_kept d _ Hinv1) Haddr)|].
  intros _ [o2 [k2 e2]] [Hinv2 [Hke (a4 & s4 & a6 & s6 & Ho2)]]. cbn [fst snd] in *. injection Hke as -> ->.
  set (f2 := fun c => _) in Ho2. pose proof (attached_with f2 _ _ _ Hat1 Hlen) as Hat2. rewrite <- Ho2 in Hat2.
  assert (client_rules (eth_odu o2) (default [] tx) (f2 c1) = []) as Hr0.
  { unfold client_rules, f2. simpl. rewrite Hr4, Hr6. apply v6_rules_none. }
  wstep. eapply wp_mono; [exact (eth_route_new m ip o2 k1 e1 (num_client o) (f2 c1) Hinv2 (Hix (f2 c1) eq_refl _ Hat2)
    (proj2 (proj2 Hat2)) Hr0)|].
  intros r3 [o3 [k3 e3]] [Hinv3 Hr3]. cbn [fst snd] in *. wstep.
  destruct (decide (r3 = IPACM_SUCCESS)) as [->|Hne].
  2:{ eapply wp_mono; [by apply eth_down_kept|]. intros r4 s4' _. by wsteps. }
  destruct (Hr3 eq_refl) as (f & Ho3 & Hfm & Hfh & Hrs). clear Hr3 Haddr.
  pose proof (attached_with f _ _ _ Hat2 Hlen) as Hat3. rewrite <- Ho3 in Hat3.
  assert (eth_odu o3 = eth_odu o2) as Hodu.
  { rewrite (eth_odu_frame o2 (proj2 Hinv2)). apply (eth_odu_frame o3 (proj2 Hinv3)). }
  eapply wp_mono; [apply (eth_leave m (num_client o) o3 k3 e3 (f (f2 c1)) (hw_of k) (hw_of k1) Hinv3
    (Hix (f (f2 c1)) Hfm _ Hat3) (proj2 (proj2 Hat3))); [by rewrite Hfh|by rewrite Hodu]|].
  intros r4 [o4 [k4 e4]] (-> & Hk4 & Hf4). cbn [fst snd] in *. wsteps. intros _ _. split; [done|]. split; [done|].
  rewrite (proj1 Hat3) in Hf4. cbn [fst]. by rewrite delete_end in Hf4 by done.
Qed.

(** ** Properties *)

(** C31. Whatever clients come, get addresses and rules, go or lose the WAN, in
    whatever order, and whichever additions the kernel refuses: no method has
    undefined behaviour, and the hardware holds every routing rule and header that
    a record names, with the contents of the record, each named once.  The kernel has
    memory, opens its devices and deletes what is installed ([IpaReliable]); MAC
    addresses have six bytes; an array of tx properties is not empty; the state to
    begin with has the invariant, as that of a new interface has.  What an addition that failed half-way has left in the
    hardware is named by no record, and nothing is said of it. *)
Theorem eth_clients_mirrored ops s :
  eth_inv s -> Forall eth_op_ok ops -> exists s', run_eth fds this ops s = Some (tt, s') /\ eth_inv s'.
Proof.
  intros Hs Hops. destruct (wp_run _ _ _ (run_eth_kept ops Hops s Hs)) as ([] & s' & Hrun & Hs'). eauto.
Qed.

(** A client that goes down takes its routing rules and headers out of the
    hardware and its record out of the table, and nothing else: the records behind
    it move down with all they have, and the conntrack listener hears of it. *)
Theorem eth_down_forgets m i o k e c :
  eth_inv (o, (k, e)) -> get_client_index m o = Some i -> slot o i = Some c ->
  exists o' k' e', handle_eth_client_down_evt fds m (o, (k, e)) = Some (IPACM_SUCCESS, (o', (k', e'))) /\
    eth_inv (o', (k', e')) /\
    client_view (eth_odu o) (default [] tx) <$> clients_of o' =
      client_view (eth_odu o) (default [] tx) <$> delete i (clients_of o) /\
    dels_all (client_rules (eth_odu o) (default [] tx) c).*1 (client_hdrs c) (hw_of k) (hw_of k') /\
    exists e1, (if ipv4_set c then ct_neigh_del (v4_addr c) e else Some e) = Some e1 /\
      (e' = e1 \/ exists p, e' = del_rm_depend p e1).
Proof.
  intros Hs Hidx Hc.
  destruct (wp_run _ _ _ (eth_down_ok m i o k e c Hs Hidx Hc)) as (r & [o' [k' e']] & Hrun & -> & Hs' & _ & Hf & Hd & He).
  exists o', k', e'. split; [done|]. split; [done|]. split; [|done].
  pose proof Hs as [[Ht _] [_ Htx]]. cbn [fst] in Ht, Htx. pose proof (table_clients_wf _ _ _ _ Ht) as Hwf.
  rewrite Htx in Hwf. cbn [fst] in Hf. eapply same_clients_view; [exact Hf|]. by apply Forall_delete.
Qed.

(** A client that comes, gets an address and routing rules of one IP type, and
    goes leaves nothing behind when its calls succeed: the hardware is what it was,
    rule by rule and header by header, and so are the other clients. *)
Theorem eth_visit_leaves_nothing m d ip o k e :
  eth_inv (o, (k, e)) -> length m = IPA_MAC_ADDR_SIZE -> da_mac_addr d = m -> tx <> None ->
  exists r1 r3 r4 o' k' e', eth_visit fds m d ip (o, (k, e)) = Some ((r1, r3, r4), (o', (k', e'))) /\
    (r1 = IPACM_SUCCESS -> r3 = IPACM_SUCCESS ->
     r4 = IPACM_SUCCESS /\ hw_of k' = hw_of k /\
     client_view (eth_odu o) (default [] tx) <$> clients_of o' = client_view (eth_odu o) (default [] tx) <$> clients_of o).
Proof.
  intros Hs Hm Hd Htx.
  destruct (wp_run _ _ _ (eth_visit_ok m d ip o k e Hs Hm Hd Htx)) as ([[r1 r3] r4] & [o' [k' e']] & Hrun & Hr).
  exists r1, r3, r4, o', k', e'. split; [done|]. intros H1 H3. destruct (Hr H1 H3) as (-> & Hk & Hf).
  split; [done|]. split; [done|]. pose proof Hs as [[Ht _] [_ Hotx]]. cbn [fst] in Ht, Hotx.
  pose proof (table_clients_wf _ _ _ _ Ht) as Hwf. rewrite Hotx in Hwf. by eapply same_clients_view.
Qed.

(** When the WAN of an IP type is lost, every client loses its routing rules
    and addresses of that type, the hardware exactly those rules, and the
    LAN-to-LAN offload is told one address after the other - of an IPv6 address
    only the first word. *)
Theorem eth_wan_down ip o k e :
  eth_inv (o, (k, e)) -> ip <> IPA_IP_MAX ->
  exists o' k' e', handle_lan_client_reset_rt fds this ip (o, (k, e)) = Some (IPACM_SUCCESS, (o', (k', e'))) /\
    eth_inv (o', (k', e')) /\
    clients_of o' = (fun c => reset_addr ip (no_routes ip c)) <$> clients_of o /\
    e' = posted (concat (disconnect_msgs ip <$> clients_of o)) e /\
    dels_rts (concat (rules_of ip (eth_odu o) (default [] tx) <$> clients_of o)).*1 (hw_of k) (hw_of k').
Proof.
  intros Hs Hip. destruct (wp_run _ _ _ (reset_rt_ok ip o k e Hs Hip)) as (r & [o' [k' e']] & Hrun & -> & ? & ? & ? & ?).
  by exists o', k', e'.
Qed.
End eth.

(** ** Examples *)

(** A kernel on which the fifth call that can fail does: the second routing rule
    of the run below. *)
#[local] Instance ex_kernel : IpaKernel SimpleIpa := simple_kernel (fun n => (n =? 6)%nat).
#[local] Instance ex_kernel_ok : IpaKernelOk SimpleIpa := simple_kernel_ok _.
#[local] Instance ex_reliable : IpaReliable SimpleIpa simple_fds := simple_reliable _.

Definition eth_example_own : eth_own := {| is_odu := false; ODU_hdr_hdl_v4 := 0 |}.
Definition example_eth : eth_iface := new_iface 1 IPA_MAX_NUM_ETH_CLIENTS IPA_IP_MAX example_tx tt eth_example_own.

Definition example_eth_ops : list eth_op :=
  [EthNeighAdd (example_addr4 (example_mac 1) 100); EthNeighAdd (example_addr6 (example_mac 1) (1, 2, 3, 4));
   EthNeighAdd (example_addr4 (example_mac 2) 200); EthNeighAdd (example_addr6 (example_mac 2) (5, 6, 7, 8))].

Lemma example_eth_inv : eth_inv eth_example_own (Some example_tx) (example_eth, (si_init, [] : list lan_call)).
Proof. split; [|done]. split; [|done]. apply new_iface_inv. Qed.

Lemma example_eth_ops_ok : Forall eth_op_ok example_eth_ops.
Proof. by repeat constructor. Qed.

Definition eth_end : eth_iface * (SimpleIpa * list lan_call) :=
  match run_eth simple_fds 9 example_eth_ops (example_eth, (si_init, [])) with
  | Some (_, s) => s
  | None => (example_eth, (si_init, []))
  end.

(** The interface, the kernel and the calls after the run. *)
Definition eth_up_o : eth_iface := fst eth_end.
Definition eth_up_k : SimpleIpa := fst (snd eth_end).
Definition eth_up_e : list lan_call := snd (snd eth_end).
Definition eth_up_client : ipa_client unit := default (client_zero 0 tt) (clients_of eth_up_o !! 0%nat).

Lemma eth_up_run :
  run_eth simple_fds 9 example_eth_ops (example_eth, (si_init, [])) = Some (tt, (eth_up_o, (eth_up_k, eth_up_e))).
Proof. vm_compute. reflexivity. Qed.

Lemma eth_up_inv : eth_inv eth_example_own (Some example_tx) (eth_up_o, (eth_up_k, eth_up_e)).
Proof.
  destruct (wp_run _ _ _ (run_eth_kept simple_fds 9 eth_example_own (Some example_tx) ltac:(done) example_eth_ops example_eth_ops_ok
    _ example_eth_inv)) as ([] & s' & Hrun & Hs').
  rewrite eth_up_run in Hrun. by injection Hrun as ->.
Qed.

Lemma eth_clients_mirrored_witness :
  exists s', run_eth simple_fds 9 example_eth_ops (example_eth, (si_init, [])) = Some (tt, s') /\
    eth_inv eth_example_own (Some example_tx) s'.
Proof.
  exact (eth_clients_mirrored simple_fds 9 eth_example_own (Some example_tx) ltac:(done) example_eth_ops _ example_eth_inv
    example_eth_ops_ok).
Defined.

Lemma eth_down_forgets_witness :
  exists o' k' e',
    handle_eth_client_down_evt simple_fds (example_mac 1) (eth_up_o, (eth_up_k, eth_up_e)) = Some (IPACM_SUCCESS, (o', (k', e'))) /\
    client_view (eth_odu eth_up_o) example_tx <$> clients_of o' =
      client_view (eth_odu eth_up_o) example_tx <$> delete 0%nat (clients_of eth_up_o).
Proof.
  destruct (eth_down_forgets simple_fds eth_example_own (Some example_tx) ltac:(done) (example_mac 1) 0 eth_up_o eth_up_k eth_up_e eth_up_client
    eth_up_inv ltac:(vm_compute; reflexivity) ltac:(vm_compute; reflexivity)) as (o' & k' & e' & Hrun & _ & Hv & _).
  exists o', k', e'. split; [exact Hrun|exact Hv].
Defined.

Lemma eth_visit_leaves_nothing_witness :
  exists o' k' e', eth_visit simple_fds (example_mac 3) (example_addr4 (example_mac 3) 77) IPA_IP_v4 (eth_up_o, (eth_up_k, eth_up_e)) =
      Some ((IPACM_SUCCESS, IPACM_SUCCESS, IPACM_SUCCESS), (o', (k', e'))) /\ hw_of k' = hw_of eth_up_k.
Proof.
  destruct (eth_visit_leaves_nothing simple_fds eth_example_own (Some example_tx) ltac:(done) (example_mac 3)
    (example_addr4 (example_mac 3) 77) IPA_IP_v4 eth_up_o eth_up_k eth_up_e eth_up_inv eq_refl eq_refl ltac:(done))
    as (r1 & r3 & r4 & o' & k' & e' & Hrun & Hr).
  assert (option_map fst (eth_visit simple_fds (example_mac 3) (example_addr4 (example_mac 3) 77) IPA_IP_v4
    (eth_up_o, (eth_up_k, eth_up_e))) = Some (IPACM_SUCCESS, IPACM_SUCCESS, IPACM_SUCCESS)) as He by (vm_compute; reflexivity).
  rewrite Hrun in He. cbn [option_map fst] in He. injection He as -> -> ->.
  destruct (Hr eq_refl eq_refl) as (_ & Hk & _). exists o', k', e'. split; [exact Hrun|exact Hk].
Defined.

Lemma eth_wan_down_witness :
  exists o' k' e',
    handle_lan_client_reset_rt simple_fds 9 IPA_IP_v6 (eth_up_o, (eth_up_k, eth_up_e)) = Some (IPACM_SUCCESS, (o', (k', e'))) /\
    clients_of o' = (fun c => reset_addr IPA_IP_v6 (no_routes IPA_IP_v6 c)) <$> clients_of eth_up_o.
Proof.
  destruct (eth_wan_down simple_fds 9 eth_example_own (Some example_tx) ltac:(done) IPA_IP_v6 eth_up_o eth_up_k eth_up_e
    eth_up_inv ltac:(done)) as (o' & k' & e' & Hrun & _ & Hcs & _).
  exists o', k', e'. split; [exact Hrun|exact Hcs].
Defined.

(** A kernel that grants everything. *)
#[local] Instance ex_granting : IpaKernel SimpleIpa := simple_kernel (fun _ => false).
#[local] Instance ex_granting_ok : IpaKernelOk SimpleIpa := simple_kernel_ok _.

(** A header's name ends in one digit of the running number, the array of the
    number having two bytes: the tenth client after the first gets headers of the
    same names. *)
Theorem eth_header_names_repeat :
  match run_eth simple_fds 9 (EthHdrInit ∘ example_mac <$> seqZ 0 11) (example_eth, (si_init, [] : list lan_call)) with
  | Some (_, (o, (k, e))) =>
      (fun c => ha_name <$> hw_hdrs (hw_of k) !! hdr_hdl_v4 c) <$> clients_of o !! 1%nat = Some (Some "1IPACM_ETH_v41"%string) /\
      (fun c => ha_name <$> hw_hdrs (hw_of k) !! hdr_hdl_v4 c) <$> clients_of o !! 10%nat = Some (Some "1IPACM_ETH_v41"%string) /\
      (hdr_hdl_v4 <$> clients_of o !! 1%nat) <> (hdr_hdl_v4 <$> clients_of o !! 10%nat)
  | None => False
  end.
Proof. vm_compute. split_and!; try reflexivity. discriminate. Qed.
