(* ===== verification/WlanClients.v ===== *)
(** * The wireless clients of [IPACM_Wlan] ([IPACM_Wlan.cpp], [IPACM_Wlan.h])

    The driver announces a client with the attributes of its header; addresses come
    with neighbour events.  A client that saves power keeps its record and headers
    but has no routing rules and no NAT rules until it is back. *)
From S2P Require Import Prelude Defs Heap Config LanToLan IpaDrv StateM ClientTable ClientProps ClientInv ClientOps.
From stdpp Require Import base list gmap strings.
From Stdlib Require Import ZArith Lia.

Open Scope Z_scope.
Open Scope method_scope.

Definition IPA_WLAN_PARTIAL_HDR_NAME_v4 : string := "IEEE802_3_v4".
Definition IPA_WLAN_PARTIAL_HDR_NAME_v6 : string := "IEEE802_3_v6".

(** What only a wireless client has; [p_hdr_info] points to a copy of its event. *)
Record wlan_extra := { p_hdr_info : cptr ipacm_event_data_wlan_ex; power_save_set : bool }.
#[export] Instance wlan_extra_eta : Settable wlan_extra := fun r => Build_wlan_extra (p_hdr_info r) (power_save_set r).

Abbreviation wlan_client := (ipa_client wlan_extra).
(** [total_num_wifi_clients] counts the clients of all interfaces. *)
Abbreviation wlan_iface := (client_iface wlan_extra Z).

Definition set_power_save (b : bool) (c : wlan_client) : wlan_client :=
  c <| extra := extra c <| power_save_set := b |> |>.
Definition set_hdr_info (p : cptr ipacm_event_data_wlan_ex) (c : wlan_client) : wlan_client :=
  c <| extra := extra c <| p_hdr_info := p |> |>.

(** [free(p_hdr_info)]; freeing what is freed is undefined. *)
Definition free_hdr_info (x : wlan_extra) : option wlan_extra :=
  match p_hdr_info x with
  | Null => Some x
  | Live _ => Some (x <| p_hdr_info := Dangling |>)
  | Dangling => None
  end.

(** The loop of the down handler copies the pointer, not the power-save state. *)
Definition move_extra (next old : wlan_extra) : wlan_extra := old <| p_hdr_info := p_hdr_info next |>.

Inductive wlan_op :=
  | WlanClientAdd (data : ipacm_event_data_wlan_ex)
  | WlanClientDel (mac_addr : list Z)
  | WlanPowerSave (mac_addr : list Z)
  | WlanRecover (mac_addr : list Z)
  | WlanNeighAdd (data : ipacm_event_data_all)
  | WlanResetRt (iptype : ipa_ip_type).

Section wlan.
Context {K E : Type} `{IpaKernel K, LanEnv E} (fds : ipa_fds) (this : Z).

Abbreviation method := (M (wlan_iface * (K * E))).

(** The loop over the attributes, in each of the two header loops. *)
Fixpoint wlan_fill (i : nat) (l : list ipa_wlan_hdr_attrib_val) (buf : list Z) : method (list Z) :=
  match l with
  | [] => ret buf
  | WLAN_HDR_ATTRIB_MAC_ADDR offset m :: l =>
      set_client i (fun c => c <| mac := m |>) >>
      let* buf := deref (write_bytes offset m buf) in wlan_fill i l buf
  | WLAN_HDR_ATTRIB_STA_ID offset b :: l => let* buf := deref (write_bytes offset b buf) in wlan_fill i l buf
  | WLAN_HDR_ATTRIB_OTHER :: l => wlan_fill i l buf
  end.

(** The result of [malloc] for the copy of the event is not tested. *)
Definition handle_wlan_client_init_ex (data : ipacm_event_data_wlan_ex) : method Z :=
  let* o := get_obj in
  if (IPA_MAX_NUM_WIFI_CLIENTS <=? num_client o)%nat || (Z.of_nat IPA_MAX_NUM_WIFI_CLIENTS <=? own o)
  then ret IPACM_FAILURE
  else
    let i := num_client o in
    match tx_prop o with
    | None => ret IPACM_SUCCESS
    | Some _ =>
        let* ok := hw malloc in
        if negb ok then ret IPACM_FAILURE
        else
          let* ok := hw malloc in
          if negb ok then ub
          else
            set_client i (set_hdr_info (Live data)) >>
            let* ok := init_headers fds IPA_WLAN_PARTIAL_HDR_NAME_v4 IPA_WLAN_PARTIAL_HDR_NAME_v6
                         (fun _ buf => wlan_fill i (attribs data) buf) i in
            if negb ok then ret IPACM_FAILURE
            else
              set_client i (fun c => set_power_save false (init_flags c)) >>
              count_client >>
              upd_obj (fun o => o <| own := own o + 1 |>) >>
              ret IPACM_SUCCESS
    end.

Definition handle_wlan_client_ipaddr (data : ipacm_event_data_all) : method Z := client_ipaddr fds data.

Definition handle_wlan_client_route_rule (mac_addr : list Z) (iptype : ipa_ip_type) : method Z :=
  let* o := get_obj in
  match tx_prop o with
  | None => ret IPACM_SUCCESS
  | Some _ =>
      match get_client_index mac_addr o with
      | None => ret IPACM_SUCCESS
      | Some i =>
          let* c := get_client i in
          if power_save_set (extra c) then ret IPACM_SUCCESS
          else if needs_routes iptype c then add_routes fds None i iptype
          else ret IPACM_SUCCESS
      end
  end.

Definition handle_wlan_client_pwrsave (mac_addr : list Z) : method Z :=
  let* o := get_obj in
  match get_client_index mac_addr o with
  | None => ret IPACM_SUCCESS
  | Some i =>
      let* c := get_client i in
      if power_save_set (extra c) then ret IPACM_SUCCESS
      else
        (if ipv4_set c then call (nat_update_pwr_save (v4_addr c)) else ret tt) >>
        delete_rtrules fds i IPA_IP_v4 >>
        delete_rtrules fds i IPA_IP_v6 >>
        set_client i (set_power_save true) >>
        ret IPACM_SUCCESS
  end.

Definition handle_wlan_client_down_evt (mac_addr : list Z) : method Z :=
  let* o := get_obj in
  match get_client_index mac_addr o with
  | None => ret IPACM_SUCCESS
  | Some i =>
      let* r := withdraw_client fds i in
      match r with
      | Some r => ret r
      | None =>
          remove_client free_hdr_info move_extra i >>
          upd_obj (fun o => o <| own := own o - 1 |>) >>
          ret IPACM_SUCCESS
      end
  end.

(** [handle_lan2lan_msg_post]: one message for each address of the type. *)
Definition handle_lan2lan_msg_post (mac_addr : list Z) (event : ipa_cm_event_id) (iptype : ipa_ip_type) : method Z :=
  let* o := get_obj in
  match get_client_index mac_addr o with
  | None => ret IPACM_SUCCESS
  | Some i =>
      let* c := get_client i in
      let* r := if ipv4_set c && bool_decide (iptype = IPA_IP_v4) then
                  if negb (iface_has IPA_IP_v4 (ip_type o)) then ret (Some IPACM_FAILURE)
                  else post_one event (lan_client_v4 this (v4_addr c))
                else ret None in
      match r with
      | Some r => ret r
      | None =>
          let* r := if (0 <? ipv6_set c)%nat && bool_decide (iptype = IPA_IP_v6) then
                      if negb (iface_has IPA_IP_v6 (ip_type o)) then ret (Some IPACM_FAILURE)
                      else for_each (fun j =>
                             let* addr := deref (v6_addr c !! j) in
                             post_one event (lan_client_v6 this addr)) (seq 0 (ipv6_set c))
                    else ret None in
          ret (default IPACM_SUCCESS r)
      end
  end.

Definition reset_wlan_one (iptype : ipa_ip_type) (i : nat) : method (option Z) :=
  let* res := delete_rtrules fds i iptype in
  if negb (res =? IPACM_SUCCESS) then ret (Some res)
  else
    let* c := get_client i in
    let* res := handle_lan2lan_msg_post (mac c) IPA_LAN_CLIENT_DISCONNECT iptype in
    if negb (res =? IPACM_SUCCESS) then ret (Some res)
    else set_client i (reset_addr iptype) >> ret None.

Definition handle_wlan_client_reset_rt (iptype : ipa_ip_type) : method Z :=
  let* o := get_obj in
  let* r := for_each (reset_wlan_one iptype) (seq 0 (num_client o)) in
  ret (default IPACM_SUCCESS r).

(** The cases of [event_callback] for the clients of the interface. *)
Definition post_both (mac_addr : list Z) (event : ipa_cm_event_id) : method unit :=
  handle_lan2lan_msg_post mac_addr event IPA_IP_v4 >>
  handle_lan2lan_msg_post mac_addr event IPA_IP_v6 >> ret tt.

Definition wlan_client_del (mac_addr : list Z) : method unit :=
  post_both mac_addr IPA_LAN_CLIENT_DISCONNECT >> handle_wlan_client_down_evt mac_addr >> ret tt.

Definition wlan_client_power_save (mac_addr : list Z) : method unit :=
  post_both mac_addr IPA_LAN_CLIENT_POWER_SAVE >> handle_wlan_client_pwrsave mac_addr >> ret tt.

Definition wlan_client_recover (mac_addr : list Z) : method unit :=
  post_both mac_addr IPA_LAN_CLIENT_POWER_RECOVER >>
  let* o := get_obj in
  match get_client_index mac_addr o with
  | None => ret tt
  | Some i =>
      let* c := get_client i in
      if negb (power_save_set (extra c)) then ret tt
      else
        set_client i (set_power_save false) >>
        (if ipv4_set c then
           handle_wlan_client_route_rule mac_addr IPA_IP_v4 >>
           let* c := get_client i in call (nat_reset_pwr_save (v4_addr c))
         else ret tt) >>
        let* c := get_client i in
        if negb (ipv6_set c =? 0)%nat then handle_wlan_client_route_rule mac_addr IPA_IP_v6 >> ret tt else ret tt
  end.

Definition wlan_neigh_add (data : ipacm_event_data_all) : method unit :=
  let* r := handle_wlan_client_ipaddr data in
  if r =? IPACM_FAILURE then ret tt
  else
    handle_lan2lan_client_active this data IPA_LAN_CLIENT_ACTIVE >>
    handle_wlan_client_route_rule (da_mac_addr data) (da_iptype data) >>
    if bool_decide (da_iptype data = IPA_IP_v4) then call (ct_neigh_add data) else ret tt.

Definition run_wlan_op (op : wlan_op) : method unit :=
  match op with
  | WlanClientAdd d => handle_wlan_client_init_ex d >> ret tt
  | WlanClientDel m => wlan_client_del m
  | WlanPowerSave m => wlan_client_power_save m
  | WlanRecover m => wlan_client_recover m
  | WlanNeighAdd d => wlan_neigh_add d
  | WlanResetRt ip => handle_wlan_client_reset_rt ip >> ret tt
  end.

Fixpoint run_wlan (ops : list wlan_op) : method unit :=
  match ops with
  | [] => ret tt
  | op :: ops => run_wlan_op op >> run_wlan ops
  end.
End wlan.
