(* ===== verification/WlanProps.v ===== *)
(** * The wireless clients: invariant, removal, power saving *)
From S2P Require Import Prelude Defs Heap Config LanToLan IpaDrv IpaSim StateM.
From S2P Require Import ClientTable ClientProps ClientInv ClientOps LanSim WlanClients.
From stdpp Require Import base list gmap strings.
From Stdlib Require Import ZArith Lia.

Open Scope Z_scope.
Open Scope method_scope.

(** The MAC address after the loop over the attributes. *)
Fixpoint wlan_mac (l : list ipa_wlan_hdr_attrib_val) (m : list Z) : list Z :=
  match l with
  | [] => m
  | WLAN_HDR_ATTRIB_MAC_ADDR _ m' :: l => wlan_mac l m'
  | _ :: l => wlan_mac l m
  end.

Section wlan.
Context {K E : Type} `{HK : IpaKernelOk K} `{HE : LanEnv E} (fds : ipa_fds) `{!IpaReliable K fds} `{!LanEnvOk E}.
Implicit Types (o : wlan_iface) (c : wlan_client) (k : K) (e : E).
Variable this : Z.

Abbreviation state := (wlan_iface * (K * E))%type.

(** An attribute lies within the header. *)
Definition attrib_ok (a : ipa_wlan_hdr_attrib_val) : Prop :=
  match a with
  | WLAN_HDR_ATTRIB_MAC_ADDR ofs b | WLAN_HDR_ATTRIB_STA_ID ofs b =>
      0 <= ofs /\ ofs + Z.of_nat (length b) <= IPA_HDR_MAX_SIZE
  | WLAN_HDR_ATTRIB_OTHER => True
  end.

Lemma wlan_fill_ok l i :
  Forall attrib_ok l -> fill_ok (E := E) (wlan_mac l) i (fun _ buf => wlan_fill (K := K) i l buf).
Proof.
  intros Hl ch buf o ke c Q Hs Hb _ HQ. revert buf o c Hs Hb HQ.
  induction Hl as [|a l Ha _ IH]; intros buf o c Hs Hb HQ; simpl in *.
  - wsteps. specialize (HQ buf Hb).
    assert (with_slot (fun c => c <| mac := mac c |>) i o = o) as Hid.
    { rewrite <- (with_slot_id i o) at 2. apply with_slot_ext. by intros [] _. }
    cut (Q buf (with_slot (fun c => c <| mac := mac c |>) i o, ke)); [by rewrite Hid|exact HQ].
  - destruct a as [ofs m|ofs b|]; simpl in *; [| |by eapply IH].
    + destruct Ha as [H0 Hle]. destruct (write_bytes_ok ofs m buf) as (buf' & Hw & Hl'); [lia|lia|].
      wstep. apply (wp_set_client _ c); [done|]. cbn [fst snd]. wstep. eapply wp_deref; [exact Hw|].
      apply (IH _ _ (c <| mac := m |>)); [by rewrite slot_with, Hs|lia|]. intros buf2 H2.
      rewrite with_slot_with. exact (HQ buf2 H2).
    + destruct Ha as [H0 Hle]. destruct (write_bytes_ok ofs b buf) as (buf' & Hw & Hl'); [lia|lia|].
      wstep. eapply wp_deref; [exact Hw|]. by apply (IH _ _ c); [done|lia|].
Qed.

(** ** The invariant

    The table mirrors the hardware, and every client in use has the copy of its
    event. *)
Variable tx : option (list ipa_ioc_tx_intf_prop).

Definition has_info (x : wlan_extra) : Prop := exists d, p_hdr_info x = Live d.

Definition wlan_frame o : Prop := tx_prop o = tx /\ Forall has_info (extra <$> clients_of o).

Lemma wlan_frame_same o o' : same_iface o o' -> wlan_frame o -> wlan_frame o'.
Proof. intros (Hf & _ & He) [Ht Hi]. split; [by rewrite Hf|by rewrite He]. Qed.

Definition wlan_inv : state -> Prop := iface_inv None IPA_MAX_NUM_WIFI_CLIENTS wlan_frame.

Definition wlan_new l x4 x6 c : wlan_client :=
  set_power_save false (init_flags (hdr_client (default [] tx) (wlan_mac l) x4 x6 c)).

Lemma wlan_new_wf l x4 x6 c : client_wf (default [] tx) c -> client_wf (default [] tx) (wlan_new l x4 x6 c).
Proof.
  intros Hwf. destruct (hdr_client_wf (default [] tx) (wlan_mac l) x4 x6 _ Hwf). split; simpl; try done; lia.
Qed.

Lemma wlan_new_hdrs l x4 x6 c :
  client_wf (default [] tx) c -> client_hdrs (wlan_new l x4 x6 c) = new_hdrs (default [] tx) x4 x6.
Proof. intros Hwf. by apply (hdr_client_hdrs (default [] tx) (wlan_mac l) x4 x6 c). Qed.

(** A change of slot [num_client o], which is not in use. *)
Lemma wlan_inv_free o k k' e f c :
  wlan_inv (o, (k, e)) -> slot o (num_client o) = Some c -> client_wf (default [] tx) (f c) ->
  (exists l, adds_hdrs l (hw_of k) (hw_of k')) -> wlan_inv (with_slot f (num_client o) o, (k', e)).
Proof.
  intros [[Ht He] [Htx Hx]] Hs Hf [l Ha]. cbn [fst snd] in *. split; [split; [|done]|split; [done|]]; cbn [fst snd].
  - apply (table_inv_free _ _ o (hw_of k) _ _ c _ Ht Hs); [done|by rewrite Htx| |].
    + intros rs. apply installed_ext. by eapply adds_hdrs_rts.
    + intros l' Hl'. eapply installed_hdrs_app. by eapply installed_hdrs_adds.
  - by rewrite clients_of_free.
Qed.

Lemma init_ex_kept d : Forall attrib_ok (attribs d) -> kept wlan_inv (handle_wlan_client_init_ex fds d).
Proof.
  intros Hd [o [k e]] Hinv. pose proof Hinv as [[Ht He] [Htx Hx]]. cbn [fst snd] in *.
  unfold handle_wlan_client_init_ex. wsteps. cbn [fst].
  destruct (Nat.leb_spec IPA_MAX_NUM_WIFI_CLIENTS (num_client o)) as [|Hn]; [by wsteps|]. cbn [orb].
  destruct (_ <=? _); [by wsteps|]. destruct (tx_prop o) as [txs|] eqn:Etx; [|by wsteps].
  destruct (table_slot_lt _ _ _ _ _ Ht Hn) as [c Hs]. pose proof (table_slot _ _ _ _ _ _ Ht Hs) as Hwf.
  rewrite Etx, Htx in Hwf.
  wstep. apply wp_malloc_any. intros ok k1 Hk1. destruct ok; cbn [negb].
  2:{ wsteps. destruct Hinv as [[? ?] ?]. split; [|done]. split; [|done]. cbn [fst snd]. by rewrite Hk1. }
  wstep. apply (wp_malloc fds). intros k2 Hk2. cbn [negb]. wstep. apply (wp_set_client _ c); [done|]. cbn [fst snd].
  set (oi := with_slot (set_hdr_info (Live d)) (num_client o) o). set (ci := set_hdr_info (Live d) c).
  assert (slot oi (num_client o) = Some ci) as Hsi by (unfold oi; by rewrite slot_with, Hs).
  assert (client_wf (default [] tx) ci) as Hwfi by (destruct Hwf; by split).
  assert (tx_prop oi = tx) as Htxi by (by rewrite <- Htx).
  wstep. eapply wp_mono; [apply (init_headers_ok fds (wlan_mac (attribs d)) _ _ _ _ oi k2 e ci (wlan_fill_ok _ _ Hd) Hsi)|].
  { by rewrite Htxi. }
  rewrite Htxi. intros ok [o3 [k3 e3]] [He3 Hok]. cbn [fst snd] in *. subst e3. destruct ok; cbn [negb].
  - destruct Hok as (x4 & x6 & Ha & ->). wstep.
    apply (wp_set_client _ (hdr_client (default [] tx) (wlan_mac (attribs d)) x4 x6 ci)).
    { cbn [fst]. by rewrite slot_with, Hsi. }
    unfold count_client. wsteps. cbn [fst snd]. unfold oi. rewrite !with_slot_with.
    change (fun c0 => set_power_save false (init_flags (hdr_client (default [] tx) (wlan_mac (attribs d)) x4 x6
      (set_hdr_info (Live d) c0)))) with (fun c0 => wlan_new (attribs d) x4 x6 (set_hdr_info (Live d) c0)).
    set (f := fun c0 => wlan_new (attribs d) x4 x6 (set_hdr_info (Live d) c0)).
    pose proof (table_inv_attach None _ o (hw_of k) (hw_of k3) f c (new_hdrs (default [] tx) x4 x6) Ht Hs Hn) as Hat.
    rewrite Etx, Htx in Hat. specialize (Hat (wlan_new_wf _ x4 x6 ci Hwfi) (v6_rules_none _ _ _)
      (wlan_new_hdrs _ x4 x6 ci Hwfi)). rewrite <- Hk1, <- Hk2 in Hat. specialize (Hat Ha).
    split; [split; [|done]|split]; cbn [fst snd].
    + destruct Hat as [HA HN HR HH]. by split.
    + change (tx_prop o = tx). congruence.
    + change (Forall has_info (extra <$> clients_of (with_slot f (num_client o) o <| num_client := S (num_client o) |>
        <| header_name_count := S (header_name_count o) |>))).
      rewrite (clients_of_count f o c Hs), fmap_app. apply Forall_app. split; [done|].
      apply Forall_singleton. exists d. unfold f, wlan_new, set_power_save, init_flags, hdr_client, hdr_step. simpl.
      by destruct (has_tx IPA_IP_v4 _), (has_tx IPA_IP_v6 _).
  - destruct Hok as [[l Ha] (f & Hf & ->)]. wsteps. unfold oi. rewrite with_slot_with.
    apply (wlan_inv_free o k k3 e (fun c => f (set_hdr_info (Live d) c)) c Hinv Hs Hf). exists l. by rewrite <- Hk1, <- Hk2.
Qed.

Lemma wlan_ipaddr_kept data : kept wlan_inv (handle_wlan_client_ipaddr fds data).
Proof. apply (ipaddr_kept fds _ _ _ wlan_frame_same). Qed.

Lemma wlan_route_kept m ip : kept wlan_inv (handle_wlan_client_route_rule fds m ip).
Proof.
  intros s Hs. unfold handle_wlan_client_route_rule. wsteps. destruct (tx_prop (fst s)) as [txs|]; [|by wsteps].
  destruct (get_client_index m (fst s)) as [i|] eqn:Hidx; [|by wsteps].
  apply get_client_index_Some in Hidx as (Hi & c & Hc & _). wstep. apply (wp_get_client _ c); [done|].
  destruct (power_save_set _); [by wsteps|]. destruct (needs_routes ip c) eqn:Hn; [|by wsteps].
  by apply (routes_kept fds _ _ wlan_frame wlan_frame_same ip s i c).
Qed.

(** The power-save state is the interface's own business. *)
Lemma power_save_inv b o ke i c :
  wlan_inv (o, ke) -> slot o i = Some c -> (i < num_client o)%nat -> wlan_inv (with_slot (set_power_save b) i o, ke).
Proof.
  intros [[Ht He] [Htx Hx]] Hs Hi. pose proof (table_slot _ _ _ _ _ _ Ht Hs) as Hwf. cbn [fst snd] in *.
  split; [split; [|done]|split; [done|]]; cbn [fst snd].
  - apply (table_inv_same _ _ _ _ _ _ c Ht Hs Hi); [destruct Hwf; by split|done|done].
  - rewrite clients_of_with by done. rewrite (alter_as_insert _ _ _ c) by by apply clients_of_slot.
    rewrite list_fmap_insert. apply Forall_insert; [done|].
    pose proof (clients_of_slot _ _ _ Hs Hi) as Hcl.
    apply (Forall_lookup_1 _ _ i (extra c)) in Hx as [d Hd]; [by exists d|]. by rewrite list_lookup_fmap, Hcl.
Qed.

Lemma pwrsave_ok m i o k e c :
  wlan_inv (o, (k, e)) -> get_client_index m o = Some i -> slot o i = Some c -> power_save_set (extra c) = false ->
  wp (handle_wlan_client_pwrsave fds m) (fun r s' => r = IPACM_SUCCESS /\ wlan_inv s' /\
    (s').1 = with_slot (fun c => set_power_save true (no_routes IPA_IP_v6 (no_routes IPA_IP_v4 c))) i o /\
    (if ipv4_set c then nat_update_pwr_save (v4_addr c) e else Some e) = Some (s').2.2 /\
    dels_rts (client_rules None (default [] tx) c).*1 (hw_of k) (hw_of (s').2.1)) (o, (k, e)).
Proof.
  intros Hinv Hidx Hc Hps. pose proof (get_client_index_Some _ _ _ Hidx) as (Hi & _).
  unfold handle_wlan_client_pwrsave. wsteps. cbn [fst]. rewrite Hidx. wstep. apply (wp_get_client _ c); [done|].
  rewrite Hps. wstep.
  assert (exists e1, (if ipv4_set c then nat_update_pwr_save (v4_addr c) e else Some e) = Some e1 /\ env_ok e1)
    as (e1 & He1 & Hok1).
  { destruct Hinv as [[_ He] _]. destruct (ipv4_set c); [by apply env_update_pwr|eauto]. }
  assert (wp (if ipv4_set c then call (nat_update_pwr_save (v4_addr c)) else ret tt)
    (fun _ s => s = (o, (k, e1))) (o, (k, e))) as Hcall.
  { destruct (ipv4_set c); [by eapply wp_call|]. apply wp_ret. congruence. }
  eapply wp_mono; [exact Hcall|]. intros _ s ->. clear Hcall.
  assert (wlan_inv (o, (k, e1))) as Hinv1 by (destruct Hinv as [[? ?] ?]; by split).
  wstep. eapply wp_mono; [by apply (delete_rt_kept fds _ _ wlan_frame wlan_frame_same IPA_IP_v4 _ i c Hinv1)|].
  intros r4 [o2 [k2 e2]] (_ & Hinv2 & Ho2 & He2 & Hd4). cbn [fst snd] in *. subst o2 e2.
  pose proof (slot_with (no_routes IPA_IP_v4) i o) as Hs2. rewrite Hc in Hs2. cbn [fmap option_fmap option_map] in Hs2.
  wstep. eapply wp_mono; [by apply (delete_rt_kept fds _ _ wlan_frame wlan_frame_same IPA_IP_v6 _ i (no_routes IPA_IP_v4 c) Hinv2)|].
  intros r6 [o3 [k3 e3]] (_ & Hinv3 & Ho3 & He3 & Hd6). cbn [fst snd] in *. subst e3.
  pose proof (slot_with (no_routes IPA_IP_v6) i (with_slot (no_routes IPA_IP_v4) i o)) as Hs3.
  rewrite Hs2 in Hs3. cbn [fmap option_fmap option_map] in Hs3. rewrite <- Ho3 in Hs3.
  wstep. eapply wp_set_client; [exact Hs3|]. wsteps. cbn [fst snd].
  split; [done|]. split; [apply (power_save_inv _ _ _ _ _ Hinv3 Hs3); by rewrite Ho3|].
  split; [by rewrite Ho3, !with_slot_with|]. split; [done|].
  destruct Hinv as [_ [Htx _]]. cbn [fst] in Htx. rewrite Htx in Hd4.
  change (tx_prop (with_slot (no_routes IPA_IP_v4) i o)) with (tx_prop o) in Hd6. rewrite Htx in Hd6.
  unfold client_rules. rewrite fmap_app. eapply dels_rts_app; [exact Hd4|exact Hd6].
Qed.

Lemma pwrsave_kept m : kept wlan_inv (handle_wlan_client_pwrsave fds m).
Proof.
  intros [o [k e]] Hinv. destruct (get_client_index m o) as [i|] eqn:Hidx.
  - pose proof (get_client_index_Some _ _ _ Hidx) as (_ & c & Hc & _).
    destruct (power_save_set (extra c)) eqn:Hps.
    + unfold handle_wlan_client_pwrsave. wsteps. cbn [fst]. rewrite Hidx. wstep. apply (wp_get_client _ c); [done|].
      rewrite Hps. by wsteps.
    + eapply wp_mono; [by apply (pwrsave_ok m i o k e c)|]. by intros r s' (_ & ? & _).
  - unfold handle_wlan_client_pwrsave. wsteps. cbn [fst]. rewrite Hidx. by wsteps.
Qed.

Lemma carried_info cs cs' :
  Forall2 (carried move_extra) cs cs' -> Forall has_info (extra <$> cs) -> Forall has_info (extra <$> cs').
Proof.
  induction 1 as [|c c' cs cs' [_ Hx] _ IH]; intros Hi; [constructor|]. rewrite fmap_cons in *.
  apply Forall_cons in Hi as [[d Hd] Hi]. constructor; [|by apply IH].
  destruct Hx as [->|[x ->]]; by exists d.
Qed.

Lemma wlan_down_ok m i o k e c :
  wlan_inv (o, (k, e)) -> get_client_index m o = Some i -> slot o i = Some c ->
  wp (handle_wlan_client_down_evt fds m) (fun r s' => r = IPACM_SUCCESS /\ wlan_inv s' /\
    Forall2 (carried move_extra) (delete i (clients_of o)) (clients_of (s').1) /\
    own (s').1 = own o - 1 /\
    (if ipv4_set c then ct_neigh_del (v4_addr c) e else Some e) = Some (s').2.2 /\
    dels_all (client_rules None (default [] tx) c).*1 (client_hdrs c) (hw_of k) (hw_of (s').2.1)) (o, (k, e)).
Proof.
  intros Hs Hidx Hc. unfold handle_wlan_client_down_evt. wsteps. cbn [fst]. rewrite Hidx.
  apply get_client_index_Some in Hidx as (Hi & _). pose proof Hs as [Ht [Htx Hx]]. cbn [fst] in *.
  pose proof (clients_of_slot _ _ _ Hc Hi) as Hcl.
  assert (is_Some (free_hdr_info (extra c))) as Hfree.
  { apply (Forall_lookup_1 _ _ i (extra c)) in Hx as [d Hd]; [|by rewrite list_lookup_fmap, Hcl].
    unfold free_hdr_info. rewrite Hd. by eexists. }
  apply (forget_client_ok fds _ IPA_MAX_NUM_WIFI_CLIENTS free_hdr_info move_extra _ _ o k e i c Ht Hc Hi Hfree).
  intros o' k' e' Ht' Hn' Hsame Hfor He1 Hd. rewrite Htx in Hd. wsteps. cbn [fst snd].
  split; [done|]. split; [|split; [done|split; [by rewrite Hsame|by split]]].
  split; [|split]; cbn [fst snd].
  - destruct Ht' as [[HA HN HR HH] He']. split; [|done]. by split.
  - change (tx_prop o' = tx). by rewrite Hsame.
  - change (Forall has_info (extra <$> clients_of o')). eapply carried_info; [exact Hfor|].
    rewrite list_fmap_delete. by apply Forall_delete.
Qed.

Lemma wlan_down_kept m : kept wlan_inv (handle_wlan_client_down_evt fds m).
Proof.
  intros [o [k e]] Hs. destruct (get_client_index m o) as [i|] eqn:Hidx.
  - pose proof (get_client_index_Some _ _ _ Hidx) as (_ & c & Hc & _).
    eapply wp_mono; [by apply (wlan_down_ok m i o k e c)|]. by intros r s' (_ & ? & _).
  - unfold handle_wlan_client_down_evt. wsteps. cbn [fst]. rewrite Hidx. by wsteps.
Qed.

(** Messages change neither the table nor the hardware. *)
Lemma msg_post_kept P m ev ip :
  kept (iface_inv None IPA_MAX_NUM_WIFI_CLIENTS P) (handle_lan2lan_msg_post (K := K) (E := E) this m ev ip).
Proof.
  intros s Hs. unfold handle_lan2lan_msg_post. wsteps. destruct (get_client_index m (fst s)) as [i|] eqn:Hidx; [|by wsteps].
  apply get_client_index_Some in Hidx as (_ & c & Hc & _). pose proof (table_slot _ _ _ _ _ _ (proj1 (proj1 Hs)) Hc) as Hwf.
  wstep. apply (wp_get_client _ c); [done|]. generalize (ip_type (fst s)). intros t. clear Hc. revert s Hs Hwf.
  intros s Hs Hwf. assert (length (v6_addr c) = IPV6_NUM_ADDR /\ ipv6_set c <= IPV6_NUM_ADDR)%nat as [Hl Hle]
    by (split; apply Hwf). clear Hwf. revert s Hs. apply kept_seq.
  - destruct (_ && _); [|apply kept_ret]. destruct (negb _); [apply kept_ret|]. apply post_one_kept.
  - intros [r|]; [apply kept_ret|]. apply kept_seq; [|intros; apply kept_ret].
    destruct (_ && _); [|apply kept_ret]. destruct (negb _); [apply kept_ret|].
    apply kept_for. intros j Hj%elem_of_seq. destruct (lookup_lt_is_Some_2 (v6_addr c) j) as [a Ha]; [lia|].
    intros s Hs. wstep. apply (wp_deref _ a); [done|]. by apply post_one_kept.
Qed.

Lemma reset_one_kept ip n i :
  ip <> IPA_IP_MAX -> (i < n)%nat ->
  kept (fun s => wlan_inv s /\ num_client (fst s) = n) (reset_wlan_one fds this ip i).
Proof.
  intros Hip Hi s [Hs Hn]. unfold reset_wlan_one.
  destruct (table_slot_lt _ _ _ _ i (proj1 (proj1 Hs))) as [c Hc]; [pose proof (ti_num _ _ _ _ (proj1 (proj1 Hs))); lia|].
  wstep. eapply wp_mono; [apply (delete_rt_kept fds _ _ wlan_frame wlan_frame_same ip s i c Hs Hc); lia|].
  intros r s1 (-> & Hs1 & Ho1 & _ & _). cbn [negb Z.eqb IPACM_SUCCESS].
  assert (slot (fst s1) i = Some (no_routes ip c)) as Hc1 by (by rewrite Ho1, slot_with, Hc).
  assert (num_client (fst s1) = n) as Hn1 by (by rewrite Ho1).
  wstep. apply (wp_get_client _ _ _ _ Hc1). wstep.
  eapply wp_mono; [apply (msg_post_kept (fun o => wlan_frame o /\ o = fst s1)); destruct Hs1; by split|].
  intros r s2 (Ht2 & Hf2 & Ho2). destruct (_ =? _); cbn [negb]; [|wsteps; split; [by split|by rewrite Ho2]].
  wstep. apply (wp_set_client _ (no_routes ip c)); [by rewrite Ho2|]. wsteps.
  split; [|cbn [fst]; by rewrite Ho2].
  destruct s2 as [o2 [k2 e2]]. destruct Ht2 as [Ht2 He2]. cbn [fst snd] in *. subst o2.
  split; [split; [|done]|]; cbn [fst snd].
  - apply (table_inv_same _ _ _ _ _ _ (no_routes ip c) Ht2 Hc1); [lia| | |]; destruct ip; try done.
    + destruct (table_slot _ _ _ _ _ _ Ht2 Hc1); by split.
    + destruct (table_slot _ _ _ _ _ _ Ht2 Hc1); split; simpl; try done. lia.
  - eapply wlan_frame_same; [|exact Hf2]. apply same_iface_slot. intros c'. unfold reset_addr. by destruct (bool_decide _).
Qed.

Lemma reset_wlan_kept ip : ip <> IPA_IP_MAX -> kept wlan_inv (handle_wlan_client_reset_rt fds this ip).
Proof.
  intros Hip s Hs. unfold handle_wlan_client_reset_rt. wsteps.
  eapply wp_mono; [apply (kept_for (fun s' => wlan_inv s' /\ num_client (fst s') = num_client (fst s))); [|done]|].
  - intros i Hi%elem_of_seq. apply reset_one_kept; [done|lia].
  - intros r s' [Hs' _]. by wsteps.
Qed.

Lemma post_both_kept m ev : kept wlan_inv (post_both this m ev).
Proof. do 2 (apply kept_seq; [apply msg_post_kept|intros ?]). apply kept_ret. Qed.

Lemma wlan_neigh_add_kept d : kept wlan_inv (wlan_neigh_add fds this d).
Proof.
  apply kept_seq; [apply wlan_ipaddr_kept|]. intros r. destruct (r =? IPACM_FAILURE); [apply kept_ret|].
  apply kept_seq; [by apply client_active_kept|]. intros _. apply kept_seq; [apply wlan_route_kept|]. intros _.
  destruct (bool_decide _); [|apply kept_ret]. apply kept_call, env_neigh_add.
Qed.

Lemma get_client_kept i : (i < IPA_MAX_NUM_WIFI_CLIENTS)%nat -> kept wlan_inv (get_client (K := K) (E := E) i).
Proof.
  intros Hi s Hs. destruct (table_slot_lt _ _ _ _ i (proj1 (proj1 Hs)) Hi) as [c Hc]. by apply (wp_get_client _ c).
Qed.

Lemma recover_kept m : kept wlan_inv (wlan_client_recover fds this m).
Proof.
  apply kept_seq; [apply post_both_kept|]. intros _ s Hs. wsteps.
  destruct (get_client_index m (fst s)) as [i|] eqn:Hidx; [|by wsteps].
  apply get_client_index_Some in Hidx as (Hi & c & Hc & _).
  assert (i < IPA_MAX_NUM_WIFI_CLIENTS)%nat as Hcap by (pose proof (ti_num _ _ _ _ (proj1 (proj1 Hs))); lia).
  wstep. apply (wp_get_client _ c); [done|]. destruct (power_save_set _); cbn [negb]; [|by wsteps].
  wstep. apply (wp_set_client _ c); [done|]. destruct s as [o ke]. cbn [fst snd] in *.
  pose proof (power_save_inv false o ke i c Hs Hc Hi) as Hs'. revert Hs'. generalize (with_slot (set_power_save false) i o, ke).
  clear Hs Hc Hi. intros s Hs. revert s Hs. apply kept_seq.
  - destruct (ipv4_set c); [|apply kept_ret]. apply kept_seq; [apply wlan_route_kept|]. intros _.
    apply kept_seq; [by apply get_client_kept|]. intros c'. apply kept_call, env_reset_pwr.
  - intros _. apply kept_seq; [by apply get_client_kept|]. intros c'. destruct (negb _); [|apply kept_ret].
    apply kept_seq; [apply wlan_route_kept|]. intros _. apply kept_ret.
Qed.

Definition wlan_op_ok (op : wlan_op) : Prop :=
  match op with
  | WlanClientAdd d => Forall attrib_ok (attribs d)
  | WlanResetRt ip => ip <> IPA_IP_MAX
  | _ => True
  end.

Lemma run_wlan_kept ops : Forall wlan_op_ok ops -> kept wlan_inv (run_wlan fds this ops).
Proof.
  induction 1 as [|op ops Hop _ IH]; [apply kept_ret|]. apply kept_seq; [|by intros].
  destruct op; simpl in *; [| | | |by apply wlan_neigh_add_kept|].
  - apply kept_seq; [by apply init_ex_kept|intros; apply kept_ret].
  - apply kept_seq; [apply post_both_kept|intros _]. apply kept_seq; [apply wlan_down_kept|intros; apply kept_ret].
  - apply kept_seq; [apply post_both_kept|intros _]. apply kept_seq; [apply pwrsave_kept|intros; apply kept_ret].
  - apply recover_kept.
  - apply kept_seq; [by apply reset_wlan_kept|intros; apply kept_ret].
Qed.

(** ** Properties *)

(** C32. Whatever wireless clients are announced, get addresses, save power, come
    back, go or lose the WAN, in whatever order, and whichever additions the kernel
    refuses: no method has undefined behaviour, the hardware holds every routing
    rule and header that a record names, with the contents of the record and each
    named once, and every record in use has the copy of its event, which is freed
    once.  The attributes of an announcement lie within the header ([attrib_ok]), which
    the code does not check; the kernel is that of the Ethernet interface
    ([IpaReliable]); the state to begin with has the invariant, as that of a new
    interface has; and again nothing is said of what a failed addition has left. *)
Theorem wlan_clients_mirrored ops s :
  wlan_inv s -> Forall wlan_op_ok ops -> exists s', run_wlan fds this ops s = Some (tt, s') /\ wlan_inv s'.
Proof.
  intros Hs Hops. destruct (wp_run _ _ _ (run_wlan_kept ops Hops s Hs)) as ([] & s' & Hrun & Hs'). eauto.
Qed.

(** A wireless client that goes down takes its routing rules and headers out of
    the hardware, its record out of the table and itself out of the count of all
    clients; the other clients keep all they have, save the power-saving state,
    which stays with the slot. *)
Theorem wlan_down_forgets m i o k e c :
  wlan_inv (o, (k, e)) -> get_client_index m o = Some i -> slot o i = Some c ->
  exists o' k' e', handle_wlan_client_down_evt fds m (o, (k, e)) = Some (IPACM_SUCCESS, (o', (k', e'))) /\
    wlan_inv (o', (k', e')) /\
    client_view None (default [] tx) <$> clients_of o' = client_view None (default [] tx) <$> delete i (clients_of o) /\
    (p_hdr_info ∘ extra <$> clients_of o') = (p_hdr_info ∘ extra <$> delete i (clients_of o)) /\
    own o' = own o - 1 /\
    dels_all (client_rules None (default [] tx) c).*1 (client_hdrs c) (hw_of k) (hw_of k') /\
    (if ipv4_set c then ct_neigh_del (v4_addr c) e else Some e) = Some e'.
Proof.
  intros Hs Hidx Hc.
  destruct (wp_run _ _ _ (wlan_down_ok m i o k e c Hs Hidx Hc)) as (r & [o' [k' e']] & Hrun & -> & Hs' & Hf & Ho & He & Hd).
  exists o', k', e'. split; [done|]. split; [done|]. cbn [fst] in Hf.
  pose proof Hs as [[Ht _] [Htx _]]. cbn [fst] in Ht, Htx. pose proof (table_clients_wf _ _ _ _ Ht) as Hwf. rewrite Htx in Hwf.
  split; [eapply same_clients_view; [by eapply carried_same|by apply Forall_delete]|]. split; [|done].
  clear - Hf. induction Hf as [|c c' cs cs' [_ Hx] _ IH]; [done|]. rewrite !fmap_cons, IH. f_equal.
  simpl. by destruct Hx as [->|[x ->]].
Qed.

(** A client that starts to save power loses exactly its routing rules, and the
    NAT cache is told; while it saves power, no routing rule is added for it,
    although the call reports success. *)
Theorem wlan_power_save m i o k e c :
  wlan_inv (o, (k, e)) -> get_client_index m o = Some i -> slot o i = Some c -> power_save_set (extra c) = false ->
  exists o' k' e', handle_wlan_client_pwrsave fds m (o, (k, e)) = Some (IPACM_SUCCESS, (o', (k', e'))) /\
    wlan_inv (o', (k', e')) /\
    o' = with_slot (fun c => set_power_save true (no_routes IPA_IP_v6 (no_routes IPA_IP_v4 c))) i o /\
    (if ipv4_set c then nat_update_pwr_save (v4_addr c) e else Some e) = Some e' /\
    dels_rts (client_rules None (default [] tx) c).*1 (hw_of k) (hw_of k') /\
    forall ip, handle_wlan_client_route_rule fds m ip (o', (k', e')) = Some (IPACM_SUCCESS, (o', (k', e'))).
Proof.
  intros Hs Hidx Hc Hps.
  destruct (wp_run _ _ _ (pwrsave_ok m i o k e c Hs Hidx Hc Hps)) as (r & [o' [k' e']] & Hrun & -> & Hs' & Ho & He & Hd).
  cbn [fst snd] in *. exists o', k', e'. split; [done|]. split; [done|]. split; [done|]. split; [done|]. split; [done|].
  intros ip. pose proof (get_client_index_Some _ _ _ Hidx) as (Hi & _).
  set (f := fun c => set_power_save true (no_routes IPA_IP_v6 (no_routes IPA_IP_v4 c))) in *.
  assert (slot o' i = Some (f c)) as Hc' by (by rewrite Ho, slot_with, Hc).
  assert (get_client_index m o' = Some i) as Hidx'.
  { unfold get_client_index in *. rewrite Ho, clients_of_with by done. by rewrite find_index_alter. }
  unfold handle_wlan_client_route_rule, get_client, bind, get_obj, deref, ret. cbn [fst snd].
  destruct (tx_prop o') as [txs|]; [|done]. rewrite Hidx'. cbn [fst]. unfold slot in Hc'. rewrite Hc'. done.
Qed.
End wlan.

(** ** Examples *)

#[local] Instance ex_kernel : IpaKernel SimpleIpa := simple_kernel (fun n => (n =? 10)%nat).
#[local] Instance ex_kernel_ok : IpaKernelOk SimpleIpa := simple_kernel_ok _.
#[local] Instance ex_reliable : IpaReliable SimpleIpa simple_fds := simple_reliable _.

Definition example_wlan : wlan_iface :=
  new_iface 2 IPA_MAX_NUM_WIFI_CLIENTS IPA_IP_MAX example_tx {| p_hdr_info := Null; power_save_set := false |} 0.

Definition example_wlan_client (n : Z) : ipacm_event_data_wlan_ex :=
  {| wx_if_index := 2; attribs := [WLAN_HDR_ATTRIB_MAC_ADDR 0 (example_mac n); WLAN_HDR_ATTRIB_STA_ID 20 [n]] |}.

Lemma example_wlan_inv : wlan_inv (Some example_tx) (example_wlan, (si_init, [] : list lan_call)).
Proof. split; [|split; [done|constructor]]. split; [|done]. apply new_iface_inv. Qed.

Definition example_wlan_ops : list wlan_op :=
  [WlanClientAdd (example_wlan_client 1); WlanClientAdd (example_wlan_client 2);
   WlanNeighAdd (example_addr4 (example_mac 1) 100); WlanNeighAdd (example_addr6 (example_mac 1) (1, 2, 3, 4));
   WlanNeighAdd (example_addr4 (example_mac 2) 200)].

Lemma example_wlan_ops_ok : Forall wlan_op_ok example_wlan_ops.
Proof. repeat constructor; simpl; lia. Qed.

Definition wlan_end (ops : list wlan_op) : wlan_iface * (SimpleIpa * list lan_call) :=
  match run_wlan simple_fds 9 ops (example_wlan, (si_init, [])) with
  | Some (_, s) => s
  | None => (example_wlan, (si_init, []))
  end.

Definition wlan_up_o : wlan_iface := fst (wlan_end example_wlan_ops).
Definition wlan_up_k : SimpleIpa := fst (snd (wlan_end example_wlan_ops)).
Definition wlan_up_e : list lan_call := snd (snd (wlan_end example_wlan_ops)).
Definition wlan_up_client : wlan_client :=
  default (client_zero 0 {| p_hdr_info := Null; power_save_set := false |}) (clients_of wlan_up_o !! 0%nat).

Lemma wlan_up_inv : wlan_inv (Some example_tx) (wlan_up_o, (wlan_up_k, wlan_up_e)).
Proof.
  destruct (wp_run _ _ _ (run_wlan_kept simple_fds 9 (Some example_tx) example_wlan_ops example_wlan_ops_ok
    _ example_wlan_inv)) as ([] & s' & Hrun & Hs').
  assert (run_wlan simple_fds 9 example_wlan_ops (example_wlan, (si_init, [])) =
    Some (tt, (wlan_up_o, (wlan_up_k, wlan_up_e)))) as Hend by (vm_compute; reflexivity).
  rewrite Hend in Hrun. by injection Hrun as ->.
Qed.

Lemma wlan_clients_mirrored_witness :
  exists s', run_wlan simple_fds 9 example_wlan_ops (example_wlan, (si_init, [])) = Some (tt, s') /\
    wlan_inv (Some example_tx) s'.
Proof.
  exact (wlan_clients_mirrored simple_fds 9 (Some example_tx) example_wlan_ops _ example_wlan_inv example_wlan_ops_ok).
Defined.

Lemma wlan_down_forgets_witness :
  exists o' k' e',
    handle_wlan_client_down_evt simple_fds (example_mac 1) (wlan_up_o, (wlan_up_k, wlan_up_e)) =
      Some (IPACM_SUCCESS, (o', (k', e'))) /\
    client_view None example_tx <$> clients_of o' = client_view None example_tx <$> delete 0%nat (clients_of wlan_up_o).
Proof.
  destruct (wlan_down_forgets simple_fds (Some example_tx) (example_mac 1) 0 wlan_up_o wlan_up_k wlan_up_e wlan_up_client
    wlan_up_inv ltac:(vm_compute; reflexivity) ltac:(vm_compute; reflexivity)) as (o' & k' & e' & Hrun & _ & Hv & _).
  exists o', k', e'. split; [exact Hrun|exact Hv].
Defined.

Lemma wlan_power_save_witness :
  exists o' k' e',
    handle_wlan_client_pwrsave simple_fds (example_mac 1) (wlan_up_o, (wlan_up_k, wlan_up_e)) =
      Some (IPACM_SUCCESS, (o', (k', e'))) /\
    handle_wlan_client_route_rule simple_fds (example_mac 1) IPA_IP_v4 (o', (k', e')) = Some (IPACM_SUCCESS, (o', (k', e'))).
Proof.
  destruct (wlan_power_save simple_fds (Some example_tx) (example_mac 1) 0 wlan_up_o wlan_up_k wlan_up_e wlan_up_client
    wlan_up_inv ltac:(vm_compute; reflexivity) ltac:(vm_compute; reflexivity) ltac:(vm_compute; reflexivity))
    as (o' & k' & e' & Hrun & _ & _ & _ & _ & Hno).
  exists o', k', e'. split; [exact Hrun|apply Hno].
Defined.

(** The power-saving state is not moved with a record: when the client in front
    of it saved power and leaves, a client that never did inherits the state, and its
    address gets no routing rule. *)
Theorem wlan_power_save_inherited :
  let '(o, (k, e)) := wlan_end [WlanClientAdd (example_wlan_client 1); WlanClientAdd (example_wlan_client 2);
    WlanPowerSave (example_mac 1); WlanClientDel (example_mac 1); WlanNeighAdd (example_addr4 (example_mac 2) 200)] in
  (fun c => (mac c, ipv4_set c, route_rule_set_v4 c, power_save_set (extra c))) <$> clients_of o =
    [(example_mac 2, true, false, true)] /\ hw_rts (hw_of k) = ∅.
Proof. vm_compute. split; reflexivity. Qed.

(** A client that is announced twice has two records, of which its departure
    takes one: the other stays, with its headers in the hardware. *)
Theorem wlan_client_twice :
  let '(o, (k, e)) := wlan_end [WlanClientAdd (example_wlan_client 1); WlanClientAdd (example_wlan_client 1);
    WlanClientDel (example_mac 1)] in
  mac <$> clients_of o = [example_mac 1] /\ size (hw_hdrs (hw_of k)) = 2%nat.
Proof. vm_compute. split; reflexivity. Qed.
