(* ===== verification/LanRules.v ===== *)
(** * The rules of the LAN-to-LAN offload ([IPACM_Lan.cpp], [IPACM_Wlan.cpp])

    An interface holds a pool of filter rules for each IP type, installed
    beforehand as dummies that match nothing: a link takes a rule by changing it and
    gives it back by changing it to a dummy again.  Headers are added and deleted,
    and the pool remembers their handles to number them.  Routing rules are added
    and deleted, one for each tx property.  These are the methods behind [LanIface]
    of LanToLan.v. *)
From S2P Require Import Prelude Defs Heap Config LanToLan IpaDrv StateM ClientTable WlanClients.
From stdpp Require Import base list gmap strings pretty.
From Stdlib Require Import ZArith Lia.

Open Scope Z_scope.
Open Scope method_scope.

Definition MAX_NUM_PROP : Z := 8.
Definition V4_LAN_TO_LAN_ROUTE_TABLE_NAME : string := "LANTOLANRTBLv4".
Definition V6_LAN_TO_LAN_ROUTE_TABLE_NAME : string := "LANTOLANRTBLv6".
Definition IPA_LAN_TO_LAN_USB_HDR_NAME_V4 : string := "Lan2Lan_USB_v4".
Definition IPA_LAN_TO_LAN_USB_HDR_NAME_V6 : string := "Lan2Lan_USB_v6".
Definition IPA_LAN_TO_LAN_WLAN_HDR_NAME_V4 : string := "Lan2Lan_Wlan_v4".
Definition IPA_LAN_TO_LAN_WLAN_HDR_NAME_V6 : string := "Lan2Lan_Wlan_v6".

(** [lan2lan_flt_rule_hdl], [lan2lan_hdr_hdl] *)
Record hdl_slot := { slot_hdl : Z; slot_valid : bool }.

(** The fields of [IPACM_Lan] for one IP type: [lan2lan_flt_rule_hdl_*],
    [num_lan2lan_flt_rule_*], [lan2lan_hdr_hdl_*] and [flt_rule_count_*]. *)
Record rule_pool := {
  lan2lan_flt_rule_hdl : list hdl_slot;
  num_lan2lan_flt_rule : Z;
  lan2lan_hdr_hdl : list hdl_slot;
  flt_rule_count : Z
}.

(** The object, as far as these methods use it; [None] is a null pointer. *)
Record lan_rules := {
  lr_tx_prop : option (list ipa_ioc_tx_intf_prop);
  lr_rx_prop : option (list ipa_ioc_rx_intf_prop);
  pool_v4 : rule_pool;
  pool_v6 : rule_pool
}.

#[export] Instance hdl_slot_eta : Settable hdl_slot := fun r => Build_hdl_slot (slot_hdl r) (slot_valid r).
#[export] Instance rule_pool_eta : Settable rule_pool :=
  fun r => Build_rule_pool (lan2lan_flt_rule_hdl r) (num_lan2lan_flt_rule r) (lan2lan_hdr_hdl r) (flt_rule_count r).
#[export] Instance lan_rules_eta : Settable lan_rules :=
  fun r => Build_lan_rules (lr_tx_prop r) (lr_rx_prop r) (pool_v4 r) (pool_v6 r).

(** The constructor: everything zero. *)
Definition pool_zero : rule_pool :=
  {| lan2lan_flt_rule_hdl := replicate (Z.to_nat MAX_OFFLOAD_PAIR) {| slot_hdl := 0; slot_valid := false |};
     num_lan2lan_flt_rule := 0;
     lan2lan_hdr_hdl := replicate (Z.to_nat MAX_OFFLOAD_PAIR) {| slot_hdl := 0; slot_valid := false |};
     flt_rule_count := 0 |}.
Definition lan_rules_ctor (tx : option (list ipa_ioc_tx_intf_prop)) (rx : option (list ipa_ioc_rx_intf_prop)) :
    lan_rules :=
  {| lr_tx_prop := tx; lr_rx_prop := rx; pool_v4 := pool_zero; pool_v6 := pool_zero |}.

(** The fields of an IP type, and the name of its routing table. *)
Definition pool (ip : ipa_ip_type) (o : lan_rules) : rule_pool :=
  match ip with IPA_IP_v4 => pool_v4 o | _ => pool_v6 o end.
Definition with_pool (ip : ipa_ip_type) (f : rule_pool -> rule_pool) (o : lan_rules) : lan_rules :=
  match ip with IPA_IP_v4 => o <| pool_v4 := f (pool_v4 o) |> | _ => o <| pool_v6 := f (pool_v6 o) |> end.
Definition lan2lan_table (ip : ipa_ip_type) : string :=
  match ip with IPA_IP_v4 => V4_LAN_TO_LAN_ROUTE_TABLE_NAME | _ => V6_LAN_TO_LAN_ROUTE_TABLE_NAME end.

Definition set_slot_valid (b : bool) (s : hdl_slot) : hdl_slot := s <| slot_valid := b |>.
Definition set_slot_hdl (h : Z) (s : hdl_slot) : hdl_slot := s <| slot_hdl := h |>.

Section rules.
Context {K E : Type} `{IpaKernel K} (fds : ipa_fds).

Abbreviation method := (M (lan_rules * (K * E))).

(** ** Filter rules *)

(** Source and destination of a link in the attributes of a rule. *)
Definition pair_attrib (iptype : ipa_ip_type) (src_v4 dst_v4 : Z) (src_v6 dst_v6 : v6addr) (a : ipa_rule_attrib) :
    ipa_rule_attrib :=
  let ones6 := (ones32, ones32, ones32, ones32) in
  let a := a <| attrib_mask := Z.lor (Z.lor (attrib_mask a) IPA_FLT_SRC_ADDR) IPA_FLT_DST_ADDR |> in
  match iptype with
  | IPA_IP_v4 => a <| u_v4 := Build_ipa_addr_attrib src_v4 ones32 dst_v4 ones32 |>
  | _ => a <| u_v6 := Build_ipa_addr_attrib src_v6 ones6 dst_v6 ones6 |>
  end.

(** The attributes of a dummy rule: the pair of the addresses that are all ones. *)
Definition dummy_attrib (iptype : ipa_ip_type) (a : ipa_rule_attrib) : ipa_rule_attrib :=
  let ones6 := (ones32, ones32, ones32, ones32) in
  pair_attrib iptype ones32 ones32 ones6 ones6 (a <| attrib_mask := 0 |>).
Definition dummy_rule (iptype : ipa_ip_type) (a : ipa_rule_attrib) : ipa_flt_rule :=
  {| flt_action := IPA_PASS_TO_EXCEPTION; flt_rt_tbl_hdl := 0; flt_attrib := dummy_attrib iptype a |}.
Definition pair_rule (iptype : ipa_ip_type) (tbl src_v4 dst_v4 : Z) (src_v6 dst_v6 : v6addr) (a : ipa_rule_attrib) :
    ipa_flt_rule :=
  {| flt_action := IPA_PASS_TO_ROUTING; flt_rt_tbl_hdl := tbl;
     flt_attrib := pair_attrib iptype src_v4 dst_v4 src_v6 dst_v6 a |}.

Definition free_slot (s : hdl_slot) : bool := negb (slot_valid s).
Definition has_hdl (h : Z) (s : hdl_slot) : bool := slot_hdl s =? h.

(** [IPACM_Lan::add_lan2lan_flt_rule]: the handle it stores, [None] for
    [IPACM_FAILURE]. *)
Definition add_lan2lan_flt_rule (iptype : ipa_ip_type) (src_v4 dst_v4 : Z) (src_v6 dst_v6 : v6addr) :
    method (option Z) :=
  let* o := get_obj in
  match lr_rx_prop o with
  | None => ret None
  | Some rx =>
      let* ok := hw malloc in
      if negb ok then ret None
      else if bool_decide (iptype = IPA_IP_MAX) then ret None
      else
        let p := pool iptype o in
        if MAX_OFFLOAD_PAIR <=? num_lan2lan_flt_rule p then ret None
        else
          let* r := hw (GetRoutingTable fds (lan2lan_table iptype)) in
          let '(ok, tbl) := r in
          if negb ok then ret None
          else
            match find_index free_slot (lan2lan_flt_rule_hdl p) with
            | None => ret None
            | Some i =>
                let* s := deref (lan2lan_flt_rule_hdl p !! i) in
                let* rx0 := deref (rx !! 0%nat) in
                let* ok := hw (ModifyFilteringRule fds iptype (slot_hdl s)
                                 (pair_rule iptype tbl src_v4 dst_v4 src_v6 dst_v6 (rx_attrib rx0))) in
                if negb ok then ret None
                else
                  upd_obj (with_pool iptype (fun p =>
                    p <| lan2lan_flt_rule_hdl := alter (set_slot_valid true) i (lan2lan_flt_rule_hdl p) |>
                      <| num_lan2lan_flt_rule := uinc 8 (num_lan2lan_flt_rule p) |>)) >>
                  ret (Some (slot_hdl s))
            end
  end.

(** [IPACM_Lan::reset_to_dummy_flt_rule] *)
Definition reset_to_dummy_flt_rule (iptype : ipa_ip_type) (rule_hdl : Z) : method Z :=
  let* ok := hw malloc in
  if negb ok then ret IPACM_FAILURE
  else if bool_decide (iptype = IPA_IP_MAX) then ret IPACM_FAILURE
  else
    let* ok := hw (ModifyFilteringRule fds iptype rule_hdl (dummy_rule iptype attrib_zero)) in
    ret (if (ok : bool) then IPACM_SUCCESS else IPACM_FAILURE).

(** [IPACM_Lan::del_lan2lan_flt_rule]: the search does not look at [valid]. *)
Definition del_lan2lan_flt_rule (iptype : ipa_ip_type) (rule_hdl : Z) : method Z :=
  if bool_decide (iptype = IPA_IP_MAX) then ret IPACM_FAILURE
  else
    let* o := get_obj in
    match find_index (has_hdl rule_hdl) (lan2lan_flt_rule_hdl (pool iptype o)) with
    | None => ret IPACM_FAILURE
    | Some i =>
        let* r := reset_to_dummy_flt_rule iptype rule_hdl in
        if r =? IPACM_FAILURE then ret IPACM_FAILURE
        else
          upd_obj (with_pool iptype (fun p =>
            p <| lan2lan_flt_rule_hdl := alter (set_slot_valid false) i (lan2lan_flt_rule_hdl p) |>
              <| num_lan2lan_flt_rule := udec 8 (num_lan2lan_flt_rule p) |>)) >>
          ret IPACM_SUCCESS
    end.

(** [IPACM_Lan::add_dummy_lan2lan_flt_rule]: the dummies at the end of the
    interface's filter table; the loop over the results stops at a failure. *)
Definition copy_hdl (iptype : ipa_ip_type) (out : list ipa_out) (i : nat) : method (option Z) :=
  let* x := deref (out !! i) in
  if out_status x =? 0 then
    upd_obj (with_pool iptype (fun p =>
      p <| lan2lan_flt_rule_hdl := alter (set_slot_hdl (out_hdl x)) i (lan2lan_flt_rule_hdl p) |>)) >>
    ret None
  else ret (Some IPACM_FAILURE).

Definition add_dummy_lan2lan_flt_rule (iptype : ipa_ip_type) : method Z :=
  let* o := get_obj in
  match lr_rx_prop o with
  | None => ret 0
  | Some rx =>
      let* ok := hw malloc in
      if negb ok then ret IPACM_FAILURE
      else
        let* rx0 := deref (rx !! 0%nat) in
        if bool_decide (iptype = IPA_IP_MAX) then ret IPACM_SUCCESS
        else
          let rules := replicate (Z.to_nat MAX_OFFLOAD_PAIR) (dummy_rule iptype (rx_attrib rx0)) in
          let* r := hw (AddFilteringRule fds iptype (src_pipe rx0) rules) in
          let '(ok, out) := r in
          if negb ok then ret IPACM_FAILURE
          else
            upd_obj (with_pool iptype (fun p => p <| flt_rule_count := flt_rule_count p + MAX_OFFLOAD_PAIR |>)) >>
            let* r := for_each (copy_hdl iptype out) (seq 0 (Z.to_nat MAX_OFFLOAD_PAIR)) in
            ret (default IPACM_SUCCESS r)
  end.

(** ** Headers *)

(** [IPACM_Lan::add_lan2lan_hdr] and [IPACM_Wlan::add_lan2lan_hdr], which differ in
    the names and in how [fill] writes the MAC addresses ([Some None] is a failure).
    The result, and the handle if one is stored: with no tx property of the IP type,
    or with another type, nothing happens and the result is success.  The slot is
    taken before the header is added. *)
Definition slot_name (base : string) (j : nat) : option string :=
  let name := strlcpy base IPA_RESOURCE_NAME_MAX in
  let '(r, name) := strlcat name (String.substring 0 3 (pretty j)) IPA_RESOURCE_NAME_MAX in
  if (IPA_RESOURCE_NAME_MAX <? r)%nat then None else Some name.

Definition install_hdr (iptype : ipa_ip_type) (base : string) (buf : list Z) (len : Z) : method (Z * option Z) :=
  let* o := get_obj in
  match find_index free_slot (lan2lan_hdr_hdl (pool iptype o)) with
  | None => ret (IPACM_FAILURE, None)
  | Some j =>
      upd_obj (with_pool iptype (fun p =>
        p <| lan2lan_hdr_hdl := alter (set_slot_valid true) j (lan2lan_hdr_hdl p) |>)) >>
      match slot_name base j with
      | None => ret (IPACM_FAILURE, None)
      | Some name =>
          let* r := hw (AddHeader fds {| ha_name := name; ha_hdr := buf; ha_hdr_len := len |}) in
          let '(ok, out) := r in
          if negb ok || negb (out_status out =? 0) then ret (IPACM_FAILURE, None)
          else
            upd_obj (with_pool iptype (fun p =>
              p <| lan2lan_hdr_hdl := alter (set_slot_hdl (out_hdl out)) j (lan2lan_hdr_hdl p) |>)) >>
            ret (IPACM_SUCCESS, Some (out_hdl out))
      end
  end.

Definition add_hdr_with (base_v4 base_v6 : string) (fill : ipa_ioc_copy_hdr -> list Z -> option (option (list Z)))
    (iptype : ipa_ip_type) : method (Z * option Z) :=
  let* o := get_obj in
  match lr_tx_prop o with
  | None => ret (IPACM_FAILURE, None)
  | Some tx =>
      let* ok := hw malloc in
      if negb ok then ret (IPACM_FAILURE, None)
      else if bool_decide (iptype = IPA_IP_MAX) then ret (IPACM_SUCCESS, None)
      else
        match List.find (fun t => bool_decide (tx_ip t = iptype)) tx with
        | None => ret (IPACM_SUCCESS, None)
        | Some t =>
            let* r := hw (CopyHeader fds (hdr_name t)) in
            let '(ok, c) := r in
            if negb ok then ret (IPACM_FAILURE, None)
            else if IPA_HDR_MAX_SIZE <? ch_hdr_len c then ret (IPACM_FAILURE, None)
            else
              let* buf := deref (write_bytes 0 (take (Z.to_nat (ch_hdr_len c)) (ch_hdr c))
                                   (replicate (Z.to_nat IPA_HDR_MAX_SIZE) 0)) in
              let* r := deref (fill c buf) in
              match r with
              | None => ret (IPACM_FAILURE, None)
              | Some buf =>
                  install_hdr iptype (if bool_decide (iptype = IPA_IP_v4) then base_v4 else base_v6) buf (ch_hdr_len c)
              end
        end
  end.

Definition lan_fill (src_mac dst_mac : list Z) (c : ipa_ioc_copy_hdr) (buf : list Z) : option (option (list Z)) :=
  if is_eth2_ofst_valid c then
    buf ← write_bytes (eth2_ofst c) dst_mac buf;
    buf ← write_bytes (eth2_ofst c + Z.of_nat IPA_MAC_ADDR_SIZE) src_mac buf;
    Some (Some buf)
  else Some (Some buf).

Definition add_lan2lan_hdr (iptype : ipa_ip_type) (src_mac dst_mac : list Z) : method (Z * option Z) :=
  add_hdr_with IPA_LAN_TO_LAN_USB_HDR_NAME_V4 IPA_LAN_TO_LAN_USB_HDR_NAME_V6 (lan_fill src_mac dst_mac) iptype.

(** The wireless version writes by the attributes the client was announced with. *)
Fixpoint wlan_pair_fill (src_mac dst_mac : list Z) (l : list ipa_wlan_hdr_attrib_val) (buf : list Z) :
    option (list Z) :=
  match l with
  | [] => Some buf
  | WLAN_HDR_ATTRIB_MAC_ADDR offset _ :: l =>
      buf ← write_bytes offset dst_mac buf;
      buf ← write_bytes (offset + Z.of_nat IPA_MAC_ADDR_SIZE) src_mac buf;
      wlan_pair_fill src_mac dst_mac l buf
  | WLAN_HDR_ATTRIB_STA_ID offset b :: l => buf ← write_bytes offset b buf; wlan_pair_fill src_mac dst_mac l buf
  | WLAN_HDR_ATTRIB_OTHER :: l => wlan_pair_fill src_mac dst_mac l buf
  end.

Definition wlan_client_fill (clients : wlan_iface) (src_mac dst_mac : list Z) (c : ipa_ioc_copy_hdr) (buf : list Z) :
    option (option (list Z)) :=
  match get_client_index dst_mac clients ≫= fun i => clients_of clients !! i with
  | None => Some None
  | Some c =>
      match p_hdr_info (extra c) with
      | Live d => buf ← wlan_pair_fill src_mac dst_mac (attribs d) buf; Some (Some buf)
      | _ => None
      end
  end.

Definition wlan_add_lan2lan_hdr (clients : wlan_iface) (iptype : ipa_ip_type) (src_mac dst_mac : list Z) :
    method (Z * option Z) :=
  add_hdr_with IPA_LAN_TO_LAN_WLAN_HDR_NAME_V4 IPA_LAN_TO_LAN_WLAN_HDR_NAME_V6
    (wlan_client_fill clients src_mac dst_mac) iptype.

(** [IPACM_Lan::del_lan2lan_hdr]: the header goes first, then its slot is looked for. *)
Definition del_lan2lan_hdr (iptype : ipa_ip_type) (hdl : Z) : method Z :=
  let* ok := hw (DeleteHeaderHdl fds hdl) in
  if negb ok then ret IPACM_FAILURE
  else if bool_decide (iptype = IPA_IP_MAX) then ret IPACM_FAILURE
  else
    let* o := get_obj in
    match find_index (has_hdl hdl) (lan2lan_hdr_hdl (pool iptype o)) with
    | None => ret IPACM_FAILURE
    | Some i =>
        upd_obj (with_pool iptype (fun p =>
          p <| lan2lan_hdr_hdl := alter (set_slot_valid false) i (lan2lan_hdr_hdl p) |>)) >>
        ret IPACM_SUCCESS
    end.

(** ** Routing rules *)

(** [IPACM_Lan::add_lan2lan_rt_rule]: the result and the handles the caller's record
    has then; rules added before a failure stay. *)
Definition pair_route (iptype : ipa_ip_type) (src_v4 dst_v4 : Z) (src_v6 dst_v6 : v6addr) (hdr : Z)
    (t : ipa_ioc_tx_intf_prop) : ipa_rt_rule :=
  {| rt_dst := dst_pipe t; rt_hdr_hdl := hdr; rt_hdr_proc_ctx_hdl := 0;
     rt_attrib := pair_attrib iptype src_v4 dst_v4 src_v6 dst_v6 (tx_attrib t) |}.

Definition hdls_zero : lan_to_lan_rt_rule_hdl :=
  {| num_rule := 0; rule_hdl := replicate (Z.to_nat MAX_NUM_PROP) 0 |}.

Definition push_hdl (x : Z) (h : lan_to_lan_rt_rule_hdl) : option lan_to_lan_rt_rule_hdl :=
  l ← store (Z.to_nat (num_rule h)) x (rule_hdl h);
  Some {| num_rule := uinc 8 (num_rule h); rule_hdl := l |}.

Fixpoint add_rt_loop (iptype : ipa_ip_type) (mk : ipa_ioc_tx_intf_prop -> ipa_rt_rule)
    (txs : list ipa_ioc_tx_intf_prop) (h : lan_to_lan_rt_rule_hdl) : method (Z * lan_to_lan_rt_rule_hdl) :=
  match txs with
  | [] => ret (IPACM_SUCCESS, h)
  | t :: txs =>
      if negb (bool_decide (tx_ip t = iptype)) then add_rt_loop iptype mk txs h
      else
        let* r := hw (AddRoutingRule fds {| rt_tbl_name := lan2lan_table iptype; rt_ip := iptype; rt_rules := [mk t] |}) in
        let '(ok, out) := r in
        if negb ok then ret (IPACM_FAILURE, h)
        else
          let* x := deref (out !! 0%nat) in
          let* h := deref (push_hdl (out_hdl x) h) in
          add_rt_loop iptype mk txs h
  end.

Definition add_lan2lan_rt_rule (iptype : ipa_ip_type) (src_v4 dst_v4 : Z) (src_v6 dst_v6 : v6addr) (hdr : Z) :
    method (Z * lan_to_lan_rt_rule_hdl) :=
  let* o := get_obj in
  match lr_tx_prop o with
  | None => ret (IPACM_FAILURE, hdls_zero)
  | Some tx =>
      let* ok := hw malloc in
      if negb ok then ret (IPACM_FAILURE, hdls_zero)
      else if bool_decide (iptype = IPA_IP_MAX) then ret (IPACM_SUCCESS, hdls_zero)
      else add_rt_loop iptype (pair_route iptype src_v4 dst_v4 src_v6 dst_v6 hdr) tx hdls_zero
  end.

(** [IPACM_Lan::del_lan2lan_rt_rule]: a failure does not end the loop. *)
Fixpoint del_rt_loop (iptype : ipa_ip_type) (hdls : list Z) (res : Z) : method Z :=
  match hdls with
  | [] => ret res
  | h :: hdls =>
      let* ok := hw (DeleteRoutingHdl fds h iptype) in
      del_rt_loop iptype hdls (if (ok : bool) then res else IPACM_FAILURE)
  end.

Definition del_lan2lan_rt_rule (iptype : ipa_ip_type) (h : lan_to_lan_rt_rule_hdl) : method Z :=
  if (num_rule h <=? 0) || (MAX_NUM_PROP <? num_rule h) then ret IPACM_FAILURE
  else del_rt_loop iptype (take (Z.to_nat (num_rule h)) (rule_hdl h)) IPACM_SUCCESS.
End rules.

(** ** The pools of a wireless interface

    [IPACM_Wlan::add_dummy_lan2lan_flt_rule]: all access points share one table of
    dummies, installed by the first; each takes its part of it ([dummy_hdls], null
    before).  The offsets are those of the Android build. *)
Definition IPV4_DEFAULT_FILTERTING_RULES : Z := 3.
Definition IPV6_DEFAULT_FILTERTING_RULES : Z := 6.

Definition wlan_flt_offset (iptype : ipa_ip_type) (wlan_ap_index ipa_num_private_subnet : Z) : Z :=
  match iptype with
  | IPA_IP_v4 =>
      wlan_ap_index * (IPV4_DEFAULT_FILTERTING_RULES + MAX_OFFLOAD_PAIR + ipa_num_private_subnet)
      + IPV4_DEFAULT_FILTERTING_RULES
      + wlan_ap_index * (Z.of_nat IPA_MAX_PRIVATE_SUBNET_ENTRIES - ipa_num_private_subnet)
  | _ => wlan_ap_index * (IPV6_DEFAULT_FILTERTING_RULES + MAX_OFFLOAD_PAIR)
  end.

Definition wlan_add_dummy_lan2lan_flt_rule {S} (dummy_hdls : option (list Z)) (wlan_ap_index ipa_num_private_subnet : Z)
    (iptype : ipa_ip_type) : M (lan_rules * S) Z :=
  fun s =>
    match lr_rx_prop (fst s) with
    | None => Some (IPACM_FAILURE, s)
    | Some _ =>
        if bool_decide (iptype = IPA_IP_MAX) then Some (IPACM_FAILURE, s)
        else
          match dummy_hdls with
          | None => Some (IPACM_FAILURE, s)
          | Some l =>
              let offset := Z.to_nat (wlan_flt_offset iptype wlan_ap_index ipa_num_private_subnet) in
              let n := Z.to_nat MAX_OFFLOAD_PAIR in
              if (offset + n <=? length l)%nat then
                Some (IPACM_SUCCESS,
                  (with_pool iptype (fun p => p <| lan2lan_flt_rule_hdl :=
                     (fun h => {| slot_hdl := h; slot_valid := false |}) <$> take n (drop offset l) |>) (fst s), snd s))
              else None
          end
    end.
