(* ===== verification/LanRulesProps.v ===== *)
(** * Properties of the LAN-to-LAN rules

    The pool of filter rules as a map from handles to links, by simulation; the
    headers, routing and filter rules of a link as a round trip; what the counter
    of the pool does when a rule is given back twice. *)
From S2P Require Import Prelude Defs Heap Config LanToLan IpaDrv IpaSim StateM ClientTable ClientProps ClientOps WlanClients LanRules.
From stdpp Require Import base list gmap fin_maps fin_map_dom functions strings.
From Stdlib Require Import ZArith Lia.

Open Scope Z_scope.
Open Scope method_scope.

(** ** The pool as a map *)

(** Source and destination of a link: the IPv4 addresses, the IPv6 addresses. *)
Definition flt_pair : Type := Z * Z * v6addr * v6addr.



(** The specification: for each IP type a map of at most [MAX_OFFLOAD_PAIR] links.
    Either operation may fail, and then changes nothing. *)
Abbreviation flt_spec := (ipa_ip_type -> gmap Z flt_pair).



Section pool_map.
Context {K : Type} `{HK : IpaKernel K}.

(** The installed rule of a handle that has, or does not have, a link. *)
Definition holds (ip : ipa_ip_type) (a : ipa_rule_attrib) (x : option flt_pair) (r : ipa_flt_rule) : Prop :=
  match x with
  | Some (s4, d4, s6, d6) => exists tbl, r = pair_rule (K := K) ip tbl s4 d4 s6 d6 a
  | None => exists a, r = dummy_rule (K := K) ip a
  end.

(** The pool and the hardware represent the map; the rules of the handles in [stale]
    may be out of date. *)
Record represents (ip : ipa_ip_type) (a : ipa_rule_attrib) (stale : gset Z) (m : gmap Z flt_pair) (p : rule_pool)
    (h : ipa_hw) : Prop := {
  rep_length : Z.of_nat (length (lan2lan_flt_rule_hdl p)) = MAX_OFFLOAD_PAIR;
  rep_nodup : NoDup (slot_hdl <$> lan2lan_flt_rule_hdl p);
  rep_slot s : s ∈ lan2lan_flt_rule_hdl p ->
    slot_valid s = bool_decide (is_Some (m !! slot_hdl s)) /\
    exists r, hw_flts h !! (ip, slot_hdl s) = Some r /\ (slot_hdl s ∉ stale -> holds ip a (m !! slot_hdl s) r);
  rep_dom k : is_Some (m !! k) -> k ∈ slot_hdl <$> lan2lan_flt_rule_hdl p;
  rep_num : num_lan2lan_flt_rule p = Z.of_nat (size m)
}.

(** A map kept by a pool has at most as many entries as the pool has slots. *)
Lemma rep_bound ip a st m p h : represents ip a st m p h -> Z.of_nat (size m) <= MAX_OFFLOAD_PAIR.
Proof.
  intros [Hl Hn _ Hd _]. rewrite <- Hl, <- size_dom, <- (length_fmap slot_hdl), <- (size_list_to_set (C := gset Z)) by done.
  apply Nat2Z.inj_le, subseteq_size. intros k Hk%elem_of_dom. by apply elem_of_list_to_set, Hd.
Qed.


(** The rules of other pools do not matter to a pool. *)
Lemma represents_frame ip a st m p h h' :
  (forall k, is_Some (hw_flts h !! (ip, k)) -> hw_flts h' !! (ip, k) = hw_flts h !! (ip, k)) ->
  represents ip a st m p h -> represents ip a st m p h'.
Proof.
  intros Hf [Hl Hn Hs Hd Hc]. split; try done. intros s Hin. destruct (Hs s Hin) as (Hv & r' & Hr & Hh).
  split; [done|]. exists r'. split; [|done]. rewrite Hf; eauto.
Qed.

End pool_map.

Section quiet.
Context {O K E : Type} `{HK : IpaKernelOk K}.

(** A call of the kernel that does not change the hardware. *)
Lemma wp_hw_quiet {A} (f : K -> A * K) (Q : A -> O * (K * E) -> Prop) o k e :
  hw_of (f k).2 = hw_of k -> (forall x k', hw_of k' = hw_of k -> Q x (o, (k', e))) -> wp (hw f) Q (o, (k, e)).
Proof. intros Hf HQ. destruct (f k) as [x k'] eqn:Ef. by apply (wp_hw _ _ _ _ _ x k'), HQ. Qed.

End quiet.

Section simulation.
Context {K E : Type} `{HF : IpaFltOk K} (fds : ipa_fds).

(** The refinement relation between the maps and the object with its kernel. *)
Definition flt_rel (stale : ipa_ip_type -> gset Z) (m : flt_spec) (s : lan_rules * (K * E)) : Prop :=
  let '(o, (k, _)) := s in
  exists rx rx0, lr_rx_prop o = Some rx /\ rx !! 0%nat = Some rx0 /\
  forall ip, ip <> IPA_IP_MAX -> represents ip (rx_attrib rx0) (stale ip) (m ip) (pool ip o) (hw_of k).

Lemma flt_rel_intro st m s rx rx0 :
  lr_rx_prop s.1 = Some rx -> rx !! 0%nat = Some rx0 ->
  (forall ip, ip <> IPA_IP_MAX -> represents ip (rx_attrib rx0) (st ip) (m ip) (pool ip s.1) (hw_of s.2.1)) -> flt_rel st m s.
Proof. destruct s as [o [k e]]. intros ? ? Hr. by exists rx, rx0. Qed.



Lemma pool_with ip ip' f o :
  ip <> IPA_IP_MAX -> ip' <> IPA_IP_MAX ->
  pool ip' (with_pool ip f o) = if bool_decide (ip = ip') then f (pool ip' o) else pool ip' o.
Proof. by destruct ip, ip'. Qed.












(** The capacity of a pool: when the kernel grants the requests, taking a rule
    fails exactly if [MAX_OFFLOAD_PAIR] links hold one. *)
Theorem flt_capacity st m ip s4 d4 s6 d6 s :
  flt_rel st m s -> ip <> IPA_IP_MAX ->
  (forall k : K, fst (malloc k) = true) ->
  (forall name (k : K), (GetRoutingTable fds name k).1.1 = true) ->
  (forall h rule (k : K), is_Some (hw_flts (hw_of k) !! (ip, h)) -> (ModifyFilteringRule fds ip h rule k).1 = true) ->
  wp (add_lan2lan_flt_rule fds ip s4 d4 s6 d6) (fun r _ => r = None <-> Z.of_nat (size (m ip)) = MAX_OFFLOAD_PAIR) s.
Proof.
  destruct s as [o [k e]]. intros (rx & rx0 & Hrx & Hr0 & Hrep) Hip Hmal Htbl Hmod. specialize (Hrep ip Hip).
  pose proof (rep_bound _ _ _ _ _ _ Hrep) as Hb. pose proof (rep_num _ _ _ _ _ _ Hrep) as Hn.
  unfold add_lan2lan_flt_rule. apply wp_bind, wp_get_obj. simpl. rewrite Hrx. specialize (Hmal k).
  pose proof (ok_malloc k) as Hk1. destruct (malloc k) as [ok k1] eqn:Em. simpl in Hmal, Hk1. subst ok.
  apply wp_bind. eapply wp_hw; [done|]. simpl. rewrite bool_decide_eq_false_2 by done.
  destruct (Z.leb_spec MAX_OFFLOAD_PAIR (num_lan2lan_flt_rule (pool ip o))); [apply wp_ret; split; [lia|done]|].
  specialize (Htbl (lan2lan_table ip) k1). pose proof (GetRoutingTable_hw fds (lan2lan_table ip) k1) as Hk2.
  destruct (GetRoutingTable _ _ k1) as [[ok tbl] k2] eqn:Et. simpl in Htbl, Hk2. subst ok.
  apply wp_bind. eapply wp_hw; [done|]. simpl. destruct (find_index free_slot _) as [i|] eqn:Hi.
  - apply find_index_Some in Hi as (sl & Hi & _). do 2 (apply wp_bind; eapply wp_deref; [done|]).
    destruct (rep_slot _ _ _ _ _ _ Hrep sl) as (_ & r & Hr & _); [apply list_elem_of_lookup; eauto|].
    specialize (Hmod (slot_hdl sl) (pair_rule ip tbl s4 d4 s6 d6 (rx_attrib rx0)) k2).
    destruct (ModifyFilteringRule _ _ _ _ k2) as [ok k3] eqn:Ek.
    apply wp_bind. eapply wp_hw; [done|]. simpl in Hmod. rewrite Hmod by (rewrite Hk2, Hk1; eauto).
    apply wp_bind, wp_upd_obj, wp_ret. split; [done|lia].
  - apply wp_ret. split; [intros _|done]. apply Z.le_antisymm; [done|]. destruct Hrep as [Hl Hnd Hs _ _].
    rewrite <- Hl, <- size_dom, <- (length_fmap slot_hdl), <- (size_list_to_set (C := gset Z)) by done.
    apply Nat2Z.inj_le, subseteq_size. intros x Hx%elem_of_list_to_set. apply elem_of_dom.
    apply list_elem_of_fmap in Hx as (sl & -> & Hin). destruct (Hs sl Hin) as [Hv _].
    apply find_index_None, Forall_forall with (x := sl) in Hi; [|done]. apply negb_false_iff in Hi.
    rewrite Hi in Hv. symmetry in Hv. by apply bool_decide_eq_true in Hv.
Qed.
End simulation.

(** ** Installing the dummies *)

(** When every status is zero the entries are the rules under their handles. *)
Lemma flt_entries_all ip out rules :
  Forall (fun x => out_status x = 0) out -> length out = length rules ->
  flt_entries ip out rules = zip ((fun x => (ip, out_hdl x)) <$> out) rules.
Proof.
  unfold flt_entries. intros Hs. revert rules. induction Hs as [|x out Hx _ IH]; intros [|r rules] [=]; [done|].
  simpl. rewrite Hx. simpl. by rewrite IH.
Qed.

Lemma flt_entries_ip ip out rules k : k ∈ (flt_entries ip out rules).*1 -> k.1 = ip.
Proof.
  intros ([k' r] & -> & Hin)%list_elem_of_fmap. unfold flt_entries in Hin.
  apply list_elem_of_omap in Hin as ([x r'] & _ & Hx). destruct (out_status x =? 0); by simplify_eq/=.
Qed.

Section install.
Context {K E : Type} `{HF : IpaFltOk K} (fds : ipa_fds).

(** A pool before the dummies are installed. *)
Record pool_empty (p : rule_pool) : Prop := {
  empty_length : Z.of_nat (length (lan2lan_flt_rule_hdl p)) = MAX_OFFLOAD_PAIR;
  empty_slots : Forall (fun s => slot_valid s = false) (lan2lan_flt_rule_hdl p);
  empty_num : num_lan2lan_flt_rule p = 0
}.

(** What the loop over the results has done when [i] handles are copied. *)
Definition copied (ip : ipa_ip_type) (out : list ipa_out) (o : lan_rules) (i : nat) (o' : lan_rules) : Prop :=
  lr_rx_prop o' = lr_rx_prop o /\
  (forall ip', ip' <> IPA_IP_MAX -> ip' <> ip -> pool ip' o' = pool ip' o) /\
  pool_empty (pool ip o') /\
  forall j, (j < i)%nat -> exists x, out !! j = Some x /\ out_status x = 0 /\
    lan2lan_flt_rule_hdl (pool ip o') !! j = Some {| slot_hdl := out_hdl x; slot_valid := false |}.

Lemma copy_hdl_step ip out o i s :
  ip <> IPA_IP_MAX -> Z.of_nat (length out) = MAX_OFFLOAD_PAIR -> Z.of_nat i < MAX_OFFLOAD_PAIR -> copied ip out o i s.1 ->
  wp (copy_hdl (K := K) (E := E) ip out i)
    (fun r s' => s'.2 = s.2 /\ match r with None => copied ip out o (S i) s'.1 | Some r => r = IPACM_FAILURE /\ copied ip out o i s'.1 end) s.
Proof.
  intros Hip Hl Hi (Hrx & Hp & [He1 He2 He3] & Hc). unfold copy_hdl.
  destruct (lookup_lt_is_Some_2 out i) as [x Hx]; [lia|]. apply wp_bind, (wp_deref _ x); [done|].
  destruct (Z.eqb_spec (out_status x) 0) as [Hst|]; [|by apply wp_ret].
  apply wp_bind, wp_upd_obj, wp_ret. simpl. split; [done|]. split_and!.
  - by destruct ip.
  - intros ip' ??. rewrite pool_with by done. rewrite bool_decide_eq_false_2 by done. auto.
  - rewrite pool_with, bool_decide_eq_true_2 by done. split; simpl; [by rewrite length_alter| |done].
    apply Forall_alter; [done|]. by intros y Hy%(Forall_lookup_1 _ _ _ _ He2) ?.
  - intros j Hj. rewrite pool_with, bool_decide_eq_true_2 by done. simpl.
    destruct (decide (j = i)) as [->|].
    + exists x. split_and!; [done..|]. destruct (lookup_lt_is_Some_2 (lan2lan_flt_rule_hdl (pool ip s.1)) i) as [[h v] Hs]; [lia|].
      pose proof (Forall_lookup_1 _ _ _ _ He2 Hs) as Hv. simpl in Hv. subst v. by rewrite list_lookup_alter_eq, Hs.
    + rewrite list_lookup_alter_ne by done. apply Hc. lia.
Qed.

(** Rules installed for one IP type do not matter to the pool of the other. *)
Lemma represents_union ip ip' a st m p h out rules :
  ip <> ip' -> represents ip' a st m p h ->
  represents ip' a st m p (h <| hw_flts := list_to_map (flt_entries ip out rules) ∪ hw_flts h |>).
Proof.
  intros Hne. apply represents_frame. intros k _. simpl. apply lookup_union_r, not_elem_of_list_to_map.
  by intros ?%flt_entries_ip.
Qed.

Lemma copied_represents ip a out o o' h :
  Z.of_nat (length out) = MAX_OFFLOAD_PAIR -> copied ip out o (Z.to_nat MAX_OFFLOAD_PAIR) o' ->
  let rules := replicate (Z.to_nat MAX_OFFLOAD_PAIR) (dummy_rule ip a) in
  NoDup (flt_entries ip out rules).*1 ->
  represents ip a ∅ ∅ (pool ip o') (h <| hw_flts := list_to_map (flt_entries ip out rules) ∪ hw_flts h |>).
Proof.
  intros Hlo (_ & _ & [He1 He2 He3] & Hc) rules Hnd.
  assert (Forall (fun x => out_status x = 0) out) as Hst.
  { apply Forall_lookup. intros j x Hx. destruct (Hc j) as (x' & Hx' & ? & _); [|congruence].
    apply lookup_lt_Some in Hx. lia. }
  assert (length out = length rules) as Hlr by (unfold rules; rewrite length_replicate; lia).
  assert (lan2lan_flt_rule_hdl (pool ip o') = (fun x => {| slot_hdl := out_hdl x; slot_valid := false |}) <$> out) as Hsl.
  { apply list_eq_same_length with (n := length out); [by rewrite length_fmap|lia|].
    intros j x y Hj Hx Hy. destruct (Hc j) as (z & Hz & _ & Hz'); [lia|].
    rewrite list_lookup_fmap, Hz in Hy. simpl in Hy. congruence. }
  rewrite flt_entries_all in Hnd |- * by done. rewrite fst_zip in Hnd by (rewrite length_fmap; lia).
  assert ((fun x => (ip, out_hdl x)) <$> out = (ip,.) <$> (out_hdl <$> out)) as Hmap by (by rewrite <- list_fmap_compose).
  split; simpl; try done.
  - rewrite Hsl, <- list_fmap_compose. rewrite Hmap in Hnd. by apply NoDup_fmap_1 in Hnd.
  - intros s Hin. rewrite Hsl in Hin. apply list_elem_of_fmap in Hin as (x & -> & (j & Hj)%list_elem_of_lookup). simpl.
    split; [by rewrite lookup_empty|]. exists (dummy_rule ip a). split; [|rewrite lookup_empty; intros _; by eexists].
    apply lookup_union_Some_l, elem_of_list_to_map_1; [rewrite fst_zip by (rewrite length_fmap; lia); done|].
    apply list_elem_of_lookup. exists j. rewrite lookup_zip_with, list_lookup_fmap, Hj. simpl.
    unfold rules. rewrite lookup_replicate_2; [done|]. apply lookup_lt_Some in Hj. lia.
  - intros k. rewrite lookup_empty. by intros [].
Qed.

Lemma dummy_install ip o k e rx rx0 :
  ip <> IPA_IP_MAX -> lr_rx_prop o = Some rx -> rx !! 0%nat = Some rx0 -> pool_empty (pool ip o) ->
  wp (add_dummy_lan2lan_flt_rule fds ip)
    (fun r (s' : lan_rules * (K * E)) => let '(o', (k', e')) := s' in
       e' = e /\ lr_rx_prop o' = Some rx /\
       (forall ip', ip' <> IPA_IP_MAX -> ip' <> ip -> pool ip' o' = pool ip' o /\
          forall a st m p, represents ip' a st m p (hw_of k) -> represents ip' a st m p (hw_of k')) /\
       (r = IPACM_SUCCESS -> represents ip (rx_attrib rx0) ∅ ∅ (pool ip o') (hw_of k'))) (o, (k, e)).
Proof.
  intros Hip Hrx Hr0 He. unfold add_dummy_lan2lan_flt_rule. apply wp_bind, wp_get_obj. cbn [fst]. rewrite Hrx.
  apply wp_bind, wp_hw_quiet; [apply ok_malloc|]. intros ok k1 Hk1.
  destruct ok; cbn [negb]; [|apply wp_ret; rewrite Hk1; by split_and!].
  apply wp_bind, (wp_deref _ rx0); [done|]. rewrite bool_decide_eq_false_2 by done. apply wp_bind.
  set (rules := replicate _ _).
  pose proof (AddFilteringRule_ok fds ip (src_pipe rx0) rules k1) as Ha.
  destruct (AddFilteringRule _ _ _ _ k1) as [[ok out] k2] eqn:Er. eapply wp_hw; [exact Er|].
  destruct ok; cbn [negb]; [destruct Ha as (Hlo & Hnd & Hk2)|by apply wp_ret; rewrite Ha, Hk1].
  apply wp_bind, wp_upd_obj, wp_bind. unfold rules in Hlo. rewrite length_replicate in Hlo.
  apply (wp_for_seq _ _ _ (fun i s => s.2 = (k2, e) /\ copied ip out o i s.1)).
  - cbn [fst snd]. split; [done|]. split_and!; [by destruct ip| | |lia].
    + intros. by rewrite pool_with, bool_decide_eq_false_2.
    + rewrite pool_with, bool_decide_eq_true_2 by done. by destruct He; split.
  - intros i s Hi [Hs Hc]. eapply wp_mono; [apply copy_hdl_step; [done| |lia|exact Hc]; lia|].
    intros [r|] [o' s'] [Hs' Hr]; simpl in *; [|by subst]. apply wp_ret. subst. destruct Hr as [-> (Hrx' & Hp & _)].
    rewrite Hs. split_and!; [done|congruence| |done]. intros ip' ? Hne. split; [by apply Hp|].
    intros a st m p Hrep. rewrite Hk2, Hk1. by apply represents_union.
  - intros [o' s'] [Hs' Hc]. simpl in *. subst. apply wp_ret. pose proof Hc as (Hrx' & Hp & _).
    split_and!; [done|congruence| |].
    + intros ip' ? Hne. split; [by apply Hp|]. intros a st m p Hrep. rewrite Hk2, Hk1. by apply represents_union.
    + intros _. rewrite Hk2. by apply (copied_represents ip _ out o o'); [by rewrite Hlo| |].
Qed.

(** From construction on: when both calls that install the dummies report
    success, the object and the kernel represent the empty maps of the specification. *)
Theorem flt_install_empty tx rx rx0 (k : K) (e : E) :
  rx !! 0%nat = Some rx0 ->
  wp (let* r4 := add_dummy_lan2lan_flt_rule fds IPA_IP_v4 in
      let* r6 := add_dummy_lan2lan_flt_rule fds IPA_IP_v6 in ret (r4, r6))
    (fun r s' => r = (IPACM_SUCCESS, IPACM_SUCCESS) -> flt_rel (fun _ => ∅) (fun _ => ∅) s')
    (lan_rules_ctor tx (Some rx), (k, e)).
Proof.
  intros Hr0. assert (pool_empty pool_zero) as He by (split; [done|by repeat constructor|done]).
  apply wp_bind. eapply wp_mono; [by apply (dummy_install IPA_IP_v4 _ k e rx rx0)|].
  intros r4 [o1 [k1 e1]] (-> & Hrx1 & Hf1 & Hr4).
  destruct (Hf1 IPA_IP_v6) as [Hp1 _]; [done..|].
  apply wp_bind. eapply wp_mono; [apply (dummy_install IPA_IP_v6 _ k1 e rx rx0); try done|].
  { by rewrite Hp1. }
  intros r6 [o2 [k2 e2]] (-> & Hrx2 & Hf2 & Hr6). apply wp_ret. intros [= -> ->].
  exists rx, rx0. split_and!; [done..|]. intros ip Hip.
  destruct (Hf2 IPA_IP_v4) as [Hp2 Hrep]; [done..|].
  destruct ip; [|by apply Hr6|done]. rewrite Hp2. apply Hrep. by apply Hr4.
Qed.
End install.

(** ** Headers and routing rules *)

Section roundtrip.
Context {K E : Type} `{HK : IpaKernelOk K} (fds : ipa_fds) `{!IpaReliable K fds}.
Implicit Types (o : lan_rules) (k : K) (e : E).

(** The routing rules that one call adds, and their handles in the record. *)
Lemma add_rt_loop_ok ip mk txs h hs o k e :
  Z.of_nat (length (rule_hdl h)) = MAX_NUM_PROP -> num_rule h = Z.of_nat (length hs) ->
  take (length hs) (rule_hdl h) = hs ->
  Z.of_nat (length hs + length (List.filter (fun t => bool_decide (tx_ip t = ip)) txs)) <= MAX_NUM_PROP ->
  wp (add_rt_loop fds ip mk txs h)
    (fun r (s' : lan_rules * (K * E)) => let '(o', (k', e')) := s' in o' = o /\ e' = e /\ exists new rs,
       adds_rts rs (hw_of k) (hw_of k') /\ rs.*1 = (ip,.) <$> new /\
       (r.1 = IPACM_SUCCESS ->
          length new = length (List.filter (fun t => bool_decide (tx_ip t = ip)) txs) /\
          num_rule r.2 = Z.of_nat (length (hs ++ new)) /\
          take (length (hs ++ new)) (rule_hdl r.2) = hs ++ new))
    (o, (k, e)).
Proof.
  revert h hs k. induction txs as [|t txs IH]; intros h hs k Hl Hn Ht Hc; cbn [add_rt_loop].
  { apply wp_ret. split_and!; [done..|]. exists [], []. split_and!; [apply adds_rts_nil|done|].
    intros _. rewrite app_nil_r. by split_and!. }
  cbn [List.filter] in Hc |- *. case_bool_decide as Hip; cbn [negb]; [|by apply IH].
  wstep. pose proof (AddRoutingRule_one fds (lan2lan_table ip) ip (mk t) k) as Ha. cbv zeta in Ha.
  destruct (AddRoutingRule fds _ k) as [[ok out] k1] eqn:Er. eapply wp_hw; [done|]. cbn beta iota.
  destruct ok; cbn [negb].
  2: { apply wp_ret. split_and!; [done..|]. exists [], []. rewrite Ha. split_and!; [apply adds_rts_nil|done|done]. }
  destruct Ha as (x & -> & Ha). wstep. eapply wp_deref; [done|]. wstep. cbn [length] in Hc. cbn [out_hdl].
  assert (length hs < length (rule_hdl h))%nat as Hlt by lia.
  eapply wp_deref.
  { unfold push_hdl, store. rewrite Hn, Nat2Z.id, (proj2 (Nat.ltb_lt _ _) Hlt). reflexivity. }
  eapply wp_mono; [apply (IH _ (hs ++ [x])); cbn [rule_hdl num_rule]|].
  - by rewrite length_insert.
  - rewrite length_app, uinc_small; cbn; unfold MAX_NUM_PROP in *; lia.
  - rewrite length_app, Nat.add_1_r. cbn [length]. rewrite (take_S_r _ _ x) by (by apply list_lookup_insert_eq).
    by rewrite take_insert_ge, Ht by lia.
  - rewrite length_app. cbn [length]. lia.
  - intros r [o' [k' e']] (-> & -> & new & rs & Ha' & Hrs & Hs). split_and!; [done..|].
    exists (x :: new), ((ip, x, (lan2lan_table ip, mk t)) :: rs). split_and!.
    + by apply (adds_rts_app [_] rs _ (hw_of k1)).
    + by rewrite !fmap_cons, Hrs.
    + intros Hr. destruct (Hs Hr) as (Hln & Hnr & Htk). rewrite <- app_assoc in Hnr, Htk. cbn [length]. auto.
Qed.

Lemma del_rt_loop_ok ip hdls o k e :
  Forall (fun h => h <> 0) hdls ->
  wp (del_rt_loop fds ip hdls IPACM_SUCCESS)
    (fun r (s' : lan_rules * (K * E)) => let '(o', (k', e')) := s' in
       o' = o /\ e' = e /\ r = IPACM_SUCCESS /\ dels_rts ((ip,.) <$> hdls) (hw_of k) (hw_of k')) (o, (k, e)).
Proof.
  intros Hz. revert k. induction Hz as [|x hdls Hx _ IH]; intros k; cbn [del_rt_loop].
  { apply wp_ret. split_and!; [done..|]. apply dels_rts_nil. }
  wstep. destruct (DeleteRoutingHdl_ok fds ip x k Hx) as (k1 & Hd & Hk1). eapply wp_hw; [exact Hd|].
  eapply wp_mono; [apply IH|]. intros r [o' [k' e']] (-> & -> & -> & Hd'). split_and!; [done..|].
  rewrite fmap_cons. by apply (dels_rts_app [_] _ _ (hw_of k1)).
Qed.

Lemma alter_alter {A} (f g : A -> A) (i : nat) (l : list A) : alter f i (alter g i l) = alter (fun x => f (g x)) i l.
Proof. revert i. induction l as [|x l IH]; intros [|i]; f_equal/=; auto. Qed.

(** The header pool: what is marked in use is installed. *)
Definition hdrs_live (p : rule_pool) (h : ipa_hw) : Prop :=
  forall s, s ∈ lan2lan_hdr_hdl p -> slot_valid s = true -> is_Some (hw_hdrs h !! slot_hdl s).

Lemma install_hdr_ok ip base buf len o k e :
  ip <> IPA_IP_MAX ->
  wp (install_hdr fds ip base buf len)
    (fun r (s' : lan_rules * (K * E)) => let '(o', (k', e')) := s' in
       e' = e /\ match r.2 with
       | None => True
       | Some x => r.1 = IPACM_SUCCESS /\ adds_hdr x (hw_of k) (hw_of k') /\
           exists j, find_index free_slot (lan2lan_hdr_hdl (pool ip o)) = Some j /\
             o' = with_pool ip (fun p =>
               p <| lan2lan_hdr_hdl := alter (fun _ => {| slot_hdl := x; slot_valid := true |}) j (lan2lan_hdr_hdl p) |>) o
       end) (o, (k, e)).
Proof.
  intros Hip. unfold install_hdr. wsteps. cbn [fst]. destruct (find_index free_slot _) as [j|]; [|by wsteps].
  wsteps. destruct (slot_name base j) as [name|]; [|by wsteps].
  wstep. pose proof (AddHeader_ok (K := K) fds {| ha_name := name; ha_hdr := buf; ha_hdr_len := len |} k) as Ha.
  destruct (AddHeader fds _ k) as [[ok out] k1] eqn:Er. eapply wp_hw; [done|]. cbn beta iota.
  destruct (_ || _); wsteps; [done|]. cbn [fst snd]. split_and!; [done..|]. exists j. split; [done|].
  destruct ip, o as [tx rx [] []]; try done; cbn; rewrite alter_alter; do 2 f_equal.
Qed.

Lemma add_lan2lan_hdr_ok ip src dst o k e :
  ip <> IPA_IP_MAX -> length src = IPA_MAC_ADDR_SIZE -> length dst = IPA_MAC_ADDR_SIZE ->
  wp (add_lan2lan_hdr fds ip src dst)
    (fun r (s' : lan_rules * (K * E)) => let '(o', (k', e')) := s' in
       e' = e /\ match r.2 with
       | None => True
       | Some x => r.1 = IPACM_SUCCESS /\ adds_hdr x (hw_of k) (hw_of k') /\
           (exists tx t, lr_tx_prop o = Some tx /\ t ∈ tx /\ tx_ip t = ip) /\
           exists j, find_index free_slot (lan2lan_hdr_hdl (pool ip o)) = Some j /\
             o' = with_pool ip (fun p =>
               p <| lan2lan_hdr_hdl := alter (fun _ => {| slot_hdl := x; slot_valid := true |}) j (lan2lan_hdr_hdl p) |>) o
       end) (o, (k, e)).
Proof.
  intros Hip Hsrc Hdst. unfold add_lan2lan_hdr, add_hdr_with. wsteps. cbn [fst].
  destruct (lr_tx_prop o) as [tx|] eqn:Htx; [|by wsteps].
  wstep. apply wp_hw_quiet; [apply ok_malloc|]. intros [] k1 Hk1; cbn [negb]; [|by wsteps].
  rewrite bool_decide_eq_false_2 by done. destruct (List.find _ tx) as [t|] eqn:Ht; [|by wsteps].
  apply List.find_some in Ht as [Hin%list_elem_of_In Hti%bool_decide_eq_true].
  wstep. pose proof (CopyHeader_ok (K := K) fds (hdr_name t) k1) as Hc.
  destruct (CopyHeader fds (hdr_name t) k1) as [[ok ch] k2] eqn:Hcopy. destruct Hc as [Hk2 Hc].
  eapply wp_hw; [done|]. cbn beta iota. destruct ok; cbn [negb]; [|by wsteps]. specialize (Hc eq_refl) as (H0' & Hl & Hofst).
  destruct (Z.ltb_spec IPA_HDR_MAX_SIZE (ch_hdr_len ch)); [by wsteps|].
  destruct (write_bytes_ok 0 (take (Z.to_nat (ch_hdr_len ch)) (ch_hdr ch)) (replicate (Z.to_nat IPA_HDR_MAX_SIZE) 0))
    as (buf1 & Hw & Hb1); [lia|rewrite length_take, length_replicate; lia|]. rewrite length_replicate in Hb1.
  wstep. eapply wp_deref; [exact Hw|].
  assert (exists buf, lan_fill src dst ch buf1 = Some (Some buf)) as [buf Hf].
  { unfold lan_fill. destruct (is_eth2_ofst_valid ch); [|by eexists]. destruct (Hofst eq_refl).
    assert (Z.of_nat IPA_MAC_ADDR_SIZE = 6) as H6 by done.
    destruct (write_bytes_ok (eth2_ofst ch) dst buf1) as (buf2 & Hw2 & Hb2); [lia..|].
    destruct (write_bytes_ok (eth2_ofst ch + Z.of_nat IPA_MAC_ADDR_SIZE) src buf2) as (buf3 & Hw3 & Hb3); [lia..|].
    exists buf3. by rewrite Hw2; simpl; rewrite Hw3. }
  wstep. eapply wp_deref; [exact Hf|]. cbn beta iota.
  eapply wp_mono; [by apply install_hdr_ok|]. intros [r [x|]] [o' [k' e']] [-> Hr]; [|done].
  cbn [snd fst] in *. rewrite <- Hk1, <- Hk2. destruct Hr as (-> & Ha & Hj). eauto 10.
Qed.

(** Deleting a header that the pool holds in its slot [j], and in no other. *)
Lemma del_lan2lan_hdr_ok ip x a j sl o k e :
  ip <> IPA_IP_MAX -> x <> 0 -> hw_hdrs (hw_of k) !! x = Some a ->
  lan2lan_hdr_hdl (pool ip o) !! j = Some sl -> slot_hdl sl = x ->
  (forall i s, (i < j)%nat -> lan2lan_hdr_hdl (pool ip o) !! i = Some s -> slot_hdl s <> x) ->
  wp (del_lan2lan_hdr fds ip x)
    (fun r (s' : lan_rules * (K * E)) => let '(o', (k', e')) := s' in
       e' = e /\ r = IPACM_SUCCESS /\ hw_of k' = hw_of k <| hw_hdrs := delete x (hw_hdrs (hw_of k)) |> /\
       o' = with_pool ip (fun p => p <| lan2lan_hdr_hdl := alter (set_slot_valid false) j (lan2lan_hdr_hdl p) |>) o)
    (o, (k, e)).
Proof.
  intros Hip Hx Ha Hj Hsl Hbefore. unfold del_lan2lan_hdr.
  destruct (DeleteHeaderHdl_ok fds x a k Hx Ha) as (k1 & Hd & Hk1). wstep. eapply wp_hw; [exact Hd|]. cbn [negb].
  rewrite bool_decide_eq_false_2 by done. wsteps. cbn [fst].
  assert (find_index (has_hdl x) (lan2lan_hdr_hdl (pool ip o)) = Some j) as Hf.
  { apply (find_index_intro _ _ _ sl); [done|by apply Z.eqb_eq|].
    intros i s Hi Hs. apply Z.eqb_neq. eauto. }
  rewrite Hf. by wsteps.
Qed.

(** The handles of the rules that were added are those of the keys. *)
Lemma adds_rts_hdls ip new rs h h' : adds_rts rs h h' -> rs.*1 = (ip,.) <$> new -> Forall (fun x => x <> 0) new.
Proof.
  intros (_ & Hf & _) Hrs. apply Forall_forall. intros x Hx. apply (Hf (ip, x)). rewrite Hrs.
  apply list_elem_of_fmap. by exists x.
Qed.

(** Header and routing rules of a link, added and deleted again. *)
Definition link_cycle (ip : ipa_ip_type) (src_mac dst_mac : list Z) (s4 d4 : Z) (s6 d6 : v6addr) :
    M (lan_rules * (K * E)) (option (Z * Z)) :=
  let* h := add_lan2lan_hdr fds ip src_mac dst_mac in
  match h.2 with
  | None => ret None
  | Some x =>
      let* t := add_lan2lan_rt_rule fds ip s4 d4 s6 d6 x in
      if t.1 =? IPACM_SUCCESS then
        let* r1 := del_lan2lan_rt_rule fds ip t.2 in
        let* r2 := del_lan2lan_hdr fds ip x in ret (Some (r1, r2))
      else ret None
  end.

(** Header and routing rules of a link: when an interface reports success for
    both, deleting them succeeds and leaves the hardware as it was and the pool with
    the same slots in use.  Additions may fail; what is marked in use must be
    installed, and the interface must have at most [MAX_NUM_PROP] tx properties of
    the IP type. *)
Theorem link_roundtrip ip src_mac dst_mac s4 d4 s6 d6 o k e :
  ip <> IPA_IP_MAX -> length src_mac = IPA_MAC_ADDR_SIZE -> length dst_mac = IPA_MAC_ADDR_SIZE ->
  hdrs_live (pool ip o) (hw_of k) ->
  Z.of_nat (length (List.filter (fun t => bool_decide (tx_ip t = ip)) (default [] (lr_tx_prop o)))) <= MAX_NUM_PROP ->
  wp (link_cycle ip src_mac dst_mac s4 d4 s6 d6)
    (fun r (s' : lan_rules * (K * E)) => let '(o', (k', e')) := s' in
       match r with
       | None => True
       | Some r => r = (IPACM_SUCCESS, IPACM_SUCCESS) /\ hw_of k' = hw_of k /\ e' = e /\
           exists j x, o' = with_pool ip (fun p => p <| lan2lan_hdr_hdl := alter (set_slot_hdl x) j (lan2lan_hdr_hdl p) |>) o
       end) (o, (k, e)).
Proof.
  intros Hip Hsrc Hdst Hlive Hmax. unfold link_cycle. wstep. eapply wp_mono; [by apply add_lan2lan_hdr_ok|].
  intros [r [x|]] [o1 [k1 e1]] [-> Hr]; cbn [fst snd] in *; [|by wsteps].
  destruct Hr as (-> & (Hx & Hfree & a & Hk1) & (tx & t & Htx & Ht & Hti) & j & Hj & Ho1).
  pose proof Hj as (sl & Hsl & Hslf & Hbefore)%find_index_Some. apply negb_true_iff in Hslf.
  assert (lr_tx_prop o1 = Some tx) as Htx1 by (subst o1; by destruct ip).
  assert (pool ip o1 = pool ip o <| lan2lan_hdr_hdl := alter (fun _ => {| slot_hdl := x; slot_valid := true |}) j (lan2lan_hdr_hdl (pool ip o)) |>) as Hp1.
  { subst o1. by rewrite pool_with, bool_decide_eq_true_2. }
  rewrite Htx in Hmax. cbn [default id] in Hmax.
  unfold add_lan2lan_rt_rule. wsteps. cbn [fst]. rewrite Htx1. wstep. apply wp_hw_quiet; [apply ok_malloc|].
  intros [] k2 Hk2; cbn [negb]; [|by wsteps]. rewrite bool_decide_eq_false_2 by done.
  eapply wp_mono; [apply (add_rt_loop_ok ip _ tx hdls_zero [] o1 k2 e); done|].
  intros [rr h] [o2 [k3 e2]] (-> & -> & new & rs & Hadd & Hrs & Hs). cbn [fst snd app length] in *.
  destruct (Z.eqb_spec rr IPACM_SUCCESS) as [->|]; [|by wsteps]. destruct (Hs eq_refl) as (Hln & Hnum & Htk).
  assert (0 < Z.of_nat (length new)) as Hpos.
  { rewrite Hln. assert (t ∈ List.filter (fun t => bool_decide (tx_ip t = ip)) tx) as Hin.
    { apply list_elem_of_In, List.filter_In. rewrite bool_decide_eq_true. by rewrite <- list_elem_of_In. }
    destruct (List.filter _ tx); [by apply not_elem_of_nil in Hin|]. cbn [length]. lia. }
  unfold del_lan2lan_rt_rule. rewrite Hnum, (proj2 (Z.leb_gt _ _)), (proj2 (Z.ltb_ge _ _)) by lia. cbn [orb].
  rewrite Nat2Z.id, Htk. wstep. eapply wp_mono; [by eapply del_rt_loop_ok, adds_rts_hdls|].
  intros rd [o3 [k4 e3]] (-> & -> & -> & Hdel). rewrite <- Hrs in Hdel. pose proof (adds_dels_rts _ _ _ _ Hadd Hdel) as Hk4.
  rewrite Hk2, Hk1 in Hk4. wstep.
  eapply wp_mono; [apply (del_lan2lan_hdr_ok ip x a j {| slot_hdl := x; slot_valid := true |}); try done|].
  - rewrite Hk4. simpl. by rewrite lookup_insert_eq.
  - rewrite Hp1. cbn. by rewrite list_lookup_alter_eq, Hsl.
  - intros i s Hi Hsi Heq. rewrite Hp1 in Hsi. cbn in Hsi. rewrite list_lookup_alter_ne in Hsi by lia.
    pose proof (Hbefore i s Hi Hsi) as Hv. apply negb_false_iff in Hv.
    destruct (Hlive s) as [? ?]; [apply list_elem_of_lookup; eauto|done|congruence].
  - intros rd [o4 [k5 e4]] (-> & -> & Hk5 & ->). apply wp_ret. split_and!; [done| |done|].
    + rewrite Hk5, Hk4. destruct (hw_of k) as [hd rt fl]. cbn in *. f_equal. by rewrite delete_insert_id.
    + exists j, x. subst o1. assert (forall p, lan2lan_hdr_hdl p = lan2lan_hdr_hdl (pool ip o) ->
        alter (set_slot_valid false) j (alter (fun _ => {| slot_hdl := x; slot_valid := true |}) j (lan2lan_hdr_hdl p)) =
        alter (set_slot_hdl x) j (lan2lan_hdr_hdl p)) as He.
      { intros p ->. rewrite alter_alter. apply list_alter_ext; [|done]. intros [h0 v] Hy. by simplify_eq/=. }
      destruct ip, o; cbn; do 2 f_equal; by apply He.
Qed.
End roundtrip.

(** ** Giving a rule back twice *)

(** A pool whose counter is not below [MAX_OFFLOAD_PAIR] refuses. *)
Lemma add_flt_full {K E : Type} `{HK : IpaKernel K} (fds : ipa_fds) ip s4 d4 s6 d6 (s : lan_rules * (K * E)) :
  ip <> IPA_IP_MAX -> MAX_OFFLOAD_PAIR <= num_lan2lan_flt_rule (pool ip s.1) ->
  wp (add_lan2lan_flt_rule fds ip s4 d4 s6 d6) (fun r s' => r = None /\ s'.1 = s.1) s.
Proof.
  destruct s as [o [k e]]. intros Hip Hn%Z.leb_le. unfold add_lan2lan_flt_rule. wsteps. cbn [fst] in *.
  destruct (lr_rx_prop o); [|by wsteps]. wstep.
  destruct (malloc k) as [[] k1] eqn:Em; eapply wp_hw; try done; cbn [negb]; try by wsteps.
  rewrite bool_decide_eq_false_2, Hn by done. by wsteps.
Qed.

(** Deleting a handle of the pool while no rule is taken, if the kernel lets it
    succeed, leaves the counter at 255, and from then on no rule can be taken, whatever
    the kernel does. *)
Theorem double_delete_fills {K E : Type} `{HK : IpaKernel K} (fds : ipa_fds) ip h (o : lan_rules) (k : K) (e : E) :
  ip <> IPA_IP_MAX -> num_lan2lan_flt_rule (pool ip o) = 0 ->
  wp (del_lan2lan_flt_rule fds ip h)
    (fun r s' => r = IPACM_SUCCESS ->
       num_lan2lan_flt_rule (pool ip s'.1) = 255 /\
       forall s4 d4 s6 d6 (k' : K) (e' : E),
         wp (add_lan2lan_flt_rule fds ip s4 d4 s6 d6) (fun r s2 => r = None /\ s2.1 = s'.1) (s'.1, (k', e')))
    (o, (k, e)).
Proof.
  intros Hip Hn. unfold del_lan2lan_flt_rule, reset_to_dummy_flt_rule. rewrite !bool_decide_eq_false_2 by done.
  wsteps. cbn [fst]. destruct (find_index _ _) as [i|]; [|by wsteps].
  wsteps. destruct (malloc k) as [[] k1] eqn:Em; eapply wp_hw; try done; cbn [negb]; [|by wsteps; cbn; wsteps]. wsteps.
  destruct (ModifyFilteringRule fds ip h (dummy_rule ip attrib_zero) k1) as [[] k2] eqn:Er;
    eapply wp_hw; try done; wsteps; cbn; wsteps; [|done]. intros _. cbn [fst snd].
  set (o' := with_pool ip _ o). assert (num_lan2lan_flt_rule (pool ip o') = 255) as Hn'.
  { unfold o'. rewrite pool_with, bool_decide_eq_true_2 by done. simpl. by rewrite Hn. }
  split; [done|]. intros s4 d4 s6 d6 k' e'. 
  apply (add_flt_full fds ip s4 d4 s6 d6 (o', (k', e'))); [done|]. cbn [fst]. by rewrite Hn'.
Qed.

(** ** Concrete runs *)

Section witnesses.
#[local] Instance wit_kernel : IpaKernel SimpleIpa := simple_kernel (fun _ => false).
#[local] Instance wit_laws : IpaKernelOk SimpleIpa := simple_kernel_ok (fun _ => false).
#[local] Instance wit_flt : IpaFltOk SimpleIpa := simple_flt_ok (fun _ => false).
#[local] Instance wit_reliable : IpaReliable SimpleIpa simple_fds := simple_reliable (fun _ => false).

Definition ex_rx : list ipa_ioc_rx_intf_prop := [ {| rx_ip := IPA_IP_v4; rx_attrib := attrib_zero; src_pipe := 7 |} ].
Definition ex_tx : list ipa_ioc_tx_intf_prop :=
  (fun ip => {| tx_ip := ip; tx_attrib := attrib_zero; dst_pipe := 9; hdr_name := "eth"%string |}) <$>
    [IPA_IP_v4; IPA_IP_v6; IPA_IP_v4].
Definition ex_rules : lan_rules := lan_rules_ctor (Some ex_tx) (Some ex_rx).
Definition ex_ones : v6addr := (1, 1, 1, 1).

(** The object and the kernel after the dummies are installed. *)
Definition ex_install : M (lan_rules * (SimpleIpa * unit)) (Z * Z) :=
  let* r4 := add_dummy_lan2lan_flt_rule simple_fds IPA_IP_v4 in
  let* r6 := add_dummy_lan2lan_flt_rule simple_fds IPA_IP_v6 in ret (r4, r6).
Definition ex_installed : lan_rules * (SimpleIpa * unit) :=
  match ex_install (ex_rules, (si_init, tt)) with Some (_, s) => s | None => (ex_rules, (si_init, tt)) end.

Lemma ex_slots ip :
  ip <> IPA_IP_MAX ->
  lan2lan_flt_rule_hdl (pool ip ex_installed.1) =
  (fun h => {| slot_hdl := h; slot_valid := false |}) <$> match ip with IPA_IP_v4 => [1; 2; 3] | _ => [4; 5; 6] end.
Proof. intros Hip. destruct ip; [by vm_compute..|done]. Qed.

Lemma ex_dummies ip hs :
  Forall (fun h => hw_flts (si_hw ex_installed.2.1) !! (ip, h) = Some (dummy_rule (K := SimpleIpa) ip attrib_zero)) hs ->
  Forall (fun s => slot_valid s = bool_decide (is_Some ((∅ : gmap Z flt_pair) !! slot_hdl s)) /\
    exists r, hw_flts (hw_of ex_installed.2.1) !! (ip, slot_hdl s) = Some r /\
      (slot_hdl s ∉ (∅ : gset Z) -> holds (K := SimpleIpa) ip attrib_zero ((∅ : gmap Z flt_pair) !! slot_hdl s) r))
    ((fun h => {| slot_hdl := h; slot_valid := false |}) <$> hs).
Proof.
  intros Hh. apply Forall_fmap. eapply Forall_impl; [exact Hh|]. intros h Hl. simpl. rewrite lookup_empty.
  split; [done|]. eexists. split; [exact Hl|]. intros _. by eexists.
Qed.

Lemma ex_rel : flt_rel (K := SimpleIpa) (E := unit) (fun _ => ∅) (fun _ => ∅) ex_installed.
Proof.
  apply (flt_rel_intro _ _ _ ex_rx {| rx_ip := IPA_IP_v4; rx_attrib := attrib_zero; src_pipe := 7 |});
    [by vm_compute|done|]. intros ip Hip. split.
  - by destruct ip.
  - destruct ip; [| |done]; refine (bool_decide_unpack _ _); by vm_compute.
  - apply Forall_forall. rewrite ex_slots by done.
    destruct ip; [apply (ex_dummies IPA_IP_v4 [1; 2; 3])|apply (ex_dummies IPA_IP_v6 [4; 5; 6])|done];
      by vm_compute; repeat constructor.
  - intros k. rewrite lookup_empty. by intros [].
  - by destruct ip.
Qed.


Lemma flt_capacity_witness :
  wp (add_lan2lan_flt_rule simple_fds IPA_IP_v4 1 2 ex_ones ex_ones)
    (fun r (_ : lan_rules * (SimpleIpa * unit)) => r = None <-> Z.of_nat (size (∅ : gmap Z flt_pair)) = MAX_OFFLOAD_PAIR) ex_installed.
Proof.
  apply (flt_capacity simple_fds (fun _ => ∅) (fun _ => ∅) IPA_IP_v4); [exact ex_rel|done|done|done|].
  intros h rule k [r Hr]. unfold ModifyFilteringRule. simpl. unfold si_mdfy_flt, si_tick. simpl in *. by rewrite Hr.
Defined.

Lemma flt_install_empty_witness :
  ex_install (ex_rules, (si_init, tt)) = Some ((IPACM_SUCCESS, IPACM_SUCCESS), ex_installed) /\
  wp ex_install (fun r s' => r = (IPACM_SUCCESS, IPACM_SUCCESS) -> flt_rel (K := SimpleIpa) (fun _ => ∅) (fun _ => ∅) s')
    (ex_rules, (si_init, tt)).
Proof. split; [by vm_compute|]. by eapply flt_install_empty. Defined.

Lemma double_delete_fills_witness :
  wp (del_lan2lan_flt_rule simple_fds IPA_IP_v4 1)
    (fun r s' => r = IPACM_SUCCESS ->
       num_lan2lan_flt_rule (pool IPA_IP_v4 s'.1) = 255 /\
       forall s4 d4 s6 d6 (k' : SimpleIpa) (e' : unit),
         wp (add_lan2lan_flt_rule simple_fds IPA_IP_v4 s4 d4 s6 d6) (fun r s2 => r = None /\ s2.1 = s'.1) (s'.1, (k', e')))
    ex_installed /\
  (fst <$> del_lan2lan_flt_rule simple_fds IPA_IP_v4 1 ex_installed) = Some IPACM_SUCCESS.
Proof. split; [|by vm_compute]. apply (double_delete_fills simple_fds IPA_IP_v4 1); done. Defined.

Definition ex_link : M (lan_rules * (SimpleIpa * unit)) (option (Z * Z)) :=
  link_cycle simple_fds IPA_IP_v4 (replicate 6 1) (replicate 6 2) 1 2 ex_ones ex_ones.

Lemma link_roundtrip_witness :
  (fst <$> ex_link (ex_rules, (si_init, tt))) = Some (Some (IPACM_SUCCESS, IPACM_SUCCESS)) /\
  wp ex_link
    (fun r (s' : lan_rules * (SimpleIpa * unit)) => let '(o', (k', e')) := s' in
       match r with
       | None => True
       | Some r => r = (IPACM_SUCCESS, IPACM_SUCCESS) /\ hw_of k' = hw_of si_init /\ e' = tt /\
           exists j x, o' = with_pool IPA_IP_v4
             (fun p => p <| lan2lan_hdr_hdl := alter (set_slot_hdl x) j (lan2lan_hdr_hdl p) |>) ex_rules
       end) (ex_rules, (si_init, tt)).
Proof.
  split; [by vm_compute|]. apply (link_roundtrip simple_fds IPA_IP_v4 (replicate 6 1) (replicate 6 2) 1 2 ex_ones ex_ones ex_rules si_init tt);
    try done.
  intros s Hs Hv. change (s ∈ replicate 3 {| slot_hdl := 0; slot_valid := false |}) in Hs.
  apply elem_of_replicate in Hs as [-> _]. done.
Defined.
End witnesses.
