(* ===== verification/LanCompose.v ===== *)
(** * The LAN-to-LAN offload over the rules of its interfaces

    LanToLan.v is written against the interface [LanIface]; here the interface is
    the methods of LanRules.v, over a list of interface objects that share one kernel,
    and events run through both. *)
From S2P Require Import Prelude Defs Heap Config LanToLan LanDriver LanGraph LanToLanProps.
From S2P Require Import IpaDrv IpaSim StateM ClientTable WlanClients LanRules LanRulesProps.
From stdpp Require Import base list gmap strings.
From Stdlib Require Import ZArith Lia.

Open Scope Z_scope.

(** The objects with their categories, the kernel and the events posted.
    [lw_ub] records that a method was undefined, or left a result unset that
    the caller goes on to use. *)
Record lan_world (K : Type) := {
  lw_objs : list lan_rules;
  lw_cats : list ipacm_iface_type;
  lw_kernel : K;
  lw_posted : list (ipa_cm_event_id * ipacm_event_connection);
  lw_ub : bool
}.
Arguments lw_objs {K}. Arguments lw_cats {K}. Arguments lw_kernel {K}. Arguments lw_posted {K}. Arguments lw_ub {K}.
Arguments Build_lan_world {K}.

#[export] Instance lan_world_eta K : Settable (lan_world K) :=
  fun r => Build_lan_world (lw_objs r) (lw_cats r) (lw_kernel r) (lw_posted r) (lw_ub r).

Section compose.
Context {K : Type} `{IpaKernel K} (fds : ipa_fds).
Implicit Types (w : lan_world K).

(** A method of the object [i]; [d] stands for its result where it is undefined. *)
Definition on_obj {A} (d : A) (i : nat) (m : StateM.M (lan_rules * (K * unit)) A) w : A * lan_world K :=
  match lw_objs w !! i with
  | None => (d, w <| lw_ub := true |>)
  | Some o =>
      match m (o, (lw_kernel w, tt)) with
      | None => (d, w <| lw_ub := true |>)
      | Some (x, (o', (k', _))) => (x, w <| lw_objs := <[i := o']> (lw_objs w) |> <| lw_kernel := k' |>)
      end
  end.

(** [add_lan2lan_hdr] succeeds without a handle when there is no tx property of
    the IP type: its caller's variable stays unset. *)
Definition on_hdr (i : nat) (ip : ipa_ip_type) (src dst : list Z) w : Z * Z * lan_world K :=
  let '((r, h), w) := on_obj (IPACM_FAILURE, None) i (LanRules.add_lan2lan_hdr fds ip src dst) w in
  match h with
  | Some h => (r, h, w)
  | None => (r, 0, if r =? IPACM_SUCCESS then w <| lw_ub := true |> else w)
  end.

Definition on_flt (i : nat) (ip : ipa_ip_type) (s4 d4 : Z) (s6 d6 : v6addr) w : Z * Z * lan_world K :=
  let '(h, w) := on_obj None i (LanRules.add_lan2lan_flt_rule fds ip s4 d4 s6 d6) w in
  match h with Some h => (IPACM_SUCCESS, h, w) | None => (IPACM_FAILURE, 0, w) end.

Definition composed_iface : LanIface nat (lan_world K) := {|
  if_category := fun i w => default UNKNOWN_IF (lw_cats w !! i);
  LanToLan.add_lan2lan_hdr := on_hdr;
  LanToLan.add_lan2lan_rt_rule := fun i ip s4 d4 s6 d6 h =>
    on_obj (IPACM_FAILURE, hdls_zero) i (LanRules.add_lan2lan_rt_rule fds ip s4 d4 s6 d6 h);
  LanToLan.add_lan2lan_flt_rule := on_flt;
  LanToLan.del_lan2lan_hdr := fun i ip h => on_obj IPACM_FAILURE i (LanRules.del_lan2lan_hdr fds ip h);
  LanToLan.del_lan2lan_rt_rule := fun i ip h => on_obj IPACM_FAILURE i (LanRules.del_lan2lan_rt_rule fds ip h);
  LanToLan.del_lan2lan_flt_rule := fun i ip h => on_obj IPACM_FAILURE i (LanRules.del_lan2lan_flt_rule fds ip h);
  post_conn := fun e c w => (true, w <| lw_posted := lw_posted w ++ [(e, c)] |>)
|}.
End compose.

(** ** A wired and a wireless interface over the simple kernel *)

Section run.
#[local] Instance run_kernel : IpaKernel SimpleIpa := simple_kernel (fun _ => false).
#[local] Instance run_iface : LanIface nat (lan_world SimpleIpa) := composed_iface simple_fds.

Definition install_dummies (i : nat) (w : lan_world SimpleIpa) : lan_world SimpleIpa :=
  snd (on_obj (0, 0) i ex_install w).

(** Two objects with their dummies, nothing else installed. *)
Definition two_ifaces : lan_world SimpleIpa :=
  install_dummies 1 (install_dummies 0
    {| lw_objs := [ex_rules; ex_rules]; lw_cats := [LAN_IF; WLAN_IF]; lw_kernel := si_init;
       lw_posted := []; lw_ub := false |}).

Definition run_events (es : list (lan_event (Iface := nat))) : option (lan_world SimpleIpa) :=
  snd <$> lan_run false map_to_list es (IPACM_LanToLan_ctor, two_ifaces).

(** The IPv4 counters of the two pools; headers and routing rules installed; filter
    rules installed that are not dummies. *)
Definition flt_counts (w : lan_world SimpleIpa) : list Z :=
  (fun o => num_lan2lan_flt_rule (pool_v4 o)) <$> lw_objs w.
Definition hw_counts (w : lan_world SimpleIpa) : nat * nat * nat :=
  let h := si_hw (lw_kernel w) in
  (size (hw_hdrs h), size (hw_rts h),
   length (List.filter (fun kv => match flt_action kv.2 with IPA_PASS_TO_EXCEPTION => false | _ => true end)
             (map_to_list (hw_flts h)))).

(** Two clients connect: for each direction a header, a routing rule per tx property
    (two) and a filter rule; a disconnect takes all of it back. *)
Lemma connect_installs :
  (fun w => (hw_counts w, flt_counts w, lw_ub w)) <$> run_events ex_pair = Some ((2, 4, 2)%nat, [1; 1], false).
Proof. by vm_compute. Qed.

Lemma disconnect_removes :
  (fun w => (hw_counts w, flt_counts w, lw_ub w)) <$>
    run_events (ex_pair ++ [ev_client IPA_LAN_CLIENT_DISCONNECT 200 1]) = Some ((0, 0, 0)%nat, [0; 0], false).
Proof. by vm_compute. Qed.

(** Composition: after two clients connect, one goes to power save and then
    disconnects, the filter rules of its links have been given back twice; nothing of
    the links is left in the hardware, but the counters of both interfaces read 255,
    and no later request for a filter rule succeeds, in any world with these objects. *)
Theorem sleeping_disconnect_blocks :
  exists w, run_events (ex_pair ++ [ev_client IPA_LAN_CLIENT_POWER_SAVE 200 1; ev_client IPA_LAN_CLIENT_DISCONNECT 200 1]) = Some w /\
    lw_ub w = false /\ hw_counts w = (0, 0, 0)%nat /\ flt_counts w = [255; 255] /\
    forall i s4 d4 s6 d6 (w' : lan_world SimpleIpa), (i < 2)%nat -> lw_objs w' = lw_objs w ->
      (LanToLan.add_lan2lan_flt_rule i IPA_IP_v4 s4 d4 s6 d6 w').1.1 = IPACM_FAILURE.
Proof.
  destruct (run_events _) as [w|] eqn:Er; [|by vm_compute in Er].
  exists w. split; [done|].
  assert ((fun w => (lw_ub w, hw_counts w, flt_counts w)) <$> Some w = Some (false, (0, 0, 0)%nat, [255; 255])) as Hw
    by (rewrite <- Er; by vm_compute).
  change (Some (lw_ub w, hw_counts w, flt_counts w) = Some (false, (0, 0, 0)%nat, [255; 255])) in Hw.
  apply (inj Some), pair_eq in Hw as [[Hub Hhw]%pair_eq Hflt].
  clear Er. split_and!; [done|exact Hhw|done|].
  intros i s4 d4 s6 d6 w' Hi Hobjs. simpl. unfold on_flt, on_obj. rewrite Hobjs.
  assert (exists o, lw_objs w !! i = Some o /\ num_lan2lan_flt_rule (pool_v4 o) = 255) as (o & -> & Ho).
  { assert (flt_counts w !! i = Some 255) as Hc by (rewrite Hflt; by destruct i as [|[|]]; [..|lia]).
    unfold flt_counts in Hc. rewrite list_lookup_fmap in Hc. destruct (lw_objs w !! i) as [o|]; [|done].
    exists o. split; [done|]. by injection Hc. }
  assert (MAX_OFFLOAD_PAIR <= num_lan2lan_flt_rule (pool_v4 o)) as Hfull by (by rewrite Ho).
  by destruct (wp_run _ _ _ (add_flt_full simple_fds IPA_IP_v4 s4 d4 s6 d6 (o, (lw_kernel w', tt))
    ltac:(done) Hfull)) as (r & [o' [k' e']] & -> & -> & _).
Qed.
End run.
