(* ===== verification/NatTable.v ===== *)
(** * The NAT driver library ([ipanat/src/ipa_nat_drvi.c], [ipa_nat_drv.c])

    The library behind the interface of NatDrv.v.  It keeps the NAT table in memory
    that it shares with the hardware: a base table and an expansion table of rules,
    hashed by target and public port, and two index tables hashed by source, which
    point to the rules.  Collisions are chained through the expansion tables.
    Fields the hardware may be looking at are written by DMA commands to the kernel,
    the rest directly.  A handle is a position in [rule_id_array].

    Left out: the table names, the dump of the table to the log and the counting
    functions used by the library's tests; the build with [IPA_ON_R3PC]. *)
From S2P Require Import Prelude Defs Config NatDrv StateM.
From stdpp Require Import base list gmap strings.
From Stdlib Require Import ZArith Lia.

Open Scope Z_scope.
Open Scope method_scope.

Definition EIO : Z := 5.
Definition ENOMEM : Z := 12.
Definition EINVAL : Z := 22.

Definition IPA_NAT_MAX_IP4_TBLS : Z := 1.
Definition IPA_NAT_TABLE_ENTRY_SIZE : Z := 32.
Definition IPA_NAT_INDEX_TABLE_ENTRY_SIZE : Z := 4.
Definition IPA_NAT_RULE_FLAG_FIELD_OFFSET : Z := 18.
Definition IPA_NAT_RULE_NEXT_FIELD_OFFSET : Z := 8.
Definition IPA_NAT_RULE_PROTO_FIELD_OFFSET : Z := 22.
Definition IPA_NAT_INDEX_RULE_NEXT_FIELD_OFFSET : Z := 2.
Definition IPA_NAT_INDEX_RULE_NAT_INDEX_FIELD_OFFSET : Z := 0.
Definition IPA_NAT_FLAG_ENABLE_BIT_MASK : Z := 0x8000.
Definition IPA_NAT_FLAG_DISABLE_BIT_MASK : Z := 0.
Definition IPA_NAT_INVALID_PROTO_FIELD_VALUE : Z := 0xFF00.
Definition IPA_NAT_INVALID_PROTO_FIELD_CMP : Z := 0xFF.
Definition IPA_NAT_INVALID_NAT_ENTRY : Z := 0.
Definition INDX_TBL_ENTRY_SIZE_IN_BITS : Z := 16.
Definition IPA_NAT_RULE_HDL_TBL_TYPE_BITS : Z := 1.
Definition IPA_NAT_RULE_HDL_TBL_TYPE_MASK : Z := 1.
Definition IPPROTO_TCP : Z := 6.
Definition IPPROTO_UDP : Z := 17.

Inductive nat_table_type := IPA_NAT_BASE_TBL | IPA_NAT_EXPN_TBL | IPA_NAT_INDX_TBL | IPA_NAT_INDEX_EXPN_TBL.
Inductive ipa_nat_rule_field_type :=
  | NEXT_INDEX_FIELD | PUBLIC_PORT_FILED | PRIVATE_PORT_FIELD | TARGET_PORT_FIELD | IP_CHKSUM_FIELD
  | ENABLE_FIELD | TIME_STAMP_FIELD | PROTOCOL_FIELD | TCP_UDP_CHKSUM_FIELD | SW_SPEC_PARAM_PREV_INDEX_FIELD
  | SW_SPEC_PARAM_INDX_TBL_ENTRY_FIELD | INDX_TBL_TBL_ENTRY_FIELD | INDX_TBL_NEXT_INDEX_FILED.
Inductive del_type :=
  | IPA_NAT_DEL_TYPE_ONLY_ONE | IPA_NAT_DEL_TYPE_HEAD | IPA_NAT_DEL_TYPE_MIDDLE | IPA_NAT_DEL_TYPE_LAST.

#[export] Instance nat_table_type_eq_dec : EqDecision nat_table_type.
Proof. solve_decision. Defined.
#[export] Instance del_type_eq_dec : EqDecision del_type.
Proof. solve_decision. Defined.

(** ** Data *)

(** [struct ipa_nat_rule]: an entry of the table, by its words; the low half of a
    word comes first in memory. *)
Record ipa_nat_rule := {
  private_ip : Z;
  target_ip : Z;
  nxt_indx_pub_port : Z;
  private_port : Z;
  target_port : Z;
  ip_cksm_enbl : Z;
  ts_proto : Z;
  sw_spec_params : Z;
  tcp_udp_chksum : Z
}.

(** [struct ipa_nat_sw_rule]: the same by its fields, without the reserved ones. *)
Record ipa_nat_sw_rule := {
  sw_private_ip : Z;
  sw_target_ip : Z;
  sw_next_index : Z;
  sw_public_port : Z;
  sw_private_port : Z;
  sw_target_port : Z;
  sw_ip_chksum : Z;
  sw_redirect : Z;
  sw_enable : Z;
  sw_time_stamp : Z;
  sw_protocol : Z;
  sw_prev_index : Z;
  sw_indx_tbl_entry : Z;
  sw_tcp_udp_chksum : Z
}.

(** [struct ipa_nat_indx_tbl_sw_rule]; an entry of an index table is one word. *)
Record ipa_nat_indx_tbl_sw_rule := { ix_tbl_entry : Z; ix_next_index : Z; ix_prev_index : Z }.

(** The memory shared with the hardware. *)
Record nat_mem := {
  rules : list ipa_nat_rule;
  expn_rules : list ipa_nat_rule;
  index_table : list Z;
  index_table_expn : list Z
}.

(** [struct ipa_nat_ip4_table_cache]; the four addresses are set together, into one
    mapping: [Null] before, [Dangling] when the mapping is gone or never was. *)
Record ipa_nat_ip4_table_cache := {
  valid : bool;
  public_addr : Z;
  nat_fd : Z;
  tbl_size : Z;
  tbl_addr_offset : Z;
  nat_addr : cptr nat_mem;
  table_entries : Z;
  expn_table_entries : Z;
  index_expn_table_meta : option (list Z);
  rule_id_array : option (list Z)
}.

(** [struct ipa_nat_cache]; [ip4_tbl] has one element. *)
Record ipa_nat_cache := { ip4_tbl : ipa_nat_ip4_table_cache; ipa_fd : Z; table_cnt : Z }.

#[export] Instance ipa_nat_rule_eta : Settable ipa_nat_rule :=
  fun r => Build_ipa_nat_rule (private_ip r) (target_ip r) (nxt_indx_pub_port r) (private_port r) (target_port r)
    (ip_cksm_enbl r) (ts_proto r) (sw_spec_params r) (tcp_udp_chksum r).
#[export] Instance ipa_nat_sw_rule_eta : Settable ipa_nat_sw_rule :=
  fun r => Build_ipa_nat_sw_rule (sw_private_ip r) (sw_target_ip r) (sw_next_index r) (sw_public_port r)
    (sw_private_port r) (sw_target_port r) (sw_ip_chksum r) (sw_redirect r) (sw_enable r) (sw_time_stamp r)
    (sw_protocol r) (sw_prev_index r) (sw_indx_tbl_entry r) (sw_tcp_udp_chksum r).
#[export] Instance nat_mem_eta : Settable nat_mem :=
  fun r => Build_nat_mem (rules r) (expn_rules r) (index_table r) (index_table_expn r).
#[export] Instance ipa_nat_ip4_table_cache_eta : Settable ipa_nat_ip4_table_cache :=
  fun r => Build_ipa_nat_ip4_table_cache (valid r) (public_addr r) (nat_fd r) (tbl_size r) (tbl_addr_offset r)
    (nat_addr r) (table_entries r) (expn_table_entries r) (index_expn_table_meta r) (rule_id_array r).
#[export] Instance ipa_nat_cache_eta : Settable ipa_nat_cache :=
  fun r => Build_ipa_nat_cache (ip4_tbl r) (ipa_fd r) (table_cnt r).

Definition ipa_nat_rule_zero : ipa_nat_rule :=
  {| private_ip := 0; target_ip := 0; nxt_indx_pub_port := 0; private_port := 0; target_port := 0;
     ip_cksm_enbl := 0; ts_proto := 0; sw_spec_params := 0; tcp_udp_chksum := 0 |}.
Definition table_cache_zero : ipa_nat_ip4_table_cache :=
  {| valid := false; public_addr := 0; nat_fd := 0; tbl_size := 0; tbl_addr_offset := 0; nat_addr := Null;
     table_entries := 0; expn_table_entries := 0; index_expn_table_meta := None; rule_id_array := None |}.
(** The global [ipv4_nat_cache] at the start. *)
Definition ipv4_nat_cache : ipa_nat_cache := {| ip4_tbl := table_cache_zero; ipa_fd := 0; table_cnt := 0 |}.

(** ** Fields *)

(** Halves of a word, and a word of two halves. *)
Definition lo16 (w : Z) : Z := Z.land w 0xFFFF.
Definition hi16 (w : Z) : Z := Z.shiftr w 16.
Definition word (lo hi : Z) : Z := Z.lor lo (Z.shiftl hi 16).

(** [memcpy(&tbl_ptr[entry], rule, sizeof(struct ipa_nat_rule))] *)
Definition rule_words (r : ipa_nat_sw_rule) : ipa_nat_rule :=
  {| private_ip := sw_private_ip r;
     target_ip := sw_target_ip r;
     nxt_indx_pub_port := word (sw_next_index r) (sw_public_port r);
     private_port := sw_private_port r;
     target_port := sw_target_port r;
     ip_cksm_enbl := word (sw_ip_chksum r) (Z.lor (Z.shiftl (sw_redirect r) 14) (Z.shiftl (sw_enable r) 15));
     ts_proto := Z.lor (sw_time_stamp r) (Z.shiftl (sw_protocol r) 24);
     sw_spec_params := word (sw_prev_index r) (sw_indx_tbl_entry r);
     tcp_udp_chksum := sw_tcp_udp_chksum r |}.

Definition Read8BitFieldValue (param : Z) (fld_type : ipa_nat_rule_field_type) : Z :=
  match fld_type with PROTOCOL_FIELD => Z.shiftr param 24 | _ => 0 end.
Definition Read16BitFieldValue (param : Z) (fld_type : ipa_nat_rule_field_type) : Z :=
  match fld_type with
  | NEXT_INDEX_FIELD => lo16 param
  | PUBLIC_PORT_FILED => hi16 param
  | ENABLE_FIELD => Z.shiftr param 31
  | SW_SPEC_PARAM_PREV_INDEX_FIELD => lo16 param
  | SW_SPEC_PARAM_INDX_TBL_ENTRY_FIELD => hi16 param
  | INDX_TBL_TBL_ENTRY_FIELD => lo16 param
  | INDX_TBL_NEXT_INDEX_FILED => hi16 param
  | IP_CHKSUM_FIELD => lo16 param
  | _ => 0
  end.
Definition Read32BitFieldValue (param : Z) (fld_type : ipa_nat_rule_field_type) : Z :=
  match fld_type with TIME_STAMP_FIELD => Z.land param 0xFFFFFF | _ => 0 end.

Inductive sw_param := IPA_NAT_SW_PARAM_PREV_INDX_BYTE | IPA_NAT_SW_PARAM_INDX_TBL_ENTRY_BYTE.

Definition UpdateSwSpecParams (param_type : sw_param) (value : Z) (rule : ipa_nat_rule) : ipa_nat_rule :=
  let temp := sw_spec_params rule in
  let '(value, temp) :=
    match param_type with
    | IPA_NAT_SW_PARAM_INDX_TBL_ENTRY_BYTE =>
        (trunc 32 (Z.shiftl value INDX_TBL_ENTRY_SIZE_IN_BITS), Z.land temp 0x0000FFFF)
    | IPA_NAT_SW_PARAM_PREV_INDX_BYTE => (value, Z.land temp 0xFFFF0000)
    end in
  rule <| sw_spec_params := Z.lor temp value |>.

(** The fields the chains are made of. *)
Definition enabled (r : ipa_nat_rule) : bool := negb (Read16BitFieldValue (ip_cksm_enbl r) ENABLE_FIELD =? 0).
Definition next_of (r : ipa_nat_rule) : Z := Read16BitFieldValue (nxt_indx_pub_port r) NEXT_INDEX_FIELD.
Definition prev_of (r : ipa_nat_rule) : Z := Read16BitFieldValue (sw_spec_params r) SW_SPEC_PARAM_PREV_INDEX_FIELD.
Definition indx_of (r : ipa_nat_rule) : Z := Read16BitFieldValue (sw_spec_params r) SW_SPEC_PARAM_INDX_TBL_ENTRY_FIELD.
Definition ix_entry (w : Z) : Z := Read16BitFieldValue w INDX_TBL_TBL_ENTRY_FIELD.
Definition ix_next (w : Z) : Z := Read16BitFieldValue w INDX_TBL_NEXT_INDEX_FILED.
Definition ix_used (w : Z) : bool := negb (ix_entry w =? IPA_NAT_INVALID_NAT_ENTRY).

(** ** Arithmetic *)

(** [GetNearest2Power]: the loop runs at most sixteen times on a [uint16_t]. *)
Fixpoint nearest2_loop (fuel : nat) (number num tmp : Z) : option Z :=
  match fuel with
  | O => None
  | S fuel =>
      if num =? 1 then Some (if negb (number =? tmp) then trunc 16 (tmp * 2) else tmp)
      else nearest2_loop fuel number (Z.shiftr num 1) (trunc 16 (tmp * 2))
  end.
(** The result and what is stored. *)
Definition GetNearest2Power (num : Z) : option (Z * Z) :=
  if num =? 0 then Some (- EINVAL, 0)
  else if num =? 1 then Some (0, 2)
  else r ← nearest2_loop 17 num num 1; Some (0, r).

(** [GetNearestEven]: the loop adds one to an odd number. *)
Definition GetNearestEven (num : Z) : Z :=
  if num <? 2 then 2 else if num mod 2 =? 0 then num else trunc 16 (num + 1).

Definition dst_hash (trgt_ip trgt_port public_port proto size : Z) : Z :=
  let hash := Z.lxor (Z.lxor (Z.lxor (Z.lxor (trunc 16 trgt_ip) (trunc 16 (Z.shiftr trgt_ip 16))) trgt_port) public_port) proto in
  let hash := Z.land hash size in
  if hash =? 0 then size else hash.

Definition src_hash (priv_ip priv_port trgt_ip trgt_port proto size : Z) : Z :=
  let hash :=
    Z.lxor (Z.lxor (Z.lxor (Z.lxor (Z.lxor (Z.lxor (trunc 16 priv_ip) (trunc 16 (Z.shiftr priv_ip 16))) priv_port)
      (trunc 16 trgt_ip)) (trunc 16 (Z.shiftr trgt_ip 16))) trgt_port) proto in
  let hash := Z.land hash size in
  if hash =? 0 then size else hash.

(** One addition to a checksum with its carry. *)
Definition cksum_add (cksum x : Z) : Z :=
  let cksum := cksum + x in
  if Z.shiftr cksum 16 =? 0 then cksum else Z.land cksum 0x0000FFFF + 1.

(** [~] on 16 and 32 bits. *)
Definition lnot_w (w x : Z) : Z := trunc w (Z.lnot x).

Definition ipa_nati_calc_ip_cksum (pub_ip_addr priv_ip_addr : Z) : Z :=
  let cksum := Z.land pub_ip_addr 0xFFFF in
  let cksum := cksum_add cksum (Z.shiftr pub_ip_addr 16) in
  let priv_ip_addr := lnot_w 32 priv_ip_addr in
  let cksum := cksum_add cksum (Z.land priv_ip_addr 0xFFFF) in
  let cksum := cksum_add cksum (Z.shiftr priv_ip_addr 16) in
  trunc 16 cksum.

Definition ipa_nati_calc_tcp_udp_cksum (pub_ip_addr pub_port priv_ip_addr priv_port : Z) : Z :=
  let cksum := Z.land pub_ip_addr 0xFFFF in
  let cksum := cksum_add cksum (Z.shiftr pub_ip_addr 16) in
  let cksum := cksum_add cksum pub_port in
  let priv_ip_addr := lnot_w 32 priv_ip_addr in
  let cksum := cksum_add cksum (Z.land priv_ip_addr 0xFFFF) in
  let cksum := cksum_add cksum (Z.shiftr priv_ip_addr 16) in
  let priv_port := lnot_w 16 priv_port in
  let cksum := cksum_add cksum priv_port in
  trunc 16 cksum.

(** An element of an array, and its assignment; [None] outside. *)
Definition at_index {A} (l : list A) (i : Z) : option A := if 0 <=? i then l !! Z.to_nat i else None.
Definition upd_index {A} (i : Z) (f : A -> A) (l : list A) : option (list A) :=
  if (0 <=? i) && (i <? Z.of_nat (length l)) then Some (alter f (Z.to_nat i) l) else None.

(** ** The kernel *)

(** [ipa_ioc_nat_dma_one]: write [data] to 16 bits at a byte offset of a table. *)
Record nat_dma_one := { dma_table_index : Z; dma_base_addr : nat_table_type; dma_data : Z; dma_offset : Z }.

(** [ipa_ioc_v4_nat_init], [ipa_ioc_v4_nat_del] *)
Record v4_nat_init := {
  ini_tbl_index : Z; ipv4_rules_offset : Z; expn_rules_offset : Z; index_offset : Z; index_expn_offset : Z;
  ini_table_entries : Z; ini_expn_table_entries : Z; ini_ip_addr : Z
}.
Record v4_nat_del := { del_table_index : Z; del_public_ip_addr : Z }.

(** What a fresh mapping holds, element by element. *)
Record raw_mem := { raw_rule : nat -> ipa_nat_rule; raw_indx : nat -> Z }.

Class NatKernel (W : Type) := {
  nk_malloc : W -> bool * W;
  nk_open : string -> W -> Z * W;
  (** [IPA_IOC_ALLOC_NAT_MEM]: result, the offset it stores *)
  nk_alloc_mem : Z -> Z -> W -> Z * Z * W;
  (** [mmap] of a descriptor: [None] is [MAP_FAILED] *)
  nk_mmap : Z -> Z -> W -> option raw_mem * W;
  nk_munmap : Z -> W -> unit * W;
  nk_close : Z -> W -> Z * W;
  nk_v4_init : Z -> v4_nat_init -> W -> Z * W;
  nk_v4_del : Z -> v4_nat_del -> W -> Z * W;
  (** [IPA_IOC_NAT_DMA]: result, the shared memory afterwards *)
  nk_dma : Z -> list nat_dma_one -> nat_mem -> W -> Z * nat_mem * W
}.

(** ** Chains

    The last entry of the chain that goes on at [nxt_indx]: [Some None] is the
    error of an entry that points to itself; [fuel] bounds the walk. *)
Section chain.
Context {A : Type} (next : A -> Z) (busy : A -> bool).

Fixpoint find_last (fuel : nat) (table_entries : Z) (expn : list A) (prev nxt_indx : Z) : option (option Z) :=
  if nxt_indx =? IPA_NAT_INVALID_NAT_ENTRY then Some (Some prev)
  else
    match fuel with
    | O => None
    | S fuel =>
        let prev := nxt_indx in
        e ← at_index expn (trunc 16 (nxt_indx - table_entries));
        let nxt_indx := next e in
        if prev =? nxt_indx then Some None else find_last fuel table_entries expn prev nxt_indx
    end.

(** [ipa_nati_expn_tbl_free_entry], [ipa_nati_index_expn_get_free_entry]: 0 when the
    expansion table is full. *)
Fixpoint first_free (expn : list A) (cnts : list Z) : option Z :=
  match cnts with
  | [] => Some 0
  | cnt :: cnts => e ← at_index expn cnt; if busy e then first_free expn cnts else Some cnt
  end.
Definition free_entry (expn : list A) (size : Z) : option Z := first_free expn (seqZ 1 (size - 1)).

(** Where an entry for the hash value [new_entry] goes: the entry, 0 if there is
    none, and the entry before it in the chain. *)
Definition place (base expn : list A) (table_entries expn_table_entries new_entry : Z) : option (Z * Z) :=
  h ← at_index base new_entry;
  if negb (busy h) then Some (new_entry, 0)
  else
    r ← (if next h =? IPA_NAT_INVALID_NAT_ENTRY then Some (Some new_entry)
         else find_last (length expn) table_entries expn 0 (next h));
    match r with
    | None => Some (IPA_NAT_INVALID_NAT_ENTRY, 0)
    | Some prev =>
        free ← free_entry expn expn_table_entries;
        if free =? IPA_NAT_INVALID_NAT_ENTRY then Some (IPA_NAT_INVALID_NAT_ENTRY, prev)
        else Some (trunc 16 (free + table_entries), prev)
    end.
End chain.

(** [ipa_nati_generate_tbl_rule]: the entry and the rule to be written there. *)
Definition sw_rule_of (clnt_rule : ipa_nat_ipv4_rule) (pub_ip_addr prev : Z) : ipa_nat_sw_rule :=
  {| sw_private_ip := r_private_ip clnt_rule;
     sw_target_ip := r_target_ip clnt_rule;
     sw_next_index := 0;
     sw_public_port := r_public_port clnt_rule;
     sw_private_port := r_private_port clnt_rule;
     sw_target_port := r_target_port clnt_rule;
     sw_ip_chksum := ipa_nati_calc_ip_cksum pub_ip_addr (r_private_ip clnt_rule);
     sw_redirect := 0;
     sw_enable := 0;
     sw_time_stamp := 0;
     sw_protocol := r_protocol clnt_rule;
     sw_prev_index := prev;
     sw_indx_tbl_entry := 0;
     sw_tcp_udp_chksum :=
       if (IPPROTO_TCP =? r_protocol clnt_rule) || (IPPROTO_UDP =? r_protocol clnt_rule)
       then ipa_nati_calc_tcp_udp_cksum pub_ip_addr (r_public_port clnt_rule) (r_private_ip clnt_rule)
              (r_private_port clnt_rule)
       else 0 |}.

Definition live_mem (c : ipa_nat_ip4_table_cache) : option nat_mem :=
  match nat_addr c with Live m => Some m | _ => None end.

Definition ipa_nati_generate_tbl_rule (clnt_rule : ipa_nat_ipv4_rule) (tbl_ptr : ipa_nat_ip4_table_cache) :
    option (Z * ipa_nat_sw_rule) :=
  m ← live_mem tbl_ptr;
  '(entry, prev) ← place next_of enabled (rules m) (expn_rules m) (table_entries tbl_ptr) (expn_table_entries tbl_ptr)
    (dst_hash (r_target_ip clnt_rule) (r_target_port clnt_rule) (r_public_port clnt_rule) (r_protocol clnt_rule)
      (table_entries tbl_ptr - 1));
  Some (entry, sw_rule_of clnt_rule (public_addr tbl_ptr) prev).

(** [ipa_nati_generate_index_rule], with the check at its end. *)
Definition ipa_nati_generate_index_rule (clnt_rule : ipa_nat_ipv4_rule) (tbl_entry : Z)
    (tbl_ptr : ipa_nat_ip4_table_cache) : option (Z * ipa_nat_indx_tbl_sw_rule) :=
  m ← live_mem tbl_ptr;
  '(entry, prev) ← place ix_next ix_used (index_table m) (index_table_expn m) (table_entries tbl_ptr)
    (expn_table_entries tbl_ptr)
    (src_hash (r_private_ip clnt_rule) (r_private_port clnt_rule) (r_target_ip clnt_rule) (r_target_port clnt_rule)
      (r_protocol clnt_rule) (table_entries tbl_ptr - 1));
  Some (if negb (prev =? 0) && (prev =? entry) then IPA_NAT_INVALID_NAT_ENTRY else entry,
        {| ix_tbl_entry := tbl_entry; ix_next_index := 0; ix_prev_index := prev |}).

(** [ipa_nati_get_entry_offset], [ipa_nati_get_index_entry_offset] *)
Definition ipa_nati_get_entry_offset (cache_ptr : ipa_nat_ip4_table_cache) (tbl_entry : Z) : Z :=
  trunc 32 (IPA_NAT_TABLE_ENTRY_SIZE * tbl_entry + tbl_addr_offset cache_ptr).
Definition ipa_nati_get_index_entry_offset (cache_ptr : ipa_nat_ip4_table_cache) (indx_tbl_entry : Z) : Z :=
  trunc 32 (IPA_NAT_INDEX_TABLE_ENTRY_SIZE * indx_tbl_entry + tbl_addr_offset cache_ptr).

(** The two tables of rules, and the two index tables. *)
Definition rules_at (expn : bool) (m : nat_mem) : list ipa_nat_rule := if expn then expn_rules m else rules m.
Definition put_rules (expn : bool) (l : list ipa_nat_rule) (m : nat_mem) : nat_mem :=
  if expn then m <| expn_rules := l |> else m <| rules := l |>.
Definition index_at (expn : bool) (m : nat_mem) : list Z := if expn then index_table_expn m else index_table m.
Definition put_index (expn : bool) (l : list Z) (m : nat_mem) : nat_mem :=
  if expn then m <| index_table_expn := l |> else m <| index_table := l |>.

(** An assignment to an entry of one of them. *)
Definition upd_rule (expn : bool) (i : Z) (f : ipa_nat_rule -> ipa_nat_rule) (m : nat_mem) : option nat_mem :=
  l ← upd_index i f (rules_at expn m); Some (put_rules expn l m).
Definition upd_index_rule (expn : bool) (i : Z) (f : Z -> Z) (m : nat_mem) : option nat_mem :=
  l ← upd_index i f (index_at expn m); Some (put_index expn l m).

(** The table a number of an entry belongs to, and its position there. *)
Definition in_expn (c : ipa_nat_ip4_table_cache) (entry : Z) : bool := table_entries c <=? entry.
Definition position (c : ipa_nat_ip4_table_cache) (entry : Z) : Z :=
  if in_expn c entry then entry - table_entries c else entry.

(** [ipa_nati_find_rule_pos], [ipa_nati_find_index_rule_pos] *)
Definition ipa_nati_find_rule_pos (expn_tbl : bool) (r : ipa_nat_rule) : del_type :=
  if expn_tbl
  then if next_of r =? IPA_NAT_INVALID_NAT_ENTRY then IPA_NAT_DEL_TYPE_LAST else IPA_NAT_DEL_TYPE_MIDDLE
  else if next_of r =? IPA_NAT_INVALID_NAT_ENTRY then IPA_NAT_DEL_TYPE_ONLY_ONE else IPA_NAT_DEL_TYPE_HEAD.
Definition ipa_nati_find_index_rule_pos (expn_tbl : bool) (w : Z) : del_type :=
  if expn_tbl
  then if ix_next w =? IPA_NAT_INVALID_NAT_ENTRY then IPA_NAT_DEL_TYPE_LAST else IPA_NAT_DEL_TYPE_MIDDLE
  else if ix_next w =? IPA_NAT_INVALID_NAT_ENTRY then IPA_NAT_DEL_TYPE_ONLY_ONE else IPA_NAT_DEL_TYPE_HEAD.

(** [ReorderCmds]: the commands for the index tables go first. *)
Definition is_index_cmd (c : nat_dma_one) : bool :=
  match dma_base_addr c with IPA_NAT_INDX_TBL | IPA_NAT_INDEX_EXPN_TBL => true | _ => false end.
Definition ReorderCmds (malloc_ok : bool) (cmds : list nat_dma_one) : list nat_dma_one :=
  match find_index is_index_cmd cmds with
  | None | Some O => cmds
  | Some n => if malloc_ok then drop n cmds ++ take n cmds else cmds
  end.

(** ** The operations *)

Section operations.
Context {W : Type} `{NatKernel W}.

Abbreviation method := (M (ipa_nat_cache * (W * unit))).

(** [&ipv4_nat_cache.ip4_tbl[tbl_index]]: the array has one element. *)
Definition get_tbl (tbl_index : Z) : method ipa_nat_ip4_table_cache :=
  let* o := get_obj in if tbl_index =? 0 then ret (ip4_tbl o) else ub.
Definition upd_tbl (f : ipa_nat_ip4_table_cache -> ipa_nat_ip4_table_cache) : method unit :=
  upd_obj (fun o => o <| ip4_tbl := f (ip4_tbl o) |>).
Definition get_mem (tbl_index : Z) : method nat_mem := let* c := get_tbl tbl_index in deref (live_mem c).
Definition put_mem (m : nat_mem) : method unit := upd_tbl (fun c => c <| nat_addr := Live m |>).
(** A direct write to the shared memory. *)
Definition write_mem (f : nat_mem -> option nat_mem) : method unit :=
  let* m := get_mem 0 in let* m := deref (f m) in put_mem m.
(** [ioctl(ipa_fd, IPA_IOC_NAT_DMA, cmd)] *)
Definition post_dma (cmds : list nat_dma_one) : method Z :=
  let* o := get_obj in
  let* m := get_mem 0 in
  let* r := hw (fun w => let '(r, m, w) := nk_dma (ipa_fd o) cmds m w in ((r, m), w)) in
  put_mem (snd r) >> ret (fst r).

(** [ipa_nati_make_rule_hdl] *)
Definition rule_id (c : ipa_nat_ip4_table_cache) (tbl_entry : Z) : Z :=
  if table_entries c <=? tbl_entry
  then Z.lor (trunc 16 (Z.shiftl (tbl_entry - table_entries c) IPA_NAT_RULE_HDL_TBL_TYPE_BITS)) IPA_NAT_RULE_HDL_TBL_TYPE_MASK
  else trunc 16 (Z.shiftl tbl_entry IPA_NAT_RULE_HDL_TBL_TYPE_BITS).

Definition ipa_nati_make_rule_hdl (tbl_hdl tbl_entry : Z) : method Z :=
  let* c := get_tbl (tbl_hdl - 1) in
  let* ids := deref (rule_id_array c) in
  let* cells := deref (let n := Z.to_nat (table_entries c + expn_table_entries c) in
                       if (n <=? length ids)%nat then Some (take n ids) else None) in
  match find_index (fun x => x =? IPA_NAT_INVALID_NAT_ENTRY) cells with
  | None => ret 0
  | Some cnt =>
      upd_tbl (fun c => c <| rule_id_array := Some (<[cnt := rule_id c tbl_entry]> ids) |>) >>
      ret (trunc 16 (Z.of_nat cnt + 1))
  end.

(** [ipa_nati_parse_ipv4_rule_hdl]: expansion table or not, the entry. *)
Definition ipa_nati_parse_ipv4_rule_hdl (tbl_index rule_hdl : Z) : method (bool * Z) :=
  let* c := get_tbl tbl_index in
  if table_entries c + expn_table_entries c <=? rule_hdl then ret (false, IPA_NAT_INVALID_NAT_ENTRY)
  else
    let* ids := deref (rule_id_array c) in
    let* rule_id := deref (at_index ids (rule_hdl - 1)) in
    ret (negb (Z.land rule_id IPA_NAT_RULE_HDL_TBL_TYPE_MASK =? 0), Z.shiftr rule_id IPA_NAT_RULE_HDL_TBL_TYPE_BITS).

(** [ipa_nati_write_next_index]: failures are only logged. *)
Definition ipa_nati_write_next_index (tbl_indx : Z) (tbl_type : nat_table_type) (value offset : Z) : method unit :=
  let* ok := hw nk_malloc in
  if negb ok then ret tt
  else
    let* _r := post_dma [ {| dma_table_index := tbl_indx; dma_base_addr := tbl_type; dma_data := value; dma_offset := offset |} ] in
    ret tt.

(** [ipa_nati_copy_ipv4_rule_to_hw], [ipa_nati_copy_ipv4_index_rule_to_hw] *)
Definition ipa_nati_copy_ipv4_rule_to_hw (rule : ipa_nat_sw_rule) (entry tbl_index : Z) : method unit :=
  let* c := get_tbl tbl_index in
  write_mem (upd_rule (in_expn c entry) (position c entry) (fun _ => rule_words rule)) >>
  let prev_entry := sw_prev_index rule in
  if negb (prev_entry =? IPA_NAT_INVALID_NAT_ENTRY) then
    ipa_nati_write_next_index tbl_index (if in_expn c prev_entry then IPA_NAT_EXPN_TBL else IPA_NAT_BASE_TBL) entry
      (trunc 32 (ipa_nati_get_entry_offset c (position c prev_entry) + IPA_NAT_RULE_NEXT_FIELD_OFFSET))
  else ret tt.

Definition ipa_nati_copy_ipv4_index_rule_to_hw (rule : ipa_nat_indx_tbl_sw_rule) (entry tbl_index : Z) : method unit :=
  let* c := get_tbl tbl_index in
  write_mem (upd_index_rule (in_expn c entry) (position c entry) (fun _ => word (ix_tbl_entry rule) (ix_next_index rule))) >>
  let prev_entry := ix_prev_index rule in
  if negb (prev_entry =? IPA_NAT_INVALID_NAT_ENTRY) then
    ipa_nati_write_next_index tbl_index (if in_expn c prev_entry then IPA_NAT_INDEX_EXPN_TBL else IPA_NAT_INDX_TBL) entry
      (trunc 16 (trunc 16 (ipa_nati_get_index_entry_offset c (position c prev_entry)) + IPA_NAT_INDEX_RULE_NEXT_FIELD_OFFSET))
  else ret tt.

(** [ipa_nati_post_ipv4_dma_cmd]: the offset of the mapping counts for the
    expansion table only. *)
Definition ipa_nati_post_ipv4_dma_cmd (tbl_indx entry : Z) : method Z :=
  let* c := get_tbl tbl_indx in
  let* ok := hw nk_malloc in
  if negb ok then ret (- ENOMEM)
  else
    let offset := IPA_NAT_TABLE_ENTRY_SIZE * position c entry + IPA_NAT_RULE_FLAG_FIELD_OFFSET in
    let* r := post_dma [ {| dma_table_index := tbl_indx;
                            dma_base_addr := if in_expn c entry then IPA_NAT_EXPN_TBL else IPA_NAT_BASE_TBL;
                            dma_data := IPA_NAT_FLAG_ENABLE_BIT_MASK;
                            dma_offset := if in_expn c entry then trunc 32 (offset + tbl_addr_offset c) else offset |} ] in
    ret (if negb (r =? 0) then - EIO else 0).

(** [ipa_nati_generate_rule]: [None] is a failure, which writes nothing. *)
Definition ipa_nati_generate_rule (tbl_hdl : Z) (clnt_rule : ipa_nat_ipv4_rule) :
    method (option (ipa_nat_sw_rule * ipa_nat_indx_tbl_sw_rule * Z * Z)) :=
  let* c := get_tbl (tbl_hdl - 1) in
  let* g := deref (ipa_nati_generate_tbl_rule clnt_rule c) in
  let '(tbl_entry, rule) := g in
  if tbl_entry =? IPA_NAT_INVALID_NAT_ENTRY then ret None
  else
    let* g := deref (ipa_nati_generate_index_rule clnt_rule tbl_entry c) in
    let '(indx_tbl_entry, index_sw_rule) := g in
    if indx_tbl_entry =? IPA_NAT_INVALID_NAT_ENTRY then ret None
    else
      (if in_expn c indx_tbl_entry then
         let* meta := deref (index_expn_table_meta c) in
         let* meta := deref (upd_index (position c indx_tbl_entry) (fun _ => ix_prev_index index_sw_rule) meta) in
         upd_tbl (fun c => c <| index_expn_table_meta := Some meta |>)
       else ret tt) >>
      ret (Some (rule <| sw_indx_tbl_entry := indx_tbl_entry |>, index_sw_rule, tbl_entry, indx_tbl_entry)).

(** [ipa_nati_add_ipv4_rule]: the result, and what is stored in [*rule_hdl]. *)
Definition ipa_nati_add_ipv4_rule (tbl_hdl : Z) (clnt_rule : ipa_nat_ipv4_rule) (rule_hdl : Z) : method (Z * Z) :=
  let* g := ipa_nati_generate_rule tbl_hdl clnt_rule in
  match g with
  | None => ret (- EINVAL, rule_hdl)
  | Some (sw_rule, index_sw_rule, new_entry, new_index_tbl_entry) =>
      ipa_nati_copy_ipv4_rule_to_hw sw_rule new_entry (trunc 8 (tbl_hdl - 1)) >>
      ipa_nati_copy_ipv4_index_rule_to_hw index_sw_rule new_index_tbl_entry (trunc 8 (tbl_hdl - 1)) >>
      let* r := ipa_nati_post_ipv4_dma_cmd (trunc 8 (tbl_hdl - 1)) new_entry in
      if negb (r =? 0) then ret (- EIO, rule_hdl)
      else
        let* h := ipa_nati_make_rule_hdl (trunc 16 tbl_hdl) new_entry in
        ret (if h =? 0 then (- EINVAL, h) else (0, h))
  end.

(** The command for the rule in [ipa_nati_post_del_dma_cmd]. *)
Definition del_rule_cmd (tbl_indx : Z) (c : ipa_nat_ip4_table_cache) (cur_tbl_entry : Z) (r : ipa_nat_rule)
    (rule_pos : del_type) : nat_dma_one :=
  let prev_entry := prev_of r in
  let base_addr := if in_expn c prev_entry then IPA_NAT_EXPN_TBL else IPA_NAT_BASE_TBL in
  let next_field := trunc 32 (ipa_nati_get_entry_offset c (position c prev_entry) + IPA_NAT_RULE_NEXT_FIELD_OFFSET) in
  match rule_pos with
  | IPA_NAT_DEL_TYPE_ONLY_ONE =>
      {| dma_table_index := tbl_indx; dma_base_addr := IPA_NAT_BASE_TBL; dma_data := IPA_NAT_FLAG_DISABLE_BIT_MASK;
         dma_offset := trunc 32 (ipa_nati_get_entry_offset c cur_tbl_entry + IPA_NAT_RULE_FLAG_FIELD_OFFSET) |}
  | IPA_NAT_DEL_TYPE_HEAD =>
      {| dma_table_index := tbl_indx; dma_base_addr := IPA_NAT_BASE_TBL; dma_data := IPA_NAT_INVALID_PROTO_FIELD_VALUE;
         dma_offset := trunc 32 (ipa_nati_get_entry_offset c cur_tbl_entry + IPA_NAT_RULE_PROTO_FIELD_OFFSET) |}
  | IPA_NAT_DEL_TYPE_MIDDLE =>
      {| dma_table_index := tbl_indx; dma_base_addr := base_addr; dma_data := next_of r; dma_offset := next_field |}
  | IPA_NAT_DEL_TYPE_LAST =>
      {| dma_table_index := tbl_indx; dma_base_addr := base_addr; dma_data := IPA_NAT_INVALID_NAT_ENTRY;
         dma_offset := next_field |}
  end.

(** The commands for its index entry, which is [w] at [indx_tbl_entry] of its table. *)
Definition del_index_cmds (tbl_indx : Z) (c : ipa_nat_ip4_table_cache) (m : nat_mem) (meta : list Z) (indx_tbl_entry w : Z)
    (indx_rule_pos : del_type) : option (list nat_dma_one) :=
  let cmd base_addr data offset :=
    {| dma_table_index := tbl_indx; dma_base_addr := base_addr; dma_data := data; dma_offset := trunc 32 offset |} in
  let field entry ofs := ipa_nati_get_index_entry_offset c entry + ofs in
  let unlink data :=
    prev_entry ← at_index meta indx_tbl_entry;
    Some [cmd (if in_expn c prev_entry then IPA_NAT_INDEX_EXPN_TBL else IPA_NAT_INDX_TBL) data
            (field (position c prev_entry) IPA_NAT_INDEX_RULE_NEXT_FIELD_OFFSET)] in
  match indx_rule_pos with
  | IPA_NAT_DEL_TYPE_ONLY_ONE =>
      Some [cmd IPA_NAT_INDX_TBL IPA_NAT_INVALID_NAT_ENTRY (field indx_tbl_entry IPA_NAT_INDEX_RULE_NAT_INDEX_FIELD_OFFSET)]
  | IPA_NAT_DEL_TYPE_HEAD =>
      x ← at_index (index_table_expn m) (trunc 16 (ix_next w - table_entries c));
      Some [cmd IPA_NAT_INDX_TBL (ix_entry x) (field indx_tbl_entry IPA_NAT_INDEX_RULE_NAT_INDEX_FIELD_OFFSET);
            cmd IPA_NAT_INDX_TBL (ix_next x) (field indx_tbl_entry IPA_NAT_INDEX_RULE_NEXT_FIELD_OFFSET)]
  | IPA_NAT_DEL_TYPE_MIDDLE => unlink (ix_next w)
  | IPA_NAT_DEL_TYPE_LAST => unlink IPA_NAT_INVALID_NAT_ENTRY
  end.

(** After the commands: the entry of the rule, ... *)
Definition clear_rule (c : ipa_nat_ip4_table_cache) (expn_tbl : bool) (cur_tbl_entry : Z) (rule_pos : del_type) (m : nat_mem) :
    option nat_mem :=
  match rule_pos with
  | IPA_NAT_DEL_TYPE_HEAD => Some m
  | IPA_NAT_DEL_TYPE_MIDDLE =>
      cur ← at_index (rules_at expn_tbl m) cur_tbl_entry;
      m ← upd_rule true (trunc 16 (next_of cur - table_entries c))
            (UpdateSwSpecParams IPA_NAT_SW_PARAM_PREV_INDX_BYTE (prev_of cur)) m;
      upd_rule true cur_tbl_entry (fun _ => ipa_nat_rule_zero) m
  | _ => upd_rule expn_tbl cur_tbl_entry (fun _ => ipa_nat_rule_zero) m
  end.

(** ... and the entry of the index table: of a chain's head, its successor, which
    has moved into it. *)
Definition clear_index (c : ipa_nat_ip4_table_cache) (expn_indx : bool) (indx_tbl_entry indx_next_entry : Z)
    (indx_rule_pos : del_type) (m : nat_mem) (meta : list Z) : option (nat_mem * list Z) :=
  match indx_rule_pos with
  | IPA_NAT_DEL_TYPE_HEAD =>
      x ← at_index (index_table_expn m) indx_next_entry;
      let nn := ix_next x in
      meta ← (if negb (nn =? 0) && (table_entries c <=? nn)
              then upd_index (nn - table_entries c) (fun _ => indx_tbl_entry) meta else Some meta);
      m ← upd_index_rule true indx_next_entry (fun _ => 0) m;
      h ← at_index (index_table m) indx_tbl_entry;
      m ← upd_rule (in_expn c (ix_entry h)) (position c (ix_entry h))
            (UpdateSwSpecParams IPA_NAT_SW_PARAM_INDX_TBL_ENTRY_BYTE indx_tbl_entry) m;
      Some (m, meta)
  | IPA_NAT_DEL_TYPE_MIDDLE =>
      w ← at_index (index_at expn_indx m) indx_tbl_entry;
      p ← at_index meta indx_tbl_entry;
      meta ← upd_index (position c (ix_next w)) (fun _ => p) meta;
      meta ← upd_index indx_tbl_entry (fun _ => IPA_NAT_INVALID_NAT_ENTRY) meta;
      m ← upd_index_rule expn_indx indx_tbl_entry (fun _ => 0) m;
      Some (m, meta)
  | _ => m ← upd_index_rule expn_indx indx_tbl_entry (fun _ => 0) m; Some (m, meta)
  end.

Definition ipa_nati_post_del_dma_cmd (tbl_indx cur_tbl_entry : Z) (expn_tbl : bool) (rule_pos : del_type) : method Z :=
  let* ok := hw nk_malloc in
  if negb ok then ret (- ENOMEM)
  else
    let* c := get_tbl tbl_indx in
    let* m := deref (live_mem c) in
    let* cur := deref (at_index (rules_at expn_tbl m) cur_tbl_entry) in
    if negb (enabled cur) then ret (- EINVAL)
    else
      let indx := indx_of cur in
      let expn_indx := in_expn c indx in
      let indx_tbl_entry := position c indx in
      let* w := deref (at_index (index_at expn_indx m) indx_tbl_entry) in
      let indx_rule_pos := ipa_nati_find_index_rule_pos expn_indx w in
      let indx_next_entry := trunc 16 (ix_next w - table_entries c) in
      let* meta := deref (index_expn_table_meta c) in
      let* icmds := deref (del_index_cmds tbl_indx c m meta indx_tbl_entry w indx_rule_pos) in
      let* ok := hw nk_malloc in
      let* r := post_dma (ReorderCmds ok (del_rule_cmd tbl_indx c cur_tbl_entry cur rule_pos :: icmds)) in
      if negb (r =? 0) then ret (- EIO)
      else
        write_mem (clear_rule c expn_tbl cur_tbl_entry rule_pos) >>
        let* m := get_mem tbl_indx in
        let* t := deref (clear_index c expn_indx indx_tbl_entry indx_next_entry indx_rule_pos m meta) in
        put_mem (fst t) >> upd_tbl (fun c => c <| index_expn_table_meta := Some (snd t) |>) >>
        ret 0.

(** [ipa_nati_del_dead_ipv4_head_nodes] *)
Definition dead_head (r : ipa_nat_rule) : bool :=
  (Read8BitFieldValue (ts_proto r) PROTOCOL_FIELD =? IPA_NAT_INVALID_PROTO_FIELD_CMP) &&
  (next_of r =? IPA_NAT_INVALID_NAT_ENTRY).
Definition ipa_nati_del_dead_ipv4_head_nodes (tbl_indx : Z) : method unit :=
  let* c := get_tbl tbl_indx in
  write_mem (fun m =>
    let n := Z.to_nat (table_entries c) in
    if (n <=? length (rules m))%nat then
      Some (m <| rules := ((fun r => if dead_head r then ipa_nat_rule_zero else r) <$> take n (rules m)) ++ drop n (rules m) |>)
    else None).

(** [ipa_nati_del_ipv4_rule] *)
Definition ipa_nati_del_ipv4_rule (tbl_hdl rule_hdl : Z) : method Z :=
  let tbl_indx := trunc 8 (tbl_hdl - 1) in
  let* p := ipa_nati_parse_ipv4_rule_hdl tbl_indx (trunc 16 rule_hdl) in
  let '(expn_tbl, tbl_entry) := p in
  if tbl_entry =? IPA_NAT_INVALID_NAT_ENTRY then ret (- EINVAL)
  else
    let* c := get_tbl tbl_indx in
    if negb (valid c) then ret (- EINVAL)
    else
      let* m := deref (live_mem c) in
      let* r := deref (at_index (rules_at expn_tbl m) tbl_entry) in
      let* ret_ := ipa_nati_post_del_dma_cmd tbl_indx tbl_entry expn_tbl (ipa_nati_find_rule_pos expn_tbl r) in
      if negb (ret_ =? 0) then ret (- EINVAL)
      else
        ipa_nati_del_dead_ipv4_head_nodes tbl_indx >>
        let* c := get_tbl tbl_indx in
        let* ids := deref (rule_id_array c) in
        let* ids := deref (upd_index (rule_hdl - 1) (fun _ => IPA_NAT_INVALID_NAT_ENTRY) ids) in
        upd_tbl (fun c => c <| rule_id_array := Some ids |>) >> ret 0.

(** [ipa_nati_query_timestamp]: the result, the time stamp. *)
Definition ipa_nati_query_timestamp (tbl_hdl rule_hdl time_stamp : Z) : method (Z * Z) :=
  let tbl_index := trunc 8 (tbl_hdl - 1) in
  let* c := get_tbl tbl_index in
  if negb (valid c) then ret (- EINVAL, time_stamp)
  else
    let* p := ipa_nati_parse_ipv4_rule_hdl tbl_index (trunc 16 rule_hdl) in
    let '(expn_tbl, tbl_entry) := p in
    let* m := deref (live_mem c) in
    let* r := deref (at_index (rules_at expn_tbl m) tbl_entry) in
    ret (0, Read32BitFieldValue (ts_proto r) TIME_STAMP_FIELD).

(** ** Tables *)

(** [ipa_nati_alloc_table]: the result, the two numbers of entries, the size and the
    offset.  The percentages are products with [double]s, which are exact for
    [uint16_t]. *)
Definition ipa_nati_alloc_table (number_of_entries : Z) : method (option (Z * Z * Z * Z)) :=
  let entries := number_of_entries * 8 / 10 in
  let entries := if entries =? 0 then 1 else entries in
  let* r := deref (GetNearest2Power entries) in
  let '(err, table_entries) := r in
  if negb (err =? 0) then ret None
  else
    let expn_table_entries := GetNearestEven (number_of_entries * 2 / 10) in
    let total_entries := trunc 16 (table_entries + expn_table_entries) in
    let size := IPA_NAT_TABLE_ENTRY_SIZE * total_entries + IPA_NAT_INDEX_TABLE_ENTRY_SIZE * total_entries in
    let* o := get_obj in
    let* fd :=
      (if ipa_fd o =? 0 then
         let* fd := hw (nk_open "/dev/ipa") in
         (if fd <? 0 then ret tt else upd_obj (fun o => o <| ipa_fd := fd |>)) >> ret fd
       else ret (ipa_fd o)) in
    if fd <? 0 then ret None
    else
      let* r := hw (fun w => let '(r, ofs, w) := nk_alloc_mem fd size w in ((r, ofs), w)) in
      ret (if negb (fst r =? 0) then None else Some (table_entries, expn_table_entries, size, snd r)).

(** [ipa_nati_update_cache]: a failed allocation returns 0, and [MAP_FAILED] is taken
    for an address. *)
Definition alloc_array (old : option (list Z)) (n : Z) : method (option (list Z)) :=
  match old with
  | Some l => ret (Some l)
  | None => let* ok := hw nk_malloc in ret (if (ok : bool) then Some (replicate (Z.to_nat n) 0) else None)
  end.

Definition ipa_nati_update_cache (size offset public_addr_ tbl_entries expn_tbl_entries : Z) : method Z :=
  let* o := get_obj in
  let* c := get_tbl (table_cnt o) in
  upd_tbl (fun c => c <| valid := true |> <| public_addr := public_addr_ |> <| tbl_size := size |>
                      <| tbl_addr_offset := offset |> <| table_entries := tbl_entries |>
                      <| expn_table_entries := expn_tbl_entries |>) >>
  let* meta := alloc_array (index_expn_table_meta c) expn_tbl_entries in
  upd_tbl (fun c => c <| index_expn_table_meta := meta |>) >>
  match meta with
  | None => ret 0
  | Some _ =>
      let* ids := alloc_array (rule_id_array c) (tbl_entries + expn_tbl_entries) in
      upd_tbl (fun c => c <| rule_id_array := ids |>) >>
      match ids with
      | None => ret 0
      | Some _ =>
          let* fd := hw (nk_open "/dev/ipaNatTable") in
          if fd <? 0 then ret (- EIO)
          else
            upd_tbl (fun c => c <| nat_fd := fd |>) >>
            let* raw := hw (nk_mmap fd size) in
            upd_tbl (fun c => c <| nat_addr :=
              match raw with
              | None => Dangling
              | Some raw =>
                  let n := Z.to_nat tbl_entries in
                  let ne := Z.to_nat expn_tbl_entries in
                  Live {| rules := raw_rule raw <$> seq 0 n; expn_rules := raw_rule raw <$> seq n ne;
                          index_table := raw_indx raw <$> seq 0 n; index_table_expn := raw_indx raw <$> seq n ne |}
              end |>) >>
            ret 0
      end
  end.

(** [ipa_nati_reset_tbl] *)
Definition ipa_nati_reset_tbl (tbl_indx : Z) : method unit :=
  let* c := get_tbl tbl_indx in
  let n := Z.to_nat (table_entries c) in
  let ne := Z.to_nat (expn_table_entries c) in
  write_mem (fun m =>
    Some {| rules := replicate n ipa_nat_rule_zero ++ drop n (rules m);
            expn_rules := replicate ne ipa_nat_rule_zero ++ drop ne (expn_rules m);
            index_table := replicate n 0 ++ drop n (index_table m);
            index_table_expn := replicate ne 0 ++ drop ne (index_table_expn m) |}).

(** [ipa_nati_post_ipv4_init_cmd] *)
Definition ipa_nati_post_ipv4_init_cmd (tbl_index : Z) : method Z :=
  let* o := get_obj in
  let* c := get_tbl tbl_index in
  let offset := tbl_addr_offset c in
  let expn := trunc 32 (offset + table_entries c * IPA_NAT_TABLE_ENTRY_SIZE) in
  let index := trunc 32 (expn + expn_table_entries c * IPA_NAT_TABLE_ENTRY_SIZE) in
  let* r := hw (nk_v4_init (ipa_fd o)
    {| ini_tbl_index := tbl_index; ipv4_rules_offset := offset; expn_rules_offset := expn; index_offset := index;
       index_expn_offset := trunc 32 (index + table_entries c * IPA_NAT_INDEX_TABLE_ENTRY_SIZE);
       ini_table_entries := trunc 16 (table_entries c - 1); ini_expn_table_entries := expn_table_entries c;
       ini_ip_addr := public_addr c |}) in
  ret (if negb (r =? 0) then - EINVAL else 0).

(** [ipa_nati_add_ipv4_tbl]: the result, the handle. *)
Definition ipa_nati_add_ipv4_tbl (public_ip_addr number_of_entries : Z) : method (Z * Z) :=
  let* o := get_obj in
  let tbl_indx := table_cnt o in
  let* a := ipa_nati_alloc_table number_of_entries in
  match a with
  | None => ret (- ENOMEM, 0)
  | Some (table_entries, expn_table_entries, size, offset) =>
      let* r := ipa_nati_update_cache size offset public_ip_addr table_entries expn_table_entries in
      if negb (r =? 0) then ret (- EINVAL, 0)
      else
        ipa_nati_reset_tbl tbl_indx >>
        let* r := ipa_nati_post_ipv4_init_cmd tbl_indx in
        if negb (r =? 0) then ret (- EINVAL, 0)
        else
          upd_obj (fun o => o <| table_cnt := uinc 8 (table_cnt o) |>) >>
          let* o := get_obj in ret (0, table_cnt o)
  end.

(** [ipa_nati_del_ipv4_table]: after [munmap] the addresses are stale until the
    record is cleared, which a failure prevents. *)
Definition ipa_nati_del_ipv4_table (tbl_hdl : Z) : method Z :=
  let index := trunc 8 (tbl_hdl - 1) in
  let* c := get_tbl index in
  if negb (valid c) then ret (- EINVAL)
  else
    let* _u := hw (nk_munmap (tbl_size c)) in
    upd_tbl (fun c => c <| nat_addr := match nat_addr c with Live _ => Dangling | p => p end |>) >>
    let* r := hw (nk_close (nat_fd c)) in
    if negb (r =? 0) then ret (- EINVAL)
    else
      let* o := get_obj in
      let* r := hw (nk_v4_del (ipa_fd o) {| del_table_index := index; del_public_ip_addr := public_addr c |}) in
      if negb (r =? 0) then ret (- EINVAL)
      else
        upd_tbl (fun _ => table_cache_zero) >>
        upd_obj (fun o => o <| table_cnt := udec 8 (table_cnt o) |>) >> ret 0.

(** ** The public functions ([ipa_nat_drv.c]) *)

Definition nat_add_ipv4_tbl (public_ip_addr number_of_entries tbl_hdl : Z) : method (Z * Z) :=
  if number_of_entries =? 0 then ret (- EINVAL, tbl_hdl)
  else
    let* r := ipa_nati_add_ipv4_tbl public_ip_addr number_of_entries in
    ret (if negb (fst r =? 0) then (- EINVAL, snd r) else r).

Definition nat_del_ipv4_tbl (tbl_hdl : Z) : method Z :=
  if (tbl_hdl =? IPA_NAT_INVALID_NAT_ENTRY) || (IPA_NAT_MAX_IP4_TBLS <? tbl_hdl) then ret (- EINVAL)
  else ipa_nati_del_ipv4_table tbl_hdl.

Definition nat_add_ipv4_rule (tbl_hdl : Z) (clnt_rule : ipa_nat_ipv4_rule) (rule_hdl : Z) : method (Z * Z) :=
  if (tbl_hdl =? IPA_NAT_INVALID_NAT_ENTRY) || (IPA_NAT_MAX_IP4_TBLS <? tbl_hdl) then ret (- EINVAL, rule_hdl)
  else
    let* r := ipa_nati_add_ipv4_rule tbl_hdl clnt_rule rule_hdl in
    ret (if negb (fst r =? 0) then (- EINVAL, snd r) else r).

Definition nat_del_ipv4_rule (tbl_hdl rule_hdl : Z) : method Z :=
  if (tbl_hdl =? IPA_NAT_INVALID_NAT_ENTRY) || (rule_hdl =? IPA_NAT_INVALID_NAT_ENTRY) then ret (- EINVAL)
  else ipa_nati_del_ipv4_rule tbl_hdl rule_hdl.

Definition nat_query_timestamp (tbl_hdl rule_hdl time_stamp : Z) : method (Z * Z) :=
  if (tbl_hdl =? 0) || (IPA_NAT_MAX_IP4_TBLS <? tbl_hdl) then ret (- EINVAL, time_stamp)
  else ipa_nati_query_timestamp tbl_hdl rule_hdl time_stamp.
End operations.
