(* ===== verification/NatChain.v ===== *)
(** * Chains of a hash table with an expansion table

    The two pairs of tables of NatTable.v have the same structure: entries of the base
    table start chains that go on through the expansion table.  It is stated here on
    functions of the entry number ([te] entries in the base table, then [ee] in the
    expansion table, entry 0 of each unused), for any kind of entry. *)
From S2P Require Import Prelude Config NatDrv StateM NatTable.
From stdpp Require Import base functions list gmap.
From Stdlib Require Import ZArith Lia.

Open Scope Z_scope.

(** ** Linked segments *)

(** The last element of the chain [x :: l]. *)
Fixpoint lst (x : Z) (l : list Z) : Z := match l with [] => x | y :: l => lst y l end.

Lemma lst_elem x l : lst x l ∈ x :: l.
Proof. revert x. induction l as [|y l IH]; intros x; simpl; [left|right; apply IH]. Qed.

Lemma lst_app x l1 l2 : lst x (l1 ++ l2) = lst (lst x l1) l2.
Proof. revert x. induction l1; intros x; simpl; auto. Qed.

Section links.
Variables (nxt prv : Z -> Z).

Fixpoint links (x : Z) (l : list Z) : Prop :=
  match l with [] => True | y :: l => nxt x = y /\ prv y = x /\ links y l end.

Definition lseg (x : Z) (l : list Z) : Prop := links x l /\ nxt (lst x l) = 0.

Lemma links_app x l1 l2 : links x (l1 ++ l2) <-> links x l1 /\ links (lst x l1) l2.
Proof. revert x. induction l1 as [|y l1 IH]; intros x; simpl; [tauto|]. rewrite IH. tauto. Qed.

(** What surrounds an element of a chain. *)
Lemma lseg_split x l1 e l2 :
  lseg x (l1 ++ e :: l2) ->
  links x l1 /\ nxt (lst x l1) = e /\ prv e = lst x l1 /\ lseg e l2.
Proof. intros [(H1 & H2 & H3 & H4)%links_app H5]. rewrite lst_app in H5. by split_and!. Qed.

Lemma lseg_next x l : lseg x l -> nxt x = default 0 (head l).
Proof. intros [Hl Hn]. destruct l as [|y l]; simpl in *; [done|by destruct Hl]. Qed.
End links.

Lemma links_ext nxt prv nxt' prv' x l :
  links nxt prv x l -> NoDup (x :: l) ->
  (forall y, y ∈ x :: l -> y <> lst x l -> nxt' y = nxt y) -> (forall y, y ∈ l -> prv' y = prv y) ->
  links nxt' prv' x l.
Proof.
  revert x. induction l as [|y l IH]; intros x Hl Hnd Hn Hp; simpl in *; [done|].
  destruct Hl as (H1 & H2 & H3). apply NoDup_cons in Hnd as [Hx Hnd]. split_and!.
  - rewrite Hn; [done|left|]. intros ->. apply Hx, lst_elem.
  - rewrite Hp; [done|left].
  - apply IH; [done|done| |].
    + intros z Hz. apply Hn. by right.
    + intros z Hz. apply Hp. by right.
Qed.

Lemma lseg_ext nxt prv nxt' prv' x l :
  lseg nxt prv x l -> NoDup (x :: l) ->
  (forall y, y ∈ x :: l -> nxt' y = nxt y) -> (forall y, y ∈ l -> prv' y = prv y) -> lseg nxt' prv' x l.
Proof.
  intros [Hl Hz] Hnd Hn Hp. split; [by apply (links_ext nxt prv); auto|]. rewrite Hn; [done|apply lst_elem].
Qed.

(** ** The tables *)

Section store.
Variables (te ee : Z).

(** An entry of the base table that can hold something; of the expansion table; of
    either. *)
Definition in_base (b : Z) : Prop := 1 <= b < te.
Definition in_exp (e : Z) : Prop := te < e < te + ee.
Definition entry_ok (e : Z) : Prop := in_base e \/ in_exp e.

Record store_ok (used : Z -> bool) (nxt prv : Z -> Z) (ch : Z -> list Z) : Prop := {
  so_seg b : in_base b -> used b = true -> lseg nxt prv b (ch b);
  so_none b : ~ (in_base b /\ used b = true) -> ch b = [];
  so_exp b e : e ∈ ch b -> in_exp e /\ used e = true;
  so_all e : in_exp e -> used e = true -> exists b, e ∈ ch b;
  so_inj b b' e : e ∈ ch b -> e ∈ ch b' -> b = b';
  so_nodup b : NoDup (ch b)
}.

Section facts.
Context {used : Z -> bool} {nxt prv : Z -> Z} {ch : Z -> list Z} (S : store_ok used nxt prv ch).

Lemma so_head b e : e ∈ ch b -> in_base b /\ used b = true.
Proof.
  intros He. destruct (decide (1 <= b < te)) as [Hb|Hb].
  - destruct (used b) eqn:Hu; [done|]. rewrite (so_none _ _ _ _ S b) in He; [by apply not_elem_of_nil in He|].
    intros [_ Ht]. congruence.
  - rewrite (so_none _ _ _ _ S b) in He; [by apply not_elem_of_nil in He|]. by intros [? _].
Qed.

Lemma so_nodup' b : in_base b -> NoDup (b :: ch b).
Proof.
  intros Hb. apply NoDup_cons. split; [|apply (so_nodup _ _ _ _ S)]. intros [He _]%(so_exp _ _ _ _ S).
  unfold in_base, in_exp in *. lia.
Qed.

(** Elements of different chains are different. *)
Lemma so_apart b b' x : in_base b -> in_base b' -> b <> b' -> x ∈ b :: ch b -> x ∈ b' :: ch b' -> False.
Proof.
  intros Hb Hb' Hne Hx Hx'. apply elem_of_cons in Hx as [->|Hx]; apply elem_of_cons in Hx' as [Heq|Hx'].
  - congruence.
  - apply (so_exp _ _ _ _ S) in Hx' as [? _]. unfold in_base, in_exp in *. lia.
  - subst. apply (so_exp _ _ _ _ S) in Hx as [? _]. unfold in_base, in_exp in *. lia.
  - by apply Hne, (so_inj _ _ _ _ S b b' x).
Qed.

Lemma so_last b : in_base b -> used b = true ->
  lst b (ch b) ∈ b :: ch b /\ entry_ok (lst b (ch b)) /\ used (lst b (ch b)) = true.
Proof.
  intros Hb Hu. pose proof (lst_elem b (ch b)) as Hl. split; [done|].
  apply elem_of_cons in Hl as [->|Hl]; [by split; [left|]|].
  apply (so_exp _ _ _ _ S) in Hl as [? ?]. by split; [right|].
Qed.

(** A used entry of the expansion table has a place in a chain. *)
Lemma so_place e : in_exp e -> used e = true ->
  exists b l1 l2, in_base b /\ used b = true /\ ch b = l1 ++ e :: l2 /\
    nxt (lst b l1) = e /\ prv e = lst b l1 /\ lseg nxt prv e l2 /\ links nxt prv b l1.
Proof.
  intros He Hu. destruct (so_all _ _ _ _ S e He Hu) as [b Hb]. destruct (so_head b e Hb) as [Hbb Hub].
  apply list_elem_of_split in Hb as (l1 & l2 & Hch). exists b, l1, l2.
  pose proof (so_seg _ _ _ _ S b Hbb Hub) as Hs. rewrite Hch in Hs.
  destruct (lseg_split _ _ _ _ _ _ Hs) as (? & ? & ? & ?). by split_and!.
Qed.

(** The next entry of a used entry is 0 or a used entry of the expansion table. *)
Lemma so_next e : entry_ok e -> used e = true -> nxt e = 0 \/ (in_exp (nxt e) /\ used (nxt e) = true /\ prv (nxt e) = e).
Proof.
  intros He Hu. assert (exists l, lseg nxt prv e l /\ exists b, forall x, x ∈ l -> x ∈ ch b) as (l & Hl & b & Hb).
  { destruct He as [He|He].
    - exists (ch e). split; [by apply (so_seg _ _ _ _ S)|by exists e].
    - destruct (so_place e He Hu) as (b & l1 & l2 & _ & _ & Hch & _ & _ & Hl & _). exists l2. split; [done|]. exists b.
      intros x Hx. rewrite Hch. apply elem_of_app. right. by right. }
  rewrite (lseg_next _ _ _ _ Hl). destruct l as [|y l]; simpl; [by left|right].
  destruct (so_exp _ _ _ _ S b y) as [? ?]; [apply Hb; left|]. by destruct Hl as [(_ & ? & _) _].
Qed.
End facts.

Section steps.
Context {used : Z -> bool} {nxt prv : Z -> Z} {ch : Z -> list Z} (S : store_ok used nxt prv ch).
Variables (used' : Z -> bool) (nxt' prv' : Z -> Z).

(** Nothing changes on the entries in use. *)
Lemma store_same :
  (forall x, entry_ok x -> used' x = used x) ->
  (forall x, entry_ok x -> used x = true -> nxt' x = nxt x) ->
  (forall x, in_exp x -> used x = true -> prv' x = prv x) -> store_ok used' nxt' prv' ch.
Proof.
  intros Hu Hn Hp. split; try apply S.
  - intros b Hb Hub. rewrite Hu in Hub by by left. apply (lseg_ext nxt prv); [by apply S|by apply (so_nodup' S)| |].
    + intros y [->|Hy]%elem_of_cons; [by apply Hn; [left|]|].
      apply (so_exp _ _ _ _ S) in Hy as [? ?]. by apply Hn; [right|].
    + intros y Hy. apply (so_exp _ _ _ _ S) in Hy as [? ?]. auto.
  - intros b Hb. apply (so_none _ _ _ _ S). intros [? ?]. apply Hb. split; [done|]. by rewrite Hu by by left.
  - intros b e He. destruct (so_exp _ _ _ _ S b e He). split; [done|]. by rewrite Hu by by right.
  - intros e He Hue. rewrite Hu in Hue by by right. by apply (so_all _ _ _ _ S).
Qed.

(** An entry of the base table is taken. *)
Lemma store_new b :
  in_base b -> used b = false ->
  (forall x, used' x = if decide (x = b) then true else used x) -> nxt' b = 0 ->
  (forall x, x <> b -> nxt' x = nxt x) -> (forall x, x <> b -> prv' x = prv x) -> store_ok used' nxt' prv' ch.
Proof.
  intros Hb Hub Hu Hn0 Hn Hp. assert (ch b = []) as Hch by (apply (so_none _ _ _ _ S); by intros [_ ?]; congruence).
  assert (forall b' e, e ∈ ch b' -> e <> b) as Hne.
  { intros b' e He ->. apply (so_exp _ _ _ _ S) in He as [? _]. unfold in_base, in_exp in *. lia. }
  split; try apply S.
  - intros b' Hb' Hub'. rewrite Hu in Hub'. destruct (decide (b' = b)) as [->|Hbb].
    + rewrite Hch. by split.
    + apply (lseg_ext nxt prv); [by apply S|by apply (so_nodup' S)| |].
      * intros y [->|Hy]%elem_of_cons; apply Hn; [done|by eapply Hne].
      * intros y Hy. apply Hp. by eapply Hne.
  - intros b' Hb'. destruct (decide (b' = b)) as [->|Hbb]; [done|]. apply (so_none _ _ _ _ S). intros [? ?]. apply Hb'.
    rewrite Hu. by rewrite decide_False.
  - intros b' e He. destruct (so_exp _ _ _ _ S b' e He). split; [done|]. rewrite Hu. by case_decide.
  - intros e He Hue. rewrite Hu in Hue. case_decide; [|by apply (so_all _ _ _ _ S)].
    subst. unfold in_base, in_exp in *. lia.
Qed.

(** A free entry of the expansion table goes to the end of a chain. *)
Lemma store_append b e :
  in_base b -> used b = true -> in_exp e -> used e = false ->
  (forall x, used' x = if decide (x = e) then true else used x) ->
  (forall x, nxt' x = if decide (x = e) then 0 else if decide (x = lst b (ch b)) then e else nxt x) ->
  (forall x, prv' x = if decide (x = e) then lst b (ch b) else prv x) ->
  store_ok used' nxt' prv' (<[b := ch b ++ [e]]> ch).
Proof.
  intros Hb Hub He Hue Hu Hn Hp.
  assert (forall b', e ∉ ch b') as Hnew by (intros b' [_ ?]%(so_exp _ _ _ _ S); congruence).
  assert (forall b', in_base b' -> e ∉ b' :: ch b') as Hnew'.
  { intros b' Hb' [->|Hin]%elem_of_cons; [unfold in_base, in_exp in *; lia|by eapply Hnew]. }
  split.
  - intros b' Hb' Hub'. rewrite Hu in Hub'. rewrite decide_False in Hub' by (unfold in_base, in_exp in *; lia).
    pose proof (so_seg _ _ _ _ S b' Hb' Hub') as Hs. pose proof (so_nodup' S b' Hb') as Hnd.
    destruct (decide (b' = b)) as [->|Hne].
    + rewrite fn_lookup_insert. destruct Hs as [Hl _]. split.
      * apply links_app. split.
        -- apply (links_ext nxt prv); [done|done| |].
           ++ intros y Hy Hyl. rewrite Hn, !decide_False; [done..|]. intros ->. by apply (Hnew' b).
           ++ intros y Hy. rewrite Hp, decide_False; [done|]. intros ->. by apply (Hnew b).
        -- simpl. rewrite Hn, Hp, decide_False, !decide_True by (done || intros Heq; apply (Hnew' b Hb); rewrite <- Heq; apply lst_elem). done.
      * rewrite lst_app. simpl. by rewrite Hn, decide_True.
    + rewrite fn_lookup_insert_ne by done. apply (lseg_ext nxt prv); [done|done| |].
      * intros y Hy. rewrite Hn, !decide_False; [done| |].
        -- intros ->. by eapply (so_apart S b b'); [..|apply lst_elem|].
        -- intros ->. by eapply Hnew'.
      * intros y Hy. rewrite Hp, decide_False; [done|]. intros ->. by eapply Hnew.
  - intros b' Hb'. destruct (decide (b' = b)) as [->|Hne].
    + destruct Hb'. rewrite Hu. split; [done|]. by case_decide.
    + rewrite fn_lookup_insert_ne by done. apply (so_none _ _ _ _ S). intros [? ?]. apply Hb'. split; [done|].
      rewrite Hu. by case_decide.
  - intros b' x Hx. assert (x = e \/ x ∈ ch b') as [->|Hx'].
    { destruct (decide (b' = b)) as [->|Hne]; [rewrite fn_lookup_insert in Hx|rewrite fn_lookup_insert_ne in Hx by done; by right].
      apply elem_of_app in Hx as [?|?%list_elem_of_singleton]; [by right|by left]. }
    + split; [done|]. by rewrite Hu, decide_True.
    + destruct (so_exp _ _ _ _ S b' x Hx'). split; [done|]. rewrite Hu. by case_decide.
  - intros x Hx Hux. rewrite Hu in Hux. case_decide as Heq.
    + subst x. exists b. rewrite fn_lookup_insert. apply elem_of_app. right. left.
    + destruct (so_all _ _ _ _ S x Hx Hux) as [b' Hb']. exists b'. destruct (decide (b' = b)) as [->|Hne].
      * rewrite fn_lookup_insert. apply elem_of_app. by left.
      * by rewrite fn_lookup_insert_ne.
  - assert (forall b' x, x ∈ (<[b := ch b ++ [e]]> ch) b' -> x = e /\ b' = b \/ x ∈ ch b') as Hin.
    { intros b' x Hx. destruct (decide (b' = b)) as [->|Hne]; [rewrite fn_lookup_insert in Hx|rewrite fn_lookup_insert_ne in Hx by done; by right].
      apply elem_of_app in Hx as [?|?%list_elem_of_singleton]; [by right|by left]. }
    intros b1 b2 x H1 H2. apply Hin in H1 as [[-> ->]|H1]; apply Hin in H2 as [[? ->]|H2]; subst; try done.
    + by destruct (Hnew b2).
    + by destruct (Hnew b1).
    + by apply (so_inj _ _ _ _ S b1 b2 x).
  - intros b'. destruct (decide (b' = b)) as [->|Hne]; [rewrite fn_lookup_insert|rewrite fn_lookup_insert_ne by done; apply S].
    apply NoDup_app. split; [apply S|]. split; [|apply NoDup_singleton]. intros x Hx ->%list_elem_of_singleton. by eapply Hnew.
Qed.

(** An entry of the expansion table leaves its chain. *)
Lemma store_remove b l1 e l2 :
  ch b = l1 ++ e :: l2 ->
  (forall x, used' x = if decide (x = e) then false else used x) ->
  (forall x, x <> e -> nxt' x = if decide (x = lst b l1) then nxt e else nxt x) ->
  (forall x, x <> e -> prv' x = if decide (x = nxt e) then lst b l1 else prv x) ->
  store_ok used' nxt' prv' (<[b := l1 ++ l2]> ch).
Proof.
  intros Hch Hu Hn Hp. assert (e ∈ ch b) as Hin by (rewrite Hch; apply elem_of_app; right; left).
  destruct (so_head S b e Hin) as [Hb Hub]. destruct (so_exp _ _ _ _ S b e Hin) as [He Hue].
  pose proof (so_seg _ _ _ _ S b Hb Hub) as Hs. pose proof (so_nodup' S b Hb) as Hnd. rewrite Hch in Hs, Hnd.
  destruct (lseg_split _ _ _ _ _ _ Hs) as (Hl1 & Hpe & Hpv & Hl2). pose proof (lseg_next _ _ _ _ Hl2) as Hne.
  assert (b :: l1 ++ e :: l2 = (b :: l1) ++ e :: l2) as Heq by done. rewrite Heq in Hnd.
  apply NoDup_app in Hnd as (Hnd1 & Hdisj & Hnd2). apply NoDup_cons in Hnd2 as [He2 Hnd2].
  assert (forall x, x ∈ b :: l1 -> x <> e) as Hne1 by (intros x Hx ->; apply (Hdisj e Hx); left).
  assert (lst b l1 <> e) as Hple by apply Hne1, lst_elem.
  assert (nxt e = 0 \/ nxt e ∈ l2) as Hnx by (rewrite Hne; destruct l2; simpl; [by left|right; left]).
  assert (forall x, x ∈ (<[b := l1 ++ l2]> ch) b -> x ∈ ch b /\ x <> e) as Hsub.
  { intros x. rewrite fn_lookup_insert, Hch, !elem_of_app, elem_of_cons. intros [Hx|Hx]; (split; [by eauto|]).
    - apply Hne1. by right.
    - by intros ->. }
  assert (forall b' x, x ∈ (<[b := l1 ++ l2]> ch) b' -> x ∈ ch b' /\ x <> e) as Hsub'.
  { intros b' x Hx. destruct (decide (b' = b)) as [->|Hbb]; [by apply Hsub|]. rewrite fn_lookup_insert_ne in Hx by done.
    split; [done|]. intros ->. by apply Hbb, (so_inj _ _ _ _ S b' b e). }
  split.
  - intros b' Hb' Hub'. destruct (decide (b' = b)) as [->|Hbb].
    + rewrite fn_lookup_insert. clear Hub' Hb'.
      assert (links nxt' prv' b l1) as Hl1'.
      { apply (links_ext nxt prv); [done|done| |].
        - intros y Hy Hyl. rewrite Hn by by apply Hne1. by rewrite decide_False.
        - intros y Hy. assert (y ∈ b :: l1) as Hy' by by right. rewrite Hp by auto. rewrite decide_False; [done|]. intros ->.
          destruct Hnx as [Hz|Hx]; [|by apply (Hdisj _ Hy'); right].
          destruct (so_exp _ _ _ _ S b (nxt e)) as [H1 _]; [rewrite Hch; apply elem_of_app; by left|].
          unfold in_exp, in_base in *. lia. }
      destruct l2 as [|y l2]; simpl in *.
      * rewrite app_nil_r. split; [done|]. rewrite Hn, decide_True by done. done.
      * split; [apply links_app; split; [done|]|rewrite lst_app; simpl].
        -- simpl. rewrite Hn, Hp, Hne, !decide_True by (done || (intros ->; apply He2; left)). split; [done|split; [done|]].
           destruct Hl2 as [(_ & _ & Hl2) _]. apply NoDup_cons in Hnd2 as [Hy2 Hnd2].
           apply (links_ext nxt prv); [done|by apply NoDup_cons| |].
           ++ intros z Hz _. rewrite Hn, decide_False; [done| |intros ->; by apply He2].
              intros ->. apply (Hdisj (lst b l1)); [apply lst_elem|by right].
           ++ intros z Hz. rewrite Hp, decide_False; [done|intros ->; by rewrite Hne in Hz|intros ->; apply He2; by right].
        -- destruct Hl2 as [_ Hz]. simpl in Hz. rewrite Hn, decide_False; [done| |].
           ++ intros Hx. apply (Hdisj (lst y l2)); [rewrite Hx; apply lst_elem|right; apply lst_elem].
           ++ intros Hx. apply He2. rewrite <- Hx. apply lst_elem.
    + rewrite fn_lookup_insert_ne by done. rewrite Hu in Hub'. rewrite decide_False in Hub' by (intros ->; unfold in_base, in_exp in *; lia).
      apply (lseg_ext nxt prv); [by apply S|by apply (so_nodup' S)| |].
      * intros y Hy. assert (y <> e) as Hye.
        { intros ->. eapply (so_apart S b b'); [done|done|done| |exact Hy]. by right. }
        rewrite Hn, decide_False; [done| |done]. intros ->. eapply (so_apart S b b'); [done|done|done| |exact Hy].
        pose proof (lst_elem b l1) as Hx. apply elem_of_cons in Hx as [->|Hx]; [left|right]. rewrite Hch. apply elem_of_app. by left.
      * intros y Hy. assert (y <> e) as Hye by (intros ->; by apply Hbb, (so_inj _ _ _ _ S b' b e)).
        rewrite Hp, decide_False; [done| |done]. intros ->. destruct Hnx as [Hz|Hx].
        -- destruct (so_exp _ _ _ _ S b' (nxt e) Hy) as [? _]. unfold in_base, in_exp in *. lia.
        -- apply Hbb, (so_inj _ _ _ _ S b' b (nxt e)); [done|]. rewrite Hch. apply elem_of_app. right. by right.
  - intros b' Hb'. destruct (decide (b' = b)) as [->|Hbb].
    + destruct Hb'. rewrite Hu. rewrite decide_False; [done|]. intros ->. unfold in_base, in_exp in *; lia.
    + rewrite fn_lookup_insert_ne by done. apply (so_none _ _ _ _ S). intros [Hib ?]. apply Hb'. split; [done|].
      rewrite Hu. rewrite decide_False; [done|]. intros ->. unfold in_base, in_exp in *; lia.
  - intros b' x Hx. destruct (Hsub' b' x Hx) as [Hx' Hxe]. destruct (so_exp _ _ _ _ S b' x Hx'). split; [done|].
    rewrite Hu. by rewrite decide_False.
  - intros x Hx Hux. rewrite Hu in Hux. case_decide as Hxe; [done|].
    destruct (so_all _ _ _ _ S x Hx Hux) as [b' Hb']. exists b'. destruct (decide (b' = b)) as [->|Hbb].
    + rewrite fn_lookup_insert. rewrite Hch, elem_of_app, elem_of_cons in Hb'. apply elem_of_app.
      by destruct Hb' as [?|[?|?]]; [left| |right].
    + by rewrite fn_lookup_insert_ne.
  - intros b1 b2 x [H1 _]%Hsub' [H2 _]%Hsub'. by apply (so_inj _ _ _ _ S b1 b2 x).
  - intros b'. destruct (decide (b' = b)) as [->|Hbb]; [rewrite fn_lookup_insert|rewrite fn_lookup_insert_ne by done; apply S].
    apply NoDup_cons in Hnd1 as [_ Hnd1]. apply NoDup_app. split; [done|]. split; [|done].
    intros x Hx Hx2. apply (Hdisj x); by right.
Qed.
(** Base entries that start no chain are given up, all that [gone] says. *)
Lemma store_sweep (gone : Z -> bool) :
  (forall x, entry_ok x -> gone x = true -> in_base x /\ (used x = true -> nxt x = 0)) ->
  (forall x, entry_ok x -> used' x = used x && negb (gone x)) ->
  (forall x, entry_ok x -> used' x = true -> nxt' x = nxt x) ->
  (forall x, in_exp x -> used' x = true -> prv' x = prv x) -> store_ok used' nxt' prv' ch.
Proof.
  intros Hg Hu Hn Hp.
  assert (forall b x, x ∈ ch b -> used' x = true /\ in_exp x) as Hin.
  { intros b x Hx. destruct (so_exp _ _ _ _ S b x Hx) as [He Hux]. split; [|done]. rewrite Hu, Hux by by right.
    destruct (gone x) eqn:Hgx; [|done]. destruct (Hg x) as [Hb _]; [by right|done|]. unfold in_base, in_exp in *. lia. }
  split; try apply S.
  - intros b Hb Hub. assert (used b = true) as Hub0 by (rewrite Hu in Hub by (by left); by apply andb_true_iff in Hub as [? _]).
    apply (lseg_ext nxt prv); [by apply S|by apply (so_nodup' S)| |].
    + intros y [->|Hy]%elem_of_cons; [by apply Hn; [left|]|]. destruct (Hin b y Hy). by apply Hn; [right|].
    + intros y Hy. by apply Hp; apply (Hin b).
  - intros b Hb. destruct (decide (in_base b /\ used b = true)) as [[Hbb Hub]|Hno]; [|by apply (so_none _ _ _ _ S)].
    assert (nxt b = 0) as Hz.
    { destruct (gone b) eqn:Hgb.
      - destruct (Hg b) as [_ Hz]; [by left|done|auto].
      - destruct Hb. split; [done|]. rewrite Hu by (by left). by rewrite Hub, Hgb. }
    pose proof (lseg_next _ _ _ _ (so_seg _ _ _ _ S b Hbb Hub)) as Hl. destruct (ch b) as [|y l] eqn:Hch; [done|].
    simpl in Hl. destruct (Hin b y) as [_ Hy]; [rewrite Hch; left|]. unfold in_base, in_exp in *. lia.
  - intros b e He. by destruct (Hin b e He).
  - intros e He Hue. apply (so_all _ _ _ _ S e He). rewrite Hu in Hue by by right. by apply andb_true_iff in Hue as [? _].
Qed.

End steps.

Section change.
Context {used : Z -> bool} {nxt prv : Z -> Z} {ch : Z -> list Z} (S : store_ok used nxt prv ch).
Variables (used' : Z -> bool) (nxt' prv' : Z -> Z).

(** The two ways to add an entry, as [place] finds it: [p] is the entry before. *)
Definition placed (b e p : Z) : Prop :=
  (used b = false /\ e = b /\ p = 0) \/ (used b = true /\ in_exp e /\ used e = false /\ p = lst b (ch b)).

Lemma store_place b e p :
  in_base b -> placed b e p ->
  (forall x, entry_ok x -> used' x = if decide (x = e) then true else used x) ->
  nxt' e = 0 -> (forall x, entry_ok x -> x <> e -> nxt' x = if decide (x = p) then e else nxt x) ->
  (in_exp e -> prv' e = p) -> (forall x, in_exp x -> x <> e -> prv' x = prv x) ->
  exists ch', store_ok used' nxt' prv' ch' /\
    forall b' x, in_base b' -> x ∈ b' :: ch' b' -> (x <> e /\ x ∈ b' :: ch b') \/ (x = e /\ b' = b).
Proof.
  intros Hb Hpl Hu Hn0 Hn Hpe Hp.
  destruct Hpl as [(Hub & -> & ->)|(Hub & He & Hue & ->)].
  - exists ch. split.
    + eapply store_same; [apply (store_new S (fun x => if decide (x = b) then true else used x)
        (fun x => if decide (x = b) then 0 else nxt x) prv b)|..]; try done.
      * by case_decide.
      * intros x Hx. by case_decide.
      * intros x Hx Hux. simpl. case_decide as Hxb; [by subst|]. rewrite Hn by done. rewrite decide_False; [done|].
        destruct Hx; unfold in_base, in_exp in *; lia.
      * intros x Hx _. apply Hp; [done|]. unfold in_base, in_exp in *; lia.
    + intros b' x Hb' Hx. destruct (decide (x = b)) as [->|Hne]; [right|by left]. split; [done|].
      apply elem_of_cons in Hx as [->|Hx]; [done|]. apply (so_exp _ _ _ _ S) in Hx as [Hx _].
      unfold in_base, in_exp in *; lia.
  - assert (lst b (ch b) <> e) as Hle.
    { intros Heq. destruct (so_last S b Hb Hub) as (_ & _ & Ht). congruence. }
    eexists. split.
    + eapply store_same; [apply (store_append S (fun x => if decide (x = e) then true else used x)
        (fun x => if decide (x = e) then 0 else if decide (x = lst b (ch b)) then e else nxt x)
        (fun x => if decide (x = e) then lst b (ch b) else prv x) b e)|..]; try done.
      * intros x Hx _. simpl. case_decide as Hxe; [by subst|]. by apply Hn.
      * intros x Hx _. simpl. case_decide as Hxe; [by subst; apply Hpe|]. by apply Hp.
    + intros b' x Hb' Hx. destruct (decide (b' = b)) as [->|Hne].
      * rewrite fn_lookup_insert in Hx. rewrite elem_of_cons, elem_of_app, list_elem_of_singleton in Hx.
        destruct (decide (x = e)) as [->|Hxe]; [by right|left]. split; [done|]. apply elem_of_cons. naive_solver.
      * rewrite fn_lookup_insert_ne in Hx by done. left. split; [|done]. intros ->.
        apply elem_of_cons in Hx as [->|Hx]; [unfold in_base, in_exp in *; lia|].
        apply (so_exp _ _ _ _ S) in Hx as [_ Hx]. congruence.
Qed.

(** The ways to take an entry out: a single entry of the base table, an entry of the
    expansion table; the head of a chain stays. *)
Lemma store_unplace e :
  entry_ok e -> used e = true ->
  (forall x, entry_ok x -> used' x = if decide (x = e /\ (in_exp e \/ nxt e = 0)) then false else used x) ->
  (forall x, entry_ok x -> used' x = true -> nxt' x = if decide (in_exp e /\ x = prv e) then nxt e else nxt x) ->
  (forall x, in_exp x -> used' x = true -> prv' x = if decide (in_exp e /\ x = nxt e) then prv e else prv x) ->
  exists ch', store_ok used' nxt' prv' ch' /\ forall b' x, x ∈ b' :: ch' b' -> x ∈ b' :: ch b'.
Proof.
  intros He Hue Hu Hn Hp. destruct (decide (in_exp e)) as [Hx|Hx].
  - destruct (so_place S e Hx Hue) as (b & l1 & l2 & Hb & Hub & Hch & _ & Hpv & _).
    assert (forall x, entry_ok x -> used' x = if decide (x = e) then false else used x) as Hu'.
    { intros x Hxe. rewrite Hu by done. destruct (decide (x = e)) as [->|Hne]; [rewrite decide_True; auto|].
      by rewrite decide_False by naive_solver. }
    eexists. split.
    + eapply store_same; [apply (store_remove S (fun x => if decide (x = e) then false else used x)
        (fun x => if decide (x = prv e) then nxt e else nxt x) (fun x => if decide (x = nxt e) then prv e else prv x)
        b l1 e l2 Hch)|..]; try done.
      * intros x _. by rewrite Hpv.
      * intros x _. by rewrite Hpv.
      * intros x Hxe Hux. simpl. rewrite Hn by (done || by rewrite Hu' by done).
        destruct (decide (x = prv e)); [by rewrite decide_True|by rewrite decide_False by naive_solver].
      * intros x Hxe Hux. simpl. rewrite Hp by (done || by rewrite Hu' by by right).
        destruct (decide (x = nxt e)); [by rewrite decide_True|by rewrite decide_False by naive_solver].
    + intros b' x [->|Hxx]%elem_of_cons; [left|right]. destruct (decide (b' = b)) as [->|Hne].
      * rewrite fn_lookup_insert in Hxx. rewrite Hch. apply elem_of_app in Hxx as [?|?]; apply elem_of_app; [by left|right; by right].
      * by rewrite fn_lookup_insert_ne in Hxx.
  - exists ch. split; [|done]. apply (store_sweep S used' nxt' prv' (fun x => bool_decide (x = e /\ nxt e = 0))).
    + intros x Hxe [-> Hz]%bool_decide_eq_true. by destruct He.
    + intros x Hxe. rewrite Hu by done. destruct (decide (x = e /\ nxt e = 0)).
      * rewrite bool_decide_eq_true_2, decide_True by naive_solver. by rewrite andb_false_r.
      * rewrite bool_decide_eq_false_2, decide_False by naive_solver. by rewrite andb_true_r.
    + intros x Hxe Hux. rewrite Hn by done. rewrite decide_False; [done|]. by intros [? _].
    + intros x Hxe Hux. rewrite Hp by done. rewrite decide_False; [done|]. by intros [? _].
Qed.
End change.
End store.

(** ** Finding a place *)

Lemma bounded_length (l : list Z) a n :
  NoDup l -> (forall x, x ∈ l -> a <= x < a + Z.of_nat n) -> (length l <= n)%nat.
Proof.
  intros Hnd Hb. assert (length l <= length (seqZ a (Z.of_nat n)))%nat as Hl.
  { apply submseteq_length, NoDup_submseteq; [done|]. intros x Hx. apply elem_of_seqZ. auto. }
  rewrite length_seqZ in Hl. lia.
Qed.

Section place.
Context {A : Type} (next : A -> Z) (busy : A -> bool) (te ee : Z) (base expn : list A) (f : Z -> A) (prv : Z -> Z) (ch : Z -> list Z).
Hypothesis Hee : 2 <= ee.
Hypothesis Hte : 2 <= te.
Hypothesis Hsum : te + ee <= 2 ^ 16.
Hypothesis Hlen : Z.of_nat (length expn) = ee.
Hypothesis Hbase : forall b, in_base te b -> at_index base b = Some (f b).
Hypothesis Hexpn : forall e, in_exp te ee e -> at_index expn (e - te) = Some (f e).
Hypothesis HS : store_ok te ee (fun e => busy (f e)) (fun e => next (f e)) prv ch.

Lemma find_last_ok fuel x l p :
  lseg (fun e => next (f e)) prv x l -> NoDup l -> (forall y, y ∈ l -> in_exp te ee y) -> (length l <= fuel)%nat ->
  find_last next fuel te expn p (next (f x)) = Some (Some (lst p l)).
Proof.
  revert x l p. induction fuel as [|fuel IH]; intros x l p Hl Hnd Hr Hf; pose proof (lseg_next _ _ _ _ Hl) as Hn;
    destruct l as [|y l]; simpl in Hn, Hf; simpl; rewrite Hn; try done; try lia.
  assert (in_exp te ee y) as Hy by (apply Hr; left). destruct (Z.eqb_spec y IPA_NAT_INVALID_NAT_ENTRY) as [Hz|_].
  { unfold in_exp, IPA_NAT_INVALID_NAT_ENTRY in *. lia. }
  assert (trunc 16 (y - te) = y - te) as -> by (apply trunc_id; unfold fits, in_exp in *; lia).
  rewrite Hexpn by done. simpl. assert (lseg (fun e => next (f e)) prv y l) as Hl' by (by destruct Hl as [(_ & _ & ?) ?]).
  apply NoDup_cons in Hnd as [Hyl Hnd]. destruct (Z.eqb_spec y (next (f y))) as [Heq|_].
  - rewrite (lseg_next _ _ _ _ Hl') in Heq. destruct l as [|z l]; simpl in Heq.
    + unfold in_exp in *. lia.
    + subst z. destruct Hyl. left.
  - apply IH; [done|done| |lia]. intros z Hz. apply Hr. by right.
Qed.

Lemma first_free_ok cnts :
  (forall c, c ∈ cnts -> 1 <= c < ee) ->
  exists r, first_free busy expn cnts = Some r /\
    ((r = 0 /\ forall c, c ∈ cnts -> busy (f (te + c)) = true) \/ (r ∈ cnts /\ busy (f (te + r)) = false)).
Proof.
  induction cnts as [|c cnts IH]; intros Hc; simpl.
  - exists 0. split; [done|]. left. split; [done|]. by intros c ?%not_elem_of_nil.
  - assert (at_index expn c = Some (f (te + c))) as ->.
    { rewrite <- (Hexpn (te + c)); [f_equal; lia|]. assert (1 <= c < ee) by (apply Hc; left). unfold in_exp. lia. }
    simpl. destruct (busy (f (te + c))) eqn:Hb.
    + destruct IH as (r & Hr & Hcase); [intros; apply Hc; by right|]. exists r. split; [done|].
      destruct Hcase as [[-> Hall]|[Hin Hfree]]; [left|right].
      * split; [done|]. intros d [->|Hd]%elem_of_cons; auto.
      * split; [by right|done].
    + exists c. split; [done|]. right. split; [left|done].
Qed.

Lemma free_entry_ok :
  exists r, free_entry busy expn ee = Some r /\
    ((r = 0 /\ forall e, in_exp te ee e -> busy (f e) = true) \/ (in_exp te ee (te + r) /\ busy (f (te + r)) = false)).
Proof.
  destruct (first_free_ok (seqZ 1 (ee - 1))) as (r & Hr & Hcase); [intros c Hc%elem_of_seqZ; lia|].
  exists r. split; [done|]. destruct Hcase as [[-> Hall]|[Hin%elem_of_seqZ Hfree]]; [left|right].
  - split; [done|]. intros e He. replace e with (te + (e - te)) by lia. apply Hall, elem_of_seqZ. unfold in_exp in *. lia.
  - split; [unfold in_exp; lia|done].
Qed.

Lemma place_ok b :
  in_base te b ->
  (busy (f b) = false /\ place next busy base expn te ee b = Some (b, 0)) \/
  (busy (f b) = true /\ (forall e, in_exp te ee e -> busy (f e) = true) /\
     exists p, place next busy base expn te ee b = Some (0, p)) \/
  (busy (f b) = true /\ exists e, in_exp te ee e /\ busy (f e) = false /\
     place next busy base expn te ee b = Some (e, lst b (ch b))).
Proof.
  intros Hb. unfold place. rewrite Hbase by done. simpl. destruct (busy (f b)) eqn:Hbusy; simpl; [right|by left].
  pose proof (so_seg _ _ _ _ _ _ HS b Hb Hbusy) as Hs. pose proof (lseg_next _ _ _ _ Hs) as Hn.
  assert ((if next (f b) =? IPA_NAT_INVALID_NAT_ENTRY then Some (Some b)
    else find_last next (length expn) te expn 0 (next (f b))) = Some (Some (lst b (ch b)))) as ->.
  { assert (forall y, y ∈ ch b -> in_exp te ee y) as Hr by (intros y Hy; by apply (so_exp _ _ _ _ _ _ HS) in Hy as [? _]).
    destruct (Z.eqb_spec (next (f b)) IPA_NAT_INVALID_NAT_ENTRY) as [Hz|Hz].
    - destruct (ch b) as [|y l]; simpl in *; [done|]. assert (in_exp te ee y) by (apply Hr; left).
      unfold in_exp, IPA_NAT_INVALID_NAT_ENTRY in *. lia.
    - rewrite (find_last_ok (length expn) b (ch b) 0); [|done|apply HS|done|].
      + destruct (ch b) as [|y l]; simpl in *; [done|done].
      + apply (bounded_length _ te); [apply HS|]. intros y Hy. specialize (Hr y Hy). unfold in_exp in *. lia. }
  simpl. destruct free_entry_ok as (r & -> & Hr). simpl. destruct Hr as [[-> Hall]|[Hin Hfree]].
  - left. split; [done|]. split; [done|]. by eexists.
  - right. split; [done|]. exists (te + r). split; [done|]. split; [done|].
    destruct (Z.eqb_spec r IPA_NAT_INVALID_NAT_ENTRY) as [Hz|_]; [unfold in_exp, IPA_NAT_INVALID_NAT_ENTRY in *; lia|].
    rewrite trunc_id by (unfold fits, in_exp in *; lia). by rewrite Z.add_comm.
Qed.
End place.
