(* ===== verification/NatTableInv.v ===== *)
(** * The invariant of the NAT table

    The memory of the table as two functions of the entry number, what the writes of
    NatTable.v do to them, the laws of the kernel's DMA commands, and the invariant
    under which the table is a map from handles to rules. *)
From S2P Require Import Prelude Config NatDrv StateM NatTable NatChain.
From stdpp Require Import base functions list gmap.
From Stdlib Require Import ZArith Lia.

Open Scope Z_scope.

(** [lia] with division and remainder. *)
Ltac dlia := Z.to_euclidean_division_equations; lia.

(** ** Words *)

Lemma lo16_mod w : lo16 w = w mod 65536.
Proof. unfold lo16. change 0xFFFF with (Z.ones 16). rewrite Z.land_ones by lia. done. Qed.
Lemma hi16_div w : hi16 w = w / 65536.
Proof. unfold hi16. rewrite Z.shiftr_div_pow2 by lia. done. Qed.

(** A number below [2 ^ n] and one shifted by [n] have no bit in common. *)
Lemma lor_shiftl a b n : 0 <= n -> fits n a -> Z.lor a (Z.shiftl b n) = a + b * 2 ^ n.
Proof.
  intros Hn [H0 Ha]. assert (Z.land a (Z.shiftl b n) = 0) as Hz.
  { apply Z.bits_inj'. intros i Hi. rewrite Z.land_spec, Z.bits_0, Z.shiftl_spec by done. destruct (Z.ltb_spec i n).
    - rewrite (Z.testbit_neg_r b) by lia. apply andb_false_r.
    - replace a with (a mod 2 ^ n) by (by apply Z.mod_small). by rewrite Z.mod_pow2_bits_high by lia. }
  rewrite <- Z.shiftl_mul_pow2 by done. by rewrite Z.add_nocarry_lxor, Z.lxor_lor.
Qed.

Lemma word_eq lo hi : fits 16 lo -> word lo hi = lo + hi * 65536.
Proof. intros Hl. unfold word. by rewrite lor_shiftl. Qed.
Lemma lo16_fits w : fits 16 (lo16 w).
Proof. rewrite lo16_mod. unfold fits. dlia. Qed.
Lemma lo16_word lo hi : fits 16 lo -> lo16 (word lo hi) = lo.
Proof. intros Hl. rewrite lo16_mod, word_eq by done. unfold fits in *. dlia. Qed.
Lemma hi16_word lo hi : fits 16 lo -> hi16 (word lo hi) = hi.
Proof. intros Hl. rewrite hi16_div, word_eq by done. unfold fits in *. dlia. Qed.
Lemma word_fits lo hi : fits 16 lo -> fits 16 hi -> fits 32 (word lo hi).
Proof. intros Hl Hh. rewrite word_eq by done. unfold fits in *. lia. Qed.
Lemma hi16_fits w : fits 32 w -> fits 16 (hi16 w).
Proof. rewrite hi16_div. unfold fits. intros. dlia. Qed.

(** ** The fields of a rule *)

Definition proto_of (r : ipa_nat_rule) : Z := Read8BitFieldValue (ts_proto r) PROTOCOL_FIELD.
(** The client's rule in an entry. *)
Definition client_rule (r : ipa_nat_rule) : ipa_nat_ipv4_rule :=
  {| r_target_ip := target_ip r; r_private_ip := private_ip r; r_target_port := target_port r;
     r_private_port := private_port r; r_public_port := hi16 (nxt_indx_pub_port r); r_protocol := proto_of r |}.
(** An entry that holds a rule: a head whose rule was deleted is enabled, with an
    invalid protocol. *)
Definition alive (r : ipa_nat_rule) : bool := enabled r && negb (proto_of r =? IPA_NAT_INVALID_PROTO_FIELD_CMP).

Definition set_next (d : Z) (r : ipa_nat_rule) : ipa_nat_rule :=
  r <| nxt_indx_pub_port := word d (hi16 (nxt_indx_pub_port r)) |>.
Definition set_flag (d : Z) (r : ipa_nat_rule) : ipa_nat_rule := r <| ip_cksm_enbl := word (lo16 (ip_cksm_enbl r)) d |>.
Definition set_proto (d : Z) (r : ipa_nat_rule) : ipa_nat_rule := r <| ts_proto := word (lo16 (ts_proto r)) d |>.
Definition set_prev (p : Z) (r : ipa_nat_rule) : ipa_nat_rule :=
  r <| sw_spec_params := word p (hi16 (sw_spec_params r)) |>.
Definition set_indx (i : Z) (r : ipa_nat_rule) : ipa_nat_rule :=
  r <| sw_spec_params := word (lo16 (sw_spec_params r)) i |>.

Lemma update_prev p r : fits 16 p -> fits 32 (sw_spec_params r) ->
  UpdateSwSpecParams IPA_NAT_SW_PARAM_PREV_INDX_BYTE p r = set_prev p r.
Proof.
  intros Hp Hw. unfold UpdateSwSpecParams, set_prev. cbv zeta beta iota.
  assert (Z.land (sw_spec_params r) 0xFFFF0000 = Z.shiftl (hi16 (sw_spec_params r)) 16) as ->.
  { change 0xFFFF0000 with (Z.shiftl (Z.ones 16) 16). unfold hi16. apply Z.bits_inj'. intros i Hi.
    rewrite Z.land_spec, !Z.shiftl_spec by done. destruct (Z.ltb_spec i 16).
    - by rewrite !(Z.testbit_neg_r _ (i - 16)), andb_false_r by lia.
    - rewrite Z.shiftr_spec by lia. replace (i - 16 + 16) with i by lia. destruct (Z.ltb_spec i 32).
      + rewrite Z.ones_spec_low by lia. apply andb_true_r.
      + rewrite Z.ones_spec_high, andb_false_r by lia. replace (sw_spec_params r) with (sw_spec_params r mod 2 ^ 32)
          by (apply Z.mod_small; unfold fits in Hw; lia). by rewrite Z.mod_pow2_bits_high by lia. }
  unfold word. by rewrite Z.lor_comm.
Qed.

Lemma update_indx i r : fits 16 i -> UpdateSwSpecParams IPA_NAT_SW_PARAM_INDX_TBL_ENTRY_BYTE i r = set_indx i r.
Proof.
  intros Hi. unfold UpdateSwSpecParams, set_indx, word, lo16, INDX_TBL_ENTRY_SIZE_IN_BITS. cbv zeta beta iota.
  rewrite trunc_id; [done|]. rewrite Z.shiftl_mul_pow2 by lia. unfold fits in *. lia.
Qed.

Section views.
Implicit Types r : ipa_nat_rule.

Lemma next_set_next d r : fits 16 d -> next_of (set_next d r) = d.
Proof. apply lo16_word. Qed.
Lemma client_set_next d r : fits 16 d -> client_rule (set_next d r) = client_rule r.
Proof. intros Hd. unfold client_rule, set_next. cbn. by rewrite hi16_word. Qed.
Lemma enabled_flag_on r : enabled (set_flag IPA_NAT_FLAG_ENABLE_BIT_MASK r) = true.
Proof.
  unfold enabled, set_flag, IPA_NAT_FLAG_ENABLE_BIT_MASK. cbn. rewrite word_eq by apply lo16_fits.
  pose proof (lo16_fits (ip_cksm_enbl r)). rewrite Z.shiftr_div_pow2 by lia. apply negb_true_iff, Z.eqb_neq.
  unfold fits in *. dlia.
Qed.
Lemma proto_killed r : proto_of (set_proto IPA_NAT_INVALID_PROTO_FIELD_VALUE r) = IPA_NAT_INVALID_PROTO_FIELD_CMP.
Proof.
  unfold proto_of, set_proto, IPA_NAT_INVALID_PROTO_FIELD_VALUE, IPA_NAT_INVALID_PROTO_FIELD_CMP. cbn.
  rewrite word_eq by apply lo16_fits. pose proof (lo16_fits (ts_proto r)). rewrite Z.shiftr_div_pow2 by lia.
  unfold fits in *. dlia.
Qed.
Lemma prev_set_prev p r : fits 16 p -> prev_of (set_prev p r) = p.
Proof. apply lo16_word. Qed.
Lemma indx_set_prev p r : fits 16 p -> indx_of (set_prev p r) = indx_of r.
Proof. apply hi16_word. Qed.
Lemma prev_set_indx i r : prev_of (set_indx i r) = prev_of r.
Proof. apply lo16_word, lo16_fits. Qed.
Lemma indx_set_indx i r : indx_of (set_indx i r) = i.
Proof. apply hi16_word, lo16_fits. Qed.
End views.

(** A client's rule that the table can hold. *)
Record rule_ok (r : ipa_nat_ipv4_rule) : Prop := {
  ok_target_ip : fits 32 (r_target_ip r);
  ok_private_ip : fits 32 (r_private_ip r);
  ok_target_port : fits 16 (r_target_port r);
  ok_private_port : fits 16 (r_private_port r);
  ok_public_port : fits 16 (r_public_port r);
  ok_protocol : 0 <= r_protocol r < IPA_NAT_INVALID_PROTO_FIELD_CMP
}.

(** The entry a new rule is written as. *)
Definition new_rule (clnt : ipa_nat_ipv4_rule) (pub prev indx : Z) : ipa_nat_rule :=
  rule_words (sw_rule_of clnt pub prev <| sw_indx_tbl_entry := indx |>).

Lemma new_rule_views clnt pub prev indx :
  rule_ok clnt -> fits 16 prev ->
  let r := new_rule clnt pub prev indx in
  enabled r = false /\ next_of r = 0 /\ prev_of r = prev /\ indx_of r = indx /\ client_rule r = clnt.
Proof.
  intros Hc Hp r. split_and!.
  - unfold enabled, r. cbn. rewrite word_eq by (apply trunc_fits; lia).
    assert (fits 16 (ipa_nati_calc_ip_cksum pub (r_private_ip clnt))) as Hf by (apply trunc_fits; lia).
apply negb_false_iff, Z.eqb_eq. change (Z.lor (Z.shiftl 0 14) (Z.shiftl 0 15)) with 0.
rewrite Z.shiftr_div_pow2 by lia. unfold fits in *. apply Z.div_small. lia.
  - by apply lo16_word.
  - by apply lo16_word.
  - by apply hi16_word.
  - unfold client_rule, r, proto_of. cbn. rewrite hi16_word by done. rewrite ?Z.lor_0_l, Z.shiftr_shiftl_l, Z.sub_diag, Z.shiftl_0_r by lia. by destruct clnt.
Qed.

(** ** The kernel's DMA commands

    A command writes 16 bits at a byte offset of one of the four tables.  Of the
    entries of a rule only the fields the library writes in this way are followed. *)
Definition write16 (ofs data : Z) (r : ipa_nat_rule) : option ipa_nat_rule :=
  if ofs =? IPA_NAT_RULE_NEXT_FIELD_OFFSET then Some (set_next data r)
  else if ofs =? IPA_NAT_RULE_FLAG_FIELD_OFFSET then Some (set_flag data r)
  else if ofs =? IPA_NAT_RULE_PROTO_FIELD_OFFSET then Some (set_proto data r)
  else None.
Definition write16_index (ofs data w : Z) : option Z :=
  if ofs =? IPA_NAT_INDEX_RULE_NAT_INDEX_FIELD_OFFSET then Some (word data (hi16 w))
  else if ofs =? IPA_NAT_INDEX_RULE_NEXT_FIELD_OFFSET then Some (word (lo16 w) data)
  else None.

Definition dma_rule (expn : bool) (d : nat_dma_one) (m : nat_mem) : option nat_mem :=
  let i := dma_offset d / IPA_NAT_TABLE_ENTRY_SIZE in
  r ← at_index (rules_at expn m) i;
  r ← write16 (dma_offset d mod IPA_NAT_TABLE_ENTRY_SIZE) (dma_data d) r;
  upd_rule expn i (fun _ => r) m.
Definition dma_index (expn : bool) (d : nat_dma_one) (m : nat_mem) : option nat_mem :=
  let i := dma_offset d / IPA_NAT_INDEX_TABLE_ENTRY_SIZE in
  w ← at_index (index_at expn m) i;
  w ← write16_index (dma_offset d mod IPA_NAT_INDEX_TABLE_ENTRY_SIZE) (dma_data d) w;
  upd_index_rule expn i (fun _ => w) m.
Definition dma_write (d : nat_dma_one) (m : nat_mem) : option nat_mem :=
  match dma_base_addr d with
  | IPA_NAT_BASE_TBL => dma_rule false d m
  | IPA_NAT_EXPN_TBL => dma_rule true d m
  | IPA_NAT_INDX_TBL => dma_index false d m
  | IPA_NAT_INDEX_EXPN_TBL => dma_index true d m
  end.
Fixpoint dma_writes (cmds : list nat_dma_one) (m : nat_mem) : option nat_mem :=
  match cmds with [] => Some m | d :: cmds => m ← dma_write d m; dma_writes cmds m end.

(** A command list is executed, or refused and nothing happens; the memory of a
    table lies at offset 0 of its mapping. *)
Class NatKernelOk (W : Type) `{NatKernel W} : Prop := {
  ok_dma fd cmds m w :
    let '(r, m', w') := nk_dma fd cmds m w in (r = 0 /\ dma_writes cmds m = Some m') \/ (r <> 0 /\ m' = m);
  ok_alloc fd size w : let '(r, ofs, w') := nk_alloc_mem fd size w in r = 0 -> ofs = 0
}.

(** A kernel with memory, which executes the commands that make sense. *)
Class NatReliable (W : Type) `{NatKernelOk W} : Prop := {
  rel_nk_malloc w : (nk_malloc w).1 = true;
  rel_dma fd cmds m m' w : dma_writes cmds m = Some m' -> (nk_dma fd cmds m w).1.1 = 0
}.

(** ** Memory as functions *)

Lemma at_index_Some {A} (l : list A) i x : at_index l i = Some x <-> 0 <= i /\ l !! Z.to_nat i = Some x.
Proof. unfold at_index. destruct (Z.leb_spec 0 i); naive_solver lia. Qed.

Lemma upd_index_ok {A} (i : Z) (f : A -> A) l :
  0 <= i < Z.of_nat (length l) ->
  exists l', upd_index i f l = Some l' /\ length l' = length l /\
    forall j, at_index l' j = if decide (j = i) then f <$> at_index l i else at_index l j.
Proof.
  intros Hi. unfold upd_index. rewrite (proj2 (Z.leb_le _ _)), (proj2 (Z.ltb_lt _ _)) by lia. simpl.
  eexists. split; [done|]. split; [apply length_alter|]. intros j. unfold at_index.
  destruct (decide (j = i)) as [->|Hne].
  - rewrite (proj2 (Z.leb_le _ _)) by lia. apply list_lookup_alter_eq.
  - destruct (Z.leb_spec 0 j); [|done]. apply list_lookup_alter_ne. lia.
Qed.

Section memory.
Variables (te ee : Z).

(** A pair of arrays holds the values of a function of the entry number. *)
Record arrays {A} (base expn : list A) (f : Z -> A) : Prop := {
  arr_base : Z.of_nat (length base) = te;
  arr_expn : Z.of_nat (length expn) = ee;
  arr_lo e : 0 <= e < te -> at_index base e = Some (f e);
  arr_hi e : te <= e < te + ee -> at_index expn (e - te) = Some (f e)
}.

Definition mem_rep (m : nat_mem) (fr : Z -> ipa_nat_rule) (fi : Z -> Z) : Prop :=
  arrays (rules m) (expn_rules m) fr /\ arrays (index_table m) (index_table_expn m) fi.

Context (c : ipa_nat_ip4_table_cache).
Hypothesis Htec : table_entries c = te.

Lemma position_bounds e : 0 <= e < te + ee ->
  0 <= position c e /\ (in_expn c e = true -> position c e = e - te /\ te <= e) /\
  (in_expn c e = false -> position c e = e /\ e < te).
Proof. intros He. unfold position, in_expn. rewrite Htec. destruct (Z.leb_spec te e); split_and!; intros; try done; lia. Qed.

Lemma arrays_at {A} (base expn : list A) f e :
  arrays base expn f -> 0 <= e < te + ee ->
  at_index (if in_expn c e then expn else base) (position c e) = Some (f e).
Proof.
  intros [_ _ Hlo Hhi] He. destruct (position_bounds e He) as (_ & H1 & H2).
  destruct (in_expn c e).
  - destruct H1 as [-> ?]; [done|]. apply Hhi. lia.
  - destruct H2 as [-> ?]; [done|]. apply Hlo. lia.
Qed.

Lemma arrays_upd {A} (base expn : list A) f e (g : A -> A) :
  arrays base expn f -> 0 <= e < te + ee ->
  exists l, upd_index (position c e) g (if in_expn c e then expn else base) = Some l /\
    arrays (if in_expn c e then base else l) (if in_expn c e then l else expn) (<[e := g (f e)]> f).
Proof.
  intros [H1 H2 Hlo Hhi] He. destruct (position_bounds e He) as (Hp & Hx & Hb).
  destruct (in_expn c e).
  - destruct Hx as [Hx ?]; [done|]. destruct (upd_index_ok (position c e) g expn) as (l & Hl & Hlen & Hat); [lia|].
    exists l. split; [done|]. split; [done|lia| |].
    + intros j Hj. rewrite fn_lookup_insert_ne by lia. by apply Hlo.
    + intros j Hj. rewrite Hat, Hx. destruct (decide (j = e)) as [->|Hne].
      * rewrite decide_True, fn_lookup_insert by done. by rewrite Hhi by lia.
      * rewrite decide_False, fn_lookup_insert_ne by lia. by apply Hhi.
  - destruct Hb as [Hb ?]; [done|]. destruct (upd_index_ok (position c e) g base) as (l & Hl & Hlen & Hat); [lia|].
    exists l. split; [done|]. split; [lia|done| |].
    + intros j Hj. rewrite Hat, Hb. destruct (decide (j = e)) as [->|Hne].
      * rewrite fn_lookup_insert. by rewrite Hlo.
      * rewrite fn_lookup_insert_ne by lia. by apply Hlo.
    + intros j Hj. rewrite fn_lookup_insert_ne by lia. by apply Hhi.
Qed.

Lemma rule_at m fr fi e : mem_rep m fr fi -> 0 <= e < te + ee -> at_index (rules_at (in_expn c e) m) (position c e) = Some (fr e).
Proof. intros [Hr _] He. apply (arrays_at _ _ _ e Hr He). Qed.
Lemma indx_at m fr fi e : mem_rep m fr fi -> 0 <= e < te + ee -> at_index (index_at (in_expn c e) m) (position c e) = Some (fi e).
Proof. intros [_ Hi] He. apply (arrays_at _ _ _ e Hi He). Qed.

Lemma upd_rule_ok m fr fi e g :
  mem_rep m fr fi -> 0 <= e < te + ee ->
  exists m', upd_rule (in_expn c e) (position c e) g m = Some m' /\ mem_rep m' (<[e := g (fr e)]> fr) fi.
Proof.
  intros [Hr Hi] He. destruct (arrays_upd _ _ _ e g Hr He) as (l & Hl & Ha).
  unfold upd_rule, rules_at. rewrite Hl. simpl. eexists. split; [done|]. by destruct (in_expn c e).
Qed.
Lemma upd_index_rule_ok m fr fi e g :
  mem_rep m fr fi -> 0 <= e < te + ee ->
  exists m', upd_index_rule (in_expn c e) (position c e) g m = Some m' /\ mem_rep m' fr (<[e := g (fi e)]> fi).
Proof.
  intros [Hr Hi] He. destruct (arrays_upd _ _ _ e g Hi He) as (l & Hl & Ha).
  unfold upd_index_rule, index_at. rewrite Hl. simpl. eexists. split; [done|]. by destruct (in_expn c e).
Qed.

(** A command for a field of the entry [e]. *)
Lemma dma_rule_ok m fr fi e ofs d r cmd :
  mem_rep m fr fi -> 0 <= e < te + ee -> 0 <= ofs < IPA_NAT_TABLE_ENTRY_SIZE -> write16 ofs d (fr e) = Some r ->
  dma_base_addr cmd = (if in_expn c e then IPA_NAT_EXPN_TBL else IPA_NAT_BASE_TBL) -> dma_data cmd = d ->
  dma_offset cmd = IPA_NAT_TABLE_ENTRY_SIZE * position c e + ofs ->
  exists m', dma_write cmd m = Some m' /\ mem_rep m' (<[e := r]> fr) fi.
Proof.
  intros Hm He Ho Hw Hb Hd Hof. unfold IPA_NAT_TABLE_ENTRY_SIZE in *.
  assert (dma_write cmd m = dma_rule (in_expn c e) cmd m) as ->.
  { unfold dma_write. rewrite Hb. by destruct (in_expn c e). }
  unfold dma_rule, IPA_NAT_TABLE_ENTRY_SIZE. rewrite Hof, Hd.
  replace ((32 * position c e + ofs) / 32) with (position c e) by dlia.
  replace ((32 * position c e + ofs) mod 32) with ofs by dlia.
  rewrite (rule_at m fr fi e Hm He). simpl. rewrite Hw. simpl.
  apply (upd_rule_ok m fr fi e (fun _ => r) Hm He).
Qed.
Lemma dma_index_ok m fr fi e ofs d w cmd :
  mem_rep m fr fi -> 0 <= e < te + ee -> 0 <= ofs < IPA_NAT_INDEX_TABLE_ENTRY_SIZE -> write16_index ofs d (fi e) = Some w ->
  dma_base_addr cmd = (if in_expn c e then IPA_NAT_INDEX_EXPN_TBL else IPA_NAT_INDX_TBL) -> dma_data cmd = d ->
  dma_offset cmd = IPA_NAT_INDEX_TABLE_ENTRY_SIZE * position c e + ofs ->
  exists m', dma_write cmd m = Some m' /\ mem_rep m' fr (<[e := w]> fi).
Proof.
  intros Hm He Ho Hw Hb Hd Hof. unfold IPA_NAT_INDEX_TABLE_ENTRY_SIZE in *.
  assert (dma_write cmd m = dma_index (in_expn c e) cmd m) as ->.
  { unfold dma_write. rewrite Hb. by destruct (in_expn c e). }
  unfold dma_index, IPA_NAT_INDEX_TABLE_ENTRY_SIZE. rewrite Hof, Hd.
  replace ((4 * position c e + ofs) / 4) with (position c e) by dlia.
  replace ((4 * position c e + ofs) mod 4) with ofs by dlia.
  rewrite (indx_at m fr fi e Hm He). simpl. rewrite Hw. simpl.
  apply (upd_index_rule_ok m fr fi e (fun _ => w) Hm He).
Qed.
End memory.
