(* ===== verification/NatTableArith.v ===== *)
(** * Arithmetic of the NAT table

    The size of the base table and the two checksums that the hardware applies to the
    packets of a rule, against their meaning. *)
From S2P Require Import Prelude Config NatDrv StateM NatTable NatTableInv.
From stdpp Require Import base list.
From Stdlib Require Import ZArith Lia.

Open Scope Z_scope.

(** ** The number of entries *)

Lemma nearest2_loop_ok fuel number k :
  0 <= k -> 2 <= number < 2 ^ 16 -> 2 ^ k <= number < 2 ^ (k + Z.of_nat fuel) ->
  nearest2_loop fuel number (number / 2 ^ k) (2 ^ k) =
    Some (if number =? 2 ^ Z.log2 number then number else trunc 16 (2 ^ (Z.log2 number + 1))).
Proof.
  revert k. induction fuel as [|fuel IH]; intros k Hk Hn Hb.
  - rewrite Z.add_0_r in Hb. lia.
  - assert (0 < 2 ^ k) as Hp by lia. simpl. destruct (Z.eqb_spec (number / 2 ^ k) 1) as [H1|H1].
    + assert (Z.log2 number = k) as ->.
      { apply Z.log2_unique; [done|]. rewrite Z.pow_succ_r by done. pose proof (Z.div_mod number (2 ^ k)) as Hd.
        pose proof (Z.mod_pos_bound number (2 ^ k) Hp). rewrite H1 in Hd. lia. }
      destruct (Z.eqb_spec number (2 ^ k)) as [->|Hne]; [done|]. simpl. rewrite Z.pow_add_r by lia. done.
    + assert (2 ^ (k + 1) <= number) as Hge.
      { rewrite Z.pow_add_r by lia. assert (1 <= number / 2 ^ k) by (apply Z.div_le_lower_bound; lia).
        assert (2 <= number / 2 ^ k) as Hq by lia. pose proof (Z.mul_div_le number (2 ^ k) Hp). nia. }
      assert (k + 1 < 16) by (apply (Z.pow_lt_mono_r_iff 2); lia).
      assert (Z.shiftr (number / 2 ^ k) 1 = number / 2 ^ (k + 1)) as ->.
      { rewrite Z.shiftr_div_pow2, Z.div_div by lia. by rewrite Z.pow_add_r by lia. }
      assert (trunc 16 (2 ^ k * 2) = 2 ^ (k + 1)) as ->.
      { rewrite Z.pow_add_r by lia. apply trunc_id. unfold fits.
        assert (2 ^ (k + 1) < 2 ^ 16) as Hlt by lia. rewrite Z.pow_add_r in Hlt by lia. lia. }
      apply IH; [lia|done|]. rewrite Nat2Z.inj_succ in Hb. replace (k + 1 + Z.of_nat fuel) with (k + Z.succ (Z.of_nat fuel)) by lia. lia.
Qed.

Lemma nearest_power num :
  1 <= num < 2 ^ 16 ->
  exists r, GetNearest2Power num = Some (0, r) /\
    (num <= 2 ^ 15 -> exists k, 1 <= k <= 15 /\ r = 2 ^ k /\ num <= r /\ forall j, 1 <= j -> num <= 2 ^ j -> r <= 2 ^ j) /\
    (2 ^ 15 < num -> r = 0).
Proof.
  intros Hn. unfold GetNearest2Power. rewrite (proj2 (Z.eqb_neq num 0)) by lia. destruct (Z.eqb_spec num 1) as [->|H1].
  - exists 2. split; [done|]. split; [|lia]. intros _. exists 1. split; [lia|]. split; [done|]. split; [lia|]. intros j Hj _.
    change 2 with (2 ^ 1) at 1. apply Z.pow_le_mono_r; lia.
  - pose proof (nearest2_loop_ok 17 num 0 ltac:(lia) ltac:(lia)) as Hl. rewrite Z.pow_0_r, Z.div_1_r in Hl. rewrite Hl by lia. clear Hl.
    simpl. eexists. split; [reflexivity|]. pose proof (Z.log2_spec num ltac:(lia)) as [Hlo Hhi]. rewrite <- Z.add_1_r in Hhi.
    assert (1 <= Z.log2 num) as Hk1 by (apply Z.log2_le_pow2; lia).
    assert (Z.log2 num < 16) as Hk16 by (apply Z.log2_lt_pow2; lia).
    destruct (Z.eqb_spec num (2 ^ Z.log2 num)) as [Heq|Hne]; split; intros Hr.
    + exists (Z.log2 num). split; [split; [done|lia]|]. split; [done|]. split; [lia|]. intros j _ Hj. done.
    + assert (15 < Z.log2 num); [|lia]. apply (Z.pow_lt_mono_r_iff 2); lia.
    + assert (Z.log2 num < 15) as Hk15 by (apply (Z.pow_lt_mono_r_iff 2); lia). exists (Z.log2 num + 1).
      assert (2 ^ (Z.log2 num + 1) <= 2 ^ 15) by (apply Z.pow_le_mono_r; lia).
      rewrite trunc_id by (unfold fits; lia). split; [lia|]. split; [done|]. split; [lia|]. intros j Hj1 Hj.
      apply Z.pow_le_mono_r; [lia|]. assert (Z.log2 num < j); [|lia]. apply (Z.pow_lt_mono_r_iff 2); lia.
    + assert (Z.log2 num = 15) as -> by (assert (15 <= Z.log2 num); [apply Z.log2_le_pow2; lia|lia]). done.
Qed.

(** The base table has the least power of two, at least 2, that is not below the
    entries asked for, when the result fits its 16 bits; above 2^15 it is 0. *)
Theorem nearest_power_ok num :
  1 <= num < 2 ^ 16 ->
  exists r, GetNearest2Power num = Some (0, r) /\
    (num <= 2 ^ 15 -> exists k, 1 <= k <= 15 /\ r = 2 ^ k /\ num <= r /\ forall j, 1 <= j -> num <= 2 ^ j -> r <= 2 ^ j) /\
    (2 ^ 15 < num -> r = 0).
Proof. apply nearest_power. Qed.

Lemma nearest_power_ok_witness : 1 <= 800 < 2 ^ 16 /\ GetNearest2Power 800 = Some (0, 1024) /\ GetNearest2Power 32769 = Some (0, 0) /\
  exists r, GetNearest2Power 800 = Some (0, r) /\
    (800 <= 2 ^ 15 -> exists k, 1 <= k <= 15 /\ r = 2 ^ k /\ 800 <= r /\ forall j, 1 <= j -> 800 <= 2 ^ j -> r <= 2 ^ j) /\
    (2 ^ 15 < 800 -> r = 0).
Proof. split; [lia|]. split; [reflexivity|]. split; [reflexivity|]. apply (nearest_power_ok 800). lia. Defined.

(** ** Checksums

    A checksum is a number modulo [2 ^ 16 - 1], with end-around carry (RFC 1071);
    what a packet's checksum has to be adjusted by when the private address, and
    port, are replaced by the public ones is the sum of the new words less the sum of
    the old ones (RFC 1624). *)
Definition ones_mod : Z := 65535.

Lemma cksum_add_ok x y : fits 16 x -> fits 16 y -> fits 16 (cksum_add x y) /\ (ones_mod | x + y - cksum_add x y).
Proof.
  intros Hx Hy. unfold cksum_add, ones_mod. rewrite Z.shiftr_div_pow2 by lia. unfold fits in *.
  destruct (Z.eqb_spec ((x + y) / 2 ^ 16) 0) as [H0|H0].
  - split; [dlia|]. rewrite Z.sub_diag. apply Z.divide_0_r.
  - fold (lo16 (x + y)). rewrite lo16_mod. change (2 ^ 16) with 65536 in *.
    assert (65536 <= x + y) as Hge.
    { destruct (Z.lt_ge_cases (x + y) 65536) as [Hlt|]; [|done]. destruct H0. apply Z.div_small. lia. }
    assert ((x + y) mod 65536 = x + y - 65536) as -> by (symmetry; apply (Z.mod_unique _ _ 1); lia). split; [lia|]. exists 1. lia.
Qed.

(** A complemented word counts as its negative. *)
Lemma lnot_w_eq n x : 0 <= n -> fits n x -> lnot_w n x = 2 ^ n - 1 - x.
Proof.
  intros Hn Hx. unfold lnot_w, trunc, fits in *. unfold Z.lnot. symmetry. apply (Z.mod_unique _ _ (-1)); lia.
Qed.

Lemma cksum_words a : fits 32 a -> fits 16 (Z.land a 0xFFFF) /\ fits 16 (Z.shiftr a 16) /\ a = Z.land a 0xFFFF + 65536 * Z.shiftr a 16.
Proof.
  intros Ha. fold (lo16 a) (hi16 a). split; [apply lo16_fits|]. split; [by apply hi16_fits|].
  rewrite lo16_mod, hi16_div. dlia.
Qed.

(** The words of a complemented address. *)
Lemma lnot_words a : fits 32 a -> lo16 (lnot_w 32 a) = 65535 - lo16 a /\ hi16 (lnot_w 32 a) = 65535 - hi16 a.
Proof.
  intros Ha. assert (fits 32 (lnot_w 32 a)) as Hn by (apply trunc_fits; lia).
  destruct (cksum_words a Ha) as (H1 & H2 & H3), (cksum_words _ Hn) as (N1 & N2 & N3). rewrite lnot_w_eq in * by done.
  fold (lo16 a) (hi16 a) in *. fold (lo16 (2 ^ 32 - 1 - a)) (hi16 (2 ^ 32 - 1 - a)) in *. unfold fits in *. lia.
Qed.

(** The adjustment of the IP checksum is the sum of the words of the public
    address less those of the private one, in one's complement; it fits 16 bits. *)
Theorem ip_cksum_ok pub priv :
  fits 32 pub -> fits 32 priv ->
  fits 16 (ipa_nati_calc_ip_cksum pub priv) /\
  ipa_nati_calc_ip_cksum pub priv mod ones_mod = ((lo16 pub + hi16 pub) - (lo16 priv + hi16 priv)) mod ones_mod.
Proof.
  intros Hp Hq. assert (fits 32 (lnot_w 32 priv)) as Hn by (apply trunc_fits; lia). destruct (lnot_words priv Hq) as [L1 L2].
  unfold ipa_nati_calc_ip_cksum. cbv zeta. fold (lo16 pub) (hi16 pub) (lo16 (lnot_w 32 priv)) (hi16 (lnot_w 32 priv)).
  destruct (cksum_add_ok _ _ (lo16_fits pub) (hi16_fits _ Hp)) as [F1 [k1 D1]].
  destruct (cksum_add_ok _ _ F1 (lo16_fits (lnot_w 32 priv))) as [F2 [k2 D2]].
  destruct (cksum_add_ok _ _ F2 (hi16_fits _ Hn)) as [F3 [k3 D3]]. split; [apply trunc_fits; lia|]. rewrite (trunc_id 16) by done.
  apply Z.cong_iff_ex. exists (2 - k1 - k2 - k3). rewrite L1 in *. rewrite L2 in *. unfold ones_mod in *. lia.
Qed.

Lemma ip_cksum_ok_witness :
  fits 32 0x0A000001 /\ ipa_nati_calc_ip_cksum 0x0A000001 0xC0A80102 = 0x4856 /\
  fits 16 (ipa_nati_calc_ip_cksum 0x0A000001 0xC0A80102) /\
  ipa_nati_calc_ip_cksum 0x0A000001 0xC0A80102 mod ones_mod =
    ((lo16 0x0A000001 + hi16 0x0A000001) - (lo16 0xC0A80102 + hi16 0xC0A80102)) mod ones_mod.
Proof.
  split; [by unfold fits|]. split; [reflexivity|]. apply (ip_cksum_ok 0x0A000001 0xC0A80102); by unfold fits.
Defined.

(** C35. The adjustment of the TCP or UDP checksum counts the ports as well. *)
Theorem tcp_udp_cksum_ok pub pub_port priv priv_port :
  fits 32 pub -> fits 32 priv -> fits 16 pub_port -> fits 16 priv_port ->
  fits 16 (ipa_nati_calc_tcp_udp_cksum pub pub_port priv priv_port) /\
  ipa_nati_calc_tcp_udp_cksum pub pub_port priv priv_port mod ones_mod =
    ((lo16 pub + hi16 pub + pub_port) - (lo16 priv + hi16 priv + priv_port)) mod ones_mod.
Proof.
  intros Hp Hq Hpp Hqp. assert (fits 32 (lnot_w 32 priv)) as Hn by (apply trunc_fits; lia). destruct (lnot_words priv Hq) as [L1 L2].
  assert (fits 16 (lnot_w 16 priv_port)) as Hnp by (apply trunc_fits; lia). pose proof (lnot_w_eq 16 priv_port ltac:(lia) Hqp) as L3.
  unfold ipa_nati_calc_tcp_udp_cksum. cbv zeta. fold (lo16 pub) (hi16 pub) (lo16 (lnot_w 32 priv)) (hi16 (lnot_w 32 priv)).
  destruct (cksum_add_ok _ _ (lo16_fits pub) (hi16_fits _ Hp)) as [F1 [k1 D1]]. destruct (cksum_add_ok _ _ F1 Hpp) as [F2 [k2 D2]].
  destruct (cksum_add_ok _ _ F2 (lo16_fits (lnot_w 32 priv))) as [F3 [k3 D3]].
  destruct (cksum_add_ok _ _ F3 (hi16_fits _ Hn)) as [F4 [k4 D4]]. destruct (cksum_add_ok _ _ F4 Hnp) as [F5 [k5 D5]].
  split; [apply trunc_fits; lia|]. rewrite (trunc_id 16) by done.
  apply Z.cong_iff_ex. exists (3 - k1 - k2 - k3 - k4 - k5). rewrite L1 in *. rewrite L2 in *. rewrite L3 in *. unfold ones_mod in *. lia.
Qed.

Lemma tcp_udp_cksum_ok_witness :
  fits 16 8080 /\
  fits 16 (ipa_nati_calc_tcp_udp_cksum 0x0A000001 40000 0xC0A80102 8080) /\
  ipa_nati_calc_tcp_udp_cksum 0x0A000001 40000 0xC0A80102 8080 mod ones_mod =
    ((lo16 0x0A000001 + hi16 0x0A000001 + 40000) - (lo16 0xC0A80102 + hi16 0xC0A80102 + 8080)) mod ones_mod.
Proof.
  split; [by unfold fits|]. apply (tcp_udp_cksum_ok 0x0A000001 40000 0xC0A80102 8080); by unfold fits.
Defined.
