(* ===== verification/NatTableSteps.v ===== *)
(** * What the NAT table keeps

    The invariant of the table, on the values of its entries: the two chained stores
    of NatChain.v, the links between a rule and its entry of the index table, the
    hash chains, and the handles.  The changes that adding and deleting a rule make
    to the entries keep it, and change the rules of the table as they should. *)
From S2P Require Import Prelude Config NatDrv StateM NatTable NatChain NatTableInv.
From stdpp Require Import base functions list gmap.
From Stdlib Require Import ZArith Lia.

Open Scope Z_scope.

(** The rule in an entry. *)
Definition rule_in (r : ipa_nat_rule) : option ipa_nat_ipv4_rule := if alive r then Some (client_rule r) else None.

(** Where the hardware looks for a rule. *)
Definition dst_of (te : Z) (r : ipa_nat_ipv4_rule) : Z :=
  dst_hash (r_target_ip r) (r_target_port r) (r_public_port r) (r_protocol r) (te - 1).
Definition src_of (te : Z) (r : ipa_nat_ipv4_rule) : Z :=
  src_hash (r_private_ip r) (r_private_port r) (r_target_ip r) (r_target_port r) (r_protocol r) (te - 1).

Lemma hash_range te x : 2 <= te -> in_base te (if Z.land x (te - 1) =? 0 then te - 1 else Z.land x (te - 1)).
Proof.
  intros Hte. assert (0 <= Z.land x (te - 1)) as H0 by (apply Z.land_nonneg; lia).
  assert (Z.land x (te - 1) <= te - 1) as H1.
  { assert (Z.ldiff (te - 1) (Z.land x (te - 1)) = te - 1 - Z.land x (te - 1)) as Hd.
    { symmetry. apply Z.sub_nocarry_ldiff. apply Z.bits_inj'. intros n Hn. rewrite Z.ldiff_spec, Z.land_spec, Z.bits_0.
      destruct (Z.testbit x n), (Z.testbit (te - 1) n); done. }
    assert (0 <= Z.ldiff (te - 1) (Z.land x (te - 1))) by (apply Z.ldiff_nonneg; lia). lia. }
  unfold in_base. destruct (Z.eqb_spec (Z.land x (te - 1)) 0); lia.
Qed.

Lemma dst_in_base te r : 2 <= te -> in_base te (dst_of te r).
Proof. apply hash_range. Qed.
Lemma src_in_base te r : 2 <= te -> in_base te (src_of te r).
Proof. apply hash_range. Qed.

Section inv.
Variables (te ee : Z).
Hypothesis Hte : 2 <= te.
Abbreviation in_base := (in_base te).
Abbreviation in_exp := (in_exp te ee).
Abbreviation entry_ok := (entry_ok te ee).

(** ** The invariant

    [fr], [fi]: the entries of the tables of rules and of the index tables; [fm]: the
    entry before an entry of the index tables. *)
Abbreviation rules_ok fr := (store_ok te ee (fun x => enabled (fr x)) (fun x => next_of (fr x)) (fun x => prev_of (fr x))).
Abbreviation index_ok fi fm := (store_ok te ee (fun x => ix_used (fi x)) (fun x => ix_next (fi x)) fm).

Record tbl_ok (fr : Z -> ipa_nat_rule) (fi fm : Z -> Z) (chr chi : Z -> list Z) : Prop := {
  ti_rules : rules_ok fr chr;
  ti_index : index_ok fi fm chi;
  ti_home b x r : in_base b -> x ∈ b :: chr b -> rule_in (fr x) = Some r -> dst_of te r = b;
  ti_ihome b i r : in_base b -> i ∈ b :: chi b -> ix_used (fi i) = true -> rule_in (fr (ix_entry (fi i))) = Some r -> src_of te r = b;
  ti_cross x r : entry_ok x -> rule_in (fr x) = Some r -> entry_ok (indx_of (fr x)) /\ ix_entry (fi (indx_of (fr x))) = x;
  ti_cross' i : entry_ok i -> ix_used (fi i) = true ->
    entry_ok (ix_entry (fi i)) /\ is_Some (rule_in (fr (ix_entry (fi i)))) /\ indx_of (fr (ix_entry (fi i))) = i;
  ti_dead x : entry_ok x -> enabled (fr x) = true -> rule_in (fr x) = None -> in_base x
}.

(** The state is kept whatever the chains are. *)
Definition tbl_inv (fr : Z -> ipa_nat_rule) (fi fm : Z -> Z) : Prop := exists chr chi, tbl_ok fr fi fm chr chi.

Lemma rule_in_enabled r : is_Some (rule_in r) -> enabled r = true.
Proof. unfold rule_in, alive. destruct (enabled r); [done|]. simpl. by intros [? ?]. Qed.

Lemma so_entry used nxt prv ch b x : store_ok te ee used nxt prv ch -> in_base b -> x ∈ b :: ch b -> entry_ok x.
Proof. intros S Hb [->|Hx]%elem_of_cons; [by left|]. apply (so_exp _ _ _ _ _ _ S) in Hx as [? _]. by right. Qed.

Lemma entry_nonzero x : entry_ok x -> x <> 0.
Proof. unfold NatChain.entry_ok, NatChain.in_base, NatChain.in_exp. lia. Qed.

Lemma used_entry w : ix_used w = true <-> ix_entry w <> 0.
Proof. unfold ix_used, IPA_NAT_INVALID_NAT_ENTRY. rewrite negb_true_iff. apply Z.eqb_neq. Qed.

(** What a placed entry is. *)
Lemma placed_entry used nxt prv ch b e p :
  store_ok te ee used nxt prv ch -> in_base b -> placed te ee (used := used) (ch := ch) b e p ->
  entry_ok e /\ used e = false /\ e <> p /\ (p = 0 \/ (entry_ok p /\ used p = true)).
Proof.
  intros S Hb [(Hu & -> & ->)|(Hu & He & Hue & ->)].
  - split_and!; [by left|done|unfold NatChain.in_base in *; lia|by left].
  - destruct (so_last te ee S b Hb Hu) as (_ & ? & Hl). split_and!; [by right|done|congruence|by right].
Qed.

(** ** Adding a rule *)
Lemma tbl_add fr fi fm chr chi fr' fi' fm' clnt b e p ib i ip :
  tbl_ok fr fi fm chr chi ->
  b = dst_of te clnt -> in_base b -> ib = src_of te clnt -> in_base ib ->
  placed te ee (used := fun x => enabled (fr x)) (ch := chr) b e p ->
  placed te ee (used := fun x => ix_used (fi x)) (ch := chi) ib i ip ->
  (forall x, entry_ok x -> enabled (fr' x) = if decide (x = e) then true else enabled (fr x)) ->
  (forall x, entry_ok x -> next_of (fr' x) = if decide (x = e) then 0 else if decide (x = p) then e else next_of (fr x)) ->
  (forall x, entry_ok x -> prev_of (fr' x) = if decide (x = e) then p else prev_of (fr x)) ->
  (forall x, entry_ok x -> indx_of (fr' x) = if decide (x = e) then i else indx_of (fr x)) ->
  (forall x, entry_ok x -> rule_in (fr' x) = if decide (x = e) then Some clnt else rule_in (fr x)) ->
  (forall x, entry_ok x -> ix_entry (fi' x) = if decide (x = i) then e else ix_entry (fi x)) ->
  (forall x, entry_ok x -> ix_next (fi' x) = if decide (x = i) then 0 else if decide (x = ip) then i else ix_next (fi x)) ->
  (forall x, in_exp x -> fm' x = if decide (x = i) then ip else fm x) ->
  tbl_inv fr' fi' fm'.
Proof.
  intros T -> Hb -> Hib Hp Hip HU HN HP HJ HR HE HX HM.
  destruct (placed_entry _ _ _ _ _ _ _ (ti_rules _ _ _ _ _ T) Hb Hp) as (He & Hue & Hep & _).
  destruct (placed_entry _ _ _ _ _ _ _ (ti_index _ _ _ _ _ T) Hib Hip) as (Hi & Hui & Hiip & _).
  assert (rule_in (fr e) = None) as Hre.
  { destruct (rule_in (fr e)) eqn:Hr; [|done]. rewrite rule_in_enabled in Hue by (by eexists). done. }
  assert (forall x, entry_ok x -> ix_used (fi' x) = if decide (x = i) then true else ix_used (fi x)) as HUi.
  { intros x Hx. unfold ix_used at 1. rewrite HE by done. case_decide; [|done].
    apply negb_true_iff, Z.eqb_neq. by apply entry_nonzero. }
  destruct (store_place te ee (ti_rules _ _ _ _ _ T) (fun x => enabled (fr' x)) (fun x => next_of (fr' x))
    (fun x => prev_of (fr' x)) _ e p Hb Hp) as (chr' & Sr & Hchr); [done| | | | |].
  { by rewrite HN, decide_True. }
  { intros x Hx Hne. by rewrite HN, decide_False. }
  { intros _. by rewrite HP, decide_True. }
  { intros x Hx Hne. rewrite HP by (by right). by rewrite decide_False. }
  destruct (store_place te ee (ti_index _ _ _ _ _ T) (fun x => ix_used (fi' x)) (fun x => ix_next (fi' x)) fm' _ i ip Hib Hip)
    as (chi' & Si & Hchi); [done| | | | |].
  { by rewrite HX, decide_True. }
  { intros x Hx Hne. by rewrite HX, decide_False. }
  { intros Hx. by rewrite HM, decide_True. }
  { intros x Hx Hne. by rewrite HM, decide_False. }
  exists chr', chi'. split; [done|done| | | | |].
  - intros b x r Hbb Hx Hr. pose proof (so_entry _ _ _ _ _ _ Sr Hbb Hx) as Hxe. rewrite HR in Hr by done.
    destruct (Hchr b x Hbb Hx) as [[Hne Hx0]|[-> ->]].
    + rewrite decide_False in Hr by done. by apply (ti_home _ _ _ _ _ T b x).
    + rewrite decide_True in Hr by done. by simplify_eq.
  - intros b x r Hbb Hx Hux Hr. pose proof (so_entry _ _ _ _ _ _ Si Hbb Hx) as Hxe. rewrite HUi in Hux by done.
    rewrite HE in Hr by done. destruct (Hchi b x Hbb Hx) as [[Hne Hx0]|[-> ->]].
    + rewrite !decide_False in * by done. destruct (ti_cross' _ _ _ _ _ T x Hxe Hux) as (Hy & [r' Hr'] & _).
      assert (ix_entry (fi x) <> e) as Hye by (intros Heq; rewrite Heq in Hr'; congruence).
      rewrite HR, decide_False in Hr by done. by apply (ti_ihome _ _ _ _ _ T b x).
    + rewrite decide_True, HR, decide_True in Hr by done. by simplify_eq.
  - intros x r Hx Hr. rewrite HR in Hr by done. rewrite HJ by done. case_decide as Hxe.
    + subst x. by rewrite HE, decide_True.
    + destruct (ti_cross _ _ _ _ _ T x r Hx Hr) as [Hj Hjx]. rewrite HE by done.
      rewrite decide_False; [by split|]. intros Heq.
      rewrite Heq in Hjx. assert (ix_used (fi i) = true) as Hu; [|congruence]. apply used_entry. rewrite Hjx. by apply entry_nonzero.
  - intros x Hx Hux. rewrite HUi in Hux by done. rewrite HE by done. case_decide as Hxe.
    + subst x. rewrite HR, HJ, !decide_True by done. by split_and!; [|eexists|].
    + destruct (ti_cross' _ _ _ _ _ T x Hx Hux) as (Hy & [r' Hr'] & Hj).
      assert (ix_entry (fi x) <> e) as Hne by (intros Heq; rewrite Heq in Hr'; congruence).
      rewrite HR, HJ, !decide_False by done. by split_and!; [|eexists|].
  - intros x Hx Hu Hr. rewrite HU in Hu by done. rewrite HR in Hr by done. case_decide; [done|].
    by apply (ti_dead _ _ _ _ _ T).
Qed.

(** ** Deleting a rule

    [e] is the entry of the rule and [i] its entry in the index; [g] is the entry that
    is taken out of the index: a head is overwritten by its successor. *)
Definition index_gone (fi : Z -> Z) (i : Z) : Z := if decide (in_base i /\ ix_next (fi i) <> 0) then ix_next (fi i) else i.

Lemma index_gone_ok fi fm chi i :
  index_ok fi fm chi -> entry_ok i -> ix_used (fi i) = true ->
  let g := index_gone fi i in
  entry_ok g /\ ix_used (fi g) = true /\ (in_exp g \/ ix_next (fi g) = 0) /\
  (g <> i -> in_base i /\ in_exp g /\ g ∈ chi i /\ fm g = i).
Proof.
  intros S Hi Hu. unfold index_gone. case_decide as Hd; simpl.
  - destruct Hd as [Hb Hn]. destruct (so_next te ee S i Hi Hu) as [|(Hg & Hug & Hpg)]; [done|]. split_and!; [by right|done|by left|].
    intros _. split_and!; [done|done| |done]. pose proof (lseg_next _ _ _ _ (so_seg _ _ _ _ _ _ S i Hb Hu)) as Hl.
    destruct (chi i) as [|y l]; simpl in Hl; [done|]. rewrite Hl. left.
  - split_and!; try done. destruct Hi as [Hb|Hx]; [right|by left]. destruct (decide (ix_next (fi i) = 0)); [done|]. by destruct Hd.
Qed.

Section del.
Context {fr : Z -> ipa_nat_rule} {fi fm : Z -> Z} {chr chi : Z -> list Z} (T : tbl_ok fr fi fm chr chi).
Context (e : Z) (r0 : ipa_nat_ipv4_rule) (He : entry_ok e) (Hr0 : rule_in (fr e) = Some r0).
Let i := indx_of (fr e).
Let g := index_gone fi i.

Lemma del_entries :
  entry_ok i /\ ix_entry (fi i) = e /\ ix_used (fi i) = true /\ entry_ok g /\ ix_used (fi g) = true /\
  indx_of (fr (ix_entry (fi g))) = g /\ (g <> i -> ix_entry (fi g) <> e).
Proof.
  destruct (ti_cross _ _ _ _ _ T e r0 He Hr0) as [Hi Hie]. fold i in Hi, Hie.
  assert (ix_used (fi i) = true) as Hui by (apply used_entry; rewrite Hie; by apply entry_nonzero).
  destruct (index_gone_ok fi fm chi i (ti_index _ _ _ _ _ T) Hi Hui) as (Hg & Hug & _ & _). fold g in Hg, Hug.
  destruct (ti_cross' _ _ _ _ _ T g Hg Hug) as (_ & _ & Hj). split_and!; try done. intros Hne Heq. rewrite Heq in Hj. done.
Qed.

Lemma tbl_del fr' fi' fm' :
  (forall x, entry_ok x -> enabled (fr' x) = if decide (x = e /\ (in_exp e \/ next_of (fr e) = 0)) then false else enabled (fr x)) ->
  (forall x, entry_ok x -> enabled (fr' x) = true ->
    next_of (fr' x) = if decide (in_exp e /\ x = prev_of (fr e)) then next_of (fr e) else next_of (fr x)) ->
  (forall x, in_exp x -> enabled (fr' x) = true ->
    prev_of (fr' x) = if decide (in_exp e /\ x = next_of (fr e)) then prev_of (fr e) else prev_of (fr x)) ->
  (forall x, entry_ok x -> rule_in (fr' x) = if decide (x = e) then None else rule_in (fr x)) ->
  (forall x, entry_ok x -> x <> e -> indx_of (fr' x) = if decide (x = ix_entry (fi g)) then i else indx_of (fr x)) ->
  (forall x, entry_ok x -> ix_entry (fi' x) = if decide (x = g) then 0 else if decide (x = i) then ix_entry (fi g) else ix_entry (fi x)) ->
  (forall x, entry_ok x -> x <> g ->
    ix_next (fi' x) = if decide (in_exp g /\ x = fm g) then ix_next (fi g) else ix_next (fi x)) ->
  (forall x, in_exp x -> x <> g -> fm' x = if decide (in_exp g /\ x = ix_next (fi g)) then fm g else fm x) ->
  tbl_inv fr' fi' fm'.
Proof.
  intros HU HN HP HR HJ HE HX HM.
  destruct del_entries as (Hi & Hie & Hui & Hg & Hug & Hjg & Hge).
  destruct (index_gone_ok fi fm chi i (ti_index _ _ _ _ _ T) Hi Hui) as (_ & _ & Hgx & Hgi). fold g in Hgx, Hgi.
  assert (enabled (fr e) = true) as Hue by (apply rule_in_enabled; by eexists).
  assert (forall x, entry_ok x -> ix_used (fi' x) = if decide (x = g) then false else ix_used (fi x)) as HUi.
  { intros x Hx. unfold ix_used at 1. rewrite HE by done. destruct (decide (x = g)); [done|]. destruct (decide (x = i)) as [->|]; [|done].
    by rewrite Hui. }
  destruct (store_unplace te ee (ti_rules _ _ _ _ _ T) (fun x => enabled (fr' x)) (fun x => next_of (fr' x))
    (fun x => prev_of (fr' x)) e He Hue HU HN HP) as (chr' & Sr & Hchr).
  destruct (store_unplace te ee (ti_index _ _ _ _ _ T) (fun x => ix_used (fi' x)) (fun x => ix_next (fi' x)) fm' g Hg Hug)
    as (chi' & Si & Hchi).
  { intros x Hx. rewrite HUi by done. destruct (decide (x = g)) as [->|]; [by rewrite decide_True|by rewrite decide_False by naive_solver]. }
  { intros x Hx Hux. apply HX; [done|]. intros ->. by rewrite HUi, decide_True in Hux. }
  { intros x Hx Hux. apply HM; [done|]. intros ->. by rewrite HUi, decide_True in Hux. }
  exists chr', chi'. split; [done|done| | | | |].
  - intros b x r Hb Hx Hr. pose proof (so_entry _ _ _ _ _ _ Sr Hb Hx) as Hxe. rewrite HR in Hr by done.
    case_decide; [done|]. apply (ti_home _ _ _ _ _ T b x); auto.
  - intros b x r Hb Hx Hux Hr. pose proof (so_entry _ _ _ _ _ _ Si Hb Hx) as Hxe. rewrite HUi in Hux by done. apply Hchi in Hx.
    rewrite HE in Hr by done. destruct (decide (x = g)); [done|]. destruct (decide (x = i)) as [->|Hxi].
    + destruct (ti_cross' _ _ _ _ _ T g Hg Hug) as (Hy & _). destruct Hgi as (Hib & Hgxx & Hgc & _); [done|].
      rewrite HR, decide_False in Hr by auto. assert (b = i) as ->.
      { apply elem_of_cons in Hx as [->|Hx]; [done|]. apply (so_exp _ _ _ _ _ _ (ti_index _ _ _ _ _ T)) in Hx as [? _].
        unfold NatChain.in_base, NatChain.in_exp in *. lia. }
      apply (ti_ihome _ _ _ _ _ T i g); [done|by right|done|done].
    + destruct (ti_cross' _ _ _ _ _ T x Hxe Hux) as (Hy & _). rewrite HR in Hr by done. case_decide; [done|].
      by apply (ti_ihome _ _ _ _ _ T b x).
  - intros x r Hx Hr. rewrite HR in Hr by done. case_decide as Hxe; [done|]. rewrite HJ by done.
    destruct (ti_cross _ _ _ _ _ T x r Hx Hr) as [Hj Hjx]. destruct (decide (x = ix_entry (fi g))) as [Hxg|Hxg].
    + split; [done|]. rewrite HE by done. rewrite decide_False, decide_True by (done || congruence). done.
    + split; [done|]. rewrite HE by done. rewrite !decide_False by congruence. done.
  - intros x Hx Hux. rewrite HUi in Hux by done. rewrite HE by done. destruct (decide (x = g)) as [|Hxg]; [done|].
    destruct (decide (x = i)) as [->|Hxi].
    + destruct (ti_cross' _ _ _ _ _ T g Hg Hug) as (Hy & Hs & _). rewrite HR, decide_False by auto.
      rewrite HJ, decide_True by auto. done.
    + destruct (ti_cross' _ _ _ _ _ T x Hx Hux) as (Hy & Hs & Hjx). assert (ix_entry (fi x) <> e) as Hne by (intros Heq; by rewrite Heq in Hjx).
      rewrite HR, HJ, !decide_False by (done || congruence). done.
  - intros x Hx Hu Hr. rewrite HU in Hu by done. rewrite HR in Hr by done. destruct (decide (x = e)) as [->|Hxe].
    + case_decide as Hd; [done|]. destruct He as [|]; [done|]. destruct Hd. auto.
    + rewrite decide_False in Hu by naive_solver. by apply (ti_dead _ _ _ _ _ T).
Qed.
End del.

(** Dead heads of empty chains are cleared: the rules are not touched. *)
Definition sweep (fr : Z -> ipa_nat_rule) (x : Z) : ipa_nat_rule :=
  if (x <? te) && dead_head (fr x) then ipa_nat_rule_zero else fr x.

Lemma dead_head_rule r : dead_head r = true -> rule_in r = None /\ next_of r = 0.
Proof.
  unfold dead_head, rule_in, alive. fold (proto_of r). intros [Hp Hn]%andb_true_iff. rewrite Hp, andb_false_r.
  by apply Z.eqb_eq in Hn.
Qed.

Lemma sweep_rule_in fr x : rule_in (sweep fr x) = rule_in (fr x).
Proof.
  unfold sweep. destruct ((x <? te) && dead_head (fr x)) eqn:Hd; [|done]. apply andb_true_iff in Hd as [_ Hd].
  by destruct (dead_head_rule _ Hd) as [-> _].
Qed.

Lemma tbl_sweep fr fi fm : tbl_inv fr fi fm -> tbl_inv (sweep fr) fi fm.
Proof.
  intros (chr & chi & T). exists chr, chi.
  assert (forall x, sweep fr x = fr x \/ sweep fr x = ipa_nat_rule_zero /\ (x <? te) && dead_head (fr x) = true) as Hsw.
  { intros x. unfold sweep. destruct (_ && _); [by right|by left]. }
  assert (forall x r, rule_in (fr x) = Some r -> sweep fr x = fr x) as Hlive.
  { intros x r Hr. destruct (Hsw x) as [|[_ [_ Hd]%andb_true_iff]]; [done|]. destruct (dead_head_rule _ Hd). congruence. }
  split.
  - apply (store_sweep te ee (ti_rules _ _ _ _ _ T) _ _ _ (fun x => (x <? te) && dead_head (fr x))).
    + intros x Hx [Hlt Hd]%andb_true_iff. apply Z.ltb_lt in Hlt. destruct (dead_head_rule _ Hd) as [_ Hn]. split; [|done].
      destruct Hx as [|Hx]; [done|]. unfold NatChain.in_exp in Hx. lia.
    + intros x _. unfold sweep. destruct ((x <? te) && dead_head (fr x)); [by rewrite andb_false_r|by rewrite andb_true_r].
    + intros x _ Hu. destruct (Hsw x) as [->|[Hz _]]; [done|]. by rewrite Hz in Hu.
    + intros x _ Hu. destruct (Hsw x) as [->|[Hz _]]; [done|]. by rewrite Hz in Hu.
  - apply T.
  - intros b x r Hb Hx Hr. rewrite sweep_rule_in in Hr. by apply (ti_home _ _ _ _ _ T b x r).
  - intros b i r Hb Hi Hu Hr. rewrite sweep_rule_in in Hr. by apply (ti_ihome _ _ _ _ _ T b i r).
  - intros x r Hx Hr. rewrite sweep_rule_in in Hr. rewrite (Hlive x r Hr). by apply (ti_cross _ _ _ _ _ T x r).
  - intros i Hi Hu. destruct (ti_cross' _ _ _ _ _ T i Hi Hu) as (Hy & [r Hr] & Hj). rewrite sweep_rule_in, (Hlive _ _ Hr).
    split_and!; [done|by eexists|done].
  - intros x Hx Hu Hr. rewrite sweep_rule_in in Hr. destruct (Hsw x) as [Heq|[Hz _]]; [|by rewrite Hz in Hu].
    rewrite Heq in Hu. by apply (ti_dead _ _ _ _ _ T).
Qed.
End inv.
