(* ===== verification/NatTableOps.v ===== *)
(** * The operations of the NAT table

    What the operations of NatTable.v do to the entries of the table, over a kernel
    that works ([NatReliable]): each is run through symbolically, from one state of
    the shape [st] to another. *)
From S2P Require Import Prelude Config NatDrv StateM NatTable NatChain NatTableInv NatTableSteps.
From stdpp Require Import base functions list gmap.
From Stdlib Require Import ZArith Lia.

Open Scope Z_scope.
Open Scope method_scope.

Section ops.
Context {W : Type} `{NatReliable W}.
Context (te ee pub nfd size fd cnt : Z).
Hypothesis Hte : 2 <= te <= 16384.
Hypothesis Hee : 2 <= ee <= 16384.

Definition cache (m : nat_mem) (meta ids : list Z) : ipa_nat_ip4_table_cache :=
  {| valid := true; public_addr := pub; nat_fd := nfd; tbl_size := size; tbl_addr_offset := 0; nat_addr := Live m;
     table_entries := te; expn_table_entries := ee; index_expn_table_meta := Some meta; rule_id_array := Some ids |}.
Definition st (m : nat_mem) (meta ids : list Z) (w : W) : ipa_nat_cache * (W * unit) :=
  ({| ip4_tbl := cache m meta ids; ipa_fd := fd; table_cnt := cnt |}, (w, tt)).

Lemma position_le m meta ids e : 0 <= e -> position (cache m meta ids) e <= e.
Proof. intros He. unfold position. cbn. destruct (in_expn _ _); lia. Qed.

Section calls.
Context (m : nat_mem) (meta ids : list Z) (w : W).

Lemma wp_get_tbl (Q : ipa_nat_ip4_table_cache -> ipa_nat_cache * (W * unit) -> Prop) :
  Q (cache m meta ids) (st m meta ids w) -> wp (get_tbl 0) Q (st m meta ids w).
Proof. intros HQ. apply wp_bind, wp_get_obj, wp_ret, HQ. Qed.

Lemma wp_get_mem Q : Q m (st m meta ids w) -> wp (get_mem 0) Q (st m meta ids w).
Proof. intros HQ. by apply wp_bind, wp_get_tbl. Qed.

Lemma wp_write_mem f m' Q : f m = Some m' -> Q tt (st m' meta ids w) -> wp (write_mem f) Q (st m meta ids w).
Proof. intros Hf HQ. apply wp_bind, wp_get_mem, wp_bind. by apply (wp_deref _ m'). Qed.

Lemma wp_nk_malloc Q : (forall w', Q true (st m meta ids w')) -> wp (hw nk_malloc) Q (st m meta ids w).
Proof.
  intros HQ. destruct (nk_malloc w) as [b w'] eqn:Hm. pose proof (rel_nk_malloc w) as Hb. rewrite Hm in Hb. simpl in Hb. subst.
  eapply wp_hw; [exact Hm|apply HQ].
Qed.

Lemma wp_post_dma cmds m' Q :
  dma_writes cmds m = Some m' -> (forall w', Q 0 (st m' meta ids w')) -> wp (post_dma cmds) Q (st m meta ids w).
Proof.
  intros Hd HQ. apply wp_bind, wp_get_obj, wp_bind, wp_get_mem, wp_bind.
  pose proof (rel_dma fd cmds m m' w Hd) as Hr. pose proof (ok_dma fd cmds m w) as Ho. cbn [fst st].
  revert Hr Ho. destruct (nk_dma fd cmds m w) as [[r m1] w'] eqn:Hk. simpl. intros -> Ho.
  destruct Ho as [[_ Ho]|[? _]]; [|done]. rewrite Hd in Ho. injection Ho as <-.
  eapply wp_hw; [cbv beta; by rewrite Hk|].
  apply wp_bind, wp_upd_obj, wp_ret, HQ.
Qed.

End calls.

Lemma wp_write_next m meta ids w ty v ofs m' (Q : unit -> ipa_nat_cache * (W * unit) -> Prop) :
  dma_write {| dma_table_index := 0; dma_base_addr := ty; dma_data := v; dma_offset := ofs |} m = Some m' ->
  (forall w', Q tt (st m' meta ids w')) -> wp (ipa_nati_write_next_index 0 ty v ofs) Q (st m meta ids w).
Proof.
  intros Hd HQ. apply wp_bind, wp_nk_malloc. intros w'. simpl.
  apply wp_bind. apply (wp_post_dma _ _ _ _ _ m'); [by simpl; rewrite Hd|]. intros w2. apply wp_ret, HQ.
Qed.

(** ** Writing an entry and the link to it *)

Definition fn_link {A} (f : Z -> A) (e p : Z) (v : A) (link : A -> A) : Z -> A :=
  let f := <[e := v]> f in if decide (p = 0) then f else <[p := link (f p)]> f.

Lemma fn_link_lookup {A} (f : Z -> A) e p v link x :
  e <> p -> x <> 0 -> fn_link f e p v link x = if decide (x = e) then v else if decide (x = p) then link (f x) else f x.
Proof.
  intros Hne Hx. unfold fn_link. destruct (decide (p = 0)) as [->|Hp]; [|destruct (decide (x = p)) as [->|Hxp]].
  - destruct (decide (x = e)) as [->|]; [by rewrite fn_lookup_insert|]. rewrite fn_lookup_insert_ne by done.
    by rewrite decide_False.
  - rewrite fn_lookup_insert, fn_lookup_insert_ne by done. by rewrite decide_False.
  - rewrite fn_lookup_insert_ne by done. destruct (decide (x = e)) as [->|]; [by rewrite fn_lookup_insert|].
    by rewrite fn_lookup_insert_ne.
Qed.

(** ** The commands for a field of an entry *)

Section fields.
Context (m : nat_mem) (fr : Z -> ipa_nat_rule) (fi : Z -> Z) (Hm : mem_rep te ee m fr fi).
Context (m0 : nat_mem) (meta ids : list Z).
Let c := cache m0 meta ids.

Lemma dma_field e ofs d r :
  0 <= e < te + ee -> 0 <= ofs < IPA_NAT_TABLE_ENTRY_SIZE -> write16 ofs d (fr e) = Some r ->
  exists m', dma_write {| dma_table_index := 0; dma_base_addr := if in_expn c e then IPA_NAT_EXPN_TBL else IPA_NAT_BASE_TBL;
                          dma_data := d; dma_offset := trunc 32 (ipa_nati_get_entry_offset c (position c e) + ofs) |} m = Some m' /\
    mem_rep te ee m' (<[e := r]> fr) fi.
Proof.
  intros He Ho Hw. eapply dma_rule_ok; try done; [done|]. cbn [dma_offset].
  unfold ipa_nati_get_entry_offset, IPA_NAT_TABLE_ENTRY_SIZE in *. cbn [tbl_addr_offset c cache].
  destruct (position_bounds te ee c eq_refl e He) as [Hp _]. pose proof (position_le m0 meta ids e) as Hl. fold c in Hl.
  rewrite trunc_id; rewrite trunc_id; unfold fits; lia.
Qed.

Lemma dma_index_field e ofs d w :
  0 <= e < te + ee -> 0 <= ofs < IPA_NAT_INDEX_TABLE_ENTRY_SIZE -> write16_index ofs d (fi e) = Some w ->
  exists m', dma_write {| dma_table_index := 0; dma_base_addr := if in_expn c e then IPA_NAT_INDEX_EXPN_TBL else IPA_NAT_INDX_TBL;
                          dma_data := d; dma_offset := ipa_nati_get_index_entry_offset c (position c e) + ofs |} m = Some m' /\
    ipa_nati_get_index_entry_offset c (position c e) + ofs < 2 ^ 16 /\ mem_rep te ee m' fr (<[e := w]> fi).
Proof.
  intros He Ho Hw. assert (ipa_nati_get_index_entry_offset c (position c e) = 4 * position c e /\ 0 <= 4 * position c e + ofs < 2 ^ 16) as [Hof Hb].
  { unfold ipa_nati_get_index_entry_offset, IPA_NAT_INDEX_TABLE_ENTRY_SIZE in *. cbn [tbl_addr_offset c cache].
    destruct (position_bounds te ee c eq_refl e He) as (Hp & Hp1 & Hp2).
    assert (position c e < 16384) by (destruct (in_expn c e); [destruct Hp1|destruct Hp2]; auto; lia).
    rewrite trunc_id; unfold fits; lia. }
  rewrite Hof. destruct (dma_index_ok te ee c eq_refl m fr fi e ofs d w
    {| dma_table_index := 0; dma_base_addr := if in_expn c e then IPA_NAT_INDEX_EXPN_TBL else IPA_NAT_INDX_TBL;
       dma_data := d; dma_offset := 4 * position c e + ofs |} Hm He Ho Hw) as (m' & Hd & Hm'); [done..|].
  exists m'. split; [done|]. split; [lia|done].
Qed.
End fields.

Section copies.
Context (m : nat_mem) (fr : Z -> ipa_nat_rule) (fi : Z -> Z) (Hm : mem_rep te ee m fr fi).
Context (meta ids : list Z) (w : W).

Lemma wp_copy_rule rule e Q :
  0 <= e < te + ee -> 0 <= sw_prev_index rule < te + ee ->
  (forall m' w', mem_rep te ee m' (fn_link fr e (sw_prev_index rule) (rule_words rule) (set_next e)) fi ->
     Q tt (st m' meta ids w')) ->
  wp (ipa_nati_copy_ipv4_rule_to_hw rule e 0) Q (st m meta ids w).
Proof.
  intros He Hp HQ. apply wp_bind, wp_get_tbl.
  destruct (upd_rule_ok te ee (cache m meta ids) eq_refl m fr fi e (fun _ => rule_words rule) Hm He) as (m1 & Hu1 & Hm1).
  apply wp_bind, (wp_write_mem _ _ _ _ _ m1); [done|]. cbv zeta. unfold fn_link in HQ. unfold IPA_NAT_INVALID_NAT_ENTRY.
  destruct (Z.eqb_spec (sw_prev_index rule) 0) as [Hz|Hz]; simpl.
  - rewrite decide_True in HQ by done. by apply wp_ret, HQ.
  - rewrite decide_False in HQ by done.
    edestruct (dma_field m1 _ fi Hm1 m meta ids (sw_prev_index rule) IPA_NAT_RULE_NEXT_FIELD_OFFSET e) as (m2 & Hd & Hm2);
      [done..|].
    apply (wp_write_next m1 meta ids w _ _ _ m2); [exact Hd|]. intros w'. by apply HQ.
Qed.

Lemma wp_copy_index_rule rule i Q :
  0 <= i < te + ee -> 0 <= ix_prev_index rule < te + ee ->
  (forall m' w', mem_rep te ee m' fr (fn_link fi i (ix_prev_index rule) (word (ix_tbl_entry rule) (ix_next_index rule))
       (fun w => word (lo16 w) i)) -> Q tt (st m' meta ids w')) ->
  wp (ipa_nati_copy_ipv4_index_rule_to_hw rule i 0) Q (st m meta ids w).
Proof.
  intros He Hp HQ. apply wp_bind, wp_get_tbl.
  destruct (upd_index_rule_ok te ee (cache m meta ids) eq_refl m fr fi i
    (fun _ => word (ix_tbl_entry rule) (ix_next_index rule)) Hm He) as (m1 & Hu1 & Hm1).
  apply wp_bind, (wp_write_mem _ _ _ _ _ m1); [done|]. cbv zeta. unfold fn_link in HQ. unfold IPA_NAT_INVALID_NAT_ENTRY.
  destruct (Z.eqb_spec (ix_prev_index rule) 0) as [Hz|Hz]; simpl.
  - rewrite decide_True in HQ by done. by apply wp_ret, HQ.
  - rewrite decide_False in HQ by done.
    edestruct (dma_index_field m1 fr _ Hm1 m meta ids (ix_prev_index rule) IPA_NAT_INDEX_RULE_NEXT_FIELD_OFFSET i)
      as (m2 & Hd & Hlt & Hm2); [done..|].
    assert (0 <= ipa_nati_get_index_entry_offset (cache m meta ids) (position (cache m meta ids) (ix_prev_index rule)))
      by (apply trunc_fits; lia).
    unfold IPA_NAT_INDEX_RULE_NEXT_FIELD_OFFSET in *.
    rewrite (trunc_id 16 (ipa_nati_get_index_entry_offset _ _)), trunc_id by (unfold fits; lia).
    apply (wp_write_next m1 meta ids w _ _ _ m2); [exact Hd|]. intros w'. by apply HQ.
Qed.

(** The rule becomes visible to the hardware. *)
Lemma wp_enable e Q :
  0 <= e < te + ee ->
  (forall m' w', mem_rep te ee m' (<[e := set_flag IPA_NAT_FLAG_ENABLE_BIT_MASK (fr e)]> fr) fi -> Q 0 (st m' meta ids w')) ->
  wp (ipa_nati_post_ipv4_dma_cmd 0 e) Q (st m meta ids w).
Proof.
  intros He HQ. apply wp_bind, wp_get_tbl, wp_bind, wp_nk_malloc. intros w'. simpl.
  edestruct (dma_field m fr fi Hm m meta ids e IPA_NAT_RULE_FLAG_FIELD_OFFSET IPA_NAT_FLAG_ENABLE_BIT_MASK) as (m2 & Hd & Hm2);
    [done..|].
  apply wp_bind, (wp_post_dma _ _ _ _ _ m2).
  - match type of Hd with dma_write ?x _ = _ => trans (dma_writes [x] m); [|cbn [dma_writes]; by rewrite Hd] end. do 3 f_equal.
    unfold ipa_nati_get_entry_offset, IPA_NAT_TABLE_ENTRY_SIZE, IPA_NAT_RULE_FLAG_FIELD_OFFSET. cbn [tbl_addr_offset cache].
    destruct (position_bounds te ee (cache m meta ids) eq_refl e He) as [Hp _]. pose proof (position_le m meta ids e) as Hl.
    destruct (in_expn _ _); rewrite !trunc_id; rewrite ?trunc_id; unfold fits; lia.
  - intros w2. apply wp_ret. by apply HQ.
Qed.
End copies.
End ops.
