(* ===== verification/NatTableRep.v ===== *)
(** * The NAT table as a map

    The states of the library that hold a table, and the map from rule handles to
    rules that such a state stands for. *)
From S2P Require Import Prelude Config NatDrv StateM NatTable NatChain NatTableInv NatTableSteps NatTableOps.
From stdpp Require Import base functions list gmap.
From Stdlib Require Import ZArith Lia.

Open Scope Z_scope.

Section rep.
Context (te ee : Z).
Hypothesis Hte : 2 <= te <= 16384.
Hypothesis Hee : 2 <= ee <= 16384.
Abbreviation entry_ok := (entry_ok te ee).

(** ** Handles

    [rule_id] of an entry, and back. *)
Definition rid (x : Z) : Z :=
  if te <=? x then Z.lor (trunc 16 (Z.shiftl (x - te) IPA_NAT_RULE_HDL_TBL_TYPE_BITS)) IPA_NAT_RULE_HDL_TBL_TYPE_MASK
  else trunc 16 (Z.shiftl x IPA_NAT_RULE_HDL_TBL_TYPE_BITS).
Definition rid_entry (v : Z) : Z := if v mod 2 =? 0 then v / 2 else te + v / 2.

Lemma rid_val x : entry_ok x -> rid x = if te <=? x then 2 * (x - te) + 1 else 2 * x.
Proof.
  unfold NatChain.entry_ok, in_base, in_exp, rid, IPA_NAT_RULE_HDL_TBL_TYPE_BITS, IPA_NAT_RULE_HDL_TBL_TYPE_MASK. intros Hx.
  rewrite !Z.shiftl_mul_pow2 by lia. destruct (Z.leb_spec te x).
  - rewrite trunc_id by (unfold fits; lia). rewrite <- Z.shiftl_mul_pow2, Z.lor_comm, lor_shiftl by (unfold fits; lia). lia.
  - rewrite trunc_id by (unfold fits; lia). lia.
Qed.

Lemma rid_nonzero x : entry_ok x -> rid x <> 0.
Proof. intros Hx. rewrite rid_val by done. unfold NatChain.entry_ok, in_base, in_exp in Hx. destruct (Z.leb_spec te x); lia. Qed.

Lemma rid_entry_rid x : entry_ok x -> rid_entry (rid x) = x.
Proof.
  intros Hx. rewrite rid_val by done. unfold rid_entry. unfold NatChain.entry_ok, in_base, in_exp in Hx.
  destruct (Z.leb_spec te x); case_match; bool_to_prop; dlia.
Qed.

Lemma rid_inj x y : entry_ok x -> entry_ok y -> rid x = rid y -> x = y.
Proof. intros Hx Hy Heq. rewrite <- (rid_entry_rid x), <- (rid_entry_rid y) by done. by rewrite Heq. Qed.

Lemma rid_parse c x :
  table_entries c = te -> entry_ok x ->
  negb (Z.land (rid x) IPA_NAT_RULE_HDL_TBL_TYPE_MASK =? 0) = in_expn c x /\
  Z.shiftr (rid x) IPA_NAT_RULE_HDL_TBL_TYPE_BITS = position c x /\ position c x <> IPA_NAT_INVALID_NAT_ENTRY.
Proof.
  intros Hc Hx. rewrite rid_val by done. unfold position, in_expn, IPA_NAT_RULE_HDL_TBL_TYPE_MASK, IPA_NAT_RULE_HDL_TBL_TYPE_BITS, IPA_NAT_INVALID_NAT_ENTRY.
  match goal with |- context [Z.land ?a 1] => change (Z.land a 1) with (Z.land a (Z.ones 1)) end.
  rewrite Hc, Z.land_ones, Z.shiftr_div_pow2 by lia. unfold NatChain.entry_ok, in_base, in_exp in Hx.
  change (2 ^ 1) with 2. destruct (Z.leb_spec te x); (split_and!; [|dlia|dlia]).
  - apply negb_true_iff, Z.eqb_neq. dlia.
  - apply negb_false_iff, Z.eqb_eq. dlia.
Qed.

(** What [rule_id_array] says: [M] is the map it stands for. *)
Record hdl_ok (fr : Z -> ipa_nat_rule) (ids : list Z) (Mp : gmap Z ipa_nat_ipv4_rule) : Prop := {
  hd_len : Z.of_nat (length ids) = te + ee;
  hd_map h r : Mp !! h = Some r <-> 1 <= h /\ exists x, entry_ok x /\ ids !! Z.to_nat (h - 1) = Some (rid x) /\ rule_in (fr x) = Some r;
  hd_slot k v : ids !! k = Some v -> v <> 0 ->
    exists x, entry_ok x /\ v = rid x /\ is_Some (rule_in (fr x)) /\ Z.of_nat k + 1 < te + ee;
  hd_inj j k v : ids !! j = Some v -> ids !! k = Some v -> v <> 0 -> j = k;
  hd_all x : entry_ok x -> is_Some (rule_in (fr x)) -> exists k, ids !! k = Some (rid x)
}.

(** There is always a free handle: the tables have fewer entries. *)
Lemma free_handle fr ids Mp :
  hdl_ok fr ids Mp ->
  exists k, find_index (fun x => x =? IPA_NAT_INVALID_NAT_ENTRY) ids = Some k /\ ids !! k = Some 0 /\ Z.of_nat k + 1 < te + ee.
Proof.
  intros Hh. set (p := fun x => x =? IPA_NAT_INVALID_NAT_ENTRY). set (n := Z.to_nat (te + ee - 1)).
  destruct (find_index p (take n ids)) as [k|] eqn:Hf.
  - apply find_index_Some in Hf as (v & [Hv Hk]%lookup_take_Some & Hp & Hlt). exists k.
    assert (v = 0) as -> by by apply Z.eqb_eq. split_and!; [|done|lia]. apply (find_index_intro p ids k 0); [done|done|].
    intros j y Hj Hy. apply (Hlt j y Hj). apply lookup_take_Some. split; [done|lia].
  - exfalso. apply find_index_None in Hf. rewrite Forall_forall in Hf.
    assert (forall v, v ∈ take n ids -> exists k x, ids !! k = Some v /\ v <> 0 /\ entry_ok x /\ v = rid x) as Hall.
    { intros v Hv. pose proof (Hf v Hv) as Hz%Z.eqb_neq. apply list_elem_of_lookup in Hv as [k [Hk _]%lookup_take_Some].
      destruct (hd_slot _ _ _ Hh k v Hk Hz) as (x & ? & ? & _). by exists k, x. }
    pose proof (hd_len _ _ _ Hh) as Hlen.
    assert (length (te :: (rid_entry <$> take n ids)) <= n)%nat as Hl.
    { apply (bounded_length _ 1).
      - apply NoDup_cons. split.
        + intros (v & Heq & Hv)%list_elem_of_fmap. destruct (Hall v Hv) as (k & x & _ & _ & Hx & ->).
          rewrite rid_entry_rid in Heq by done. unfold NatChain.entry_ok, in_base, in_exp in Hx. lia.
        + apply NoDup_fmap_2_strong.
          * intros v v' Hv Hv'. destruct (Hall v Hv) as (_ & x & _ & _ & Hx & ->), (Hall v' Hv') as (_ & x' & _ & _ & Hx' & ->).
            rewrite !rid_entry_rid by done. by intros ->.
          * apply NoDup_alt. intros j k v Hj Hk. destruct (Hall v) as (_ & _ & _ & Hz & _); [by eapply list_elem_of_lookup_2|].
            apply lookup_take_Some in Hj as [Hj _]. apply lookup_take_Some in Hk as [Hk _]. by apply (hd_inj _ _ _ Hh j k v).
      - intros y [->|(v & -> & Hv)%list_elem_of_fmap]%elem_of_cons; [lia|]. destruct (Hall v Hv) as (_ & x & _ & _ & Hx & ->).
        rewrite rid_entry_rid by done. unfold NatChain.entry_ok, in_base, in_exp in Hx. lia. }
    rewrite length_cons, length_fmap, length_take in Hl. lia.
Qed.

(** A rule gets a handle. *)
Lemma hdl_insert fr fr' ids Mp e clnt k :
  hdl_ok fr ids Mp -> entry_ok e -> rule_in (fr e) = None ->
  (forall x, entry_ok x -> rule_in (fr' x) = if decide (x = e) then Some clnt else rule_in (fr x)) ->
  ids !! k = Some 0 -> Z.of_nat k + 1 < te + ee ->
  Mp !! (Z.of_nat k + 1) = None /\ hdl_ok fr' (<[k := rid e]> ids) (<[Z.of_nat k + 1 := clnt]> Mp).
Proof.
  intros Hh He Hre HR Hk Hkb. pose proof (lookup_lt_Some _ _ _ Hk) as Hlt.
  assert (Mp !! (Z.of_nat k + 1) = None) as Hfresh.
  { destruct (Mp !! _) as [r|] eqn:Hm; [|done]. apply (hd_map _ _ _ Hh) in Hm as (_ & x & Hx & Hi & _).
    replace (Z.to_nat (Z.of_nat k + 1 - 1)) with k in Hi by lia. rewrite Hk in Hi. simplify_eq. by destruct (rid_nonzero x). }
  assert (forall j, ids !! j = Some (rid e) -> False) as Hnew.
  { intros j Hj. destruct (hd_slot _ _ _ Hh j _ Hj) as (x & Hx & Heq & [r Hr] & _); [by apply rid_nonzero|].
    apply rid_inj in Heq as ->; congruence. }
  split; [done|]. split.
  - rewrite length_insert. apply Hh.
  - intros h r. destruct (decide (h = Z.of_nat k + 1)) as [->|Hne].
    + rewrite lookup_insert_eq. replace (Z.to_nat (Z.of_nat k + 1 - 1)) with k by lia. rewrite list_lookup_insert_eq by done.
      split.
      * intros [= ->]. split; [lia|]. exists e. by rewrite HR, decide_True.
      * intros (_ & x & Hx & [= Heq] & Hr). apply rid_inj in Heq as <-; [|done..]. by rewrite HR, decide_True in Hr.
    + rewrite lookup_insert_ne by done. rewrite (hd_map _ _ _ Hh). split; intros (Hh1 & x & Hx & Hi & Hr); (split; [done|]); exists x;
        rewrite list_lookup_insert_ne in * by lia; (split; [done|]); (split; [done|]).
      * rewrite HR by done. rewrite decide_False; [done|congruence].
      * rewrite HR in Hr by done. rewrite decide_False in Hr; [done|]. intros ->. by eapply Hnew.
  - intros j v Hj Hv. apply list_lookup_insert_Some in Hj as [(-> & <- & _)|[Hne Hj]].
    + exists e. rewrite HR, decide_True by done. by split_and!.
    + destruct (hd_slot _ _ _ Hh j v Hj Hv) as (x & Hx & -> & [r Hr] & ?). exists x. rewrite HR by done.
      rewrite decide_False by congruence. by split_and!.
  - intros j1 j2 v H1 H2 Hv. apply list_lookup_insert_Some in H1 as [(-> & <- & _)|[? H1]];
      apply list_lookup_insert_Some in H2 as [(-> & Heq & _)|[? H2]]; try done.
    + by destruct (Hnew j2).
    + subst. by destruct (Hnew j1).
    + by apply (hd_inj _ _ _ Hh j1 j2 v).
  - intros x Hx Hr. rewrite HR in Hr by done. case_decide as Hxe.
    + subst. exists k. by apply list_lookup_insert_eq.
    + destruct (hd_all _ _ _ Hh x Hx Hr) as [j Hj]. exists j. rewrite list_lookup_insert_ne; [done|]. intros <-.
      rewrite Hk in Hj. simplify_eq. by destruct (rid_nonzero x).
Qed.

(** A rule and its handle go. *)
Lemma hdl_delete fr fr' ids Mp e h r :
  hdl_ok fr ids Mp -> entry_ok e -> 1 <= h -> ids !! Z.to_nat (h - 1) = Some (rid e) -> rule_in (fr e) = Some r ->
  (forall x, entry_ok x -> rule_in (fr' x) = if decide (x = e) then None else rule_in (fr x)) ->
  hdl_ok fr' (<[Z.to_nat (h - 1) := 0]> ids) (delete h Mp).
Proof.
  intros Hh He Hh1 Hk Hre HR. pose proof (lookup_lt_Some _ _ _ Hk) as Hlt.
  assert (forall j, ids !! j = Some (rid e) -> j = Z.to_nat (h - 1)) as Honly.
  { intros j Hj. apply (hd_inj _ _ _ Hh j _ (rid e)); [done|done|by apply rid_nonzero]. }
  split.
  - rewrite length_insert. apply Hh.
  - intros h' r'. destruct (decide (h' = h)) as [->|Hne].
    + rewrite lookup_delete_eq, list_lookup_insert_eq by done. split; [done|]. intros (_ & x & Hx & [= Heq] & _).
      by destruct (rid_nonzero x).
    + rewrite lookup_delete_ne by done. rewrite (hd_map _ _ _ Hh). split; intros (Hp & x & Hx & Hi & Hr); (split; [done|]); exists x;
        rewrite list_lookup_insert_ne in * by lia; (split; [done|]); (split; [done|]).
      * rewrite HR by done. rewrite decide_False; [done|]. intros ->. apply Honly in Hi. lia.
      * rewrite HR in Hr by done. by case_decide.
  - intros j v Hj Hv. apply list_lookup_insert_Some in Hj as [(<- & <- & _)|[Hne Hj]]; [done|].
    destruct (hd_slot _ _ _ Hh j v Hj Hv) as (x & Hx & -> & Hr & ?). exists x. rewrite HR by done.
    rewrite decide_False; [by split_and!|]. intros ->. apply Honly in Hj. congruence.
  - intros j1 j2 v H1 H2 Hv. apply list_lookup_insert_Some in H1 as [(<- & <- & _)|[? H1]]; [done|].
    apply list_lookup_insert_Some in H2 as [(<- & <- & _)|[? H2]]; [done|]. by apply (hd_inj _ _ _ Hh j1 j2 v).
  - intros x Hx Hr. rewrite HR in Hr by done. case_decide as Hxe; [by destruct Hr|].
    destruct (hd_all _ _ _ Hh x Hx Hr) as [j Hj]. exists j. rewrite list_lookup_insert_ne; [done|]. intros <-.
    rewrite Hk in Hj. injection Hj as Heq. apply Hxe. symmetry. by apply rid_inj.
Qed.

(** ** States *)

(** [index_expn_table_meta] holds the predecessors in the expansion table. *)
Definition meta_rep (meta : list Z) (fm : Z -> Z) : Prop :=
  Z.of_nat (length meta) = ee /\ forall x, te <= x < te + ee -> at_index meta (x - te) = Some (fm x).

Lemma meta_upd meta fm x v :
  meta_rep meta fm -> te <= x < te + ee ->
  exists meta', upd_index (x - te) (fun _ => v) meta = Some meta' /\ meta_rep meta' (<[x := v]> fm).
Proof.
  intros [Hl Hm] Hx. destruct (upd_index_ok (x - te) (fun _ => v) meta) as (meta' & Hu & Hlen & Hat); [lia|].
  exists meta'. split; [done|]. split; [lia|]. intros y Hy. rewrite Hat. destruct (decide (y = x)) as [->|Hne].
  - by rewrite decide_True, fn_lookup_insert, Hm by done.
  - rewrite decide_False, fn_lookup_insert_ne by lia. by apply Hm.
Qed.

Record nat_data (m : nat_mem) (meta ids : list Z) (fr : Z -> ipa_nat_rule) (fi fm : Z -> Z)
    (Mp : gmap Z ipa_nat_ipv4_rule) : Prop := {
  nd_mem : mem_rep te ee m fr fi;
  nd_meta : meta_rep meta fm;
  nd_inv : tbl_inv te ee fr fi fm;
  nd_hdl : hdl_ok fr ids Mp;
  nd_fits x : entry_ok x -> fits 32 (sw_spec_params (fr x))
}.

(** A free entry of the tables for a hash value. *)
Lemma place_arrays {A} (next : A -> Z) (busy : A -> bool) base expn f prv ch b :
  arrays te ee base expn f -> store_ok te ee (fun x => busy (f x)) (fun x => next (f x)) prv ch -> in_base te b ->
  (exists p, place next busy base expn te ee b = Some (IPA_NAT_INVALID_NAT_ENTRY, p) /\
     forall e, in_exp te ee e -> busy (f e) = true) \/
  (exists e p, place next busy base expn te ee b = Some (e, p) /\
     placed te ee (used := fun x => busy (f x)) (ch := ch) b e p).
Proof.
  intros [Hb He Hlo Hhi] S Hin.
  edestruct (place_ok next busy te ee base expn f prv ch ltac:(lia) ltac:(lia) He) with (b := b)
    as [[Hu Hp]|[(Hu & Hall & p & Hp)|(Hu & e & Hx & Hf & Hp)]]; try done.
  - intros x Hx. apply Hlo. unfold in_base in Hx. lia.
  - intros x Hx. apply Hhi. unfold in_exp in Hx. lia.
  - right. exists b, 0. split; [done|]. left. done.
  - left. by exists p.
  - right. eexists e, _. split; [done|]. right. done.
Qed.
End rep.

(** The states of the library that hold a table which stands for [Mp]. *)
Definition nat_rep {W : Type} (te ee pub : Z) (Mp : gmap Z ipa_nat_ipv4_rule) (s : ipa_nat_cache * (W * unit)) : Prop :=
  exists nfd size fd cnt m meta ids w fr fi fm,
    s = st te ee pub nfd size fd cnt m meta ids w /\ nat_data te ee m meta ids fr fi fm Mp.

Lemma nat_rep_intro {W : Type} te ee pub nfd size fd cnt m meta ids (w : W) fr fi fm Mp :
  nat_data te ee m meta ids fr fi fm Mp -> nat_rep te ee pub Mp (st te ee pub nfd size fd cnt m meta ids w).
Proof. intros D. exists nfd, size, fd, cnt, m, meta, ids, w, fr, fi, fm. by split. Qed.
