(* ===== verification/NatTableAdd.v ===== *)
(** * Adding a rule to the NAT table

    [ipa_nati_add_ipv4_rule] run on a state that stands for a map: the rule enters
    the map under a fresh handle, or an expansion table is full and nothing changes. *)
From S2P Require Import Prelude Config NatDrv StateM NatTable NatChain NatTableInv NatTableSteps NatTableOps NatTableRep.
From stdpp Require Import base functions list gmap.
From Stdlib Require Import ZArith Lia.

Open Scope Z_scope.
Open Scope method_scope.

(** No free entry in one of the expansion tables. *)
Definition expn_full (te ee : Z) (fr : Z -> ipa_nat_rule) (fi : Z -> Z) : Prop :=
  (forall e, in_exp te ee e -> enabled (fr e) = true) \/ (forall e, in_exp te ee e -> ix_used (fi e) = true).

Section add.
Context {W : Type} `{NatReliable W}.
Context (te ee pub nfd size fd cnt : Z).
Hypothesis Hte : 2 <= te <= 16384.
Hypothesis Hee : 2 <= ee <= 16384.
Abbreviation st := (st te ee pub nfd size fd cnt).
Abbreviation in_exp := (in_exp te ee).
Abbreviation entry_ok := (entry_ok te ee).

Lemma entry_range x : entry_ok x -> 0 <= x < te + ee /\ fits 16 x /\ x <> 0.
Proof. unfold NatChain.entry_ok, in_base, NatChain.in_exp, fits. lia. Qed.

Lemma generate_tbl m meta ids clnt e p :
  place next_of enabled (rules m) (expn_rules m) te ee (dst_of te clnt) = Some (e, p) ->
  ipa_nati_generate_tbl_rule clnt (cache te ee pub nfd size m meta ids) = Some (e, sw_rule_of clnt pub p).
Proof. intros Hp. unfold ipa_nati_generate_tbl_rule. simpl. fold (dst_of te clnt). by rewrite Hp. Qed.

Lemma generate_index m meta ids clnt e i ip :
  place ix_next ix_used (index_table m) (index_table_expn m) te ee (src_of te clnt) = Some (i, ip) -> (ip <> 0 -> ip <> i) ->
  ipa_nati_generate_index_rule clnt e (cache te ee pub nfd size m meta ids) =
    Some (i, {| ix_tbl_entry := e; ix_next_index := 0; ix_prev_index := ip |}).
Proof.
  intros Hp Hne. unfold ipa_nati_generate_index_rule. simpl. fold (src_of te clnt). rewrite Hp. simpl.
  destruct (Z.eqb_spec ip 0); [done|]. destruct (Z.eqb_spec ip i); [naive_solver|done].
Qed.

Section generate.
Context (m : nat_mem) (meta ids : list Z) (w : W) (fr : Z -> ipa_nat_rule) (fi fm : Z -> Z) (Mp : gmap Z ipa_nat_ipv4_rule).
Context (D : nat_data te ee m meta ids fr fi fm Mp) (chr chi : Z -> list Z) (T : tbl_ok te ee fr fi fm chr chi).
Context (clnt : ipa_nat_ipv4_rule) (Hc : rule_ok clnt).

Lemma wp_generate (Q : option (ipa_nat_sw_rule * ipa_nat_indx_tbl_sw_rule * Z * Z) -> ipa_nat_cache * (W * unit) -> Prop) :
  (expn_full te ee fr fi -> Q None (st m meta ids w)) ->
  (forall e p i ip meta' fm',
     placed te ee (used := fun x => enabled (fr x)) (ch := chr) (dst_of te clnt) e p ->
     placed te ee (used := fun x => ix_used (fi x)) (ch := chi) (src_of te clnt) i ip ->
     meta_rep te ee meta' fm' -> (forall x, in_exp x -> fm' x = if decide (x = i) then ip else fm x) ->
     Q (Some (sw_rule_of clnt pub p <| sw_indx_tbl_entry := i |>,
              {| ix_tbl_entry := e; ix_next_index := 0; ix_prev_index := ip |}, e, i)) (st m meta' ids w)) ->
  wp (ipa_nati_generate_rule 1 clnt) Q (st m meta ids w).
Proof.
  intros Hfull HQ. destruct (nd_mem _ _ _ _ _ _ _ _ _ D) as [Ar Ai]. pose proof (dst_in_base te clnt ltac:(lia)) as Hb.
  pose proof (src_in_base te clnt ltac:(lia)) as Hib.
  apply wp_bind, wp_get_tbl, wp_bind.
  destruct (place_arrays te ee Hte Hee next_of enabled _ _ fr _ chr _ Ar (ti_rules _ _ _ _ _ _ _ T) Hb)
    as [(p & Hp & Hall)|(e & p & Hp & Hpl)].
  { eapply wp_deref; [by apply generate_tbl|]. apply wp_ret, Hfull. by left. }
  eapply wp_deref; [by apply generate_tbl|].
  destruct (placed_entry te ee _ _ _ _ _ _ _ (ti_rules _ _ _ _ _ _ _ T) Hb Hpl) as (He & _).
  destruct (entry_range e He) as (_ & _ & Hez). rewrite (proj2 (Z.eqb_neq e _)) by done. apply wp_bind.
  destruct (place_arrays te ee Hte Hee ix_next ix_used _ _ fi _ chi _ Ai (ti_index _ _ _ _ _ _ _ T) Hib)
    as [(ip & Hip & Hall)|(i & ip & Hip & Hipl)].
  { eapply wp_deref.
    - unfold ipa_nati_generate_index_rule. simpl. fold (src_of te clnt). by rewrite Hip.
    - destruct (negb _ && _); apply wp_ret, Hfull; by right. }
  destruct (placed_entry te ee _ _ _ _ _ _ _ (ti_index _ _ _ _ _ _ _ T) Hib Hipl) as (Hi & _ & Hiip & _).
  eapply wp_deref; [apply generate_index; [done|congruence]|].
  destruct (entry_range i Hi) as (Hir & _ & Hiz). rewrite (proj2 (Z.eqb_neq i _)) by done.
  apply wp_bind. destruct (in_expn (cache te ee pub nfd size m meta ids) i) eqn:Hx.
  - destruct (position_bounds te ee (cache te ee pub nfd size m meta ids) eq_refl i Hir) as (_ & [Hpos Hti] & _); [done|].
    apply wp_bind. eapply wp_deref; [done|]. rewrite Hpos.
    destruct (meta_upd te ee meta fm i ip (nd_meta _ _ _ _ _ _ _ _ _ D)) as (meta' & Hu & Hmeta); [lia|].
    apply wp_bind. eapply wp_deref; [exact Hu|]. apply wp_upd_obj, wp_ret. eapply HQ; [done|done|exact Hmeta|].
    intros x Hx'. destruct (decide (x = i)) as [->|]; [by rewrite fn_lookup_insert|by rewrite fn_lookup_insert_ne].
  - apply wp_ret, wp_ret. eapply HQ; [done|done|apply D|]. intros x Hx'. rewrite decide_False; [done|]. intros ->.
    unfold in_expn in Hx. cbn in Hx. bool_to_prop. unfold NatChain.in_exp in Hx'. lia.
Qed.
End generate.

(** ** The entries afterwards *)

Lemma rule_in_link e r : fits 16 e -> rule_in (set_next e r) = rule_in r.
Proof. intros He. unfold rule_in. by rewrite client_set_next. Qed.

Lemma rule_set_flag d r : client_rule (set_flag d r) = client_rule r.
Proof. reflexivity. Qed.
Lemma proto_set_flag d r : proto_of (set_flag d r) = proto_of r.
Proof. reflexivity. Qed.

(** A new rule that is enabled. *)
Definition live_rule (clnt : ipa_nat_ipv4_rule) (p i : Z) : ipa_nat_rule :=
  set_flag IPA_NAT_FLAG_ENABLE_BIT_MASK (new_rule clnt pub p i).

Lemma live_rule_views clnt p i :
  rule_ok clnt -> fits 16 p -> fits 16 i ->
  let r := live_rule clnt p i in
  enabled r = true /\ next_of r = 0 /\ prev_of r = p /\ indx_of r = i /\ rule_in r = Some clnt /\ fits 32 (sw_spec_params r).
Proof.
  intros Hc Hp Hi r. destruct (new_rule_views clnt pub p i Hc Hp) as (_ & Hn & Hpv & Hj & Hr).
  unfold r, live_rule. set (n := new_rule clnt pub p i) in *.
  split_and!; [apply enabled_flag_on|exact Hn|exact Hpv|exact Hj| |by apply word_fits].
  unfold rule_in, alive. rewrite enabled_flag_on, rule_set_flag, proto_set_flag, Hr.
  assert (proto_of n = r_protocol clnt) as -> by (by rewrite <- Hr).
  destruct (ok_protocol _ Hc). rewrite (proj2 (Z.eqb_neq _ _)) by lia. done.
Qed.

Lemma index_link_views (fi : Z -> Z) e i ip x :
  entry_ok e -> entry_ok i -> i <> ip -> entry_ok x ->
  let w := fn_link fi i ip (word e 0) (fun w => word (lo16 w) i) x in
  ix_entry w = (if decide (x = i) then e else ix_entry (fi x)) /\
  ix_next w = (if decide (x = i) then 0 else if decide (x = ip) then i else ix_next (fi x)).
Proof.
  intros He Hi Hne Hx w. destruct (entry_range _ He) as (_ & Hef & _), (entry_range _ Hx) as (_ & _ & Hxz).
  unfold w. rewrite fn_link_lookup by done. unfold ix_entry, ix_next. cbn [Read16BitFieldValue].
  destruct (decide (x = i)); [by rewrite lo16_word, hi16_word|]. destruct (decide (x = ip)) as [->|]; [|done].
  rewrite lo16_word, hi16_word by apply lo16_fits. done.
Qed.

Section added.
Context (m : nat_mem) (meta ids : list Z) (fr : Z -> ipa_nat_rule) (fi fm : Z -> Z) (Mp : gmap Z ipa_nat_ipv4_rule).
Context (D : nat_data te ee m meta ids fr fi fm Mp) (chr chi : Z -> list Z) (T : tbl_ok te ee fr fi fm chr chi).
Context (clnt : ipa_nat_ipv4_rule) (Hc : rule_ok clnt).
Context (e p i ip : Z) (Hp : placed te ee (used := fun x => enabled (fr x)) (ch := chr) (dst_of te clnt) e p)
  (Hip : placed te ee (used := fun x => ix_used (fi x)) (ch := chi) (src_of te clnt) i ip).

Definition added : Z -> ipa_nat_rule :=
  let fr := fn_link fr e p (new_rule clnt pub p i) (set_next e) in
  <[e := set_flag IPA_NAT_FLAG_ENABLE_BIT_MASK (fr e)]> fr.

Lemma placed_bounds :
  entry_ok e /\ enabled (fr e) = false /\ rule_in (fr e) = None /\ e <> p /\ (p = 0 \/ entry_ok p) /\
  entry_ok i /\ i <> ip /\ (ip = 0 \/ entry_ok ip).
Proof.
  destruct (placed_entry te ee _ _ _ _ _ _ _ (ti_rules _ _ _ _ _ _ _ T) (dst_in_base te clnt ltac:(lia)) Hp) as (? & Hu & ? & Hpc).
  destruct (placed_entry te ee _ _ _ _ _ _ _ (ti_index _ _ _ _ _ _ _ T) (src_in_base te clnt ltac:(lia)) Hip) as (? & _ & ? & Hipc).
  split_and!; try done; [| |]; try naive_solver. destruct (rule_in (fr e)) eqn:Hr; [|done].
  rewrite rule_in_enabled in Hu by (by eexists). done.
Qed.

Lemma added_lookup x :
  entry_ok x -> added x = if decide (x = e) then live_rule clnt p i else if decide (x = p) then set_next e (fr x) else fr x.
Proof.
  intros Hx. destruct placed_bounds as (He & _ & _ & Hep & _). destruct (entry_range _ Hx) as (_ & _ & Hxz).
  unfold added. destruct (decide (x = e)) as [->|Hne].
  - rewrite fn_lookup_insert, fn_link_lookup by done. by rewrite decide_True.
  - rewrite fn_lookup_insert_ne, fn_link_lookup by done. by rewrite decide_False.
Qed.

Lemma added_rule_in x : entry_ok x -> rule_in (added x) = if decide (x = e) then Some clnt else rule_in (fr x).
Proof.
  intros Hx. destruct placed_bounds as (He & _ & _ & _ & Hpc & Hi & _).
  assert (fits 16 p) as Hpf by (destruct Hpc as [->|Hpo]; [done|by apply entry_range]).
  destruct (live_rule_views clnt p i Hc Hpf) as (_ & _ & _ & _ & Hr & _); [by apply entry_range|].
  rewrite added_lookup by done. repeat case_decide; [done|apply rule_in_link; by apply entry_range|done].
Qed.

Lemma added_inv fm' :
  (forall x, in_exp x -> fm' x = if decide (x = i) then ip else fm x) ->
  tbl_inv te ee added (fn_link fi i ip (word e 0) (fun w => word (lo16 w) i)) fm' /\
  (forall x, entry_ok x -> fits 32 (sw_spec_params (added x))).
Proof.
  intros HM. destruct placed_bounds as (He & _ & _ & _ & Hpc & Hi & Hiip & _).
  assert (fits 16 p) as Hpf by (destruct Hpc as [->|Hpo]; [done|by apply entry_range]).
  destruct (live_rule_views clnt p i Hc Hpf) as (Hu & Hn & Hpv & Hj & Hr & Hf); [by apply entry_range|].
  split.
  - eapply (tbl_add te ee); [lia|exact T|reflexivity|apply dst_in_base; lia|reflexivity|apply src_in_base; lia|exact Hp|exact Hip|..];
      [| | | |exact added_rule_in|intros x Hx; by apply index_link_views|intros x Hx; by apply index_link_views|exact HM];
      intros x Hx; rewrite added_lookup by done; destruct (decide (x = e)); [done| |done| |done| |done|];
      destruct (decide (x = p)); try reflexivity.
    apply next_set_next. by apply entry_range.
  - intros x Hx. rewrite added_lookup by done. repeat case_decide; [done|by apply D|by apply D].
Qed.
End added.

(** ** The operation *)

Lemma wp_make_handle m meta ids w fr Mp e (Q : Z -> ipa_nat_cache * (W * unit) -> Prop) :
  hdl_ok te ee fr ids Mp ->
  (forall k, ids !! k = Some 0 -> Z.of_nat k + 1 < te + ee -> Q (Z.of_nat k + 1) (st m meta (<[k := rid te e]> ids) w)) ->
  wp (ipa_nati_make_rule_hdl 1 e) Q (st m meta ids w).
Proof.
  intros Hh HQ. pose proof (hd_len _ _ _ _ _ Hh) as Hlen.
  destruct (free_handle te ee Hte Hee fr ids Mp Hh) as (k & Hf & Hk & Hb).
  apply wp_bind, wp_get_tbl, wp_bind. eapply wp_deref; [done|]. cbv zeta.
  apply wp_bind. apply (wp_deref _ ids).
  { cbn [table_entries expn_table_entries cache]. rewrite (proj2 (Nat.leb_le _ _)) by lia. by rewrite take_ge by lia. }
  rewrite Hf. apply wp_bind, wp_upd_obj, wp_ret. rewrite trunc_id by (unfold fits; lia). by apply HQ.
Qed.

Lemma add_rule_wp m meta ids w fr fi fm Mp clnt h0 :
  nat_data te ee m meta ids fr fi fm Mp -> rule_ok clnt ->
  wp (ipa_nati_add_ipv4_rule 1 clnt h0)
    (fun r s => (expn_full te ee fr fi /\ r = (- EINVAL, h0) /\ s = st m meta ids w) \/
       exists h, r = (0, h) /\ 1 <= h < te + ee /\ Mp !! h = None /\ nat_rep te ee pub (<[h := clnt]> Mp) s) (st m meta ids w).
Proof.
  intros D Hc. destruct (nd_inv _ _ _ _ _ _ _ _ _ D) as (chr & chi & T).
  apply wp_bind, (wp_generate m meta ids w fr fi fm Mp D chr chi T clnt).
  { intros Hfull. apply wp_ret. by left. }
  intros e p i ip meta' fm' Hp Hip Hmeta HM.
  destruct (placed_bounds fr fi fm chr chi T clnt e p i ip Hp Hip) as (He & _ & Hre & _ & Hpc & Hi & _ & Hipc).
  assert (0 <= p < te + ee) as Hpr by (destruct Hpc as [->|Hpc]; [lia|by apply entry_range]).
  assert (0 <= ip < te + ee) as Hipr by (destruct Hipc as [->|Hipc]; [lia|by apply entry_range]).
  destruct (added_inv m meta ids fr fi fm Mp D chr chi T clnt Hc e p i ip Hp Hip fm' HM) as [HI HF].
  pose proof (added_rule_in fr fi fm chr chi T clnt Hc e p i ip Hp Hip) as HR.
  change (trunc 8 (1 - 1)) with 0.
  apply wp_bind, (wp_copy_rule te ee pub nfd size fd cnt Hte Hee m fr fi (nd_mem _ _ _ _ _ _ _ _ _ D)); [by apply entry_range|done|].
  intros m1 w1 Hm1. apply wp_bind, (wp_copy_index_rule te ee pub nfd size fd cnt Hte Hee m1 _ fi Hm1); [by apply entry_range|done|].
  intros m2 w2 Hm2. apply wp_bind, (wp_enable te ee pub nfd size fd cnt Hte Hee m2 _ _ Hm2); [by apply entry_range|].
  intros m3 w3 Hm3. cbv beta iota. apply wp_bind. change (trunc 16 1) with 1.
  apply (wp_make_handle m3 meta' ids w3 fr Mp e); [apply D|]. intros k Hk Hkb.
  destruct (hdl_insert te ee Hte Hee fr (added fr clnt e p i) ids Mp e clnt k (nd_hdl _ _ _ _ _ _ _ _ _ D) He Hre HR Hk Hkb)
    as [Hfresh Hh].
  apply wp_ret. right. exists (Z.of_nat k + 1). split_and!; [|lia|lia|done|].
  - destruct (Z.eqb_spec (Z.of_nat k + 1) 0); [lia|done].
  - exists nfd, size, fd, cnt, m3, meta', (<[k := rid te e]> ids), w3. do 3 eexists. split; [reflexivity|].
    split; [exact Hm3|exact Hmeta|exact HI|exact Hh|exact HF].
Qed.
End add.
