(* ===== verification/NatTableDel.v ===== *)
(** * Deleting a rule from the NAT table

    [ipa_nati_del_ipv4_rule] run on a state that stands for a map: a rule is taken out
    of its chain, its entry out of the index table, and the handle is free again; an
    unknown handle changes nothing. *)
From S2P Require Import Prelude Config NatDrv StateM NatTable NatChain NatTableInv NatTableSteps NatTableOps NatTableRep NatTableAdd.
From stdpp Require Import base functions list gmap.
From Stdlib Require Import ZArith Lia.

Open Scope Z_scope.
Open Scope method_scope.

Lemma mem_rep_ext te ee m fr fi fr' fi' :
  mem_rep te ee m fr fi -> (forall x, 0 <= x < te + ee -> fr' x = fr x) -> (forall x, 0 <= x < te + ee -> fi' x = fi x) ->
  0 <= te -> 0 <= ee -> mem_rep te ee m fr' fi'.
Proof.
  intros [[? ? Hl Hh] [? ? Hil Hih]] Hr Hi H1 H2. split; (split; [done|done| |]); intros x Hx.
  - rewrite Hr by lia. by apply Hl.
  - rewrite Hr by lia. by apply Hh.
  - rewrite Hi by lia. by apply Hil.
  - rewrite Hi by lia. by apply Hih.
Qed.

Section del.
Context {W : Type} `{NatReliable W}.
Context (te ee pub nfd size fd cnt : Z).
Hypothesis Hte : 2 <= te <= 16384.
Hypothesis Hee : 2 <= ee <= 16384.
Abbreviation st := (st te ee pub nfd size fd cnt).
Abbreviation cache := (cache te ee pub nfd size).
Abbreviation in_exp := (in_exp te ee).
Abbreviation entry_ok := (entry_ok te ee).

(** ** The entries of the rules *)

Section rules.
Context (fr : Z -> ipa_nat_rule) (e : Z) (He : entry_ok e).

(** After the command, and after the direct writes. *)
Definition rule_dma : Z -> ipa_nat_rule :=
  if decide (in_exp e) then <[prev_of (fr e) := set_next (next_of (fr e)) (fr (prev_of (fr e)))]> fr
  else if decide (next_of (fr e) = 0) then <[e := set_flag IPA_NAT_FLAG_DISABLE_BIT_MASK (fr e)]> fr
  else <[e := set_proto IPA_NAT_INVALID_PROTO_FIELD_VALUE (fr e)]> fr.
Definition cut_rule (x : Z) : ipa_nat_rule :=
  if decide (x = e) then
    if decide (~ in_exp e /\ next_of (fr e) <> 0) then set_proto IPA_NAT_INVALID_PROTO_FIELD_VALUE (fr e) else ipa_nat_rule_zero
  else
    let r := if decide (in_exp e /\ x = prev_of (fr e)) then set_next (next_of (fr e)) (fr x) else fr x in
    if decide (in_exp e /\ next_of (fr e) <> 0 /\ x = next_of (fr e)) then set_prev (prev_of (fr e)) r else r.

Lemma expn_exp m meta ids : in_expn (cache m meta ids) e = true <-> in_exp e.
Proof. unfold in_expn. cbn. unfold NatChain.entry_ok, in_base, NatChain.in_exp in *. rewrite Z.leb_le. lia. Qed.

Lemma del_rule_cmd_ok m0 meta ids m fi :
  let c := cache m0 meta ids in
  mem_rep te ee m fr fi -> (in_exp e -> 0 <= prev_of (fr e) < te + ee) ->
  exists m', dma_write (del_rule_cmd 0 c (position c e) (fr e) (ipa_nati_find_rule_pos (in_expn c e) (fr e))) m = Some m' /\
    mem_rep te ee m' rule_dma fi.
Proof.
  intros c Hm Hp. destruct (entry_range te ee Hte Hee e He) as (Her & _ & _).
  unfold rule_dma, ipa_nati_find_rule_pos, IPA_NAT_INVALID_NAT_ENTRY. pose proof (expn_exp m0 meta ids) as Hx. fold c in Hx.
  destruct (in_expn c e) eqn:Hxe.
  - rewrite decide_True by by apply Hx.
    destruct (dma_field te ee pub nfd size Hte Hee m fr fi Hm m0 meta ids (prev_of (fr e)) IPA_NAT_RULE_NEXT_FIELD_OFFSET
      (next_of (fr e)) (set_next (next_of (fr e)) (fr (prev_of (fr e)))) (Hp (proj1 Hx eq_refl))) as (m' & Hd & Hm'); [done..|]. fold c in Hd. exists m'. split; [|exact Hm'].
    destruct (Z.eqb_spec (next_of (fr e)) 0) as [Hz|Hz]; [|exact Hd]. rewrite Hz in Hd. exact Hd.
  - assert (~ in_exp e) as Hnx by (rewrite <- Hx; done). rewrite decide_False by done.
    destruct (Z.eqb_spec (next_of (fr e)) 0) as [Hz|Hz]; [rewrite decide_True by done|rewrite decide_False by done].
    + destruct (dma_field te ee pub nfd size Hte Hee m fr fi Hm m0 meta ids e IPA_NAT_RULE_FLAG_FIELD_OFFSET
        IPA_NAT_FLAG_DISABLE_BIT_MASK (set_flag IPA_NAT_FLAG_DISABLE_BIT_MASK (fr e)) Her) as (m' & Hd & Hm'); [done..|]. fold c in Hd. rewrite Hxe in Hd. by exists m'.
    + destruct (dma_field te ee pub nfd size Hte Hee m fr fi Hm m0 meta ids e IPA_NAT_RULE_PROTO_FIELD_OFFSET
        IPA_NAT_INVALID_PROTO_FIELD_VALUE (set_proto IPA_NAT_INVALID_PROTO_FIELD_VALUE (fr e)) Her) as (m' & Hd & Hm'); [done..|]. fold c in Hd. rewrite Hxe in Hd. by exists m'.
Qed.

Lemma clear_rule_ok m0 meta ids m fi :
  let c := cache m0 meta ids in
  mem_rep te ee m rule_dma fi ->
  (in_exp e -> next_of (fr e) = 0 \/ in_exp (next_of (fr e))) -> (forall x, entry_ok x -> fits 32 (sw_spec_params (fr x))) ->
  (in_exp e -> prev_of (fr e) <> e) ->
  exists m', clear_rule c (in_expn c e) (position c e) (ipa_nati_find_rule_pos (in_expn c e) (fr e)) m = Some m' /\
    mem_rep te ee m' cut_rule fi.
Proof.
  intros c Hm Hn Hf Hpe. destruct (entry_range te ee Hte Hee e He) as (Her & _ & Hez).
  unfold clear_rule, ipa_nati_find_rule_pos, IPA_NAT_INVALID_NAT_ENTRY. pose proof (expn_exp m0 meta ids) as Hx. fold c in Hx.
  assert (forall m1 f, mem_rep te ee m1 f fi -> (forall x, 0 <= x < te + ee -> x <> e -> cut_rule x = f x) -> cut_rule e = ipa_nat_rule_zero ->
    exists m', upd_rule (in_expn c e) (position c e) (fun _ => ipa_nat_rule_zero) m1 = Some m' /\ mem_rep te ee m' cut_rule fi) as Hzero.
  { intros m1 f Hm1 Hext Hce. destruct (upd_rule_ok te ee c eq_refl m1 f fi e (fun _ => ipa_nat_rule_zero) Hm1 Her) as (m' & Hu & Hm').
    exists m'. split; [done|]. apply (mem_rep_ext _ _ _ _ _ _ _ Hm'); [|done|lia|lia]. intros x Hxr.
    destruct (decide (x = e)) as [->|Hne]; [by rewrite fn_lookup_insert|rewrite fn_lookup_insert_ne by done; by apply Hext]. }
  unfold rule_dma in Hm. destruct (in_expn c e) eqn:Hxe.
  - assert (in_exp e) as Hxx by by apply Hx. rewrite decide_True in Hm by done.
    set (f1 := <[prev_of (fr e) := set_next (next_of (fr e)) (fr (prev_of (fr e)))]> fr) in *.
    assert (forall x, f1 x = if decide (in_exp e /\ x = prev_of (fr e)) then set_next (next_of (fr e)) (fr x) else fr x) as Hf1.
    { intros x. unfold f1. destruct (decide (x = prev_of (fr e))) as [->|Hxp]; [by rewrite decide_True, fn_lookup_insert|].
      rewrite decide_False, fn_lookup_insert_ne by naive_solver. done. }
    destruct (Z.eqb_spec (next_of (fr e)) 0) as [Hz|Hz].
    + apply (Hzero _ _ Hm).
      * intros x _ Hne. unfold cut_rule. rewrite decide_False by done. cbv zeta. rewrite (decide_False (P := _ /\ _ <> 0 /\ _)) by naive_solver.
        by rewrite Hf1.
      * unfold cut_rule. rewrite decide_True by done. by rewrite decide_False by naive_solver.
    + destruct (Hn Hxx) as [|Hnx]; [done|]. pose proof (rule_at te ee c eq_refl _ _ _ e Hm Her) as Hat. rewrite Hxe in Hat. rewrite Hat.
      simpl. assert (f1 e = fr e) as -> by (rewrite Hf1, decide_False; [done|]; intros [_ ?]; by apply Hpe).
      assert (0 <= next_of (fr e) < te + ee) as Hnr by (unfold NatChain.in_exp in Hnx; lia).
      assert (in_expn c (next_of (fr e)) = true) as Hnxe by (apply Z.leb_le; change (te <= next_of (fr e)); unfold NatChain.in_exp in Hnx; lia).
      assert (trunc 16 (next_of (fr e) - te) = position c (next_of (fr e))) as ->.
      { unfold position. rewrite Hnxe. cbn [table_entries c NatTableOps.cache]. apply trunc_id. unfold fits, NatChain.in_exp in *. lia. }
      destruct (upd_rule_ok te ee c eq_refl m _ fi (next_of (fr e))
        (UpdateSwSpecParams IPA_NAT_SW_PARAM_PREV_INDX_BYTE (prev_of (fr e))) Hm Hnr) as (m1 & Hu & Hm1).
      rewrite Hnxe in Hu. rewrite Hu. simpl. apply (Hzero _ _ Hm1).
      * intros x Hxr Hne. unfold cut_rule. rewrite decide_False by done. cbv zeta.
        assert (forall r, fits 32 (sw_spec_params r) -> UpdateSwSpecParams IPA_NAT_SW_PARAM_PREV_INDX_BYTE (prev_of (fr e)) r = set_prev (prev_of (fr e)) r) as Hup.
        { intros r Hr. apply update_prev; [apply lo16_fits|done]. }
        destruct (decide (x = next_of (fr e))) as [->|Hxn].
        -- rewrite fn_lookup_insert, (decide_True (P := _ /\ _ <> 0 /\ _)) by done.
           rewrite Hup; [by rewrite Hf1|]. rewrite Hf1. destruct (decide _); apply Hf; by right.
        -- rewrite fn_lookup_insert_ne, (decide_False (P := _ /\ _ <> 0 /\ _)) by naive_solver. by rewrite Hf1.
      * unfold cut_rule. rewrite decide_True by done. by rewrite decide_False by naive_solver.
  - assert (~ in_exp e) as Hnx by (rewrite <- Hx; done). rewrite decide_False in Hm by done.
    destruct (Z.eqb_spec (next_of (fr e)) 0) as [Hz|Hz]; [rewrite decide_True in Hm by done|rewrite decide_False in Hm by done].
    + apply (Hzero _ _ Hm).
      * intros x _ Hne. unfold cut_rule. rewrite decide_False, fn_lookup_insert_ne by done. cbv zeta. by rewrite !decide_False by naive_solver.
      * unfold cut_rule. rewrite decide_True by done. by rewrite decide_False by naive_solver.
    + exists m. split; [done|]. apply (mem_rep_ext _ _ _ _ _ _ _ Hm); [|done|lia|lia]. intros x _. unfold cut_rule.
      destruct (decide (x = e)) as [->|Hne]; [by rewrite fn_lookup_insert, decide_True|].
      rewrite fn_lookup_insert_ne by done. cbv zeta. by rewrite !decide_False by naive_solver.
Qed.

(** The changes to other entries leave their rules alone. *)
Definition relink (x : Z) (r : ipa_nat_rule) : ipa_nat_rule :=
  let r := if decide (in_exp e /\ x = prev_of (fr e)) then set_next (next_of (fr e)) r else r in
  if decide (in_exp e /\ next_of (fr e) <> 0 /\ x = next_of (fr e)) then set_prev (prev_of (fr e)) r else r.

Lemma relink_views x r :
  x <> 0 -> fits 32 (sw_spec_params r) ->
  let r' := relink x r in
  enabled r' = enabled r /\ rule_in r' = rule_in r /\ indx_of r' = indx_of r /\
  next_of r' = (if decide (in_exp e /\ x = prev_of (fr e)) then next_of (fr e) else next_of r) /\
  prev_of r' = (if decide (in_exp e /\ x = next_of (fr e)) then prev_of (fr e) else prev_of r) /\
  fits 32 (sw_spec_params r').
Proof.
  intros Hx Hf r'. unfold r', relink. pose proof (lo16_fits (nxt_indx_pub_port (fr e))) as Hnf. fold (next_of (fr e)) in Hnf.
  pose proof (lo16_fits (sw_spec_params (fr e))) as Hpf.
  assert (forall r, rule_in (set_prev (prev_of (fr e)) r) = rule_in r) as Hrp by done.
  assert (forall r, next_of (set_prev (prev_of (fr e)) r) = next_of r) as Hnp by done.
  assert (forall r, enabled (set_prev (prev_of (fr e)) r) = enabled r) as Hep by done.
  set (r1 := if decide (in_exp e /\ x = prev_of (fr e)) then set_next (next_of (fr e)) r else r).
  assert (enabled r1 = enabled r /\ rule_in r1 = rule_in r /\ sw_spec_params r1 = sw_spec_params r /\
    next_of r1 = (if decide (in_exp e /\ x = prev_of (fr e)) then next_of (fr e) else next_of r)) as (Hr1 & Hr2 & Hr3 & Hr4).
  { unfold r1. destruct (decide (in_exp e /\ x = prev_of (fr e))); [|done]. split_and!; [done|by apply rule_in_link|done|by apply next_set_next]. }
  destruct (decide (in_exp e /\ x = next_of (fr e))) as [Hd|Hd].
  - rewrite (decide_True (P := _ /\ _ <> 0 /\ _)) by naive_solver. rewrite Hrp, Hnp, Hep. split_and!; try done.
    + rewrite indx_set_prev by done. unfold indx_of. by rewrite Hr3.
    + by apply prev_set_prev.
    + apply word_fits; [done|]. apply hi16_fits. by rewrite Hr3.
  - rewrite (decide_False (P := _ /\ _ <> 0 /\ _)) by naive_solver. split_and!; try done; unfold indx_of, prev_of; by rewrite Hr3.
Qed.

Lemma cut_views x :
  entry_ok x -> (forall x, entry_ok x -> fits 32 (sw_spec_params (fr x))) ->
  let r := cut_rule x in
  enabled r = (if decide (x = e /\ (in_exp e \/ next_of (fr e) = 0)) then false else enabled (fr x)) /\
  rule_in r = (if decide (x = e) then None else rule_in (fr x)) /\
  (x <> e -> indx_of r = indx_of (fr x)) /\
  (enabled r = true -> next_of r = if decide (in_exp e /\ x = prev_of (fr e)) then next_of (fr e) else next_of (fr x)) /\
  (enabled r = true -> prev_of r = if decide (in_exp e /\ x = next_of (fr e)) then prev_of (fr e) else prev_of (fr x)) /\
  fits 32 (sw_spec_params r).
Proof.
  intros Hx Hf r. destruct (entry_range te ee Hte Hee x Hx) as (_ & _ & Hxz). unfold r, cut_rule. destruct (decide (x = e)) as [->|Hne].
  - destruct (decide (~ in_exp e /\ next_of (fr e) <> 0)) as [[Hd1 Hd2]|Hd].
    + rewrite (decide_False (P := e = e /\ _)) by naive_solver. rewrite !(decide_False (P := in_exp e /\ _)) by naive_solver.
      split_and!; try done; [|by apply Hf]. unfold rule_in, alive. rewrite proto_killed. by rewrite andb_false_r.
    + rewrite decide_True; [done|]. split; [done|]. destruct (decide (in_exp e)); [by left|right].
      destruct (decide (next_of (fr e) = 0)); [done|naive_solver].
  - rewrite (decide_False (P := x = e /\ _)) by naive_solver. fold (relink x (fr x)).
    destruct (relink_views x (fr x) Hxz (Hf x Hx)) as (? & ? & ? & ? & ? & ?). by split_and!.
Qed.
End rules.

(** ** The entries of the index *)

Section index.
Context (fi fm : Z -> Z) (i : Z) (Hi : entry_ok i).
Let g := index_gone te fi i.
(** What the invariant says of the entries around [i]. *)
Hypothesis Hg : entry_ok g.
Hypothesis Hgi : g <> i -> in_base te i /\ in_exp g /\ fm g = i.
Hypothesis Hng : ix_next (fi g) = 0 \/ in_exp (ix_next (fi g)).
Hypothesis Hpi : in_exp i -> 0 <= fm i < te + ee.
Hypothesis Hpi' : in_exp i -> fm i <> i.

Definition index_dma : Z -> Z :=
  if decide (in_exp i) then <[fm i := word (lo16 (fi (fm i))) (ix_next (fi i))]> fi
  else if decide (ix_next (fi i) = 0) then <[i := word IPA_NAT_INVALID_NAT_ENTRY (hi16 (fi i))]> fi
  else <[i := word (lo16 (word (ix_entry (fi g)) (hi16 (fi i)))) (ix_next (fi g))]> (<[i := word (ix_entry (fi g)) (hi16 (fi i))]> fi).
Definition cut_index (x : Z) : Z :=
  if decide (x = g) then 0
  else if decide (x = i) then word (ix_entry (fi g)) (ix_next (fi g))
  else if decide (in_exp i /\ x = fm i) then word (lo16 (fi x)) (ix_next (fi i)) else fi x.

Lemma index_base : ~ in_exp i -> in_base te i.
Proof. by destruct Hi. Qed.

Lemma gone_exp : in_exp i -> g = i.
Proof. intros Hx. destruct (decide (g = i)) as [|Hne]; [done|]. destruct (Hgi Hne) as (Hb & _). unfold in_base, NatChain.in_exp in *. lia. Qed.
Lemma gone_single : ~ in_exp i -> ix_next (fi i) = 0 -> g = i.
Proof. intros _ Hz. unfold g, index_gone. by rewrite decide_False by naive_solver. Qed.
Lemma gone_head : ~ in_exp i -> ix_next (fi i) <> 0 -> g = ix_next (fi i) /\ g <> i /\ in_exp g.
Proof.
  intros Hx Hz. assert (g = ix_next (fi i)) as Heq by (unfold g, index_gone; rewrite decide_True; [done|by split; [apply index_base|]]).
  split; [done|]. assert (g <> i) as Hne.
  { intros Hgi'. pose proof Hng as Hng'. rewrite Hgi' in Hng'. destruct Hng' as [?|?]; [done|].
    apply Hx. by rewrite <- Hgi', Heq. }
  split; [done|]. by apply Hgi.
Qed.

Lemma index_cmd_ok m fr f m0 meta ids e ofs d w :
  let c := cache m0 meta ids in
  mem_rep te ee m fr f -> 0 <= e < te + ee -> 0 <= ofs < IPA_NAT_INDEX_TABLE_ENTRY_SIZE -> write16_index ofs d (f e) = Some w ->
  exists m', dma_write {| dma_table_index := 0; dma_base_addr := if in_expn c e then IPA_NAT_INDEX_EXPN_TBL else IPA_NAT_INDX_TBL;
                          dma_data := d; dma_offset := trunc 32 (ipa_nati_get_index_entry_offset c (position c e) + ofs) |} m = Some m' /\
    mem_rep te ee m' fr (<[e := w]> f).
Proof.
  intros c Hm He Ho Hw. destruct (dma_index_field te ee pub nfd size Hte Hee m fr f Hm m0 meta ids e ofs d w He Ho Hw) as (m' & Hd & Hlt & Hm').
  fold c in Hd, Hlt. exists m'. split; [|done]. rewrite trunc_id; [done|].
  assert (fits 32 (ipa_nati_get_index_entry_offset c (position c e))) by (apply trunc_fits; lia). unfold fits in *. lia.
Qed.

Lemma del_index_cmds_ok m0 meta ids fr :
  let c := cache m0 meta ids in
  mem_rep te ee m0 fr fi -> meta_rep te ee meta fm ->
  exists cmds, del_index_cmds 0 c m0 meta (position c i) (fi i) (ipa_nati_find_index_rule_pos (in_expn c i) (fi i)) = Some cmds /\
    Forall (fun d => is_index_cmd d = true) cmds /\ cmds <> [] /\
    forall m1 fr1, mem_rep te ee m1 fr1 fi -> exists m2, dma_writes cmds m1 = Some m2 /\ mem_rep te ee m2 fr1 index_dma.
Proof.
  intros c Hm Hmeta. destruct (entry_range te ee Hte Hee i Hi) as (Hir & _ & Hiz).
  assert (in_expn c i = true <-> in_exp i) as Hx by by apply expn_exp.
  destruct (position_bounds te ee c eq_refl i Hir) as (_ & Hpx & Hpb).
  unfold ipa_nati_find_index_rule_pos, index_dma, IPA_NAT_INVALID_NAT_ENTRY. destruct (in_expn c i) eqn:Hxi.
  - assert (in_exp i) as Hxx by by apply Hx. rewrite decide_True by done. destruct Hpx as [Hpx _]; [done|].
    assert (at_index meta (position c i) = Some (fm i)) as Hat.
    { rewrite Hpx. apply (proj2 Hmeta). unfold NatChain.in_exp in Hxx. lia. }
    eexists [ {| dma_data := ix_next (fi i) |} ]. split; [|split; [|split; [done|]]].
    + destruct (Z.eqb_spec (ix_next (fi i)) 0) as [Hz|Hz]; cbn [del_index_cmds]; cbv zeta; rewrite Hat; [rewrite Hz|]; reflexivity.
    + constructor; [|done]. cbn. by destruct (in_expn c (fm i)).
    + intros m1 fr1 Hm1. destruct (index_cmd_ok m1 fr1 fi m0 meta ids (fm i) IPA_NAT_INDEX_RULE_NEXT_FIELD_OFFSET (ix_next (fi i))
        (word (lo16 (fi (fm i))) (ix_next (fi i))) Hm1 (Hpi Hxx)) as (m2 & Hd & Hm2); [done|done|]. exists m2. split; [|done].
      cbn [dma_writes]. fold c in Hd. by rewrite Hd.
  - assert (~ in_exp i) as Hnx by (rewrite <- Hx; done). rewrite decide_False by done. destruct Hpb as [Hpb _]; [done|].
    destruct (Z.eqb_spec (ix_next (fi i)) 0) as [Hz|Hz]; [rewrite decide_True by done|rewrite decide_False by done].
    + eexists. split; [reflexivity|]. split; [by constructor|split; [done|]].
      intros m1 fr1 Hm1. destruct (index_cmd_ok m1 fr1 fi m0 meta ids i IPA_NAT_INDEX_RULE_NAT_INDEX_FIELD_OFFSET IPA_NAT_INVALID_NAT_ENTRY
        (word IPA_NAT_INVALID_NAT_ENTRY (hi16 (fi i))) Hm1 Hir) as (m2 & Hd & Hm2); [done|done|]. exists m2. split; [|done].
      cbn [dma_writes]. fold c in Hd. rewrite Hxi in Hd. by rewrite Hd.
    + destruct (gone_head Hnx Hz) as (Hgn & Hne & Hgx).
      assert (at_index (index_table_expn m0) (trunc 16 (ix_next (fi i) - te)) = Some (fi g)) as Hat.
      { rewrite <- Hgn, trunc_id by (unfold fits, NatChain.in_exp in *; lia). destruct Hm as [_ [_ _ _ Hh]]. apply Hh. unfold NatChain.in_exp in Hgx. lia. }
      eexists. split; [cbn [del_index_cmds]; cbv zeta; cbn [table_entries c NatTableOps.cache]; rewrite Hat; reflexivity|].
      split; [by repeat constructor|split; [done|]]. intros m1 fr1 Hm1.
      destruct (index_cmd_ok m1 fr1 fi m0 meta ids i IPA_NAT_INDEX_RULE_NAT_INDEX_FIELD_OFFSET (ix_entry (fi g))
        (word (ix_entry (fi g)) (hi16 (fi i))) Hm1 Hir) as (m2 & Hd & Hm2); [done|done|]. fold c in Hd. rewrite Hxi in Hd.
      destruct (index_cmd_ok m2 fr1 _ m0 meta ids i IPA_NAT_INDEX_RULE_NEXT_FIELD_OFFSET (ix_next (fi g))
        (word (lo16 (word (ix_entry (fi g)) (hi16 (fi i)))) (ix_next (fi g))) Hm2 Hir) as (m3 & Hd' & Hm3); [done| |].
      { by rewrite fn_lookup_insert. }
      fold c in Hd'. rewrite Hxi in Hd'. exists m3. split; [|done]. cbn [dma_writes]. rewrite Hd. simpl. by rewrite Hd'.
Qed.

(** An entry is emptied after the command. *)
Lemma cut_index_zero x : x <> g -> ~ (g <> i /\ x = i) -> index_dma x = cut_index x.
Proof.
  intros Hxg Hxi. unfold cut_index, index_dma. rewrite (decide_False (P := x = g)) by done. destruct (decide (in_exp i)) as [Hx|Hx].
  - pose proof (gone_exp Hx) as Hgeq. rewrite (decide_False (P := x = i)) by congruence. destruct (decide (x = fm i)) as [->|Hne].
    + by rewrite fn_lookup_insert, decide_True.
    + rewrite fn_lookup_insert_ne, decide_False by naive_solver. done.
  - rewrite (decide_False (P := in_exp i /\ _)) by naive_solver. destruct (decide (ix_next (fi i) = 0)) as [Hz|Hz].
    + pose proof (gone_single Hx Hz). rewrite (decide_False (P := x = i)), fn_lookup_insert_ne by congruence. done.
    + destruct (gone_head Hx Hz) as (_ & Hne & _). assert (x <> i) by naive_solver. rewrite (decide_False (P := x = i)), !fn_lookup_insert_ne by done. done.
Qed.

Lemma clear_zero m0 meta ids m fr1 :
  let c := cache m0 meta ids in
  g = i -> mem_rep te ee m fr1 index_dma ->
  exists m', upd_index_rule (in_expn c i) (position c i) (fun _ => 0) m = Some m' /\ mem_rep te ee m' fr1 cut_index.
Proof.
  intros c Hgeq Hm. destruct (entry_range te ee Hte Hee i Hi) as (Hir & _).
  destruct (upd_index_rule_ok te ee c eq_refl m fr1 _ i (fun _ => 0) Hm Hir) as (m' & Hu & Hm'). exists m'. split; [done|].
  apply (mem_rep_ext _ _ _ _ _ _ _ Hm'); [done| |lia|lia]. intros x _. destruct (decide (x = i)) as [->|Hne].
  - rewrite fn_lookup_insert. unfold cut_index. rewrite (decide_True (P := i = g)); done.
  - rewrite fn_lookup_insert_ne by done. symmetry. apply cut_index_zero; [congruence|]. by intros [_ ?].
Qed.

(** What [clear_index] has to leave: [r] is its result. *)
Definition index_cleared (fr1 : Z -> ipa_nat_rule) (r : option (nat_mem * list Z)) : Prop :=
  exists m' meta' fm', r = Some (m', meta') /\
    mem_rep te ee m' (if decide (g = i) then fr1 else <[ix_entry (fi g) := set_indx i (fr1 (ix_entry (fi g)))]> fr1) cut_index /\
    meta_rep te ee meta' fm' /\
    forall x, in_exp x -> x <> g -> fm' x = if decide (in_exp g /\ x = ix_next (fi g)) then fm g else fm x.

Section clear.
Context (m0 : nat_mem) (meta ids : list Z) (m : nat_mem) (fr1 : Z -> ipa_nat_rule).
Hypothesis Hm : mem_rep te ee m fr1 index_dma.
Hypothesis Hmeta : meta_rep te ee meta fm.
Let c := cache m0 meta ids.

Lemma position_exp x : in_exp x -> in_expn c x = true /\ position c x = x - te.
Proof.
  intros Hx. unfold NatChain.in_exp in Hx. assert (in_expn c x = true) as Hxe by (apply Z.leb_le; change (te <= x); lia).
  unfold position. by rewrite Hxe.
Qed.

(** The last entry of a chain, or a single one. *)
Lemma clear_alone :
  g = i -> ix_next (fi i) = 0 ->
  index_cleared fr1 (m ← upd_index_rule (in_expn c i) (position c i) (fun _ => 0) m; Some (m, meta)).
Proof.
  intros Hgeq Hz. destruct (clear_zero m0 meta ids m fr1 Hgeq Hm) as (m' & Hu & Hm'). fold c in Hu. rewrite Hu. exists m', meta, fm.
  split; [done|]. rewrite decide_True by done. split_and!; [done|done|]. intros x Hxe _. rewrite decide_False; [done|].
  rewrite Hgeq, Hz. unfold NatChain.in_exp in Hxe. intros [_ ->]. lia.
Qed.

Lemma clear_middle n :
  in_exp i -> ix_next (fi i) <> 0 -> index_cleared fr1 (clear_index c true (position c i) n IPA_NAT_DEL_TYPE_MIDDLE m meta).
Proof.
  intros Hxx Hz. pose proof (gone_exp Hxx) as Hgeq. destruct (entry_range te ee Hte Hee i Hi) as (Hir & _).
  destruct (position_exp i Hxx) as [Hxi Hpx]. destruct (clear_zero m0 meta ids m fr1 Hgeq Hm) as (m' & Hu & Hm'). fold c in Hu. rewrite Hxi in Hu.
  cbn [clear_index]. pose proof (indx_at te ee c eq_refl m fr1 index_dma i Hm Hir) as Hat. rewrite Hxi in Hat. rewrite Hat. cbn [mbind option_bind].
  assert (index_dma i = fi i) as ->.
  { unfold index_dma. rewrite decide_True by done. rewrite fn_lookup_insert_ne; [done|]. by apply Hpi'. }
  pose proof Hng as Hng'. rewrite Hgeq in Hng'. destruct Hng' as [|Hnx]; [done|]. pose proof Hnx as Hnr. unfold NatChain.in_exp in Hnr, Hxx.
  assert (at_index meta (position c i) = Some (fm i)) as -> by (rewrite Hpx; apply (proj2 Hmeta); lia). cbn [mbind option_bind].
  destruct (position_exp _ Hnx) as [_ ->].
  destruct (meta_upd te ee meta fm (ix_next (fi i)) (fm i) Hmeta) as (meta1 & Hu1 & Hmeta1); [lia|]. rewrite Hu1. cbn [mbind option_bind].
  rewrite Hpx. destruct (meta_upd te ee meta1 _ i IPA_NAT_INVALID_NAT_ENTRY Hmeta1) as (meta2 & Hu2 & Hmeta2); [lia|].
  rewrite Hu2. cbn [mbind option_bind]. rewrite <- Hpx, Hu. do 3 eexists. split; [done|]. rewrite decide_True by done.
  split_and!; [done|exact Hmeta2|]. intros x Hxe Hxg. rewrite fn_lookup_insert_ne by congruence. rewrite Hgeq.
  destruct (decide (x = ix_next (fi i))) as [->|Hne]; [by rewrite fn_lookup_insert, decide_True|].
  rewrite fn_lookup_insert_ne, decide_False by naive_solver. done.
Qed.

(** The predecessor of the entry behind the one that moves into the head. *)
Lemma clear_head_meta :
  g <> i ->
  exists meta' fm', (if negb (ix_next (fi g) =? 0) && (te <=? ix_next (fi g))
      then upd_index (ix_next (fi g) - te) (fun _ => i) meta else Some meta) = Some meta' /\ meta_rep te ee meta' fm' /\
    forall x, in_exp x -> fm' x = if decide (in_exp g /\ x = ix_next (fi g)) then fm g else fm x.
Proof.
  intros Hne. destruct (Hgi Hne) as (_ & _ & Hfg). rewrite Hfg. destruct Hng as [Hz|Hx].
  - rewrite Hz. exists meta, fm. split; [done|]. split; [done|]. intros x Hxe. rewrite decide_False; [done|].
    unfold NatChain.in_exp in Hxe. intros [_ ->]. lia.
  - pose proof Hx as Hr. unfold NatChain.in_exp in Hr.
    destruct (meta_upd te ee meta fm (ix_next (fi g)) i Hmeta) as (meta1 & Hu1 & Hmeta1); [lia|].
    rewrite (proj2 (Z.eqb_neq _ _)), (proj2 (Z.leb_le _ _)) by lia. exists meta1. eexists. split; [exact Hu1|].
    split; [exact Hmeta1|]. intros x _. destruct (decide (x = ix_next (fi g))) as [->|Hnx]; [rewrite fn_lookup_insert, decide_True; [done|]; split; [by apply Hgi|done]|].
    rewrite fn_lookup_insert_ne, decide_False by naive_solver. done.
Qed.

Lemma clear_head :
  ~ in_exp i -> ix_next (fi i) <> 0 -> entry_ok (ix_entry (fi g)) ->
  index_cleared fr1 (clear_index c false (position c i) (trunc 16 (ix_next (fi i) - te)) IPA_NAT_DEL_TYPE_HEAD m meta).
Proof.
  intros Hnx Hz Heg. destruct (gone_head Hnx Hz) as (Hgn & Hgne & Hgx). destruct (entry_range te ee Hte Hee i Hi) as (Hir & Hif & _).
  destruct (entry_range te ee Hte Hee g Hg) as (Hgr & _). destruct (position_exp g Hgx) as [Hgxe Hgp].
  assert (in_expn c i = false /\ position c i = i) as [Hxi Hpb].
  { assert (in_expn c i <> true) as Hf by (intros Ht; apply Hnx, (expn_exp i Hi m0 meta ids), Ht). apply not_true_is_false in Hf. split; [done|].
    unfold position. by rewrite Hf. }
  cbn [clear_index]. unfold index_cleared. rewrite (decide_False (P := g = i)) by done.
  assert (trunc 16 (ix_next (fi i) - te) = position c g) as ->.
  { rewrite <- Hgn, Hgp. apply trunc_id. unfold fits, NatChain.in_exp in *. lia. }
  assert (index_dma g = fi g) as Hdg.
  { unfold index_dma. rewrite decide_False, decide_False by done. by rewrite !fn_lookup_insert_ne by congruence. }
  pose proof (indx_at te ee c eq_refl m fr1 index_dma g Hm Hgr) as Hat. rewrite Hgxe, Hdg in Hat. cbn [index_at] in Hat.
  rewrite Hat, Hpb. cbn [mbind option_bind]. cbv zeta. change (table_entries c) with te.
  destruct (clear_head_meta Hgne) as (meta' & fm' & Hu1 & Hmeta' & Hfm'). rewrite Hu1. cbn [mbind option_bind].
  destruct (upd_index_rule_ok te ee c eq_refl m fr1 index_dma g (fun _ => 0) Hm Hgr) as (m1 & Hu2 & Hm1). rewrite Hgxe in Hu2.
  rewrite Hu2. cbn [mbind option_bind].
  pose proof (indx_at te ee c eq_refl m1 fr1 _ i Hm1 Hir) as Hat1. rewrite Hxi, Hpb in Hat1. rewrite fn_lookup_insert_ne in Hat1 by done.
  assert (index_dma i = word (ix_entry (fi g)) (ix_next (fi g))) as Hdi.
  { unfold index_dma. rewrite decide_False, decide_False, fn_lookup_insert by done. by rewrite lo16_word by apply lo16_fits. }
  cbn [index_at] in Hat1. rewrite Hat1. cbn [mbind option_bind].
  assert (ix_entry (index_dma i) = ix_entry (fi g)) as -> by (rewrite Hdi; apply lo16_word, lo16_fits).
  destruct (entry_range te ee Hte Hee _ Heg) as (Her & _).
  destruct (upd_rule_ok te ee c eq_refl m1 fr1 _ (ix_entry (fi g)) (UpdateSwSpecParams IPA_NAT_SW_PARAM_INDX_TBL_ENTRY_BYTE i)
    Hm1 Her) as (m2 & Hu3 & Hm2).
  rewrite Hu3. cbn [mbind option_bind]. exists m2, meta', fm'. split; [done|]. split_and!; [|done|auto].
  rewrite update_indx in Hm2 by done. apply (mem_rep_ext _ _ _ _ _ _ _ Hm2); [done| |lia|lia]. intros x _. destruct (decide (x = g)) as [->|Hxg].
  - rewrite fn_lookup_insert. unfold cut_index. by rewrite decide_True.
  - rewrite fn_lookup_insert_ne by done. destruct (decide (x = i)) as [->|Hxi'].
    + rewrite Hdi. unfold cut_index. by rewrite decide_False, decide_True.
    + symmetry. apply cut_index_zero; [done|]. by intros [_ ?].
Qed.

Lemma clear_index_ok :
  entry_ok (ix_entry (fi g)) ->
  index_cleared fr1 (clear_index c (in_expn c i) (position c i) (trunc 16 (ix_next (fi i) - te))
    (ipa_nati_find_index_rule_pos (in_expn c i) (fi i)) m meta).
Proof.
  intros Heg. assert (in_expn c i = true <-> in_exp i) as Hx by by apply expn_exp.
  unfold ipa_nati_find_index_rule_pos, IPA_NAT_INVALID_NAT_ENTRY.
  destruct (Z.eqb_spec (ix_next (fi i)) 0) as [Hz|Hz]; destruct (in_expn c i) eqn:Hxi.
  - cbn [clear_index]. rewrite <- Hxi. apply clear_alone; [by apply gone_exp, Hx|done].
  - cbn [clear_index]. rewrite <- Hxi. apply clear_alone; [|done]. apply gone_single; [by rewrite <- Hx|done].
  - by apply clear_middle; [apply Hx|].
  - apply clear_head; [by rewrite <- Hx|done|done].
Qed.
End clear.

Lemma cut_index_views x :
  ix_entry (cut_index x) = (if decide (x = g) then 0 else if decide (x = i) then ix_entry (fi g) else ix_entry (fi x)) /\
  (x <> g -> ix_next (cut_index x) = if decide (in_exp g /\ x = fm g) then ix_next (fi g) else ix_next (fi x)).
Proof.
  unfold cut_index. destruct (decide (x = g)) as [|Hxg]; [done|]. destruct (decide (x = i)) as [->|Hxi].
  - destruct (Hgi ltac:(congruence)) as (_ & Hgx & Hfg). unfold ix_entry, ix_next. cbn [Read16BitFieldValue].
    rewrite decide_True by done. rewrite lo16_word, hi16_word by apply lo16_fits. done.
  - destruct (decide (in_exp i /\ x = fm i)) as [[Hx ->]|Hno].
    + unfold ix_entry, ix_next. cbn [Read16BitFieldValue]. rewrite lo16_word, hi16_word by apply lo16_fits. split; [done|]. intros _.
      rewrite (gone_exp Hx). by rewrite decide_True.
    + split; [done|]. intros _. rewrite decide_False; [done|]. intros [Hgx ->]. destruct (decide (g = i)) as [Heq|Hne].
      * apply Hno. by rewrite <- Heq.
      * by destruct (Hgi Hne) as (_ & _ & ?).
Qed.
End index.

(** ** The operation *)

Lemma reorder_cmds r cmds :
  is_index_cmd r = false -> Forall (fun d => is_index_cmd d = true) cmds -> cmds <> [] -> ReorderCmds true (r :: cmds) = cmds ++ [r].
Proof.
  intros Hr Hc Hne. destruct cmds as [|c cmds]; [done|]. inversion_clear Hc as [|?? Hc1 _]. unfold ReorderCmds. simpl. by rewrite Hr, Hc1.
Qed.

Lemma dma_writes_app l1 l2 m m1 : dma_writes l1 m = Some m1 -> dma_writes (l1 ++ l2) m = dma_writes l2 m1.
Proof.
  revert m. induction l1 as [|d l1 IH]; intros m; simpl; [by intros [= ->]|]. destruct (dma_write d m); simpl; [apply IH|done].
Qed.

Lemma del_rule_cmd_kind c cur r pos : is_index_cmd (del_rule_cmd 0 c cur r pos) = false.
Proof. unfold is_index_cmd, del_rule_cmd. destruct pos; cbn [dma_base_addr]; try done; by destruct (in_expn c (prev_of r)). Qed.

Lemma prev_bounds used nxt prv ch x :
  store_ok te ee used nxt prv ch -> in_exp x -> used x = true -> (0 <= prv x < te + ee) /\ prv x <> x.
Proof.
  intros S Hx Hu. destruct (so_place te ee S x Hx Hu) as (b & l1 & l2 & Hb & Hub & Hch & _ & -> & _).
  assert (lst b l1 ∈ b :: ch b) as Hin.
  { pose proof (lst_elem b l1) as Hl. apply elem_of_cons in Hl as [->|Hl]; [left|right]. rewrite Hch. apply elem_of_app. by left. }
  split; [apply (entry_range te ee Hte Hee), (so_entry te ee _ _ _ _ b _ S Hb Hin)|].
  intros Heq. pose proof (so_nodup' te ee S b Hb) as Hnd. rewrite Hch in Hnd. change (b :: l1 ++ x :: l2) with ((b :: l1) ++ x :: l2) in Hnd.
  apply NoDup_app in Hnd as (_ & Hd & _). apply (Hd (lst b l1)); [apply lst_elem|rewrite Heq; left].
Qed.

(** The rule whose entry of the index has moved. *)
Definition move_index (same : bool) (y i : Z) (f : Z -> ipa_nat_rule) : Z -> ipa_nat_rule :=
  if same then f else <[y := set_indx i (f y)]> f.

Lemma move_index_views same y i f x :
  fits 16 i ->
  let r := move_index same y i f x in
  enabled r = enabled (f x) /\ rule_in r = rule_in (f x) /\ next_of r = next_of (f x) /\ prev_of r = prev_of (f x) /\
  indx_of r = (if decide (same = false /\ x = y) then i else indx_of (f x)) /\
  (fits 32 (sw_spec_params (f x)) -> fits 32 (sw_spec_params r)).
Proof.
  intros Hi r. unfold r, move_index. destruct same; [by rewrite decide_False by naive_solver|].
  destruct (decide (x = y)) as [->|Hne].
  - rewrite fn_lookup_insert, decide_True by done. split_and!; [done|done|done|apply prev_set_indx|apply indx_set_indx|].
    intros _. apply word_fits; [apply lo16_fits|done].
  - rewrite fn_lookup_insert_ne, decide_False by naive_solver. done.
Qed.

Section delete.
Context (m : nat_mem) (meta ids : list Z) (w : W) (fr : Z -> ipa_nat_rule) (fi fm : Z -> Z) (Mp : gmap Z ipa_nat_ipv4_rule).
Context (D : nat_data te ee m meta ids fr fi fm Mp) (chr chi : Z -> list Z) (T : tbl_ok te ee fr fi fm chr chi).
Context (e : Z) (r0 : ipa_nat_ipv4_rule) (He : entry_ok e) (Hr0 : rule_in (fr e) = Some r0).
Let c := cache m meta ids.

Lemma wp_post_del (Q : Z -> ipa_nat_cache * (W * unit) -> Prop) :
  (forall m' meta' w' fr' fi' fm',
     mem_rep te ee m' fr' fi' -> meta_rep te ee meta' fm' -> tbl_inv te ee fr' fi' fm' ->
     (forall x, entry_ok x -> rule_in (fr' x) = if decide (x = e) then None else rule_in (fr x)) ->
     (forall x, entry_ok x -> fits 32 (sw_spec_params (fr' x))) -> Q 0 (st m' meta' ids w')) ->
  wp (ipa_nati_post_del_dma_cmd 0 (position c e) (in_expn c e) (ipa_nati_find_rule_pos (in_expn c e) (fr e))) Q (st m meta ids w).
Proof.
  intros HQ. pose proof (nd_mem _ _ _ _ _ _ _ _ _ D) as Hm. pose proof (nd_meta _ _ _ _ _ _ _ _ _ D) as Hmeta.
  pose proof (nd_fits _ _ _ _ _ _ _ _ _ D) as Hf. destruct (entry_range te ee Hte Hee e He) as (Her & _ & Hez).
  assert (enabled (fr e) = true) as Hue by (apply rule_in_enabled; by eexists).
  destruct (del_entries te ee ltac:(lia) T e r0 He Hr0) as (Hi & Hie & Hui & Hg & Hug & Hjg & Hge).
  set (i := indx_of (fr e)) in *. set (g := index_gone te fi i) in *.
  destruct (index_gone_ok te ee fi fm chi i (ti_index _ _ _ _ _ _ _ T) Hi Hui) as (_ & _ & _ & Hgi). fold g in Hgi.
  assert (g <> i -> in_base te i /\ in_exp g /\ fm g = i) as Hgi3 by (intros Hne; by destruct (Hgi Hne) as (? & ? & _ & ?)).
  destruct (entry_range te ee Hte Hee i Hi) as (Hir & Hif & _).
  assert (ix_next (fi g) = 0 \/ in_exp (ix_next (fi g))) as Hng.
  { destruct (so_next te ee (ti_index _ _ _ _ _ _ _ T) g Hg Hug) as [|[? _]]; auto. }
  assert (in_exp i -> (0 <= fm i < te + ee) /\ fm i <> i) as Hpi by (intros Hx; by apply (prev_bounds _ _ _ _ i (ti_index _ _ _ _ _ _ _ T))).
  assert (in_exp e -> (0 <= prev_of (fr e) < te + ee) /\ prev_of (fr e) <> e) as Hpe
    by (intros Hx; by apply (prev_bounds _ _ _ _ e (ti_rules _ _ _ _ _ _ _ T))).
  apply wp_bind, wp_nk_malloc. intros w1. cbn [negb]. apply wp_bind, wp_get_tbl. fold c. apply wp_bind, (wp_deref _ m); [done|].
  apply wp_bind, (wp_deref _ (fr e)); [by apply (rule_at te ee c eq_refl m fr fi)|]. rewrite Hue. cbn [negb]. fold i.
  apply wp_bind, (wp_deref _ (fi i)); [by apply (indx_at te ee c eq_refl m fr fi)|]. apply wp_bind, (wp_deref _ meta); [done|].
  destruct (del_index_cmds_ok fi fm i Hi Hgi3 Hng (fun Hx => proj1 (Hpi Hx)) m meta ids fr Hm Hmeta) as (cmds & Hcmds & Hidx & Hne & Hrun).
  fold c in Hcmds. apply wp_bind, (wp_deref _ cmds); [exact Hcmds|]. apply wp_bind, wp_nk_malloc. intros w2. apply wp_bind.
  rewrite reorder_cmds; [|apply del_rule_cmd_kind|done|done]. destruct (Hrun m fr Hm) as (m1 & Hd1 & Hm1).
  destruct (del_rule_cmd_ok fr e He m meta ids m1 _ Hm1 (fun Hx => proj1 (Hpe Hx))) as (m2 & Hd2 & Hm2). fold c in Hd2.
  apply (wp_post_dma te ee pub nfd size fd cnt m meta ids w2 _ m2).
  { rewrite (dma_writes_app _ _ _ _ Hd1). cbn [dma_writes]. by rewrite Hd2. }
  intros w3. cbv beta iota. rewrite Z.eqb_refl. cbn [negb].
  destruct (clear_rule_ok fr e He m meta ids m2 _ Hm2) as (m3 & Hc3 & Hm3); [|done|intros Hx; by apply Hpe|].
  { intros _. destruct (so_next te ee (ti_rules _ _ _ _ _ _ _ T) e He Hue) as [|[? _]]; auto. }
  apply wp_bind, (wp_write_mem te ee pub nfd size fd cnt m2 meta ids w3 _ m3); [exact Hc3|].
  apply wp_bind, wp_get_mem.
  destruct (clear_index_ok fi fm i Hi Hg Hgi3 Hng (fun Hx => proj1 (Hpi Hx)) (fun Hx => proj2 (Hpi Hx)) m meta ids m3 _ Hm3 Hmeta)
    as (m4 & meta' & fm' & Hc4 & Hm4 & Hmeta' & Hfm'); [by apply (ti_cross' _ _ _ _ _ _ _ T)|].
  apply wp_bind, (wp_deref _ (m4, meta')); [exact Hc4|]. apply wp_bind, wp_upd_obj, wp_bind, wp_upd_obj, wp_ret.
  fold g in Hm4, Hfm'. apply (HQ m4 meta' w3 (move_index (bool_decide (g = i)) (ix_entry (fi g)) i (cut_rule fr e)) (cut_index fi fm i) fm').
  - unfold move_index. destruct (decide (g = i)); [by rewrite bool_decide_eq_true_2|by rewrite bool_decide_eq_false_2].
  - done.
  - assert (forall x, entry_ok x -> _) as V by exact (fun x Hx => conj (move_index_views (bool_decide (g = i)) (ix_entry (fi g)) i (cut_rule fr e) x Hif) (cut_views fr e x Hx Hf)).
    apply (tbl_del te ee ltac:(lia) T e r0 He Hr0); fold i g.
    + intros x Hx. destruct (V x Hx) as [(-> & _) (-> & _)]. done.
    + intros x Hx. destruct (V x Hx) as [(-> & _ & -> & _) (_ & _ & _ & Hn & _)]. exact Hn.
    + intros x Hx. destruct (V x (or_intror Hx)) as [(-> & _ & _ & -> & _) (_ & _ & _ & _ & Hn & _)]. exact Hn.
    + intros x Hx. destruct (V x Hx) as [(_ & -> & _) (_ & -> & _)]. done.
    + intros x Hx Hxe. destruct (V x Hx) as [(_ & _ & _ & _ & -> & _) (_ & _ & Hj & _)]. rewrite Hj by done.
      destruct (decide (x = ix_entry (fi g))) as [Hxg|Hxg]; [|by rewrite decide_False by naive_solver].
      rewrite decide_True; [done|]. split; [|done]. apply bool_decide_eq_false_2. intros Heq. rewrite Heq in Hxg. congruence.
    + intros x Hx. apply (cut_index_views fi fm i Hgi3).
    + intros x Hx. apply (cut_index_views fi fm i Hgi3).
    + exact Hfm'.
  - intros x Hx. destruct (move_index_views (bool_decide (g = i)) (ix_entry (fi g)) i (cut_rule fr e) x Hif) as (_ & -> & _).
    by apply cut_views.
  - intros x Hx. apply move_index_views; [done|]. by apply cut_views.
Qed.

Lemma wp_sweep m1 meta1 ids1 w1 fr1 fi1 (Q : unit -> ipa_nat_cache * (W * unit) -> Prop) :
  mem_rep te ee m1 fr1 fi1 -> (forall m', mem_rep te ee m' (sweep te fr1) fi1 -> Q tt (st m' meta1 ids1 w1)) ->
  wp (ipa_nati_del_dead_ipv4_head_nodes 0) Q (st m1 meta1 ids1 w1).
Proof.
  intros [Ar Ai] HQ. apply wp_bind, wp_get_tbl. cbn [table_entries NatTableOps.cache].
  pose proof (arr_base _ _ _ _ _ Ar) as Hlen.
  set (m' := {| rules := ((fun r => if dead_head r then ipa_nat_rule_zero else r) <$> take (Z.to_nat te) (rules m1)) ++ drop (Z.to_nat te) (rules m1);
                expn_rules := expn_rules m1; index_table := index_table m1; index_table_expn := index_table_expn m1 |}).
  apply (wp_write_mem te ee pub nfd size fd cnt m1 meta1 ids1 w1 _ m').
  { cbv beta zeta. rewrite (proj2 (Nat.leb_le _ _)) by lia. done. }
  apply HQ. split; [|done]. unfold m'. cbn [rules expn_rules]. rewrite take_ge, drop_ge, app_nil_r by lia.
  destruct Ar as [_ Hlx Hlo Hhi]. split; [by rewrite length_fmap|done| |].
  - intros x Hx. pose proof (Hlo x Hx) as Hat. unfold at_index in *. rewrite (proj2 (Z.leb_le _ _)) in * by lia.
    rewrite list_lookup_fmap, Hat. unfold sweep. destruct (Z.ltb_spec x te); [reflexivity|lia].
  - intros x Hx. unfold sweep. destruct (Z.ltb_spec x te); [lia|]. by apply Hhi.
Qed.
End delete.

Lemma wp_parse m meta ids w h v (Q : bool * Z -> ipa_nat_cache * (W * unit) -> Prop) :
  1 <= h < te + ee -> ids !! Z.to_nat (h - 1) = Some v ->
  Q (negb (Z.land v IPA_NAT_RULE_HDL_TBL_TYPE_MASK =? 0), Z.shiftr v IPA_NAT_RULE_HDL_TBL_TYPE_BITS) (st m meta ids w) ->
  wp (ipa_nati_parse_ipv4_rule_hdl 0 h) Q (st m meta ids w).
Proof.
  intros Hh Hv HQ. apply wp_bind, wp_get_tbl. cbn [table_entries expn_table_entries NatTableOps.cache].
  rewrite (proj2 (Z.leb_gt _ _)) by lia. apply wp_bind, (wp_deref _ ids); [done|]. apply wp_bind, (wp_deref _ v); [|by apply wp_ret].
  apply at_index_Some. split; [lia|done].
Qed.

Lemma del_rule_wp m meta ids w fr fi fm Mp h :
  nat_data te ee m meta ids fr fi fm Mp -> 1 <= h -> fits 16 h ->
  wp (ipa_nati_del_ipv4_rule 1 h)
    (fun r s => (Mp !! h = None /\ r = - EINVAL /\ s = st m meta ids w) \/
                (is_Some (Mp !! h) /\ r = 0 /\ nat_rep te ee pub (delete h Mp) s)) (st m meta ids w).
Proof.
  intros D Hh1 Hhf. pose proof (nd_hdl _ _ _ _ _ _ _ _ _ D) as Hh. pose proof (hd_len _ _ _ _ _ Hh) as Hlen.
  destruct (nd_inv _ _ _ _ _ _ _ _ _ D) as (chr & chi & T).
  unfold ipa_nati_del_ipv4_rule. change (trunc 8 (1 - 1)) with 0. cbv zeta. rewrite trunc_id by done. apply wp_bind.
  destruct (Mp !! h) as [r|] eqn:Hr.
  - destruct (proj1 (hd_map _ _ _ _ _ Hh h r) Hr) as (_ & e & He & Hid & Hre).
    destruct (hd_slot _ _ _ _ _ Hh _ _ Hid (rid_nonzero te ee Hte Hee e He)) as (_ & _ & _ & _ & Hb).
    apply (wp_parse _ _ _ _ _ (rid te e)); [lia|done|].
    destruct (rid_parse te ee Hte Hee (cache m meta ids) e eq_refl He) as (-> & -> & Hpz).
    cbv beta iota. rewrite (proj2 (Z.eqb_neq _ _)) by done. apply wp_bind, wp_get_tbl. cbn [valid NatTableOps.cache negb].
    destruct (entry_range te ee Hte Hee e He) as (Her & _). apply wp_bind, (wp_deref _ m); [done|].
    apply wp_bind, (wp_deref _ (fr e)); [apply (rule_at te ee (cache m meta ids) eq_refl m fr fi); [apply D|done]|].
    apply wp_bind, (wp_post_del m meta ids w fr fi fm Mp D chr chi T e r He Hre).
    intros m1 meta1 w1 fr1 fi1 fm1 Hm1 Hmeta1 HI1 HR1 HF1. cbn [negb]. rewrite Z.eqb_refl. cbn [negb].
    apply wp_bind, (wp_sweep m1 meta1 ids w1 fr1 fi1 _ Hm1). intros m2 Hm2. apply wp_bind, wp_get_tbl.
    apply wp_bind, (wp_deref _ ids); [done|].
    destruct (upd_index_ok (h - 1) (fun _ => IPA_NAT_INVALID_NAT_ENTRY) ids) as (ids' & Hu & _); [lia|].
    assert (ids' = <[Z.to_nat (h - 1) := 0]> ids) as ->.
    { unfold upd_index in Hu. destruct (_ && _); [|done]. injection Hu as <-. rewrite list_insert_alter. done. }
    apply wp_bind. eapply wp_deref; [exact Hu|]. apply wp_bind, wp_upd_obj, wp_ret. right. split; [done|]. split; [done|].
    exists nfd, size, fd, cnt, m2, meta1, (<[Z.to_nat (h - 1) := 0]> ids), w1. exists (sweep te fr1), fi1, fm1. split; [reflexivity|].
    split; [done|done|by apply tbl_sweep| |].
    + eapply (hdl_delete te ee Hte Hee fr _ ids Mp e h r Hh He Hh1 Hid Hre). intros x Hx. rewrite sweep_rule_in. by apply HR1.
    + intros x Hx. unfold sweep. destruct (_ && _); [done|by apply HF1].
  - assert (forall v, ids !! Z.to_nat (h - 1) = Some v -> v = 0) as Hz.
    { intros v Hv. destruct (decide (v = 0)) as [|Hvz]; [done|]. destruct (hd_slot _ _ _ _ _ Hh _ _ Hv Hvz) as (x & Hx & -> & [r Hrx] & _).
      rewrite (proj2 (hd_map _ _ _ _ _ Hh h r)) in Hr; [done|]. split; [done|]. by exists x. }
    assert (wp (ipa_nati_parse_ipv4_rule_hdl 0 h) (fun p s => snd p = IPA_NAT_INVALID_NAT_ENTRY /\ s = st m meta ids w) (st m meta ids w)) as Hp.
    { destruct (Z.leb_spec (te + ee) h) as [Hle|Hlt].
      - apply wp_bind, wp_get_tbl. cbn [table_entries expn_table_entries NatTableOps.cache]. rewrite (proj2 (Z.leb_le _ _)) by done. by apply wp_ret.
      - destruct (lookup_lt_is_Some_2 ids (Z.to_nat (h - 1))) as [v Hv]; [lia|]. apply (wp_parse _ _ _ _ _ v); [lia|done|].
        by rewrite (Hz v Hv). }
    eapply wp_mono; [exact Hp|]. intros [b y] s [Hy ->]. simpl in Hy. subst y. apply wp_ret. by left.
Qed.
End del.
