(* ===== verification/NatTableNew.v ===== *)
(** * Creating the NAT table

    A new table stands for the empty map, whatever the memory held; concrete kernels
    to run the library on. *)
From S2P Require Import Prelude Config NatDrv StateM NatTable NatChain NatTableInv NatTableArith NatTableSteps NatTableOps NatTableRep.
From stdpp Require Import base functions list gmap strings.
From Stdlib Require Import ZArith Lia.

Open Scope Z_scope.
Open Scope method_scope.

(** ** Kernels *)

(** A kernel whose allocations and devices work. *)
Class NatSetup (W : Type) `{NatReliable W} : Prop := {
  rel_open path w : 0 <= (nk_open path w).1;
  rel_alloc fd size w : (nk_alloc_mem fd size w).1.1 = 0;
  rel_mmap fd size w : is_Some (nk_mmap fd size w).1;
  rel_init fd i w : (nk_v4_init fd i w).1 = 0
}.

(** A kernel that executes every command it can, and one that refuses commands by
    the list in its state. *)
Inductive SimpleNat := simple_nat.
Record FlakyNat := { refused : list bool }.

Definition dma_exec (cmds : list nat_dma_one) (m : nat_mem) : Z * nat_mem :=
  match dma_writes cmds m with Some m' => (0, m') | None => (-1, m) end.
(** Fresh memory holds anything. *)
Definition raw_ones : raw_mem :=
  {| raw_rule _ := {| private_ip := 0xFFFFFFFF; target_ip := 0xFFFFFFFF; nxt_indx_pub_port := 0xFFFFFFFF;
                      private_port := 0xFFFF; target_port := 0xFFFF; ip_cksm_enbl := 0xFFFFFFFF; ts_proto := 0xFFFFFFFF;
                      sw_spec_params := 0xFFFFFFFF; tcp_udp_chksum := 0xFFFF |};
     raw_indx _ := 0xFFFFFFFF |}.

#[export] Instance SimpleNat_kernel : NatKernel SimpleNat := {|
  nk_malloc w := (true, w); nk_open _ w := (3, w); nk_alloc_mem _ _ w := (0, 0, w); nk_mmap _ _ w := (Some raw_ones, w);
  nk_munmap _ w := (tt, w); nk_close _ w := (0, w); nk_v4_init _ _ w := (0, w); nk_v4_del _ _ w := (0, w);
  nk_dma _ cmds m w := (dma_exec cmds m, w)
|}.
#[export] Instance FlakyNat_kernel : NatKernel FlakyNat := {|
  nk_malloc w := (true, w); nk_open _ w := (3, w); nk_alloc_mem _ _ w := (0, 0, w); nk_mmap _ _ w := (Some raw_ones, w);
  nk_munmap _ w := (tt, w); nk_close _ w := (0, w); nk_v4_init _ _ w := (0, w); nk_v4_del _ _ w := (0, w);
  nk_dma _ cmds m w :=
    match refused w with
    | true :: l => (-5, m, {| refused := l |})
    | _ :: l => (dma_exec cmds m, {| refused := l |})
    | [] => (dma_exec cmds m, w)
    end
|}.

Lemma dma_exec_ok cmds m :
  let '(r, m') := dma_exec cmds m in (r = 0 /\ dma_writes cmds m = Some m') \/ (r <> 0 /\ m' = m).
Proof. unfold dma_exec. destruct (dma_writes cmds m); [by left|by right]. Qed.

#[export] Instance SimpleNat_ok : NatKernelOk SimpleNat.
Proof. split; [|done]. intros fd cmds m w. simpl. pose proof (dma_exec_ok cmds m) as Hd. by destruct (dma_exec cmds m). Qed.
#[export] Instance FlakyNat_ok : NatKernelOk FlakyNat.
Proof.
  split; [|done]. intros fd cmds m w. simpl. pose proof (dma_exec_ok cmds m) as Hd.
  destruct (refused w) as [|[] l]; [|by right|]; by destruct (dma_exec cmds m).
Qed.
#[export] Instance SimpleNat_reliable : NatReliable SimpleNat.
Proof. split; [done|]. intros fd cmds m m' w Hd. simpl. unfold dma_exec. by rewrite Hd. Qed.
#[export] Instance SimpleNat_setup : NatSetup SimpleNat.
Proof. by split. Qed.

(** ** The dimensions *)

Definition dims_ok (te ee : Z) : Prop := 2 <= te <= 16384 /\ 2 <= ee <= 16384.

(** What [ipa_nati_alloc_table] computes. *)
Definition base_size (n : Z) : Z :=
  let e := n * 8 / 10 in match GetNearest2Power (if e =? 0 then 1 else e) with Some (_, te) => te | None => 0 end.
Definition expn_size (n : Z) : Z := GetNearestEven (n * 2 / 10).

Lemma sizes_ok n :
  1 <= n <= 20480 ->
  let e := n * 8 / 10 in
  GetNearest2Power (if e =? 0 then 1 else e) = Some (0, base_size n) /\ dims_ok (base_size n) (expn_size n).
Proof.
  intros Hn e. unfold base_size. fold e. set (e' := if e =? 0 then 1 else e).
  assert (1 <= e' <= 2 ^ 14) as He. { unfold e', e. destruct (Z.eqb_spec (n * 8 / 10) 0); dlia. }
  destruct (nearest_power e') as (r & Hr & Hk & _); [lia|]. rewrite Hr. split; [done|].
  destruct Hk as (k & Hk & Hrk & Hle & Hleast); [lia|].
  assert (2 <= r) by (rewrite Hrk; change 2 with (2 ^ 1) at 1; apply Z.pow_le_mono_r; lia).
  assert (r <= 2 ^ 14) by (apply Hleast; lia).
  assert (2 <= expn_size n <= 16384); [|unfold dims_ok; lia]. unfold expn_size, GetNearestEven.
  destruct (Z.ltb_spec (n * 2 / 10) 2); [lia|]. destruct (Z.eqb_spec (n * 2 / 10 mod 2) 0); [dlia|].
  rewrite trunc_id by (unfold fits; dlia). dlia.
Qed.

(** ** The empty table *)

Section empty.
Context (te ee : Z).
Hypothesis Hd : dims_ok te ee.

Definition zero_mem : nat_mem :=
  {| rules := replicate (Z.to_nat te) ipa_nat_rule_zero; expn_rules := replicate (Z.to_nat ee) ipa_nat_rule_zero;
     index_table := replicate (Z.to_nat te) 0; index_table_expn := replicate (Z.to_nat ee) 0 |}.

Lemma at_index_replicate {A} n (x : A) i : 0 <= i < Z.of_nat n -> at_index (replicate n x) i = Some x.
Proof. intros Hi. apply at_index_Some. split; [lia|]. apply lookup_replicate. split; [done|lia]. Qed.

Lemma arrays_replicate {A} (x : A) : arrays te ee (replicate (Z.to_nat te) x) (replicate (Z.to_nat ee) x) (fun _ => x).
Proof.
  destruct Hd as [H1 H2]. split; [rewrite length_replicate; lia..| |]; intros e He; apply at_index_replicate; lia.
Qed.

Lemma store_empty nxt prv : store_ok te ee (fun _ => false) nxt prv (fun _ => []).
Proof.
  split; try done; intros; try (by apply NoDup_nil); by match goal with Hx : _ ∈ [] |- _ => apply not_elem_of_nil in Hx end.
Qed.

Lemma nat_data_empty :
  nat_data te ee zero_mem (replicate (Z.to_nat ee) 0) (replicate (Z.to_nat (te + ee)) 0) (fun _ => ipa_nat_rule_zero) (fun _ => 0) (fun _ => 0) ∅.
Proof.
  destruct Hd as [H1 H2]. split.
  - split; apply arrays_replicate.
  - split; [rewrite length_replicate; lia|]. intros x Hx. apply at_index_replicate. lia.
  - exists (fun _ => []), (fun _ => []). split; try done; apply store_empty.
  - split.
    + rewrite length_replicate. lia.
    + intros h r. rewrite lookup_empty. split; [done|]. by intros (_ & x & _ & _ & ?).
    + intros k v [-> _]%lookup_replicate. done.
    + intros j k v [-> _]%lookup_replicate. done.
    + intros x _ [r Hr]. done.
  - done.
Qed.
End empty.

(** ** The operation *)

Section new.
Context {W : Type} `{NatSetup W}.

Lemma wp_hw_val {A} (f : W -> A * W) o w (Q : A -> ipa_nat_cache * (W * unit) -> Prop) :
  (forall w', Q (f w).1 (o, (w', tt))) -> wp (hw f) Q (o, (w, tt)).
Proof. intros HQ. destruct (f w) as [x w'] eqn:Hf. eapply wp_hw; [exact Hf|]. apply (HQ w'). Qed.

Lemma wp_alloc_array o w n (Q : option (list Z) -> ipa_nat_cache * (W * unit) -> Prop) :
  (forall w', Q (Some (replicate (Z.to_nat n) 0)) (o, (w', tt))) -> wp (alloc_array None n) Q (o, (w, tt)).
Proof. intros HQ. apply wp_bind, wp_hw_val. intros w1. rewrite (rel_nk_malloc w). apply wp_ret, HQ. Qed.

Lemma wp_alloc_table n w (Q : option (Z * Z * Z * Z) -> ipa_nat_cache * (W * unit) -> Prop) :
  1 <= n <= 20480 ->
  (forall size fd w', Q (Some (base_size n, expn_size n, size, 0))
     ({| ip4_tbl := table_cache_zero; ipa_fd := fd; table_cnt := 0 |}, (w', tt))) ->
  wp (ipa_nati_alloc_table n) Q (ipv4_nat_cache, (w, tt)).
Proof.
  intros Hn HQ. destruct (sizes_ok n Hn) as [Hpow Hd]. unfold ipa_nati_alloc_table. cbv zeta.
  apply wp_bind, (wp_deref _ (0, base_size n)); [exact Hpow|]. cbv beta iota. rewrite Z.eqb_refl. cbn [negb].
  apply wp_bind, wp_get_obj. cbn [ipa_fd ipv4_nat_cache fst]. apply wp_bind, wp_bind, wp_hw_val. intros w1.
  pose proof (rel_open "/dev/ipa"%string w) as Hfd. rewrite (proj2 (Z.ltb_ge _ _)) by done. apply wp_bind, wp_upd_obj, wp_ret.
  rewrite (proj2 (Z.ltb_ge _ _)) by done. apply wp_bind, wp_hw_val. intros w2. cbv beta.
  set (sz := IPA_NAT_TABLE_ENTRY_SIZE * _ + _). pose proof (rel_alloc ((nk_open "/dev/ipa"%string w).1) sz w1) as Hr.
  pose proof (ok_alloc ((nk_open "/dev/ipa"%string w).1) sz w1) as Ho.
  revert Hr Ho. destruct (nk_alloc_mem _ sz w1) as [[r ofs] w3]. simpl. intros -> Ho. rewrite (Ho eq_refl). apply wp_ret, HQ.
Qed.

Lemma new_table_wp w pub n h0 :
  1 <= n <= 20480 ->
  wp (nat_add_ipv4_tbl pub n h0) (fun r s => r = (0, 1) /\ nat_rep (base_size n) (expn_size n) pub ∅ s) (ipv4_nat_cache, (w, tt)).
Proof.
  intros Hn. destruct (sizes_ok n Hn) as [Hpow Hd]. set (te := base_size n) in *. set (ee := expn_size n) in *.
  unfold nat_add_ipv4_tbl. rewrite (proj2 (Z.eqb_neq n 0)) by lia. apply wp_bind. unfold ipa_nati_add_ipv4_tbl.
  apply wp_bind, wp_get_obj. cbv zeta. apply wp_bind, wp_alloc_table; [done|]. intros size fd w1. fold te ee. cbv beta iota.
  apply wp_bind. unfold ipa_nati_update_cache. apply wp_bind, wp_get_obj. cbn [table_cnt fst]. apply wp_bind, wp_bind, wp_get_obj.
  cbn [Z.eqb]. apply wp_ret, wp_bind, wp_upd_obj. cbn [fst snd].
  apply wp_bind, wp_alloc_array. intros w2. apply wp_bind, wp_upd_obj. cbv beta iota. cbn [fst snd].
  apply wp_bind, wp_alloc_array. intros w3. apply wp_bind, wp_upd_obj. cbv beta iota. cbn [fst snd].
  apply wp_bind, wp_hw_val. intros w4. pose proof (rel_open "/dev/ipaNatTable"%string w3) as Hfd. rewrite (proj2 (Z.ltb_ge _ _)) by done.
  apply wp_bind, wp_upd_obj, wp_bind, wp_hw_val. intros w5. cbn [fst snd].
  destruct (rel_mmap ((nk_open "/dev/ipaNatTable"%string w3).1) size w4) as [raw ->]. apply wp_bind, wp_upd_obj, wp_ret. cbn [fst snd negb].
  rewrite Z.eqb_refl. cbn [negb].
  set (nfd := (nk_open "/dev/ipaNatTable"%string w3).1).
  set (m := {| rules := raw_rule raw <$> seq 0 (Z.to_nat te); expn_rules := raw_rule raw <$> seq (Z.to_nat te) (Z.to_nat ee);
               index_table := raw_indx raw <$> seq 0 (Z.to_nat te);
               index_table_expn := raw_indx raw <$> seq (Z.to_nat te) (Z.to_nat ee) |}).
  match goal with |- wp ?c ?Q _ => change (wp c Q (st te ee pub nfd size fd 0 m (replicate (Z.to_nat ee) 0) (replicate (Z.to_nat (te + ee)) 0) w5)) end.
  change (table_cnt ipv4_nat_cache) with 0.
  apply wp_bind, wp_bind, wp_get_tbl, (wp_write_mem te ee pub nfd size fd 0 m _ _ _ _ (zero_mem te ee)).
  { cbv zeta. cbn [table_entries expn_table_entries NatTableOps.cache m rules expn_rules index_table index_table_expn].
    rewrite !drop_ge by (rewrite length_fmap, length_seq; lia). by rewrite !app_nil_r. }
  apply wp_bind. unfold ipa_nati_post_ipv4_init_cmd. apply wp_bind, wp_get_obj, wp_bind, wp_get_tbl. cbv zeta.
  apply wp_bind, wp_hw_val. intros w6. rewrite rel_init. apply wp_ret. cbn [Z.eqb negb].
  apply wp_bind, wp_upd_obj, wp_bind, wp_get_obj, wp_ret. cbn [fst snd]. apply wp_ret.
  split; [done|]. exists nfd, size, fd, 1, (zero_mem te ee), (replicate (Z.to_nat ee) 0), (replicate (Z.to_nat (te + ee)) 0), w6.
  do 3 eexists. split; [|by apply nat_data_empty]. reflexivity.
Qed.
End new.
