(* ===== verification/NatTableHw.v ===== *)
(** * The hardware's view of the NAT table

    A packet from outside is looked up by the hash of its destination, one from inside
    by the hash of its source through the index table; both walks start at the entry
    the hash names and follow the chain while the entries are in use.  They find the
    rules of the map, and no others. *)
From S2P Require Import Prelude Config NatDrv StateM NatTable NatChain NatTableInv NatTableSteps NatTableOps NatTableRep NatTableAdd NatTableNew.
From stdpp Require Import base functions list gmap strings.
From Stdlib Require Import ZArith Lia.

Open Scope Z_scope.

(** ** Walks *)

Section walk.
Context {A : Type} (entry : Z -> option A) (busy : A -> bool) (next : A -> Z).

Fixpoint walk (fuel : nat) (e : Z) : list A :=
  match fuel with
  | O => []
  | S fuel =>
      match entry e with
      | Some r => if busy r then r :: (if next r =? 0 then [] else walk fuel (next r)) else []
      | None => []
      end
  end.

Lemma walk_segment (f : Z -> A) prv fuel x l :
  lseg (fun e => next (f e)) prv x l -> (length l < fuel)%nat ->
  (forall y, y ∈ x :: l -> entry y = Some (f y) /\ busy (f y) = true /\ y <> 0) -> walk fuel x = f <$> (x :: l).
Proof.
  revert x l. induction fuel as [|fuel IH]; intros x l Hl Hf Hy; [lia|]. simpl.
  destruct (Hy x) as (-> & -> & _); [left|]. f_equal. rewrite (lseg_next _ _ _ _ Hl). destruct l as [|y l]; [done|]. simpl.
  destruct (Hy y) as (_ & _ & Hz); [by right; left|]. rewrite (proj2 (Z.eqb_neq y 0)) by done. apply (IH y l).
  - by destruct Hl as [(_ & _ & ?) ?].
  - simpl in Hf. lia.
  - intros z Hz'. apply Hy. by right.
Qed.

(** The walk of a chain of a store. *)
Lemma walk_chain te ee (f : Z -> A) prv ch b :
  2 <= te -> 2 <= ee -> store_ok te ee (fun x => busy (f x)) (fun x => next (f x)) prv ch -> in_base te b ->
  (forall x, entry_ok te ee x -> entry x = Some (f x)) ->
  walk (Z.to_nat ee) b = if busy (f b) then f <$> (b :: ch b) else [].
Proof.
  intros Hte Hee S Hb Hent. destruct (busy (f b)) eqn:Hu.
  - apply (walk_segment f prv); [by apply S| |].
    + assert (length (ch b) <= Z.to_nat (ee - 1))%nat; [|lia]. apply (bounded_length _ (te + 1)); [apply S|]. intros x Hx.
      apply (so_exp _ _ _ _ _ _ S) in Hx as [Hx _]. unfold in_exp in Hx. lia.
    + intros y Hy. pose proof (so_entry te ee _ _ _ _ b y S Hb Hy) as Hye. split_and!; [by apply Hent| |].
      * apply elem_of_cons in Hy as [->|Hy]; [done|]. by apply (so_exp _ _ _ _ _ _ S) in Hy as [_ ?].
      * unfold entry_ok, in_base, in_exp in Hye. lia.
  - destruct (Z.to_nat ee) as [|n] eqn:Hn; [lia|]. simpl. rewrite Hent by by left. by rewrite Hu.
Qed.
End walk.

(** An entry by its number. *)
Definition entry_of {A} (te : Z) (base expn : list A) (e : Z) : option A :=
  if te <=? e then at_index expn (e - te) else at_index base e.
Definition rule_entry (te : Z) (m : nat_mem) : Z -> option ipa_nat_rule := entry_of te (rules m) (expn_rules m).
Definition index_entry (te : Z) (m : nat_mem) : Z -> option Z := entry_of te (index_table m) (index_table_expn m).

#[export] Instance ipa_nat_ipv4_rule_eq_dec : EqDecision ipa_nat_ipv4_rule.
Proof. solve_decision. Defined.

(** The rules that match, in the walk from the hash of the destination, and through
    the index from the hash of the source. *)
Definition dst_lookup (te ee : Z) (m : nat_mem) (r : ipa_nat_ipv4_rule) : list ipa_nat_rule :=
  filter (fun x => rule_in x = Some r) (walk (rule_entry te m) enabled next_of (Z.to_nat ee) (dst_of te r)).
Definition src_lookup (te ee : Z) (m : nat_mem) (r : ipa_nat_ipv4_rule) : list ipa_nat_rule :=
  filter (fun x => rule_in x = Some r)
    (omap (fun w => rule_entry te m (ix_entry w)) (walk (index_entry te m) ix_used ix_next (Z.to_nat ee) (src_of te r))).

Section lookups.
Context (te ee : Z) (Hd : dims_ok te ee).
Context (m : nat_mem) (meta ids : list Z) (fr : Z -> ipa_nat_rule) (fi fm : Z -> Z) (Mp : gmap Z ipa_nat_ipv4_rule).
Context (D : nat_data te ee m meta ids fr fi fm Mp) (chr chi : Z -> list Z) (T : tbl_ok te ee fr fi fm chr chi).

Lemma entry_of_arrays {A} (base expn : list A) f x : arrays te ee base expn f -> 0 <= x < te + ee -> entry_of te base expn x = Some (f x).
Proof. intros [_ _ Hlo Hhi] Hx. unfold entry_of. destruct (Z.leb_spec te x); [apply Hhi|apply Hlo]; lia. Qed.

Lemma map_entry r : (exists h, Mp !! h = Some r) <-> exists x, entry_ok te ee x /\ rule_in (fr x) = Some r.
Proof.
  destruct Hd as [Hte Hee]. pose proof (nd_hdl _ _ _ _ _ _ _ _ _ D) as Hh. split.
  - intros [h (_ & x & Hx & _ & Hr)%(hd_map _ _ _ _ _ Hh)]. by exists x.
  - intros (x & Hx & Hr). destruct (hd_all _ _ _ _ _ Hh x Hx) as [k Hk]; [by eexists|]. exists (Z.of_nat k + 1).
    apply (hd_map _ _ _ _ _ Hh). split; [lia|]. exists x. split; [done|]. split; [|done].
    by replace (Z.to_nat (Z.of_nat k + 1 - 1)) with k by lia.
Qed.

Lemma rules_walk b : in_base te b -> walk (rule_entry te m) enabled next_of (Z.to_nat ee) b = if enabled (fr b) then fr <$> (b :: chr b) else [].
Proof.
  intros Hb. destruct Hd as [Hte Hee]. destruct (nd_mem _ _ _ _ _ _ _ _ _ D) as [Ar _].
  eapply (walk_chain _ enabled next_of te ee fr); [lia|lia|apply T|done|]. intros x Hx. apply (entry_of_arrays _ _ _ _ Ar).
  by apply (entry_range te ee).
Qed.
Lemma index_walk b : in_base te b -> walk (index_entry te m) ix_used ix_next (Z.to_nat ee) b = if ix_used (fi b) then fi <$> (b :: chi b) else [].
Proof.
  intros Hb. destruct Hd as [Hte Hee]. destruct (nd_mem _ _ _ _ _ _ _ _ _ D) as [_ Ai].
  eapply (walk_chain _ ix_used ix_next te ee fi); [lia|lia|apply T|done|]. intros x Hx. apply (entry_of_arrays _ _ _ _ Ai).
  by apply (entry_range te ee).
Qed.

(** Entries in use are in the chain that starts at the head of theirs. *)
Lemma used_in_chain used nxt prv ch x :
  store_ok te ee used nxt prv ch -> entry_ok te ee x -> used x = true -> exists b, in_base te b /\ used b = true /\ x ∈ b :: ch b.
Proof.
  intros S [Hx|Hx] Hu; [exists x; split_and!; [done|done|left]|].
  destruct (so_all _ _ _ _ _ _ S x Hx Hu) as [b Hb]. destruct (so_head te ee S b x Hb). exists b. split_and!; [done|done|by right].
Qed.

Lemma dst_lookup_iff r x : x ∈ dst_lookup te ee m r <-> exists e, x = fr e /\ entry_ok te ee e /\ rule_in (fr e) = Some r.
Proof.
  pose proof (dst_in_base te r ltac:(by destruct Hd; lia)) as Hb. unfold dst_lookup. rewrite list_elem_of_filter, rules_walk by done. split.
  - intros [Hr Hx]. destruct (enabled (fr (dst_of te r))); [|by apply not_elem_of_nil in Hx].
    apply list_elem_of_fmap in Hx as (e & -> & He). exists e. split; [done|]. split; [|done].
    by apply (so_entry te ee _ _ _ _ _ _ (ti_rules _ _ _ _ _ _ _ T) Hb).
  - intros (e & -> & He & Hr). split; [done|]. assert (enabled (fr e) = true) as Hu by (apply rule_in_enabled; by eexists).
    destruct (used_in_chain _ _ _ _ e (ti_rules _ _ _ _ _ _ _ T) He Hu) as (b & Hbb & Hub & Heb).
    rewrite (ti_home _ _ _ _ _ _ _ T b e r Hbb Heb Hr). simpl in Hub. rewrite Hub. by apply list_elem_of_fmap_2.
Qed.

Lemma src_lookup_iff r x : x ∈ src_lookup te ee m r <-> exists e, x = fr e /\ entry_ok te ee e /\ rule_in (fr e) = Some r.
Proof.
  pose proof Hd as [Hte Hee]. pose proof (src_in_base te r ltac:(lia)) as Hb. destruct (nd_mem _ _ _ _ _ _ _ _ _ D) as [Ar _].
  assert (forall e, entry_ok te ee e -> rule_entry te m e = Some (fr e)) as Hent.
  { intros e He. apply (entry_of_arrays _ _ _ _ Ar). by apply (entry_range te ee). }
  unfold src_lookup. rewrite list_elem_of_filter, list_elem_of_omap, index_walk by done. split.
  - intros [Hr (w & Hw & Hx)]. destruct (ix_used (fi (src_of te r))) eqn:Hub; [|by apply not_elem_of_nil in Hw].
    apply list_elem_of_fmap in Hw as (i & -> & Hi). assert (ix_used (fi i) = true) as Hui.
    { apply elem_of_cons in Hi as [->|Hi]; [done|]. by apply (so_exp _ _ _ _ _ _ (ti_index _ _ _ _ _ _ _ T)) in Hi as [_ ?]. }
    destruct (ti_cross' _ _ _ _ _ _ _ T i) as (He & _ & _); [by apply (so_entry te ee _ _ _ _ _ _ (ti_index _ _ _ _ _ _ _ T) Hb)|done|].
    rewrite Hent in Hx by done. simplify_eq. by exists (ix_entry (fi i)).
  - intros (e & -> & He & Hr). split; [done|]. destruct (ti_cross _ _ _ _ _ _ _ T e r He Hr) as [Hi Hie].
    assert (ix_used (fi (indx_of (fr e))) = true) as Hu.
    { apply used_entry. rewrite Hie. by apply (entry_range te ee). }
    exists (fi (indx_of (fr e))). rewrite Hie. split; [|by apply Hent].
    destruct (used_in_chain _ _ _ _ (indx_of (fr e)) (ti_index _ _ _ _ _ _ _ T) Hi Hu) as (b & Hbb & Hub & Heb).
    rewrite (ti_ihome _ _ _ _ _ _ _ T b _ r Hbb Heb Hu) by by rewrite Hie. simpl in Hub. rewrite Hub. by apply list_elem_of_fmap_2.
Qed.
End lookups.
