(* ===== verification/NatTableProps.v ===== *)
(** * The NAT driver library: its contract

    The calls of [ipa_nat_drv.h] on a table are steps of a map from handles to rules,
    with a bound on when there is no room; the hardware finds every rule of the map
    through both hash tables; what a refused command breaks. *)
From S2P Require Import Prelude Config NatDrv StateM NatTable NatChain NatTableInv NatTableArith NatTableSteps NatTableOps NatTableRep NatTableAdd NatTableDel NatTableNew NatTableHw.
From stdpp Require Import base functions list gmap strings.
From Stdlib Require Import ZArith Lia.

Open Scope Z_scope.
Open Scope method_scope.

(** ** Room *)

(** Different entries with rules are different rules of the map. *)
Lemma rules_of_entries te ee fr ids Mp (l : list Z) :
  dims_ok te ee -> hdl_ok te ee fr ids Mp -> NoDup l ->
  (forall x, x ∈ l -> entry_ok te ee x /\ is_Some (rule_in (fr x))) -> (length l <= size Mp)%nat.
Proof.
  intros [Hte Hee] Hh Hnd Hl.
  set (hd x := default 0%nat (find_index (fun v => v =? rid te x) ids)).
  assert (forall x, x ∈ l -> ids !! hd x = Some (rid te x)) as Hhd.
  { intros x Hx. destruct (Hl x Hx) as [He Hr]. destruct (hd_all _ _ _ _ _ Hh x He Hr) as [k Hk]. unfold hd.
    destruct (find_index _ ids) as [j|] eqn:Hf; simpl.
    - apply find_index_Some in Hf as (v & Hv & Heq%Z.eqb_eq & _). congruence.
    - apply find_index_None in Hf. rewrite Forall_forall in Hf. specialize (Hf (rid te x)). rewrite Z.eqb_refl in Hf.
      discriminate Hf. by eapply list_elem_of_lookup_2. }
  assert (NoDup ((fun x => Z.of_nat (hd x) + 1) <$> l)) as Hnd'.
  { apply NoDup_fmap_2_strong; [|done]. intros x y Hx Hy Heq. assert (hd x = hd y) as Hxy by lia.
    pose proof (Hhd x Hx) as Hix. rewrite Hxy, (Hhd y Hy) in Hix. injection Hix as Hix.
    symmetry. apply (rid_inj te ee Hte Hee); [by apply Hl..|done]. }
  rewrite <- (length_fmap (fun x => Z.of_nat (hd x) + 1) l), <- size_dom, <- (size_list_to_set (C := gset Z)) by done.
  apply subseteq_size. intros h [x [-> Hx]]%elem_of_list_to_set%list_elem_of_fmap. destruct (Hl x Hx) as [He [r Hr]].
  apply elem_of_dom. exists r. apply (hd_map _ _ _ _ _ Hh). split; [lia|]. exists x. split; [done|]. split; [|done].
  replace (Z.to_nat (Z.of_nat (hd x) + 1 - 1)) with (hd x) by lia. by apply Hhd.
Qed.

Lemma full_size te ee m meta ids fr fi fm Mp :
  dims_ok te ee -> nat_data te ee m meta ids fr fi fm Mp -> expn_full te ee fr fi -> ee - 1 <= Z.of_nat (size Mp).
Proof.
  intros Hd D Hfull. pose proof Hd as [Hte Hee]. destruct (nd_inv _ _ _ _ _ _ _ _ _ D) as (chr & chi & T).
  assert (forall x, x ∈ seqZ (te + 1) (ee - 1) -> in_exp te ee x) as Hin by (intros x Hx%elem_of_seqZ; unfold in_exp; lia).
  destruct Hfull as [Hall|Hall].
  - assert (length (seqZ (te + 1) (ee - 1)) <= size Mp)%nat as Hl; [|rewrite length_seqZ in Hl; lia].
    apply (rules_of_entries te ee fr ids Mp _ Hd (nd_hdl _ _ _ _ _ _ _ _ _ D)); [apply NoDup_seqZ|]. intros x Hx%Hin.
    split; [by right|]. destruct (rule_in (fr x)) eqn:Hr; [done|]. exfalso.
    pose proof (ti_dead _ _ _ _ _ _ _ T x (or_intror Hx) (Hall x Hx) Hr) as Hb. unfold in_base, in_exp in *. lia.
  - assert (length ((fun i => ix_entry (fi i)) <$> seqZ (te + 1) (ee - 1)) <= size Mp)%nat as Hl;
      [|rewrite length_fmap, length_seqZ in Hl; lia].
    apply (rules_of_entries te ee fr ids Mp _ Hd (nd_hdl _ _ _ _ _ _ _ _ _ D)).
    + apply NoDup_fmap_2_strong; [|apply NoDup_seqZ]. intros i j Hi%Hin Hj%Hin Heq.
      destruct (ti_cross' _ _ _ _ _ _ _ T i (or_intror Hi) (Hall i Hi)) as (_ & _ & Hji).
      destruct (ti_cross' _ _ _ _ _ _ _ T j (or_intror Hj) (Hall j Hj)) as (_ & _ & Hjj). by rewrite <- Hji, Heq.
    + intros x (i & -> & Hi%Hin)%list_elem_of_fmap.
      by destruct (ti_cross' _ _ _ _ _ _ _ T i (or_intror Hi) (Hall i Hi)) as (? & ? & _).
Qed.

(** ** The calls *)

Inductive nat_call :=
  | NatAdd (r : ipa_nat_ipv4_rule) (h : Z)
  | NatDel (h : Z)
  | NatQuery (h ts : Z).

(** What a client may pass: fields of their width, a protocol other than the mark of
    a deleted rule, a handle that is not 0. *)
Definition call_ok (c : nat_call) : Prop :=
  match c with NatAdd r _ => rule_ok r | NatDel h | NatQuery h _ => 1 <= h /\ fits 16 h end.

(** The specification: a call, its result and the map afterwards. *)
Inductive nat_spec (ee : Z) (Mp : gmap Z ipa_nat_ipv4_rule) : nat_call -> Z * Z -> gmap Z ipa_nat_ipv4_rule -> Prop :=
  | spec_add r h0 h : 1 <= h -> Mp !! h = None -> nat_spec ee Mp (NatAdd r h0) (0, h) (<[h := r]> Mp)
  | spec_no_room r h0 : ee - 1 <= Z.of_nat (size Mp) -> nat_spec ee Mp (NatAdd r h0) (- EINVAL, h0) Mp
  | spec_del r h : Mp !! h = Some r -> nat_spec ee Mp (NatDel h) (0, 0) (delete h Mp)
  | spec_unknown h : Mp !! h = None -> nat_spec ee Mp (NatDel h) (- EINVAL, 0) Mp
  | spec_query h ts ts' : nat_spec ee Mp (NatQuery h ts) (0, ts') Mp.

Inductive nat_spec_run (ee : Z) (Mp : gmap Z ipa_nat_ipv4_rule) : list nat_call -> list (Z * Z) -> gmap Z ipa_nat_ipv4_rule -> Prop :=
  | spec_run_nil : nat_spec_run ee Mp [] [] Mp
  | spec_run_cons c r Mp' cs rs Mp'' :
      nat_spec ee Mp c r Mp' -> nat_spec_run ee Mp' cs rs Mp'' -> nat_spec_run ee Mp (c :: cs) (r :: rs) Mp''.

Section calls.
Context {W : Type} `{NatKernel W}.

Definition do_call (c : nat_call) : M (ipa_nat_cache * (W * unit)) (Z * Z) :=
  match c with
  | NatAdd r h => nat_add_ipv4_rule 1 r h
  | NatDel h => let* r := nat_del_ipv4_rule 1 h in ret (r, 0)
  | NatQuery h ts => nat_query_timestamp 1 h ts
  end.
Fixpoint do_calls (cs : list nat_call) : M (ipa_nat_cache * (W * unit)) (list (Z * Z)) :=
  match cs with
  | [] => ret []
  | c :: cs => let* r := do_call c in let* rs := do_calls cs in ret (r :: rs)
  end.
End calls.

Section contract.
Context {W : Type} `{NatReliable W}.
Context (te ee pub : Z) (Hd : dims_ok te ee).

Lemma wp_add_call Mp (s : ipa_nat_cache * (W * unit)) r h :
  nat_rep te ee pub Mp s -> rule_ok r ->
  wp (nat_add_ipv4_rule 1 r h) (fun x s' => exists Mp', nat_spec ee Mp (NatAdd r h) x Mp' /\ nat_rep te ee pub Mp' s') s.
Proof.
  intros (nfd & size & fd & cnt & m & meta & ids & w & fr & fi & fm & -> & D) Hr. destruct Hd as [Hte Hee].
  unfold nat_add_ipv4_rule. cbn [Z.eqb Z.ltb Z.compare Pos.compare Pos.compare_cont IPA_NAT_INVALID_NAT_ENTRY IPA_NAT_MAX_IP4_TBLS orb].
  apply wp_bind. eapply wp_mono; [by apply (add_rule_wp te ee pub nfd size fd cnt Hte Hee m meta ids w fr fi fm Mp)|].
  intros x s' [(Hf & -> & ->)|(h' & -> & Hh & Hn & Hs)]; apply wp_ret.
  - exists Mp. split; [|by eapply nat_rep_intro]. apply spec_no_room. by apply (full_size te ee m meta ids fr fi fm).
  - exists (<[h' := r]> Mp). split; [|done]. apply spec_add; [lia|done].
Qed.

Lemma wp_del_call Mp (s : ipa_nat_cache * (W * unit)) h :
  nat_rep te ee pub Mp s -> 1 <= h -> fits 16 h ->
  wp (nat_del_ipv4_rule 1 h) (fun x s' => exists Mp', nat_spec ee Mp (NatDel h) (x, 0) Mp' /\ nat_rep te ee pub Mp' s') s.
Proof.
  intros (nfd & size & fd & cnt & m & meta & ids & w & fr & fi & fm & -> & D) Hh1 Hh. destruct Hd as [Hte Hee].
  unfold nat_del_ipv4_rule, IPA_NAT_INVALID_NAT_ENTRY. rewrite (proj2 (Z.eqb_neq h 0)) by lia. cbn [Z.eqb orb].
  eapply wp_mono; [by apply (del_rule_wp te ee pub nfd size fd cnt Hte Hee m meta ids w fr fi fm Mp)|].
  intros x s' [(Hn & -> & ->)|([r Hr] & -> & Hs)].
  - exists Mp. split; [by apply spec_unknown|by eapply nat_rep_intro].
  - exists (delete h Mp). split; [by eapply spec_del|done].
Qed.

Lemma wp_query_call Mp (s : ipa_nat_cache * (W * unit)) h ts :
  nat_rep te ee pub Mp s -> 1 <= h -> fits 16 h ->
  wp (nat_query_timestamp 1 h ts) (fun x s' => exists Mp', nat_spec ee Mp (NatQuery h ts) x Mp' /\ nat_rep te ee pub Mp' s') s.
Proof.
  intros (nfd & size & fd & cnt & m & meta & ids & w & fr & fi & fm & -> & D) Hh1 Hh. pose proof Hd as [Hte Hee].
  pose proof (nd_hdl _ _ _ _ _ _ _ _ _ D) as Hh'. pose proof (hd_len _ _ _ _ _ Hh') as Hlen.
  unfold nat_query_timestamp, IPA_NAT_MAX_IP4_TBLS. cbn [Z.eqb Z.ltb Z.compare Pos.compare Pos.compare_cont orb].
  unfold ipa_nati_query_timestamp. change (trunc 8 (1 - 1)) with 0. cbv zeta. apply wp_bind, wp_get_tbl. cbn [valid cache negb].
  rewrite (trunc_id 16) by done. apply wp_bind.
  enough (exists b y x, 0 <= x < te + ee /\ b = in_expn (cache te ee pub nfd size m meta ids) x /\ y = position (cache te ee pub nfd size m meta ids) x /\
    wp (ipa_nati_parse_ipv4_rule_hdl 0 h) (fun p s => p = (b, y) /\ s = st te ee pub nfd size fd cnt m meta ids w)
      (st te ee pub nfd size fd cnt m meta ids w)) as (b & y & x & Hx & -> & -> & Hp).
  { eapply wp_mono; [exact Hp|]. intros p s [-> ->]. apply wp_bind, (wp_deref _ m); [done|].
    apply wp_bind, (wp_deref _ (fr x)); [apply (rule_at te ee (cache te ee pub nfd size m meta ids) eq_refl m fr fi); [apply D|done]|].
    apply wp_ret. exists Mp. split; [apply spec_query|by eapply nat_rep_intro]. }
  destruct (Z.leb_spec (te + ee) h) as [Hle|Hlt].
  - exists false, 0, 0. split; [lia|]. split_and!.
    + symmetry. apply Z.leb_gt. cbn. lia.
    + unfold position, in_expn. cbn [table_entries cache]. by rewrite (proj2 (Z.leb_gt te 0)) by lia.
    + apply wp_bind, wp_get_tbl. cbn [table_entries expn_table_entries cache]. rewrite (proj2 (Z.leb_le _ _)) by done. by apply wp_ret.
  - destruct (lookup_lt_is_Some_2 ids (Z.to_nat (h - 1))) as [v Hv]; [lia|]. destruct (decide (v = 0)) as [->|Hvz].
    + exists false, 0, 0. split; [lia|]. split_and!.
      * symmetry. apply Z.leb_gt. cbn. lia.
      * unfold position, in_expn. cbn [table_entries cache]. by rewrite (proj2 (Z.leb_gt te 0)) by lia.
      * by apply (wp_parse te ee pub nfd size fd cnt m meta ids w h 0).
    + destruct (hd_slot _ _ _ _ _ Hh' _ _ Hv Hvz) as (x & Hx & -> & _). eexists _, _, x. split; [by apply (entry_range te ee)|].
      split; [reflexivity|]. split; [reflexivity|].
      destruct (rid_parse te ee Hte Hee (cache te ee pub nfd size m meta ids) x eq_refl Hx) as (<- & <- & _).
      by apply (wp_parse te ee pub nfd size fd cnt m meta ids w h (rid te x)).
Qed.

(** C3. The library implements the map: over a kernel that carries out every command,
    for tables of 2 to 16384 entries and calls with valid rules and handles ([call_ok]),
    from a state that stands for a map, every sequence of calls is defined and its
    results and the final map are those of the specification.  A rule that is added
    gets a fresh handle, and is refused only when the map has at least [ee - 1] rules,
    all but one of the number of entries of the expansion table.  A deleted rule is gone
    and an unknown handle is refused; a query changes nothing. *)
Theorem nat_driver_simulation cs Mp s :
  Forall call_ok cs -> nat_rep te ee pub Mp s ->
  wp (do_calls cs) (fun rs s' => exists Mp', nat_spec_run ee Mp cs rs Mp' /\ nat_rep te ee pub Mp' s') s.
Proof.
  intros Hcs. revert Mp s. induction Hcs as [|c cs Hc _ IH]; intros Mp s Hs.
  { apply wp_ret. exists Mp. split; [constructor|done]. }
  apply wp_bind. eapply (wp_mono _ (fun x s' => exists Mp', nat_spec ee Mp c x Mp' /\ nat_rep te ee pub Mp' s')).
  - destruct c as [r h|h|h ts]; cbn [call_ok] in Hc; cbn [do_call].
    + by apply wp_add_call.
    + destruct Hc. apply wp_bind. eapply wp_mono; [by apply wp_del_call|]. intros x s' Hx. by apply wp_ret.
    + destruct Hc. by apply wp_query_call.
  - intros r s' (Mp' & Hr & Hs'). apply wp_bind. eapply wp_mono; [by apply IH|]. intros rs s'' (Mp'' & Hrs & Hs'').
    apply wp_ret. exists Mp''. split; [by econstructor|done].
Qed.
End contract.

Definition sample_rule (port : Z) : ipa_nat_ipv4_rule :=
  {| r_target_ip := 0x08080808; r_private_ip := 0xC0A80102; r_target_port := 53; r_private_port := port;
     r_public_port := port; r_protocol := 17 |}.
Lemma sample_rule_ok port : fits 16 port -> rule_ok (sample_rule port).
Proof. intros Hp. split; try done; by unfold fits. Qed.

Definition sample_calls : list nat_call :=
  [NatAdd (sample_rule 1024) 0; NatAdd (sample_rule 1056) 0; NatAdd (sample_rule 1088) 0; NatDel 1; NatDel 1;
   NatAdd (sample_rule 1120) 0; NatQuery 2 0; NatDel 3; NatDel 2; NatDel 1].
Lemma sample_calls_ok : Forall call_ok sample_calls.
Proof. repeat constructor; by (apply sample_rule_ok || split; [lia|]) || by unfold fits. Qed.

Lemma nat_driver_simulation_witness :
  exists s : ipa_nat_cache * (SimpleNat * unit),
    Forall call_ok sample_calls /\ nat_rep (base_size 40) (expn_size 40) 0x0A000001 ∅ s /\
    wp (do_calls sample_calls) (fun rs s' => exists Mp', nat_spec_run (expn_size 40) ∅ sample_calls rs Mp' /\
      nat_rep (base_size 40) (expn_size 40) 0x0A000001 Mp' s') s.
Proof.
  destruct (wp_run _ _ _ (new_table_wp simple_nat 0x0A000001 40 0 ltac:(lia))) as (r & s & _ & _ & Hs).
  exists s. split; [apply sample_calls_ok|]. split; [exact Hs|].
  apply (nat_driver_simulation (base_size 40) (expn_size 40) 0x0A000001); [|apply sample_calls_ok|exact Hs].
  destruct (sizes_ok 40) as [_ Hd]; [lia|exact Hd].
Defined.

(** The same calls, run: the four rules share a chain. *)
Example sample_run :
  option_map fst ((let* _t := nat_add_ipv4_tbl 0x0A000001 40 0 in do_calls sample_calls) (ipv4_nat_cache, (simple_nat, tt))) =
  Some [(0, 1); (0, 2); (0, 3); (0, 0); (-22, 0); (0, 1); (0, 0); (0, 0); (0, 0); (0, 0)].
Proof. vm_compute. reflexivity. Qed.

(** ** Finding rules *)

(** C4. The hardware finds exactly the rules of the map, from either side: the walks
    from the hash of the destination and, through the index table, from the hash of
    the source reach an entry for a rule if and only if a handle stands for it. *)
Theorem nat_rule_found {W : Type} te ee pub Mp (s : ipa_nat_cache * (W * unit)) r :
  dims_ok te ee -> nat_rep te ee pub Mp s ->
  exists m, live_mem (ip4_tbl (fst s)) = Some m /\
    (dst_lookup te ee m r <> [] <-> exists h, Mp !! h = Some r) /\
    (src_lookup te ee m r <> [] <-> exists h, Mp !! h = Some r).
Proof.
  intros Hd (nfd & size & fd & cnt & m & meta & ids & w & fr & fi & fm & -> & D).
  destruct (nd_inv _ _ _ _ _ _ _ _ _ D) as (chr & chi & T). exists m. split; [done|].
  assert (forall l : list ipa_nat_rule, l <> [] <-> exists x, x ∈ l) as Hne.
  { intros [|x l]; split; [done|by intros [x Hx%not_elem_of_nil]|exists x; left|done]. }
  rewrite !Hne, !(map_entry te ee Hd m meta ids fr fi fm Mp D). split.
  - setoid_rewrite (dst_lookup_iff te ee Hd m meta ids fr fi fm Mp D chr chi T). naive_solver.
  - setoid_rewrite (src_lookup_iff te ee Hd m meta ids fr fi fm Mp D chr chi T). naive_solver.
Qed.

Lemma nat_rule_found_witness :
  exists h m (s : ipa_nat_cache * (SimpleNat * unit)),
    dims_ok (base_size 40) (expn_size 40) /\
    nat_rep (base_size 40) (expn_size 40) 0x0A000001 (<[h := sample_rule 1024]> ∅) s /\
    live_mem (ip4_tbl (fst s)) = Some m /\ dst_lookup (base_size 40) (expn_size 40) m (sample_rule 1024) <> [].
Proof.
  destruct (sizes_ok 40) as [_ Hd]; [lia|].
  destruct (wp_run _ _ _ (new_table_wp simple_nat 0x0A000001 40 0 ltac:(lia))) as (r & s & _ & _ & Hs).
  destruct (wp_run _ _ _ (wp_add_call _ _ _ Hd ∅ s (sample_rule 1024) 0 Hs ltac:(by apply sample_rule_ok))) as (x & s' & _ & Mp & Hspec & Hs').
  inversion Hspec as [? ? h ? Hn|? ? Hroom| | |]; subst.
  - destruct (nat_rule_found _ _ _ _ s' (sample_rule 1024) Hd Hs') as (m & Hm & Hf & _). exists h, m, s'.
    split; [exact Hd|]. split; [exact Hs'|]. split; [exact Hm|]. apply Hf. exists h. apply lookup_insert_eq.
  - exfalso. vm_compute in Hroom. by apply Hroom.
Defined.

(** A command that the kernel refuses is not undone: when enabling a rule fails,
    the entry is free but the chain already leads to it.  The next rule of the chain
    is put there behind itself, and the call succeeds; from then on the chain ends in
    a loop and takes no more rules. *)
Theorem nat_refused_command_loops :
  exists s m x,
    (let* _t := nat_add_ipv4_tbl 0x0A000001 40 0 in
     do_calls [NatAdd (sample_rule 1024) 0; NatAdd (sample_rule 1056) 0; NatAdd (sample_rule 1088) 0; NatAdd (sample_rule 1120) 0])
      (ipv4_nat_cache, ({| refused := [false; false; false; true] |}, tt)) =
      Some ([(0, 1); (- EINVAL, 0); (0, 2); (- EINVAL, 0)], s) /\
    live_mem (ip4_tbl (fst s)) = Some m /\ rule_entry (base_size 40) m 33 = Some x /\
    enabled x = true /\ client_rule x = sample_rule 1088 /\ next_of x = 33.
Proof. do 3 eexists. split; [vm_compute; reflexivity|]. repeat split; reflexivity. Qed.

(** A new table has no rules, whatever its memory held before, and the size its
    percentages give. *)
Theorem nat_new_table {W : Type} `{NatSetup W} (w : W) pub n h0 :
  1 <= n <= 20480 ->
  wp (nat_add_ipv4_tbl pub n h0) (fun r s => r = (0, 1) /\ nat_rep (base_size n) (expn_size n) pub ∅ s) (ipv4_nat_cache, (w, tt)).
Proof. apply new_table_wp. Qed.

Lemma nat_new_table_witness :
  base_size 40 = 32 /\ expn_size 40 = 8 /\
  wp (nat_add_ipv4_tbl 0x0A000001 40 0) (fun r s => r = (0, 1) /\ nat_rep (base_size 40) (expn_size 40) 0x0A000001 ∅ s)
    (ipv4_nat_cache, (simple_nat, tt)).
Proof. split; [reflexivity|]. split; [reflexivity|]. apply (nat_new_table simple_nat). lia. Defined.
