(* ===== verification/LinkedList.v ===== *)
(** * Doubly linked lists of the GPS utilities ([gps/utils/linked_list.c], [linked_list.h])

    A list is a handle to a pair of pointers, head and tail, over elements that
    are linked both ways; elements enter at the head and leave at the tail, or
    from the middle through a search with a callback.  The memory of a list is
    part of a larger state: the callback of a search and the function that frees
    the data of an element act on that state and may have undefined behaviour.

    The second half shows that the operations are those of a list: a search is
    [find_m] over the data, and a removal relinks the neighbours. *)
From S2P Require Import Prelude Heap StateM.
From stdpp Require Import base list gmap.
From Stdlib Require Import ZArith Lia.

Open Scope Z_scope.
Open Scope method_scope.

(** ** Data *)

(** [linked_list_err_type] *)
Definition eLINKED_LIST_SUCCESS : Z := 0.
Definition eLINKED_LIST_FAILURE_GENERAL : Z := -1.
Definition eLINKED_LIST_INVALID_PARAMETER : Z := -2.
Definition eLINKED_LIST_INVALID_HANDLE : Z := -3.
Definition eLINKED_LIST_UNAVAILABLE_RESOURCE : Z := -4.
Definition eLINKED_LIST_INSUFFICIENT_BUFFER : Z := -5.

(** [list_element]; [F] names the functions that free data. *)
Record list_element {F : Type} := mk_element {
  next : option loc;
  prev : option loc;
  data_ptr : option loc;
  dealloc_func : option F
}.
Arguments list_element : clear implicits.

Record list_state := { p_head : option loc; p_tail : option loc }.

(** The handle of a list ([None] for [NULL]) and the elements that are allocated. *)
Record ll_mem {F : Type} := mk_ll { list_data : option list_state; ll_elems : gmap loc (list_element F) }.
Arguments ll_mem : clear implicits.

(** A state that holds the memory of a list. *)
Class HasList (F S : Type) := { ll_get : S -> ll_mem F; ll_put : ll_mem F -> S -> S }.
Class HasListLaws (F S : Type) {L : HasList F S} : Prop := {
  ll_get_put : forall m s, ll_get (ll_put m s) = m;
  ll_put_get : forall s, ll_put (ll_get s) s = s;
  ll_put_put : forall m m' s, ll_put m (ll_put m' s) = ll_put m s
}.

Definition set_elem_next {F} (p : option loc) (e : list_element F) : list_element F :=
  {| next := p; prev := prev e; data_ptr := data_ptr e; dealloc_func := dealloc_func e |}.
Definition set_elem_prev {F} (p : option loc) (e : list_element F) : list_element F :=
  {| next := next e; prev := p; data_ptr := data_ptr e; dealloc_func := dealloc_func e |}.
Definition set_head (p : option loc) (l : list_state) : list_state := {| p_head := p; p_tail := p_tail l |}.
Definition set_tail (p : option loc) (l : list_state) : list_state := {| p_head := p_head l; p_tail := p |}.

(** ** The operations *)

Section operations.
Context {F S : Type} {L : HasList F S}.
(** The call of a function that frees data. *)
Variable dealloc_call : F -> option loc -> M S unit.

(** The object behind the handle. *)
Definition get_list : M S list_state := let* s := get in deref (list_data (ll_get s)).
Definition upd_list (f : list_state -> list_state) : M S unit :=
  let* l := get_list in
  modify (fun s => ll_put {| list_data := Some (f l); ll_elems := ll_elems (ll_get s) |} s).

(** An element through a pointer to it. *)
Definition get_elem (p : loc) : M S (list_element F) := let* s := get in deref (ll_elems (ll_get s) !! p).
Definition put_elem (p : loc) (e : list_element F) : M S unit :=
  modify (fun s => ll_put {| list_data := list_data (ll_get s); ll_elems := <[p := e]> (ll_elems (ll_get s)) |} s).
Definition upd_elem (p : loc) (f : list_element F -> list_element F) : M S unit :=
  let* e := get_elem p in put_elem p (f e).
Definition free_elem (p : loc) : M S unit :=
  get_elem p >>
  modify (fun s => ll_put {| list_data := list_data (ll_get s); ll_elems := delete p (ll_elems (ll_get s)) |} s).

(** [linked_list_init]: [list_data] tells whether the argument is not [NULL],
    [calloc] whether the allocation succeeds. *)
Definition linked_list_init (list_data calloc : bool) : M S Z :=
  if negb list_data then ret eLINKED_LIST_INVALID_PARAMETER else
  if negb calloc then ret eLINKED_LIST_FAILURE_GENERAL else
  modify (fun s => ll_put {| list_data := Some {| p_head := None; p_tail := None |}; ll_elems := ll_elems (ll_get s) |} s) >>
  ret eLINKED_LIST_SUCCESS.

(** [linked_list_add]: [elem] is what [malloc] returns. *)
Definition linked_list_add (elem data_obj : option loc) (dealloc : option F) : M S Z :=
  let* s := get in
  match list_data (ll_get s), data_obj, elem with
  | None, _, _ => ret eLINKED_LIST_INVALID_HANDLE
  | _, None, _ => ret eLINKED_LIST_INVALID_PARAMETER
  | _, _, None => ret eLINKED_LIST_FAILURE_GENERAL
  | Some p_list, Some _, Some elem =>
      put_elem elem {| next := None; prev := None; data_ptr := data_obj; dealloc_func := dealloc |} >>
      upd_list (set_head (Some elem)) >>
      upd_elem elem (set_elem_next (p_head p_list)) >>
      (match p_head p_list with
       | Some tmp => upd_elem tmp (set_elem_prev (Some elem))
       | None => upd_list (set_tail (Some elem))
       end) >>
      ret eLINKED_LIST_SUCCESS
  end.

(** [linked_list_remove]: [data_obj] tells whether the argument is not [NULL];
    the result holds what is written through it. *)
Definition linked_list_remove (data_obj : bool) : M S (Z * option loc) :=
  let* s := get in
  match list_data (ll_get s) with
  | None => ret (eLINKED_LIST_INVALID_HANDLE, None)
  | Some p_list =>
      if negb data_obj then ret (eLINKED_LIST_INVALID_PARAMETER, None) else
      match p_tail p_list with
      | None => ret (eLINKED_LIST_UNAVAILABLE_RESOURCE, None)
      | Some tmp =>
          let* e := get_elem tmp in
          upd_list (set_tail (prev e)) >>
          (match prev e with
           | Some t => upd_elem t (set_elem_next None)
           | None => upd_list (set_head None)
           end) >>
          let* e := get_elem tmp in
          free_elem tmp >>
          ret (eLINKED_LIST_SUCCESS, data_ptr e)
      end
  end.

Definition linked_list_empty : M S Z :=
  let* s := get in
  match list_data (ll_get s) with
  | None => ret eLINKED_LIST_INVALID_HANDLE
  | Some p_list => ret (match p_head p_list with None => 1 | Some _ => 0 end)
  end.

Fixpoint flush_loop (fuel : nat) : M S unit :=
  let* p_list := get_list in
  match p_head p_list, fuel with
  | None, _ => ret tt
  | _, O => ub
  | Some hd, Datatypes.S fuel =>
      let* e := get_elem hd in
      (match dealloc_func e with Some f => dealloc_call f (data_ptr e) | None => ret tt end) >>
      free_elem hd >>
      upd_list (set_head (next e)) >>
      flush_loop fuel
  end.

Definition linked_list_flush : M S Z :=
  let* s := get in
  match list_data (ll_get s) with
  | None => ret eLINKED_LIST_INVALID_HANDLE
  | Some _ =>
      flush_loop (size (ll_elems (ll_get s))) >>
      upd_list (set_tail None) >>
      ret eLINKED_LIST_SUCCESS
  end.

Definition linked_list_destroy (list_data : bool) : M S Z :=
  if negb list_data then ret eLINKED_LIST_INVALID_HANDLE else
  linked_list_flush >>
  modify (fun s => ll_put {| list_data := None; ll_elems := ll_elems (ll_get s) |} s) >>
  ret eLINKED_LIST_SUCCESS.

(** The part of [linked_list_search] that takes element [tmp] out of the list. *)
Definition unlink_found (tmp : loc) (data_p : option (option loc)) : M S unit :=
  let* e := get_elem tmp in
  (match prev e with
   | None => upd_list (set_head (next e))
   | Some p => upd_elem p (set_elem_next (next e))
   end) >>
  (match next e with
   | None => upd_list (set_tail (prev e))
   | Some n => upd_elem n (set_elem_prev (prev e))
   end) >>
  upd_elem tmp (fun e => set_elem_prev None (set_elem_next None e)) >>
  (match data_p, dealloc_func e with
   | None, Some f => dealloc_call f (data_ptr e)
   | _, _ => ret tt
   end) >>
  free_elem tmp.

Fixpoint search_loop (fuel : nat) (equal : option loc -> M S bool) (rm_if_found : bool)
    (data_p : option (option loc)) (tmp : option loc) : M S (option (option loc)) :=
  match tmp, fuel with
  | None, _ => ret data_p
  | _, O => ub
  | Some t, Datatypes.S fuel =>
      let* e := get_elem t in
      let* eq := equal (data_ptr e) in
      if eq then
        let* e := get_elem t in
        let data_p := match data_p with None => None | Some _ => Some (data_ptr e) end in
        (if rm_if_found : bool then unlink_found t data_p else ret tt) >>
        ret data_p
      else
        let* e := get_elem t in search_loop fuel equal rm_if_found data_p (next e)
  end.

(** [linked_list_search]: [data_p] is [None] for [NULL] and otherwise the
    variable pointed to; the result holds its value afterwards. *)
Definition linked_list_search (data_p : option (option loc)) (equal : option loc -> M S bool) (rm_if_found : bool) :
    M S (Z * option (option loc)) :=
  let* s := get in
  match list_data (ll_get s) with
  | None => ret (eLINKED_LIST_INVALID_HANDLE, data_p)
  | Some p_list =>
      match p_tail p_list with
      | None => ret (eLINKED_LIST_UNAVAILABLE_RESOURCE, data_p)
      | Some _ =>
          let* data_p := search_loop (size (ll_elems (ll_get s))) equal rm_if_found
                           (match data_p with None => None | Some _ => Some None end) (p_head p_list) in
          ret (eLINKED_LIST_SUCCESS, data_p)
      end
  end.
End operations.

(** ** Doubly linked segments *)

Section segment.
Context {F : Type}.
Implicit Types (h : gmap loc (list_element F)) (ls : list (loc * (option loc * option F))).

Definition payload (e : list_element F) : option loc * option F := (data_ptr e, dealloc_func e).

(** From [p], following [next] visits [ls] and ends at [q]; the element before
    the first is [pv], the last one (or [pv]) is [lst]. *)
Fixpoint dseg h (pv p : option loc) ls (q lst : option loc) : Prop :=
  match ls with
  | [] => p = q /\ lst = pv
  | (l, a) :: ls => p = Some l /\ exists e, h !! l = Some e /\ payload e = a /\ prev e = pv /\ dseg h (Some l) (next e) ls q lst
  end.

Lemma dseg_app h pv p ls1 ls2 q lst :
  dseg h pv p (ls1 ++ ls2) q lst <-> exists r k, dseg h pv p ls1 r k /\ dseg h k r ls2 q lst.
Proof.
  revert pv p. induction ls1 as [|[l a] ls1 IH]; intros pv p; simpl.
  - split; [by exists p, pv|]. by intros (r & k & [-> ->] & ?).
  - split.
    + intros [-> (e & He & Ha & Hp & (r & k & ? & ?)%IH)]. exists r, k. split; [|done]. split; [done|]. by exists e.
    + intros (r & k & [-> (e & He & Ha & Hp & Hd)] & ?). split; [done|]. exists e. rewrite IH. eauto 10.
Qed.

Lemma dseg_frame h h' pv p ls q lst :
  (forall l, l ∈ ls.*1 -> h' !! l = h !! l) -> dseg h pv p ls q lst -> dseg h' pv p ls q lst.
Proof.
  revert pv p. induction ls as [|[l a] ls IH]; intros pv p Hf; simpl; [done|].
  intros [-> (e & He & Ha & Hp & Hd)]. split; [done|]. exists e. rewrite (Hf l) by (simpl; left).
  split_and!; [done..|]. apply IH; [|done]. intros l' Hl'. apply Hf. simpl. by right.
Qed.

Lemma dseg_insert h pv p ls q lst l e : (l ∉ ls.*1) -> dseg h pv p ls q lst -> dseg (<[l := e]> h) pv p ls q lst.
Proof. intros Hl. apply dseg_frame. intros l' Hl'. apply lookup_insert_ne. congruence. Qed.

Lemma dseg_delete h pv p ls q lst l : (l ∉ ls.*1) -> dseg h pv p ls q lst -> dseg (delete l h) pv p ls q lst.
Proof. intros Hl. apply dseg_frame. intros l' Hl'. apply lookup_delete_ne. congruence. Qed.

Lemma dseg_dom h pv p ls q lst l : dseg h pv p ls q lst -> l ∈ ls.*1 -> is_Some (h !! l).
Proof.
  revert pv p. induction ls as [|[l' a] ls IH]; intros pv p; simpl; [by rewrite elem_of_nil|].
  intros [_ (e & He & _ & _ & Hd)] [->|Hl]%elem_of_cons; [by exists e|by eapply IH].
Qed.

(** The neighbour on the left is relinked: the last element gets a new successor. *)
Lemma dseg_set_next h pv p ls l a q lst r e :
  NoDup (ls ++ [(l, a)]).*1 -> dseg h pv p (ls ++ [(l, a)]) q lst -> h !! l = Some e ->
  dseg (<[l := set_elem_next r e]> h) pv p (ls ++ [(l, a)]) r (Some l).
Proof.
  intros Hnd (r' & k & Hd & [-> (e' & He' & Ha & Hp & _)])%dseg_app He. simplify_eq.
  rewrite fmap_app in Hnd. apply NoDup_app in Hnd as (_ & Hnd & _). apply dseg_app. exists (Some l), (prev e'). split.
  - apply dseg_insert; [|done]. intros Hl. apply (Hnd l Hl). simpl. left.
  - simpl. split; [done|]. exists (set_elem_next r e'). by rewrite lookup_insert_eq.
Qed.

(** The neighbour on the right is relinked: the first element gets a new predecessor. *)
Lemma dseg_set_prev h pv p l a ls q lst k e :
  NoDup ((l, a) :: ls).*1 -> dseg h pv p ((l, a) :: ls) q lst -> h !! l = Some e ->
  dseg (<[l := set_elem_prev k e]> h) k (Some l) ((l, a) :: ls) q lst.
Proof.
  simpl. intros [Hl _]%NoDup_cons [-> (e' & He' & Ha & Hp & Hd)] He. simplify_eq. split; [done|].
  exists (set_elem_prev k e'). rewrite lookup_insert_eq. split_and!; [done..|]. by apply dseg_insert.
Qed.

Lemma dseg_lst h pv p ls q lst : dseg h pv p ls q lst -> lst = (match last ls with Some x => Some x.1 | None => pv end).
Proof.
  revert pv p. induction ls as [|[l a] ls IH]; intros pv p; simpl; [by intros [_ ->]|].
  intros [_ (e & _ & _ & _ & ->%IH)]. destruct ls as [|x ls _] using rev_ind; [done|]. by rewrite app_comm_cons, !last_snoc.
Qed.

(** The memory of a list that holds [ls], from the head to the tail, and nothing else. *)
Record list_rep (m : ll_mem F) ls : Prop := {
  lr_seg : exists p_list, list_data m = Some p_list /\ dseg (ll_elems m) None (p_head p_list) ls None (p_tail p_list);
  lr_nodup : NoDup ls.*1;
  lr_dom : dom (ll_elems m) = list_to_set ls.*1
}.

Lemma list_rep_size m ls : list_rep m ls -> size (ll_elems m) = length ls.
Proof. intros [_ Hnd Hd]. by rewrite <- size_dom, Hd, size_list_to_set, length_fmap. Qed.

Lemma list_rep_tail m ls p_list : list_rep m ls -> list_data m = Some p_list -> p_tail p_list = None <-> ls = [].
Proof.
  intros [(pl & Hl & Hs%dseg_lst) _ _] Hl'. simplify_eq. rewrite Hs. destruct ls as [|x ls _] using rev_ind; [done|].
  rewrite last_snoc. split; [done|]. intros H. by apply app_eq_nil in H as [_ ?].
Qed.

Lemma list_rep_head m ls p_list : list_rep m ls -> list_data m = Some p_list -> p_head p_list = None <-> ls = [].
Proof. intros [(pl & Hl & Hs) _ _] Hl'. simplify_eq. destruct ls as [|[l a] ls]; simpl in Hs; [naive_solver|]. split; [|done]. destruct Hs as [-> _]. done. Qed.

Lemma list_rep_init els : els = ∅ -> list_rep {| list_data := Some {| p_head := None; p_tail := None |}; ll_elems := els |} [].
Proof. intros ->. constructor; [by eexists|constructor|done]. Qed.
End segment.

(** ** Rules for the primitives *)

Section rules.
Context {F S : Type} {L : HasList F S} {LL : HasListLaws F S}.
Implicit Types (m : ll_mem F) (s : S).

Lemma wp_get_elem p e m (Q : list_element F -> S -> Prop) s :
  ll_elems m !! p = Some e -> Q e (ll_put m s) -> wp (get_elem p) Q (ll_put m s).
Proof. intros He HQ. apply wp_bind. eapply (wp_mono _ (fun x s' => x = ll_put m s /\ s' = ll_put m s)); [done|]. intros ? ? [-> ->]. eapply wp_deref; [|done]. by rewrite ll_get_put. Qed.

Lemma wp_put_elem p e m (Q : unit -> S -> Prop) s :
  Q tt (ll_put {| list_data := list_data m; ll_elems := <[p := e]> (ll_elems m) |} s) -> wp (put_elem p e) Q (ll_put m s).
Proof. intros HQ. apply wp_modify. by rewrite ll_get_put, ll_put_put. Qed.

Lemma wp_upd_elem p f e m (Q : unit -> S -> Prop) s :
  ll_elems m !! p = Some e ->
  Q tt (ll_put {| list_data := list_data m; ll_elems := <[p := f e]> (ll_elems m) |} s) -> wp (upd_elem p f) Q (ll_put m s).
Proof. intros He HQ. by apply wp_bind, (wp_get_elem p e), wp_put_elem. Qed.

Lemma wp_free_elem p m (Q : unit -> S -> Prop) s :
  is_Some (ll_elems m !! p) ->
  Q tt (ll_put {| list_data := list_data m; ll_elems := delete p (ll_elems m) |} s) -> wp (free_elem p) Q (ll_put m s).
Proof. intros [e He] HQ. apply wp_bind, (wp_get_elem p e); [done|]. apply wp_modify. by rewrite ll_get_put, ll_put_put. Qed.

Lemma wp_get_list pl m (Q : list_state -> S -> Prop) s :
  list_data m = Some pl -> Q pl (ll_put m s) -> wp get_list Q (ll_put m s).
Proof. intros He HQ. apply wp_bind. eapply (wp_mono _ (fun x s' => x = ll_put m s /\ s' = ll_put m s)); [done|]. intros ? ? [-> ->]. eapply wp_deref; [|done]. by rewrite ll_get_put. Qed.

Lemma wp_upd_list pl f m (Q : unit -> S -> Prop) s :
  list_data m = Some pl ->
  Q tt (ll_put {| list_data := Some (f pl); ll_elems := ll_elems m |} s) -> wp (upd_list f) Q (ll_put m s).
Proof. intros He HQ. apply wp_bind, (wp_get_list pl); [done|]. apply wp_modify. by rewrite ll_get_put, ll_put_put. Qed.

Lemma wp_get m (Q : S -> S -> Prop) s : Q (ll_put m s) (ll_put m s) -> wp get Q (ll_put m s).
Proof. done. Qed.
End rules.

(** ** The operations on a represented list *)

Section specs.
Context {F S : Type} {L : HasList F S} {LL : HasListLaws F S} (dealloc_call : F -> option loc -> M S unit).
Implicit Types (m : ll_mem F) (s : S) (ls : list (loc * (option loc * option F))).

Lemma wp_linked_list_add l d f m ls (Q : Z -> S -> Prop) s :
  list_rep m ls -> ll_elems m !! l = None ->
  (forall m', list_rep m' ((l, (Some d, f)) :: ls) -> Q eLINKED_LIST_SUCCESS (ll_put m' s)) ->
  wp (linked_list_add (Some l) (Some d) f) Q (ll_put m s).
Proof.
  intros R Hl HQ. pose proof R as [(pl & Hpl & Hs) Hnd Hd].
  assert (l ∉ ls.*1) as Hni by (intros Hi; by apply (dseg_dom _ _ _ _ _ _ _ Hs) in Hi as [? ?]; congruence).
  apply wp_bind, wp_get. rewrite ll_get_put, Hpl. apply wp_bind, wp_put_elem.
  apply wp_bind, (wp_upd_list pl); [done|]. apply wp_bind. eapply wp_upd_elem; [apply lookup_insert_eq|]. cbn [set_elem_next ll_elems list_data prev data_ptr dealloc_func].
  rewrite insert_insert_eq. destruct (p_head pl) as [hd|] eqn:Hhd; apply wp_bind.
  - destruct ls as [|[hd' a] ls]; [by destruct Hs|]. pose proof Hs as [[= <-] (e & He & Ha & Hp & Hs')].
    eapply wp_upd_elem; [cbn; rewrite lookup_insert_ne; [exact He|]; set_solver|]. cbn [ll_elems list_data]. apply wp_ret, HQ.
    constructor; simpl.
    + eexists. split; [done|]. simpl. split; [done|]. eexists. rewrite lookup_insert_ne, lookup_insert_eq by set_solver.
      split_and!; [done..|]. simpl. rewrite insert_insert_ne by set_solver.
      apply (dseg_insert _ (Some l) (Some hd) ((hd, a) :: ls)); [done|]. by apply (dseg_set_prev _ None (Some hd)).
    + by constructor.
    + rewrite !dom_insert_L, Hd. simpl. set_solver.
  - apply (list_rep_head _ _ _ R) in Hhd as ->; [|done]. eapply wp_upd_list; [done|]. apply wp_ret, HQ. constructor; simpl.
    + eexists. split; [done|]. simpl. split; [done|]. eexists. rewrite lookup_insert_eq. split_and!; done.
    + apply NoDup_singleton.
    + rewrite dom_insert_L, Hd. done.
Qed.

Lemma wp_linked_list_remove l d f m ls (Q : Z * option loc -> S -> Prop) s :
  list_rep m (ls ++ [(l, (d, f))]) ->
  (forall m', list_rep m' ls -> Q (eLINKED_LIST_SUCCESS, d) (ll_put m' s)) ->
  wp (linked_list_remove true) Q (ll_put m s).
Proof.
  intros [(pl & Hpl & Hs) Hnd Hd] HQ. pose proof (dseg_lst _ _ _ _ _ _ Hs) as Htl. rewrite last_snoc in Htl. simpl in Htl.
  pose proof Hs as (r & k & Hs1 & [-> (e & He & Ha & Hp & Hn & _)])%dseg_app.
  pose proof Hnd as Hnd'. rewrite fmap_app in Hnd'. apply NoDup_app in Hnd' as (Hnd1 & Hni & _).
  assert (l ∉ ls.*1) as Hl by (intros Hi; apply (Hni l Hi); simpl; left).
  apply wp_bind, wp_get. rewrite ll_get_put, Hpl. cbn [negb]. rewrite Htl. apply wp_bind, (wp_get_elem l e); [done|].
  apply wp_bind, (wp_upd_list pl); [done|]. cbn [ll_elems]. apply wp_bind. destruct (prev e) as [t|] eqn:He'.
  - assert (k = Some t) as -> by congruence. destruct ls as [|[t' b] ls _] using rev_ind; [by destruct Hs1|].
    assert (t' = t) as -> by (apply dseg_lst in Hs1; rewrite last_snoc in Hs1; simpl in Hs1; congruence).
    pose proof Hs1 as (r' & k' & _ & [-> (e2 & He2 & _)])%dseg_app. assert (t <> l) as Hne by (rewrite fmap_app in Hl; set_solver).
    eapply wp_upd_elem; [exact He2|]. cbn [ll_elems list_data]. apply wp_bind, (wp_get_elem l e); [cbn; by rewrite lookup_insert_ne|].
    apply wp_bind, wp_free_elem; [cbn; rewrite lookup_insert_ne by done; by eexists|]. cbn [ll_elems list_data].
    apply wp_ret. injection Ha as <- <-. apply HQ. constructor; simpl.
    + eexists. split; [done|]. simpl. apply dseg_delete; [done|]. by eapply dseg_set_next.
    + done.
    + rewrite dom_delete_L, dom_insert_L, Hd, !fmap_app, !list_to_set_app_L. rewrite fmap_app in Hl. simpl in *. set_solver.
  - assert (k = None) as -> by congruence. assert (ls = []) as ->.
    { destruct ls as [|x ls _] using rev_ind; [done|]. apply dseg_lst in Hs1. by rewrite last_snoc in Hs1. }
    eapply wp_upd_list; [done|]. cbn [ll_elems]. apply wp_bind, (wp_get_elem l e); [done|].
    apply wp_bind, wp_free_elem; [by eexists|]. cbn [ll_elems list_data]. apply wp_ret. injection Ha as <- <-. apply HQ. constructor; simpl.
    + by eexists.
    + constructor.
    + rewrite dom_delete_L, Hd. simpl. set_solver.
Qed.

Lemma wp_linked_list_remove_empty m (Q : Z * option loc -> S -> Prop) s :
  list_rep m [] -> Q (eLINKED_LIST_UNAVAILABLE_RESOURCE, None) (ll_put m s) -> wp (linked_list_remove true) Q (ll_put m s).
Proof.
  intros R HQ. pose proof R as [(pl & Hpl & _) _ _]. apply wp_bind, wp_get. rewrite ll_get_put, Hpl. cbn [negb].
  by rewrite (proj2 (list_rep_tail _ _ _ R Hpl)).
Qed.

Lemma linked_list_empty_run m ls s :
  list_rep m ls -> linked_list_empty (ll_put m s) = Some ((if decide (ls = []) then 1 else 0), ll_put m s).
Proof.
  intros R. pose proof R as [(pl & Hpl & _) _ _]. unfold linked_list_empty, bind, get. rewrite ll_get_put, Hpl.
  pose proof (list_rep_head _ _ _ R Hpl) as Hh. destruct (p_head pl), (decide (ls = [])); naive_solver.
Qed.
End specs.

(** ** Searching *)

Section search.
Context {F S : Type} {L : HasList F S} {LL : HasListLaws F S} (dealloc_call : F -> option loc -> M S unit).
Implicit Types (m : ll_mem F) (s : S) (ls : list (loc * (option loc * option F))).

(** A callback that does not look at the memory of the list. *)
Definition ll_frame {A} (c : M S A) : Prop :=
  forall m s, c (ll_put m s) = match c s with Some (x, s') => Some (x, ll_put m s') | None => None end.

(** The search on a list of data: the position of the first one the callback accepts. *)
Fixpoint find_m (equal : option loc -> M S bool) (ds : list (option loc)) : M S (option nat) :=
  match ds with
  | [] => ret None
  | d :: ds =>
      let* b := equal d in
      if b : bool then ret (Some O) else
      let* r := find_m equal ds in ret (Nat.succ <$> r)
  end.

Lemma wp_unlink_found l d f m l1 l2 (Q : unit -> S -> Prop) v s :
  list_rep m (l1 ++ (l, (d, f)) :: l2) ->
  (forall m', list_rep m' (l1 ++ l2) -> Q tt (ll_put m' s)) ->
  wp (unlink_found dealloc_call l (Some v)) Q (ll_put m s).
Proof.
  intros [(pl & Hpl & Hs) Hnd Hd] HQ. pose proof Hs as (r & k & Hs1 & [-> (e & He & Ha & Hp & Hs2)])%dseg_app.
  pose proof Hnd as Hnd'. rewrite fmap_app in Hnd'. apply NoDup_app in Hnd' as (Hnd1 & Hni & [Hl2 Hnd2]%NoDup_cons).
  assert (l ∉ l1.*1) as Hl1 by (intros Hi; apply (Hni l Hi); simpl; left).
  assert (forall x, x ∈ l1.*1 -> x ∉ l2.*1) as H12 by (intros x Hx Hx'; apply (Hni x Hx); by right).
  apply wp_bind, (wp_get_elem l e); [done|]. apply wp_bind.
  (* the left neighbour *)
  assert (exists pl1 h1,
    dseg h1 None (p_head pl1) l1 (next e) (prev e) /\ p_tail pl1 = p_tail pl /\ dom h1 = dom (ll_elems m) /\
    h1 !! l = Some e /\ dseg h1 (Some l) (next e) l2 None (p_tail pl1) /\ forall (Q' : unit -> S -> Prop),
    Q' tt (ll_put {| list_data := Some pl1; ll_elems := h1 |} s) ->
    wp (match prev e with None => upd_list (set_head (next e)) | Some p => upd_elem p (set_elem_next (next e)) end) Q' (ll_put m s))
    as (pl1 & h1 & Hh1 & Ht1 & Hd1 & He1 & Hs2' & Hw).
  { destruct (prev e) as [t|] eqn:Het; subst k.
    - destruct l1 as [|[t' b] l1 _] using rev_ind; [by destruct Hs1|].
      assert (t' = t) as -> by (apply dseg_lst in Hs1; rewrite last_snoc in Hs1; simpl in Hs1; congruence).
      pose proof Hs1 as (r' & k' & _ & [-> (e2 & He2 & _)])%dseg_app. assert (t <> l) as Hne by (rewrite fmap_app in Hl1; set_solver).
      assert (t ∉ l2.*1) by (apply H12; rewrite fmap_app; set_solver).
      exists pl, (<[t := set_elem_next (next e) e2]> (ll_elems m)). split_and!.
      + by eapply dseg_set_next.
      + done.
      + rewrite dom_insert_L. apply elem_of_dom_2 in He2. set_solver.
      + by rewrite lookup_insert_ne.
      + by apply dseg_insert.
      + intros Q' HQ'. eapply wp_upd_elem; [done|]. by rewrite Hpl.
    - assert (l1 = []) as ->. { destruct l1 as [|x l1 _] using rev_ind; [done|]. apply dseg_lst in Hs1. by rewrite last_snoc in Hs1. }
      exists (set_head (next e) pl), (ll_elems m). split_and!; try done. intros Q' HQ'. by eapply wp_upd_list. }
  apply Hw. apply wp_bind.
  (* the right neighbour *)
  assert (exists pl2 h2,
    dseg h2 None (p_head pl2) l1 (next e) (prev e) /\ dom h2 = dom (ll_elems m) /\ h2 !! l = Some e /\
    dseg h2 (prev e) (next e) l2 None (p_tail pl2) /\ forall (Q' : unit -> S -> Prop),
    Q' tt (ll_put {| list_data := Some pl2; ll_elems := h2 |} s) ->
    wp (match next e with None => upd_list (set_tail (prev e)) | Some n => upd_elem n (set_elem_prev (prev e)) end) Q'
      (ll_put {| list_data := Some pl1; ll_elems := h1 |} s)) as (pl2 & h2 & Hh2 & Hd2 & He2 & Hs2'' & Hw2).
  { destruct (next e) as [n|] eqn:Hen.
    - destruct l2 as [|[n' b] l2]; [by destruct Hs2'|]. pose proof Hs2' as [[= <-] (e2 & He2 & _)].
      assert (n <> l) by set_solver. assert (n ∉ l1.*1) by (intros Hi; apply (H12 n Hi); simpl; left).
      exists pl1, (<[n := set_elem_prev (prev e) e2]> h1). split_and!.
      + by apply dseg_insert.
      + rewrite dom_insert_L. apply elem_of_dom_2 in He2. set_solver.
      + by rewrite lookup_insert_ne.
      + by eapply dseg_set_prev.
      + intros Q' HQ'. by eapply wp_upd_elem.
    - destruct l2 as [|[n' b] l2]; [|by destruct Hs2']. exists (set_tail (prev e) pl1), h1. split_and!; try done.
      intros Q' HQ'. by eapply wp_upd_list. }
  apply Hw2. apply wp_bind. eapply wp_upd_elem; [done|]. cbn [ll_elems list_data]. apply wp_bind, wp_ret.
  apply wp_free_elem; [cbn; rewrite lookup_insert_eq; by eexists|]. cbn [ll_elems list_data]. apply HQ. constructor; simpl.
  - exists pl2. split; [done|]. rewrite delete_insert_eq. apply dseg_delete; [rewrite fmap_app; set_solver|].
    apply dseg_app. by eauto.
  - rewrite fmap_app. apply NoDup_app. split_and!; done.
  - rewrite dom_delete_L, dom_insert_L, Hd2, Hd, !fmap_app, !list_to_set_app_L. simpl. set_solver.
Qed.

(** What a search leaves, by the result of [find_m]. *)
Definition searched (ls : list (loc * (option loc * option F))) (rm : bool) (m : ll_mem F)
    (dp : option (option loc)) (code : Z) (r : option (option nat * S)) (r' : option (Z * option (option loc) * S)) : Prop :=
  match r with
  | None => r' = None
  | Some (None, s') => r' = Some (code, match dp with None => None | Some _ => Some None end, ll_put m s')
  | Some (Some i, s') =>
      exists x m', ls !! i = Some x /\ list_rep m' (if rm then delete i ls else ls) /\ (rm = false -> m' = m) /\
        r' = Some (code, match dp with None => None | Some _ => Some x.2.1 end, ll_put m' s')
  end.

Lemma search_loop_spec equal rm dp m pre suf pv p lst fuel s :
  (forall d, ll_frame (equal d)) -> (rm = true -> dp <> None) ->
  list_rep m (pre ++ suf) -> dseg (ll_elems m) pv p suf None lst -> (length suf <= fuel)%nat ->
  match find_m equal (map (fun x => x.2.1) suf) s with
  | None => search_loop dealloc_call fuel equal rm dp p (ll_put m s) = None
  | Some (None, s') => search_loop dealloc_call fuel equal rm dp p (ll_put m s) = Some (dp, ll_put m s')
  | Some (Some i, s') =>
      exists x m', suf !! i = Some x /\ list_rep m' (if rm then pre ++ delete i suf else pre ++ suf) /\ (rm = false -> m' = m) /\
        search_loop dealloc_call fuel equal rm dp p (ll_put m s) =
          Some (match dp with None => None | Some _ => Some x.2.1 end, ll_put m' s')
  end.
Proof.
  intros Heq Hrm. revert pre pv p fuel s. induction suf as [|[l [d f]] suf IH]; intros pre pv p fuel s R Hs Hf; simpl in *.
  { destruct Hs as [-> _]. by destruct fuel. }
  destruct Hs as [-> (e & He & [= Had Haf] & Hp & Hs)]. destruct fuel as [|fuel]; [lia|].
  pose proof (Heq d m s) as Hd. cbn [search_loop].
  assert (forall m' s', ll_elems m' !! l = Some e -> get_elem l (ll_put m' s') = Some (e, ll_put m' s')) as Hget.
  { intros m' s' He'. unfold get_elem, bind, get, deref, ret. by rewrite ll_get_put, He'. }
  rewrite (run_bind _ _ _ _ _ (Hget m s He)), Had. destruct (equal d s) as [[[] s']|] eqn:Eq.
  - rewrite (run_bind _ _ _ _ _ Hd), (run_bind (equal d) _ _ _ _ Eq), (run_bind _ _ _ _ _ (Hget m s' He)), Had. simpl.
    destruct rm; simpl; [|by exists (l, (d, f)), m].
    exists (l, (d, f)). destruct dp as [v|]; [|by destruct Hrm].
    destruct (wp_run (unlink_found dealloc_call l (Some d)) (fun _ s2 => exists m', list_rep m' (pre ++ suf) /\ s2 = ll_put m' s') (ll_put m s'))
      as ([] & s2 & Hu & m' & Hm' & ->); [by eapply wp_unlink_found; eauto|].
    exists m'. split_and!; [done|done|done|]. by rewrite (run_bind _ _ _ _ _ Hu).
  - rewrite (run_bind _ _ _ _ _ Hd), (run_bind (equal d) _ _ _ _ Eq), (run_bind _ _ _ _ _ (Hget m s' He)).
    rewrite cons_middle, app_assoc in R. specialize (IH (pre ++ [(l, (d, f))]) (Some l) (next e) fuel s' R Hs ltac:(lia)).
    destruct (find_m equal _ s') as [[[i|] s2]|] eqn:Ef.
    + rewrite (run_bind _ _ _ _ _ Ef). destruct IH as (x & m' & Hx & Hm' & Hmm & Hr). exists x, m'. split_and!; [done| |done|exact Hr].
      by destruct rm; rewrite <- app_assoc in Hm'.
    + by rewrite (run_bind _ _ _ _ _ Ef).
    + by rewrite (run_bind_ub _ _ _ Ef).
  - by rewrite (run_bind_ub _ _ _ Hd), (run_bind_ub (equal d) _ _ Eq).
Qed.

Lemma linked_list_search_spec equal rm dp m ls s :
  (forall d, ll_frame (equal d)) -> (rm = true -> dp <> None) -> (dp = None \/ dp = Some None) -> list_rep m ls ->
  exists code, searched ls rm m dp code (find_m equal (map (fun x => x.2.1) ls) s)
    (linked_list_search dealloc_call dp equal rm (ll_put m s)).
Proof.
  intros Heq Hrm Hdp R. pose proof R as [(pl & Hpl & Hs) _ _]. exists (if decide (ls = []) then eLINKED_LIST_UNAVAILABLE_RESOURCE else eLINKED_LIST_SUCCESS).
  unfold linked_list_search, bind, get. rewrite ll_get_put, Hpl. pose proof (list_rep_tail _ _ _ R Hpl) as Ht.
  destruct (p_tail pl) as [tl|] eqn:Htl.
  - rewrite (decide_False (P := ls = [])) by naive_solver.
    assert (match dp with None => None | Some _ => Some None end = dp) as -> by (by destruct Hdp as [->| ->]).
    pose proof (search_loop_spec equal rm dp m [] ls None (p_head pl) (Some tl) (size (ll_elems m)) s Heq Hrm R Hs) as Hl.
    rewrite (list_rep_size _ _ R) in Hl |- *. specialize (Hl ltac:(lia)). unfold searched.
    destruct (find_m equal _ s) as [[[i|] s']|]; simpl in *.
    + destruct Hl as (x & m' & Hx & Hm' & Hmm & ->). exists x, m'. split_and!; [done|by destruct rm|done|done].
    + rewrite Hl. simpl. by destruct Hdp as [->| ->].
    + by rewrite Hl.
  - rewrite (proj1 Ht) by done. simpl. by destruct Hdp as [->| ->].
Qed.
End search.

(** ** Emptying *)

Section flush.
Context {F S : Type} {L : HasList F S} {LL : HasListLaws F S} (dealloc_call : F -> option loc -> M S unit).
Implicit Types (m : ll_mem F) (s : S) (ls : list (loc * (option loc * option F))).

Fixpoint dealloc_all (ds : list (option loc * option F)) : M S unit :=
  match ds with
  | [] => ret tt
  | (d, f) :: ds => (match f with Some f => dealloc_call f d | None => ret tt end) >> dealloc_all ds
  end.

(** The memory while it is emptied: the predecessor of the head is gone. *)
Record flushing m pl ls : Prop := {
  fl_data : list_data m = Some pl;
  fl_seg : exists pv lst, dseg (ll_elems m) pv (p_head pl) ls None lst;
  fl_nodup : NoDup ls.*1;
  fl_dom : dom (ll_elems m) = list_to_set ls.*1
}.

Lemma flush_loop_spec m pl ls fuel s :
  (forall f d, ll_frame (dealloc_call f d)) -> flushing m pl ls -> (length ls <= fuel)%nat ->
  match dealloc_all ls.*2 s with
  | None => flush_loop dealloc_call fuel (ll_put m s) = None
  | Some (_, s') => exists m' pl', flushing m' pl' [] /\ flush_loop dealloc_call fuel (ll_put m s) = Some (tt, ll_put m' s')
  end.
Proof.
  intros Hfr. revert m pl fuel s. induction ls as [|[l [d f]] ls IH]; intros m pl fuel s [Hpl (pv & lst & Hs) Hnd Hd] Hf; simpl in *.
  - exists m, pl. split; [by constructor; eauto|].
    assert (get_list (ll_put m s) = Some (pl, ll_put m s)) as Hg by (unfold get_list, bind, get, deref, ret; by rewrite ll_get_put, Hpl).
    destruct Hs as [Hh _]. destruct fuel; cbn [flush_loop]; by rewrite (run_bind _ _ _ _ _ Hg), Hh.
  - destruct Hs as [Hh (e & He & [= Had Haf] & Hp & Hs)]. destruct fuel as [|fuel]; [lia|]. apply NoDup_cons in Hnd as [Hni Hnd].
    assert (get_list (ll_put m s) = Some (pl, ll_put m s)) as Hg by (unfold get_list, bind, get, deref, ret; by rewrite ll_get_put, Hpl).
    assert (get_elem l (ll_put m s) = Some (e, ll_put m s)) as Hge by (unfold get_elem, bind, get, deref, ret; by rewrite ll_get_put, He).
    set (dc := match f with Some f => dealloc_call f d | None => ret tt end).
    assert (ll_frame dc) as Hdc by (destruct f; [apply Hfr|by intros ??]). specialize (Hdc m s).
    cbn [flush_loop]. rewrite (run_bind _ _ _ _ _ Hg), Hh, (run_bind _ _ _ _ _ Hge), Haf, Had. fold dc.
    destruct (dc s) as [[[] s']|] eqn:Hds; [|by rewrite (run_bind_ub dc _ _ Hds), (run_bind_ub dc _ _ Hdc)].
    rewrite (run_bind dc _ _ _ _ Hds), (run_bind dc _ _ _ _ Hdc).
    destruct (wp_run (free_elem l) (fun _ s2 => s2 = ll_put {| list_data := list_data m; ll_elems := delete l (ll_elems m) |} s') (ll_put m s'))
      as ([] & s2 & Hfe & ->); [apply wp_free_elem; [by eexists|done]|]. rewrite (run_bind _ _ _ _ _ Hfe).
    destruct (wp_run (upd_list (set_head (next e))) (fun _ s2 => s2 = ll_put {| list_data := Some (set_head (next e) pl); ll_elems := delete l (ll_elems m) |} s')
      (ll_put {| list_data := list_data m; ll_elems := delete l (ll_elems m) |} s')) as ([] & s2 & Hup & ->); [by eapply wp_upd_list|].
    rewrite (run_bind _ _ _ _ _ Hup). apply (IH _ (set_head (next e) pl)); [|lia]. constructor; simpl; [done| |done|].
    + exists (Some l), lst. by apply dseg_delete.
    + rewrite dom_delete_L, Hd. set_solver.
Qed.

Lemma linked_list_flush_spec m ls s :
  (forall f d, ll_frame (dealloc_call f d)) -> list_rep m ls ->
  match dealloc_all ls.*2 s with
  | None => linked_list_flush dealloc_call (ll_put m s) = None
  | Some (_, s') => exists m', list_rep m' [] /\ linked_list_flush dealloc_call (ll_put m s) = Some (eLINKED_LIST_SUCCESS, ll_put m' s')
  end.
Proof.
  intros Hfr R. pose proof R as [(pl & Hpl & Hs) Hnd Hd]. pose proof (list_rep_size _ _ R) as Hsz.
  pose proof (flush_loop_spec m pl ls (size (ll_elems m)) s Hfr) as Hl. rewrite Hsz in Hl.
  specialize (Hl ltac:(constructor; eauto) ltac:(lia)).
  assert (@linked_list_flush F S L dealloc_call (ll_put m s) =
    (flush_loop dealloc_call (length ls) >> upd_list (set_tail None) >> ret eLINKED_LIST_SUCCESS) (ll_put m s)) as ->.
  { unfold linked_list_flush, bind at 1, get. by rewrite ll_get_put, Hpl, Hsz. }
  destruct (dealloc_all ls.*2 s) as [[[] s']|]; [|by rewrite (run_bind_ub _ _ _ Hl)].
  destruct Hl as (m' & pl' & [Hpl' (pv & lst & Hh & _) _ Hd'] & Hl). simpl in Hh, Hd'. rewrite (run_bind _ _ _ _ _ Hl).
  destruct (wp_run (upd_list (set_tail None)) (fun _ s2 => s2 = ll_put {| list_data := Some (set_tail None pl'); ll_elems := ll_elems m' |} s')
      (ll_put m' s')) as ([] & s2 & Hup & ->); [by eapply wp_upd_list|]. rewrite (run_bind _ _ _ _ _ Hup).
  eexists. split; [|done]. constructor; simpl; [|constructor|done]. eexists. split; [done|]. simpl. by rewrite Hh.
Qed.
End flush.
