(* ===== verification/Agps.v ===== *)
(** * The assisted-GPS state machines ([loc_eng_agps.cpp], [loc_eng_agps.h])

    One state machine looks after one kind of data connection.  Subscribers (the
    modem, daemons, the emergency service) ask for it and give it back; the
    machine asks the connectivity service for the connection, tells subscribers
    when it is there, was denied or is gone, and releases it when nobody needs it
    any more.  [AgpsStateMachine] and its subclass [DSStateMachine] differ in how
    they send a request; the four states are objects with one handler each.

    Subscribers are objects on the heap; the machine's list holds pointers to
    them.  A use of a deleted object, a null pointer or an object of another class
    is undefined behaviour.  The calls the program makes of its surroundings are
    recorded in order. *)
From S2P Require Import Prelude Heap StateM LinkedList.
From stdpp Require Import base list gmap.
From Stdlib Require Import ZArith Lia.

Open Scope Z_scope.
Open Scope method_scope.

(** ** Data *)

Inductive AgpsRsrcStatus :=
  RSRC_SUBSCRIBE | RSRC_UNSUBSCRIBE | RSRC_GRANTED | RSRC_RELEASED | RSRC_DENIED | RSRC_STATUS_MAX.

(** The two values of [AGpsStatusValue] the machines send. *)
Inductive AGpsStatusValue := GPS_REQUEST_AGPS_DATA_CONN | GPS_RELEASE_AGPS_DATA_CONN.

Inductive servicerType := servicerTypeNoCbParam | servicerTypeAgps | servicerTypeExt.

(** The state objects, one of each class. *)
Inductive AgpsState := AgpsReleasedState | AgpsPendingState | AgpsAcquiredState | AgpsReleasingState.

#[export] Instance AgpsRsrcStatus_eq_dec : EqDecision AgpsRsrcStatus.
Proof. solve_decision. Defined.
#[export] Instance AGpsStatusValue_eq_dec : EqDecision AGpsStatusValue.
Proof. solve_decision. Defined.
#[export] Instance AgpsState_eq_dec : EqDecision AgpsState.
Proof. solve_decision. Defined.

Definition AGPS_TYPE_INVALID : Z := -1.
Definition AGPS_TYPE_SUPL : Z := 1.
Definition AGPS_TYPE_WWAN_ANY : Z := 3.
Definition AGPS_TYPE_WIFI : Z := 4.
Definition AGPS_TYPE_SUPL_ES : Z := 5.
Definition AGPS_APN_BEARER_INVALID : Z := -1.
Definition SSID_BUF_SIZE : nat := 33.
Definition LOC_ENG_IF_REQUEST_SENDER_ID_GPSONE_DAEMON : Z := 3.
Definition GPSONE_LOC_API_IF_REQUEST_SUCCESS : Z := 240.
Definition GPSONE_LOC_API_IF_RELEASE_SUCCESS : Z := 241.
Definition GPSONE_LOC_API_IF_FAILURE : Z := 242.
Definition LOC_API_ADAPTER_ERR_SUCCESS : Z := 0.
Definition LOC_API_ADAPTER_ERR_UNSUPPORTED : Z := 2.
Definition LOC_API_ADAPTER_ERR_ENGINE_BUSY : Z := 6.
Definition INADDR_NONE : Z := 2 ^ 32 - 1.
Definition AF_INET6 : Z := 10.

Definition BROADCAST_ALL : Z := - 2 ^ 31.
Definition BROADCAST_ACTIVE : Z := - 2 ^ 31 + 1.
Definition BROADCAST_INACTIVE : Z := - 2 ^ 31 + 2.
Definition MAX_START_DATA_CALL_RETRIES : Z := 4.
Definition DATA_CALL_RETRY_DELAY_MSEC : Z := 500.

(** A C string: its bytes before the terminating zero. *)
Definition cstr := list Z.
Definition c_strlcpy (src : cstr) (size : nat) : cstr := take (size - 1) src.

(** Whether [strncmp(a, b, n)] is zero. *)
Fixpoint strncmp_eq (a b : list Z) (n : nat) : bool :=
  match n with
  | O => true
  | S n => (hd 0 a =? hd 0 b) && ((hd 0 a =? 0) || strncmp_eq (tl a) (tl b) n)
  end.

(** The subclasses of [Subscriber] with their fields. *)
Inductive SubscriberClass :=
  | BITSubscriber (mIPv6Addr : list Z)
  | ATLSubscriber (mBackwardCompatibleMode : bool)
  | WIFISubscriber (mSSID mPassword : option cstr)
  | DSSubscriber.

Record Subscriber := { class : SubscriberClass; ID : Z; mIsInactive : bool }.

#[export] Instance SubscriberClass_eq_dec : EqDecision SubscriberClass.
Proof. solve_decision. Defined.
#[export] Instance Subscriber_eq_dec : EqDecision Subscriber.
Proof. solve_decision. Defined.

(** The constructors; an [int] identifier becomes an unsigned one. *)
Definition new_Subscriber (c : SubscriberClass) (id : Z) : Subscriber := {| class := c; ID := trunc 32 id; mIsInactive := false |}.
Definition new_BITSubscriber (ipv4 : Z) (ipv6 : option (list Z)) : Subscriber :=
  new_Subscriber (BITSubscriber (match ipv6 with None => [0] | Some a => a end)) ipv4.
Definition new_ATLSubscriber (id : Z) (compatibleMode : bool) : Subscriber := new_Subscriber (ATLSubscriber compatibleMode) id.
Definition new_WIFISubscriber (ssid password : option cstr) (sender_id : Z) : Subscriber :=
  new_Subscriber (WIFISubscriber ((fun s => c_strlcpy s SSID_BUF_SIZE) <$> ssid) ((fun s => c_strlcpy s SSID_BUF_SIZE) <$> password)) sender_id.
Definition new_DSSubscriber (id : Z) : Subscriber := new_Subscriber DSSubscriber id.

(** An unsigned identifier passed as an [int]. *)
Definition to_handle (x : Z) : Z := (x + 2 ^ 31) mod 2 ^ 32 - 2 ^ 31.

Record Notification := { rcver : option loc; groupID : Z; rsrcStatus : AgpsRsrcStatus; postNotifyDelete : bool }.

Definition broadcast (group : Z) (status : AgpsRsrcStatus) (del : bool) : Notification :=
  {| rcver := None; groupID := group; rsrcStatus := status; postNotifyDelete := del |}.
Definition notify_one (subscriber : loc) (status : AgpsRsrcStatus) (del : bool) : Notification :=
  {| rcver := Some subscriber; groupID := -1; rsrcStatus := status; postNotifyDelete := del |}.

(** [AGpsExtStatus]; [None] is a field that is not written. *)
Record AGpsExtStatus := {
  nif_type : Z;
  nif_status : AGpsStatusValue;
  nif_ipv4_addr : option Z;
  nif_family : Z;
  nif_ssid : cstr;
  nif_password : cstr
}.

(** What a servicer hands to its callback. *)
Inductive cb_data := NifRequest (r : AGpsExtStatus) | DsCbData (action : AGpsStatusValue).

(** The calls of the surroundings. *)
Inductive agps_call :=
  | data_conn (sender_id status : Z)
  | atlOpenStatus (handle is_succ : Z) (apn : option cstr) (bearer agpsType : Z)
  | atlCloseStatus (handle is_succ : Z)
  | closeDataCall
  | requestATL (connHandle agps_type : Z)
  | requestSuplES (connHandle : Z)
  | servicer_callback (data : option cb_data)
  | start_timer (delay_msec : Z).

(** What the constructor fixes; [is_ds] for a [DSStateMachine]. *)
Record AgpsConf := {
  is_ds : bool;
  mServicer : servicerType;
  mType : Z;
  mEnforceSingleSubscriber : bool
}.

(** The fields that change; [mRetries] is the field of the subclass. *)
Record AgpsStateMachine := {
  mStatePtr : AgpsState;
  mAPN : option cstr;
  mAPNLen : Z;
  mBearer : Z;
  mRetries : Z
}.

Definition set_mStatePtr (x : AgpsState) (m : AgpsStateMachine) : AgpsStateMachine :=
  {| mStatePtr := x; mAPN := mAPN m; mAPNLen := mAPNLen m; mBearer := mBearer m; mRetries := mRetries m |}.
Definition set_mAPN (x : option cstr) (len : Z) (m : AgpsStateMachine) : AgpsStateMachine :=
  {| mStatePtr := mStatePtr m; mAPN := x; mAPNLen := len; mBearer := mBearer m; mRetries := mRetries m |}.
Definition set_mBearer (x : Z) (m : AgpsStateMachine) : AgpsStateMachine :=
  {| mStatePtr := mStatePtr m; mAPN := mAPN m; mAPNLen := mAPNLen m; mBearer := x; mRetries := mRetries m |}.
Definition set_mRetries (x : Z) (m : AgpsStateMachine) : AgpsStateMachine :=
  {| mStatePtr := mStatePtr m; mAPN := mAPN m; mAPNLen := mAPNLen m; mBearer := mBearer m; mRetries := x |}.

(** The function the list frees its data with. *)
Inductive dealloc_fn := deleteObj_fn.

(** What the program around the machine sees of it: the machine's fields, the
    calls so far and the state of the surroundings. *)
Record agps_core {K : Type} := mk_core { machine : AgpsStateMachine; calls : list agps_call; world : K }.
Arguments agps_core : clear implicits.

(** The whole state: the list and its data are on the heap, whose free part is
    [heap]. *)
Record agps {K A : Type} := mk_agps {
  core : agps_core K;
  list_mem : ll_mem dealloc_fn;
  objects : gmap loc Subscriber;
  heap : A
}.
Arguments agps : clear implicits.

Definition upd_machine {K} (f : AgpsStateMachine -> AgpsStateMachine) (c : agps_core K) : agps_core K :=
  {| machine := f (machine c); calls := calls c; world := world c |}.
Definition add_call {K} (x : agps_call) (c : agps_core K) : agps_core K :=
  {| machine := machine c; calls := calls c ++ [x]; world := world c |}.
Definition set_world {K} (k : K) (c : agps_core K) : agps_core K :=
  {| machine := machine c; calls := calls c; world := k |}.
Definition upd_core {K A} (f : agps_core K -> agps_core K) (s : agps K A) : agps K A :=
  {| core := f (core s); list_mem := list_mem s; objects := objects s; heap := heap s |}.
Definition upd_objects {K A} (f : gmap loc Subscriber -> gmap loc Subscriber) (s : agps K A) : agps K A :=
  {| core := core s; list_mem := list_mem s; objects := f (objects s); heap := heap s |}.
Definition set_heap {K A} (a : A) (s : agps K A) : agps K A :=
  {| core := core s; list_mem := list_mem s; objects := objects s; heap := a |}.

#[export] Instance agps_list {K A} : HasList dealloc_fn (agps K A) :=
  {| ll_get := list_mem;
     ll_put m s := {| core := core s; list_mem := m; objects := objects s; heap := heap s |} |}.

#[export] Instance agps_list_laws {K A} : HasListLaws dealloc_fn (agps K A).
Proof. by split; [..|intros []|]. Qed.

(** The surroundings: the callback of an external servicer and the timer answer. *)
Class AgpsEnv (K : Type) := {
  callbackExt : cb_data -> K -> Z * K;
  loc_timer_start : Z -> K -> bool * K
}.

(** The allocator. *)
Class AgpsMem (A : Type) := {
  malloc_element : gmap loc (list_element dealloc_fn) -> A -> option loc * A;
  new_object : gmap loc Subscriber -> A -> loc * A
}.

(** Memory is there, and what is allocated is not in use. *)
Class AgpsMemLaws (A : Type) {G : AgpsMem A} : Prop := {
  malloc_element_ok : forall h a, exists l a', malloc_element h a = (Some l, a') /\ h !! l = None;
  new_object_ok : forall o a, o !! fst (new_object o a) = None
}.

(** ** The operations *)

Section operations.
Context {K A : Type} {E : AgpsEnv K} {G : AgpsMem A} (cf : AgpsConf).
Abbreviation MM := (M (agps K A)).

Definition call_out (c : agps_call) : MM unit := modify (upd_core (add_call c)).
Definition get_sub (p : loc) : MM Subscriber := let* s := get in deref (objects s !! p).
Definition get_machine : MM AgpsStateMachine := let* s := get in ret (machine (core s)).
Definition upd (f : AgpsStateMachine -> AgpsStateMachine) : MM unit := modify (upd_core (upd_machine f)).
Definition ask {X} (f : K -> X * K) : MM X :=
  fun s => let '(x, k) := f (world (core s)) in Some (x, upd_core (set_world k) s).
Definition alloc {X} (f : A -> X * A) : MM X := fun s => let '(x, a) := f (heap s) in Some (x, set_heap a s).

(** [delete] of a subscriber; nothing happens for [NULL]. *)
Definition delete_sub (p : option loc) : MM unit :=
  match p with
  | None => ret tt
  | Some p => get_sub p >> modify (upd_objects (delete p))
  end.

Definition deleteObj (f : dealloc_fn) (data : option loc) : MM unit := delete_sub data.

(** [new] of a subscriber. *)
Definition alloc_sub (x : Subscriber) : MM loc :=
  let* s := get in
  let* p := alloc (new_object (objects s)) in
  modify (upd_objects (insert p x)) >> ret p.

(** *** Subscribers *)

Definition isInactive (s : Subscriber) : bool :=
  match class s with WIFISubscriber _ _ | DSSubscriber => mIsInactive s | _ => false end.

Definition waitForCloseComplete (s : Subscriber) : bool :=
  match class s with WIFISubscriber _ _ | DSSubscriber => true | _ => false end.

(** [equals]; that of a [BITSubscriber] reads the address field of the other
    object, which has to be one of the same class. *)
Definition equals (self s : Subscriber) : option bool :=
  match class self with
  | BITSubscriber a =>
      if negb (ID self =? ID s) then Some false else
      if negb (INADDR_NONE =? ID self) then Some true else
      match class s with BITSubscriber b => Some (strncmp_eq a b 16) | _ => None end
  | _ => Some (ID self =? ID s)
  end.

Definition clone (s : Subscriber) : Subscriber :=
  match class s with
  | WIFISubscriber ssid password => new_WIFISubscriber ssid password (ID s)
  | c => new_Subscriber c (ID s)
  end.

Definition setWifiInfo (s : Subscriber) : cstr * cstr :=
  match class s with
  | WIFISubscriber ssid password =>
      (match ssid with Some x => c_strlcpy x SSID_BUF_SIZE | None => [] end,
       match password with Some x => c_strlcpy x SSID_BUF_SIZE | None => [] end)
  | _ => ([], [])
  end.

Definition forMe (self : Subscriber) (n : Notification) : MM bool :=
  match rcver n with
  | Some r => let* s := get_sub r in deref (equals self s)
  | None =>
      ret ((BROADCAST_ALL =? groupID n) ||
           ((BROADCAST_ACTIVE =? groupID n) && negb (isInactive self)) ||
           ((BROADCAST_INACTIVE =? groupID n) && isInactive self))
  end.

(** [DSStateMachine::informStatus]; the argument is an [int]. *)
Definition informStatus (status : AgpsRsrcStatus) (id : Z) : MM unit :=
  match status with
  | RSRC_UNSUBSCRIBE => call_out (atlCloseStatus id 1)
  | RSRC_RELEASED => call_out closeDataCall
  | RSRC_DENIED => upd (set_mRetries 0) >> call_out (requestATL id AGPS_TYPE_SUPL)
  | RSRC_GRANTED => call_out (atlOpenStatus id 1 None AGPS_APN_BEARER_INVALID AGPS_TYPE_INVALID)
  | _ => ret tt
  end.

(** The machine of a [DSSubscriber] is cast to a [DSStateMachine]. *)
Definition ds_informStatus (status : AgpsRsrcStatus) (s : Subscriber) : MM unit :=
  if is_ds cf then informStatus status (to_handle (ID s)) else ub.

(** What a subscriber does with a notification that is for it; the result says
    whether the status was one it knows. *)
Definition BIT_notify (status : AgpsRsrcStatus) : MM bool :=
  match status with
  | RSRC_UNSUBSCRIBE | RSRC_RELEASED =>
      call_out (data_conn LOC_ENG_IF_REQUEST_SENDER_ID_GPSONE_DAEMON GPSONE_LOC_API_IF_RELEASE_SUCCESS) >> ret true
  | RSRC_DENIED => call_out (data_conn LOC_ENG_IF_REQUEST_SENDER_ID_GPSONE_DAEMON GPSONE_LOC_API_IF_FAILURE) >> ret true
  | RSRC_GRANTED =>
      call_out (data_conn LOC_ENG_IF_REQUEST_SENDER_ID_GPSONE_DAEMON GPSONE_LOC_API_IF_REQUEST_SUCCESS) >> ret true
  | _ => ret false
  end.

Definition ATL_open_status (s : Subscriber) (compat : bool) (is_succ : Z) : MM unit :=
  let* m := get_machine in
  call_out (atlOpenStatus (to_handle (ID s)) is_succ (mAPN m) (mBearer m) (if compat then AGPS_TYPE_INVALID else mType cf)).

Definition ATL_notify (s : Subscriber) (compat : bool) (status : AgpsRsrcStatus) : MM bool :=
  match status with
  | RSRC_UNSUBSCRIBE | RSRC_RELEASED => call_out (atlCloseStatus (to_handle (ID s)) 1) >> ret true
  | RSRC_DENIED => ATL_open_status s compat 0 >> ret true
  | RSRC_GRANTED => ATL_open_status s compat 1 >> ret true
  | _ => ret false
  end.

Definition WIFI_notify (s : Subscriber) (status : AgpsRsrcStatus) : MM bool :=
  match status with
  | RSRC_UNSUBSCRIBE => ret true
  | RSRC_RELEASED => call_out (data_conn (to_handle (ID s)) GPSONE_LOC_API_IF_RELEASE_SUCCESS) >> ret true
  | RSRC_DENIED => call_out (data_conn (to_handle (ID s)) GPSONE_LOC_API_IF_FAILURE) >> ret true
  | RSRC_GRANTED => call_out (data_conn (to_handle (ID s)) GPSONE_LOC_API_IF_REQUEST_SUCCESS) >> ret true
  | _ => ret false
  end.

Definition DS_notify (s : Subscriber) (status : AgpsRsrcStatus) : MM bool :=
  match status with
  | RSRC_UNSUBSCRIBE | RSRC_RELEASED | RSRC_DENIED | RSRC_GRANTED => ds_informStatus status s >> ret true
  | _ => ret false
  end.

Definition notify_class (s : Subscriber) (status : AgpsRsrcStatus) : MM bool :=
  match class s with
  | BITSubscriber _ => BIT_notify status
  | ATLSubscriber compat => ATL_notify s compat status
  | WIFISubscriber _ _ => WIFI_notify s status
  | DSSubscriber => DS_notify s status
  end.

Definition notifyRsrcStatus (self : Subscriber) (n : Notification) : MM bool :=
  let* notify := forMe self n in
  if notify : bool then notify_class self (rsrcStatus n) else ret false.

Definition setInactive (p : loc) : MM unit :=
  let* s := get_sub p in
  match class s with
  | WIFISubscriber _ _ => modify (upd_objects (insert p {| class := class s; ID := ID s; mIsInactive := true |}))
  | DSSubscriber =>
      modify (upd_objects (insert p {| class := class s; ID := ID s; mIsInactive := true |})) >>
      ds_informStatus RSRC_UNSUBSCRIBE s
  | _ => ret tt
  end.

(** *** The list of subscribers *)

(** The callbacks of the searches. *)
Definition hasSubscriber (n : Notification) (data : option loc) : MM bool :=
  let* p := deref data in
  let* s1 := get_sub p in
  forMe s1 n.

Definition notifySubscriber (n : Notification) (data : option loc) : MM bool :=
  let* p := deref data in
  let* s1 := get_sub p in
  let* r := notifyRsrcStatus s1 n in
  ret (r && postNotifyDelete n).

(** A search whose result goes to a variable that is [NULL] before. *)
Definition search_sub (equal : option loc -> MM bool) (rm_if_found : bool) : MM (option loc) :=
  let* r := linked_list_search deleteObj (Some None) equal rm_if_found in
  ret (match snd r with Some p => p | None => None end).

Fixpoint notify_loop (fuel : nat) (n : Notification) : MM unit :=
  match fuel with
  | O => ub
  | Datatypes.S fuel =>
      let* s := search_sub (notifySubscriber n) true in
      delete_sub s >>
      match s with None => ret tt | Some _ => notify_loop fuel n end
  end.

Definition notifySubscribers (n : Notification) : MM unit :=
  if postNotifyDelete n then
    let* s := get in
    notify_loop (Datatypes.S (size (ll_elems (list_mem s)))) n
  else
    linked_list_search deleteObj None (notifySubscriber n) false >> ret tt.

Definition addSubscriber (subscriber : loc) : MM unit :=
  let* s := search_sub (hasSubscriber (notify_one subscriber RSRC_STATUS_MAX false)) false in
  match s with
  | Some _ => ret tt
  | None =>
      let* x := get_sub subscriber in
      let* c := alloc_sub (clone x) in
      let* s := get in
      let* elem := alloc (malloc_element (ll_elems (list_mem s))) in
      linked_list_add elem (Some c) (Some deleteObj_fn) >> ret tt
  end.

Definition hasSubscribers : MM bool := let* r := linked_list_empty in ret (r =? 0).

Definition first_active : MM (option loc) := search_sub (hasSubscriber (broadcast BROADCAST_ACTIVE RSRC_STATUS_MAX false)) false.

Definition hasActiveSubscribers : MM bool :=
  let* s := first_active in ret (match s with Some _ => true | None => false end).

Definition dropAllSubscribers : MM unit := linked_list_flush deleteObj >> ret tt.

(** *** Requests *)

Definition requestRsrc (data : cb_data) : MM Z :=
  match mServicer cf with
  | servicerTypeNoCbParam => call_out (servicer_callback None) >> ret 0
  | servicerTypeExt => call_out (servicer_callback (Some data)) >> ask (callbackExt data)
  | servicerTypeAgps =>
      match data with
      | NifRequest _ => call_out (servicer_callback (Some data)) >> ret 0
      | DsCbData _ => ub
      end
  end.

(** [AgpsStateMachine::sendRsrcRequest] *)
Definition agps_sendRsrcRequest (action : AGpsStatusValue) : MM Z :=
  let* s := first_active in
  if eqb (match s with None => true | Some _ => false end) (bool_decide (GPS_RELEASE_AGPS_DATA_CONN = action)) then
    match s with
    | None =>
        requestRsrc (NifRequest {| nif_type := mType cf; nif_status := action; nif_ipv4_addr := Some INADDR_NONE;
                                   nif_family := 0; nif_ssid := []; nif_password := [] |}) >> ret 0
    | Some p =>
        let* x := get_sub p in
        requestRsrc (NifRequest {| nif_type := mType cf; nif_status := action; nif_ipv4_addr := None;
                                   nif_family := AF_INET6; nif_ssid := fst (setWifiInfo x);
                                   nif_password := snd (setWifiInfo x) |}) >> ret 0
    end
  else ret 0.

(** [DSStateMachine::sendRsrcRequest] after the answer of the servicer; the
    handle that [loc_timer_start] returns is not null when the timer runs. *)
Definition ds_handle_result (r connHandle : Z) : MM Z :=
  if r =? LOC_API_ADAPTER_ERR_ENGINE_BUSY then
    upd (fun m => set_mRetries (uinc 8 (mRetries m)) m) >>
    let* m := get_machine in
    if MAX_START_DATA_CALL_RETRIES <? mRetries m then informStatus RSRC_DENIED connHandle >> ret r
    else
      call_out (start_timer DATA_CALL_RETRY_DELAY_MSEC) >>
      let* started := ask (loc_timer_start DATA_CALL_RETRY_DELAY_MSEC) in
      if started : bool then ret (-1) else ret r
  else if r =? LOC_API_ADAPTER_ERR_UNSUPPORTED then informStatus RSRC_DENIED connHandle >> ret r
  else if r =? LOC_API_ADAPTER_ERR_SUCCESS then ret r
  else if r =? -1 then informStatus RSRC_DENIED connHandle >> ret r
  else ret r.

Definition ds_sendRsrcRequest (action : AGpsStatusValue) : MM Z :=
  let* s := first_active in
  let* connHandle :=
    match s with
    | Some p => let* x := get_sub p in ret (to_handle (ID x))
    | None => ret (-1)
    end in
  let* r := requestRsrc (DsCbData action) in
  ds_handle_result r connHandle.

Definition sendRsrcRequest (action : AGpsStatusValue) : MM Z :=
  if is_ds cf then ds_sendRsrcRequest action else agps_sendRsrcRequest action.
End operations.

(** ** The states and the machine *)

Section machine.
Context {K A : Type} {E : AgpsEnv K} {G : AgpsMem A} (cf : AgpsConf).
Abbreviation MM := (M (agps K A)).

(** [AgpsReleasedState::onRsrcEvent]; [data] is a pointer to a subscriber, or
    [NULL] for an event from the connectivity service. *)
Definition Released_onRsrcEvent (event : AgpsRsrcStatus) (data : option loc) : MM AgpsState :=
  match event with
  | RSRC_SUBSCRIBE =>
      let* p := deref data in
      addSubscriber p >>
      let* r := sendRsrcRequest cf GPS_REQUEST_AGPS_DATA_CONN in
      ret (if r =? 0 then AgpsPendingState else AgpsReleasedState)
  | RSRC_UNSUBSCRIBE =>
      let* p := deref data in
      let* s := get_sub p in
      notifyRsrcStatus cf s (notify_one p event false) >>
      ret AgpsReleasedState
  | _ => ret AgpsReleasedState
  end.

(** The common part of the three handlers of [RSRC_UNSUBSCRIBE]. *)
Definition leave (p : loc) (event : AgpsRsrcStatus) : MM unit :=
  let* s := get_sub p in
  if waitForCloseComplete s then setInactive cf p
  else notifySubscribers cf (notify_one p event true).

(** [RSRC_UNSUBSCRIBE] while the connection is there or is asked for. *)
Definition leave_and_release (self : AgpsState) (data : option loc) (event : AgpsRsrcStatus) : MM AgpsState :=
  let* p := deref data in
  leave p event >>
  let* b := hasSubscribers in
  if negb b then sendRsrcRequest cf GPS_RELEASE_AGPS_DATA_CONN >> ret AgpsReleasedState
  else
    let* b := hasActiveSubscribers in
    if negb b then sendRsrcRequest cf GPS_RELEASE_AGPS_DATA_CONN >> ret AgpsReleasingState
    else ret self.

Definition Pending_onRsrcEvent (event : AgpsRsrcStatus) (data : option loc) : MM AgpsState :=
  match event with
  | RSRC_SUBSCRIBE => let* p := deref data in addSubscriber p >> ret AgpsPendingState
  | RSRC_UNSUBSCRIBE => leave_and_release AgpsPendingState data event
  | RSRC_GRANTED => notifySubscribers cf (broadcast BROADCAST_ACTIVE event false) >> ret AgpsAcquiredState
  | RSRC_RELEASED => ret AgpsPendingState
  | RSRC_DENIED => notifySubscribers cf (broadcast BROADCAST_ALL event true) >> ret AgpsReleasedState
  | _ => ret AgpsPendingState
  end.

Definition Acquired_onRsrcEvent (event : AgpsRsrcStatus) (data : option loc) : MM AgpsState :=
  match event with
  | RSRC_SUBSCRIBE =>
      let* p := deref data in
      let* s := get_sub p in
      notifyRsrcStatus cf s (notify_one p RSRC_GRANTED false) >>
      addSubscriber p >> ret AgpsAcquiredState
  | RSRC_UNSUBSCRIBE => leave_and_release AgpsAcquiredState data event
  | RSRC_RELEASED => notifySubscribers cf (broadcast BROADCAST_ALL event true) >> ret AgpsReleasedState
  | _ => ret AgpsAcquiredState
  end.

Definition Releasing_onRsrcEvent (event : AgpsRsrcStatus) (data : option loc) : MM AgpsState :=
  match event with
  | RSRC_SUBSCRIBE => let* p := deref data in addSubscriber p >> ret AgpsReleasingState
  | RSRC_UNSUBSCRIBE =>
      let* p := deref data in
      leave p event >>
      let* b := hasSubscribers in
      ret (if negb b then AgpsReleasedState else AgpsReleasingState)
  | RSRC_DENIED | RSRC_RELEASED =>
      notifySubscribers cf (broadcast BROADCAST_INACTIVE event true) >>
      let* b := hasActiveSubscribers in
      if b : bool then sendRsrcRequest cf GPS_REQUEST_AGPS_DATA_CONN >> ret AgpsPendingState
      else ret AgpsReleasedState
  | _ => ret AgpsReleasingState
  end.

(** The virtual call [mStatePtr->onRsrcEvent(event, data)] and the assignment of
    its result. *)
Definition state_onRsrcEvent (st : AgpsState) (event : AgpsRsrcStatus) (data : option loc) : MM AgpsState :=
  match st with
  | AgpsReleasedState => Released_onRsrcEvent event data
  | AgpsPendingState => Pending_onRsrcEvent event data
  | AgpsAcquiredState => Acquired_onRsrcEvent event data
  | AgpsReleasingState => Releasing_onRsrcEvent event data
  end.

Definition step_state (event : AgpsRsrcStatus) (data : option loc) : MM unit :=
  let* m := get_machine in
  let* st := state_onRsrcEvent (mStatePtr m) event data in
  upd (set_mStatePtr st).

(** [AgpsStateMachine::onRsrcEvent] and [DSStateMachine::onRsrcEvent] *)
Definition agps_onRsrcEvent (event : AgpsRsrcStatus) : MM unit :=
  match event with
  | RSRC_GRANTED | RSRC_RELEASED | RSRC_DENIED => step_state event None
  | _ => ret tt
  end.

Definition ds_onRsrcEvent (event : AgpsRsrcStatus) : MM unit :=
  match event with
  | RSRC_GRANTED => step_state event None
  | RSRC_RELEASED =>
      let* m := get_machine in
      step_state event None >>
      let* m' := get_machine in
      if decide (mStatePtr m' = mStatePtr m) then step_state RSRC_DENIED None else ret tt
  | RSRC_DENIED => step_state event None
  | _ => ret tt
  end.

Definition onRsrcEvent (event : AgpsRsrcStatus) : MM unit := if is_ds cf then ds_onRsrcEvent event else agps_onRsrcEvent event.

Definition subscribeRsrc (subscriber : loc) : MM unit :=
  let* b := hasSubscribers in
  if mEnforceSingleSubscriber cf && b then
    notifySubscriber cf (broadcast BROADCAST_ALL RSRC_DENIED true) (Some subscriber) >> ret tt
  else step_state RSRC_SUBSCRIBE (Some subscriber).

Definition unsubscribeRsrc (subscriber : loc) : MM bool :=
  let* s := search_sub (hasSubscriber (notify_one subscriber RSRC_STATUS_MAX false)) false in
  match s with
  | Some _ => step_state RSRC_UNSUBSCRIBE s >> ret true
  | None => ret false
  end.

Definition retryCallback : MM unit :=
  let* s := first_active in
  match s with
  | Some p => let* x := get_sub p in call_out (requestSuplES (to_handle (ID x)))
  | None => ret tt
  end.

(** [setAPN]: [len] bytes are copied. *)
Definition setAPN (apn : option (list Z)) (len : nat) : MM unit :=
  match apn with
  | Some a => if decide (len <= length a)%nat then upd (set_mAPN (Some (take len a)) (Z.of_nat len)) else ub
  | None => upd (set_mAPN None 0)
  end.

Definition setBearer (bearer : Z) : MM unit := upd (set_mBearer bearer).

(** A call of the machine with a subscriber that lives as long as the call. *)
Definition with_sub {X} (x : Subscriber) (f : loc -> MM X) : MM X :=
  let* p := alloc_sub x in
  let* r := f p in
  delete_sub (Some p) >> ret r.

(** The constructors. *)
Definition new_machine (k : K) (a : A) : agps K A :=
  {| core :=
       {| machine :=
            {| mStatePtr := AgpsReleasedState; mAPN := None; mAPNLen := 0; mBearer := AGPS_APN_BEARER_INVALID;
               mRetries := 0 |};
          calls := []; world := k |};
     list_mem := {| list_data := Some {| p_head := None; p_tail := None |}; ll_elems := ∅ |};
     objects := ∅; heap := a |}.
End machine.
