(* ===== verification/AgpsSpec.v ===== *)
(** * The assisted-GPS state machine without its heap

    The abstract machine keeps a list of subscribers, newest first, and no
    pointers: a notification is a [filter], and an operation a function from the
    machine's core and its list to the new ones. *)
From S2P Require Import Prelude Agps.
From stdpp Require Import base list.
From Stdlib Require Import ZArith Lia.

Open Scope Z_scope.

(** ** The abstract machine *)

Section spec.
Context {K : Type} {E : AgpsEnv K} (cf : AgpsConf).
Implicit Types (c : agps_core K) (x : Subscriber) (xs : list Subscriber) (st : AgpsRsrcStatus).

(** [x->equals(r)] on subscribers it is defined for. *)
Definition same x (r : Subscriber) : bool :=
  (ID x =? ID r) &&
  match class x with
  | BITSubscriber a =>
      negb (INADDR_NONE =? ID x) || match class r with BITSubscriber b => strncmp_eq a b 16 | _ => false end
  | _ => true
  end.

(** Whom a notification is for. *)
Inductive target := ToAll | ToActive | ToInactive | ToOne (r : Subscriber).
Definition for_me (t : target) x : bool :=
  match t with ToAll => true | ToActive => negb (isInactive x) | ToInactive => isInactive x | ToOne r => same x r end.

(** The call by which a subscriber learns a status. *)
Definition told st x (m : AgpsStateMachine) : list agps_call :=
  match class x, st with
  | BITSubscriber _, (RSRC_UNSUBSCRIBE | RSRC_RELEASED) => [data_conn LOC_ENG_IF_REQUEST_SENDER_ID_GPSONE_DAEMON GPSONE_LOC_API_IF_RELEASE_SUCCESS]
  | BITSubscriber _, RSRC_DENIED => [data_conn LOC_ENG_IF_REQUEST_SENDER_ID_GPSONE_DAEMON GPSONE_LOC_API_IF_FAILURE]
  | BITSubscriber _, RSRC_GRANTED => [data_conn LOC_ENG_IF_REQUEST_SENDER_ID_GPSONE_DAEMON GPSONE_LOC_API_IF_REQUEST_SUCCESS]
  | ATLSubscriber _, (RSRC_UNSUBSCRIBE | RSRC_RELEASED) => [atlCloseStatus (to_handle (ID x)) 1]
  | ATLSubscriber b, RSRC_DENIED => [atlOpenStatus (to_handle (ID x)) 0 (mAPN m) (mBearer m) (if b then AGPS_TYPE_INVALID else mType cf)]
  | ATLSubscriber b, RSRC_GRANTED => [atlOpenStatus (to_handle (ID x)) 1 (mAPN m) (mBearer m) (if b then AGPS_TYPE_INVALID else mType cf)]
  | WIFISubscriber _ _, RSRC_RELEASED => [data_conn (to_handle (ID x)) GPSONE_LOC_API_IF_RELEASE_SUCCESS]
  | WIFISubscriber _ _, RSRC_DENIED => [data_conn (to_handle (ID x)) GPSONE_LOC_API_IF_FAILURE]
  | WIFISubscriber _ _, RSRC_GRANTED => [data_conn (to_handle (ID x)) GPSONE_LOC_API_IF_REQUEST_SUCCESS]
  | DSSubscriber, RSRC_UNSUBSCRIBE => [atlCloseStatus (to_handle (ID x)) 1]
  | DSSubscriber, RSRC_RELEASED => [closeDataCall]
  | DSSubscriber, RSRC_DENIED => [requestATL (to_handle (ID x)) AGPS_TYPE_SUPL]
  | DSSubscriber, RSRC_GRANTED => [atlOpenStatus (to_handle (ID x)) 1 None AGPS_APN_BEARER_INVALID AGPS_TYPE_INVALID]
  | _, _ => []
  end.

Definition retries_told st x (m : AgpsStateMachine) : AgpsStateMachine :=
  match class x, st with DSSubscriber, RSRC_DENIED => set_mRetries 0 m | _, _ => m end.

Definition tell st x c : agps_core K :=
  {| machine := retries_told st x (machine c); calls := calls c ++ told st x (machine c); world := world c |}.
Definition tell_all st xs c : agps_core K := foldl (fun c x => tell st x c) c xs.

Definition with_state (st : AgpsState) c : agps_core K := upd_machine (set_mStatePtr st) c.
Definition state_of c : AgpsState := mStatePtr (machine c).
Definition is_active x : bool := negb (isInactive x).

(** *** Requests *)

Definition a_servicer (data : cb_data) c : Z * agps_core K :=
  match mServicer cf with
  | servicerTypeNoCbParam => (0, add_call (servicer_callback None) c)
  | servicerTypeAgps => (0, add_call (servicer_callback (Some data)) c)
  | servicerTypeExt =>
      let '(r, k) := callbackExt data (world c) in (r, set_world k (add_call (servicer_callback (Some data)) c))
  end.

Definition a_deny (h : Z) c : agps_core K := add_call (requestATL h AGPS_TYPE_SUPL) (upd_machine (set_mRetries 0) c).

Definition a_ds_result (r h : Z) c : Z * agps_core K :=
  if r =? LOC_API_ADAPTER_ERR_ENGINE_BUSY then
    let c := upd_machine (fun m => set_mRetries (uinc 8 (mRetries m)) m) c in
    if MAX_START_DATA_CALL_RETRIES <? mRetries (machine c) then (r, a_deny h c)
    else
      let c := add_call (start_timer DATA_CALL_RETRY_DELAY_MSEC) c in
      let '(started, k) := loc_timer_start DATA_CALL_RETRY_DELAY_MSEC (world c) in
      (if started : bool then -1 else r, set_world k c)
  else if (r =? LOC_API_ADAPTER_ERR_UNSUPPORTED) || (r =? -1) then (r, a_deny h c)
  else (r, c).

Definition first_of xs : option Subscriber := i ← find_index is_active xs; xs !! i.

Definition nif_request (action : AGpsStatusValue) (s : option Subscriber) : cb_data :=
  match s with
  | None => NifRequest {| nif_type := mType cf; nif_status := action; nif_ipv4_addr := Some INADDR_NONE; nif_family := 0;
                          nif_ssid := []; nif_password := [] |}
  | Some x => NifRequest {| nif_type := mType cf; nif_status := action; nif_ipv4_addr := None; nif_family := AF_INET6;
                            nif_ssid := fst (setWifiInfo x); nif_password := snd (setWifiInfo x) |}
  end.

(** A request goes out when an active subscriber needs the connection, a release
    when none does; the emergency machine sends both in any case. *)
Definition a_request (action : AGpsStatusValue) xs c : Z * agps_core K :=
  if is_ds cf then
    let h := match first_of xs with Some x => to_handle (ID x) | None => -1 end in
    let '(r, c) := a_servicer (DsCbData action) c in a_ds_result r h c
  else
    match first_of xs, action with
    | None, GPS_RELEASE_AGPS_DATA_CONN | Some _, GPS_REQUEST_AGPS_DATA_CONN =>
        (0, snd (a_servicer (nif_request action (first_of xs)) c))
    | _, _ => (0, c)
    end.

(** *** Subscribing *)

Definition a_add x xs : list Subscriber :=
  match find_index (fun y => same y x) xs with Some _ => xs | None => clone x :: xs end.

Definition a_subscribe x c xs : agps_core K * list Subscriber :=
  if mEnforceSingleSubscriber cf && negb (bool_decide (xs = [])) then (tell RSRC_DENIED x c, xs) else
  match state_of c with
  | AgpsReleasedState =>
      let '(r, c) := a_request GPS_REQUEST_AGPS_DATA_CONN (a_add x xs) c in
      (with_state (if r =? 0 then AgpsPendingState else AgpsReleasedState) c, a_add x xs)
  | AgpsAcquiredState => (tell RSRC_GRANTED x c, a_add x xs)
  | _ => (c, a_add x xs)
  end.

(** *** Unsubscribing *)

Definition deactivate x : Subscriber := {| class := class x; ID := ID x; mIsInactive := true |}.

(** The member [x] at index [i] leaves, at once or when the connection is closed. *)
Definition a_leave (i : nat) x c xs : agps_core K * list Subscriber :=
  if waitForCloseComplete x then
    (match class x with DSSubscriber => tell RSRC_UNSUBSCRIBE x c | _ => c end, alter deactivate i xs)
  else (tell RSRC_UNSUBSCRIBE x c, delete i xs).

(** A member that leaves at once while others stay: the search goes on with a
    pointer to the member that is gone. *)
Definition leaves_dangling x c xs : bool :=
  match state_of c with
  | AgpsReleasedState => false
  | _ => negb (waitForCloseComplete x) && (1 <? length xs)%nat
  end.

Definition a_unsubscribe_at (i : nat) x c xs : agps_core K * list Subscriber :=
  match state_of c with
  | AgpsReleasedState => (tell RSRC_UNSUBSCRIBE x c, xs)
  | AgpsReleasingState =>
      let '(c, xs) := a_leave i x c xs in
      (if bool_decide (xs = []) then with_state AgpsReleasedState c else c, xs)
  | _ =>
      let '(c, xs) := a_leave i x c xs in
      if bool_decide (xs = []) then (with_state AgpsReleasedState (snd (a_request GPS_RELEASE_AGPS_DATA_CONN xs c)), xs)
      else match first_of xs with
           | None => (with_state AgpsReleasingState (snd (a_request GPS_RELEASE_AGPS_DATA_CONN xs c)), xs)
           | Some _ => (c, xs)
           end
  end.

Definition a_unsubscribe (r : Subscriber) c xs : bool * (agps_core K * list Subscriber) :=
  match find_index (fun y => same y r) xs with
  | Some i => match xs !! i with Some x => (true, a_unsubscribe_at i x c xs) | None => (false, (c, xs)) end
  | None => (false, (c, xs))
  end.

(** *** Events of the connectivity service *)

Definition a_step st c xs : agps_core K * list Subscriber :=
  match state_of c, st with
  | AgpsPendingState, RSRC_GRANTED => (with_state AgpsAcquiredState (tell_all st (filter is_active xs) c), xs)
  | AgpsPendingState, RSRC_DENIED | AgpsAcquiredState, RSRC_RELEASED => (with_state AgpsReleasedState (tell_all st xs c), [])
  | AgpsReleasingState, (RSRC_DENIED | RSRC_RELEASED) =>
      let c := tell_all st (filter isInactive xs) c in
      let xs := filter is_active xs in
      (if bool_decide (xs = []) then with_state AgpsReleasedState c
       else with_state AgpsPendingState (snd (a_request GPS_REQUEST_AGPS_DATA_CONN xs c)), xs)
  | _, _ => (c, xs)
  end.

Definition a_event st c xs : agps_core K * list Subscriber :=
  match st with
  | RSRC_GRANTED | RSRC_DENIED => a_step st c xs
  | RSRC_RELEASED =>
      let '(c', xs') := a_step RSRC_RELEASED c xs in
      if is_ds cf && bool_decide (state_of c' = state_of c) then a_step RSRC_DENIED c' xs' else (c', xs')
  | _ => (c, xs)
  end.

Definition a_retry c xs : agps_core K :=
  match first_of xs with Some x => add_call (requestSuplES (to_handle (ID x))) c | None => c end.
End spec.
