(* ===== verification/AgpsRun.v ===== *)
(** * Running the state machines on the heap

    The representation of a list of subscribers: the nodes of the machine's
    linked list point to objects on the heap, and besides these only the argument
    of a call is alive.  The lemmas below run the searches of the machine with
    their callbacks on a represented list. *)
From S2P Require Import Prelude Heap StateM LinkedList Agps AgpsSpec.
From stdpp Require Import base list gmap.
From Stdlib Require Import ZArith Lia.

Open Scope Z_scope.
Open Scope method_scope.

(** ** The representation *)

Section rep.
Context {K A : Type}.

Definition payload_of (p : loc) : option loc * option dealloc_fn := (Some p, Some deleteObj_fn).

(** The machine's list holds [xs] at the addresses [ps]; [extra] are the other
    objects that are alive. *)
Record agps_rep (s : agps K A) (ps : list loc) (xs : list Subscriber) (extra : list (loc * Subscriber)) : Prop := {
  ar_list : exists ls, list_rep (list_mem s) ls /\ ls.*2 = payload_of <$> ps;
  ar_subs : Forall2 (fun p x => objects s !! p = Some x) ps xs;
  ar_extra : Forall (fun px => objects s !! px.1 = Some px.2) extra;
  ar_nodup : NoDup (ps ++ extra.*1);
  ar_dom : dom (objects s) = list_to_set (ps ++ extra.*1)
}.

Lemma rep_data ls ps : ls.*2 = payload_of <$> ps -> map (fun x : loc * (option loc * option dealloc_fn) => x.2.1) ls = Some <$> ps.
Proof.
  intros H. transitivity (fst <$> (ls.*2)); [by rewrite <- list_fmap_compose|]. rewrite H, <- list_fmap_compose. done.
Qed.

Lemma rep_core s ps xs extra f : agps_rep s ps xs extra -> agps_rep (upd_core f s) ps xs extra.
Proof. intros [? ? ? ? ?]. by constructor. Qed.

Lemma rep_heap s ps xs extra a : agps_rep s ps xs extra -> agps_rep (set_heap a s) ps xs extra.
Proof. intros [? ? ? ? ?]. by constructor. Qed.

Lemma rep_lookup s ps xs extra i p : agps_rep s ps xs extra -> ps !! i = Some p -> exists x, xs !! i = Some x /\ objects s !! p = Some x.
Proof. intros R Hp. by eapply Forall2_lookup_l in Hp as (x & Hx & Ho); [exists x|apply R]. Qed.

Lemma rep_lookup_x s ps xs extra i x : agps_rep s ps xs extra -> xs !! i = Some x -> exists p, ps !! i = Some p /\ objects s !! p = Some x.
Proof. intros R Hp. by eapply Forall2_lookup_r in Hp as (p & Hp & Ho); [exists p|apply R]. Qed.

Lemma rep_object s ps xs extra i p x : agps_rep s ps xs extra -> ps !! i = Some p -> xs !! i = Some x -> objects s !! p = Some x.
Proof. intros R Hp Hx. destruct (rep_lookup _ _ _ _ _ _ R Hp) as (y & ? & ?). congruence. Qed.
End rep.

(** ** Callbacks that leave the list's memory alone *)

Section frame.
Context {K A : Type} {E : AgpsEnv K} {G : AgpsMem A} (cf : AgpsConf).

Lemma frame_ret {X} (x : X) : ll_frame (S := agps K A) (ret x).
Proof. done. Qed.

Lemma frame_bind {X Y} (c : M (agps K A) X) (k : X -> M (agps K A) Y) :
  ll_frame c -> (forall x, ll_frame (k x)) -> ll_frame (bind c k).
Proof. intros Hc Hk m s. unfold bind. rewrite (Hc m s). destruct (c s) as [[x s']|]; [apply Hk|done]. Qed.

Lemma frame_deref {X} (p : option X) : ll_frame (S := agps K A) (deref p).
Proof. by destruct p. Qed.

Lemma frame_get_sub p : ll_frame (get_sub (K := K) (A := A) p).
Proof. intros m s. unfold get_sub, bind, get, deref. simpl. by destruct (objects s !! p). Qed.

Lemma frame_call_out c : ll_frame (call_out (K := K) (A := A) c).
Proof. done. Qed.

Lemma frame_upd f : ll_frame (upd (K := K) (A := A) f).
Proof. done. Qed.

Lemma frame_upd_objects f : ll_frame (modify (upd_objects (K := K) (A := A) f)).
Proof. done. Qed.

Lemma frame_get_machine : ll_frame (get_machine (K := K) (A := A)).
Proof. done. Qed.

Lemma frame_ub {X} : ll_frame (S := agps K A) (ub (A := X)).
Proof. done. Qed.
End frame.

Create HintDb agps_frame.
#[export] Hint Resolve frame_ret frame_deref frame_get_sub frame_call_out frame_upd frame_upd_objects frame_get_machine frame_ub : agps_frame.

(** A frame goal along the structure of the method. *)
Ltac solve_frame :=
  repeat (first
    [ solve [auto with agps_frame]
    | match goal with
      | |- ll_frame (bind _ _) => apply frame_bind; [|intros ?]
      | |- ll_frame (match ?x with _ => _ end) => destruct x
      end ]).

Section callbacks.
Context {K A : Type} {E : AgpsEnv K} {G : AgpsMem A} (cf : AgpsConf).
Implicit Types (s : agps K A).

Lemma frame_forMe x n : ll_frame (forMe (K := K) (A := A) x n).
Proof. unfold forMe. solve_frame. Qed.

Lemma frame_informStatus st h : ll_frame (informStatus (K := K) (A := A) st h).
Proof. unfold informStatus. solve_frame. Qed.

Lemma frame_notify_class x st : ll_frame (notify_class (K := K) (A := A) cf x st).
Proof.
  unfold notify_class, BIT_notify, ATL_notify, ATL_open_status, WIFI_notify, DS_notify, ds_informStatus.
  solve_frame; apply frame_informStatus.
Qed.

Lemma frame_hasSubscriber n d : ll_frame (hasSubscriber (K := K) (A := A) n d).
Proof. unfold hasSubscriber. solve_frame. apply frame_forMe. Qed.

Lemma frame_notifySubscriber n d : ll_frame (notifySubscriber (K := K) (A := A) cf n d).
Proof. unfold notifySubscriber, notifyRsrcStatus. solve_frame; [apply frame_forMe|apply frame_notify_class]. Qed.

Lemma frame_deleteObj f d : ll_frame (deleteObj (K := K) (A := A) f d).
Proof. unfold deleteObj, delete_sub. solve_frame. Qed.
End callbacks.

(** ** Subscribers the machine can compare and notify *)

(** An identifier has 32 bits, one of all ones is that of a [BITSubscriber], and
    only the emergency machine has [DSSubscriber]s. *)
Definition sub_ok (cf : AgpsConf) (x : Subscriber) : bool :=
  (trunc 32 (ID x) =? ID x) &&
  match class x with
  | BITSubscriber _ => true
  | DSSubscriber => is_ds cf && negb (INADDR_NONE =? ID x)
  | _ => negb (INADDR_NONE =? ID x)
  end.

(** The emergency machine has a servicer that takes its data. *)
Definition conf_ok (cf : AgpsConf) : bool :=
  negb (is_ds cf) || match mServicer cf with servicerTypeAgps => false | _ => true end.

Definition known_sub (st : AgpsRsrcStatus) : bool :=
  match st with RSRC_UNSUBSCRIBE | RSRC_GRANTED | RSRC_RELEASED | RSRC_DENIED => true | _ => false end.

Section runs.
Context {K A : Type} {E : AgpsEnv K} {G : AgpsMem A} (cf : AgpsConf).
Implicit Types (s : agps K A) (ps : list loc) (xs : list Subscriber).

Lemma equals_same x r : sub_ok cf r = true -> equals x r = Some (same x r).
Proof.
  intros Hr. unfold equals, same. destruct (class x) as [a| | |]; try by rewrite andb_true_r.
  destruct (Z.eqb_spec (ID x) (ID r)) as [Heq|]; [|done]. destruct (Z.eqb_spec INADDR_NONE (ID x)) as [Hn|]; [|done].
  apply andb_true_iff in Hr as [_ Hr]. destruct (class r); [done|..]; rewrite <- Heq, <- Hn, Z.eqb_refl in Hr; [done|done|].
  by rewrite andb_false_r in Hr.
Qed.

Lemma strncmp_eq_refl a n : strncmp_eq a a n = true.
Proof. revert a. induction n as [|n IH]; intros a; simpl; [done|]. by rewrite Z.eqb_refl, IH, orb_true_r. Qed.

Lemma same_refl x : same x x = true.
Proof. unfold same. rewrite Z.eqb_refl. destruct (class x); [|done..]. by rewrite strncmp_eq_refl, orb_true_r. Qed.

(** The notification [n] is for [t]. *)
Definition notifies (n : Notification) (t : target) (s : agps K A) : Prop :=
  match t with
  | ToAll => rcver n = None /\ groupID n = BROADCAST_ALL
  | ToActive => rcver n = None /\ groupID n = BROADCAST_ACTIVE
  | ToInactive => rcver n = None /\ groupID n = BROADCAST_INACTIVE
  | ToOne r => sub_ok cf r = true /\ exists p, rcver n = Some p /\ objects s !! p = Some r
  end.

Lemma forMe_run x n t s : notifies n t s -> forMe x n s = Some (for_me t x, s).
Proof.
  unfold forMe. destruct t as [| | |r]; simpl; [intros [-> ->]..|].
  1-3: unfold ret; do 2 f_equal; by destruct (isInactive x).
  intros (Hr & p & -> & Hp). unfold get_sub, bind, get, deref. rewrite Hp. unfold ret. by rewrite equals_same.
Qed.

Lemma get_sub_run p x s : objects s !! p = Some x -> get_sub p s = Some (x, s).
Proof. unfold get_sub, bind, get, deref. by intros ->. Qed.

Lemma notify_class_run x st s :
  sub_ok cf x = true -> known_sub st = true -> notify_class cf x st s = Some (true, upd_core (tell cf st x) s).
Proof.
  intros [_ Hx]%andb_true_iff Hst. destruct s as [[m cs w] l o h]. unfold notify_class in *.
  destruct (class x) as [a|b|ss pw|] eqn:Hc; destruct st; try done;
    unfold BIT_notify, ATL_notify, ATL_open_status, WIFI_notify, DS_notify, ds_informStatus, informStatus, bind, ret, get_machine, bind, get, ret,
      call_out, upd, modify, upd_core, tell, told, retries_told; rewrite Hc; simpl;
    first [reflexivity|by rewrite app_nil_r|apply andb_true_iff in Hx as [-> _]; reflexivity].
Qed.

Lemma notifyRsrcStatus_run x n t s :
  notifies n t s -> sub_ok cf x = true -> known_sub (rsrcStatus n) = true ->
  notifyRsrcStatus cf x n s = Some (for_me t x, if for_me t x then upd_core (tell cf (rsrcStatus n) x) s else s).
Proof.
  intros Hn Hx Hst. unfold notifyRsrcStatus. rewrite (run_bind _ _ _ _ _ (forMe_run x n t s Hn)).
  destruct (for_me t x); [by apply notify_class_run|done].
Qed.

(** *** Searching *)

Lemma find_m_pure (equal : option loc -> M (agps K A) bool) (b : option loc -> bool) ds s :
  Forall (fun d => equal d s = Some (b d, s)) ds -> find_m equal ds s = Some (find_index b ds, s).
Proof.
  induction 1 as [|d ds Hd _ IH]; simpl; [done|]. rewrite (run_bind _ _ _ _ _ Hd). destruct (b d); [done|].
  by rewrite (run_bind _ _ _ _ _ IH).
Qed.

Lemma find_index_rel (b : option loc -> bool) (f : Subscriber -> bool) ps xs :
  Forall2 (fun p x => b (Some p) = f x) ps xs -> find_index b (Some <$> ps) = find_index f xs.
Proof. induction 1 as [|p x ps xs Hb _ IH]; csimpl; [done|]. by rewrite Hb, IH. Qed.

Lemma hasSubscriber_run n t p x s : notifies n t s -> objects s !! p = Some x -> hasSubscriber n (Some p) s = Some (for_me t x, s).
Proof. intros Hn Hp. unfold hasSubscriber. cbn [deref]. rewrite (run_bind _ _ _ p s) by done. rewrite (run_bind _ _ _ _ _ (get_sub_run p x s Hp)). by apply forMe_run. Qed.

Lemma notifySubscriber_run n t p x s :
  notifies n t s -> objects s !! p = Some x -> sub_ok cf x = true -> known_sub (rsrcStatus n) = true ->
  notifySubscriber cf n (Some p) s =
    Some (for_me t x && postNotifyDelete n, if for_me t x then upd_core (tell cf (rsrcStatus n) x) s else s).
Proof.
  intros Hn Hp Hx Hst. unfold notifySubscriber. cbn [deref]. rewrite (run_bind _ _ _ p s) by done.
  rewrite (run_bind _ _ _ _ _ (get_sub_run p x s Hp)). by rewrite (run_bind _ _ _ _ _ (notifyRsrcStatus_run x n t s Hn Hx Hst)).
Qed.

(** A search for a subscriber. *)
Lemma search_has n t s ps xs extra :
  agps_rep s ps xs extra -> notifies n t s ->
  search_sub (hasSubscriber n) false s = Some (find_index (for_me t) xs ≫= (ps !!.), s).
Proof.
  intros R Hn. destruct (ar_list _ _ _ _ R) as (ls & Hls & Hps).
  destruct (linked_list_search_spec (S := agps K A) deleteObj (hasSubscriber n) false (Some None) (list_mem s) ls s) as (code & Hc);
    [intros d; apply frame_hasSubscriber|done|by right|done|].
  rewrite (rep_data _ _ Hps) in Hc.
  set (b := fun d : option loc => match d ≫= (objects s !!.) with Some x => for_me t x | None => false end).
  rewrite (find_m_pure _ b) in Hc.
  - assert (ll_put (list_mem s) s = s) as Hs by (by destruct s). rewrite Hs in Hc.
    rewrite (find_index_rel b (for_me t) ps xs) in Hc by (eapply Forall2_impl; [apply R|]; intros p x Hx; unfold b; simpl; by rewrite Hx).
    unfold search_sub, bind. unfold searched in Hc. destruct (find_index (for_me t) xs) as [i|] eqn:Ei; cbn [mbind option_bind snd].
    + destruct Hc as ([l [d f]] & m' & Hi & _ & Hm & Hr). rewrite (Hm eq_refl), Hs in Hr.
      rewrite Hr. unfold ret. do 2 f_equal.
      assert (ls.*2 !! i = Some (d, f)) as Hi2 by (rewrite list_lookup_fmap, Hi; done). rewrite Hps, list_lookup_fmap in Hi2.
      destruct (ps !! i) as [p|]; simplify_eq/=. by injection Hi2 as <- _.
    + by rewrite Hs in Hc; rewrite Hc.
  - apply Forall_fmap, Forall_forall. intros p Hp. apply list_elem_of_lookup in Hp as [i Hp].
    destruct (rep_lookup _ _ _ _ _ _ R Hp) as (x & _ & Hx). simpl. rewrite (hasSubscriber_run n t p x s Hn Hx). unfold b. simpl. by rewrite Hx.
Qed.

Lemma notifies_core n t s f : notifies n t s -> notifies n t (upd_core f s).
Proof. by destruct t. Qed.

Lemma upd_core_comp f g s : upd_core g (upd_core f s) = upd_core (fun c => g (f c)) s.
Proof. by destruct s. Qed.

Lemma find_m_tell n t ps xs s :
  notifies n t s -> Forall2 (fun p x => objects s !! p = Some x) ps xs -> forallb (sub_ok cf) xs = true ->
  known_sub (rsrcStatus n) = true -> postNotifyDelete n = false ->
  find_m (notifySubscriber cf n) (Some <$> ps) s = Some (None, upd_core (tell_all cf (rsrcStatus n) (filter (fun x => for_me t x) xs)) s).
Proof.
  intros Hn Hps Hok Hst Hdel. revert s Hn Hps. induction ps as [|p ps IH] in xs, Hok |- *; intros s Hn Hps; inversion Hps as [|? x ? xs' Hp Hps']; subst.
  - unfold upd_core. simpl. by destruct s.
  - apply andb_true_iff in Hok as [Hx Hok]. csimpl. rewrite (run_bind _ _ _ _ _ (notifySubscriber_run n t p x s Hn Hp Hx Hst)).
    rewrite Hdel, andb_false_r. set (s1 := if for_me t x then _ else _).
    assert (notifies n t s1 /\ objects s1 = objects s) as [Hn1 Hs1] by (unfold s1; destruct (for_me t x); [split; [by apply notifies_core|]|]; done).
    rewrite (run_bind _ _ _ _ _ (IH xs' Hok s1 Hn1 ltac:(by rewrite Hs1))).
    unfold ret. simpl. unfold s1. destruct (for_me t x) eqn:Hf; [rewrite filter_cons_True by (by rewrite Hf)|rewrite filter_cons_False by (rewrite Hf; by intros [])]; [|done].
    by rewrite upd_core_comp.
Qed.

(** A notification that keeps everybody. *)
Lemma notify_keep n t s ps xs extra :
  agps_rep s ps xs extra -> notifies n t s -> forallb (sub_ok cf) xs = true -> known_sub (rsrcStatus n) = true -> postNotifyDelete n = false ->
  notifySubscribers cf n s = Some (tt, upd_core (tell_all cf (rsrcStatus n) (filter (fun x => for_me t x) xs)) s).
Proof.
  intros R Hn Hok Hst Hdel. destruct (ar_list _ _ _ _ R) as (ls & Hls & Hps). unfold notifySubscribers. rewrite Hdel.
  destruct (linked_list_search_spec (S := agps K A) deleteObj (notifySubscriber cf n) false None (list_mem s) ls s) as (code & Hc);
    [intros d; apply frame_notifySubscriber|done|by left|done|].
  rewrite (rep_data _ _ Hps), (find_m_tell n t ps xs) in Hc by (done || apply R). cbn [searched] in Hc.
  assert (ll_put (list_mem s) s = s) as Hs by (by destruct s). unfold bind. rewrite Hs in Hc at 1. by rewrite Hc.
Qed.
End runs.

(** ** Removing and adding subscribers *)

Section changes.
Context {K A : Type} {E : AgpsEnv K} {G : AgpsMem A} (cf : AgpsConf).
Implicit Types (s : agps K A) (ps : list loc) (xs : list Subscriber).

Lemma rep_length s ps xs extra : agps_rep s ps xs extra -> length ps = length xs.
Proof. intros R. by apply (Forall2_length _ _ _ (ar_subs _ _ _ _ R)). Qed.

Lemma rep_size s ps xs extra : agps_rep s ps xs extra -> size (ll_elems (list_mem s)) = length xs.
Proof.
  intros R. destruct (ar_list _ _ _ _ R) as (ls & Hls & Hps).
  by rewrite (list_rep_size _ _ Hls), <- (length_fmap snd), Hps, length_fmap, (rep_length _ _ _ _ R).
Qed.

Lemma notifySubscribers_loop n s ps xs extra :
  agps_rep s ps xs extra -> postNotifyDelete n = true -> notifySubscribers cf n s = notify_loop cf (Datatypes.S (length xs)) n s.
Proof. intros R Hn. unfold notifySubscribers. rewrite Hn. unfold bind at 1, get. by rewrite (rep_size _ _ _ _ R). Qed.

Lemma rep_delete s ps xs extra ls m' i p x :
  agps_rep s ps xs extra -> ps !! i = Some p -> xs !! i = Some x ->
  ls.*2 = payload_of <$> ps -> list_rep m' (delete i ls) ->
  agps_rep (ll_put m' s) (delete i ps) (delete i xs) ((p, x) :: extra).
Proof.
  intros [_ Ho He Hnd Hd] Hp Hx Hps Hm. pose proof (delete_Permutation ps i p Hp) as Hperm.
  assert (ps ++ extra.*1 ≡ₚ delete i ps ++ p :: extra.*1) as Hperm'.
  { rewrite Hperm at 1. simpl. by rewrite Permutation_middle. }
  constructor; simpl.
  - exists (delete i ls). split; [done|]. by rewrite list_fmap_delete, Hps, <- list_fmap_delete.
  - by apply Forall2_delete.
  - constructor; [|done]. simpl. by rewrite (Forall2_lookup_lr _ _ _ _ _ _ Ho Hp Hx).
  - by rewrite <- Hperm'.
  - rewrite Hd. by apply list_to_set_perm_L.
Qed.

Lemma rep_free s ps xs extra p x :
  agps_rep s ps xs ((p, x) :: extra) -> agps_rep (upd_objects (delete p) s) ps xs extra.
Proof.
  intros [Hl Ho He Hnd Hd]. simpl in *. inversion He as [|? ? Hp He']; subst. simpl in *.
  rewrite <- Permutation_middle in Hnd. apply NoDup_cons in Hnd as [Hni Hnd]. constructor; simpl.
  - done.
  - eapply Forall2_elem_impl; [exact Ho|]. intros q y Hq Hy. simpl. rewrite lookup_delete_ne; [done|]. intros ->. apply Hni. apply elem_of_app. by left.
  - apply Forall_forall. intros [q y] Hq. simpl. rewrite Forall_forall in He'. rewrite lookup_delete_ne; [by apply (He' (q, y))|].
    intros ->. apply Hni. apply elem_of_app. right. by apply (list_elem_of_fmap_2 fst extra (q, y)).
  - done.
  - rewrite dom_delete_L, Hd, !list_to_set_app_L. simpl. rewrite list_to_set_app_L in *. rewrite elem_of_app in Hni. set_solver.
Qed.

Lemma rep_new s ps xs extra p x :
  agps_rep s ps xs extra -> objects s !! p = None -> agps_rep (upd_objects (insert p x) s) ps xs ((p, x) :: extra).
Proof.
  intros [Hl Ho He Hnd Hd] Hp. assert (p ∉ ps ++ extra.*1) as Hni.
  { intros Hi. apply not_elem_of_dom in Hp. apply Hp. rewrite Hd. by apply elem_of_list_to_set. }
  constructor; simpl.
  - done.
  - eapply Forall2_elem_impl; [exact Ho|]. intros q y Hq Hy. simpl. rewrite lookup_insert_ne; [done|]. intros ->. apply Hni, elem_of_app. by left.
  - constructor; simpl; [by rewrite lookup_insert_eq|]. apply Forall_forall. intros [q y] Hq. simpl. rewrite Forall_forall in He.
    rewrite lookup_insert_ne; [by apply (He (q, y))|]. intros ->. apply Hni, elem_of_app. right. by apply (list_elem_of_fmap_2 fst extra (q, y)).
  - rewrite <- Permutation_middle. by apply NoDup_cons.
  - rewrite dom_insert_L, Hd, !list_to_set_app_L. simpl. set_solver.
Qed.

Lemma delete_sub_run s p x : objects s !! p = Some x -> delete_sub (Some p) s = Some (tt, upd_objects (delete p) s).
Proof. intros Hp. unfold delete_sub. by rewrite (run_bind _ _ _ _ _ (get_sub_run p x s Hp)). Qed.

(** One round of a notification that deletes. *)
Lemma find_m_del n t ps xs s :
  notifies cf n t s -> Forall2 (fun p x => objects s !! p = Some x) ps xs -> forallb (sub_ok cf) xs = true ->
  known_sub (rsrcStatus n) = true -> postNotifyDelete n = true ->
  find_m (notifySubscriber cf n) (Some <$> ps) s =
    match find_index (for_me t) xs with
    | None => Some (None, s)
    | Some i => Some (Some i, match xs !! i with Some x => upd_core (tell cf (rsrcStatus n) x) s | None => s end)
    end.
Proof.
  intros Hn Hps Hok Hst Hdel. induction Hps as [|p x ps xs Hp Hps IH]; [done|]. apply andb_true_iff in Hok as [Hx Hok]. csimpl.
  rewrite (run_bind _ _ _ _ _ (notifySubscriber_run cf n t p x s Hn Hp Hx Hst)), Hdel, andb_true_r.
  destruct (for_me t x); [done|]. specialize (IH Hok). by destruct (find_index (for_me t) xs) as [i|]; rewrite (run_bind _ _ _ _ _ IH).
Qed.

Lemma search_del n t s ps xs extra :
  agps_rep s ps xs extra -> notifies cf n t s -> forallb (sub_ok cf) xs = true -> known_sub (rsrcStatus n) = true -> postNotifyDelete n = true ->
  match find_index (for_me t) xs with
  | None => search_sub (notifySubscriber cf n) true s = Some (None, s)
  | Some i => exists p x s', ps !! i = Some p /\ xs !! i = Some x /\ search_sub (notifySubscriber cf n) true s = Some (Some p, s') /\
      agps_rep s' (delete i ps) (delete i xs) ((p, x) :: extra) /\ core s' = tell cf (rsrcStatus n) x (core s) /\
      objects s' = objects s /\ heap s' = heap s
  end.
Proof.
  intros R Hn Hok Hst Hdel. destruct (ar_list _ _ _ _ R) as (ls & Hls & Hps).
  destruct (linked_list_search_spec (S := agps K A) deleteObj (notifySubscriber cf n) true (Some None) (list_mem s) ls s) as (code & Hc);
    [intros d; apply frame_notifySubscriber|done|by right|done|].
  rewrite (rep_data _ _ Hps), (find_m_del n t ps xs) in Hc by (done || apply R).
  assert (ll_put (list_mem s) s = s) as Hs by (by destruct s). unfold search_sub, bind. destruct (find_index (for_me t) xs) as [i|] eqn:Ei.
  - destruct Hc as ([l [d f]] & m' & Hi & Hm' & _ & Hr). rewrite Hs in Hr.
    assert (ls.*2 !! i = Some (d, f)) as Hi2 by (by rewrite list_lookup_fmap, Hi). rewrite Hps, list_lookup_fmap in Hi2.
    destruct (ps !! i) as [p|] eqn:Hp; [|done]. injection Hi2 as <- <-. destruct (rep_lookup _ _ _ _ _ _ R Hp) as (x & Hx & Ho).
    rewrite Hx in Hr. rewrite Hr.
    exists p, x. eexists. split_and!; [done|done|done|..]; [|done..].
    apply (rep_delete (upd_core (tell cf (rsrcStatus n) x) s) ps xs extra ls); [by apply rep_core|done..].
  - cbn [searched] in Hc. rewrite Hs in Hc. by rewrite Hc.
Qed.

Lemma filter_none (f : Subscriber -> bool) xs : Forall (fun x => f x = false) xs -> filter (fun x => f x) xs = [] /\ filter (fun x => ~ f x) xs = xs.
Proof.
  induction 1 as [|x xs Hx _ [IH1 IH2]]; [done|].
  rewrite filter_cons_False by (rewrite Hx; by intros []). rewrite filter_cons_True by (rewrite Hx; by intros []). by rewrite IH1, IH2.
Qed.

Lemma tell_all_cons st x xs (c : agps_core K) : tell_all cf st (x :: xs) c = tell_all cf st xs (tell cf st x c).
Proof. done. Qed.

Lemma notify_loop_group n t fuel s ps xs extra :
  (rcver n = None) -> agps_rep s ps xs extra -> notifies cf n t s -> forallb (sub_ok cf) xs = true -> known_sub (rsrcStatus n) = true ->
  postNotifyDelete n = true -> (length xs < fuel)%nat ->
  exists s' ps', notify_loop cf fuel n s = Some (tt, s') /\ agps_rep s' ps' (filter (fun x => ~ for_me t x) xs) extra /\
    core s' = tell_all cf (rsrcStatus n) (filter (fun x => for_me t x) xs) (core s) /\ heap s' = heap s.
Proof.
  intros Hr R Hn Hok Hst Hdel. revert s ps xs R Hn Hok. induction fuel as [|fuel IH]; intros s ps xs R Hn Hok Hf; [lia|].
  pose proof (search_del n t s ps xs extra R Hn Hok Hst Hdel) as Hs. cbn [notify_loop]. destruct (find_index (for_me t) xs) as [i|] eqn:Ei.
  - destruct Hs as (p & x & s' & Hp & Hx & Hs & R' & Hc & Ho & Hh). rewrite (run_bind _ _ _ _ _ Hs).
    assert (objects s' !! p = Some x) as Hpx by (pose proof (ar_extra _ _ _ _ R') as He; by inversion He).
    rewrite (run_bind _ _ _ _ _ (delete_sub_run s' p x Hpx)). apply rep_free in R'.
    destruct (find_index_split _ _ _ Ei) as (pre & x' & post & -> & <- & Hfx & Hpre). rewrite list_lookup_middle in Hx by done. injection Hx as ->.
    rewrite delete_middle in R'. rewrite forallb_app in Hok. apply andb_true_iff in Hok as [Hok1 [Hokx Hok2]%andb_true_iff].
    destruct (IH _ _ _ R') as (s2 & ps2 & Hl & R2 & Hc2 & Hh2).
    + destruct t; try done. by destruct Hn as (_ & q & Hq & _); congruence.
    + rewrite forallb_app. by apply andb_true_iff.
    + rewrite length_app in Hf |- *. simpl in Hf. lia.
    + exists s2, ps2. split; [done|]. destruct (filter_none _ _ Hpre) as [Hf1 Hf2]. rewrite !filter_app, Hf1, Hf2, app_nil_l in *.
      rewrite filter_cons_False by (rewrite Hfx; by intros Hx'; apply Hx'). rewrite filter_cons_True by (by rewrite Hfx). by rewrite tell_all_cons, <- Hc, <- Hh.
  - rewrite (run_bind _ _ _ _ _ Hs). exists s, ps. apply find_index_None in Ei. destruct (filter_none _ _ Ei) as [Hf1 Hf2]. by rewrite Hf1, Hf2.
Qed.

(** A notification of a group that deletes its members. *)
Lemma notify_group n t s ps xs extra :
  rcver n = None -> agps_rep s ps xs extra -> notifies cf n t s -> forallb (sub_ok cf) xs = true -> known_sub (rsrcStatus n) = true ->
  postNotifyDelete n = true ->
  exists s' ps', notifySubscribers cf n s = Some (tt, s') /\ agps_rep s' ps' (filter (fun x => ~ for_me t x) xs) extra /\
    core s' = tell_all cf (rsrcStatus n) (filter (fun x => for_me t x) xs) (core s) /\ heap s' = heap s.
Proof.
  intros Hr R Hn Hok Hst Hdel. rewrite (notifySubscribers_loop n _ _ _ _ R Hdel). eapply notify_loop_group; [done|exact R|done..|lia].
Qed.
End changes.

(** ** The operations on a represented list *)

Section operations.
Context {K A : Type} {E : AgpsEnv K} {G : AgpsMem A} {GL : AgpsMemLaws A} (cf : AgpsConf).
Implicit Types (s : agps K A) (ps : list loc) (xs : list Subscriber).

Lemma strncmp_eq_trans a b c n : strncmp_eq a b n = true -> strncmp_eq b c n = true -> strncmp_eq a c n = true.
Proof.
  revert a b c. induction n as [|n IH]; intros a b c; [done|]. cbn [strncmp_eq].
  intros [Hab%Z.eqb_eq Ht]%andb_true_iff [Hbc%Z.eqb_eq Ht']%andb_true_iff. rewrite Hab, Hbc, Z.eqb_refl in *. simpl.
  destruct (hd 0 c =? 0); simpl in *; [done|by eapply IH].
Qed.

Lemma same_trans x y z : same x y = true -> same y z = true -> same x z = true.
Proof.
  unfold same. intros [Hxy%Z.eqb_eq H1]%andb_true_iff [Hyz%Z.eqb_eq H2]%andb_true_iff. rewrite Hxy, Hyz, Z.eqb_refl in *. cbn [andb].
  destruct (class x) as [a| | |]; [|done..]. destruct (INADDR_NONE =? ID z); [|done]. cbn [negb orb] in *.
  destruct (class y) as [b| | |]; [|done..]. destruct (class z) as [c| | |]; [|done..]. by eapply strncmp_eq_trans.
Qed.

(** The first member like [r] is the first one like itself. *)
Lemma find_same_self xs r i x : find_index (fun y => same y r) xs = Some i -> xs !! i = Some x -> find_index (fun y => same y x) xs = Some i.
Proof.
  intros (y & Hy & Hs & Hlt)%find_index_Some Hx. assert (y = x) as -> by congruence. apply (find_index_intro _ _ _ x); [done|apply same_refl|].
  intros j z Hj Hz. specialize (Hlt j z Hj Hz). simpl in Hlt. destruct (same z x) eqn:Hzx; [|done]. by rewrite (same_trans z x r) in Hlt.
Qed.

(** One member is told and deleted: the search goes on with the pointer to it. *)
Lemma notify_one_delete s ps xs extra r i p x st :
  agps_rep s ps xs extra -> find_index (fun y => same y r) xs = Some i -> xs !! i = Some x -> ps !! i = Some p ->
  forallb (sub_ok cf) xs = true -> known_sub st = true ->
  if decide (length xs = 1%nat) then
    exists s', notifySubscribers cf (notify_one p st true) s = Some (tt, s') /\ agps_rep s' [] [] extra /\ core s' = tell cf st x (core s) /\ heap s' = heap s
  else notifySubscribers cf (notify_one p st true) s = None.
Proof.
  intros R Hi Hx Hp Hok Hst. apply (find_same_self _ _ _ _ Hi) in Hx as Hi'.
  pose proof (rep_object _ _ _ _ _ _ _ R Hp Hx) as Hpx.
  assert (sub_ok cf x = true) as Hxok by (rewrite forallb_forall in Hok; apply Hok; apply list_elem_of_In; by eapply list_elem_of_lookup_2).
  pose proof (search_del cf (notify_one p st true) (ToOne x) s ps xs extra R (conj Hxok (ex_intro _ p (conj eq_refl Hpx))) Hok Hst eq_refl) as Hs.
  change (for_me (ToOne x)) with (fun y => same y x) in Hs. rewrite Hi' in Hs. destruct Hs as (p' & x' & s' & Hp' & Hx' & Hs & R' & Hc & Ho & Hh).
  simplify_eq.
  rewrite (notifySubscribers_loop cf (notify_one p st true) _ _ _ _ R eq_refl). cbn [notify_loop]. rewrite (run_bind _ _ _ _ _ Hs), (run_bind _ _ _ _ _ (delete_sub_run s' p x (eq_trans (f_equal (lookup p) Ho) Hpx))).
  apply rep_free in R'. set (s2 := upd_objects (delete p) s') in *. destruct (ar_list _ _ _ _ R') as (ls & Hls & Hls2).
  assert (ll_put (list_mem s2) s2 = s2) as Hs2 by (by destruct s2). pose proof (rep_length _ _ _ _ R') as Hlen.
  destruct (linked_list_search_spec (S := agps K A) deleteObj (notifySubscriber cf (notify_one p st true)) true (Some None) (list_mem s2) ls s2)
    as (code & Hcode); [intros d; apply frame_notifySubscriber|done|by right|done|]. rewrite (rep_data _ _ Hls2), Hs2 in Hcode.
  pose proof (lookup_lt_Some _ _ _ Hx) as Hlt. pose proof (length_delete xs i (mk_is_Some _ _ Hx)) as Hdl. case_decide as Hone.
  - destruct (delete i xs) as [|y ys]; [|simpl in *; lia]. destruct (delete i ps) as [|q qs]; [|done]. cbn [fmap list_fmap find_m ret searched] in Hcode. rewrite Hs2 in Hcode. exists s2.
    rewrite Hone. cbn [notify_loop]. unfold search_sub, bind.
    rewrite Hcode. split_and!; [done|exact R'|exact Hc|exact Hh].
  - destruct (delete i xs) as [|y ys] eqn:Hd; [simpl in *; lia|]. destruct (delete i ps) as [|q qs]; [done|].
    assert (objects s2 !! q = Some y) as Hq by (pose proof (ar_subs _ _ _ _ R') as Hf; by inversion Hf).
    assert (notifySubscriber cf (notify_one p st true) (Some q) s2 = None) as Hub.
    { unfold notifySubscriber. cbn [deref]. rewrite (run_bind _ _ _ q s2) by done. rewrite (run_bind _ _ _ _ _ (get_sub_run q y s2 Hq)).
      apply run_bind_ub. unfold notifyRsrcStatus. apply run_bind_ub. unfold forMe. cbn [rcver notify_one]. apply run_bind_ub.
      unfold get_sub, bind, get, deref, s2. simpl. by rewrite lookup_delete_eq. }
    csimpl in Hcode. rewrite (run_bind_ub _ _ _ Hub) in Hcode. cbn [searched] in Hcode.
    destruct (length xs) as [|k]; [lia|]. cbn [notify_loop]. apply (run_bind_ub (search_sub _ true)). unfold search_sub, bind. by rewrite Hcode.
Qed.

Lemma hasSubscribers_run s ps xs extra : agps_rep s ps xs extra -> hasSubscribers s = Some (negb (bool_decide (xs = [])), s).
Proof.
  intros R. destruct (ar_list _ _ _ _ R) as (ls & Hls & Hps). unfold hasSubscribers.
  pose proof (linked_list_empty_run (S := agps K A) _ _ s Hls) as He. assert (ll_put (list_mem s) s = s) as Hs by (by destruct s).
  rewrite Hs in He. rewrite (run_bind _ _ _ _ _ He). assert (ls = [] <-> xs = []) as Hiff.
  { rewrite <- !length_zero_iff_nil, <- (rep_length _ _ _ _ R), <- (length_fmap snd ls), Hps, length_fmap. done. }
  unfold ret. case_decide; [rewrite bool_decide_eq_true_2 by naive_solver|rewrite bool_decide_eq_false_2 by naive_solver]; done.
Qed.

Lemma first_active_run s ps xs extra : agps_rep s ps xs extra -> first_active s = Some (find_index is_active xs ≫= (ps !!.), s).
Proof. intros R. unfold first_active. by rewrite (search_has cf _ ToActive s ps xs extra R). Qed.

Lemma first_active_cases s ps xs extra :
  agps_rep s ps xs extra ->
  (first_of xs = None /\ first_active s = Some (None, s)) \/
  (exists p x, first_of xs = Some x /\ first_active s = Some (Some p, s) /\ objects s !! p = Some x).
Proof.
  intros R. rewrite (first_active_run _ _ _ _ R). unfold first_of. destruct (find_index is_active xs) as [i|] eqn:Ei; [|by left].
  right. destruct (find_index_Some _ _ _ Ei) as (x & Hx & _). destruct (rep_lookup_x _ _ _ _ _ _ R Hx) as (p & Hp & Ho).
  exists p, x. simpl. by rewrite Hx, Hp.
Qed.

Lemma hasActiveSubscribers_run s ps xs extra :
  agps_rep s ps xs extra -> hasActiveSubscribers s = Some (match first_of xs with Some _ => true | None => false end, s).
Proof.
  intros R. unfold hasActiveSubscribers. destruct (first_active_cases _ _ _ _ R) as [[-> Hf]|(p & x & -> & Hf & _)]; by rewrite (run_bind _ _ _ _ _ Hf).
Qed.

Lemma retryCallback_run s ps xs extra : agps_rep s ps xs extra -> retryCallback s = Some (tt, upd_core (fun c => a_retry c xs) s).
Proof.
  intros R. unfold retryCallback, a_retry. destruct (first_active_cases _ _ _ _ R) as [[-> Hf]|(p & x & -> & Hf & Hp)]; rewrite (run_bind _ _ _ _ _ Hf).
  - by destruct s.
  - by rewrite (run_bind _ _ _ _ _ (get_sub_run p x s Hp)).
Qed.

(** A change of one member that its place survives. *)
Lemma rep_alter s ps xs extra i p x f :
  agps_rep s ps xs extra -> ps !! i = Some p -> xs !! i = Some x ->
  agps_rep (upd_objects (insert p (f x)) s) ps (alter f i xs) extra.
Proof.
  intros [Hl Ho He Hnd Hd] Hp Hx. constructor; simpl; [done| | |done|].
  - apply Forall2_lookup. intros j. rewrite list_lookup_alter. rewrite Forall2_lookup in Ho. specialize (Ho j). case_decide as Hij.
    + subst j. rewrite Hp, Hx in *. simpl. constructor. by rewrite lookup_insert_eq.
    + inversion Ho as [q y Hq Heq1 Heq2|]; [|by constructor]. constructor. rewrite lookup_insert_ne; [done|].
      intros ->. apply Hij. apply NoDup_app in Hnd as [Hnd _]. by eapply NoDup_lookup.
  - rewrite Forall_forall in He |- *. intros [q y] Hq. rewrite lookup_insert_ne; [by apply He|]. simpl. intros ->.
    apply NoDup_app in Hnd as (_ & Hnd & _). apply (Hnd q); [by eapply list_elem_of_lookup_2|]. by apply (list_elem_of_fmap_2 fst extra (q, y)).
  - rewrite dom_insert_L, Hd. assert (p ∈ (list_to_set (ps ++ extra.*1) : gset loc)); [|set_solver].
    apply elem_of_list_to_set, elem_of_app. left. by eapply list_elem_of_lookup_2.
Qed.

Lemma setInactive_run s ps xs extra i p x :
  agps_rep s ps xs extra -> ps !! i = Some p -> xs !! i = Some x -> sub_ok cf x = true -> waitForCloseComplete x = true ->
  exists s', setInactive cf p s = Some (tt, s') /\ agps_rep s' ps (alter deactivate i xs) extra /\
    core s' = (match class x with DSSubscriber => tell cf RSRC_UNSUBSCRIBE x (core s) | _ => core s end) /\ heap s' = heap s.
Proof.
  intros R Hp Hx Hok Hw. unfold setInactive. rewrite (run_bind _ _ _ _ _ (get_sub_run p x s (rep_object _ _ _ _ _ _ _ R Hp Hx))).
  pose proof (rep_alter _ _ _ _ _ _ _ deactivate R Hp Hx) as R'. apply andb_true_iff in Hok as [_ Hok]. unfold waitForCloseComplete in *.
  destruct (class x) as [| | |] eqn:Hc; [done|done| |].
  - eexists. split; [reflexivity|]. split_and!; [|done|done]. unfold deactivate in R'. by rewrite Hc in R'.
  - apply andb_true_iff in Hok as [Hds _]. unfold deactivate in R'. rewrite Hc in R'. eexists.
    split; [unfold bind, modify, ds_informStatus; rewrite Hds; reflexivity|]. split_and!; [by apply rep_core| |done].
    unfold tell, told, retries_told. by rewrite Hc.
Qed.

(** A member leaves. *)
Lemma leave_run s ps xs extra r i p x :
  agps_rep s ps xs extra -> find_index (fun y => same y r) xs = Some i -> xs !! i = Some x -> ps !! i = Some p ->
  forallb (sub_ok cf) xs = true ->
  if negb (waitForCloseComplete x) && (1 <? length xs)%nat then leave cf p RSRC_UNSUBSCRIBE s = None
  else exists s' ps', leave cf p RSRC_UNSUBSCRIBE s = Some (tt, s') /\ agps_rep s' ps' (a_leave cf i x (core s) xs).2 extra /\
    core s' = (a_leave cf i x (core s) xs).1 /\ heap s' = heap s.
Proof.
  intros R Hi Hx Hp Hok. assert (sub_ok cf x = true) as Hxok by (rewrite forallb_forall in Hok; apply Hok; apply list_elem_of_In; by eapply list_elem_of_lookup_2).
  unfold leave, a_leave. rewrite (run_bind _ _ _ _ _ (get_sub_run p x s (rep_object _ _ _ _ _ _ _ R Hp Hx))).
  destruct (waitForCloseComplete x) eqn:Hw; cbn [negb andb].
  - destruct (setInactive_run s ps xs extra i p x R Hp Hx Hxok Hw) as (s' & ? & ? & ? & ?). by exists s', ps.
  - pose proof (notify_one_delete s ps xs extra r i p x RSRC_UNSUBSCRIBE R Hi Hx Hp Hok eq_refl) as Hn. pose proof (lookup_lt_Some _ _ _ Hx).
    case_decide as Hone.
    + rewrite Hone. cbn [Nat.ltb Nat.leb]. destruct Hn as (s' & Hs & R' & Hc & Hh). exists s', []. split_and!; [done| |done|done]. simpl.
      pose proof (length_delete xs i (mk_is_Some _ _ Hx)). by destruct (delete i xs); [|simpl in *; lia].
    + destruct (Nat.ltb_spec 1 (length xs)); [done|lia].
Qed.

(** A new subscriber is cloned into the list. *)
Lemma addSubscriber_run s ps xs extra p x :
  agps_rep s ps xs extra -> (p, x) ∈ extra -> sub_ok cf x = true ->
  exists s' ps', addSubscriber p s = Some (tt, s') /\ agps_rep s' ps' (a_add x xs) extra /\ core s' = core s.
Proof.
  intros R Hpx Hok. assert (objects s !! p = Some x) as Hp by (pose proof (ar_extra _ _ _ _ R) as He; rewrite Forall_forall in He; by apply (He (p, x))).
  unfold addSubscriber, a_add.
  pose proof (search_has cf (notify_one p RSRC_STATUS_MAX false) (ToOne x) s ps xs extra R (conj Hok (ex_intro _ p (conj eq_refl Hp)))) as Hs.
  rewrite (run_bind _ _ _ _ _ Hs). change (for_me (ToOne x)) with (fun y => same y x). destruct (find_index (fun y => same y x) xs) as [i|] eqn:Ei.
  - destruct (find_index_Some _ _ _ Ei) as (y & Hy & _). destruct (rep_lookup_x _ _ _ _ _ _ R Hy) as (q & Hq & _). simpl. rewrite Hq. by exists s, ps.
  - cbn [mbind option_bind]. rewrite (run_bind _ _ _ _ _ (get_sub_run p x s Hp)).
    destruct (new_object (objects s) (heap s)) as [c a] eqn:Hnew. pose proof (new_object_ok (objects s) (heap s)) as Hc. rewrite Hnew in Hc. simpl in Hc.
    set (s1 := upd_objects (insert c (clone x)) (set_heap a s)).
    assert (alloc_sub (clone x) s = Some (c, s1)) as Ha by (unfold alloc_sub, bind, get, alloc; by rewrite Hnew).
    rewrite (run_bind _ _ _ _ _ Ha). unfold bind at 1, get.
    destruct (malloc_element_ok (ll_elems (list_mem s1)) (heap s1)) as (l & a' & Hm & Hl).
    set (s2 := set_heap a' s1).
    assert (alloc (malloc_element (ll_elems (list_mem s1))) s1 = Some (Some l, s2)) as Hm' by (unfold alloc; by rewrite Hm).
    rewrite (run_bind _ _ _ _ _ Hm').
    assert (agps_rep s2 ps xs ((c, clone x) :: extra)) as R2 by (by apply rep_heap, rep_new; [apply rep_heap|]).
    destruct (ar_list _ _ _ _ R2) as (ls & Hls & Hls2).
    destruct (wp_run (linked_list_add (Some l) (Some c) (Some deleteObj_fn)) (fun _ s' => exists m', list_rep m' ((l, payload_of c) :: ls) /\ s' = ll_put m' s2)
      (ll_put (list_mem s2) s2)) as (z & s3 & Hadd & m' & Hm2 & ->); [by eapply wp_linked_list_add; eauto|].
    assert (ll_put (list_mem s2) s2 = s2) as Hs2 by (by destruct s2). rewrite Hs2 in Hadd. rewrite (run_bind _ _ _ _ _ Hadd).
    exists (ll_put m' s2), (c :: ps). split_and!; [done| |done]. destruct R2 as [_ Ho He Hnd Hd]. constructor; simpl.
    + exists ((l, payload_of c) :: ls). split; [done|]. csimpl. by rewrite Hls2.
    + constructor; [simpl; by rewrite lookup_insert_eq|done].
    + by inversion He.
    + csimpl in Hnd. by rewrite <- Permutation_middle in Hnd.
    + etransitivity; [exact Hd|]. rewrite !list_to_set_app_L. csimpl. clear. set_solver.
Qed.
End operations.
