(* ===== verification/AgpsSim.v ===== *)
(** * The state machines implement the abstract machine

    Every call of a machine on a represented list does what the abstract machine
    does, in its core and in its list, and frees what it no longer needs.  The one
    exception is where the code uses a subscriber it has just deleted. *)
From S2P Require Import Prelude Heap StateM LinkedList Agps AgpsSpec AgpsRun.
From stdpp Require Import base list gmap.
From Stdlib Require Import ZArith Lia.

Open Scope Z_scope.
Open Scope method_scope.

Section requests.
Context {K A : Type} {E : AgpsEnv K} {G : AgpsMem A} (cf : AgpsConf).
Hypothesis Hcf : conf_ok cf = true.
Implicit Types (s : agps K A) (ps : list loc) (xs : list Subscriber).

Lemma requestRsrc_run data s :
  (is_ds cf = false -> exists r, data = NifRequest r) ->
  requestRsrc cf data s = Some ((a_servicer cf data (core s)).1, upd_core (fun c => (a_servicer cf data c).2) s).
Proof.
  intros Hd. unfold requestRsrc, a_servicer, conf_ok in *. destruct s as [c l o h]. destruct (mServicer cf); [done| |].
  - destruct data as [r|a]; [done|]. destruct (is_ds cf); [done|]. by destruct (Hd eq_refl).
  - unfold bind, call_out, modify, upd_core, ask. simpl. by destruct (callbackExt data (world c)).
Qed.

Lemma ds_handle_result_run r h s :
  ds_handle_result r h s = Some ((a_ds_result r h (core s)).1, upd_core (fun c => (a_ds_result r h c).2) s).
Proof.
  destruct s as [c l o a]. unfold ds_handle_result, a_ds_result.
  destruct (r =? LOC_API_ADAPTER_ERR_ENGINE_BUSY).
  - unfold bind, upd, modify, get_machine, bind, get, ret, upd_core. cbn [core]. destruct (MAX_START_DATA_CALL_RETRIES <? _); [done|].
    unfold call_out, modify, ask, upd_core. cbn [core]. by destruct (loc_timer_start _ _) as [[] k].
  - destruct (Z.eqb_spec r LOC_API_ADAPTER_ERR_UNSUPPORTED); [done|]. destruct (Z.eqb_spec r LOC_API_ADAPTER_ERR_SUCCESS) as [->|]; [done|].
    by destruct (r =? -1).
Qed.

Lemma sendRsrcRequest_run action s ps xs extra :
  agps_rep s ps xs extra ->
  sendRsrcRequest cf action s = Some ((a_request cf action xs (core s)).1, upd_core (fun c => (a_request cf action xs c).2) s).
Proof.
  intros R. unfold sendRsrcRequest, a_request. destruct (is_ds cf) eqn:Hds.
  - unfold ds_sendRsrcRequest. set (h := match first_of xs with Some x => to_handle (ID x) | None => -1 end).
    assert (exists f, first_active s = Some (f, s) /\
      (match f with Some p => let* x := get_sub p in ret (to_handle (ID x)) | None => ret (-1) end) s = Some (h, s)) as (f & Hf & Hh).
    { unfold h. destruct (first_active_cases cf _ _ _ _ R) as [[-> Hf]|(p & x & -> & Hf & Hp)]; eexists; (split; [exact Hf|]); [done|].
      cbv beta iota. by rewrite (run_bind _ _ _ _ _ (get_sub_run p x s Hp)). }
    rewrite (run_bind _ _ _ _ _ Hf), (run_bind _ _ _ _ _ Hh).
    rewrite (run_bind _ _ _ _ _ (requestRsrc_run (DsCbData action) s ltac:(congruence))), ds_handle_result_run.
    destruct s as [c l o a]. unfold upd_core. simpl. destruct (a_servicer cf (DsCbData action) c) as [r c']. done.
  - unfold agps_sendRsrcRequest. destruct (first_active_cases cf _ _ _ _ R) as [[-> Hf]|(p & x & -> & Hf & Hp)]; rewrite (run_bind _ _ _ _ _ Hf).
    + destruct action; [by destruct s|]. cbv beta iota. rewrite bool_decide_eq_true_2 by done. cbn [eqb].
      by rewrite (run_bind _ _ _ _ _ (requestRsrc_run (nif_request cf GPS_RELEASE_AGPS_DATA_CONN None) s ltac:(by eexists))).
    + destruct action; [|by destruct s]. cbv beta iota. rewrite bool_decide_eq_false_2 by done. cbn [eqb].
      rewrite (run_bind _ _ _ _ _ (get_sub_run p x s Hp)).
      by rewrite (run_bind _ _ _ _ _ (requestRsrc_run (nif_request cf GPS_REQUEST_AGPS_DATA_CONN (Some x)) s ltac:(by eexists))).
Qed.
End requests.

(** ** The handlers of the states *)

Section handlers.
Context {K A : Type} {E : AgpsEnv K} {G : AgpsMem A} {GL : AgpsMemLaws A} (cf : AgpsConf).
Hypothesis Hcf : conf_ok cf = true.
Implicit Types (s : agps K A) (ps : list loc) (xs : list Subscriber).

(** The run of a method ends in a represented state with core [c] and list [xs]. *)
Definition ends {X} (m : M (agps K A) X) s (x : X) (c : agps_core K) xs (extra : list (loc * Subscriber)) : Prop :=
  exists s' ps', m s = Some (x, s') /\ agps_rep s' ps' xs extra /\ core s' = c.

Lemma ends_bind {X Y} (m : M (agps K A) X) (k : X -> M (agps K A) Y) s x y c c' xs xs' extra extra' :
  ends m s x c xs extra ->
  (forall s' ps', agps_rep s' ps' xs extra -> core s' = c -> ends (k x) s' y c' xs' extra') ->
  ends (bind m k) s y c' xs' extra'.
Proof.
  intros (s1 & ps1 & Hm & R & Hc) Hk. destruct (Hk s1 ps1 R Hc) as (s2 & ps2 & Hm2 & R2 & Hc2).
  exists s2, ps2. by rewrite (run_bind _ _ _ _ _ Hm).
Qed.

Lemma ends_after {X Y} (m : M (agps K A) X) (k : X -> M (agps K A) Y) s x s' y c xs extra :
  m s = Some (x, s') -> ends (k x) s' y c xs extra -> ends (bind m k) s y c xs extra.
Proof. intros Hm He. unfold ends. by rewrite (run_bind _ _ _ _ _ Hm). Qed.

Lemma ends_ret {X} (x : X) s ps c xs extra : agps_rep s ps xs extra -> core s = c -> ends (ret x) s x c xs extra.
Proof. by exists s, ps. Qed.

Lemma ends_run {X} (m : M (agps K A) X) s ps x f c xs extra :
  agps_rep s ps xs extra -> m s = Some (x, upd_core f s) -> c = f (core s) -> ends m s x c xs extra.
Proof. intros R Hm ->. exists (upd_core f s), ps. split_and!; [done|by apply rep_core|done]. Qed.

Lemma ends_same {X} (m : M (agps K A) X) s ps x xs extra : agps_rep s ps xs extra -> m s = Some (x, s) -> ends m s x (core s) xs extra.
Proof. intros R Hm. by exists s, ps. Qed.

Lemma ends_request action s ps xs extra :
  agps_rep s ps xs extra -> ends (sendRsrcRequest cf action) s (a_request cf action xs (core s)).1 (a_request cf action xs (core s)).2 xs extra.
Proof. intros R. eapply ends_run; [exact R|by eapply sendRsrcRequest_run|done]. Qed.

Lemma ends_add s ps xs extra p x :
  agps_rep s ps xs extra -> (p, x) ∈ extra -> sub_ok cf x = true -> ends (addSubscriber p) s tt (core s) (a_add x xs) extra.
Proof. intros R Hp Hx. destruct (addSubscriber_run cf s ps xs extra p x R Hp Hx) as (s' & ps' & ? & ? & ?). by exists s', ps'. Qed.

Lemma extra_lookup s ps xs extra p x : agps_rep s ps xs extra -> (p, x) ∈ extra -> objects s !! p = Some x.
Proof. intros R Hp. pose proof (ar_extra _ _ _ _ R) as He. rewrite Forall_forall in He. by apply (He (p, x)). Qed.

(** The state handlers and the assignment of their result. *)
Lemma ends_step st event data s ps xs extra (st' : AgpsState) c xs' :
  agps_rep s ps xs extra -> state_of (core s) = st ->
  ends (state_onRsrcEvent cf st event data) s st' c xs' extra ->
  ends (step_state cf event data) s tt (with_state st' c) xs' extra.
Proof.
  intros R <- (s1 & ps1 & Hs & R1 & <-). assert (get_machine s = Some (machine (core s), s)) as Hg by done.
  unfold ends, step_state. rewrite (run_bind _ _ _ _ _ Hg), (run_bind _ _ _ _ _ Hs).
  exists (upd_core (upd_machine (set_mStatePtr st')) s1), ps1. split_and!; [done|by apply rep_core|done].
Qed.

(** [RSRC_UNSUBSCRIBE] of a member in the states with a connection. *)
Lemma ends_leave_and_release st s ps xs extra r i p x :
  agps_rep s ps xs extra -> find_index (fun y => same y r) xs = Some i -> xs !! i = Some x -> ps !! i = Some p ->
  forallb (sub_ok cf) xs = true -> negb (waitForCloseComplete x) && (1 <? length xs)%nat = false ->
  let l := a_leave cf i x (core s) xs in
  ends (leave_and_release cf st (Some p) RSRC_UNSUBSCRIBE) s
    (if bool_decide (l.2 = []) then AgpsReleasedState else match first_of l.2 with None => AgpsReleasingState | Some _ => st end)
    (if bool_decide (l.2 = []) then (a_request cf GPS_RELEASE_AGPS_DATA_CONN l.2 l.1).2 else
     match first_of l.2 with None => (a_request cf GPS_RELEASE_AGPS_DATA_CONN l.2 l.1).2 | Some _ => l.1 end) l.2 extra.
Proof.
  intros R Hi Hx Hp Hok Hd l. pose proof (leave_run cf s ps xs extra r i p x R Hi Hx Hp Hok) as Hl. rewrite Hd in Hl. fold l in Hl.
  destruct Hl as (s' & ps' & Hl & R' & Hc & _). unfold leave_and_release. cbn [deref]. apply (ends_after _ _ _ p s); [done|].
  eapply ends_after; [exact Hl|]. eapply ends_after; [exact (hasSubscribers_run _ _ _ _ R')|]. rewrite negb_involutive, <- Hc.
  case_bool_decide.
  - eapply ends_bind; [by apply (ends_request _ s' ps')|]. intros. by eapply ends_ret.
  - eapply ends_after; [exact (hasActiveSubscribers_run cf _ _ _ _ R')|]. destruct (first_of l.2); cbn [negb].
    + by eapply ends_ret.
    + eapply ends_bind; [by apply (ends_request _ s' ps')|]. intros. by eapply ends_ret.
Qed.

Lemma with_state_id (c : agps_core K) : with_state (state_of c) c = c.
Proof. by destruct c as [[] ? ?]. Qed.

Lemma filter_keeps_all xs : filter (fun x => for_me ToAll x) xs = xs /\ filter (fun x => ~ for_me ToAll x) xs = [].
Proof.
  induction xs as [|x xs [IH1 IH2]]; [done|]. rewrite filter_cons_True by done. rewrite filter_cons_False by (intros Hx; apply Hx; exact I).
  by rewrite IH1, IH2.
Qed.

Lemma filter_not_inactive xs : filter (fun x => ~ for_me ToInactive x) xs = filter (fun x => is_active x) xs.
Proof. apply list_filter_iff. intros x. unfold is_active. simpl. destruct (isInactive x); simpl; tauto. Qed.

Lemma first_of_None xs : first_of xs = None <-> filter (fun x => is_active x) xs = [].
Proof.
  unfold first_of. destruct (find_index is_active xs) as [i|] eqn:Ei; simpl.
  - destruct (find_index_Some _ _ _ Ei) as (x & Hx & Ha & _). rewrite Hx. split; [done|]. intros Hf.
    assert (x ∈ filter (fun x => is_active x) xs) as Hin by (apply list_elem_of_filter; split; [by rewrite Ha|by eapply list_elem_of_lookup_2]).
    rewrite Hf in Hin. by apply elem_of_nil in Hin.
  - apply find_index_None in Ei. split; [|done]. intros _. by apply filter_none.
Qed.

Lemma first_of_active xs : first_of (filter (fun x => is_active x) xs) = None <-> filter (fun x => is_active x) xs = [].
Proof.
  rewrite first_of_None, list_filter_filter.
  by rewrite (list_filter_iff (fun x => is_active x /\ is_active x) (fun x => is_active x)) by naive_solver.
Qed.

(** A notification of all members, after which the list is empty. *)
Lemma ends_notify_group st g t s ps xs extra :
  agps_rep s ps xs extra -> notifies cf (broadcast g st true) t s -> forallb (sub_ok cf) xs = true -> known_sub st = true ->
  ends (notifySubscribers cf (broadcast g st true)) s tt
    (tell_all cf st (filter (fun x => for_me t x) xs) (core s)) (filter (fun x => ~ for_me t x) xs) extra.
Proof.
  intros R Hn Hok Hst. destruct (notify_group cf (broadcast g st true) t s ps xs extra eq_refl R Hn Hok Hst eq_refl) as (s' & ps' & Hs & R' & Hc & _).
  by exists s', ps'.
Qed.

Definition service_event (st : AgpsRsrcStatus) : bool :=
  match st with RSRC_GRANTED | RSRC_RELEASED | RSRC_DENIED => true | _ => false end.

(** One event of the connectivity service. *)
Lemma ends_a_step st s ps xs :
  agps_rep s ps xs [] -> forallb (sub_ok cf) xs = true -> service_event st = true ->
  ends (step_state cf st None) s tt (a_step cf st (core s) xs).1 (a_step cf st (core s) xs).2 [].
Proof.
  intros R Hok Hst.
  assert (forall a, state_of (core s) = a -> state_onRsrcEvent cf a st None s = Some (a, s) -> ends (step_state cf st None) s tt (core s) xs []) as Hsame.
  { intros a Ha Hs. assert (core s = with_state a (core s)) as Hid by (by rewrite <- Ha, with_state_id). rewrite Hid at 1.
    eapply ends_step; [exact R|exact Ha|]. by exists s, ps. }
  unfold a_step. destruct (state_of (core s)) eqn:Ha.
  - by destruct st; (apply (Hsame AgpsReleasedState)).
  - destruct st; try done; simpl; [|by apply (Hsame AgpsPendingState)|]; (eapply ends_step; [exact R|exact Ha|]).
    + eapply ends_bind; [|intros; by eapply ends_ret]. eapply ends_run; [exact R| |reflexivity].
      rewrite (notify_keep cf (broadcast BROADCAST_ACTIVE RSRC_GRANTED false) ToActive s ps xs [] R) by done. done.
    + eapply ends_bind; [by apply (ends_notify_group RSRC_DENIED BROADCAST_ALL ToAll s ps)|]. intros s' ps' R' Hc.
      destruct (filter_keeps_all xs) as [Hf1 Hf2]. rewrite Hf1 in Hc. rewrite Hf2 in R'. by eapply ends_ret.
  - destruct st; try done; simpl; [by apply (Hsame AgpsAcquiredState)| |by apply (Hsame AgpsAcquiredState)].
    eapply ends_step; [exact R|exact Ha|].
    eapply ends_bind; [by apply (ends_notify_group RSRC_RELEASED BROADCAST_ALL ToAll s ps)|]. intros s' ps' R' Hc.
    destruct (filter_keeps_all xs) as [Hf1 Hf2]. rewrite Hf1 in Hc. rewrite Hf2 in R'. by eapply ends_ret.
  - assert (st = RSRC_RELEASED \/ st = RSRC_DENIED -> ends (step_state cf st None) s tt
        (if bool_decide (filter (fun x => is_active x) xs = []) then with_state AgpsReleasedState (tell_all cf st (filter (fun x => isInactive x) xs) (core s))
         else with_state AgpsPendingState (a_request cf GPS_REQUEST_AGPS_DATA_CONN (filter (fun x => is_active x) xs)
           (tell_all cf st (filter (fun x => isInactive x) xs) (core s))).2) (filter (fun x => is_active x) xs) []) as Hrel;
      [|destruct st; try done; [by apply (Hsame AgpsReleasingState)|apply Hrel; by left|apply Hrel; by right]].
    intros Hor. assert (known_sub st = true) as Hk by (by destruct Hor as [->| ->]).
    assert (state_onRsrcEvent (K := K) (A := A) cf AgpsReleasingState st None =
      (notifySubscribers cf (broadcast BROADCAST_INACTIVE st true) >>
      let* b := hasActiveSubscribers in
      if b : bool then sendRsrcRequest cf GPS_REQUEST_AGPS_DATA_CONN >> ret AgpsPendingState
      else ret AgpsReleasedState)) as Heq by (by destruct Hor as [->| ->]).
    pose proof (first_of_active xs) as Hfa.
    assert (forall st' c', ends (notifySubscribers cf (broadcast BROADCAST_INACTIVE st true) >>
      let* b := hasActiveSubscribers in
      if b : bool then sendRsrcRequest cf GPS_REQUEST_AGPS_DATA_CONN >> ret AgpsPendingState
      else ret AgpsReleasedState) s st' c' (filter (fun x => is_active x) xs) [] ->
      ends (step_state cf st None) s tt (with_state st' c') (filter (fun x => is_active x) xs) []) as Hstep.
    { intros st' c' He. eapply ends_step; [exact R|exact Ha|]. by rewrite Heq. }
    case_bool_decide as Hnil; apply Hstep; (eapply ends_bind; [by apply (ends_notify_group st BROADCAST_INACTIVE ToInactive s ps)|]);
      rewrite filter_not_inactive; intros s' ps' R' Hc; (eapply ends_after; [exact (hasActiveSubscribers_run cf _ _ _ _ R')|]).
    + apply Hfa in Hnil as Hn. rewrite Hn. by eapply ends_ret.
    + destruct (first_of (filter (fun x => is_active x) xs)); [|by destruct Hnil; apply Hfa].
      eapply ends_bind; [by apply (ends_request _ s' ps')|]. rewrite Hc. intros. by eapply ends_ret.
Qed.

(** ** The calls of a machine *)

(** An event of the connectivity service. *)
Lemma event_ends st s ps xs :
  agps_rep s ps xs [] -> forallb (sub_ok cf) xs = true ->
  ends (onRsrcEvent cf st) s tt (a_event cf st (core s) xs).1 (a_event cf st (core s) xs).2 [].
Proof.
  intros R Hok. unfold onRsrcEvent, a_event. destruct (is_ds cf) eqn:Hds; destruct st; try (by eapply ends_ret); cbn [ds_onRsrcEvent agps_onRsrcEvent];
    try (by apply (ends_a_step _ s ps)).
  - pose proof (ends_a_step RSRC_RELEASED s ps xs R Hok eq_refl) as He. destruct (a_step cf RSRC_RELEASED (core s) xs) as [c' xs'] eqn:Hst.
    eapply (ends_after _ _ s (machine (core s)) s); [done|]. eapply ends_bind; [exact He|]. intros s' ps' R' Hc. cbn [fst] in Hc. subst c'.
    eapply (ends_after _ _ s' (machine (core s')) s'); [done|]. cbn [andb]. unfold state_of. case_bool_decide as Heq; [|by rewrite decide_False; [eapply ends_ret|]].
    rewrite decide_True by done. cbn [snd] in R'. apply (ends_a_step _ s' ps'); [done| |done].
    unfold a_step in Hst. destruct (state_of (core s)); injection Hst as _ <-; try done. apply forallb_forall. intros x Hx%list_elem_of_In%list_elem_of_filter.
    rewrite forallb_forall in Hok. apply Hok, list_elem_of_In. apply Hx.
  - pose proof (ends_a_step RSRC_RELEASED s ps xs R Hok eq_refl) as He. by destruct (a_step cf RSRC_RELEASED (core s) xs).
Qed.

(** A call with a subscriber that lives as long as the call. *)
Lemma with_sub_ends {X} (f : loc -> M (agps K A) X) x r s ps xs c xs' :
  agps_rep s ps xs [] ->
  (forall s' ps' p, agps_rep s' ps' xs [(p, x)] -> core s' = core s -> ends (f p) s' r c xs' [(p, x)]) ->
  ends (with_sub x f) s r c xs' [].
Proof.
  intros R Hf. unfold with_sub. destruct (new_object (objects s) (heap s)) as [p a] eqn:Hnew.
  pose proof (new_object_ok (objects s) (heap s)) as Hp. rewrite Hnew in Hp. cbn [fst] in Hp.
  set (s1 := upd_objects (insert p x) (set_heap a s)).
  assert (alloc_sub x s = Some (p, s1)) as Ha by (unfold alloc_sub, bind, get, alloc; by rewrite Hnew).
  eapply ends_after; [exact Ha|]. eapply (ends_bind _ _ s1 r r c c xs' xs' [(p, x)] []).
  - apply (Hf s1 ps p); [|done]. apply (rep_new (set_heap a s) ps xs [] p x); [by apply rep_heap|done].
  - intros s' ps' R' Hc. eapply ends_after; [apply (delete_sub_run s' p x); by eapply extra_lookup, list_elem_of_singleton|].
    eapply ends_ret; [by apply (rep_free _ _ _ _ p x)|done].
Qed.

Lemma subscribe_ends x s ps xs :
  agps_rep s ps xs [] -> sub_ok cf x = true ->
  ends (with_sub x (subscribeRsrc cf)) s tt (a_subscribe cf x (core s) xs).1 (a_subscribe cf x (core s) xs).2 [].
Proof.
  intros R Hx. eapply with_sub_ends; [done|]. intros s1 ps1 p R1 Hc1. rewrite <- Hc1. clear s ps R Hc1. rename s1 into s, ps1 into ps, R1 into R.
  assert ((p, x) ∈ [(p, x)]) as Hin by (by apply list_elem_of_singleton). pose proof (extra_lookup _ _ _ _ _ _ R Hin) as Hp.
  unfold subscribeRsrc, a_subscribe. eapply ends_after; [exact (hasSubscribers_run _ _ _ _ R)|].
  destruct (mEnforceSingleSubscriber cf && negb (bool_decide (xs = []))).
  - eapply ends_bind; [|intros; by eapply ends_ret]. eapply ends_run; [exact R| |reflexivity].
    by rewrite (notifySubscriber_run cf (broadcast BROADCAST_ALL RSRC_DENIED true) ToAll p x s).
  - destruct (state_of (core s)) eqn:Ha.
    + destruct (a_request cf GPS_REQUEST_AGPS_DATA_CONN (a_add x xs) (core s)) as [r c'] eqn:Hr. cbn [fst snd].
      eapply ends_step; [exact R|exact Ha|]. eapply (ends_after _ _ s p s); [done|]. eapply ends_bind; [by apply (ends_add _ ps)|]. intros s' ps' R' Hc.
      eapply ends_bind; [by apply (ends_request _ s' ps')|]. rewrite Hc, Hr. intros. by eapply ends_ret.
    + assert (core s = with_state AgpsPendingState (core s)) as Hid by (by rewrite <- Ha, with_state_id). cbn [fst snd]. rewrite Hid at 1.
      eapply ends_step; [exact R|exact Ha|]. eapply (ends_after _ _ s p s); [done|]. eapply ends_bind; [by apply (ends_add _ ps)|].
      intros s' ps' R' Hc. by eapply ends_ret.
    + assert (tell cf RSRC_GRANTED x (core s) = with_state AgpsAcquiredState (tell cf RSRC_GRANTED x (core s))) as Hid.
      { rewrite <- Ha. unfold with_state, upd_machine, tell, state_of, retries_told. cbn [machine calls world]. destruct (core s) as [[] ? ?]. by destruct (class x). }
      cbn [fst snd]. rewrite Hid at 1. eapply ends_step; [exact R|exact Ha|]. eapply (ends_after _ _ s p s); [done|].
      eapply ends_after; [exact (get_sub_run p x s Hp)|]. eapply ends_after.
      { rewrite (notifyRsrcStatus_run cf x (notify_one p RSRC_GRANTED false) (ToOne x) s (conj Hx (ex_intro _ p (conj eq_refl Hp))) Hx eq_refl).
        cbn [for_me]. rewrite same_refl. reflexivity. }
      eapply ends_bind; [apply (ends_add _ ps); [by apply rep_core|done|done]|]. intros s' ps' R' Hc. by eapply ends_ret.
    + assert (core s = with_state AgpsReleasingState (core s)) as Hid by (by rewrite <- Ha, with_state_id). cbn [fst snd]. rewrite Hid at 1.
      eapply ends_step; [exact R|exact Ha|]. eapply (ends_after _ _ s p s); [done|]. eapply ends_bind; [by apply (ends_add _ ps)|].
      intros s' ps' R' Hc. by eapply ends_ret.
Qed.

(** [RSRC_UNSUBSCRIBE] of the member at an index. *)
Lemma unsubscribe_at_ends s ps xs extra r i p x :
  agps_rep s ps xs extra -> find_index (fun y => same y r) xs = Some i -> xs !! i = Some x -> ps !! i = Some p ->
  forallb (sub_ok cf) xs = true -> leaves_dangling x (core s) xs = false ->
  ends (step_state cf RSRC_UNSUBSCRIBE (Some p)) s tt (a_unsubscribe_at cf i x (core s) xs).1 (a_unsubscribe_at cf i x (core s) xs).2 extra.
Proof.
  intros R Hi Hx Hp Hok Hd. pose proof (rep_object _ _ _ _ _ _ _ R Hp Hx) as Hpx.
  assert (sub_ok cf x = true) as Hxok by (rewrite forallb_forall in Hok; apply Hok; apply list_elem_of_In; by eapply list_elem_of_lookup_2).
  assert (state_of (a_leave cf i x (core s) xs).1 = state_of (core s)) as Hst.
  { unfold a_leave, tell, state_of, retries_told. by destruct (waitForCloseComplete x); destruct (class x). }
  unfold leaves_dangling in Hd. unfold a_unsubscribe_at. destruct (state_of (core s)) eqn:Ha.
  - assert (tell cf RSRC_UNSUBSCRIBE x (core s) = with_state AgpsReleasedState (tell cf RSRC_UNSUBSCRIBE x (core s))) as Hid.
    { rewrite <- Ha. unfold with_state, upd_machine, tell, state_of, retries_told. cbn [machine calls world]. destruct (core s) as [[] ? ?]. by destruct (class x). }
    cbn [fst snd]. rewrite Hid at 1. eapply ends_step; [exact R|exact Ha|]. eapply (ends_after _ _ s p s); [done|].
    eapply ends_after; [exact (get_sub_run p x s Hpx)|]. eapply ends_after.
    { rewrite (notifyRsrcStatus_run cf x (notify_one p RSRC_UNSUBSCRIBE false) (ToOne x) s (conj Hxok (ex_intro _ p (conj eq_refl Hpx))) Hxok eq_refl).
      cbn [for_me]. rewrite same_refl. reflexivity. }
    eapply ends_ret; [by apply rep_core|done].
  - pose proof (ends_leave_and_release AgpsPendingState s ps xs extra r i p x R Hi Hx Hp Hok Hd) as He. cbv zeta in He.
    destruct (a_leave cf i x (core s) xs) as [c' xs']. cbn [fst snd] in *. apply (ends_step AgpsPendingState RSRC_UNSUBSCRIBE (Some p) s ps xs extra _ _ _ R Ha) in He.
    case_bool_decide; [exact He|]. destruct (first_of xs'); [|exact He]. cbn [fst snd]. by rewrite <- Hst, with_state_id in He.
  - pose proof (ends_leave_and_release AgpsAcquiredState s ps xs extra r i p x R Hi Hx Hp Hok Hd) as He. cbv zeta in He.
    destruct (a_leave cf i x (core s) xs) as [c' xs']. cbn [fst snd] in *. apply (ends_step AgpsAcquiredState RSRC_UNSUBSCRIBE (Some p) s ps xs extra _ _ _ R Ha) in He.
    case_bool_decide; [exact He|]. destruct (first_of xs'); [|exact He]. cbn [fst snd]. by rewrite <- Hst, with_state_id in He.
  - pose proof (leave_run cf s ps xs extra r i p x R Hi Hx Hp Hok) as Hl. rewrite Hd in Hl. destruct Hl as (s' & ps' & Hl & R' & Hc & _).
    assert (ends (state_onRsrcEvent cf AgpsReleasingState RSRC_UNSUBSCRIBE (Some p)) s
      (if bool_decide ((a_leave cf i x (core s) xs).2 = []) then AgpsReleasedState else AgpsReleasingState)
      (a_leave cf i x (core s) xs).1 (a_leave cf i x (core s) xs).2 extra) as He.
    { eapply (ends_after _ _ s p s); [done|]. eapply ends_after; [exact Hl|]. eapply ends_after; [exact (hasSubscribers_run _ _ _ _ R')|].
      rewrite negb_involutive. by eapply ends_ret. }
    destruct (a_leave cf i x (core s) xs) as [c' xs']. cbn [fst snd] in *. apply (ends_step AgpsReleasingState RSRC_UNSUBSCRIBE (Some p) s ps xs extra _ _ _ R Ha) in He.
    case_bool_decide; [exact He|]. by rewrite <- Hst, with_state_id in He.
Qed.

(** ... and the use of a deleted member. *)
Lemma unsubscribe_at_dangling s ps xs extra r i p x :
  agps_rep s ps xs extra -> find_index (fun y => same y r) xs = Some i -> xs !! i = Some x -> ps !! i = Some p ->
  forallb (sub_ok cf) xs = true -> leaves_dangling x (core s) xs = true ->
  step_state cf RSRC_UNSUBSCRIBE (Some p) s = None.
Proof.
  intros R Hi Hx Hp Hok Hd. unfold leaves_dangling in Hd. unfold step_state. rewrite (run_bind _ _ s (machine (core s)) s) by done. apply run_bind_ub.
  pose proof (leave_run cf s ps xs extra r i p x R Hi Hx Hp Hok) as Hl. fold (state_of (core s)).
  destruct (state_of (core s)); [done|..]; rewrite Hd in Hl; cbn [state_onRsrcEvent Pending_onRsrcEvent Acquired_onRsrcEvent Releasing_onRsrcEvent];
    unfold leave_and_release; cbn [deref]; rewrite (run_bind _ _ s p s) by done; by apply run_bind_ub.
Qed.

Lemma unsubscribe_ends r s ps xs :
  agps_rep s ps xs [] -> sub_ok cf r = true -> forallb (sub_ok cf) xs = true ->
  (forall i x, find_index (fun y => same y r) xs = Some i -> xs !! i = Some x -> leaves_dangling x (core s) xs = false) ->
  ends (with_sub r (unsubscribeRsrc cf)) s (a_unsubscribe cf r (core s) xs).1
    (a_unsubscribe cf r (core s) xs).2.1 (a_unsubscribe cf r (core s) xs).2.2 [].
Proof.
  intros R Hr Hok Hd. eapply with_sub_ends; [done|]. intros s1 ps1 p R1 Hc1. rewrite <- Hc1 in Hd |- *. clear s ps R Hc1.
  pose proof (extra_lookup _ _ _ _ p r R1 ltac:(by apply list_elem_of_singleton)) as Hp. unfold unsubscribeRsrc, a_unsubscribe.
  eapply ends_after; [exact (search_has cf (notify_one p RSRC_STATUS_MAX false) (ToOne r) s1 ps1 xs [(p, r)] R1 (conj Hr (ex_intro _ p (conj eq_refl Hp))))|].
  change (for_me (ToOne r)) with (fun y => same y r). destruct (find_index (fun y => same y r) xs) as [i|] eqn:Hi; [|by eapply ends_ret].
  destruct (find_index_Some _ _ _ Hi) as (x & Hx & _). destruct (rep_lookup_x _ _ _ _ _ _ R1 Hx) as (q & Hq & _). cbn [mbind option_bind].
  rewrite Hq, Hx. eapply ends_bind; [by apply (unsubscribe_at_ends s1 ps1 xs _ r i q x); eauto|]. intros. by eapply ends_ret.
Qed.

Lemma unsubscribe_dangling r s ps xs i x :
  agps_rep s ps xs [] -> sub_ok cf r = true -> forallb (sub_ok cf) xs = true ->
  find_index (fun y => same y r) xs = Some i -> xs !! i = Some x -> leaves_dangling x (core s) xs = true ->
  with_sub r (unsubscribeRsrc cf) s = None.
Proof.
  intros R Hr Hok Hi Hx Hd. unfold with_sub. destruct (new_object (objects s) (heap s)) as [p a] eqn:Hnew.
  pose proof (new_object_ok (objects s) (heap s)) as Hp. rewrite Hnew in Hp. cbn [fst] in Hp.
  set (s1 := upd_objects (insert p r) (set_heap a s)).
  assert (alloc_sub r s = Some (p, s1)) as Ha by (unfold alloc_sub, bind, get, alloc; by rewrite Hnew). rewrite (run_bind _ _ _ _ _ Ha).
  assert (agps_rep s1 ps xs [(p, r)]) as R1 by (apply (rep_new (set_heap a s) ps xs [] p r); [by apply rep_heap|done]).
  pose proof (extra_lookup _ _ _ _ p r R1 ltac:(by apply list_elem_of_singleton)) as Hp1. apply run_bind_ub. unfold unsubscribeRsrc.
  rewrite (run_bind _ _ _ _ _ (search_has cf (notify_one p RSRC_STATUS_MAX false) (ToOne r) s1 ps xs [(p, r)] R1 (conj Hr (ex_intro _ p (conj eq_refl Hp1))))).
  change (for_me (ToOne r)) with (fun y => same y r). rewrite Hi. destruct (rep_lookup_x _ _ _ _ _ _ R1 Hx) as (q & Hq & _). cbn [mbind option_bind].
  rewrite Hq. apply run_bind_ub. by apply (unsubscribe_at_dangling s1 ps xs [(p, r)] r i q x).
Qed.
End handlers.
