(* ===== verification/AgpsOps.v ===== *)
(** * Sequences of operations of the assisted-GPS state machines

    A machine is used through the messages of the engine: a subscriber comes or
    goes, the connectivity service answers, the modem restarts.  [run_ops] runs a
    sequence of them, [a_ops] is what the abstract machine makes of it. *)
From S2P Require Import Prelude Heap StateM LinkedList Agps AgpsSpec AgpsRun AgpsSim.
From stdpp Require Import base list gmap.
From Stdlib Require Import ZArith Lia.

Open Scope Z_scope.
Open Scope method_scope.

(** ** Runs *)

(** What can be asked of a machine: [OpOpened] is [LocEngAtlOpenSuccess::proc],
    [OpEvent] the other answers of the connectivity service, [OpRetry] the timer
    of the emergency machine, [OpDropAll] the restart of the modem. *)
Inductive agps_op :=
  | OpSubscribe (x : Subscriber)
  | OpUnsubscribe (x : Subscriber)
  | OpOpened (apn : list Z) (bearer : Z)
  | OpEvent (st : AgpsRsrcStatus)
  | OpRetry
  | OpDropAll.

Section runs.
Context {K A : Type} {E : AgpsEnv K} {G : AgpsMem A} (cf : AgpsConf).

Definition run_op (op : agps_op) : M (agps K A) unit :=
  match op with
  | OpSubscribe x => with_sub x (subscribeRsrc cf)
  | OpUnsubscribe x => with_sub x (unsubscribeRsrc cf) >> ret tt
  | OpOpened apn bearer => setBearer bearer >> setAPN (Some apn) (length apn) >> onRsrcEvent cf RSRC_GRANTED
  | OpEvent st => onRsrcEvent cf st
  | OpRetry => retryCallback
  | OpDropAll => dropAllSubscribers
  end.

Fixpoint run_ops (ops : list agps_op) : M (agps K A) unit :=
  match ops with [] => ret tt | op :: ops => run_op op >> run_ops ops end.

(** The abstract machine; [None] where the code uses a deleted subscriber. *)
Definition a_op (op : agps_op) (c : agps_core K) (xs : list Subscriber) : option (agps_core K * list Subscriber) :=
  match op with
  | OpSubscribe x => Some (a_subscribe cf x c xs)
  | OpUnsubscribe r =>
      match find_index (fun y => same y r) xs ≫= (xs !!.) with
      | Some x => if leaves_dangling x c xs then None else Some (a_unsubscribe cf r c xs).2
      | None => Some (c, xs)
      end
  | OpOpened apn bearer =>
      Some (a_event cf RSRC_GRANTED (upd_machine (fun m => set_mAPN (Some apn) (Z.of_nat (length apn)) (set_mBearer bearer m)) c) xs)
  | OpEvent st => Some (a_event cf st c xs)
  | OpRetry => Some (a_retry c xs, xs)
  | OpDropAll => Some (c, [])
  end.

Fixpoint a_ops (ops : list agps_op) (c : agps_core K) (xs : list Subscriber) : option (agps_core K * list Subscriber) :=
  match ops with [] => Some (c, xs) | op :: ops => '(c, xs) ← a_op op c xs; a_ops ops c xs end.

Definition op_ok (op : agps_op) : bool :=
  match op with OpSubscribe x | OpUnsubscribe x => sub_ok cf x | _ => true end.
End runs.

Section refinement.
Context {K A : Type} {E : AgpsEnv K} {G : AgpsMem A} {GL : AgpsMemLaws A} (cf : AgpsConf).
Hypothesis Hcf : conf_ok cf = true.
Implicit Types (s : agps K A) (ps : list loc) (xs : list Subscriber).

(** *** Emptying the list *)

Lemma dealloc_all_run ps s :
  NoDup ps -> Forall (fun p => is_Some (objects s !! p)) ps ->
  exists s', dealloc_all deleteObj (payload_of <$> ps) s = Some (tt, s') /\ core s' = core s /\ list_mem s' = list_mem s /\
    (forall q, objects s' !! q = if decide (q ∈ ps) then None else objects s !! q).
Proof.
  intros Hnd. revert s. induction Hnd as [|p ps Hni Hnd IH]; intros s Hs.
  - exists s. split_and!; [done|done|done|]. intros q. by rewrite decide_False by apply not_elem_of_nil.
  - apply Forall_cons in Hs as [[x Hp] Hs].
    destruct (IH (upd_objects (delete p) s)) as (s' & Hd & Hc & Hm & Ho).
    { rewrite Forall_forall in Hs |- *. intros q Hq. simpl. rewrite lookup_delete_ne by congruence. by apply Hs. }
    exists s'. csimpl. unfold deleteObj at 1. rewrite (run_bind _ _ _ _ _ (delete_sub_run s p x Hp)). split_and!; [done|done|done|].
    intros q. rewrite Ho. simpl. destruct (decide (q ∈ ps)) as [Hq|Hq]; [by rewrite decide_True by (by right)|].
    destruct (decide (q = p)) as [->|Hne]; [rewrite lookup_delete_eq, decide_True by left; done|].
    rewrite lookup_delete_ne, decide_False by (done || by intros [?|?]%elem_of_cons). done.
Qed.

Lemma drop_ends s ps xs : agps_rep s ps xs [] -> ends dropAllSubscribers s tt (core s) [] [].
Proof.
  intros R. destruct (ar_list _ _ _ _ R) as (ls & Hls & Hps). pose proof (ar_nodup _ _ _ _ R) as Hnd. rewrite app_nil_r in Hnd.
  destruct (dealloc_all_run ps s Hnd) as (s' & Hd & Hc & Hm & Ho).
  { apply Forall_forall. intros p (i & Hp)%list_elem_of_lookup. destruct (rep_lookup _ _ _ _ _ _ R Hp) as (x & _ & ?). by exists x. }
  pose proof (linked_list_flush_spec (S := agps K A) deleteObj (list_mem s) ls s frame_deleteObj Hls) as Hf. rewrite Hps, Hd in Hf.
  destruct Hf as (m' & Hm' & Hf). assert (ll_put (list_mem s) s = s) as Hs by (by destruct s). rewrite Hs in Hf.
  exists (ll_put m' s'), []. split_and!; [unfold dropAllSubscribers; by rewrite (run_bind _ _ _ _ _ Hf)| |done].
  constructor; simpl; [by exists []|done|done|constructor|]. apply dom_empty_iff_L, map_eq. intros q. rewrite Ho, lookup_empty.
  case_decide as Hq; [done|]. apply not_elem_of_dom. rewrite (ar_dom _ _ _ _ R), app_nil_r. by rewrite elem_of_list_to_set.
Qed.

(** *** One operation *)

Lemma clone_ok x : sub_ok cf x = true -> sub_ok cf (clone x) = true.
Proof.
  unfold sub_ok, clone. intros [Hid%Z.eqb_eq Hx]%andb_true_iff.
  destruct (class x); unfold new_WIFISubscriber, new_Subscriber; cbn [class ID]; rewrite !Hid, Z.eqb_refl; done.
Qed.

Lemma ok_elem xs x : forallb (sub_ok cf) xs = true -> x ∈ xs -> sub_ok cf x = true.
Proof. rewrite forallb_forall. intros H Hx. by apply H, list_elem_of_In. Qed.

Lemma ok_intro xs : (forall x, x ∈ xs -> sub_ok cf x = true) -> forallb (sub_ok cf) xs = true.
Proof. intros H. apply forallb_forall. intros x Hx%list_elem_of_In. by apply H. Qed.

Lemma a_add_elem x xs y : y ∈ a_add x xs -> y = clone x \/ y ∈ xs.
Proof. unfold a_add. destruct (find_index _ xs); [by right|]. by intros [->|]%elem_of_cons; [left|right]. Qed.

Lemma a_leave_elem i x (c : agps_core K) xs y : y ∈ (a_leave cf i x c xs).2 -> y ∈ xs \/ exists z, z ∈ xs /\ y = deactivate z.
Proof.
  unfold a_leave. destruct (waitForCloseComplete x); cbn [snd].
  - intros (j & Hj)%list_elem_of_lookup. rewrite list_lookup_alter in Hj. case_decide; [subst j|left; by eapply list_elem_of_lookup_2].
    destruct (xs !! i) as [z|] eqn:Hz; [|done]. injection Hj as <-. right. exists z. split; [by eapply list_elem_of_lookup_2|done].
  - left. by eapply elem_of_sublist, sublist_delete.
Qed.

Lemma a_unsubscribe_elem i x (c : agps_core K) xs y : y ∈ (a_unsubscribe_at cf i x c xs).2 -> y ∈ xs \/ exists z, z ∈ xs /\ y = deactivate z.
Proof.
  unfold a_unsubscribe_at. pose proof (a_leave_elem i x c xs y) as Hl. destruct (a_leave cf i x c xs) as [c' xs']. cbn [snd] in Hl.
  destruct (state_of c); cbn [snd]; [by left|..]; try (by repeat case_match).
Qed.

Lemma a_step_elem st (c : agps_core K) xs y : y ∈ (a_step cf st c xs).2 -> y ∈ xs.
Proof.
  unfold a_step. destruct (state_of c), st; cbn [snd]; try done; try (by intros []%elem_of_nil); by intros [_ ?]%list_elem_of_filter.
Qed.

Lemma a_event_elem st (c : agps_core K) xs y : y ∈ (a_event cf st c xs).2 -> y ∈ xs.
Proof.
  unfold a_event. destruct st; try done; try apply a_step_elem. pose proof (a_step_elem RSRC_RELEASED c xs y) as H1.
  destruct (a_step cf RSRC_RELEASED c xs) as [c' xs']. cbn [snd] in H1. case_match; [|done]. intros Hy%a_step_elem. by apply H1.
Qed.

(** The abstract machine keeps its members comparable. *)
Lemma a_op_ok op (c : agps_core K) xs c' xs' :
  op_ok cf op = true -> forallb (sub_ok cf) xs = true -> a_op cf op c xs = Some (c', xs') -> forallb (sub_ok cf) xs' = true.
Proof.
  intros Hop Hxs Ha. apply ok_intro. intros y Hy. destruct op as [x|r|apn b|st| |]; cbn [a_op] in Ha; simplify_eq.
  - assert (y ∈ a_add x xs \/ y ∈ xs) as [Hy'|Hy']; [|destruct (a_add_elem _ _ _ Hy') as [->|]; [by apply clone_ok|by eapply ok_elem]|by eapply ok_elem].
    unfold a_subscribe in Ha. repeat case_match; simplify_eq; naive_solver.
  - destruct (find_index (fun y => same y r) xs) as [i|] eqn:Hi; cbn [mbind option_bind] in Ha; [|simplify_eq; by eapply ok_elem].
    destruct (xs !! i) as [x|] eqn:Hx; [|simplify_eq; by eapply ok_elem]. destruct (leaves_dangling x c xs); [done|].
    unfold a_unsubscribe in Ha. rewrite Hi, Hx in Ha. cbn [snd] in Ha. injection Ha as Ha.
    assert (y ∈ (a_unsubscribe_at cf i x c xs).2) as Hy' by (by rewrite Ha).
    destruct (a_unsubscribe_elem _ _ _ _ _ Hy') as [|(z & Hz & ->)]; [by eapply ok_elem|]. by apply (ok_elem xs z Hxs) in Hz.
  - eapply ok_elem; [exact Hxs|]. eapply a_event_elem. by rewrite Ha.
  - eapply ok_elem; [exact Hxs|]. eapply a_event_elem. by rewrite Ha.
  - by eapply ok_elem.
  - by apply elem_of_nil in Hy.
Qed.

Lemma setAPN_run apn s : setAPN (Some apn) (length apn) s = Some (tt, upd_core (upd_machine (set_mAPN (Some apn) (Z.of_nat (length apn)))) s).
Proof. unfold setAPN. rewrite decide_True by lia. by rewrite take_ge by lia. Qed.

(** One operation. *)
Lemma op_refines op s ps xs :
  agps_rep s ps xs [] -> forallb (sub_ok cf) xs = true -> op_ok cf op = true ->
  match a_op cf op (core s) xs with
  | Some (c, xs') => ends (run_op cf op) s tt c xs' []
  | None => run_op cf op s = None
  end.
Proof.
  intros R Hxs Hop. destruct op as [x|r|apn b|st| |]; cbn [a_op run_op].
  - pose proof (subscribe_ends cf Hcf x s ps xs R Hop) as He. by destruct (a_subscribe cf x (core s) xs).
  - destruct (find_index (fun y => same y r) xs) as [i|] eqn:Hi; cbn [mbind option_bind].
    + destruct (find_index_Some _ _ _ Hi) as (x & Hx & _). rewrite Hx. destruct (leaves_dangling x (core s) xs) eqn:Hd.
      * apply run_bind_ub. by apply (unsubscribe_dangling cf r s ps xs i x).
      * pose proof (unsubscribe_ends cf Hcf r s ps xs R Hop Hxs ltac:(intros; congruence)) as He.
        destruct (a_unsubscribe cf r (core s) xs) as [b [c' xs']]. eapply ends_bind; [exact He|]. intros. by eapply ends_ret.
    + pose proof (unsubscribe_ends cf Hcf r s ps xs R Hop Hxs ltac:(intros; congruence)) as He.
      unfold a_unsubscribe in He. rewrite Hi in He. eapply ends_bind; [exact He|]. intros. by eapply ends_ret.
  - set (s1 := upd_core (upd_machine (set_mAPN (Some apn) (Z.of_nat (length apn)))) (upd_core (upd_machine (set_mBearer b)) s)).
    pose proof (event_ends cf Hcf RSRC_GRANTED s1 ps xs ltac:(by apply rep_core, rep_core) Hxs) as He.
    change (core s1) with (upd_machine (fun m => set_mAPN (Some apn) (Z.of_nat (length apn)) (set_mBearer b m)) (core s)) in He.
    destruct (a_event cf RSRC_GRANTED _ xs) as [c' xs']. eapply (ends_after _ _ s tt (upd_core (upd_machine (set_mBearer b)) s)); [done|].
    eapply ends_after; [apply setAPN_run|exact He].
  - pose proof (event_ends cf Hcf st s ps xs R Hxs) as He. by destruct (a_event cf st (core s) xs).
  - exists (upd_core (fun c => a_retry c xs) s), ps. split_and!; [by eapply retryCallback_run|by apply rep_core|done].
  - by apply (drop_ends s ps xs).
Qed.

Lemma new_machine_rep (k : K) (a : A) : agps_rep (new_machine k a) [] [] [].
Proof.
  constructor; simpl; [|done|done|constructor|done]. exists []. split; [|done]. by apply list_rep_init.
Qed.

Lemma ops_refine ops s ps xs :
  agps_rep s ps xs [] -> forallb (sub_ok cf) xs = true -> forallb (op_ok cf) ops = true ->
  match a_ops cf ops (core s) xs with
  | Some (c, xs') => ends (run_ops cf ops) s tt c xs' []
  | None => run_ops cf ops s = None
  end.
Proof.
  revert s ps xs. induction ops as [|op ops IH]; intros s ps xs R Hxs Hops; [by eapply ends_ret|].
  apply andb_true_iff in Hops as [Hop Hops]. pose proof (op_refines op s ps xs R Hxs Hop) as He. cbn [a_ops run_ops].
  destruct (a_op cf op (core s) xs) as [[c xs1]|] eqn:Ha; cbn [mbind option_bind]; [|by apply run_bind_ub].
  pose proof (a_op_ok op (core s) xs c xs1 Hop Hxs Ha) as Hxs1. destruct He as (s1 & ps1 & Hs1 & R1 & <-).
  specialize (IH s1 ps1 xs1 R1 Hxs1 Hops). destruct (a_ops cf ops (core s1) xs1) as [[c' xs']|].
  - by eapply ends_after.
  - by rewrite (run_bind _ _ _ _ _ Hs1).
Qed.
End refinement.
