(* ===== verification/AgpsInv.v ===== *)
(** * Invariants of the abstract state machine

    How the state of a machine and its members fit together, and that every
    operation keeps it. *)
From S2P Require Import Prelude Agps AgpsSpec AgpsRun AgpsSim AgpsOps.
From stdpp Require Import base list.
From Stdlib Require Import ZArith Lia.

Open Scope Z_scope.

Section inv.
Context {K : Type} {E : AgpsEnv K} (cf : AgpsConf).
Implicit Types (c : agps_core K) (x : Subscriber) (xs : list Subscriber) (st : AgpsRsrcStatus).

(** ** Calls leave the state alone *)

Lemma state_tell st x c : state_of (tell cf st x c) = state_of c.
Proof. unfold state_of, tell, retries_told. by destruct (class x), st. Qed.

Lemma state_tell_all st xs c : state_of (tell_all cf st xs c) = state_of c.
Proof.
  revert c. induction xs as [|x xs IH]; intros c; [done|]. change (state_of (tell_all cf st xs (tell cf st x c)) = state_of c).
  by rewrite IH, state_tell.
Qed.

Lemma state_servicer d c : state_of (a_servicer cf d c).2 = state_of c.
Proof. unfold a_servicer. destruct (mServicer cf); [done|done|]. by destruct (callbackExt d (world c)). Qed.

Lemma state_ds_result r h c : state_of (a_ds_result r h c).2 = state_of c.
Proof. unfold a_ds_result. repeat case_match; simplify_eq/=; done. Qed.

Lemma state_request a xs c : state_of (a_request cf a xs c).2 = state_of c.
Proof.
  unfold a_request. destruct (is_ds cf).
  - pose proof (state_servicer (DsCbData a) c) as Hs. destruct (a_servicer cf (DsCbData a) c) as [r c']. by rewrite state_ds_result.
  - destruct (first_of xs), a; cbn [snd]; try done; apply state_servicer.
Qed.

Lemma state_with a c : state_of (with_state a c) = a.
Proof. done. Qed.

(** ** Members *)

Lemma same_clone x y : sub_ok cf x = true -> same y (clone x) = same y x.
Proof.
  intros [Hid%Z.eqb_eq _]%andb_true_iff. unfold same, clone. by destruct (class x); unfold new_WIFISubscriber, new_Subscriber; cbn [class ID]; rewrite Hid.
Qed.

Lemma clone_active x : isInactive (clone x) = false.
Proof. unfold isInactive, clone. by destruct (class x). Qed.

(** No two members are the same. *)
Fixpoint distinct xs : Prop :=
  match xs with [] => True | x :: xs => Forall (fun y => same y x = false) xs /\ distinct xs end.

Lemma distinct_add x xs : sub_ok cf x = true -> distinct xs -> distinct (a_add x xs).
Proof.
  intros Hx Hd. unfold a_add. destruct (find_index (fun y => same y x) xs) eqn:Hi; [done|]. apply find_index_None in Hi.
  split; [|done]. eapply Forall_impl; [exact Hi|]. intros y Hy. simpl in *. by rewrite same_clone.
Qed.

Lemma distinct_sublist xs ys : sublist xs ys -> distinct ys -> distinct xs.
Proof.
  induction 1 as [|x xs ys Hs IH|x xs ys Hs IH]; [done| |].
  - intros [Hx Hd]. split; [|by apply IH]. rewrite Forall_forall in Hx |- *. intros y Hy. apply Hx. by eapply elem_of_sublist.
  - intros [_ Hd]. by apply IH.
Qed.

Lemma distinct_alter i xs : distinct xs -> distinct (alter deactivate i xs).
Proof.
  revert i. induction xs as [|x xs IH]; intros i; [by destruct i|]. intros [Hx Hd]. destruct i as [|i]; [done|].
  change (alter deactivate (Datatypes.S i) (x :: xs)) with (x :: alter deactivate i xs). split; [|by apply IH].
  rewrite Forall_forall in Hx |- *. intros y (j & Hj)%list_elem_of_lookup. rewrite list_lookup_alter in Hj. case_decide.
  - destruct (xs !! i) as [z|] eqn:Hz; [|done]. subst. injection Hj as <-. apply (Hx z). by eapply list_elem_of_lookup_2.
  - apply Hx. by eapply list_elem_of_lookup_2.
Qed.

(** Whether an active member is there. *)
Lemma first_of_Some xs : first_of xs <> None <-> exists x, x ∈ xs /\ isInactive x = false.
Proof.
  rewrite first_of_None. split.
  - intros Hf. destruct (filter (fun x => is_active x) xs) as [|x l] eqn:Hx; [done|].
    assert (x ∈ filter (fun x => is_active x) xs) as [Ha Hin]%list_elem_of_filter by (rewrite Hx; left).
    exists x. split; [done|]. unfold is_active in Ha. by destruct (isInactive x).
  - intros (x & Hx & Ha) Hf. assert (x ∈ filter (fun x => is_active x) xs) as Hin.
    { apply list_elem_of_filter. split; [|done]. unfold is_active. by rewrite Ha. }
    rewrite Hf in Hin. by apply elem_of_nil in Hin.
Qed.

Lemma first_of_add x xs : first_of xs <> None \/ find_index (fun y => same y x) xs = None -> first_of (a_add x xs) <> None.
Proof.
  rewrite !first_of_Some. unfold a_add. intros Hor. destruct (find_index (fun y => same y x) xs) as [i|] eqn:Hi.
  - by destruct Hor.
  - exists (clone x). split; [left|apply clone_active].
Qed.

(** ** The invariant *)

Record a_inv c xs : Prop := {
  ai_state : match state_of c with
             | AgpsReleasedState => xs = []
             | AgpsPendingState | AgpsAcquiredState => first_of xs <> None
             | AgpsReleasingState => exists x, x ∈ xs /\ isInactive x = true
             end;
  ai_distinct : distinct xs;
  ai_single : mEnforceSingleSubscriber cf = true -> (length xs <= 1)%nat
}.

Hypothesis Hds : is_ds cf = false.

Lemma request_ok a xs c : (a_request cf a xs c).1 = 0.
Proof. unfold a_request. rewrite Hds. by destruct (first_of xs), a. Qed.

Lemma length_add x xs : (length (a_add x xs) <= 1 + length xs)%nat.
Proof. unfold a_add. destruct (find_index _ xs); simpl; lia. Qed.

Lemma subscribe_inv x c xs :
  sub_ok cf x = true -> a_inv c xs -> a_inv (a_subscribe cf x c xs).1 (a_subscribe cf x c xs).2.
Proof.
  intros Hx [Hst Hd Hs]. unfold a_subscribe. destruct (mEnforceSingleSubscriber cf && negb (bool_decide (xs = []))) eqn:Hen.
  { constructor; cbn [fst snd]; [by rewrite state_tell|done|done]. }
  pose proof (distinct_add x xs Hx Hd) as Hd'. pose proof (length_add x xs) as Hl.
  assert (mEnforceSingleSubscriber cf = true -> length (a_add x xs) <= 1)%nat as Hs'.
  { intros He. rewrite He in Hen. cbn [andb] in Hen. apply negb_false_iff, bool_decide_eq_true in Hen. subst xs. exact Hl. }
  destruct (state_of c) eqn:Ha.
  - subst xs. pose proof (request_ok GPS_REQUEST_AGPS_DATA_CONN (a_add x []) c) as Hr.
    destruct (a_request cf GPS_REQUEST_AGPS_DATA_CONN (a_add x []) c) as [r c'] eqn:Hreq. cbn [fst snd] in *. subst r. constructor; cbn [fst snd]; [|done|done].
    rewrite state_with. apply first_of_add. by right.
  - constructor; cbn [fst snd]; [|done|done]. rewrite Ha. apply first_of_add. by left.
  - constructor; cbn [fst snd]; [|done|done]. rewrite state_tell, Ha. apply first_of_add. by left.
  - constructor; cbn [fst snd]; [|done|done]. rewrite Ha. destruct Hst as (y & Hy & Hi). exists y. split; [|done]. unfold a_add.
    destruct (find_index _ xs); [done|by right].
Qed.

Lemma leave_inv i x c xs :
  distinct xs -> (mEnforceSingleSubscriber cf = true -> (length xs <= 1)%nat) ->
  distinct (a_leave cf i x c xs).2 /\ (mEnforceSingleSubscriber cf = true -> (length (a_leave cf i x c xs).2 <= 1)%nat) /\
  state_of (a_leave cf i x c xs).1 = state_of c.
Proof.
  intros Hd Hs. unfold a_leave. destruct (waitForCloseComplete x); cbn [fst snd].
  - split_and!; [by apply distinct_alter|by rewrite length_alter|]. destruct (class x); try done; by rewrite state_tell.
  - pose proof (sublist_delete xs i) as Hsub. split_and!; [by eapply distinct_sublist| |by rewrite state_tell].
    intros He. apply sublist_length in Hsub. specialize (Hs He). lia.
Qed.

(** Who is left when a member leaves. *)
Lemma leave_inactive i x c xs y :
  xs !! i = Some x -> y ∈ xs -> isInactive y = true -> exists z, z ∈ (a_leave cf i x c xs).2 /\ isInactive z = true.
Proof.
  intros Hx Hy Hi. unfold a_leave. destruct (waitForCloseComplete x) eqn:Hw; cbn [snd].
  - exists (deactivate x). split.
    + apply list_elem_of_lookup. exists i. by rewrite list_lookup_alter, decide_True, Hx.
    + unfold isInactive, deactivate, waitForCloseComplete in *. cbn [class mIsInactive]. by destruct (class x).
  - exists y. split; [|done]. pose proof (delete_Permutation xs i x Hx) as Hp. rewrite Hp in Hy. apply elem_of_cons in Hy as [->|]; [|done].
    unfold isInactive, waitForCloseComplete in *. by destruct (class x).
Qed.

(** When nobody active is left, the one who left waits for the end. *)
Lemma leave_releasing i x c xs :
  xs !! i = Some x -> first_of xs <> None -> (a_leave cf i x c xs).2 <> [] -> first_of (a_leave cf i x c xs).2 = None ->
  exists z, z ∈ (a_leave cf i x c xs).2 /\ isInactive z = true.
Proof.
  intros Hx _ Hne Hf. destruct ((a_leave cf i x c xs).2) as [|z l] eqn:Hl; [done|]. exists z. split; [left|].
  destruct (isInactive z) eqn:Hi; [done|]. exfalso. apply (proj2 (first_of_Some (z :: l))); [|exact Hf]. exists z. split; [left|done].
Qed.

Lemma unsubscribe_inv i x c xs :
  xs !! i = Some x -> a_inv c xs -> a_inv (a_unsubscribe_at cf i x c xs).1 (a_unsubscribe_at cf i x c xs).2.
Proof.
  intros Hx [Hst Hd Hs]. destruct (leave_inv i x c xs Hd Hs) as (Hd' & Hs' & Hst'). unfold a_unsubscribe_at.
  pose proof (leave_releasing i x c xs Hx) as Hrel. pose proof (leave_inactive i x c xs) as Hin.
  destruct (a_leave cf i x c xs) as [c' xs']. cbn [fst snd] in *. rewrite <- Hst' in Hst |- *. destruct (state_of c') eqn:Ha.
  - subst xs. by rewrite lookup_nil in Hx.
  - case_bool_decide; [by constructor|]. destruct (first_of xs') eqn:Hf; constructor; cbn [fst snd]; try done; [by rewrite Ha, Hf|]. by apply Hrel.
  - case_bool_decide; [by constructor|]. destruct (first_of xs') eqn:Hf; constructor; cbn [fst snd]; try done; [by rewrite Ha, Hf|]. by apply Hrel.
  - destruct Hst as (y & Hy & Hi). case_bool_decide; [by constructor|]. constructor; cbn [fst snd]; [|done|done]. rewrite Ha. by eapply Hin.
Qed.

Lemma a_step_inv st c xs : a_inv c xs -> a_inv (a_step cf st c xs).1 (a_step cf st c xs).2.
Proof.
  intros I. pose proof I as [Hst Hd Hs]. unfold a_step.
  assert (distinct (filter (fun x => is_active x) xs)) as Hd' by (eapply distinct_sublist; [apply sublist_filter|done]).
  assert (mEnforceSingleSubscriber cf = true -> length (filter (fun x => is_active x) xs) <= 1)%nat as Hs'.
  { intros He. specialize (Hs He). pose proof (length_filter (fun x => is_active x) xs). lia. }
  destruct (state_of c) eqn:Ha; [done|..]; destruct st; try exact I; try (by constructor).
  1-2: constructor; cbn [fst snd]; [done|done|simpl; lia].
  all: case_bool_decide as Hnil; (constructor; cbn [fst snd]; [|done|done]); rewrite state_with; [done|].
  all: intros Hf; by apply Hnil, first_of_active.
Qed.
End inv.
