(* ===== verification/AgpsProps.v ===== *)
(** * What the assisted-GPS state machines guarantee *)
From S2P Require Import Prelude Heap StateM LinkedList Agps AgpsSpec AgpsRun AgpsSim AgpsOps AgpsInv.
From stdpp Require Import base list gmap.
From Stdlib Require Import ZArith Lia.

Open Scope Z_scope.
Open Scope method_scope.

(** ** The invariant over operations *)

Section reachable.
Context {K A : Type} {E : AgpsEnv K} {G : AgpsMem A} {GL : AgpsMemLaws A} (cf : AgpsConf).
Implicit Types (c : agps_core K) (xs : list Subscriber).

Definition is_drop (op : agps_op) : bool := match op with OpDropAll => true | _ => false end.

Lemma inv_same_state c c' xs : state_of c' = state_of c -> a_inv cf c xs -> a_inv cf c' xs.
Proof. intros Hs [H1 H2 H3]. constructor; [by rewrite Hs|done|done]. Qed.

Lemma a_event_inv st c xs : is_ds cf = false -> a_inv cf c xs -> a_inv cf (a_event cf st c xs).1 (a_event cf st c xs).2.
Proof.
  intros Hds I. unfold a_event. destruct st; try done; try by apply a_step_inv. rewrite Hds. cbn [andb].
  pose proof (a_step_inv cf RSRC_RELEASED c xs I). by destruct (a_step cf RSRC_RELEASED c xs).
Qed.

Lemma a_op_inv op c xs c' xs' :
  is_ds cf = false -> op_ok cf op = true -> is_drop op = false -> a_inv cf c xs -> a_op cf op c xs = Some (c', xs') -> a_inv cf c' xs'.
Proof.
  intros Hds Hop Hnd I Ha. destruct op as [x|r|apn b|st| |]; cbn [a_op] in Ha.
  - pose proof (subscribe_inv cf Hds x c xs Hop I) as HI. injection Ha as Ha. by rewrite Ha in HI.
  - destruct (find_index (fun y => same y r) xs) as [i|] eqn:Hi; cbn [mbind option_bind] in Ha; [|by simplify_eq].
    destruct (xs !! i) as [x|] eqn:Hx; [|by simplify_eq]. destruct (leaves_dangling x c xs); [done|].
    unfold a_unsubscribe in Ha. rewrite Hi, Hx in Ha. cbn [snd] in Ha. pose proof (unsubscribe_inv cf i x c xs Hx I) as HI.
    injection Ha as Ha. by rewrite Ha in HI.
  - pose proof (a_event_inv RSRC_GRANTED (upd_machine (fun m => set_mAPN (Some apn) (Z.of_nat (length apn)) (set_mBearer b m)) c) xs Hds) as HI.
    cbn [a_event] in HI. injection Ha as Ha. rewrite Ha in HI. apply HI. eapply inv_same_state; [|exact I]. reflexivity.
  - pose proof (a_event_inv st c xs Hds I) as HI. injection Ha as Ha. by rewrite Ha in HI.
  - simplify_eq. eapply inv_same_state; [|exact I]. unfold a_retry. by destruct (first_of xs').
  - done.
Qed.

Lemma a_ops_inv ops c xs c' xs' :
  is_ds cf = false -> forallb (op_ok cf) ops = true -> existsb is_drop ops = false ->
  a_inv cf c xs -> a_ops cf ops c xs = Some (c', xs') -> a_inv cf c' xs'.
Proof.
  intros Hds. revert c xs. induction ops as [|op ops IH]; intros c xs Hops Hnd I Ha; [by simplify_eq/=|].
  apply andb_true_iff in Hops as [Hop Hops]. apply orb_false_iff in Hnd as [Hnd1 Hnd]. cbn [a_ops] in Ha.
  destruct (a_op cf op c xs) as [[c1 xs1]|] eqn:Ho; [|done]. cbn [mbind option_bind] in Ha. eapply IH; [done|done| |done].
  by eapply a_op_inv.
Qed.

Lemma new_inv (k : K) (a : A) : a_inv cf (core (new_machine k a)) [].
Proof. constructor; [done|done|simpl; lia]. Qed.
End reachable.

(** ** Requests to the connectivity service *)

Definition is_servicer (c : agps_call) : bool := match c with servicer_callback _ => true | _ => false end.

Section requests.
Context {K : Type} {E : AgpsEnv K} (cf : AgpsConf).
Implicit Types (c : agps_core K) (xs : list Subscriber).

(** The requests and releases sent so far. *)
Definition requests c : list agps_call := filter (fun x => is_servicer x) (calls c).

(** What an operation may send, by the states before and after. *)
Definition request_of (op : agps_op) (a a' : AgpsState) xs : list agps_call :=
  match op with
  | OpUnsubscribe _ =>
      match a, a' with
      | (AgpsPendingState | AgpsAcquiredState), (AgpsReleasedState | AgpsReleasingState) =>
          [servicer_callback (Some (nif_request cf GPS_RELEASE_AGPS_DATA_CONN None))]
      | _, _ => []
      end
  | _ =>
      if decide (a <> AgpsPendingState /\ a' = AgpsPendingState)
      then [servicer_callback (Some (nif_request cf GPS_REQUEST_AGPS_DATA_CONN (first_of xs)))] else []
  end.

Lemma requests_app c l : filter (fun x => is_servicer x) l = [] -> filter (fun x => is_servicer x) (calls c ++ l) = requests c.
Proof. intros Hl. by rewrite filter_app, Hl, app_nil_r. Qed.

Lemma requests_tell st x c : requests (tell cf st x c) = requests c.
Proof. apply requests_app. unfold told. by destruct (class x), st. Qed.

Lemma requests_tell_all st xs c : requests (tell_all cf st xs c) = requests c.
Proof.
  revert c. induction xs as [|x xs IH]; intros c; [done|]. change (requests (tell_all cf st xs (tell cf st x c)) = requests c).
  by rewrite IH, requests_tell.
Qed.

Lemma requests_with a c : requests (with_state a c) = requests c.
Proof. done. Qed.

Hypothesis Hds : is_ds cf = false.
Hypothesis Hserv : mServicer cf = servicerTypeAgps.

Lemma requests_request a xs c :
  requests (a_request cf a xs c).2 = requests c ++
    match first_of xs, a with
    | None, GPS_RELEASE_AGPS_DATA_CONN | Some _, GPS_REQUEST_AGPS_DATA_CONN => [servicer_callback (Some (nif_request cf a (first_of xs)))]
    | _, _ => []
    end.
Proof.
  unfold a_request, a_servicer. rewrite Hds, Hserv. destruct (first_of xs), a; cbn [snd]; try (by rewrite app_nil_r);
    unfold requests, add_call; cbn [calls]; by rewrite filter_app.
Qed.

Lemma requests_leave i x c xs : requests (a_leave cf i x c xs).1 = requests c.
Proof. unfold a_leave. destruct (waitForCloseComplete x); cbn [fst]; [destruct (class x); try done|]; apply requests_tell. Qed.

Lemma requests_unsubscribe i x r c xs :
  xs !! i = Some x -> a_inv cf c xs -> let '(c', xs') := a_unsubscribe_at cf i x c xs in
  requests c' = requests c ++ request_of (OpUnsubscribe r) (state_of c) (state_of c') xs'.
Proof.
  intros Hx [Hst Hd Hs]. unfold a_unsubscribe_at. pose proof (requests_leave i x c xs) as Hr.
  destruct (leave_inv cf i x c xs Hd Hs) as (_ & _ & Hst').
  destruct (a_leave cf i x c xs) as [c' xs']. cbn [fst snd] in *. destruct (state_of c) eqn:Ha.
  - subst xs. by rewrite lookup_nil in Hx.
  - case_bool_decide; [subst xs'|destruct (first_of xs') eqn:Hf];
      rewrite ?requests_with, ?state_with, ?requests_request, ?Hr, ?Hst', ?Hf, ?app_nil_r; done.
  - case_bool_decide; [subst xs'|destruct (first_of xs') eqn:Hf];
      rewrite ?requests_with, ?state_with, ?requests_request, ?Hr, ?Hst', ?Hf, ?app_nil_r; done.
  - case_bool_decide; by rewrite app_nil_r.
Qed.

(** What an operation other than an unsubscription sends. *)
Definition request_in (a a' : AgpsState) xs : list agps_call :=
  if decide (a <> AgpsPendingState /\ a' = AgpsPendingState)
  then [servicer_callback (Some (nif_request cf GPS_REQUEST_AGPS_DATA_CONN (first_of xs)))] else [].

Lemma request_in_same a xs : request_in a a xs = [].
Proof. unfold request_in. by rewrite decide_False by naive_solver. Qed.

Lemma requests_subscribe x c xs :
  a_inv cf c xs -> let '(c', xs') := a_subscribe cf x c xs in requests c' = requests c ++ request_in (state_of c) (state_of c') xs'.
Proof.
  intros [Hst Hd Hs]. unfold a_subscribe. destruct (mEnforceSingleSubscriber cf && negb (bool_decide (xs = []))).
  { by rewrite requests_tell, state_tell, request_in_same, app_nil_r. }
  destruct (state_of c) eqn:Ha.
  - subst xs. pose proof (request_ok cf Hds GPS_REQUEST_AGPS_DATA_CONN (a_add x []) c) as Hr.
    pose proof (requests_request GPS_REQUEST_AGPS_DATA_CONN (a_add x []) c) as Hq.
    pose proof (first_of_add x [] ltac:(by right)) as Hf. destruct (a_request cf GPS_REQUEST_AGPS_DATA_CONN (a_add x []) c) as [r c']. cbn [fst snd] in *.
    subst r. rewrite requests_with, state_with, Hq. unfold request_in. rewrite decide_True by done. by destruct (first_of (a_add x [])).
  - by rewrite Ha, request_in_same, app_nil_r.
  - by rewrite requests_tell, state_tell, Ha, request_in_same, app_nil_r.
  - by rewrite Ha, request_in_same, app_nil_r.
Qed.

Lemma requests_step st c xs :
  a_inv cf c xs -> let '(c', xs') := a_step cf st c xs in requests c' = requests c ++ request_in (state_of c) (state_of c') xs'.
Proof.
  intros [Hst Hd Hs]. unfold a_step. destruct (state_of c) eqn:Ha, st; rewrite ?Ha, ?request_in_same, ?app_nil_r; try done.
  1-3: by rewrite requests_with, requests_tell_all.
  all: pose proof (first_of_active xs) as Hf; case_bool_decide as Hn; rewrite requests_with, state_with, ?requests_request, requests_tell_all; [by rewrite app_nil_r|].
  all: unfold request_in; rewrite decide_True by done; destruct (first_of (filter (fun x => is_active x) xs)); [done|by destruct Hn; apply Hf].
Qed.

Lemma requests_event st c xs :
  a_inv cf c xs -> let '(c', xs') := a_event cf st c xs in requests c' = requests c ++ request_in (state_of c) (state_of c') xs'.
Proof.
  intros I. unfold a_event. destruct st; try (by rewrite request_in_same, app_nil_r); try by apply requests_step. rewrite Hds. cbn [andb].
  pose proof (requests_step RSRC_RELEASED c xs I). by destruct (a_step cf RSRC_RELEASED c xs).
Qed.

Lemma requests_op op c xs c' xs' :
  a_inv cf c xs -> a_op cf op c xs = Some (c', xs') -> requests c' = requests c ++ request_of op (state_of c) (state_of c') xs'.
Proof.
  intros I Ha. destruct op as [x|r|apn b|st| |]; cbn [a_op] in Ha.
  - pose proof (requests_subscribe x c xs I) as Hr. injection Ha as Ha. by rewrite Ha in Hr.
  - destruct (find_index (fun y => same y r) xs) as [i|] eqn:Hi; cbn [mbind option_bind] in Ha.
    + destruct (find_index_Some _ _ _ Hi) as (x & Hx & _). rewrite Hx in Ha. destruct (leaves_dangling x c xs); [done|].
      unfold a_unsubscribe in Ha. rewrite Hi, Hx in Ha. cbn [snd] in Ha. injection Ha as Ha.
      pose proof (requests_unsubscribe i x r c xs Hx I) as Hr. by rewrite Ha in Hr.
    + simplify_eq. cbn [request_of]. by destruct (state_of c'); rewrite app_nil_r.
  - set (c1 := upd_machine _ c) in Ha. pose proof (requests_event RSRC_GRANTED c1 xs (inv_same_state cf c c1 xs eq_refl I)) as Hr.
    injection Ha as Ha. cbn [a_event] in Hr. by rewrite Ha in Hr.
  - pose proof (requests_event st c xs I) as Hr. injection Ha as Ha. by rewrite Ha in Hr.
  - injection Ha as <- <-. assert (state_of (a_retry c xs) = state_of c) as -> by (unfold a_retry; by destruct (first_of xs)).
    cbn [request_of]. fold (request_in (state_of c) (state_of c) xs). rewrite request_in_same. unfold a_retry. destruct (first_of xs); [|by rewrite app_nil_r].
    rewrite app_nil_r. by apply requests_app.
  - injection Ha as <- <-. cbn [request_of]. fold (request_in (state_of c) (state_of c) []). by rewrite request_in_same, app_nil_r.
Qed.
End requests.

(** ** A concrete world *)

(** The answers of the servicer are given in advance; timers always start, and
    the allocator takes the first free address. *)
#[export] Instance sample_env : AgpsEnv (list Z) :=
  {| callbackExt _ k := match k with r :: k => (r, k) | [] => (0, []) end;
     loc_timer_start _ k := (true, k) |}.

#[export] Instance sample_mem : AgpsMem unit :=
  {| malloc_element h a := (Some (fresh (dom h)), a); new_object o a := (fresh (dom o), a) |}.

#[export] Instance sample_mem_laws : AgpsMemLaws unit.
Proof.
  split.
  - intros h a. exists (fresh (dom h)), a. split; [done|]. apply not_elem_of_dom, is_fresh.
  - intros o a. apply not_elem_of_dom, is_fresh.
Qed.

(** The machine of the modem's sessions, that of WiFi clients, and the emergency machine. *)
Definition agnss_conf : AgpsConf := {| is_ds := false; mServicer := servicerTypeAgps; mType := AGPS_TYPE_SUPL; mEnforceSingleSubscriber := false |}.
Definition wifi_conf : AgpsConf := {| is_ds := false; mServicer := servicerTypeAgps; mType := AGPS_TYPE_WIFI; mEnforceSingleSubscriber := true |}.
Definition ds_conf : AgpsConf := {| is_ds := true; mServicer := servicerTypeExt; mType := AGPS_TYPE_INVALID; mEnforceSingleSubscriber := false |}.

Definition atl (id : Z) : Subscriber := new_ATLSubscriber id false.
Definition quipc : Subscriber := new_WIFISubscriber (Some [119; 105]) None 0.
Definition msapm : Subscriber := new_WIFISubscriber None None 1.

Definition sample_session : list agps_op :=
  [OpSubscribe (atl 1); OpOpened [105; 110] 0; OpUnsubscribe (atl 1)].

(** ** The properties *)

Section properties.
Context {K A : Type} {E : AgpsEnv K} {G : AgpsMem A} {GL : AgpsMemLaws A} (cf : AgpsConf).

(** C25. Over any sequence of operations a machine does what the abstract machine
    does, which has neither pointers nor loops: it ends with the same core (state,
    fields, calls made) and its list holds the abstract members, no subscriber
    object is leaked, and it has undefined behaviour exactly when the abstract
    machine has none to offer. *)
Theorem agps_refines ops (k : K) (a : A) :
  conf_ok cf = true -> forallb (op_ok cf) ops = true ->
  match a_ops cf ops (core (new_machine k a)) [] with
  | Some (c, xs) =>
      exists s' ps, run_ops cf ops (new_machine k a) = Some (tt, s') /\ core s' = c /\ agps_rep s' ps xs [] /\ dom (objects s') = list_to_set ps
  | None => run_ops cf ops (new_machine k a) = None
  end.
Proof.
  intros Hcf Hops. pose proof (ops_refine cf Hcf ops (new_machine k a) [] [] (new_machine_rep k a) eq_refl Hops) as H.
  destruct (a_ops cf ops _ []) as [[c xs]|]; [|done]. destruct H as (s' & ps & Hs & R & Hc). exists s', ps. split_and!; [done|done|done|].
  rewrite (ar_dom _ _ _ _ R). by rewrite app_nil_r.
Qed.

(** C26. For a machine other than the emergency machine ([is_ds]), and as long as the
    modem is not restarted, the state of the machine fits its members: nobody is waiting in the released state, somebody active is there
    while the connection is asked for or held, and somebody waits for the end
    while it is released; no two members are the same, and a machine for one
    subscriber has at most one.  The emergency machine keeps a refused call as a member
    of the released state ([ds_refused_call_leaks]); a restart leaves an acquired state
    with nobody. *)
Theorem agps_state_invariant ops (k : K) (a : A) s' :
  is_ds cf = false -> forallb (op_ok cf) ops = true -> existsb is_drop ops = false ->
  run_ops cf ops (new_machine k a) = Some (tt, s') ->
  exists ps xs, agps_rep s' ps xs [] /\ a_inv cf (core s') xs.
Proof.
  intros Hds Hops Hnd Hrun. assert (conf_ok cf = true) as Hcf by (unfold conf_ok; by rewrite Hds).
  pose proof (ops_refine cf Hcf ops (new_machine k a) [] [] (new_machine_rep k a) eq_refl Hops) as H.
  destruct (a_ops cf ops _ []) as [[c xs]|] eqn:Ha; [|congruence]. destruct H as (s1 & ps & Hs & R & <-). rewrite Hrun in Hs. injection Hs as <-.
  exists ps, xs. split; [done|]. eapply a_ops_inv; [done|done|done|apply (new_inv cf k a)|exact Ha].
Qed.

(** C27. In a state with this invariant, an operation of a machine with a servicer of the
    AGPS type, other than the emergency machine, asks the connectivity service for the
    connection exactly when the machine enters the pending state, with the data of
    an active member, and gives it back exactly when an unsubscription takes it
    out of the pending or acquired state; it sends nothing else. *)
Theorem agps_request_discipline op (s s' : agps K A) ps xs :
  is_ds cf = false -> mServicer cf = servicerTypeAgps -> op_ok cf op = true -> forallb (sub_ok cf) xs = true ->
  agps_rep s ps xs [] -> a_inv cf (core s) xs -> run_op cf op s = Some (tt, s') ->
  exists ps' xs', agps_rep s' ps' xs' [] /\
    requests (core s') = requests (core s) ++ request_of cf op (state_of (core s)) (state_of (core s')) xs'.
Proof.
  intros Hds Hserv Hop Hxs R I Hrun. assert (conf_ok cf = true) as Hcf by (unfold conf_ok; by rewrite Hds).
  pose proof (op_refines cf Hcf op s ps xs R Hxs Hop) as H. destruct (a_op cf op (core s) xs) as [[c xs']|] eqn:Ha; [|congruence].
  destruct H as (s1 & ps' & Hs & R' & <-). rewrite Hrun in Hs. injection Hs as <-. exists ps', xs'. split; [done|].
  by apply (requests_op cf Hds Hserv op _ xs).
Qed.

Lemma a_op_single op (c : agps_core K) xs :
  mEnforceSingleSubscriber cf = true -> (length xs <= 1)%nat -> exists c' xs', a_op cf op c xs = Some (c', xs') /\ (length xs' <= 1)%nat.
Proof.
  intros He Hl. destruct op as [x|r|apn b|st| |]; cbn [a_op].
  - destruct (a_subscribe cf x c xs) as [c' xs'] eqn:Hs. exists c', xs'. split; [done|]. unfold a_subscribe in Hs. rewrite He in Hs. cbn [andb] in Hs.
    case_bool_decide as Hn; cbn [negb] in Hs; [|by simplify_eq]. subst xs. pose proof (length_add x []) as Hla. cbn [length] in Hla.
    destruct (state_of c); [destruct (a_request _ _ _ c)|..]; simplify_eq; done.
  - destruct (find_index (fun y => same y r) xs ≫= (xs !!.)) as [x|]; [|by exists c, xs].
    assert (leaves_dangling x c xs = false) as ->.
    { unfold leaves_dangling. destruct (Nat.ltb_spec 1 (length xs)); [lia|]. destruct (state_of c); try done; by rewrite andb_false_r. }
    destruct (a_unsubscribe cf r c xs) as [b [c' xs']] eqn:Hu. exists c', xs'. split; [done|].
    assert (length xs' <= length xs)%nat; [|lia]. revert Hu. unfold a_unsubscribe, a_unsubscribe_at, a_leave.
    pose proof (length_alter deactivate xs) as Hal. pose proof (fun i => sublist_length _ _ (sublist_delete xs i)) as Hdl.
    repeat case_match; intros; simplify_eq/=; rewrite ?Hal; (done || apply Hdl).
  - destruct (a_event cf RSRC_GRANTED _ xs) as [c' xs'] eqn:Hs. exists c', xs'. split; [done|]. cbn [a_event] in Hs. unfold a_step in Hs.
    destruct (state_of _); simplify_eq; done.
  - destruct (a_event cf st c xs) as [c' xs'] eqn:Hs. exists c', xs'. split; [done|].
    assert (forall st c xs, (length xs <= 1)%nat -> (length (a_step cf st c xs).2 <= 1)%nat) as Hstep.
    { intros st0 c0 xs0 Hl0. unfold a_step. pose proof (length_filter (fun x => is_active x) xs0).
      destruct (state_of c0), st0; cbn [snd]; try done; simpl; lia. }
    pose proof (Hstep st c xs Hl) as H1. revert Hs. unfold a_event. destruct st; try (by intros [= <- <-]); try (intros Hs; by rewrite Hs in H1).
    destruct (a_step cf RSRC_RELEASED c xs) as [c1 xs1]. case_match; [|by intros [= <- <-]]. intros Hs. pose proof (Hstep RSRC_DENIED c1 xs1 H1) as H2.
    by rewrite Hs in H2.
  - by eexists _, _.
  - eexists _, _. split; [done|]. simpl. lia.
Qed.

(** A machine for a single subscriber (that of WiFi clients) never uses a
    deleted subscriber: every sequence of operations, whoever comes and goes and
    whatever the connectivity service answers, is defined, and leaves at most one
    object. *)
Theorem agps_single_safe ops (k : K) (a : A) :
  conf_ok cf = true -> mEnforceSingleSubscriber cf = true -> forallb (op_ok cf) ops = true ->
  exists s', run_ops cf ops (new_machine k a) = Some (tt, s') /\ (size (objects s') <= 1)%nat.
Proof.
  intros Hcf He Hops. pose proof (ops_refine cf Hcf ops (new_machine k a) [] [] (new_machine_rep k a) eq_refl Hops) as H.
  assert (forall ops c xs, (length xs <= 1)%nat -> exists c' xs', a_ops cf ops c xs = Some (c', xs') /\ (length xs' <= 1)%nat) as Hall.
  { clear H Hops ops. intros ops. induction ops as [|op ops IH]; intros c xs Hl; [by exists c, xs|].
    destruct (a_op_single op c xs He Hl) as (c1 & xs1 & H1 & Hl1). cbn [a_ops]. rewrite H1. by apply IH. }
  destruct (Hall ops (core (new_machine k a)) []) as (c & xs & Ha & Hl); [simpl; lia|]. rewrite Ha in H.
  destruct H as (s' & ps & Hs & R & _). exists s'. split; [done|]. rewrite <- size_dom, (ar_dom _ _ _ _ R), app_nil_r, size_list_to_set.
  - by rewrite (rep_length _ _ _ _ R).
  - pose proof (ar_nodup _ _ _ _ R) as Hnd. by rewrite app_nil_r in Hnd.
Qed.

(** When a member that is not told to wait (a session of the modem, a
    request of the BIT daemon) unsubscribes while others stay, in any state with
    a connection asked for or held, the machine deletes it and then compares the
    others with the deleted object: undefined behaviour. *)
Theorem agps_unsubscribe_uaf (s : agps K A) ps xs r i x :
  conf_ok cf = true -> agps_rep s ps xs [] -> forallb (sub_ok cf) xs = true -> sub_ok cf r = true ->
  find_index (fun y => same y r) xs = Some i -> xs !! i = Some x ->
  waitForCloseComplete x = false -> (2 <= length xs)%nat -> state_of (core s) <> AgpsReleasedState ->
  run_op cf (OpUnsubscribe r) s = None.
Proof.
  intros Hcf R Hxs Hr Hi Hx Hw Hl Hst. cbn [run_op]. apply run_bind_ub. apply (unsubscribe_dangling cf r s ps xs i x); [done|done|done|done|done|].
  unfold leaves_dangling. rewrite Hw. destruct (Nat.ltb_spec 1 (length xs)); [|lia]. by destruct (state_of (core s)).
Qed.
End properties.

(** ** The emergency machine *)

Section emergency.
Context {K A : Type} {E : AgpsEnv K} {G : AgpsMem A} {GL : AgpsMemLaws A} (cf : AgpsConf).
Implicit Types (c : agps_core K) (xs : list Subscriber).

Definition retries c : Z := mRetries (machine c).
Definition retries_ok c : Prop := 0 <= retries c <= MAX_START_DATA_CALL_RETRIES.

Lemma retries_tell st x c : retries_ok c -> retries_ok (tell cf st x c).
Proof. intros H. unfold retries_ok, retries, tell, retries_told. cbn [machine]. destruct (class x), st; try exact H; cbn; unfold MAX_START_DATA_CALL_RETRIES; lia. Qed.

Lemma retries_tell_all st xs c : retries_ok c -> retries_ok (tell_all cf st xs c).
Proof.
  revert c. induction xs as [|x xs IH]; intros c H; [done|]. change (retries_ok (tell_all cf st xs (tell cf st x c))).
  by apply IH, retries_tell.
Qed.

Lemma retries_request a xs c : retries_ok c -> retries_ok (a_request cf a xs c).2.
Proof.
  intros H. assert (forall d, retries_ok (a_servicer cf d c).2) as Hs.
  { intros d. unfold a_servicer. destruct (mServicer cf); [done|done|]. by destruct (callbackExt d (world c)). }
  unfold a_request. destruct (is_ds cf); [|destruct (first_of xs), a; try exact H; apply Hs].
  specialize (Hs (DsCbData a)). destruct (a_servicer cf (DsCbData a) c) as [r c1]. cbn [snd] in Hs. unfold a_ds_result.
  set (h := match first_of xs with Some x => to_handle (ID x) | None => -1 end). assert (retries_ok (a_deny h c1)) as Hd
    by (unfold retries_ok, retries, MAX_START_DATA_CALL_RETRIES; simpl; lia).
  destruct (r =? _); [|destruct (_ || _); [exact Hd|exact Hs]].
  set (c2 := upd_machine (fun m => set_mRetries (uinc 8 (mRetries m)) m) c1).
  assert (retries c2 = retries c1 + 1) as Hr.
  { unfold retries_ok, retries, MAX_START_DATA_CALL_RETRIES in *. apply uinc_small; [lia|]. change (2 ^ 8) with 256. lia. }
  destruct (Z.ltb_spec MAX_START_DATA_CALL_RETRIES (mRetries (machine c2))) as [_|Hle].
  - unfold retries_ok, retries, MAX_START_DATA_CALL_RETRIES. simpl. lia.
  - destruct (loc_timer_start _ _) as [st k]. change (0 <= retries c2 <= MAX_START_DATA_CALL_RETRIES). unfold retries_ok in Hs. unfold retries in *. lia.
Qed.

Lemma retries_step st c xs : retries_ok c -> retries_ok (a_step cf st c xs).1.
Proof.
  intros H. pose proof (fun xs => retries_tell_all st xs c H) as Ht. unfold a_step.
  destruct (state_of c), st; cbn [fst]; try exact H; try apply Ht; case_bool_decide; try apply Ht; by apply retries_request.
Qed.

Lemma retries_op op c xs c' xs' : retries_ok c -> a_op cf op c xs = Some (c', xs') -> retries_ok c'.
Proof.
  intros H Ha. destruct op as [x|r|apn b|st| |]; cbn [a_op] in Ha.
  - injection Ha as Ha. unfold a_subscribe in Ha. destruct (mEnforceSingleSubscriber cf && _); [injection Ha as <- _; by apply retries_tell|].
    pose proof (retries_request GPS_REQUEST_AGPS_DATA_CONN (a_add x xs) c H) as Hr.
    destruct (state_of c); [destruct (a_request _ _ _ c)|..]; injection Ha as <- _; try done. by apply retries_tell.
  - destruct (_ ≫= _) as [x|]; [|by simplify_eq]. destruct (leaves_dangling x c xs); [done|]. injection Ha as Ha. unfold a_unsubscribe in Ha.
    destruct (find_index _ xs) as [i|]; [|by simplify_eq/=]. destruct (xs !! i) as [y|]; [|by simplify_eq/=]. cbn [snd] in Ha.
    assert (retries_ok (a_leave cf i y c xs).1) as Hl.
    { unfold a_leave. destruct (waitForCloseComplete y); cbn [fst]; [destruct (class y); try done|]; by apply retries_tell. }
    unfold a_unsubscribe_at in Ha. destruct (a_leave cf i y c xs) as [c1 xs1]. cbn [fst] in Hl.
    destruct (state_of c); [injection Ha as <- _; by apply retries_tell|..]; repeat case_match; injection Ha as <- _; try done; by apply retries_request.
  - injection Ha as Ha. assert (retries_ok (upd_machine (fun m => set_mAPN (Some apn) (Z.of_nat (length apn)) (set_mBearer b m)) c)) as H' by done.
    apply (retries_step RSRC_GRANTED _ xs) in H'. cbn [a_event] in Ha. by rewrite Ha in H'.
  - injection Ha as Ha. unfold a_event in Ha. pose proof (fun st => retries_step st c xs H) as Hs.
    destruct st; try (by injection Ha as <- _); try (specialize (Hs RSRC_GRANTED); by rewrite Ha in Hs); try (specialize (Hs RSRC_DENIED); by rewrite Ha in Hs).
    specialize (Hs RSRC_RELEASED). destruct (a_step cf RSRC_RELEASED c xs) as [c1 xs1]. cbn [fst] in Hs.
    case_match; [|by injection Ha as <- _]. apply (retries_step RSRC_DENIED c1 xs1) in Hs. by rewrite Ha in Hs.
  - injection Ha as <- _. unfold a_retry. by destruct (first_of xs).
  - by injection Ha as <- _.
Qed.

(** The emergency machine never counts more than four refusals of a data call:
    with the fifth it falls back to an ordinary session and counts from zero, so
    its 8-bit counter does not wrap around. *)
Theorem ds_retries_bounded ops (k : K) (a : A) s' :
  conf_ok cf = true -> forallb (op_ok cf) ops = true -> run_ops cf ops (new_machine k a) = Some (tt, s') ->
  0 <= mRetries (machine (core s')) <= MAX_START_DATA_CALL_RETRIES.
Proof.
  intros Hcf Hops Hrun. pose proof (ops_refine cf Hcf ops (new_machine k a) [] [] (new_machine_rep k a) eq_refl Hops) as H.
  assert (forall ops c xs c' xs', retries_ok c -> a_ops cf ops c xs = Some (c', xs') -> retries_ok c') as Hall.
  { clear. intros ops. induction ops as [|op ops IH]; intros c xs c' xs' H Ha; [by injection Ha as <- _|]. cbn [a_ops] in Ha.
    destruct (a_op cf op c xs) as [[c1 xs1]|] eqn:Ho; [|done]. cbn [mbind option_bind] in Ha. eapply IH; [|done]. by eapply retries_op. }
  destruct (a_ops cf ops _ []) as [[c xs]|] eqn:Ha; [|congruence]. destruct H as (s1 & ps & Hs & _ & <-). rewrite Hrun in Hs. injection Hs as <-.
  eapply (Hall ops); [|exact Ha]. unfold retries_ok, retries, MAX_START_DATA_CALL_RETRIES. simpl. lia.
Qed.

(** A refused emergency call stays a member for good: it falls back to an
    ordinary session and its own release does not take it out of the list.  From
    then on no data call is given back: a later emergency call that comes and
    goes leaves the machine in the acquired state, with two requests sent and no
    release. *)
Theorem ds_refused_call_leaks id1 id2 (k k1 k2 : K) (a : A) :
  is_ds cf = true -> mServicer cf = servicerTypeExt -> mEnforceSingleSubscriber cf = false ->
  trunc 32 id1 <> trunc 32 id2 -> trunc 32 id1 <> INADDR_NONE -> trunc 32 id2 <> INADDR_NONE ->
  callbackExt (DsCbData GPS_REQUEST_AGPS_DATA_CONN) k = (LOC_API_ADAPTER_ERR_UNSUPPORTED, k1) ->
  callbackExt (DsCbData GPS_REQUEST_AGPS_DATA_CONN) k1 = (LOC_API_ADAPTER_ERR_SUCCESS, k2) ->
  exists s' ps x2,
    run_ops cf [OpSubscribe (new_DSSubscriber id1); OpUnsubscribe (new_DSSubscriber id1);
                OpSubscribe (new_DSSubscriber id2); OpEvent RSRC_GRANTED; OpUnsubscribe (new_DSSubscriber id2)] (new_machine k a) = Some (tt, s') /\
    agps_rep s' ps [x2; new_DSSubscriber id1] [] /\ isInactive x2 = true /\ isInactive (new_DSSubscriber id1) = false /\
    state_of (core s') = AgpsAcquiredState /\
    requests (core s') = let q := servicer_callback (Some (DsCbData GPS_REQUEST_AGPS_DATA_CONN)) in [q; q].
Proof.
  intros Hds Hserv He Hne Hn1 Hn2 Hk Hk1.
  assert (forall id, trunc 32 (trunc 32 id) = trunc 32 id) as Htt by (intros id; by apply trunc_id, trunc_fits).
  assert (forall id, trunc 32 id <> INADDR_NONE -> sub_ok cf (new_DSSubscriber id) = true) as Hok.
  { intros id Hn. unfold sub_ok, new_DSSubscriber, new_Subscriber. cbn [class ID]. rewrite Hds, Htt, Z.eqb_refl. cbn [andb].
    apply negb_true_iff, Z.eqb_neq. congruence. }
  assert (conf_ok cf = true) as Hcf by (unfold conf_ok; by rewrite Hds, Hserv).
  set (x1 := new_DSSubscriber id1). set (x2 := new_DSSubscriber id2).
  assert (clone x1 = x1 /\ clone x2 = x2) as [Hc1 Hc2] by (unfold clone, x1, x2, new_DSSubscriber, new_Subscriber; cbn [class ID]; by rewrite !Htt).
  assert (same x1 x2 = false) as Hs12 by (unfold same; cbn [ID x1 x2 new_DSSubscriber new_Subscriber class]; rewrite andb_true_r; by apply Z.eqb_neq).
  set (ops := [_; _; _; _; _]). assert (forallb (op_ok cf) ops = true) as Hops 
    by (unfold ops; cbn [forallb op_ok]; by rewrite (Hok id1 Hn1 : sub_ok cf x1 = true), (Hok id2 Hn2 : sub_ok cf x2 = true)).
  pose proof (ops_refine cf Hcf ops (new_machine k a) [] [] (new_machine_rep k a) eq_refl Hops) as H.
  set (q := servicer_callback (Some (DsCbData GPS_REQUEST_AGPS_DATA_CONN))).
  set (c0 := core (new_machine k a)) in H.
  set (c1 := {| machine := machine c0; calls := [q; requestATL (to_handle (ID x1)) AGPS_TYPE_SUPL]; world := k1 |}).
  assert (a_op cf (OpSubscribe x1) c0 [] = Some (c1, [x1])) as H1.
  { cbn [a_op]. unfold a_subscribe. rewrite He. cbn [andb]. change (state_of c0) with AgpsReleasedState. cbv iota. unfold a_add. cbn [find_index]. rewrite Hc1.
    unfold a_request, a_servicer. rewrite Hds, Hserv. change (world c0) with k. rewrite Hk. done. }
  set (c2 := tell cf RSRC_UNSUBSCRIBE x1 c1).
  assert (a_op cf (OpUnsubscribe x1) c1 [x1] = Some (c2, [x1])) as H2.
  { cbn [a_op find_index]. rewrite same_refl. cbn. unfold a_unsubscribe. cbn [find_index]. rewrite same_refl. done. }
  set (c3 := with_state AgpsPendingState {| machine := machine c2; calls := calls c2 ++ [q]; world := k2 |}).
  assert (a_op cf (OpSubscribe x2) c2 [x1] = Some (c3, [x2; x1])) as H3.
  { cbn [a_op]. unfold a_subscribe. rewrite He. cbn [andb]. change (state_of c2) with AgpsReleasedState. cbv iota. unfold a_add. cbn [find_index].
    rewrite Hs12. cbn [fmap option_fmap option_map]. rewrite Hc2.
    unfold a_request, a_servicer. rewrite Hds, Hserv. change (world c2) with k1. rewrite Hk1. done. }
  set (c4 := with_state AgpsAcquiredState (tell_all cf RSRC_GRANTED [x2; x1] c3)).
  assert (a_op cf (OpEvent RSRC_GRANTED) c3 [x2; x1] = Some (c4, [x2; x1])) as H4 by done.
  set (c5 := tell cf RSRC_UNSUBSCRIBE x2 c4).
  assert (a_op cf (OpUnsubscribe x2) c4 [x2; x1] = Some (c5, [deactivate x2; x1])) as H5.
  { cbn [a_op find_index]. rewrite same_refl. cbn. unfold a_unsubscribe. cbn [find_index]. rewrite same_refl. done. }
  unfold ops in H. cbn [a_ops] in H. fold ops in H. rewrite H1 in H. cbn [mbind option_bind] in H. rewrite H2 in H. cbn [mbind option_bind] in H.
  rewrite H3 in H. cbn [mbind option_bind] in H. rewrite H4 in H. cbn [mbind option_bind] in H. rewrite H5 in H. cbn [mbind option_bind] in H.
  destruct H as (s' & ps & Hs & R & Hc). exists s', ps, (deactivate x2). rewrite Hc. split_and!; done.
Qed.
End emergency.

(** ** Witnesses *)

(** A session of the modem: open, and close. *)
Lemma agps_refines_witness :
  exists s' ps, run_ops agnss_conf sample_session (new_machine [] tt) = Some (tt, s') /\
    calls (core s') =
      [servicer_callback (Some (nif_request agnss_conf GPS_REQUEST_AGPS_DATA_CONN (Some (atl 1))));
       atlOpenStatus 1 1 (Some [105; 110]) 0 AGPS_TYPE_SUPL; atlCloseStatus 1 1;
       servicer_callback (Some (nif_request agnss_conf GPS_RELEASE_AGPS_DATA_CONN None))] /\
    dom (objects s') = list_to_set ps.
Proof.
  pose proof (agps_refines agnss_conf sample_session [] tt eq_refl eq_refl) as H. destruct (a_ops agnss_conf sample_session _ []) as [[c xs]|] eqn:Ha.
  - destruct H as (s' & ps & Hs & Hc & _ & Hd). exists s', ps. split_and!; [done| |done]. rewrite Hc. vm_compute in Ha. by injection Ha as <- _.
  - exfalso. vm_compute in Ha. discriminate.
Defined.

Lemma agps_state_invariant_witness :
  exists s' ps xs, run_ops wifi_conf [OpSubscribe quipc; OpOpened [] 1; OpUnsubscribe quipc] (new_machine [] tt) = Some (tt, s') /\
    state_of (core s') = AgpsReleasingState /\ agps_rep s' ps xs [] /\ a_inv wifi_conf (core s') xs.
Proof.
  destruct (run_ops wifi_conf [OpSubscribe quipc; OpOpened [] 1; OpUnsubscribe quipc] (new_machine [] tt)) as [[[] s']|] eqn:Hr.
  - destruct (agps_state_invariant wifi_conf [OpSubscribe quipc; OpOpened [] 1; OpUnsubscribe quipc] [] tt s' eq_refl eq_refl eq_refl Hr) as (ps & xs & R & I).
    exists s', ps, xs. split; [done|]. split; [|done]. vm_compute in Hr. by injection Hr as <-.
  - exfalso. vm_compute in Hr. discriminate.
Defined.

(** The machine that waits for the connection of one session. *)
Definition sample_pending : option (unit * agps (list Z) unit) := run_ops agnss_conf [OpSubscribe (atl 1)] (new_machine [] tt).

Lemma agps_request_discipline_witness :
  exists (s s' : agps (list Z) unit) ps xs ps' xs', sample_pending = Some (tt, s) /\ agps_rep s ps xs [] /\ agps_rep s' ps' xs' [] /\
    requests (core s') = requests (core s) ++ [servicer_callback (Some (nif_request agnss_conf GPS_RELEASE_AGPS_DATA_CONN None))].
Proof.
  pose proof (op_refines agnss_conf eq_refl (OpSubscribe (atl 1)) (new_machine [] tt) [] [] (new_machine_rep [] tt) eq_refl eq_refl) as (s & ps & Hs & R & Hc).
  change (a_subscribe agnss_conf (atl 1) (core (new_machine (K := list Z) (A := unit) [] tt)) []).2 with [atl 1] in R.
  pose proof (a_op_inv agnss_conf (OpSubscribe (atl 1)) (core (new_machine (K := list Z) (A := unit) [] tt)) [] _ _ eq_refl eq_refl eq_refl (new_inv agnss_conf [] tt) eq_refl) as I.
  pose proof (op_refines agnss_conf eq_refl (OpUnsubscribe (atl 1)) s ps [atl 1] R eq_refl eq_refl) as Hu. rewrite Hc in Hu.
  destruct Hu as (s' & ps2 & Hs' & R' & Hc').
  destruct (agps_request_discipline agnss_conf (OpUnsubscribe (atl 1)) s s' ps [atl 1] eq_refl eq_refl eq_refl eq_refl R ltac:(by rewrite Hc) Hs')
    as (ps' & xs' & R2 & Hr).
  exists s, s', ps, [atl 1], ps', xs'. split_and!; [|done|done|].
  - unfold sample_pending. cbn [run_ops]. by rewrite (run_bind _ _ _ _ _ Hs).
  - rewrite Hr. f_equal. by rewrite Hc, Hc'.
Defined.

Lemma agps_single_safe_witness :
  exists s', run_ops wifi_conf [OpSubscribe quipc; OpSubscribe msapm; OpUnsubscribe msapm; OpOpened [] 1; OpUnsubscribe quipc] (new_machine [] tt) = Some (tt, s') /\
    (size (objects s') <= 1)%nat.
Proof. apply (agps_single_safe wifi_conf); reflexivity. Defined.

(** Two sessions of the modem, of which one ends. *)
Lemma agps_unsubscribe_uaf_witness :
  run_ops agnss_conf [OpSubscribe (atl 1); OpSubscribe (atl 2); OpUnsubscribe (atl 1)] (new_machine [] tt) = None.
Proof.
  pose proof (ops_refine agnss_conf eq_refl [OpSubscribe (atl 1); OpSubscribe (atl 2)] (new_machine [] tt) [] [] (new_machine_rep [] tt) eq_refl eq_refl)
    as (s & ps & Hs & R & Hc).
  assert (run_op agnss_conf (OpUnsubscribe (atl 1)) s = None) as Hu.
  { eapply (agps_unsubscribe_uaf agnss_conf s ps _ (atl 1) 1 (atl 1) eq_refl R); try reflexivity. by rewrite Hc. }
  cbn [run_ops] in Hs |- *. unfold bind in *. destruct (run_op agnss_conf (OpSubscribe (atl 1)) _) as [[[] s1]|]; [|done].
  destruct (run_op agnss_conf (OpSubscribe (atl 2)) s1) as [[[] s2]|]; [|done]. injection Hs as <-. by rewrite Hu.
Defined.

Lemma ds_retries_bounded_witness :
  exists s', run_ops ds_conf (repeat (OpSubscribe (new_DSSubscriber 7)) 6) (new_machine [6; 6; 6; 6; 6; 6] tt) = Some (tt, s') /\
    mRetries (machine (core s')) = 1 /\ 0 <= mRetries (machine (core s')) <= MAX_START_DATA_CALL_RETRIES.
Proof.
  destruct (run_ops ds_conf (repeat (OpSubscribe (new_DSSubscriber 7)) 6) (new_machine [6; 6; 6; 6; 6; 6] tt)) as [[[] s']|] eqn:Hr.
  - exists s'. split; [done|]. split; [|by apply (ds_retries_bounded ds_conf (repeat (OpSubscribe (new_DSSubscriber 7)) 6) [6; 6; 6; 6; 6; 6] tt s' eq_refl eq_refl Hr)]. vm_compute in Hr. by injection Hr as <-.
  - exfalso. vm_compute in Hr. discriminate.
Defined.

Lemma ds_refused_call_leaks_witness :
  exists s' ps x2,
    run_ops ds_conf [OpSubscribe (new_DSSubscriber 1); OpUnsubscribe (new_DSSubscriber 1);
                     OpSubscribe (new_DSSubscriber 2); OpEvent RSRC_GRANTED; OpUnsubscribe (new_DSSubscriber 2)] (new_machine [2; 0] tt) = Some (tt, s') /\
    agps_rep s' ps [x2; new_DSSubscriber 1] [] /\ isInactive x2 = true /\ isInactive (new_DSSubscriber 1) = false /\
    state_of (core s') = AgpsAcquiredState /\
    requests (core s') = let q := servicer_callback (Some (DsCbData GPS_REQUEST_AGPS_DATA_CONN)) in [q; q].
Proof. by apply (ds_refused_call_leaks ds_conf 1 2 [2; 0] [0] []). Defined.
