(* ===== verification/MsgQ.v ===== *)
(** * The message queue of the GPS utilities ([gps/utils/msg_q.c], [msg_q.h])

    A message queue is a linked list behind a mutex, with a condition variable
    for threads that wait for a message.  The first part translates the functions
    of [msg_q.c], each without its locking; the second the threads: what runs
    under the mutex is one step, [pthread_cond_wait] ends it and puts the thread
    to sleep, and a thread that is woken, by a signal or for no reason, goes on in
    a step of its own.  [MsgTask] sends and receives through these functions. *)
From S2P Require Import Prelude Heap StateM LinkedList.
From stdpp Require Import base list gmap sets.
From Stdlib Require Import ZArith Lia.

Open Scope Z_scope.
Open Scope method_scope.

(** [msq_q_err_type] *)
Definition eMSG_Q_SUCCESS : Z := 0.
Definition eMSG_Q_FAILURE_GENERAL : Z := -1.
Definition eMSG_Q_INVALID_PARAMETER : Z := -2.
Definition eMSG_Q_INVALID_HANDLE : Z := -3.
Definition eMSG_Q_UNAVAILABLE_RESOURCE : Z := -4.
Definition eMSG_Q_INSUFFICIENT_BUFFER : Z := -5.

Definition convert_linked_list_err_type (linked_list_val : Z) : Z :=
  if linked_list_val =? eLINKED_LIST_SUCCESS then eMSG_Q_SUCCESS else
  if linked_list_val =? eLINKED_LIST_INVALID_PARAMETER then eMSG_Q_INVALID_PARAMETER else
  if linked_list_val =? eLINKED_LIST_INVALID_HANDLE then eMSG_Q_INVALID_HANDLE else
  if linked_list_val =? eLINKED_LIST_UNAVAILABLE_RESOURCE then eMSG_Q_UNAVAILABLE_RESOURCE else
  if linked_list_val =? eLINKED_LIST_INSUFFICIENT_BUFFER then eMSG_Q_INSUFFICIENT_BUFFER else
  eMSG_Q_FAILURE_GENERAL.

(** The function that frees a message. *)
Inductive dealloc_msg := LocMsgDestroy.

(** [struct msg_q] without the mutex and the condition variable; [freed] records
    the messages freed through their function. *)
Record msg_q := { msg_list : ll_mem dealloc_msg; unblocked : bool; freed : list (option loc) }.

#[export] Instance msg_q_list : HasList dealloc_msg msg_q :=
  {| ll_get := msg_list; ll_put m q := {| msg_list := m; unblocked := unblocked q; freed := freed q |} |}.

#[export] Instance msg_q_list_laws : HasListLaws dealloc_msg msg_q.
Proof. by split; [..|intros []|]. Qed.

Definition free_msg (f : dealloc_msg) (d : option loc) : M msg_q unit :=
  modify (fun q => {| msg_list := msg_list q; unblocked := unblocked q; freed := freed q ++ [d] |}).

Definition is_unblocked : M msg_q bool := let* q := get in ret (unblocked q).

(** [msg_q_init] with the outcomes of its allocations and initialisations. *)
Definition new_msg_q : msg_q := {| msg_list := {| list_data := None; ll_elems := ∅ |}; unblocked := false; freed := [] |}.

Definition msg_q_init (msg_q_data calloc calloc_list mutex_init cond_init : bool) : option (Z * option msg_q) :=
  if negb msg_q_data then Some (eMSG_Q_INVALID_PARAMETER, None) else
  if negb calloc then Some (eMSG_Q_FAILURE_GENERAL, None) else
  match linked_list_init true calloc_list new_msg_q with
  | None => None
  | Some (r, q) =>
      if negb (r =? 0) then Some (eMSG_Q_FAILURE_GENERAL, None) else
      if negb mutex_init || negb cond_init then
        match linked_list_destroy free_msg true q with
        | None => None
        | Some _ => Some (eMSG_Q_FAILURE_GENERAL, None)
        end
      else Some (eMSG_Q_SUCCESS, Some {| msg_list := msg_list q; unblocked := false; freed := freed q |})
  end.

Definition msg_q_destroy (msg_q_data : bool) : M msg_q Z :=
  if negb msg_q_data then ret eMSG_Q_INVALID_HANDLE else
  linked_list_destroy free_msg true >>
  modify (fun q => {| msg_list := msg_list q; unblocked := false; freed := freed q |}) >>
  ret eMSG_Q_SUCCESS.

(** [msg_q_snd]: the result also tells whether the condition is signalled. *)
Definition msg_q_snd (elem msg_obj : option loc) (dealloc : option dealloc_msg) : M msg_q (Z * bool) :=
  match msg_obj with
  | None => ret (eMSG_Q_INVALID_PARAMETER, false)
  | Some _ =>
      let* u := is_unblocked in
      if u : bool then ret (eMSG_Q_UNAVAILABLE_RESOURCE, false)
      else
        let* r := linked_list_add elem msg_obj dealloc in
        ret (convert_linked_list_err_type r, true)
  end.

(** [msg_q_rcv] from the loop on: [None] is a call of [pthread_cond_wait]. *)
Definition rcv_loop : M msg_q (option (Z * option loc)) :=
  let* e := linked_list_empty in
  let* u := is_unblocked in
  if negb (e =? 0) && negb u then ret None
  else
    let* r := linked_list_remove true in
    ret (Some (convert_linked_list_err_type (fst r), snd r)).

Definition msg_q_rcv : M msg_q (option (Z * option loc)) :=
  let* u := is_unblocked in
  if u : bool then ret (Some (eMSG_Q_UNAVAILABLE_RESOURCE, None)) else rcv_loop.

Definition msg_q_flush : M msg_q Z :=
  let* r := linked_list_flush free_msg in ret (convert_linked_list_err_type r).

(** [msg_q_unblock]: the result also tells whether all waiters are woken. *)
Definition msg_q_unblock : M msg_q (Z * bool) :=
  let* u := is_unblocked in
  if u : bool then ret (eMSG_Q_UNAVAILABLE_RESOURCE, false)
  else
    modify (fun q => {| msg_list := msg_list q; unblocked := true; freed := freed q |}) >>
    ret (eMSG_Q_SUCCESS, true).

(** ** Threads *)

(** What the threads observed, in the order of their critical sections. *)
Inductive q_event :=
  | Received (thread : nat) (msg : loc)
  | Failed (thread : nat) (code : Z)
  | Flushed (msgs : list loc).

Record q_sys := mk_sys {
  queue : msg_q;
  waiting : gset nat;
  woken : gset nat;
  sent : list loc;
  events : list q_event
}.

Definition sleep (t : nat) (q : msg_q) (s : q_sys) : q_sys :=
  {| queue := q; waiting := {[t]} ∪ waiting s; woken := woken s ∖ {[t]}; sent := sent s; events := events s |}.
Definition leave_rcv (t : nat) (q : msg_q) (r : Z * option loc) (s : q_sys) : q_sys :=
  {| queue := q; waiting := waiting s ∖ {[t]}; woken := woken s ∖ {[t]}; sent := sent s;
     events := events s ++ [match r with (0, Some m) => Received t m | (c, _) => Failed t c end] |}.

(** [pthread_cond_signal] wakes a thread if one waits; no thread is chosen otherwise. *)
Definition signal (t : option nat) (s s' : q_sys) : Prop :=
  match t with
  | Some t => t ∈ waiting s /\
      s' = {| queue := queue s; waiting := waiting s ∖ {[t]}; woken := {[t]} ∪ woken s; sent := sent s; events := events s |}
  | None => waiting s = ∅ /\ s' = s
  end.

Definition broadcast_all (s : q_sys) : q_sys :=
  {| queue := queue s; waiting := ∅; woken := woken s ∪ waiting s; sent := sent s; events := events s |}.

Definition with_queue (q : msg_q) (s : q_sys) : q_sys :=
  {| queue := q; waiting := waiting s; woken := woken s; sent := sent s; events := events s |}.
Definition add_sent (m : loc) (s : q_sys) : q_sys :=
  {| queue := queue s; waiting := waiting s; woken := woken s; sent := sent s ++ [m]; events := events s |}.
Definition add_event (e : q_event) (s : q_sys) : q_sys :=
  {| queue := queue s; waiting := waiting s; woken := woken s; sent := sent s; events := events s ++ [e] |}.

(** The messages in the list, oldest first. *)
Fixpoint data_of (fuel : nat) (p : option loc) (h : gmap loc (list_element dealloc_msg)) : list loc :=
  match p, fuel with
  | Some l, S fuel =>
      match h !! l with
      | Some e => data_of fuel (next e) h ++ (match data_ptr e with Some d => [d] | None => [] end)
      | None => []
      end
  | _, _ => []
  end.
Definition pending (q : msg_q) : list loc :=
  match list_data (msg_list q) with Some pl => data_of (size (ll_elems (msg_list q))) (p_head pl) (ll_elems (msg_list q)) | None => [] end.

Inductive q_step (s : q_sys) : q_sys -> Prop :=
  | step_snd elem m f q b t s' :
      ll_elems (msg_list (queue s)) !! elem = None ->
      msg_q_snd (Some elem) (Some m) f (queue s) = Some ((eMSG_Q_SUCCESS, b), q) ->
      (if b : bool then signal t (add_sent m (with_queue q s)) s' else s' = add_sent m (with_queue q s)) -> q_step s s'
  | step_snd_fail elem m f c b q t s' :
      (forall l, elem = Some l -> ll_elems (msg_list (queue s)) !! l = None) ->
      msg_q_snd elem m f (queue s) = Some ((c, b), q) -> c <> eMSG_Q_SUCCESS ->
      (if b : bool then signal t (with_queue q s) s' else s' = with_queue q s) -> q_step s s'
  | step_rcv_wait t q :
      t ∉ waiting s ∪ woken s -> msg_q_rcv (queue s) = Some (None, q) -> q_step s (sleep t q s)
  | step_rcv t q r :
      t ∉ waiting s ∪ woken s -> msg_q_rcv (queue s) = Some (Some r, q) -> q_step s (leave_rcv t q r s)
  | step_wake_wait t q :
      t ∈ waiting s ∪ woken s -> rcv_loop (queue s) = Some (None, q) -> q_step s (sleep t q s)
  | step_wake t q r :
      t ∈ waiting s ∪ woken s -> rcv_loop (queue s) = Some (Some r, q) -> q_step s (leave_rcv t q r s)
  | step_flush q c :
      msg_q_flush (queue s) = Some (c, q) -> q_step s (add_event (Flushed (pending (queue s))) (with_queue q s))
  | step_unblock q c b :
      msg_q_unblock (queue s) = Some ((c, b), q) ->
      q_step s (if b : bool then broadcast_all (with_queue q s) else with_queue q s).

Inductive q_reachable : q_sys -> Prop :=
  | reach_new q :
      msg_q_init true true true true true = Some (eMSG_Q_SUCCESS, Some q) ->
      q_reachable {| queue := q; waiting := ∅; woken := ∅; sent := []; events := [] |}
  | reach_step s s' : q_reachable s -> q_step s s' -> q_reachable s'.

(** ** The queue holds a list of messages *)

Definition el_msg (x : loc * (option loc * option dealloc_msg)) : option loc := x.2.1.

(** The queue holds [ms], oldest first. *)
Definition q_rep (q : msg_q) (ms : list loc) : Prop :=
  exists ls, list_rep (msg_list q) ls /\ map el_msg ls = Some <$> reverse ms.

Section runs.
Implicit Types (q : msg_q) (ms : list loc).

Lemma put_list q : ll_put (msg_list q) q = q.
Proof. by destruct q. Qed.

Lemma is_unblocked_run q : is_unblocked q = Some (unblocked q, q).
Proof. done. Qed.

Lemma reverse_eq_nil ms : reverse ms = [] <-> ms = [].
Proof. split; [|by intros ->]. intros H. by rewrite <- (reverse_involutive ms), H. Qed.

Lemma q_rep_nil q ms ls : map el_msg ls = Some <$> reverse ms -> ls = [] <-> ms = [].
Proof.
  intros H. split.
  - intros ->. symmetry in H. apply fmap_nil_inv in H. by apply reverse_eq_nil.
  - intros ->. by destruct ls.
Qed.

Lemma data_of_dseg h pv p ls lst fuel :
  dseg h pv p ls None lst -> (length ls <= fuel)%nat -> data_of fuel p h = reverse (omap id (map el_msg ls)).
Proof.
  revert pv p fuel. induction ls as [|[l [d f]] ls IH]; intros pv p fuel; simpl.
  - intros [-> _] _. by destruct fuel.
  - intros [-> (e & He & [= Hd _] & _ & Hs)] Hf. destruct fuel as [|fuel]; [lia|]. simpl. rewrite He, (IH _ _ _ Hs) by lia. rewrite Hd.
    destruct d; simpl; [by rewrite reverse_cons|by rewrite app_nil_r].
Qed.

Lemma pending_rep q ms : q_rep q ms -> pending q = ms.
Proof.
  intros (ls & R & Hls). unfold pending. destruct (lr_seg _ _ R) as (pl & Hpl & Hs). rewrite Hpl, (data_of_dseg _ _ _ _ _ _ Hs) by by rewrite (list_rep_size _ _ R).
  rewrite Hls. assert (forall l : list loc, omap id (Some <$> l) = l) as -> by (intros l; induction l; [done|]; csimpl; congruence).
  apply reverse_involutive.
Qed.

Lemma empty_run q ms : q_rep q ms -> linked_list_empty q = Some (if decide (ms = []) then 1 else 0, q).
Proof.
  intros (ls & R & Hls). pose proof (linked_list_empty_run (S := msg_q) _ _ q R) as He. rewrite put_list in He. rewrite He. do 2 f_equal.
  pose proof (q_rep_nil q ms ls Hls). repeat case_decide; naive_solver.
Qed.

Lemma snd_run q ms elem m f :
  q_rep q ms -> unblocked q = false -> ll_elems (msg_list q) !! elem = None ->
  exists q', msg_q_snd (Some elem) (Some m) f q = Some ((eMSG_Q_SUCCESS, true), q') /\ q_rep q' (ms ++ [m]) /\ unblocked q' = false.
Proof.
  intros (ls & R & Hls) Hu He. unfold msg_q_snd. rewrite (run_bind _ _ _ _ _ (is_unblocked_run q)), Hu.
  destruct (wp_run (linked_list_add (Some elem) (Some m) f) (fun r q' => r = eLINKED_LIST_SUCCESS /\ exists m', list_rep m' ((elem, (Some m, f)) :: ls) /\ q' = ll_put m' q)
    (ll_put (msg_list q) q)) as (r & q' & Hr & -> & m' & Hm' & ->); [eapply wp_linked_list_add; eauto|]. rewrite put_list in Hr.
  rewrite (run_bind _ _ _ _ _ Hr). eexists. split; [done|]. split; [|done]. exists ((elem, (Some m, f)) :: ls). split; [done|].
  rewrite reverse_app. simpl. by rewrite Hls.
Qed.

Lemma rcv_loop_run q ms :
  q_rep q ms ->
  match ms with
  | [] => rcv_loop q = Some (if unblocked q then Some (eMSG_Q_UNAVAILABLE_RESOURCE, None) else None, q)
  | m :: ms => exists q', rcv_loop q = Some (Some (eMSG_Q_SUCCESS, Some m), q') /\ q_rep q' ms /\ unblocked q' = unblocked q
  end.
Proof.
  intros R. pose proof (empty_run q ms R) as He. destruct R as (ls & R & Hls). unfold rcv_loop. rewrite (run_bind _ _ _ _ _ He), (run_bind _ _ _ _ _ (is_unblocked_run q)). destruct ms as [|m ms].
  - destruct (unblocked q) eqn:Hu; [|done]. assert (ls = []) as -> by (by apply (q_rep_nil q [] ls Hls)).
    destruct (wp_run (linked_list_remove true) (fun r q' => r = (eLINKED_LIST_UNAVAILABLE_RESOURCE, None) /\ q' = ll_put (msg_list q) q) (ll_put (msg_list q) q))
      as (r & q' & Hr & -> & ->); [by apply wp_linked_list_remove_empty|]. rewrite put_list in Hr. simpl. by rewrite (run_bind _ _ _ _ _ Hr).
  - rewrite reverse_cons, fmap_app in Hls. destruct ls as [|[l [d f]] ls _] using rev_ind; [by destruct (Some <$> reverse ms)|].
    rewrite map_app in Hls. apply app_inj_2 in Hls as [Hls [= Hd]]; [|done]. unfold el_msg in Hd. simpl in Hd. subst d.
    destruct (wp_run (linked_list_remove true) (fun r q' => r = (eLINKED_LIST_SUCCESS, Some m) /\ exists m', list_rep m' ls /\ q' = ll_put m' q) (ll_put (msg_list q) q))
      as (r & q' & Hr & -> & m' & Hm' & ->); [eapply wp_linked_list_remove; eauto|]. rewrite put_list in Hr. rewrite decide_False by done. simpl. rewrite (run_bind _ _ _ _ _ Hr).
    eexists. split; [done|]. split; [by exists ls|done].
Qed.

Lemma flush_run q ms : q_rep q ms -> exists q', msg_q_flush q = Some (eMSG_Q_SUCCESS, q') /\ q_rep q' [] /\ unblocked q' = unblocked q.
Proof.
  intros (ls & R & Hls). assert (forall f d, ll_frame (free_msg f d)) as Hfr by done.
  assert (forall ds, exists q', dealloc_all free_msg ds q = Some (tt, q') /\ unblocked q' = unblocked q /\ msg_list q' = msg_list q) as Hda.
  { clear. intros ds. revert q. induction ds as [|[d [f|]] ds IH]; intros q; [by exists q| |].
    - destruct (IH {| msg_list := msg_list q; unblocked := unblocked q; freed := freed q ++ [d] |}) as (q' & Hq & ? & ?). by exists q'.
    - destruct (IH q) as (q' & Hq & ? & ?). by exists q'. }
  destruct (Hda ls.*2) as (q1 & Hd & Hu & Hm). pose proof (linked_list_flush_spec (S := msg_q) free_msg (msg_list q) ls q Hfr R) as Hf.
  rewrite Hd, put_list in Hf. destruct Hf as (m' & Hm' & Hf). unfold msg_q_flush. rewrite (run_bind _ _ _ _ _ Hf).
  eexists. split; [done|]. split; [by exists []|done].
Qed.

Lemma snd_fail_run q ms elem m f c b q' :
  q_rep q ms -> (forall l, elem = Some l -> ll_elems (msg_list q) !! l = None) -> msg_q_snd elem m f q = Some ((c, b), q') -> c <> eMSG_Q_SUCCESS -> q' = q.
Proof.
  intros R Hf Hs Hc. destruct m as [m|]; [|by unfold msg_q_snd, ret in Hs; simplify_eq].
  destruct (unblocked q) eqn:Hu. { unfold msg_q_snd, is_unblocked, bind, get, ret in Hs. rewrite Hu in Hs. by simplify_eq. }
  destruct elem as [elem|].
  - destruct (snd_run q ms elem m f R Hu) as (q1 & Hs1 & _); [by apply Hf|]. rewrite Hs in Hs1. by simplify_eq.
  - unfold msg_q_snd, is_unblocked, bind, get, ret in Hs. rewrite Hu in Hs. unfold linked_list_add, bind, get, ret in Hs.
    destruct R as (ls & [(pl & Hpl & _) _ _] & _). cbn [ll_get msg_q_list] in Hs. rewrite Hpl in Hs. by simplify_eq.
Qed.
End runs.

(** ** What all threads together preserve *)

(** The messages that left the queue, in order. *)
Definition taken (e : q_event) : list loc :=
  match e with Received _ m => [m] | Failed _ _ => [] | Flushed ms => ms end.

Record q_inv (s : q_sys) (ms : list loc) : Prop := {
  qi_rep : q_rep (queue s) ms;
  qi_sent : sent s = (events s ≫= taken) ++ ms;
  qi_disj : waiting s ## woken s;
  qi_unblocked : unblocked (queue s) = true -> waiting s = ∅;
  qi_woken : waiting s <> ∅ -> (length ms <= size (woken s))%nat
}.

Section threads.
Implicit Types (q : msg_q) (ms : list loc) (s : q_sys).

Lemma rcv_run q : msg_q_rcv q = if unblocked q then Some (Some (eMSG_Q_UNAVAILABLE_RESOURCE, None), q) else rcv_loop q.
Proof. unfold msg_q_rcv. rewrite (run_bind _ _ _ _ _ (is_unblocked_run q)). by destruct (unblocked q). Qed.

Lemma rcv_wait q ms q' : q_rep q ms -> rcv_loop q = Some (None, q') -> q' = q /\ ms = [] /\ unblocked q = false.
Proof.
  intros R Hr. pose proof (rcv_loop_run q ms R) as H. destruct ms as [|m ms].
  - rewrite Hr in H. by destruct (unblocked q); simplify_eq.
  - destruct H as (? & ? & _). by simplify_eq.
Qed.

Lemma rcv_result q ms r q' :
  q_rep q ms -> rcv_loop q = Some (Some r, q') ->
  unblocked q' = unblocked q /\
  ((exists m ms', ms = m :: ms' /\ r = (eMSG_Q_SUCCESS, Some m) /\ q_rep q' ms') \/
   (ms = [] /\ unblocked q = true /\ r = (eMSG_Q_UNAVAILABLE_RESOURCE, None) /\ q' = q)).
Proof.
  intros R Hr. pose proof (rcv_loop_run q ms R) as H. destruct ms as [|m ms].
  - rewrite Hr in H. destruct (unblocked q) eqn:Hu; simplify_eq. split; [done|]. by right.
  - destruct H as (q2 & Hq & ? & ?). simplify_eq. split; [done|]. left. eauto.
Qed.

Lemma q_signal_inv s ms t s' : q_inv s ms -> signal t s s' -> q_inv s' ms /\ queue s' = queue s.
Proof.
  intros [R Hs Hd Hu Hw] Hsg. destruct t as [t|]; [|by destruct Hsg as [_ ->]]. destruct Hsg as [Ht ->]. split; [|done].
  constructor; simpl; [done|done|set_solver| |].
  - intros H. rewrite Hu in Ht by done. set_solver.
  - intros _. specialize (Hw ltac:(set_solver)). rewrite size_union by set_solver. lia.
Qed.

Lemma q_sleep_inv s t : q_inv s [] -> unblocked (queue s) = false -> q_inv (sleep t (queue s) s) [].
Proof.
  intros [R Hs Hd Hu Hw] Hb. constructor; simpl; [done|done|set_solver|congruence|]. intros _. lia.
Qed.

Lemma q_leave_inv_woken s ms m ms' q t :
  q_inv s ms -> ms = m :: ms' -> q_rep q ms' -> unblocked q = unblocked (queue s) ->
  q_inv (leave_rcv t q (eMSG_Q_SUCCESS, Some m) s) ms'.
Proof.
  intros [R Hs Hd Hu Hw] -> R' Hb. constructor; simpl.
  - done.
  - rewrite bind_app, Hs. simpl. by rewrite <- app_assoc.
  - set_solver.
  - rewrite Hb. intros H%Hu. set_solver.
  - intros Hne. specialize (Hw ltac:(set_solver)). simpl in Hw. pose proof (size_difference_alt (woken s) {[t]}) as Hz.
    assert (size (woken s ∩ {[t]}) <= 1)%nat as Hle by (etrans; [apply subseteq_size; apply intersection_subseteq_r|by rewrite size_singleton]).
    pose proof (size_difference_alt (woken s) {[t]}). lia.
Qed.

Lemma q_leave_inv_failed s ms t c : q_inv s ms -> unblocked (queue s) = true -> c <> eMSG_Q_SUCCESS -> q_inv (leave_rcv t (queue s) (c, None) s) ms.
Proof.
  intros [R Hs Hd Hu Hw] Hb Hc. assert (forall o : option loc, match (c, o) with (0, Some m) => Received t m | (c', _) => Failed t c' end = Failed t c) as He.
  { intros o. unfold eMSG_Q_SUCCESS in Hc. destruct c, o; done. }
  constructor; simpl; [done| |set_solver|rewrite Hu by done; set_solver|rewrite Hu by done; set_solver].
  rewrite bind_app. specialize (He None). cbn in He. rewrite He. simpl. by rewrite app_nil_r.
Qed.

Lemma q_leave_inv s ms t q r :
  q_inv s ms -> rcv_loop (queue s) = Some (Some r, q) -> exists ms', q_inv (leave_rcv t q r s) ms'.
Proof.
  intros I Hr. destruct (rcv_result _ ms _ _ (qi_rep _ _ I) Hr) as (Hb & [(m & ms' & -> & -> & R')|(-> & Hu & -> & ->)]).
  - exists ms'. by eapply q_leave_inv_woken.
  - exists []. by apply q_leave_inv_failed.
Qed.

Lemma q_step_inv s ms s' : q_inv s ms -> q_step s s' -> exists ms', q_inv s' ms'.
Proof.
  intros I Hst. pose proof I as [R Hs Hd Hu Hw]. destruct Hst as
    [elem m f q b t s' He Hq Hsg|elem m f c b q t s' He Hq Hc Hsg|t q Ht Hq|t q r Ht Hq|t q Ht Hq|t q r Ht Hq|q c Hq|q c b Hq].
  - destruct (unblocked (queue s)) eqn:Hb. { unfold msg_q_snd in Hq. rewrite (run_bind _ _ _ _ _ (is_unblocked_run _)), Hb in Hq. by simplify_eq. }
    destruct (snd_run _ _ elem m f R Hb He) as (q' & Hq' & R' & Hb'). simplify_eq. exists (ms ++ [m]).
    destruct t as [t|]; destruct Hsg as [Ht ->]; simpl in *.
    + constructor; simpl; [done|by rewrite Hs, app_assoc|set_solver|congruence|]. intros _. specialize (Hw ltac:(set_solver)).
      rewrite size_union, size_singleton, length_app by set_solver. simpl. lia.
    + constructor; simpl; [done|by rewrite Hs, app_assoc|done|congruence|done].
  - pose proof (snd_fail_run _ _ _ _ _ _ _ _ R He Hq Hc) as ->. exists ms.
    assert (q_inv (with_queue (queue s) s) ms) as I' by (by constructor).
    destruct b; [by eapply q_signal_inv|by subst].
  - rewrite rcv_run in Hq. destruct (unblocked (queue s)) eqn:Hb; [done|]. destruct (rcv_wait _ _ _ R Hq) as (-> & -> & _).
    exists []. by apply q_sleep_inv.
  - rewrite rcv_run in Hq. destruct (unblocked (queue s)) eqn:Hb; [|by eapply q_leave_inv]. simplify_eq. exists ms. by apply q_leave_inv_failed.
  - destruct (rcv_wait _ _ _ R Hq) as (-> & -> & ?). exists []. by apply q_sleep_inv.
  - by eapply q_leave_inv.
  - destruct (flush_run _ _ R) as (q' & Hq' & R' & Hb). simplify_eq. exists []. constructor; simpl; [done| |done|by rewrite Hb|lia].
    rewrite bind_app, (pending_rep _ _ R), Hs. simpl. by rewrite !app_nil_r.
  - unfold msg_q_unblock in Hq. rewrite (run_bind _ _ _ _ _ (is_unblocked_run _)) in Hq. destruct (unblocked (queue s)) eqn:Hb.
    + unfold ret in Hq. simplify_eq. exists ms. constructor; simpl; auto.
    + unfold bind, modify, ret in Hq. simplify_eq. exists ms. constructor; simpl; [done|done|set_solver|done|done].
Qed.

Lemma q_reachable_inv s : q_reachable s -> exists ms, q_inv s ms.
Proof.
  intros Hr. induction Hr as [q Hq|s s' _ [ms I] Hst].
  - exists []. cbv in Hq. simplify_eq. constructor; simpl; [|done|set_solver|done|lia].
    exists []. split; [by apply list_rep_init|done].
  - by eapply q_step_inv.
Qed.
End threads.

(** ** Theorems *)

(** C28. First in, first out, whatever the interleaving: in every state the
    threads can reach, the messages accepted by [msg_q_snd], in the order of the
    sends, are those that were received or flushed, in that order, followed by
    those in the queue; none is lost, duplicated or overtaken. *)
Theorem msg_q_fifo s : q_reachable s -> sent s = (events s ≫= taken) ++ pending (queue s).
Proof. intros Hr. destruct (q_reachable_inv s Hr) as [ms [R Hs _ _ _]]. by rewrite (pending_rep _ _ R). Qed.

(** C29. No wake-up is lost: while threads sleep in [msg_q_rcv], the queue is not
    unblocked and holds at most as many messages as there are threads already
    woken; if it holds one, some thread is awake, and any awake thread that gets
    the mutex takes the oldest message and returns it. *)
Theorem msg_q_no_lost_wakeup s :
  q_reachable s -> waiting s <> ∅ ->
  unblocked (queue s) = false /\ (length (pending (queue s)) <= size (woken s))%nat /\
  forall m rest, pending (queue s) = m :: rest ->
    woken s <> ∅ /\
    forall t, t ∈ woken s -> exists q,
      q_step s (leave_rcv t q (eMSG_Q_SUCCESS, Some m) s) /\ pending q = rest /\
      events (leave_rcv t q (eMSG_Q_SUCCESS, Some m) s) = events s ++ [Received t m].
Proof.
  intros Hr Hne. destruct (q_reachable_inv s Hr) as [ms [R Hs Hd Hu Hw]]. specialize (Hw Hne). rewrite (pending_rep _ _ R).
  split; [destruct (unblocked (queue s)); [by destruct Hne; apply Hu|done]|]. split; [done|]. intros m rest ->. split.
  - intros He. rewrite He, size_empty in Hw. simpl in Hw. lia.
  - intros t Ht. destruct (rcv_loop_run _ _ R) as (q & Hq & R' & _). exists q. rewrite (pending_rep _ _ R'). split; [|done].
    apply step_wake; [set_solver|done].
Qed.

(** After [msg_q_unblock] nobody sleeps: every thread that was woken leaves
    [msg_q_rcv] in its next step, with a message that is still in the queue or
    with [eMSG_Q_UNAVAILABLE_RESOURCE], and new calls of [msg_q_snd],
    [msg_q_rcv] and [msg_q_unblock] are refused without touching the queue. *)
Theorem msg_q_unblock_releases s :
  q_reachable s -> unblocked (queue s) = true ->
  waiting s = ∅ /\
  (exists r q, rcv_loop (queue s) = Some (Some r, q) /\ unblocked q = true /\
    match pending (queue s) with
    | [] => r = (eMSG_Q_UNAVAILABLE_RESOURCE, None) /\ q = queue s
    | m :: ms => r = (eMSG_Q_SUCCESS, Some m) /\ pending q = ms
    end) /\
  (forall elem m f, m <> None -> msg_q_snd elem m f (queue s) = Some ((eMSG_Q_UNAVAILABLE_RESOURCE, false), queue s)) /\
  msg_q_rcv (queue s) = Some (Some (eMSG_Q_UNAVAILABLE_RESOURCE, None), queue s) /\
  msg_q_unblock (queue s) = Some ((eMSG_Q_UNAVAILABLE_RESOURCE, false), queue s).
Proof.
  intros Hr Hb. destruct (q_reachable_inv s Hr) as [ms [R Hs Hd Hu Hw]]. split; [by apply Hu|]. rewrite (pending_rep _ _ R). split_and!.
  - pose proof (rcv_loop_run _ _ R) as H. destruct ms as [|m ms].
    + rewrite Hb in H. by eexists _, _.
    + destruct H as (q & Hq & R' & Hb'). eexists _, q. rewrite Hb', (pending_rep _ _ R'). by split.
  - intros elem [m|] f Hm; [|done]. unfold msg_q_snd. by rewrite (run_bind _ _ _ _ _ (is_unblocked_run _)), Hb.
  - by rewrite rcv_run, Hb.
  - unfold msg_q_unblock. by rewrite (run_bind _ _ _ _ _ (is_unblocked_run _)), Hb.
Qed.

(** ** Witnesses *)

(** Threads 1 and 2 wait; message 7 arrives and wakes thread 1. *)
Lemma two_wait_one_sent :
  exists s, q_reachable s /\ waiting s <> ∅ /\ pending (queue s) = [7%positive] /\ unblocked (queue s) = false.
Proof.
  eexists. split.
  { eapply reach_step; [eapply reach_step; [eapply reach_step; [by apply reach_new|]|]|].
    - apply (step_rcv_wait _ 1%nat); [simpl; set_solver|reflexivity].
    - apply (step_rcv_wait _ 2%nat); [simpl; set_solver|reflexivity].
    - eapply (step_snd _ 1%positive 7%positive None _ true (Some 1%nat)); [reflexivity|reflexivity|]. split; [simpl; set_solver|reflexivity]. }
  split; [|split; reflexivity]. apply (non_empty_inhabited_L 2%nat). simpl. set_solver.
Qed.

Lemma sent_then_unblocked : exists s, q_reachable s /\ unblocked (queue s) = true /\ pending (queue s) = [7%positive].
Proof.
  destruct two_wait_one_sent as (s & Hr & _ & Hp & Hu). destruct (q_reachable_inv s Hr) as [ms [R _ _ _ _]].
  eexists. split; [eapply reach_step; [exact Hr|]|].
  - eapply (step_unblock _ _ eMSG_Q_SUCCESS true). unfold msg_q_unblock. rewrite (run_bind _ _ _ _ _ (is_unblocked_run _)), Hu. reflexivity.
  - split; [reflexivity|]. exact Hp.
Qed.

Lemma msg_q_fifo_witness : exists s, q_reachable s /\ waiting s <> ∅ /\ sent s = (events s ≫= taken) ++ [7%positive].
Proof.
  destruct two_wait_one_sent as (s & Hr & Hw & Hp & _). exists s. split; [done|]. split; [done|]. rewrite <- Hp. by apply (msg_q_fifo s).
Defined.

Lemma msg_q_no_lost_wakeup_witness : exists s, q_reachable s /\ waiting s <> ∅ /\ woken s <> ∅.
Proof.
  destruct two_wait_one_sent as (s & Hr & Hw & Hp & _). exists s. split; [done|]. split; [done|].
  destruct (msg_q_no_lost_wakeup s Hr Hw) as (_ & _ & H). by destruct (H 7%positive [] Hp).
Defined.

Lemma msg_q_unblock_releases_witness : exists s, q_reachable s /\ unblocked (queue s) = true /\ waiting s = ∅.
Proof.
  destruct sent_then_unblocked as (s & Hr & Hu & _). exists s. split; [done|]. split; [done|]. by destruct (msg_q_unblock_releases s Hr Hu).
Defined.
