(* ===== verification/CamClients.v ===== *)
(** * The eviction policy of the camera service ([camera/libcameraservice/utils/ClientManager.h])

    A client manager keeps the active clients of a shared resource (the cameras),
    least recently used first, each with a key, a cost, an owner, a priority and
    the keys it conflicts with.  Adding a client evicts others, or is refused.
    Descriptors are shared objects: the manager and its callers hold pointers to
    them, and priorities are updated in place.

    The manager's state is a record, its heap of descriptors included; a method
    runs in the monad of StateM.v.  An access through a null pointer or past the
    end of a vector and the overflow of a score are undefined behaviour. *)
From S2P Require Import Prelude Heap StateM.
From stdpp Require Import base list gmap.
From Stdlib Require Import ZArith Lia.

Open Scope Z_scope.
Open Scope method_scope.

Definition INVALID_ADJ : Z := -10000.
Definition UNKNOWN_ADJ : Z := 1001.
Definition DEFAULT_MAX_COST : Z := 100.
Definition TIMED_OUT : Z := -110.

(** ** Priorities *)

(** The fields of a [ClientPriority]. *)
Record ClientPriority := {
  mScore : Z;
  mState : Z;
  mIsVendorClient : bool;
  mScoreOffset : Z
}.

(** An [int32_t] sum. *)
Definition add32 (x y : Z) : option Z :=
  if (- 2 ^ 31 <=? x + y) && (x + y <? 2 ^ 31) then Some (x + y) else None.

Definition setScore (score : Z) (p : ClientPriority) : option ClientPriority :=
  if score =? INVALID_ADJ then
    Some {| mScore := UNKNOWN_ADJ; mState := mState p; mIsVendorClient := mIsVendorClient p; mScoreOffset := mScoreOffset p |}
  else
    match add32 (mScoreOffset p) score with
    | Some x => Some {| mScore := x; mState := mState p; mIsVendorClient := mIsVendorClient p; mScoreOffset := mScoreOffset p |}
    | None => None
    end.

Definition setState (state : Z) (p : ClientPriority) : ClientPriority :=
  {| mScore := mScore p; mState := state; mIsVendorClient := mIsVendorClient p; mScoreOffset := mScoreOffset p |}.

Definition new_ClientPriority (score state : Z) (isVendorClient : bool) (scoreOffset : Z) : option ClientPriority :=
  setState state <$> setScore score {| mScore := 0; mState := 0; mIsVendorClient := isVendorClient; mScoreOffset := scoreOffset |}.

(** The comparison operators; the smaller one has the higher priority. *)
Definition prio_eq (p q : ClientPriority) : bool := (mScore p =? mScore q) && (mState p =? mState q).
Definition prio_lt (p q : ClientPriority) : bool :=
  if mScore p =? mScore q then mState p <? mState q else mScore p <? mScore q.
Definition prio_le (p q : ClientPriority) : bool := negb (prio_lt q p).
Definition prio_ge (p q : ClientPriority) : bool := negb (prio_lt p q).

(** ** Descriptors and the manager *)

Section manager.
Context {KEY VALUE : Type} {eqk : EqDecision KEY}.

Record ClientDescriptor := {
  mKey : KEY;
  mValue : VALUE;
  mCost : Z;
  mConflicting : list KEY;
  mPriority : ClientPriority;
  mOwnerId : Z
}.

Definition isConflicting (key : KEY) (d : ClientDescriptor) : bool :=
  bool_decide (key = mKey d) || existsb (fun x => bool_decide (key = x)) (mConflicting d).

Definition setPriority (priority : ClientPriority) (d : ClientDescriptor) : option ClientDescriptor :=
  if mIsVendorClient (mPriority d) then Some d else
  match setScore (mScore priority) (mPriority d) with
  | Some p =>
      Some {| mKey := mKey d; mValue := mValue d; mCost := mCost d; mConflicting := mConflicting d;
              mPriority := setState (mState priority) p; mOwnerId := mOwnerId d |}
  | None => None
  end.

(** The calls of the listener. *)
Inductive cm_event := onClientAdded (p : loc) | onClientRemoved (p : loc).

(** [mListener] tells whether there is a listener, [events] what it was told. *)
Record ClientManager := {
  mMaxCost : Z;
  mClients : list loc;
  mListener : bool;
  descs : gmap loc ClientDescriptor;
  events : list cm_event
}.

Definition set_clients (l : list loc) (m : ClientManager) : ClientManager :=
  {| mMaxCost := mMaxCost m; mClients := l; mListener := mListener m; descs := descs m; events := events m |}.
Definition set_descs (h : gmap loc ClientDescriptor) (m : ClientManager) : ClientManager :=
  {| mMaxCost := mMaxCost m; mClients := mClients m; mListener := mListener m; descs := h; events := events m |}.
Definition tell (e : cm_event) (m : ClientManager) : ClientManager :=
  if mListener m then
    {| mMaxCost := mMaxCost m; mClients := mClients m; mListener := mListener m; descs := descs m; events := events m ++ [e] |}
  else m.

Definition new_ClientManager (totalCost : Z) : ClientManager :=
  {| mMaxCost := totalCost; mClients := []; mListener := false; descs := ∅; events := [] |}.
Definition setListener (m : ClientManager) : ClientManager :=
  {| mMaxCost := mMaxCost m; mClients := mClients m; mListener := true; descs := descs m; events := events m |}.

Definition get_desc (p : loc) : M ClientManager ClientDescriptor := let* m := get in deref (descs m !! p).

(** The descriptors behind a vector of pointers. *)
Fixpoint read_all (ps : list loc) : M ClientManager (list (loc * ClientDescriptor)) :=
  match ps with
  | [] => ret []
  | p :: ps => let* d := get_desc p in let* r := read_all ps in ret ((p, d) :: r)
  end.

(** [getCurrentCostLocked]; an [int64_t] holds the sum of any vector of [int32_t]
    costs there is memory for. *)
Fixpoint total_cost (l : list (loc * ClientDescriptor)) : Z :=
  match l with [] => 0 | (_, d) :: l => mCost d + total_cost l end.

Definition getCurrentCostLocked : M ClientManager Z :=
  let* m := get in let* l := read_all (mClients m) in ret (total_cost l).

(** The loop that finds the most recent of the owners with the highest priority. *)
Fixpoint highest (hp : ClientPriority) (ho : Z) (l : list (loc * ClientDescriptor)) : ClientPriority * Z :=
  match l with
  | [] => (hp, ho)
  | (_, i) :: l =>
      if prio_le (mPriority i) hp then highest (mPriority i) (mOwnerId i) l else highest hp ho l
  end.

Definition highestPriorityOwner (c : ClientDescriptor) (l : list (loc * ClientDescriptor)) : Z :=
  let '(hp, ho) := highest (mPriority c) (mOwnerId c) l in
  if prio_eq hp (mPriority c) then mOwnerId c else ho.

Definition conflicting (c i : ClientDescriptor) : bool :=
  bool_decide (mKey i = mKey c) || isConflicting (mKey c) i || isConflicting (mKey i) c.

(** The loop that builds the eviction list: [None] when the incoming client is
    returned in its place. *)
Fixpoint evict_loop (maxCost : Z) (c : ClientDescriptor) (hpo : Z) (totalCost : Z) (evictList : list loc)
    (l : list (loc * ClientDescriptor)) : option (Z * list loc) :=
  match l with
  | [] => Some (totalCost, evictList)
  | (p, i) :: l =>
      if conflicting c i && prio_lt (mPriority i) (mPriority c) then None
      else if conflicting c i && (mOwnerId c =? mOwnerId i) then
        if bool_decide (mKey i = mKey c) then evict_loop maxCost c hpo (totalCost - mCost i) (evictList ++ [p]) l
        else None
      else if conflicting c i ||
          ((maxCost <? totalCost) && (0 <? mCost i) && prio_ge (mPriority i) (mPriority c) &&
           negb ((hpo =? mOwnerId c) && (mOwnerId c =? mOwnerId i))) then
        evict_loop maxCost c hpo (totalCost - mCost i) (evictList ++ [p]) l
      else evict_loop maxCost c hpo totalCost evictList l
  end.

(** The other branch of the loop body. *)
Definition incompatible (maxCost totalCost : Z) (c i : ClientDescriptor) : bool :=
  prio_lt (mPriority i) (mPriority c) && (conflicting c i || ((maxCost <? totalCost) && (0 <? mCost i))).

(** [wouldEvictLocked]; [None] is the null pointer. *)
Definition wouldEvictLocked (client : option loc) (returnIncompatibleClients : bool) :
    M ClientManager (list (option loc)) :=
  match client with
  | None => ret [None]
  | Some cp =>
      let* c := get_desc cp in
      let* cur := getCurrentCostLocked in
      let* m := get in
      let* l := read_all (mClients m) in
      let totalCost := cur + mCost c in
      if returnIncompatibleClients then
        ret (Some <$> (filter (fun x => incompatible (mMaxCost m) totalCost c x.2 = true) l).*1)
      else
        match evict_loop (mMaxCost m) c (highestPriorityOwner c l) totalCost [] l with
        | None => ret [Some cp]
        | Some (total, evictList) =>
            if (mMaxCost m <? total) && negb (highestPriorityOwner c l =? mOwnerId c) then ret [Some cp]
            else ret (Some <$> evictList)
        end
  end.

Definition wouldEvict (client : option loc) : M ClientManager (list (option loc)) := wouldEvictLocked client false.
Definition getIncompatibleClients (client : option loc) : M ClientManager (list (option loc)) := wouldEvictLocked client true.

(** The [remove_if] of [addAndEvict]: [iter] is what is left of the vector of
    evicted clients, which the predicate dereferences for every client. *)
Fixpoint remove_evicted (iter : list (option loc)) (cs : list loc) : M ClientManager (list loc) :=
  match cs with
  | [] => ret []
  | cur :: cs =>
      let* d := get_desc cur in
      match iter with
      | Some e :: iter' =>
          let* de := get_desc e in
          if bool_decide (mKey d = mKey de) then remove_evicted iter' cs
          else let* r := remove_evicted iter cs in ret (cur :: r)
      | _ => ub
      end
  end.

Definition addAndEvict (client : option loc) : M ClientManager (list (option loc)) :=
  let* evicted := wouldEvictLocked client false in
  if match evicted with e :: _ => bool_decide (e = client) | [] => false end then ret evicted
  else
    (match evicted with
     | [] => ret tt
     | e :: _ =>
         let* p := deref e in
         get_desc p >>
         modify (tell (onClientRemoved p)) >>
         let* m := get in
         let* l := remove_evicted evicted (mClients m) in
         modify (set_clients l)
     end) >>
    let* c := deref client in
    get_desc c >>
    modify (tell (onClientAdded c)) >>
    modify (fun m => set_clients (mClients m ++ [c]) m) >>
    ret evicted.

Definition getAll : M ClientManager (list loc) := let* m := get in ret (mClients m).

(** [getAllKeys]: a vector made with [mClients.size()] default keys, to which the
    keys are appended. *)
Definition getAllKeys (default : KEY) : M ClientManager (list KEY) :=
  let* m := get in
  let* l := read_all (mClients m) in
  ret (replicate (length l) default ++ map (fun x => mKey x.2) l).

(** A [std::set<int32_t>], as its elements in ascending order. *)
Fixpoint set_insert (x : Z) (l : list Z) : list Z :=
  match l with
  | [] => [x]
  | y :: l => if x <? y then x :: y :: l else if x =? y then y :: l else y :: set_insert x l
  end.

Definition getAllOwners : M ClientManager (list Z) :=
  let* m := get in
  let* l := read_all (mClients m) in
  ret (foldl (fun s x => set_insert (mOwnerId x.2) s) [] l).

Fixpoint update_loop (ownerPriorityList : gmap Z ClientPriority) (cs : list loc) : M ClientManager unit :=
  match cs with
  | [] => ret tt
  | i :: cs =>
      let* d := get_desc i in
      (match ownerPriorityList !! mOwnerId d with
       | Some p => let* d := deref (setPriority p d) in modify (fun m => set_descs (<[i := d]> (descs m)) m)
       | None => ret tt
       end) >> update_loop ownerPriorityList cs
  end.

Definition updatePriorities (ownerPriorityList : gmap Z ClientPriority) : M ClientManager unit :=
  let* m := get in update_loop ownerPriorityList (mClients m).

(** [get] *)
Definition get_client (key : KEY) : M ClientManager (option loc) :=
  let* m := get in
  let* l := read_all (mClients m) in
  ret ((fun x => x.2.1) <$> list_find (fun x => mKey x.2 = key) l).

Definition removeAll : M ClientManager unit :=
  let* m := get in
  read_all (mClients m) >>
  modify (fun m => foldl (fun m i => tell (onClientRemoved i) m) m (mClients m)) >>
  modify (set_clients []).

(** The [remove_if] of both functions [remove]: what is kept and the last one removed. *)
Fixpoint remove_loop (p : loc -> ClientDescriptor -> bool) (cs : list loc) : M ClientManager (list loc * option loc) :=
  match cs with
  | [] => ret ([], None)
  | cur :: cs =>
      let* d := get_desc cur in
      if p cur d then
        modify (tell (onClientRemoved cur)) >>
        let* r := remove_loop p cs in
        ret (r.1, match r.2 with None => Some cur | Some x => Some x end)
      else
        let* r := remove_loop p cs in ret (cur :: r.1, r.2)
  end.

Definition remove_key (key : KEY) : M ClientManager (option loc) :=
  let* m := get in
  let* r := remove_loop (fun _ d => bool_decide (mKey d = key)) (mClients m) in
  modify (set_clients r.1) >> ret r.2.

Definition remove_client (value : option loc) : M ClientManager unit :=
  let* m := get in
  let* r := remove_loop (fun cur _ => bool_decide (Some cur = value)) (mClients m) in
  modify (set_clients r.1).

(** [waitUntilRemoved]: [wakeups] is what happens until the timeout, the clients
    that other threads remove before each broadcast of the condition. *)
Fixpoint remove_clients (l : list loc) : M ClientManager unit :=
  match l with [] => ret tt | p :: l => remove_client (Some p) >> remove_clients l end.

Fixpoint waitUntilRemoved (wakeups : list (list loc)) (client : loc) : M ClientManager Z :=
  let* m := get in
  if decide (client ∈ mClients m) then
    match wakeups with
    | [] => ret TIMED_OUT
    | w :: wakeups => remove_clients w >> waitUntilRemoved wakeups client
    end
  else ret 0.
End manager.

Arguments ClientDescriptor : clear implicits.
Arguments ClientManager : clear implicits.
