(* ===== verification/CamPolicy.v ===== *)
(** * The eviction policy on lists

    The loops of [wouldEvictLocked] read the active clients from first to last;
    here they are functions of the list of descriptors, and what they choose is
    described without the loop. *)
From S2P Require Import Prelude Heap StateM CamClients.
From stdpp Require Import base list gmap.
From Stdlib Require Import ZArith Lia.

Open Scope Z_scope.
Open Scope method_scope.

(** ** The order of priorities *)

Ltac prio_solve := unfold prio_le, prio_ge, prio_eq, prio_lt in *; repeat (case_match; bool_to_prop); rewrite ?negb_true_iff, ?negb_false_iff, ?andb_true_iff, ?andb_false_iff, ?Z.eqb_eq, ?Z.eqb_neq, ?Z.ltb_lt, ?Z.ltb_ge in *; lia.

Lemma prio_lt_irrefl p : prio_lt p p = false.
Proof. unfold prio_lt. by rewrite Z.eqb_refl, Z.ltb_irrefl. Qed.

Lemma prio_le_refl p : prio_le p p = true.
Proof. unfold prio_le. by rewrite prio_lt_irrefl. Qed.

Lemma prio_le_trans p q r : prio_le p q = true -> prio_le q r = true -> prio_le p r = true.
Proof. intros. prio_solve. Qed.

Lemma prio_le_lt_trans p q r : prio_le p q = true -> prio_lt q r = true -> prio_lt p r = true.
Proof. intros. prio_solve. Qed.

Lemma prio_le_cases p q : prio_le p q = true -> prio_eq p q = true \/ prio_lt p q = true.
Proof. intros. destruct (prio_eq p q) eqn:?; [by left|right]. prio_solve. Qed.

Lemma prio_lt_eq p q : prio_lt p q = true -> prio_eq p q = false.
Proof. intros. destruct (prio_eq p q) eqn:?; [|done]. prio_solve. Qed.

Lemma prio_eq_le p q r : prio_eq p q = true -> prio_le p r = prio_le q r.
Proof. intros. apply eq_bool_prop_intro. rewrite !Is_true_true. split; intros; prio_solve. Qed.

Lemma filter_same {A} (P Q : A -> Prop) `{!forall x, Decision (P x)} `{!forall x, Decision (Q x)} (l : list A) :
  (forall x, x ∈ l -> P x <-> Q x) -> filter P l = filter Q l.
Proof.
  induction l as [|x l IH]; intros Hl; [done|]. rewrite !filter_cons, IH by (intros; apply Hl; by right).
  pose proof (Hl x ltac:(by left)). repeat case_decide; tauto.
Qed.

Lemma filter_keep {A} (P : A -> Prop) `{!forall x, Decision (P x)} (l : list A) : (forall x, x ∈ l -> P x) -> filter P l = l.
Proof. induction l as [|x l IH]; intros Hl; [done|]. rewrite filter_cons_True, IH; [done|intros; apply Hl; by right|apply Hl; by left]. Qed.

Lemma filter_drop {A} (P : A -> Prop) `{!forall x, Decision (P x)} (l : list A) : (forall x, x ∈ l -> ~ P x) -> filter P l = [].
Proof. induction l as [|x l IH]; intros Hl; [done|]. rewrite filter_cons_False, IH; [done|intros; apply Hl; by right|apply Hl; by left]. Qed.

Lemma NoDup_fst_inj {A B} (l : list (A * B)) x y : NoDup l.*1 -> x ∈ l -> y ∈ l -> x.1 = y.1 -> x = y.
Proof.
  induction l as [|z l IH]; simpl; [by rewrite elem_of_nil|]. intros [Hni Hnd]%NoDup_cons [->|Hx]%elem_of_cons [->|Hy]%elem_of_cons He; [done|..|by apply IH].
  - destruct Hni. rewrite He. by apply list_elem_of_fmap_2.
  - destruct Hni. rewrite <- He. by apply list_elem_of_fmap_2.
Qed.

Section policy.
Context {KEY VALUE : Type} {eqk : EqDecision KEY}.
Abbreviation Desc := (ClientDescriptor KEY VALUE).
Implicit Types (c i : Desc) (l es : list (loc * Desc)).

Lemma conflicting_same_key c i : mKey i = mKey c -> conflicting c i = true.
Proof. intros H. unfold conflicting. by rewrite bool_decide_true. Qed.

Lemma conflicting_sym c i : conflicting c i = conflicting i c.
Proof.
  unfold conflicting. rewrite <- !orb_assoc. f_equal; [by apply bool_decide_ext|apply orb_comm].
Qed.

Lemma total_cost_app l1 l2 : total_cost (l1 ++ l2) = total_cost l1 + total_cost l2.
Proof. induction l1 as [|[p d] l1 IH]; simpl; lia. Qed.

Definition costs_ok l : Prop := Forall (fun x => 0 <= mCost x.2) l.

Lemma total_cost_nonneg l : costs_ok l -> 0 <= total_cost l.
Proof. induction 1 as [|[p d] l ? ? IH]; simpl in *; lia. Qed.

Lemma costs_ok_sublist l1 l2 : l1 `sublist_of` l2 -> costs_ok l2 -> costs_ok l1.
Proof. intros Hs. unfold costs_ok. rewrite !Forall_forall. intros H x Hx. apply H. by eapply elem_of_sublist. Qed.

Lemma total_cost_sublist l1 l2 : l1 `sublist_of` l2 -> costs_ok l2 -> total_cost l1 <= total_cost l2.
Proof.
  intros Hs. induction Hs as [|[p d] l1 l2 Hs IH|[p d] l1 l2 Hs IH]; intros Hc; [done|..];
    apply Forall_cons in Hc as [? Hc]; specialize (IH Hc); simpl in *; lia.
Qed.

(** *** The owner with the highest priority *)

Lemma highest_spec hp ho l :
  let r := highest hp ho l in
  (r = (hp, ho) \/ exists x, x ∈ l /\ r = (mPriority x.2, mOwnerId x.2)) /\ prio_le r.1 hp = true /\
  Forall (fun x => prio_le r.1 (mPriority x.2) = true) l.
Proof.
  revert hp ho. induction l as [|[p d] l IH]; intros hp ho; simpl.
  - split_and!; [by left|apply prio_le_refl|constructor].
  - destruct (prio_le (mPriority d) hp) eqn:Hle.
    + destruct (IH (mPriority d) (mOwnerId d)) as (Hr & Hle' & Hall). split_and!.
      * destruct Hr as [->|(x & Hx & ->)]; right; [exists (p, d)|exists x]; split; [by left|done|by right|done].
      * by eapply prio_le_trans.
      * by constructor.
    + destruct (IH hp ho) as (Hr & Hle' & Hall). split_and!.
      * destruct Hr as [->|(x & Hx & ->)]; [by left|]. right. exists x. split; [by right|done].
      * done.
      * constructor; [|done]. simpl. eapply prio_le_trans; [done|]. prio_solve.
Qed.

(** If it is not the incoming client's owner, some client outranks it. *)
Lemma highest_other c l :
  highestPriorityOwner c l <> mOwnerId c ->
  exists x, x ∈ l /\ mOwnerId x.2 <> mOwnerId c /\ prio_lt (mPriority x.2) (mPriority c) = true.
Proof.
  unfold highestPriorityOwner. pose proof (highest_spec (mPriority c) (mOwnerId c) l) as (Hr & Hle & _).
  destruct (highest _ _ l) as [hp ho]. simpl in *. destruct (prio_eq hp (mPriority c)) eqn:He; [done|]. intros Ho.
  destruct Hr as [[= -> ->]|(x & Hx & [= -> ->])]; [done|]. exists x. split_and!; [done|done|].
  apply prio_le_cases in Hle as [?|?]; congruence.
Qed.

(** Only the clients that outrank the incoming one matter. *)
Lemma highest_outranking c l :
  highestPriorityOwner c (filter (fun x => prio_lt (mPriority x.2) (mPriority c) = true) l) = highestPriorityOwner c l.
Proof.
  unfold highestPriorityOwner.
  assert (forall hp1 ho1 hp2 ho2,
    (prio_eq hp1 (mPriority c) = true /\ prio_eq hp2 (mPriority c) = true \/
     hp1 = hp2 /\ ho1 = ho2 /\ prio_lt hp1 (mPriority c) = true) ->
    (let '(hp, ho) := highest hp1 ho1 (filter (fun x => prio_lt (mPriority x.2) (mPriority c) = true) l) in
     if prio_eq hp (mPriority c) then mOwnerId c else ho) =
    (let '(hp, ho) := highest hp2 ho2 l in if prio_eq hp (mPriority c) then mOwnerId c else ho)) as Hgen.
  { induction l as [|[p d] l IH]; intros hp1 ho1 hp2 ho2 HR; simpl.
    - destruct HR as [[-> ->]|(-> & -> & ?)]; [done|done].
    - rewrite filter_cons. simpl. destruct (decide (prio_lt (mPriority d) (mPriority c) = true)) as [Hlt|Hnlt]; simpl.
      + destruct HR as [[He1 He2]|(-> & -> & Hl)].
        * assert (prio_le (mPriority d) hp1 = true) as -> by prio_solve.
          assert (prio_le (mPriority d) hp2 = true) as -> by prio_solve. apply IH. by right.
        * destruct (prio_le (mPriority d) hp2); apply IH; by right.
      + destruct (prio_le (mPriority d) hp2) eqn:Hle; apply IH; [|done]. destruct HR as [[He1 He2]|(-> & -> & Hl)].
        * left. split; [done|]. apply not_true_is_false in Hnlt. prio_solve.
        * destruct Hnlt. by eapply prio_le_lt_trans. }
  apply Hgen. left. split; prio_solve.
Qed.

(** *** The eviction list *)

(** What the loop collects: [es] in the order of the list, and the cost left. *)
Record chosen (maxCost : Z) c (hpo t : Z) l es : Prop := {
  ch_sub : es `sublist_of` l;
  ch_conflict : forall x, x ∈ l -> conflicting c x.2 = true -> x ∈ es /\ (mOwnerId x.2 = mOwnerId c -> mKey x.2 = mKey c);
  ch_rank : forall x, x ∈ es -> prio_lt (mPriority x.2) (mPriority c) = false;
  ch_needed : forall es1 x es2, es = es1 ++ x :: es2 -> conflicting c x.2 = false ->
    maxCost < t - total_cost es1 /\ 0 < mCost x.2 /\ (mOwnerId x.2 = mOwnerId c -> hpo <> mOwnerId c);
  ch_all : costs_ok l -> maxCost < t - total_cost es ->
    forall x, x ∈ l -> 0 < mCost x.2 -> prio_lt (mPriority x.2) (mPriority c) = false ->
    (mOwnerId x.2 = mOwnerId c -> hpo <> mOwnerId c) -> x ∈ es
}.

(** Why the incoming client is refused in the loop. *)
Definition clashes c i : bool :=
  conflicting c i && (prio_lt (mPriority i) (mPriority c) || ((mOwnerId c =? mOwnerId i) && negb (bool_decide (mKey i = mKey c)))).

Lemma chosen_skip maxCost c hpo t x l es :
  conflicting c x.2 = false ->
  (costs_ok l -> maxCost < t - total_cost es -> 0 < mCost x.2 -> prio_lt (mPriority x.2) (mPriority c) = false ->
   (mOwnerId x.2 = mOwnerId c -> hpo <> mOwnerId c) -> x ∈ es) ->
  chosen maxCost c hpo t l es -> chosen maxCost c hpo t (x :: l) es.
Proof.
  intros Hc Hx [Hs Hconf Hr Hn Ha]. constructor; [by constructor| |done|done|].
  - intros y [->|Hy]%elem_of_cons Hcy; [congruence|by apply Hconf].
  - intros Hok Ht y [->|Hy]%elem_of_cons; apply Forall_cons in Hok as [_ Hok]; auto.
Qed.

Lemma chosen_take maxCost c hpo t x l es :
  prio_lt (mPriority x.2) (mPriority c) = false ->
  (conflicting c x.2 = true -> mOwnerId x.2 = mOwnerId c -> mKey x.2 = mKey c) ->
  (conflicting c x.2 = false -> maxCost < t /\ 0 < mCost x.2 /\ (mOwnerId x.2 = mOwnerId c -> hpo <> mOwnerId c)) ->
  chosen maxCost c hpo (t - mCost x.2) l es -> chosen maxCost c hpo t (x :: l) (x :: es).
Proof.
  intros Hp Hk Hx [Hs Hconf Hr Hn Ha]. constructor.
  - by constructor.
  - intros y [->|Hy]%elem_of_cons Hcy; [split; [by left|auto]|]. destruct (Hconf y Hy Hcy). split; [by right|done].
  - intros y [->|Hy]%elem_of_cons; auto.
  - intros [|z es1] y es2 [= -> He] Hcy; simpl; [rewrite Z.sub_0_r; auto|]. destruct z as [pz z]. destruct (Hn es1 y es2 He Hcy) as (? & ? & ?).
    simpl in *. split_and!; [lia|done|done].
  - intros Hok Ht y [->|Hy]%elem_of_cons H1 H2 H3; [by left|]. right. apply Forall_cons in Hok as [_ Hok].
    apply Ha; [done| |done|done|done|done]. destruct x as [px x]. simpl in *. lia.
Qed.

Lemma evict_loop_spec maxCost c hpo t acc l :
  match evict_loop maxCost c hpo t acc l with
  | None => exists x, x ∈ l /\ clashes c x.2 = true
  | Some (t', r) => exists es, r = acc ++ es.*1 /\ t' = t - total_cost es /\ chosen maxCost c hpo t l es
  end.
Proof.
  revert t acc. induction l as [|[p i] l IH]; intros t acc; simpl.
  { exists []. rewrite app_nil_r. simpl. split_and!; [done|lia|]. constructor; [constructor|..]; intros; try set_solver. by destruct es1. }
  (* the client is taken, or left *)
  assert (forall b : bool,
    match evict_loop maxCost c hpo (if b then t - mCost i else t) (if b then acc ++ [p] else acc) l with
    | None => exists x, x ∈ (p, i) :: l /\ clashes c x.2 = true
    | Some (t', r) => exists es, r = (if b then acc ++ [p] else acc) ++ es.*1 /\
        t' = (if b then t - mCost i else t) - total_cost es /\ chosen maxCost c hpo (if b then t - mCost i else t) l es
    end) as IH'.
  { intros b. specialize (IH (if b then t - mCost i else t) (if b then acc ++ [p] else acc)).
    destruct (evict_loop _ _ _ _ _ l) as [[t' r]|]; [done|]. destruct IH as (x & ? & ?). exists x. split; [by right|done]. }
  assert (forall t' r, (exists es, r = (acc ++ [p]) ++ es.*1 /\ t' = t - mCost i - total_cost es /\ chosen maxCost c hpo (t - mCost i) l es) ->
    prio_lt (mPriority i) (mPriority c) = false -> (conflicting c i = true -> mOwnerId i = mOwnerId c -> mKey i = mKey c) ->
    (conflicting c i = false -> maxCost < t /\ 0 < mCost i /\ (mOwnerId i = mOwnerId c -> hpo <> mOwnerId c)) ->
    exists es, r = acc ++ es.*1 /\ t' = t - total_cost es /\ chosen maxCost c hpo t ((p, i) :: l) es) as Htake.
  { intros t' r (es & -> & -> & Hch) H1 H2 H3. exists ((p, i) :: es). simpl. rewrite <- app_assoc. split_and!; [done|lia|].
    by apply chosen_take. }
  destruct (conflicting c i) eqn:Hc; simpl.
  - destruct (prio_lt (mPriority i) (mPriority c)) eqn:Hlt; simpl.
    { exists (p, i). split; [by left|]. unfold clashes. simpl. by rewrite Hc, Hlt. }
    destruct (Z.eqb_spec (mOwnerId c) (mOwnerId i)) as [Ho|Ho]; simpl.
    + destruct (bool_decide_reflect (mKey i = mKey c)) as [Hk|Hk].
      * specialize (IH' true). simpl in IH'. destruct (evict_loop _ _ _ _ _ l) as [[t' r]|]; [|done]. by apply Htake.
      * exists (p, i). split; [by left|]. unfold clashes. simpl. rewrite Hc, Hlt, Ho, Z.eqb_refl. simpl. by rewrite bool_decide_false.
    + specialize (IH' true). simpl in IH'. destruct (evict_loop _ _ _ _ _ l) as [[t' r]|]; [|done]. apply Htake; [done|done|congruence|done].
  - destruct (_ && _ && _ && _) eqn:Hb; simpl.
    + specialize (IH' true). simpl in IH'. destruct (evict_loop _ _ _ _ _ l) as [[t' r]|]; [|done].
      rewrite !andb_true_iff, negb_true_iff, andb_false_iff, !Z.ltb_lt, !Z.eqb_neq in Hb. unfold prio_ge in Hb. rewrite negb_true_iff in Hb.
      destruct Hb as [[[? ?] ?] Ho]. apply Htake; [done|done|done|]. intros _. split_and!; [done|done|]. intros Heq. destruct Ho; congruence.
    + specialize (IH' false). simpl in IH'. destruct (evict_loop _ _ _ _ _ l) as [[t' r]|]; [|done].
      destruct IH' as (es & -> & -> & Hch). exists es. split_and!; [done|done|]. apply chosen_skip; [done| |done].
      simpl. intros Hok Ht Hcost Hp Ho. exfalso. apply not_true_iff_false in Hb. apply Hb.
      pose proof (ch_sub _ _ _ _ _ _ Hch) as Hsub. pose proof (total_cost_nonneg es (costs_ok_sublist _ _ Hsub Hok)).
      rewrite !andb_true_iff, negb_true_iff, andb_false_iff, !Z.ltb_lt, !Z.eqb_neq. unfold prio_ge. rewrite negb_true_iff. split_and!; [lia|done|done|].
      destruct (decide (hpo = mOwnerId c)); [right|by left]. intros Heq. by apply Ho.
Qed.

(** *** The result *)

Definition would_evict (maxCost : Z) (cp : loc) c l : list loc :=
  match evict_loop maxCost c (highestPriorityOwner c l) (total_cost l + mCost c) [] l with
  | None => [cp]
  | Some (t, evictList) =>
      if (maxCost <? t) && negb (highestPriorityOwner c l =? mOwnerId c) then [cp] else evictList
  end.

(** The clients that stay. *)
Definition kept es l := filter (fun x => x.1 ∉ es.*1) l.

(** Why a client is refused. *)
Definition refused (maxCost : Z) c l : Prop :=
  (exists x, x ∈ l /\ clashes c x.2 = true) \/
  (exists x, x ∈ l /\ mOwnerId x.2 <> mOwnerId c /\ prio_lt (mPriority x.2) (mPriority c) = true).

Lemma would_evict_spec maxCost cp c l :
  would_evict maxCost cp c l = [cp] /\ refused maxCost c l \/
  exists es, would_evict maxCost cp c l = es.*1 /\ chosen maxCost c (highestPriorityOwner c l) (total_cost l + mCost c) l es /\
    (total_cost l + mCost c - total_cost es <= maxCost \/ highestPriorityOwner c l = mOwnerId c).
Proof.
  unfold would_evict. pose proof (evict_loop_spec maxCost c (highestPriorityOwner c l) (total_cost l + mCost c) [] l) as H.
  destruct (evict_loop _ _ _ _ _ l) as [[t r]|]; [|left; split; [done|by left]].
  destruct H as (es & -> & -> & Hch). destruct (Z.ltb_spec maxCost (total_cost l + mCost c - total_cost es)); simpl.
  - destruct (Z.eqb_spec (highestPriorityOwner c l) (mOwnerId c)) as [He|He]; simpl.
    + right. exists es. auto.
    + left. split; [done|right]. by apply highest_other.
  - right. exists es. auto.
Qed.

Lemma kept_total es l : es `sublist_of` l -> NoDup l.*1 -> total_cost l = total_cost es + total_cost (kept es l).
Proof.
  unfold kept. intros Hs. induction Hs as [|[p d] es l Hs IH|[p d] es l Hs IH]; intros Hnd; [done|..]; simpl in Hnd; apply NoDup_cons in Hnd as [Hni Hnd].
  - rewrite filter_cons_False by (simpl; intros H; apply H; by left). cbn [total_cost]. rewrite (IH Hnd).
    assert (filter (fun x => x.1 ∉ ((p, d) :: es).*1) l = filter (fun x => x.1 ∉ es.*1) l) as ->; [|simpl; lia].
    apply filter_same. intros x Hx. assert (x.1 <> p) by (intros <-; apply Hni; by apply list_elem_of_fmap_2). set_solver.
  - rewrite filter_cons_True; simpl; [rewrite (IH Hnd); lia|]. intros (y & -> & Hy)%list_elem_of_fmap_1. apply Hni, list_elem_of_fmap_2. by eapply elem_of_sublist.
Qed.

(** Once the chosen clients are gone the policy chooses nobody. *)
Lemma evict_loop_none maxCost c hpo t acc l :
  (forall x, x ∈ l -> conflicting c x.2 = false /\
     (maxCost < t -> 0 < mCost x.2 -> prio_lt (mPriority x.2) (mPriority c) = false -> mOwnerId x.2 = mOwnerId c /\ hpo = mOwnerId c)) ->
  evict_loop maxCost c hpo t acc l = Some (t, acc).
Proof.
  induction l as [|[p i] l IH]; intros H; simpl; [done|]. destruct (H (p, i)) as [Hc Hx]; [by left|]. simpl in *. rewrite Hc. simpl.
  destruct (_ && _ && _ && _) eqn:Hb; [|apply IH; intros y Hy; apply H; by right].
  exfalso. unfold prio_ge in Hb. rewrite !andb_true_iff, !negb_true_iff, andb_false_iff, !Z.ltb_lt, !Z.eqb_neq in Hb.
  destruct Hb as [[[? ?] ?] Ho]. destruct Hx; [done..|]. destruct Ho; congruence.
Qed.

Lemma evict_settles maxCost cp c l es :
  NoDup l.*1 -> costs_ok l -> chosen maxCost c (highestPriorityOwner c l) (total_cost l + mCost c) l es ->
  (total_cost l + mCost c - total_cost es <= maxCost \/ highestPriorityOwner c l = mOwnerId c) ->
  would_evict maxCost cp c (kept es l) = [].
Proof.
  intros Hnd Hok [Hs Hconf Hr Hn Ha] Hcost. pose proof (kept_total es l Hs Hnd) as Ht. unfold would_evict.
  assert (highestPriorityOwner c (kept es l) = highestPriorityOwner c l) as ->.
  { rewrite <- (highest_outranking c (kept es l)), <- (highest_outranking c l). f_equal. unfold kept. rewrite list_filter_filter.
    apply filter_same. intros x Hx. split; [tauto|]. intros Hp. split; [done|]. intros (y & Hy1 & Hy)%list_elem_of_fmap_1.
    assert (x = y) as ->; [|by rewrite Hr in Hp]. apply (NoDup_fst_inj l); [done|done|by eapply elem_of_sublist|done]. }
  assert (total_cost (kept es l) + mCost c = total_cost l + mCost c - total_cost es) as -> by lia.
  rewrite evict_loop_none.
  - destruct (Z.ltb_spec maxCost (total_cost l + mCost c - total_cost es)); [|done]. destruct Hcost as [?| ->]; [lia|]. by rewrite Z.eqb_refl.
  - intros x [Hx Hxl]%list_elem_of_filter. assert (x ∉ es) as Hne by (intros H; apply Hx; by apply list_elem_of_fmap_2).
    split; [by destruct (conflicting c x.2) eqn:Hc; [destruct Hne; apply Hconf|]|]. intros Hm Hc Hp.
    destruct (decide (mOwnerId x.2 = mOwnerId c /\ highestPriorityOwner c l = mOwnerId c)) as [?|Hno]; [done|]. destruct Hne.
    apply Ha; [done|done|done|done|done|]. intros ? ?. by apply Hno.
Qed.

(** *** Descriptors the policy does not tell apart *)

Definition prio_like (p q : ClientPriority) : Prop := mScore p = mScore q /\ mState p = mState q.

Record like c c' : Prop := {
  lk_key : mKey c' = mKey c;
  lk_conf : mConflicting c' = mConflicting c;
  lk_cost : mCost c' = mCost c;
  lk_owner : mOwnerId c' = mOwnerId c;
  lk_prio : prio_like (mPriority c') (mPriority c)
}.

Lemma prio_lt_like p p' q q' : prio_like p p' -> prio_like q q' -> prio_lt p q = prio_lt p' q'.
Proof. intros [H1 H2] [H3 H4]. unfold prio_lt. by rewrite H1, H2, H3, H4. Qed.

Lemma highest_like hp hp' ho l :
  prio_like hp hp' -> prio_like (highest hp ho l).1 (highest hp' ho l).1 /\ (highest hp ho l).2 = (highest hp' ho l).2.
Proof.
  revert hp hp' ho. induction l as [|[p d] l IH]; intros hp hp' ho H; simpl; [done|]. unfold prio_le.
  rewrite (prio_lt_like hp hp' (mPriority d) (mPriority d)) by done. destruct (negb _); by apply IH.
Qed.

Lemma highestPriorityOwner_like c c' l : like c c' -> highestPriorityOwner c' l = highestPriorityOwner c l.
Proof.
  intros [_ _ _ Ho Hp]. unfold highestPriorityOwner. pose proof (highest_like (mPriority c') (mPriority c) (mOwnerId c) l Hp) as [H1 H2].
  rewrite Ho. destruct (highest (mPriority c') _ l) as [hp ho], (highest (mPriority c) _ l) as [hp' ho']. simpl in *. subst ho'.
  unfold prio_eq. destruct H1 as [-> ->], Hp as [-> ->]. done.
Qed.

Lemma conflicting_like c c' i : like c c' -> conflicting c' i = conflicting c i.
Proof. intros [Hk Hc _ _ _]. unfold conflicting, isConflicting. by rewrite Hk, Hc. Qed.

Lemma chosen_like maxCost c c' hpo t l es : like c c' -> chosen maxCost c hpo t l es -> chosen maxCost c' hpo t l es.
Proof.
  intros L [Hs Hc Hr Hn Ha]. pose proof L as [Hk _ _ Ho Hp].
  assert (forall x : loc * Desc, prio_lt (mPriority x.2) (mPriority c') = prio_lt (mPriority x.2) (mPriority c)) as Hlt by (intros; by apply prio_lt_like).
  constructor; [done|..].
  - intros x Hx. rewrite (conflicting_like c c') by done. rewrite Ho, Hk. by apply Hc.
  - intros x Hx. rewrite Hlt. by apply Hr.
  - intros es1 x es2 He. rewrite (conflicting_like c c') by done. rewrite Ho. by apply (Hn es1 x es2).
  - intros Hok Ht x Hx. rewrite Hlt, Ho. by apply Ha.
Qed.
End policy.
