(* ===== verification/CamManager.v ===== *)
(** * What the operations of a client manager do

    [cm_wf m ds]: the manager's vector points to the live descriptors [ds], no two
    of which conflict.  The operations run on such a state; what [addAndEvict]
    leaves is described by CamPolicy.v, and every operation keeps the invariant. *)
From S2P Require Import Prelude Heap StateM CamClients CamPolicy.
From stdpp Require Import base list gmap sets.
From Stdlib Require Import ZArith Lia.

Open Scope Z_scope.
Open Scope method_scope.

Lemma Forall_in_impl {A} (P Q : A -> Prop) (l : list A) : Forall P l -> (forall x, x ∈ l -> P x -> Q x) -> Forall Q l.
Proof. rewrite !Forall_forall. auto. Qed.

Section manager.
Context {KEY VALUE : Type} {eqk : EqDecision KEY}.
Abbreviation Desc := (ClientDescriptor KEY VALUE).
Abbreviation CM := (ClientManager KEY VALUE).
Implicit Types (m : CM) (c d : Desc) (ds es : list (loc * Desc)).

Definition live m ds : Prop := Forall (fun x => descs m !! x.1 = Some x.2) ds.

Record cm_wf m ds : Prop := {
  cw_ptrs : mClients m = ds.*1;
  cw_live : live m ds;
  cw_nodup : NoDup ds.*1;
  cw_peace : forall x y, x ∈ ds -> y ∈ ds -> x.1 <> y.1 -> conflicting x.2 y.2 = false
}.

Lemma live_in m ds x : live m ds -> x ∈ ds -> descs m !! x.1 = Some x.2.
Proof. unfold live. rewrite Forall_forall. auto. Qed.

Lemma wf_key_inj m ds x y : cm_wf m ds -> x ∈ ds -> y ∈ ds -> mKey x.2 = mKey y.2 -> x = y.
Proof.
  intros [_ _ Hnd Hp] Hx Hy Hk. apply (NoDup_fst_inj ds); [done..|]. destruct (decide (x.1 = y.1)) as [?|Hne]; [done|].
  pose proof (Hp x y Hx Hy Hne) as Hc. rewrite conflicting_sym, conflicting_same_key in Hc by done. done.
Qed.

Lemma get_desc_run p d m : descs m !! p = Some d -> get_desc p m = Some (d, m).
Proof. intros H. unfold get_desc, bind, get, deref, ret. by rewrite H. Qed.

Lemma read_all_run m ds : live m ds -> read_all ds.*1 m = Some (ds, m).
Proof.
  induction 1 as [|[p d] ds Hp _ IH]; [done|]. cbn [fmap list_fmap read_all fst].
  rewrite (run_bind _ _ _ _ _ (get_desc_run p d m Hp)), (run_bind _ _ _ _ _ IH). done.
Qed.

Lemma read_clients m ds : cm_wf m ds -> read_all (mClients m) m = Some (ds, m).
Proof. intros [-> Hl _ _]. by apply read_all_run. Qed.

Lemma wouldEvict_run m ds cp c :
  cm_wf m ds -> descs m !! cp = Some c ->
  wouldEvict (Some cp) m = Some (Some <$> would_evict (mMaxCost m) cp c ds, m).
Proof.
  intros W Hc. unfold wouldEvict, wouldEvictLocked. rewrite (run_bind _ _ _ _ _ (get_desc_run _ _ _ Hc)).
  assert (getCurrentCostLocked m = Some (total_cost ds, m)) as Ht.
  { unfold getCurrentCostLocked, bind at 1, get. by rewrite (run_bind _ _ _ _ _ (read_clients _ _ W)). }
  rewrite (run_bind _ _ _ _ _ Ht). unfold bind at 1, get. rewrite (run_bind _ _ _ _ _ (read_clients _ _ W)). unfold would_evict.
  destruct (evict_loop _ _ _ _ _ ds) as [[t r]|]; [|done]. by case_match.
Qed.

Lemma getIncompatibleClients_run m ds cp c :
  cm_wf m ds -> descs m !! cp = Some c ->
  getIncompatibleClients (Some cp) m =
    Some (Some <$> (filter (fun x => incompatible (mMaxCost m) (total_cost ds + mCost c) c x.2 = true) ds).*1, m).
Proof.
  intros W Hc. unfold getIncompatibleClients, wouldEvictLocked. rewrite (run_bind _ _ _ _ _ (get_desc_run _ _ _ Hc)).
  assert (getCurrentCostLocked m = Some (total_cost ds, m)) as Ht.
  { unfold getCurrentCostLocked, bind at 1, get. by rewrite (run_bind _ _ _ _ _ (read_clients _ _ W)). }
  rewrite (run_bind _ _ _ _ _ Ht). unfold bind at 1, get. by rewrite (run_bind _ _ _ _ _ (read_clients _ _ W)).
Qed.

(** The [remove_if] of [addAndEvict] reads past the end of the vector of evicted
    clients unless the last client is one of them. *)
Lemma remove_evicted_run m es ds :
  live m ds -> NoDup ds.*1 -> es `sublist_of` ds -> (forall x y, x ∈ ds -> y ∈ ds -> mKey x.2 = mKey y.2 -> x = y) ->
  remove_evicted (Some <$> es.*1) ds.*1 m =
    if decide (last es.*1 = last ds.*1) then Some ((kept es ds).*1, m) else None.
Proof.
  intros Hl Hnd Hs. revert Hl Hnd. induction Hs as [|[p d] es ds Hs IH|[p d] es ds Hs IH]; intros Hl Hnd Hk; [done|..];
    apply Forall_cons in Hl as [Hp Hl]; simpl in Hnd, Hp; apply NoDup_cons in Hnd as [Hni Hnd]; cbn [fmap list_fmap fst remove_evicted];
    specialize (IH Hl Hnd ltac:(intros; apply Hk; [by right|by right|done])); rewrite (run_bind _ _ _ _ _ (get_desc_run p d m Hp)).
  - rewrite (run_bind _ _ _ _ _ (get_desc_run p d m Hp)), bool_decide_true, IH by done.
    assert (kept ((p, d) :: es) ((p, d) :: ds) = kept es ds) as ->.
    { unfold kept. rewrite filter_cons_False by (simpl; intros H; apply H; by left). apply filter_same. intros x Hx.
      assert (x.1 <> p) by (intros <-; apply Hni; by apply list_elem_of_fmap_2). cbn [fmap list_fmap fst]. set_solver. }
    assert (last (p :: es.*1) = last (p :: ds.*1) <-> last es.*1 = last ds.*1) as Hiff.
    { destruct es as [|e es], ds as [|d' ds]; [done| |by apply sublist_nil_r in Hs|by cbn [fmap list_fmap]; rewrite !last_cons_cons].
      cbn [fmap list_fmap]. rewrite last_cons_cons. simpl (last []). split; intros H; exfalso.
      - apply Hni. apply last_Some_elem_of. exact (eq_sym H).
      - symmetry in H. apply last_None in H. done. }
    destruct (decide (last es.*1 = last ds.*1)), (decide (last (p :: es.*1) = last (p :: ds.*1))); tauto || done.
  - assert (p ∉ es.*1) as Hpe. { intros (y & -> & Hy)%list_elem_of_fmap_1. apply Hni, list_elem_of_fmap_2. by eapply elem_of_sublist. }
    destruct es as [|[e de] es].
    { cbn [fmap list_fmap]. rewrite decide_False; [done|]. simpl. intros H. symmetry in H. by apply last_None in H. }
    assert ((e, de) ∈ ds) as He by (eapply elem_of_sublist; [|done]; by left). pose proof (live_in _ _ _ Hl He) as Hde. simpl in Hde.
    cbn [fmap list_fmap fst]. rewrite (run_bind _ _ _ _ _ (get_desc_run e de m Hde)), bool_decide_false.
    2:{ intros Hkk. assert ((p, d) = (e, de)) as [= -> ->] by (apply Hk; [by left|by right|done]). apply Hpe. simpl. by left. }
    destruct ds as [|d' ds]; [by rewrite elem_of_nil in He|]. cbn [fmap list_fmap fst] in IH |- *. rewrite last_cons_cons.
    assert (kept ((e, de) :: es) ((p, d) :: d' :: ds) = (p, d) :: kept ((e, de) :: es) (d' :: ds)) as -> by (unfold kept; by rewrite filter_cons_True).
    destruct (decide (last (e :: es.*1) = last (d'.1 :: ds.*1))).
    + by rewrite (run_bind _ _ _ _ _ IH).
    + by rewrite (run_bind_ub _ _ _ IH).
Qed.

(** ** The operations *)

Definition upd_clients (cs : list loc) (evs : list cm_event) m : CM :=
  {| mMaxCost := mMaxCost m; mClients := cs; mListener := mListener m; descs := descs m;
     events := events m ++ (if mListener m then evs else []) |}.

Lemma tell_clients e m : tell e m = upd_clients (mClients m) [e] m.
Proof. unfold tell, upd_clients. destruct m as [? ? [] ? ?]; simpl; [done|by rewrite app_nil_r]. Qed.

Lemma set_clients_upd cs m : set_clients cs m = upd_clients cs [] m.
Proof. unfold set_clients, upd_clients. destruct m as [? ? [] ? ?]; simpl; by rewrite app_nil_r. Qed.

Lemma upd_upd cs cs' e e' m : upd_clients cs e (upd_clients cs' e' m) = upd_clients cs (e' ++ e) m.
Proof. unfold upd_clients. simpl. destruct (mListener m); by rewrite <- app_assoc. Qed.

Lemma upd_same m : upd_clients (mClients m) [] m = m.
Proof. unfold upd_clients. destruct m as [? ? [] ? ?]; simpl; by rewrite app_nil_r. Qed.

Lemma get_desc_upd p d cs evs m : descs m !! p = Some d -> get_desc p (upd_clients cs evs m) = Some (d, upd_clients cs evs m).
Proof. intros H. by apply get_desc_run. Qed.

(** The last steps of [addAndEvict]. *)
Lemma push_run r cp c m :
  descs m !! cp = Some c ->
  (let* p := deref (Some cp) in
   get_desc p >> modify (tell (onClientAdded p)) >> modify (fun m => set_clients (mClients m ++ [p]) m) >> ret r) m =
  Some (r : list (option loc), upd_clients (mClients m ++ [cp]) [onClientAdded cp] m).
Proof.
  intros Hc. unfold deref, bind at 1, ret at 1. rewrite (run_bind _ _ _ _ _ (get_desc_run _ _ _ Hc)). unfold bind, modify, ret.
  by rewrite tell_clients, set_clients_upd, upd_upd.
Qed.

Lemma add_run m ds cp c :
  cm_wf m ds -> descs m !! cp = Some c -> cp ∉ ds.*1 ->
  (would_evict (mMaxCost m) cp c ds = [cp] /\ refused (mMaxCost m) c ds /\ addAndEvict (Some cp) m = Some ([Some cp], m)) \/
  exists es, would_evict (mMaxCost m) cp c ds = es.*1 /\
    chosen (mMaxCost m) c (highestPriorityOwner c ds) (total_cost ds + mCost c) ds es /\
    (total_cost ds + mCost c - total_cost es <= mMaxCost m \/ highestPriorityOwner c ds = mOwnerId c) /\
    addAndEvict (Some cp) m =
      if decide (es.*1 = [] \/ last es.*1 = last ds.*1) then
        Some (Some <$> es.*1,
          upd_clients ((kept es ds).*1 ++ [cp]) (match es with [] => [] | e :: _ => [onClientRemoved e.1] end ++ [onClientAdded cp]) m)
      else None.
Proof.
  intros W Hc Hni. pose proof (wouldEvict_run m ds cp c W Hc) as Hw. unfold wouldEvict in Hw.
  unfold addAndEvict. rewrite (run_bind _ _ _ _ _ Hw). destruct (would_evict_spec (mMaxCost m) cp c ds) as [[-> Hr]|(es & -> & Hch & Hcost)].
  { left. split_and!; [done|done|]. cbn [fmap list_fmap]. by rewrite bool_decide_true. }
  right. exists es. split_and!; [done|done|done|]. pose proof (ch_sub _ _ _ _ _ _ Hch) as Hs. pose proof W as [Hp Hl Hnd _].
  destruct es as [|[e de] es].
  - cbn [fmap list_fmap]. rewrite decide_True by by left. unfold bind at 1, ret at 1. rewrite (push_run [] cp c m Hc), Hp.
    assert (kept [] ds = ds) as ->; [|done]. unfold kept. clear. induction ds as [|x ds IH]; [done|]. rewrite filter_cons_True by apply not_elem_of_nil. by rewrite IH.
  - assert ((e, de) ∈ ds) as He by (eapply elem_of_sublist; [|done]; by left). pose proof (live_in _ _ _ Hl He) as Hde. simpl in Hde.
    assert (e <> cp) as Hne by (intros ->; apply Hni; by apply (list_elem_of_fmap_2 fst ds (cp, de))).
    cbn [fmap list_fmap fst]. rewrite bool_decide_false by congruence.
    pose proof (remove_evicted_run (tell (onClientRemoved e) m) ((e, de) :: es) ds) as Hrm. rewrite tell_clients in Hrm.
    specialize (Hrm Hl Hnd Hs (fun x y Hx Hy => wf_key_inj m ds x y W Hx Hy)). cbn [fmap list_fmap fst] in Hrm.
    match goal with |- bind ?x _ m = _ => assert (x m = if decide (last (e :: es.*1) = last ds.*1)
      then Some (tt, upd_clients (kept ((e, de) :: es) ds).*1 [onClientRemoved e] m) else None) as Hpre end.
    { unfold deref, bind at 1, ret at 1. rewrite (run_bind _ _ _ _ _ (get_desc_run _ _ _ Hde)). unfold bind at 1, modify at 1.
      rewrite tell_clients. unfold bind at 1, get. cbn [mClients upd_clients]. rewrite Hp in Hrm |- *.
      destruct (decide _); [by rewrite (run_bind _ _ _ _ _ Hrm); unfold modify; rewrite set_clients_upd, upd_upd|by rewrite (run_bind_ub _ _ _ Hrm)]. }
    destruct (decide (last (e :: es.*1) = last ds.*1)) as [Hlast|Hlast].
    + rewrite decide_True by by right. rewrite (run_bind _ _ _ _ _ Hpre).
      rewrite (push_run _ cp c) by done. by rewrite upd_upd.
    + rewrite decide_False by naive_solver. by rewrite (run_bind_ub _ _ _ Hpre).
Qed.

Lemma remove_loop_run p ds m :
  live m ds ->
  remove_loop p ds.*1 m =
    Some (((filter (fun x => p x.1 x.2 = false) ds).*1, last (filter (fun x => p x.1 x.2 = true) ds).*1),
          upd_clients (mClients m) (onClientRemoved <$> (filter (fun x => p x.1 x.2 = true) ds).*1) m).
Proof.
  intros Hl. revert m Hl. induction ds as [|[q d] ds IH]; intros m Hl; [by cbn; rewrite upd_same|]. apply Forall_cons in Hl as [Hq Hl]. simpl in Hq.
  cbn [fmap list_fmap fst remove_loop]. rewrite (run_bind _ _ _ _ _ (get_desc_run q d m Hq)), !filter_cons. cbn [fst snd]. destruct (p q d); simpl.
  - unfold bind at 1, modify. rewrite tell_clients. specialize (IH (upd_clients (mClients m) [onClientRemoved q] m) Hl).
    rewrite (run_bind _ _ _ _ _ IH). unfold ret. simpl. rewrite upd_upd. do 2 f_equal. f_equal.
    destruct (filter (fun x => p x.1 x.2 = true) ds) as [|x l]; [done|]. cbn [fmap list_fmap]. rewrite last_cons_cons.
    destruct (last (x.1 :: l.*1)) eqn:Hla; [done|]. by apply last_None in Hla.
  - by rewrite (run_bind _ _ _ _ _ (IH m Hl)).
Qed.

Lemma wf_sub m ds ds' evs : cm_wf m ds -> ds' `sublist_of` ds -> cm_wf (upd_clients ds'.*1 evs m) ds'.
Proof.
  intros [_ Hl Hnd Hp] Hs. assert (forall x, x ∈ ds' -> x ∈ ds) as Hin by (intros; by eapply elem_of_sublist). constructor; simpl.
  - done.
  - unfold live in *. rewrite Forall_forall in Hl |- *. auto.
  - clear -Hs Hnd. induction Hs as [|x l1 l2 Hs IH|x l1 l2 Hs IH]; [done|..]; cbn [fmap list_fmap] in *; apply NoDup_cons in Hnd as [Hni Hnd]; [|auto].
    apply NoDup_cons. split; [|auto]. intros (y & He & Hy)%list_elem_of_fmap_1. apply Hni. rewrite He. apply list_elem_of_fmap_2. by eapply elem_of_sublist.
  - auto.
Qed.

Lemma wf_push m ds cp c evs :
  cm_wf m ds -> descs m !! cp = Some c -> cp ∉ ds.*1 -> (forall x, x ∈ ds -> conflicting c x.2 = false) ->
  cm_wf (upd_clients (ds.*1 ++ [cp]) evs m) (ds ++ [(cp, c)]).
Proof.
  intros [_ Hl Hnd Hp] Hc Hni Hcc. constructor; simpl.
  - by rewrite fmap_app.
  - apply Forall_app. split; [done|]. by repeat constructor.
  - rewrite fmap_app. apply NoDup_app. split_and!; [done| |apply NoDup_singleton]. intros x Hx ->%list_elem_of_singleton. done.
  - intros x y [Hx| ->%list_elem_of_singleton]%elem_of_app [Hy| ->%list_elem_of_singleton]%elem_of_app Hne; simpl; [auto|by rewrite conflicting_sym; apply Hcc|auto|done].
Qed.

Lemma remove_key_run m ds k :
  cm_wf m ds ->
  remove_key k m = Some (last (filter (fun x => mKey x.2 = k) ds).*1,
    upd_clients (filter (fun x => mKey x.2 <> k) ds).*1 (onClientRemoved <$> (filter (fun x => mKey x.2 = k) ds).*1) m).
Proof.
  intros W. pose proof W as [Hp Hl _ _]. unfold remove_key, bind at 1, get. rewrite Hp.
  rewrite (run_bind _ _ _ _ _ (remove_loop_run _ ds m Hl)). unfold bind, modify, ret. simpl. rewrite set_clients_upd, upd_upd, app_nil_r.
  rewrite (filter_same (fun x => bool_decide (mKey x.2 = k) = true) (fun x => mKey x.2 = k)) by (intros; apply bool_decide_eq_true).
  by rewrite (filter_same (fun x => bool_decide (mKey x.2 = k) = false) (fun x => mKey x.2 <> k)) by (intros; apply bool_decide_eq_false).
Qed.

Lemma remove_client_run m ds p :
  cm_wf m ds ->
  remove_client (Some p) m = Some (tt,
    upd_clients (filter (fun x => x.1 <> p) ds).*1 (onClientRemoved <$> (filter (fun x => x.1 = p) ds).*1) m).
Proof.
  intros W. pose proof W as [Hp Hl _ _]. unfold remove_client, bind at 1, get. rewrite Hp.
  rewrite (run_bind _ _ _ _ _ (remove_loop_run _ ds m Hl)). unfold modify. simpl. rewrite set_clients_upd, upd_upd, app_nil_r.
  rewrite (filter_same (fun x => bool_decide (Some x.1 = Some p) = true) (fun x => x.1 = p)) by (intros; rewrite bool_decide_eq_true; naive_solver).
  by rewrite (filter_same (fun x => bool_decide (Some x.1 = Some p) = false) (fun x => x.1 <> p)) by (intros; rewrite bool_decide_eq_false; naive_solver).
Qed.

Lemma removeAll_run m ds : cm_wf m ds -> removeAll m = Some (tt, upd_clients [] (onClientRemoved <$> ds.*1) m).
Proof.
  intros W. unfold removeAll, bind at 1, get. rewrite (run_bind _ _ _ _ _ (read_clients _ _ W)). unfold bind, modify. rewrite (cw_ptrs _ _ W).
  assert (foldl (fun m i => tell (onClientRemoved i) m) m ds.*1 = upd_clients (mClients m) (onClientRemoved <$> ds.*1) m) as ->; [|by rewrite set_clients_upd, upd_upd, app_nil_r].
  clear W. revert m. induction ds.*1 as [|p l IH]; intros m; simpl; [by rewrite upd_same|]. by rewrite tell_clients, IH, upd_upd.
Qed.

(** A change of priorities leaves everything else. *)
Record relabel (x y : loc * Desc) : Prop := {
  rl_ptr : y.1 = x.1;
  rl_key : mKey y.2 = mKey x.2;
  rl_conf : mConflicting y.2 = mConflicting x.2;
  rl_cost : mCost y.2 = mCost x.2;
  rl_owner : mOwnerId y.2 = mOwnerId x.2;
  rl_value : mValue y.2 = mValue x.2
}.

#[local] Instance relabel_refl : Reflexive relabel.
Proof. done. Qed.
#[local] Instance relabel_trans : Transitive relabel.
Proof. intros x y z [] []. constructor; congruence. Qed.

Lemma setPriority_relabel q p d d' : setPriority p d = Some d' -> relabel (q, d) (q, d').
Proof. unfold setPriority. intros H. destruct (mIsVendorClient (mPriority d)); [by simplify_eq|]. destruct (setScore _ _); by simplify_eq. Qed.

Lemma conflicting_relabel x x' y y' : relabel x x' -> relabel y y' -> conflicting x'.2 y'.2 = conflicting x.2 y.2.
Proof. intros [_ Hk1 Hc1 _ _ _] [_ Hk2 Hc2 _ _ _]. unfold conflicting, isConflicting. by rewrite Hk1, Hc1, Hk2, Hc2. Qed.

Lemma Forall2_in_r {A B} (R : A -> B -> Prop) l k y : Forall2 R l k -> y ∈ k -> exists x, x ∈ l /\ R x y.
Proof. induction 1 as [|a b l k Hab H IH]; [by rewrite elem_of_nil|]. intros [->|Hy]%elem_of_cons; [exists a|destruct (IH Hy) as (x & ? & ?); exists x]; (split; [set_solver|done]). Qed.

Lemma wf_relabel m ds ds' h :
  cm_wf m ds -> Forall2 relabel ds ds' -> (forall x, x ∈ ds' -> h !! x.1 = Some x.2) -> cm_wf (set_descs h m) ds'.
Proof.
  intros [Hp Hl Hnd Hpe] Hr Hh. assert (ds'.*1 = ds.*1) as He by (clear -Hr; induction Hr as [|x y ds ds' [Hxy] _ IH]; [done|]; cbn; by rewrite Hxy, IH).
  constructor; [by rewrite He| |by rewrite He|].
  - apply Forall_forall. intros x Hx. by apply Hh.
  - intros x y (x0 & Hx0 & Hx)%(Forall2_in_r _ _ _ _ Hr) (y0 & Hy0 & Hy)%(Forall2_in_r _ _ _ _ Hr) Hne.
    rewrite (conflicting_relabel _ _ _ _ Hx Hy). apply Hpe; [done|done|]. by rewrite <- (rl_ptr _ _ Hx), <- (rl_ptr _ _ Hy).
Qed.

Lemma update_loop_inv opl ds1 ds2 m m' :
  cm_wf m (ds1 ++ ds2) -> update_loop opl ds2.*1 m = Some (tt, m') ->
  exists ds', cm_wf m' ds' /\ Forall2 relabel (ds1 ++ ds2) ds' /\ mMaxCost m' = mMaxCost m.
Proof.
  revert ds1 m. induction ds2 as [|[p d] ds2 IH]; intros ds1 m W Hu; [injection Hu as <-; exists (ds1 ++ []); by split_and!|]. cbn [fmap list_fmap fst update_loop] in Hu.
  pose proof (cw_live _ _ W) as Hl. assert (descs m !! p = Some d) as Hp by (apply (live_in m (ds1 ++ (p, d) :: ds2) (p, d) Hl); set_solver).
  rewrite (run_bind _ _ _ _ _ (get_desc_run p d m Hp)) in Hu.
  destruct (opl !! mOwnerId d) as [pr|].
  - destruct (setPriority pr d) as [d'|] eqn:Hs; [|done]. apply (setPriority_relabel p) in Hs. unfold deref, bind, modify, ret in Hu.
    assert (Forall2 relabel (ds1 ++ (p, d) :: ds2) ((ds1 ++ [(p, d')]) ++ ds2)) as Hr.
    { rewrite <- app_assoc. apply Forall2_app; [done|]. by constructor. }
    edestruct (IH (ds1 ++ [(p, d')])) as (ds' & W' & Hr' & Hm); [|exact Hu|exists ds'; split_and!; [done|by etrans|done]].
    apply (wf_relabel m _ _ _ W Hr). pose proof (cw_nodup _ _ W) as Hnd. rewrite fmap_app in Hnd. cbn [fmap list_fmap fst] in Hnd.
    apply NoDup_app in Hnd as (_ & Hn12 & [Hn2 _]%NoDup_cons). rewrite <- app_assoc. intros x [Hx|[->|Hx]%elem_of_cons]%elem_of_app; [|by apply lookup_insert_eq|].
    + rewrite lookup_insert_ne; [apply (live_in m _ x Hl); set_solver|]. intros ->. apply (Hn12 x.1); [by apply list_elem_of_fmap_2|by left].
    + rewrite lookup_insert_ne; [apply (live_in m _ x Hl); set_solver|]. intros ->. by apply Hn2, list_elem_of_fmap_2.
  - unfold bind, ret in Hu. edestruct (IH (ds1 ++ [(p, d)])) as (ds' & W' & Hr' & Hm); [by rewrite <- app_assoc|exact Hu|]. rewrite <- app_assoc in Hr'. eauto.
Qed.

(** ** Sequences of operations *)

(** [make_shared] of a descriptor. *)
Definition alloc_desc d : M CM loc :=
  let* m := get in
  let p := fresh (dom (descs m)) in
  modify (set_descs (<[p := d]> (descs m))) >> ret p.

Inductive cm_op :=
  | OpAdd (d : Desc)
  | OpRemoveKey (key : KEY)
  | OpRemoveClient (p : loc)
  | OpRemoveAll
  | OpUpdatePriorities (ownerPriorityList : gmap Z ClientPriority)
  | OpSetListener.

Definition run_cm_op (op : cm_op) : M CM unit :=
  match op with
  | OpAdd d => let* p := alloc_desc d in addAndEvict (Some p) >> ret tt
  | OpRemoveKey key => remove_key key >> ret tt
  | OpRemoveClient p => remove_client (Some p)
  | OpRemoveAll => removeAll
  | OpUpdatePriorities l => updatePriorities l
  | OpSetListener => modify setListener
  end.

Fixpoint run_cm_ops (ops : list cm_op) : M CM unit :=
  match ops with [] => ret tt | op :: ops => run_cm_op op >> run_cm_ops ops end.

Lemma wf_set_descs m ds h : cm_wf m ds -> (forall x, x ∈ ds -> h !! x.1 = Some x.2) -> cm_wf (set_descs h m) ds.
Proof. intros [Hp Hl Hnd Hpe] Hh. constructor; [done| |done|done]. apply Forall_forall. intros x Hx. by apply Hh. Qed.

Lemma wf_alloc m ds d : 
  cm_wf m ds ->
  exists p m1, alloc_desc d m = Some (p, m1) /\ cm_wf m1 ds /\ descs m1 !! p = Some d /\ (p ∉ ds.*1) /\ m1 = set_descs (<[p := d]> (descs m)) m.
Proof.
  intros W. assert (descs m !! fresh (dom (descs m)) = None) as Hf by (apply not_elem_of_dom, is_fresh).
  exists (fresh (dom (descs m))), (set_descs (<[fresh (dom (descs m)) := d]> (descs m)) m).
  assert (forall x, x ∈ ds -> x.1 <> fresh (dom (descs m))) as Hne by (intros x Hx He; pose proof (live_in _ _ _ (cw_live _ _ W) Hx); congruence).
  split_and!; [done| |by apply lookup_insert_eq| |done].
  - apply wf_set_descs; [done|]. intros x Hx. rewrite (lookup_insert_ne _ _ _ _ (not_eq_sym (Hne x Hx))). by apply (live_in _ _ _ (cw_live _ _ W)).
  - intros (x & He & Hx)%list_elem_of_fmap_1. by apply (Hne x Hx).
Qed.

Lemma kept_peace maxCost c hpo t ds es x : chosen maxCost c hpo t ds es -> x ∈ kept es ds -> conflicting c x.2 = false.
Proof.
  intros Hch [Hx Hin]%list_elem_of_filter. destruct (conflicting c x.2) eqn:Hc; [|done]. destruct Hx.
  apply list_elem_of_fmap_2. by apply (ch_conflict _ _ _ _ _ _ Hch).
Qed.

Lemma kept_sub es ds : kept es ds `sublist_of` ds.
Proof. apply sublist_filter. Qed.

Lemma not_in_kept cp es ds : cp ∉ ds.*1 -> cp ∉ (kept es ds).*1.
Proof. intros Hni (x & -> & Hx)%list_elem_of_fmap_1. apply Hni, list_elem_of_fmap_2. by eapply elem_of_sublist, kept_sub. Qed.

Lemma wf_added m ds es cp c maxCost hpo t evs :
  cm_wf m ds -> descs m !! cp = Some c -> cp ∉ ds.*1 -> chosen maxCost c hpo t ds es ->
  cm_wf (upd_clients ((kept es ds).*1 ++ [cp]) evs m) (kept es ds ++ [(cp, c)]).
Proof.
  intros W Hc Hni Hch. pose proof (wf_sub m ds (kept es ds) [] W (kept_sub _ _)) as W1.
  pose proof (wf_push _ _ cp c evs W1 Hc (not_in_kept _ es _ Hni) (fun x => kept_peace _ _ _ _ _ _ x Hch)) as W2.
  by rewrite upd_upd in W2.
Qed.

Lemma run_cm_op_inv op m m' ds : cm_wf m ds -> run_cm_op op m = Some (tt, m') -> exists ds', cm_wf m' ds'.
Proof.
  intros W. destruct op as [d|key|p| |l|]; cbn [run_cm_op]; intros Hr.
  - destruct (wf_alloc m ds d W) as (p & m1 & Ha & W1 & Hp & Hni & _). rewrite (run_bind _ _ _ _ _ Ha) in Hr.
    destruct (add_run m1 ds p d W1 Hp Hni) as [(_ & _ & Had)|(es & _ & Hch & _ & Had)].
    + rewrite (run_bind _ _ _ _ _ Had) in Hr. injection Hr as <-. eauto.
    + destruct (decide _); [|by rewrite (run_bind_ub _ _ _ Had) in Hr]. rewrite (run_bind _ _ _ _ _ Had) in Hr. injection Hr as <-.
      eexists. by eapply wf_added.
  - rewrite (run_bind _ _ _ _ _ (remove_key_run m ds key W)) in Hr. injection Hr as <-. eexists. eapply wf_sub; [done|]. apply sublist_filter.
  - rewrite (remove_client_run m ds p W) in Hr. injection Hr as <-. eexists. eapply wf_sub; [done|]. apply sublist_filter.
  - rewrite (removeAll_run m ds W) in Hr. injection Hr as <-. exists []. apply (wf_sub m ds []); [done|]. apply sublist_nil_l.
  - unfold updatePriorities, bind at 1, get in Hr. rewrite (cw_ptrs _ _ W) in Hr. destruct (update_loop_inv l [] ds m m' W Hr) as (ds' & ? & _). eauto.
  - injection Hr as <-. exists ds. by destruct W.
Qed.

Lemma run_cm_ops_inv ops m m' ds : cm_wf m ds -> run_cm_ops ops m = Some (tt, m') -> exists ds', cm_wf m' ds'.
Proof.
  revert m ds. induction ops as [|op ops IH]; intros m ds W Hr; [injection Hr as <-; eauto|]. cbn [run_cm_ops] in Hr.
  destruct (run_cm_op op m) as [[[] m1]|] eqn:Ho; [|by rewrite (run_bind_ub _ _ _ Ho) in Hr]. rewrite (run_bind _ _ _ _ _ Ho) in Hr.
  destruct (run_cm_op_inv op m m1 ds W Ho) as [ds1 W1]. by eapply IH.
Qed.

Lemma new_wf n : cm_wf (new_ClientManager n) [].
Proof. constructor; simpl; [done|constructor|constructor|]. intros x y Hx. by apply elem_of_nil in Hx. Qed.
End manager.
