(* ===== verification/CamService.v ===== *)
(** * How the camera service admits clients ([camera/libcameraservice/CameraService.cpp])

    A connection is made in two steps: [handleEvictionsLocked] asks the client
    manager (CamClients.v) whom the new client displaces, disconnects them and waits
    until they are gone; [finishConnectLocked] adds the client and aborts the
    process if that evicts anybody after all.  A client that goes offline is added
    beside the online one.  Clients are objects on a heap; what the operating
    system says of processes, and what other threads do while the service lock is
    released, are arguments. *)
From S2P Require Import Prelude Heap StateM CamClients.
From stdpp Require Import base list gmap sets strings.
From Stdlib Require Import ZArith Lia.

Open Scope Z_scope.
Open Scope method_scope.

(** ** Data *)

Definition BAD_VALUE : Z := -22.
Definition ENODEV : Z := 19.
Definition EBUSY : Z := 16.
Definition EUSERS : Z := 87.

Definition kVendorClientScore : Z := 200.
(** The platform's [PROCESS_STATE_PERSISTENT_UI]. *)
Definition kVendorClientState : Z := 1.
Definition kOfflineDevice : string := "offline-".

Inductive apiLevel := API_1 | API_2.
#[export] Instance apiLevel_eq_dec : EqDecision apiLevel.
Proof. solve_decision. Defined.

Inductive StatusInternal := NOT_PRESENT | PRESENT | ENUMERATING | NOT_AVAILABLE | UNKNOWN.

Record CameraState := { cs_cost : Z; cs_conflicting : list string; cs_status : StatusInternal }.

(** [api] is the level [canCastToApiClient] accepts. *)
Record BasicClient := { mRemoteBinder : Z; api : apiLevel; mDisconnected : bool }.

Abbreviation Descriptor := (ClientDescriptor string (option loc)).

Record CameraService := {
  mActiveClientManager : ClientManager string (option loc);
  basic_clients : gmap loc BasicClient;
  mCameraStates : gmap string CameraState;
  notified : list loc
}.

Definition set_manager (m : ClientManager string (option loc)) (s : CameraService) : CameraService :=
  {| mActiveClientManager := m; basic_clients := basic_clients s; mCameraStates := mCameraStates s; notified := notified s |}.
Definition set_basic (h : gmap loc BasicClient) (s : CameraService) : CameraService :=
  {| mActiveClientManager := mActiveClientManager s; basic_clients := h; mCameraStates := mCameraStates s; notified := notified s |}.

(** A call of the client manager. *)
Definition cm {A} (f : M (ClientManager string (option loc)) A) : M CameraService A :=
  fun s => match f (mActiveClientManager s) with Some (x, m) => Some (x, set_manager m s) | None => None end.

(** What [ProcessInfoService] answers: an error, or state and score of a process. *)
Record ProcessInfo := { pi_err : Z; pi_state : Z -> Z; pi_score : Z -> Z }.

(** A function returns, or aborts the process ([LOG_ALWAYS_FATAL]). *)
Inductive outcome (A : Type) := Done (x : A) | Aborted.
Arguments Done {A}.
Arguments Aborted {A}.

(** ** Descriptors *)

(** [make_shared] of a descriptor. *)
Definition make_shared (d : Descriptor) : M CameraService loc :=
  cm (let* m := get in
      let p := fresh (dom (descs m)) in
      modify (set_descs (<[p := d]> (descs m))) >> ret p).

(** [makeClientDescriptor]; [hwbinder] tells who makes the call. *)
Definition makeClientDescriptor (hwbinder : bool) (key : string) (value : option loc) (cost : Z) (conflictingKeys : list string)
    (score ownerId state oomScoreOffset : Z) : M CameraService loc :=
  let* p := deref (new_ClientPriority (if hwbinder then kVendorClientScore else score)
                     (if hwbinder then kVendorClientState else state) hwbinder oomScoreOffset) in
  make_shared {| mKey := key; mValue := value; mCost := cost; mConflicting := conflictingKeys; mPriority := p; mOwnerId := ownerId |}.

Definition makeClientDescriptor_partial (hwbinder : bool) (value : option loc) (partial : loc) (oomScoreOffset : Z) : M CameraService loc :=
  let* d := cm (get_desc partial) in
  makeClientDescriptor hwbinder (mKey d) value (mCost d) (mConflicting d) (mScore (mPriority d)) (mOwnerId d)
    (mState (mPriority d)) oomScoreOffset.

(** ** Clients that go *)

Fixpoint remove_by_client (client : loc) (l : list loc) : M CameraService unit :=
  match l with
  | [] => ret tt
  | i :: l =>
      let* d := cm (get_desc i) in
      (if bool_decide (mValue d = Some client) then cm (remove_client (Some i)) else ret tt) >> remove_by_client client l
  end.

Definition removeByClient (client : loc) : M CameraService unit :=
  let* l := cm getAll in remove_by_client client l.

(** [BasicClient::disconnect] as far as the service is concerned. *)
Definition disconnect (client : loc) : M CameraService unit :=
  let* s := get in
  let* b := deref (basic_clients s !! client) in
  if mDisconnected b then ret tt
  else
    modify (fun s => set_basic (<[client := {| mRemoteBinder := mRemoteBinder b; api := api b; mDisconnected := true |}]> (basic_clients s)) s) >>
    removeByClient client.

Definition removeClientLocked (cameraId : string) : M CameraService (option loc) :=
  let* p := cm (remove_key cameraId) in
  match p with
  | None => ret None
  | Some p => let* d := cm (get_desc p) in ret (mValue d)
  end.

(** [notifyError] of a client. *)
Definition notify_disconnected (client : loc) : M CameraService unit :=
  modify (fun s => {| mActiveClientManager := mActiveClientManager s; basic_clients := basic_clients s;
                      mCameraStates := mCameraStates s; notified := notified s ++ [client] |}).

Fixpoint evict_by_remote (remote : Z) (l : list loc) : M CameraService (list loc) :=
  match l with
  | [] => ret []
  | i :: l =>
      let* d := cm (get_desc i) in
      match mValue d with
      | None => cm (remove_client (Some i)) >> evict_by_remote remote l
      | Some c =>
          let* s := get in
          let* b := deref (basic_clients s !! c) in
          if remote =? mRemoteBinder b then
            cm (remove_client (Some i)) >> notify_disconnected c >>
            let* r := evict_by_remote remote l in ret (c :: r)
          else evict_by_remote remote l
      end
  end.

Fixpoint disconnect_all (l : list loc) : M CameraService unit :=
  match l with [] => ret tt | c :: l => disconnect c >> disconnect_all l end.

Definition evictClientIdByRemote (remote : Z) : M CameraService bool :=
  let* l := cm getAll in
  let* evicted := evict_by_remote remote l in
  disconnect_all evicted >> ret (match evicted with [] => false | _ => true end).

Definition checkIfDeviceIsUsable (cameraId : string) : M CameraService Z :=
  let* s := get in
  ret (match mCameraStates s !! cameraId with
       | None => - ENODEV
       | Some st =>
           match cs_status st with
           | NOT_PRESENT => - ENODEV
           | ENUMERATING => - EBUSY
           | _ => 0
           end
       end).

(** ** Connecting *)

(** The early return for a second connection of the same application (API 1). *)
Definition same_client (cameraId : string) (effectiveApiLevel : apiLevel) (remoteCallback : Z) : M CameraService (option loc) :=
  match effectiveApiLevel with
  | API_2 => ret None
  | API_1 =>
      let* current := cm (get_client cameraId) in
      match current with
      | None => ret None
      | Some p =>
          let* d := cm (get_desc p) in
          match mValue d with
          | None => ret None
          | Some c =>
              let* s := get in
              let* b := deref (basic_clients s !! c) in
              if negb (bool_decide (api b = effectiveApiLevel)) then ret None
              else ret (if mRemoteBinder b =? remoteCallback then Some c else None)
          end
      end
  end.

(** The map from owners to priorities. *)
Fixpoint priorities_of (pi : ProcessInfo) (owners : list Z) : option (gmap Z ClientPriority) :=
  match owners with
  | [] => Some ∅
  | o :: owners =>
      match new_ClientPriority (pi_score pi o) (pi_state pi o) false 0, priorities_of pi owners with
      | Some p, Some m => Some (<[o := p]> m)
      | _, _ => None
      end
  end.

(** The values of the evicted clients, each of which is told; [None] when one has none. *)
Fixpoint notify_evicted (evicted : list (option loc)) : M CameraService (option (list (loc * loc))) :=
  match evicted with
  | [] => ret (Some [])
  | i :: evicted =>
      let* p := deref i in
      let* d := cm (get_desc p) in
      match mValue d with
      | None => ret None
      | Some c =>
          notify_disconnected c >>
          let* r := notify_evicted evicted in
          ret (match r with Some r => Some ((p, c) :: r) | None => None end)
      end
  end.

(** The waits for the evicted clients, with what happens during each. *)
Fixpoint wait_all (wakeups : list (list loc)) (evicted : list loc) : M CameraService Z :=
  match evicted with
  | [] => ret 0
  | i :: evicted =>
      let* r := cm (waitUntilRemoved wakeups i) in
      if r =? TIMED_OUT then ret (- EBUSY) else
      if negb (r =? 0) then ret r else wait_all wakeups evicted
  end.

(** The log of a refusal reads the clients in the way. *)
Fixpoint log_blockers (l : list (option loc)) : M CameraService unit :=
  match l with
  | [] => ret tt
  | i :: l => let* p := deref i in let* d := cm (get_desc p) in deref (mValue d) >> log_blockers l
  end.

(** The result of [handleEvictionsLocked]: status, [*client] and [*partial]. *)
Definition evictions : Type := outcome (Z * option loc * option loc).

Definition done_status (r : Z) : evictions := Done (r, None, None).

(** [handleEvictionsLocked] from the new descriptor on. *)
Definition evict_for (clientDescriptor : loc) (cameraId : string) (wakeups : list (list loc)) : M CameraService evictions :=
  let* evicted := cm (wouldEvict (Some clientDescriptor)) in
  if bool_decide (Some clientDescriptor ∈ evicted) then
    let* incompatibleClients := cm (getIncompatibleClients (Some clientDescriptor)) in
    log_blockers incompatibleClients >>
    let* current := cm (get_client cameraId) in
    ret (done_status (match current with Some _ => - EBUSY | None => - EUSERS end))
  else
    let* l := notify_evicted evicted in
    match l with
    | None => ret Aborted
    | Some l =>
        disconnect_all l.*2 >>
        let* r := wait_all wakeups l.*1 in
        if negb (r =? 0) then ret (done_status r) else
        let* r := checkIfDeviceIsUsable cameraId in
        if negb (r =? 0) then ret (done_status r) else
        ret (Done (0, None, Some clientDescriptor))
    end.

Definition handleEvictionsLocked (pi : ProcessInfo) (hwbinder : bool) (wakeups : list (list loc))
    (cameraId : string) (clientPid : Z) (effectiveApiLevel : apiLevel) (remoteCallback oomScoreOffset : Z) :
    M CameraService evictions :=
  let* same := same_client cameraId effectiveApiLevel remoteCallback in
  match same with
  | Some c => ret (Done (0, Some c, None))
  | None =>
      let* owners := cm getAllOwners in
      if negb (pi_err pi =? 0) then ret (done_status (pi_err pi)) else
      let* pidToPriorityMap := deref (priorities_of pi owners) in
      cm (updatePriorities pidToPriorityMap) >>
      let* s := get in
      match mCameraStates s !! cameraId with
      | None => ret (done_status BAD_VALUE)
      | Some state =>
          let* clientDescriptor :=
            makeClientDescriptor hwbinder cameraId None (cs_cost state) (cs_conflicting state) (pi_score pi clientPid) clientPid
              (pi_state pi clientPid) oomScoreOffset in
          evict_for clientDescriptor cameraId wakeups
      end
  end.

Definition finishConnectLocked (hwbinder : bool) (client : loc) (desc : loc) (oomScoreOffset : Z) : M CameraService (outcome unit) :=
  let* clientDescriptor := makeClientDescriptor_partial hwbinder (Some client) desc oomScoreOffset in
  let* evicted := cm (addAndEvict (Some clientDescriptor)) in
  ret (match evicted with [] => Done tt | _ => Aborted end).

(** [addOfflineClient] with the lock held; [init] is the result of the client's [initialize]. *)
Definition addOfflineClient (hwbinder : bool) (cameraId : string) (offlineClient : option loc) (init : Z) : M CameraService (outcome Z) :=
  match offlineClient with
  | None => ret (Done BAD_VALUE)
  | Some _ =>
      let* onlineClientDesc := cm (get_client cameraId) in
      match onlineClientDesc with
      | None => ret (Done BAD_VALUE)
      | Some online =>
          let* d := cm (get_desc online) in
          let* offlineClientDesc :=
            makeClientDescriptor hwbinder (kOfflineDevice +:+ mKey d) offlineClient 0 [] (mScore (mPriority d)) (mOwnerId d)
              (mState (mPriority d)) 0 in
          let* incompatibleClients := cm (getIncompatibleClients (Some offlineClientDesc)) in
          match incompatibleClients with
          | _ :: _ => ret (Done BAD_VALUE)
          | [] =>
              if negb (init =? 0) then ret (Done init)
              else
                let* evicted := cm (addAndEvict (Some offlineClientDesc)) in
                ret (match evicted with [] => Done 0 | _ => Aborted end)
          end
      end
  end.
