(* ===== verification/CamServiceRun.v ===== *)
(** * Runs of the camera service

    How the clients an admission displaces leave one by one, so that nobody is left
    for the final addition to displace. *)
From S2P Require Import Prelude Heap StateM CamClients CamPolicy CamManager CamService.
From stdpp Require Import base list gmap sets strings.
From Stdlib Require Import ZArith Lia.

Open Scope Z_scope.
Open Scope method_scope.

Section runs.
Abbreviation Desc := (ClientDescriptor string (option loc)).
Abbreviation CM := (ClientManager string (option loc)).
Implicit Types (s : CameraService) (m : CM) (ds es l : list (loc * Desc)) (c d : Desc).

Abbreviation mgr := mActiveClientManager.

(** Every active client is an object of its own that is connected. *)
Record clients_ok (h : gmap loc BasicClient) ds : Prop := {
  co_live : forall x, x ∈ ds -> exists v b, mValue x.2 = Some v /\ h !! v = Some b /\ mDisconnected b = false;
  co_inj : forall x y, x ∈ ds -> y ∈ ds -> mValue x.2 = mValue y.2 -> x = y
}.

Lemma cm_run {A} (f : M CM A) s x m : f (mgr s) = Some (x, m) -> cm f s = Some (x, set_manager m s).
Proof. unfold cm. by intros ->. Qed.

Lemma set_manager_same s : set_manager (mgr s) s = s.
Proof. by destruct s. Qed.

Lemma get_desc_cm p d s : descs (mgr s) !! p = Some d -> cm (get_desc p) s = Some (d, s).
Proof. intros H. rewrite (cm_run _ _ _ _ (get_desc_run _ _ _ H)). by rewrite set_manager_same. Qed.

Lemma clients_ok_sub h ds ds' : clients_ok h ds -> (forall x, x ∈ ds' -> x ∈ ds) -> clients_ok h ds'.
Proof. intros [Hl Hi] Hs. constructor; auto. Qed.

Lemma remove_by_client_skip v s l :
  live (mgr s) l -> (forall x, x ∈ l -> mValue x.2 <> Some v) -> remove_by_client v l.*1 s = Some (tt, s).
Proof.
  intros Hl. induction Hl as [|[p d] l Hp Hl IH]; intros Hv; [done|]. simpl in Hp. cbn [fmap list_fmap fst remove_by_client].
  rewrite (run_bind _ _ _ _ _ (get_desc_cm p d s Hp)), bool_decide_false by (apply (Hv (p, d)); by left). unfold bind, ret. apply IH.
  intros x Hx. apply Hv. by right.
Qed.

Lemma remove_by_client_app v (l1 l2 : list loc) s : remove_by_client v (l1 ++ l2) s = (remove_by_client v l1 >> remove_by_client v l2) s.
Proof.
  unfold bind. revert s. induction l1 as [|i l1 IH]; intros s; [done|]. cbn [app remove_by_client]. unfold bind.
  destruct (cm (get_desc i) s) as [[d s1]|]; [|done]. destruct (bool_decide (mValue d = Some v)); [|apply IH].
  by destruct (cm (remove_client (Some i)) s1) as [[[] s2]|].
Qed.

Lemma removeByClient_run v s l1 p d l2 :
  cm_wf (mgr s) (l1 ++ (p, d) :: l2) -> mValue d = Some v ->
  (forall x, x ∈ l1 ++ l2 -> mValue x.2 <> Some v) ->
  removeByClient v s = Some (tt, set_manager (upd_clients (l1 ++ l2).*1 [onClientRemoved p] (mgr s)) s).
Proof.
  intros W Hd Hv. pose proof W as [Hp Hl Hnd _]. unfold removeByClient.
  assert (cm getAll s = Some ((l1 ++ (p, d) :: l2).*1, s)) as Hg by (rewrite <- Hp; unfold cm, getAll, bind, get, ret; by rewrite set_manager_same).
  rewrite (run_bind _ _ _ _ _ Hg), fmap_app, remove_by_client_app. unfold live in Hl. apply Forall_app in Hl as [Hl1 Hl2]. apply Forall_cons in Hl2 as [Hpd Hl2]. simpl in Hpd.
  rewrite (run_bind _ _ _ _ _ (remove_by_client_skip v s l1 Hl1 (fun x Hx => Hv x (proj2 (elem_of_app _ _ _) (or_introl Hx))))).
  cbn [fmap list_fmap fst remove_by_client]. rewrite (run_bind _ _ _ _ _ (get_desc_cm p d s Hpd)), bool_decide_true by done.
  pose proof (remove_client_run (mgr s) _ p W) as Hr. rewrite fmap_app in Hnd. cbn [fmap list_fmap fst] in Hnd.
  apply NoDup_app in Hnd as (Hn1 & Hn12 & [Hn2 _]%NoDup_cons).
  assert (forall x, x ∈ l1 ++ l2 -> x.1 <> p) as Hne.
  { intros x [Hx|Hx]%elem_of_app <-; [|by apply Hn2, list_elem_of_fmap_2]. apply (Hn12 x.1); [by apply list_elem_of_fmap_2|by left]. }
  assert (filter (fun x => x.1 <> p) (l1 ++ (p, d) :: l2) = l1 ++ l2) as Hf1.
  { rewrite filter_app, filter_cons_False by (simpl; tauto). rewrite <- filter_app. apply filter_keep. auto. }
  assert (filter (fun x => x.1 = p) (l1 ++ (p, d) :: l2) = [(p, d)]) as Hf2.
  { rewrite filter_app, filter_cons_True by done. assert (forall l, (forall x, x ∈ l -> x.1 <> p) -> filter (fun x : loc * Desc => x.1 = p) l = []) as Hno.
    { intros l Hx. by apply filter_drop. }
    rewrite !Hno; [done| |]; intros x Hx; apply Hne; set_solver. }
  rewrite Hf1, Hf2 in Hr. cbn [fmap list_fmap fst] in Hr. rewrite (run_bind _ _ _ _ _ (cm_run _ _ _ _ Hr)).
  apply remove_by_client_skip; [done|]. intros x Hx. apply Hv. set_solver.
Qed.

Lemma disconnect_run v s l1 p d l2 :
  cm_wf (mgr s) (l1 ++ (p, d) :: l2) -> clients_ok (basic_clients s) (l1 ++ (p, d) :: l2) -> mValue d = Some v ->
  exists s', disconnect v s = Some (tt, s') /\ mgr s' = upd_clients (l1 ++ l2).*1 [onClientRemoved p] (mgr s) /\
    clients_ok (basic_clients s') (l1 ++ l2) /\ mCameraStates s' = mCameraStates s /\ notified s' = notified s.
Proof.
  intros W [Hl Hi] Hd. assert ((p, d) ∈ l1 ++ (p, d) :: l2) as Hin by set_solver.
  destruct (Hl _ Hin) as (v' & b & Hv & Hb & Hdis). simpl in Hv. rewrite Hd in Hv. injection Hv as <-.
  pose proof W as [_ _ Hnd _]. rewrite fmap_app in Hnd. cbn [fmap list_fmap fst] in Hnd. apply NoDup_app in Hnd as (_ & Hn12 & [Hn2 _]%NoDup_cons).
  assert (forall x, x ∈ l1 ++ l2 -> mValue x.2 <> Some v) as Hne.
  { intros x Hx He. assert (x = (p, d)) as -> by (apply Hi; [set_solver|done|simpl; congruence]).
    apply elem_of_app in Hx as [Hx|Hx]; [|by apply Hn2, (list_elem_of_fmap_2 fst l2 (p, d))].
    apply (Hn12 p); [by apply (list_elem_of_fmap_2 fst l1 (p, d))|by left]. }
  set (s1 := set_basic (<[v := {| mRemoteBinder := mRemoteBinder b; api := api b; mDisconnected := true |}]> (basic_clients s)) s).
  pose proof (removeByClient_run v s1 l1 p d l2 W Hd Hne) as Hr.
  exists (set_manager (upd_clients (l1 ++ l2).*1 [onClientRemoved p] (mgr s)) s1). split_and!; [|done| |done|done].
  - unfold disconnect, bind, get, deref. rewrite Hb. unfold ret at 1. rewrite Hdis. unfold modify. exact Hr.
  - constructor; [|intros x y ? ?; apply Hi; set_solver]. intros x Hx. destruct (Hl x ltac:(set_solver)) as (w & b' & Hw & Hb' & ?).
    exists w, b'. split_and!; [done| |done]. simpl. rewrite lookup_insert_ne; [done|]. intros ->. by apply (Hne x Hx).
Qed.

(** The pairs of pointer and client that [notify_evicted] collects. *)
Definition values es : list (loc * loc) := omap (fun x => match mValue x.2 with Some v => Some (x.1, v) | None => None end) es.

Lemma values_cons e v es : mValue e.2 = Some v -> values (e :: es) = (e.1, v) :: values es.
Proof. intros H. unfold values. cbn. by rewrite H. Qed.

Lemma notify_evicted_run s ds es :
  cm_wf (mgr s) ds -> clients_ok (basic_clients s) ds -> (forall x, x ∈ es -> x ∈ ds) ->
  exists s', notify_evicted (Some <$> es.*1) s = Some (Some (values es), s') /\ mgr s' = mgr s /\
    basic_clients s' = basic_clients s /\ mCameraStates s' = mCameraStates s /\ notified s' = notified s ++ (values es).*2.
Proof.
  intros W Hok. revert s W Hok. induction es as [|[e d] es IH]; intros s W Hok Hin.
  { exists s. simpl. by rewrite app_nil_r. }
  assert ((e, d) ∈ ds) as He by (apply Hin; by left). pose proof (live_in _ _ _ (cw_live _ _ W) He) as Hd. simpl in Hd.
  destruct (co_live _ _ Hok _ He) as (v & b & Hv & _). simpl in Hv. rewrite (values_cons (e, d) v es Hv).
  set (s1 := {| mActiveClientManager := mgr s; basic_clients := basic_clients s; mCameraStates := mCameraStates s; notified := notified s ++ [v] |}).
  destruct (IH s1 W Hok) as (s' & Hr & ? & ? & ? & Hn); [intros; apply Hin; by right|]. exists s'. split_and!; [|done|done|done|].
  - cbn [fmap list_fmap fst notify_evicted]. unfold deref, bind at 1, ret at 1. rewrite (run_bind _ _ _ _ _ (get_desc_cm e d s Hd)), Hv.
    unfold notify_disconnected, bind at 1, modify. fold s1. by rewrite (run_bind _ _ _ _ _ Hr).
  - rewrite Hn. simpl. by rewrite <- app_assoc.
Qed.

Lemma kept_cons e es k1 k2 : NoDup (k1 ++ e :: k2).*1 -> kept (e :: es) (k1 ++ e :: k2) = kept es (k1 ++ k2).
Proof.
  rewrite fmap_app. cbn [fmap list_fmap]. intros (Hn1 & Hn12 & [Hn2 _]%NoDup_cons)%NoDup_app. unfold kept.
  rewrite !filter_app, filter_cons_False by (cbn [fmap list_fmap]; set_solver). rewrite <- !filter_app. apply filter_same. intros x Hx.
  assert (x.1 <> e.1) as Hne.
  { intros He. apply elem_of_app in Hx as [Hx|Hx]; apply (list_elem_of_fmap_2 fst) in Hx; rewrite He in Hx; [apply (Hn12 e.1); [done|by left]|by apply Hn2]. }
  cbn [fmap list_fmap]. rewrite not_elem_of_cons. tauto.
Qed.

Lemma disconnect_all_run s ds es :
  cm_wf (mgr s) ds -> clients_ok (basic_clients s) ds -> es `sublist_of` ds ->
  exists s', disconnect_all (values es).*2 s = Some (tt, s') /\
    mgr s' = upd_clients (kept es ds).*1 (onClientRemoved <$> es.*1) (mgr s) /\
    clients_ok (basic_clients s') (kept es ds) /\ mCameraStates s' = mCameraStates s /\ notified s' = notified s.
Proof.
  revert s ds. induction es as [|e es IH]; intros s ds W Hok Hs.
  { exists s. assert (kept [] ds = ds) as -> by (apply filter_keep; intros; cbn; apply not_elem_of_nil). split_and!; [done| |done|done|done].
    rewrite <- (cw_ptrs _ _ W). cbn. by rewrite upd_same. }
  pose proof Hs as (k1 & k2 & -> & Hs')%sublist_cons_l. destruct e as [p d].
  destruct (co_live _ _ Hok (p, d)) as (v & b & Hv & _); [set_solver|]. simpl in Hv. rewrite (values_cons (p, d) v es Hv). cbn [fmap list_fmap snd disconnect_all].
  destruct (disconnect_run v s k1 p d k2 W Hok Hv) as (s1 & Hd & Hm & Hok1 & Hc1 & Hn1). rewrite (run_bind _ _ _ _ _ Hd).
  assert (cm_wf (mgr s1) (k1 ++ k2)) as W1.
  { rewrite Hm. eapply wf_sub; [done|]. apply sublist_app; [done|]. by apply sublist_cons. }
  destruct (IH s1 (k1 ++ k2) W1 Hok1) as (s' & Hr & Hm' & Hok' & Hc' & Hn'); [by apply sublist_inserts_l|].
  exists s'. rewrite (kept_cons (p, d) es k1 k2 (cw_nodup _ _ W)). split_and!; [done| |done|congruence|congruence].
  rewrite Hm', Hm, upd_upd. done.
Qed.

Lemma wait_all_run w s es ds : mClients (mgr s) = (kept es ds).*1 -> wait_all w es.*1 s = Some (0, s).
Proof.
  intros Hm. assert (forall ps, (forall p, p ∈ ps -> p ∉ mClients (mgr s)) -> wait_all w ps s = Some (0, s)) as H.
  { induction ps as [|p ps IH]; intros Hps; [done|]. cbn [wait_all].
    assert (cm (waitUntilRemoved w p) s = Some (0, s)) as Hw.
    { unfold cm. assert (waitUntilRemoved w p (mgr s) = Some (0, mgr s)) as ->; [|by rewrite set_manager_same].
      destruct w; cbn [waitUntilRemoved]; unfold bind at 1, get; rewrite decide_False; try done; apply Hps; by left. }
    rewrite (run_bind _ _ _ _ _ Hw). simpl. apply IH. intros q Hq. apply Hps. by right. }
  apply H. rewrite Hm. intros p Hp (x & -> & Hx)%list_elem_of_fmap_1. apply list_elem_of_filter in Hx as [Hx _]. done.
Qed.

Lemma values_fst es h : clients_ok h es -> (values es).*1 = es.*1.
Proof.
  intros [Hl _]. induction es as [|e es IH]; [done|]. destruct (Hl e) as (v & b & Hv & _); [by left|].
  rewrite (values_cons e v es Hv). cbn [fmap list_fmap fst]. f_equal. apply IH. intros x Hx. apply Hl. by right.
Qed.

(** The camera's own state decides the result once the others are gone. *)
Definition usable (cameraId : string) s : Z :=
  match mCameraStates s !! cameraId with
  | None => - ENODEV
  | Some st => match cs_status st with NOT_PRESENT => - ENODEV | ENUMERATING => - EBUSY | _ => 0 end
  end.

Lemma evict_for_run s ds p c cameraId w :
  cm_wf (mgr s) ds -> clients_ok (basic_clients s) ds -> descs (mgr s) !! p = Some c -> p ∉ ds.*1 ->
  (refused (mMaxCost (mgr s)) c ds /\
   exists code, evict_for p cameraId w s = Some (done_status code, s) /\ (code = - EBUSY \/ code = - EUSERS)) \/
  exists es s',
    chosen (mMaxCost (mgr s)) c (highestPriorityOwner c ds) (total_cost ds + mCost c) ds es /\
    (total_cost ds + mCost c - total_cost es <= mMaxCost (mgr s) \/ highestPriorityOwner c ds = mOwnerId c) /\
    evict_for p cameraId w s = Some (if usable cameraId s =? 0 then Done (0, None, Some p) else done_status (usable cameraId s), s') /\
    mgr s' = upd_clients (kept es ds).*1 (onClientRemoved <$> es.*1) (mgr s) /\ clients_ok (basic_clients s') (kept es ds) /\
    notified s' = notified s ++ (values es).*2.
Proof.
  intros W Hok Hc Hni. unfold evict_for. rewrite (run_bind _ _ _ _ _ (cm_run _ _ _ _ (wouldEvict_run _ _ _ _ W Hc))), set_manager_same.
  destruct (would_evict_spec (mMaxCost (mgr s)) p c ds) as [[-> Hr]|(es & -> & Hch & Hcost)].
  - left. split; [done|]. rewrite bool_decide_true by (cbn; by left).
    rewrite (run_bind _ _ _ _ _ (cm_run _ _ _ _ (getIncompatibleClients_run _ _ _ _ W Hc))), set_manager_same.
    match goal with |- context [log_blockers (Some <$> (filter ?P ds).*1)] =>
      assert (forall l, (forall x, x ∈ l -> x ∈ ds) -> log_blockers (Some <$> l.*1) s = Some (tt, s)) as Hlog; [|rewrite (run_bind _ _ _ _ _ (Hlog (filter P ds) (fun x Hx => proj2 (proj1 (list_elem_of_filter P ds x) Hx))))] end.
    { induction l as [|[q d] l IH]; intros Hin; [done|]. assert ((q, d) ∈ ds) as Hq by (apply Hin; by left).
      pose proof (live_in _ _ _ (cw_live _ _ W) Hq) as Hd. destruct (co_live _ _ Hok _ Hq) as (v & b & Hv & _). simpl in Hd, Hv.
      cbn [fmap list_fmap fst log_blockers]. unfold deref at 1, bind at 1, ret at 1. rewrite (run_bind _ _ _ _ _ (get_desc_cm q d s Hd)), Hv.
      unfold deref, bind, ret. apply IH. intros; apply Hin; by right. }
    assert (exists o, cm (get_client cameraId) s = Some (o, s)) as [o Ho].
    { eexists. unfold cm, get_client, bind at 1, get. rewrite (run_bind _ _ _ _ _ (read_clients _ _ W)). unfold ret. by rewrite set_manager_same. }
    rewrite (run_bind _ _ _ _ _ Ho). eexists. split; [done|]. destruct o; auto.
  - right. pose proof (ch_sub _ _ _ _ _ _ Hch) as Hs. rewrite bool_decide_false.
    2:{ intros (q & [= <-] & (x & -> & Hx)%list_elem_of_fmap_1)%list_elem_of_fmap_1. apply Hni, list_elem_of_fmap_2. by eapply elem_of_sublist. }
    destruct (notify_evicted_run s ds es W Hok) as (s1 & Hn & Hm1 & Hb1 & Hc1 & Hn1); [intros; by eapply elem_of_sublist|].
    rewrite (run_bind _ _ _ _ _ Hn). destruct (disconnect_all_run s1 ds es) as (s2 & Hd & Hm2 & Hok2 & Hc2 & Hn2); [by rewrite Hm1|by rewrite Hb1|done|].
    rewrite (run_bind _ _ _ _ _ Hd), (values_fst es (basic_clients s)) by (eapply clients_ok_sub; [done|]; intros; by eapply elem_of_sublist).
    rewrite (run_bind _ _ _ _ _ (wait_all_run w s2 es ds ltac:(by rewrite Hm2))). simpl. exists es, s2. split_and!; [done|done| |by rewrite Hm2, Hm1|done|by rewrite Hn2, Hn1].
    unfold checkIfDeviceIsUsable, bind, get, ret. unfold usable. rewrite Hc2, Hc1. by destruct (_ =? 0).
Qed.
End runs.
