(* ===== verification/CamProps.v ===== *)
(** * What the eviction policy guarantees, and where the service does not meet it

    The theorems about the client manager (CamClients.v) and the admission of
    clients by the camera service (CamService.v). *)
From S2P Require Import Prelude Heap StateM CamClients CamPolicy CamManager CamService CamServiceRun.
From stdpp Require Import base list gmap sets strings.
From Stdlib Require Import ZArith Lia.

Open Scope Z_scope.
Open Scope method_scope.

(** ** The client manager *)

Section manager.
Context {KEY VALUE : Type} {eqk : EqDecision KEY}.
Abbreviation Desc := (ClientDescriptor KEY VALUE).
Implicit Types (m : ClientManager KEY VALUE) (ds es : list (loc * Desc)).

(** Each displaced client does not outrank the new one, and conflicts with it or costs
    something while those displaced before it did not free enough. *)
Definition justified (maxCost : Z) (c : Desc) ds es : Prop :=
  forall x, x ∈ es ->
    prio_lt (mPriority x.2) (mPriority c) = false /\
    (conflicting c x.2 = true \/
     0 < mCost x.2 /\ exists es1 es2, es = es1 ++ x :: es2 /\ maxCost < total_cost ds + mCost c - total_cost es1).

(** C13. The eviction policy: a client that is refused changes nothing, and clashes with an
    active client or is outranked by another owner's; one that is admitted displaces
    only clients that do not outrank it and that conflict with it or whose cost was
    still needed, leaves no conflict behind, and the total cost fits unless each
    remaining client of another owner that costs something outranks it. *)
Theorem eviction_policy m ds cp (c : Desc) r m' :
  cm_wf m ds -> costs_ok ds -> descs m !! cp = Some c -> cp ∉ ds.*1 -> addAndEvict (Some cp) m = Some (r, m') ->
  (r = [Some cp] /\ m' = m /\ refused (mMaxCost m) c ds) \/
  exists es, r = Some <$> es.*1 /\ es `sublist_of` ds /\ justified (mMaxCost m) c ds es /\
    cm_wf m' (kept es ds ++ [(cp, c)]) /\
    (total_cost (kept es ds ++ [(cp, c)]) <= mMaxCost m \/
     forall x, x ∈ kept es ds -> 0 < mCost x.2 -> mOwnerId x.2 <> mOwnerId c -> prio_lt (mPriority x.2) (mPriority c) = true).
Proof.
  intros W Hok Hc Hni Hr. destruct (add_run m ds cp c W Hc Hni) as [(_ & Href & Ha)|(es & _ & Hch & Hcost & Ha)]; rewrite Ha in Hr.
  { injection Hr as <- <-. by left. }
  right. destruct (decide _); [|done]. injection Hr as <- <-. exists es. pose proof (ch_sub _ _ _ _ _ _ Hch) as Hs. split_and!; [done|done| | |].
  - intros x Hx. split; [by apply (ch_rank _ _ _ _ _ _ Hch)|]. destruct (conflicting c x.2) eqn:Hcf; [by left|right].
    apply list_elem_of_split in Hx as (es1 & es2 & He). destruct (ch_needed _ _ _ _ _ _ Hch es1 x es2 He Hcf) as (? & ? & _). eauto.
  - by eapply wf_added.
  - rewrite total_cost_app. pose proof (kept_total es ds Hs (cw_nodup _ _ W)). simpl. destruct (Z.le_gt_cases (total_cost ds + mCost c - total_cost es) (mMaxCost m)); [left; lia|right].
    intros x [Hx Hin]%list_elem_of_filter Hp Ho. destruct (prio_lt (mPriority x.2) (mPriority c)) eqn:Hlt; [done|]. destruct Hx.
    apply list_elem_of_fmap_2. apply (ch_all _ _ _ _ _ _ Hch); [done|lia|done|done|done|]. congruence.
Qed.

(** C15. Under every sequence of operations on a client manager the active clients are
    live descriptors, each listed once, no two of which have the same key or
    conflict with each other. *)
Theorem manager_conflict_free n (ops : list (@cm_op KEY VALUE)) m :
  run_cm_ops ops (new_ClientManager n) = Some (tt, m) -> exists ds, cm_wf m ds.
Proof. intros Hr. eapply run_cm_ops_inv; [apply new_wf|exact Hr]. Qed.

(** C16. [addAndEvict] reads past the end of the vector of evicted clients, unless it
    evicts nobody or the last active client is among them: with a client that
    [wouldEvict] admits by evicting [ps] it is undefined exactly if the last of
    [ps] is not the most recently added client. *)
Theorem add_reads_past_end m ds cp (c : Desc) ps :
  cm_wf m ds -> descs m !! cp = Some c -> cp ∉ ds.*1 ->
  wouldEvict (Some cp) m = Some (Some <$> ps, m) -> ps <> [] -> ps <> [cp] ->
  addAndEvict (Some cp) m = None <-> last ps <> last (mClients m).
Proof.
  intros W Hc Hni Hw Hne Hnr. rewrite (wouldEvict_run m ds cp c W Hc) in Hw.
  assert (would_evict (mMaxCost m) cp c ds = ps) as He.
  { apply (inj (fmap (M := list) Some)). congruence. }
  destruct (add_run m ds cp c W Hc Hni) as [(Hr & _)|(es & Hes & _ & _ & Ha)]; [congruence|].
  rewrite Ha, (cw_ptrs _ _ W). rewrite Hes in He. subst ps. destruct (decide _) as [[?|?]|Hno]; naive_solver.
Qed.
End manager.

(** ** The admission of a client *)

Section service.
Implicit Types (s : CameraService) (ds : list (loc * ClientDescriptor string (option loc))).

(** A score that is already there is not changed by an offset of 0, nor is that of
    a vendor client, which is replaced. *)
Lemma priority_again (hw : bool) score state off p :
  - 2 ^ 31 <= score < 2 ^ 31 -> (off = 0 \/ hw = true) ->
  new_ClientPriority (if hw then kVendorClientScore else score) (if hw then kVendorClientState else state) hw off = Some p ->
  exists p', new_ClientPriority (if hw then kVendorClientScore else mScore p) (if hw then kVendorClientState else mState p) hw off = Some p' /\ prio_like p' p.
Proof.
  intros Hs Ho Hp. destruct hw; [by exists p|]. destruct Ho as [->|?]; [|done].
  unfold new_ClientPriority, setScore, add32 in *. cbn [mScoreOffset] in *. destruct (Z.eqb_spec score INVALID_ADJ) as [->|Hne].
  - injection Hp as <-. by eexists.
  - rewrite Z.add_0_l in Hp. rewrite (proj2 (Z.leb_le _ _)), (proj2 (Z.ltb_lt _ _)) in Hp by lia. injection Hp as <-. cbn [mScore setState].
    rewrite (proj2 (Z.eqb_neq _ _) Hne), Z.add_0_l, (proj2 (Z.leb_le _ _)), (proj2 (Z.ltb_lt _ _)) by lia. by eexists.
Qed.

Lemma make_shared_run d s ds :
  cm_wf (mActiveClientManager s) ds ->
  exists p m, make_shared d s = Some (p, set_manager m s) /\ cm_wf m ds /\ descs m !! p = Some d /\ (p ∉ ds.*1) /\
    m = set_descs (<[p := d]> (descs (mActiveClientManager s))) (mActiveClientManager s).
Proof.
  intros W. destruct (wf_alloc _ ds d W) as (p & m & Ha & W' & Hp & Hni & Hm). exists p, m. split_and!; try done.
  unfold make_shared, cm. unfold alloc_desc in Ha. by rewrite Ha.
Qed.

Record service_ok s ds : Prop := {
  so_wf : cm_wf (mActiveClientManager s) ds;
  so_costs : costs_ok ds;
  so_clients : clients_ok (basic_clients s) ds
}.

Lemma bind_defined {S A B} (m : M S A) (k : A -> M S B) st r : bind m k st = Some r -> exists x st', m st = Some (x, st') /\ k x st' = Some r.
Proof. unfold bind. destruct (m st) as [[x st']|]; [eauto|done]. Qed.

Lemma cm_read {A} (f : M (ClientManager string (option loc)) A) s r s' :
  (forall m x m', f m = Some (x, m') -> m' = m) -> cm f s = Some (r, s') -> s' = s.
Proof. intros Hf. unfold cm. destruct (f _) as [[x m]|] eqn:E; [|done]. apply Hf in E as ->. intros [= _ <-]. apply set_manager_same. Qed.

Lemma get_desc_read p m (d : ClientDescriptor string (option loc)) m' : get_desc p m = Some (d, m') -> m' = m.
Proof. unfold get_desc, bind, get, deref, ret. destruct (descs m !! p); naive_solver. Qed.

Lemma read_all_read ps m (l : list (loc * ClientDescriptor string (option loc))) m' : read_all ps m = Some (l, m') -> m' = m.
Proof.
  revert l m'. induction ps as [|p ps IH]; intros l m' H; [by injection H|]. cbn [read_all] in H.
  apply bind_defined in H as (d & m1 & ->%get_desc_read & H). apply bind_defined in H as (r & m2 & ->%IH & H). by injection H.
Qed.

Lemma get_client_read key m o (m' : ClientManager string (option loc)) : get_client key m = Some (o, m') -> m' = m.
Proof. intros H. unfold get_client in H. apply bind_defined in H as (? & ? & [= <- <-] & H). apply bind_defined in H as (? & ? & ->%read_all_read & H). by injection H. Qed.

Lemma getAllOwners_read m o (m' : ClientManager string (option loc)) : getAllOwners m = Some (o, m') -> m' = m.
Proof. intros H. unfold getAllOwners in H. apply bind_defined in H as (? & ? & [= <- <-] & H). apply bind_defined in H as (? & ? & ->%read_all_read & H). by injection H. Qed.

Lemma same_client_read cameraId lvl remote s o s' : same_client cameraId lvl remote s = Some (o, s') -> s' = s.
Proof.
  unfold same_client. destruct lvl; [|intros [= _ <-]; done]. intros H.
  apply bind_defined in H as (cur & s1 & ->%(cm_read _ _ _ _ (get_client_read _)) & H). destruct cur as [p|]; [|injection H as _ <-; done].
  apply bind_defined in H as (d & s2 & ->%(cm_read _ _ _ _ (get_desc_read _)) & H). destruct (mValue d) as [v|]; [|injection H as _ <-; done].
  apply bind_defined in H as (? & ? & [= <- <-] & H). unfold deref in H. destruct (_ !! v) as [b|]; [|done]. unfold bind at 1, ret at 1 in H.
  destruct (negb _); by injection H.
Qed.

(** The part before the new client's descriptor is weighed. *)
Lemma handle_run pi hw w cameraId pid lvl remote off s ds p s1 :
  service_ok s ds -> handleEvictionsLocked pi hw w cameraId pid lvl remote off s = Some (Done (0, None, Some p), s1) ->
  exists s0 ds0 c,
    service_ok s0 ds0 /\ Forall2 relabel ds ds0 /\ descs (mActiveClientManager s0) !! p = Some c /\ (p ∉ ds0.*1) /\
    mMaxCost (mActiveClientManager s0) = mMaxCost (mActiveClientManager s) /\ mKey c = cameraId /\ mOwnerId c = pid /\
    new_ClientPriority (if hw then kVendorClientScore else pi_score pi pid) (if hw then kVendorClientState else pi_state pi pid) hw off = Some (mPriority c) /\
    evict_for p cameraId w s0 = Some (Done (0, None, Some p), s1).
Proof.
  intros [W Hco Hcl] H. unfold handleEvictionsLocked in H.
  apply bind_defined in H as (same & s2 & ->%same_client_read & H). destruct same as [v|]; [by injection H|].
  apply bind_defined in H as (owners & s2 & ->%(cm_read _ _ _ _ getAllOwners_read) & H). destruct (Z.eqb_spec (pi_err pi) 0) as [He|He]; cbn [negb] in H; [|by injection H].
  apply bind_defined in H as (opl & s2 & Hd & H). destruct (priorities_of pi owners); [|done]. injection Hd as <- <-.
  apply bind_defined in H as ([] & s2 & Hu & H). unfold cm in Hu. destruct (updatePriorities _ _) as [[[] m2]|] eqn:Hup; [|done]. injection Hu as <-.
  unfold updatePriorities, bind at 1, get in Hup. rewrite (cw_ptrs _ _ W) in Hup. destruct (update_loop_inv _ [] ds _ _ W Hup) as (ds0 & W0 & Hr & Hmax).
  apply bind_defined in H as (? & ? & [= <- <-] & H). destruct (mCameraStates _ !! cameraId) as [st|]; [|by injection H].
  apply bind_defined in H as (q & s3 & Hmk & H). unfold makeClientDescriptor in Hmk. apply bind_defined in Hmk as (pr & s4 & Hpr & Hmk).
  destruct (new_ClientPriority _ _ _ _) as [pr'|] eqn:Hnp; [|done]. injection Hpr as <- <-.
  match type of Hmk with make_shared ?d _ = _ => destruct (make_shared_run d (set_manager m2 s) ds0 W0) as (q' & m3 & Hms & W3 & Hq & Hni & Hm3) end.
  rewrite Hms in Hmk. injection Hmk as <- <-.
  assert (service_ok (set_manager m3 (set_manager m2 s)) ds0) as Hok0.
  { constructor; [done| |].
    - unfold costs_ok in *. rewrite Forall_forall in Hco |- *. intros y (x & Hx & Hxy)%(Forall2_in_r _ _ _ _ Hr). rewrite (rl_cost _ _ Hxy). by apply Hco.
    - destruct Hcl as [Hl Hi]. constructor.
      + intros y (x & Hx & Hxy)%(Forall2_in_r _ _ _ _ Hr). rewrite (rl_value _ _ Hxy). by apply Hl.
      + intros y z Hy Hz Hv. pose proof Hy as (x & Hx & Hxy)%(Forall2_in_r _ _ _ _ Hr). pose proof Hz as (u & Hu & Huz)%(Forall2_in_r _ _ _ _ Hr).
        apply (NoDup_fst_inj ds0); [apply (cw_nodup _ _ W0)|done|done|]. rewrite (rl_ptr _ _ Hxy), (rl_ptr _ _ Huz). f_equal. apply Hi; [done|done|].
        rewrite <- (rl_value _ _ Hxy), <- (rl_value _ _ Huz). done. }
  assert (p = q') as ->.
  { destruct (evict_for_run (set_manager m3 (set_manager m2 s)) ds0 q' _ cameraId w W3 (so_clients _ _ Hok0) Hq Hni) as [(_ & code & Hev & _)|(es & s' & _ & _ & Hev & _)]; cbn in Hev, H; rewrite Hev in H.
    - by injection H.
    - unfold usable, done_status in H. destruct (_ =? 0); by injection H. }
  eexists _, ds0, _. split_and!; [exact Hok0|done|exact Hq|done| |done|done|reflexivity|exact H]. cbn. by rewrite Hm3.
Qed.

(** The addition of a client with the data of descriptor [c] when nobody is left to displace. *)
Lemma finish_run (hw : bool) (client p : loc) (off : Z) s ds c pr :
  cm_wf (mActiveClientManager s) ds -> descs (mActiveClientManager s) !! p = Some c ->
  new_ClientPriority (if hw then kVendorClientScore else mScore (mPriority c)) (if hw then kVendorClientState else mState (mPriority c)) hw off = Some pr ->
  let c' := {| mKey := mKey c; mValue := Some client; mCost := mCost c; mConflicting := mConflicting c; mPriority := pr; mOwnerId := mOwnerId c |} in
  (forall q, would_evict (mMaxCost (mActiveClientManager s)) q c' ds = []) -> (forall x, x ∈ ds -> conflicting c' x.2 = false) ->
  exists q s2, finishConnectLocked hw client p off s = Some (Done tt, s2) /\ cm_wf (mActiveClientManager s2) (ds ++ [(q, c')]).
Proof.
  intros W Hc Hpr c' Hwe Hpe. destruct (make_shared_run c' s _ W) as (q & m & Hmk & W2 & Hq & Hqni & Hmeq).
  assert (would_evict (mMaxCost m) q c' ds = []) as Hwe' by (rewrite Hmeq; apply Hwe).
  destruct (add_run m _ q c' W2 Hq Hqni) as [(Hr1 & _)|(es' & Hes' & _ & _ & Ha)]; [congruence|]. rewrite Hwe' in Hes'.
  destruct es' as [|? ?]; [|done]. rewrite decide_True in Ha by by left. cbn [fmap list_fmap] in Ha.
  assert (kept [] ds = ds) as Hk by (apply filter_keep; intros; cbn; apply not_elem_of_nil). rewrite Hk in Ha.
  exists q. eexists. split.
  - unfold finishConnectLocked, makeClientDescriptor_partial.
    match goal with |- bind ?f _ s = _ => assert (f s = Some (q, set_manager m s)) as Hmc end.
    { rewrite (run_bind _ _ _ _ _ (get_desc_cm p c s Hc)). unfold makeClientDescriptor. rewrite Hpr. unfold deref, bind, ret. exact Hmk. }
    rewrite (run_bind _ _ _ _ _ Hmc). by rewrite (run_bind _ _ _ _ _ (cm_run _ (set_manager m s) _ _ Ha)).
  - by apply wf_push.
Qed.

Lemma chosen_justified maxCost c c' hpo ds es :
  like c c' -> chosen maxCost c hpo (total_cost ds + mCost c) ds es -> justified maxCost c' ds es.
Proof.
  intros Hlk Hch%(chosen_like _ _ _ _ _ _ _ Hlk) x Hx. rewrite (lk_cost _ _ Hlk). split; [by apply (ch_rank _ _ _ _ _ _ Hch)|].
  destruct (conflicting c' x.2) eqn:Hcf; [by left|right]. apply list_elem_of_split in Hx as (es1 & es2 & Hes).
  destruct (ch_needed _ _ _ _ _ _ Hch es1 x es2 Hes Hcf) as (? & ? & _). split; [done|]. by exists es1, es2.
Qed.

(** C14. Admission is consistent: when [handleEvictionsLocked] lets a client in (having
    disconnected those it displaces), and neither an offset of the application is in
    play nor anything else changes in between, [finishConnectLocked] never aborts:
    the new client is added, nobody else is displaced, and the active clients are
    those that were kept and the new one, without a conflict. *)
Theorem connect_admits pi hw w cameraId pid lvl remote off s ds p s1 client :
  service_ok s ds -> - 2 ^ 31 <= pi_score pi pid < 2 ^ 31 -> (off = 0 \/ hw = true) ->
  handleEvictionsLocked pi hw w cameraId pid lvl remote off s = Some (Done (0, None, Some p), s1) ->
  exists s2 ds1 es q c,
    finishConnectLocked hw client p off s1 = Some (Done tt, s2) /\ Forall2 relabel ds ds1 /\ es `sublist_of` ds1 /\
    cm_wf (mActiveClientManager s2) (kept es ds1 ++ [(q, c)]) /\ mKey c = cameraId /\ mOwnerId c = pid /\ mValue c = Some client /\
    justified (mMaxCost (mActiveClientManager s)) c ds1 es.
Proof.
  intros Hok Hsc Hoff Hh. destruct (handle_run _ _ _ _ _ _ _ _ _ _ _ _ Hok Hh) as (s0 & ds1 & c & [W Hco Hcl] & Hr & Hc & Hni & Hmax & Hk & Ho & Hnp & He).
  destruct (evict_for_run s0 ds1 p c cameraId w W Hcl Hc Hni) as [(_ & code & Hev & _)|(es & s' & Hch & Hcost & Hev & Hm & _)]; rewrite Hev in He; [by injection He|].
  assert (s' = s1) as ->. { unfold done_status in He. destruct (_ =? 0); by injection He. }
  destruct (priority_again hw _ _ off _ Hsc Hoff Hnp) as (pr & Hpr & Hlike).
  assert (cm_wf (mActiveClientManager s1) (kept es ds1)) as W1 by (rewrite Hm; by apply (wf_sub _ ds1), kept_sub).
  assert (descs (mActiveClientManager s1) !! p = Some c) as Hc1 by by rewrite Hm.
  set (c' := {| mKey := mKey c; mValue := Some client; mCost := mCost c; mConflicting := mConflicting c; mPriority := pr; mOwnerId := mOwnerId c |}).
  assert (like c c') as Hlk by done.
  destruct (finish_run hw client p off s1 _ c pr W1 Hc1 Hpr) as (q & s2 & Hf & Wf).
  - intros q. rewrite Hm. apply evict_settles; [apply (cw_nodup _ _ W)|done| |]; rewrite (highestPriorityOwner_like c c') by done; [by eapply chosen_like|done].
  - intros x Hx. rewrite (conflicting_like c c') by done. by eapply kept_peace.
  - exists s2, ds1, es, q, c'. split_and!; [exact Hf|done|by apply (ch_sub _ _ _ _ _ _ Hch)|exact Wf|done|done|done|].
    rewrite <- Hmax. by apply (chosen_justified _ c c' (highestPriorityOwner c ds1)).
Qed.

(** A client within the cost bounds that conflicts with one other only. *)
Lemma add_single (m : ClientManager string (option loc)) ds q c y :
  cm_wf m ds -> costs_ok ds -> descs m !! q = Some c -> q ∉ ds.*1 -> total_cost ds + mCost c <= mMaxCost m ->
  y ∈ ds -> (forall z, z ∈ ds -> conflicting c z.2 = true -> z = y) -> conflicting c y.2 = true -> clashes c y.2 = false ->
  addAndEvict (Some q) m =
    if decide (last ds.*1 = Some y.1) then Some ([Some y.1], upd_clients ((kept [y] ds).*1 ++ [q]) [onClientRemoved y.1; onClientAdded q] m) else None.
Proof.
  intros W Hco Hq Hqni Hmax Hy Honly Hcy Hcl.
  assert (forall es hpo, chosen (mMaxCost m) c hpo (total_cost ds + mCost c) ds es -> es = [y]) as Hes.
  { intros es hpo Hch. pose proof (ch_sub _ _ _ _ _ _ Hch) as Hsub. destruct (ch_conflict _ _ _ _ _ _ Hch y Hy Hcy) as [(es1 & es2 & ->)%list_elem_of_split _].
    assert (forall z, z ∈ es1 ++ y :: es2 -> z = y) as Hz.
    { intros z Hz. apply Honly; [by eapply elem_of_sublist|]. destruct (conflicting c z.2) eqn:Hcz; [done|].
      apply list_elem_of_split in Hz as (f1 & f2 & Hf). destruct (ch_needed _ _ _ _ _ _ Hch f1 z f2 Hf Hcz) as (Hb & _).
      pose proof (costs_ok_sublist _ _ Hsub Hco) as Hcoe. rewrite Hf in Hcoe. apply Forall_app in Hcoe as [Hcoe _]. pose proof (total_cost_nonneg f1 Hcoe). lia. }
    pose proof (sublist_NoDup _ _ (NoDup_fmap_1 _ _ (cw_nodup _ _ W)) Hsub) as (_ & Hn1 & [Hn2 _]%NoDup_cons)%NoDup_app.
    destruct es1 as [|z es1]; [|exfalso; apply (Hn1 z); [by left|rewrite (Hz z) by set_solver; by left]].
    destruct es2 as [|z es2]; [done|]. exfalso. apply Hn2. rewrite <- (Hz z) by set_solver. by left. }
  destruct (add_run m ds q c W Hq Hqni) as [(Hwe & _ & Ha)|(es & _ & ->%Hes & _ & Ha)].
  - exfalso. pose proof (evict_loop_spec (mMaxCost m) c (highestPriorityOwner c ds) (total_cost ds + mCost c) [] ds) as He. unfold would_evict in Hwe.
    destruct (evict_loop _ _ _ _ _ ds) as [[t r]|].
    + destruct He as (es & -> & -> & ->%Hes). assert (costs_ok [y]) as Hcy'%total_cost_nonneg by (constructor; [unfold costs_ok in Hco; rewrite Forall_forall in Hco; by apply Hco|constructor]).
      rewrite (proj2 (Z.ltb_ge _ _)) in Hwe by lia. injection Hwe as He. apply Hqni. rewrite <- He. by apply list_elem_of_fmap_2.
    + destruct He as (z & Hz & Hc). pose proof Hc as Hc'. unfold clashes in Hc'. apply andb_true_iff in Hc' as [Hc' _]. rewrite (Honly z Hz Hc') in Hc. congruence.
  - rewrite Ha. cbn [fmap list_fmap last]. destruct (decide (last ds.*1 = Some y.1)); [by rewrite decide_True by by right|]. rewrite decide_False by naive_solver. done.
Qed.

Lemma get_client_run s ds x :
  cm_wf (mActiveClientManager s) ds -> x ∈ ds -> cm (get_client (mKey x.2)) s = Some (Some x.1, s).
Proof.
  intros W Hx. unfold cm, get_client, bind at 1, get. rewrite (run_bind _ _ _ _ _ (read_clients _ _ W)). unfold ret. rewrite set_manager_same. do 3 f_equal.
  destruct (list_find (fun z => mKey z.2 = mKey x.2) ds) as [[i z]|] eqn:Hf.
  - apply list_find_Some in Hf as (Hz & Hk & _). apply list_elem_of_lookup_2 in Hz. cbn. f_equal. by rewrite (wf_key_inj _ _ _ _ W Hz Hx Hk).
  - apply list_find_None in Hf. rewrite Forall_forall in Hf. by destruct (Hf x Hx).
Qed.

Lemma plain_priority score state :
  - 2 ^ 31 <= score < 2 ^ 31 -> score <> INVALID_ADJ ->
  new_ClientPriority score state false 0 = Some {| mScore := score; mState := state; mIsVendorClient := false; mScoreOffset := 0 |}.
Proof.
  intros Hs Hi. unfold new_ClientPriority, setScore, add32. cbn [mScoreOffset].
  by rewrite (proj2 (Z.eqb_neq _ _) Hi), Z.add_0_l, (proj2 (Z.leb_le _ _)), (proj2 (Z.ltb_lt _ _)) by lia.
Qed.

(** A descriptor without cost and conflicts of its own meets one with its key, if no other lists it. *)
Lemma key_conflict c (z : ClientDescriptor string (option loc)) :
  mConflicting c = [] -> (mKey c ∉ mConflicting z) -> conflicting c z = true -> mKey z = mKey c.
Proof.
  intros Hn Hz Hc. unfold conflicting, isConflicting in Hc. rewrite Hn in Hc. cbn [existsb] in Hc.
  rewrite !orb_false_r, !orb_true_iff, !bool_decide_eq_true, existsb_exists in Hc. destruct Hc as [[?|[?|(k & Hk & He%bool_decide_eq_true)]]|?]; [done|done| |done].
  subst k. by apply list_elem_of_In in Hk.
Qed.

(** A second offline session of a camera ends badly: while one is offline that does
    not outrank the client that has the camera now, and the total cost is within
    bounds, a switch of that client to offline is not refused but evicts the old
    session, which aborts the process, or reads past a vector if the old session is
    not the last active client. *)
Theorem offline_twice s ds x y v :
  service_ok s ds -> x ∈ ds -> y ∈ ds -> mKey y.2 = kOfflineDevice +:+ mKey x.2 ->
  prio_lt (mPriority y.2) (mPriority x.2) = false ->
  (forall z, z ∈ ds -> (kOfflineDevice +:+ mKey x.2) ∉ mConflicting z.2) ->
  total_cost ds <= mMaxCost (mActiveClientManager s) ->
  - 2 ^ 31 <= mScore (mPriority x.2) < 2 ^ 31 -> mScore (mPriority x.2) <> INVALID_ADJ ->
  match addOfflineClient false (mKey x.2) (Some v) 0 s with
  | Some (r, _) => r = Aborted /\ last ds.*1 = Some y.1
  | None => last ds.*1 <> Some y.1
  end.
Proof.
  intros [W Hco Hcl] Hx Hy Hky Hlt Hnc Hmax Hsc Hinv. unfold addOfflineClient.
  rewrite (run_bind _ _ _ _ _ (get_client_run _ _ _ W Hx)), (run_bind _ _ _ _ _ (get_desc_cm _ _ s (live_in _ _ _ (cw_live _ _ W) Hx))).
  pose proof (plain_priority _ (mState (mPriority x.2)) Hsc Hinv) as Hpr. set (pr := Build_ClientPriority _ _ _ _) in Hpr.
  set (c := {| mKey := kOfflineDevice +:+ mKey x.2; mValue := Some v; mCost := 0; mConflicting := []; mPriority := pr; mOwnerId := mOwnerId x.2 |}).
  destruct (make_shared_run c s _ W) as (q & m & Hmk & W2 & Hq & Hqni & Hmeq).
  assert (makeClientDescriptor false (mKey c) (Some v) 0 [] (mScore (mPriority x.2)) (mOwnerId x.2) (mState (mPriority x.2)) 0 s = Some (q, set_manager m s)) as Hmc.
  { unfold makeClientDescriptor. rewrite Hpr. unfold deref, bind, ret. exact Hmk. }
  rewrite (run_bind _ _ _ _ _ Hmc).
  assert (forall z, z ∈ ds -> conflicting c z.2 = true -> z = y) as Honly.
  { intros z Hz Hc. apply (wf_key_inj _ _ _ _ W Hz Hy). rewrite Hky. by apply (key_conflict c); [|apply Hnc|]. }
  assert (total_cost ds + mCost c <= mMaxCost m) as Hmm by (rewrite Hmeq; cbn; lia).
  assert (prio_lt (mPriority y.2) pr = false) as Hlt' by (rewrite <- Hlt; by apply prio_lt_like).
  assert (forall z, z ∈ ds -> incompatible (mMaxCost m) (total_cost ds + mCost c) c z.2 = true -> False) as Hinc.
  { intros z Hz Hi. unfold incompatible in Hi. rewrite (proj2 (Z.ltb_ge _ _)) in Hi by lia. rewrite andb_false_l, orb_false_r, andb_true_iff in Hi.
    destruct Hi as [Hi Hc]. rewrite (Honly z Hz Hc) in Hi. change (mPriority c) with pr in Hi. congruence. }
  rewrite (run_bind _ _ _ _ _ (cm_run _ (set_manager m s) _ _ (getIncompatibleClients_run m ds q c W2 Hq))), (filter_drop _ ds Hinc). cbn [fmap list_fmap Z.eqb negb].
  assert (clashes c y.2 = false) as Hcla by (unfold clashes; change (mPriority c) with pr; by rewrite Hlt', Hky, bool_decide_true, andb_false_r, andb_false_r).
  pose proof (add_single m ds q c y W2 Hco Hq Hqni Hmm Hy Honly (conflicting_same_key c y.2 Hky) Hcla) as Ha.
  destruct (decide (last ds.*1 = Some y.1)).
  - by rewrite (run_bind _ _ _ _ _ (cm_run _ (set_manager m s) _ _ Ha)).
  - assert (cm (addAndEvict (Some q)) (set_manager m s) = None) as Hn by (unfold cm; cbn; by rewrite Ha). by rewrite (run_bind_ub _ _ _ Hn).
Qed.
End service.

(** ** Runs *)

Definition ex_prio (score off : Z) : ClientPriority := {| mScore := score; mState := 2; mIsVendorClient := false; mScoreOffset := off |}.
Definition ex_desc (key : string) (v : loc) (cost : Z) (p : ClientPriority) (owner : Z) : ClientDescriptor string (option loc) :=
  {| mKey := key; mValue := Some v; mCost := cost; mConflicting := []; mPriority := p; mOwnerId := owner |}.

(** An offline session of process 7 and a camera of process 5, which set an offset. *)
Definition ex_offline := ex_desc "offline-9" 11%positive 0 (ex_prio 150 0) 7.
Definition ex_camera := ex_desc "1" 12%positive 60 (ex_prio 300 200) 5.
(** A client of process 9 for the same camera. *)
Definition ex_new := ex_desc "1" 13%positive 60 (ex_prio 100 0) 9.

Definition ex_manager (ds : list (loc * ClientDescriptor string (option loc))) : ClientManager string (option loc) :=
  {| mMaxCost := DEFAULT_MAX_COST; mClients := ds.*1; mListener := true; descs := <[3%positive := ex_new]> (list_to_map ds); events := [] |}.

Definition ex_clients : list (loc * ClientDescriptor string (option loc)) := [(1%positive, ex_offline); (2%positive, ex_camera)].

Lemma ex_wf ds :
  ds = ex_clients \/ ds = reverse ex_clients -> cm_wf (ex_manager ds) ds /\ costs_ok ds.
Proof.
  intros [->| ->]; (split; [constructor|]); try (by repeat constructor); try (apply (bool_decide_unpack _); by vm_compute);
    intros x y; rewrite !list_elem_of_In; cbn; intros [<-|[<-|[]]] [<-|[<-|[]]]; cbn; done.
Qed.

Definition ex_basic (a : apiLevel) : BasicClient := {| mRemoteBinder := 1; api := a; mDisconnected := false |}.
Definition ex_service (ds : list (loc * ClientDescriptor string (option loc))) : CameraService :=
  {| mActiveClientManager := ex_manager ds;
     basic_clients := <[11%positive := ex_basic API_2]> (<[12%positive := ex_basic API_2]> (<[14%positive := ex_basic API_2]> ∅));
     mCameraStates := <["0" := {| cs_cost := 60; cs_conflicting := []; cs_status := PRESENT |}]> ∅; notified := [] |}.

Lemma ex_service_ok : service_ok (ex_service ex_clients) ex_clients.
Proof.
  destruct (ex_wf ex_clients (or_introl eq_refl)) as [W Hco]. constructor; [done|done|]. constructor.
  - intros x. rewrite list_elem_of_In. cbn. intros [<-|[<-|[]]]; by do 2 eexists.
  - intros x y. rewrite !list_elem_of_In. cbn. intros [<-|[<-|[]]] [<-|[<-|[]]]; done.
Qed.

Definition ex_processes : ProcessInfo := {| pi_err := 0; pi_state _ := 2; pi_score p := if p =? 7 then 150 else 100 |}.

(** The offset of an application is counted twice: [finishConnectLocked] adds it to a
    score that has it already.  In this run a client with an offset of 30 is let in,
    being ahead of an offline session; the descriptor that is added ranks behind it, so
    that the addition evicts another camera of the same process and the service aborts. *)
Theorem offset_counted_twice :
  exists s ds p s1 s2,
    service_ok s ds /\ handleEvictionsLocked ex_processes false [] "0" 5 API_2 0 30 s = Some (Done (0, None, Some p), s1) /\
    finishConnectLocked false 13%positive p 30 s1 = Some (Aborted, s2).
Proof.
  exists (ex_service ex_clients), ex_clients. do 3 eexists. split; [apply ex_service_ok|]. split; [vm_compute; reflexivity|]. vm_compute. reflexivity.
Qed.

(** ** Witnesses *)

Lemma eviction_policy_witness :
  exists r m', addAndEvict (Some 3%positive) (ex_manager ex_clients) = Some (r, m') /\
    exists es, r = Some <$> es.*1 /\ justified DEFAULT_MAX_COST ex_new ex_clients es.
Proof.
  do 2 eexists. split; [vm_compute; reflexivity|]. destruct (ex_wf ex_clients (or_introl eq_refl)) as [W Hco].
  edestruct (eviction_policy (ex_manager ex_clients) ex_clients 3%positive ex_new) as [(Hr & _)|(es & Hr & _ & Hj & _)];
    [exact W|exact Hco|reflexivity|apply (bool_decide_unpack _); vm_compute; exact I|vm_compute; reflexivity|discriminate|].
  exists es. split; [exact Hr|exact Hj].
Defined.

Lemma manager_conflict_free_witness :
  exists m, run_cm_ops [OpAdd ex_camera; OpAdd ex_offline; OpAdd ex_new; OpRemoveKey "1"] (new_ClientManager 100) = None /\
    run_cm_ops [OpAdd ex_offline; OpAdd ex_camera; OpAdd ex_new; OpRemoveKey "offline-9"] (new_ClientManager 100) = Some (tt, m) /\ exists ds, cm_wf m ds.
Proof.
  eexists. split; [vm_compute; reflexivity|]. split; [vm_compute; reflexivity|].
  eapply (manager_conflict_free 100 [OpAdd ex_offline; OpAdd ex_camera; OpAdd ex_new; OpRemoveKey "offline-9"]). vm_compute. reflexivity.
Defined.

Lemma add_reads_past_end_witness : addAndEvict (Some 3%positive) (ex_manager (reverse ex_clients)) = None.
Proof.
  destruct (ex_wf (reverse ex_clients) (or_intror eq_refl)) as [W _].
  apply (add_reads_past_end (ex_manager (reverse ex_clients)) (reverse ex_clients) 3%positive ex_new [2%positive]);
    [exact W|reflexivity|apply (bool_decide_unpack _); vm_compute; exact I|vm_compute; reflexivity|discriminate|discriminate|vm_compute; discriminate].
Defined.

Lemma connect_admits_witness :
  exists p s1 s2, handleEvictionsLocked ex_processes false [] "0" 5 API_2 0 0 (ex_service ex_clients) = Some (Done (0, None, Some p), s1) /\
    finishConnectLocked false 13%positive p 0 s1 = Some (Done tt, s2).
Proof.
  do 2 eexists. edestruct (connect_admits ex_processes false [] "0" 5 API_2 0 0 (ex_service ex_clients) ex_clients) as (s2 & ds1 & es & q & c & Hf & _);
    [exact ex_service_ok|vm_compute; split; [discriminate|reflexivity]|by left|vm_compute; reflexivity|].
  exists s2. split; [vm_compute; reflexivity|exact Hf].
Defined.

(** Process 5 has camera 1 again, and a session of it offline. *)
Definition ex_twice : list (loc * ClientDescriptor string (option loc)) :=
  [(1%positive, ex_desc "offline-1" 11%positive 0 (ex_prio 100 0) 5); (2%positive, ex_desc "1" 12%positive 60 (ex_prio 100 0) 5)].

Lemma ex_twice_ok : service_ok (ex_service ex_twice) ex_twice.
Proof.
  constructor; [|by repeat constructor|].
  - constructor; try (by repeat constructor); [apply (bool_decide_unpack _); by vm_compute|].
    intros x y. rewrite !list_elem_of_In. cbn. intros [<-|[<-|[]]] [<-|[<-|[]]]; cbn; done.
  - constructor.
    + intros x. rewrite list_elem_of_In. cbn. intros [<-|[<-|[]]]; by do 2 eexists.
    + intros x y. rewrite !list_elem_of_In. cbn. intros [<-|[<-|[]]] [<-|[<-|[]]]; done.
Qed.

Lemma offline_twice_witness : addOfflineClient false "1" (Some 14%positive) 0 (ex_service ex_twice) = None.
Proof.
  pose proof (offline_twice (ex_service ex_twice) ex_twice (2%positive, ex_desc "1" 12%positive 60 (ex_prio 100 0) 5)
    (1%positive, ex_desc "offline-1" 11%positive 0 (ex_prio 100 0) 5) 14%positive ex_twice_ok) as H.
  assert (forall z, z ∈ ex_twice -> mConflicting z.2 = []) as Hz by (intros z; rewrite list_elem_of_In; cbn; intros [<-|[<-|[]]]; done).
  specialize (H ltac:(by right; left) ltac:(by left) eq_refl eq_refl ltac:(intros z Hin; rewrite (Hz z Hin); apply not_elem_of_nil) ltac:(vm_compute; discriminate)
    ltac:(vm_compute; split; [discriminate|reflexivity]) ltac:(discriminate)).
  change (mKey (2%positive, ex_desc "1" 12%positive 60 (ex_prio 100 0) 5).2) with "1" in H.
  match type of H with match ?t with _ => _ end => destruct t as [[r s']|] eqn:E end; [destruct H as [_ H]; discriminate H|exact E].
Defined.
