(* ===== verification/CamParams.v ===== *)
(** * Camera parameters ([camera/parameters/CameraParameters.cpp], [CameraParameters_EXT.cpp])

    The parameters of a camera are a map from keys to values, both strings, that
    travels between processes as one string, [key=value;key=value].  Numbers and
    sizes are printed into values and parsed back.  The version of this device
    forces the values of two keys.

    A C string is a [string] without the terminating zero, and [None] is [NULL];
    a [String8] is the same string.  The platform's [DefaultKeyedVector] is an
    interface, [KeyedVector], with its documented behaviour in [KeyedVectorOk];
    what the C library does ([strchr], [strtol], [strtok_r], ["%d"]) is defined
    here. *)
From S2P Require Import Prelude.
From stdpp Require Import base list strings gmap.
From Stdlib Require Import ZArith Lia Ascii.

Local Open Scope char_scope.
Local Open Scope string_scope.
Local Open Scope Z_scope.

Local Abbreviation empty_str := String.EmptyString.
Local Abbreviation chr c := (String.String c String.EmptyString).

(** The build: whether [QCOM_HARDWARE] is defined, and how many bits a [long] has. *)
Class Build := { QCOM_HARDWARE : bool; LONG_BIT : Z }.
Class BuildOk (B : Build) : Prop := { long_bit_ok : 32 <= LONG_BIT }.

(** ** The interface of the vector *)

(** [DefaultKeyedVector<String8, String8>]: the pairs at the indices from 0
    ([keyAt], [valueAt]), [add] (which, as [replaceValueFor] does, puts the pair in
    place of one with the same key) and [removeItem]. *)
Class KeyedVector (M : Type) := {
  kv_items : M -> list (string * string);
  kv_empty : M;
  kv_put : M -> string -> string -> M;
  kv_removeItem : M -> string -> M
}.

Fixpoint kv_find (l : list (string * string)) (key : string) : option string :=
  match l with
  | [] => None
  | (k, v) :: l => if String.eqb k key then Some v else kv_find l key
  end.

(** What it is documented to do. *)
Class KeyedVectorOk (M : Type) (KV : KeyedVector M) : Prop := {
  kv_nodup : forall m : M, NoDup (kv_items m).*1;
  kv_items_empty : kv_items (kv_empty : M) = [];
  kv_find_put : forall (m : M) k v k',
    kv_find (kv_items (kv_put m k v)) k' = if String.eqb k k' then Some v else kv_find (kv_items m) k';
  kv_find_remove : forall (m : M) k k',
    kv_find (kv_items (kv_removeItem m k)) k' = if String.eqb k k' then None else kv_find (kv_items m) k'
}.

(** ** What the C library does *)

Definition char_code (c : ascii) : Z := Z.of_N (N_of_ascii c).
Definition is_digit (c : ascii) : bool := (48 <=? char_code c) && (char_code c <=? 57).
Definition is_space (c : ascii) : bool := (char_code c =? 32) || ((9 <=? char_code c) && (char_code c <=? 13)).

(** [strchr]: what is before the first [c] and what follows it. *)
Fixpoint split_at (c : ascii) (s : string) : option (string * string) :=
  match s with
  | String.EmptyString => None
  | String.String x s =>
      if Ascii.eqb x c then Some (empty_str, s)
      else match split_at c s with Some (a, b) => Some (String.String x a, b) | None => None end
  end.

Definition has_char (c : ascii) (s : string) : bool :=
  match split_at c s with Some _ => true | None => false end.

Fixpoint skip_spaces (s : string) : string :=
  match s with
  | String.String c s' => if is_space c then skip_spaces s' else s
  | String.EmptyString => s
  end.

(** The value of a character as a digit in a base up to 16. *)
Definition digit_value (base : Z) (c : ascii) : option Z :=
  let x := char_code c in
  let d := if is_digit c then x - 48
           else if (97 <=? x) && (x <=? 102) then x - 87
           else if (65 <=? x) && (x <=? 70) then x - 55 else 99 in
  if d <? base then Some d else None.

Fixpoint digits (base acc : Z) (s : string) : Z * string :=
  match s with
  | String.String c s' =>
      match digit_value base c with Some d => digits base (acc * base + d) s' | None => (acc, s) end
  | String.EmptyString => (acc, s)
  end.

Definition starts_digit (base : Z) (s : string) : bool :=
  match s with
  | String.String c _ => match digit_value base c with Some _ => true | None => false end
  | String.EmptyString => false
  end.

(** The base that [strtol] with base 0 finds, and the digits. *)
Definition detect_base (base : Z) (s : string) : Z * string :=
  if base =? 0 then
    match s with
    | String.String c (String.String x s') =>
        if Ascii.eqb c "0" then
          if (Ascii.eqb x "x" || Ascii.eqb x "X") && starts_digit 16 s' then (16, s') else (8, s)
        else (10, s)
    | String.String c String.EmptyString => if Ascii.eqb c "0" then (8, s) else (10, s)
    | String.EmptyString => (10, s)
    end
  else (base, s).

Definition take_sign (s : string) : bool * string :=
  match s with
  | String.String c s' =>
      if Ascii.eqb c "-" then (true, s') else if Ascii.eqb c "+" then (false, s') else (false, s)
  | String.EmptyString => (false, s)
  end.

(** The conversion of a [long] to an [int]. *)
Definition to_int32 (x : Z) : Z := (x + 2 ^ 31) mod 2 ^ 32 - 2 ^ 31.

(** [%d]; twenty digits are enough for any [int]. *)
Definition digit_char (d : Z) : ascii := ascii_of_N (Z.to_N (48 + d)).

Fixpoint print_digits (fuel : nat) (x : Z) : string :=
  match fuel with
  | O => empty_str
  | S fuel => if x <? 10 then chr (digit_char x) else print_digits fuel (x / 10) +:+ chr (digit_char (x mod 10))
  end.

Definition print_int (x : Z) : string :=
  if x <? 0 then String.String "-" (print_digits 20 (- x)) else print_digits 20 x.

(** [strtok_r]: the parts between the delimiters that are not empty. *)
Fixpoint tokens (c : ascii) (cur : string) (s : string) : list string :=
  match s with
  | String.EmptyString => match cur with String.EmptyString => [] | _ => [cur] end
  | String.String x s =>
      if Ascii.eqb x c then
        match cur with String.EmptyString => tokens c cur s | _ => cur :: tokens c empty_str s end
      else tokens c (cur +:+ chr x) s
  end.

(** ** The operations *)

Section params.
Context {BUILD : Build} {M : Type} {KV : KeyedVector M}.

(** A [long] is clamped to its range. *)
Definition clamp_long (x : Z) : Z := Z.max (- 2 ^ (LONG_BIT - 1)) (Z.min (2 ^ (LONG_BIT - 1) - 1) x).

(** [strtol]: the number, and the rest of the string. *)
Definition strtol (base : Z) (str : string) : Z * string :=
  let '(neg, s) := take_sign (skip_spaces str) in
  let '(b, s) := detect_base base s in
  if starts_digit b s then
    let '(x, rest) := digits b 0 s in (clamp_long (if neg then - x else x), rest)
  else (0, str).

Definition get_forced_value (key value : string) : string :=
  if String.eqb key "face-detection-values" then "off" else
  if String.eqb key "face-detection" then "off" else value.

Definition add (map : M) (key value : string) : M := kv_put map key (get_forced_value key value).
Definition replaceValueFor (map : M) (key value : string) : M := kv_put map key (get_forced_value key value).

(** The loop over the pairs; the separator is left out after the last pair only. *)
Fixpoint flatten_items (l : list (string * string)) : string :=
  match l with
  | [] => empty_str
  | (k, v) :: l' =>
      (if String.eqb v empty_str then empty_str
       else k +:+ String.String "=" (v +:+ match l' with [] => empty_str | _ => chr ";" end)) +:+ flatten_items l'
  end.
Definition flatten (m : M) : string := flatten_items (kv_items m).

(** Each round of [unflatten] takes a key and a value off the string. *)
Fixpoint unflatten_loop (fuel : nat) (a : string) (m : M) : M :=
  match fuel with
  | O => m
  | S fuel =>
      match split_at "=" a with
      | None => m
      | Some (k, a) =>
          match split_at ";" a with
          | None => add m k a
          | Some (v, a) => unflatten_loop fuel a (add m k v)
          end
      end
  end.
Definition unflatten (params : string) : M := unflatten_loop (S (String.length params)) params kv_empty.

(** [valueFor] has the empty string as its default. *)
Definition valueFor (m : M) (key : string) : string := default empty_str (kv_find (kv_items m) key).
Definition get (m : M) (key : string) : option string :=
  let v := valueFor m key in if Nat.eqb (String.length v) 0 then None else Some v.

Definition set (m : M) (key value : option string) : M :=
  match key, value with
  | Some key, Some value =>
      if has_char "=" key || has_char ";" key then m else
      if has_char "=" value || has_char ";" value then m else
      let m := if QCOM_HARDWARE then
                 match get m "hdr-need-1x" with
                 | None => replaceValueFor m "hdr-need-1x" "false"
                 | Some _ => m
                 end
               else m in
      replaceValueFor m key value
  | _, _ => m
  end.

Definition set_int (m : M) (key : string) (value : Z) : M := set m (Some key) (Some (print_int value)).

Definition getInt (m : M) (key : string) : Z :=
  match get m key with None => -1 | Some v => to_int32 (fst (strtol 0 v)) end.

Definition remove (m : M) (key : string) : M := kv_removeItem m key.

(** [parse_pair]; [None] is the result -1, with which nothing is written. *)
Definition parse_pair (str : string) (delim : ascii) : option (Z * Z * string) :=
  let '(w, e) := strtol 10 str in
  match e with
  | String.String c e =>
      if Ascii.eqb c delim then
        let '(h, e) := strtol 10 e in Some (to_int32 w, to_int32 h, e)
      else None
  | String.EmptyString => None
  end.

Fixpoint sizes_loop (fuel : nat) (s : string) : list (Z * Z) :=
  match fuel with
  | O => []
  | S fuel =>
      match parse_pair s "x" with
      | Some (width, height, String.EmptyString) => [(width, height)]
      | Some (width, height, String.String c s) =>
          if Ascii.eqb c "," then (width, height) :: sizes_loop fuel s else []
      | None => []
      end
  end.
Definition parseSizesList (sizesStr : option string) : list (Z * Z) :=
  match sizesStr with None => [] | Some s => sizes_loop (S (String.length s)) s end.

(** A pair printed into a buffer of 32 bytes and stored, and read back. *)
Definition pair_str (x y : Z) (delim : ascii) : string := print_int x +:+ String.String delim (print_int y).
Definition set_pair (m : M) (key : string) (x y : Z) (delim : ascii) : M :=
  set m (Some key) (Some (pair_str x y delim)).
Definition get_pair (m : M) (key : string) (delim : ascii) : Z * Z :=
  match get m key with
  | None => (-1, -1)
  | Some p => match parse_pair p delim with Some (x, y, _) => (x, y) | None => (-1, -1) end
  end.

Definition setPreviewSize (m : M) (width height : Z) : M := set_pair m "preview-size" width height "x".
Definition getPreviewSize (m : M) : Z * Z := get_pair m "preview-size" "x".
Definition getPreferredPreviewSizeForVideo (m : M) : Z * Z := get_pair m "preferred-preview-size-for-video" "x".
Definition getSupportedPreviewSizes (m : M) : list (Z * Z) := parseSizesList (get m "preview-size-values").
Definition setVideoSize (m : M) (width height : Z) : M := set_pair m "video-size" width height "x".
Definition getVideoSize (m : M) : Z * Z := get_pair m "video-size" "x".
Definition getSupportedVideoSizes (m : M) : list (Z * Z) := parseSizesList (get m "video-size-values").
Definition setPreviewFrameRate (m : M) (fps : Z) : M := set_int m "preview-frame-rate" fps.
Definition getPreviewFrameRate (m : M) : Z := getInt m "preview-frame-rate".
Definition getPreviewFpsRange (m : M) : Z * Z := get_pair m "preview-fps-range" ",".
Definition setPreviewFormat (m : M) (format : option string) : M := set m (Some "preview-format") format.
Definition getPreviewFormat (m : M) : option string := get m "preview-format".
Definition setPictureSize (m : M) (width height : Z) : M := set_pair m "picture-size" width height "x".
Definition getPictureSize (m : M) : Z * Z := get_pair m "picture-size" "x".
Definition getSupportedPictureSizes (m : M) : list (Z * Z) := parseSizesList (get m "picture-size-values").
Definition setPictureFormat (m : M) (format : option string) : M := set m (Some "picture-format") format.
Definition getPictureFormat (m : M) : option string := get m "picture-format".
Definition isEmpty (m : M) : bool := match kv_items m with [] => true | _ => false end.

(** The formats, of which the platform's header gives the numbers. *)
Definition previewFormatToEnum (HAL_PIXEL_FORMAT : string -> Z) (format : string) : Z :=
  if String.eqb format "yuv422sp" then HAL_PIXEL_FORMAT "YCbCr_422_SP" else
  if String.eqb format "yuv420sp" then HAL_PIXEL_FORMAT "YCrCb_420_SP" else
  if String.eqb format "yuv422i-yuyv" then HAL_PIXEL_FORMAT "YCbCr_422_I" else
  if String.eqb format "yuv420p" then HAL_PIXEL_FORMAT "YV12" else
  if String.eqb format "rgb565" then HAL_PIXEL_FORMAT "RGB_565" else
  if String.eqb format "rgba8888" then HAL_PIXEL_FORMAT "RGBA_8888" else
  if String.eqb format "bayer-rggb" then HAL_PIXEL_FORMAT "RAW16" else -1.

Definition getSupportedPreviewFormats (HAL_PIXEL_FORMAT : string -> Z) (m : M) : list Z :=
  match get m "preview-format-values" with
  | None => []
  | Some s => filter (fun f => f <> -1) (map (previewFormatToEnum HAL_PIXEL_FORMAT) (tokens "," empty_str s))
  end.

(** ** [CameraParameters_EXT] *)

Definition getPreviewFrameRateMode (m : M) : option string := get m "preview-frame-rate-mode".
Definition setPreviewFrameRateMode (m : M) (mode : option string) : M := set m (Some "preview-frame-rate-mode") mode.
Definition setBrightnessLumaTargetSet (m : M) (brightness luma : Z) : M :=
  set_pair m "brightness-luma-target-set" brightness luma ",".
Definition getBrightnessLumaTargetSet (m : M) : Z * (Z * Z) :=
  (match get m "brightness-luma-target-set" with None => -1 | Some _ => 0 end,
   get_pair m "brightness-luma-target-set" ",").
Definition setTouchIndexAec (m : M) (x y : Z) : M := set_pair m "touch-index-aec" x y "x".
Definition getTouchIndexAec (m : M) : Z * Z := get_pair m "touch-index-aec" "x".
Definition setTouchIndexAf (m : M) (x y : Z) : M := set_pair m "touch-index-af" x y "x".
Definition getTouchIndexAf (m : M) : Z * Z := get_pair m "touch-index-af" "x".
Definition setZsl (m : M) (mode : option string) : M := set m (Some "zsl") mode.
Definition getZsl (m : M) : option string := get m "zsl".
Definition setRawSize (m : M) (x y : Z) : M := set_pair m "raw-size" x y "x".
Definition getRawSize (m : M) : Z * Z := get_pair m "raw-size" "x".
Definition setPreviewFpsRange (m : M) (min max : Z) : M := set_pair m "preview-fps-range" min max ",".
Definition getSupportedHfrSizes (m : M) : list (Z * Z) := parseSizesList (get m "hfr-size-values").

(** [None]: the code parses a null pointer. *)
Definition getMeteringAreaCenter (m : M) : option (Z * Z) :=
  match get m "metering-areas" with
  | None => None
  | Some p =>
      let '(x, y) := match parse_pair p "x" with Some (x, y, _) => (x, y) | None => (-2000, -2000) end in
      Some (Z.quot x 2, Z.quot y 2)
  end.

Definition ORIENTATION_PORTRAIT : Z := 1.
Definition ORIENTATION_LANDSCAPE : Z := 2.
Definition getOrientation (m : M) : Z :=
  match get m "orientation" with
  | Some p => if String.eqb p "portrait" then ORIENTATION_PORTRAIT else ORIENTATION_LANDSCAPE
  | None => ORIENTATION_LANDSCAPE
  end.
Definition setOrientation (m : M) (orientation : Z) : M :=
  if orientation =? ORIENTATION_PORTRAIT then set m (Some "orientation") (Some "portrait") else
  if orientation =? ORIENTATION_LANDSCAPE then set m (Some "orientation") (Some "landscape") else m.

(** ** Runs *)

(** The operations that change the map; the other setters are uses of these. *)
Inductive param_op :=
  | OpUnflatten (params : string)
  | OpSet (key value : option string)
  | OpSetInt (key : string) (value : Z)
  | OpSetPair (key : string) (x y : Z) (delim : ascii)
  | OpRemove (key : string).

Definition run_param_op (m : M) (o : param_op) : M :=
  match o with
  | OpUnflatten params => unflatten params
  | OpSet key value => set m key value
  | OpSetInt key value => set_int m key value
  | OpSetPair key x y delim => set_pair m key x y delim
  | OpRemove key => remove m key
  end.

(** From a new object. *)
Definition run_params (l : list param_op) : M := fold_left run_param_op l kv_empty.

End params.

(** ** A vector that does what is documented *)

#[global] Instance gmap_vector : KeyedVector (gmap string string) := {
  kv_items m := map_to_list m;
  kv_empty := ∅;
  kv_put m k v := <[k := v]> m;
  kv_removeItem m k := delete k m
}.
