(* ===== verification/CamParamsProps.v ===== *)
(** * Camera parameters: printing and parsing, and what the map keeps

    The lemmas on the characters that a value may have, on [strchr] and [strtol]
    of what was printed, and on the map, which is seen through [kv_find] only, so
    that they hold of every vector that does what [KeyedVectorOk] says.  The
    theorems are at the end. *)
From stdpp Require Import base list strings gmap.
From Stdlib Require Import ZArith Lia Ascii.
From S2P Require Import Prelude CamParams.

#[local] Arguments String.append !_ _ : simpl nomatch.

Local Open Scope char_scope.
Local Open Scope string_scope.
Local Open Scope Z_scope.

Local Abbreviation empty_str := String.EmptyString.
Local Abbreviation chr c := (String.String c String.EmptyString).

(** ** Strings *)

Lemma sapp_assoc (a b c : string) : (a +:+ b) +:+ c = a +:+ (b +:+ c).
Proof. induction a as [|x a IH]; simpl; [done|]. by rewrite IH. Qed.
Lemma sapp_nil (a : string) : a +:+ empty_str = a.
Proof. induction a as [|x a IH]; simpl; [done|]. by rewrite IH. Qed.
Lemma sapp_length (a b : string) : String.length (a +:+ b) = (String.length a + String.length b)%nat.
Proof. induction a as [|x a IH]; simpl; [done|]. by rewrite IH. Qed.

(** Every character of the string has the property. *)
Fixpoint all_chars (p : ascii -> bool) (s : string) : bool :=
  match s with String.EmptyString => true | String.String c s => p c && all_chars p s end.

Lemma all_chars_app p a b : all_chars p (a +:+ b) = all_chars p a && all_chars p b.
Proof. induction a as [|x a IH]; simpl; [done|]. by rewrite IH, andb_assoc. Qed.

Lemma all_chars_no_char p c s : all_chars p s = true -> p c = false -> has_char c s = false.
Proof.
  unfold has_char; intros Hs Hc; induction s as [|x s IH]; simpl in *; [done|].
  apply andb_true_iff in Hs as [Hx Hs].
  destruct (Ascii.eqb_spec x c); [congruence|]. specialize (IH Hs).
  by destruct (split_at c s) as [[??]|].
Qed.

Lemma split_at_app c a b : has_char c a = false -> split_at c (a +:+ String.String c b) = Some (a, b).
Proof.
  unfold has_char; induction a as [|x a IH]; simpl; intros Hc; [by rewrite Ascii.eqb_refl|].
  destruct (Ascii.eqb x c); [done|].
  destruct (split_at c a) as [[??]|]; [done|]. by rewrite IH.
Qed.

Lemma split_at_none c a : has_char c a = false -> split_at c a = None.
Proof. unfold has_char. by destruct (split_at c a). Qed.

(** What is before the first [c] has none, and both parts are shorter. *)
Lemma split_at_some c s a b :
  split_at c s = Some (a, b) ->
  has_char c a = false /\ String.length s = S (String.length a + String.length b).
Proof.
  unfold has_char; revert a b; induction s as [|x s IH]; simpl; intros a b Hs; [done|].
  destruct (Ascii.eqb x c) eqn:E; [by simplify_eq|].
  destruct (split_at c s) as [[a' b']|]; [|done]. simplify_eq.
  destruct (IH a' b eq_refl) as [Ha Hl]. simpl. rewrite E.
  destruct (split_at c a') as [[??]|]; [done|]. split; [done|lia].
Qed.

(** ** Numbers *)

Definition numeral (s : string) : bool := all_chars is_digit s.
(** What a printed [int] is made of. *)
Definition int_char (c : ascii) : bool := is_digit c || Ascii.eqb c "-".

Lemma digit_char_code d : 0 <= d <= 9 -> char_code (digit_char d) = 48 + d.
Proof.
  intros Hd. unfold char_code, digit_char. rewrite N_ascii_embedding by lia. lia.
Qed.

Lemma digit_char_digit d : 0 <= d <= 9 -> is_digit (digit_char d) = true.
Proof. intros Hd. unfold is_digit. rewrite digit_char_code by done. lia. Qed.

Lemma digit_char_value d base : 0 <= d <= 9 -> 10 <= base -> digit_value base (digit_char d) = Some d.
Proof.
  intros Hd Hb. unfold digit_value. rewrite digit_char_digit, digit_char_code by done.
  destruct (Z.ltb_spec (48 + d - 48) base); [f_equal; lia|lia].
Qed.

Lemma print_digits_numeral fuel x : 0 <= x -> numeral (print_digits fuel x) = true.
Proof.
  unfold numeral. revert x; induction fuel as [|fuel IH]; simpl; intros x Hx; [done|].
  destruct (Z.ltb_spec x 10); simpl; [by rewrite digit_char_digit by lia|].
  rewrite all_chars_app, IH by (apply Z.div_pos; lia).
  simpl. pose proof (Z.mod_pos_bound x 10). by rewrite digit_char_digit by lia.
Qed.

Lemma print_digits_length fuel x n :
  (1 <= n)%nat -> 0 <= x < 10 ^ Z.of_nat n -> (String.length (print_digits fuel x) <= n)%nat.
Proof.
  revert x n; induction fuel as [|fuel IH]; simpl; intros x n Hn Hx; [lia|].
  destruct (Z.ltb_spec x 10); simpl; [lia|].
  rewrite sapp_length; simpl. destruct n as [|[|n]]; [lia|simpl in Hx; lia|].
  specialize (IH (x / 10) (S n)). rewrite (Nat2Z.inj_succ (S n)), Z.pow_succ_r in Hx by lia.
  enough (0 <= x / 10 < 10 ^ Z.of_nat (S n)) by lia.
  split; [apply Z.div_pos; lia|apply Z.div_lt_upper_bound; lia].
Qed.

(** A number above zero starts with a digit that is not zero. *)
Lemma print_digits_head fuel x :
  0 < x -> (0 < fuel)%nat ->
  x < 10 ^ Z.of_nat fuel -> exists d s, 1 <= d <= 9 /\ print_digits fuel x = String.String (digit_char d) s.
Proof.
  revert x; induction fuel as [|fuel IH]; intros x Hx Hf Hb; [lia|]. simpl.
  destruct (Z.ltb_spec x 10); [exists x, empty_str; split; [lia|done]|].
  rewrite Nat2Z.inj_succ, Z.pow_succ_r in Hb by lia.
  destruct (IH (x / 10)) as (d & s & Hd & E).
  - apply Z.div_str_pos; lia.
  - destruct fuel; [simpl in Hb; lia|lia].
  - apply Z.div_lt_upper_bound; lia.
  - exists d, (s +:+ chr (digit_char (x mod 10))). by rewrite E.
Qed.

Lemma digits_app base acc a b :
  numeral a = true -> 10 <= base -> digits base acc (a +:+ b) = digits base (fst (digits base acc a)) b.
Proof.
  unfold numeral. intros Ha Hb. revert acc Ha; induction a as [|c a IH]; simpl; intros acc Ha; [done|].
  apply andb_true_iff in Ha as [Hc Ha]. unfold digit_value. rewrite Hc.
  unfold is_digit in Hc. destruct (Z.ltb_spec (char_code c - 48) base); [by rewrite IH|lia].
Qed.

Lemma digits_stop base acc s : starts_digit base s = false -> digits base acc s = (acc, s).
Proof. destruct s as [|c s]; simpl; [done|]. by destruct (digit_value base c). Qed.

Lemma print_digits_value fuel x :
  (0 < fuel)%nat -> 0 <= x < 10 ^ Z.of_nat fuel -> fst (digits 10 0 (print_digits fuel x)) = x.
Proof.
  revert x; induction fuel as [|fuel IH]; intros x Hf Hx; [lia|]. cbn [print_digits].
  destruct (Z.ltb_spec x 10).
  - cbn [digits]. rewrite digit_char_value by lia. simpl. lia.
  - rewrite Nat2Z.inj_succ, Z.pow_succ_r in Hx by lia.
    rewrite digits_app by (done || apply print_digits_numeral; apply Z.div_pos; lia).
    rewrite IH.
    + pose proof (Z.mod_pos_bound x 10). cbn [digits]. rewrite digit_char_value by lia. simpl.
      pose proof (Z.div_mod x 10). lia.
    + destruct fuel; [simpl in Hx; lia|lia].
    + split; [apply Z.div_pos; lia|apply Z.div_lt_upper_bound; lia].
Qed.

Definition int32 (x : Z) : Prop := - 2 ^ 31 <= x < 2 ^ 31.

Lemma to_int32_id x : int32 x -> to_int32 x = x.
Proof. unfold int32, to_int32. intros Hx. rewrite Z.mod_small; lia. Qed.

Lemma to_int32_range x : int32 (to_int32 x).
Proof. unfold int32, to_int32. pose proof (Z.mod_pos_bound (x + 2 ^ 31) (2 ^ 32)). lia. Qed.

Lemma int32_digits x : int32 x -> 0 <= Z.abs x < 10 ^ Z.of_nat 20.
Proof. unfold int32. intros Hx. change (10 ^ Z.of_nat 20) with 100000000000000000000. lia. Qed.

Lemma print_int_length x : int32 x -> (String.length (print_int x) <= 11)%nat.
Proof.
  unfold int32, print_int. intros Hx. change (2 ^ 31) with 2147483648 in Hx.
  pose proof (print_digits_length 20 (Z.abs x) 10) as Hp.
  change (10 ^ Z.of_nat 10) with 10000000000 in Hp.
  specialize (Hp ltac:(lia) ltac:(lia)).
  destruct (Z.ltb_spec x 0) as [Hneg|Hpos]; cbn [String.length].
  - rewrite Z.abs_neq in Hp by lia. lia.
  - rewrite Z.abs_eq in Hp by lia. lia.
Qed.

Lemma numeral_int_char s : numeral s = true -> all_chars int_char s = true.
Proof.
  unfold numeral, int_char. induction s as [|c s IH]; simpl; [done|]. intros Hs.
  apply andb_true_iff in Hs as [-> Hs]. by rewrite IH.
Qed.

Lemma print_int_chars x : all_chars int_char (print_int x) = true.
Proof.
  unfold print_int. destruct (Z.ltb_spec x 0); [cbn [all_chars]|]; apply numeral_int_char, print_digits_numeral; lia.
Qed.

Lemma print_int_no_char c x : int_char c = false -> has_char c (print_int x) = false.
Proof. apply all_chars_no_char, print_int_chars. Qed.

Lemma digit_char_plain d :
  1 <= d <= 9 ->
  is_space (digit_char d) = false /\ Ascii.eqb (digit_char d) "-" = false /\
  Ascii.eqb (digit_char d) "+" = false /\ Ascii.eqb (digit_char d) "0" = false.
Proof.
  intros Hd. assert (d = 1 \/ d = 2 \/ d = 3 \/ d = 4 \/ d = 5 \/ d = 6 \/ d = 7 \/ d = 8 \/ d = 9) as Hc by lia.
  by repeat destruct Hc as [->|Hc]; [..|subst d].
Qed.

Lemma detect_base_plain base c s :
  Ascii.eqb c "0" = false ->
  detect_base base (String.String c s) = (if base =? 0 then 10 else base, String.String c s).
Proof. intros Hc. unfold detect_base. destruct (base =? 0); [|done]. by destruct s; rewrite Hc. Qed.

(** [strtol] reads all the digits of a number above zero. *)
Lemma detect_digits base x rest :
  (base = 10 \/ base = 0) -> 0 < x < 10 ^ Z.of_nat 20 -> starts_digit 10 rest = false ->
  exists s, detect_base base (print_digits 20 x +:+ rest) = (10, s) /\ starts_digit 10 s = true /\
            digits 10 0 s = (x, rest).
Proof.
  intros Hbase Hx Hrest.
  destruct (print_digits_head 20 x) as (d & s & Hd & E); [lia..|].
  pose proof (print_digits_numeral 20 x ltac:(lia)) as Hnum.
  pose proof (print_digits_value 20 x ltac:(lia) ltac:(lia)) as Hval.
  rewrite E in *. exists (String.String (digit_char d) s +:+ rest). cbn [String.append].
  destruct (digit_char_plain d Hd) as (_ & _ & _ & Hz).
  rewrite detect_base_plain by done.
  split; [by destruct Hbase; subst|]. split; [cbn [starts_digit]; by rewrite digit_char_value by lia|].
  change (String.String (digit_char d) (s +:+ rest)) with (String.String (digit_char d) s +:+ rest).
  by rewrite digits_app, Hval, digits_stop.
Qed.

Section long.
Context {BUILD : Build} {BOK : BuildOk BUILD}.

Lemma clamp_long_id x : int32 x -> clamp_long x = x.
Proof.
  unfold int32, clamp_long. intros Hx. pose proof long_bit_ok.
  assert (2 ^ 31 <= 2 ^ (LONG_BIT - 1)) by (apply Z.pow_le_mono_r; lia). lia.
Qed.

Lemma strtol_print base x rest :
  (base = 10 \/ base = 0 /\ rest = empty_str) -> int32 x -> starts_digit 10 rest = false ->
  strtol base (print_int x +:+ rest) = (x, rest).
Proof.
  intros Hbase Hx Hrest. unfold print_int, strtol.
  assert (base = 10 \/ base = 0) as Hb by tauto. pose proof (int32_digits _ Hx).
  destruct (Z.ltb_spec x 0) as [Hneg|Hpos]; [|destruct (Z.eq_dec x 0) as [->|Hnz]].
  - change (take_sign (skip_spaces _)) with (true, print_digits 20 (- x) +:+ rest).
    destruct (detect_digits base (- x) rest Hb) as (s & -> & -> & ->); [lia|done|].
    by rewrite Z.opp_involutive, clamp_long_id.
  - change (take_sign (skip_spaces _)) with (false, String.String "0" rest).
    destruct Hbase as [->|[-> ->]]; simpl;
      [rewrite digits_stop by done|]; by rewrite clamp_long_id.
  - destruct (print_digits_head 20 x) as (d & s & Hd & E); [lia..|].
    destruct (digit_char_plain d Hd) as (Hsp & Hm & Hp & _).
    assert (take_sign (skip_spaces (print_digits 20 x +:+ rest)) = (false, print_digits 20 x +:+ rest)) as ->.
    { rewrite E. cbn [String.append skip_spaces]. rewrite Hsp. cbn [take_sign]. by rewrite Hm, Hp. }
    destruct (detect_digits base x rest Hb) as (s' & -> & -> & ->); [lia|done|].
    by rewrite clamp_long_id.
Qed.

(** ** Pairs and lists of sizes *)

Lemma starts_digit_delim delim s : digit_value 10 delim = None -> starts_digit 10 (String.String delim s) = false.
Proof. intros Hd. cbn. by rewrite Hd. Qed.

Lemma parse_pair_print x y delim rest :
  int32 x -> int32 y -> digit_value 10 delim = None -> starts_digit 10 rest = false ->
  parse_pair (pair_str x y delim +:+ rest) delim = Some (x, y, rest).
Proof.
  intros Hx Hy Hd Hrest. unfold parse_pair, pair_str. rewrite sapp_assoc. cbn [String.append].
  rewrite strtol_print by (by auto using starts_digit_delim).
  rewrite Ascii.eqb_refl, strtol_print by auto. by rewrite !to_int32_id.
Qed.

(** The list as the drivers write it, [640x480,320x240]. *)
Fixpoint sizes_str (l : list (Z * Z)) : string :=
  match l with
  | [] => empty_str
  | [(w, h)] => pair_str w h "x"
  | (w, h) :: l => pair_str w h "x" +:+ String.String "," (sizes_str l)
  end.

Lemma sizes_loop_print fuel l :
  l <> [] -> Forall (fun '(w, h) => int32 w /\ int32 h) l -> (length l <= fuel)%nat ->
  sizes_loop fuel (sizes_str l) = l.
Proof.
  revert fuel; induction l as [|[w h] l IH]; intros fuel Hne Hl Hf; [done|].
  apply Forall_cons in Hl as [[Hw Hh] Hl]. destruct fuel; simpl in Hf; [lia|]. cbn [sizes_loop].
  destruct l as [|p l]; cbn [sizes_str].
  - rewrite <- (sapp_nil (pair_str w h "x")), parse_pair_print by done. done.
  - rewrite parse_pair_print by done. simpl Ascii.eqb. cbv iota. f_equal. apply IH; [done..|lia].
Qed.

Lemma sizes_str_length l : (length l <= S (String.length (sizes_str l)))%nat.
Proof.
  induction l as [|[w h] l IH]; simpl; [lia|]. destruct l; [simpl; lia|].
  rewrite sapp_length. simpl String.length in *. simpl length in *. lia.
Qed.

End long.

(** ** The map *)

Section map.
Context {BUILD : Build} {M : Type} {KV : KeyedVector M} {KVOK : KeyedVectorOk M KV}.
Implicit Types (m : M) (l : list (string * string)) (k v key : string).

Definition find m key : option string := kv_find (kv_items m) key.

(** [get] does not tell an empty value from none. *)
Definition nonempty v : option string := if String.eqb v empty_str then None else Some v.

Lemma get_find m key : get m key = match find m key with Some v => nonempty v | None => None end.
Proof.
  unfold get, valueFor, find, nonempty. destruct (kv_find _ _) as [v|]; [|done]. by destruct v.
Qed.

Lemma find_add m k v key : find (add m k v) key = if String.eqb k key then Some (get_forced_value k v) else find m key.
Proof. apply kv_find_put. Qed.
Lemma find_replace m k v key :
  find (replaceValueFor m k v) key = if String.eqb k key then Some (get_forced_value k v) else find m key.
Proof. apply kv_find_put. Qed.

Lemma kv_find_elem l k v : NoDup l.*1 -> (k, v) ∈ l <-> kv_find l k = Some v.
Proof.
  induction l as [|[k0 v0] l IH]; cbn; intros Hl; [split; [by intros ?%not_elem_of_nil|done]|].
  apply NoDup_cons in Hl as [Hn Hl]. rewrite elem_of_cons. destruct (String.eqb_spec k0 k) as [->|Hne].
  - split; [intros [?|Hin]; [by simplify_eq|]|intros; simplify_eq; by left].
    destruct Hn. by apply (list_elem_of_fmap_2 fst l (k, v)).
  - rewrite <- IH by done. split; [intros [?|?]; [by simplify_eq|done]|by right].
Qed.

(** What every pair of the map satisfies. *)
Record pair_ok k v : Prop := {
  ok_key : has_char "=" k = false;
  ok_value : has_char ";" v = false;
  ok_forced : get_forced_value k v = v
}.
Definition kv_ok m : Prop := forall k v, find m k = Some v -> pair_ok k v.

Lemma forced_ok k v : has_char "=" k = false -> has_char ";" v = false -> pair_ok k (get_forced_value k v).
Proof.
  intros Hk Hv. unfold get_forced_value. split; [done|by repeat case_match|].
  unfold get_forced_value. by repeat case_match.
Qed.

Lemma add_ok m k v : kv_ok m -> has_char "=" k = false -> has_char ";" v = false -> kv_ok (add m k v).
Proof.
  intros Hm Hk Hv k' v'. rewrite find_add. destruct (String.eqb_spec k k'); intros; simplify_eq; [by apply forced_ok|].
  by apply Hm.
Qed.

Lemma empty_ok : kv_ok kv_empty.
Proof. intros k v. unfold find. by rewrite kv_items_empty. Qed.

Lemma unflatten_loop_ok fuel a m : kv_ok m -> kv_ok (unflatten_loop fuel a m).
Proof.
  revert a m; induction fuel as [|fuel IH]; cbn; intros a m Hm; [done|].
  destruct (split_at "=" a) as [[k r]|] eqn:Ek; [|done]. apply split_at_some in Ek as [Hk _].
  destruct (split_at ";" r) as [[v r']|] eqn:Ev.
  - apply split_at_some in Ev as [Hv _]. by apply IH, add_ok.
  - apply add_ok; [done..|]. unfold has_char. by rewrite Ev.
Qed.

Lemma set_ok m (ko vo : option string) : kv_ok m -> kv_ok (set m ko vo).
Proof.
  intros Hm. unfold set. destruct ko as [k|], vo as [v|]; try done.
  destruct (has_char "=" k || has_char ";" k) eqn:Ek; [done|].
  destruct (has_char "=" v || has_char ";" v) eqn:Ev; [done|].
  apply orb_false_iff in Ek as [Hk _], Ev as [_ Hv]. apply add_ok; [|done..].
  destruct QCOM_HARDWARE; [|done]. destruct (get m "hdr-need-1x"); [done|]. by apply add_ok.
Qed.

Lemma remove_kv_ok m k : kv_ok m -> kv_ok (remove m k).
Proof.
  intros Hm k' v'. unfold find, remove. rewrite kv_find_remove. destruct (String.eqb k k'); [done|]. apply Hm.
Qed.

Lemma run_params_ok ops : kv_ok (run_params ops).
Proof.
  unfold run_params. generalize empty_ok. generalize (kv_empty : M).
  induction ops as [|o ops IH]; cbn; intros m Hm; [done|]. apply IH.
  destruct o; cbn [run_param_op]; [apply unflatten_loop_ok, empty_ok|by apply set_ok..|by apply remove_kv_ok].
Qed.

(** *** Writing the map as a string and reading it back *)

Definition add_all l m : M := fold_left (fun m '(k, v) => add m k v) l m.
Definition kept_items l := filter (fun x => x.2 <> empty_str) l.

Lemma flatten_items_cons k v l :
  v <> empty_str ->
  flatten_items ((k, v) :: l) =
  k +:+ String.String "=" (v +:+ match l with [] => empty_str | _ => String.String ";" (flatten_items l) end).
Proof.
  intros Hv. cbn [flatten_items]. apply String.eqb_neq in Hv as ->. rewrite sapp_assoc. f_equal. cbn [String.append].
  f_equal. rewrite sapp_assoc. f_equal. by destruct l.
Qed.

Lemma unflatten_items fuel l m :
  (String.length (flatten_items l) < fuel)%nat -> Forall (fun '(k, v) => pair_ok k v) l ->
  unflatten_loop fuel (flatten_items l) m = add_all (kept_items l) m.
Proof.
  revert fuel m; induction l as [|[k v] l IH]; intros fuel m Hf Hl; [by destruct fuel|].
  apply Forall_cons in Hl as [[Hk Hv _] Hl]. destruct (String.eqb_spec v empty_str) as [->|Hne].
  { unfold kept_items. rewrite filter_cons_False by (cbn; tauto). by apply IH. }
  unfold kept_items. rewrite filter_cons_True by done. rewrite flatten_items_cons in * by done.
  destruct fuel as [|fuel]; [lia|]. cbn [unflatten_loop add_all fold_left].
  rewrite split_at_app by done. rewrite sapp_length in Hf. cbn [String.length] in Hf. rewrite sapp_length in Hf.
  destruct l as [|p l].
  - rewrite sapp_nil, split_at_none by done. done.
  - rewrite split_at_app by done. cbn [String.length] in Hf. apply IH; [lia|done].
Qed.

Lemma find_add_all l m key :
  NoDup l.*1 ->
  find (add_all l m) key =
  match kv_find l key with Some v => Some (get_forced_value key v) | None => find m key end.
Proof.
  unfold add_all. revert m; induction l as [|[k v] l IH]; cbn; intros m Hl; [done|].
  apply NoDup_cons in Hl as [Hn Hl]. rewrite IH, find_add by done.
  destruct (String.eqb_spec k key) as [->|]; [|done].
  destruct (kv_find l key) as [v'|] eqn:E; [|done]. apply kv_find_elem in E; [|done].
  destruct Hn. by apply (list_elem_of_fmap_2 fst l (key, v')).
Qed.

Lemma kv_find_kept l key :
  NoDup l.*1 -> kv_find (kept_items l) key = match kv_find l key with Some v => nonempty v | None => None end.
Proof.
  unfold kept_items, nonempty. induction l as [|[k v] l IH]; intros Hl; [done|]. cbn [kv_find].
  apply NoDup_cons in Hl as [Hn Hl]. specialize (IH Hl).
  assert (kv_find l k = None) as Hnone.
  { destruct (kv_find l k) eqn:E; [|done]. apply kv_find_elem in E; [|done].
    destruct Hn. by apply (list_elem_of_fmap_2 fst l (k, s)). }
  destruct (String.eqb_spec v empty_str) as [->|Hne].
  - rewrite filter_cons_False by (cbn; tauto). rewrite IH.
    destruct (String.eqb_spec k key) as [->|]; [|done]. by rewrite Hnone.
  - rewrite filter_cons_True by done. cbn. destruct (String.eqb_spec k key) as [->|]; [|done].
    by apply String.eqb_neq in Hne as ->.
Qed.

Lemma get_unflatten_flatten m key : kv_ok m -> get (unflatten (flatten m) : M) key = get m key.
Proof.
  intros Hm. unfold unflatten, flatten. rewrite unflatten_items; [|lia|].
  - pose proof (kv_nodup m) as Hnd. rewrite !get_find, find_add_all.
    + rewrite kv_find_kept by done. unfold find. rewrite kv_items_empty.
      destruct (kv_find (kv_items m) key) as [v|] eqn:E; [|done].
      unfold nonempty. destruct (String.eqb v empty_str) eqn:Ev; [done|].
      rewrite (ok_forced _ _ (Hm _ _ E)). by rewrite Ev.
    + eapply sublist_NoDup; [exact Hnd|apply (fmap_sublist fst), sublist_filter].
  - apply Forall_forall. intros [k v] Hin. apply Hm. apply kv_find_elem; [apply kv_nodup|done].
Qed.

(** What [set] does to [get]. *)
Definition valid k : bool := negb (has_char "=" k || has_char ";" k).

Lemma get_set m k v key :
  get (set m (Some k) (Some v)) key =
  if valid k && valid v then
    if String.eqb k key then nonempty (get_forced_value k v)
    else if QCOM_HARDWARE && String.eqb "hdr-need-1x" key then Some (default "false" (get m key))
    else get m key
  else get m key.
Proof.
  unfold set, valid. destruct (has_char "=" k || has_char ";" k); [done|].
  destruct (has_char "=" v || has_char ";" v); [done|]. cbn [negb andb].
  rewrite get_find, find_replace. destruct (String.eqb_spec k key); [done|]. rewrite <- get_find.
  destruct QCOM_HARDWARE; [|done]. cbn [andb].
  destruct (String.eqb_spec "hdr-need-1x" key) as [<-|Hne].
  - destruct (get m "hdr-need-1x") as [x|] eqn:E; [done|]. by rewrite get_find, find_replace.
  - destruct (get m "hdr-need-1x"); [done|]. rewrite !get_find, find_replace.
    by apply String.eqb_neq in Hne as ->.
Qed.

End map.

(** ** The platform's vector, as a map *)

Lemma kv_find_map_to_list (m : gmap string string) k : kv_find (map_to_list m) k = m !! k.
Proof.
  destruct (m !! k) as [v|] eqn:E.
  - apply kv_find_elem; [apply NoDup_fst_map_to_list|by apply elem_of_map_to_list].
  - destruct (kv_find (map_to_list m) k) as [v|] eqn:F; [|done].
    apply kv_find_elem, elem_of_map_to_list in F; [congruence|apply NoDup_fst_map_to_list].
Qed.

#[global] Instance gmap_vector_ok : KeyedVectorOk (gmap string string) gmap_vector.
Proof.
  split; cbn.
  - intros m. apply NoDup_fst_map_to_list.
  - apply map_to_list_empty.
  - intros m k v k'. rewrite !kv_find_map_to_list.
    destruct (String.eqb_spec k k') as [->|]; [apply lookup_insert_eq|by apply lookup_insert_ne].
  - intros m k k'. rewrite !kv_find_map_to_list.
    destruct (String.eqb_spec k k') as [->|]; [apply lookup_delete_eq|by apply lookup_delete_ne].
Qed.

(** ** Theorems *)

(** The keys under which a value is stored as it is. *)
Definition plain_key (k : string) : bool :=
  valid k && negb (String.eqb k "face-detection-values" || String.eqb k "face-detection").

Lemma get_set_plain {BUILD : Build} {M : Type} {KV : KeyedVector M} {KVOK : KeyedVectorOk M KV} (m : M) k v :
  plain_key k = true -> valid v = true -> v <> empty_str -> get (set m (Some k) (Some v)) k = Some v.
Proof.
  unfold plain_key. intros Hk Hv Hne. apply andb_true_iff in Hk as [Hk Hf]. rewrite get_set, Hk, Hv, String.eqb_refl.
  apply negb_true_iff, orb_false_iff in Hf as [F1 F2]. cbn [andb]. unfold get_forced_value. rewrite F1, F2.
  unfold nonempty. by apply String.eqb_neq in Hne as ->.
Qed.

Lemma valid_chars p v : all_chars p v = true -> p "="%char = false -> p ";"%char = false -> valid v = true.
Proof. intros Hv He Hs. unfold valid. by rewrite !(all_chars_no_char p). Qed.

Lemma all_chars_impl (p q : ascii -> bool) s : (forall c, p c = true -> q c = true) -> all_chars p s = true -> all_chars q s = true.
Proof. intros Hpq. induction s as [|c s IH]; simpl; [done|]. rewrite !andb_true_iff. intuition auto. Qed.

(** The characters of a printed number, pair or list. *)
Definition size_char (c : ascii) : bool := int_char c || Ascii.eqb c "x" || Ascii.eqb c ",".

Lemma print_int_size_chars x : all_chars size_char (print_int x) = true.
Proof. eapply all_chars_impl; [|apply print_int_chars]. unfold size_char. by intros c ->. Qed.

Lemma pair_str_chars x y delim : size_char delim = true -> all_chars size_char (pair_str x y delim) = true.
Proof. intros Hd. unfold pair_str. rewrite all_chars_app. cbn [all_chars]. by rewrite Hd, !print_int_size_chars. Qed.

Lemma sizes_str_chars l : all_chars size_char (sizes_str l) = true.
Proof.
  induction l as [|[w h] l IH]; [done|]. cbn [sizes_str]. destruct l; [by apply pair_str_chars|].
  rewrite all_chars_app, pair_str_chars by done. cbn [all_chars]. by rewrite IH.
Qed.

Lemma print_int_nonempty x : print_int x <> empty_str.
Proof.
  unfold print_int. destruct (Z.ltb_spec x 0); [done|]. cbn [print_digits].
  destruct (x <? 10); [done|]. intros E%(f_equal String.length). rewrite sapp_length in E. cbn [String.length] in E. lia.
Qed.

Lemma pair_str_length x y delim : int32 x -> int32 y -> (String.length (pair_str x y delim) <= 23)%nat.
Proof.
  intros Hx%print_int_length Hy%print_int_length. unfold pair_str. rewrite sapp_length. cbn [String.length]. lia.
Qed.

Section theorems.
Context {BUILD : Build} {BOK : BuildOk BUILD} {M : Type} {KV : KeyedVector M} {KVOK : KeyedVectorOk M KV}.

Lemma set_pair_get (m : M) key x y delim :
  plain_key key = true -> size_char delim = true ->
  get (set_pair m key x y delim) key = Some (pair_str x y delim).
Proof.
  intros Hk Hd. apply get_set_plain; [done| |].
  - eapply valid_chars; [by apply pair_str_chars|done..].
  - unfold pair_str. intros E%(f_equal String.length). rewrite sapp_length in E. cbn in E. lia.
Qed.

Lemma set_int_get (m : M) key x :
  plain_key key = true -> int32 x -> get (set_int m key x) key = Some (print_int x).
Proof.
  intros Hk Hx. apply get_set_plain; [done| |].
  - eapply valid_chars; [apply print_int_size_chars|done..].
  - by apply print_int_nonempty.
Qed.

(** C21. What one process writes another reads: the parameters that any sequence
    of operations leaves, written as a string with [flatten] and read with
    [unflatten], answer every [get] as before. *)
Theorem params_roundtrip (ops : list param_op) (key : string) :
  get (unflatten (flatten (run_params ops : M)) : M) key = get (run_params ops : M) key.
Proof. apply get_unflatten_flatten, run_params_ok. Qed.

(** C22. Numbers and pairs survive being printed, stored, written as a string in
    one process, read in another and parsed: any [int] and any pair of [int]s
    under an ordinary key, with either delimiter.  And what is printed fits the
    buffers of 16 and 32 bytes. *)
Theorem params_numbers_travel (ops : list param_op) (key : string) (x y : Z) (delim : ascii) :
  plain_key key = true -> int32 x -> int32 y -> delim = "x"%char \/ delim = ","%char ->
  getInt (unflatten (flatten (set_int (run_params ops : M) key x)) : M) key = x /\
  get_pair (unflatten (flatten (set_pair (run_params ops : M) key x y delim)) : M) key delim = (x, y) /\
  (String.length (print_int x) < 16)%nat /\ (String.length (pair_str x y delim) < 32)%nat.
Proof.
  intros Hk Hx Hy Hd. pose proof (run_params_ok (M := M) ops) as Hok.
  pose proof (print_int_length x Hx). pose proof (pair_str_length x y delim Hx Hy).
  assert (digit_value 10 delim = None /\ size_char delim = true) as [Hdv Hds] by (destruct Hd; by subst).
  unfold getInt, get_pair. rewrite !get_unflatten_flatten, set_int_get, set_pair_get by (done || by apply set_ok).
  rewrite <- (sapp_nil (print_int x)) at 1. rewrite strtol_print by auto. cbn [fst]. rewrite to_int32_id by done.
  rewrite <- (sapp_nil (pair_str x y delim)) at 1. rewrite parse_pair_print by done. repeat split; lia.
Qed.

(** C23. A list of sizes, printed as the drivers print it, stored, written and read
    in another process, is parsed back whole. *)
Theorem params_sizes_travel (ops : list param_op) (l : list (Z * Z)) :
  l <> [] -> Forall (fun '(w, h) => int32 w /\ int32 h) l ->
  getSupportedPreviewSizes
    (unflatten (flatten (set (run_params ops : M) (Some "preview-size-values") (Some (sizes_str l)))) : M) = l.
Proof.
  intros Hne Hl. unfold getSupportedPreviewSizes, parseSizesList.
  rewrite get_unflatten_flatten by apply set_ok, run_params_ok. rewrite get_set_plain; [|done| |].
  - by apply sizes_loop_print, sizes_str_length.
  - eapply valid_chars; [apply sizes_str_chars|done..].
  - destruct l as [|[w h] l]; [done|]. cbn [sizes_str]. intros E%(f_equal String.length).
    unfold pair_str in E. destruct l; rewrite ?sapp_length in E; cbn [String.length] in E; lia.
Qed.

(** C24. [set] and [get]: a key or a value with one of the separators is refused
    and changes nothing; otherwise the key has the value (none if it is empty,
    and always ["off"] under the two keys of face detection), every other key is
    as it was, except that a QCOM build gives ["hdr-need-1x"] the value
    ["false"] the first time anything is set.  A null pointer changes nothing. *)
Theorem params_set_get (ops : list param_op) (k v key : string) :
  let m := run_params ops : M in
  set m None (Some v) = m /\ set m (Some k) None = m /\
  get (set m (Some k) (Some v)) key =
    (if valid k && valid v then
       if String.eqb k key then
         (if String.eqb key "face-detection" || String.eqb key "face-detection-values" then Some "off"
          else if String.eqb v empty_str then None else Some v)
       else if QCOM_HARDWARE && String.eqb "hdr-need-1x" key then Some (default "false" (get m key))
       else get m key
     else get m key) /\
  (get m "face-detection" = None \/ get m "face-detection" = Some "off") /\
  (get m "face-detection-values" = None \/ get m "face-detection-values" = Some "off").
Proof.
  intros m. pose proof (run_params_ok (M := M) ops) as Hok. fold m in Hok.
  split_and!; [done|done| | |].
  - rewrite get_set. destruct (valid k && valid v); [|done]. destruct (String.eqb_spec k key) as [->|]; [|done].
    unfold get_forced_value.
    destruct (String.eqb_spec key "face-detection-values") as [->|]; [done|].
    by destruct (String.eqb_spec key "face-detection") as [->|].
  - rewrite get_find. destruct (find m "face-detection") as [w|] eqn:E; [|by left]. right.
    pose proof (ok_forced _ _ (Hok _ _ E)) as <-. done.
  - rewrite get_find. destruct (find m "face-detection-values") as [w|] eqn:E; [|by left]. right.
    pose proof (ok_forced _ _ (Hok _ _ E)) as <-. done.
Qed.

(** ** The fuel of the loops is enough *)

Lemma unflatten_fuel n a (m : M) :
  (String.length a < n)%nat -> unflatten_loop n a m = unflatten_loop (S (String.length a)) a m.
Proof.
  cut (forall n n' a (m : M), (String.length a < n)%nat -> (String.length a < n')%nat ->
         unflatten_loop n a m = unflatten_loop n' a m).
  { intros Hc Hn. apply Hc; lia. }
  clear. induction n as [|n IH]; intros [|n'] a m Hn Hn'; try lia. cbn [unflatten_loop].
  destruct (split_at "=" a) as [[k r]|] eqn:Ek; [|done].
  destruct (split_at ";" r) as [[v r']|] eqn:Ev; [|done].
  apply split_at_some in Ek as [_ Ek], Ev as [_ Ev]. apply IH; lia.
Qed.

Lemma digits_rest base acc s : (String.length (snd (digits base acc s)) <= String.length s)%nat.
Proof.
  revert acc; induction s as [|c s IH]; cbn; intros acc; [lia|].
  destruct (digit_value base c); [|cbn; lia]. specialize (IH (acc * base + z)). lia.
Qed.

Lemma strtol_rest base s : (String.length (snd (strtol base s)) <= String.length s)%nat.
Proof.
  unfold strtol. destruct (take_sign (skip_spaces s)) as [neg t] eqn:Et.
  destruct (detect_base base t) as [b u] eqn:Eb. destruct (starts_digit b u); [|done].
  pose proof (digits_rest b 0 u). destruct (digits b 0 u) as [x r]. cbn in *.
  enough (String.length u <= String.length t /\ String.length t <= String.length (skip_spaces s) /\
          String.length (skip_spaces s) <= String.length s)%nat by lia.
  split_and!.
  - revert Eb. unfold detect_base. repeat case_match; intros; simplify_eq; cbn; lia.
  - revert Et. unfold take_sign. repeat case_match; intros; simplify_eq; cbn; lia.
  - clear. induction s as [|c s IH]; cbn; [done|]. destruct (is_space c); cbn; lia.
Qed.

Lemma parse_pair_rest s delim x y r :
  parse_pair s delim = Some (x, y, r) -> (String.length r < String.length s)%nat.
Proof.
  unfold parse_pair. pose proof (strtol_rest 10 s) as Hs. destruct (strtol 10 s) as [w e]. cbn in Hs.
  destruct e as [|c e]; [done|]. destruct (Ascii.eqb c delim); [|done].
  pose proof (strtol_rest 10 e) as He. destruct (strtol 10 e) as [h e']. cbn in *. intros; simplify_eq. lia.
Qed.

Lemma sizes_fuel n s :
  (String.length s < n)%nat -> sizes_loop n s = sizes_loop (S (String.length s)) s.
Proof.
  cut (forall n n' s, (String.length s < n)%nat -> (String.length s < n')%nat -> sizes_loop n s = sizes_loop n' s).
  { intros Hc Hn. apply Hc; lia. }
  clear n s. induction n as [|n IH]; intros [|n'] s Hn Hn'; try lia. cbn [sizes_loop].
  destruct (parse_pair s "x") as [[[x y] r]|] eqn:E; [|done]. apply parse_pair_rest in E.
  destruct r as [|c r]; [done|]. destruct (Ascii.eqb c ","); [|done]. f_equal. cbn in E. apply IH; lia.
Qed.

(** The loops of [unflatten] and [parseSizesList] end on every string: each
    round leaves a shorter rest, so more rounds than the length of the string
    change nothing. *)
Theorem params_loops_end (n : nat) (s : string) (m : M) :
  (String.length s < n)%nat ->
  unflatten_loop n s m = unflatten_loop (S (String.length s)) s m /\
  sizes_loop n s = parseSizesList (Some s).
Proof. intros Hn. split; [by apply unflatten_fuel|by apply sizes_fuel]. Qed.

End theorems.

(** ** Witnesses *)

Definition build64 : Build := {| QCOM_HARDWARE := true; LONG_BIT := 64 |}.
#[export] Instance build64_ok : BuildOk build64.
Proof. by split. Qed.

Lemma params_roundtrip_witness :
  let m := run_params (BUILD := build64) [OpSet (Some "zsl") (Some "on"); OpUnflatten "a=1;b==2;c=;d"] : gmap string string in
  get (unflatten (flatten m) : gmap string string) "b" = Some "=2" /\ flatten m = "a=1;b==2".
Proof.
  intros m. split; [|vm_compute; reflexivity].
  exact (params_roundtrip (BUILD := build64) (M := gmap string string)
           [OpSet (Some "zsl") (Some "on"); OpUnflatten "a=1;b==2;c=;d"] "b").
Defined.

Lemma params_numbers_travel_witness :
  get_pair (BUILD := build64)
    (unflatten (flatten (set_pair (BUILD := build64) (kv_empty : gmap string string) "raw-size" (-2147483648) 12 "x"))
     : gmap string string) "raw-size" "x" = (-2147483648, 12).
Proof.
  refine (proj1 (proj2 (params_numbers_travel (BUILD := build64) (M := gmap string string) [] "raw-size"
                          (-2147483648) 12 "x" _ _ _ _)));
    [reflexivity|unfold int32; lia|unfold int32; lia|left; reflexivity].
Defined.

Lemma params_sizes_travel_witness :
  getSupportedPreviewSizes (BUILD := build64)
    (unflatten (flatten (set (BUILD := build64) (kv_empty : gmap string string)
       (Some "preview-size-values") (Some "640x480,320x240"))) : gmap string string) = [(640, 480); (320, 240)].
Proof.
  refine (params_sizes_travel (BUILD := build64) (M := gmap string string) [] [(640, 480); (320, 240)] _ _);
    [discriminate|]. repeat constructor; unfold int32; lia.
Defined.

Lemma params_set_get_witness :
  get (set (BUILD := build64) (kv_empty : gmap string string) (Some "face-detection") (Some "on")) "face-detection"
  = Some "off".
Proof.
  exact (proj1 (proj2 (proj2 (params_set_get (BUILD := build64) (M := gmap string string) []
                               "face-detection" "on" "face-detection")))).
Defined.

Lemma params_loops_end_witness : sizes_loop (BUILD := build64) 100 "1x2,3x4,5" = [(1, 2); (3, 4)].
Proof.
  refine (proj2 (params_loops_end (BUILD := build64) (M := gmap string string) 100 "1x2,3x4,5" ∅ _)).
  cbn; lia.
Defined.
