(* ===== verification/CamBuffers.v ===== *)
(** * The buffer manager of the camera streams ([camera/libcameraservice/device3/Camera3BufferManager.cpp])

    Output streams that share buffers form stream sets.  For every stream the manager
    counts the buffers that are attached to its queue and those of them that are
    handed out; it allocates a buffer when no attached one is free, and frees a buffer
    of another stream of the set when more are allocated than the water mark of the
    set.  For that it releases its lock, so that other threads may call it meanwhile.

    [KeyedVector] of the platform is a map; its indices are in the order of the keys.
    Undefined behaviour and the abort of [valueFor] on a key that is not there are
    [ub].  The allocator, the life of the weak pointers and the buffer queues are
    arguments. *)
From S2P Require Import Prelude Heap StateM.
From stdpp Require Import base list gmap sorting.
From Stdlib Require Import ZArith Lia.

Open Scope Z_scope.
Open Scope method_scope.

(** ** Constants *)

Definition INVALID_OPERATION : Z := -38.
Definition ALREADY_EXISTS : Z := -17.
Definition BAD_VALUE : Z := -22.
Definition CAMERA3_STREAM_SET_ID_INVALID : Z := -1.
Definition CAMERA3_STREAM_ID_INVALID : Z := -1.
Definition BUFFER_WATERMARK_DEC_THRESHOLD : Z := 3.
Definition BUFFER_FREE_THRESHOLD : Z := 3.

(** The macro of the platform. *)
Definition HARDWARE_DEVICE_API_VERSION (maj min : Z) : Z := Z.lor (Z.shiftl (Z.land maj 255) 8) (Z.land min 255).
Definition mGrallocVersion : Z := HARDWARE_DEVICE_API_VERSION 0 1.

(** The width of [size_t] and [BufferQueueDefs::NUM_BUFFER_SLOTS]. *)
Class BufferLimits := { size_bit : Z; kMaxBufferCount : Z }.
Class BufferLimitsOk (L : BufferLimits) : Prop := { limits_fit : 0 < kMaxBufferCount < 2 ^ size_bit - 1 }.

(** ** Data *)

Record StreamInfo := {
  streamId : Z;
  streamSetId : Z;
  width : Z;
  height : Z;
  si_format : Z;
  dataSpace : Z;
  combinedUsage : Z;
  total_buffers : N;
  isConfigured : bool;
  isMultiRes : bool
}.

(** A [size_t] is not negative. *)
Definition totalBufferCount (i : StreamInfo) : Z := Z.of_N (total_buffers i).

Record StreamSet := {
  allocatedBufferWaterMark : Z;
  maxAllowedBufferCount : Z;
  streamInfoMap : gmap Z StreamInfo;
  handoutBufferCountMap : gmap Z Z;
  attachedBufferCountMap : gmap Z Z
}.
#[export] Instance eta_StreamSet : Settable StreamSet := fun s =>
  {| allocatedBufferWaterMark := allocatedBufferWaterMark s; maxAllowedBufferCount := maxAllowedBufferCount s;
     streamInfoMap := streamInfoMap s; handoutBufferCountMap := handoutBufferCountMap s;
     attachedBufferCountMap := attachedBufferCountMap s |}.

Definition new_StreamSet : StreamSet :=
  {| allocatedBufferWaterMark := 0; maxAllowedBufferCount := 0; streamInfoMap := ∅;
     handoutBufferCountMap := ∅; attachedBufferCountMap := ∅ |}.

(** [id] and [isMultiRes]. *)
Definition StreamSetKey : Type := Z * bool.

(** [set_storage] counts how often an element was added to or removed from
    [mStreamSetMap]: a reference into it from before is dangling. *)
Record Camera3BufferManager := {
  mStreamSetMap : gmap StreamSetKey StreamSet;
  mStreamMap : gmap Z loc;
  set_storage : nat
}.
#[export] Instance eta_Camera3BufferManager : Settable Camera3BufferManager := fun m =>
  {| mStreamSetMap := mStreamSetMap m; mStreamMap := mStreamMap m; set_storage := set_storage m |}.

Definition new_Camera3BufferManager : Camera3BufferManager :=
  {| mStreamSetMap := ∅; mStreamMap := ∅; set_storage := 0 |}.

Abbreviation BM := (M Camera3BufferManager).

(** The values at the indices from 0 on. *)
Definition values_in_order {A} (m : gmap Z A) : list A := omap (fun k => m !! k) (merge_sort Z.le (map_to_list m).*1).

(** [editValueFor] and [valueFor] of the map of sets, and the assignment through
    the reference. *)
Definition edit_set (key : StreamSetKey) : BM StreamSet := let* m := get in deref (mStreamSetMap m !! key).
Definition put_set (key : StreamSetKey) (s : StreamSet) : BM unit :=
  modify (fun m => m <| mStreamSetMap := <[key := s]> (mStreamSetMap m) |>).
Definition add_set (key : StreamSetKey) : BM unit :=
  modify (fun m => m <| mStreamSetMap := <[key := new_StreamSet]> (mStreamSetMap m) |> <| set_storage := S (set_storage m) |>).
Definition remove_set (key : StreamSetKey) : BM unit :=
  modify (fun m => m <| mStreamSetMap := delete key (mStreamSetMap m) |> <| set_storage := S (set_storage m) |>).

Section manager.
Context {L : BufferLimits}.

Definition sum_counts (l : list Z) : Z := foldl (fun t x => trunc size_bit (t + x)) 0 l.

(** The loop that finds the largest buffer count. *)
Definition max_total (infos : list StreamInfo) : Z :=
  foldl (fun m i => if m <? totalBufferCount i then totalBufferCount i else m) 0 infos.

Definition checkIfStreamRegisteredLocked (id : Z) (key : StreamSetKey) : BM bool :=
  let* m := get in
  ret (match mStreamSetMap m !! key with
       | None => false
       | Some s =>
           match streamInfoMap s !! id with
           | None => false
           | Some _ =>
               let bufferWaterMark := maxAllowedBufferCount s in
               negb ((bufferWaterMark =? 0) || (kMaxBufferCount <? bufferWaterMark))
           end
       end).

(** The test for a stream that is in another set. *)
Definition registered_elsewhere (info : StreamInfo) (m : Camera3BufferManager) : bool :=
  existsb (fun x => match streamInfoMap x.2 !! streamId info with
                    | Some i => negb (streamSetId i =? streamSetId info) && negb (Bool.eqb (isMultiRes i) (isMultiRes info))
                    | None => false
                    end) (map_to_list (mStreamSetMap m)).

Definition registerStream (stream : loc) (info : StreamInfo) : BM Z :=
  let id := streamId info in
  let key := (streamSetId info, isMultiRes info) in
  if (id =? CAMERA3_STREAM_ID_INVALID) || (streamSetId info =? CAMERA3_STREAM_SET_ID_INVALID) then ret BAD_VALUE else
  if (kMaxBufferCount <? totalBufferCount info) || (totalBufferCount info =? 0) then ret BAD_VALUE else
  if negb (isConfigured info) then ret BAD_VALUE else
  if HARDWARE_DEVICE_API_VERSION 0 1 <? mGrallocVersion then ret INVALID_OPERATION else
  let* m := get in
  if registered_elsewhere info m then ret BAD_VALUE else
  (match mStreamSetMap m !! key with None => add_set key | Some _ => ret tt end) >>
  let* s := edit_set key in
  match streamInfoMap s !! id with
  | Some _ => ret 0
  | None =>
      let s := s <| streamInfoMap := <[id := info]> (streamInfoMap s) |>
                 <| handoutBufferCountMap := <[id := 0]> (handoutBufferCountMap s) |>
                 <| attachedBufferCountMap := <[id := 0]> (attachedBufferCountMap s) |> in
      modify (fun m => m <| mStreamMap := <[id := stream]> (mStreamMap m) |>) >>
      put_set key (if maxAllowedBufferCount s <? totalBufferCount info
                   then s <| maxAllowedBufferCount := totalBufferCount info |> else s) >>
      ret 0
  end.

Definition unregisterStream (id : Z) (key : StreamSetKey) : BM Z :=
  let* registered := checkIfStreamRegisteredLocked id key in
  if negb registered then ret BAD_VALUE else
  let* s := edit_set key in
  let infoMap := delete id (streamInfoMap s) in
  let s := s <| handoutBufferCountMap := delete id (handoutBufferCountMap s) |>
             <| attachedBufferCountMap := delete id (attachedBufferCountMap s) |>
             <| streamInfoMap := infoMap |>
             <| maxAllowedBufferCount := max_total (values_in_order infoMap) |>
             <| allocatedBufferWaterMark := 0 |> in
  modify (fun m => m <| mStreamMap := delete id (mStreamMap m) |>) >>
  put_set key s >>
  (if (size (handoutBufferCountMap s) =? 0)%nat && (size infoMap =? 0)%nat then remove_set key else ret tt) >>
  ret 0.

Definition notifyBufferRemoved (id : Z) (key : StreamSetKey) : BM unit :=
  let* s := edit_set key in
  let* n := deref (attachedBufferCountMap s !! id) in
  put_set key (s <| attachedBufferCountMap := <[id := udec size_bit n]> (attachedBufferCountMap s) |>).

(** The loop that looks for another stream with a free buffer. *)
Fixpoint find_free_buffer (id : Z) (s : StreamSet) (infos : list StreamInfo) : BM (option Z) :=
  match infos with
  | [] => ret None
  | i :: infos =>
      if streamId i =? id then find_free_buffer id s infos
      else
        let* otherBufferCount := deref (handoutBufferCountMap s !! streamId i) in
        let* otherAttachedBufferCount := deref (attachedBufferCountMap s !! streamId i) in
        if otherBufferCount <? otherAttachedBufferCount then ret (Some (streamId i)) else find_free_buffer id s infos
  end.

(** [checkAndFreeBufferOnOtherStreamsLocked] up to the release of the lock: the status
    if there is nothing to free, or the other stream, where it is, and what the
    reference [streamSet] refers to. *)
Definition choose_other (alive : loc -> bool) (id : Z) (key : StreamSetKey) : BM (Z + Z * loc * nat) :=
  let* s := edit_set key in
  if (size (streamInfoMap s) =? 1)%nat then ret (inl 0) else
  let* other := find_free_buffer id s (values_in_order (streamInfoMap s)) in
  match other with
  | None => ret (inl 0)
  | Some firstOtherStreamId =>
      if firstOtherStreamId =? CAMERA3_STREAM_ID_INVALID then ret (inl 0) else
      if allocatedBufferWaterMark s <? sum_counts (values_in_order (attachedBufferCountMap s)) then
        let* m := get in
        let* stream := deref (mStreamMap m !! firstOtherStreamId) in
        if negb (alive stream) then ret (inl INVALID_OPERATION) else
        ret (inr (firstOtherStreamId, stream, set_storage m))
      else ret (inl 0)
  end.

(** The rest of it, after the lock has been taken again. *)
Definition count_freed (firstOtherStreamId : Z) (storage : nat) (key : StreamSetKey) (bufferFreed : bool) : BM Z :=
  if bufferFreed then
    let* m := get in
    if (set_storage m =? storage)%nat then notifyBufferRemoved firstOtherStreamId key >> ret 0 else ub
  else ret 0.

(** [detach] is [detachBuffer] of the stream with the lock released, and what other
    threads do until the lock is taken again; it tells whether a buffer was freed. *)
Definition checkAndFreeBufferOnOtherStreamsLocked (alive : loc -> bool) (detach : loc -> BM bool)
    (id : Z) (key : StreamSetKey) : BM Z :=
  let* other := choose_other alive id key in
  match other with
  | inl res => ret res
  | inr (firstOtherStreamId, stream, storage) =>
      let* bufferFreed := detach stream in count_freed firstOtherStreamId storage key bufferFreed
  end.

(** [getBufferForStream] up to the first attempt to free a buffer: the status and
    [*gb] if it returns before; [alloc] is the result of [initCheck] of the new buffer. *)
Definition take_buffer (alloc : Z) (id : Z) (key : StreamSetKey) (noFreeBufferAtConsumer : bool)
    : BM (option (Z * option loc)) :=
  let* registered := checkIfStreamRegisteredLocked id key in
  if negb registered then ret (Some (BAD_VALUE, None)) else
  let* s := edit_set key in
  let* bufferCount := deref (handoutBufferCountMap s !! id) in
  let* attachedBufferCount := deref (attachedBufferCountMap s !! id) in
  let attachedBufferCount := if noFreeBufferAtConsumer then bufferCount else attachedBufferCount in
  let s := s <| attachedBufferCountMap := <[id := attachedBufferCount]> (attachedBufferCountMap s) |> in
  put_set key s >>
  if maxAllowedBufferCount s <=? bufferCount then ret (Some (INVALID_OPERATION, None)) else
  if bufferCount <? attachedBufferCount then
    put_set key (s <| handoutBufferCountMap := <[id := uinc size_bit bufferCount]> (handoutBufferCountMap s) |>) >>
    ret (Some (ALREADY_EXISTS, None))
  else if mGrallocVersion <? HARDWARE_DEVICE_API_VERSION 1 0 then
    let* info := deref (streamInfoMap s !! id) in
    if alloc <? 0 then ret (Some (alloc, None)) else
    let bufferCount := uinc size_bit bufferCount in
    put_set key
      (s <| handoutBufferCountMap := <[id := bufferCount]> (handoutBufferCountMap s) |>
         <| attachedBufferCountMap := <[id := uinc size_bit attachedBufferCount]> (attachedBufferCountMap s) |>
         <| allocatedBufferWaterMark := Z.max (allocatedBufferWaterMark s) (uinc size_bit bufferCount) |>) >>
    ret None
  else ret (Some (BAD_VALUE, None)).

(** The status, and [*gb]; [gb] is the new buffer. *)
Definition getBufferForStream (alive : loc -> bool) (detach1 detach2 : loc -> BM bool) (alloc : Z) (gb : loc)
    (id : Z) (key : StreamSetKey) (noFreeBufferAtConsumer : bool) : BM (Z * option loc) :=
  let* taken := take_buffer alloc id key noFreeBufferAtConsumer in
  match taken with
  | Some answer => ret answer
  | None =>
      let* res := checkAndFreeBufferOnOtherStreamsLocked alive detach1 id key in
      if negb (res =? 0) then ret (res, Some gb) else
      let* res := checkAndFreeBufferOnOtherStreamsLocked alive detach2 id key in
      if negb (res =? 0) then ret (res, Some gb) else ret (0, Some gb)
  end.

(** The status and [*shouldFreeBuffer]; [out] tells that the pointer is not null. *)
Definition onBufferReleased (out : bool) (id : Z) (key : StreamSetKey) : BM (Z * bool) :=
  if negb out then ret (BAD_VALUE, false) else
  let* registered := checkIfStreamRegisteredLocked id key in
  if negb registered then ret (0, false) else
  if mGrallocVersion <? HARDWARE_DEVICE_API_VERSION 1 0 then
    let* s := edit_set key in
    let* bufferCount := deref (handoutBufferCountMap s !! id) in
    let bufferCount := udec size_bit bufferCount in
    let s := s <| handoutBufferCountMap := <[id := bufferCount]> (handoutBufferCountMap s) |> in
    let attached := values_in_order (attachedBufferCountMap s) in
    let handout := values_in_order (handoutBufferCountMap s) in
    if (length handout <? length attached)%nat then ub else
    let totalAllocatedBufferCount := sum_counts attached in
    let totalHandOutBufferCount := sum_counts (take (length attached) handout) in
    let newWaterMark := trunc size_bit (totalHandOutBufferCount + BUFFER_WATERMARK_DEC_THRESHOLD) in
    let s := if (newWaterMark <? totalAllocatedBufferCount) && (newWaterMark <? allocatedBufferWaterMark s)
             then s <| allocatedBufferWaterMark := newWaterMark |> else s in
    put_set key s >>
    let* attachedBufferCount := deref (attachedBufferCountMap s !! id) in
    let freeBufferIsAttached := bufferCount <? attachedBufferCount in
    ret (0, freeBufferIsAttached && (allocatedBufferWaterMark s <? totalAllocatedBufferCount) &&
            (trunc size_bit (bufferCount + BUFFER_FREE_THRESHOLD) <? attachedBufferCount))
  else ret (BAD_VALUE, false).

Definition onBuffersRemoved (id : Z) (key : StreamSetKey) (count : Z) : BM Z :=
  let* registered := checkIfStreamRegisteredLocked id key in
  if negb registered then ret 0 else
  if mGrallocVersion <? HARDWARE_DEVICE_API_VERSION 1 0 then
    let* s := edit_set key in
    let* totalHandoutCount := deref (handoutBufferCountMap s !! id) in
    let* totalAttachedCount := deref (attachedBufferCountMap s !! id) in
    if totalHandoutCount <? count then ret BAD_VALUE else
    if totalAttachedCount <? count then ret BAD_VALUE else
    put_set key
      (s <| handoutBufferCountMap := <[id := totalHandoutCount - count]> (handoutBufferCountMap s) |>
         <| attachedBufferCountMap := <[id := totalAttachedCount - count]> (attachedBufferCountMap s) |>) >>
    ret 0
  else ret BAD_VALUE.

(** ** Runs *)

(** The calls of the streams.  The two windows of [CGet] have the result of the
    detachment and what other threads call meanwhile. *)
Inductive bm_call :=
  | CRegister (stream : loc) (info : StreamInfo)
  | CUnregister (id : Z) (key : StreamSetKey)
  | CNotify (id : Z) (key : StreamSetKey)
  | CGet (alive : loc -> bool) (alloc : Z) (gb : loc) (id : Z) (key : StreamSetKey) (noFree : bool)
      (freed1 : bool) (meanwhile1 : list bm_call) (freed2 : bool) (meanwhile2 : list bm_call)
  | CReleased (id : Z) (key : StreamSetKey)
  | CRemoved (id : Z) (key : StreamSetKey) (count : Z).

Definition run_list (run : bm_call -> BM unit) (l : list bm_call) : BM unit := foldr (fun c k => run c >> k) (ret tt) l.

Fixpoint run_call (c : bm_call) : BM unit :=
  match c with
  | CRegister stream info => registerStream stream info >> ret tt
  | CUnregister id key => unregisterStream id key >> ret tt
  | CNotify id key => notifyBufferRemoved id key
  | CGet alive alloc gb id key noFree freed1 l1 freed2 l2 =>
      getBufferForStream alive
        (fun _ => run_list run_call l1 >> ret freed1)
        (fun _ => run_list run_call l2 >> ret freed2) alloc gb id key noFree >> ret tt
  | CReleased id key => onBufferReleased true id key >> ret tt
  | CRemoved id key count => onBuffersRemoved id key count >> ret tt
  end.

Definition run_bm_calls (l : list bm_call) : BM unit := run_list run_call l.

End manager.
