(* ===== verification/CamBuffersProps.v ===== *)
(** * The buffer manager: its sets, its counts, and how it hands out a buffer

    [pwp] is partial correctness: a run that is undefined or aborts satisfies it.
    With it, every run whatever keeps the sets well formed ([set_ok]); with [wp], the
    runs of streams that keep to the contract are defined and keep the counts in
    bounds. *)
From stdpp Require Import base list gmap sorting.
From Stdlib Require Import ZArith Lia.
From S2P Require Import Prelude Heap StateM CamBuffers.

Open Scope Z_scope.
Open Scope method_scope.

(** ** Partial correctness *)

Definition pwp {S A} (m : M S A) (Q : A -> S -> Prop) (s : S) : Prop := forall x s', m s = Some (x, s') -> Q x s'.

Section pwp_rules.
Context {S : Type}.
Implicit Types (s : S).

Lemma pwp_ret {A} (x : A) (Q : A -> S -> Prop) s : Q x s -> pwp (ret x) Q s.
Proof. unfold pwp, ret. intros ? ???. by simplify_eq. Qed.
Lemma pwp_bind {A B} (m : M S A) (k : A -> M S B) (Q : B -> S -> Prop) s :
  pwp m (fun x => pwp (k x) Q) s -> pwp (bind m k) Q s.
Proof. unfold pwp, bind. intros Hm x s' Hb. destruct (m s) as [[y s1]|] eqn:E; [|done]. by apply (Hm y s1). Qed.
Lemma pwp_mono {A} (m : M S A) (P Q : A -> S -> Prop) s : pwp m P s -> (forall x s', P x s' -> Q x s') -> pwp m Q s.
Proof. unfold pwp. eauto. Qed.
Lemma pwp_get (Q : S -> S -> Prop) s : Q s s -> pwp get Q s.
Proof. apply pwp_ret. Qed.
Lemma pwp_modify f (Q : unit -> S -> Prop) s : Q tt (f s) -> pwp (modify f) Q s.
Proof. unfold pwp, modify. intros ? ???. by simplify_eq. Qed.
Lemma pwp_deref {A} (p : option A) (Q : A -> S -> Prop) s : (forall x, p = Some x -> Q x s) -> pwp (deref p) Q s.
Proof. unfold pwp. destruct p as [y|]; cbn; [|done]. intros HQ x s' Hr. injection Hr as <- <-. by apply HQ. Qed.
Lemma pwp_ub {A} (Q : A -> S -> Prop) s : pwp ub Q s.
Proof. done. Qed.
Lemma wp_intro {A} (m : M S A) (Q : A -> S -> Prop) s x s' : m s = Some (x, s') -> Q x s' -> wp m Q s.
Proof. with_strategy transparent [wp] unfold wp. by intros ->. Qed.
Lemma wp_pwp {A} (m : M S A) (P Q : A -> S -> Prop) s : wp m Q s -> pwp m P s -> wp m (fun x s' => P x s' /\ Q x s') s.
Proof. intros Hw Hp. apply wp_run in Hw as (x & s' & E & HQ). eapply wp_intro; [exact E|]. split; [by apply Hp|done]. Qed.
End pwp_rules.

(** ** The sets *)

Lemma elem_of_values {A} (m : gmap Z A) x : x ∈ values_in_order m <-> exists k, m !! k = Some x.
Proof.
  unfold values_in_order. rewrite list_elem_of_omap. split; [intros (k & _ & Hk); eauto|intros [k Hk]].
  exists k. split; [|done]. rewrite merge_sort_Permutation.
  apply (list_elem_of_fmap_2 fst (map_to_list m) (k, x)). by apply elem_of_map_to_list.
Qed.

Lemma length_values {A} (m : gmap Z A) : length (values_in_order m) = size m.
Proof.
  unfold values_in_order.
  assert (forall l : list Z, (forall k, k ∈ l -> is_Some (m !! k)) -> length (omap (fun k => m !! k) l) = length l) as Hl.
  { induction l as [|k l IH]; intros Hk; [done|]. cbn. destruct (Hk k) as [x Hx]; [by left|]. rewrite Hx. cbn.
    f_equal. apply IH. intros k' ?. apply Hk. by right. }
  rewrite Hl.
  - rewrite merge_sort_Permutation, length_fmap. apply length_map_to_list.
  - intros k. rewrite merge_sort_Permutation. intros [[k' x] [-> Hx]]%list_elem_of_fmap.
    apply elem_of_map_to_list in Hx. eauto.
Qed.

Lemma max_total_spec l m0 :
  let m := foldl (fun m i => if m <? totalBufferCount i then totalBufferCount i else m) m0 l in
  m0 <= m /\ (forall i, i ∈ l -> totalBufferCount i <= m) /\ (m = m0 \/ exists i, i ∈ l /\ totalBufferCount i = m).
Proof.
  revert m0; induction l as [|i l IH]; intros m0; cbn.
  { split_and!; [lia|by intros i ?%not_elem_of_nil|by left]. }
  destruct (IH (if m0 <? totalBufferCount i then totalBufferCount i else m0)) as (Hm & Hl & He).
  destruct (Z.ltb_spec m0 (totalBufferCount i)); split_and!; try lia.
  - intros j [->|Hj]%elem_of_cons; [done|by apply Hl].
  - right. destruct He as [->|(j & Hj & <-)]; [exists i|exists j]; split; set_solver.
  - intros j [->|Hj]%elem_of_cons; [lia|by apply Hl].
  - destruct He as [->|(j & Hj & <-)]; [by left|right; exists j]; split; set_solver.
Qed.

Section inv.
Context {L : BufferLimits}.
Implicit Types (m : Camera3BufferManager) (s : StreamSet) (key : StreamSetKey) (id : Z).

(** A set that is in the map has streams, counts for exactly these, and the largest
    of their buffer counts as its limit. *)
Record set_ok s : Prop := {
  ok_handout : dom (handoutBufferCountMap s) = dom (streamInfoMap s);
  ok_attached : dom (attachedBufferCountMap s) = dom (streamInfoMap s);
  ok_info : forall id i, streamInfoMap s !! id = Some i ->
    streamId i = id /\ id <> CAMERA3_STREAM_ID_INVALID /\ totalBufferCount i <= maxAllowedBufferCount s;
  ok_max : exists id i, streamInfoMap s !! id = Some i /\ totalBufferCount i = maxAllowedBufferCount s;
  ok_totals : forall id i, streamInfoMap s !! id = Some i -> 0 < totalBufferCount i <= kMaxBufferCount
}.
Definition mgr_ok m : Prop := forall key s, mStreamSetMap m !! key = Some s -> set_ok s.

Definition registered id key m : bool :=
  match mStreamSetMap m !! key with Some s => bool_decide (is_Some (streamInfoMap s !! id)) | None => false end.

Lemma set_ok_limit s : set_ok s -> 0 < maxAllowedBufferCount s <= kMaxBufferCount.
Proof. intros H. destruct (ok_max s H) as (id & i & Hi & <-). by eapply ok_totals. Qed.

(** The test of the water mark in [checkIfStreamRegisteredLocked] never fails. *)
Lemma check_registered m id key :
  mgr_ok m -> checkIfStreamRegisteredLocked id key m = Some (registered id key m, m).
Proof.
  intros Hm. unfold checkIfStreamRegisteredLocked, registered. cbn.
  destruct (mStreamSetMap m !! key) as [s|] eqn:E; [|done]. pose proof (set_ok_limit s (Hm _ _ E)).
  destruct (streamInfoMap s !! id) as [i|]; [|done].
  destruct (Z.eqb_spec (maxAllowedBufferCount s) 0); [lia|].
  by destruct (Z.ltb_spec kMaxBufferCount (maxAllowedBufferCount s)); [lia|].
Qed.

Lemma pwp_check m id key (Q : bool -> Camera3BufferManager -> Prop) :
  mgr_ok m -> Q (registered id key m) m -> pwp (checkIfStreamRegisteredLocked id key) Q m.
Proof. intros Hm HQ x m'. rewrite check_registered by done. by intros [= <- <-]. Qed.
Lemma wp_check m id key (Q : bool -> Camera3BufferManager -> Prop) :
  mgr_ok m -> Q (registered id key m) m -> wp (checkIfStreamRegisteredLocked id key) Q m.
Proof. intros Hm HQ. eapply wp_intro; [by apply check_registered|done]. Qed.

Lemma registered_true m id key :
  registered id key m = true -> exists s i, mStreamSetMap m !! key = Some s /\ streamInfoMap s !! id = Some i.
Proof.
  unfold registered. destruct (mStreamSetMap m !! key) as [s|]; [|done].
  intros [i Hi]%bool_decide_eq_true. eauto.
Qed.

(** Counts of the same streams. *)
Lemma set_ok_counts s h a w :
  set_ok s -> dom h = dom (streamInfoMap s) -> dom a = dom (streamInfoMap s) ->
  set_ok {| allocatedBufferWaterMark := w; maxAllowedBufferCount := maxAllowedBufferCount s;
            streamInfoMap := streamInfoMap s; handoutBufferCountMap := h; attachedBufferCountMap := a |}.
Proof. intros [] Hh Ha. by split. Qed.

Lemma dom_update (c : gmap Z Z) id x y : c !! id = Some x -> dom (<[id := y]> c) = dom c.
Proof. intros Hx. rewrite dom_insert_L. apply elem_of_dom_2 in Hx. set_solver. Qed.

Lemma mgr_ok_put m m' key s :
  mgr_ok m -> set_ok s -> mStreamSetMap m' = <[key := s]> (mStreamSetMap m) -> mgr_ok m'.
Proof. intros Hm Hs E key' s'. rewrite E. intros [[_ <-]|[_ H]]%lookup_insert_Some; [done|by eapply Hm]. Qed.


(** *** Every operation keeps the sets well formed *)

Definition keeps {A} (f : BM A) : Prop := forall m, mgr_ok m -> pwp f (fun _ m' => mgr_ok m') m.

Lemma keeps_ret {A} (x : A) : keeps (ret x).
Proof. intros m Hm. by apply pwp_ret. Qed.

Lemma keeps_bind {A B} (f : BM A) (k : A -> BM B) : keeps f -> (forall x, keeps (k x)) -> keeps (bind f k).
Proof. intros Hf Hk m Hm. apply pwp_bind. eapply pwp_mono; [by apply Hf|]. intros x m' Hm'. by apply Hk. Qed.

Lemma keeps_run {A B} (f : BM A) (k : A -> BM B) m :
  (forall x, keeps (k x)) -> pwp f (fun _ m' => mgr_ok m') m -> pwp (bind f k) (fun _ m' => mgr_ok m') m.
Proof. intros Hk Hf. apply pwp_bind. eapply pwp_mono; [exact Hf|]. intros x m' Hm'. by apply Hk. Qed.

Lemma pwp_put m key s (Q : unit -> Camera3BufferManager -> Prop) :
  Q tt (m <| mStreamSetMap := <[key := s]> (mStreamSetMap m) |>) -> pwp (put_set key s) Q m.
Proof. intros HQ. by apply pwp_modify. Qed.

Lemma pwp_edit m key (Q : StreamSet -> Camera3BufferManager -> Prop) :
  (forall s, mStreamSetMap m !! key = Some s -> Q s m) -> pwp (edit_set key) Q m.
Proof. intros HQ. apply pwp_bind, pwp_get, pwp_deref. exact HQ. Qed.

Lemma register_set_ok s info :
  s = new_StreamSet \/ set_ok s -> streamInfoMap s !! streamId info = None ->
  streamId info <> CAMERA3_STREAM_ID_INVALID -> 0 < totalBufferCount info <= kMaxBufferCount ->
  let mx := maxAllowedBufferCount s in
  set_ok {| allocatedBufferWaterMark := allocatedBufferWaterMark s;
            maxAllowedBufferCount := if mx <? totalBufferCount info then totalBufferCount info else mx;
            streamInfoMap := <[streamId info := info]> (streamInfoMap s);
            handoutBufferCountMap := <[streamId info := 0]> (handoutBufferCountMap s);
            attachedBufferCountMap := <[streamId info := 0]> (attachedBufferCountMap s) |}.
Proof.
  intros Hs Hnone Hid Ht mx.
  assert (dom (handoutBufferCountMap s) = dom (streamInfoMap s) /\ dom (attachedBufferCountMap s) = dom (streamInfoMap s) /\
          (forall id i, streamInfoMap s !! id = Some i -> streamId i = id /\ id <> CAMERA3_STREAM_ID_INVALID /\
             totalBufferCount i <= mx /\ 0 < totalBufferCount i <= kMaxBufferCount)) as (Hh & Ha & Hi).
  { subst mx. destruct Hs as [->|[? ? Hi ? Ht']]; cbn; [by split_and!|]. split_and!; [done..|].
    intros id i E. destruct (Hi id i E) as (? & ? & ?). split_and!; try done; by apply (Ht' id i E). }
  split; cbn.
  - by rewrite !dom_insert_L, Hh.
  - by rewrite !dom_insert_L, Ha.
  - intros id i [[<- <-]|[_ E]]%lookup_insert_Some; [destruct (Z.ltb_spec mx (totalBufferCount info)); split_and!; (done || lia)|].
    destruct (Hi id i E) as (? & ? & ? & ?). destruct (Z.ltb_spec mx (totalBufferCount info)); split_and!; (done || lia).
  - destruct (Z.ltb_spec mx (totalBufferCount info)); [exists (streamId info), info; by rewrite lookup_insert_eq|].
    destruct Hs as [->|Hs]; [subst mx; cbn in *; lia|]. destruct (ok_max s Hs) as (id & i & E & Ei).
    exists id, i. rewrite lookup_insert_ne by congruence. split; [done|exact Ei].
  - intros id i [[<- <-]|[_ E]]%lookup_insert_Some; [done|]. by destruct (Hi id i E) as (? & ? & ? & ?).
Qed.

Lemma keeps_register stream info : keeps (registerStream stream info).
Proof.
  intros m Hm. unfold registerStream.
  destruct (Z.eqb_spec (streamId info) CAMERA3_STREAM_ID_INVALID) as [|Hid]; [by apply pwp_ret|]. cbn [orb].
  destruct (streamSetId info =? CAMERA3_STREAM_SET_ID_INVALID); [by apply pwp_ret|].
  destruct (Z.ltb_spec kMaxBufferCount (totalBufferCount info)); [by apply pwp_ret|]. cbn [orb].
  destruct (Z.eqb_spec (totalBufferCount info) 0) as [|Hnz]; [by apply pwp_ret|].
  destruct (isConfigured info); [|by apply pwp_ret]. cbn [negb].
  change (HARDWARE_DEVICE_API_VERSION 0 1 <? mGrallocVersion) with false. cbv iota.
  apply pwp_bind, pwp_get. destruct (registered_elsewhere info m); [by apply pwp_ret|].
  set (key := (streamSetId info, isMultiRes info)).
  assert (0 < totalBufferCount info) by (unfold totalBufferCount in *; lia).
  apply pwp_bind. destruct (mStreamSetMap m !! key) as [s|] eqn:E.
  - apply pwp_ret, pwp_bind, pwp_edit. intros s' [= <-]%(eq_trans (eq_sym E)).
    destruct (streamInfoMap s !! streamId info) eqn:En; [by apply pwp_ret|].
    apply pwp_bind, pwp_modify, pwp_bind, pwp_put, pwp_ret. eapply mgr_ok_put; [exact Hm| |reflexivity].
    pose proof (register_set_ok s info (or_intror (Hm _ _ E)) En Hid ltac:(lia)) as Hok. cbn in Hok |- *.
    by destruct (maxAllowedBufferCount s <? totalBufferCount info).
  - apply pwp_modify, pwp_bind, pwp_edit. cbn. rewrite lookup_insert_eq. intros s' [= <-]. cbn.
    apply pwp_bind, pwp_modify, pwp_bind, pwp_put, pwp_ret. intros key' s'. cbn. rewrite insert_insert_eq.
    pose proof (register_set_ok new_StreamSet info (or_introl eq_refl) (lookup_empty _) Hid ltac:(lia)) as Hok. cbn in Hok |- *.
    intros [[_ <-]|[_ H']]%lookup_insert_Some; [|by eapply Hm].
    by destruct (0 <? totalBufferCount info).
Qed.

Lemma unregister_set_ok s id :
  set_ok s -> is_Some (streamInfoMap s !! id) -> delete id (streamInfoMap s) <> ∅ ->
  set_ok {| allocatedBufferWaterMark := 0;
            maxAllowedBufferCount := max_total (values_in_order (delete id (streamInfoMap s)));
            streamInfoMap := delete id (streamInfoMap s);
            handoutBufferCountMap := delete id (handoutBufferCountMap s);
            attachedBufferCountMap := delete id (attachedBufferCountMap s) |}.
Proof.
  intros [Hh Ha Hi _ Ht] Hid Hne.
  destruct (max_total_spec (values_in_order (delete id (streamInfoMap s))) 0) as (_ & Hle & Heq).
  fold (max_total (values_in_order (delete id (streamInfoMap s)))) in Hle, Heq. split; cbn.
  - by rewrite !dom_delete_L, Hh.
  - by rewrite !dom_delete_L, Ha.
  - intros k i E. pose proof E as [_ E']%lookup_delete_Some. destruct (Hi k i E') as (? & ? & ?). split_and!; [done..|].
    apply Hle, elem_of_values. eauto.
  - destruct Heq as [Hz|(i & [k Hk]%elem_of_values & Hi')]; [|eauto].
    apply map_choose in Hne as (k & i & E). exists k, i. split; [done|].
    pose proof E as [_ E']%lookup_delete_Some. pose proof (Ht k i E').
    assert (totalBufferCount i <= 0); [|lia]. rewrite <- Hz. apply Hle, elem_of_values. eauto.
  - intros k i [_ E]%lookup_delete_Some. by eapply Ht.
Qed.

Lemma keeps_unregister id key : keeps (unregisterStream id key).
Proof.
  intros m Hm. unfold unregisterStream. apply pwp_bind, pwp_check; [done|].
  destruct (registered id key m) eqn:Hr; [|by apply pwp_ret]. cbn [negb].
  apply registered_true in Hr as (s & i & E & Hi).
  apply pwp_bind, pwp_edit. intros s' [= <-]%(eq_trans (eq_sym E)). pose proof (Hm _ _ E) as Hs.
  apply pwp_bind, pwp_modify, pwp_bind, pwp_put, pwp_bind. cbn.
  destruct (decide (delete id (streamInfoMap s) = ∅)) as [Hempty|Hne].
  - assert (delete id (handoutBufferCountMap s) = ∅) as ->.
    { apply dom_empty_inv_L. rewrite dom_delete_L, (ok_handout s Hs), <- dom_delete_L, Hempty. apply dom_empty_L. }
    rewrite Hempty, !map_size_empty. cbn. apply pwp_modify, pwp_ret. intros key' s'. cbn.
    rewrite lookup_delete_Some. intros [Hk H']. rewrite lookup_insert_ne in H' by done. by eapply Hm.
  - destruct (Nat.eqb_spec (size (delete id (streamInfoMap s))) 0) as [Hz%map_size_empty_inv|_]; [done|].
    rewrite andb_false_r. apply pwp_ret, pwp_ret. eapply mgr_ok_put; [exact Hm| |reflexivity].
    apply unregister_set_ok; eauto.
Qed.

Lemma mgr_ok_counts m m' key s h a w :
  mgr_ok m -> mStreamSetMap m !! key = Some s ->
  dom h = dom (handoutBufferCountMap s) -> dom a = dom (attachedBufferCountMap s) ->
  mStreamSetMap m' = <[key := {| allocatedBufferWaterMark := w; maxAllowedBufferCount := maxAllowedBufferCount s;
                                 streamInfoMap := streamInfoMap s; handoutBufferCountMap := h;
                                 attachedBufferCountMap := a |}]> (mStreamSetMap m) -> mgr_ok m'.
Proof.
  intros Hm E Hh Ha. pose proof (Hm _ _ E) as Hs. apply mgr_ok_put; [done|].
  apply (set_ok_counts s h a w Hs); [by rewrite Hh, (ok_handout s Hs)|by rewrite Ha, (ok_attached s Hs)].
Qed.

(** Closes such a goal: the new state is the old one with other counts. *)
Ltac counts_done E :=
  eapply mgr_ok_counts; [eassumption|exact E| | |cbn; rewrite ?insert_insert_eq; reflexivity];
  cbn; rewrite ?dom_insert_lookup_L by eauto; try done.

Lemma keeps_notify id key : keeps (notifyBufferRemoved id key).
Proof.
  intros m Hm. unfold notifyBufferRemoved. apply pwp_bind, pwp_edit. intros s E.
  apply pwp_bind, pwp_deref. intros n Hn. apply pwp_put. counts_done E.
Qed.

Lemma keeps_removed id key count : keeps (onBuffersRemoved id key count).
Proof.
  intros m Hm. unfold onBuffersRemoved. apply pwp_bind, pwp_check; [done|].
  destruct (registered id key m); [|by apply pwp_ret]. cbn [negb].
  change (mGrallocVersion <? HARDWARE_DEVICE_API_VERSION 1 0) with true. cbv iota.
  apply pwp_bind, pwp_edit. intros s E. apply pwp_bind, pwp_deref. intros h Hh. apply pwp_bind, pwp_deref. intros a Ha.
  destruct (h <? count); [by apply pwp_ret|]. destruct (a <? count); [by apply pwp_ret|].
  apply pwp_bind, pwp_put, pwp_ret. counts_done E.
Qed.

Lemma keeps_released out id key : keeps (onBufferReleased out id key).
Proof.
  intros m Hm. unfold onBufferReleased. destruct out; [|by apply pwp_ret]. cbn [negb].
  apply pwp_bind, pwp_check; [done|]. destruct (registered id key m); [|by apply pwp_ret]. cbn [negb].
  change (mGrallocVersion <? HARDWARE_DEVICE_API_VERSION 1 0) with true. cbv iota.
  apply pwp_bind, pwp_edit. intros s E. apply pwp_bind, pwp_deref. intros h Hh.
  destruct (_ <? _)%nat; [apply pwp_ub|]. apply pwp_bind, pwp_put, pwp_bind, pwp_deref. intros a Ha. apply pwp_ret.
  destruct (_ && _); counts_done E.
Qed.

Lemma find_free_buffer_run id s infos m r m' : find_free_buffer id s infos m = Some (r, m') -> m' = m.
Proof.
  revert r; induction infos as [|i infos IH]; intros r; cbn; [by intros [= _ ->]|].
  destruct (streamId i =? id); [apply IH|].
  destruct (handoutBufferCountMap s !! streamId i); [|done]. cbn.
  destruct (attachedBufferCountMap s !! streamId i); [|done]. cbn.
  destruct (_ <? _); [by intros [= _ ->]|apply IH].
Qed.

Lemma choose_other_run alive id key m r m' : choose_other alive id key m = Some (r, m') -> m' = m.
Proof.
  unfold choose_other, edit_set, bind, get. destruct (mStreamSetMap m !! key) as [s|]; [|done]. cbn.
  destruct (_ =? 1)%nat; [by intros [= _ ->]|].
  destruct (find_free_buffer _ _ _ m) as [[o m1]|] eqn:Ef; [|done]. apply find_free_buffer_run in Ef as ->.
  destruct o as [o|]; [|by intros [= _ ->]]. destruct (o =? _); [by intros [= _ ->]|].
  destruct (_ <? _); [|by intros [= _ ->]]. destruct (mStreamMap m !! o) as [p|]; [|done]. cbn.
  destruct (alive p); by intros [= _ ->].
Qed.

Lemma keeps_count_freed o storage key freed : keeps (count_freed o storage key freed).
Proof.
  destruct freed; [|apply keeps_ret]. intros m Hm. apply pwp_bind, pwp_get.
  destruct (_ =? _)%nat; [|apply pwp_ub]. apply keeps_run; [intros; apply keeps_ret|by apply keeps_notify].
Qed.

Lemma keeps_free alive (detach : loc -> BM bool) id key :
  (forall p, keeps (detach p)) -> keeps (checkAndFreeBufferOnOtherStreamsLocked alive detach id key).
Proof.
  intros Hd m Hm. apply pwp_bind. intros r m' ->%choose_other_run.
  destruct r as [x|[[o p] storage]]; [by apply pwp_ret|].
  apply keeps_run; [intros; apply keeps_count_freed|by apply Hd].
Qed.

Lemma keeps_take alloc id key noFree : keeps (take_buffer alloc id key noFree).
Proof.
  intros m Hm. unfold take_buffer. apply pwp_bind, pwp_check; [done|].
  destruct (registered id key m); [|by apply pwp_ret]. cbn [negb].
  apply pwp_bind, pwp_edit. intros s E. apply pwp_bind, pwp_deref. intros h Hh. apply pwp_bind, pwp_deref. intros a Ha.
  apply pwp_bind, pwp_put. destruct (_ <=? h); [apply pwp_ret; counts_done E|].
  destruct (h <? _); [apply pwp_bind, pwp_put, pwp_ret; counts_done E|].
  change (mGrallocVersion <? HARDWARE_DEVICE_API_VERSION 1 0) with true. cbv iota.
  apply pwp_bind, pwp_deref. intros info Hinfo. destruct (alloc <? 0); [apply pwp_ret; counts_done E|].
  apply pwp_bind, pwp_put, pwp_ret. counts_done E.
Qed.

Lemma keeps_get alive (detach1 detach2 : loc -> BM bool) alloc gb id key noFree :
  (forall p, keeps (detach1 p)) -> (forall p, keeps (detach2 p)) ->
  keeps (getBufferForStream alive detach1 detach2 alloc gb id key noFree).
Proof.
  intros H1 H2. apply keeps_bind; [apply keeps_take|]. intros [r|]; [apply keeps_ret|].
  apply keeps_bind; [by apply keeps_free|]. intros r. destruct (negb _); [apply keeps_ret|].
  apply keeps_bind; [by apply keeps_free|]. intros r2. destruct (negb _); apply keeps_ret.
Qed.

Lemma keeps_calls (l : list bm_call) : Forall (fun c => keeps (run_call c)) l -> keeps (run_bm_calls l).
Proof.
  induction 1 as [|c l Hc _ IH]; [apply keeps_ret|]. by apply (keeps_bind (run_call c)).
Qed.

Lemma keeps_call : forall c, keeps (run_call c).
Proof.
  fix IH 1. intros [stream info|id key|id key|alive alloc gb id key noFree f1 l1 f2 l2|id key|id key count];
    cbn [run_call].
  - apply keeps_bind; [apply keeps_register|intros; apply keeps_ret].
  - apply keeps_bind; [apply keeps_unregister|intros; apply keeps_ret].
  - apply keeps_notify.
  - apply keeps_bind; [|intros; apply keeps_ret].
    apply keeps_get; intros _; (apply keeps_bind; [|intros; apply keeps_ret]).
    + apply (keeps_calls l1). clear -IH. induction l1; constructor; [apply IH|done].
    + apply (keeps_calls l2). clear -IH. induction l2; constructor; [apply IH|done].
  - apply keeps_bind; [apply keeps_released|intros; apply keeps_ret].
  - apply keeps_bind; [apply keeps_removed|intros; apply keeps_ret].
Qed.

(** ** Streams that keep to the contract *)

(** [handed out <= attached <= kMaxBufferCount] for every stream, every stream can be
    found, and is in one set. *)
Record counts_ok m : Prop := {
  c_bounds : forall key s id h a, mStreamSetMap m !! key = Some s ->
    handoutBufferCountMap s !! id = Some h -> attachedBufferCountMap s !! id = Some a ->
    0 <= h <= a /\ a <= kMaxBufferCount;
  c_streams : forall key s id, mStreamSetMap m !! key = Some s -> is_Some (streamInfoMap s !! id) ->
    is_Some (mStreamMap m !! id);
  c_once : forall key key' s s' id, mStreamSetMap m !! key = Some s -> mStreamSetMap m !! key' = Some s' ->
    is_Some (streamInfoMap s !! id) -> is_Some (streamInfoMap s' !! id) -> key = key'
}.

Lemma counts_at s id : set_ok s -> is_Some (streamInfoMap s !! id) ->
  exists h a, handoutBufferCountMap s !! id = Some h /\ attachedBufferCountMap s !! id = Some a.
Proof.
  intros Hs Hi%elem_of_dom. pose proof Hi as Hi'.
  rewrite <- (ok_handout s Hs) in Hi. rewrite <- (ok_attached s Hs) in Hi'.
  apply elem_of_dom in Hi as [h Hh], Hi' as [a Ha]. eauto.
Qed.

(** The state after an assignment to the counts of the set [s]. *)
Definition with_counts m m' key s (w : Z) (h a : gmap Z Z) : Prop :=
  mStreamSetMap m' = <[key := {| allocatedBufferWaterMark := w; maxAllowedBufferCount := maxAllowedBufferCount s;
                                 streamInfoMap := streamInfoMap s; handoutBufferCountMap := h;
                                 attachedBufferCountMap := a |}]> (mStreamSetMap m) /\
  mStreamMap m' = mStreamMap m.

Lemma counts_ok_with m m' key s w h a :
  counts_ok m -> mStreamSetMap m !! key = Some s -> with_counts m m' key s w h a ->
  (forall id x y, h !! id = Some x -> a !! id = Some y -> 0 <= x <= y /\ y <= kMaxBufferCount) -> counts_ok m'.
Proof.
  intros [Hb Hs Ho] E [E1 E2] Hha.
  assert (forall k t, mStreamSetMap m' !! k = Some t -> exists t', mStreamSetMap m !! k = Some t' /\ streamInfoMap t' = streamInfoMap t) as Hinfo.
  { intros k t. rewrite E1. intros [[<- <-]|[_ Ht]]%lookup_insert_Some; eauto. }
  split.
  - intros k t id x y. rewrite E1. intros [[<- <-]|[_ Ht]]%lookup_insert_Some; [apply Hha|by eapply Hb].
  - intros k t id (t' & Ht' & <-)%Hinfo. rewrite E2. by eapply Hs.
  - intros k k' t t' id (u & Hu & <-)%Hinfo (u' & Hu' & <-)%Hinfo. by eapply Ho.
Qed.

(** One stream's counts are assigned. *)
Lemma counts_ok_one m m' key s w id x y :
  counts_ok m -> mStreamSetMap m !! key = Some s ->
  with_counts m m' key s w (<[id := x]> (handoutBufferCountMap s)) (<[id := y]> (attachedBufferCountMap s)) ->
  0 <= x <= y /\ y <= kMaxBufferCount -> counts_ok m'.
Proof.
  intros Hc E Hw Hxy. eapply counts_ok_with; [done..|]. intros id' x' y'.
  destruct (decide (id' = id)) as [->|].
  - rewrite !lookup_insert_eq. by intros [= <-] [= <-].
  - rewrite !lookup_insert_ne by done. by eapply c_bounds.
Qed.

Lemma wp_edit m key s (Q : StreamSet -> Camera3BufferManager -> Prop) :
  mStreamSetMap m !! key = Some s -> Q s m -> wp (edit_set key) Q m.
Proof. intros E HQ. eapply wp_intro; [|exact HQ]. unfold edit_set, bind, get. by rewrite E. Qed.
Lemma wp_put m key s (Q : unit -> Camera3BufferManager -> Prop) :
  Q tt (m <| mStreamSetMap := <[key := s]> (mStreamSetMap m) |>) -> wp (put_set key s) Q m.
Proof. intros HQ. by apply wp_modify. Qed.

Context {LOK : BufferLimitsOk L}.

Lemma uinc_count x : 0 <= x <= kMaxBufferCount -> uinc size_bit x = x + 1.
Proof. pose proof limits_fit. intros. apply uinc_small; lia. Qed.
Lemma udec_count x : 0 < x <= kMaxBufferCount -> udec size_bit x = x - 1.
Proof. pose proof limits_fit. intros. apply udec_small; lia. Qed.

Lemma with_counts_same m key s :
  mStreamSetMap m !! key = Some s ->
  with_counts m m key s (allocatedBufferWaterMark s) (handoutBufferCountMap s) (attachedBufferCountMap s).
Proof. intros E. split; [|done]. rewrite insert_id; [done|]. rewrite E. by destruct s. Qed.

(** Another stream that has a free buffer. *)
Definition has_free s id o : Prop :=
  o <> id /\ is_Some (streamInfoMap s !! o) /\
  exists h a, handoutBufferCountMap s !! o = Some h /\ attachedBufferCountMap s !! o = Some a /\ h < a.

Lemma find_free_total m id s infos :
  set_ok s -> (forall i, i ∈ infos -> streamInfoMap s !! streamId i = Some i) ->
  exists r, find_free_buffer id s infos m = Some (r, m) /\ match r with Some o => has_free s id o | None => True end.
Proof.
  intros Hs. induction infos as [|i infos IH]; intros Hi; cbn; [by exists None|].
  destruct IH as (r & Hr & Ho); [intros; apply Hi; by right|].
  destruct (Z.eqb_spec (streamId i) id) as [|Hne]; [eauto|].
  assert (is_Some (streamInfoMap s !! streamId i)) as Hsome by (eexists; apply Hi; by left).
  destruct (counts_at s (streamId i) Hs Hsome) as (h & a & Hh & Ha). rewrite Hh, Ha. cbn.
  destruct (Z.ltb_spec h a); [|eauto]. exists (Some (streamId i)). split; [done|]. split_and!; eauto.
Qed.

Lemma notify_run m id key s h a :
  counts_ok m -> mStreamSetMap m !! key = Some s -> handoutBufferCountMap s !! id = Some h ->
  attachedBufferCountMap s !! id = Some a -> h < a ->
  exists m', notifyBufferRemoved id key m = Some (tt, m') /\ counts_ok m' /\
    with_counts m m' key s (allocatedBufferWaterMark s) (handoutBufferCountMap s)
      (<[id := a - 1]> (attachedBufferCountMap s)).
Proof.
  intros Hc E Hh Ha Hlt. destruct (c_bounds m Hc _ _ _ _ _ E Hh Ha).
  eexists. split; [unfold notifyBufferRemoved, edit_set, bind, get; rewrite E; cbn; rewrite Ha; reflexivity|].
  rewrite udec_count by lia. split; [|done].
  eapply (counts_ok_one m _ key s (allocatedBufferWaterMark s) id h (a - 1) Hc E); [|lia].
  split; [|done]. cbn. by rewrite (insert_id (handoutBufferCountMap s)).
Qed.

(** What the search for another stream ends with: nothing, a stream that has died, or
    a stream with a free buffer. *)
Lemma choose_spec m alive id key s :
  mgr_ok m -> counts_ok m -> mStreamSetMap m !! key = Some s ->
  exists r, choose_other alive id key m = Some (r, m) /\
    match r with
    | inl x => x = 0 \/ x = INVALID_OPERATION /\ exists o p, o <> id /\
        is_Some (streamInfoMap s !! o) /\ mStreamMap m !! o = Some p /\ alive p = false
    | inr (o, _, storage) => has_free s id o /\ storage = set_storage m
    end.
Proof.
  intros Hm Hc E. pose proof (Hm _ _ E) as Hs. unfold choose_other, edit_set, bind, get. rewrite E. cbn.
  destruct (_ =? 1)%nat; [eexists; split; [done|by left]|].
  destruct (find_free_total m id s (values_in_order (streamInfoMap s)) Hs) as (r & Hr & Ho).
  { intros i [k Hk]%elem_of_values. destruct (ok_info s Hs k i Hk) as (-> & _). done. }
  rewrite Hr. destruct r as [o|]; [|eexists; split; [done|by left]].
  destruct (o =? _); [eexists; split; [done|by left]|]. destruct (_ <? _); [|eexists; split; [done|by left]].
  destruct Ho as (Hne & Hsome & Hfree). destruct (c_streams m Hc _ _ _ E Hsome) as [p Hp]. rewrite Hp. cbn.
  destruct (alive p) eqn:Hal; eexists; (split; [done|]); [done|right; eauto 10].
Qed.

(** Without interference at most one free buffer of another stream goes. *)
Lemma free_spec m alive b id key s :
  mgr_ok m -> counts_ok m -> mStreamSetMap m !! key = Some s ->
  wp (checkAndFreeBufferOnOtherStreamsLocked alive (fun _ => ret b) id key)
    (fun r m' => counts_ok m' /\
       (r = 0 \/ r = INVALID_OPERATION /\ exists o p, o <> id /\
          is_Some (streamInfoMap s !! o) /\ mStreamMap m !! o = Some p /\ alive p = false) /\
       exists a', with_counts m m' key s (allocatedBufferWaterMark s) (handoutBufferCountMap s) a' /\
         a' !! id = attachedBufferCountMap s !! id) m.
Proof.
  intros Hm Hc E. pose proof (with_counts_same m key s E) as Hsame.
  destruct (choose_spec m alive id key s Hm Hc E) as (r & Hr & Hpost).
  apply wp_bind. eapply wp_intro; [exact Hr|]. destruct r as [x|[[o p] storage]]; [apply wp_ret; eauto|].
  destruct Hpost as ((Hne & Hsome & h & a & Hh & Ha & Hlt) & ->). apply wp_bind, wp_ret.
  destruct b; [|apply wp_ret; eauto 6]. apply wp_bind, wp_intro with m m; [done|]. rewrite Nat.eqb_refl.
  destruct (notify_run m o key s h a Hc E Hh Ha Hlt) as (m' & Hrun & Hc' & Hw).
  apply wp_bind. eapply wp_intro; [exact Hrun|]. apply wp_ret. split_and!; [done|by left|].
  eexists. split; [exact Hw|]. by rewrite lookup_insert_ne.
Qed.

(** *** The contract while the lock is released *)

(** [run] is what other threads call while the lock is released, [pol] that these
    calls keep to the contract.  Afterwards the set is still there; and if a buffer
    was freed, no set was added or removed, and the stream still counts a free buffer. *)
Definition window_ok (pol : Camera3BufferManager -> Prop) (run : BM unit) (freed : bool)
    (o : Z) (storage : nat) key m : Prop :=
  pol m /\ forall m', run m = Some (tt, m') ->
    is_Some (mStreamSetMap m' !! key) /\
    (freed = true -> set_storage m' = storage /\
       exists s h a, mStreamSetMap m' !! key = Some s /\ handoutBufferCountMap s !! o = Some h /\
         attachedBufferCountMap s !! o = Some a /\ h < a).

Definition free_ok (alive : loc -> bool) pol run freed id key m : Prop :=
  forall o p storage, choose_other alive id key m = Some (inr (o, p, storage), m) ->
    window_ok pol run freed o storage key m.

Definition get_ok (alive : loc -> bool) (alloc : Z) id key (noFree : bool)
    (pol1 : Camera3BufferManager -> Prop) (run1 : BM unit) (freed1 : bool)
    (pol2 : Camera3BufferManager -> Prop) (run2 : BM unit) (freed2 : bool) m : Prop :=
  forall m1, take_buffer alloc id key noFree m = Some (None, m1) ->
    free_ok alive pol1 run1 freed1 id key m1 /\
    forall m2, checkAndFreeBufferOnOtherStreamsLocked alive (fun _ => run1 >> ret freed1) id key m1 = Some (0, m2) ->
      free_ok alive pol2 run2 freed2 id key m2.

(** Calls that keep to [pol] are defined and keep the invariants. *)
Definition run_safe (pol : Camera3BufferManager -> Prop) (run : BM unit) : Prop :=
  forall m, mgr_ok m -> counts_ok m -> pol m -> exists m', run m = Some (tt, m') /\ mgr_ok m' /\ counts_ok m'.

Lemma free_safe alive pol run freed id key m :
  run_safe pol run -> mgr_ok m -> counts_ok m -> is_Some (mStreamSetMap m !! key) ->
  free_ok alive pol run freed id key m ->
  wp (checkAndFreeBufferOnOtherStreamsLocked alive (fun _ => run >> ret freed) id key)
    (fun _ m' => mgr_ok m' /\ counts_ok m' /\ is_Some (mStreamSetMap m' !! key)) m.
Proof.
  intros Hrun Hm Hc [s E] Hok. destruct (choose_spec m alive id key s Hm Hc E) as (r & Hr & Hpost).
  apply wp_bind. eapply wp_intro; [exact Hr|]. destruct r as [x|[[o p] storage]]; [apply wp_ret; eauto|].
  destruct (Hok o p storage Hr) as [Hpol Hafter]. destruct (Hrun m Hm Hc Hpol) as (m1 & Hr1 & Hm1 & Hc1).
  destruct (Hafter m1 Hr1) as [Hkey Hfreed]. apply wp_bind, wp_bind. eapply wp_intro; [exact Hr1|]. apply wp_ret.
  destruct freed; [|by apply wp_ret]. destruct (Hfreed eq_refl) as (Hst & s1 & h & a & E1 & Hh & Ha & Hlt).
  apply wp_bind, wp_intro with m1 m1; [done|]. rewrite Hst, Nat.eqb_refl.
  destruct (notify_run m1 o key s1 h a Hc1 E1 Hh Ha Hlt) as (m2 & Hn & Hc2 & Hw).
  apply wp_bind. eapply wp_intro; [exact Hn|]. apply wp_ret. split_and!; [by eapply (keeps_notify o key m1 Hm1)|done|].
  destruct Hw as [-> _]. rewrite lookup_insert_eq. eauto.
Qed.

(** What [getBufferForStream] answers a stream with the counts [h] and [a] in a set
    with the limit [mx], and its counts afterwards. *)
Definition get_outcome (mx h a alloc : Z) (gb : loc) : (Z * option loc) * (Z * Z) :=
  if mx <=? h then ((INVALID_OPERATION, None), (h, a))
  else if h <? a then ((ALREADY_EXISTS, None), (h + 1, a))
  else if alloc <? 0 then ((alloc, None), (h, a))
  else ((0, Some gb), (h + 1, a + 1)).

(** The counts of [id] are [x] and [y], the others of the set are handed out as before. *)
Definition counts_are m' key s id (xy : Z * Z) : Prop :=
  exists s', mStreamSetMap m' !! key = Some s' /\ handoutBufferCountMap s' !! id = Some xy.1 /\
    attachedBufferCountMap s' !! id = Some xy.2 /\
    (forall o, o <> id -> handoutBufferCountMap s' !! o = handoutBufferCountMap s !! o).

Lemma counts_are_one m m' key s w id x y :
  with_counts m m' key s w (<[id := x]> (handoutBufferCountMap s)) (<[id := y]> (attachedBufferCountMap s)) ->
  counts_are m' key s id (x, y).
Proof.
  intros [E _]. eexists. split; [rewrite E; apply lookup_insert_eq|]. cbn. rewrite !lookup_insert_eq.
  split_and!; [done..|]. intros o Ho. by apply lookup_insert_ne.
Qed.

(** [take_buffer] for a stream that is not registered, and for one that is. *)
Lemma take_unregistered m alloc id key noFree :
  mgr_ok m -> registered id key m = false -> take_buffer alloc id key noFree m = Some (Some (BAD_VALUE, None), m).
Proof. intros Hm Hr. unfold take_buffer, bind. by rewrite check_registered, Hr. Qed.

Lemma take_spec m alloc (gb : loc) id key (noFree : bool) s i h a :
  mgr_ok m -> counts_ok m -> mStreamSetMap m !! key = Some s -> streamInfoMap s !! id = Some i ->
  handoutBufferCountMap s !! id = Some h -> attachedBufferCountMap s !! id = Some a ->
  let o := get_outcome (maxAllowedBufferCount s) h (if noFree then h else a) alloc gb in
  wp (take_buffer alloc id key noFree)
    (fun r m' => r = match (o.1).2 with None => Some o.1 | Some _ => None end /\ counts_ok m' /\
       exists w, with_counts m m' key s w (<[id := (o.2).1]> (handoutBufferCountMap s))
                   (<[id := (o.2).2]> (attachedBufferCountMap s))) m.
Proof.
  intros Hm Hc E Hi Hh Ha. pose proof (set_ok_limit s (Hm _ _ E)) as Hmx. destruct (c_bounds m Hc _ _ _ _ _ E Hh Ha) as [Hb1 Hb2].
  unfold take_buffer, get_outcome. apply wp_bind, wp_check; [done|].
  assert (registered id key m = true) as -> by (unfold registered; rewrite E; by apply bool_decide_eq_true; rewrite Hi).
  cbn [negb]. apply wp_bind. eapply wp_edit; [exact E|]. apply wp_bind. eapply wp_deref; [exact Hh|].
  apply wp_bind. eapply wp_deref; [exact Ha|]. set (a0 := if noFree then h else a).
  assert (h <= a0 <= kMaxBufferCount) as Ha0 by (subst a0; destruct noFree; lia). clearbody a0.
  apply wp_bind, wp_put.
  change (maxAllowedBufferCount (s <| attachedBufferCountMap := <[id := a0]> (attachedBufferCountMap s) |>))
    with (maxAllowedBufferCount s).
  set (m1 := m <| mStreamSetMap := _ |>).
  assert (with_counts m m1 key s (allocatedBufferWaterMark s) (<[id := h]> (handoutBufferCountMap s))
            (<[id := a0]> (attachedBufferCountMap s))) as Hw1
    by (split; [|done]; by rewrite (insert_id (handoutBufferCountMap s))).
  pose proof (counts_ok_one m m1 key s _ id h a0 Hc E Hw1 ltac:(lia)) as Hc1.
  destruct (Z.leb_spec (maxAllowedBufferCount s) h); [apply wp_ret; eauto|].
  rewrite uinc_count by lia. destruct (Z.ltb_spec h a0).
  - apply wp_bind, wp_put, wp_ret. subst m1. cbn. set (m2 := {| mStreamSetMap := _ |}).
    assert (with_counts m m2 key s (allocatedBufferWaterMark s) (<[id := h + 1]> (handoutBufferCountMap s))
              (<[id := a0]> (attachedBufferCountMap s))) as Hw2 by (split; [|done]; cbn; by rewrite insert_insert_eq).
    split_and!; [done|by eapply counts_ok_one; [exact Hc|exact E|exact Hw2|lia]|by eexists].
  - change (mGrallocVersion <? HARDWARE_DEVICE_API_VERSION 1 0) with true. cbv iota.
    apply wp_bind. eapply wp_deref; [exact Hi|]. destruct (Z.ltb_spec alloc 0); [apply wp_ret; eauto|].
    assert (a0 = h) as -> by lia. rewrite !uinc_count by lia. apply wp_bind, wp_put, wp_ret. subst m1. cbn.
    set (w := Z.max _ _). set (m2 := {| mStreamSetMap := _ |}).
    assert (with_counts m m2 key s w (<[id := h + 1]> (handoutBufferCountMap s))
              (<[id := h + 1]> (attachedBufferCountMap s))) as Hw2
      by (split; [|done]; cbn; by rewrite !insert_insert_eq).
    split_and!; [done|by eapply counts_ok_one; [exact Hc|exact E|exact Hw2|lia]|by eexists].
Qed.

(** The two attempts to free a buffer of another stream, without interference. *)
Lemma free_twice m alive b1 b2 id key s (gb : loc) x y :
  mgr_ok m -> counts_ok m -> mStreamSetMap m !! key = Some s ->
  handoutBufferCountMap s !! id = Some x -> attachedBufferCountMap s !! id = Some y ->
  wp (let* res := checkAndFreeBufferOnOtherStreamsLocked alive (fun _ => ret b1) id key in
      if negb (res =? 0) then ret (res, Some gb) else
      let* res := checkAndFreeBufferOnOtherStreamsLocked alive (fun _ => ret b2) id key in
      if negb (res =? 0) then ret (res, Some gb) else ret (0, Some gb))
    (fun r m' => (r = (0, Some gb) \/ r = (INVALID_OPERATION, Some gb) /\ exists o p, o <> id /\
         is_Some (streamInfoMap s !! o) /\ mStreamMap m !! o = Some p /\ alive p = false) /\
       counts_are m' key s id (x, y)) m.
Proof.
  intros Hm Hc E Hx Hy.
  assert (forall b, keeps (checkAndFreeBufferOnOtherStreamsLocked alive (fun _ : loc => ret b) id key)) as Hk
    by (intros b; apply keeps_free; intros; apply keeps_ret).
  apply wp_bind. eapply wp_mono; [apply wp_pwp; [by apply (free_spec m alive b1 id key s)|by apply Hk]|].
  intros r m1 (Hm1 & Hc1 & Hr & a1 & [E1 Es1] & Ha1).
  match type of E1 with _ = <[_ := ?t]> _ =>
    assert (mStreamSetMap m1 !! key = Some t) as E1' by (rewrite E1; apply lookup_insert_eq)
  end.
  destruct Hr as [->|[-> Hdead]]; cbn [negb Z.eqb INVALID_OPERATION].
  - apply wp_bind. eapply wp_mono; [by eapply free_spec|]. intros r2 m2 (Hc2 & Hr2 & a2 & [E2 _] & Ha2). cbn in E2, Ha2, Hr2.
    assert (counts_are m2 key s id (x, y)) as Hare.
    { eexists. split; [rewrite E2; apply lookup_insert_eq|]. cbn. rewrite Ha2, Ha1. by split_and!. }
    rewrite Es1 in Hr2. destruct Hr2 as [->|[-> Hdead]]; apply wp_ret; split; auto.
  - apply wp_ret. split; [by right|]. eexists. split; [exact E1'|]. cbn. rewrite Ha1. by split_and!.
Qed.

Lemma get_run m alive b1 b2 alloc (gb : loc) id key (noFree : bool) s i h a :
  mgr_ok m -> counts_ok m -> mStreamSetMap m !! key = Some s -> streamInfoMap s !! id = Some i ->
  handoutBufferCountMap s !! id = Some h -> attachedBufferCountMap s !! id = Some a ->
  let o := get_outcome (maxAllowedBufferCount s) h (if noFree then h else a) alloc gb in
  wp (getBufferForStream alive (fun _ => ret b1) (fun _ => ret b2) alloc gb id key noFree)
    (fun r m' => counts_are m' key s id o.2 /\
       (r = o.1 \/ o.1 = (0, Some gb) /\ r = (INVALID_OPERATION, Some gb) /\ exists p q, p <> id /\
          is_Some (streamInfoMap s !! p) /\ mStreamMap m !! p = Some q /\ alive q = false)) m.
Proof.
  intros Hm Hc E Hi Hh Ha o. apply wp_bind.
  eapply wp_mono; [apply wp_pwp; [by apply (take_spec m alloc gb id key noFree s i h a)|by apply keeps_take]|].
  fold o. intros r m1 (Hm1 & -> & Hc1 & w & Hw).
  pose proof (counts_are_one _ _ _ _ _ _ _ _ Hw) as Hare. rewrite <- surjective_pairing in Hare.
  destruct o as [[x [gb'|]] [h' a']] eqn:Ho; cbn in *; [|apply wp_ret; auto].
  assert (x = 0 /\ gb' = gb) as [-> ->] by (revert Ho; subst o; unfold get_outcome; repeat case_match; intros; by simplify_eq).
  pose proof Hw as [E1 Es1]. eapply wp_mono.
  { eapply (free_twice m1); [done|done|rewrite E1; apply lookup_insert_eq|cbn; apply lookup_insert_eq..]. }
  cbn. intros r m2 (Hr & s2 & E2 & Hs2 & Ha2 & Ho2). rewrite Es1 in Hr. split.
  - eexists. split_and!; [exact E2|exact Hs2|exact Ha2|]. intros q Hq. rewrite Ho2 by done. by apply lookup_insert_ne.
  - destruct Hr as [->|[-> ?]]; auto.
Qed.

(** A run of the operation is defined and keeps the counts. *)
Definition safe {A} (f : BM A) m : Prop := wp f (fun _ m' => counts_ok m') m.

Lemma safe_get alive pol1 run1 f1 pol2 run2 f2 alloc gb id key noFree m :
  run_safe pol1 run1 -> run_safe pol2 run2 -> mgr_ok m -> counts_ok m ->
  get_ok alive alloc id key noFree pol1 run1 f1 pol2 run2 f2 m ->
  safe (getBufferForStream alive (fun _ => run1 >> ret f1) (fun _ => run2 >> ret f2) alloc gb id key noFree) m.
Proof.
  intros Hr1 Hr2 Hm Hc Hok. destruct (registered id key m) eqn:Hr.
  2:{ apply wp_bind. eapply wp_intro; [by apply take_unregistered|]. by apply wp_ret. }
  apply registered_true in Hr as (s & i & E & Hi).
  destruct (counts_at s id (Hm _ _ E)) as (h & a & Hh & Ha); [eauto|].
  pose proof (wp_pwp _ _ _ _ (take_spec m alloc gb id key noFree s i h a Hm Hc E Hi Hh Ha)
    (keeps_take alloc id key noFree m Hm)) as (r & m1 & Ht & Hm1 & _ & Hc1 & w & E1 & _)%wp_run.
  apply wp_bind. eapply wp_intro; [exact Ht|]. destruct r as [r|]; [by apply wp_ret|].
  destruct (Hok m1 Ht) as [Hok1 Hok2].
  assert (is_Some (mStreamSetMap m1 !! key)) as Hk1 by (rewrite E1, lookup_insert_eq; eauto).
  pose proof (free_safe alive pol1 run1 f1 id key m1 Hr1 Hm1 Hc1 Hk1 Hok1) as (r & m2 & Hf & Hm2 & Hc2 & Hk2)%wp_run.
  apply wp_bind. eapply wp_intro; [exact Hf|]. destruct (Z.eqb_spec r 0) as [->|]; cbn [negb]; [|by apply wp_ret].
  apply wp_bind. eapply wp_mono; [by apply (free_safe alive pol2 run2 f2); auto|].
  intros r m3 (_ & Hc3 & _). destruct (negb _); by apply wp_ret.
Qed.

Lemma safe_released id key m :
  mgr_ok m -> counts_ok m ->
  (forall s h, mStreamSetMap m !! key = Some s -> handoutBufferCountMap s !! id = Some h -> 0 < h) ->
  safe (onBufferReleased true id key) m.
Proof.
  intros Hm Hc Hpos. unfold onBufferReleased. cbn [negb]. apply wp_bind, wp_check; [done|].
  destruct (registered id key m) eqn:Hr; [|by apply wp_ret]. cbn [negb].
  change (mGrallocVersion <? HARDWARE_DEVICE_API_VERSION 1 0) with true. cbv iota.
  apply registered_true in Hr as (s & i & E & Hi). pose proof (Hm _ _ E) as Hs.
  destruct (counts_at s id Hs) as (h & a & Hh & Ha); [eauto|].
  destruct (c_bounds m Hc _ _ _ _ _ E Hh Ha). specialize (Hpos s h E Hh).
  apply wp_bind. eapply wp_edit; [exact E|]. apply wp_bind. eapply wp_deref; [exact Hh|].
  rewrite udec_count by lia.
  assert (size (<[id := h - 1]> (handoutBufferCountMap s)) = size (attachedBufferCountMap s)) as Hsize.
  { rewrite <- !size_dom, dom_insert_lookup_L by eauto. by rewrite (ok_handout s Hs), (ok_attached s Hs). }
  match goal with |- wp (if (?x <? ?y)%nat then _ else _) _ _ => assert ((x <? y)%nat = false) as -> end.
  { apply Nat.ltb_ge. rewrite !length_values. cbn. by rewrite Hsize. }
  apply wp_bind, wp_put. set (w := if _ && _ then _ else _).
  apply wp_bind. eapply (wp_deref _ a); [subst w; by destruct (_ && _)|]. apply wp_ret.
  eapply (counts_ok_one m _ key s (allocatedBufferWaterMark w) id (h - 1) a Hc E); [|lia].
  split; [|done]. cbn. rewrite (insert_id (attachedBufferCountMap s)) by done. by subst w; destruct (_ && _).
Qed.

Lemma safe_removed id key count m :
  mgr_ok m -> counts_ok m -> 0 <= count -> safe (onBuffersRemoved id key count) m.
Proof.
  intros Hm Hc Hn. unfold onBuffersRemoved. apply wp_bind, wp_check; [done|].
  destruct (registered id key m) eqn:Hr; [|by apply wp_ret]. cbn [negb].
  change (mGrallocVersion <? HARDWARE_DEVICE_API_VERSION 1 0) with true. cbv iota.
  apply registered_true in Hr as (s & i & E & Hi).
  destruct (counts_at s id (Hm _ _ E)) as (h & a & Hh & Ha); [eauto|].
  destruct (c_bounds m Hc _ _ _ _ _ E Hh Ha).
  apply wp_bind. eapply wp_edit; [exact E|]. apply wp_bind. eapply wp_deref; [exact Hh|].
  apply wp_bind. eapply wp_deref; [exact Ha|].
  destruct (Z.ltb_spec h count); [by apply wp_ret|]. destruct (Z.ltb_spec a count); [by apply wp_ret|].
  apply wp_bind, wp_put, wp_ret.
  eapply (counts_ok_one m _ key s (allocatedBufferWaterMark s) id (h - count) (a - count) Hc E); [done|lia].
Qed.

Lemma counts_ok_register m m' stream info s w mx :
  let key := (streamSetId info, isMultiRes info) in let id := streamId info in
  counts_ok m -> (forall k t, mStreamSetMap m !! k = Some t -> is_Some (streamInfoMap t !! id) -> k = key) ->
  (s = new_StreamSet \/ mStreamSetMap m !! key = Some s) ->
  mStreamSetMap m' = <[key := {| allocatedBufferWaterMark := w; maxAllowedBufferCount := mx;
                                 streamInfoMap := <[id := info]> (streamInfoMap s);
                                 handoutBufferCountMap := <[id := 0]> (handoutBufferCountMap s);
                                 attachedBufferCountMap := <[id := 0]> (attachedBufferCountMap s) |}]> (mStreamSetMap m) ->
  mStreamMap m' = <[id := stream]> (mStreamMap m) -> counts_ok m'.
Proof.
  intros key id [Hb Hst Ho] Honce Hs E1 E2. pose proof limits_fit.
  assert (forall k t j, mStreamSetMap m' !! k = Some t -> is_Some (streamInfoMap t !! j) ->
            j = id /\ k = key \/ j <> id /\ exists t', mStreamSetMap m !! k = Some t' /\ is_Some (streamInfoMap t' !! j)) as Hinfo.
  { intros k t j. rewrite E1. destruct (decide (j = id)) as [->|Hj].
    - intros [[<- _]|[Hk Ht]]%lookup_insert_Some Hsome; [by left|]. exfalso. by apply Hk, eq_sym, (Honce k t).
    - intros [[<- <-]|[_ Ht]]%lookup_insert_Some; [cbn; rewrite lookup_insert_ne by done|eauto].
      intros Hj'. right. split; [done|]. destruct Hs as [->|Hs]; [by destruct Hj'|eauto]. }
  split.
  - intros k t j x y. rewrite E1. intros [[<- <-]|[_ Ht]]%lookup_insert_Some; [|by eapply Hb]. cbn.
    intros [[<- <-]|[Hj Hx]]%lookup_insert_Some; [rewrite lookup_insert_eq; intros [= <-]; lia|].
    rewrite lookup_insert_ne by done. destruct Hs as [->|Hs]; [done|]. by eapply Hb.
  - intros k t j Ht Hj. rewrite E2. destruct (Hinfo k t j Ht Hj) as [[-> _]|(Hne & t' & Ht' & Hj')].
    + rewrite lookup_insert_eq. eauto.
    + rewrite lookup_insert_ne by done. by eapply Hst.
  - intros k k' t t' j Ht Ht' Hj Hj'.
    destruct (Hinfo k t j Ht Hj) as [[? ->]|(? & u & Hu & Hju)], (Hinfo k' t' j Ht' Hj') as [[? ->]|(? & u' & Hu' & Hju')];
      [done|done|done|by eapply Ho].
Qed.

Lemma safe_register stream info m :
  mgr_ok m -> counts_ok m ->
  (forall k t, mStreamSetMap m !! k = Some t -> is_Some (streamInfoMap t !! streamId info) ->
     k = (streamSetId info, isMultiRes info)) ->
  safe (registerStream stream info) m.
Proof.
  intros Hm Hc Honce. unfold registerStream. cbv zeta.
  repeat (match goal with |- safe (if ?b then _ else _) _ => destruct b; [by apply wp_ret|] end).
  apply wp_bind, wp_intro with m m; [done|]. destruct (registered_elsewhere info m); [by apply wp_ret|].
  set (key := (streamSetId info, isMultiRes info)) in *. apply wp_bind.
  destruct (mStreamSetMap m !! key) as [s|] eqn:E.
  - apply wp_ret, wp_bind. eapply wp_edit; [exact E|].
    destruct (streamInfoMap s !! streamId info) eqn:En; [by apply wp_ret|].
    apply wp_bind, wp_modify, wp_bind, wp_put, wp_ret.
    eapply (counts_ok_register m _ stream info s (allocatedBufferWaterMark s)
              (if maxAllowedBufferCount s <? totalBufferCount info then totalBufferCount info else maxAllowedBufferCount s));
      [done|done|by right| |reflexivity].
    cbn. by destruct (maxAllowedBufferCount s <? totalBufferCount info).
  - apply wp_modify, wp_bind. eapply wp_edit; [apply lookup_insert_eq|]. cbn [streamInfoMap new_StreamSet].
    rewrite lookup_empty. apply wp_bind, wp_modify, wp_bind, wp_put, wp_ret.
    eapply (counts_ok_register m _ stream info new_StreamSet 0 (if 0 <? totalBufferCount info then totalBufferCount info else 0));
      [done|done|by left| |reflexivity].
    cbn. rewrite insert_insert_eq. by destruct (0 <? totalBufferCount info).
Qed.

Lemma counts_ok_unregister m m' id key s s' :
  counts_ok m -> mStreamSetMap m !! key = Some s -> is_Some (streamInfoMap s !! id) ->
  streamInfoMap s' = delete id (streamInfoMap s) -> handoutBufferCountMap s' = delete id (handoutBufferCountMap s) ->
  attachedBufferCountMap s' = delete id (attachedBufferCountMap s) ->
  (forall k t, mStreamSetMap m' !! k = Some t -> k = key /\ t = s' \/ k <> key /\ mStreamSetMap m !! k = Some t) ->
  mStreamMap m' = delete id (mStreamMap m) -> counts_ok m'.
Proof.
  intros [Hb Hst Ho] E Hid Ei Eh Ea Hsets Em.
  assert (forall k t j, mStreamSetMap m' !! k = Some t -> is_Some (streamInfoMap t !! j) ->
            j <> id /\ exists t', mStreamSetMap m !! k = Some t' /\ is_Some (streamInfoMap t' !! j)) as Hinfo.
  { intros k t j [[-> ->]|[Hk Ht]]%Hsets Hj.
    - rewrite Ei in Hj. destruct Hj as [x [Hne Hj]%lookup_delete_Some]. split; [done|eauto].
    - split; [intros ->; by apply Hk, (Ho k key t s id)|eauto]. }
  split.
  - intros k t j x y [[-> ->]|[_ Ht]]%Hsets; [|by eapply Hb]. rewrite Eh, Ea.
    intros [_ Hx]%lookup_delete_Some [_ Hy]%lookup_delete_Some. by eapply Hb.
  - intros k t j Ht Hj. destruct (Hinfo k t j Ht Hj) as (Hne & t' & Ht' & Hj').
    rewrite Em, lookup_delete_ne by done. by eapply Hst.
  - intros k k' t t' j Ht Ht' Hj Hj'.
    destruct (Hinfo k t j Ht Hj) as (_ & u & Hu & Hju), (Hinfo k' t' j Ht' Hj') as (_ & u' & Hu' & Hju'). by eapply Ho.
Qed.

Lemma safe_unregister id key m : mgr_ok m -> counts_ok m -> safe (unregisterStream id key) m.
Proof.
  intros Hm Hc. unfold unregisterStream. apply wp_bind, wp_check; [done|].
  destruct (registered id key m) eqn:Hr; [|by apply wp_ret]. cbn [negb].
  apply registered_true in Hr as (s & i & E & Hi). apply wp_bind. eapply wp_edit; [exact E|].
  apply wp_bind, wp_modify, wp_bind, wp_put, wp_bind. destruct (_ && _).
  - apply wp_modify, wp_ret. match goal with |- context [<[key := ?t]> (mStreamSetMap _)] =>
      eapply (counts_ok_unregister m _ id key s t Hc E) end; [eauto|done|done|done| |done].
    cbn. intros k t [Hk Ht]%lookup_delete_Some. rewrite lookup_insert_ne in Ht by done. by right.
  - apply wp_ret, wp_ret. match goal with |- context [<[key := ?t]> (mStreamSetMap _)] =>
      eapply (counts_ok_unregister m _ id key s t Hc E) end; [eauto|done|done|done| |done].
    cbn. intros k t [[<- <-]|[Hk Ht]]%lookup_insert_Some; [by left|by right].
Qed.

(** The contract: a stream is registered in one set, a buffer is released that was
    handed out, a buffer is removed that is free; and so are the calls that come in
    while the manager has released its lock, which keep to [window_ok]. *)
Definition list_polite (polite : bm_call -> Camera3BufferManager -> Prop) :
    list bm_call -> Camera3BufferManager -> Prop :=
  fix go l m :=
    match l with
    | [] => True
    | c :: l => polite c m /\ forall m', run_call c m = Some (tt, m') -> go l m'
    end.

Fixpoint polite (c : bm_call) m {struct c} : Prop :=
  match c with
  | CRegister _ info =>
      forall k t, mStreamSetMap m !! k = Some t -> is_Some (streamInfoMap t !! streamId info) ->
        k = (streamSetId info, isMultiRes info)
  | CUnregister _ _ => True
  | CNotify id key =>
      exists s h a, mStreamSetMap m !! key = Some s /\ handoutBufferCountMap s !! id = Some h /\
        attachedBufferCountMap s !! id = Some a /\ h < a
  | CGet alive alloc _ id key noFree freed1 l1 freed2 l2 =>
      get_ok alive alloc id key noFree (list_polite polite l1) (run_bm_calls l1) freed1
        (list_polite polite l2) (run_bm_calls l2) freed2 m
  | CReleased id key =>
      forall s h, mStreamSetMap m !! key = Some s -> handoutBufferCountMap s !! id = Some h -> 0 < h
  | CRemoved _ _ count => 0 <= count
  end.

Definition polite_run : list bm_call -> Camera3BufferManager -> Prop := list_polite polite.

Lemma safe_unit {A} (f : BM A) m : safe f m -> safe (f >> ret tt) m.
Proof. intros Hf. apply wp_bind. eapply wp_mono; [exact Hf|]. intros x m' Hm'. by apply wp_ret. Qed.

(** Calls each of which is safe make a safe sequence. *)
Lemma run_safe_list l :
  Forall (fun c => forall m, mgr_ok m -> counts_ok m -> polite c m -> safe (run_call c) m) l ->
  run_safe (polite_run l) (run_bm_calls l).
Proof.
  induction 1 as [|c l Hc _ IH]; intros m Hm Hco; [by exists m|]. intros [Hp Hl].
  pose proof (wp_pwp _ _ _ _ (Hc m Hm Hco Hp) (keeps_call c m Hm)) as ([] & m1 & Hr & Hm1 & Hc1)%wp_run.
  destruct (IH m1 Hm1 Hc1 (Hl m1 Hr)) as (m' & Hr' & ?). exists m'. split; [|done].
  unfold run_bm_calls in *. cbn. unfold bind. by rewrite Hr.
Qed.

Lemma safe_call : forall c m, mgr_ok m -> counts_ok m -> polite c m -> safe (run_call c) m.
Proof.
  fix IH 1. intros [stream info|id key|id key|alive alloc gb id key noFree f1 l1 f2 l2|id key|id key count];
    cbn [run_call polite]; intros m Hm Hc Hp.
  - by apply safe_unit, safe_register.
  - by apply safe_unit, safe_unregister.
  - destruct Hp as (s & h & a & E & Hh & Ha & Hlt).
    destruct (notify_run m id key s h a Hc E Hh Ha Hlt) as (m' & Hr & Hc' & _). by eapply wp_intro.
  - apply safe_unit. eapply safe_get; [apply run_safe_list|apply run_safe_list|done|done|exact Hp].
    + clear -IH. induction l1; constructor; [apply IH|done].
    + clear -IH. induction l2; constructor; [apply IH|done].
  - by apply safe_unit, safe_released.
  - by apply safe_unit, safe_removed.
Qed.

Lemma polite_safe l : run_safe (polite_run l) (run_bm_calls l).
Proof. apply run_safe_list, Forall_forall. intros. by apply safe_call. Qed.

Lemma new_mgr_ok : mgr_ok new_Camera3BufferManager.
Proof. by intros key s. Qed.
Lemma new_counts_ok : counts_ok new_Camera3BufferManager.
Proof. by split. Qed.

(** ** Theorems *)

(** Whatever calls come, and whatever other threads call while the manager has
    released its lock, every stream set has streams; it keeps both counts for
    exactly its streams; and its limit is the largest of their buffer counts, at
    most 64 slots.  So a stream that was registered is never taken for one that
    was not. *)
Theorem buffer_sets_ok (l : list bm_call) m id key :
  run_bm_calls l new_Camera3BufferManager = Some (tt, m) ->
  (forall k s, mStreamSetMap m !! k = Some s -> set_ok s) /\
  checkIfStreamRegisteredLocked id key m = Some (registered id key m, m).
Proof.
  intros Hr. assert (mgr_ok m) as Hm; [|split; [exact Hm|by apply check_registered]].
  refine (keeps_calls l _ _ new_mgr_ok tt m Hr). apply Forall_forall. intros. apply keeps_call.
Qed.

(** C17. The buffer manager with streams that keep to its contract, [polite]: a stream
    is registered in one set, releases a buffer it was handed and reports as removed a
    buffer that is free; what other threads call while the manager has released its
    lock to detach a buffer keeps to the contract too, leaves the set in place and, if
    a buffer was freed, adds and removes no set and leaves the stream the free buffer
    that is about to be uncounted ([buffer_detach_race] shows what happens without the
    last).  Then no call aborts or is undefined, no counter wraps around, and for every
    stream the buffers handed out are at most those attached, which are at most
    [kMaxBufferCount]. *)
Theorem buffer_counts_safe (l : list bm_call) :
  polite_run l new_Camera3BufferManager ->
  exists m, run_bm_calls l new_Camera3BufferManager = Some (tt, m) /\
    forall key s id i, mStreamSetMap m !! key = Some s -> streamInfoMap s !! id = Some i ->
      is_Some (mStreamMap m !! id) /\
      exists h a, handoutBufferCountMap s !! id = Some h /\ attachedBufferCountMap s !! id = Some a /\
        0 <= h <= a /\ a <= kMaxBufferCount.
Proof.
  intros Hl. destruct (polite_safe l _ new_mgr_ok new_counts_ok Hl) as (m & Hr & Hm & Hc).
  exists m. split; [done|]. intros key s id i E Hi. split; [by eapply (c_streams m Hc); eauto|].
  destruct (counts_at s id (Hm _ _ E)) as (h & a & Hh & Ha); [eauto|].
  exists h, a. split; [done|]. split; [done|]. exact (c_bounds m Hc _ _ _ _ _ E Hh Ha).
Qed.

(** C18. [getBufferForStream] on every branch, in every state that streams which keep
    to the contract reach, when no other thread calls while the lock is released.  A
    stream that is not registered gets [BAD_VALUE] and nothing changes.  One that is
    gets [INVALID_OPERATION] when as many buffers are handed out as the set allows;
    [ALREADY_EXISTS] when one of its attached buffers is free; otherwise the error of
    the allocator, or a new buffer.  Its counts change accordingly, and nobody else's
    handed-out count does.  With the new buffer the status is [OK], or
    [INVALID_OPERATION] if another stream of the set, whose buffer was to be freed, has
    died: then the counts change all the same. *)
Theorem buffer_get_spec (l : list bm_call) m (alive : loc -> bool) (f1 f2 : bool) (alloc : Z) (gb : loc) id key
    (noFree : bool) :
  polite_run l new_Camera3BufferManager -> run_bm_calls l new_Camera3BufferManager = Some (tt, m) ->
  let get := getBufferForStream alive (fun _ => ret f1) (fun _ => ret f2) alloc gb id key noFree in
  ((forall s, mStreamSetMap m !! key = Some s -> streamInfoMap s !! id = None) ->
     get m = Some ((BAD_VALUE, None), m)) /\
  (forall s i h a, mStreamSetMap m !! key = Some s -> streamInfoMap s !! id = Some i ->
     handoutBufferCountMap s !! id = Some h -> attachedBufferCountMap s !! id = Some a ->
     let o := get_outcome (maxAllowedBufferCount s) h (if noFree then h else a) alloc gb in
     exists r m', get m = Some (r, m') /\ counts_are m' key s id o.2 /\
       (r = o.1 \/ o.1 = (0, Some gb) /\ r = (INVALID_OPERATION, Some gb) /\ exists p q, p <> id /\
          is_Some (streamInfoMap s !! p) /\ mStreamMap m !! p = Some q /\ alive q = false)).
Proof.
  intros Hl Hr get. destruct (polite_safe l _ new_mgr_ok new_counts_ok Hl) as (m0 & Hr' & Hm & Hc).
  assert (m0 = m) as -> by congruence. split.
  - intros Hno. unfold get, getBufferForStream, bind. rewrite take_unregistered; [done|done|].
    unfold registered. destruct (mStreamSetMap m !! key) as [s|]; [|done]. by rewrite (Hno s eq_refl).
  - intros s i h a E Hi Hh Ha. 
    by pose proof (get_run m alive f1 f2 alloc gb id key noFree s i h a Hm Hc E Hi Hh Ha) as (r & m' & Hg & ?)%wp_run; eauto.
Qed.

End inv.

(** ** Examples *)

Definition limits32 : BufferLimits := {| size_bit := 32; kMaxBufferCount := 64 |}.
#[export] Instance limits32_ok : BufferLimitsOk limits32.
Proof. by split. Qed.

(** A stream that needs [n] buffers, in a set. *)
Definition ex_info (id set : Z) (n : N) : StreamInfo :=
  {| streamId := id; streamSetId := set; width := 640; height := 480; si_format := 35; dataSpace := 0;
     combinedUsage := 0; total_buffers := n; isConfigured := true; isMultiRes := false |}.

Definition ex_get (id set : Z) (freed1 : bool) (l1 : list bm_call) : bm_call :=
  CGet (fun _ => true) 0 9%positive id (set, false) false freed1 l1 false [].

(** Stream 5 takes three buffers and gives them back. *)
Definition ex_stream5 : list bm_call :=
  [ex_get 5 1 false []; ex_get 5 1 false []; ex_get 5 1 false [];
   CReleased 5 (1, false); CReleased 5 (1, false); CReleased 5 (1, false)].

Definition ex_two_streams : list bm_call := [CRegister 1%positive (ex_info 5 1 4); CRegister 2%positive (ex_info 6 1 2)].

(** A stream can be registered in two sets: the test in [registerStream] asks that
    both the identifier of the set and the kind of the set differ.  The stream is then
    found in the first set but, once it is unregistered from the second, not in the
    map of streams: the next attempt to free one of its buffers aborts the process. *)
Theorem buffer_registered_twice :
  let l := ex_two_streams ++ [CRegister 1%positive (ex_info 5 2 4); CUnregister 5 (2, false)] ++ ex_stream5 ++ [ex_get 6 1 true []] in
  (exists m1 m2, run_bm_calls (L := limits32) ex_two_streams new_Camera3BufferManager = Some (tt, m1) /\
     registerStream (L := limits32) 1%positive (ex_info 5 2 4) m1 = Some (0, m2)) /\
  (exists m, run_bm_calls (L := limits32) l new_Camera3BufferManager = Some (tt, m) /\
     run_bm_calls (L := limits32) (l ++ [ex_get 6 1 true []]) new_Camera3BufferManager = None).
Proof. split; [eexists _, _|eexists]; split; vm_compute; reflexivity. Qed.

(** The counts drift apart when a stream takes its free buffers while the manager,
    its lock released, detaches one of them: more buffers are then counted as handed
    out than as attached. *)
Theorem buffer_detach_race :
  exists m s, run_bm_calls (L := limits32)
                (ex_two_streams ++ ex_stream5 ++
                 [ex_get 6 1 true [];
                  ex_get 6 1 true [ex_get 5 1 false []; ex_get 5 1 false []; ex_get 5 1 false []]]) new_Camera3BufferManager = Some (tt, m) /\
    mStreamSetMap m !! (1, false) = Some s /\
    handoutBufferCountMap s !! 5 = Some 3 /\ attachedBufferCountMap s !! 5 = Some 2.
Proof. eexists _, _. split; [vm_compute; reflexivity|]. split; [vm_compute; reflexivity|]. by split; vm_compute. Qed.

(** The contract as a test. *)
Section test.
Context {L : BufferLimits}.

Definition counts_free (key : StreamSetKey) (o : Z) (m : Camera3BufferManager) : bool :=
  default false (s ← mStreamSetMap m !! key; h ← handoutBufferCountMap s !! o; a ← attachedBufferCountMap s !! o;
                 Some (h <? a)).

Definition window_okb (pol : Camera3BufferManager -> bool) (run : BM unit) (freed : bool) (o : Z) (storage : nat) key m : bool :=
  pol m &&
  match run m with
  | Some (_, m') => bool_decide (is_Some (mStreamSetMap m' !! key)) &&
      (negb freed || (set_storage m' =? storage)%nat && counts_free key o m')
  | None => true
  end.

Definition free_okb alive pol run freed id key m : bool :=
  match choose_other alive id key m with
  | Some (inr (o, _, storage), _) => window_okb pol run freed o storage key m
  | _ => true
  end.

Definition get_okb alive alloc id key noFree pol1 run1 freed1 pol2 run2 freed2 m : bool :=
  match take_buffer alloc id key noFree m with
  | Some (None, m1) =>
      free_okb alive pol1 run1 freed1 id key m1 &&
      match checkAndFreeBufferOnOtherStreamsLocked alive (fun _ => run1 >> ret freed1) id key m1 with
      | Some (_, m2) => free_okb alive pol2 run2 freed2 id key m2
      | None => true
      end
  | _ => true
  end.

Definition list_politeb (politeb : bm_call -> Camera3BufferManager -> bool) :
    list bm_call -> Camera3BufferManager -> bool :=
  fix go l m :=
    match l with
    | [] => true
    | c :: l => politeb c m && match run_call c m with Some (_, m') => go l m' | None => true end
    end.

Fixpoint politeb (c : bm_call) (m : Camera3BufferManager) {struct c} : bool :=
  match c with
  | CRegister _ info =>
      forallb (fun x => match streamInfoMap x.2 !! streamId info with
                        | Some _ => bool_decide (x.1 = (streamSetId info, isMultiRes info))
                        | None => true
                        end) (map_to_list (mStreamSetMap m))
  | CUnregister _ _ => true
  | CNotify id key => counts_free key id m
  | CGet alive alloc _ id key noFree freed1 l1 freed2 l2 =>
      get_okb alive alloc id key noFree (list_politeb politeb l1) (run_bm_calls l1) freed1
        (list_politeb politeb l2) (run_bm_calls l2) freed2 m
  | CReleased id key =>
      match s ← mStreamSetMap m !! key; h ← handoutBufferCountMap s !! id; Some (0 <? h) with
      | Some b => b
      | None => true
      end
  | CRemoved _ _ count => 0 <=? count
  end.

Lemma counts_free_ok key o m :
  counts_free key o m = true -> exists s h a, mStreamSetMap m !! key = Some s /\
    handoutBufferCountMap s !! o = Some h /\ attachedBufferCountMap s !! o = Some a /\ h < a.
Proof.
  unfold counts_free. destruct (mStreamSetMap m !! key) as [s|]; cbn; [|done].
  destruct (handoutBufferCountMap s !! o) as [h|] eqn:Hh; cbn; [|done].
  destruct (attachedBufferCountMap s !! o) as [a|] eqn:Ha; cbn; [|done]. intros ?%Z.ltb_lt. by exists s, h, a.
Qed.

Lemma free_okb_ok alive pol (polb : Camera3BufferManager -> bool) run freed id key m :
  (forall m, polb m = true -> pol m) -> free_okb alive polb run freed id key m = true ->
  free_ok alive pol run freed id key m.
Proof.
  unfold free_okb, window_okb. intros Hpol Hb o p storage Hc. rewrite Hc in Hb.
  apply andb_true_iff in Hb as [Hp Hb]. split; [by apply Hpol|]. intros m' Hr. rewrite Hr in Hb.
  apply andb_true_iff in Hb as [Hk Hb]. split; [by apply bool_decide_eq_true_1 in Hk|]. intros ->.
  apply andb_true_iff in Hb as [Hs Hb]. split; [by apply Nat.eqb_eq|by apply counts_free_ok].
Qed.

Lemma list_politeb_ok l :
  Forall (fun c => forall m, politeb c m = true -> polite c m) l ->
  forall m, list_politeb politeb l m = true -> polite_run l m.
Proof.
  induction 1 as [|c l Hc _ IH]; intros m; [done|]. intros [Hcb Hl]%andb_true_iff.
  split; [by apply Hc|]. intros m' E. rewrite E in Hl. by apply IH.
Qed.

Lemma politeb_ok : forall c m, politeb c m = true -> polite c m.
Proof.
  fix IH 1. intros [stream info|id key|id key|alive alloc gb id key noFree f1 l1 f2 l2|id key|id key count] m;
    cbn [politeb polite].
  - rewrite forallb_forall. intros Hb k t Ht [i Hi]. specialize (Hb (k, t)). cbn in Hb. rewrite Hi in Hb.
    apply (bool_decide_eq_true_1 _), Hb, list_elem_of_In. by apply elem_of_map_to_list.
  - done.
  - apply counts_free_ok.
  - unfold get_okb. intros Hb m1 Ht. rewrite Ht in Hb. apply andb_true_iff in Hb as [Hb1 Hb2].
    split; [|intros m2 Hf; rewrite Hf in Hb2]; (eapply free_okb_ok; [|eassumption]); apply list_politeb_ok.
    + clear -IH. induction l1; constructor; [apply IH|done].
    + clear -IH. induction l2; constructor; [apply IH|done].
  - intros Hb s h E Hh. rewrite E in Hb. cbn in Hb. rewrite Hh in Hb. by apply Z.ltb_lt.
  - apply Z.leb_le.
Qed.

Lemma polite_runb_ok l m : list_politeb politeb l m = true -> polite_run l m.
Proof. apply list_politeb_ok, Forall_forall. intros. by apply politeb_ok. Qed.
End test.

(** ** Witnesses *)

(** While the lock is released to detach a buffer of stream 5, this stream takes another
    one of its free buffers. *)
Definition ex_run : list bm_call :=
  ex_two_streams ++ ex_stream5 ++
  [ex_get 6 1 true []; ex_get 6 1 true [ex_get 5 1 false []]; CRemoved 6 (1, false) 1].

Lemma ex_run_polite : polite_run (L := limits32) ex_run new_Camera3BufferManager.
Proof. apply polite_runb_ok. vm_compute. reflexivity. Qed.

Lemma buffer_sets_ok_witness :
  exists m, run_bm_calls (L := limits32) ex_run new_Camera3BufferManager = Some (tt, m) /\
    checkIfStreamRegisteredLocked (L := limits32) 5 (1, false) m = Some (true, m).
Proof.
  eexists. split; [vm_compute; reflexivity|].
  refine (proj2 (buffer_sets_ok (L := limits32) ex_run _ 5 (1, false) _)). vm_compute. reflexivity.
Defined.

Lemma buffer_counts_safe_witness :
  exists m, run_bm_calls (L := limits32) ex_run new_Camera3BufferManager = Some (tt, m).
Proof.
  destruct (buffer_counts_safe (L := limits32) ex_run ex_run_polite) as (m & Hr & _). exists m. exact Hr.
Defined.

Lemma buffer_get_spec_witness :
  exists m m', run_bm_calls (L := limits32) ex_run new_Camera3BufferManager = Some (tt, m) /\
    getBufferForStream (L := limits32) (fun _ => true) (fun _ => ret false) (fun _ => ret false) 0 7%positive 9 (1, false) true m
    = Some ((BAD_VALUE, None), m) /\
    getBufferForStream (L := limits32) (fun _ => true) (fun _ => ret false) (fun _ => ret false) 0 7%positive 5 (1, false) true m
    = Some ((0, Some 7%positive), m').
Proof.
  eexists.
  destruct (buffer_get_spec (L := limits32) ex_run _ (fun _ => true) false false 0 7%positive 5 (1, false) true
              ex_run_polite ltac:(vm_compute; reflexivity)) as [_ H5].
  destruct (buffer_get_spec (L := limits32) ex_run _ (fun _ => true) false false 0 7%positive 9 (1, false) true
              ex_run_polite ltac:(vm_compute; reflexivity)) as [H9 _].
  destruct (H5 _ (ex_info 5 1 4) 1 2 ltac:(vm_compute; reflexivity) ltac:(vm_compute; reflexivity)
              ltac:(vm_compute; reflexivity) ltac:(vm_compute; reflexivity)) as (r & m' & Hg & _ & Hr).
  exists m'. split; [vm_compute; reflexivity|]. split.
  - apply H9. intros s Hs. vm_compute in Hs. injection Hs as <-. vm_compute. reflexivity.
  - destruct Hr as [->|(_ & _ & p & q & _ & _ & _ & Hd)]; [exact Hg|discriminate Hd].
Defined.
