(* ===== verification/CamStatus.v ===== *)
(** * The status tracker of a camera device ([camera/libcameraservice/device3/StatusTracker.cpp])

    Components of a camera device report that they are idle or active; one thread
    works the reports off and tells the device of every change of the collective
    state.  The device is idle when all components are and the fences given with
    the reports have signalled.

    The operations are functions on the tracker, one for each critical section; the
    threads are the steps of [st_step].  Fences are an interface: a fence is merged
    with another, and may have signalled in a state of the world. *)
From S2P Require Import Prelude.
From stdpp Require Import base list gmap strings pretty.
From Stdlib Require Import ZArith Lia.

Open Scope Z_scope.

(** ** Fences *)

(** [fence_done] is [getSignalTime() != INT64_MAX]; [later] relates a state of the
    world to those that may follow. *)
Class Fences (W F : Type) := {
  new_Fence : F;
  NO_FENCE : F;
  fence_merge : F -> F -> F;
  fence_done : W -> F -> bool;
  later : W -> W -> Prop
}.

(** A merged fence signals when both have, a fence that has signalled stays so, and
    the invalid fences count as signalled. *)
Class FencesOk (W F : Type) (FS : Fences W F) : Prop := {
  new_done : forall w : W, fence_done w (new_Fence : F) = true;
  none_done : forall w : W, fence_done w (NO_FENCE : F) = true;
  merge_done : forall (w : W) (f g : F), fence_done w (fence_merge f g) = fence_done w f && fence_done w g;
  done_later : forall (w w' : W) (f : F), later w w' -> fence_done w f = true -> fence_done w' f = true
}.

(** ** Data *)

Inductive ComponentState := IDLE | ACTIVE.
#[export] Instance ComponentState_eq_dec : EqDecision ComponentState.
Proof. solve_decision. Defined.

Section tracker.
Context {W F : Type} {FS : Fences W F}.

Record StateChange := { sc_id : Z; sc_state : ComponentState; sc_fence : F }.

Record StatusTracker := {
  mPendingChangeQueue : list StateChange;
  mComponentsChanged : bool;
  mNextComponentId : Z;
  mStates : gmap Z ComponentState;
  mComponentNames : gmap Z string;
  mIdleFence : F;
  mDeviceState : ComponentState;
  mStateTransitions : list ComponentState
}.

#[local] Instance eta_StatusTracker : Settable StatusTracker := fun t =>
  {| mPendingChangeQueue := mPendingChangeQueue t; mComponentsChanged := mComponentsChanged t;
     mNextComponentId := mNextComponentId t; mStates := mStates t; mComponentNames := mComponentNames t;
     mIdleFence := mIdleFence t; mDeviceState := mDeviceState t; mStateTransitions := mStateTransitions t |}.

Definition new_StatusTracker : StatusTracker :=
  {| mPendingChangeQueue := []; mComponentsChanged := false; mNextComponentId := 0; mStates := ∅; mComponentNames := ∅;
     mIdleFence := new_Fence; mDeviceState := IDLE; mStateTransitions := [] |}.

(** ** The operations *)

(** The first critical section of [addComponent]: the identifier, unless the counter
    overflows ([int]).  [err] is what [add] of the vector returns. *)
Definition addComponent (componentName : string) (err : Z) (t : StatusTracker) : option (Z * StatusTracker) :=
  let id := mNextComponentId t in
  if id <? 2 ^ 31 - 1 then
    let name := if String.eqb componentName String.EmptyString then pretty id else componentName in
    Some (if err <? 0 then err else id,
          t <| mNextComponentId := id + 1 |>
            <| mStates := if err <? 0 then mStates t else <[id := IDLE]> (mStates t) |>
            <| mComponentNames := <[id := name]> (mComponentNames t) |>)
  else None.

(** The second section of [addComponent] and of [removeComponent]. *)
Definition components_changed (t : StatusTracker) : StatusTracker := t <| mComponentsChanged := true |>.

(** The first section of [removeComponent], and whether it found the component. *)
Definition removeComponent (id : Z) (t : StatusTracker) : bool * StatusTracker :=
  (match mStates t !! id with Some _ => true | None => false end,
   t <| mStates := delete id (mStates t) |> <| mComponentNames := delete id (mComponentNames t) |>).

Definition markComponent (id : Z) (state : ComponentState) (componentFence : F) (t : StatusTracker) : StatusTracker :=
  t <| mPendingChangeQueue := mPendingChangeQueue t ++ [{| sc_id := id; sc_state := state; sc_fence := componentFence |}] |>.
Definition markComponentIdle (id : Z) (componentFence : F) : StatusTracker -> StatusTracker :=
  markComponent id IDLE componentFence.
Definition markComponentActive (id : Z) : StatusTracker -> StatusTracker := markComponent id ACTIVE NO_FENCE.

Definition getDeviceStateLocked (w : W) (t : StatusTracker) : ComponentState :=
  if existsb (fun x => bool_decide (x.2 = ACTIVE)) (map_to_list (mStates t)) then ACTIVE
  else if fence_done w (mIdleFence t) then IDLE else ACTIVE.

(** The loop over the pending changes: each look at the fences is at the next state
    of the world in [ws]; the last of them stays. *)
Fixpoint change_loop (ws : list W) (w : W) (prevState : ComponentState) (l : list StateChange) (t : StatusTracker) :
    ComponentState * StatusTracker :=
  match l with
  | [] => (prevState, t)
  | c :: l =>
      match mStates t !! sc_id c with
      | None => change_loop ws w prevState l t
      | Some _ =>
          let '(w, ws) := match ws with w' :: ws => (w', ws) | [] => (w, []) end in
          let t := t <| mStates := <[sc_id c := sc_state c]> (mStates t) |>
                     <| mIdleFence := fence_merge (mIdleFence t) (sc_fence c) |> in
          let newState := getDeviceStateLocked w t in
          let t := if decide (newState = prevState) then t
                   else t <| mStateTransitions := mStateTransitions t ++ [newState] |> in
          change_loop ws w newState l t
      end
  end.

(** The critical section of [threadLoop] that works the changes off. *)
Definition process_changes (w : W) (ws : list W) (t : StatusTracker) : StatusTracker :=
  let prevState := getDeviceStateLocked w t in
  let t := if decide (prevState = mDeviceState t) then t
           else t <| mStateTransitions := mStateTransitions t ++ [prevState] |> in
  let '(prevState, t) := change_loop ws w prevState (mPendingChangeQueue t) t in
  t <| mPendingChangeQueue := [] |> <| mComponentsChanged := false |> <| mDeviceState := prevState |>.

(** ** Threads *)

(** Where the thread is: at the wait, before the section that works the changes off,
    telling the device (with the transitions that are left, or nobody to tell), or
    at its end. *)
Inductive tracker_pc := TWait | TProcess | TNotify (i : list ComponentState) | TExit.

(** [half] counts the callers between the two sections of [addComponent] or
    [removeComponent]; [told] is what [notifyStatus] was called with. *)
Record system := {
  tracker : StatusTracker;
  pc : tracker_pc;
  half : nat;
  world : W;
  parent_alive : bool;
  exit_pending : bool;
  told : list ComponentState
}.
#[local] Instance eta_system : Settable system := fun s =>
  {| tracker := tracker s; pc := pc s; half := half s; world := world s; parent_alive := parent_alive s;
     exit_pending := exit_pending s; told := told s |}.

Definition start (w : W) : system :=
  {| tracker := new_StatusTracker; pc := TWait; half := 0; world := w; parent_alive := true;
     exit_pending := false; told := [] |}.

(** The states of the world during one section. *)
Fixpoint worlds_from (w : W) (ws : list W) : Prop :=
  match ws with [] => True | w' :: ws => later w w' /\ worlds_from w' ws end.

Inductive st_step : system -> system -> Prop :=
  | step_add name err id t s :
      addComponent name err (tracker s) = Some (id, t) ->
      st_step s (s <| tracker := t |> <| half := if 0 <=? err then S (half s) else half s |>)
  | step_remove id s :
      let '(found, t) := removeComponent id (tracker s) in
      st_step s (s <| tracker := t |> <| half := if found : bool then S (half s) else half s |>)
  | step_changed n s :
      half s = S n -> st_step s (s <| tracker := components_changed (tracker s) |> <| half := n |>)
  | step_idle id f s : st_step s (s <| tracker := markComponentIdle id f (tracker s) |>)
  | step_active id s : st_step s (s <| tracker := markComponentActive id (tracker s) |>)
  | step_time w s : later (world s) w -> st_step s (s <| world := w |>)
  | step_parent_dies s : st_step s (s <| parent_alive := false |>)
  | step_request_exit s : st_step s (s <| exit_pending := true |>)
  (** The thread is woken, or its wait times out. *)
  | step_wake s : pc s = TWait -> st_step s (s <| pc := if exit_pending s then TExit else TProcess |>)
  | step_busy s :
      pc s = TWait -> mPendingChangeQueue (tracker s) <> [] \/ mComponentsChanged (tracker s) = true ->
      st_step s (s <| pc := TProcess |>)
  | step_process ws s :
      pc s = TProcess -> worlds_from (world s) ws ->
      let t := process_changes (world s) ws (tracker s) in
      st_step s (s <| tracker := t |> <| world := List.last ws (world s) |>
                   <| pc := TNotify (if parent_alive s then mStateTransitions t else []) |>)
  | step_tell x l s :
      pc s = TNotify (x :: l) -> st_step s (s <| pc := TNotify l |> <| told := told s ++ [x] |>)
  | step_told s :
      pc s = TNotify [] ->
      st_step s (s <| tracker := (tracker s) <| mStateTransitions := [] |> |>
                   <| pc := if exit_pending s then TExit else TWait |>).

(** ** What the device hears *)

(** Every state differs from the one before it, the first from [p]. *)
Fixpoint alternates (p : ComponentState) (l : list ComponentState) : Prop :=
  match l with [] => True | x :: l => x <> p /\ alternates x l end.

Lemma last_cons_default (p x : ComponentState) l : List.last (x :: l) p = List.last l x.
Proof. revert x; induction l as [|y l IH]; intros x; [done|]. cbn in *. destruct l; [done|]. apply (IH x). Qed.

Lemma last_app_default (p : ComponentState) l1 l2 : List.last (l1 ++ l2) p = List.last l2 (List.last l1 p).
Proof. revert p; induction l1 as [|x l1 IH]; intros p; [done|]. cbn [app]. by rewrite !last_cons_default, IH. Qed.

Lemma alternates_app p l1 l2 : alternates p (l1 ++ l2) <-> alternates p l1 /\ alternates (List.last l1 p) l2.
Proof.
  revert p; induction l1 as [|x l1 IH]; intros p; cbn [app alternates]; [cbn; tauto|].
  rewrite IH, last_cons_default. tauto.
Qed.

(** The other fields are as they were; [new] was added to the transitions. *)
Definition adds (new : list ComponentState) (t t' : StatusTracker) : Prop :=
  mStateTransitions t' = mStateTransitions t ++ new /\ mDeviceState t' = mDeviceState t.

Lemma adds_trans l1 l2 t1 t2 t3 : adds l1 t1 t2 -> adds l2 t2 t3 -> adds (l1 ++ l2) t1 t3.
Proof. intros [E1 D1] [E2 D2]. split; [by rewrite E2, E1, app_assoc|congruence]. Qed.

(** One look at the collective state. *)
Lemma adds_one (p q : ComponentState) (t : StatusTracker) :
  exists new, adds new t (if decide (q = p) then t else t <| mStateTransitions := mStateTransitions t ++ [q] |>) /\
    alternates p new /\ List.last new p = q.
Proof.
  destruct (decide (q = p)) as [->|Hne].
  - exists []. split_and!; [split; [by rewrite app_nil_r|done]|done|done].
  - exists [q]. split_and!; [by split|done|done].
Qed.

Lemma change_loop_adds l ws w p t p' t' :
  change_loop ws w p l t = (p', t') -> exists new, adds new t t' /\ alternates p new /\ List.last new p = p'.
Proof.
  revert ws w p t; induction l as [|c l IH]; intros ws w p t; cbn [change_loop].
  { intros [= <- <-]. exists []. split_and!; [split; [by rewrite app_nil_r|done]|done|done]. }
  destruct (mStates t !! sc_id c); [|apply IH].
  destruct (match ws with [] => (w, []) | w' :: ws' => (w', ws') end) as [w1 ws1].
  set (t1 := t <| mStates := _ |> <| mIdleFence := _ |>). set (q := getDeviceStateLocked w1 t1).
  destruct (adds_one p q t1) as (n1 & H1 & A1 & L1). intros (n2 & H2 & A2 & L2)%IH.
  exists (n1 ++ n2). split_and!.
  - eapply adds_trans; [|exact H2]. destruct H1 as [E D]. split; [exact E|exact D].
  - apply alternates_app. split; [done|]. by rewrite L1.
  - by rewrite last_app_default, L1.
Qed.

Lemma process_adds w ws t :
  exists new, mStateTransitions (process_changes w ws t) = mStateTransitions t ++ new /\
    alternates (mDeviceState t) new /\ mDeviceState (process_changes w ws t) = List.last new (mDeviceState t).
Proof.
  unfold process_changes. set (q := getDeviceStateLocked w t).
  destruct (adds_one (mDeviceState t) q t) as (n1 & H1 & A1 & L1). set (t1 := if decide _ then _ else _) in *.
  destruct (change_loop ws w q (mPendingChangeQueue t1) t1) as [p' t'] eqn:E.
  apply change_loop_adds in E as (n2 & H2 & A2 & L2). destruct (adds_trans _ _ _ _ _ H1 H2) as [E D].
  exists (n1 ++ n2). split_and!; [exact E| |].
  - apply alternates_app. split; [done|]. by rewrite L1.
  - cbn. by rewrite last_app_default, L1.
Qed.

(** What is left to tell. *)
Definition rest (s : system) : list ComponentState := match pc s with TNotify l => l | _ => [] end.

Record tracker_inv (s : system) : Prop := {
  si_alternates : alternates IDLE (told s ++ rest s);
  si_last : parent_alive s = true -> List.last (told s ++ rest s) IDLE = mDeviceState (tracker s);
  si_empty : (forall l, pc s <> TNotify l) -> mStateTransitions (tracker s) = []
}.

Lemma start_inv w : tracker_inv (start w).
Proof. by split. Qed.

Lemma tracker_step_inv s s' : tracker_inv s -> st_step s s' -> tracker_inv s'.
Proof.
  intros [Ha Hl He]. destruct 1 as [name err id t s E|id s|n s E|id f s|id s|w s E|s|s|s E|s E _|ws s E Ew|x l s E|s E].
  - revert E. unfold addComponent. destruct (_ <? 2 ^ 31 - 1); [|done]. intros [= _ <-]. by split.
  - by split.
  - by split.
  - by split.
  - by split.
  - by split.
  - by split.
  - by split.
  - unfold rest in *. rewrite E in *. split; cbn; [by destruct (exit_pending s)|by destruct (exit_pending s)|].
    intros _. by apply He.
  - unfold rest in *. rewrite E in *. split; cbn; [done|done|]. intros _. by apply He.
  - unfold rest in *. subst t. rewrite E in *. rewrite app_nil_r in *. destruct (process_adds (world s) ws (tracker s)) as (new & En & An & Ln).
    rewrite He in En by done. split; cbn; [| |intros Hn; by destruct (Hn _ eq_refl)].
    + destruct (parent_alive s); [|by rewrite app_nil_r]. apply alternates_app. split; [done|]. rewrite Hl, En by done. exact An.
    + intros Hp. rewrite Hp, last_app_default, Hl, En by done. by symmetry.
  - unfold rest in *. rewrite E in *. split; cbn; [|intros Hp|intros Hn; by destruct (Hn _ eq_refl)].
    + by rewrite <- app_assoc.
    + rewrite <- app_assoc. by apply Hl.
  - unfold rest in *. rewrite E in *. split; cbn; [by destruct (exit_pending s)|by destruct (exit_pending s)|done].
Qed.

Lemma reach_inv s s' : rtc st_step s s' -> tracker_inv s -> tracker_inv s'.
Proof. induction 1; eauto using tracker_step_inv. Qed.

(** ** One round of the thread *)

(** A change applied to the states and the fence; a component that is not known is
    ignored. *)
Definition settle (x : gmap Z ComponentState * F) (c : StateChange) : gmap Z ComponentState * F :=
  match x.1 !! sc_id c with
  | None => x
  | Some _ => (<[sc_id c := sc_state c]> x.1, fence_merge x.2 (sc_fence c))
  end.

Definition view (t : StatusTracker) : gmap Z ComponentState * F := (mStates t, mIdleFence t).

(** The collective state is idle exactly if every component is and the fences have
    signalled. *)
Definition quiet (w : W) (x : gmap Z ComponentState * F) : Prop :=
  (forall id, x.1 !! id <> Some ACTIVE) /\ fence_done w x.2 = true.

Lemma device_idle w t : getDeviceStateLocked w t = IDLE <-> quiet w (view t).
Proof.
  unfold getDeviceStateLocked, quiet, view. cbn.
  destruct (existsb _ (map_to_list (mStates t))) eqn:E.
  - apply existsb_exists in E as ([id q] & Hin%list_elem_of_In%elem_of_map_to_list & Hq%bool_decide_eq_true_1).
    cbn in Hq. subst q.
    split; [done|]. intros [Hn _]. by destruct (Hn id).
  - split; [intros Hf|intros [_ ->]; done]. split; [|by destruct (fence_done w (mIdleFence t))].
    intros id Hid. enough (existsb (fun x => bool_decide (x.2 = ACTIVE)) (map_to_list (mStates t)) = true) by congruence.
    apply existsb_exists. exists (id, ACTIVE). split; [by apply list_elem_of_In, elem_of_map_to_list|done].
Qed.

Lemma device_of_view w t t' : view t = view t' -> getDeviceStateLocked w t = getDeviceStateLocked w t'.
Proof. unfold view, getDeviceStateLocked. by intros [= -> ->]. Qed.

Lemma noted_view (p q : ComponentState) t :
  let t' := if decide (q = p) then t else t <| mStateTransitions := mStateTransitions t ++ [q] |> in
  view t' = view t /\ mPendingChangeQueue t' = mPendingChangeQueue t.
Proof. cbn. by destruct (decide (q = p)). Qed.

Lemma change_loop_settles w l t p' t' :
  change_loop [] w (getDeviceStateLocked w t) l t = (p', t') ->
  view t' = foldl settle (view t) l /\ p' = getDeviceStateLocked w t'.
Proof.
  revert t; induction l as [|c l IH]; intros t; cbn [change_loop foldl].
  { by intros [= <- <-]. }
  unfold settle at 2. cbn [view fst snd]. destruct (mStates t !! sc_id c); [|apply IH].
  set (t1 := t <| mStates := _ |> <| mIdleFence := _ |>). set (q := getDeviceStateLocked w t1).
  set (t2 := if decide _ then _ else _).
  assert (view t2 = view t1) as Hv by (apply (noted_view (getDeviceStateLocked w t) q t1)).
  assert (q = getDeviceStateLocked w t2) as Hq by (symmetry; by apply device_of_view).
  rewrite Hq. intros [Hv' ->]%IH. split; [|done]. by rewrite Hv', Hv.
Qed.

Lemma process_settles w t :
  let t' := process_changes w [] t in
  view t' = foldl settle (view t) (mPendingChangeQueue t) /\ mDeviceState t' = getDeviceStateLocked w t' /\
  mPendingChangeQueue t' = [].
Proof.
  unfold process_changes. set (t1 := if decide _ then _ else _).
  assert (view t1 = view t /\ mPendingChangeQueue t1 = mPendingChangeQueue t) as [Hv Hq]
    by apply noted_view.
  assert (getDeviceStateLocked w t = getDeviceStateLocked w t1) as -> by (symmetry; by apply device_of_view).
  destruct (change_loop [] w _ _ t1) as [p' t'] eqn:E. apply change_loop_settles in E as [Hv' ->].
  cbn. split_and!; [|by apply device_of_view|done]. by rewrite <- Hv, <- Hq.
Qed.

(** A round looks at the fence of every change of a known component. *)
Lemma settle_fence {FOK : FencesOk W F FS} w l x :
  fence_done w (foldl settle x l).2 = true <->
  fence_done w x.2 = true /\ Forall (fun c => is_Some (x.1 !! sc_id c) -> fence_done w (sc_fence c) = true) l.
Proof.
  revert x; induction l as [|c l IH]; intros x; cbn [foldl].
  { split; [intros Hx; split; [done|constructor]|by intros [? _]]. }
  rewrite IH, Forall_cons. unfold settle at 1 2. destruct (x.1 !! sc_id c) as [q|] eqn:E.
  - cbn. rewrite merge_done, andb_true_iff.
    assert (Forall (fun c0 => is_Some (<[sc_id c := sc_state c]> x.1 !! sc_id c0) -> fence_done w (sc_fence c0) = true) l <->
            Forall (fun c0 => is_Some (x.1 !! sc_id c0) -> fence_done w (sc_fence c0) = true) l) as ->.
    { apply Forall_iff. intros c0. rewrite lookup_insert_is_Some'. split; [naive_solver|].
      intros Hc [Heq|?]; [apply Hc; rewrite <- Heq, E; by eexists|by apply Hc]. }
    split; [intros [[? ?] ?]; split_and!; auto|intros (? & Hc & ?); split_and!; eauto].
  - split; [intros [? ?]; split_and!; auto; by intros []|tauto].
Qed.

(** The steps of the thread are those that move it. *)
Definition thread_step (s s' : system) : Prop := st_step s s' /\ pc s' <> pc s.

Lemma tell_all s l :
  pc s = TNotify l -> rtc thread_step s (s <| pc := TNotify [] |> <| told := told s ++ l |>).
Proof.
  revert s; induction l as [|x l IH]; intros s E.
  - rewrite app_nil_r. replace (s <| pc := TNotify [] |> <| told := told s |>) with s; [apply rtc_refl|].
    destruct s; cbn in *. by subst.
  - eapply rtc_l; [split; [by apply (step_tell x l)|]|].
    + cbn. rewrite E. clear. intros [= Hl]. apply (f_equal length) in Hl. cbn in Hl. lia.
    + set (s1 := s <| pc := TNotify l |> <| told := told s ++ [x] |>).
      replace (s <| pc := TNotify [] |> <| told := told s ++ x :: l |>)
        with (s1 <| pc := TNotify [] |> <| told := told s1 ++ l |>); [by apply IH|].
      unfold s1. cbn. by rewrite <- app_assoc.
Qed.

(** One round from the wait, in which nothing else happens. *)
Lemma one_round s :
  pc s = TWait -> exit_pending s = false -> parent_alive s = true -> mStateTransitions (tracker s) = [] ->
  let t := process_changes (world s) [] (tracker s) in
  rtc thread_step s (s <| tracker := t <| mStateTransitions := [] |> |> <| told := told s ++ mStateTransitions t |>).
Proof.
  intros Epc Eex Epar Etr t.
  eapply rtc_l; [split; [by apply step_wake|cbn; by rewrite Eex, Epc]|]. rewrite Eex.
  eapply rtc_l; [split; [by apply (step_process [])|done]|]. cbn [parent_alive world tracker]. fold t. cbn. rewrite Epar.
  etrans; [by apply tell_all|]. cbn.
  eapply rtc_l; [split; [by apply step_told|by cbn; rewrite Eex]|]. cbn. rewrite Eex.
  match goal with |- rtc _ ?a ?b => replace b with a; [apply rtc_refl|] end. by rewrite <- Epc.
Qed.

(** ** Theorems *)

(** C19. Under every interleaving of the components, the thread, the fences and the
    end of the device, [notifyStatus] is called with active and idle in turn, active
    first; and while the device lives, what it heard last is the state the tracker
    has for it, once the thread has told it everything. *)
Theorem status_alternates w s :
  rtc st_step (start w) s ->
  alternates IDLE (told s) /\
  (parent_alive s = true -> rest s = [] -> List.last (told s) IDLE = mDeviceState (tracker s)).
Proof.
  intros Hs. destruct (reach_inv _ _ Hs (start_inv w)) as [Ha Hl _].
  split; [by apply alternates_app in Ha as [? _]|]. intros Hp Hr. specialize (Hl Hp). by rewrite Hr, app_nil_r in Hl.
Qed.

(** C20. The device hears the truth: from any state that is reached, a round of the
    thread in which nothing else happens works all reports off, and leaves the device
    told idle exactly if every component is idle then, the fences of before have
    signalled, and so have those of the reports of known components. *)
Theorem status_converges {FOK : FencesOk W F FS} w s :
  rtc st_step (start w) s -> pc s = TWait -> exit_pending s = false -> parent_alive s = true ->
  exists s', rtc thread_step s s' /\ pc s' = TWait /\ mPendingChangeQueue (tracker s') = [] /\
    mStates (tracker s') = (foldl settle (view (tracker s)) (mPendingChangeQueue (tracker s))).1 /\
    (List.last (told s') IDLE = IDLE <->
     (forall id, mStates (tracker s') !! id <> Some ACTIVE) /\
     fence_done (world s) (mIdleFence (tracker s)) = true /\
     Forall (fun c => is_Some (mStates (tracker s) !! sc_id c) -> fence_done (world s) (sc_fence c) = true)
       (mPendingChangeQueue (tracker s))).
Proof.
  intros Hs Epc Eex Epar. destruct (reach_inv _ _ Hs (start_inv w)) as [Ha Hl He]. unfold rest in *. rewrite Epc, app_nil_r in *.
  specialize (He ltac:(done)). specialize (Hl Epar).
  eexists. split; [by apply one_round|]. cbn.
  destruct (process_settles (world s) (tracker s)) as (Hv & Hd & Hq).
  destruct (process_adds (world s) [] (tracker s)) as (new & En & _ & Ln). rewrite He in En. cbn in En.
  split; [done|]. split; [done|]. split; [by rewrite <- Hv|].
  rewrite last_app_default, Hl, En, <- Ln, Hd, device_idle. unfold quiet. rewrite Hv, settle_fence. by rewrite <- Hv.
Qed.

End tracker.
Arguments StateChange : clear implicits.
Arguments StatusTracker : clear implicits.
Arguments system : clear implicits.

(** ** Witnesses: fences by the time at which they signal *)

#[export] Instance time_fences : Fences nat nat := {
  new_Fence := 0%nat;
  NO_FENCE := 0%nat;
  fence_merge := Nat.max;
  fence_done w f := Nat.leb f w;
  later := Nat.le
}.

#[export] Instance time_fences_ok : FencesOk nat nat time_fences.
Proof.
  split; cbn; [done|done| |].
  - intros w f g. apply eq_bool_prop_intro. rewrite andb_True, !Is_true_true, !Nat.leb_le. lia.
  - intros w w' f Hw Hf. apply Nat.leb_le in Hf. apply Nat.leb_le. unfold later in Hw. cbn in Hw. lia.
Qed.

(** A component is added, becomes active and idle again, with a fence that signals at 5. *)
Definition ex_change (q : ComponentState) (f : nat) : StateChange nat := {| sc_id := 0; sc_state := q; sc_fence := f |}.
Definition ex_tracker : StatusTracker nat :=
  {| mPendingChangeQueue := [ex_change ACTIVE 0; ex_change IDLE 5]; mComponentsChanged := true; mNextComponentId := 1;
     mStates := {[0 := IDLE]}; mComponentNames := {[0 := "0"%string]}; mIdleFence := 0%nat; mDeviceState := IDLE;
     mStateTransitions := [] |}.
Definition ex_system (w : nat) : system nat nat :=
  {| tracker := ex_tracker; pc := TWait; half := 0; world := w; parent_alive := true; exit_pending := false; told := [] |}.

Lemma ex_reached (w : nat) : rtc st_step (start 0%nat) (ex_system w).
Proof.
  eapply rtc_l; [apply (step_add String.EmptyString 0 0); reflexivity|].
  eapply rtc_l; [apply (step_changed 0); reflexivity|].
  eapply rtc_l; [apply (step_active 0)|].
  eapply rtc_l; [apply (step_idle 0 5%nat)|].
  eapply rtc_l; [apply (step_time w); cbn; lia|]. apply rtc_refl.
Qed.

Lemma status_alternates_witness : alternates IDLE (told (ex_system 5)).
Proof. exact (proj1 (status_alternates 0%nat (ex_system 5) (ex_reached 5))). Defined.

Lemma status_converges_witness :
  exists s', rtc thread_step (ex_system 5) s' /\ List.last (told s') IDLE = IDLE.
Proof.
  destruct (status_converges 0%nat (ex_system 5) (ex_reached 5) eq_refl eq_refl eq_refl)
    as (s' & Hrun & _ & _ & Hst & Hiff).
  exists s'. split; [exact Hrun|]. apply Hiff. split; [|split].
  - rewrite Hst. intros id. change ((foldl settle (view (tracker (ex_system 5))) (mPendingChangeQueue (tracker (ex_system 5)))).1)
      with ({[0 := IDLE]} : gmap Z ComponentState).
    intros [_ Hq]%lookup_singleton_Some. discriminate Hq.
  - reflexivity.
  - repeat constructor.
Defined.
